(* ===== verification/_CoqProject ===== *)
-Q . S2P
Prelude.v
Bio.v
Blake2b.v
Sha3.v
Hash.v
Bn.v
Header.v
Base32.v
Addr.v
Timedata.v
Chain.v
ChainInv.v
ChainSpec.v
ChainQuery.v
ChainAdd.v
ChainProps.v
Proof.v
ProofSpec.v
ProofProps.v
Msg.v
Map.v
MapSpec.v
MapInv.v
MapResize.v
MapProps.v
Hex.v
DnsName.v
DnsNameProps.v
DnsLabels.v
DnsRecord.v
DnsItems.v
DnsCodec.v
DnsMsg.v
DnsMsgSpec.v
DnsTruncate.v
DnsMsgProps.v
DnsSafe.v
Sha256.v
Sha256Props.v
Hkdf.v
Dnssec.v
DnssecProps.v
Host.v
HostProps.v
Resource.v
ResourceProps.v
AnswerProps.v
Sig0.v
Sig0Props.v
Req.v
ReqProps.v
Cache.v
CacheProps.v
Hesiod.v
HesiodProps.v
Ns.v
TldProps.v
NsProps.v
Chacha20.v
Chacha20Props.v
Poly1305.v
Poly1305Props.v
Aead.v
Ec.v
Brontide.v
BrontideSpec.v
BrontideLoop.v
BrontideFrame.v
BrontideSafe.v
BrontideSession.v
BrontideProps.v
MapTable.v
Addrman.v
AddrmanProps.v
