(* ===== verification/Prelude.v ===== *)
(** * A verification of hnsd, the Handshake light client

    The repository packages the C program [hnsd] (under [src/reference/hnsd-reference/src];
    file names below are relative to it): a light client of the Handshake chain that
    follows block headers, asks peers for proofs of names and answers DNS queries
    from them. This library models the parts of the program that decide what it
    believes and what it answers: the byte readers, the hash functions, the big integers of
    the proof-of-work rule, block headers, network time, network addresses, the header
    chain, the proofs of names, the messages of peers and their encrypted transport, the
    hash table, the addresses of peers, DNS messages with their signatures, the resources of names, the cache and the
    authoritative name server.

    ** Parts of the program and how they interact

    The pool of peers ([pool.c]) reads messages ([msg.c]) with the readers of [bio.h], and
    passes block headers ([header.c]) to the chain ([chain.c]). The chain hashes a
    header with BLAKE2b and SHA-3 ([blake2b.c], [sha3.c] through [hash.c]), compares
    the hash with the compact target, computes work and the next difficulty with
    512-bit integers ([bn.c]), takes the time from the samples of the peers
    ([timedata.c]), keeps orphans, switches to the branch with the most work, and
    offers a locator to the pool and a name root to the resolver. The answer of a peer
    to a name is a proof ([proof-radix.c], included by [proof.c]) that is verified
    against that root. Addresses of peers ([addr.c]) carry identity keys that are written in base 32 ([base32.c]).
    A peer with such a key is reached through an encrypted transport ([brontide.c]): a handshake with
    keys of secp256k1 ([ec.c]), then frames that are encrypted and authenticated ([aead.c] over
    [chacha20.c] and [poly1305.c]) with keys that change every 1000 messages ([hash.c] over SHA-256).
    Which peer is tried next is the choice of the address manager ([addrmgr.c]), which keeps up to 2000
    addresses in an array with a hash table ([map.c]) over it.

    The name server ([ns.c]) makes a request ([req.c]) of each datagram, which is a DNS
    message ([dns.c]). It answers from the cache ([cache.c], over the hash table [map.c]),
    from the state of the program ([hesiod.c]), from the name itself ("_synth." names, which
    hold an address in base 32), from the root zone, or from the resource ([resource.c])
    that the pool proves for the top-level name; a name without one may be in the table of
    [tld.h]. Answers hold records that are signed ([dnssec.c] and the section on DNSSEC of
    [dns.c], over SHA-256), are cut to the size that the client takes, and are signed
    as a whole if the server has a key ([sig0.c]).

    ** Files

    - [Prelude]: outcomes of C code, machine integers, bytes, the interface
      [Codec] of a wire format, tactics and hints. Below.
    - [Bio]: [bio.h], readers and writers on cursors, variable-length integers.
    - [Blake2b], [Sha3], [Hash]: [blake2b.c], [sha3.c], [hash.c].
    - [Bn]: [bn.c].
    - [Header]: [header.c], with the genesis block of [genesis.h].
    - [Base32], [Addr]: [base32.c], [addr.c].
    - [Timedata]: [timedata.c].
    - [Chain]: the definitions of [chain.c] and [constants.h]. [ChainInv]: the
      invariant of the chain, paths of parents and the search for a fork.
      [ChainSpec]: reorganisation, retargeting and insertion. [ChainQuery]: median
      time, locator, safe root. [ChainAdd]: [hsk_chain_add], the orphan loop, runs.
      [ChainProps]: the properties of the chain, with a sample run.
    - [Proof]: [proof-radix.c]. [ProofSpec]: the name tree as an abstract data type with
      its hash, and what the verifier computes. [ProofProps]: the prover, the reader
      and the properties of proofs.
    - [Msg]: [msg.c], the messages of peers, with their properties.
    - [Map]: [map.c], an open-addressing table. [MapSpec], [MapInv], [MapResize]: its flag bits,
      its invariant and the rehashing in place. [MapProps]: the table against finite maps.
      [MapTable]: a table of bounded size, as its users keep it.
    - [Addrman], [AddrmanProps]: [addrmgr.c] with the seeds of [seeds.h], over the questions of
      the class [PoolHost].
    - [Hex]: hexadecimal text of [utils.c].
    - [DnsName], [DnsRecord], [DnsMsg]: the sections of [dns.c] on names and labels, on records
      and on messages. [DnsNameProps], [DnsLabels], [DnsItems], [DnsCodec], [DnsMsgSpec],
      [DnsTruncate]: what is proved of them, up to [DnsMsgProps]. [DnsSafe]: the same for
      messages that need not be readable.
    - [Sha256], [Hkdf]: [sha256.c] and the helpers of [hash.c] over it. [Sha256Props]: the
      code against FIPS 180-4.
    - [Dnssec], [DnssecProps]: [dnssec.c] and the signing of records in [dns.c].
    - [Host]: what the resolver asks of the C library and of the curves, as an interface,
      and the monad [io] of routines that ask. [HostProps]: rules for runs of them.
    - [Resource]: [resource.c] and the dates of [utils.c]. [ResourceProps]: decoding.
      [AnswerProps]: the answers that are made from resources and for the root zone.
    - [Sig0], [Sig0Props]: [sig0.c]. [Req], [ReqProps]: [req.c]. [Cache], [CacheProps]:
      [cache.c]. [Hesiod], [HesiodProps]: [hesiod.c].
    - [Ns]: [ns.c]. [TldProps]: the search in the table of names. [NsProps]: runs of the server.
    - [Chacha20], [Poly1305], [Aead]: [chacha20.c], [poly1305.c] and [aead.c]. [Chacha20Props],
      [Poly1305Props] and the end of [Aead]: the code against RFC 8439.
    - [Ec]: [ec.c] over the operations of secp256k1, an interface with its laws.
    - [Brontide]: [brontide.c]. [BrontideSpec]: keys and the acts of the handshake as functions.
      [BrontideLoop]: the loop that cuts a stream. [BrontideFrame]: frames and callbacks.
      [BrontideSafe]: a client and any peer. [BrontideSession]: what one end knows of its streams.
      [BrontideProps]: two ends over a network.

    A definition has the name of the C function it models. A loop is a [Fixpoint]
    with the same name as its function and the suffix [_loop], or a fold. A long
    function is cut into definitions named after what the part does.

    ** How C is modelled

    Integers are [Z], kept in range by [u8] ... [u64] and [i8] ... [i64] where the code
    assigns to a variable of that width. Bytes are [list Z]. A [struct] is a [Record], a C
    string the list of its characters before the terminator.
    A cursor [uint8_t **data, size_t *data_len] is the list of bytes that remain, and
    a function that moves it is in the monad [rd]; a function that writes, or only
    counts when the pointer is null, is in [wr]. A function that returns [false] is
    [Fail]; undefined behaviour, failed assertions and loops that do not end are
    [Fault]s, so that a theorem that says [Ret] excludes them all. Allocation that
    can fail is an argument or, in the chain, a list of answers in the state; in the
    resolver it is a question to the [Host], as is the clock. The functions of libuv that
    parse and print addresses are parameters of [Addr], with the round trip that is used as
    hypotheses; the curves are parameters, of which the theorems use the sizes of keys and
    signatures; for the transport they are the
    class [Secp256k1], with the laws of a group in [Secp256k1Laws] and a small group as an instance.
    A function pointer is a program of the owner that may call back ([prog] in [Brontide]); random
    numbers, blocks of memory and results of writes are functions of how many were asked for. The
    choice of an address calculates with [double]s: those of the Standard Library ([SpecFloat]).
    Asserts are taken to be compiled in, as the program needs (it has effects in them).

    The pool is an interface of the server ([Pool]): it takes a request or refuses it, and the
    call back is an event of a run. [PoolOk] says that it keeps what it takes until then.
    The table of [tld.h] is a parameter with its order as a hypothesis.

    ** Fuel

    Loops that are not structural take fuel, and a theorem shows that what is given is
    enough: [hsk_bn_div] runs for the bits of the dividend, [pow_loop] for the value of
    the exponent; the walks over parents ([ancestor_loop], [descend], [collect],
    [find_fork_loop]) for one more than the height of their start, as heights decrease
    by one; [locator_loop] for the height of the tip, which decreases; [orphan_loop] for
    the number of waiting orphans, as each turn takes one away; the probes of the hash
    table for its buckets, of which one is empty, and its rehashing for the entries that are
    left; the parser of names ([parse_fuel]) for ten pointers and the labels of 255
    bytes; the readers of texts and records for the bytes that are left, as each takes one;
    the blocks of SHA-256 for the bytes; [index_loop] for one more than the names of the
    table, as the interval shrinks; the blocks of ChaCha20 and Poly1305 for the bytes; the search for
    a private key for the 1002 tries after which the code gives up; the search for an address to try for
    45 rounds, after which the chance of every entry is one; [read_loop] for one more than
    the bytes, as each message takes one. The permutation of
    Keccak and the rounds of BLAKE2b are counted. Where a loop of the program does not
    end, the theorem says so for every fuel ([hsk_bn_div_correct] for a zero divisor,
    [slice_ascii_spec] for sizes above 255).

    ** What the theorems show

    - Chain: [hsk_chain_add] is total on every decoded header and keeps the invariant;
      its code and the chain afterwards on every branch, with the orphans that are released; after any run the chain follows the best
      chain rule; reorganisations; the retarget as arithmetic; totality and bounds of
      the locator, the median time and the safe root. A run of fewer than [2 ^ 32 - 1]
      calls is covered, the bound that keeps heights in 32 bits.
    - Proofs of names: an accepted proof tells the truth about the tree with that root,
      up to collisions among the messages that are hashed; every tree has a proof for
      every key; no bytes from a peer make the reader or the verifier fail an
      assertion or leave a buffer.
    - Name server: from an open server any run of datagrams and call backs, whatever the
      resources that are complete, returns without a fault, and what was sent and what
      waits account for the queries one for one, but for Hesiod queries from elsewhere, which
      may be refused; when the pool has called back for all, every other query has been
      answered exactly once ([NsProps]). The queries are those that do not reach the known
      defects ([served]), the host has memory and sends, and the key of the server, if
      any, is one that the curve accepts.
    - Requests, answers, cache: exactly which datagrams are queries; an answer keeps to the
      size that the client takes and, for names of at most ten labels, is read back by it, with
      its signature; which records answer a name, from its
      resource alone; the cache is a finite map of bounded size whose entries expire, by the times that
      each operation reads; what Hesiod queries tell, and what they do without memory; the search in the
      table of names ends and is right; a message that is signed is verified within its time, and
      what is verified is a message whose hash, times included, was signed.
    - Wire formats: headers, proofs, messages of peers, DNS messages with compressed names,
      resources, network addresses, variable-length integers and base 32
      are round trips, with exact lengths and failures; any bytes are read into well-typed
      data or refused; truncation leaves the longest prefix of items; independence of byte order.
    - Hash table: every operation refines the one on finite maps, for any order of
      operations, any hash function and any allocations that fail; resizing ends and keeps the entries.
    - Address manager: with memory, any run of its operations returns, the search included; the table is
      an index of the array; a picked address is valid and not connected.
    - Encrypted transport: the ciphers are those of RFC 8439; no bytes from a peer make a client that
      was started fail an assertion, leave a buffer or loop, with one exception, when there is no memory
      for its first buffer; two ends that know each other's key
      finish the handshake over a network that keeps the order of bytes, and each then
      reads what the other wrote, in order, across changes of keys.
    - Signatures: the digest that DNSSEC signs is that of the canonical form of the set.
    - Hashes: SHA-256 and HKDF are those of their standards; a digest does not depend on how
      the input is cut into pieces or on the
      alignment of the buffers; results are checked against published vectors and
      the hash of the genesis block.
    - Numbers: the operations of [bn.c] are those of integers modulo [2 ^ 512];
      compact targets and work.
    - Network time: sorted bounded samples, bounded offset.
    - Where the code deviates from its purpose, the theorem states what it does: right
      shifts of whole words, the sizes of varints, compact exponents above 34, the
      insertion of time samples, the sign of the offset, sibling orphans, chains of
      compression pointers, the array of 255 records of a resource, labels that hold an empty address.

    ** Not modelled

    Event-loop glue ([daemon.c], [rs.c] and [rs_worker.c] with libunbound, sockets and timers),
    random numbers, logging, the release of memory, vendored code (libuv, secp256k1) and [ecc.c];
    the data of [tld.h] and of [checkpoints.h]; the JavaScript wrapper. Of the pool ([pool.c]) what
    the server relies on is the interface [PoolOk]; its peers are driven by the sockets, timers and
    resolver of libuv. A failed allocation while the chain connects a header is modelled, but no theorem
    is about it. The field [next] of the headers, which a reorganisation uses for its lists, and with it
    [assert(!entry->next)] are left out: the lists are values. [store.c] is file
    input and output around the codec of headers. [siphash.c] is not called. *)

From stdpp Require Export prelude list gmap.
From Stdlib Require Export ZArith Lia.

#[global] Open Scope Z_scope.

(** * Outcomes of a C routine

    [Ret a] is a normal return, [Fail] is the [return false] path, and [Fault]
    covers what the C abstract machine does not define or what stops the
    process: a read past the end of the buffer, a loop that never ends, a failed
    [assert], the use of a null pointer, a write past the end of the buffer. *)

Inductive fault := Overread | Hang | AssertFail | NullDeref | Overflow.

Inductive outcome (A : Type) :=
  | Ret (a : A)
  | Fail
  | Fault (f : fault).
Arguments Ret {A} a.
Arguments Fail {A}.
Arguments Fault {A} f.

Definition obind {A B} (m : outcome A) (k : A -> outcome B) : outcome B :=
  match m with
  | Ret a => k a
  | Fail => Fail
  | Fault f => Fault f
  end.

Definition oassert (b : bool) : outcome unit :=
  if b then Ret tt else Fault AssertFail.

Definition of_option {A} (f : fault) (o : option A) : outcome A :=
  match o with Some a => Ret a | None => Fault f end.

(** A reader consumes a prefix of the bytes that remain: it models a C function
    that takes [uint8_t **data, size_t *data_len] and returns a [bool]. *)
Definition rd (A : Type) := list Z -> outcome (A * list Z).

Definition rret {A} (a : A) : rd A := fun d => Ret (a, d).
Definition rfail {A} : rd A := fun _ => Fail.
Definition rfault {A} (f : fault) : rd A := fun _ => Fault f.

Definition rbind {A B} (m : rd A) (k : A -> rd B) : rd B := fun d =>
  match m d with
  | Ret (a, d') => k a d'
  | Fail => Fail
  | Fault f => Fault f
  end.

(** [if (!b) return false;] *)
Definition rguard (b : bool) : rd unit := if b then rret tt else rfail.

Fixpoint rrepeat {A} (n : nat) (m : rd A) : rd (list A) :=
  match n with
  | O => rret []
  | S n' => rbind m (fun a => rbind (rrepeat n' m) (fun l => rret (a :: l)))
  end.

(** A writer models a C function that takes [uint8_t **data] and returns the
    number of bytes: [None] is a null destination (the size computation), and
    [Some acc] is a destination that already holds the bytes [acc]. *)
Definition wr := option (list Z) -> Z * option (list Z).

Definition wret : wr := fun o => (0, o).

Definition wseq (w1 w2 : wr) : wr := fun o =>
  let '(s1, o1) := w1 o in
  let '(s2, o2) := w2 o1 in
  (s1 + s2, o2).

Fixpoint wconcat (ws : list wr) : wr :=
  match ws with
  | [] => wret
  | w :: ws' => wseq w (wconcat ws')
  end.

(** The error codes of [error.h]. *)
Definition HSK_SUCCESS : Z := 0.
Definition HSK_ENOMEM : Z := 1.
Definition HSK_ETIMEOUT : Z := 2.
Definition HSK_EFAILURE : Z := 3.
Definition HSK_EBADARGS : Z := 4.
Definition HSK_EENCODING : Z := 5.
Definition HSK_EPROOFOK : Z := 0.
Definition HSK_EHASHMISMATCH : Z := 6.
Definition HSK_ESAMEKEY : Z := 7.
Definition HSK_ESAMEPATH : Z := 8.
Definition HSK_ENEGDEPTH : Z := 9.
Definition HSK_EPATHMISMATCH : Z := 10.
Definition HSK_ETOODEEP : Z := 11.
Definition HSK_EUNKNOWNERROR : Z := 12.
Definition HSK_EMALFORMEDNODE : Z := 13.
Definition HSK_EINVALIDNODE : Z := 14.
Definition HSK_EEARLYEND : Z := 15.
Definition HSK_ENORESULT : Z := 16.
Definition HSK_EUNEXPECTEDNODE : Z := 17.
Definition HSK_ERECORDMISMATCH : Z := 18.
Definition HSK_ENEGTARGET : Z := 19.
Definition HSK_EHIGHHASH : Z := 20.
Definition HSK_ETIMETOONEW : Z := 21.
Definition HSK_EDUPLICATE : Z := 22.
Definition HSK_EDUPLICATEORPHAN : Z := 23.
Definition HSK_ETIMETOOOLD : Z := 24.
Definition HSK_EBADDIFFBITS : Z := 25.
Definition HSK_EORPHAN : Z := 26.

Declare Scope hsk_scope.
Delimit Scope hsk_scope with hsk.
Notation "x <- m ;; k" := (rbind m (fun x => k))
  (at level 100, m at next level, right associativity) : hsk_scope.
Notation "m ;;; k" := (rbind m (fun _ => k))
  (at level 100, right associativity) : hsk_scope.
Notation "'let*' x ':=' m 'in' k" := (obind m (fun x => k))
  (at level 10, x pattern, m at level 100, k at level 200) : hsk_scope.
Notation "w1 +++ w2" := (wseq w1 w2) (at level 60, right associativity) : hsk_scope.
#[global] Open Scope hsk_scope.

(** * Machine integers *)

Definition u8 (x : Z) : Z := x mod 2 ^ 8.
Definition u16 (x : Z) : Z := x mod 2 ^ 16.
Definition u32 (x : Z) : Z := x mod 2 ^ 32.
Definition u64 (x : Z) : Z := x mod 2 ^ 64.

Definition swrap (w x : Z) : Z := (x + 2 ^ (w - 1)) mod 2 ^ w - 2 ^ (w - 1).
Definition i8 (x : Z) : Z := swrap 8 x.
Definition i16 (x : Z) : Z := swrap 16 x.
Definition i32 (x : Z) : Z := swrap 32 x.
Definition i64 (x : Z) : Z := swrap 64 x.

Lemma u8_range x : 0 <= u8 x < 256.
Proof. apply Z.mod_pos_bound. lia. Qed.
Lemma u16_range x : 0 <= u16 x < 2 ^ 16.
Proof. apply Z.mod_pos_bound. lia. Qed.
Lemma u32_range x : 0 <= u32 x < 2 ^ 32.
Proof. apply Z.mod_pos_bound. lia. Qed.
Lemma u64_range x : 0 <= u64 x < 2 ^ 64.
Proof. apply Z.mod_pos_bound. lia. Qed.
Lemma u8_small x : 0 <= x < 256 -> u8 x = x.
Proof. apply Z.mod_small. Qed.
Lemma u16_small x : 0 <= x < 2 ^ 16 -> u16 x = x.
Proof. apply Z.mod_small. Qed.
Lemma u32_small x : 0 <= x < 2 ^ 32 -> u32 x = x.
Proof. apply Z.mod_small. Qed.
Lemma u64_small x : 0 <= x < 2 ^ 64 -> u64 x = x.
Proof. apply Z.mod_small. Qed.

(** Linear arithmetic with division and remainder by constants. *)
Ltac dlia := Z.to_euclidean_division_equations; lia.

(** * Bytes *)

Abbreviation is_byte := (fun b : Z => 0 <= b < 256).
Definition bytes (l : list Z) : Prop := Forall is_byte l.
Definition bytes_n (n : nat) (l : list Z) : Prop := length l = n /\ bytes l.

#[global] Instance bytes_dec l : Decision (bytes l).
Proof. unfold bytes. apply Forall_dec. intros b. solve_decision. Defined.
#[global] Instance bytes_n_dec n l : Decision (bytes_n n l).
Proof. unfold bytes_n. solve_decision. Defined.

Lemma bytes_nil : bytes [].
Proof. constructor. Qed.
Lemma bytes_cons b l : 0 <= b < 256 -> bytes l -> bytes (b :: l).
Proof. by constructor. Qed.
Lemma bytes_cons_inv b l : bytes (b :: l) -> 0 <= b < 256 /\ bytes l.
Proof. by intros [? ?]%Forall_cons_1. Qed.
Lemma bytes_app l k : bytes (l ++ k) <-> bytes l /\ bytes k.
Proof. apply Forall_app. Qed.
Lemma bytes_take n l : bytes l -> bytes (take n l).
Proof. apply Forall_take. Qed.
Lemma bytes_drop n l : bytes l -> bytes (drop n l).
Proof. apply Forall_drop. Qed.
Lemma bytes_reverse l : bytes l -> bytes (reverse l).
Proof. unfold bytes. by rewrite Forall_reverse. Qed.
Lemma bytes_replicate n b : 0 <= b < 256 -> bytes (replicate n b).
Proof. intros. by apply Forall_replicate. Qed.

(** Little-endian and big-endian values of a byte list. *)
Fixpoint le_combine (l : list Z) : Z :=
  match l with
  | [] => 0
  | b :: l' => b + 256 * le_combine l'
  end.
Definition be_combine (l : list Z) : Z := le_combine (reverse l).

Fixpoint le_split (n : nat) (z : Z) : list Z :=
  match n with
  | O => []
  | S n' => z mod 256 :: le_split n' (z / 256)
  end.
Definition be_split (n : nat) (z : Z) : list Z := reverse (le_split n z).

(** [memcmp] of two blocks of the same length. *)
Fixpoint memcmp (a b : list Z) : comparison :=
  match a, b with
  | x :: a', y :: b' =>
      match x ?= y with Eq => memcmp a' b' | c => c end
  | _, _ => Eq
  end.
Definition memeq (a b : list Z) : bool :=
  match memcmp a b with Eq => true | _ => false end.

Lemma length_le_split n z : length (le_split n z) = n.
Proof. revert z; induction n; intros; simpl; auto. Qed.
Lemma length_be_split n z : length (be_split n z) = n.
Proof. unfold be_split. by rewrite length_reverse, length_le_split. Qed.

Lemma bytes_le_split n z : bytes (le_split n z).
Proof.
  revert z; induction n; intros; simpl; [constructor|].
  apply bytes_cons; [apply Z.mod_pos_bound; lia|auto].
Qed.
Lemma bytes_be_split n z : bytes (be_split n z).
Proof. apply bytes_reverse, bytes_le_split. Qed.

Lemma le_combine_range l : bytes l -> 0 <= le_combine l < 256 ^ Z.of_nat (length l).
Proof.
  induction 1 as [|b l Hb Hl IH]; [simpl; lia|].
  cbn [le_combine length]. rewrite Nat2Z.inj_succ, Z.pow_succ_r by lia. lia.
Qed.
Lemma be_combine_range l : bytes l -> 0 <= be_combine l < 256 ^ Z.of_nat (length l).
Proof.
  intros H. unfold be_combine. rewrite <-(length_reverse l).
  by apply le_combine_range, bytes_reverse.
Qed.

Lemma le_combine_app l k :
  le_combine (l ++ k) = le_combine l + 256 ^ Z.of_nat (length l) * le_combine k.
Proof.
  induction l as [|b l IH]; [cbn; lia|].
  cbn [le_combine length app]. rewrite IH, Nat2Z.inj_succ, Z.pow_succ_r by lia. lia.
Qed.
Lemma be_combine_cons b l :
  be_combine (b :: l) = b * 256 ^ Z.of_nat (length l) + be_combine l.
Proof.
  unfold be_combine. rewrite reverse_cons, le_combine_app, length_reverse.
  cbn [le_combine]. lia.
Qed.
Lemma be_combine_app l k :
  be_combine (l ++ k) = be_combine l * 256 ^ Z.of_nat (length k) + be_combine k.
Proof. unfold be_combine. rewrite reverse_app, le_combine_app, length_reverse. lia. Qed.

Lemma le_combine_split n z : le_combine (le_split n z) = z mod 256 ^ Z.of_nat n.
Proof.
  revert z; induction n as [|n IH]; intros z; [cbn; by rewrite Z.mod_1_r|].
  cbn [le_split le_combine]. rewrite IH, Nat2Z.inj_succ, Z.pow_succ_r by lia.
  rewrite Z.rem_mul_r by lia. lia.
Qed.
Lemma be_combine_split n z : be_combine (be_split n z) = z mod 256 ^ Z.of_nat n.
Proof. unfold be_combine, be_split. by rewrite reverse_involutive, le_combine_split. Qed.

Lemma le_split_combine l : bytes l -> le_split (length l) (le_combine l) = l.
Proof.
  induction 1 as [|b l Hb Hl IH]; [done|].
  cbn [le_combine length le_split]. f_equal.
  - dlia.
  - replace (_ / 256) with (le_combine l) by dlia. done.
Qed.
Lemma be_split_combine l : bytes l -> be_split (length l) (be_combine l) = l.
Proof.
  intros H. unfold be_split, be_combine.
  rewrite <-(length_reverse l), le_split_combine by by apply bytes_reverse.
  apply reverse_involutive.
Qed.
Lemma le_combine_inj l k :
  length l = length k -> bytes l -> bytes k -> le_combine l = le_combine k -> l = k.
Proof.
  intros Hlen Hl Hk He.
  rewrite <-(le_split_combine l), <-(le_split_combine k) by done. by rewrite Hlen, He.
Qed.
Lemma be_combine_inj l k :
  length l = length k -> bytes l -> bytes k -> be_combine l = be_combine k -> l = k.
Proof.
  intros Hlen Hl Hk He. apply (inj reverse), le_combine_inj;
    rewrite ?length_reverse; auto using bytes_reverse.
Qed.
Lemma be_combine_replicate_0 n : be_combine (replicate n 0) = 0.
Proof. induction n; [done|]. cbn [replicate]. rewrite be_combine_cons. lia. Qed.

Lemma memcmp_be a b :
  length a = length b -> bytes a -> bytes b -> memcmp a b = (be_combine a ?= be_combine b).
Proof.
  revert b; induction a as [|x a IH]; intros [|y b] Hlen Ha Hb; try done.
  injection Hlen as Hlen. inversion_clear Ha. inversion_clear Hb.
  cbn [memcmp]. rewrite !be_combine_cons, Hlen.
  assert (Ra := be_combine_range a ltac:(done)). assert (Rb := be_combine_range b ltac:(done)).
  rewrite Hlen in Ra. set (P := 256 ^ Z.of_nat (length b)) in *.
  destruct (Z.compare_spec x y) as [->|Hlt|Hgt].
  - rewrite IH by done. destruct (Z.compare_spec (be_combine a) (be_combine b));
      symmetry; rewrite ?Z.compare_eq_iff, ?Z.compare_lt_iff, ?Z.compare_gt_iff; nia.
  - symmetry. rewrite Z.compare_lt_iff. nia.
  - symmetry. rewrite Z.compare_gt_iff. nia.
Qed.
Lemma memeq_spec a b : length a = length b -> memeq a b = true <-> a = b.
Proof.
  revert b; induction a as [|x a IH]; intros [|y b] Hlen; try done.
  injection Hlen as Hlen. unfold memeq in *. cbn [memcmp].
  destruct (Z.compare_spec x y) as [->|?|?].
  - rewrite IH by done. naive_solver.
  - split; [done|]. intros [= -> _]. lia.
  - split; [done|]. intros [= -> _]. lia.
Qed.
Lemma memeq_refl a : memeq a a = true.
Proof. by apply memeq_spec. Qed.

(** Bit operations on disjoint bit ranges. *)
Lemma lor_shiftl_add a b n :
  0 <= n -> 0 <= b < 2 ^ n -> Z.lor (Z.shiftl a n) b = a * 2 ^ n + b.
Proof.
  intros Hn Hb. assert (Hl : Z.land (Z.shiftl a n) b = 0).
  { apply Z.bits_inj'; intros i Hi. rewrite Z.land_spec, Z.shiftl_spec, Z.bits_0 by done.
    destruct (Z.lt_ge_cases i n); [by rewrite Z.testbit_neg_r by lia|].
    rewrite <-(Z.mod_small b (2 ^ n)), Z.mod_pow2_bits_high by lia. apply andb_false_r. }
  by rewrite <-Z.lxor_lor, <-Z.add_nocarry_lxor, Z.shiftl_mul_pow2 by done.
Qed.
Lemma lor_add_shiftl a b n :
  0 <= n -> 0 <= b < 2 ^ n -> Z.lor b (Z.shiftl a n) = b + a * 2 ^ n.
Proof. intros. rewrite Z.lor_comm, lor_shiftl_add by done. lia. Qed.
Lemma land_ones_mod a n : 0 <= n -> Z.land a (2 ^ n - 1) = a mod 2 ^ n.
Proof. intros. rewrite <-Z.land_ones by done. by rewrite Z.ones_equiv, <-Z.sub_1_r. Qed.

(** * Arrays and counted loops *)

Lemma nth_insert_eq {A} (l : list A) i x d : (i < length l)%nat -> nth i (<[i := x]> l) d = x.
Proof. intros. by rewrite nth_lookup, list_lookup_insert_eq. Qed.
Lemma nth_insert_ne {A} (l : list A) i j x d : i <> j -> nth j (<[i := x]> l) d = nth j l d.
Proof. intros. by rewrite !nth_lookup, list_lookup_insert_ne. Qed.

(** [for (i = s; i < s + n; i++)] with an invariant. *)
Lemma fold_left_seq_inv {A} (P : nat -> A -> Prop) (f : A -> nat -> A) s n a :
  P s a -> (forall i a, (s <= i < s + n)%nat -> P i a -> P (S i) (f a i)) ->
  P (s + n)%nat (fold_left f (seq s n) a).
Proof.
  revert s a; induction n as [|n IH]; intros s a Ha Hf; [by rewrite Nat.add_0_r|].
  cbn [seq fold_left]. rewrite <-Nat.add_succ_comm. apply IH.
  - apply Hf; [lia|done].
  - intros i a' Hi. apply Hf. lia.
Qed.

(** * Readers and writers, and what relates them *)

(** [r] parses exactly the bytes [bs] into [a], whatever follows. *)
Definition parses {A} (r : rd A) (bs : list Z) (a : A) : Prop :=
  forall rest, r (bs ++ rest) = Ret (a, rest).
(** [w] appends exactly the bytes [bs] and returns their number. *)
Definition emits (w : wr) (bs : list Z) : Prop :=
  forall acc, w (Some acc) = (Z.of_nat (length bs), Some (acc ++ bs)).
(** On a null destination [w] only returns the size [s]. *)
Definition sizes (w : wr) (s : Z) : Prop := w None = (s, None).

Lemma parses_ret {A} (a : A) : parses (rret a) [] a.
Proof. done. Qed.
Lemma parses_bind {A B} (m : rd A) (k : A -> rd B) bs cs a b :
  parses m bs a -> parses (k a) cs b -> parses (rbind m k) (bs ++ cs) b.
Proof. intros Hm Hk rest. unfold rbind. by rewrite <-(assoc_L (++)), Hm, Hk. Qed.
Lemma parses_bind_nil {A B} (m : rd A) (k : A -> rd B) bs a b :
  parses m bs a -> parses (k a) [] b -> parses (rbind m k) bs b.
Proof. intros. rewrite <-(app_nil_r bs). by eapply parses_bind. Qed.
Lemma parses_guard b : b = true -> parses (rguard b) [] tt.
Proof. by intros ->. Qed.
Lemma parses_repeat {A} (m : rd A) (wire : A -> list Z) (l : list A) :
  Forall (fun a => parses m (wire a) a) l ->
  parses (rrepeat (length l) m) (concat (map wire l)) l.
Proof.
  induction 1 as [|a l Ha Hl IH]; [apply parses_ret|].
  cbn [length rrepeat map concat]. eapply parses_bind; [done|].
  eapply parses_bind_nil; [done|]. apply parses_ret.
Qed.

Lemma emits_ret : emits wret [].
Proof. intros acc. unfold wret. by rewrite app_nil_r. Qed.
Lemma emits_seq w1 w2 bs cs : emits w1 bs -> emits w2 cs -> emits (w1 +++ w2) (bs ++ cs).
Proof.
  intros H1 H2 acc. unfold wseq. rewrite H1, H2, length_app.
  f_equal; [lia|]. by rewrite (assoc_L (++)).
Qed.
Lemma emits_concat {A} (w : A -> wr) (wire : A -> list Z) l :
  Forall (fun a => emits (w a) (wire a)) l ->
  emits (wconcat (map w l)) (concat (map wire l)).
Proof. induction 1; [apply emits_ret|]. by apply emits_seq. Qed.
Lemma sizes_ret : sizes wret 0.
Proof. done. Qed.
Lemma sizes_seq w1 w2 s1 s2 : sizes w1 s1 -> sizes w2 s2 -> sizes (w1 +++ w2) (s1 + s2).
Proof. intros H1 H2. unfold sizes, wseq. by rewrite H1, H2. Qed.
Lemma sizes_concat {A} (w : A -> wr) s l :
  Forall (fun a => sizes (w a) s) l -> sizes (wconcat (map w l)) (s * Z.of_nat (length l)).
Proof.
  induction 1 as [|a l Ha Hl IH]; [cbn; rewrite Z.mul_0_r; apply sizes_ret|].
  cbn [map wconcat length]. replace (s * Z.of_nat (S (length l)))
    with (s + s * Z.of_nat (length l)) by lia. by apply sizes_seq.
Qed.

(** [r] fails on fewer than [n] bytes and otherwise returns after taking [n]. *)
Definition takes {A} (r : rd A) (n : nat) : Prop := forall d,
  ((length d < n)%nat -> r d = Fail) /\
  ((n <= length d)%nat -> exists a, r d = Ret (a, drop n d)).

Lemma takes_ret {A} (a : A) : takes (rret a) 0.
Proof. intros d. split; [lia|]. intros _. by exists a. Qed.
Lemma takes_bind {A B} (m : rd A) (k : A -> rd B) n n' :
  takes m n -> (forall a, takes (k a) n') -> takes (rbind m k) (n + n').
Proof.
  intros Hm Hk d. destruct (Hm d) as [Hm1 Hm2]. unfold rbind. split; intros Hl.
  - destruct (decide (length d < n)%nat) as [Hn|Hn]; [by rewrite Hm1|].
    destruct Hm2 as [a ->]; [lia|]. apply (Hk a). rewrite length_drop. lia.
  - destruct Hm2 as [a ->]; [lia|]. destruct (Hk a (drop n d)) as [_ Hk2].
    rewrite length_drop, drop_drop in Hk2. apply Hk2. lia.
Qed.
Lemma takes_bind_ret {A B} (m : rd A) (f : A -> B) n :
  takes m n -> takes (rbind m (fun a => rret (f a))) n.
Proof. intros Hm. rewrite <-(Nat.add_0_r n). apply takes_bind; [done|]. intros. apply takes_ret. Qed.

(** [r] stays within the buffer and fails no assertion, and what it returns has [P]. *)
Definition safe {A} (r : rd A) (P : A -> Prop) : Prop := forall d, bytes d ->
  match r d with
  | Ret (a, rest) => P a /\ bytes rest
  | Fail => True
  | Fault _ => False
  end.

Lemma safe_ret {A} (a : A) (P : A -> Prop) : P a -> safe (rret a) P.
Proof. intros H d Hd. by split. Qed.
Lemma safe_fail {A} (P : A -> Prop) : safe rfail P.
Proof. by intros d Hd. Qed.
Lemma safe_bind {A B} (m : rd A) (k : A -> rd B) (P : A -> Prop) (Q : B -> Prop) :
  safe m P -> (forall a, P a -> safe (k a) Q) -> safe (rbind m k) Q.
Proof.
  intros Hm Hk d Hd. unfold rbind. specialize (Hm d Hd). destruct (m d) as [[a rest]| |f]; try done.
  destruct Hm as [Ha Hr]. by apply Hk.
Qed.
Lemma safe_guard b : safe (rguard b) (fun _ => b = true).
Proof. intros d Hd. by destruct b. Qed.
Lemma safe_weaken {A} (m : rd A) (P Q : A -> Prop) : safe m P -> (forall a, P a -> Q a) -> safe m Q.
Proof.
  intros Hm HPQ d Hd. specialize (Hm d Hd). destruct (m d) as [[a rest]| |f]; try done.
  destruct Hm. split; auto.
Qed.

(** What a pair of C functions [X_read] and [X_write] promises to its callers:
    on well-formed values the writer appends the wire form, reports its length
    also on a null destination, and the reader takes exactly the wire form. *)
Class Codec (A : Type) := {
  codec_read : rd A;
  codec_write : A -> wr;
  codec_wf : A -> Prop;
  codec_wire : A -> list Z;
  codec_parses a : codec_wf a -> parses codec_read (codec_wire a) a;
  codec_emits a : codec_wf a -> emits (codec_write a) (codec_wire a);
  codec_sizes a : codec_wf a -> sizes (codec_write a) (Z.of_nat (length (codec_wire a)));
}.

(** What every codec's clients get. *)
Lemma codec_roundtrip {A} `{Codec A} (a : A) rest :
  codec_wf a ->
  exists bs, codec_write a (Some []) = (Z.of_nat (length bs), Some bs) /\
    codec_write a None = (Z.of_nat (length bs), None) /\
    codec_read (bs ++ rest) = Ret (a, rest).
Proof.
  intros Hw. exists (codec_wire a). split; [by apply (codec_emits a Hw [])|].
  split; [by apply codec_sizes|by apply codec_parses].
Qed.

Create HintDb hsk.
#[export] Hint Resolve bytes_nil bytes_take bytes_drop bytes_reverse bytes_le_split
  bytes_be_split emits_ret parses_ret sizes_ret : hsk.
#[export] Hint Resolve bytes_cons emits_seq sizes_seq : hsk.
#[export] Hint Rewrite length_le_split length_be_split @length_app @length_reverse
  @length_take @length_drop @length_replicate : hsk.
