(* ===== verification/Bio.v ===== *)
(** Byte-level input and output: [src/reference/hnsd-reference/src/bio.h].

    Every accessor of the header exists twice in the C text, once for each
    setting of [HSK_BIG_ENDIAN]; the argument of type [endian] selects the
    branch the preprocessor keeps, which is also the byte order of the host that
    a [memcpy] into or out of an integer sees. *)

From S2P Require Import Prelude.

Inductive endian := Little | Big.

(** [memcpy] between an integer object of the host and a byte array. *)
Definition memcpy_to_int (h : endian) (bs : list Z) : Z :=
  match h with Little => le_combine bs | Big => be_combine bs end.
Definition memcpy_of_int (h : endian) (n : nat) (v : Z) : list Z :=
  match h with Little => le_split n v | Big => be_split n v end.

Notation "d .[ i ]" := (nth i d 0) (at level 1, i at level 99, format "d .[ i ]") : hsk_scope.

(** * Loads from a byte array *)
Section Get.
Context (h : endian).

Definition get_u8 (d : list Z) : Z := d.[0].

Definition get_u16_on (d : list Z) : Z :=
  match h with
  | Little => memcpy_to_int h (take 2 d)
  | Big => u16 (Z.lor (Z.shiftl d.[1] 8) d.[0])
  end.

Definition get_u32_on (d : list Z) : Z :=
  match h with
  | Little => memcpy_to_int h (take 4 d)
  | Big => u32 (Z.lor (Z.lor (Z.lor (Z.shiftl d.[3] 24) (Z.shiftl d.[2] 16))
                             (Z.shiftl d.[1] 8)) d.[0])
  end.

Definition get_u64_on (d : list Z) : Z :=
  match h with
  | Little => memcpy_to_int h (take 8 d)
  | Big =>
      u64 (Z.lor (Z.lor (Z.lor (Z.lor (Z.lor (Z.lor (Z.lor
        (Z.shiftl d.[7] 56) (Z.shiftl d.[6] 48)) (Z.shiftl d.[5] 40))
        (Z.shiftl d.[4] 32)) (Z.shiftl d.[3] 24)) (Z.shiftl d.[2] 16))
        (Z.shiftl d.[1] 8)) d.[0])
  end.

Definition get_u16be_on (d : list Z) : Z :=
  match h with
  | Big => memcpy_to_int h (take 2 d)
  | Little => u16 (Z.lor (Z.shiftl d.[0] 8) d.[1])
  end.

Definition get_u32be_on (d : list Z) : Z :=
  match h with
  | Big => memcpy_to_int h (take 4 d)
  | Little => u32 (Z.lor (Z.lor (Z.lor (Z.shiftl d.[0] 24) (Z.shiftl d.[1] 16))
                                (Z.shiftl d.[2] 8)) d.[3])
  end.

Definition get_u64be_on (d : list Z) : Z :=
  match h with
  | Big => memcpy_to_int h (take 8 d)
  | Little =>
      u64 (Z.lor (Z.lor (Z.lor (Z.lor (Z.lor (Z.lor (Z.lor
        (Z.shiftl d.[0] 56) (Z.shiftl d.[1] 48)) (Z.shiftl d.[2] 40))
        (Z.shiftl d.[3] 32)) (Z.shiftl d.[4] 24)) (Z.shiftl d.[5] 16))
        (Z.shiftl d.[6] 8)) d.[7])
  end.

Definition get_i8 (d : list Z) : Z := i8 (get_u8 d).
Definition get_i16_on (d : list Z) : Z := i16 (get_u16_on d).
Definition get_i32_on (d : list Z) : Z := i32 (get_u32_on d).
Definition get_i64_on (d : list Z) : Z := i64 (get_u64_on d).
Definition get_i16be_on (d : list Z) : Z := i16 (get_u16be_on d).
Definition get_i32be_on (d : list Z) : Z := i32 (get_u32be_on d).
Definition get_i64be_on (d : list Z) : Z := i64 (get_u64be_on d).
End Get.

(** * Stores into a byte array: the bytes that [set_*] leaves there *)
Section Set_.
Context (h : endian).

Definition set_u8 (out : Z) : list Z := [u8 out].

Definition set_u16_on (out : Z) : list Z :=
  match h with
  | Little => memcpy_of_int h 2 out
  | Big => [u8 out; u8 (Z.shiftr out 8)]
  end.

Definition set_u32_on (out : Z) : list Z :=
  match h with
  | Little => memcpy_of_int h 4 out
  | Big => [u8 out; u8 (Z.shiftr out 8); u8 (Z.shiftr out 16); u8 (Z.shiftr out 24)]
  end.

Definition set_u64_on (out : Z) : list Z :=
  match h with
  | Little => memcpy_of_int h 8 out
  | Big => [u8 out; u8 (Z.shiftr out 8); u8 (Z.shiftr out 16); u8 (Z.shiftr out 24);
            u8 (Z.shiftr out 32); u8 (Z.shiftr out 40); u8 (Z.shiftr out 48);
            u8 (Z.shiftr out 56)]
  end.

Definition set_u16be_on (out : Z) : list Z :=
  match h with
  | Big => memcpy_of_int h 2 out
  | Little => [u8 (Z.shiftr out 8); u8 out]
  end.

Definition set_u32be_on (out : Z) : list Z :=
  match h with
  | Big => memcpy_of_int h 4 out
  | Little => [u8 (Z.shiftr out 24); u8 (Z.shiftr out 16); u8 (Z.shiftr out 8); u8 out]
  end.

Definition set_u64be_on (out : Z) : list Z :=
  match h with
  | Big => memcpy_of_int h 8 out
  | Little => [u8 (Z.shiftr out 56); u8 (Z.shiftr out 48); u8 (Z.shiftr out 40);
               u8 (Z.shiftr out 32); u8 (Z.shiftr out 24); u8 (Z.shiftr out 16);
               u8 (Z.shiftr out 8); u8 out]
  end.

Definition set_i8 (out : Z) : list Z := set_u8 (u8 out).
Definition set_i16_on (out : Z) : list Z := set_u16_on (u16 out).
Definition set_i32_on (out : Z) : list Z := set_u32_on (u32 out).
Definition set_i64_on (out : Z) : list Z := set_u64_on (u64 out).
Definition set_i16be_on (out : Z) : list Z := set_u16be_on (u16 out).
Definition set_i32be_on (out : Z) : list Z := set_u32be_on (u32 out).
Definition set_i64be_on (out : Z) : list Z := set_u64be_on (u64 out).
End Set_.

(** * Readers *)

(** The shape every fixed-width reader has: check the length, load, advance. *)
Definition read_fixed (n : nat) (get : list Z -> Z) : rd Z := fun d =>
  if (length d <? n)%nat then Fail else Ret (get d, drop n d).

Definition rmap {A B} (f : A -> B) (m : rd A) : rd B := x <- m ;; rret (f x).

Section Read.
Context (h : endian).
Definition read_u8 : rd Z := read_fixed 1 get_u8.
Definition read_u16_on : rd Z := read_fixed 2 (get_u16_on h).
Definition read_u32_on : rd Z := read_fixed 4 (get_u32_on h).
Definition read_u64_on : rd Z := read_fixed 8 (get_u64_on h).
Definition read_i8 : rd Z := rmap i8 read_u8.
Definition read_i16_on : rd Z := rmap i16 read_u16_on.
Definition read_i32_on : rd Z := rmap i32 read_u32_on.
Definition read_i64_on : rd Z := rmap i64 read_u64_on.
Definition read_u16be_on : rd Z := read_fixed 2 (get_u16be_on h).
Definition read_u32be_on : rd Z := read_fixed 4 (get_u32be_on h).
Definition read_u64be_on : rd Z := read_fixed 8 (get_u64be_on h).
Definition read_i16be_on : rd Z := rmap i16 read_u16be_on.
Definition read_i32be_on : rd Z := rmap i32 read_u32be_on.
Definition read_i64be_on : rd Z := rmap i64 read_u64be_on.
End Read.

(** [slice_bytes] returns a pointer into the buffer, [read_bytes] a copy: the
    bytes are the same. *)
Definition slice_bytes (size : Z) : rd (list Z) := fun d =>
  if Z.of_nat (length d) <? size then Fail
  else Ret (take (Z.to_nat size) d, drop (Z.to_nat size) d).

Definition read_bytes (size : Z) : rd (list Z) := fun d =>
  if Z.of_nat (length d) <? size then Fail
  else Ret (take (Z.to_nat size) d, drop (Z.to_nat size) d).

(** [malloc_ok] says whether the allocation succeeds. *)
Definition alloc_bytes (malloc_ok : bool) (size : Z) : rd (list Z) := fun d =>
  if Z.of_nat (length d) <? size then Fail
  else if negb malloc_ok then Fail
  else read_bytes size d.

(** The test the loop of [slice_ascii] makes on a character. *)
Definition ascii_bad (ch : Z) : bool :=
  negb (Z.land ch 0x80 =? 0) || (ch =? 0x7f)
  || ((ch <? 0x20) && negb (ch =? 0x09) && negb (ch =? 0x0a) && negb (ch =? 0x0d)).

(** [for (i = 0; i < size; i++)] with a [uint8_t] counter: [None] when the fuel
    runs out, [Some b] when the loop ends, [b] telling that it ran to its end. *)
Fixpoint ascii_loop (fuel : nat) (out : list Z) (size i : Z) : option bool :=
  match fuel with
  | O => None
  | S fuel' =>
      if i <? size then
        if ascii_bad (nth (Z.to_nat i) out 0) then Some false
        else ascii_loop fuel' out size (u8 (i + 1))
      else Some true
  end.

(** 257 iterations visit every value of the counter: a loop that needs more
    never ends. *)
Definition slice_ascii (size : Z) : rd (list Z) :=
  out <- slice_bytes size ;;
  match ascii_loop 257 out size 0 with
  | Some true => rret out
  | Some false => rfail
  | None => rfault Hang
  end.

(** The characters copied to [out]; the C string ends with the [NUL] that
    follows them. *)
Definition read_ascii (size : Z) : rd (list Z) := slice_ascii size.

Definition alloc_ascii (malloc_ok : bool) (size : Z) : rd (list Z) := fun d =>
  if Z.of_nat (length d) <? size then Fail
  else if negb malloc_ok then Fail
  else read_ascii size d.

(** * Writers *)

Definition write_raw (bs : list Z) : wr := fun o =>
  match o with
  | None => (Z.of_nat (length bs), None)
  | Some acc => (Z.of_nat (length bs), Some (acc ++ bs))
  end.

Section Write.
Context (h : endian).
Definition write_u8 (out : Z) : wr := write_raw (set_u8 out).
Definition write_u16_on (out : Z) : wr := write_raw (set_u16_on h out).
Definition write_u32_on (out : Z) : wr := write_raw (set_u32_on h out).
Definition write_u64_on (out : Z) : wr := write_raw (set_u64_on h out).
Definition write_i8 (out : Z) : wr := write_u8 (u8 out).
Definition write_i16_on (out : Z) : wr := write_u16_on (u16 out).
Definition write_i32_on (out : Z) : wr := write_u32_on (u32 out).
Definition write_i64_on (out : Z) : wr := write_u64_on (u64 out).
Definition write_u16be_on (out : Z) : wr := write_raw (set_u16be_on h out).
Definition write_u32be_on (out : Z) : wr := write_raw (set_u32be_on h out).
Definition write_u64be_on (out : Z) : wr := write_raw (set_u64be_on h out).
Definition write_i16be_on (out : Z) : wr := write_u16be_on (u16 out).
Definition write_i32be_on (out : Z) : wr := write_u32be_on (u32 out).
Definition write_i64be_on (out : Z) : wr := write_u64be_on (u64 out).
End Write.

(** [bs] is the block of [size] bytes at [bytes]. *)
Definition write_bytes (bs : list Z) : wr := write_raw bs.

(** The rest of the development takes the little-endian host. *)
Abbreviation get_u16 := (get_u16_on Little).
Abbreviation get_u32 := (get_u32_on Little).
Abbreviation get_u64 := (get_u64_on Little).
Abbreviation get_u32be := (get_u32be_on Little).
Abbreviation read_u16 := (read_u16_on Little).
Abbreviation read_u32 := (read_u32_on Little).
Abbreviation read_u64 := (read_u64_on Little).
Abbreviation read_u16be := (read_u16be_on Little).
Abbreviation read_u32be := (read_u32be_on Little).
Abbreviation write_u16 := (write_u16_on Little).
Abbreviation write_u32 := (write_u32_on Little).
Abbreviation write_u64 := (write_u64_on Little).
Abbreviation write_u16be := (write_u16be_on Little).
Abbreviation write_u32be := (write_u32be_on Little).

(** * Variable-length integers *)

(** The guard of the source compares the pointer [data_len] with 0, never the
    length it points to, so the prefix is loaded whatever the length. *)
Definition read_varint : rd Z := fun d =>
  match d with
  | [] => Fault Overread
  | prefix :: d' =>
      if prefix =? 0xff then
        (v <- read_u64 ;; if v <=? 0xffffffff then rfail else rret v) d'
      else if prefix =? 0xfe then
        (v <- read_u32 ;; if v <=? 0xffff then rfail else rret v) d'
      else if prefix =? 0xfd then
        (v <- read_u16 ;; if v <? 0xfd then rfail else rret v) d'
      else Ret (prefix, d')
  end.

Definition read_varsize : rd Z :=
  v <- read_varint ;; if i32 v <? 0 then rfail else rret v.

(** The source declares [size_varint] with the return type [bool]: every
    returned size is converted to [true]. *)
Definition c_bool (n : Z) : bool := negb (n =? 0).
Definition size_varint (value : Z) : bool :=
  if value <? 0xfd then c_bool 1
  else if value <=? 0xffff then c_bool 3
  else if value <=? 0xffffffff then c_bool 5
  else c_bool 9.
Definition size_varsize (value : Z) : Z := Z.b2z (size_varint value).

Definition write_varint (size : Z) : wr := fun o =>
  match o with
  | None => (size_varsize size, None)
  | Some _ =>
      if size <? 0xfd then (1, snd (write_u8 (u8 size) o))
      else if size <=? 0xffff then
        (3, snd ((write_u8 0xfd +++ write_u16 (u16 size)) o))
      else if size <=? 0xffffffff then
        (5, snd ((write_u8 0xfe +++ write_u32 (u32 size)) o))
      else (9, snd ((write_u8 0xff +++ write_u64 size) o))
  end.

Definition write_varsize (size : Z) : wr := write_varint size.

Definition slice_varbytes : rd (list Z) :=
  size <- read_varsize ;; slice_bytes size.

Definition read_varbytes (out_size : Z) : rd (list Z) :=
  size <- read_varsize ;; if out_size <? size then rfail else read_bytes size.

Definition alloc_varbytes (malloc_ok : bool) : rd (list Z) :=
  size <- read_varsize ;; alloc_bytes malloc_ok size.

Definition size_varbytes (size : Z) : Z := size_varsize size + size.

Definition write_varbytes (bs : list Z) : wr := fun o =>
  match o with
  | None => (size_varbytes (Z.of_nat (length bs)), None)
  | Some _ => (write_varsize (Z.of_nat (length bs)) +++ write_bytes bs) o
  end.

(** * Lemmas *)

Lemma lor_disjoint n x y :
  0 <= n -> x mod 2 ^ n = 0 -> 0 <= y < 2 ^ n -> Z.lor x y = x + y.
Proof.
  intros Hn Hx Hy. assert (Hq : x = x / 2 ^ n * 2 ^ n) by (pose proof (Z.div_mod x (2 ^ n)); lia).
  rewrite Hq, <-Z.shiftl_mul_pow2 at 1 by done. rewrite lor_shiftl_add by done. lia.
Qed.

(** Turns a disjunction of shifted bytes into a sum. *)
Ltac bytes_to_sum :=
  rewrite ?Z.shiftl_mul_pow2 by lia;
  repeat match goal with
  | |- context [Z.lor ?x ?y] =>
      lazymatch x with context [Z.lor _ _] => fail | _ => idtac end;
      first [ rewrite (lor_disjoint 8 x y) by dlia | rewrite (lor_disjoint 16 x y) by dlia
            | rewrite (lor_disjoint 24 x y) by dlia | rewrite (lor_disjoint 32 x y) by dlia
            | rewrite (lor_disjoint 40 x y) by dlia | rewrite (lor_disjoint 48 x y) by dlia
            | rewrite (lor_disjoint 56 x y) by dlia ]
  end.

(** Exposes the first [n] bytes of a list that is long enough. *)
Tactic Notation "expose_bytes" integer(n) ident(d) :=
  do n (destruct d as [|? d]; [simpl in *; lia|]);
  repeat match goal with H : bytes (_ :: _) |- _ => apply bytes_cons_inv in H as [? H] end;
  cbn [take nth]; rewrite ?take_0.

Lemma get_u16_host h d : bytes d -> (2 <= length d)%nat -> get_u16_on h d = le_combine (take 2 d).
Proof.
  intros Hb Hl. destruct h; [done|]. expose_bytes 2 d.
  cbn [get_u16_on nth le_combine]. bytes_to_sum. rewrite u16_small by lia. lia.
Qed.
Lemma get_u32_host h d : bytes d -> (4 <= length d)%nat -> get_u32_on h d = le_combine (take 4 d).
Proof.
  intros Hb Hl. destruct h; [done|]. expose_bytes 4 d.
  cbn [get_u32_on nth le_combine]. bytes_to_sum. rewrite u32_small by lia. lia.
Qed.
Lemma get_u64_host h d : bytes d -> (8 <= length d)%nat -> get_u64_on h d = le_combine (take 8 d).
Proof.
  intros Hb Hl. destruct h; [done|]. expose_bytes 8 d.
  cbn [get_u64_on nth le_combine]. bytes_to_sum. rewrite u64_small by lia. lia.
Qed.
Lemma get_u16be_host h d :
  bytes d -> (2 <= length d)%nat -> get_u16be_on h d = be_combine (take 2 d).
Proof.
  intros Hb Hl. destruct h; [|done]. expose_bytes 2 d. rewrite !be_combine_cons.
  cbn [get_u16be_on nth length]. bytes_to_sum. rewrite u16_small by lia. cbn. lia.
Qed.
Lemma get_u32be_host h d :
  bytes d -> (4 <= length d)%nat -> get_u32be_on h d = be_combine (take 4 d).
Proof.
  intros Hb Hl. destruct h; [|done]. expose_bytes 4 d. rewrite !be_combine_cons.
  cbn [get_u32be_on nth length]. bytes_to_sum. rewrite u32_small by lia. cbn. lia.
Qed.
Lemma get_u64be_host h d :
  bytes d -> (8 <= length d)%nat -> get_u64be_on h d = be_combine (take 8 d).
Proof.
  intros Hb Hl. destruct h; [|done]. expose_bytes 8 d. rewrite !be_combine_cons.
  cbn [get_u64be_on nth length]. bytes_to_sum. rewrite u64_small by lia. cbn. lia.
Qed.

(** The stores: each byte is a quotient of the value. *)
Ltac store_bytes :=
  unfold u8; rewrite ?Z.shiftr_div_pow2 by lia; cbn -[Z.div Z.modulo];
  rewrite ?Z.div_div by lia; repeat f_equal; done.

Lemma set_u16_host h v : set_u16_on h v = le_split 2 v.
Proof. destruct h; [done|]. unfold set_u16_on. store_bytes. Qed.
Lemma set_u32_host h v : set_u32_on h v = le_split 4 v.
Proof. destruct h; [done|]. unfold set_u32_on. store_bytes. Qed.
Lemma set_u64_host h v : set_u64_on h v = le_split 8 v.
Proof. destruct h; [done|]. unfold set_u64_on. store_bytes. Qed.
Lemma set_u16be_host h v : set_u16be_on h v = be_split 2 v.
Proof. destruct h; [|done]. unfold set_u16be_on. store_bytes. Qed.
Lemma set_u32be_host h v : set_u32be_on h v = be_split 4 v.
Proof. destruct h; [|done]. unfold set_u32be_on. store_bytes. Qed.
Lemma set_u64be_host h v : set_u64be_on h v = be_split 8 v.
Proof. destruct h; [|done]. unfold set_u64be_on. store_bytes. Qed.

(** ** Readers and writers of fixed width *)

Lemma parses_fixed n get bs v :
  length bs = n -> (forall rest, get (bs ++ rest) = v) -> parses (read_fixed n get) bs v.
Proof.
  intros Hl Hg rest. unfold read_fixed. rewrite length_app, Hg.
  replace (_ <? n)%nat with false by (symmetry; apply Nat.ltb_ge; lia).
  by rewrite drop_app_length'.
Qed.

Lemma parses_le n get v :
  0 <= v < 256 ^ Z.of_nat n -> (forall d, get d = le_combine (take n d)) ->
  parses (read_fixed n get) (le_split n v) v.
Proof.
  intros Hv Hg. apply parses_fixed; [apply length_le_split|]. intros rest.
  rewrite Hg, take_app_length' by (by rewrite length_le_split).
  by rewrite le_combine_split, Z.mod_small.
Qed.
Lemma parses_u8 v : 0 <= v < 256 -> parses read_u8 [v] v.
Proof. intros Hv. by apply parses_fixed. Qed.
Lemma parses_u16 v : 0 <= v < 2 ^ 16 -> parses read_u16 (le_split 2 v) v.
Proof. intros Hv. by apply (parses_le 2). Qed.
Lemma parses_u32 v : 0 <= v < 2 ^ 32 -> parses read_u32 (le_split 4 v) v.
Proof. intros Hv. by apply (parses_le 4). Qed.
Lemma parses_u64 v : 0 <= v < 2 ^ 64 -> parses read_u64 (le_split 8 v) v.
Proof. intros Hv. by apply (parses_le 8). Qed.
Lemma parses_u32be v : 0 <= v < 2 ^ 32 -> parses read_u32be (be_split 4 v) v.
Proof.
  intros Hv. apply parses_fixed; [apply length_be_split|]. intros rest.
  assert (He := get_u32be_host Little (be_split 4 v) (bytes_be_split 4 v) ltac:(by rewrite length_be_split)).
  rewrite take_ge, be_combine_split, Z.mod_small in He by (rewrite ?length_be_split; done).
  assert (Hl := length_be_split 4 v). rewrite <-He at 2.
  by destruct (be_split 4 v) as [|? [|? [|? [|? [|]]]]].
Qed.
Lemma parses_u16be v : 0 <= v < 2 ^ 16 -> parses read_u16be (be_split 2 v) v.
Proof.
  intros Hv. apply parses_fixed; [apply length_be_split|]. intros rest.
  assert (He := get_u16be_host Little (be_split 2 v) (bytes_be_split 2 v) ltac:(by rewrite length_be_split)).
  rewrite take_ge, be_combine_split, Z.mod_small in He by (rewrite ?length_be_split; done).
  assert (Hl := length_be_split 2 v). rewrite <-He at 2.
  by destruct (be_split 2 v) as [|? [|? [|]]].
Qed.
Lemma parses_bytes n bs : Z.of_nat (length bs) = n -> parses (read_bytes n) bs bs.
Proof.
  intros Hn rest. unfold read_bytes. rewrite length_app.
  destruct (Z.ltb_spec (Z.of_nat (length bs + length rest)) n); [lia|].
  by rewrite take_app_length', drop_app_length' by lia.
Qed.

Lemma emits_raw bs : emits (write_raw bs) bs.
Proof. done. Qed.
Lemma sizes_raw bs : sizes (write_raw bs) (Z.of_nat (length bs)).
Proof. done. Qed.
Lemma emits_u8 v : 0 <= v < 256 -> emits (write_u8 v) [v].
Proof. intros Hv. unfold write_u8, set_u8. rewrite u8_small by done. apply emits_raw. Qed.
Lemma emits_u16 v : emits (write_u16 v) (le_split 2 v).
Proof. apply emits_raw. Qed.
Lemma emits_u32 v : emits (write_u32 v) (le_split 4 v).
Proof. apply emits_raw. Qed.
Lemma emits_u64 v : emits (write_u64 v) (le_split 8 v).
Proof. apply emits_raw. Qed.
Lemma emits_u32be v : emits (write_u32be v) (be_split 4 v).
Proof. rewrite <-(set_u32be_host Little). apply emits_raw. Qed.
Lemma emits_u16be v : emits (write_u16be v) (be_split 2 v).
Proof. rewrite <-(set_u16be_host Little). apply emits_raw. Qed.
Lemma emits_bytes bs : emits (write_bytes bs) bs.
Proof. apply emits_raw. Qed.
Lemma sizes_u8 v : sizes (write_u8 v) 1.
Proof. done. Qed.
Lemma sizes_u16 v : sizes (write_u16 v) 2.
Proof. done. Qed.
Lemma sizes_u32 v : sizes (write_u32 v) 4.
Proof. done. Qed.
Lemma sizes_u64 v : sizes (write_u64 v) 8.
Proof. done. Qed.
Lemma sizes_bytes n bs : Z.of_nat (length bs) = n -> sizes (write_bytes bs) n.
Proof. by intros <-. Qed.

#[export] Hint Resolve parses_u8 parses_u16 parses_u32 parses_u64 parses_u32be parses_bytes
  emits_u8 emits_u16 emits_u32 emits_u64 emits_u32be emits_bytes
  sizes_u8 sizes_u16 sizes_u32 sizes_u64 sizes_bytes : hsk.

(** What a successful fixed-width read says of its input. *)
Lemma read_fixed_inv n get d v rest :
  read_fixed n get d = Ret (v, rest) ->
  (n <= length d)%nat /\ v = get d /\ rest = drop n d.
Proof.
  unfold read_fixed. destruct (Nat.ltb_spec (length d) n); [done|]. by intros [= <- <-].
Qed.
Lemma read_le_inv n get d v rest :
  bytes d -> (forall d, get d = le_combine (take n d)) ->
  read_fixed n get d = Ret (v, rest) ->
  d = le_split n v ++ rest /\ 0 <= v < 256 ^ Z.of_nat n.
Proof.
  intros Hb Hg (Hl & -> & ->)%read_fixed_inv. rewrite Hg.
  assert (Ht : length (take n d) = n) by (rewrite length_take; lia). split.
  - rewrite <-(take_drop n d) at 1. f_equal.
    assert (Hs := le_split_combine (take n d) ltac:(auto with hsk)). by rewrite Ht in Hs.
  - assert (Hr := le_combine_range (take n d) ltac:(auto with hsk)). by rewrite Ht in Hr.
Qed.
Lemma read_bytes_inv n d bs rest :
  read_bytes n d = Ret (bs, rest) -> 0 <= n ->
  d = bs ++ rest /\ Z.of_nat (length bs) = n.
Proof.
  unfold read_bytes. destruct (Z.ltb_spec (Z.of_nat (length d)) n); [done|].
  intros [= <- <-] Hn. rewrite take_drop, length_take. split; [done|lia].
Qed.

(** The readers that are safe on any input. *)
Lemma safe_le n get : (forall d, bytes d -> (n <= length d)%nat -> get d = le_combine (take n d)) ->
  safe (read_fixed n get) (fun v => 0 <= v < 256 ^ Z.of_nat n).
Proof.
  intros Hg d Hd. unfold read_fixed. destruct (Nat.ltb_spec (length d) n); [done|].
  split; [|auto with hsk]. rewrite Hg by done.
  assert (Hr := le_combine_range (take n d) ltac:(auto with hsk)).
  by rewrite length_take, Nat.min_l in Hr by lia.
Qed.
Lemma safe_be n get : (forall d, bytes d -> (n <= length d)%nat -> get d = be_combine (take n d)) ->
  safe (read_fixed n get) (fun v => 0 <= v < 256 ^ Z.of_nat n).
Proof.
  intros Hg d Hd. unfold read_fixed. destruct (Nat.ltb_spec (length d) n); [done|].
  split; [|auto with hsk]. rewrite Hg by done.
  assert (Hr := be_combine_range (take n d) ltac:(auto with hsk)).
  by rewrite length_take, Nat.min_l in Hr by lia.
Qed.
Lemma safe_u8 : safe read_u8 (fun v => 0 <= v < 256).
Proof.
  apply (safe_le 1). intros d Hd Hl. destruct d as [|b d]; [cbn in Hl; lia|]. cbn. by rewrite take_0, Z.add_0_r || lia.
Qed.
Lemma safe_u16 : safe read_u16 (fun v => 0 <= v < 2 ^ 16).
Proof. apply (safe_le 2). intros. by apply get_u16_host. Qed.
Lemma safe_u32 : safe read_u32 (fun v => 0 <= v < 2 ^ 32).
Proof. apply (safe_le 4). intros. by apply get_u32_host. Qed.
Lemma safe_u64 : safe read_u64 (fun v => 0 <= v < 2 ^ 64).
Proof. apply (safe_le 8). intros. by apply get_u64_host. Qed.
Lemma safe_u16be : safe read_u16be (fun v => 0 <= v < 2 ^ 16).
Proof. apply (safe_be 2). intros. by apply get_u16be_host. Qed.
Lemma safe_u32be : safe read_u32be (fun v => 0 <= v < 2 ^ 32).
Proof. apply (safe_be 4). intros. by apply get_u32be_host. Qed.
Lemma safe_bytes n : 0 <= n -> safe (read_bytes n) (fun bs => bytes bs /\ Z.of_nat (length bs) = n).
Proof.
  intros Hn d Hd. unfold read_bytes. destruct (Z.ltb_spec (Z.of_nat (length d)) n); [done|].
  rewrite length_take. split; [|auto with hsk]. split; [auto with hsk|lia].
Qed.
Lemma safe_slice n : 0 <= n -> safe (slice_bytes n) (fun bs => bytes bs /\ Z.of_nat (length bs) = n).
Proof. apply safe_bytes. Qed.
Lemma safe_alloc ok n : 0 <= n -> safe (alloc_bytes ok n) (fun bs => bytes bs /\ Z.of_nat (length bs) = n).
Proof.
  intros Hn d Hd. unfold alloc_bytes. destruct (_ <? n); [done|]. destruct ok; [|done].
  by apply safe_bytes.
Qed.

Lemma takes_fixed n get : takes (read_fixed n get) n.
Proof.
  intros d. unfold read_fixed. destruct (Nat.ltb_spec (length d) n).
  - split; [done|lia].
  - split; [lia|]. intros _. by exists (get d).
Qed.
Lemma takes_bytes n : 0 <= n -> takes (read_bytes n) (Z.to_nat n).
Proof.
  intros Hn d. unfold read_bytes. destruct (Z.ltb_spec (Z.of_nat (length d)) n).
  - split; [done|lia].
  - split; [lia|]. intros _. by exists (take (Z.to_nat n) d).
Qed.

(** ** Variable-length integers *)

(** The canonical encoding of a 64-bit integer. *)
Definition varint_wire (v : Z) : list Z :=
  if v <? 0xfd then [v]
  else if v <=? 0xffff then 0xfd :: le_split 2 v
  else if v <=? 0xffffffff then 0xfe :: le_split 4 v
  else 0xff :: le_split 8 v.

Lemma emits_varint v : 0 <= v < 2 ^ 64 -> emits (write_varint v) (varint_wire v).
Proof.
  intros Hv acc. unfold write_varint, varint_wire.
  destruct (Z.ltb_spec v 0xfd).
  { rewrite (emits_u8 (u8 v)) by (rewrite u8_small; lia). by rewrite u8_small by lia. }
  destruct (Z.leb_spec v 0xffff).
  { rewrite u16_small by lia. by rewrite (emits_seq _ _ [0xfd] (le_split 2 v)) by auto with hsk lia. }
  destruct (Z.leb_spec v 0xffffffff).
  { rewrite u32_small by lia. by rewrite (emits_seq _ _ [0xfe] (le_split 4 v)) by auto with hsk lia. }
  by rewrite (emits_seq _ _ [0xff] (le_split 8 v)) by auto with hsk lia.
Qed.

Lemma parses_varint v : 0 <= v < 2 ^ 64 -> parses read_varint (varint_wire v) v.
Proof.
  intros Hv rest. unfold varint_wire.
  destruct (Z.ltb_spec v 0xfd).
  { cbn [app read_varint]. destruct (Z.eqb_spec v 0xff), (Z.eqb_spec v 0xfe), (Z.eqb_spec v 0xfd);
      first [lia|done]. }
  destruct (Z.leb_spec v 0xffff).
  { cbn [app read_varint Z.eqb Pos.eqb]. unfold rbind. rewrite parses_u16 by lia.
    by destruct (Z.ltb_spec v 0xfd); [lia|]. }
  destruct (Z.leb_spec v 0xffffffff).
  { cbn [app read_varint Z.eqb Pos.eqb]. unfold rbind. rewrite parses_u32 by lia.
    by destruct (Z.leb_spec v 0xffff); [lia|]. }
  cbn [app read_varint Z.eqb Pos.eqb]. unfold rbind. rewrite parses_u64 by lia.
  by destruct (Z.leb_spec v 0xffffffff); [lia|].
Qed.

Lemma parses_varsize v : 0 <= v < 2 ^ 31 -> parses read_varsize (varint_wire v) v.
Proof.
  intros Hv. eapply parses_bind_nil; [apply parses_varint; lia|].
  unfold i32, swrap. rewrite (Z.mod_small (v + _)) by lia.
  destruct (Z.ltb_spec (v + 2 ^ (32 - 1) - 2 ^ (32 - 1)) 0); [lia|]. apply parses_ret.
Qed.

Lemma read_varint_inv d v rest :
  bytes d -> read_varint d = Ret (v, rest) -> d = varint_wire v ++ rest /\ 0 <= v < 2 ^ 64.
Proof.
  intros Hb. destruct d as [|p d]; [done|]. apply bytes_cons_inv in Hb as [Hp Hd].
  cbn [read_varint]. unfold rbind, varint_wire, rret, rfail.
  destruct (Z.eqb_spec p 0xff) as [->|].
  { destruct (read_u64 d) as [[w d']| |] eqn:E; try done.
    apply (read_le_inv 8) in E as [-> Hw]; [|done..].
    destruct (Z.leb_spec w 0xffffffff); [done|]. intros [= <- <-].
    destruct (Z.ltb_spec w 0xfd), (Z.leb_spec w 0xffff), (Z.leb_spec w 0xffffffff); try lia. done. }
  destruct (Z.eqb_spec p 0xfe) as [->|].
  { destruct (read_u32 d) as [[w d']| |] eqn:E; try done.
    apply (read_le_inv 4) in E as [-> Hw]; [|done..].
    destruct (Z.leb_spec w 0xffff); [done|]. intros [= <- <-].
    destruct (Z.ltb_spec w 0xfd), (Z.leb_spec w 0xffff), (Z.leb_spec w 0xffffffff); try lia.
    split; [done|lia]. }
  destruct (Z.eqb_spec p 0xfd) as [->|].
  { destruct (read_u16 d) as [[w d']| |] eqn:E; try done.
    apply (read_le_inv 2) in E as [-> Hw]; [|done..].
    destruct (Z.ltb_spec w 0xfd); [done|]. intros [= <- <-].
    destruct (Z.ltb_spec w 0xfd), (Z.leb_spec w 0xffff); try lia. split; [done|lia]. }
  intros [= <- <-]. destruct (Z.ltb_spec p 0xfd); [|lia]. split; [done|lia].
Qed.

(** ** The character loop *)

Definition ascii_ok (c : Z) : bool := negb (ascii_bad c).

Lemma ascii_loop_spec fuel out i :
  (length out <= 255)%nat -> (length out - i < fuel)%nat ->
  ascii_loop fuel out (Z.of_nat (length out)) (Z.of_nat i) = Some (forallb ascii_ok (drop i out)).
Proof.
  intros Hl. revert i; induction fuel as [|fuel IH]; intros i Hf; [lia|].
  cbn [ascii_loop]. destruct (Z.ltb_spec (Z.of_nat i) (Z.of_nat (length out))) as [Hlt|Hge].
  - assert (is_Some (out !! i)) as [c Hc] by (apply lookup_lt_is_Some; lia).
    rewrite (drop_S _ _ _ Hc), Nat2Z.id. apply nth_lookup_Some with (d := 0) in Hc.
    rewrite u8_small, Hc by lia. replace (Z.of_nat i + 1) with (Z.of_nat (S i)) by lia.
    rewrite IH by lia. cbn [forallb]. unfold ascii_ok at 2. by destruct (ascii_bad c).
  - by rewrite drop_ge by lia.
Qed.

(** With more than 255 characters the counter wraps before it reaches the bound:
    no fuel is enough, unless one of the first 256 characters is rejected. *)
Lemma ascii_loop_wraps fuel out size i :
  255 < size -> 0 <= i < 256 ->
  (forall j, 0 <= j < 256 -> ascii_bad (nth (Z.to_nat j) out 0) = false) ->
  ascii_loop fuel out size i = None.
Proof.
  intros Hs Hi Hg. revert i Hi; induction fuel as [|fuel IH]; intros i Hi; [done|].
  cbn [ascii_loop]. destruct (Z.ltb_spec i size); [|lia].
  rewrite Hg by done. apply IH, u8_range.
Qed.

Lemma slice_ascii_short size d :
  0 <= size <= 255 ->
  slice_ascii size d =
    match slice_bytes size d with
    | Ret (out, rest) => if forallb ascii_ok out then Ret (out, rest) else Fail
    | o => o
    end.
Proof.
  intros Hs. unfold slice_ascii, rbind. unfold slice_bytes.
  destruct (Z.ltb_spec (Z.of_nat (length d)) size); [done|].
  assert (Hl : length (take (Z.to_nat size) d) = Z.to_nat size) by (rewrite length_take; lia).
  assert (Ha := ascii_loop_spec 257 (take (Z.to_nat size) d) 0).
  rewrite Hl, Z2Nat.id, drop_0 in Ha by lia. change (Z.of_nat 0) with 0 in Ha. rewrite Ha by lia.
  by destruct (forallb _ _).
Qed.

Lemma parses_ascii bs :
  (length bs <= 255)%nat -> forallb ascii_ok bs = true ->
  parses (read_ascii (Z.of_nat (length bs))) bs bs.
Proof.
  intros Hl Ha rest. unfold read_ascii. rewrite slice_ascii_short by lia.
  assert (Hp := parses_bytes (Z.of_nat (length bs)) bs eq_refl rest).
  unfold read_bytes in Hp. unfold slice_bytes. rewrite Hp. by rewrite Ha.
Qed.
#[export] Hint Resolve emits_varint parses_varint parses_varsize parses_ascii : hsk.

(** * Properties *)

(** Host independence of [bio.h]. Whichever branch of [HSK_BIG_ENDIAN] is
    compiled, on the host that setting describes, each load from a byte array
    has the little-endian (or, for the [be] names, big-endian) value of its bytes
    and each store writes that encoding of its argument. *)
Theorem bio_host_independent (h : endian) (d : list Z) (v : Z) :
  bytes d -> (8 <= length d)%nat ->
  (get_u16_on h d = le_combine (take 2 d) /\ get_u32_on h d = le_combine (take 4 d) /\
   get_u64_on h d = le_combine (take 8 d)) /\
  (get_u16be_on h d = be_combine (take 2 d) /\ get_u32be_on h d = be_combine (take 4 d) /\
   get_u64be_on h d = be_combine (take 8 d)) /\
  (set_u16_on h v = le_split 2 v /\ set_u32_on h v = le_split 4 v /\
   set_u64_on h v = le_split 8 v) /\
  (set_u16be_on h v = be_split 2 v /\ set_u32be_on h v = be_split 4 v /\
   set_u64be_on h v = be_split 8 v).
Proof.
  intros Hb Hl. assert (2 <= length d)%nat by lia. assert (4 <= length d)%nat by lia.
  pose proof (set_u16_host h v); pose proof (set_u32_host h v); pose proof (set_u64_host h v).
  pose proof (set_u16be_host h v); pose proof (set_u32be_host h v); pose proof (set_u64be_host h v).
  auto 10 using get_u16_host, get_u32_host, get_u64_host, get_u16be_host, get_u32be_host,
    get_u64be_host.
Qed.

Lemma bio_host_independent_witness :
  get_u32_on Big [1; 2; 3; 4; 5; 6; 7; 255] = 0x04030201 /\
  set_u64be_on Little 0x0102030405060708 = be_split 8 0x0102030405060708.
Proof.
  destruct (bio_host_independent Big [1; 2; 3; 4; 5; 6; 7; 255] 0) as ((_ & H & _) & _);
    [repeat constructor; lia|simpl; lia|].
  destruct (bio_host_independent Little [1; 2; 3; 4; 5; 6; 7; 255] 0x0102030405060708)
    as (_ & _ & _ & _ & _ & H'); [repeat constructor; lia|simpl; lia|].
  split; [rewrite H; reflexivity|exact H'].
Defined.

(** The variable-length integer codec. [write_varint] on a buffer appends an
    encoding of 1, 3, 5 or 9 bytes and returns that number, [read_varint] reads
    the value back whatever follows it, and it accepts no other encoding of a
    value (the redundant forms are rejected). *)
Theorem varint_roundtrip (v : Z) :
  0 <= v < 2 ^ 64 ->
  exists bs, emits (write_varint v) bs /\ parses read_varint bs v /\
   (length bs = 1 \/ length bs = 3 \/ length bs = 5 \/ length bs = 9)%nat /\
   forall d rest, bytes d -> read_varint d = Ret (v, rest) -> d = bs ++ rest.
Proof.
  intros Hv. exists (varint_wire v). split_and!; auto with hsk.
  - unfold varint_wire. repeat (destruct (_ <? _) || destruct (_ <=? _));
      cbn [length]; rewrite ?length_le_split; auto.
  - intros d rest Hb Hr. by apply read_varint_inv in Hr as [-> _].
Qed.

Lemma varint_roundtrip_witness :
  0 <= 0x12345 < 2 ^ 64 /\
  exists bs, emits (write_varint 0x12345) bs /\ parses read_varint bs 0x12345 /\
   (length bs = 1 \/ length bs = 3 \/ length bs = 5 \/ length bs = 9)%nat /\
   forall d rest, bytes d -> read_varint d = Ret (0x12345, rest) -> d = bs ++ rest.
Proof. split; [lia|apply (varint_roundtrip 0x12345); lia]. Defined.

(** A code bug of [read_varint]: its guard compares the pointer to the length
    with 0, so on an exhausted buffer, and only there, it loads a byte past the
    end; the fixed-width reader it resembles reports the failure. *)
Theorem read_varint_overreads (d : list Z) :
  (read_varint d = Fault Overread <-> d = []) /\ (read_u8 d = Fail <-> d = []).
Proof.
  split.
  - split; [|by intros ->]. destruct d as [|p d]; [done|].
    cbn [read_varint]. unfold rbind, read_u64_on, read_u32_on, read_u16_on, read_fixed, rfail, rret.
    repeat case_match; congruence.
  - unfold read_u8, read_fixed. destruct d; naive_solver.
Qed.

(** A code bug of [size_varint]: it returns [bool], so the size that
    [write_varint] and [write_varbytes] report for a null destination is the
    number of bytes they write exactly for values below 0xfd. *)
Theorem varint_size_query (v : Z) (acc : list Z) :
  fst (write_varint v None) = 1 /\
  (fst (write_varint v None) = fst (write_varint v (Some acc)) <-> v < 0xfd).
Proof.
  assert (H1 : fst (write_varint v None) = 1).
  { unfold write_varint, size_varsize, size_varint. by repeat case_match. }
  split; [done|]. rewrite H1. unfold write_varint.
  destruct (Z.ltb_spec v 0xfd); [cbn; lia|].
  repeat case_match; cbn; lia.
Qed.

(** [slice_ascii] on every branch. Up to 255 characters it accepts exactly the
    printable ones and tab, line feed and carriage return, and it never hangs; with
    256 or more the [uint8_t] counter wraps, and the call does not return when
    the first 256 characters are all acceptable. *)
Theorem slice_ascii_spec (size : Z) (d : list Z) :
  0 <= size <= Z.of_nat (length d) ->
  (size <= 255 ->
     slice_ascii size d =
       if forallb ascii_ok (take (Z.to_nat size) d)
       then Ret (take (Z.to_nat size) d, drop (Z.to_nat size) d) else Fail) /\
  (255 < size -> forallb ascii_ok (take 256 d) = true ->
     slice_ascii size d = Fault Hang /\
   forall fuel, ascii_loop fuel (take (Z.to_nat size) d) size 0 = None).
Proof.
  intros Hs. split.
  - intros Hle. rewrite slice_ascii_short by lia. unfold slice_bytes.
    by destruct (Z.ltb_spec (Z.of_nat (length d)) size); [lia|].
  - intros Hgt Ha. assert (Hw : forall fuel, ascii_loop fuel (take (Z.to_nat size) d) size 0 = None).
    { intros fuel. apply ascii_loop_wraps; [lia..|]. intros j Hj.
      rewrite forallb_forall in Ha. assert (is_Some (d !! Z.to_nat j)) as [c Hc]
        by (apply lookup_lt_is_Some; lia).
      rewrite (nth_lookup_Some _ _ _ c) by (rewrite lookup_take_lt by lia; done).
      apply negb_true_iff, Ha, list_elem_of_In, list_elem_of_lookup.
      exists (Z.to_nat j). by rewrite lookup_take_lt by lia. }
    split; [|done]. unfold slice_ascii, rbind, slice_bytes.
    destruct (Z.ltb_spec (Z.of_nat (length d)) size); [lia|]. by rewrite Hw.
Qed.

Lemma slice_ascii_spec_witness :
  slice_ascii 2 [0x68; 0x69; 0x00] = Ret ([0x68; 0x69], [0x00]) /\
  slice_ascii 256 (replicate 256 0x61) = Fault Hang.
Proof.
  split.
  - destruct (slice_ascii_spec 2 [0x68; 0x69; 0x00]) as [H _]; [simpl; lia|].
    rewrite H by lia. reflexivity.
  - destruct (slice_ascii_spec 256 (replicate 256 0x61)) as [_ H]; [simpl; lia|].
    apply H; [lia|reflexivity].
Defined.
