(* ===== verification/Blake2b.v ===== *)
(** The BLAKE2b hash: [src/reference/hnsd-reference/src/blake2b.c] with the
    loads, stores and rotations of [blake2b-impl.h].

    A 64-bit word is a [Z] taken modulo [2 ^ 64]; the context is the C struct.
    The last section compares the incremental interface with a byte-at-a-time
    specification and derives that the digest does not depend on how the input
    is cut into calls of [hsk_blake2b_update]. *)

From S2P Require Import Prelude Bio.

(** * [blake2b-impl.h] *)
Definition load64 (src : list Z) : Z := le_combine (take 8 src).
Definition store32 (w : Z) : list Z := le_split 4 w.
Definition store64 (w : Z) : list Z := le_split 8 w.
Definition rotr64 (w c : Z) : Z := Z.lor (Z.shiftr w c) (u64 (Z.shiftl w (64 - c))).

(** [memcpy(dst + off, src, n)] with [n] the length of [src]. *)
Definition memcpy_at (dst : list Z) (off : nat) (src : list Z) : list Z :=
  take off dst ++ src ++ drop (off + length src) dst.

(** * Constants and context *)
Definition HSK_BLAKE2B_BLOCKBYTES : nat := 128.
Definition HSK_BLAKE2B_OUTBYTES : Z := 64.
Definition HSK_BLAKE2B_KEYBYTES : Z := 64.

Definition hsk_blake2b_IV : list Z :=
  [0x6a09e667f3bcc908; 0xbb67ae8584caa73b; 0x3c6ef372fe94f82b; 0xa54ff53a5f1d36f1;
   0x510e527fade682d1; 0x9b05688c2b3e6c1f; 0x1f83d9abfb41bd6b; 0x5be0cd19137e2179].

Definition hsk_blake2b_sigma : list (list nat) :=
  [[0; 1; 2; 3; 4; 5; 6; 7; 8; 9; 10; 11; 12; 13; 14; 15];
   [14; 10; 4; 8; 9; 15; 13; 6; 1; 12; 0; 2; 11; 7; 5; 3];
   [11; 8; 12; 0; 5; 2; 15; 13; 10; 14; 3; 6; 7; 1; 9; 4];
   [7; 9; 3; 1; 13; 12; 11; 14; 2; 6; 5; 10; 4; 0; 15; 8];
   [9; 0; 5; 7; 2; 4; 10; 15; 14; 1; 11; 12; 6; 8; 3; 13];
   [2; 12; 6; 10; 0; 11; 8; 3; 4; 13; 7; 5; 15; 14; 1; 9];
   [12; 5; 1; 15; 14; 13; 4; 10; 0; 7; 6; 3; 9; 2; 8; 11];
   [13; 11; 7; 14; 12; 1; 3; 9; 5; 0; 15; 4; 8; 6; 2; 10];
   [6; 15; 14; 9; 11; 3; 0; 8; 12; 2; 13; 7; 1; 4; 10; 5];
   [10; 2; 8; 4; 7; 6; 1; 5; 15; 11; 9; 14; 3; 12; 13; 0];
   [0; 1; 2; 3; 4; 5; 6; 7; 8; 9; 10; 11; 12; 13; 14; 15];
   [14; 10; 4; 8; 9; 15; 13; 6; 1; 12; 0; 2; 11; 7; 5; 3]]%nat.

Record hsk_blake2b_ctx := mk_blake2b_ctx {
  bl_h : list Z;
  bl_t0 : Z;
  bl_t1 : Z;
  bl_f0 : Z;
  bl_f1 : Z;
  bl_buf : list Z;
  bl_buflen : nat;
  bl_outlen : Z;
  bl_last_node : Z;
}.

Definition bl_set_h (ctx : hsk_blake2b_ctx) (h : list Z) : hsk_blake2b_ctx :=
  mk_blake2b_ctx h (bl_t0 ctx) (bl_t1 ctx) (bl_f0 ctx) (bl_f1 ctx) (bl_buf ctx)
    (bl_buflen ctx) (bl_outlen ctx) (bl_last_node ctx).
Definition bl_set_buf (ctx : hsk_blake2b_ctx) (buf : list Z) (buflen : nat) : hsk_blake2b_ctx :=
  mk_blake2b_ctx (bl_h ctx) (bl_t0 ctx) (bl_t1 ctx) (bl_f0 ctx) (bl_f1 ctx) buf
    buflen (bl_outlen ctx) (bl_last_node ctx).

(** [(uint64_t)-1] *)
Definition all_ones64 : Z := 2 ^ 64 - 1.

Definition hsk_blake2b_set_lastnode (ctx : hsk_blake2b_ctx) : hsk_blake2b_ctx :=
  mk_blake2b_ctx (bl_h ctx) (bl_t0 ctx) (bl_t1 ctx) (bl_f0 ctx) all_ones64 (bl_buf ctx)
    (bl_buflen ctx) (bl_outlen ctx) (bl_last_node ctx).

Definition hsk_blake2b_is_lastblock (ctx : hsk_blake2b_ctx) : bool := negb (bl_f0 ctx =? 0).

Definition hsk_blake2b_set_lastblock (ctx : hsk_blake2b_ctx) : hsk_blake2b_ctx :=
  let ctx := if bl_last_node ctx =? 0 then ctx else hsk_blake2b_set_lastnode ctx in
  mk_blake2b_ctx (bl_h ctx) (bl_t0 ctx) (bl_t1 ctx) all_ones64 (bl_f1 ctx) (bl_buf ctx)
    (bl_buflen ctx) (bl_outlen ctx) (bl_last_node ctx).

Definition hsk_blake2b_increment_counter (ctx : hsk_blake2b_ctx) (inc : Z) : hsk_blake2b_ctx :=
  let t0 := u64 (bl_t0 ctx + inc) in
  let t1 := u64 (bl_t1 ctx + Z.b2z (t0 <? inc)) in
  mk_blake2b_ctx (bl_h ctx) t0 t1 (bl_f0 ctx) (bl_f1 ctx) (bl_buf ctx)
    (bl_buflen ctx) (bl_outlen ctx) (bl_last_node ctx).

Definition hsk_blake2b_init0 : hsk_blake2b_ctx :=
  mk_blake2b_ctx hsk_blake2b_IV 0 0 0 0 (replicate HSK_BLAKE2B_BLOCKBYTES 0) 0 0 0.

(** The packed parameter block, as its 64 bytes. *)
Record hsk_blake2b_param := mk_blake2b_param {
  bp_digest_length : Z;
  bp_key_length : Z;
  bp_fanout : Z;
  bp_depth : Z;
  bp_leaf_length : list Z;
  bp_node_offset : list Z;
  bp_xof_length : list Z;
  bp_node_depth : Z;
  bp_inner_length : Z;
  bp_reserved : list Z;
  bp_salt : list Z;
  bp_personal : list Z;
}.

Definition param_bytes (P : hsk_blake2b_param) : list Z :=
  [bp_digest_length P; bp_key_length P; bp_fanout P; bp_depth P] ++ bp_leaf_length P ++
  bp_node_offset P ++ bp_xof_length P ++ [bp_node_depth P; bp_inner_length P] ++
  bp_reserved P ++ bp_salt P ++ bp_personal P.

Definition hsk_blake2b_init_param (P : hsk_blake2b_param) : hsk_blake2b_ctx :=
  let p := param_bytes P in
  let ctx := hsk_blake2b_init0 in
  let h := imap (fun i hi => Z.lxor hi (load64 (drop (8 * i) p))) (bl_h ctx) in
  mk_blake2b_ctx h (bl_t0 ctx) (bl_t1 ctx) (bl_f0 ctx) (bl_f1 ctx) (bl_buf ctx)
    (bl_buflen ctx) (bp_digest_length P) (bl_last_node ctx).

Definition init_block (outlen keylen : Z) : hsk_blake2b_param :=
  mk_blake2b_param (u8 outlen) (u8 keylen) 1 1 (store32 0) (store32 0) (store32 0) 0 0
    (replicate 14 0) (replicate 16 0) (replicate 16 0).

(** [None] is the [-1] return. *)
Definition hsk_blake2b_init (outlen : Z) : option hsk_blake2b_ctx :=
  if (outlen =? 0) || (HSK_BLAKE2B_OUTBYTES <? outlen) then None
  else Some (hsk_blake2b_init_param (init_block outlen 0)).

(** * Compression *)

(** The macro [G]: [a], [b], [c], [d] are indices into [v]. *)
Definition blake_G (m : list Z) (r i : nat) (a b c d : nat) (v : list Z) : list Z :=
  let sig k := m.[nth k (nth r hsk_blake2b_sigma []) 0%nat] in
  let v := <[a := u64 (v.[a] + v.[b] + sig (2 * i + 0)%nat)]> v in
  let v := <[d := rotr64 (Z.lxor v.[d] v.[a]) 32]> v in
  let v := <[c := u64 (v.[c] + v.[d])]> v in
  let v := <[b := rotr64 (Z.lxor v.[b] v.[c]) 24]> v in
  let v := <[a := u64 (v.[a] + v.[b] + sig (2 * i + 1)%nat)]> v in
  let v := <[d := rotr64 (Z.lxor v.[d] v.[a]) 16]> v in
  let v := <[c := u64 (v.[c] + v.[d])]> v in
  <[b := rotr64 (Z.lxor v.[b] v.[c]) 63]> v.

Definition blake_ROUND (m : list Z) (v : list Z) (r : nat) : list Z :=
  let v := blake_G m r 0 0 4 8 12 v in
  let v := blake_G m r 1 1 5 9 13 v in
  let v := blake_G m r 2 2 6 10 14 v in
  let v := blake_G m r 3 3 7 11 15 v in
  let v := blake_G m r 4 0 5 10 15 v in
  let v := blake_G m r 5 1 6 11 12 v in
  let v := blake_G m r 6 2 7 8 13 v in
  blake_G m r 7 3 4 9 14 v.

Definition hsk_blake2b_compress (ctx : hsk_blake2b_ctx) (block : list Z) : hsk_blake2b_ctx :=
  let m := map (fun i => load64 (drop (i * 8) block)) (seq 0 16) in
  let iv := hsk_blake2b_IV in
  let v := take 8 (bl_h ctx) ++
    [iv.[0]; iv.[1]; iv.[2]; iv.[3];
     Z.lxor iv.[4] (bl_t0 ctx); Z.lxor iv.[5] (bl_t1 ctx);
     Z.lxor iv.[6] (bl_f0 ctx); Z.lxor iv.[7] (bl_f1 ctx)] in
  let v := fold_left (blake_ROUND m) (seq 0 12) v in
  bl_set_h ctx (imap (fun i hi => Z.lxor (Z.lxor hi v.[i]) v.[i + 8]) (bl_h ctx)).

(** * Update and final *)

(** [while (inlen > BLOCKBYTES)]; the fuel is the length of the input. *)
Fixpoint blake_update_loop (fuel : nat) (ctx : hsk_blake2b_ctx) (inp : list Z) :
    hsk_blake2b_ctx * list Z :=
  match fuel with
  | O => (ctx, inp)
  | S fuel' =>
      if (HSK_BLAKE2B_BLOCKBYTES <? length inp)%nat then
        let ctx := hsk_blake2b_increment_counter ctx (Z.of_nat HSK_BLAKE2B_BLOCKBYTES) in
        let ctx := hsk_blake2b_compress ctx (take HSK_BLAKE2B_BLOCKBYTES inp) in
        blake_update_loop fuel' ctx (drop HSK_BLAKE2B_BLOCKBYTES inp)
      else (ctx, inp)
  end.

Definition hsk_blake2b_update (ctx : hsk_blake2b_ctx) (inp : list Z) : hsk_blake2b_ctx :=
  if (0 <? length inp)%nat then
    let left := bl_buflen ctx in
    let fill := (HSK_BLAKE2B_BLOCKBYTES - left)%nat in
    let '(ctx, inp) :=
      if (fill <? length inp)%nat then
        let ctx := bl_set_buf ctx (memcpy_at (bl_buf ctx) left (take fill inp)) 0 in
        let ctx := hsk_blake2b_increment_counter ctx (Z.of_nat HSK_BLAKE2B_BLOCKBYTES) in
        let ctx := hsk_blake2b_compress ctx (bl_buf ctx) in
        blake_update_loop (length inp) ctx (drop fill inp)
      else (ctx, inp) in
    bl_set_buf ctx (memcpy_at (bl_buf ctx) (bl_buflen ctx) inp)
      (bl_buflen ctx + length inp)
  else ctx.

(** [None] is the [-1] return; otherwise the context afterwards and the [outlen]
    bytes written to [out]. *)
Definition hsk_blake2b_final (ctx : hsk_blake2b_ctx) (outlen : Z) :
    option (hsk_blake2b_ctx * list Z) :=
  if outlen <? bl_outlen ctx then None
  else if hsk_blake2b_is_lastblock ctx then None
  else
    let ctx := hsk_blake2b_increment_counter ctx (Z.of_nat (bl_buflen ctx)) in
    let ctx := hsk_blake2b_set_lastblock ctx in
    let buf := memcpy_at (bl_buf ctx) (bl_buflen ctx)
                 (replicate (HSK_BLAKE2B_BLOCKBYTES - bl_buflen ctx) 0) in
    let ctx := bl_set_buf ctx buf (bl_buflen ctx) in
    let ctx := hsk_blake2b_compress ctx (bl_buf ctx) in
    let buffer := concat (map store64 (bl_h ctx)) in
    Some (ctx, take (Z.to_nat (bl_outlen ctx)) buffer).

Definition hsk_blake2b_init_key (outlen : Z) (key : list Z) : option hsk_blake2b_ctx :=
  let keylen := Z.of_nat (length key) in
  if (outlen =? 0) || (HSK_BLAKE2B_OUTBYTES <? outlen) then None
  else if (keylen =? 0) || (HSK_BLAKE2B_KEYBYTES <? keylen) then None
  else
    let ctx := hsk_blake2b_init_param (init_block outlen keylen) in
    let block := memcpy_at (replicate HSK_BLAKE2B_BLOCKBYTES 0) 0 key in
    Some (hsk_blake2b_update ctx block).

(** The one-shot function with non-null pointers. *)
Definition hsk_blake2b (outlen : Z) (inp key : list Z) : option (list Z) :=
  if (outlen =? 0) || (HSK_BLAKE2B_OUTBYTES <? outlen) then None
  else if HSK_BLAKE2B_KEYBYTES <? Z.of_nat (length key) then None
  else
    match (if (0 <? length key)%nat then hsk_blake2b_init_key outlen key
           else hsk_blake2b_init outlen) with
    | None => None
    | Some ctx => snd <$> hsk_blake2b_final (hsk_blake2b_update ctx inp) outlen
    end.

(** The pattern every caller in the program follows: initialise, feed a sequence
    of buffers, finish. [None] is a failed [assert]. *)
Definition blake2b_parts (outlen : Z) (parts : list (list Z)) : option (list Z) :=
  match hsk_blake2b_init outlen with
  | None => None
  | Some ctx => snd <$> hsk_blake2b_final (fold_left hsk_blake2b_update parts ctx) outlen
  end.

(** The test vector of RFC 7693, appendix A: BLAKE2b-512 of "abc". *)
Example blake2b_rfc7693_abc :
  be_combine <$> blake2b_parts 64 [[0x61; 0x62; 0x63]] =
  Some 0xba80a53f981c4d0d6a2797b69f12f6e94c212f14685ac4b74b12bb6fdbffa2d17d87c5392aab792dc252d5de4533cc9518d38aa8dbf1925ab92386edd4009923.
Proof. vm_compute. reflexivity. Qed.

(** * The incremental interface, one byte at a time *)

(** What matters of a context: the chaining state, and the bytes absorbed but
    not yet compressed. The rest of the buffer is garbage. *)
Definition chaining (ctx : hsk_blake2b_ctx) : hsk_blake2b_ctx := bl_set_buf ctx [] 0.
Definition pending (ctx : hsk_blake2b_ctx) : list Z := take (bl_buflen ctx) (bl_buf ctx).
Definition absorbed (ctx : hsk_blake2b_ctx) : hsk_blake2b_ctx * list Z :=
  (chaining ctx, pending ctx).

#[export] Instance blake2b_equiv : Equiv hsk_blake2b_ctx := fun c1 c2 => absorbed c1 = absorbed c2.
#[export] Instance blake2b_equivalence : Equivalence (≡@{hsk_blake2b_ctx}).
Proof.
  split; unfold equiv, blake2b_equiv; [by intros ?|by intros ??|intros ???; congruence].
Qed.

(** The buffer is one block long and at most full. *)
Definition blake_wf (ctx : hsk_blake2b_ctx) : Prop :=
  length (bl_buf ctx) = HSK_BLAKE2B_BLOCKBYTES /\ (bl_buflen ctx <= HSK_BLAKE2B_BLOCKBYTES)%nat.

(** Count and compress one full block. *)
Definition step_block (ctx : hsk_blake2b_ctx) (block : list Z) : hsk_blake2b_ctx :=
  hsk_blake2b_compress
    (hsk_blake2b_increment_counter ctx (Z.of_nat HSK_BLAKE2B_BLOCKBYTES)) block.

(** Absorbing one byte: a full block is compressed only when a byte follows it. *)
Definition feed (st : hsk_blake2b_ctx * list Z) (b : Z) : hsk_blake2b_ctx * list Z :=
  let '(ctx, p) := st in
  if decide (length p = HSK_BLAKE2B_BLOCKBYTES) then (step_block ctx p, [b])
  else (ctx, p ++ [b]).

Lemma length_memcpy_at dst off src :
  (off + length src <= length dst)%nat -> length (memcpy_at dst off src) = length dst.
Proof.
  intros. unfold memcpy_at. rewrite !length_app, length_take, length_drop. lia.
Qed.
Lemma take_memcpy_at dst off src :
  (off + length src <= length dst)%nat ->
  take (off + length src) (memcpy_at dst off src) = take off dst ++ src.
Proof.
  intros. unfold memcpy_at. rewrite (assoc_L (++)), take_app_length'; [done|].
  rewrite length_app, length_take. lia.
Qed.

Lemma chaining_step_block ctx block : chaining (step_block ctx block) = step_block (chaining ctx) block.
Proof. done. Qed.

(** Feeding bytes that fit in the block only appends them. *)
Lemma feed_fits ctx p l :
  (length p + length l <= HSK_BLAKE2B_BLOCKBYTES)%nat ->
  fold_left feed l (ctx, p) = (ctx, p ++ l).
Proof.
  revert p; induction l as [|b l IH]; intros p Hl; [by rewrite app_nil_r|].
  cbn [fold_left feed length] in *. rewrite decide_False by lia.
  rewrite IH by (rewrite length_app; cbn; lia). by rewrite <-(assoc_L (++)).
Qed.
Lemma feed_full ctx p l :
  length p = HSK_BLAKE2B_BLOCKBYTES -> (0 < length l <= HSK_BLAKE2B_BLOCKBYTES)%nat ->
  fold_left feed l (ctx, p) = (step_block ctx p, l).
Proof.
  destruct l as [|b l]; intros Hp Hl; cbn [length] in *; [lia|].
  cbn [fold_left feed]. rewrite decide_True by done. rewrite feed_fits; [done|cbn [length]; lia].
Qed.

(** The loop over whole blocks, given that input is left over. *)
Lemma blake_update_loop_spec fuel ctx p inp ctx' rest :
  length p = HSK_BLAKE2B_BLOCKBYTES -> (0 < length inp)%nat -> (length inp <= fuel)%nat ->
  blake_update_loop fuel (step_block ctx p) inp = (ctx', rest) ->
  (chaining ctx', rest) = fold_left feed inp (chaining ctx, p) /\
  bl_buf ctx' = bl_buf ctx /\ bl_buflen ctx' = bl_buflen ctx /\
  (length rest <= HSK_BLAKE2B_BLOCKBYTES)%nat.
Proof.
  revert ctx p inp; induction fuel as [|fuel IH]; intros ctx p inp Hp H0 Hf; [lia|].
  cbn [blake_update_loop]. destruct (Nat.ltb_spec HSK_BLAKE2B_BLOCKBYTES (length inp)) as [Hlt|Hge].
  - intros Hr. apply (IH (step_block ctx p) (take HSK_BLAKE2B_BLOCKBYTES inp)) in Hr;
      [|rewrite ?length_take, ?length_drop; unfold HSK_BLAKE2B_BLOCKBYTES in *; lia..].
    destruct Hr as (Hr & Hb & Hn & Hl). split; [|done].
    rewrite Hr, chaining_step_block, <-(feed_full _ p (take HSK_BLAKE2B_BLOCKBYTES inp)).
    + by rewrite <-fold_left_app, take_drop.
    + done.
    + rewrite length_take; unfold HSK_BLAKE2B_BLOCKBYTES in *; lia.
  - intros [= <- <-]. rewrite feed_full, chaining_step_block by (done || lia).
    split_and!; [done..|lia].
Qed.

Lemma hsk_blake2b_update_spec ctx inp :
  blake_wf ctx ->
  absorbed (hsk_blake2b_update ctx inp) = fold_left feed inp (absorbed ctx) /\
  blake_wf (hsk_blake2b_update ctx inp).
Proof.
  intros [Hb Hn]. unfold hsk_blake2b_update.
  destruct (Nat.ltb_spec 0 (length inp)) as [H0|H0].
  2: { destruct inp; [by repeat split|simpl in H0; lia]. }
  set (fill := (HSK_BLAKE2B_BLOCKBYTES - bl_buflen ctx)%nat).
  assert (Hpend : length (pending ctx) = bl_buflen ctx)
    by (unfold pending; rewrite length_take; lia).
  destruct (Nat.ltb_spec fill (length inp)) as [Hlt|Hge].
  - set (buf := memcpy_at (bl_buf ctx) (bl_buflen ctx) (take fill inp)).
    assert (Hbuf : buf = pending ctx ++ take fill inp).
    { unfold buf, pending. rewrite <-take_memcpy_at by (rewrite length_take; lia).
      symmetry. apply take_ge. rewrite length_memcpy_at; rewrite length_take; lia. }
    assert (Hlen : length buf = HSK_BLAKE2B_BLOCKBYTES)
      by (rewrite Hbuf, length_app, length_take; lia).
    destruct (blake_update_loop _ _ _) as [ctx' rest] eqn:E.
    apply (blake_update_loop_spec _ (bl_set_buf ctx buf 0) buf) in E as (E & Hb' & Hn' & Hr);
      [|done|rewrite length_drop; lia..].
    cbn [bl_set_buf bl_buf bl_buflen] in Hb', Hn'. split.
    + unfold absorbed at 1, chaining at 1, pending at 1. cbn [bl_set_buf bl_buf bl_buflen].
      rewrite Hb', Hn', take_memcpy_at by (rewrite Hlen; lia).
      change (bl_set_buf (bl_set_buf ctx' _ _) [] 0) with (chaining ctx').
      rewrite take_0. cbn [app]. rewrite E.
      change (chaining (bl_set_buf ctx buf 0)) with (chaining ctx).
      rewrite Hbuf, <-(feed_fits (chaining ctx) (pending ctx) (take fill inp))
        by (rewrite Hpend, length_take; lia).
      by rewrite <-fold_left_app, take_drop.
    + split; cbn [bl_set_buf bl_buf bl_buflen]; rewrite ?Hb', ?Hn'; [|lia].
      rewrite length_memcpy_at; rewrite ?Hlen; [done|lia].
  - split.
    + unfold absorbed at 2. rewrite feed_fits by lia. unfold absorbed, pending at 1.
      cbn [bl_set_buf bl_buf bl_buflen]. by rewrite take_memcpy_at by lia.
    + split; cbn [bl_set_buf bl_buf bl_buflen]; [|lia].
      rewrite length_memcpy_at; [done|lia].
Qed.

(** The digest only depends on what was absorbed. *)
Lemma hsk_blake2b_final_equiv c1 c2 outlen :
  blake_wf c1 -> blake_wf c2 -> c1 ≡ c2 ->
  snd <$> hsk_blake2b_final c1 outlen = snd <$> hsk_blake2b_final c2 outlen.
Proof.
  intros [Hb1 Hn1] [Hb2 Hn2] He. unfold equiv, blake2b_equiv, absorbed, chaining, bl_set_buf in He.
  injection He as Hh Ht0 Ht1 Hf0 Hf1 Hol Hln Hp.
  assert (Hl : bl_buflen c1 = bl_buflen c2).
  { apply (f_equal length) in Hp. unfold pending in Hp. rewrite !length_take in Hp. lia. }
  assert (Hm : forall c, blake_wf c ->
    memcpy_at (bl_buf c) (bl_buflen c) (replicate (HSK_BLAKE2B_BLOCKBYTES - bl_buflen c) 0) =
    pending c ++ replicate (HSK_BLAKE2B_BLOCKBYTES - bl_buflen c) 0).
  { intros c [Hb Hn]. unfold memcpy_at, pending. rewrite drop_ge, app_nil_r; [done|].
    rewrite length_replicate. lia. }
  unfold hsk_blake2b_final, hsk_blake2b_is_lastblock. rewrite Hol, Hf0.
  destruct (outlen <? bl_outlen c2); [done|]. destruct (negb _); [done|].
  cbn [fmap option_fmap option_map snd]. f_equal.
  unfold hsk_blake2b_compress, hsk_blake2b_set_lastblock, hsk_blake2b_set_lastnode,
    hsk_blake2b_increment_counter.
  cbn [bl_h bl_t0 bl_t1 bl_f0 bl_f1 bl_buf bl_buflen bl_outlen bl_last_node bl_set_buf bl_set_h].
  rewrite Hln. destruct (bl_last_node c2 =? 0);
    cbn [bl_h bl_t0 bl_t1 bl_f0 bl_f1 bl_buf bl_buflen bl_outlen bl_last_node bl_set_buf bl_set_h];
    rewrite !Hm by (by split); rewrite Hp, Hl, Hh, Ht0, Ht1, ?Hf1, ?Hol; done.
Qed.

Lemma blake_wf_updates parts ctx :
  blake_wf ctx ->
  absorbed (fold_left hsk_blake2b_update parts ctx) =
    fold_left feed (concat parts) (absorbed ctx) /\
  blake_wf (fold_left hsk_blake2b_update parts ctx).
Proof.
  revert ctx; induction parts as [|p parts IH]; intros ctx Hw; [done|].
  cbn [fold_left concat]. apply (hsk_blake2b_update_spec ctx p) in Hw as [Hp Hw].
  destruct (IH _ Hw) as [-> Hw']. by rewrite fold_left_app, Hp.
Qed.

Lemma hsk_blake2b_init_wf outlen ctx : hsk_blake2b_init outlen = Some ctx -> blake_wf ctx.
Proof.
  unfold hsk_blake2b_init. destruct (_ || _); [done|]. intros [= <-].
  split; [done|cbn; lia].
Qed.

(** The fields that [update] does not touch, and the length of the chaining value. *)
Definition same_params (c1 c2 : hsk_blake2b_ctx) : Prop :=
  length (bl_h c1) = length (bl_h c2) /\ bl_outlen c1 = bl_outlen c2 /\
  bl_f0 c1 = bl_f0 c2.

Lemma same_params_trans c1 c2 c3 : same_params c1 c2 -> same_params c2 c3 -> same_params c1 c3.
Proof.
  intros (H1 & H2 & H3) (H4 & H5 & H6).
  split; [by rewrite H1|split; [by rewrite H2|by rewrite H3]].
Qed.
Lemma same_params_step ctx block : same_params (step_block ctx block) ctx.
Proof. split; [apply length_imap|split; reflexivity]. Qed.
Lemma same_params_loop fuel ctx inp : same_params (blake_update_loop fuel ctx inp).1 ctx.
Proof.
  revert ctx inp; induction fuel as [|fuel IH]; intros ctx inp; [done|].
  cbn [blake_update_loop]. destruct (_ <? _)%nat; [|done].
  eapply same_params_trans; [apply IH|apply same_params_step].
Qed.
Lemma same_params_update ctx inp : same_params (hsk_blake2b_update ctx inp) ctx.
Proof.
  unfold hsk_blake2b_update. destruct (0 <? length inp)%nat; [|done].
  destruct (_ <? length inp)%nat; [|done].
  match goal with |- context [blake_update_loop ?f ?c ?i] =>
    assert (Hl := same_params_loop f c i); destruct (blake_update_loop f c i) as [c' r] end.
  eapply same_params_trans; [exact Hl|]. exact (same_params_step _ _).
Qed.
Lemma same_params_updates parts ctx : same_params (fold_left hsk_blake2b_update parts ctx) ctx.
Proof.
  revert ctx; induction parts as [|p parts IH]; intros ctx; [done|].
  eapply same_params_trans; [apply IH|apply same_params_update].
Qed.

Lemma length_concat_store64 h : length (concat (map store64 h)) = (8 * length h)%nat.
Proof. induction h; [done|]. cbn [map concat length]. rewrite length_app, IHh. cbn. lia. Qed.

Lemma bytes_store64s l : bytes (concat (map store64 l)).
Proof.
  induction l as [|w l IH]; [apply bytes_nil|]. apply bytes_app. split; [apply bytes_le_split|done].
Qed.

Lemma hsk_blake2b_final_total ctx outlen :
  bl_f0 ctx = 0 -> length (bl_h ctx) = 8%nat -> 0 <= bl_outlen ctx <= outlen ->
  outlen <= HSK_BLAKE2B_OUTBYTES ->
  exists out, snd <$> hsk_blake2b_final ctx outlen = Some out /\
    bytes_n (Z.to_nat (bl_outlen ctx)) out.
Proof.
  intros Hf Hh Ho Ho'. unfold HSK_BLAKE2B_OUTBYTES in *.
  unfold hsk_blake2b_final, hsk_blake2b_is_lastblock. rewrite Hf.
  destruct (Z.ltb_spec outlen (bl_outlen ctx)); [lia|]. cbn [negb Z.eqb].
  eexists. split; [reflexivity|].
  unfold hsk_blake2b_set_lastblock, hsk_blake2b_set_lastnode, hsk_blake2b_compress,
    hsk_blake2b_increment_counter.
  cbn [bl_h bl_t0 bl_t1 bl_f0 bl_f1 bl_buf bl_buflen bl_outlen bl_last_node bl_set_buf bl_set_h snd].
  split; [|apply bytes_take, bytes_store64s]. destruct (_ =? 0);
    cbn [bl_h bl_t0 bl_t1 bl_f0 bl_f1 bl_buf bl_buflen bl_outlen bl_last_node bl_set_buf bl_set_h];
    rewrite length_take, length_concat_store64, length_imap; lia.
Qed.

Lemma blake2b_parts_total outlen parts :
  0 < outlen <= HSK_BLAKE2B_OUTBYTES ->
  exists out, blake2b_parts outlen parts = Some out /\ bytes_n (Z.to_nat outlen) out.
Proof.
  intros Ho. unfold HSK_BLAKE2B_OUTBYTES in Ho. unfold blake2b_parts, hsk_blake2b_init, HSK_BLAKE2B_OUTBYTES.
  destruct (Z.eqb_spec outlen 0), (Z.ltb_spec 64 outlen); try lia. cbn [orb].
  destruct (same_params_updates parts (hsk_blake2b_init_param (init_block outlen 0))) as (Hh & Hl & Hf).
  assert (Hout : bl_outlen (hsk_blake2b_init_param (init_block outlen 0)) = outlen)
    by (cbn; apply u8_small; lia).
  rewrite Hout in Hl.
  destruct (hsk_blake2b_final_total _ outlen Hf Hh) as (out & -> & Hlen & Hb);
    [rewrite ?Hl; unfold HSK_BLAKE2B_OUTBYTES; lia..|].
  exists out. split; [done|]. split; [by rewrite Hlen, Hl|done].
Qed.

(** The digest is a function of the concatenation of the buffers. *)
Lemma blake2b_parts_concat outlen parts parts' :
  concat parts = concat parts' -> blake2b_parts outlen parts = blake2b_parts outlen parts'.
Proof.
  intros Hc. unfold blake2b_parts. destruct (hsk_blake2b_init outlen) as [ctx|] eqn:Hi; [|done].
  apply hsk_blake2b_init_wf in Hi.
  destruct (blake_wf_updates parts ctx Hi) as [H1 W1].
  destruct (blake_wf_updates parts' ctx Hi) as [H2 W2].
  apply hsk_blake2b_final_equiv; [done..|]. unfold equiv, blake2b_equiv. congruence.
Qed.

(** BLAKE2b is incremental. However the input is cut into calls of
    [hsk_blake2b_update] (empty buffers, block boundaries and all), the digest is
    that of one call on the whole input, which for an unkeyed hash is what the
    one-shot [hsk_blake2b] computes; a digest length from 1 to 64 is always
    served, with exactly that many bytes. *)
Theorem blake2b_incremental (outlen : Z) (parts : list (list Z)) :
  blake2b_parts outlen parts = hsk_blake2b outlen (concat parts) [] /\
  (0 < outlen <= 64 ->
   exists out, blake2b_parts outlen parts = Some out /\ bytes_n (Z.to_nat outlen) out).
Proof.
  split; [|apply blake2b_parts_total].
  rewrite (blake2b_parts_concat outlen parts [concat parts]) by (cbn; by rewrite app_nil_r).
  unfold blake2b_parts, hsk_blake2b. cbn [length Nat.ltb Nat.leb]. cbn [Z.of_nat Z.ltb Z.compare].
  unfold hsk_blake2b_init. destruct (_ || _); [done|]. done.
Qed.

Lemma blake2b_incremental_witness :
  (0 < 32 <= 64) /\
  exists out, blake2b_parts 32 [[1]; [2; 3]] = Some out /\ bytes_n 32 out.
Proof. split; [lia|]. apply (blake2b_incremental 32 [[1]; [2; 3]]). lia. Defined.
