(* ===== verification/Sha3.v ===== *)
(** SHA-3 and Keccak: [src/reference/hnsd-reference/src/sha3.c].

    The message buffer of the context, an array of 64-bit words that the code
    also addresses as bytes, is kept as its bytes. The little-endian branch of
    [le2me_64] and [me64_to_le_str] is the one modelled. *)

From S2P Require Import Prelude Bio Blake2b.

Definition HSK_SHA3_ROUNDS : nat := 24.
Definition HSK_SHA3_FINALIZED : Z := 0x80000000.

(** [ROTL64(qword, n)]; the two parts are joined by an exclusive or. *)
Definition ROTL64 (q n : Z) : Z := Z.lxor (u64 (Z.shiftl q n)) (Z.shiftr q (64 - n)).

Definition hsk_keccak_round_constants : list Z :=
  [0x0000000000000001; 0x0000000000008082; 0x800000000000808A; 0x8000000080008000;
   0x000000000000808B; 0x0000000080000001; 0x8000000080008081; 0x8000000000008009;
   0x000000000000008A; 0x0000000000000088; 0x0000000080008009; 0x000000008000000A;
   0x000000008000808B; 0x800000000000008B; 0x8000000000008089; 0x8000000000008003;
   0x8000000000008002; 0x8000000000000080; 0x000000000000800A; 0x800000008000000A;
   0x8000000080008081; 0x8000000000008080; 0x0000000080000001; 0x8000000080008008].

Record hsk_sha3_ctx := mk_sha3_ctx {
  s3_hash : list Z;
  s3_message : list Z;
  s3_rest : Z;
  s3_block_size : Z;
}.

(** [None] is the failed [assert] on the rate. *)
Definition hsk_keccak_init (bits : Z) : option hsk_sha3_ctx :=
  let rate := u32 (1600 - bits * 2) in
  if (rate <=? 1600) && (rate mod 64 =? 0) then
    Some (mk_sha3_ctx (replicate 25 0) (replicate 192 0) 0 (rate / 8))
  else None.

Definition hsk_sha3_224_init : option hsk_sha3_ctx := hsk_keccak_init 224.
Definition hsk_sha3_256_init : option hsk_sha3_ctx := hsk_keccak_init 256.
Definition hsk_sha3_384_init : option hsk_sha3_ctx := hsk_keccak_init 384.
Definition hsk_sha3_512_init : option hsk_sha3_ctx := hsk_keccak_init 512.

(** * The permutation *)

Definition hsk_keccak_theta (A : list Z) : list Z :=
  let C := map (fun x => Z.lxor (Z.lxor (Z.lxor (Z.lxor A.[x] A.[x + 5]) A.[x + 10])
                                        A.[x + 15]) A.[x + 20]) (seq 0 5) in
  let D := [Z.lxor (ROTL64 C.[1] 1) C.[4]; Z.lxor (ROTL64 C.[2] 1) C.[0];
            Z.lxor (ROTL64 C.[3] 1) C.[1]; Z.lxor (ROTL64 C.[4] 1) C.[2];
            Z.lxor (ROTL64 C.[0] 1) C.[3]] in
  imap (fun i a => Z.lxor a (nth (i mod 5) D 0)) A.

(** The chain of assignments [A[1] = A[6]; A[6] = A[9]; ...; A[10] = A1]. *)
Definition keccak_pi_chain : list (nat * nat) :=
  [(1, 6); (6, 9); (9, 22); (22, 14); (14, 20); (20, 2); (2, 12); (12, 13); (13, 19);
   (19, 23); (23, 15); (15, 4); (4, 24); (24, 21); (21, 8); (8, 16); (16, 5); (5, 3);
   (3, 18); (18, 17); (17, 11); (11, 7); (7, 10)]%nat.

Definition hsk_keccak_pi (A : list Z) : list Z :=
  let A1 := A.[1] in
  let A := fold_left (fun A '(i, j) => <[i := A.[j]]> A) keccak_pi_chain A in
  <[10%nat := A1]> A.

(** [~x & y] on 64-bit words. *)
Definition andn64 (x y : Z) : Z := Z.land (Z.lxor x all_ones64) y.

Definition keccak_chi_row (A : list Z) (i : nat) : list Z :=
  let A0 := A.[0 + i] in
  let A1 := A.[1 + i] in
  let A := <[(0 + i)%nat := Z.lxor A.[0 + i] (andn64 A1 A.[2 + i])]> A in
  let A := <[(1 + i)%nat := Z.lxor A.[1 + i] (andn64 A.[2 + i] A.[3 + i])]> A in
  let A := <[(2 + i)%nat := Z.lxor A.[2 + i] (andn64 A.[3 + i] A.[4 + i])]> A in
  let A := <[(3 + i)%nat := Z.lxor A.[3 + i] (andn64 A.[4 + i] A0)]> A in
  <[(4 + i)%nat := Z.lxor A.[4 + i] (andn64 A0 A1)]> A.

Definition hsk_keccak_chi (A : list Z) : list Z :=
  fold_left keccak_chi_row [0; 5; 10; 15; 20]%nat A.

(** The rotation amounts of [state[1]] to [state[24]]; [state[0]] is not rotated. *)
Definition keccak_rotations : list Z :=
  [1; 62; 28; 27; 36; 44; 6; 55; 20; 3; 10; 43; 25; 39; 41; 45; 15; 21; 8; 18; 2; 61; 56; 14].

Definition keccak_round (state : list Z) (round : nat) : list Z :=
  let state := hsk_keccak_theta state in
  let state := imap (fun i a => match i with O => a | S k => ROTL64 a keccak_rotations.[k] end)
                 state in
  let state := hsk_keccak_pi state in
  let state := hsk_keccak_chi state in
  <[0%nat := Z.lxor state.[0] hsk_keccak_round_constants.[round]]> state.

Definition hsk_sha3_permutation (state : list Z) : list Z :=
  fold_left keccak_round (seq 0 HSK_SHA3_ROUNDS) state.

(** The words of the block that are absorbed: 9, 13, 17, 18 or 25 of them. *)
Definition absorbed_words (block_size : Z) : nat :=
  if 72 <? block_size then
    if 104 <? block_size then
      if 136 <? block_size then
        if 144 <? block_size then 25 else 18
      else 17
    else 13
  else 9.

Definition hsk_sha3_process_block (hash block : list Z) (block_size : Z) : list Z :=
  let hash := imap (fun i a =>
    if (i <? absorbed_words block_size)%nat
    then Z.lxor a (load64 (drop (8 * i) block)) else a) hash in
  hsk_sha3_permutation hash.

(** * Update and final *)

(** [while (size >= block_size)]. An unaligned block is first copied into the
    message buffer. The fuel is the length of the input. *)
Fixpoint sha3_update_loop (fuel : nat) (aligned : bool) (hash message msg : list Z)
    (block_size : nat) : list Z * list Z * list Z :=
  match fuel with
  | O => (hash, message, msg)
  | S fuel' =>
      if (block_size <=? length msg)%nat then
        let message := if aligned then message
                       else memcpy_at message 0 (take block_size msg) in
        let aligned_message_block := if aligned then msg else message in
        let hash := hsk_sha3_process_block hash aligned_message_block (Z.of_nat block_size) in
        sha3_update_loop fuel' aligned hash message (drop block_size msg) block_size
      else (hash, message, msg)
  end.

(** [aligned]: whether the input pointer is 8-byte aligned when the loop over
    whole blocks starts (each iteration keeps the alignment). *)
Definition hsk_sha3_update (aligned : bool) (ctx : hsk_sha3_ctx) (msg : list Z) : hsk_sha3_ctx :=
  let index := Z.to_nat (s3_rest ctx) in
  let block_size := Z.to_nat (s3_block_size ctx) in
  if negb (Z.land (s3_rest ctx) HSK_SHA3_FINALIZED =? 0) then ctx
  else
    let rest := u32 ((s3_rest ctx + Z.of_nat (length msg)) mod s3_block_size ctx) in
    let whole hash message msg :=
      let '(hash, message, msg) := sha3_update_loop (length msg) aligned hash message msg block_size in
      mk_sha3_ctx hash (if (0 <? length msg)%nat then memcpy_at message 0 msg else message)
        rest (s3_block_size ctx) in
    if (0 <? index)%nat then
      let left := (block_size - index)%nat in
      let message := memcpy_at (s3_message ctx) index (take left msg) in
      if (length msg <? left)%nat then
        mk_sha3_ctx (s3_hash ctx) message rest (s3_block_size ctx)
      else
        let hash := hsk_sha3_process_block (s3_hash ctx) message (s3_block_size ctx) in
        whole hash message (drop left msg)
    else whole (s3_hash ctx) (s3_message ctx) msg.

(** The body the three [_final] functions share; they differ in the domain
    separation bits [dom]. [None] is the failed [assert]. *)
Definition sha3_finish (dom : Z) (ctx : hsk_sha3_ctx) : option (hsk_sha3_ctx * list Z) :=
  let digest_length := u32 (100 - s3_block_size ctx / 2) in
  let block_size := s3_block_size ctx in
  let ctx :=
    if Z.land (s3_rest ctx) HSK_SHA3_FINALIZED =? 0 then
      let r := Z.to_nat (s3_rest ctx) in
      let message := memcpy_at (s3_message ctx) r (replicate (Z.to_nat block_size - r) 0) in
      let message := <[r := Z.lor (nth r message 0) dom]> message in
      let l := (Z.to_nat block_size - 1)%nat in
      let message := <[l := Z.lor (nth l message 0) 0x80]> message in
      let hash := hsk_sha3_process_block (s3_hash ctx) message block_size in
      mk_sha3_ctx hash message HSK_SHA3_FINALIZED block_size
    else ctx in
  if digest_length <? block_size then
    Some (ctx, take (Z.to_nat digest_length) (concat (map store64 (s3_hash ctx))))
  else None.

Definition hsk_sha3_final (ctx : hsk_sha3_ctx) : option (hsk_sha3_ctx * list Z) :=
  sha3_finish 0x06 ctx.
Definition hsk_keccak_final (ctx : hsk_sha3_ctx) : option (hsk_sha3_ctx * list Z) :=
  sha3_finish 0x01 ctx.
Definition hsk_cshake_final (ctx : hsk_sha3_ctx) : option (hsk_sha3_ctx * list Z) :=
  sha3_finish 0x04 ctx.

(** Initialise, feed a sequence of buffers (with their alignment), finish. *)
Definition sha3_256_parts (parts : list (bool * list Z)) : option (list Z) :=
  match hsk_sha3_256_init with
  | None => None
  | Some ctx =>
      snd <$> hsk_sha3_final (fold_left (fun c '(al, m) => hsk_sha3_update al c m) parts ctx)
  end.

(** The digests FIPS 202 gives for the empty message and for "abc". *)
Example sha3_256_empty :
  be_combine <$> sha3_256_parts [] =
  Some 0xa7ffc6f8bf1ed76651c14756a061d662f580ff4de43b49fa82d80a4b80f8434a.
Proof. vm_compute. reflexivity. Qed.
Example sha3_256_abc :
  be_combine <$> sha3_256_parts [(true, [0x61]); (false, [0x62; 0x63])] =
  Some 0x3a985da74fe225b2045c172d6bd390bd855f086e3e9d525b46bfe24511431532.
Proof. vm_compute. reflexivity. Qed.

(** * The incremental interface, one byte at a time *)

(** The rates of the four SHA-3 variants, in bytes. *)
Definition sha3_rate (bs : nat) : Prop := bs = 72%nat \/ bs = 104%nat \/ bs = 136%nat \/ bs = 144%nat.

Lemma absorbed_words_fit bs : sha3_rate bs -> (8 * absorbed_words (Z.of_nat bs) <= bs <= 192)%nat.
Proof. by intros [->|[->|[->| ->]]]; split; apply Nat.leb_le. Qed.

(** A block is absorbed up to the rate; what follows it does not matter. *)
Lemma hsk_sha3_process_block_take hash block bs :
  sha3_rate bs ->
  hsk_sha3_process_block hash (take bs block) (Z.of_nat bs) =
  hsk_sha3_process_block hash block (Z.of_nat bs).
Proof.
  intros Hbs. apply absorbed_words_fit in Hbs. unfold hsk_sha3_process_block. apply (f_equal hsk_sha3_permutation).
  apply imap_ext. intros i a _. destruct (Nat.ltb_spec i (absorbed_words (Z.of_nat bs))); [|done].
  unfold load64. rewrite skipn_firstn_comm, take_take, Nat.min_l by lia. reflexivity.
Qed.

Definition sha3_feed (bs : nat) (st : list Z * list Z) (b : Z) : list Z * list Z :=
  let '(hash, p) := st in
  let p := p ++ [b] in
  if decide (length p = bs) then (hsk_sha3_process_block hash p (Z.of_nat bs), []) else (hash, p).

Lemma sha3_feed_fits bs hash p l :
  (length p + length l < bs)%nat -> fold_left (sha3_feed bs) l (hash, p) = (hash, p ++ l).
Proof.
  revert p; induction l as [|b l IH]; intros p Hl; [by rewrite app_nil_r|].
  cbn [fold_left sha3_feed length] in *. rewrite decide_False by (rewrite length_app; cbn; lia).
  rewrite IH by (rewrite length_app; cbn; lia). by rewrite <-(assoc_L (++)).
Qed.
Lemma sha3_feed_full bs hash p l :
  (length p < bs)%nat -> (length p + length l = bs)%nat ->
  fold_left (sha3_feed bs) l (hash, p) = (hsk_sha3_process_block hash (p ++ l) (Z.of_nat bs), []).
Proof.
  intros Hp Hl. destruct l as [|b l _] using rev_ind; [cbn in Hl; lia|].
  rewrite length_app in Hl. cbn in Hl. rewrite fold_left_app, sha3_feed_fits by lia.
  cbn [fold_left sha3_feed]. rewrite decide_True by (rewrite !length_app; cbn; lia).
  by rewrite <-(assoc_L (++)).
Qed.

(** What matters of a context that is not finalized. *)
Definition sha3_absorbed (ctx : hsk_sha3_ctx) : list Z * list Z :=
  (s3_hash ctx, take (Z.to_nat (s3_rest ctx)) (s3_message ctx)).
Definition sha3_wf (bs : nat) (ctx : hsk_sha3_ctx) : Prop :=
  sha3_rate bs /\ s3_block_size ctx = Z.of_nat bs /\ length (s3_message ctx) = 192%nat /\
  0 <= s3_rest ctx < Z.of_nat bs /\ length (s3_hash ctx) = 25%nat.

Lemma not_finalized r : 0 <= r < 2 ^ 31 -> Z.land r HSK_SHA3_FINALIZED = 0.
Proof.
  intros Hr. change HSK_SHA3_FINALIZED with (2 ^ 31). apply Z.bits_inj'. intros i Hi.
  rewrite Z.land_spec, Z.bits_0, Z.pow2_bits_eqb by lia.
  destruct (Z.eqb_spec 31 i) as [<-|]; [|apply andb_false_r].
  rewrite <-(Z.mod_small r (2 ^ 31)), Z.mod_pow2_bits_high by lia. done.
Qed.

(** ** Lengths *)
Lemma fold_left_length {A} (f : list Z -> A -> list Z) l s :
  (forall s a, length (f s a) = length s) -> length (fold_left f l s) = length s.
Proof. intros Hf. revert s; induction l as [|a l IH]; intros s; [done|]. cbn. by rewrite IH. Qed.
Lemma length_permutation s : length (hsk_sha3_permutation s) = length s.
Proof.
  apply fold_left_length. intros s' r. unfold keccak_round.
  rewrite length_insert. unfold hsk_keccak_chi. rewrite fold_left_length.
  2: { intros. unfold keccak_chi_row. by rewrite !length_insert. }
  unfold hsk_keccak_pi. rewrite length_insert, fold_left_length.
  2: { intros ? [i j]. apply length_insert. }
  rewrite length_imap. apply length_imap.
Qed.
Lemma length_process_block hash block bs :
  length (hsk_sha3_process_block hash block bs) = length hash.
Proof. unfold hsk_sha3_process_block. by rewrite length_permutation, length_imap. Qed.

(** ** The functions of the interface *)

Lemma sha3_update_loop_spec bs fuel al hash message msg hash' message' msg' :
  sha3_rate bs -> (length msg <= fuel)%nat -> length message = 192%nat ->
  sha3_update_loop fuel al hash message msg bs = (hash', message', msg') ->
  fold_left (sha3_feed bs) msg (hash, []) = (hash', msg') /\ (length msg' < bs)%nat /\
  length message' = 192%nat /\ length hash' = length hash /\
  (length msg' = length msg mod bs)%nat.
Proof.
  intros Hbs. assert (Hfit := absorbed_words_fit bs Hbs).
  assert (H0 : (0 < bs)%nat) by (destruct Hbs as [->|[->|[->| ->]]]; lia).
  revert hash message msg; induction fuel as [|fuel IH]; intros hash message msg Hf Hm.
  { intros [= <- <- <-]. destruct msg; [|cbn in Hf; lia]. split_and!; try done.
    by rewrite Nat.mod_0_l by lia. }
  cbn [sha3_update_loop]. destruct (Nat.leb_spec bs (length msg)) as [Hle|Hlt].
  - set (message1 := if al then message else memcpy_at message 0 (take bs msg)).
    assert (Hm1 : length message1 = 192%nat).
    { unfold message1. destruct al; [done|]. rewrite length_memcpy_at; [done|].
      rewrite length_take, Hm. lia. }
    set (blk := if al then msg else message1).
    assert (Hblk : take bs blk = take bs msg).
    { unfold blk, message1. destruct al; [done|]. unfold memcpy_at. rewrite take_0. cbn [app].
      rewrite take_app_length'; [done|]. rewrite length_take. lia. }
    intros E. apply IH in E as (E & Hl & Hm' & Hh & Hr); [|rewrite length_drop; lia|done].
    split_and!; [|done|done|by rewrite Hh, length_process_block|].
    + rewrite <-E, <-(hsk_sha3_process_block_take _ blk), Hblk by done.
      rewrite <-(take_drop bs msg) at 1. rewrite fold_left_app. apply f_equal.
      rewrite sha3_feed_full by (rewrite ?length_take; cbn; lia). done.
    + rewrite Hr, length_drop.
      replace (length msg) with ((length msg - bs) + 1 * bs)%nat at 2 by lia.
      by rewrite Nat.Div0.mod_add.
  - intros [= <- <- <-]. rewrite sha3_feed_fits by (cbn; lia).
    split_and!; try done. by rewrite Nat.mod_small.
Qed.

Lemma rest_nat bs r n : sha3_rate bs -> 0 <= r ->
  u32 ((r + Z.of_nat n) mod Z.of_nat bs) = Z.of_nat ((Z.to_nat r + n) mod bs).
Proof.
  intros Hbs Hr. rewrite u32_small.
  - rewrite Nat2Z.inj_mod, Nat2Z.inj_add, Z2Nat.id by lia. done.
  - assert (0 < Z.of_nat bs < 200) by (destruct Hbs as [->|[->|[->| ->]]]; lia).
    assert (Hmod := Z.mod_pos_bound (r + Z.of_nat n) (Z.of_nat bs)). lia.
Qed.

(** The whole-block part of [hsk_sha3_update], from an empty buffer. *)
Lemma sha3_whole_spec bs al hash message msg hash' message' msg' ctx' :
  sha3_rate bs -> length message = 192%nat -> length hash = 25%nat ->
  sha3_update_loop (length msg) al hash message msg bs = (hash', message', msg') ->
  ctx' = mk_sha3_ctx hash'
    (if (0 <? length msg')%nat then memcpy_at message' 0 msg' else message')
    (Z.of_nat (length msg mod bs)) (Z.of_nat bs) ->
  sha3_absorbed ctx' = fold_left (sha3_feed bs) msg (hash, []) /\ sha3_wf bs ctx'.
Proof.
  intros Hbs Hm Hh E ->. assert (Hfit := absorbed_words_fit bs Hbs).
  apply sha3_update_loop_spec in E as (-> & Hl & Hm' & Hh' & Hr); [|done|lia|done].
  unfold sha3_absorbed, sha3_wf. cbn [s3_hash s3_rest s3_message s3_block_size].
  rewrite Nat2Z.id, <-Hr. split.
  - f_equal. destruct (Nat.ltb_spec 0 (length msg')) as [Hp|Hp].
    + unfold memcpy_at. rewrite take_0. cbn [app]. by apply take_app_length.
    + destruct msg'; [by rewrite take_0|cbn in Hp; lia].
  - split_and!; try done; [|lia|lia|by rewrite Hh'].
    destruct (Nat.ltb_spec 0 (length msg')); [|done]. rewrite length_memcpy_at; lia.
Qed.

Lemma hsk_sha3_update_spec bs al ctx msg :
  sha3_wf bs ctx ->
  sha3_absorbed (hsk_sha3_update al ctx msg) = fold_left (sha3_feed bs) msg (sha3_absorbed ctx) /\
  sha3_wf bs (hsk_sha3_update al ctx msg).
Proof.
  intros (Hbs & Hb & Hm & Hr & Hh). assert (Hfit := absorbed_words_fit bs Hbs).
  unfold hsk_sha3_update. rewrite not_finalized by lia. cbn [Z.eqb negb].
  rewrite Hb, Nat2Z.id, rest_nat by (done || lia).
  set (index := Z.to_nat (s3_rest ctx)).
  assert (Hidx : Z.of_nat index = s3_rest ctx) by (unfold index; lia).
  assert (Hp : length (take index (s3_message ctx)) = index) by (rewrite length_take; lia).
  destruct (Nat.ltb_spec 0 index) as [Hi|Hi].
  2: { destruct (sha3_update_loop _ _ _ _ _ _) as [[hash' message'] msg'] eqn:E.
    unfold sha3_absorbed at 2. fold index. replace index with 0%nat by lia.
    rewrite take_0. apply (sha3_whole_spec bs al _ _ _ _ _ _ _ Hbs Hm Hh E).
    by replace (index + length msg)%nat with (length msg) by lia. }
  set (left := (bs - index)%nat).
  set (message := memcpy_at (s3_message ctx) index (take left msg)).
  assert (Hlt : (index + length (take left msg) <= bs)%nat) by (rewrite length_take; lia).
  assert (Hlen : length message = 192%nat) by (unfold message; rewrite length_memcpy_at; lia).
  assert (Htk : take (index + length (take left msg)) message =
                take index (s3_message ctx) ++ take left msg).
  { apply take_memcpy_at. lia. }
  unfold sha3_absorbed at 2. fold index.
  destruct (Nat.ltb_spec (length msg) left) as [Hs|Hs].
  - rewrite sha3_feed_fits by lia. rewrite (take_ge msg) in Htk by lia.
    unfold sha3_absorbed, sha3_wf. cbn [s3_hash s3_rest s3_message s3_block_size].
    rewrite Nat2Z.id, Nat.mod_small by lia. split; [by rewrite Htk|].
    split_and!; done || lia.
  - destruct (sha3_update_loop _ _ _ _ _ _) as [[hash' message'] msg'] eqn:E.
    rewrite <-(take_drop left msg) at 2. rewrite fold_left_app, sha3_feed_full by lia || (rewrite Hp, length_take; lia).
    rewrite length_take in Htk, Hlt. replace (index + left `min` length msg)%nat with bs in Htk by lia.
    rewrite <-Htk, hsk_sha3_process_block_take by done.
    refine (sha3_whole_spec bs al _ _ _ _ _ _ _ Hbs Hlen _ E _).
    + by rewrite length_process_block.
    + f_equal. f_equal. rewrite length_drop.
      replace (index + length msg)%nat with ((length msg - left) + 1 * bs)%nat by lia.
      by rewrite Nat.Div0.mod_add.
Qed.

(** Two lists that agree on a prefix agree on it after an update. *)
Lemma take_insert_eq (n i : nat) (l k : list Z) x :
  take n l = take n k -> take n (<[i:=x]> l) = take n (<[i:=x]> k).
Proof.
  intros H. destruct (decide (i < n)%nat).
  - by rewrite !take_insert_lt, H by lia.
  - by rewrite !take_insert_ge by lia.
Qed.
Lemma nth_take_eq (n i : nat) (l k : list Z) :
  take n l = take n k -> (i < n)%nat -> nth i l 0 = nth i k 0.
Proof.
  intros H Hi. rewrite !nth_lookup, <-(lookup_take_lt l n i), <-(lookup_take_lt k n i) by done.
  by rewrite H.
Qed.

(** The digest only depends on what was absorbed. *)
Lemma sha3_finish_absorbed bs dom c1 c2 :
  sha3_wf bs c1 -> sha3_wf bs c2 -> sha3_absorbed c1 = sha3_absorbed c2 ->
  snd <$> sha3_finish dom c1 = snd <$> sha3_finish dom c2.
Proof.
  intros (Hbs & Hb1 & Hm1 & Hr1 & _) (_ & Hb2 & Hm2 & Hr2 & _) [= Hh Hp].
  assert (Hfit := absorbed_words_fit bs Hbs).
  assert (Hr : Z.to_nat (s3_rest c1) = Z.to_nat (s3_rest c2)).
  { apply (f_equal length) in Hp. rewrite !length_take in Hp. lia. }
  unfold sha3_finish. rewrite !not_finalized, Hb1, Hb2, Nat2Z.id, <-Hr, <-Hh by lia. cbn [Z.eqb].
  set (r := Z.to_nat (s3_rest c1)) in *.
  set (z := replicate (bs - r) 0).
  assert (Hz : length z = (bs - r)%nat) by apply length_replicate.
  assert (Hm : take bs (memcpy_at (s3_message c1) r z) = take bs (memcpy_at (s3_message c2) r z)).
  { replace bs with (r + length z)%nat by lia.
    rewrite !take_memcpy_at by lia. by rewrite Hp, Hr. }
  set (m1 := memcpy_at (s3_message c1) r z) in *. set (m2 := memcpy_at (s3_message c2) r z) in *.
  rewrite (nth_take_eq bs r m1 m2) by (done || lia).
  set (m1' := <[r:=_]> m1). set (m2' := <[r:=_]> m2).
  assert (Hm' : take bs m1' = take bs m2') by by apply take_insert_eq.
  rewrite (nth_take_eq bs (bs - 1) m1' m2') by (done || lia).
  destruct (_ <? _); [|reflexivity]. cbn [fmap option_fmap option_map snd s3_hash].
  do 3 apply f_equal. apply (f_equal (map store64)).
  rewrite <-(hsk_sha3_process_block_take _ (<[_:=_]> m1')), (take_insert_eq bs _ m1' m2'),
    hsk_sha3_process_block_take by done. reflexivity.
Qed.

Lemma sha3_updates_spec bs parts ctx :
  sha3_wf bs ctx ->
  sha3_absorbed (fold_left (fun c '(al, m) => hsk_sha3_update al c m) parts ctx) =
    fold_left (sha3_feed bs) (concat (map snd parts)) (sha3_absorbed ctx) /\
  sha3_wf bs (fold_left (fun c '(al, m) => hsk_sha3_update al c m) parts ctx).
Proof.
  revert ctx; induction parts as [|[al m] parts IH]; intros ctx Hw; [done|].
  cbn [fold_left map snd concat].
  destruct (hsk_sha3_update_spec bs al ctx m Hw) as [Hp Hw'].
  destruct (IH _ Hw') as [-> Hw'']. by rewrite fold_left_app, Hp.
Qed.

Lemma sha3_256_init_wf : exists ctx, hsk_sha3_256_init = Some ctx /\ sha3_wf 136 ctx.
Proof. eexists. split; [reflexivity|]. by split_and!; [right; right; left|..]. Qed.

Lemma sha3_finish_total bs dom ctx :
  sha3_wf bs ctx ->
  exists out, snd <$> sha3_finish dom ctx = Some out /\ bytes_n (100 - bs / 2) out.
Proof.
  intros (Hbs & Hb & Hm & Hr & Hh). assert (Hfit := absorbed_words_fit bs Hbs).
  unfold sha3_finish. rewrite not_finalized, Hb by lia. cbn [Z.eqb].
  assert (Hu : u32 (100 - Z.of_nat bs / 2) = Z.of_nat (100 - bs / 2)).
  { by destruct Hbs as [->|[->|[->| ->]]]. }
  rewrite Hu. assert (Hl : (100 - bs / 2 <= 64)%nat) by (destruct Hbs as [->|[->|[->| ->]]]; cbn; lia).
  assert (Hlt : Z.of_nat (100 - bs / 2) < Z.of_nat bs)
    by (destruct Hbs as [->|[->|[->| ->]]]; cbn; lia).
  rewrite (proj2 (Z.ltb_lt _ _) Hlt). eexists. split; [reflexivity|]. cbn [snd s3_hash].
  split; [|apply bytes_take, bytes_store64s].
  rewrite length_take, length_concat_store64, length_process_block, Hh, Nat2Z.id. lia.
Qed.

Lemma sha3_256_parts_total parts :
  exists out, sha3_256_parts parts = Some out /\ bytes_n 32 out.
Proof.
  destruct sha3_256_init_wf as (ctx & Hi & Hw). unfold sha3_256_parts. rewrite Hi.
  destruct (sha3_updates_spec 136 parts ctx Hw) as [_ Hw'].
  exact (sha3_finish_total 136 0x06 _ Hw').
Qed.
Lemma sha3_256_parts_concat parts parts' :
  concat (map snd parts) = concat (map snd parts') -> sha3_256_parts parts = sha3_256_parts parts'.
Proof.
  intros Hc. destruct sha3_256_init_wf as (ctx & Hi & Hw). unfold sha3_256_parts. rewrite Hi.
  destruct (sha3_updates_spec 136 parts ctx Hw) as [H1 W1].
  destruct (sha3_updates_spec 136 parts' ctx Hw) as [H2 W2].
  apply (sha3_finish_absorbed 136); [done..|]. congruence.
Qed.

(** SHA-3 is incremental and independent of alignment. Two ways to cut the
    same input into calls of [hsk_sha3_update], at any alignments of the input
    pointers, give the same digest; SHA3-256 always returns 32 bytes. *)
Theorem sha3_incremental parts parts' :
  (concat (map snd parts) = concat (map snd parts') ->
   sha3_256_parts parts = sha3_256_parts parts') /\
  exists out, sha3_256_parts parts = Some out /\ bytes_n 32 out.
Proof. split; [apply sha3_256_parts_concat|apply sha3_256_parts_total]. Qed.
Lemma sha3_incremental_witness :
  sha3_256_parts [(true, [0x61; 0x62; 0x63])] = sha3_256_parts [(true, [0x61]); (false, [0x62; 0x63])].
Proof. apply sha3_incremental. reflexivity. Defined.
