(* ===== verification/Hash.v ===== *)
(** The hash helpers of [src/reference/hnsd-reference/src/hash.c] that are built
    on BLAKE2b and SHA-3: each is a context that is initialised, updated and
    finished, with its asserts as [Fault AssertFail]. *)

From S2P Require Import Prelude Bio Blake2b Sha3.

(** An initialise, update, ..., final sequence with asserted results. *)
Definition blake2b_assert (outlen : Z) (parts : list (list Z)) : outcome (list Z) :=
  of_option AssertFail (blake2b_parts outlen parts).
Definition sha3_assert (parts : list (bool * list Z)) : outcome (list Z) :=
  of_option AssertFail (sha3_256_parts parts).

Definition hsk_hash_blake2b (data : list Z) : outcome (list Z) := blake2b_assert 32 [data].
Definition hsk_hash_blake160 (data : list Z) : outcome (list Z) := blake2b_assert 20 [data].
Definition hsk_hash_blake256 (data : list Z) : outcome (list Z) := blake2b_assert 32 [data].
Definition hsk_hash_blake512 (data : list Z) : outcome (list Z) := blake2b_assert 64 [data].

Definition hsk_hash_blake2b_key (data key : list Z) : outcome (list Z) :=
  let* ctx := of_option AssertFail (hsk_blake2b_init_key 32 key) in
  let ctx := hsk_blake2b_update ctx data in
  let* (_, hash) := of_option AssertFail (hsk_blake2b_final ctx 32) in
  Ret hash.

(** [aligned]: whether [data] is 8-byte aligned, which the digest does not
    depend on. *)
Definition hsk_hash_sha3 (aligned : bool) (data : list Z) : outcome (list Z) :=
  sha3_assert [(aligned, data)].

(** [name] without its terminating NUL. *)
Definition hsk_hash_name (aligned : bool) (name : list Z) : outcome (list Z) :=
  hsk_hash_sha3 aligned name.

(** The KMAC256 message; the buffer [mac] is filled piece by piece. *)
Definition sha3_key_message (data key : list Z) : list Z :=
  [0x01; 0x88] ++ [0x01; 0x20] ++ [0x4b; 0x4d; 0x41; 0x43] ++ [0x01; 0x00] ++
  replicate 126 0 ++ [0x01; 0x88] ++ [0x02; 0x01; 0x00] ++ take 32 key ++
  replicate 99 0 ++ take 208 data ++ [0x01; 0x00; 0x02].
Definition hsk_hash_sha3_key (aligned : bool) (data key : list Z) : outcome (list Z) :=
  let* _ := oassert (length data =? 208)%nat in
  let* _ := oassert (length key =? 32)%nat in
  let* ctx := of_option AssertFail hsk_sha3_256_init in
  let ctx := hsk_sha3_update aligned ctx (sha3_key_message data key) in
  let* (_, hash) := of_option AssertFail (hsk_cshake_final ctx) in
  Ret hash.

(** * Totality *)
Lemma blake2b_assert_total outlen parts : 0 < outlen <= 64 ->
  exists h, blake2b_assert outlen parts = Ret h /\ bytes_n (Z.to_nat outlen) h.
Proof.
  intros Ho. destruct (blake2b_parts_total outlen parts Ho) as (h & Hh & Hb).
  exists h. unfold blake2b_assert. by rewrite Hh.
Qed.
Lemma blake2b_assert_concat outlen parts parts' :
  concat parts = concat parts' -> blake2b_assert outlen parts = blake2b_assert outlen parts'.
Proof. intros Hc. unfold blake2b_assert. by rewrite (blake2b_parts_concat _ _ _ Hc). Qed.
Lemma sha3_assert_total parts : exists h, sha3_assert parts = Ret h /\ bytes_n 32 h.
Proof.
  destruct (sha3_256_parts_total parts) as (h & Hh & Hb).
  exists h. unfold sha3_assert. by rewrite Hh.
Qed.
Lemma sha3_assert_concat parts parts' :
  concat (map snd parts) = concat (map snd parts') -> sha3_assert parts = sha3_assert parts'.
Proof. intros Hc. unfold sha3_assert. by rewrite (sha3_256_parts_concat _ _ Hc). Qed.

#[export] Hint Opaque blake2b_assert sha3_assert : hsk.
