(* ===== verification/Bn.v ===== *)
(** Big integers: [src/reference/hnsd-reference/src/bn.c].

    An [hsk_bn_t] is its array of 32-bit words, the least significant first;
    [bn_val] is the number it stands for. Each loop over the array is a
    structural recursion over the words in the order the code visits them; the
    two loops that are not bounded by the array size (in [hsk_bn_div] and
    [hsk_bn_pow]) take fuel. *)

From S2P Require Import Prelude Bio.

Abbreviation hsk_bn_t := (list Z) (only parsing).
Definition HSK_BN_SIZE : nat := 16.
Definition HSK_BN_MAX : Z := 0xffffffff.

(** * The operations *)

Definition hsk_bn_init : hsk_bn_t := replicate HSK_BN_SIZE 0.

Definition hsk_bn_from_int (i : Z) : hsk_bn_t :=
  let n := hsk_bn_init in
  let n := <[0%nat := u32 i]> n in
  <[1%nat := u32 (Z.shiftr i 32)]> n.

Definition hsk_bn_to_int (n : hsk_bn_t) : Z :=
  let ret := 0 in
  let ret := Z.lor ret n.[0] in
  Z.lor ret (u64 (Z.shiftl n.[1] 32)).

(** [for (; j >= 0; j--)] with [i] advancing by four bytes; [k] is [j + 1]. *)
Fixpoint from_array_loop (k : nat) (array : list Z) (n : hsk_bn_t) : hsk_bn_t :=
  match k with
  | O => n
  | S j =>
      let w := u32 (Z.shiftl array.[0] 24) in
      let w := Z.lor w (Z.shiftl array.[1] 16) in
      let w := Z.lor w (Z.shiftl array.[2] 8) in
      let w := Z.lor w array.[3] in
      from_array_loop j (drop 4 array) (<[j := w]> n)
  end.
Definition hsk_bn_from_array (array : list Z) : hsk_bn_t :=
  from_array_loop (length array / 4) array hsk_bn_init.

Fixpoint to_array_loop (k : nat) (n : hsk_bn_t) : list Z :=
  match k with
  | O => []
  | S j =>
      let w := nth j n 0 in
      [u8 (Z.shiftr w 24); u8 (Z.shiftr w 16); u8 (Z.shiftr w 8); u8 w] ++ to_array_loop j n
  end.
Definition hsk_bn_to_array (n : hsk_bn_t) (size : nat) : list Z := to_array_loop (size / 4) n.

(** Despite its name, the one's complement. *)
Definition hsk_bn_neg (n : hsk_bn_t) : hsk_bn_t := map (fun tmp => u32 (Z.lnot tmp)) n.

(** The loops stop at the first word that does not wrap around. *)
Fixpoint hsk_bn_dec (n : hsk_bn_t) : hsk_bn_t :=
  match n with
  | [] => []
  | tmp :: n' =>
      let res := u32 (tmp - 1) in
      if negb (tmp <? res) then res :: n' else res :: hsk_bn_dec n'
  end.
Fixpoint hsk_bn_inc (n : hsk_bn_t) : hsk_bn_t :=
  match n with
  | [] => []
  | tmp :: n' =>
      let res := u32 (tmp + 1) in
      if tmp <? res then res :: n' else res :: hsk_bn_inc n'
  end.

Fixpoint add_loop (carry : Z) (a b : hsk_bn_t) : hsk_bn_t :=
  match a, b with
  | x :: a', y :: b' =>
      let tmp := u64 (x + y + carry) in
      Z.land tmp HSK_BN_MAX :: add_loop (Z.b2z (HSK_BN_MAX <? tmp)) a' b'
  | _, _ => []
  end.
Definition hsk_bn_add (a b : hsk_bn_t) : hsk_bn_t := add_loop 0 a b.

Fixpoint sub_loop (borrow : Z) (a b : hsk_bn_t) : hsk_bn_t :=
  match a, b with
  | x :: a', y :: b' =>
      let tmp1 := u64 (x + (HSK_BN_MAX + 1)) in
      let tmp2 := u64 (y + borrow) in
      let res := u64 (tmp1 - tmp2) in
      u32 (Z.land res HSK_BN_MAX) :: sub_loop (Z.b2z (res <=? HSK_BN_MAX)) a' b'
  | _, _ => []
  end.
Definition hsk_bn_sub (a b : hsk_bn_t) : hsk_bn_t := sub_loop 0 a b.

Definition _lshift_word (a : hsk_bn_t) (nwords : nat) : hsk_bn_t :=
  imap (fun i _ => if (nwords <=? i)%nat then nth (i - nwords) a 0 else 0) a.
(** As the code has it: the words below [nwords] take the value of their upper
    neighbour, and every other word is cleared. *)
Definition _rshift_word (a : hsk_bn_t) (nwords : nat) : hsk_bn_t :=
  imap (fun i _ => if (i <? nwords)%nat then nth (i + 1) a 0 else 0) a.

(** Shift left by [nbits < 32]: from the top word down, each word takes the high
    bits of its lower neighbour [prev]. *)
Fixpoint lshift_loop (nbits prev : Z) (a : hsk_bn_t) : hsk_bn_t :=
  match a with
  | [] => []
  | x :: a' =>
      Z.lor (u32 (Z.shiftl x nbits)) (Z.shiftr prev (8 * 4 - nbits)) :: lshift_loop nbits x a'
  end.
Fixpoint rshift_loop (nbits : Z) (a : hsk_bn_t) : hsk_bn_t :=
  match a with
  | [] => []
  | x :: a' =>
      Z.lor (Z.shiftr x nbits) (u32 (Z.shiftl (hd 0 a') (8 * 4 - nbits))) :: rshift_loop nbits a'
  end.
Definition _lshift_one_bit (a : hsk_bn_t) : hsk_bn_t := lshift_loop 1 0 a.
Definition _rshift_one_bit (a : hsk_bn_t) : hsk_bn_t := rshift_loop 1 a.

Definition hsk_bn_lshift (a : hsk_bn_t) (nbits : Z) : hsk_bn_t :=
  let nwords := nbits / 32 in
  let a := if nwords =? 0 then a else _lshift_word a (Z.to_nat nwords) in
  let nbits := nbits - nwords * 32 in
  if nbits =? 0 then a else lshift_loop nbits 0 a.
Definition hsk_bn_rshift (a : hsk_bn_t) (nbits : Z) : hsk_bn_t :=
  let nwords := nbits / 32 in
  let a := if nwords =? 0 then a else _rshift_word a (Z.to_nat nwords) in
  let nbits := nbits - nwords * 32 in
  if nbits =? 0 then a else rshift_loop nbits a.

Definition hsk_bn_and (a b : hsk_bn_t) : hsk_bn_t := zip_with Z.land a b.
Definition hsk_bn_or (a b : hsk_bn_t) : hsk_bn_t := zip_with Z.lor a b.
Definition hsk_bn_xor (a b : hsk_bn_t) : hsk_bn_t := zip_with Z.lxor a b.

(** From the top word down; the first difference decides. *)
Fixpoint cmp_loop (a b : hsk_bn_t) : Z :=
  match a, b with
  | x :: a', y :: b' => if y <? x then 1 else if x <? y then -1 else cmp_loop a' b'
  | _, _ => 0
  end.
Definition hsk_bn_cmp (a b : hsk_bn_t) : Z := cmp_loop (reverse a) (reverse b).

Definition hsk_bn_is_zero (n : hsk_bn_t) : bool := forallb (fun w => w =? 0) n.

(** Schoolbook multiplication: a row for each word of [a]. *)
Definition mul_row (a b : hsk_bn_t) (i : nat) : hsk_bn_t :=
  fold_left (fun row j =>
    if (i + j <? HSK_BN_SIZE)%nat then
      let intermediate := u64 (nth i a 0 * nth j b 0) in
      let tmp := hsk_bn_from_int intermediate in
      let tmp := _lshift_word tmp (i + j) in
      hsk_bn_add tmp row
    else row) (seq 0 HSK_BN_SIZE) hsk_bn_init.
Definition hsk_bn_mul (a b : hsk_bn_t) : hsk_bn_t :=
  fold_left (fun cc i => hsk_bn_add cc (mul_row a b i)) (seq 0 HSK_BN_SIZE) hsk_bn_init.

(** [while (hsk_bn_cmp(&denom, a) != 1)]: returns [current], [denom] and
    [overflow]. *)
Fixpoint div_scale (fuel : nat) (a current denom : hsk_bn_t) :
    outcome (hsk_bn_t * hsk_bn_t * bool) :=
  match fuel with
  | O => Fault Hang
  | S fuel' =>
      if hsk_bn_cmp denom a =? 1 then Ret (current, denom, false)
      else if 1 + HSK_BN_MAX / 2 <=? nth (HSK_BN_SIZE - 1) denom 0 then Ret (current, denom, true)
      else div_scale fuel' a (_lshift_one_bit current) (_lshift_one_bit denom)
  end.

(** [while (!hsk_bn_is_zero(&current))] *)
Fixpoint div_subtract (fuel : nat) (current denom tmp c : hsk_bn_t) : outcome hsk_bn_t :=
  match fuel with
  | O => Fault Hang
  | S fuel' =>
      if hsk_bn_is_zero current then Ret c
      else
        let '(tmp, c) :=
          if negb (hsk_bn_cmp tmp denom =? -1)
          then (hsk_bn_sub tmp denom, hsk_bn_or c current)
          else (tmp, c) in
        div_subtract fuel' (_rshift_one_bit current) (_rshift_one_bit denom) tmp c
  end.

Definition div_with_fuel (fuel : nat) (a b : hsk_bn_t) : outcome hsk_bn_t :=
  let current := hsk_bn_from_int 1 in
  let denom := b in
  let tmp := a in
  let* (current, denom, overflow) := div_scale fuel a current denom in
  let '(denom, current) :=
    if negb overflow then (_rshift_one_bit denom, _rshift_one_bit current)
    else (denom, current) in
  div_subtract fuel current denom tmp hsk_bn_init.

Definition hsk_bn_div (a b : hsk_bn_t) : outcome hsk_bn_t := div_with_fuel 520 a b.

(** The three arguments are distinct objects. *)
Definition hsk_bn_mod (a b : hsk_bn_t) : outcome hsk_bn_t :=
  let* c := hsk_bn_div a b in
  let tmp := hsk_bn_mul c b in
  Ret (hsk_bn_sub a tmp).

(** [while (!hsk_bn_is_zero(b))]: one multiplication per unit of [b]. *)
Fixpoint pow_loop (fuel : nat) (a b tmp : hsk_bn_t) : outcome hsk_bn_t :=
  match fuel with
  | O => Fault Hang
  | S fuel' =>
      if hsk_bn_is_zero b then Ret tmp
      else pow_loop fuel' a (hsk_bn_dec b) (hsk_bn_mul tmp a)
  end.
Definition hsk_bn_pow (fuel : nat) (a b : hsk_bn_t) : outcome hsk_bn_t :=
  let cc := hsk_bn_init in
  if hsk_bn_cmp b cc =? 0 then Ret (hsk_bn_inc cc)
  else pow_loop fuel a (hsk_bn_dec b) a.

(** * Values *)

Abbreviation is_word := (fun w : Z => 0 <= w < 2 ^ 32).
Definition words (l : list Z) : Prop := Forall is_word l.
Definition bn_wf (a : hsk_bn_t) : Prop := length a = HSK_BN_SIZE /\ words a.

Fixpoint bn_val (l : hsk_bn_t) : Z :=
  match l with
  | [] => 0
  | w :: l' => w + 2 ^ 32 * bn_val l'
  end.
(** One more than the largest value of [l] words. *)
Definition bn_mod (l : hsk_bn_t) : Z := (2 ^ 32) ^ Z.of_nat (length l).

Lemma bn_mod_nil : bn_mod [] = 1.
Proof. done. Qed.
Lemma bn_mod_cons w l : bn_mod (w :: l) = 2 ^ 32 * bn_mod l.
Proof. unfold bn_mod. cbn [length]. rewrite Nat2Z.inj_succ, Z.pow_succ_r by lia. done. Qed.
Lemma bn_mod_pos l : 0 < bn_mod l.
Proof. unfold bn_mod. apply Z.pow_pos_nonneg; lia. Qed.
Lemma bn_mod_wf a : bn_wf a -> bn_mod a = 2 ^ 512.
Proof. intros [H _]. unfold bn_mod. by rewrite H. Qed.
Lemma words_cons w l : words (w :: l) <-> 0 <= w < 2 ^ 32 /\ words l.
Proof. unfold words. by rewrite Forall_cons. Qed.

Lemma bn_val_range l : words l -> 0 <= bn_val l < bn_mod l.
Proof.
  induction 1 as [|w l Hw Hl IH]; [rewrite bn_mod_nil; cbn [bn_val]; lia|].
  rewrite bn_mod_cons. cbn [bn_val]. lia.
Qed.
Lemma bn_val_range_wf a : bn_wf a -> 0 <= bn_val a < 2 ^ 512.
Proof. intros H. rewrite <-(bn_mod_wf a H). apply bn_val_range, H. Qed.
Lemma bn_val_app l k : bn_val (l ++ k) = bn_val l + bn_mod l * bn_val k.
Proof.
  induction l as [|w l IH]; [rewrite bn_mod_nil; cbn [bn_val app]; lia|].
  cbn [app bn_val]. rewrite bn_mod_cons, IH. lia.
Qed.
Lemma bn_val_zeros n : bn_val (replicate n 0) = 0.
Proof. induction n; [done|]. cbn [replicate bn_val]. lia. Qed.
Lemma words_zeros n : words (replicate n 0).
Proof. apply Forall_replicate. lia. Qed.
Lemma bn_val_inj a b : length a = length b -> words a -> words b -> bn_val a = bn_val b -> a = b.
Proof.
  intros Hlen Ha. revert b Hlen; induction Ha as [|x a Hx Ha IH]; intros [|y b] Hlen Hb He;
    try done. injection Hlen as Hlen. apply words_cons in Hb as [Hy Hb]. cbn [bn_val] in He.
  f_equal; [lia|]. apply IH; [done|done|lia].
Qed.

Lemma land_max x : Z.land x HSK_BN_MAX = x mod 2 ^ 32.
Proof. exact (land_ones_mod x 32 ltac:(lia)). Qed.

(** ** Addition and subtraction *)

Lemma hsk_bn_init_wf : bn_wf hsk_bn_init.
Proof. split; [done|apply words_zeros]. Qed.
Lemma hsk_bn_init_val : bn_val hsk_bn_init = 0.
Proof. apply bn_val_zeros. Qed.

Lemma add_loop_spec a b carry :
  length a = length b -> words a -> words b -> 0 <= carry <= 1 ->
  length (add_loop carry a b) = length a /\ words (add_loop carry a b) /\
  bn_val (add_loop carry a b) = (bn_val a + bn_val b + carry) mod bn_mod a.
Proof.
  intros Hlen Ha. revert b carry Hlen;
    induction Ha as [|x a Hx Ha IH]; intros [|y b] carry Hlen Hb Hc; try done.
  { by rewrite bn_mod_nil, Z.mod_1_r. }
  injection Hlen as Hlen. apply words_cons in Hb as [Hy Hb]. cbn [add_loop].
  rewrite u64_small, land_max by lia.
  set (k := Z.b2z (HSK_BN_MAX <? x + y + carry)).
  assert (Hk : k = (x + y + carry) / 2 ^ 32).
  { unfold k, HSK_BN_MAX. destruct (Z.ltb_spec 0xffffffff (x + y + carry)); cbn [Z.b2z]; dlia. }
  destruct (IH b k) as (IHl & IHw & IHv); [done|done|rewrite Hk; dlia|].
  split; [cbn; lia|]. split.
  { apply words_cons. split; [apply Z.mod_pos_bound; lia|done]. }
  cbn [bn_val]. rewrite IHv, Hk, bn_mod_cons, Z.rem_mul_r by (try apply bn_mod_pos; lia).
  f_equal.
  - rewrite <-(Z.mod_add _ (bn_val a + bn_val b) (2 ^ 32)) by lia. f_equal. lia.
  - f_equal. f_equal.
    replace (x + 2 ^ 32 * bn_val a + (y + 2 ^ 32 * bn_val b) + carry)
      with ((x + y + carry) + (bn_val a + bn_val b) * 2 ^ 32) by lia.
    rewrite Z.div_add by lia. lia.
Qed.
Lemma hsk_bn_add_wf a b : bn_wf a -> bn_wf b -> bn_wf (hsk_bn_add a b).
Proof.
  intros [Hla Ha] [Hlb Hb]. destruct (add_loop_spec a b 0) as (H1 & H2 & _); [lia|done|done|lia|].
  split; [unfold hsk_bn_add; lia|done].
Qed.
Lemma hsk_bn_add_val a b :
  bn_wf a -> bn_wf b -> bn_val (hsk_bn_add a b) = (bn_val a + bn_val b) mod 2 ^ 512.
Proof.
  intros Hwa [Hlb Hb]. rewrite <-(bn_mod_wf a Hwa). destruct Hwa as [Hla Ha].
  destruct (add_loop_spec a b 0) as (_ & _ & H); [lia|done|done|lia|].
  unfold hsk_bn_add. rewrite H. f_equal. lia.
Qed.

Lemma sub_loop_spec a b borrow :
  length a = length b -> words a -> words b -> 0 <= borrow <= 1 ->
  length (sub_loop borrow a b) = length a /\ words (sub_loop borrow a b) /\
  bn_val (sub_loop borrow a b) = (bn_val a - bn_val b - borrow) mod bn_mod a.
Proof.
  intros Hlen Ha. revert b borrow Hlen;
    induction Ha as [|x a Hx Ha IH]; intros [|y b] borrow Hlen Hb Hc; try done.
  { by rewrite bn_mod_nil, Z.mod_1_r. }
  injection Hlen as Hlen. apply words_cons in Hb as [Hy Hb]. cbn [sub_loop].
  assert (Hres : u64 (u64 (x + (HSK_BN_MAX + 1)) - u64 (y + borrow)) = x - y - borrow + 2 ^ 32).
  { unfold HSK_BN_MAX. rewrite !u64_small; rewrite ?u64_small; lia. }
  cbv zeta. rewrite Hres, land_max.
  set (k := Z.b2z (x - y - borrow + 2 ^ 32 <=? HSK_BN_MAX)).
  assert (Hk : k = - ((x - y - borrow) / 2 ^ 32)).
  { unfold k, HSK_BN_MAX. destruct (Z.leb_spec (x - y - borrow + 2 ^ 32) 0xffffffff);
      cbn [Z.b2z]; dlia. }
  destruct (IH b k) as (IHl & IHw & IHv); [done|done|rewrite Hk; dlia|].
  split; [cbn; lia|]. split.
  { apply words_cons. split; [apply u32_range|done]. }
  cbn [bn_val]. rewrite u32_small by (apply Z.mod_pos_bound; lia).
  rewrite IHv, Hk, bn_mod_cons, Z.rem_mul_r by (try apply bn_mod_pos; lia).
  replace (x + 2 ^ 32 * bn_val a - (y + 2 ^ 32 * bn_val b) - borrow)
    with ((x - y - borrow) + (bn_val a - bn_val b) * 2 ^ 32) by lia.
  rewrite Z.div_add, Z.mod_add by lia. f_equal.
  - rewrite <-(Z.mod_add (x - y - borrow) 1 (2 ^ 32)) by lia. f_equal.
  - f_equal. f_equal. lia.
Qed.
Lemma hsk_bn_sub_wf a b : bn_wf a -> bn_wf b -> bn_wf (hsk_bn_sub a b).
Proof.
  intros [Hla Ha] [Hlb Hb]. destruct (sub_loop_spec a b 0) as (H1 & H2 & _); [lia|done|done|lia|].
  split; [unfold hsk_bn_sub; lia|done].
Qed.
Lemma hsk_bn_sub_val a b :
  bn_wf a -> bn_wf b -> bn_val (hsk_bn_sub a b) = (bn_val a - bn_val b) mod 2 ^ 512.
Proof.
  intros Hwa [Hlb Hb]. rewrite <-(bn_mod_wf a Hwa). destruct Hwa as [Hla Ha].
  destruct (sub_loop_spec a b 0) as (_ & _ & H); [lia|done|done|lia|].
  unfold hsk_bn_sub. rewrite H. f_equal. lia.
Qed.

Lemma hsk_bn_inc_spec a :
  words a -> length (hsk_bn_inc a) = length a /\ words (hsk_bn_inc a) /\
  bn_val (hsk_bn_inc a) = (bn_val a + 1) mod bn_mod a.
Proof.
  induction 1 as [|x a Hx Ha (IHl & IHw & IHv)].
  { split_and!; [done|constructor|by rewrite bn_mod_nil, Z.mod_1_r]. }
  cbn [hsk_bn_inc]. rewrite bn_mod_cons. assert (R := bn_val_range a Ha). assert (M := bn_mod_pos a).
  destruct (Z.ltb_spec x (u32 (x + 1))) as [H|H].
  - assert (Hs : u32 (x + 1) = x + 1) by (unfold u32 in *; dlia).
    rewrite Hs. split; [done|]. split; [by apply words_cons; split; [unfold u32 in *; dlia|]|].
    cbn [bn_val]. rewrite Z.mod_small; [lia|]. unfold u32 in Hs. dlia.
  - assert (Hx1 : x = 2 ^ 32 - 1) by (unfold u32 in H; dlia).
    assert (Hs : u32 (x + 1) = 0) by (unfold u32; rewrite Hx1; done).
    rewrite Hs. split; [cbn; lia|]. split; [by apply words_cons|].
    cbn [bn_val]. rewrite IHv, Hx1, Z.rem_mul_r by lia.
    replace (2 ^ 32 - 1 + 2 ^ 32 * bn_val a + 1) with (0 + (bn_val a + 1) * 2 ^ 32) by lia.
    rewrite Z.mod_add, Z.div_add by lia. rewrite Z.mod_0_l, Z.div_0_l by lia. by rewrite !Z.add_0_l.
Qed.
Lemma hsk_bn_dec_spec a :
  words a -> length (hsk_bn_dec a) = length a /\ words (hsk_bn_dec a) /\
  bn_val (hsk_bn_dec a) = (bn_val a - 1) mod bn_mod a.
Proof.
  induction 1 as [|x a Hx Ha (IHl & IHw & IHv)].
  { split_and!; [done|constructor|by rewrite bn_mod_nil, Z.mod_1_r]. }
  cbn [hsk_bn_dec]. rewrite bn_mod_cons. assert (R := bn_val_range a Ha). assert (M := bn_mod_pos a).
  destruct (Z.ltb_spec x (u32 (x - 1))) as [H|H]; cbn [negb].
  - assert (Hx1 : x = 0) by (unfold u32 in H; dlia). subst x.
    change (u32 (0 - 1)) with (2 ^ 32 - 1).
    split; [cbn; lia|]. split; [apply words_cons; split; [lia|done]|].
    cbn [bn_val]. rewrite IHv, Z.rem_mul_r by lia.
    replace (0 + 2 ^ 32 * bn_val a - 1) with (2 ^ 32 - 1 + (bn_val a - 1) * 2 ^ 32) by lia.
    rewrite Z.mod_add, Z.div_add by lia. f_equal.
  - assert (Hs : u32 (x - 1) = x - 1) by (unfold u32 in *; dlia).
    assert (0 <= x - 1) by (rewrite <-Hs; apply u32_range).
    rewrite Hs. split; [done|]. split; [by apply words_cons; split; [lia|]|].
    cbn [bn_val]. rewrite Z.mod_small; lia.
Qed.

(** ** Shifts *)

(** A power of two below the word size divides it exactly. *)
Lemma pow_split n : 0 <= n <= 32 -> 2 ^ 32 = 2 ^ (32 - n) * 2 ^ n.
Proof. intros. rewrite <-Z.pow_add_r by lia. f_equal. lia. Qed.

Lemma lshift_word_val x n prev :
  0 <= n < 32 -> 0 <= x < 2 ^ 32 -> 0 <= prev < 2 ^ 32 ->
  Z.lor (u32 (Z.shiftl x n)) (Z.shiftr prev (8 * 4 - n)) =
  (x mod 2 ^ (32 - n)) * 2 ^ n + prev / 2 ^ (32 - n).
Proof.
  intros Hn Hx Hp. unfold u32. rewrite Z.shiftl_mul_pow2, Z.shiftr_div_pow2 by lia.
  rewrite (pow_split n) by lia. rewrite Z.mul_mod_distr_r by lia.
  rewrite <-Z.shiftl_mul_pow2 by lia. change (8 * 4) with 32.
  rewrite lor_shiftl_add; [by rewrite Z.shiftl_mul_pow2 by lia|lia|].
  assert (E := pow_split n ltac:(lia)). split; [apply Z.div_pos; lia|].
  apply Z.div_lt_upper_bound; lia.
Qed.
Lemma lshift_loop_spec n a prev :
  0 <= n < 32 -> words a -> 0 <= prev < 2 ^ 32 ->
  length (lshift_loop n prev a) = length a /\ words (lshift_loop n prev a) /\
  bn_val (lshift_loop n prev a) = (bn_val a * 2 ^ n + prev / 2 ^ (32 - n)) mod bn_mod a.
Proof.
  intros Hn Ha. revert prev; induction Ha as [|x a Hx Ha IH]; intros prev Hp.
  { split_and!; [done|constructor|by rewrite bn_mod_nil, Z.mod_1_r]. }
  assert (M := bn_mod_pos a). assert (E := pow_split n ltac:(lia)).
  assert (P1 : 0 < 2 ^ n) by (apply Z.pow_pos_nonneg; lia).
  assert (P2 : 0 < 2 ^ (32 - n)) by (apply Z.pow_pos_nonneg; lia).
  destruct (IH x Hx) as (IHl & IHw & IHv). cbn [lshift_loop].
  rewrite (lshift_word_val x n prev) by done.
  set (p := prev / 2 ^ (32 - n)).
  assert (Hp2 : 0 <= p < 2 ^ n).
  { split; [apply Z.div_pos; lia|apply Z.div_lt_upper_bound; lia]. }
  assert (D := Z.div_mod x (2 ^ (32 - n)) ltac:(lia)).
  assert (R := Z.mod_pos_bound x (2 ^ (32 - n)) ltac:(lia)).
  set (r := x mod 2 ^ (32 - n)) in *. set (q := x / 2 ^ (32 - n)) in *.
  split; [cbn; lia|]. split; [apply words_cons; split; [nia|done]|].
  cbn [bn_val]. rewrite IHv, bn_mod_cons. fold q.
  replace ((x + 2 ^ 32 * bn_val a) * 2 ^ n + p)
    with ((r * 2 ^ n + p) + (bn_val a * 2 ^ n + q) * 2 ^ 32) by nia.
  rewrite Z.rem_mul_r, Z.mod_add, Z.div_add by lia.
  rewrite (Z.mod_small (r * 2 ^ n + p)), (Z.div_small (r * 2 ^ n + p)) by nia. by rewrite Z.add_0_l.
Qed.
Lemma _lshift_one_bit_wf a : bn_wf a -> bn_wf (_lshift_one_bit a).
Proof.
  intros [Hl Ha]. destruct (lshift_loop_spec 1 a 0) as (H1 & H2 & _); [lia|done|lia|].
  split; [unfold _lshift_one_bit; lia|done].
Qed.
Lemma _lshift_one_bit_val a :
  bn_wf a -> bn_val (_lshift_one_bit a) = (2 * bn_val a) mod 2 ^ 512.
Proof.
  intros Hwf. rewrite <-(bn_mod_wf a Hwf). destruct Hwf as [Hl Ha].
  destruct (lshift_loop_spec 1 a 0) as (_ & _ & H3); [lia|done|lia|].
  unfold _lshift_one_bit. rewrite H3. f_equal. rewrite Z.div_0_l by done. lia.
Qed.

Lemma rshift_word_val x n y :
  0 <= n < 32 -> 0 <= x < 2 ^ 32 -> 0 <= y < 2 ^ 32 ->
  Z.lor (Z.shiftr x n) (u32 (Z.shiftl y (8 * 4 - n))) =
  x / 2 ^ n + (y mod 2 ^ n) * 2 ^ (32 - n).
Proof.
  intros Hn Hx Hy. change (8 * 4) with 32. unfold u32.
  rewrite Z.shiftl_mul_pow2, Z.shiftr_div_pow2 by lia.
  rewrite (pow_split n), (Z.mul_comm (2 ^ (32 - n))) by lia.
  rewrite Z.mul_mod_distr_r by lia.
  rewrite <-(Z.shiftl_mul_pow2 (y mod _)) by lia.
  rewrite lor_add_shiftl; [by rewrite Z.shiftl_mul_pow2 by lia|lia|].
  assert (E := pow_split n ltac:(lia)). split; [apply Z.div_pos; lia|].
  apply Z.div_lt_upper_bound; lia.
Qed.
Lemma words_hd a : words a -> 0 <= hd 0 a < 2 ^ 32.
Proof. intros H. destruct H; cbn; lia. Qed.
Lemma bn_val_hd a n : 0 <= n <= 32 -> bn_val a mod 2 ^ n = hd 0 a mod 2 ^ n.
Proof.
  intros Hn. destruct a as [|x a]; [done|]. cbn [bn_val hd].
  rewrite (pow_split n) by lia.
  replace (2 ^ (32 - n) * 2 ^ n * bn_val a) with ((2 ^ (32 - n) * bn_val a) * 2 ^ n) by lia.
  by rewrite Z.mod_add by lia.
Qed.
Lemma rshift_loop_spec n a :
  0 <= n < 32 -> words a ->
  length (rshift_loop n a) = length a /\ words (rshift_loop n a) /\
  bn_val (rshift_loop n a) = bn_val a / 2 ^ n.
Proof.
  intros Hn. induction 1 as [|x a Hx Ha (IHl & IHw & IHv)].
  { split_and!; [done|constructor|cbn [rshift_loop bn_val]; by rewrite Z.div_0_l by lia]. }
  assert (E := pow_split n ltac:(lia)).
  assert (P1 : 0 < 2 ^ n) by (apply Z.pow_pos_nonneg; lia).
  assert (P2 : 0 < 2 ^ (32 - n)) by (apply Z.pow_pos_nonneg; lia).
  cbn [rshift_loop]. rewrite rshift_word_val by (try apply words_hd; done).
  rewrite <-bn_val_hd by lia.
  assert (D := Z.div_mod (bn_val a) (2 ^ n) ltac:(lia)).
  assert (R := Z.mod_pos_bound (bn_val a) (2 ^ n) ltac:(lia)).
  assert (Hq : 0 <= x / 2 ^ n < 2 ^ (32 - n)).
  { split; [apply Z.div_pos; lia|apply Z.div_lt_upper_bound; lia]. }
  split; [cbn; lia|]. split; [apply words_cons; split; [nia|done]|].
  cbn [bn_val]. rewrite IHv.
  replace (x + 2 ^ 32 * bn_val a) with (x + (2 ^ (32 - n) * bn_val a) * 2 ^ n)
    by (rewrite E; ring).
  rewrite Z.div_add by lia. rewrite E.
  set (q := bn_val a / 2 ^ n) in *. set (r := bn_val a mod 2 ^ n) in *. rewrite D. ring.
Qed.
Lemma _rshift_one_bit_wf a : bn_wf a -> bn_wf (_rshift_one_bit a).
Proof.
  intros [Hl Ha]. destruct (rshift_loop_spec 1 a) as (H1 & H2 & _); [lia|done|].
  split; [unfold _rshift_one_bit; lia|done].
Qed.
Lemma _rshift_one_bit_val a : bn_wf a -> bn_val (_rshift_one_bit a) = bn_val a / 2.
Proof. intros [Hl Ha]. apply (rshift_loop_spec 1 a); [lia|done]. Qed.

(** Moving whole words: [nwords] zero words come in at the bottom, and as many
    words fall off at the top. *)
Lemma _lshift_word_eq a nwords :
  (nwords <= length a)%nat ->
  _lshift_word a nwords = replicate nwords 0 ++ take (length a - nwords) a.
Proof.
  intros Hn. apply list_eq_same_length with (length a).
  { rewrite length_app, length_replicate, length_take. lia. }
  { unfold _lshift_word. apply length_imap. }
  intros i x y Hi. unfold _lshift_word. rewrite list_lookup_imap.
  destruct (lookup_lt_is_Some_2 a i Hi) as [z ->]. cbn [fmap option_fmap option_map].
  destruct (Nat.leb_spec nwords i) as [H|H].
  - intros [= <-]. rewrite lookup_app_r by (rewrite length_replicate; lia).
    rewrite length_replicate, lookup_take_lt by lia. intros Hy.
    by rewrite (nth_lookup_Some _ _ _ _ Hy).
  - intros [= <-]. rewrite lookup_app_l by (rewrite length_replicate; lia).
    rewrite lookup_replicate_2 by lia. by intros [= <-].
Qed.
Lemma bn_val_take k a : words a -> (k <= length a)%nat ->
  bn_val (take k a) = bn_val a mod (2 ^ 32) ^ Z.of_nat k.
Proof.
  intros Ha Hk. rewrite <-(take_drop k a) at 2. rewrite bn_val_app. unfold bn_mod.
  rewrite length_take, Nat.min_l, Z.mul_comm, Z.mod_add by (try apply Z.pow_nonzero; lia).
  symmetry. apply Z.mod_small.
  assert (R := bn_val_range (take k a) (Forall_take _ _ _ Ha)).
  unfold bn_mod in R. by rewrite length_take, Nat.min_l in R.
Qed.
Lemma _lshift_word_wf a nwords :
  (nwords <= HSK_BN_SIZE)%nat -> bn_wf a -> bn_wf (_lshift_word a nwords).
Proof.
  intros Hn [Hl Ha]. rewrite _lshift_word_eq by lia. split.
  - rewrite length_app, length_replicate, length_take. lia.
  - apply Forall_app. split; [apply words_zeros|by apply Forall_take].
Qed.
Lemma _lshift_word_val a nwords :
  (nwords <= HSK_BN_SIZE)%nat -> bn_wf a ->
  bn_val (_lshift_word a nwords) = (bn_val a * 2 ^ (32 * Z.of_nat nwords)) mod 2 ^ 512.
Proof.
  intros Hn [Hl Ha]. rewrite _lshift_word_eq by lia. rewrite bn_val_app, bn_val_zeros, Z.add_0_l.
  rewrite bn_val_take by (done || lia). unfold bn_mod. rewrite length_replicate, <-!Z.pow_mul_r by lia.
  replace (2 ^ 512) with (2 ^ (32 * Z.of_nat nwords) * 2 ^ (32 * Z.of_nat (length a - nwords)))
    by (rewrite <-Z.pow_add_r by lia; f_equal; unfold HSK_BN_SIZE in *; lia).
  by rewrite (Z.mul_comm (bn_val a)), Z.mul_mod_distr_l by (apply Z.pow_nonzero; lia).
Qed.

(** ** Bitwise operations and comparison *)

Lemma word_cons_testbit w v i :
  0 <= w < 2 ^ 32 -> 0 <= i ->
  Z.testbit (w + 2 ^ 32 * v) i = if i <? 32 then Z.testbit w i else Z.testbit v (i - 32).
Proof.
  intros Hw Hi. rewrite Z.add_comm, Z.mul_comm, <-lor_shiftl_add, Z.lor_spec, Z.shiftl_spec by lia.
  destruct (Z.ltb_spec i 32).
  - by rewrite (Z.testbit_neg_r v) by lia.
  - rewrite <-(Z.mod_small w (2 ^ 32)), Z.mod_pow2_bits_high by lia. apply orb_false_r.
Qed.

(** A bitwise operation on words is the operation on the numbers. *)
Section bitwise.
Variable op : Z -> Z -> Z.
Variable opb : bool -> bool -> bool.
Hypothesis op_spec : forall a b i, Z.testbit (op a b) i = opb (Z.testbit a i) (Z.testbit b i).
Hypothesis opb_false : opb false false = false.

Lemma op_word x y : 0 <= x < 2 ^ 32 -> 0 <= y < 2 ^ 32 -> 0 <= op x y < 2 ^ 32.
Proof.
  intros Hx Hy.
  assert (E : op x y = op x y mod 2 ^ 32).
  { apply Z.bits_inj'. intros i Hi. rewrite Z.testbit_mod_pow2, op_spec by lia.
    destruct (Z.ltb_spec i 32); [done|].
    rewrite <-(Z.mod_small x (2 ^ 32)), <-(Z.mod_small y (2 ^ 32)) by lia.
    by rewrite !Z.mod_pow2_bits_high by lia. }
  rewrite E. apply Z.mod_pos_bound. lia.
Qed.
Lemma zip_op_words a b : words a -> words b -> words (zip_with op a b).
Proof.
  intros Ha. revert b. induction Ha as [|x a Hx Ha IH]; intros [|y b] Hb; try constructor;
    apply words_cons in Hb as [Hy Hb]; [by apply op_word|by apply IH].
Qed.
Lemma zip_op_wf a b : bn_wf a -> bn_wf b -> bn_wf (zip_with op a b).
Proof.
  intros [Hl Ha] [Hk Hb]. split; [rewrite length_zip_with; lia|by apply zip_op_words].
Qed.
Lemma zip_op_val a b : length a = length b -> words a -> words b ->
  bn_val (zip_with op a b) = op (bn_val a) (bn_val b).
Proof.
  intros Hlen Ha. revert b Hlen.
  induction Ha as [|x a Hx Ha IH]; intros [|y b] Hlen Hb; try done.
  { cbn [zip_with bn_val]. apply Z.bits_inj'; intros i Hi. by rewrite op_spec, !Z.bits_0. }
  injection Hlen as Hlen. apply words_cons in Hb as [Hy Hb]. cbn [zip_with bn_val].
  rewrite IH by done. apply Z.bits_inj'; intros i Hi.
  assert (Hop := op_word x y Hx Hy).
  rewrite op_spec, !word_cons_testbit by done. by destruct (i <? 32); rewrite op_spec.
Qed.
End bitwise.

Lemma hsk_bn_or_wf a b : bn_wf a -> bn_wf b -> bn_wf (hsk_bn_or a b).
Proof. apply (zip_op_wf _ orb); [apply Z.lor_spec|done]. Qed.
Lemma hsk_bn_or_val a b : bn_wf a -> bn_wf b -> bn_val (hsk_bn_or a b) = Z.lor (bn_val a) (bn_val b).
Proof.
  intros [Hl Ha] [Hk Hb]. apply (zip_op_val _ orb); [apply Z.lor_spec|done|congruence|done|done].
Qed.

Lemma cmp_loop_app a1 b1 a2 b2 : length a1 = length b1 ->
  cmp_loop (a1 ++ a2) (b1 ++ b2) = if cmp_loop a1 b1 =? 0 then cmp_loop a2 b2 else cmp_loop a1 b1.
Proof.
  revert b1; induction a1 as [|x a IH]; intros [|y b] Hlen; try done.
  injection Hlen as Hlen. cbn [app cmp_loop].
  destruct (y <? x); [done|]. destruct (x <? y); [done|]. by apply IH.
Qed.
Lemma cmp_loop_spec a b : length a = length b -> words a -> words b ->
  cmp_loop (reverse a) (reverse b) =
  match bn_val a ?= bn_val b with Eq => 0 | Lt => -1 | Gt => 1 end.
Proof.
  intros Hlen Ha. revert b Hlen.
  induction Ha as [|x a Hx Ha IH]; intros [|y b] Hlen Hb; try done.
  injection Hlen as Hlen. apply words_cons in Hb as [Hy Hb].
  rewrite !reverse_cons, cmp_loop_app, IH by (try done; by rewrite !length_reverse).
  cbn [bn_val cmp_loop].
  destruct (Z.compare_spec (bn_val a) (bn_val b)) as [He|Hlt|Hgt]; cbn [Z.eqb];
    destruct (Z.compare_spec (x + 2 ^ 32 * bn_val a) (y + 2 ^ 32 * bn_val b)); try lia;
    destruct (Z.ltb_spec y x), (Z.ltb_spec x y); lia.
Qed.
Lemma hsk_bn_cmp_spec a b : bn_wf a -> bn_wf b ->
  hsk_bn_cmp a b = match bn_val a ?= bn_val b with Eq => 0 | Lt => -1 | Gt => 1 end.
Proof. intros [Hl Ha] [Hk Hb]. apply cmp_loop_spec; [congruence|done|done]. Qed.
Lemma cmp_eq_1 a b : bn_wf a -> bn_wf b -> (hsk_bn_cmp a b =? 1) = (bn_val b <? bn_val a).
Proof.
  intros Ha Hb. rewrite hsk_bn_cmp_spec by done.
  destruct (Z.compare_spec (bn_val a) (bn_val b)), (Z.ltb_spec (bn_val b) (bn_val a)); done || lia.
Qed.
Lemma cmp_neq_m1 a b : bn_wf a -> bn_wf b ->
  negb (hsk_bn_cmp a b =? -1) = (bn_val b <=? bn_val a).
Proof.
  intros Ha Hb. rewrite hsk_bn_cmp_spec by done.
  destruct (Z.compare_spec (bn_val a) (bn_val b)), (Z.leb_spec (bn_val b) (bn_val a)); done || lia.
Qed.

Lemma hsk_bn_is_zero_spec a : words a -> hsk_bn_is_zero a = (bn_val a =? 0).
Proof.
  induction 1 as [|x a Hx Ha IH]; [done|]. unfold hsk_bn_is_zero in *. cbn [forallb bn_val].
  rewrite IH. assert (R := bn_val_range a Ha).
  destruct (Z.eqb_spec x 0), (Z.eqb_spec (bn_val a) 0),
    (Z.eqb_spec (x + 2 ^ 32 * bn_val a) 0); done || lia.
Qed.

(** ** Conversions *)

Lemma hsk_bn_from_int_spec i : 0 <= i < 2 ^ 64 ->
  bn_wf (hsk_bn_from_int i) /\ bn_val (hsk_bn_from_int i) = i.
Proof.
  intros Hi. unfold hsk_bn_from_int, hsk_bn_init, HSK_BN_SIZE. cbn [replicate insert list_insert].
  split.
  - split; [done|]. apply words_cons. split; [apply u32_range|].
    apply words_cons. split; [apply u32_range|]. apply (words_zeros 14).
  - cbn [bn_val]. rewrite Z.shiftr_div_pow2 by lia. unfold u32.
    rewrite (Z.mod_small (i / 2 ^ 32)) by dlia. dlia.
Qed.
Lemma hsk_bn_to_int_spec a : bn_wf a -> hsk_bn_to_int a = bn_val a mod 2 ^ 64.
Proof.
  intros [Hl Ha]. destruct a as [|x [|y a]]; [done..|].
  apply words_cons in Ha as [Hx [Hy Ha]%words_cons].
  unfold hsk_bn_to_int. cbn [nth bn_val]. rewrite Z.lor_0_l, u64_small, lor_add_shiftl.
  2-4: rewrite ?Z.shiftl_mul_pow2; lia.
  replace (x + 2 ^ 32 * (y + 2 ^ 32 * bn_val a)) with (x + y * 2 ^ 32 + bn_val a * 2 ^ 64) by lia.
  rewrite Z.mod_add, Z.mod_small by lia. lia.
Qed.

Lemma from_array_loop_spec k array n :
  length array = (4 * k)%nat -> bytes array -> (k <= length n)%nat ->
  exists ws, from_array_loop k array n = ws ++ drop k n /\ length ws = k /\ words ws /\
    bn_val ws = be_combine array.
Proof.
  revert array n; induction k as [|j IH]; intros array n Hlen Hb Hk.
  { exists []. destruct array; [|done]. repeat split. constructor. }
  do 4 (destruct array as [|? array]; [simpl in *; lia|]).
  do 4 (apply bytes_cons_inv in Hb as [? Hb]).
  cbn [from_array_loop nth drop]. rewrite u32_small by (rewrite Z.shiftl_mul_pow2; lia).
  bytes_to_sum. set (w := _ + z2).
  assert (Hw : 0 <= w < 2 ^ 32) by (unfold w; lia).
  destruct (IH array (<[j:=w]> n)) as (ws & E & Hl & Hws & Hv);
    [simpl in Hlen; lia|done|rewrite length_insert; lia|].
  exists (ws ++ [w]). split_and!.
  - rewrite drop_0, E, <-(assoc_L (++)). f_equal.
    rewrite (drop_S _ w) by (apply list_lookup_insert_eq; lia).
    by rewrite drop_insert_lt by lia.
  - rewrite length_app. cbn. lia.
  - apply Forall_app. split; [done|]. apply words_cons. split; [done|constructor].
  - rewrite bn_val_app, Hv. cbn [bn_val]. rewrite !be_combine_cons. unfold bn_mod. cbn [length].
    rewrite Hl. replace (length array) with (4 * j)%nat by (simpl in Hlen; lia).
    replace ((2 ^ 32) ^ Z.of_nat j) with (256 ^ Z.of_nat (4 * j))
      by (rewrite Nat2Z.inj_mul, Z.pow_mul_r by lia; done).
    rewrite !Nat2Z.inj_succ, !Z.pow_succ_r by lia. unfold w. lia.
Qed.
Lemma hsk_bn_from_array_spec array k :
  length array = (4 * k)%nat -> (k <= HSK_BN_SIZE)%nat -> bytes array ->
  bn_wf (hsk_bn_from_array array) /\ bn_val (hsk_bn_from_array array) = be_combine array.
Proof.
  intros Hlen Hk Hb. unfold hsk_bn_from_array.
  assert (Hd : (length array / 4 = k)%nat) by (rewrite Hlen, Nat.mul_comm; by apply Nat.div_mul).
  rewrite Hd.
  destruct (from_array_loop_spec k array hsk_bn_init) as (ws & -> & Hl & Hw & Hv);
    [done|done|unfold hsk_bn_init; rewrite length_replicate; lia|].
  unfold hsk_bn_init. rewrite drop_replicate. split.
  - split; [rewrite length_app, length_replicate; lia|].
    apply Forall_app. split; [done|apply words_zeros].
  - rewrite bn_val_app, bn_val_zeros. lia.
Qed.

Lemma to_array_loop_spec k n :
  words n -> (k <= length n)%nat ->
  bytes (to_array_loop k n) /\ length (to_array_loop k n) = (4 * k)%nat /\
  be_combine (to_array_loop k n) = bn_val (take k n).
Proof.
  intros Hn. induction k as [|j IH]; intros Hk; [by repeat split; try constructor|].
  destruct IH as (Hb & Hl & Hv); [lia|].
  destruct (lookup_lt_is_Some_2 n j) as [w Hw]; [lia|].
  rewrite (take_S_r _ _ _ Hw), bn_val_app, <-Hv. cbn [to_array_loop bn_val].
  rewrite (nth_lookup_Some _ _ _ _ Hw).
  assert (Hr : 0 <= w < 2 ^ 32) by (eapply Forall_lookup_1 in Hn; [exact Hn|done]).
  split_and!.
  - apply bytes_app. split; [|done]. repeat (apply bytes_cons; [apply u8_range|]). apply bytes_nil.
  - rewrite length_app, Hl. cbn. lia.
  - rewrite be_combine_app, Hl. unfold bn_mod. rewrite length_take, Nat.min_l by lia.
    replace ((2 ^ 32) ^ Z.of_nat j) with (256 ^ Z.of_nat (4 * j))
      by (rewrite Nat2Z.inj_mul, Z.pow_mul_r by lia; done).
    cut (be_combine [u8 (Z.shiftr w 24); u8 (Z.shiftr w 16); u8 (Z.shiftr w 8); u8 w] = w); [intros ->; lia|].
    rewrite !be_combine_cons. cbn [length]. rewrite !Z.shiftr_div_pow2 by lia.
    unfold u8. change (be_combine []) with 0. dlia.
Qed.
Lemma hsk_bn_to_array_spec n k :
  bn_wf n -> (k <= HSK_BN_SIZE)%nat -> hsk_bn_to_array n (4 * k) = be_split (4 * k) (bn_val n).
Proof.
  intros [Hl Hn] Hk. unfold hsk_bn_to_array. rewrite Nat.mul_comm, Nat.div_mul by done.
  destruct (to_array_loop_spec k n) as (Hb & Hlen & Hv); [done|lia|].
  apply be_combine_inj; [rewrite length_be_split; lia|done|apply bytes_be_split|].
  rewrite Hv, be_combine_split, bn_val_take by (done || lia).
  rewrite Nat2Z.inj_mul, Z.mul_comm, Z.pow_mul_r by lia. done.
Qed.

(** ** Division *)

Lemma top_bit a : bn_wf a ->
  (1 + HSK_BN_MAX / 2 <=? nth (HSK_BN_SIZE - 1) a 0) = (2 ^ 511 <=? bn_val a).
Proof.
  intros [Hl Ha]. unfold HSK_BN_SIZE, HSK_BN_MAX in *.
  destruct (lookup_lt_is_Some_2 a 15) as [w Hw]; [lia|].
  rewrite (nth_lookup_Some _ _ _ _ Hw : nth (16 - 1) a 0 = w).
  assert (Hr : bytes [] ) by constructor.
  assert (E : a = take 15 a ++ [w]) by (rewrite <-(take_S_r _ _ _ Hw), take_ge by lia; done).
  rewrite E at 1. rewrite bn_val_app. cbn [bn_val]. unfold bn_mod.
  rewrite length_take, Hl. change ((2 ^ 32) ^ Z.of_nat (15 `min` 16)) with (2 ^ 480).
  assert (R := bn_val_range (take 15 a) (Forall_take _ _ _ Ha)).
  unfold bn_mod in R. rewrite length_take, Hl in R.
  change ((2 ^ 32) ^ Z.of_nat (15 `min` 16)) with (2 ^ 480) in R.
  change (1 + 4294967295 / 2) with (2 ^ 31).
  destruct (Z.leb_spec (2 ^ 31) w), (Z.leb_spec (2 ^ 511) (bn_val (take 15 a) + 2 ^ 480 * (w + 2 ^ 32 * 0)));
    done || lia.
Qed.

Section division.
Variables (a b : hsk_bn_t).
Hypothesis (Ha : bn_wf a) (Hb : bn_wf b) (Hpos : 0 < bn_val b).

(** [current] and [denom] are [2 ^ k] and [b * 2 ^ k]. *)
Definition scaled (k : nat) (current denom : hsk_bn_t) : Prop :=
  bn_wf current /\ bn_wf denom /\
  bn_val current = 2 ^ Z.of_nat k /\ bn_val denom = bn_val b * 2 ^ Z.of_nat k.

Lemma scaled_bound k current denom : scaled k current denom -> (k < 512)%nat.
Proof.
  intros (_ & Hd & _ & Hv). apply bn_val_range_wf in Hd. rewrite Hv in Hd.
  apply Nat2Z.inj_lt, (Z.pow_lt_mono_r_iff 2); [lia..|]. change (Z.of_nat 512) with 512.
  assert (0 < 2 ^ Z.of_nat k) by (apply Z.pow_pos_nonneg; lia). nia.
Qed.

Lemma div_scale_spec fuel k current denom :
  scaled k current denom -> (513 - k <= fuel)%nat ->
  exists k' current' denom' ov,
    div_scale fuel a current denom = Ret (current', denom', ov) /\
    scaled k' current' denom' /\
    if ov : bool then bn_val a < 2 * bn_val denom' else bn_val a < bn_val denom'.
Proof.
  revert k current denom; induction fuel as [|fuel IH]; intros k current denom Hs Hf.
  { apply scaled_bound in Hs. lia. }
  assert (Hs' := Hs). destruct Hs' as (Hc & Hd & Hcv & Hdv). assert (Hk := scaled_bound _ _ _ Hs).
  cbn [div_scale]. rewrite cmp_eq_1, top_bit by done.
  destruct (Z.ltb_spec (bn_val a) (bn_val denom)); [by exists k, current, denom, false|].
  destruct (Z.leb_spec (2 ^ 511) (bn_val denom)) as [Ho|Ho].
  { exists k, current, denom, true. split; [done|]. split; [done|].
    apply bn_val_range_wf in Ha. lia. }
  apply (IH (S k)); [|lia]. assert (R := bn_val_range_wf _ Hd).
  assert (0 < 2 ^ Z.of_nat k) by (apply Z.pow_pos_nonneg; lia).
  split_and!; try by apply _lshift_one_bit_wf.
  - rewrite _lshift_one_bit_val, Hcv, Nat2Z.inj_succ, Z.pow_succ_r by (done || lia).
    apply Z.mod_small. nia.
  - rewrite _lshift_one_bit_val, Z.mod_small, Hdv, Nat2Z.inj_succ, Z.pow_succ_r by (done || lia).
    lia.
Qed.

Lemma scaled_rshift k current denom :
  scaled (S k) current denom -> scaled k (_rshift_one_bit current) (_rshift_one_bit denom).
Proof.
  intros (Hc & Hd & Hcv & Hdv). split_and!; try by apply _rshift_one_bit_wf.
  - rewrite _rshift_one_bit_val, Hcv, Nat2Z.inj_succ, Z.pow_succ_r by (done || lia). dlia.
  - rewrite _rshift_one_bit_val, Hdv, Nat2Z.inj_succ, Z.pow_succ_r by (done || lia).
    rewrite (Z.mul_comm 2), Z.mul_assoc. by rewrite Z.div_mul.
Qed.

(** The quotient so far is a multiple of [2 ^ (k + 1)]. *)
Lemma lor_pow2 q k : Z.lor (q * 2 ^ (k + 1)) (2 ^ k) = (2 * q + 1) * 2 ^ k \/ k < 0.
Proof.
  destruct (Z.lt_ge_cases k 0); [by right|left].
  assert (0 < 2 ^ k) by (apply Z.pow_pos_nonneg; lia).
  rewrite <-Z.shiftl_mul_pow2, lor_shiftl_add by (rewrite ?Z.pow_add_r; lia).
  rewrite Z.pow_add_r by lia. lia.
Qed.

Lemma div_subtract_zero fuel current denom tmp c :
  (0 < fuel)%nat -> bn_wf current -> bn_val current = 0 ->
  div_subtract fuel current denom tmp c = Ret c.
Proof.
  intros Hf [_ Hw] H0. destruct fuel; [lia|]. cbn [div_subtract].
  by rewrite hsk_bn_is_zero_spec, H0 by done.
Qed.

Definition div_step (current denom tmp c : hsk_bn_t) : hsk_bn_t * hsk_bn_t :=
  if negb (hsk_bn_cmp tmp denom =? -1)
  then (hsk_bn_sub tmp denom, hsk_bn_or c current) else (tmp, c).

Lemma div_step_spec k current denom tmp c q tmp' c' :
  scaled k current denom -> bn_wf tmp -> bn_wf c ->
  bn_val tmp < 2 * bn_val denom -> bn_val c = q * 2 ^ (Z.of_nat k + 1) ->
  bn_val c * bn_val b + bn_val tmp = bn_val a ->
  div_step current denom tmp c = (tmp', c') ->
  bn_wf tmp' /\ bn_wf c' /\ bn_val tmp' < bn_val denom /\
  (exists q', bn_val c' = q' * 2 ^ Z.of_nat k) /\
  bn_val c' * bn_val b + bn_val tmp' = bn_val a.
Proof.
  intros (Hcu & Hd & Hcv & Hdv) Ht Hc Htd Hcq Hsum. unfold div_step.
  rewrite cmp_neq_m1 by done. assert (R := bn_val_range_wf _ Ht).
  destruct (Z.leb_spec (bn_val denom) (bn_val tmp)) as [Hle|Hgt]; intros [= <- <-].
  - assert (Hor : bn_val (hsk_bn_or c current) = (2 * q + 1) * 2 ^ Z.of_nat k).
    { rewrite hsk_bn_or_val, Hcv, Hcq by done. destruct (lor_pow2 q (Z.of_nat k)); [done|lia]. }
    assert (Hc2 : (2 * q + 1) * 2 ^ Z.of_nat k = bn_val c + 2 ^ Z.of_nat k).
    { rewrite Hcq, Z.pow_add_r by lia. lia. }
    rewrite hsk_bn_sub_val, Z.mod_small, Hor by (try done; assert (Q := bn_val_range_wf _ Hd); lia).
    split_and!; [by apply hsk_bn_sub_wf|by apply hsk_bn_or_wf|lia|by eexists|].
    rewrite Hc2, Hdv. lia.
  - split_and!; [done..| |done]. exists (2 * q). rewrite Hcq, Z.pow_add_r by lia. lia.
Qed.

Lemma div_subtract_spec k : forall fuel current denom tmp c q,
  (k + 1 < fuel)%nat -> scaled k current denom -> bn_wf tmp -> bn_wf c ->
  bn_val tmp < 2 * bn_val denom -> bn_val c = q * 2 ^ (Z.of_nat k + 1) ->
  bn_val c * bn_val b + bn_val tmp = bn_val a ->
  exists r, div_subtract fuel current denom tmp c = Ret r /\ bn_wf r /\
    bn_val r * bn_val b <= bn_val a < (bn_val r + 1) * bn_val b.
Proof.
  induction k as [|k IH]; intros fuel current denom tmp c q Hf Hs Ht Hc Htd Hcq Hsum;
    (destruct fuel as [|fuel]; [lia|]); cbn [div_subtract]; fold (div_step current denom tmp c);
    destruct (div_step current denom tmp c) as [tmp' c'] eqn:E;
    apply (div_step_spec _ _ _ _ _ q _ _ Hs) in E as (Ht' & Hc' & Hlt & [q' Hq'] & Hsum');
    try done;
    assert (Hs' := Hs); destruct Hs' as (Hcu & Hd & Hcv & Hdv);
    rewrite hsk_bn_is_zero_spec, (proj2 (Z.eqb_neq _ _))
      by (try apply Hcu; rewrite Hcv; apply Z.pow_nonzero; lia).
  - rewrite div_subtract_zero; [|lia|by apply _rshift_one_bit_wf|].
    2: { by rewrite _rshift_one_bit_val, Hcv. }
    exists c'. split; [done|]. split; [done|]. change (2 ^ Z.of_nat 0) with 1 in *.
    assert (Q := bn_val_range_wf _ Ht'). lia.
  - assert (Hs' := scaled_rshift _ _ _ Hs).
    apply (IH _ _ _ _ _ q'); try done; [lia| |by rewrite Hq', Nat2Z.inj_succ].
    destruct Hs' as (_ & _ & _ & ->). rewrite Hdv, Nat2Z.inj_succ, Z.pow_succ_r in Hlt by lia. lia.
Qed.

Lemma div_with_fuel_spec fuel : (513 <= fuel)%nat ->
  exists q, div_with_fuel fuel a b = Ret q /\ bn_wf q /\ bn_val q = bn_val a / bn_val b.
Proof.
  intros Hf. unfold div_with_fuel.
  destruct (hsk_bn_from_int_spec 1) as [H1 H1v]; [lia|].
  destruct (div_scale_spec fuel 0 (hsk_bn_from_int 1) b) as (k & cur & den & ov & -> & Hs & Hlt).
  { split_and!; [done..|]. cbn. lia. }
  { lia. }
  cbn [obind].
  assert (Hfin : forall r, bn_val r * bn_val b <= bn_val a < (bn_val r + 1) * bn_val b ->
    bn_val r = bn_val a / bn_val b).
  { intros r Hr. apply Z.div_unique with (bn_val a - bn_val r * bn_val b); lia. }
  assert (Hgo : forall k cur den, scaled k cur den -> bn_val a < 2 * bn_val den ->
    exists q, div_subtract fuel cur den a hsk_bn_init = Ret q /\ bn_wf q /\
      bn_val q = bn_val a / bn_val b).
  { clear k cur den Hs Hlt. intros k cur den Hs Hlt. assert (Hk := scaled_bound _ _ _ Hs).
    destruct (div_subtract_spec k fuel cur den a hsk_bn_init 0) as (r & -> & Hr & Hq);
      first [lia|done|apply hsk_bn_init_wf|rewrite hsk_bn_init_val; lia|idtac].
    exists r. split; [done|]. split; [done|]. by apply Hfin. }
  destruct ov; cbn [negb]; [by apply (Hgo k)|].
  destruct k as [|k].
  - destruct Hs as (Hc & Hd & Hcv & Hdv). change (2 ^ Z.of_nat 0) with 1 in *.
    rewrite div_subtract_zero; [|lia|by apply _rshift_one_bit_wf|].
    2: { by rewrite _rshift_one_bit_val, Hcv. }
    exists hsk_bn_init. split; [done|]. split; [apply hsk_bn_init_wf|].
    apply Hfin. rewrite hsk_bn_init_val. assert (Q := bn_val_range_wf _ Ha). lia.
  - apply (Hgo k); [by apply scaled_rshift|].
    destruct (scaled_rshift _ _ _ Hs) as (_ & _ & _ & ->). destruct Hs as (_ & _ & _ & Hdv).
    rewrite Hdv, Nat2Z.inj_succ, Z.pow_succ_r in Hlt by lia. lia.
Qed.
End division.

Lemma hsk_bn_div_spec a b : bn_wf a -> bn_wf b -> 0 < bn_val b ->
  exists q, hsk_bn_div a b = Ret q /\ bn_wf q /\ bn_val q = bn_val a / bn_val b.
Proof. intros. apply div_with_fuel_spec; [done..|lia]. Qed.

(** A zero divisor is never larger than the dividend, and never reaches the top
    bit: the first loop does not end. *)
Lemma div_scale_zero fuel a current denom :
  bn_wf a -> bn_wf denom -> bn_val denom = 0 -> div_scale fuel a current denom = Fault Hang.
Proof.
  intros Ha. revert current denom; induction fuel as [|fuel IH]; intros current denom Hd H0; [done|].
  cbn [div_scale]. rewrite cmp_eq_1, top_bit, H0 by done.
  assert (R := bn_val_range_wf _ Ha). destruct (Z.ltb_spec (bn_val a) 0); [lia|].
  apply IH; [by apply _lshift_one_bit_wf|]. by rewrite _lshift_one_bit_val, H0.
Qed.

(** ** Multiplication *)

Lemma pow_word k : (2 ^ 32) ^ Z.of_nat k = 2 ^ (32 * Z.of_nat k).
Proof. by rewrite Z.pow_mul_r by lia. Qed.
Lemma bn_val_take_S a k : (k < length a)%nat ->
  bn_val (take (S k) a) = bn_val (take k a) + 2 ^ (32 * Z.of_nat k) * nth k a 0.
Proof.
  intros Hk. destruct (lookup_lt_is_Some_2 a k Hk) as [w Hw].
  rewrite (take_S_r _ _ _ Hw), bn_val_app, (nth_lookup_Some _ _ _ _ Hw). unfold bn_mod.
  rewrite length_take, Nat.min_l, pow_word by lia. cbn [bn_val]. lia.
Qed.
Lemma words_nth a k : words a -> 0 <= nth k a 0 < 2 ^ 32.
Proof.
  intros Ha. rewrite nth_lookup. destruct (a !! k) as [w|] eqn:E; cbn [default]; [|lia].
  eapply Forall_lookup_1 in Ha; [exact Ha|done].
Qed.
(** A multiple of the modulus can be dropped. *)
Lemma add_pow_ge x c e : 512 <= e -> (x + 2 ^ e * c) mod 2 ^ 512 = x mod 2 ^ 512.
Proof.
  intros He. replace e with (512 + (e - 512)) by lia. rewrite Z.pow_add_r by lia.
  replace (x + 2 ^ 512 * 2 ^ (e - 512) * c) with (x + (2 ^ (e - 512) * c) * 2 ^ 512) by lia.
  by apply Z.mod_add.
Qed.

Lemma mul_row_spec a b i : bn_wf a -> bn_wf b -> (i < HSK_BN_SIZE)%nat ->
  bn_wf (mul_row a b i) /\
  bn_val (mul_row a b i) = (nth i a 0 * 2 ^ (32 * Z.of_nat i) * bn_val b) mod 2 ^ 512.
Proof.
  intros [Hla Ha] [Hlb Hb] Hi. unfold mul_row.
  cut (forall n, (n <= HSK_BN_SIZE)%nat ->
    let row := fold_left (fun row j =>
      if (i + j <? HSK_BN_SIZE)%nat then
        hsk_bn_add (_lshift_word (hsk_bn_from_int (u64 (nth i a 0 * nth j b 0))) (i + j)) row
      else row) (seq 0 n) hsk_bn_init in
    bn_wf row /\
    bn_val row = (nth i a 0 * 2 ^ (32 * Z.of_nat i) * bn_val (take n b)) mod 2 ^ 512).
  { intros H. destruct (H HSK_BN_SIZE) as [H1 H2]; [done|]. cbv zeta in H1, H2.
    split; [exact H1|]. rewrite take_ge in H2 by lia. exact H2. }
  induction n as [|n IH]; intros Hn.
  { cbn [seq fold_left]. split; [apply hsk_bn_init_wf|].
    rewrite hsk_bn_init_val, take_0. cbn [bn_val]. by rewrite Z.mul_0_r. }
  destruct IH as [Hw Hv]; [lia|]. cbv zeta. rewrite seq_S, fold_left_app. cbn [fold_left plus].
  set (row := fold_left _ (seq 0 n) hsk_bn_init) in *.
  assert (Hai := words_nth a i Ha). assert (Hbn := words_nth b n Hb).
  rewrite bn_val_take_S by lia.
  destruct (Nat.ltb_spec (i + n) HSK_BN_SIZE) as [Hlt|Hge].
  - rewrite u64_small by nia.
    destruct (hsk_bn_from_int_spec (nth i a 0 * nth n b 0)) as [Hf Hfv]; [nia|].
    assert (Hs := _lshift_word_wf _ (i + n) ltac:(lia) Hf).
    split; [by apply hsk_bn_add_wf|].
    rewrite hsk_bn_add_val, _lshift_word_val, Hfv, Hv by (done || lia).
    rewrite <-Z.add_mod by lia. f_equal.
    rewrite Nat2Z.inj_add, Z.mul_add_distr_l, Z.pow_add_r by lia. lia.
  - split; [done|]. rewrite Hv. symmetry.
    rewrite <-(add_pow_ge _ (nth i a 0 * nth n b 0) (32 * Z.of_nat i + 32 * Z.of_nat n))
      by (unfold HSK_BN_SIZE in *; lia).
    rewrite <-(add_pow_ge (nth i a 0 * 2 ^ (32 * Z.of_nat i) * bn_val (take n b))
      (2 * (nth i a 0 * nth n b 0)) (32 * Z.of_nat i + 32 * Z.of_nat n))
      by (unfold HSK_BN_SIZE in *; lia).
    f_equal. rewrite !Z.pow_add_r by lia. lia.
Qed.

Lemma hsk_bn_mul_spec a b : bn_wf a -> bn_wf b ->
  bn_wf (hsk_bn_mul a b) /\ bn_val (hsk_bn_mul a b) = (bn_val a * bn_val b) mod 2 ^ 512.
Proof.
  intros Ha Hb. unfold hsk_bn_mul.
  cut (forall n, (n <= HSK_BN_SIZE)%nat ->
    bn_wf (fold_left (fun cc i => hsk_bn_add cc (mul_row a b i)) (seq 0 n) hsk_bn_init) /\
    bn_val (fold_left (fun cc i => hsk_bn_add cc (mul_row a b i)) (seq 0 n) hsk_bn_init) =
      (bn_val (take n a) * bn_val b) mod 2 ^ 512).
  { intros H. specialize (H HSK_BN_SIZE). destruct Ha as [Hl _].
    rewrite (take_ge a) in H by lia. by apply H. }
  induction n as [|n IH]; intros Hn.
  { cbn [seq fold_left]. split; [apply hsk_bn_init_wf|]. by rewrite hsk_bn_init_val, take_0. }
  destruct IH as [Hw Hv]; [lia|]. rewrite seq_S, fold_left_app. cbn [fold_left plus].
  destruct (mul_row_spec a b n) as [Hr Hrv]; [done|done|lia|].
  split; [by apply hsk_bn_add_wf|].
  rewrite hsk_bn_add_val, Hv, Hrv, <-Z.add_mod by (done || lia).
  destruct Ha as [Hl Ha]. rewrite bn_val_take_S by lia. f_equal. lia.
Qed.

Lemma pow_loop_spec fuel a b tmp : bn_wf a -> bn_wf b -> bn_wf tmp ->
  (Z.to_nat (bn_val b) < fuel)%nat ->
  exists r, pow_loop fuel a b tmp = Ret r /\ bn_wf r /\
    bn_val r = (bn_val tmp * bn_val a ^ bn_val b) mod 2 ^ 512.
Proof.
  intros Ha. revert b tmp; induction fuel as [|fuel IH]; intros b tmp Hb Ht Hf; [lia|].
  cbn [pow_loop]. rewrite hsk_bn_is_zero_spec by apply Hb.
  assert (R := bn_val_range_wf _ Hb). assert (Rt := bn_val_range_wf _ Ht).
  destruct (Z.eqb_spec (bn_val b) 0) as [H0|H0].
  { exists tmp. split; [done|]. split; [done|]. rewrite H0, Z.pow_0_r, Z.mul_1_r.
    symmetry. by apply Z.mod_small. }
  destruct (hsk_bn_dec_spec b) as (Hdl & Hdw & Hdv); [apply Hb|].
  rewrite (bn_mod_wf _ Hb), Z.mod_small in Hdv by lia.
  destruct (hsk_bn_mul_spec tmp a) as [Hm Hmv]; [done|done|].
  destruct (IH (hsk_bn_dec b) (hsk_bn_mul tmp a)) as (r & E & Hr & Hv); [|done|lia|].
  { destruct Hb. split; [lia|done]. }
  exists r. split; [done|]. split; [done|]. rewrite Hv, Hmv, Hdv, Z.mul_mod_idemp_l by lia.
  f_equal. replace (bn_val b) with (Z.succ (bn_val b - 1)) at 2 by lia.
  rewrite Z.pow_succ_r by lia. lia.
Qed.

Lemma hsk_bn_lshift_spec a n : bn_wf a -> 0 <= n < 544 ->
  bn_wf (hsk_bn_lshift a n) /\ bn_val (hsk_bn_lshift a n) = (bn_val a * 2 ^ n) mod 2 ^ 512.
Proof.
  intros Ha Hn. unfold hsk_bn_lshift. set (q := n / 32). set (r := n - q * 32).
  assert (Hq : 0 <= q <= 16) by (unfold q; dlia). assert (Hr : 0 <= r < 32) by (unfold r, q; dlia).
  set (a' := if q =? 0 then a else _lshift_word a (Z.to_nat q)).
  assert (H' : bn_wf a' /\ bn_val a' = (bn_val a * 2 ^ (32 * q)) mod 2 ^ 512).
  { unfold a'. assert (R := bn_val_range_wf _ Ha). destruct (Z.eqb_spec q 0) as [->|H0].
    - split; [done|]. rewrite Z.mod_small; rewrite Z.pow_0_r; lia.
    - rewrite _lshift_word_val, Z2Nat.id by (done || unfold HSK_BN_SIZE; lia).
      split; [apply _lshift_word_wf; [unfold HSK_BN_SIZE; lia|done]|done]. }
  destruct H' as [Hw Hv]. replace (2 ^ n) with (2 ^ (32 * q) * 2 ^ r)
    by (rewrite <-Z.pow_add_r by lia; f_equal; unfold r; lia).
  destruct (Z.eqb_spec r 0) as [->|H0].
  { rewrite Z.pow_0_r, Z.mul_1_r. by split. }
  destruct (lshift_loop_spec r a' 0) as (H1 & H2 & H3); [lia|apply Hw|lia|].
  split; [split; [destruct Hw; lia|done]|].
  rewrite H3, (bn_mod_wf _ Hw), Z.div_0_l, Z.add_0_r, Hv, Z.mul_mod_idemp_l
    by (try apply Z.pow_nonzero; lia).
  f_equal. lia.
Qed.

(** * Properties *)

(** Division. With a positive divisor [hsk_bn_div] returns the floor of the
    quotient, for all 512-bit operands; with a zero divisor its first loop never
    ends, whatever the fuel. *)
Theorem hsk_bn_div_correct a b : bn_wf a -> bn_wf b ->
  (0 < bn_val b ->
    exists q, hsk_bn_div a b = Ret q /\ bn_wf q /\ bn_val q = bn_val a / bn_val b) /\
  (bn_val b = 0 -> forall fuel, div_with_fuel fuel a b = Fault Hang).
Proof.
  intros Ha Hb. split; [by apply hsk_bn_div_spec|]. intros H0 fuel.
  unfold div_with_fuel. by rewrite div_scale_zero.
Qed.
Lemma hsk_bn_div_correct_witness :
  let a := hsk_bn_from_int 1000003 in let b := hsk_bn_from_int 1009 in
  (exists q, hsk_bn_div a b = Ret q /\ bn_wf q /\ bn_val q = 991) /\
  (forall fuel, div_with_fuel fuel a hsk_bn_init = Fault Hang).
Proof.
  split.
  - apply (hsk_bn_div_correct (hsk_bn_from_int 1000003) (hsk_bn_from_int 1009));
      [apply hsk_bn_from_int_spec; lia|apply hsk_bn_from_int_spec; lia|reflexivity].
  - apply (hsk_bn_div_correct (hsk_bn_from_int 1000003) hsk_bn_init);
      [apply hsk_bn_from_int_spec; lia|apply hsk_bn_init_wf|reflexivity].
Defined.

(** Ring operations. Addition, subtraction, multiplication and decrement of
    512-bit integers are exact modulo [2 ^ 512]; the power terminates and is
    exact too; the remainder of a nonzero divisor is the mathematical one. *)
Theorem bn_ring_correct a b : bn_wf a -> bn_wf b ->
  bn_val (hsk_bn_add a b) = (bn_val a + bn_val b) mod 2 ^ 512 /\
  bn_val (hsk_bn_sub a b) = (bn_val a - bn_val b) mod 2 ^ 512 /\
  bn_val (hsk_bn_mul a b) = (bn_val a * bn_val b) mod 2 ^ 512 /\
  (forall fuel, (Z.to_nat (bn_val b) < fuel)%nat ->
    exists r, hsk_bn_pow fuel a b = Ret r /\ bn_val r = (bn_val a ^ bn_val b) mod 2 ^ 512) /\
  (0 < bn_val b -> exists r, hsk_bn_mod a b = Ret r /\ bn_val r = bn_val a mod bn_val b).
Proof.
  intros Ha Hb. assert (Ra := bn_val_range_wf _ Ha). assert (Rb := bn_val_range_wf _ Hb).
  split; [by apply hsk_bn_add_val|]. split; [by apply hsk_bn_sub_val|].
  split; [by apply hsk_bn_mul_spec|]. split.
  - intros fuel Hf. unfold hsk_bn_pow. rewrite hsk_bn_cmp_spec, hsk_bn_init_val by
      (done || apply hsk_bn_init_wf).
    destruct (Z.compare_spec (bn_val b) 0) as [H0|H0|H0]; cbn [Z.eqb]; [|lia|].
    { exists (hsk_bn_inc hsk_bn_init). split; [done|]. by rewrite H0. }
    destruct (hsk_bn_dec_spec b) as (Hdl & Hdw & Hdv); [apply Hb|].
    rewrite (bn_mod_wf _ Hb), Z.mod_small in Hdv by lia.
    destruct (pow_loop_spec fuel a (hsk_bn_dec b) a) as (r & -> & _ & Hr);
      [done|destruct Hb; split; [lia|done]|done|lia|].
    exists r. split; [done|]. rewrite Hr, Hdv, <-Z.pow_succ_r by lia. do 2 f_equal. lia.
  - intros Hpos. destruct (hsk_bn_div_spec a b) as (q & Hq & Hqw & Hqv); [done..|].
    unfold hsk_bn_mod. rewrite Hq. eexists. split; [reflexivity|].
    destruct (hsk_bn_mul_spec q b) as [Hm Hmv]; [done|done|].
    rewrite hsk_bn_sub_val, Hmv, Hqv by done.
    assert (D := Z.div_mod (bn_val a) (bn_val b) ltac:(lia)).
    assert (R := Z.mod_pos_bound (bn_val a) (bn_val b) Hpos).
    assert (0 <= bn_val a / bn_val b) by (apply Z.div_pos; lia).
    rewrite (Z.mod_small (bn_val a / bn_val b * bn_val b)) by nia.
    rewrite Z.mod_small by nia. lia.
Qed.
Lemma bn_ring_correct_witness :
  let a := hsk_bn_from_int 7 in let b := hsk_bn_from_int 5 in
  exists r, hsk_bn_pow 6 a b = Ret r /\ bn_val r = 16807.
Proof.
  apply (bn_ring_correct (hsk_bn_from_int 7) (hsk_bn_from_int 5));
    [apply hsk_bn_from_int_spec; lia|apply hsk_bn_from_int_spec; lia|].
  rewrite (proj2 (hsk_bn_from_int_spec 5 ltac:(lia))). lia.
Defined.

(** Shifts. A left shift of any amount is multiplication by a power of two
    modulo [2 ^ 512]. A right shift of less than one word is the floor division;
    from one word on it is wrong: [_rshift_word] moves words only into the
    lowest [nwords] places and clears all others, so [2 ^ 64 >> 32] is 0. *)
Theorem bn_shift_correct a n : bn_wf a -> 0 <= n ->
  (n < 512 -> bn_val (hsk_bn_lshift a n) = (bn_val a * 2 ^ n) mod 2 ^ 512) /\
  (n < 32 -> bn_val (hsk_bn_rshift a n) = bn_val a / 2 ^ n) /\
  bn_val (hsk_bn_rshift (hsk_bn_lshift (hsk_bn_from_int 1) 64) 32) = 0.
Proof.
  intros Ha Hn. split_and!; [intros; by apply hsk_bn_lshift_spec; [|lia]| |by vm_compute].
  intros Hlt. unfold hsk_bn_rshift. rewrite (Z.div_small n 32) by lia.
  replace (n - 0 * 32) with n by lia. cbn [Z.eqb].
  destruct (Z.eqb_spec n 0) as [->|H0]; [by rewrite Z.pow_0_r, Z.div_1_r|].
  apply rshift_loop_spec; [lia|apply Ha].
Qed.
Lemma bn_shift_correct_witness :
  bn_val (hsk_bn_lshift (hsk_bn_from_int 1) 256) = 2 ^ 256 /\
  bn_val (hsk_bn_rshift (hsk_bn_from_int 13) 2) = 3.
Proof.
  split.
  - apply (bn_shift_correct (hsk_bn_from_int 1) 256);
      [apply hsk_bn_from_int_spec; lia|lia|reflexivity].
  - apply (bn_shift_correct (hsk_bn_from_int 13) 2);
      [apply hsk_bn_from_int_spec; lia|lia|reflexivity].
Defined.
