(* ===== verification/Header.v ===== *)
(** Block headers: [src/reference/hnsd-reference/src/header.c] and [header.h].

    The wire format, the compact targets, the proof of work and its sum, the
    header hash with its cache, and the check of the proof of work. The field
    [next], which links the temporary lists of a chain reorganization, is not part
    of the value. *)

From S2P Require Import Prelude Bio Blake2b Sha3 Hash Bn.

Definition HSK_HEADER_SIZE : Z := 236.

Record hsk_header_t := mk_header {
  hd_nonce : Z;
  hd_time : Z;
  hd_prev_block : list Z;
  hd_name_root : list Z;
  hd_extra_nonce : list Z;
  hd_reserved_root : list Z;
  hd_witness_root : list Z;
  hd_merkle_root : list Z;
  hd_version : Z;
  hd_bits : Z;
  hd_mask : list Z;
  hd_cache : bool;
  hd_hash : list Z;
  hd_height : Z;
  hd_work : list Z;
}.

Definition zero32 : list Z := replicate 32 0.

Definition hsk_header_init : hsk_header_t :=
  mk_header 0 0 zero32 zero32 (replicate 24 0) zero32 zero32 zero32 0 0 zero32
    false zero32 0 zero32.

(** The assignments to the fields outside the wire format. *)
Definition set_hash (hdr : hsk_header_t) (hash : list Z) : hsk_header_t :=
  mk_header (hd_nonce hdr) (hd_time hdr) (hd_prev_block hdr) (hd_name_root hdr)
    (hd_extra_nonce hdr) (hd_reserved_root hdr) (hd_witness_root hdr) (hd_merkle_root hdr)
    (hd_version hdr) (hd_bits hdr) (hd_mask hdr) true hash (hd_height hdr) (hd_work hdr).
Definition set_height (hdr : hsk_header_t) (height : Z) : hsk_header_t :=
  mk_header (hd_nonce hdr) (hd_time hdr) (hd_prev_block hdr) (hd_name_root hdr)
    (hd_extra_nonce hdr) (hd_reserved_root hdr) (hd_witness_root hdr) (hd_merkle_root hdr)
    (hd_version hdr) (hd_bits hdr) (hd_mask hdr) (hd_cache hdr) (hd_hash hdr) height (hd_work hdr).
Definition set_work (hdr : hsk_header_t) (work : list Z) : hsk_header_t :=
  mk_header (hd_nonce hdr) (hd_time hdr) (hd_prev_block hdr) (hd_name_root hdr)
    (hd_extra_nonce hdr) (hd_reserved_root hdr) (hd_witness_root hdr) (hd_merkle_root hdr)
    (hd_version hdr) (hd_bits hdr) (hd_mask hdr) (hd_cache hdr) (hd_hash hdr) (hd_height hdr) work.

(** [None]: the argument is null or the allocation fails. *)
Definition hsk_header_clone (malloc_ok : bool) (hdr : option hsk_header_t) : option hsk_header_t :=
  match hdr with
  | None => None
  | Some hdr => if negb malloc_ok then None else Some hdr
  end.

(** * Compact targets *)

(** [while (mantissa && i >= 0)], with [k] for [i + 1]: the target and what is left
    of the mantissa. *)
Fixpoint pow_target_loop (k : nat) (mantissa : Z) (target : list Z) : list Z * Z :=
  match k with
  | O => (target, mantissa)
  | S i =>
      if mantissa =? 0 then (target, mantissa)
      else pow_target_loop i (Z.shiftr mantissa 8) (<[i := u8 mantissa]> target)
  end.

(** [None] is the [false] return. *)
Definition hsk_pow_to_target (bits : Z) : option (list Z) :=
  let target := zero32 in
  if bits =? 0 then None
  else if negb (Z.land (Z.shiftr bits 23) 1 =? 0) then None
  else
    let exponent := Z.shiftr bits 24 in
    let mantissa := Z.land bits 0x7fffff in
    let '(mantissa, shift) :=
      if exponent <=? 3 then (Z.shiftr mantissa (8 * (3 - exponent)), 0)
      else (mantissa, Z.land (exponent - 3) 31) in
    let i := 31 - shift in
    let '(target, mantissa) := pow_target_loop (Z.to_nat (i + 1)) mantissa target in
    if negb (mantissa =? 0) then None else Some target.

(** The index of the first nonzero byte. *)
Fixpoint first_nonzero (target : list Z) : nat :=
  match target with
  | [] => O
  | b :: target' => if negb (b =? 0) then O else S (first_nonzero target')
  end.

Definition hsk_pow_to_bits (target : list Z) : Z :=
  let i := first_nonzero target in
  let exponent := Z.of_nat (32 - i) in
  if exponent =? 0 then 0
  else
    let mantissa :=
      if exponent <=? 3 then
        let m := 0 in
        let m := if exponent =? 3 then Z.lor m (Z.shiftl target.[29] 16) else m in
        let m := if 2 <=? exponent then Z.lor m (Z.shiftl target.[30] 8) else m in
        let m := Z.lor m target.[31] in
        u32 (Z.shiftl m (8 * (3 - exponent)))
      else
        let shift := Z.to_nat (exponent - 3) in
        fold_left (fun m b => Z.lor (u32 (Z.shiftl m 8)) b)
          (take (32 - shift - i) (drop i target)) 0 in
    let '(mantissa, exponent) :=
      if negb (Z.land mantissa 0x800000 =? 0) then (Z.shiftr mantissa 8, exponent + 1)
      else (mantissa, exponent) in
    Z.lor (u32 (Z.shiftl exponent 24)) mantissa.

(** * Proof and work *)

Definition hsk_header_get_proof (hdr : hsk_header_t) : outcome (list Z) :=
  match hsk_pow_to_target (hd_bits hdr) with
  | None => Fail
  | Some target =>
      let max_bn := hsk_bn_lshift (hsk_bn_from_int 1) 256 in
      let target_bn := hsk_bn_inc (hsk_bn_from_array target) in
      let* target_bn := hsk_bn_div max_bn target_bn in
      Ret (hsk_bn_to_array target_bn 32)
  end.

(** [prev] is [None] for a null pointer. The new header is returned. *)
Definition hsk_header_calc_work (hdr : hsk_header_t) (prev : option hsk_header_t) :
    outcome hsk_header_t :=
  match prev with
  | None => let* work := hsk_header_get_proof hdr in Ret (set_work hdr work)
  | Some prev =>
      let prev_bn := hsk_bn_from_array (hd_work prev) in
      let* proof := hsk_header_get_proof hdr in
      let proof_bn := hsk_bn_from_array proof in
      let proof_bn := hsk_bn_add prev_bn proof_bn in
      Ret (set_work hdr (hsk_bn_to_array proof_bn 32))
  end.

(** * Wire format *)

(** The reader fills an existing header; the fields outside the wire format keep
    their value (also [cache]). *)
Definition hsk_header_read (hdr : hsk_header_t) : rd hsk_header_t :=
  nonce <- read_u32 ;;
  time <- read_u64 ;;
  prev_block <- read_bytes 32 ;;
  name_root <- read_bytes 32 ;;
  extra_nonce <- read_bytes 24 ;;
  reserved_root <- read_bytes 32 ;;
  witness_root <- read_bytes 32 ;;
  merkle_root <- read_bytes 32 ;;
  version <- read_u32 ;;
  bits <- read_u32 ;;
  mask <- read_bytes 32 ;;
  rret (mk_header nonce time prev_block name_root extra_nonce reserved_root witness_root
    merkle_root version bits mask (hd_cache hdr) (hd_hash hdr) (hd_height hdr) (hd_work hdr)).

Definition hsk_header_decode (data : list Z) (hdr : hsk_header_t) : outcome hsk_header_t :=
  let* (hdr, _) := hsk_header_read hdr data in Ret hdr.

Definition hsk_header_write (hdr : hsk_header_t) : wr :=
  write_u32 (hd_nonce hdr) +++
  write_u64 (hd_time hdr) +++
  write_bytes (hd_prev_block hdr) +++
  write_bytes (hd_name_root hdr) +++
  write_bytes (hd_extra_nonce hdr) +++
  write_bytes (hd_reserved_root hdr) +++
  write_bytes (hd_witness_root hdr) +++
  write_bytes (hd_merkle_root hdr) +++
  write_u32 (hd_version hdr) +++
  write_u32 (hd_bits hdr) +++
  write_bytes (hd_mask hdr).

Definition hsk_header_size (hdr : hsk_header_t) : Z := (hsk_header_write hdr None).1.
Definition hsk_header_encode (hdr : hsk_header_t) : list Z :=
  default [] (hsk_header_write hdr (Some [])).2.

Definition hsk_header_sub_write (hdr : hsk_header_t) : wr :=
  write_bytes (hd_extra_nonce hdr) +++
  write_bytes (hd_reserved_root hdr) +++
  write_bytes (hd_witness_root hdr) +++
  write_bytes (hd_merkle_root hdr) +++
  write_u32 (hd_version hdr) +++
  write_u32 (hd_bits hdr).
Definition hsk_header_sub_size (hdr : hsk_header_t) : Z := (hsk_header_sub_write hdr None).1.
Definition hsk_header_sub_encode (hdr : hsk_header_t) : list Z :=
  default [] (hsk_header_sub_write hdr (Some [])).2.

(** * Hashes *)

Definition hsk_header_sub_hash (hdr : hsk_header_t) : outcome (list Z) :=
  hsk_hash_blake256 (hsk_header_sub_encode hdr).

Definition hsk_header_mask_hash (hdr : hsk_header_t) : outcome (list Z) :=
  blake2b_assert 32 [hd_prev_block hdr; hd_mask hdr].

Definition hsk_header_commit_hash (hdr : hsk_header_t) : outcome (list Z) :=
  let* sub_hash := hsk_header_sub_hash hdr in
  let* mask_hash := hsk_header_mask_hash hdr in
  blake2b_assert 32 [sub_hash; mask_hash].

Definition hsk_header_padding (hdr : hsk_header_t) (size : nat) : list Z :=
  map (fun i => Z.lxor (nth (i mod 32) (hd_prev_block hdr) 0) (nth (i mod 32) (hd_name_root hdr) 0))
    (seq 0 size).

(** What [hsk_header_pre_write] appends, once its two hashes are known. *)
Definition pre_writer (hdr : hsk_header_t) (pad commit_hash : list Z) : wr :=
  write_u32 (hd_nonce hdr) +++
  write_u64 (hd_time hdr) +++
  write_bytes pad +++
  write_bytes (hd_prev_block hdr) +++
  write_bytes (hd_name_root hdr) +++
  write_bytes commit_hash.
Definition hsk_header_pre_write (hdr : hsk_header_t) (o : option (list Z)) :
    outcome (Z * option (list Z)) :=
  let pad := hsk_header_padding hdr 20 in
  let* commit_hash := hsk_header_commit_hash hdr in
  Ret (pre_writer hdr pad commit_hash o).
Definition hsk_header_pre_size (hdr : hsk_header_t) : outcome Z :=
  let* (s, _) := hsk_header_pre_write hdr None in Ret s.
Definition hsk_header_pre_encode (hdr : hsk_header_t) : outcome (list Z) :=
  let* (_, o) := hsk_header_pre_write hdr (Some []) in Ret (default [] o).

(** Returns the hash and the header with its cache filled. The buffer [pre] has
    [hsk_header_pre_size] bytes; [al] gives the alignments of the buffers [pre]
    and [pad8] on the stack. *)
Definition hsk_header_cache_al (al : bool * bool) (hdr : hsk_header_t) :
    outcome (list Z * hsk_header_t) :=
  if hd_cache hdr then Ret (hd_hash hdr, hdr)
  else
    let* size := hsk_header_pre_size hdr in
    let pad8 := hsk_header_padding hdr 8 in
    let pad32 := hsk_header_padding hdr 32 in
    let* pre := hsk_header_pre_encode hdr in
    let* left_ := hsk_hash_blake512 (take (Z.to_nat size) pre) in
    let* right_ := sha3_assert [(al.1, take (Z.to_nat size) pre); (al.2, pad8)] in
    let* hash := blake2b_assert 32 [left_; pad32; right_] in
    let hash := zip_with Z.lxor hash (hd_mask hdr) in
    Ret (hash, set_hash hdr hash).
Definition hsk_header_cache : hsk_header_t -> outcome (list Z * hsk_header_t) :=
  hsk_header_cache_al (true, true).

Definition hsk_header_hash (hdr : hsk_header_t) : outcome (list Z * hsk_header_t) :=
  let* (hash, hdr) := hsk_header_cache hdr in Ret (take 32 hash, hdr).

Definition hsk_header_equal (a b : hsk_header_t) : outcome (bool * hsk_header_t * hsk_header_t) :=
  let* (ha, a) := hsk_header_cache a in
  let* (hb, b) := hsk_header_cache b in
  Ret (memeq (take 32 ha) (take 32 hb), a, b).

(** The code casts the [const] away: the header comes back with its cache filled. *)
Definition hsk_header_verify_pow (hdr : hsk_header_t) : outcome (Z * hsk_header_t) :=
  match hsk_pow_to_target (hd_bits hdr) with
  | None => Ret (HSK_ENEGTARGET, hdr)
  | Some target =>
      let* (hash, hdr) := hsk_header_hash hdr in
      match memcmp hash target with
      | Gt => Ret (HSK_EHIGHHASH, hdr)
      | _ => Ret (HSK_SUCCESS, hdr)
      end
  end.

(** * The genesis block of the main network *)
Definition HSK_GENESIS_MAIN : list Z :=
  be_split 236 0x000000007641385e000000000000000000000000000000000000000000000000000000000000000000000000000000000000000000000000000000000000000000000000000000000000000000000000000000000000000000000000000000000000000000000000000000000000000000000000000000000000000000000000000000001a2c60b9439206938f8d7823782abdb8b211a57431e9c9b6a6365d8d428933518e4c9756fef2ad10375f360e0560fcc7587eb5223ddf8cd7c7e06e60a1140b1500000000ffff001c0000000000000000000000000000000000000000000000000000000000000000.

Example genesis_hash :
  (let* hdr := hsk_header_decode HSK_GENESIS_MAIN hsk_header_init in
   let* (hash, _) := hsk_header_hash hdr in
   Ret (be_combine hash)) =
  Ret 0x5b6ef2d3c1f3cdcadfd9a030ba1811efdd17740f14e166489760741d075992e0.
Proof. vm_compute. reflexivity. Qed.

(** * Lemmas: the wire format *)

Definition hdr_wf (hdr : hsk_header_t) : Prop :=
  0 <= hd_nonce hdr < 2 ^ 32 /\ 0 <= hd_time hdr < 2 ^ 64 /\
  bytes_n 32 (hd_prev_block hdr) /\ bytes_n 32 (hd_name_root hdr) /\
  bytes_n 24 (hd_extra_nonce hdr) /\ bytes_n 32 (hd_reserved_root hdr) /\
  bytes_n 32 (hd_witness_root hdr) /\ bytes_n 32 (hd_merkle_root hdr) /\
  0 <= hd_version hdr < 2 ^ 32 /\ 0 <= hd_bits hdr < 2 ^ 32 /\ bytes_n 32 (hd_mask hdr).
#[export] Instance hdr_wf_dec hdr : Decision (hdr_wf hdr).
Proof. unfold hdr_wf. solve_decision. Defined.

Definition header_wire (hdr : hsk_header_t) : list Z :=
  le_split 4 (hd_nonce hdr) ++ le_split 8 (hd_time hdr) ++ hd_prev_block hdr ++
  hd_name_root hdr ++ hd_extra_nonce hdr ++ hd_reserved_root hdr ++ hd_witness_root hdr ++
  hd_merkle_root hdr ++ le_split 4 (hd_version hdr) ++ le_split 4 (hd_bits hdr) ++ hd_mask hdr.

(** The wire fields of [hdr], the other fields of [old]. *)
Definition overlay (old hdr : hsk_header_t) : hsk_header_t :=
  mk_header (hd_nonce hdr) (hd_time hdr) (hd_prev_block hdr) (hd_name_root hdr)
    (hd_extra_nonce hdr) (hd_reserved_root hdr) (hd_witness_root hdr) (hd_merkle_root hdr)
    (hd_version hdr) (hd_bits hdr) (hd_mask hdr) (hd_cache old) (hd_hash old) (hd_height old)
    (hd_work old).

Lemma length_header_wire hdr : hdr_wf hdr -> length (header_wire hdr) = 236%nat.
Proof.
  intros (_ & _ & [H1 _] & [H2 _] & [H3 _] & [H4 _] & [H5 _] & [H6 _] & _ & _ & [H7 _]).
  unfold header_wire. rewrite !length_app, H1, H2, H3, H4, H5, H6, H7. done.
Qed.

Lemma header_parses old hdr :
  hdr_wf hdr -> parses (hsk_header_read old) (header_wire hdr) (overlay old hdr).
Proof.
  intros (? & ? & [? _] & [? _] & [? _] & [? _] & [? _] & [? _] & ? & ? & [? _]).
  unfold hsk_header_read, header_wire.
  repeat first [eapply parses_bind; [apply parses_u32 || apply parses_u64 || apply parses_bytes; lia|]
               |eapply parses_bind_nil; [apply parses_bytes; lia|]].
  apply parses_ret.
Qed.
Lemma header_emits hdr : emits (hsk_header_write hdr) (header_wire hdr).
Proof. unfold hsk_header_write, header_wire. auto 20 with hsk. Qed.
Lemma header_sizes hdr : hdr_wf hdr -> sizes (hsk_header_write hdr) 236.
Proof.
  intros (_ & _ & [H1 _] & [H2 _] & [H3 _] & [H4 _] & [H5 _] & [H6 _] & _ & _ & [H7 _]).
  unfold sizes, hsk_header_write, wseq, write_bytes, write_raw.
  by rewrite H1, H2, H3, H4, H5, H6, H7.
Qed.

#[export, refine] Instance header_codec : Codec hsk_header_t := {
  codec_read := hsk_header_read hsk_header_init;
  codec_write := hsk_header_write;
  codec_wf hdr := hdr_wf hdr /\ overlay hsk_header_init hdr = hdr;
  codec_wire := header_wire;
}.
Proof.
  - intros hdr [Hw He]. rewrite <-He at 2. by apply header_parses.
  - intros hdr _. apply header_emits.
  - intros hdr [Hw _]. rewrite length_header_wire by done. by apply header_sizes.
Defined.

(** * Lemmas: compact targets *)

Lemma be_split_S n m : be_split (S n) m = be_split n (m / 256) ++ [m mod 256].
Proof. unfold be_split. cbn [le_split]. by rewrite reverse_cons. Qed.
Lemma be_split_0 n : be_split n 0 = replicate n 0.
Proof.
  induction n as [|n IH]; [done|]. rewrite be_split_S, Z.div_0_l, IH by done.
  by rewrite replicate_S_end.
Qed.

Lemma pow_target_loop_spec k m target : 0 <= m -> (k <= length target)%nat ->
  take k target = replicate k 0 ->
  pow_target_loop k m target = (be_split k m ++ drop k target, m / 256 ^ Z.of_nat k).
Proof.
  revert m target; induction k as [|i IH]; intros m target Hm Hk Hz.
  { cbn. by rewrite Z.div_1_r. }
  cbn [pow_target_loop]. destruct (Z.eqb_spec m 0) as [->|Hm0].
  { rewrite be_split_0, Z.div_0_l, <-Hz, take_drop by (apply Z.pow_nonzero; lia). done. }
  rewrite IH.
  - rewrite Z.shiftr_div_pow2, be_split_S, <-(assoc_L (++)) by lia. f_equal.
    + f_equal. rewrite (drop_S _ (u8 m)) by (apply list_lookup_insert_eq; lia).
      by rewrite drop_insert_lt by lia.
    + rewrite Nat2Z.inj_succ, Z.pow_succ_r by lia. rewrite Z.div_div by lia. done.
  - rewrite Z.shiftr_div_pow2 by lia. apply Z.div_pos; lia.
  - rewrite length_insert. lia.
  - rewrite take_insert_ge by lia. apply (f_equal (take i)) in Hz.
    rewrite take_take, take_replicate in Hz. by replace (i `min` S i)%nat with i in Hz by lia.
Qed.

(** The number a compact target stands for. *)
Definition compact_exponent (bits : Z) : Z := bits / 2 ^ 24.
Definition compact_value (bits : Z) : Z :=
  let e := compact_exponent bits in
  if e <=? 3 then (bits mod 2 ^ 23) / 256 ^ (3 - e) else (bits mod 2 ^ 23) * 256 ^ (e - 3).

Lemma be_split_app_zeros k n m : be_split k m ++ replicate n 0 = be_split (k + n) (m * 256 ^ Z.of_nat n).
Proof.
  induction n as [|n IH].
  { cbn [replicate]. by rewrite app_nil_r, Nat.add_0_r, Z.pow_0_r, Z.mul_1_r. }
  rewrite replicate_S_end, (assoc_L (++)), IH, Nat.add_succ_r, be_split_S.
  rewrite Nat2Z.inj_succ, Z.pow_succ_r by lia.
  replace (m * (256 * 256 ^ Z.of_nat n)) with ((m * 256 ^ Z.of_nat n) * 256) by lia.
  by rewrite Z.div_mul, Z.mod_mul.
Qed.

Lemma shiftl_exponent_land e : 3 < e < 35 -> Z.land (e - 3) 31 = e - 3.
Proof. intros He. change 31 with (2 ^ 5 - 1). rewrite land_ones_mod, Z.mod_small; lia. Qed.

(** The write loop stores a number that is shifted by whole bytes, or reports
    that it does not fit. *)
Lemma pow_target_store m s : 0 <= m -> 0 <= s <= 31 ->
  (let '(target, mantissa) := pow_target_loop (Z.to_nat (31 - s + 1)) m zero32 in
   if negb (mantissa =? 0) then None else Some target) =
  if m * 256 ^ s <? 2 ^ 256 then Some (be_split 32 (m * 256 ^ s)) else None.
Proof.
  intros Hm Hs. rewrite pow_target_loop_spec; [|lia|unfold zero32; rewrite length_replicate; lia|].
  2: { unfold zero32. rewrite take_replicate. f_equal. lia. }
  assert (Hp : 2 ^ 256 = 256 ^ Z.of_nat (Z.to_nat (31 - s + 1)) * 256 ^ s).
  { rewrite <-Z.pow_add_r by lia. replace (Z.of_nat (Z.to_nat (31 - s + 1)) + s) with 32 by lia. done. }
  assert (P1 : 0 < 256 ^ s) by (apply Z.pow_pos_nonneg; lia).
  assert (P2 : 0 < 256 ^ Z.of_nat (Z.to_nat (31 - s + 1))) by (apply Z.pow_pos_nonneg; lia).
  rewrite Hp. destruct (Z.ltb_spec (m * 256 ^ s) (256 ^ Z.of_nat (Z.to_nat (31 - s + 1)) * 256 ^ s)) as [Hlt|Hge].
  - rewrite Z.div_small by nia. cbn [Z.eqb negb]. f_equal.
    unfold zero32. rewrite drop_replicate, be_split_app_zeros. f_equal; [lia|]. do 2 f_equal. lia.
  - destruct (Z.eqb_spec (m / 256 ^ Z.of_nat (Z.to_nat (31 - s + 1))) 0) as [H0|]; [|done].
    apply Z.div_small_iff in H0; nia.
Qed.

Definition bits_negative (bits : Z) : bool := Z.testbit bits 23.

Lemma hsk_pow_to_target_spec bits : 0 <= bits < 2 ^ 32 -> compact_exponent bits < 35 ->
  hsk_pow_to_target bits =
  if (bits =? 0) || bits_negative bits then None
  else if compact_value bits <? 2 ^ 256 then Some (be_split 32 (compact_value bits)) else None.
Proof.
  intros Hb He. unfold hsk_pow_to_target, bits_negative, compact_value, compact_exponent in *.
  destruct (Z.eqb_spec bits 0); [done|]. cbn [orb].
  assert (Hs : (Z.land (Z.shiftr bits 23) 1 =? 0) = negb (Z.testbit bits 23)).
  { change 1 with (2 ^ 1 - 1). rewrite land_ones_mod, Z.pow_1_r, <-Z.bit0_mod, Z.shiftr_spec by lia.
    change (0 + 23) with 23. by destruct (Z.testbit bits 23). }
  rewrite Hs, negb_involutive. destruct (Z.testbit bits 23); [done|].
  rewrite (Z.shiftr_div_pow2 bits 24) by lia. change 0x7fffff with (2 ^ 23 - 1).
  rewrite land_ones_mod by lia. set (e := bits / 2 ^ 24) in *. set (m := bits mod 2 ^ 23).
  assert (Hm : 0 <= m < 2 ^ 23) by (apply Z.mod_pos_bound; lia).
  assert (He0 : 0 <= e) by (apply Z.div_pos; lia).
  destruct (Z.leb_spec e 3).
  - rewrite Z.shiftr_div_pow2 by lia.
    replace (2 ^ (8 * (3 - e))) with (256 ^ (3 - e)) by (rewrite Z.pow_mul_r by lia; done).
    rewrite pow_target_store; [by rewrite Z.pow_0_r, Z.mul_1_r| |lia].
    apply Z.div_pos; [lia|]. apply Z.pow_pos_nonneg; lia.
  - rewrite shiftl_exponent_land by lia. apply pow_target_store; lia.
Qed.

Lemma first_nonzero_spec t :
  exists rest, t = replicate (first_nonzero t) 0 ++ rest /\
    (rest = [] \/ exists b r, rest = b :: r /\ b <> 0).
Proof.
  induction t as [|b t (rest & IH & Hr)]; [by exists []; split; [|left]|].
  cbn [first_nonzero]. destruct (Z.eqb_spec b 0) as [->|Hb]; cbn [negb].
  - exists rest. cbn [replicate app]. by rewrite <-IH.
  - exists (b :: t). split; [done|]. right. by exists b, t.
Qed.


(** The number of significant bytes, and the first three of them. *)
Definition sig_mantissa (v L : Z) : Z := if L <=? 3 then v * 256 ^ (3 - L) else v / 256 ^ (L - 3).

Lemma be_combine_3 a b c : be_combine [a; b; c] = a * 65536 + b * 256 + c.
Proof. rewrite !be_combine_cons. cbn [length]. change (be_combine []) with 0. lia. Qed.

Lemma first_nonzero_app t i b r : t = replicate i 0 ++ b :: r -> b <> 0 -> first_nonzero t = i.
Proof.
  intros -> Hb. induction i as [|i IH]; cbn [replicate app first_nonzero].
  - by rewrite (proj2 (Z.eqb_neq b 0)).
  - cbn [Z.eqb negb]. by rewrite IH.
Qed.

(** The last statements of [hsk_pow_to_bits]. *)
Definition pack_bits (exponent mantissa : Z) : Z :=
  let '(mantissa, exponent) :=
    if negb (Z.land mantissa 0x800000 =? 0) then (Z.shiftr mantissa 8, exponent + 1)
    else (mantissa, exponent) in
  Z.lor (u32 (Z.shiftl exponent 24)) mantissa.
Lemma pack_bits_spec e m : 0 <= e <= 32 -> 0 <= m < 2 ^ 24 ->
  pack_bits e m = if 2 ^ 23 <=? m then (e + 1) * 2 ^ 24 + m / 256 else e * 2 ^ 24 + m.
Proof.
  intros He Hm. unfold pack_bits.
  assert (Ht : (Z.land m 0x800000 =? 0) = negb (2 ^ 23 <=? m)).
  { change 0x800000 with (Z.shiftl (2 ^ 1 - 1) 23). rewrite <-(Z.mod_small m (2 ^ 24)) at 1 by lia.
    replace (Z.land (m mod 2 ^ 24) (Z.shiftl (2 ^ 1 - 1) 23)) with (Z.shiftl (m / 2 ^ 23) 23).
    { rewrite Z.shiftl_mul_pow2 by lia. destruct (Z.leb_spec (2 ^ 23) m), (Z.eqb_spec (m / 2 ^ 23 * 2 ^ 23) 0);
        done || dlia. }
    rewrite Z.mod_small by lia. apply Z.bits_inj'. intros i Hi.
    rewrite Z.land_spec, !Z.shiftl_spec by done.
    destruct (Z.lt_ge_cases i 23); [by rewrite !(Z.testbit_neg_r _ (i - 23)) by lia; rewrite andb_false_r|].
    rewrite Z.div_pow2_bits by lia. replace (i - 23 + 23) with i by lia.
    destruct (Z.eq_dec i 23) as [->|]; [by rewrite andb_true_r|].
    rewrite <-(Z.mod_small m (2 ^ 24)), Z.mod_pow2_bits_high by lia. done. }
  rewrite Ht, negb_involutive. destruct (Z.leb_spec (2 ^ 23) m).
  - rewrite Z.shiftr_div_pow2, u32_small by (rewrite ?Z.shiftl_mul_pow2; lia).
    rewrite lor_shiftl_add by dlia. done.
  - rewrite u32_small, lor_shiftl_add by (rewrite ?Z.shiftl_mul_pow2; lia). done.
Qed.

Lemma fold_3_bytes b c d : 0 <= b < 256 -> 0 <= c < 256 -> 0 <= d < 256 ->
  Z.lor (u32 (Z.shiftl (Z.lor (u32 (Z.shiftl (Z.lor (u32 (Z.shiftl 0 8)) b) 8)) c) 8)) d =
  b * 65536 + c * 256 + d.
Proof.
  intros Hb Hc Hd. change (u32 (Z.shiftl 0 8)) with 0. rewrite Z.lor_0_l.
  rewrite (u32_small (Z.shiftl b 8)), (lor_shiftl_add b c)
    by (rewrite ?Z.shiftl_mul_pow2; lia).
  rewrite u32_small, lor_shiftl_add by (rewrite ?Z.shiftl_mul_pow2; lia). lia.
Qed.

(** Three significant bytes or fewer. *)
Lemma low_mantissa t i b r : t = replicate i 0 ++ b :: r -> length t = 32%nat -> bytes (b :: r) ->
  let exponent := Z.of_nat (32 - i) in
  exponent <= 3 ->
  (let m := 0 in
   let m := if exponent =? 3 then Z.lor m (Z.shiftl t.[29] 16) else m in
   let m := if 2 <=? exponent then Z.lor m (Z.shiftl t.[30] 8) else m in
   let m := Z.lor m t.[31] in
   u32 (Z.shiftl m (8 * (3 - exponent)))) = be_combine (b :: r) * 256 ^ (3 - exponent).
Proof.
  intros -> Hl Hb e He. rewrite length_app, length_replicate in Hl. cbn [length] in Hl.
  assert (Hi : i = 29%nat \/ i = 30%nat \/ i = 31%nat) by (unfold e in He; lia).
  destruct Hi as [->|[->| ->]].
  - destruct r as [|c [|d [|]]]; try (cbn in Hl; lia).
    apply bytes_cons_inv in Hb as [? [? [? _]%bytes_cons_inv]%bytes_cons_inv].
    change e with 3. cbn [Z.eqb Pos.eqb Z.leb Z.compare Pos.compare Pos.compare_cont nth replicate app].
    rewrite be_combine_3, Z.lor_0_l. bytes_to_sum. rewrite u32_small by (rewrite ?Z.shiftl_mul_pow2; lia).
    rewrite ?Z.shiftl_mul_pow2 by lia. cbn. lia.
  - destruct r as [|c [|]]; try (cbn in Hl; lia).
    apply bytes_cons_inv in Hb as [? [? _]%bytes_cons_inv].
    change e with 2. cbn [Z.eqb Pos.eqb Z.leb Z.compare Pos.compare Pos.compare_cont nth replicate app].
    rewrite Z.lor_0_l. bytes_to_sum. rewrite u32_small; rewrite ?Z.shiftl_mul_pow2 by lia; cbn; lia.
  - destruct r as [|]; try (cbn in Hl; lia).
    apply bytes_cons_inv in Hb as [? _].
    change e with 1. cbn [Z.eqb Pos.eqb Z.leb Z.compare Pos.compare Pos.compare_cont nth replicate app].
    rewrite Z.lor_0_l. rewrite u32_small; rewrite Z.shiftl_mul_pow2 by lia; cbn; lia.
Qed.

Lemma hsk_pow_to_bits_mantissa t b r i :
  bytes t -> length t = 32%nat -> t = replicate i 0 ++ b :: r -> b <> 0 ->
  let L := Z.of_nat (32 - i) in
  let v := be_combine t in
  let m := sig_mantissa v L in
  1 <= L <= 32 /\ 256 ^ (L - 1) <= v < 256 ^ L /\
  hsk_pow_to_bits t =
  if 2 ^ 23 <=? m then (L + 1) * 2 ^ 24 + m / 256 else L * 2 ^ 24 + m.
Proof.
  intros Ht Hlen E Hb. cbv zeta.
  assert (Hbr : bytes (b :: r)) by (rewrite E in Ht; by apply bytes_app in Ht as [_ ?]).
  assert (Hl : length (b :: r) = (32 - i)%nat /\ (i < 32)%nat).
  { rewrite E in Hlen. rewrite length_app, length_replicate in Hlen. cbn [length] in *. lia. }
  destruct Hl as [Hl Hi]. set (L := Z.of_nat (32 - i)).
  assert (Hv : be_combine t = be_combine (b :: r)).
  { rewrite E, be_combine_app, be_combine_replicate_0. lia. }
  rewrite Hv. assert (R := be_combine_range _ Hbr). rewrite Hl in R. fold L in R.
  apply bytes_cons_inv in Hbr as [Hb1 Hr]. assert (Rr := be_combine_range _ Hr).
  assert (Hlr : Z.of_nat (length r) = L - 1) by (cbn [length] in Hl; unfold L; lia).
  assert (HvL : 256 ^ (L - 1) <= be_combine (b :: r)).
  { rewrite be_combine_cons, Hlr in *. nia. }
  split; [unfold L; lia|]. split; [lia|].
  assert (Hm : sig_mantissa (be_combine (b :: r)) L < 2 ^ 24 /\ hsk_pow_to_bits t =
    pack_bits L (sig_mantissa (be_combine (b :: r)) L)).
  { unfold hsk_pow_to_bits. rewrite (first_nonzero_app t i b r) by done. fold L.
    destruct (Z.eqb_spec L 0); [unfold L in *; lia|]. unfold sig_mantissa.
    destruct (Z.leb_spec L 3) as [HL|HL].
    - assert (Hlow := low_mantissa t i b r E Hlen (bytes_cons _ _ Hb1 Hr)).
      cbv zeta in Hlow |- *. fold L in Hlow. rewrite Hlow by done. split; [|done].
      assert (be_combine (b :: r) * 256 ^ (3 - L) < 256 ^ L * 256 ^ (3 - L)).
      { apply Z.mul_lt_mono_pos_r; [apply Z.pow_pos_nonneg; lia|lia]. }
      rewrite <-Z.pow_add_r in * by (unfold L; lia). by replace (L + (3 - L)) with 3 in * by lia.
    - destruct r as [|c [|d r]]; [cbn in Hlr; lia..|].
      replace (32 - Z.to_nat (L - 3) - i)%nat with 3%nat by (unfold L; lia).
      assert (Htk : take 3 (drop i t) = [b; c; d]).
      { rewrite E, drop_app_length' by (by rewrite length_replicate). cbn [take]. by rewrite take_0. }
      rewrite Htk. cbn [fold_left].
      apply bytes_cons_inv in Hr as [Hc [Hd Hr]%bytes_cons_inv].
      assert (Hcut : be_combine (b :: c :: d :: r) / 256 ^ (L - 3) = be_combine [b; c; d]).
      { change (b :: c :: d :: r) with ([b; c; d] ++ r). rewrite be_combine_app.
        assert (R3 := be_combine_range _ Hr).
        replace (Z.of_nat (length r)) with (L - 3) in * by (cbn [length] in Hlr; lia).
        rewrite Z.div_add_l, Z.div_small by lia. lia. }
      rewrite Hcut, be_combine_3. split; [lia|].
      by rewrite fold_3_bytes. }
  destruct Hm as [Hm ->]. apply pack_bits_spec; [unfold L; lia|].
  split; [|done]. unfold sig_mantissa. destruct (Z.leb_spec L 3).
  - apply Z.mul_nonneg_nonneg; [lia|]. apply Z.pow_nonneg. lia.
  - apply Z.div_pos; [lia|]. apply Z.pow_pos_nonneg; lia.
Qed.

Lemma header_takes old : takes (hsk_header_read old) 236.
Proof.
  change 236%nat with (4 + (8 + (32 + (32 + (24 + (32 + (32 + (32 + (4 + (4 + 32))))))))))%nat.
  unfold hsk_header_read.
  repeat first [apply takes_bind_ret; apply (takes_bytes 32); lia
               |apply takes_bind; [first [apply takes_fixed|apply (takes_bytes 32); lia
                                         |apply (takes_bytes 24); lia]|intros ?]].
Qed.

(** One step of reading a fixed-width field backwards, from what was read. *)
Ltac read_inv := unfold rbind, rret in *;
  match goal with
  | H : match read_u32 ?d with _ => _ end = Ret _ |- _ => 
      let E := fresh in destruct (read_u32 d) as [[? ?]| |] eqn:E; [|done..];
      apply (read_le_inv 4) in E as [-> ?]; [|assumption|done]
  | H : match read_u64 ?d with _ => _ end = Ret _ |- _ => 
      let E := fresh in destruct (read_u64 d) as [[? ?]| |] eqn:E; [|done..];
      apply (read_le_inv 8) in E as [-> ?]; [|assumption|done]
  | H : match read_bytes ?n ?d with _ => _ end = Ret _ |- _ => 
      let E := fresh in destruct (read_bytes n d) as [[? ?]| |] eqn:E; [|done..];
      apply read_bytes_inv in E as [-> ?]; [|lia]
  end;
  repeat match goal with H : bytes (_ ++ _) |- _ => apply bytes_app in H as [? H] end.

Lemma header_read_inv old d hdr rest :
  bytes d -> hsk_header_read old d = Ret (hdr, rest) ->
  d = header_wire hdr ++ rest /\ hdr_wf hdr /\ overlay old hdr = hdr.
Proof.
  intros Hb H. unfold hsk_header_read in H. do 11 read_inv. injection H as <- <-.
  split; [unfold header_wire; cbn [hd_nonce hd_time hd_prev_block hd_name_root hd_extra_nonce
    hd_reserved_root hd_witness_root hd_merkle_root hd_version hd_bits hd_mask];
    by rewrite <-!(assoc_L (++))|].
  split; [|done]. unfold hdr_wf, bytes_n. cbn. repeat split; try assumption; lia.
Qed.

Lemma header_encode_wire hdr : hsk_header_encode hdr = header_wire hdr.
Proof. unfold hsk_header_encode. by rewrite (header_emits hdr []). Qed.

(** * Properties *)

(** Header wire format. A well-formed header is written in 236 bytes (the
    size computed on a null destination), which the reader takes back whatever
    follows, changing only the wire fields of its argument; shorter input fails
    and no input is over-read; and any 236 bytes are a header whose encoding
    they are. *)
Theorem header_roundtrip old hdr rest :
  hdr_wf hdr ->
  hsk_header_size hdr = HSK_HEADER_SIZE /\
  Z.of_nat (length (hsk_header_encode hdr)) = HSK_HEADER_SIZE /\
  hsk_header_read old (hsk_header_encode hdr ++ rest) = Ret (overlay old hdr, rest) /\
  (forall d, (length d < 236)%nat -> hsk_header_read old d = Fail) /\
  (forall d, (236 <= length d)%nat -> bytes d -> exists hdr',
     hsk_header_read old d = Ret (hdr', drop 236 d) /\ hdr_wf hdr' /\
     hsk_header_encode hdr' = take 236 d).
Proof.
  intros Hw. rewrite header_encode_wire, length_header_wire by done.
  split; [unfold hsk_header_size; by rewrite header_sizes|]. split; [done|].
  split; [by apply header_parses|]. split; [intros d; apply header_takes|].
  intros d Hl Hb. destruct (header_takes old d) as [_ [hdr' E]]; [done|].
  exists hdr'. split; [done|]. destruct (header_read_inv _ _ _ _ Hb E) as (Hd & Hw' & _).
  split; [done|]. rewrite header_encode_wire, Hd.
  by rewrite take_app_length' by by rewrite length_header_wire.
Qed.
Lemma header_roundtrip_witness :
  hsk_header_read hsk_header_init (hsk_header_encode hsk_header_init ++ [7]) =
  Ret (hsk_header_init, [7]).
Proof.
  refine (proj1 (proj2 (proj2 (header_roundtrip hsk_header_init hsk_header_init [7] _)))).
  apply (bool_decide_eq_true _). vm_compute. reflexivity.
Defined.

(** ** More on targets *)

Lemma hsk_pow_to_target_bytes bits t : 0 <= bits -> hsk_pow_to_target bits = Some t -> bytes_n 32 t.
Proof.
  intros Hb. unfold hsk_pow_to_target. destruct (_ =? 0); [done|]. destruct (negb _); [done|].
  assert (Hm : 0 <= Z.land bits 0x7fffff) by (apply Z.land_nonneg; lia).
  assert (Hs : forall x, 0 <= Z.land x 31 <= 31).
  { intros x. assert (Hx := land_ones_mod x 5 ltac:(lia)). change (2 ^ 5 - 1) with 31 in Hx.
    rewrite Hx. assert (Hr := Z.mod_pos_bound x (2 ^ 5) ltac:(lia)). lia. }
  destruct (_ <=? 3).
  - rewrite pow_target_store; [|apply Z.shiftr_nonneg; lia|lia].
    destruct (_ <? _); [|done]. intros [= <-]. split; [apply length_be_split|apply bytes_be_split].
  - rewrite pow_target_store; [|done|apply Hs].
    destruct (_ <? _); [|done]. intros [= <-]. split; [apply length_be_split|apply bytes_be_split].
Qed.

Lemma hsk_pow_to_target_alias bits : 0 <= bits < 2 ^ 32 -> 35 <= compact_exponent bits ->
  hsk_pow_to_target bits = hsk_pow_to_target (bits - 2 ^ 29).
Proof.
  intros Hb He. unfold hsk_pow_to_target, compact_exponent in *.
  assert (E24 : (bits - 2 ^ 29) / 2 ^ 24 = bits / 2 ^ 24 - 32) by dlia.
  assert (H23 : Z.shiftr (bits - 2 ^ 29) 23 = Z.shiftr bits 23 - 32 * 2).
  { rewrite !Z.shiftr_div_pow2 by lia. dlia. }
  rewrite (proj2 (Z.eqb_neq bits 0)), (proj2 (Z.eqb_neq (bits - 2 ^ 29) 0)) by dlia.
  rewrite H23. change (Z.land (Z.shiftr bits 23 - 32 * 2) 1) with (Z.land (Z.shiftr bits 23 - 32 * 2) (2 ^ 1 - 1)).
  change (Z.land (Z.shiftr bits 23) 1) with (Z.land (Z.shiftr bits 23) (2 ^ 1 - 1)).
  change 0x7fffff with (2 ^ 23 - 1). rewrite !land_ones_mod by lia.
  replace ((Z.shiftr bits 23 - 32 * 2) mod 2 ^ 1) with (Z.shiftr bits 23 mod 2 ^ 1) by dlia.
  destruct (negb _); [done|].
  replace ((bits - 2 ^ 29) mod 2 ^ 23) with (bits mod 2 ^ 23) by dlia.
  rewrite (Z.shiftr_div_pow2 bits 24), (Z.shiftr_div_pow2 (bits - 2 ^ 29) 24), E24 by lia. set (e := bits / 2 ^ 24) in *.
  set (m := bits mod 2 ^ 23).
  rewrite (proj2 (Z.leb_gt e 3)) by lia.
  assert (H31 : forall x, Z.land x 31 = x mod 2 ^ 5) by exact (fun x => land_ones_mod x 5 ltac:(lia)).
  rewrite !H31.
  destruct (Z.leb_spec (e - 32) 3) as [H3|H3].
  - replace e with 35 by lia. cbn [Z.sub Z.mul Z.pow]. change (35 - 32) with 3.
    change (8 * (3 - 3)) with 0. rewrite Z.shiftr_0_r. reflexivity.
  - replace ((e - 32 - 3) mod 2 ^ 5) with ((e - 3) mod 2 ^ 5) by dlia. done.
Qed.

(** The largest number of at most three significant bytes below [v]. *)
Definition round_down (v k : Z) : Z := v - v mod 256 ^ k.

Lemma sig_mantissa_range v L : 1 <= L <= 32 -> 256 ^ (L - 1) <= v < 256 ^ L ->
  2 ^ 16 <= sig_mantissa v L < 2 ^ 24.
Proof.
  intros HL Hv. unfold sig_mantissa. destruct (Z.leb_spec L 3).
  - assert (P : 0 < 256 ^ (3 - L)) by (apply Z.pow_pos_nonneg; lia).
    assert (E1 : 256 ^ (L - 1) * 256 ^ (3 - L) = 2 ^ 16).
    { rewrite <-Z.pow_add_r by lia. by replace (L - 1 + (3 - L)) with 2 by lia. }
    assert (E2 : 256 ^ L * 256 ^ (3 - L) = 2 ^ 24).
    { rewrite <-Z.pow_add_r by lia. by replace (L + (3 - L)) with 3 by lia. }
    nia.
  - assert (P : 0 < 256 ^ (L - 3)) by (apply Z.pow_pos_nonneg; lia).
    assert (E1 : 256 ^ (L - 1) = 2 ^ 16 * 256 ^ (L - 3)).
    { replace (2 ^ 16) with (256 ^ 2) by done. rewrite <-Z.pow_add_r by lia. f_equal. lia. }
    assert (E2 : 256 ^ L = 256 ^ (L - 3) * 2 ^ 24).
    { replace (2 ^ 24) with (256 ^ 3) by done. rewrite <-Z.pow_add_r by lia. f_equal. lia. }
    split; [apply Z.div_le_lower_bound; lia|apply Z.div_lt_upper_bound; lia].
Qed.
(** The stored mantissa is the value scaled by whole bytes. *)
Lemma sig_mantissa_scale v L :
  let m0 := sig_mantissa v L in
  let e := if 2 ^ 23 <=? m0 then L + 1 else L in
  let m := if 2 ^ 23 <=? m0 then m0 / 256 else m0 in
  if e <=? 3 then m = v * 256 ^ (3 - e) else m = v / 256 ^ (e - 3).
Proof.
  cbv zeta. unfold sig_mantissa.
  destruct (Z.leb_spec (2 ^ 23) (if L <=? 3 then v * 256 ^ (3 - L) else v / 256 ^ (L - 3))).
  2: { by destruct (Z.leb_spec L 3). }
  destruct (Z.leb_spec L 3) as [HL3|HL3].
  - destruct (Z.leb_spec (L + 1) 3) as [HL4|HL4].
    + replace (3 - L) with (Z.succ (3 - (L + 1))) by lia. rewrite Z.pow_succ_r by lia.
      replace (v * (256 * 256 ^ (3 - (L + 1)))) with (v * 256 ^ (3 - (L + 1)) * 256) by lia.
      by rewrite Z.div_mul.
    + replace L with 3 by lia. change (3 - 3) with 0. change (3 + 1 - 3) with 1.
      by rewrite Z.pow_0_r, Z.mul_1_r.
  - rewrite (proj2 (Z.leb_gt (L + 1) 3)) by lia.
    rewrite Z.div_div by (try apply Z.pow_pos_nonneg; lia).
    replace (L + 1 - 3) with (Z.succ (L - 3)) by lia. rewrite Z.pow_succ_r by lia. f_equal. lia.
Qed.

Lemma hsk_pow_to_bits_roundtrip t : bytes_n 32 t -> 0 < be_combine t ->
  let bits := hsk_pow_to_bits t in
  let k := Z.max 0 (compact_exponent bits - 3) in
  0 <= bits < 2 ^ 32 /\ compact_exponent bits <= 33 /\
  hsk_pow_to_target bits = Some (be_split 32 (round_down (be_combine t) k)) /\
  (0 < k -> 2 ^ 15 * 256 ^ k <= be_combine t).
Proof.
  intros [Hl Ht] Hpos. cbv zeta. destruct (first_nonzero_spec t) as (rest & E & Hr).
  set (i := first_nonzero t) in *.
  destruct Hr as [->|(b & r & -> & Hb)].
  { rewrite E, app_nil_r, be_combine_replicate_0 in Hpos. lia. }
  destruct (hsk_pow_to_bits_mantissa t b r i) as (HL & Hv & Hbits); [done..|].
  set (L := Z.of_nat (32 - i)) in *. set (v := be_combine t) in *.
  set (m0 := sig_mantissa v L) in *.
  assert (Hm0 := sig_mantissa_range v L HL Hv). fold m0 in Hm0.
  set (e := if 2 ^ 23 <=? m0 then L + 1 else L).
  set (m := if 2 ^ 23 <=? m0 then m0 / 256 else m0).
  assert (He : 1 <= e <= 33) by (unfold e; destruct (_ <=? _); lia).
  assert (Hm : 2 ^ 15 <= m < 2 ^ 23).
  { unfold m. destruct (Z.leb_spec (2 ^ 23) m0); dlia. }
  assert (Hbm : hsk_pow_to_bits t = e * 2 ^ 24 + m).
  { rewrite Hbits. unfold e, m. by destruct (_ <=? _). }
  assert (Hce : compact_exponent (hsk_pow_to_bits t) = e) by (unfold compact_exponent; rewrite Hbm; dlia).
  rewrite Hce, Hbm. split; [lia|]. split; [lia|].
  assert (Hscale := sig_mantissa_scale v L). fold m0 in Hscale. cbv zeta in Hscale. fold e m in Hscale.
  assert (Hmod : (e * 2 ^ 24 + m) mod 2 ^ 23 = m) by dlia.
  assert (Hval : compact_value (e * 2 ^ 24 + m) = round_down v (Z.max 0 (e - 3))).
  { unfold compact_value. rewrite <-Hbm, Hce, Hbm, Hmod. unfold round_down.
    destruct (Z.leb_spec e 3).
    - rewrite Hscale, Z.div_mul by (apply Z.pow_nonzero; lia).
      rewrite Z.max_l, Z.pow_0_r, Z.mod_1_r by lia. lia.
    - rewrite Z.max_r, Hscale by lia.
      assert (D := Z.div_mod v (256 ^ (e - 3)) ltac:(apply Z.pow_nonzero; lia)). lia. }
  split.
  - rewrite hsk_pow_to_target_spec, Hval by (rewrite <-?Hbm, ?Hce; lia).
    rewrite (proj2 (Z.eqb_neq _ 0)) by lia. cbn [orb].
    assert (Hn : bits_negative (e * 2 ^ 24 + m) = false).
    { unfold bits_negative. rewrite Z.testbit_false by lia. dlia. }
    rewrite Hn. assert (Hle : round_down v (Z.max 0 (e - 3)) <= v).
    { unfold round_down. assert (Hp := Z.mod_pos_bound v (256 ^ Z.max 0 (e - 3)) ltac:(apply Z.pow_pos_nonneg; lia)). lia. }
    assert (Hv256 : v < 2 ^ 256).
    { assert (Hrng := be_combine_range t Ht). rewrite Hl in Hrng. apply Hrng. }
    by rewrite (proj2 (Z.ltb_lt _ _)) by lia.
  - intros Hk. rewrite Z.max_r in * by lia. rewrite (proj2 (Z.leb_gt e 3)) in Hscale by lia.
    assert (P : 0 < 256 ^ (e - 3)) by (apply Z.pow_pos_nonneg; lia).
    assert (D := Z.mul_div_le v (256 ^ (e - 3)) P). rewrite <-Hscale in D. nia.
Qed.

(** ** Work *)

(** The expected number of hashes for a target, as [hsk_header_get_proof] has it
    before it is stored in 32 bytes. *)
Definition target_proof (target : list Z) : Z := 2 ^ 256 / (be_combine target + 1).

Lemma hsk_header_get_proof_spec hdr :
  0 <= hd_bits hdr ->
  hsk_header_get_proof hdr =
  match hsk_pow_to_target (hd_bits hdr) with
  | None => Fail
  | Some t => Ret (be_split 32 (target_proof t))
  end.
Proof.
  intros Hb. unfold hsk_header_get_proof. destruct (hsk_pow_to_target _) as [t|] eqn:E; [|done].
  apply hsk_pow_to_target_bytes in E as [Hl Ht]; [|done].
  destruct (hsk_bn_from_int_spec 1) as [H1 H1v]; [lia|].
  destruct (hsk_bn_lshift_spec (hsk_bn_from_int 1) 256 H1) as [Hm Hmv]; [lia|].
  destruct (hsk_bn_from_array_spec t 8) as [Hw Hv]; [done|unfold HSK_BN_SIZE; lia|done|].
  destruct (hsk_bn_inc_spec (hsk_bn_from_array t)) as (Hil & Hiw & Hiv); [apply Hw|].
  assert (R := be_combine_range t Ht). rewrite Hl in R.
  rewrite (bn_mod_wf _ Hw), Hv, Z.mod_small in Hiv by lia.
  assert (Hi : bn_wf (hsk_bn_inc (hsk_bn_from_array t))) by (split; [destruct Hw; lia|done]).
  destruct (hsk_bn_div_spec _ _ Hm Hi) as (q & -> & Hq & Hqv); [lia|].
  cbn [obind]. change 32%nat with (4 * 8)%nat.
  rewrite (hsk_bn_to_array_spec q 8) by (done || unfold HSK_BN_SIZE; lia).
  rewrite Hqv, Hiv, Hmv, H1v. done.
Qed.

Lemma hsk_header_calc_work_spec hdr prev :
  0 <= hd_bits hdr -> bytes_n 32 (hd_work prev) ->
  hsk_header_calc_work hdr (Some prev) =
  match hsk_pow_to_target (hd_bits hdr) with
  | None => Fail
  | Some t => Ret (set_work hdr (be_split 32 (be_combine (hd_work prev) + target_proof t)))
  end.
Proof.
  intros Hb [Hl Hw]. unfold hsk_header_calc_work. rewrite hsk_header_get_proof_spec by done.
  destruct (hsk_pow_to_target _) as [t|] eqn:E; [|done]. cbn [obind]. do 2 f_equal.
  destruct (hsk_bn_from_array_spec (hd_work prev) 8) as [Hp Hpv];
    [done|unfold HSK_BN_SIZE; lia|done|].
  destruct (hsk_bn_from_array_spec (be_split 32 (target_proof t)) 8) as [Hq Hqv];
    [apply length_be_split|unfold HSK_BN_SIZE; lia|apply bytes_be_split|].
  change (hsk_bn_to_array ?x 32) with (hsk_bn_to_array x (4 * 8)).
  rewrite (hsk_bn_to_array_spec _ 8) by (try apply hsk_bn_add_wf; done || unfold HSK_BN_SIZE; lia).
  rewrite hsk_bn_add_val, Hpv, Hqv, be_combine_split by done.
  assert (R := be_combine_range _ Hw). rewrite Hl in R.
  apply be_combine_inj; [by rewrite !length_be_split|apply bytes_be_split..|].
  rewrite !be_combine_split. set (w := be_combine (hd_work prev)) in *. set (p := target_proof t).
  rewrite (Z.mod_small (w + _)).
  2: { assert (Q := Z.mod_pos_bound p (256 ^ Z.of_nat 32) ltac:(apply Z.pow_pos_nonneg; lia)).
       change (256 ^ Z.of_nat 32) with (2 ^ 256) in *. lia. }
  apply Z.add_mod_idemp_r. apply Z.pow_nonzero; lia.
Qed.

(** ** Header hashes *)

Lemma length_zip_xor a b n : bytes_n n a -> bytes_n n b -> bytes_n n (zip_with Z.lxor a b).
Proof.
  intros [Hla Ha] [Hlb Hb]. split; [rewrite length_zip_with; lia|]. clear Hla Hlb.
  revert b Hb. induction Ha as [|x a Hx Ha IH]; intros [|y b] Hb; try apply bytes_nil.
  apply bytes_cons_inv in Hb as [Hy Hb]. apply bytes_cons; [|by apply IH].
  assert (E : Z.lxor x y = Z.lxor x y mod 2 ^ 8).
  { apply Z.bits_inj'. intros i Hi. rewrite Z.testbit_mod_pow2, Z.lxor_spec by lia.
    destruct (Z.ltb_spec i 8); [done|].
    rewrite <-(Z.mod_small x (2 ^ 8)), <-(Z.mod_small y (2 ^ 8)) by lia.
    by rewrite !Z.mod_pow2_bits_high by lia. }
  rewrite E. apply Z.mod_pos_bound. lia.
Qed.

Lemma hsk_header_commit_hash_total hdr : exists h, hsk_header_commit_hash hdr = Ret h /\ bytes_n 32 h.
Proof.
  unfold hsk_header_commit_hash, hsk_header_sub_hash, hsk_header_mask_hash, hsk_hash_blake256.
  destruct (blake2b_assert_total 32 [hsk_header_sub_encode hdr]) as (h1 & -> & _); [lia|].
  destruct (blake2b_assert_total 32 [hd_prev_block hdr; hd_mask hdr]) as (h2 & -> & _); [lia|].
  cbn [obind]. destruct (blake2b_assert_total 32 [h1; h2]) as (h & -> & Hh); [lia|]. by exists h.
Qed.

(** The hash of a header whose cache is empty, as a function of the fields. *)
Lemma hsk_header_cache_total al hdr :
  hd_cache hdr = false -> bytes_n 32 (hd_mask hdr) ->
  exists h, hsk_header_cache_al al hdr = Ret (h, set_hash hdr h) /\ bytes_n 32 h.
Proof.
  intros Hc Hm. unfold hsk_header_cache_al. rewrite Hc.
  unfold hsk_header_pre_size, hsk_header_pre_encode, hsk_header_pre_write.
  destruct (hsk_header_commit_hash_total hdr) as (ch & -> & _). cbn [obind].
  destruct (pre_writer hdr (hsk_header_padding hdr 20) ch None) as [size o1].
  destruct (pre_writer hdr (hsk_header_padding hdr 20) ch (Some [])) as [s o2]. cbn [obind].
  unfold hsk_hash_blake512.
  destruct (blake2b_assert_total 64 [take (Z.to_nat size) (default [] o2)]) as (l & -> & _); [lia|].
  cbn [obind].
  destruct (sha3_assert_total [(al.1, take (Z.to_nat size) (default [] o2)); (al.2, hsk_header_padding hdr 8)])
    as (r & -> & _). cbn [obind].
  destruct (blake2b_assert_total 32 [l; hsk_header_padding hdr 32; r]) as (h & -> & Hh); [lia|].
  cbn [obind]. eexists. split; [reflexivity|]. by apply length_zip_xor.
Qed.

(** The alignment of the stack buffers does not matter. *)
Lemma hsk_header_cache_aligned al hdr : hsk_header_cache_al al hdr = hsk_header_cache hdr.
Proof.
  unfold hsk_header_cache, hsk_header_cache_al. destruct (hd_cache hdr); [done|].
  destruct (hsk_header_pre_size hdr) as [size| |]; [|done..].
  destruct (hsk_header_pre_encode hdr) as [pre| |]; [|done..]. cbn [obind].
  destruct (hsk_hash_blake512 _) as [l| |]; [|done..]. cbn [obind].
  rewrite (sha3_assert_concat _ [(true, take (Z.to_nat size) pre); (true, hsk_header_padding hdr 8)])
    by done. done.
Qed.

(** Only the fields of the wire format matter. *)
Lemma hsk_header_cache_overlay hdr hdr' h :
  hd_cache hdr = false -> hd_cache hdr' = false ->
  overlay hdr' hdr = hdr' -> hsk_header_cache hdr = Ret (h, set_hash hdr h) ->
  hsk_header_cache hdr' = Ret (h, set_hash hdr' h).
Proof.
  intros Hc Hc' Ho. destruct hdr' as [n t pb nr en rr wr mr v b m c hh ht wk].
  unfold overlay in Ho. cbn [hd_cache] in *. injection Ho as <- <- <- <- <- <- <- <- <- <- <-.
  subst c. unfold hsk_header_cache, hsk_header_cache_al. cbn [hd_cache]. rewrite Hc.
  set (hdr' := mk_header _ _ _ _ _ _ _ _ _ _ _ _ _ _ _).
  change (hsk_header_pre_size hdr') with (hsk_header_pre_size hdr).
  change (hsk_header_pre_encode hdr') with (hsk_header_pre_encode hdr).
  change (hsk_header_padding hdr' 8) with (hsk_header_padding hdr 8).
  change (hsk_header_padding hdr' 32) with (hsk_header_padding hdr 32).
  change (hd_mask hdr') with (hd_mask hdr).
  destruct (hsk_header_pre_size hdr) as [size| |]; [|done..].
  destruct (hsk_header_pre_encode hdr) as [pre| |]; [|done..]. cbn [obind].
  destruct (hsk_hash_blake512 _) as [l| |]; [|done..]. cbn [obind].
  destruct (sha3_assert _) as [r| |]; [|done..]. cbn [obind].
  destruct (blake2b_assert _ _) as [x| |]; [|done..]. cbn [obind].
  intros [= <- _]. reflexivity.
Qed.

Lemma take_digest h : bytes_n 32 h -> take 32 h = h.
Proof. intros [Hl _]. apply take_ge. lia. Qed.

(** Compact targets. For exponents below 35, [hsk_pow_to_target] is defined
    exactly on nonzero, non-negative numbers below [2 ^ 256] and returns their 32
    bytes. From 35 on the code masks the shift with 31 instead of reporting an
    overflow, so that the number is read as one with an exponent smaller by 32. *)
Theorem pow_to_target_correct bits : 0 <= bits < 2 ^ 32 ->
  (compact_exponent bits < 35 ->
   hsk_pow_to_target bits =
   if (bits =? 0) || bits_negative bits then None
   else if compact_value bits <? 2 ^ 256 then Some (be_split 32 (compact_value bits)) else None) /\
  (35 <= compact_exponent bits ->
   hsk_pow_to_target bits = hsk_pow_to_target (bits - 2 ^ 29)).
Proof.
  intros Hb. split; intros He; [by apply hsk_pow_to_target_spec|by apply hsk_pow_to_target_alias].
Qed.
Lemma pow_to_target_correct_witness :
  hsk_pow_to_target 0x1c00ffff = Some (be_split 32 (0xffff * 256 ^ 25)) /\
  hsk_pow_to_target 0x23000001 = hsk_pow_to_target 0x03000001.
Proof.
  split.
  - apply (pow_to_target_correct 0x1c00ffff); [lia|reflexivity].
  - apply (pow_to_target_correct 0x23000001); [lia|discriminate].
Defined.

(** A target survives the compact form up to its precision. The compact form
    of a positive target is accepted by [hsk_pow_to_target] and yields the target
    with its low [k] bytes cleared, where at least 15 significant bits are kept. *)
Theorem pow_bits_roundtrip t : bytes_n 32 t -> 0 < be_combine t ->
  let bits := hsk_pow_to_bits t in
  let k := Z.max 0 (compact_exponent bits - 3) in
  0 <= bits < 2 ^ 32 /\
  hsk_pow_to_target bits = Some (be_split 32 (round_down (be_combine t) k)) /\
  (0 < k -> 2 ^ 15 * 256 ^ k <= be_combine t).
Proof.
  intros Ht Hpos. destruct (hsk_pow_to_bits_roundtrip t Ht Hpos) as (H1 & _ & H2 & H3).
  exact (conj H1 (conj H2 H3)).
Qed.
Lemma pow_bits_roundtrip_witness :
  hsk_pow_to_target (hsk_pow_to_bits (be_split 32 (0x80ffff12 * 256 ^ 20))) =
  Some (be_split 32 (0x80ff * 256 ^ 22)).
Proof.
  refine (proj1 (proj2 (pow_bits_roundtrip (be_split 32 (0x80ffff12 * 256 ^ 20)) _ _))).
  - split; [reflexivity|apply bytes_be_split].
  - reflexivity.
Defined.

(** Work. The proof of a header is [2 ^ 256 / (target + 1)] in 32 bytes and
    its accumulated work the sum with that of its parent modulo [2 ^ 256]; both
    fail exactly when the target is not acceptable, and the division always
    terminates. *)
Theorem header_work_correct hdr prev :
  hdr_wf hdr -> bytes_n 32 (hd_work prev) ->
  match hsk_pow_to_target (hd_bits hdr) with
  | None => hsk_header_get_proof hdr = Fail /\ hsk_header_calc_work hdr (Some prev) = Fail
  | Some t =>
      hsk_header_get_proof hdr = Ret (be_split 32 (2 ^ 256 / (be_combine t + 1))) /\
      exists hdr', hsk_header_calc_work hdr (Some prev) = Ret hdr' /\
        be_combine (hd_work hdr') =
          (be_combine (hd_work prev) + 2 ^ 256 / (be_combine t + 1)) mod 2 ^ 256
  end.
Proof.
  intros Hw Hp. assert (Hb : 0 <= hd_bits hdr) by apply Hw.
  rewrite hsk_header_get_proof_spec, hsk_header_calc_work_spec by done.
  destruct (hsk_pow_to_target _) as [t|]; [|done]. split; [done|].
  eexists. split; [reflexivity|]. cbn [set_work hd_work]. by rewrite be_combine_split.
Qed.
Lemma header_work_correct_witness :
  hsk_header_calc_work hsk_header_init (Some hsk_header_init) = Fail.
Proof.
  refine (proj2 (header_work_correct hsk_header_init hsk_header_init _ _));
    apply (bool_decide_eq_true _); vm_compute; reflexivity.
Defined.

(** The header hash. It is computed without a failing assert for every
    header, has 32 bytes, does not depend on the alignment of stack buffers, only
    depends on the fields of the wire format, and asking again for it returns the
    cached value and changes nothing. *)
Theorem header_hash_correct al hdr :
  hdr_wf hdr -> hd_cache hdr = false ->
  exists h, bytes_n 32 h /\
    hsk_header_cache_al al hdr = Ret (h, set_hash hdr h) /\
    hsk_header_hash hdr = Ret (h, set_hash hdr h) /\
    hsk_header_hash (set_hash hdr h) = Ret (h, set_hash hdr h) /\
    forall hdr', overlay hdr' hdr = hdr' -> hd_cache hdr' = false ->
      hsk_header_hash hdr' = Ret (h, set_hash hdr' h).
Proof.
  intros Hw Hc. destruct (hsk_header_cache_total al hdr Hc) as (h & Hh & Hb); [apply Hw|].
  exists h. split; [done|]. split; [done|]. rewrite hsk_header_cache_aligned in Hh.
  unfold hsk_header_hash. rewrite Hh. cbn [obind].
  split; [by rewrite take_digest|]. split.
  { unfold hsk_header_cache, hsk_header_cache_al. cbn [set_hash hd_cache obind hd_hash].
    by rewrite take_digest. }
  intros hdr' Ho Hc'. rewrite (hsk_header_cache_overlay hdr hdr' h) by done.
  cbn [obind]. by rewrite take_digest.
Qed.
Lemma header_hash_correct_witness :
  exists h, bytes_n 32 h /\ hsk_header_hash hsk_header_init = Ret (h, set_hash hsk_header_init h).
Proof.
  destruct (header_hash_correct (true, true) hsk_header_init) as (h & H1 & _ & H2 & _).
  - apply (bool_decide_eq_true _). vm_compute. reflexivity.
  - reflexivity.
  - exists h. split; assumption.
Defined.

(** Proof of work. [hsk_header_verify_pow] succeeds exactly when the target
    is acceptable and the header hash, read as a big-endian number, does not
    exceed it; an unacceptable target is [HSK_ENEGTARGET], a hash above it
    [HSK_EHIGHHASH]. *)
Theorem verify_pow_correct hdr h :
  hdr_wf hdr -> hsk_header_hash hdr = Ret (h, set_hash hdr h) -> bytes_n 32 h ->
  exists code hdr', hsk_header_verify_pow hdr = Ret (code, hdr') /\
    match hsk_pow_to_target (hd_bits hdr) with
    | None => code = HSK_ENEGTARGET
    | Some t => if be_combine h <=? be_combine t then code = HSK_SUCCESS else code = HSK_EHIGHHASH
    end.
Proof.
  intros Hw Hh [Hl Hb]. unfold hsk_header_verify_pow.
  destruct (hsk_pow_to_target (hd_bits hdr)) as [t|] eqn:E; [|by eexists _, _].
  apply hsk_pow_to_target_bytes in E as [Hlt Ht]; [|apply Hw].
  rewrite Hh. cbn [obind]. rewrite memcmp_be by (done || lia).
  destruct (Z.compare_spec (be_combine h) (be_combine t)); do 2 eexists; (split; [reflexivity|]);
    destruct (Z.leb_spec (be_combine h) (be_combine t)); done || lia.
Qed.
Lemma verify_pow_correct_witness :
  exists code hdr', hsk_header_verify_pow (set_hash hsk_header_init zero32) = Ret (code, hdr') /\
    code = HSK_ENEGTARGET.
Proof.
  apply (verify_pow_correct (set_hash hsk_header_init zero32) zero32).
  - apply (bool_decide_eq_true _). vm_compute. reflexivity.
  - reflexivity.
  - apply (bool_decide_eq_true _). vm_compute. reflexivity.
Defined.
