(* ===== verification/Base32.v ===== *)
(** Base 32: [src/reference/hnsd-reference/src/base32.c].

    Strings are lists of character codes without the terminating NUL. The
    [out == NULL] calls, which only count, are the lengths of the results. The
    [char] type is taken to be signed, as the test [v == -1] needs it. *)

From S2P Require Import Prelude Bio.

Definition CHARSET : list Z :=
  [97; 98; 99; 100; 101; 102; 103; 104; 105; 106; 107; 108; 109; 110; 111; 112; 113; 114; 115;
   116; 117; 118; 119; 120; 121; 122; 50; 51; 52; 53; 54; 55].
Definition CHARSET_HEX : list Z :=
  [48; 49; 50; 51; 52; 53; 54; 55; 56; 57; 97; 98; 99; 100; 101; 102; 103; 104; 105; 106; 107;
   108; 109; 110; 111; 112; 113; 114; 115; 116; 117; 118].

Definition TABLE : list Z :=
  [-1; -1; -1; -1; -1; -1; -1; -1; -1; -1; -1; -1; -1; -1; -1; -1;
   -1; -1; -1; -1; -1; -1; -1; -1; -1; -1; -1; -1; -1; -1; -1; -1;
   -1; -1; -1; -1; -1; -1; -1; -1; -1; -1; -1; -1; -1; -1; -1; -1;
   -1; -1; 26; 27; 28; 29; 30; 31; -1; -1; -1; -1; -1; -1; -1; -1;
   -1;  0;  1;  2;  3;  4;  5;  6;  7;  8;  9; 10; 11; 12; 13; 14;
   15; 16; 17; 18; 19; 20; 21; 22; 23; 24; 25; -1; -1; -1; -1; -1;
   -1;  0;  1;  2;  3;  4;  5;  6;  7;  8;  9; 10; 11; 12; 13; 14;
   15; 16; 17; 18; 19; 20; 21; 22; 23; 24; 25; -1; -1; -1; -1; -1].
Definition TABLE_HEX : list Z :=
  [-1; -1; -1; -1; -1; -1; -1; -1; -1; -1; -1; -1; -1; -1; -1; -1;
   -1; -1; -1; -1; -1; -1; -1; -1; -1; -1; -1; -1; -1; -1; -1; -1;
   -1; -1; -1; -1; -1; -1; -1; -1; -1; -1; -1; -1; -1; -1; -1; -1;
    0;  1;  2;  3;  4;  5;  6;  7;  8;  9; -1; -1; -1; -1; -1; -1;
   -1; 10; 11; 12; 13; 14; 15; 16; 17; 18; 19; 20; 21; 22; 23; 24;
   25; 26; 27; 28; 29; 30; 31; -1; -1; -1; -1; -1; -1; -1; -1; -1;
   -1; 10; 11; 12; 13; 14; 15; 16; 17; 18; 19; 20; 21; 22; 23; 24;
   25; 26; 27; 28; 29; 30; 31; -1; -1; -1; -1; -1; -1; -1; -1; -1].

Definition PADDING : list nat := [0; 6; 4; 3; 1]%nat.

(** * Encoding *)

Definition char_at (charset : list Z) (v : Z) : Z := nth (Z.to_nat v) charset 0.

(** The [switch] for one byte: the characters written, [left] and [mode]. *)
Definition encode_step (charset : list Z) (mode : nat) (left_ ch : Z) : list Z * Z * nat :=
  match mode with
  | 0%nat => ([char_at charset (Z.shiftr ch 3)], Z.shiftl (Z.land ch 7) 2, 1%nat)
  | 1%nat => ([char_at charset (Z.lor left_ (Z.shiftr ch 6));
               char_at charset (Z.land (Z.shiftr ch 1) 31)], Z.shiftl (Z.land ch 1) 4, 2%nat)
  | 2%nat => ([char_at charset (Z.lor left_ (Z.shiftr ch 4))], Z.shiftl (Z.land ch 15) 1, 3%nat)
  | 3%nat => ([char_at charset (Z.lor left_ (Z.shiftr ch 7));
               char_at charset (Z.land (Z.shiftr ch 2) 31)], Z.shiftl (Z.land ch 3) 3, 4%nat)
  | _ => ([char_at charset (Z.lor left_ (Z.shiftr ch 5));
           char_at charset (Z.land ch 31)], left_, 0%nat)
  end.

Fixpoint encode_loop (charset : list Z) (mode : nat) (left_ : Z) (data : list Z) (pad : bool) :
    list Z :=
  match data with
  | [] =>
      if (0 <? mode)%nat then
        [char_at charset left_] ++ (if pad then replicate (nth mode PADDING 0%nat) 61 else [])
      else []
  | ch :: data' =>
      let '(out, left_, mode) := encode_step charset mode left_ ch in
      out ++ encode_loop charset mode left_ data' pad
  end.

Definition hsk_base32_encode2 (charset data : list Z) (pad : bool) : list Z :=
  encode_loop charset 0 0 data pad.

(** * Decoding *)

Definition table_at (table : list Z) (c : Z) : Z :=
  let ch := u8 c in
  if negb (Z.land ch 0x80 =? 0) then -1 else nth (Z.to_nat ch) table (-1).

(** The [switch] for one character: the bytes written, [left] and [mode]. *)
Definition decode_step (mode : nat) (left_ v : Z) : list Z * Z * nat :=
  match mode with
  | 0%nat => ([], v, 1%nat)
  | 1%nat => ([u8 (Z.lor (Z.shiftl left_ 3) (Z.shiftr v 2))], Z.land v 3, 2%nat)
  | 2%nat => ([], Z.lor (Z.shiftl left_ 5) v, 3%nat)
  | 3%nat => ([u8 (Z.lor (Z.shiftl left_ 1) (Z.shiftr v 4))], Z.land v 15, 4%nat)
  | 4%nat => ([u8 (Z.lor (Z.shiftl left_ 4) (Z.shiftr v 1))], Z.land v 1, 5%nat)
  | 5%nat => ([], Z.lor (Z.shiftl left_ 5) v, 6%nat)
  | 6%nat => ([u8 (Z.lor (Z.shiftl left_ 2) (Z.shiftr v 3))], Z.land v 7, 7%nat)
  | _ => ([u8 (Z.lor (Z.shiftl left_ 5) v)], left_, 0%nat)
  end.

(** [None] is the [-1] return inside the loop; otherwise the output, the final
    [mode] and [left_], and the string from [str + i] on. *)
Fixpoint decode_loop (table : list Z) (unpad : bool) (mode : nat) (left_ : Z) (str : list Z) :
    option (list Z * nat * Z * list Z) :=
  match str with
  | [] => Some ([], mode, left_, [])
  | c :: str' =>
      let v := table_at table c in
      if v =? -1 then
        if unpad && (0 <? mode)%nat then Some ([], mode, left_, str) else None
      else
        let '(out, left_, mode) := decode_step mode left_ v in
        match decode_loop table unpad mode left_ str' with
        | None => None
        | Some (out', mode, left_, rest) => Some (out ++ out', mode, left_, rest)
        end
  end.

(** The checks that the right number of pad characters follows. *)
Definition check_padding (mode : nat) (left_ : Z) (rest : list Z) : bool :=
  let padded n := negb (0 <? left_) && (length rest =? n)%nat && memeq (take n rest) (replicate n 61) in
  match mode with
  | 0%nat => true
  | 1%nat | 3%nat | 6%nat => false
  | 2%nat => padded 6%nat
  | 4%nat => padded 4%nat
  | 5%nat => padded 3%nat
  | _ => padded 1%nat
  end.

(** [None] is the [-1] return. *)
Definition hsk_base32_decode2 (table str : list Z) (unpad : bool) : option (list Z) :=
  match decode_loop table unpad 0 0 str with
  | None => None
  | Some (out, mode, left_, rest) =>
      if unpad then if check_padding mode left_ rest then Some out else None
      else Some out
  end.

(** * The functions of the interface *)

Definition hsk_base32_encode (data : list Z) (pad : bool) : list Z :=
  hsk_base32_encode2 CHARSET data pad.
Definition hsk_base32_encode_hex (data : list Z) (pad : bool) : list Z :=
  hsk_base32_encode2 CHARSET_HEX data pad.
(** The size includes the terminating NUL. *)
Definition hsk_base32_encode_size (data : list Z) (pad : bool) : Z :=
  Z.of_nat (length (hsk_base32_encode2 CHARSET data pad)) + 1.
Definition hsk_base32_encode_hex_size (data : list Z) (pad : bool) : Z :=
  Z.of_nat (length (hsk_base32_encode2 CHARSET_HEX data pad)) + 1.
Definition hsk_base32_decode (str : list Z) (unpad : bool) : option (list Z) :=
  hsk_base32_decode2 TABLE str unpad.
Definition hsk_base32_decode_hex (str : list Z) (unpad : bool) : option (list Z) :=
  hsk_base32_decode2 TABLE_HEX str unpad.
Definition hsk_base32_decode_size (str : list Z) : Z :=
  match hsk_base32_decode2 TABLE str false with
  | None => Z.of_nat (length str) * 5 / 8
  | Some out => Z.of_nat (length out)
  end.
Definition hsk_base32_decode_hex_size (str : list Z) : Z :=
  match hsk_base32_decode2 TABLE_HEX str false with
  | None => Z.of_nat (length str) * 5 / 8
  | Some out => Z.of_nat (length out)
  end.
Definition hsk_base32_test (str : list Z) (unpad : bool) : bool :=
  match hsk_base32_decode str unpad with None => false | Some _ => true end.
Definition hsk_base32_test_hex (str : list Z) (unpad : bool) : bool :=
  match hsk_base32_decode_hex str unpad with None => false | Some _ => true end.

(** RFC 4648: "foob" is encoded as "mzxw6yq=". *)
Example base32_foob :
  hsk_base32_encode [102; 111; 111; 98] true = [109; 122; 120; 119; 54; 121; 113; 61].
Proof. vm_compute. reflexivity. Qed.

(** * The decoder follows the encoder *)

(** After a byte [p] in encoder mode [m], the decoder has not yet produced [p]:
    it is in mode [dmode m] and holds the high bits [p >> pending m] of it. *)
Definition dmode (m : nat) : nat := nth m [0; 1; 3; 4; 6]%nat 0%nat.
Definition pending (m : nat) : Z := nth m [0; 3; 1; 4; 2] 0.
Definition enc_left (m : nat) (p : Z) : Z :=
  match m with
  | 1%nat => Z.shiftl (Z.land p 7) 2
  | 2%nat => Z.shiftl (Z.land p 1) 4
  | 3%nat => Z.shiftl (Z.land p 15) 1
  | 4%nat => Z.shiftl (Z.land p 3) 3
  | _ => 0
  end.

Lemma land_mask k x m : 0 <= k -> m = 2 ^ k - 1 -> Z.land x m = x mod 2 ^ k.
Proof. intros Hk ->. by apply land_ones_mod. Qed.

(** Shifts, masks and disjoint disjunctions as arithmetic. *)
Ltac b32_arith :=
  rewrite ?Z.shiftl_mul_pow2, ?Z.shiftr_div_pow2 by lia;
  rewrite ?(land_mask 1 _ 1), ?(land_mask 2 _ 3), ?(land_mask 3 _ 7), ?(land_mask 4 _ 15),
    ?(land_mask 5 _ 31) by lia;
  repeat match goal with
  | |- context [Z.lor ?x ?y] =>
      first [ rewrite (lor_disjoint 1 x y) by dlia | rewrite (lor_disjoint 2 x y) by dlia
            | rewrite (lor_disjoint 3 x y) by dlia | rewrite (lor_disjoint 4 x y) by dlia
            | rewrite (lor_disjoint 5 x y) by dlia ]
  end.

Section roundtrip.
Variables (charset table : list Z).
Hypothesis table_charset : forall v, 0 <= v < 32 -> table_at table (char_at charset v) = v.
Hypothesis table_pad : table_at table 61 = -1.

(** The decoder's answer, prefixed with some output. *)
Definition prefixed (out : list Z) (r : option (list Z * nat * Z * list Z)) :=
  match r with
  | None => None
  | Some (out', mode, left_, rest) => Some (out ++ out', mode, left_, rest)
  end.
Lemma prefixed_nil r : prefixed [] r = r.
Proof. by destruct r as [[[[? ?] ?] ?]|]. Qed.
Lemma prefixed_app a b r : prefixed a (prefixed b r) = prefixed (a ++ b) r.
Proof. destruct r as [[[[? ?] ?] ?]|]; [|done]. cbn [prefixed]. by rewrite (assoc_L (++)). Qed.

(** Decoding a character whose value is known. *)
Lemma decode_char unpad mode left_ v str : 0 <= v < 32 ->
  decode_loop table unpad mode left_ (char_at charset v :: str) =
  let '(out, left_, mode) := decode_step mode left_ v in
  prefixed out (decode_loop table unpad mode left_ str).
Proof.
  intros Hv. cbn [decode_loop]. rewrite table_charset by done.
  by rewrite (proj2 (Z.eqb_neq v (-1))) by lia.
Qed.
Lemma decode_loop_eq unpad mode l l' rest :
  l = l' -> decode_loop table unpad mode l rest = decode_loop table unpad mode l' rest.
Proof. by intros ->. Qed.
Lemma prefixed_eq out out' r r' : out = out' -> r = r' -> prefixed out r = prefixed out' r'.
Proof. by intros -> ->. Qed.

Ltac decode_chars :=
  cbn [app]; b32_arith;
  repeat (rewrite decode_char by dlia; cbn [decode_step]; b32_arith);
  rewrite ?prefixed_app, ?prefixed_nil; cbn [app]; unfold u8;
  apply prefixed_eq; [repeat (apply f_equal2; [dlia|]); done|apply decode_loop_eq; dlia].

Lemma decode_encode_step unpad m p ch rest :
  (1 <= m <= 4)%nat -> 0 <= p < 256 -> 0 <= ch < 256 ->
  let '(out, left_, m') := encode_step charset m (enc_left m p) ch in
  (m' = 0%nat \/ left_ = enc_left m' ch) /\ (m' <= 4)%nat /\
  decode_loop table unpad (dmode m) (Z.shiftr p (pending m)) (out ++ rest) =
  if (m' =? 0)%nat then prefixed [p; ch] (decode_loop table unpad 0 (Z.shiftr ch 5) rest)
  else prefixed [p] (decode_loop table unpad (dmode m') (Z.shiftr ch (pending m')) rest).
Proof.
  intros Hm Hp Hc.
  destruct m as [|[|[|[|[|]]]]]; try lia; cbn [encode_step enc_left dmode pending nth Nat.eqb];
    (split; [auto|]); (split; [lia|]); decode_chars.
Qed.

(** The first byte of a group of five. *)
Lemma decode_encode_first unpad l ch rest : 0 <= ch < 256 ->
  decode_loop table unpad 0 l ((encode_step charset 0 0 ch).1.1 ++ rest) =
  decode_loop table unpad 1 (Z.shiftr ch 3) rest.
Proof.
  intros Hc. cbn [encode_step fst app]. b32_arith. rewrite decode_char by dlia.
  cbn [decode_step]. by rewrite prefixed_nil.
Qed.

(** The character that carries the last bits. *)
Lemma decode_encode_last unpad m p rest : (1 <= m <= 4)%nat -> 0 <= p < 256 ->
  decode_loop table unpad (dmode m) (Z.shiftr p (pending m))
    (char_at charset (enc_left m p) :: rest) =
  prefixed [p] (decode_loop table unpad (nth m [0; 2; 4; 5; 7]%nat 0%nat) 0 rest).
Proof.
  intros Hm Hp. destruct m as [|[|[|[|[|]]]]]; try lia; cbn [enc_left dmode pending nth]; decode_chars.
Qed.

Lemma decode_pads mode rest :
  (0 < mode)%nat ->
  decode_loop table true mode 0 (replicate (S rest) 61) = Some ([], mode, 0, replicate (S rest) 61).
Proof.
  intros Hm. cbn [replicate decode_loop]. rewrite table_pad. cbn [Z.eqb Pos.eqb].
  by rewrite (proj2 (Nat.ltb_lt 0 mode)).
Qed.

(** The decoder on the rest of an encoding. *)
Definition decoded (pad : bool) (out : list Z) (r : option (list Z * nat * Z * list Z)) : Prop :=
  exists mode left_ rest, r = Some (out, mode, left_, rest) /\
    (pad = true -> check_padding mode left_ rest = true).
Lemma decoded_prefixed pad out out' r : decoded pad out' r -> decoded pad (out ++ out') (prefixed out r).
Proof. intros (mode & l & rest & -> & H). by exists mode, l, rest. Qed.

Lemma decode_encode_loop pad data : bytes data ->
  (forall l e, decoded pad data (decode_loop table pad 0 l (encode_loop charset 0 e data pad))) /\
  (forall m p, (1 <= m <= 4)%nat -> 0 <= p < 256 ->
     decoded pad (p :: data) (decode_loop table pad (dmode m) (Z.shiftr p (pending m))
       (encode_loop charset m (enc_left m p) data pad))).
Proof.
  induction 1 as [|ch data Hc Hd [IH0 IHm]]; split.
  - intros l e. by exists 0%nat, l, [].
  - intros m p Hm Hp. cbn [encode_loop]. rewrite (proj2 (Nat.ltb_lt 0 m)) by lia.
    cbn [app]. rewrite decode_encode_last by done.
    apply (decoded_prefixed pad [p] []). destruct pad.
    + destruct m as [|[|[|[|[|]]]]]; try lia; cbn [nth PADDING];
        (rewrite decode_pads by lia); do 3 eexists; (split; [reflexivity|done]).
    + do 3 eexists. by split.
  - intros l e. change (decoded pad (ch :: data) (decode_loop table pad 0 l
      ((encode_step charset 0 0 ch).1.1 ++ encode_loop charset 1 (enc_left 1 ch) data pad))).
    rewrite decode_encode_first by done.
    apply (IHm 1%nat ch); [lia|done].
  - intros m p Hm Hp. cbn [encode_loop].
    destruct (encode_step charset m (enc_left m p) ch) as [[out l] m'] eqn:E.
    assert (H := decode_encode_step pad m p ch (encode_loop charset m' l data pad) Hm Hp Hc).
    rewrite E in H. destruct H as (Hl & Hm' & ->). destruct (Nat.eqb_spec m' 0) as [->|Hm0].
    + apply (decoded_prefixed pad [p; ch]), IH0.
    + destruct Hl as [?| ->]; [lia|]. apply (decoded_prefixed pad [p]), IHm; [lia|done].
Qed.

Lemma decode_encode2 data pad : bytes data ->
  hsk_base32_decode2 table (hsk_base32_encode2 charset data pad) pad = Some data.
Proof.
  intros Hd. unfold hsk_base32_decode2, hsk_base32_encode2.
  destruct (decode_encode_loop pad data Hd) as [H0 _].
  destruct (H0 0 0) as (mode & l & rest & -> & Hc). destruct pad; [by rewrite Hc|done].
Qed.
End roundtrip.

(** The two alphabets. *)
Lemma table_inverse charset table :
  forallb (fun v => table_at table (char_at charset v) =? v) (map Z.of_nat (seq 0 32)) = true ->
  forall v, 0 <= v < 32 -> table_at table (char_at charset v) = v.
Proof.
  intros H v Hv. apply Z.eqb_eq. rewrite forallb_forall in H. apply H.
  apply in_map_iff. exists (Z.to_nat v). split; [lia|]. apply in_seq. lia.
Qed.
Lemma CHARSET_inverse v : 0 <= v < 32 -> table_at TABLE (char_at CHARSET v) = v.
Proof. by apply table_inverse. Qed.
Lemma CHARSET_HEX_inverse v : 0 <= v < 32 -> table_at TABLE_HEX (char_at CHARSET_HEX v) = v.
Proof. by apply table_inverse. Qed.

(** The number of characters without padding. *)
Lemma length_encode_loop charset data : forall m left_, (m <= 4)%nat ->
  Z.of_nat (length (encode_loop charset m left_ data false)) =
  (8 * Z.of_nat (length data) + pending m + 4) / 5.
Proof.
  induction data as [|ch data IH]; intros m left_ Hm;
    destruct m as [|[|[|[|[|]]]]]; try lia; cbn [encode_loop encode_step Nat.ltb Nat.leb];
    rewrite ?length_app, ?Nat2Z.inj_add, ?IH by lia; cbn [length app pending nth]; dlia.
Qed.

(** Base 32 round trip. For both alphabets, what the encoder writes with
    padding the strict decoder reads back, and what it writes without padding the
    lenient decoder reads back; without padding [n] bytes take
    [ceil (8 n / 5)] characters and the size reports one more, for the NUL. *)
Theorem base32_roundtrip data pad : bytes data ->
  hsk_base32_decode (hsk_base32_encode data pad) pad = Some data /\
  hsk_base32_decode_hex (hsk_base32_encode_hex data pad) pad = Some data /\
  hsk_base32_test (hsk_base32_encode data pad) pad = true /\
  hsk_base32_decode_size (hsk_base32_encode data false) = Z.of_nat (length data) /\
  hsk_base32_encode_size data false = (8 * Z.of_nat (length data) + 4) / 5 + 1.
Proof.
  intros Hd.
  assert (H : forall pad, hsk_base32_decode (hsk_base32_encode data pad) pad = Some data).
  { intros p. by apply decode_encode2; [apply CHARSET_inverse|..]. }
  split; [apply H|]. split; [by apply decode_encode2; [apply CHARSET_HEX_inverse|..]|].
  split; [by unfold hsk_base32_test; rewrite H|]. split.
  - unfold hsk_base32_decode_size. fold (hsk_base32_decode (hsk_base32_encode data false) false).
    by rewrite H.
  - unfold hsk_base32_encode_size, hsk_base32_encode2. rewrite length_encode_loop by lia.
    cbn [pending nth]. by rewrite Z.add_0_r.
Qed.
Lemma base32_roundtrip_witness :
  hsk_base32_decode (hsk_base32_encode [0; 255; 7] true) true = Some [0; 255; 7].
Proof.
  apply (base32_roundtrip [0; 255; 7] true). apply (bool_decide_eq_true _). reflexivity.
Defined.
