(* ===== verification/Addr.v ===== *)
(** Network addresses: [src/reference/hnsd-reference/src/addr.c] and [addr.h].

    An address is the C struct: a type byte, 36 bytes of which the first 16 are an
    IPv6 address (or a mapped IPv4 one), a port and an identity key. The text
    conversions call libuv's [uv_inet_pton] and [uv_inet_ntop], which are
    parameters. A [sockaddr] keeps its port in network byte order. *)

From S2P Require Import Prelude Bio Base32.

(** * Data *)

Record hsk_addr_t := mk_addr {
  ad_type : Z;
  ad_ip : list Z;
  ad_port : Z;
  ad_key : list Z;
}.
Record hsk_netaddr_t := mk_netaddr {
  na_time : Z;
  na_services : Z;
  na_addr : hsk_addr_t;
}.

#[export] Instance hsk_addr_eq_dec : EqDecision hsk_addr_t.
Proof. solve_decision. Defined.
#[export] Instance hsk_netaddr_eq_dec : EqDecision hsk_netaddr_t.
Proof. solve_decision. Defined.

Definition hsk_ip4_mapped : list Z := [0; 0; 0; 0; 0; 0; 0; 0; 0; 0; 0xff; 0xff].
Definition hsk_local_ip : list Z := [0; 0; 0; 0; 0; 0; 0; 0; 0; 0; 0; 0; 0; 0; 0; 1].
Definition hsk_zero_ip : list Z := replicate 16 0.
Definition hsk_rfc6052 : list Z := [0; 0x64; 0xff; 0x9b; 0; 0; 0; 0; 0; 0; 0; 0].
Definition hsk_rfc4862 : list Z := [0xfe; 0x80; 0; 0; 0; 0; 0; 0].
Definition hsk_rfc6145 : list Z := [0; 0; 0; 0; 0; 0; 0; 0; 0xff; 0xff; 0; 0].
Definition hsk_shifted : list Z := [0; 0; 0; 0; 0; 0; 0; 0xff; 0xff].
Definition hsk_tor_onion : list Z := [0xfd; 0x87; 0xd8; 0x7e; 0xeb; 0x43].
Definition hsk_zero_pub : list Z := replicate 33 0.

Definition AF_INET : Z := 2.
Definition AF_INET6 : Z := 10.

(** * Construction and access *)

Definition hsk_addr_init : hsk_addr_t := mk_addr 0 (replicate 36 0) 0 (replicate 33 0).

(** [None] is the null pointer of a failed allocation. *)
Definition hsk_addr_alloc (malloc_ok : bool) : option hsk_addr_t :=
  if malloc_ok then Some hsk_addr_init else None.
Definition hsk_addr_copy (other : hsk_addr_t) : hsk_addr_t := other.
Definition hsk_addr_clone (malloc_ok : bool) (other : hsk_addr_t) : option hsk_addr_t :=
  match hsk_addr_alloc malloc_ok with
  | None => None
  | Some _ => Some (hsk_addr_copy other)
  end.

Definition starts_with (l prefix : list Z) : bool := memeq (take (length prefix) l) prefix.

Definition hsk_addr_is_mapped (addr : hsk_addr_t) : bool := starts_with (ad_ip addr) hsk_ip4_mapped.
Definition hsk_addr_is_ip4 (addr : hsk_addr_t) : bool := hsk_addr_is_mapped addr.
Definition hsk_addr_is_onion (addr : hsk_addr_t) : bool := starts_with (ad_ip addr) hsk_tor_onion.
Definition hsk_addr_is_ip6 (addr : hsk_addr_t) : bool :=
  negb (hsk_addr_is_mapped addr) && negb (hsk_addr_is_onion addr).
Definition hsk_addr_has_key (addr : hsk_addr_t) : bool := negb (memeq (ad_key addr) hsk_zero_pub).
Definition hsk_addr_get_af (addr : hsk_addr_t) : Z :=
  if hsk_addr_is_mapped addr then AF_INET else AF_INET6.
Definition hsk_addr_get_type (addr : hsk_addr_t) : Z := ad_type addr.
Definition hsk_addr_set_type (addr : hsk_addr_t) (type : Z) : hsk_addr_t :=
  mk_addr type (ad_ip addr) (ad_port addr) (ad_key addr).
(** The bytes from the returned pointer on. *)
Definition hsk_addr_get_ip (addr : hsk_addr_t) : list Z :=
  if hsk_addr_is_ip6 addr then ad_ip addr else drop 12 (ad_ip addr).

(** [None] is the [false] return. *)
Definition hsk_addr_set_ip (addr : hsk_addr_t) (af : Z) (ip : list Z) : option hsk_addr_t :=
  if af =? AF_INET then
    Some (mk_addr (ad_type addr)
      (replicate 10 0 ++ replicate 2 0xff ++ take 4 ip ++ replicate 20 0)
      (ad_port addr) (ad_key addr))
  else if af =? AF_INET6 then
    Some (mk_addr (ad_type addr) (take 16 ip ++ replicate 20 0) (ad_port addr) (ad_key addr))
  else None.

Definition hsk_addr_get_port (addr : hsk_addr_t) : Z := ad_port addr.
Definition hsk_addr_set_port (addr : hsk_addr_t) (port : Z) : hsk_addr_t :=
  mk_addr (ad_type addr) (ad_ip addr) port (ad_key addr).

Definition hsk_addr_from_na (na : hsk_netaddr_t) : hsk_addr_t := hsk_addr_copy (na_addr na).
Definition hsk_addr_to_na (addr : hsk_addr_t) (na : hsk_netaddr_t) : hsk_netaddr_t :=
  mk_netaddr (na_time na) (na_services na) (hsk_addr_copy addr).

(** The return value and the address that is left in [addr]. *)
Definition hsk_addr_from_ip (af : Z) (ip : list Z) (port : Z) : bool * hsk_addr_t :=
  let addr := hsk_addr_init in
  match hsk_addr_set_ip addr af ip with
  | None => (false, addr)
  | Some addr => (false, hsk_addr_set_port addr port)
  end.
Definition hsk_addr_to_ip (addr : hsk_addr_t) : Z * list Z * Z :=
  let family := hsk_addr_get_af addr in
  (family,
   if family =? AF_INET then take 4 (drop 12 (ad_ip addr)) else take 16 (ad_ip addr),
   ad_port addr).

(** ** Socket addresses *)

Record sockaddr := mk_sockaddr { sa_family : Z; sa_port : list Z; sa_addr : list Z }.

Definition htons (port : Z) : list Z := be_split 2 port.
Definition ntohs (port : list Z) : Z := be_combine port.

Definition hsk_addr_from_sa (sa : sockaddr) : option hsk_addr_t :=
  let addr := hsk_addr_init in
  if sa_family sa =? AF_INET then
    match hsk_addr_set_ip (hsk_addr_set_type addr 0) AF_INET (sa_addr sa) with
    | Some addr => Some (hsk_addr_set_port addr (ntohs (sa_port sa)))
    | None => None
    end
  else if sa_family sa =? AF_INET6 then
    match hsk_addr_set_ip (hsk_addr_set_type addr 0) AF_INET6 (sa_addr sa) with
    | Some addr => Some (hsk_addr_set_port addr (ntohs (sa_port sa)))
    | None => None
    end
  else None.

Definition hsk_addr_to_sa (addr : hsk_addr_t) : option sockaddr :=
  let af := hsk_addr_get_af addr in
  if af =? AF_INET then
    Some (mk_sockaddr AF_INET (htons (ad_port addr)) (take 4 (drop 12 (ad_ip addr))))
  else if af =? AF_INET6 then
    Some (mk_sockaddr AF_INET6 (htons (ad_port addr)) (take 16 (ad_ip addr)))
  else None.

Definition hsk_sa_copy (other : sockaddr) : option sockaddr :=
  if negb (sa_family other =? AF_INET) && negb (sa_family other =? AF_INET6) then None
  else Some other.

(** * Comparison *)

Definition hsk_addr_equal (x y : hsk_addr_t) : bool :=
  if negb (ad_type x =? ad_type y) then false
  else if negb (memeq (ad_ip x) (ad_ip y)) then false
  else if negb (ad_port x =? ad_port y) then false
  else true.

(** * Address ranges *)

Definition hsk_addr_is_null (addr : hsk_addr_t) : bool :=
  let ip := ad_ip addr in
  if hsk_addr_is_ip4 addr then
    (ip.[12] =? 0) && (ip.[13] =? 0) && (ip.[14] =? 0) && (ip.[15] =? 0)
  else starts_with ip hsk_zero_ip.

Definition hsk_addr_is_broadcast (addr : hsk_addr_t) : bool :=
  let ip := ad_ip addr in
  if negb (hsk_addr_is_ip4 addr) then false
  else (ip.[12] =? 255) && (ip.[13] =? 255) && (ip.[14] =? 255) && (ip.[15] =? 255).

Definition hsk_addr_is_rfc1918 (addr : hsk_addr_t) : bool :=
  let ip := ad_ip addr in
  if negb (hsk_addr_is_ip4 addr) then false
  else if ip.[12] =? 10 then true
  else if (ip.[12] =? 192) && (ip.[13] =? 168) then true
  else if (ip.[12] =? 172) && ((16 <=? ip.[13]) && (ip.[13] <=? 31)) then true
  else false.

Definition hsk_addr_is_rfc2544 (addr : hsk_addr_t) : bool :=
  let ip := ad_ip addr in
  if negb (hsk_addr_is_ip4 addr) then false
  else if (ip.[12] =? 198) && ((ip.[13] =? 18) || (ip.[13] =? 19)) then true
  else if (ip.[12] =? 169) && (ip.[13] =? 254) then true
  else false.

Definition hsk_addr_is_rfc3927 (addr : hsk_addr_t) : bool :=
  let ip := ad_ip addr in
  if negb (hsk_addr_is_ip4 addr) then false
  else if (ip.[12] =? 169) && (ip.[13] =? 254) then true
  else false.

Definition hsk_addr_is_rfc6598 (addr : hsk_addr_t) : bool :=
  let ip := ad_ip addr in
  if negb (hsk_addr_is_ip4 addr) then false
  else if (ip.[12] =? 100) && ((64 <=? ip.[13]) && (ip.[13] <=? 127)) then true
  else false.

Definition hsk_addr_is_rfc5737 (addr : hsk_addr_t) : bool :=
  let ip := ad_ip addr in
  if negb (hsk_addr_is_ip4 addr) then false
  else if (ip.[12] =? 192) && ((ip.[13] =? 0) && (ip.[14] =? 2)) then true
  else if (ip.[12] =? 198) && (ip.[13] =? 51) && (ip.[14] =? 100) then true
  else if (ip.[12] =? 203) && (ip.[13] =? 0) && (ip.[14] =? 113) then true
  else false.

Definition hsk_addr_is_rfc3849 (addr : hsk_addr_t) : bool :=
  let ip := ad_ip addr in
  if (ip.[0] =? 0x20) && (ip.[1] =? 0x01) && (ip.[2] =? 0x0d) && (ip.[3] =? 0xb8)
  then true else false.
Definition hsk_addr_is_rfc3964 (addr : hsk_addr_t) : bool :=
  let ip := ad_ip addr in
  if (ip.[0] =? 0x20) && (ip.[1] =? 0x02) then true else false.
Definition hsk_addr_is_rfc6052 (addr : hsk_addr_t) : bool := starts_with (ad_ip addr) hsk_rfc6052.
Definition hsk_addr_is_rfc4380 (addr : hsk_addr_t) : bool :=
  let ip := ad_ip addr in
  if (ip.[0] =? 0x20) && (ip.[1] =? 0x01) && (ip.[2] =? 0x00) && (ip.[3] =? 0x00)
  then true else false.
Definition hsk_addr_is_rfc4862 (addr : hsk_addr_t) : bool := starts_with (ad_ip addr) hsk_rfc4862.
Definition hsk_addr_is_rfc4193 (addr : hsk_addr_t) : bool :=
  if Z.land (nth 0 (ad_ip addr) 0) 0xfe =? 0xfc then true else false.
Definition hsk_addr_is_rfc6145 (addr : hsk_addr_t) : bool := starts_with (ad_ip addr) hsk_rfc6145.
Definition hsk_addr_is_rfc4843 (addr : hsk_addr_t) : bool :=
  let ip := ad_ip addr in
  if (ip.[0] =? 0x20) && (ip.[1] =? 0x01) && (ip.[2] =? 0x00) && (Z.land ip.[3] 0xf0 =? 0x10)
  then true else false.

Definition hsk_addr_is_local (addr : hsk_addr_t) : bool :=
  let ip := ad_ip addr in
  if hsk_addr_is_ip4 addr then
    if (ip.[12] =? 127) && (ip.[13] =? 0) then true else false
  else if starts_with ip hsk_local_ip then true
  else false.

Definition hsk_addr_is_multicast (addr : hsk_addr_t) : bool :=
  let ip := ad_ip addr in
  if hsk_addr_is_ip4 addr then
    if Z.land ip.[12] 0xf0 =? 0xe0 then true else false
  else ip.[0] =? 0xff.

Definition hsk_addr_is_valid (addr : hsk_addr_t) : bool :=
  if negb (ad_type addr =? 0) then false
  else if starts_with (ad_ip addr) hsk_shifted then false
  else if hsk_addr_is_null addr then false
  else if hsk_addr_is_broadcast addr then false
  else if hsk_addr_is_rfc3849 addr then false
  else true.

Definition hsk_addr_is_routable (addr : hsk_addr_t) : bool :=
  if negb (hsk_addr_is_valid addr) then false
  else if hsk_addr_is_rfc1918 addr then false
  else if hsk_addr_is_rfc2544 addr then false
  else if hsk_addr_is_rfc3927 addr then false
  else if hsk_addr_is_rfc4862 addr then false
  else if hsk_addr_is_rfc6598 addr then false
  else if hsk_addr_is_rfc5737 addr then false
  else if hsk_addr_is_rfc4193 addr && negb (hsk_addr_is_onion addr) then false
  else if hsk_addr_is_rfc4843 addr then false
  else if hsk_addr_is_local addr then false
  else true.

(** The address with two bytes of its null IP set; [None] is the [false] return. *)
Definition hsk_addr_localize (addr : hsk_addr_t) : option hsk_addr_t :=
  if negb (ad_type addr =? 0) then None
  else
    let set_byte addr i b := mk_addr (ad_type addr) (<[i:=b]> (ad_ip addr)) (ad_port addr) (ad_key addr) in
    Some (if hsk_addr_is_null addr then
            if hsk_addr_is_ip4 addr then set_byte (set_byte addr 12%nat 127) 15%nat 1
            else set_byte addr 15%nat 1
          else addr).

Definition hsk_sa_localize (sa : sockaddr) : option sockaddr :=
  match hsk_addr_from_sa sa with
  | None => None
  | Some addr =>
      match hsk_addr_localize addr with
      | None => None
      | Some addr => hsk_addr_to_sa addr
      end
  end.

(** * Wire format of a network address *)

Definition hsk_netaddr_init : hsk_netaddr_t := mk_netaddr 0 0 hsk_addr_init.

Definition hsk_netaddr_read : rd hsk_netaddr_t :=
  time <- read_u64 ;;
  services <- read_u64 ;;
  type <- read_u8 ;;
  ip <- read_bytes 36 ;;
  let ip := if type =? 0 then take 16 ip ++ replicate 20 0 else ip in
  port <- read_u16 ;;
  key <- read_bytes 33 ;;
  rret (mk_netaddr time services (mk_addr type ip port key)).

Definition hsk_netaddr_write (na : hsk_netaddr_t) : wr :=
  write_u64 (na_time na) +++
  write_u64 (na_services na) +++
  write_u8 (ad_type (na_addr na)) +++
  write_bytes (ad_ip (na_addr na)) +++
  write_u16 (ad_port (na_addr na)) +++
  write_bytes (ad_key (na_addr na)).

(** * Text *)

Definition INET6_ADDRSTRLEN : nat := 46.
Definition HSK_MAX_HOST : nat := 128.
Definition HSK_PORT : Z := 12038.
Definition HSK_BRONTIDE_PORT : Z := 44806.

(** [strchr]: the text before the first [c], and from it on. *)
Fixpoint strchr (s : list Z) (c : Z) : option (list Z * list Z) :=
  match s with
  | [] => None
  | x :: s' =>
      if x =? c then Some ([], s)
      else match strchr s' c with
           | None => None
           | Some (pre, post) => Some (x :: pre, post)
           end
  end.

(** The loop over the digits of a port: at most five of them, summed in 32 bits. *)
Fixpoint port_loop (s : list Z) (i : nat) (word : Z) : option Z :=
  match s with
  | [] => Some word
  | c :: s' =>
      let ch := c - 0x30 in
      if (ch <? 0) || (9 <? ch) then None
      else if (i =? 5)%nat then None
      else port_loop s' (i + 1) (u32 (u32 (word * 10) + ch))
  end.

(** [sprintf("%u")] *)
Fixpoint decimal_loop (fuel : nat) (n : Z) (acc : list Z) : list Z :=
  match fuel with
  | O => acc
  | S fuel' =>
      let acc := (0x30 + n mod 10) :: acc in
      if n / 10 =? 0 then acc else decimal_loop fuel' (n / 10) acc
  end.
Definition decimal (n : Z) : list Z := decimal_loop 10 n [].

Section Text.
(** libuv's text conversions: the bytes of an address of the given family, and
    the text, if it fits in the given size. *)
Variable uv_inet_pton : Z -> list Z -> option (list Z).
Variable uv_inet_ntop : Z -> list Z -> nat -> option (list Z).

(** The host part and the port part after an optional key. *)
Definition split_host (src : list Z) : option (list Z * option (list Z)) :=
  match src with
  | 91 :: src' =>
      match strchr src' 93 with
      | None => None
      | Some (host, bracket) =>
          match drop 1 bracket with
          | 58 :: port_s => Some (host, Some port_s)
          | [] => Some (host, None)
          | _ => None
          end
      end
  | _ =>
      match strchr src 58 with
      | None => Some (src, None)
      | Some (host, colon) =>
          match strchr (drop 1 colon) 58 with
          | Some _ => Some (src, None)
          | None => Some (host, Some (drop 1 colon))
          end
      end
  end.

(** [None] is the [false] return. *)
Definition hsk_addr_from_string (src : list Z) (port : Z) : option hsk_addr_t :=
  let at_ := strchr src 64 in
  match
    match at_ with
    | None => Some (ad_key hsk_addr_init, src)
    | Some (pubkey, rest) =>
        if (53 <? length pubkey)%nat then None
        else if negb (hsk_base32_decode_size pubkey =? 33) then None
        else match hsk_base32_decode pubkey false with
             | None => None
             | Some key => Some (key, drop 1 rest)
             end
    end
  with
  | None => None
  | Some (key, src) =>
      match split_host src with
      | None => None
      | Some (host, port_s) =>
          if (INET6_ADDRSTRLEN <? length host)%nat then None
          else
            match
              match port_s with
              | Some s => u16 <$> port_loop s 0 0
              | None =>
                  Some (if port =? 0 then (if at_ then HSK_BRONTIDE_PORT else HSK_PORT) else port)
              end
            with
            | None => None
            | Some sin_port =>
                match
                  match uv_inet_pton AF_INET host with
                  | Some sin_addr => Some (AF_INET, sin_addr)
                  | None =>
                      match uv_inet_pton AF_INET6 host with
                      | Some sin_addr => Some (AF_INET6, sin_addr)
                      | None => None
                      end
                  end
                with
                | None => None
                | Some (af, sin_addr) =>
                    match hsk_addr_set_ip (mk_addr 0 (ad_ip hsk_addr_init) 0 key) af sin_addr with
                    | None => None
                    | Some addr => Some (hsk_addr_set_port addr sin_port)
                    end
                end
            end
      end
  end.

Definition hsk_addr_to_string (addr : hsk_addr_t) (dst_len : nat) (fb : Z) : outcome (list Z) :=
  let af := hsk_addr_get_af addr in
  let ip := hsk_addr_get_ip addr in
  let port := ad_port addr in
  match uv_inet_ntop af ip dst_len with
  | None => Fail
  | Some dst =>
      if fb =? 0 then Ret dst
      else
        let len := length dst in
        let need := if af =? AF_INET6 then 9%nat else 7%nat in
        if (dst_len - len <? need)%nat then Fail
        else
          let port := if port =? 0 then fb else port in
          if af =? AF_INET6 then
            let* _ := oassert (len + need <? HSK_MAX_HOST)%nat in
            Ret ([91] ++ dst ++ [93; 58] ++ decimal port)
          else Ret (dst ++ [58] ++ decimal port)
  end.

Definition hsk_addr_to_full (addr : hsk_addr_t) (dst_len : nat) (fb : Z) : outcome (list Z) :=
  let* dst := hsk_addr_to_string addr dst_len fb in
  if negb (hsk_addr_has_key addr) then Ret dst
  else
    let len := length dst in
    let size := Z.to_nat (hsk_base32_encode_size (ad_key addr) false) in
    if (dst_len - len <? size + 1)%nat then Fail
    else
      let* _ := oassert (size <=? 54)%nat in
      let* _ := oassert (len + (size - 1) + 1 <? HSK_MAX_HOST)%nat in
      Ret (hsk_base32_encode (ad_key addr) false ++ [64] ++ dst).

Definition hsk_addr_to_at (addr : hsk_addr_t) (dst_len : nat) (fb : Z) : outcome (list Z) :=
  let af := hsk_addr_get_af addr in
  let ip := hsk_addr_get_ip addr in
  let port := ad_port addr in
  match uv_inet_ntop af ip dst_len with
  | None => Fail
  | Some dst =>
      if fb =? 0 then Ret dst
      else
        let len := length dst in
        if (dst_len - len <? 7)%nat then Fail
        else
          let port := if port =? 0 then fb else port in
          Ret (dst ++ [64] ++ decimal port)
  end.

Definition hsk_sa_from_string (src : list Z) (port : Z) : option sockaddr :=
  match hsk_addr_from_string src port with
  | None => None
  | Some addr => hsk_addr_to_sa addr
  end.
Definition hsk_sa_to_string (sa : sockaddr) (dst_len : nat) (fb : Z) : outcome (list Z) :=
  match hsk_addr_from_sa sa with
  | None => Fail
  | Some addr => hsk_addr_to_string addr dst_len fb
  end.
Definition hsk_sa_to_at (sa : sockaddr) (dst_len : nat) (fb : Z) : outcome (list Z) :=
  match hsk_addr_from_sa sa with
  | None => Fail
  | Some addr => hsk_addr_to_at addr dst_len fb
  end.
End Text.

(** * Lemmas: wire format *)

Definition addr_wf (addr : hsk_addr_t) : Prop :=
  0 <= ad_type addr < 256 /\ bytes_n 36 (ad_ip addr) /\ 0 <= ad_port addr < 2 ^ 16 /\
  bytes_n 33 (ad_key addr) /\ (ad_type addr = 0 -> drop 16 (ad_ip addr) = replicate 20 0).
Definition netaddr_wf (na : hsk_netaddr_t) : Prop :=
  0 <= na_time na < 2 ^ 64 /\ 0 <= na_services na < 2 ^ 64 /\ addr_wf (na_addr na).
#[export] Instance addr_wf_dec addr : Decision (addr_wf addr).
Proof.
  unfold addr_wf. destruct (decide (ad_type addr = 0)) as [E|E].
  - destruct (decide (0 <= ad_type addr < 256 /\ bytes_n 36 (ad_ip addr) /\ 0 <= ad_port addr < 2 ^ 16 /\
      bytes_n 33 (ad_key addr) /\ drop 16 (ad_ip addr) = replicate 20 0)); [left|right]; tauto.
  - destruct (decide (0 <= ad_type addr < 256 /\ bytes_n 36 (ad_ip addr) /\ 0 <= ad_port addr < 2 ^ 16 /\
      bytes_n 33 (ad_key addr))); [left|right]; tauto.
Defined.
#[export] Instance netaddr_wf_dec na : Decision (netaddr_wf na).
Proof. unfold netaddr_wf. solve_decision. Defined.

Definition netaddr_wire (na : hsk_netaddr_t) : list Z :=
  le_split 8 (na_time na) ++ le_split 8 (na_services na) ++ [ad_type (na_addr na)] ++
  ad_ip (na_addr na) ++ le_split 2 (ad_port (na_addr na)) ++ ad_key (na_addr na).

Lemma length_netaddr_wire na : netaddr_wf na -> length (netaddr_wire na) = 88%nat.
Proof.
  intros (_ & _ & _ & [H1 _] & _ & [H2 _] & _). unfold netaddr_wire.
  rewrite !length_app, H1, H2. done.
Qed.

#[export, refine] Instance netaddr_codec : Codec hsk_netaddr_t := {
  codec_read := hsk_netaddr_read;
  codec_write := hsk_netaddr_write;
  codec_wf := netaddr_wf;
  codec_wire := netaddr_wire;
}.
Proof.
  - intros [time services [type ip port key]] (Ht & Hs & Hty & [Hi _] & Hp & [Hk _] & Hz).
    cbn [na_time na_services na_addr ad_type ad_ip ad_port ad_key] in *.
    unfold hsk_netaddr_read, netaddr_wire. cbn [na_time na_services na_addr ad_type ad_ip ad_port ad_key].
    eapply parses_bind; [by apply parses_u64|]. eapply parses_bind; [by apply parses_u64|].
    eapply parses_bind; [by apply parses_u8|].
    eapply parses_bind; [apply parses_bytes; lia|]. cbv zeta.
    eapply parses_bind; [by apply parses_u16|].
    eapply parses_bind_nil; [apply parses_bytes; lia|].
    destruct (Z.eqb_spec type 0) as [E|E]; [|apply parses_ret].
    rewrite <-(Hz E), take_drop. apply parses_ret.
  - intros na (_ & _ & Hty & _). unfold hsk_netaddr_write, netaddr_wire. auto 20 with hsk.
  - intros na Hw. rewrite length_netaddr_wire by done.
    destruct Hw as (_ & _ & _ & [H1 _] & _ & [H2 _] & _).
    unfold sizes, hsk_netaddr_write, wseq, write_bytes, write_raw. by rewrite H1, H2.
Defined.

Lemma netaddr_takes : takes hsk_netaddr_read 88.
Proof.
  change 88%nat with (8 + (8 + (1 + (36 + (2 + 33)))))%nat. unfold hsk_netaddr_read.
  apply takes_bind; [apply takes_fixed|intros time].
  apply takes_bind; [apply takes_fixed|intros services].
  apply takes_bind; [apply takes_fixed|intros type].
  apply takes_bind; [apply (takes_bytes 36); lia|intros ip].
  apply takes_bind; [apply takes_fixed|intros port].
  apply takes_bind_ret. apply (takes_bytes 33). lia.
Qed.

(** ** Comparison *)

Lemma hsk_addr_equal_spec x y : addr_wf x -> addr_wf y ->
  hsk_addr_equal x y = true <->
  ad_type x = ad_type y /\ ad_ip x = ad_ip y /\ ad_port x = ad_port y.
Proof.
  intros (_ & [Hx _] & _) (_ & [Hy _] & _). unfold hsk_addr_equal.
  destruct (Z.eqb_spec (ad_type x) (ad_type y)); cbn [negb]; [|naive_solver].
  destruct (memeq (ad_ip x) (ad_ip y)) eqn:E; cbn [negb].
  - apply memeq_spec in E; [|congruence].
    destruct (Z.eqb_spec (ad_port x) (ad_port y)); cbn [negb]; naive_solver.
  - split; [done|]. intros (_ & Hip & _). by rewrite Hip, memeq_refl in E.
Qed.

(** ** Ranges of IPv4 addresses *)

(** The address as a 32-bit number, and membership in a CIDR block. *)
Definition ip4 (addr : hsk_addr_t) : Z := be_combine (take 4 (drop 12 (ad_ip addr))).
Definition in_cidr (x : Z) '((base, len) : list Z * Z) : bool :=
  x / 2 ^ (32 - len) =? be_combine base / 2 ^ (32 - len).

(** What the code rejects, as blocks. *)
Definition unroutable : list (list Z * Z) :=
  [([0; 0; 0; 0], 32); ([255; 255; 255; 255], 32); ([10; 0; 0; 0], 8); ([192; 168; 0; 0], 16);
   ([172; 16; 0; 0], 12); ([198; 18; 0; 0], 15); ([169; 254; 0; 0], 16); ([100; 64; 0; 0], 10);
   ([192; 0; 2; 0], 24); ([198; 51; 100; 0], 24); ([203; 0; 113; 0], 24); ([127; 0; 0; 0], 16)].

Lemma memeq_true_inv a b : length a = length b -> memeq a b = true -> a = b.
Proof. intros Hl. by apply memeq_spec. Qed.

Lemma mapped_shape addr : addr_wf addr -> hsk_addr_is_mapped addr = true ->
  exists a b c d rest, ad_ip addr = hsk_ip4_mapped ++ [a; b; c; d] ++ rest /\ bytes [a; b; c; d] /\
    length rest = 20%nat.
Proof.
  intros (_ & [Hl Hb] & _) Hm. unfold hsk_addr_is_mapped, starts_with in Hm.
  apply memeq_true_inv in Hm; [|rewrite length_take, Hl; done].
  assert (E := take_drop (length hsk_ip4_mapped) (ad_ip addr)). rewrite Hm in E.
  rewrite <-E in Hl, Hb. destruct (drop (length hsk_ip4_mapped) (ad_ip addr)) as [|a [|b [|c [|d rest]]]];
    [done..|]. exists a, b, c, d, rest. split; [done|]. split.
  - apply bytes_app in Hb as [_ Hb]. by apply (bytes_app [a; b; c; d] rest) in Hb as [Hb _].
  - rewrite length_app in Hl. cbn in Hl. lia.
Qed.

Lemma be_combine_4 a b c d : be_combine [a; b; c; d] = a * 2 ^ 24 + b * 2 ^ 16 + c * 2 ^ 8 + d.
Proof. rewrite !be_combine_cons. cbn [length]. change (be_combine []) with 0. lia. Qed.

Section ip4_ranges.
Variables (addr : hsk_addr_t) (a b c d : Z) (rest : list Z).
Hypothesis (Ht : ad_type addr = 0).
Hypothesis (Hip : ad_ip addr = hsk_ip4_mapped ++ [a; b; c; d] ++ rest).
Hypothesis (Ha : 0 <= a < 256) (Hb : 0 <= b < 256) (Hc : 0 <= c < 256) (Hd : 0 <= d < 256).

#[local] Abbreviation block base len := (in_cidr (be_combine [a; b; c; d]) (base, len)) (only parsing).

Lemma shape_ip4 : hsk_addr_is_ip4 addr = true.
Proof using Hip.
  unfold hsk_addr_is_ip4, hsk_addr_is_mapped, starts_with. rewrite Hip, take_app_length.
  apply memeq_refl.
Qed.

(** Compares a test on the bytes with a test on the quotient. *)
Ltac cidr :=
  unfold in_cidr; rewrite !be_combine_4; cbn [Z.sub Z.add Z.opp Z.pos_sub Pos.pred_double];
  repeat match goal with
  | |- context [?x =? ?y] => destruct (Z.eqb_spec x y)
  | |- context [?x <=? ?y] => destruct (Z.leb_spec x y)
  end; cbn [andb orb]; try reflexivity; exfalso; dlia.

Lemma cidr_32 p q r s : 0 <= p < 256 -> 0 <= q < 256 -> 0 <= r < 256 -> 0 <= s < 256 ->
  block [p; q; r; s] 32 = (a =? p) && (b =? q) && (c =? r) && (d =? s).
Proof using Ha Hb Hc Hd. intros. change (32 - 32) with 0. cidr. Qed.
Lemma cidr_24 p q r : 0 <= p < 256 -> 0 <= q < 256 -> 0 <= r < 256 ->
  block [p; q; r; 0] 24 = (a =? p) && (b =? q) && (c =? r).
Proof using Ha Hb Hc Hd. intros. cidr. Qed.
Lemma cidr_16 p q : 0 <= p < 256 -> 0 <= q < 256 ->
  block [p; q; 0; 0] 16 = (a =? p) && (b =? q).
Proof using Ha Hb Hc Hd. intros. cidr. Qed.
Lemma cidr_8 p : 0 <= p < 256 -> block [p; 0; 0; 0] 8 = (a =? p).
Proof using Ha Hb Hc Hd. intros. cidr. Qed.
(** A block between byte boundaries is a range of the second byte. *)
Lemma cidr_mid p q len : 0 <= p < 256 -> 8 <= len <= 16 -> (2 ^ (16 - len) | q) ->
  0 <= q -> q + 2 ^ (16 - len) <= 256 ->
  block [p; q; 0; 0] len = (a =? p) && ((q <=? b) && (b <=? q + 2 ^ (16 - len) - 1)).
Proof using Ha Hb Hc Hd.
  intros Hp Hlen [k ->] Hq Hle. unfold in_cidr. rewrite !be_combine_4.
  replace (32 - len) with (16 + (16 - len)) by lia. rewrite Z.pow_add_r by lia.
  set (w := 2 ^ (16 - len)) in *. assert (Hw : 0 < w) by (apply Z.pow_pos_nonneg; lia).
  assert (H256 : 2 ^ 24 = 2 ^ 16 * w * 2 ^ (len - 8)).
  { unfold w. rewrite <-!Z.pow_add_r by lia. f_equal. lia. }
  set (v := 2 ^ (len - 8)) in *. rewrite H256.
  rewrite <-!Z.div_div by lia.
  replace ((a * (2 ^ 16 * w * v) + b * 2 ^ 16 + c * 2 ^ 8 + d) / 2 ^ 16) with (a * w * v + b)
    by (apply Z.div_unique with (c * 2 ^ 8 + d); lia).
  replace ((p * (2 ^ 16 * w * v) + k * w * 2 ^ 16 + 0 * 2 ^ 8 + 0) / 2 ^ 16) with (p * w * v + k * w)
    by (apply Z.div_unique with 0; lia).
  replace (a * w * v + b) with (b + a * v * w) by lia.
  replace (p * w * v + k * w) with ((p * v + k) * w) by lia.
  rewrite Z.div_add, Z.div_mul by lia.
  assert (Hwv : w * v = 256) by lia.
  assert (D := Z.div_mod b w ltac:(lia)). assert (R := Z.mod_pos_bound b w Hw).
  assert (0 <= b / w < v) by (split; [apply Z.div_pos; lia|apply Z.div_lt_upper_bound; lia]).
  assert (0 <= k < v) by nia.
  destruct (Z.eqb_spec (b / w + a * v) (p * v + k)), (Z.eqb_spec a p),
    (Z.leb_spec (k * w) b), (Z.leb_spec b (k * w + w - 1)); try reflexivity; exfalso; nia.
Qed.

Ltac byte_of_ip := rewrite ?Hip; cbn [app hsk_ip4_mapped nth].

Lemma routable_ip4 :
  hsk_addr_is_routable addr = negb (existsb (in_cidr (be_combine [a; b; c; d])) unroutable).
Proof using All.
  unfold unroutable. cbn [existsb].
  rewrite !cidr_32, !cidr_24, !cidr_16, cidr_8, !cidr_mid by first [lia|by apply Z.mod_divide].
  unfold hsk_addr_is_routable, hsk_addr_is_valid, hsk_addr_is_null, hsk_addr_is_broadcast,
    hsk_addr_is_rfc3849, hsk_addr_is_rfc1918, hsk_addr_is_rfc2544, hsk_addr_is_rfc3927,
    hsk_addr_is_rfc6598, hsk_addr_is_rfc5737, hsk_addr_is_rfc4193, hsk_addr_is_rfc4843,
    hsk_addr_is_local, hsk_addr_is_rfc4862, starts_with.
  rewrite shape_ip4, Ht. byte_of_ip.
  change (16 + 2 ^ (16 - 12) - 1) with 31. change (18 + 2 ^ (16 - 15) - 1) with 19.
  change (64 + 2 ^ (16 - 10) - 1) with 127.
  assert (H18 : (b =? 18) || (b =? 19) = (18 <=? b) && (b <=? 19)).
  { destruct (Z.eqb_spec b 18), (Z.eqb_spec b 19), (Z.leb_spec 18 b), (Z.leb_spec b 19); done || lia. }
  rewrite H18, (andb_assoc (a =? 192)).
  cbn [memeq memcmp hsk_shifted hsk_rfc4862 length take Z.compare Z.eqb Pos.eqb Pos.compare
    Pos.compare_cont negb andb Z.land Pos.land].
  repeat match goal with
  | |- context [if ?t then _ else _] =>
      lazymatch t with
      | context [if _ then _ else _] => fail
      | _ => destruct t; [done|]
      end
  end. done.
Qed.
End ip4_ranges.

(** * Lemmas: text *)

Definition lacks (c : Z) (s : list Z) : Prop := Forall (fun x => x <> c) s.

Lemma strchr_app s c post : lacks c s -> strchr (s ++ c :: post) c = Some (s, c :: post).
Proof.
  induction 1 as [|x s Hx Hs IH]; cbn [app strchr]; [by rewrite Z.eqb_refl|].
  rewrite (proj2 (Z.eqb_neq x c)) by done. by rewrite IH.
Qed.
Lemma strchr_none s c : lacks c s -> strchr s c = None.
Proof.
  induction 1 as [|x s Hx Hs IH]; cbn [strchr]; [done|].
  rewrite (proj2 (Z.eqb_neq x c)) by done. by rewrite IH.
Qed.

(** The value of a string of decimal digits. *)
Definition dec_value (s : list Z) (w : Z) : Z := fold_left (fun w c => w * 10 + (c - 0x30)) s w.
Abbreviation is_digit := (fun c : Z => 0x30 <= c <= 0x39).

Lemma decimal_loop_spec fuel n acc : 0 <= n < 10 ^ Z.of_nat fuel -> (0 < fuel)%nat ->
  exists ds, decimal_loop fuel n acc = ds ++ acc /\ Forall is_digit ds /\
    (forall w, dec_value ds w = w * 10 ^ Z.of_nat (length ds) + n) /\
    forall k : nat, (0 < k)%nat -> n < 10 ^ Z.of_nat k -> (length ds <= k)%nat.
Proof.
  revert n acc; induction fuel as [|fuel IH]; intros n acc Hn Hf; [lia|].
  cbn [decimal_loop]. destruct (Z.eqb_spec (n / 10) 0) as [H0|H0].
  - exists [0x30 + n mod 10]. split_and!; [done|constructor; [dlia|constructor]| |].
    + intros w. cbn [dec_value fold_left length]. unfold dec_value. cbn [fold_left]. dlia.
    + intros k Hk _. cbn. lia.
  - rewrite Nat2Z.inj_succ, Z.pow_succ_r in Hn by lia.
    destruct fuel as [|fuel'].
    { rewrite Z.pow_0_r in Hn. rewrite Z.div_small in H0; lia. }
    destruct (IH (n / 10) ((0x30 + n mod 10) :: acc)) as (ds & -> & Hd & Hv & Hl); [dlia|lia|].
    exists (ds ++ [0x30 + n mod 10]). split_and!.
    + by rewrite <-(assoc_L (++)).
    + apply Forall_app. split; [done|]. constructor; [dlia|constructor].
    + intros w. unfold dec_value in *. rewrite fold_left_app, Hv, length_app. cbn [fold_left length].
      rewrite Nat.add_1_r, Nat2Z.inj_succ, Z.pow_succ_r by lia. dlia.
    + intros k Hk Hkn. rewrite length_app. cbn [length]. destruct k as [|[|k]]; [lia| |].
      { change (10 ^ Z.of_nat 1) with 10 in Hkn. rewrite Z.div_small in H0; lia. }
      rewrite Nat2Z.inj_succ, Z.pow_succ_r in Hkn by lia.
      assert (length ds <= S k)%nat; [|lia]. apply Hl; [lia|]. dlia.
Qed.
Lemma decimal_spec n : 0 <= n < 2 ^ 16 ->
  Forall is_digit (decimal n) /\ dec_value (decimal n) 0 = n /\ (length (decimal n) <= 5)%nat.
Proof.
  intros Hn. unfold decimal.
  destruct (decimal_loop_spec 10 n []) as (ds & -> & Hd & Hv & Hl); [cbn; lia|lia|].
  rewrite app_nil_r. split; [done|]. split; [rewrite Hv; lia|]. apply Hl; [lia|cbn; lia].
Qed.

Lemma port_loop_spec s i w : Forall is_digit s -> (i + length s <= 5)%nat ->
  0 <= w < 10 ^ Z.of_nat i -> port_loop s i w = Some (dec_value s w).
Proof.
  intros Hs. revert i w; induction Hs as [|c s Hc Hs IH]; intros i w Hl Hw; [done|].
  cbn [port_loop length] in *. destruct (Z.ltb_spec (c - 0x30) 0); [lia|].
  destruct (Z.ltb_spec 9 (c - 0x30)); [lia|]. cbn [orb].
  rewrite (proj2 (Nat.eqb_neq i 5)) by lia.
  assert (H5 : 10 ^ Z.of_nat i <= 10 ^ 4) by (apply Z.pow_le_mono_r; lia).
  rewrite !u32_small by (rewrite ?u32_small; lia).
  rewrite IH; [done|lia|]. replace (Z.of_nat (i + 1)) with (Z.succ (Z.of_nat i)) by lia.
  rewrite Z.pow_succ_r by lia. lia.
Qed.
Lemma port_roundtrip p : 0 <= p < 2 ^ 16 -> port_loop (decimal p) 0 0 = Some p.
Proof.
  intros Hp. destruct (decimal_spec p Hp) as (Hd & Hv & Hl).
  rewrite port_loop_spec by (try done; cbn; lia). by rewrite Hv.
Qed.
Lemma digits_lack c s : ~ (0x30 <= c <= 0x39) -> Forall is_digit s -> lacks c s.
Proof. intros Hc Hs. eapply Forall_impl; [exact Hs|]. cbn. intros x Hx ->. done. Qed.

Lemma char_at_lacks c charset v : c <> 0 -> lacks c charset -> char_at charset v <> c.
Proof.
  intros Hc Hl. unfold char_at. rewrite nth_lookup.
  destruct (charset !! Z.to_nat v) as [x|] eqn:E; cbn [default]; [|done].
  by eapply Forall_lookup_1 in Hl; [|exact E].
Qed.
Lemma encode_loop_lacks c charset data m l : c <> 0 -> lacks c charset ->
  lacks c (encode_loop charset m l data false).
Proof.
  intros Hc Hl. assert (Hch := fun v => char_at_lacks c charset v Hc Hl).
  revert m l; induction data as [|ch data IH]; intros m l; cbn [encode_loop].
  - destruct (0 <? m)%nat; [|constructor]. constructor; [apply Hch|constructor].
  - destruct (encode_step charset m l ch) as [[out l'] m'] eqn:E. apply Forall_app. split; [|apply IH].
    destruct m as [|[|[|[|m]]]]; cbn [encode_step] in E; injection E as <- _ _;
      repeat (constructor; [apply Hch|]); constructor.
Qed.

(** A 33-byte key in text. *)
Lemma key_text key : bytes_n 33 key ->
  let text := hsk_base32_encode key false in
  length text = 53%nat /\ lacks 64 text /\ hsk_base32_decode_size text = 33 /\
  hsk_base32_decode text false = Some key.
Proof.
  intros [Hl Hb] text.
  assert (Hd : hsk_base32_decode text false = Some key)
    by (apply decode_encode2; [apply CHARSET_inverse|done..]).
  split; [|split; [|split; [|done]]].
  - assert (E : Z.of_nat (length text) = 53); [|lia].
    unfold text, hsk_base32_encode, hsk_base32_encode2. rewrite length_encode_loop, Hl by lia. done.
  - apply encode_loop_lacks; [done|]. unfold CHARSET. repeat constructor; lia.
  - unfold hsk_base32_decode_size. fold (hsk_base32_decode text false). rewrite Hd. lia.
Qed.

Lemma split_host_4 host port_s : lacks 58 host -> lacks 91 host -> lacks 58 port_s ->
  split_host (host ++ 58 :: port_s) = Some (host, Some port_s).
Proof.
  intros H58 H91 Hp. unfold split_host.
  assert (Hs := strchr_app host 58 port_s H58). rewrite Hs. change (drop 1 (58 :: port_s)) with port_s.
  rewrite (strchr_none _ _ Hp). destruct host as [|x host]; [done|]. cbn [app].
  apply Forall_cons_1 in H91 as [Hx _].
  by repeat (match goal with |- context [match ?y with _ => _ end] => is_var y; destruct y end; try done).
Qed.
Lemma split_host_6 host port_s : lacks 93 host ->
  split_host (91 :: host ++ 93 :: 58 :: port_s) = Some (host, Some port_s).
Proof. intros Hs. unfold split_host. by rewrite strchr_app. Qed.

(** What libuv's text conversions do on the address: [host] is free of the
    characters that separate the parts, and it is converted back. *)
Definition host_ok (pton : Z -> list Z -> option (list Z)) (addr : hsk_addr_t) (host : list Z) : Prop :=
  lacks 64 host /\ lacks 91 host /\ lacks 93 host /\ (length host <= INET6_ADDRSTRLEN)%nat /\
  if hsk_addr_is_mapped addr then
    lacks 58 host /\ pton AF_INET host = Some (take 4 (drop 12 (ad_ip addr)))
  else pton AF_INET host = None /\ pton AF_INET6 host = Some (take 16 (ad_ip addr)).

Lemma set_ip_same addr key : addr_wf addr -> ad_type addr = 0 ->
  hsk_addr_set_ip (mk_addr 0 (ad_ip hsk_addr_init) 0 key) (hsk_addr_get_af addr)
    (if hsk_addr_is_mapped addr then take 4 (drop 12 (ad_ip addr)) else take 16 (ad_ip addr)) =
  Some (mk_addr 0 (ad_ip addr) 0 key).
Proof.
  intros Hw Ht. assert (Hz : drop 16 (ad_ip addr) = replicate 20 0) by apply Hw, Ht.
  unfold hsk_addr_get_af. destruct (hsk_addr_is_mapped addr) eqn:Hm.
  - destruct (mapped_shape addr Hw Hm) as (a & b & c & d & rest & E & _ & Hl).
    rewrite E in Hz |- *. change (drop 16 _) with rest in Hz. by subst rest.
  - unfold hsk_addr_set_ip. cbn [AF_INET AF_INET6 Z.eqb Pos.eqb ad_type ad_port ad_key].
    rewrite <-Hz, take_take. change (16 `min` 16)%nat with 16%nat. by rewrite take_drop.
Qed.

(** Reading back the host and port part, after the key. *)
Definition host_port (addr : hsk_addr_t) (host : list Z) : list Z :=
  if hsk_addr_is_mapped addr then host ++ 58 :: decimal (ad_port addr)
  else 91 :: host ++ 93 :: 58 :: decimal (ad_port addr).

Lemma from_string_key pton addr host dflt prefix :
  addr_wf addr -> ad_type addr = 0 -> host_ok pton addr host ->
  prefix = [] /\ ad_key addr = replicate 33 0 \/
  prefix = hsk_base32_encode (ad_key addr) false ++ [64] ->
  hsk_addr_from_string pton (prefix ++ host_port addr host) dflt = Some addr.
Proof.
  intros Hw Ht (H64 & H91 & H93 & Hlen & Hpton) Hpre.
  assert (Hp : 0 <= ad_port addr < 2 ^ 16) by apply Hw.
  destruct (decimal_spec (ad_port addr) Hp) as (Hd & _ & _).
  assert (Hs : split_host (host_port addr host) = Some (host, Some (decimal (ad_port addr)))).
  { unfold host_port. destruct (hsk_addr_is_mapped addr).
    - apply split_host_4; [apply Hpton|done|apply digits_lack; [lia|done]].
    - by apply split_host_6. }
  assert (H64' : lacks 64 (host_port addr host)).
  { unfold host_port, lacks. assert (Hdl := digits_lack 64 _ ltac:(lia) Hd).
    destruct (hsk_addr_is_mapped addr); repeat (constructor || apply Forall_app || split || done). }
  assert (Hset := set_ip_same addr (ad_key addr) Hw Ht).
  assert (Hfin : hsk_addr_set_port (mk_addr 0 (ad_ip addr) 0 (ad_key addr)) (ad_port addr) = addr)
    by (destruct addr; cbn in Ht |- *; by subst).
  unfold hsk_addr_from_string.
  destruct Hpre as [[-> Hk]| ->].
  - cbn [app]. rewrite strchr_none by done. cbv beta match zeta. rewrite Hs.
    cbv beta match zeta. rewrite (proj2 (Nat.ltb_ge _ _) Hlen).
    rewrite port_roundtrip by done. cbn [fmap option_fmap option_map]. rewrite u16_small by done.
    unfold hsk_addr_get_af in Hset. rewrite Hk in Hset, Hfin. cbn [ad_key hsk_addr_init].
    destruct (hsk_addr_is_mapped addr); destruct Hpton as [H1 H2];
      rewrite ?H1, ?H2, Hset, ?Hfin; done.
  - rewrite <-(assoc_L (++)). cbn [app].
    destruct (key_text (ad_key addr)) as (Hkl & Hk64 & Hks & Hkd); [apply Hw|].
    rewrite strchr_app by done. cbv beta match zeta. rewrite Hkl, Hks, Hkd.
    change (drop 1 (64 :: ?l)) with l. change (53 <? 53)%nat with false.
    change (33 =? 33) with true. cbv beta match zeta delta [negb].
    rewrite Hs. cbv beta match zeta. rewrite (proj2 (Nat.ltb_ge _ _) Hlen).
    rewrite port_roundtrip by done. cbn [fmap option_fmap option_map]. rewrite u16_small by done.
    unfold hsk_addr_get_af in Hset.
    destruct (hsk_addr_is_mapped addr); destruct Hpton as [H1 H2];
      rewrite ?H1, ?H2, Hset, ?Hfin; done.
Qed.

(** * Properties *)

(** Wire format of a network address. A well-formed value is written in 88
    bytes, whose number a null destination also gets, and read back; shorter input
    fails, no input is over-read, and whatever 88 bytes are read give a
    well-formed value: the 20 bytes after the IP of a type-0 address are
    zeroed. *)
Theorem netaddr_roundtrip na rest :
  (netaddr_wf na ->
   exists bs, length bs = 88%nat /\
     hsk_netaddr_write na (Some []) = (88, Some bs) /\ hsk_netaddr_write na None = (88, None) /\
     hsk_netaddr_read (bs ++ rest) = Ret (na, rest)) /\
  (forall d, (length d < 88)%nat -> hsk_netaddr_read d = Fail) /\
  (forall d, (88 <= length d)%nat -> exists na', hsk_netaddr_read d = Ret (na', drop 88 d) /\
     (ad_type (na_addr na') = 0 -> drop 16 (ad_ip (na_addr na')) = replicate 20 0)).
Proof.
  split; [|split].
  - intros Hw. assert (Hcw : codec_wf na) by exact Hw.
    destruct (codec_roundtrip na rest Hcw) as (bs & H1 & H2 & H3).
    assert (Hl : Z.of_nat (length bs) = 88).
    { assert (Hc := codec_sizes na Hcw). unfold sizes in Hc. rewrite H2 in Hc.
      cbn [codec_wire netaddr_codec] in Hc. rewrite length_netaddr_wire in Hc by done. by injection Hc. }
    rewrite Hl in H1, H2. exists bs. split; [lia|]. by split_and!.
  - intros d. apply netaddr_takes.
  - intros d Hl. destruct (netaddr_takes d) as [_ [na' E]]; [done|].
    exists na'. split; [done|]. intros H0. revert E. unfold hsk_netaddr_read, rbind.
    repeat match goal with
    | |- match ?r with _ => _ end = _ -> _ => destruct r as [[? ?]| |] eqn:?; [|done..]
    end. intros [= <- _]. cbn [na_addr ad_ip ad_type] in *. subst. cbn [Z.eqb].
    match goal with E : read_bytes 36 _ = Ret (?ip, _) |- _ =>
      apply read_bytes_inv in E as [_ Hip]; [|lia] end.
    rewrite drop_app_length'; [done|]. rewrite length_take. lia.
Qed.
Lemma netaddr_roundtrip_witness :
  exists bs, length bs = 88%nat /\
     hsk_netaddr_write hsk_netaddr_init (Some []) = (88, Some bs) /\
     hsk_netaddr_write hsk_netaddr_init None = (88, None) /\
     hsk_netaddr_read (bs ++ [5]) = Ret (hsk_netaddr_init, [5]).
Proof.
  apply (netaddr_roundtrip hsk_netaddr_init [5]). apply (bool_decide_eq_true _).
  vm_compute. reflexivity.
Defined.

(** Routability of IPv4. A type-0 address that holds a mapped IPv4 address is
    routable exactly when its 32-bit number lies outside twelve CIDR blocks (the
    loopback block is only 127.0.0.0/16 here). *)
Theorem routable_ip4_correct addr :
  addr_wf addr -> ad_type addr = 0 -> hsk_addr_is_ip4 addr = true ->
  hsk_addr_is_routable addr = negb (existsb (in_cidr (ip4 addr)) unroutable).
Proof.
  intros Hw Ht Hm. destruct (mapped_shape addr Hw Hm) as (a & b & c & d & rest & E & Hb & _).
  apply bytes_cons_inv in Hb as [Ha [Hb [Hc [Hd _]%bytes_cons_inv]%bytes_cons_inv]%bytes_cons_inv].
  rewrite (routable_ip4 addr a b c d rest) by done. unfold ip4. by rewrite E.
Qed.
Lemma routable_ip4_correct_witness :
  let addr := mk_addr 0 (hsk_ip4_mapped ++ [172; 31; 0; 9] ++ replicate 20 0) 80 (replicate 33 0) in
  hsk_addr_is_routable addr = negb (existsb (in_cidr (ip4 addr)) unroutable).
Proof.
  apply (routable_ip4_correct
    (mk_addr 0 (hsk_ip4_mapped ++ [172; 31; 0; 9] ++ replicate 20 0) 80 (replicate 33 0))).
  - apply (bool_decide_eq_true _). vm_compute. reflexivity.
  - reflexivity.
  - reflexivity.
Defined.

(** Binary conversions. A type-0 address without key survives the way through
    a [sockaddr]; [hsk_addr_from_ip] reports failure also when it stored the
    address. *)
Theorem addr_conversions addr af ip port :
  addr_wf addr -> ad_type addr = 0 -> ad_key addr = replicate 33 0 ->
  (exists sa, hsk_addr_to_sa addr = Some sa /\ hsk_addr_from_sa sa = Some addr /\
     hsk_sa_copy sa = Some sa) /\
  (hsk_addr_from_ip af ip port).1 = false /\
  (let '(af', ip', port') := hsk_addr_to_ip addr in
   hsk_addr_from_ip af' ip' port' = (false, addr)).
Proof.
  intros Hw Ht Hk. assert (Hset := set_ip_same addr (ad_key addr) Hw Ht).
  assert (Hfin : hsk_addr_set_port (mk_addr 0 (ad_ip addr) 0 (ad_key addr)) (ad_port addr) = addr)
    by (destruct addr; cbn in Ht |- *; by subst).
  assert (Hport : ntohs (htons (ad_port addr)) = ad_port addr).
  { unfold ntohs, htons. rewrite be_combine_split. apply Z.mod_small, Hw. }
  rewrite Hk in Hset, Hfin. change (mk_addr 0 (ad_ip hsk_addr_init) 0 (replicate 33 0)) with hsk_addr_init in Hset.
  unfold hsk_addr_get_af in Hset. split; [|split].
  - unfold hsk_addr_to_sa, hsk_addr_get_af. destruct (hsk_addr_is_mapped addr);
      (eexists; split; [reflexivity|]); (split; [|done]); unfold hsk_addr_from_sa;
      cbn [sa_family sa_addr sa_port AF_INET AF_INET6 Z.eqb Pos.eqb] in *;
      change (hsk_addr_set_type hsk_addr_init 0) with hsk_addr_init;
      unfold AF_INET, AF_INET6 in *; by rewrite Hset, Hport, Hfin.
  - unfold hsk_addr_from_ip. cbv zeta. destruct (hsk_addr_set_ip hsk_addr_init af ip); reflexivity.
  - unfold hsk_addr_to_ip, hsk_addr_from_ip, hsk_addr_get_af. destruct (hsk_addr_is_mapped addr);
      unfold AF_INET, AF_INET6 in *; cbn [Z.eqb Pos.eqb]; cbv beta match zeta;
      rewrite Hset; by rewrite Hfin.
Qed.
Lemma addr_conversions_witness :
  hsk_addr_from_ip AF_INET [127; 0; 0; 1] 53 =
  (false, mk_addr 0 (hsk_ip4_mapped ++ [127; 0; 0; 1] ++ replicate 20 0) 53 (replicate 33 0)).
Proof.
  apply (addr_conversions
    (mk_addr 0 (hsk_ip4_mapped ++ [127; 0; 0; 1] ++ replicate 20 0) 53 (replicate 33 0))
    AF_INET [] 0).
  - apply (bool_decide_eq_true _). vm_compute. reflexivity.
  - reflexivity.
  - reflexivity.
Defined.

(** Text round trip. For a type-0 address with a nonzero port, with or without
    an identity key, the text that [hsk_addr_to_full] produces is read back by
    [hsk_addr_from_string] to the same address, provided libuv converts the host
    part back. (Five-digit ports above 65535 are accepted and wrap around.) *)
Theorem addr_text_roundtrip pton ntop addr dst_len fb dflt host text :
  addr_wf addr -> ad_type addr = 0 -> ad_port addr <> 0 -> fb <> 0 ->
  ntop (hsk_addr_get_af addr) (hsk_addr_get_ip addr) dst_len = Some host ->
  host_ok pton addr host ->
  hsk_addr_to_full ntop addr dst_len fb = Ret text ->
  hsk_addr_from_string pton text dflt = Some addr /\
  port_loop (decimal 65537) 0 0 = Some 65537.
Proof.
  intros Hw Ht Hp Hfb Hn Hok Hfull. split; [|done].
  assert (Hhp : forall t, hsk_addr_to_string ntop addr dst_len fb = Ret t -> t = host_port addr host).
  { intros t. unfold hsk_addr_to_string, host_port. rewrite Hn, (proj2 (Z.eqb_neq fb 0) Hfb).
    rewrite (proj2 (Z.eqb_neq _ 0) Hp). unfold hsk_addr_get_af.
    destruct (hsk_addr_is_mapped addr); cbn [AF_INET AF_INET6 Z.eqb Pos.eqb];
      destruct (_ <? _)%nat; try done; [by intros [= <-]|].
    unfold oassert. destruct (_ <? _)%nat; [|done]. by intros [= <-]. }
  unfold hsk_addr_to_full in Hfull.
  destruct (hsk_addr_to_string ntop addr dst_len fb) as [dst| |]; [|done..].
  rewrite (Hhp dst) in Hfull by done. cbn [obind] in Hfull.
  unfold hsk_addr_has_key in Hfull. rewrite negb_involutive in Hfull.
  destruct (memeq (ad_key addr) hsk_zero_pub) eqn:Hk.
  - injection Hfull as <-. apply (from_string_key pton addr host dflt []); [done..|]. left.
    split; [done|]. apply memeq_true_inv in Hk; [done|]. by destruct Hw as (_ & _ & _ & [-> _] & _).
  - destruct (_ <? _)%nat; [done|]. unfold oassert in Hfull.
    destruct (_ <=? _)%nat; [|done]. cbn [obind] in Hfull. destruct (_ <? _)%nat; [|done].
    cbn [obind] in Hfull. injection Hfull as <-. rewrite cons_middle, (assoc_L (++)).
    apply from_string_key; [done..|]. by right.
Qed.
Lemma addr_text_roundtrip_witness :
  let host := [49; 50; 55; 46; 48; 46; 48; 46; 49] in
  let pton := fun af s => if (af =? AF_INET) && memeq s host then Some [127; 0; 0; 1] else None in
  let ntop := fun _ _ _ => Some host in
  let addr := mk_addr 0 (hsk_ip4_mapped ++ [127; 0; 0; 1] ++ replicate 20 0) 53 (2 :: replicate 32 7) in
  exists text, hsk_addr_to_full ntop addr 128 1 = Ret text /\
    hsk_addr_from_string pton text 0 = Some addr.
Proof.
  eexists. split; [vm_compute; reflexivity|].
  refine (proj1 (addr_text_roundtrip
    (fun af s => if (af =? AF_INET) && memeq s [49; 50; 55; 46; 48; 46; 48; 46; 49]
                 then Some [127; 0; 0; 1] else None)
    (fun _ _ _ => Some [49; 50; 55; 46; 48; 46; 48; 46; 49])
    (mk_addr 0 (hsk_ip4_mapped ++ [127; 0; 0; 1] ++ replicate 20 0) 53 (2 :: replicate 32 7))
    128 1 0 [49; 50; 55; 46; 48; 46; 48; 46; 49] _ _ _ _ _ _ _ _)).
  - apply (bool_decide_eq_true _). vm_compute. reflexivity.
  - reflexivity.
  - discriminate.
  - discriminate.
  - reflexivity.
  - split_and!; try (repeat constructor; discriminate). all: vm_compute; repeat split; try lia.
    all: repeat constructor; discriminate.
  - vm_compute. reflexivity.
Defined.
