(* ===== verification/Timedata.v ===== *)
(** Network-adjusted time: [src/reference/hnsd-reference/src/timedata.c].

    The clock [hsk_now] is an argument. The map [known] is used as a set of
    addresses under [hsk_addr_equal]; its insertion order is kept as a list. Signed
    64-bit arithmetic wraps around, as the compilers the program is built with
    make it. *)

From S2P Require Import Prelude Bio Addr.

Definition HSK_TIMEDATA_LIMIT : nat := 200.

Record hsk_timedata_t := mk_timedata {
  td_sample_len : nat;
  td_samples : list Z;
  td_known : list hsk_addr_t;
  td_offset : Z;
  td_checked : bool;
}.

Definition hsk_timedata_init : hsk_timedata_t :=
  mk_timedata 0 (replicate HSK_TIMEDATA_LIMIT 0) [] 0 false.

(** The binary search: [i] (or [-1]) and [start] at the end of the loop. *)
Fixpoint search_loop (fuel : nat) (samples : list Z) (sample start end_ : Z) : outcome (Z * Z) :=
  match fuel with
  | O => Fault Hang
  | S fuel' =>
      if start <=? end_ then
        let pos := Z.shiftr (start + end_) 1 in
        let cmp := i64 (nth (Z.to_nat pos) samples 0 - sample) in
        if cmp =? 0 then Ret (pos, start)
        else if cmp <? 0 then search_loop fuel' samples sample (pos + 1) end_
        else search_loop fuel' samples sample start (pos - 1)
      else Ret (-1, start)
  end.

(** [for (; j < len; j++) samples[j] = samples[j - 1]], upwards, as the code has
    it: every place gets the value of the first. *)
Fixpoint shift_loop (n : nat) (j : nat) (samples : list Z) : list Z :=
  match n with
  | O => samples
  | S n' => shift_loop n' (j + 1) (<[j := nth (j - 1) samples 0]> samples)
  end.

Definition hsk_timedata_insert (td : hsk_timedata_t) (sample : Z) : outcome hsk_timedata_t :=
  let start := 0 in
  let end_ := Z.of_nat (td_sample_len td) - 1 in
  let* (i, start) := search_loop (td_sample_len td + 2) (td_samples td) sample start end_ in
  let i := Z.to_nat (if i =? -1 then start else i) in
  let* _ := oassert (td_sample_len td + 1 <=? HSK_TIMEDATA_LIMIT)%nat in
  let samples := shift_loop (td_sample_len td + 1 - (i + 1)) (i + 1) (td_samples td) in
  Ret (mk_timedata (td_sample_len td + 1) (<[i := sample]> samples) (td_known td)
    (td_offset td) (td_checked td)).

(** [-x] on a signed 64-bit integer. *)
Definition neg64 (x : Z) : Z := i64 (- x).

(** The search for a sample within five minutes. *)
Definition close_sample (offset : Z) : bool :=
  let offset := if offset <? 0 then neg64 offset else offset in
  negb (offset =? 0) && (offset <? 5 * 60).

(** The part of [hsk_timedata_add] after the insertion. *)
Definition update_offset (td : hsk_timedata_t) : hsk_timedata_t :=
  if (5 <=? td_sample_len td)%nat && (td_sample_len td mod 2 =? 1)%nat then
    let median := nth (Nat.div2 (td_sample_len td)) (td_samples td) 0 in
    let median := if median <? 0 then neg64 median else median in
    let '(median, checked) :=
      if 70 * 60 <=? median then
        let checked :=
          if negb (td_checked td) then
            if negb (existsb close_sample (take (td_sample_len td) (td_samples td)))
            then true else td_checked td
          else td_checked td in
        (0, checked)
      else (median, td_checked td) in
    mk_timedata (td_sample_len td) (td_samples td) (td_known td) median checked
  else td.

(** [clone_ok] and [set_ok] say whether the two allocations succeed. The result is
    the error code and the state. *)
Definition hsk_timedata_add (now : Z) (clone_ok set_ok : bool) (td : hsk_timedata_t)
    (addr : hsk_addr_t) (time : Z) : outcome (Z * hsk_timedata_t) :=
  if (HSK_TIMEDATA_LIMIT <=? td_sample_len td)%nat then Ret (HSK_SUCCESS, td)
  else if existsb (hsk_addr_equal addr) (td_known td) then Ret (HSK_SUCCESS, td)
  else
    match hsk_addr_clone clone_ok addr with
    | None => Ret (HSK_ENOMEM, td)
    | Some id =>
        if negb set_ok then Ret (HSK_ENOMEM, td)
        else
          let td := mk_timedata (td_sample_len td) (td_samples td) (td_known td ++ [id])
                      (td_offset td) (td_checked td) in
          let sample := i64 (time - now) in
          let* td := hsk_timedata_insert td sample in
          Ret (HSK_SUCCESS, update_offset td)
    end.

Definition hsk_timedata_now (now : Z) (td : hsk_timedata_t) : Z := i64 (now + td_offset td).
Definition hsk_timedata_adjust (td : hsk_timedata_t) (time : Z) : Z := i64 (time + td_offset td).
Definition hsk_timedata_local (td : hsk_timedata_t) (time : Z) : Z := i64 (time - td_offset td).
Definition hsk_timedata_ms (now : Z) (td : hsk_timedata_t) : Z :=
  i64 (i64 (now + td_offset td) * 1000).

(** * Lemmas *)

Lemma i64_small x : - 2 ^ 63 <= x < 2 ^ 63 -> i64 x = x.
Proof. intros Hx. unfold i64, swrap. change (64 - 1) with 63. rewrite Z.mod_small; lia. Qed.

(** The samples in use, in ascending order and small enough not to overflow. *)
Definition small_sample (x : Z) : Prop := - 2 ^ 62 <= x < 2 ^ 62.
Definition sorted (l : list Z) : Prop :=
  forall i j x y, (i <= j)%nat -> l !! i = Some x -> l !! j = Some y -> x <= y.
Definition used (td : hsk_timedata_t) : list Z := take (td_sample_len td) (td_samples td).

Definition td_wf (td : hsk_timedata_t) : Prop :=
  length (td_samples td) = HSK_TIMEDATA_LIMIT /\ (td_sample_len td <= HSK_TIMEDATA_LIMIT)%nat /\
  sorted (used td) /\ Forall small_sample (used td) /\ 0 <= td_offset td < 70 * 60.

Lemma nth_used n (l : list Z) i : (i < n)%nat -> (n <= length l)%nat ->
  exists x, take n l !! i = Some x /\ nth i l 0 = x.
Proof.
  intros Hi Hn. destruct (lookup_lt_is_Some_2 l i) as [x Hx]; [lia|].
  exists x. split; [by rewrite lookup_take_lt|by apply nth_lookup_Some].
Qed.

(** The binary search returns a place where the sample may be inserted. *)
Lemma search_loop_spec fuel samples n sample start end_ :
  (n <= length samples)%nat -> sorted (take n samples) -> Forall small_sample (take n samples) ->
  small_sample sample -> 0 <= start -> end_ < Z.of_nat n -> start <= end_ + 1 ->
  end_ + 2 - start <= Z.of_nat fuel ->
  (forall j x, Z.of_nat j < start -> take n samples !! j = Some x -> x < sample) ->
  (forall j x, end_ < Z.of_nat j -> take n samples !! j = Some x -> sample < x) ->
  exists i start', search_loop fuel samples sample start end_ = Ret (i, start') /\
    let k := if i =? -1 then start' else i in
    0 <= k <= Z.of_nat n /\
    (forall j x, Z.of_nat j < k -> take n samples !! j = Some x -> x <= sample) /\
    (forall j x, k <= Z.of_nat j -> take n samples !! j = Some x -> sample <= x).
Proof.
  intros Hn Hso Hsm Hs. revert start end_; induction fuel as [|fuel IH];
    intros start end_ H0 He Hse Hf Hlo Hhi; [lia|].
  cbn [search_loop]. destruct (Z.leb_spec start end_) as [Hle|Hgt].
  2: { exists (-1), start. split; [done|]. cbn. split; [lia|]. split.
       - intros j x Hj Hx. specialize (Hlo j x Hj Hx). lia.
       - intros j x Hj Hx. specialize (Hhi j x ltac:(lia) Hx). lia. }
  rewrite Z.shiftr_div_pow2 by lia. change (2 ^ 1) with 2. set (pos := (start + end_) / 2).
  assert (Hpos : start <= pos <= end_) by (unfold pos; dlia).
  destruct (nth_used n samples (Z.to_nat pos)) as (v & Hv & ->); [lia|done|].
  assert (Hvs : small_sample v) by (eapply Forall_lookup_1 in Hsm; [exact Hsm|done]).
  unfold small_sample in *. rewrite i64_small by lia.
  destruct (Z.eqb_spec (v - sample) 0) as [E|E].
  { exists pos, start. split; [done|]. cbv zeta. rewrite (proj2 (Z.eqb_neq pos (-1))) by lia.
    split; [lia|]. split; intros j x Hj Hx.
    - assert (x <= v) by (apply (Hso j (Z.to_nat pos) x v); [lia|done|done]). lia.
    - assert (v <= x) by (apply (Hso (Z.to_nat pos) j v x); [lia|done|done]). lia. }
  destruct (Z.ltb_spec (v - sample) 0) as [Hlt|Hge].
  - apply IH; try lia; [|done]. intros j x Hj Hx.
    assert (x <= v) by (apply (Hso j (Z.to_nat pos) x v); [lia|done|done]). lia.
  - apply IH; try lia; [done|]. intros j x Hj Hx.
    assert (v <= x) by (apply (Hso (Z.to_nat pos) j v x); [lia|done|done]). lia.
Qed.

(** The upward copy spreads one value. *)
Lemma shift_loop_spec n j samples x :
  (0 < j)%nat -> samples !! (j - 1)%nat = Some x -> (j + n <= length samples)%nat ->
  shift_loop n j samples = take j samples ++ replicate n x ++ drop (j + n) samples.
Proof.
  revert j samples; induction n as [|n IH]; intros j samples Hj Hx Hl.
  { cbn [shift_loop replicate app]. by rewrite Nat.add_0_r, take_drop. }
  cbn [shift_loop]. rewrite (nth_lookup_Some _ _ _ _ Hx).
  destruct (lookup_lt_is_Some_2 samples j) as [y Hy]; [lia|].
  rewrite IH; [|lia| |rewrite length_insert; lia].
  - rewrite drop_insert_lt, Nat.add_1_r by lia.
    rewrite (take_S_r _ _ x) by (apply list_lookup_insert_eq; lia).
    rewrite take_insert_ge, <-(assoc_L (++)) by lia. cbn [replicate app].
    by rewrite Nat.add_succ_l, Nat.add_succ_r.
  - rewrite Nat.add_sub. by apply list_lookup_insert_eq; lia.
Qed.

(** The samples after an insertion at place [k]: the later samples become copies
    of the one that was there. *)
Definition smeared (l : list Z) (k : nat) (sample : Z) : list Z :=
  take k l ++ sample :: replicate (length l - k) (nth k l 0).

Lemma length_smeared l k sample : (k <= length l)%nat -> length (smeared l k sample) = S (length l).
Proof.
  intros Hk. unfold smeared. rewrite length_app, length_take. cbn [length].
  rewrite length_replicate. lia.
Qed.

Lemma smeared_lookup l k sample i x : (k <= length l)%nat -> smeared l k sample !! i = Some x ->
  (i < k)%nat /\ l !! i = Some x \/ i = k /\ x = sample \/
  (k < i)%nat /\ (k < length l)%nat /\ l !! k = Some x.
Proof.
  intros Hk. unfold smeared. destruct (Nat.lt_ge_cases i k) as [Hi|Hi].
  - rewrite lookup_app_l by (rewrite length_take; lia). rewrite lookup_take_lt by lia. by left.
  - rewrite lookup_app_r by (rewrite length_take; lia). rewrite length_take, Nat.min_l by lia.
    destruct (i - k)%nat as [|m] eqn:E; cbn; [intros [= <-]; right; left; split; [lia|done]|].
    intros [-> Hm]%lookup_replicate. right; right. split; [lia|]. split; [lia|].
    destruct (lookup_lt_is_Some_2 l k) as [y Hy]; [lia|]. by rewrite (nth_lookup_Some _ _ _ _ Hy).
Qed.

Lemma smeared_sorted l k sample : (k <= length l)%nat -> sorted l ->
  (forall j x, (j < k)%nat -> l !! j = Some x -> x <= sample) ->
  (forall j x, (k <= j)%nat -> l !! j = Some x -> sample <= x) ->
  sorted (smeared l k sample).
Proof.
  intros Hk Hs Hlo Hhi i j x y Hij Hx Hy.
  apply smeared_lookup in Hx; [|done]. apply smeared_lookup in Hy; [|done].
  destruct Hx as [[Hi Hx]|[[-> ->]|(Hi & Hkl & Hx)]], Hy as [[Hj Hy]|[[-> ->]|(Hj & Hkl' & Hy)]];
    try lia.
  - by apply (Hs i j).
  - by apply (Hlo i).
  - apply (Hs i k); [lia|done|done].
  - by apply (Hhi k).
  - rewrite Hx in Hy. injection Hy as ->. lia.
Qed.
Lemma smeared_small l k sample : (k <= length l)%nat -> Forall small_sample l ->
  small_sample sample -> Forall small_sample (smeared l k sample).
Proof.
  intros Hk Hl Hs. apply Forall_lookup_2. intros i x Hx. apply smeared_lookup in Hx; [|done].
  destruct Hx as [[_ Hx]|[[_ ->]|(_ & _ & Hx)]]; [|done|];
    (eapply Forall_lookup_1 in Hl; [exact Hl|exact Hx]).
Qed.

Lemma hsk_timedata_insert_spec td sample :
  td_wf td -> (td_sample_len td < HSK_TIMEDATA_LIMIT)%nat -> small_sample sample ->
  exists td' k, hsk_timedata_insert td sample = Ret td' /\
    (k <= td_sample_len td)%nat /\ used td' = smeared (used td) k sample /\
    td_sample_len td' = S (td_sample_len td) /\ td_offset td' = td_offset td /\
    td_wf td'.
Proof.
  intros (Hl & Hn & Hs & Hsm & Ho) Hlt Hsample.
  destruct (search_loop_spec (td_sample_len td + 2) (td_samples td) (td_sample_len td) sample
    0 (Z.of_nat (td_sample_len td) - 1)) as (i & start' & E & Hk & Hlo & Hhi);
    [lia|done|done|done|lia|lia|lia|lia|intros; lia| |].
  { intros j x Hj Hx. apply lookup_lt_Some in Hx. rewrite length_take in Hx. lia. }
  set (k := Z.to_nat (if i =? -1 then start' else i)).
  fold (used td) in *. set (n := td_sample_len td) in *.
  assert (Hul : length (used td) = n) by (unfold used; rewrite length_take; lia).
  assert (Hkn : (k <= n)%nat) by (unfold k; lia).
  unfold hsk_timedata_insert. fold n. rewrite E. cbn [obind]. fold k. unfold oassert.
  rewrite (proj2 (Nat.leb_le _ _)) by lia. cbn [obind].
  destruct (lookup_lt_is_Some_2 (td_samples td) k) as [x Hx]; [lia|].
  assert (Hsh : <[k:=sample]> (shift_loop (n + 1 - (k + 1)) (k + 1) (td_samples td)) =
    take k (td_samples td) ++ sample :: replicate (n - k) x ++ drop (n + 1) (td_samples td)).
  { rewrite (shift_loop_spec _ _ _ x); [|lia|by rewrite Nat.add_sub|lia].
    replace (n + 1 - (k + 1))%nat with (n - k)%nat by lia.
    replace (k + 1 + (n - k))%nat with (n + 1)%nat by lia.
    rewrite Nat.add_1_r, (take_S_r _ _ _ Hx), <-(assoc_L (++)). cbn [app].
    rewrite insert_app_r_alt by (rewrite length_take; lia).
    rewrite length_take, Nat.min_l, Nat.sub_diag by lia. by cbn. }
  assert (Hu : take (n + 1) (take k (td_samples td) ++ sample :: replicate (n - k) x ++
      drop (n + 1) (td_samples td)) = smeared (used td) k sample).
  { unfold smeared. rewrite Hul.
    assert (Htk : take k (td_samples td) = take k (used td)).
    { unfold used. by rewrite take_take, Nat.min_l. }
    rewrite Htk, app_comm_cons, (assoc_L (++)). rewrite take_app_length'.
    2: { rewrite length_app, length_take. cbn [length]. rewrite length_replicate. lia. }
    do 2 f_equal. destruct (Nat.eq_dec k n) as [->|Hne]; [by rewrite Nat.sub_diag|].
    do 2 f_equal. symmetry. apply nth_lookup_Some. unfold used. by rewrite lookup_take_lt by lia. }
  eexists _, k. split; [reflexivity|]. split; [done|].
  unfold td_wf. unfold used at 1 3 4. cbn [td_sample_len td_samples td_offset].
  rewrite Hsh, Hu. split; [done|]. split; [lia|]. split; [done|].
  split_and!.
  - rewrite length_app, length_take. cbn [length]. rewrite length_app, length_replicate, length_drop. lia.
  - lia.
  - apply smeared_sorted; [lia|done|intros; eapply Hlo; [|done]; unfold k in *; lia
      |intros; eapply Hhi; [|done]; unfold k in *; lia].
  - apply smeared_small; [lia|done|done].
  - lia.
  - lia.
Qed.

Lemma update_offset_wf td : td_wf td -> td_wf (update_offset td).
Proof.
  intros (Hl & Hn & Hs & Hsm & Ho). unfold update_offset.
  destruct ((5 <=? td_sample_len td)%nat && _) eqn:E; [|done].
  apply andb_true_iff in E as [E5%Nat.leb_le _].
  destruct (nth_used (td_sample_len td) (td_samples td) (Nat.div2 (td_sample_len td)))
    as (m & Hm & ->); [apply Nat.lt_div2; lia|lia|].
  assert (Hms : small_sample m) by (eapply Forall_lookup_1 in Hsm; [exact Hsm|done]).
  unfold small_sample in Hms.
  assert (Hmed : 0 <= (if m <? 0 then neg64 m else m)).
  { destruct (Z.ltb_spec m 0); [|lia]. unfold neg64. rewrite i64_small; lia. }
  set (med := if m <? 0 then neg64 m else m) in *.
  destruct (Z.leb_spec (70 * 60) med); (split_and!; [done|done|done|done|cbn; lia|cbn; lia]).
Qed.

Lemma hsk_timedata_add_spec now clone_ok set_ok td addr time :
  td_wf td -> small_sample (time - now) ->
  exists code td', hsk_timedata_add now clone_ok set_ok td addr time = Ret (code, td') /\
    td_wf td' /\ (td_sample_len td' <= S (td_sample_len td))%nat.
Proof.
  intros Hw Hs. unfold hsk_timedata_add.
  destruct (Nat.leb_spec HSK_TIMEDATA_LIMIT (td_sample_len td)); [by exists HSK_SUCCESS, td; auto|].
  destruct (existsb _ _); [by exists HSK_SUCCESS, td; auto|].
  destruct (hsk_addr_clone clone_ok addr) as [id|]; [|by exists HSK_ENOMEM, td; auto].
  destruct set_ok; cbn [negb]; [|by exists HSK_ENOMEM, td; auto].
  rewrite i64_small by (unfold small_sample in Hs; lia).
  set (td1 := mk_timedata _ _ _ _ _).
  destruct (hsk_timedata_insert_spec td1 (time - now)) as (td2 & k & -> & _ & _ & Hlen & _ & Hw2);
    [exact Hw|done|done|].
  cbn [obind]. exists HSK_SUCCESS, (update_offset td2). split; [done|].
  split; [by apply update_offset_wf|].
  assert (E : td_sample_len (update_offset td2) = td_sample_len td2).
  { unfold update_offset. destruct (_ && _); [|done]. by destruct (_ <=? _). }
  rewrite E, Hlen. done.
Qed.

(** A history of samples, all accepted by the allocator. *)
Fixpoint add_all (td : hsk_timedata_t) (l : list (Z * hsk_addr_t * Z)) : outcome hsk_timedata_t :=
  match l with
  | [] => Ret td
  | (now, addr, time) :: l' =>
      let* (_, td) := hsk_timedata_add now true true td addr time in add_all td l'
  end.

Lemma td_wf_init : td_wf hsk_timedata_init.
Proof.
  split_and!; [done|cbn; unfold HSK_TIMEDATA_LIMIT; lia| |constructor|cbn; lia|cbn; lia].
  intros i j x y _ Hx. discriminate Hx.
Qed.
Lemma add_all_wf l td : td_wf td ->
  Forall (fun '(now, _, time) => small_sample (time - now)) l ->
  exists td', add_all td l = Ret td' /\ td_wf td'.
Proof.
  revert td; induction l as [|[[now addr] time] l IH]; intros td Hw Hl; [by exists td|].
  apply Forall_cons_1 in Hl as [Hs Hl]. cbn [add_all].
  destruct (hsk_timedata_add_spec now true true td addr time) as (code & td' & -> & Hw' & _); [done..|].
  by apply IH.
Qed.

(** An IPv4 peer, for examples. *)
Definition peer (n : Z) : hsk_addr_t :=
  mk_addr 0 (hsk_ip4_mapped ++ [10; 0; 0; n] ++ replicate 20 0) 80 (replicate 33 0).

(** * Properties *)

(** Time samples. Whatever peers report (within [2 ^ 62] seconds), from the
    initial state no assert fails and every loop ends, at most 200 samples are
    kept, in ascending order, and the offset stays in [0, 4200). *)
Theorem timedata_invariant l :
  Forall (fun '(now, _, time) => small_sample (time - now)) l ->
  exists td, add_all hsk_timedata_init l = Ret td /\
    (td_sample_len td <= 200)%nat /\ sorted (used td) /\ 0 <= td_offset td < 4200.
Proof.
  intros Hl. destruct (add_all_wf l hsk_timedata_init td_wf_init Hl) as (td & E & Hw).
  exists td. split; [done|]. destruct Hw as (_ & Hn & Hs & _ & Ho). exact (conj Hn (conj Hs Ho)).
Qed.
Lemma timedata_invariant_witness :
  exists td, add_all hsk_timedata_init [(1000, peer 1, 1007); (1000, peer 2, 990)] = Ret td /\
    (td_sample_len td <= 200)%nat /\ sorted (used td) /\ 0 <= td_offset td < 4200.
Proof.
  apply (timedata_invariant [(1000, peer 1, 1007); (1000, peer 2, 990)]).
  repeat constructor; unfold small_sample; lia.
Defined.

(** Insertion of a time sample. The binary search finds a place that keeps the
    samples sorted, but the copy that should make room runs upwards, so that every
    later sample is overwritten by the one at that place: inserting 2 into 1, 3, 5
    gives 1, 2, 3, 3. *)
Theorem timedata_insert_smears td sample :
  td_wf td -> (td_sample_len td < 200)%nat -> small_sample sample ->
  (exists td' k, hsk_timedata_insert td sample = Ret td' /\ sorted (used td') /\
     (k <= length (used td))%nat /\
     used td' = take k (used td) ++ sample :: replicate (length (used td) - k) (nth k (used td) 0)) /\
  used <$> match hsk_timedata_insert
             (mk_timedata 3 ([1; 3; 5] ++ replicate 197 0) [] 0 false) 2 with
           | Ret td' => Some td' | _ => None end = Some [1; 2; 3; 3].
Proof.
  intros Hw Hn Hs. split; [|by vm_compute].
  destruct (hsk_timedata_insert_spec td sample Hw Hn Hs) as (td' & k & E & Hk & Hu & _ & _ & Hw').
  exists td', k. split; [done|]. split; [apply Hw'|]. split; [|done].
  destruct Hw as (Hl & Hlen & _). unfold used. rewrite length_take, Hl. lia.
Qed.
Lemma timedata_insert_smears_witness :
  exists td' k, hsk_timedata_insert hsk_timedata_init 7 = Ret td' /\ sorted (used td') /\
     (k <= 0)%nat /\
     used td' = take k [] ++ 7 :: replicate (0 - k) (nth k [] 0).
Proof.
  refine (proj1 (timedata_insert_smears hsk_timedata_init 7 _ _ _)).
  - apply td_wf_init.
  - vm_compute. lia.
  - unfold small_sample. lia.
Defined.

(** The clock offset. The median is made positive before it becomes the
    offset: after five peers that are 100 seconds behind, the adjusted time is 100
    seconds ahead of the local clock, not behind. The adjustment and its inverse
    cancel. *)
Theorem timedata_offset_sign td time :
  td_wf td -> - 2 ^ 62 <= time < 2 ^ 62 ->
  hsk_timedata_local td (hsk_timedata_adjust td time) = time /\
  exists td',
    add_all hsk_timedata_init (map (fun n => (1000, peer n, 900)) [1; 2; 3; 4; 5]) = Ret td' /\
    used td' = [-100; -100; -100; -100; -100] /\ hsk_timedata_now 1000 td' = 1100.
Proof.
  intros (_ & _ & _ & _ & Ho) Ht.
  split; [|eexists; split; [vm_compute; reflexivity|split; vm_compute; reflexivity]].
  unfold hsk_timedata_local, hsk_timedata_adjust. rewrite !i64_small by (rewrite ?i64_small; lia). lia.
Qed.
Lemma timedata_offset_sign_witness :
  hsk_timedata_local hsk_timedata_init (hsk_timedata_adjust hsk_timedata_init 5) = 5.
Proof.
  refine (proj1 (timedata_offset_sign hsk_timedata_init 5 _ _)); [apply td_wf_init|lia].
Defined.
