(* ===== verification/Chain.v ===== *)
(** The header chain: [src/reference/hnsd-reference/src/chain.c] with the network
    constants of [constants.h].

    A header that is in the chain does not change any more, so the pointers of the
    C code are header values here; the four hash maps are finite maps, keyed by the
    hash (32 bytes) or the height. Allocations that can fail take their answers
    from an oracle in the state; time is an argument. Failed asserts and null
    pointers are [Fault]s. *)

From S2P Require Import Prelude Bio Blake2b Sha3 Hash Bn Header.

(** * Networks *)

(** The macros that [HSK_NETWORK] selects. *)
Record network := mk_network {
  HSK_BITS : Z;
  HSK_LIMIT : list Z;
  HSK_CHAINWORK : list Z;
  HSK_TARGET_SPACING : Z;
  HSK_TARGET_TIMESPAN : Z;
  HSK_TREE_INTERVAL : Z;
  HSK_TARGET_RESET : bool;
  HSK_NO_RETARGETTING : bool;
  HSK_GENESIS : list Z;
  HSK_STORE_CHECKPOINT_WINDOW : Z;
  HSK_MAX_TIP_AGE : Z;
}.
Definition HSK_MIN_ACTUAL (net : network) : Z := HSK_TARGET_TIMESPAN net / 4.
Definition HSK_MAX_ACTUAL (net : network) : Z := HSK_TARGET_TIMESPAN net * 4.

Definition HSK_MAIN : network :=
  mk_network 0x1c00ffff (be_split 32 (0xffff * 256 ^ 25)) (be_split 32 0x75b5a2b7bf522d45)
    (10 * 60) (144 * (10 * 60)) 36 false false HSK_GENESIS_MAIN 2000 (24 * 60 * 60).

Definition HSK_GENESIS_TESTNET : list Z :=
  be_split 236 0x000000007741385e000000000000000000000000000000000000000000000000000000000000000000000000000000000000000000000000000000000000000000000000000000000000000000000000000000000000000000000000000000000000000000000000000000000000000000000000000000000000000000000000000000001a2c60b9439206938f8d7823782abdb8b211a57431e9c9b6a6365d8d428933518e4c9756fef2ad10375f360e0560fcc7587eb5223ddf8cd7c7e06e60a1140b1500000000ffff001d0000000000000000000000000000000000000000000000000000000000000000.
Definition HSK_GENESIS_REGTEST : list Z :=
  be_split 236 0x000000007841385e000000000000000000000000000000000000000000000000000000000000000000000000000000000000000000000000000000000000000000000000000000000000000000000000000000000000000000000000000000000000000000000000000000000000000000000000000000000000000000000000000000001a2c60b9439206938f8d7823782abdb8b211a57431e9c9b6a6365d8d428933518e4c9756fef2ad10375f360e0560fcc7587eb5223ddf8cd7c7e06e60a1140b1500000000ffff7f200000000000000000000000000000000000000000000000000000000000000000.
Definition HSK_GENESIS_SIMNET : list Z :=
  be_split 236 0x000000007941385e000000000000000000000000000000000000000000000000000000000000000000000000000000000000000000000000000000000000000000000000000000000000000000000000000000000000000000000000000000000000000000000000000000000000000000000000000000000000000000000000000000001a2c60b9439206938f8d7823782abdb8b211a57431e9c9b6a6365d8d428933518e4c9756fef2ad10375f360e0560fcc7587eb5223ddf8cd7c7e06e60a1140b1500000000ffff7f200000000000000000000000000000000000000000000000000000000000000000.

Definition HSK_TESTNET : network :=
  mk_network 0x1d00ffff (be_split 32 (0xffff * 256 ^ 26)) (be_split 32 0)
    (10 * 60) (144 * (10 * 60)) 36 true false HSK_GENESIS_TESTNET 2000 (2 * 7 * 24 * 60 * 60).
Definition HSK_REGTEST : network :=
  mk_network 0x207fffff (be_split 32 (0x7fffff * 256 ^ 29)) (be_split 32 0)
    (10 * 60) (144 * (10 * 60)) 5 true true HSK_GENESIS_REGTEST 200 (2 * 7 * 24 * 60 * 60).
Definition HSK_SIMNET : network :=
  mk_network 0x207fffff (be_split 32 (0x7fffff * 256 ^ 29)) (be_split 32 0)
    (10 * 60) (144 * (10 * 60)) 2 false false HSK_GENESIS_SIMNET 200 (2 * 7 * 24 * 60 * 60).

(** * State *)

Abbreviation hash_map := (gmap (list Z) hsk_header_t).
Abbreviation int_map := (gmap Z hsk_header_t).

Record hsk_chain_t := mk_chain {
  ch_height : Z;
  ch_init_height : Z;
  ch_tip : hsk_header_t;
  ch_genesis : hsk_header_t;
  ch_synced : bool;
  ch_hashes : hash_map;
  ch_heights : int_map;
  ch_orphans : hash_map;
  ch_prevs : hash_map;
  (** whether the setting [prefix] is on *)
  ch_prefix : bool;
  (** the heights at which [hsk_store_write] was called *)
  ch_writes : list Z;
  (** the answers of the allocator that are still to come; true once exhausted *)
  ch_memory : list bool;
}.

Definition set_hashes (c : hsk_chain_t) (m : hash_map) : hsk_chain_t :=
  mk_chain (ch_height c) (ch_init_height c) (ch_tip c) (ch_genesis c) (ch_synced c) m
    (ch_heights c) (ch_orphans c) (ch_prevs c) (ch_prefix c) (ch_writes c) (ch_memory c).
Definition set_heights (c : hsk_chain_t) (m : int_map) : hsk_chain_t :=
  mk_chain (ch_height c) (ch_init_height c) (ch_tip c) (ch_genesis c) (ch_synced c) (ch_hashes c)
    m (ch_orphans c) (ch_prevs c) (ch_prefix c) (ch_writes c) (ch_memory c).
Definition set_orphans (c : hsk_chain_t) (m : hash_map) : hsk_chain_t :=
  mk_chain (ch_height c) (ch_init_height c) (ch_tip c) (ch_genesis c) (ch_synced c) (ch_hashes c)
    (ch_heights c) m (ch_prevs c) (ch_prefix c) (ch_writes c) (ch_memory c).
Definition set_prevs (c : hsk_chain_t) (m : hash_map) : hsk_chain_t :=
  mk_chain (ch_height c) (ch_init_height c) (ch_tip c) (ch_genesis c) (ch_synced c) (ch_hashes c)
    (ch_heights c) (ch_orphans c) m (ch_prefix c) (ch_writes c) (ch_memory c).
Definition set_tip (c : hsk_chain_t) (height : Z) (tip : hsk_header_t) : hsk_chain_t :=
  mk_chain height (ch_init_height c) tip (ch_genesis c) (ch_synced c) (ch_hashes c)
    (ch_heights c) (ch_orphans c) (ch_prevs c) (ch_prefix c) (ch_writes c) (ch_memory c).
Definition set_synced (c : hsk_chain_t) : hsk_chain_t :=
  mk_chain (ch_height c) (ch_init_height c) (ch_tip c) (ch_genesis c) true (ch_hashes c)
    (ch_heights c) (ch_orphans c) (ch_prevs c) (ch_prefix c) (ch_writes c) (ch_memory c).
Definition set_writes (c : hsk_chain_t) (l : list Z) : hsk_chain_t :=
  mk_chain (ch_height c) (ch_init_height c) (ch_tip c) (ch_genesis c) (ch_synced c) (ch_hashes c)
    (ch_heights c) (ch_orphans c) (ch_prevs c) (ch_prefix c) l (ch_memory c).
Definition set_memory (c : hsk_chain_t) (l : list bool) : hsk_chain_t :=
  mk_chain (ch_height c) (ch_init_height c) (ch_tip c) (ch_genesis c) (ch_synced c) (ch_hashes c)
    (ch_heights c) (ch_orphans c) (ch_prevs c) (ch_prefix c) (ch_writes c) l.

(** One allocation: its answer, and the state afterwards. *)
Definition alloc (c : hsk_chain_t) : bool * hsk_chain_t :=
  match ch_memory c with
  | [] => (true, c)
  | ok :: l => (ok, set_memory c l)
  end.

(** [hsk_map_set] on one of the maps; [false] is a failed allocation. *)
Definition hashes_set (c : hsk_chain_t) (k : list Z) (v : hsk_header_t) : bool * hsk_chain_t :=
  let '(ok, c) := alloc c in
  if ok then (true, set_hashes c (<[k := v]> (ch_hashes c))) else (false, c).
Definition heights_set (c : hsk_chain_t) (k : Z) (v : hsk_header_t) : bool * hsk_chain_t :=
  let '(ok, c) := alloc c in
  if ok then (true, set_heights c (<[k := v]> (ch_heights c))) else (false, c).
Definition orphans_set (c : hsk_chain_t) (k : list Z) (v : hsk_header_t) : bool * hsk_chain_t :=
  let '(ok, c) := alloc c in
  if ok then (true, set_orphans c (<[k := v]> (ch_orphans c))) else (false, c).
Definition prevs_set (c : hsk_chain_t) (k : list Z) (v : hsk_header_t) : bool * hsk_chain_t :=
  let '(ok, c) := alloc c in
  if ok then (true, set_prevs c (<[k := v]> (ch_prevs c))) else (false, c).

(** * Queries *)

Definition hsk_chain_has (c : hsk_chain_t) (hash : list Z) : bool :=
  bool_decide (is_Some (ch_hashes c !! hash)).
Definition hsk_chain_get (c : hsk_chain_t) (hash : list Z) : option hsk_header_t :=
  ch_hashes c !! hash.
Definition hsk_chain_get_by_height (c : hsk_chain_t) (height : Z) : option hsk_header_t :=
  ch_heights c !! height.
Definition hsk_chain_has_orphan (c : hsk_chain_t) (hash : list Z) : bool :=
  bool_decide (is_Some (ch_orphans c !! hash)).
Definition hsk_chain_get_orphan (c : hsk_chain_t) (hash : list Z) : option hsk_header_t :=
  ch_orphans c !! hash.
Definition hsk_chain_synced (c : hsk_chain_t) : bool := ch_synced c.

Section Network.
Variable net : network.

(** The height whose name root is used for resolution. *)
Definition safe_height (c : hsk_chain_t) : Z :=
  let interval := HSK_TREE_INTERVAL net in
  let mod_ := u32 (ch_height c) mod interval in
  let mod_ := if 12 <=? mod_ then 0 else mod_ in
  u32 (u32 (ch_height c) - mod_).
Definition hsk_chain_safe_root (c : hsk_chain_t) : outcome (list Z) :=
  let* prev := of_option AssertFail (hsk_chain_get_by_height c (safe_height c)) in
  Ret (hd_name_root prev).

(** [None] is the null pointer. *)
Definition hsk_chain_resolve_orphan (c : hsk_chain_t) (hash : list Z) :
    outcome (option hsk_header_t * hsk_chain_t) :=
  match ch_prevs c !! hash with
  | None => Ret (None, c)
  | Some orphan =>
      let c := set_prevs c (delete (hd_prev_block orphan) (ch_prevs c)) in
      let* (h, orphan) := hsk_header_cache orphan in
      Ret (Some orphan, set_orphans c (delete h (ch_orphans c)))
  end.

(** [while (h->height != height)] *)
Fixpoint ancestor_loop (fuel : nat) (c : hsk_chain_t) (h : hsk_header_t) (height : Z) :
    outcome hsk_header_t :=
  match fuel with
  | O => Fault Hang
  | S fuel' =>
      if hd_height h =? height then Ret h
      else
        let* h := of_option AssertFail (ch_hashes c !! hd_prev_block h) in
        ancestor_loop fuel' c h height
  end.
Definition hsk_chain_get_ancestor (c : hsk_chain_t) (hdr : hsk_header_t) (height : Z) :
    outcome hsk_header_t :=
  let* _ := oassert (height <=? hd_height hdr) in
  ancestor_loop (S (Z.to_nat (hd_height hdr))) c hdr height.

Definition hsk_chain_has_work (c : hsk_chain_t) : bool :=
  match memcmp (hd_work (ch_tip c)) (HSK_CHAINWORK net) with Lt => false | _ => true end.

(** [now] is [hsk_timedata_now(chain->td)]. *)
Definition hsk_chain_maybe_sync (now : Z) (c : hsk_chain_t) : hsk_chain_t :=
  if ch_synced c then c
  else if i64 (hd_time (ch_tip c)) <? i64 (now - HSK_MAX_TIP_AGE net) then c
  else if negb (hsk_chain_has_work c) then c
  else set_synced c.

Definition hsk_chain_checkpoint_flush (c : hsk_chain_t) : hsk_chain_t :=
  if negb (ch_prefix c) then c
  else if ch_height c - ch_init_height c <=? HSK_STORE_CHECKPOINT_WINDOW net then c
  else set_writes c (ch_writes c ++ [ch_height c]).

(** ** The locator *)

(** [while (height > 0)]; [hashes] are the [i] hashes stored so far. The test on
    [i] compares with the size of the array in bytes, less one. *)
Fixpoint locator_loop (fuel : nat) (c : hsk_chain_t) (height step : Z) (hashes : list (list Z)) :
    outcome (list (list Z)) :=
  match fuel with
  | O => Fault Hang
  | S fuel' =>
      if 0 <? height then
        let height := height - step in
        let height := if height <? 0 then 0 else height in
        let i := Z.of_nat (length hashes) in
        let step := if 10 <? i then step * 2 else step in
        let height := if i =? 64 * 32 - 1 then 0 else height in
        match hsk_chain_get_by_height c (u32 height) with
        | None => locator_loop fuel' c height step hashes
        | Some hdr =>
            let* (hash, _) := hsk_header_hash hdr in
            locator_loop fuel' c height step (hashes ++ [hash])
        end
      else Ret hashes
  end.
Definition hsk_chain_get_locator (c : hsk_chain_t) : outcome (list (list Z)) :=
  let* (hash, _) := hsk_header_hash (ch_tip c) in
  locator_loop (S (Z.to_nat (ch_height c))) c (ch_height c) 1 [hash].

(** ** Median time and difficulty *)

Fixpoint insert_sorted (x : Z) (l : list Z) : list Z :=
  match l with
  | [] => [x]
  | y :: l' => if x <=? y then x :: l else y :: insert_sorted x l'
  end.
(** [qsort] with [qsort_cmp]. *)
Definition qsort (l : list Z) : list Z := fold_right insert_sorted [] l.

Fixpoint mtp_times (n : nat) (c : hsk_chain_t) (prev : option hsk_header_t) : list Z :=
  match n, prev with
  | S n', Some p => i64 (hd_time p) :: mtp_times n' c (ch_hashes c !! hd_prev_block p)
  | _, _ => []
  end.
Definition hsk_chain_get_mtp (c : hsk_chain_t) (prev : option hsk_header_t) : Z :=
  match prev with
  | None => 0
  | Some _ =>
      let median := mtp_times 11 c prev in
      let size := length median in
      nth (Nat.div2 size) (qsort median) 0
  end.

Definition hsk_chain_suitable_block (c : hsk_chain_t) (prev : hsk_header_t) : outcome hsk_header_t :=
  let z := prev in
  let* y := of_option AssertFail (ch_hashes c !! hd_prev_block z) in
  let* x := of_option AssertFail (ch_hashes c !! hd_prev_block y) in
  let '(x, z) := if hd_time z <? hd_time x then (z, x) else (x, z) in
  let '(x, y) := if hd_time y <? hd_time x then (y, x) else (x, y) in
  let '(y, z) := if hd_time z <? hd_time y then (z, y) else (y, z) in
  Ret y.

Definition hsk_chain_retarget (first last : hsk_header_t) : outcome Z :=
  let* _ := oassert (hd_height first <=? hd_height last) in
  let limit := HSK_LIMIT net in
  let target_bn := hsk_bn_from_array (hd_work first) in
  let last_bn := hsk_bn_from_array (hd_work last) in
  let spacing_bn := hsk_bn_from_int (HSK_TARGET_SPACING net) in
  let target_bn := hsk_bn_sub last_bn target_bn in
  let target_bn := hsk_bn_mul target_bn spacing_bn in
  let actual := i64 (u64 (hd_time last - hd_time first)) in
  let actual := if actual <? HSK_MIN_ACTUAL net then HSK_MIN_ACTUAL net else actual in
  let actual := if HSK_MAX_ACTUAL net <? actual then HSK_MAX_ACTUAL net else actual in
  let actual_bn := hsk_bn_from_int (u64 actual) in
  let* target_bn := hsk_bn_div target_bn actual_bn in
  if hsk_bn_is_zero target_bn then Ret (HSK_BITS net)
  else
    let one_bn := hsk_bn_from_int 1 in
    let max_bn := hsk_bn_lshift (hsk_bn_from_int 1) 256 in
    let* target_bn := hsk_bn_div max_bn target_bn in
    let target_bn := hsk_bn_sub target_bn one_bn in
    let limit_bn := hsk_bn_from_array limit in
    if 0 <? hsk_bn_cmp target_bn limit_bn then Ret (HSK_BITS net)
    else
      let target := hsk_bn_to_array target_bn 32 in
      Ret (hsk_pow_to_bits target).

Definition hsk_chain_get_target (c : hsk_chain_t) (time : Z) (prev : option hsk_header_t) : outcome Z :=
  match prev with
  | None =>
      let* _ := oassert (u64 time =? hd_time (ch_genesis c)) in
      Ret (HSK_BITS net)
  | Some prev =>
      if HSK_NO_RETARGETTING net then Ret (HSK_BITS net)
      else if HSK_TARGET_RESET net && (i64 (hd_time prev) + HSK_TARGET_SPACING net * 2 <? time)
      then Ret (HSK_BITS net)
      else if hd_height prev <? 144 + 2 then Ret (HSK_BITS net)
      else
        let* last := hsk_chain_suitable_block c prev in
        let height := hd_height prev - 144 in
        let* ancestor := hsk_chain_get_ancestor c prev height in
        let* first := hsk_chain_suitable_block c ancestor in
        hsk_chain_retarget first last
  end.

(** ** Forks *)

(** [hsk_header_equal]; the headers of the chain have their hash cached, so the
    headers themselves do not change. *)
Definition header_equal (a b : hsk_header_t) : outcome bool :=
  let* (r, _) := hsk_header_equal a b in Ret r.1.

(** [while (longer->height > fork->height)]; [None] is the null pointer. *)
Fixpoint descend (fuel : nat) (c : hsk_chain_t) (longer : hsk_header_t) (height : Z) :
    outcome (option hsk_header_t) :=
  match fuel with
  | O => Fault Hang
  | S fuel' =>
      if height <? hd_height longer then
        match ch_hashes c !! hd_prev_block longer with
        | None => Ret None
        | Some longer => descend fuel' c longer height
        end
      else Ret (Some longer)
  end.

Fixpoint find_fork_loop (fuel : nat) (c : hsk_chain_t) (fork longer : hsk_header_t) :
    outcome (option hsk_header_t) :=
  match fuel with
  | O => Fault Hang
  | S fuel' =>
      let* eq := header_equal fork longer in
      if eq : bool then Ret (Some fork)
      else
        let* longer := descend (S (Z.to_nat (hd_height longer))) c longer (hd_height fork) in
        match longer with
        | None => Ret None
        | Some longer =>
            let* eq := header_equal fork longer in
            if eq : bool then Ret (Some fork)
            else
              match ch_hashes c !! hd_prev_block fork with
              | None => Ret None
              | Some fork => find_fork_loop fuel' c fork longer
              end
        end
  end.
Definition hsk_chain_find_fork (c : hsk_chain_t) (fork longer : hsk_header_t) :
    outcome (option hsk_header_t) :=
  find_fork_loop (S (Z.to_nat (hd_height fork))) c fork longer.

(** The headers from [entry] down to, and without, [fork]. *)
Fixpoint collect (fuel : nat) (c : hsk_chain_t) (entry fork : hsk_header_t) :
    outcome (list hsk_header_t) :=
  match fuel with
  | O => Fault Hang
  | S fuel' =>
      let* eq := header_equal entry fork in
      if eq : bool then Ret []
      else
        let* parent := of_option AssertFail (ch_hashes c !! hd_prev_block entry) in
        let* l := collect fuel' c parent fork in
        Ret (entry :: l)
  end.

(** Connecting all headers of the list but the last. *)
Fixpoint connect_loop (c : hsk_chain_t) (l : list hsk_header_t) : outcome hsk_chain_t :=
  match l with
  | [] | [_] => Ret c
  | h :: l' =>
      let '(ok, c) := heights_set c (hd_height h) h in
      let* _ := oassert ok in
      connect_loop c l'
  end.

Definition hsk_chain_reorganize (c : hsk_chain_t) (competitor : hsk_header_t) : outcome hsk_chain_t :=
  let tip := ch_tip c in
  let* fork := hsk_chain_find_fork c tip competitor in
  let* fork := of_option AssertFail fork in
  let* disconnect := collect (S (Z.to_nat (hd_height tip))) c tip fork in
  let* connect := collect (S (Z.to_nat (hd_height competitor))) c competitor fork in
  let c := set_heights c (fold_left (fun m h => delete (hd_height h) m) disconnect (ch_heights c)) in
  connect_loop c (reverse connect).

(** ** Adding headers *)

Definition hsk_chain_save (now : Z) (c : hsk_chain_t) (hdr : hsk_header_t) : Z * hsk_chain_t :=
  let '(ok, c) := hashes_set c (hd_hash hdr) hdr in
  if negb ok then (HSK_ENOMEM, c)
  else
    let '(ok, c) := heights_set c (hd_height hdr) hdr in
    if negb ok then (HSK_ENOMEM, set_hashes c (delete (hd_hash hdr) (ch_hashes c)))
    else
      let c := set_tip c (hd_height hdr) hdr in
      let c := hsk_chain_maybe_sync now c in
      let c := if ch_height c mod HSK_STORE_CHECKPOINT_WINDOW net =? 0
               then hsk_chain_checkpoint_flush c else c in
      (HSK_SUCCESS, c).

(** The code, the chain, and the header with its height and work. *)
Definition hsk_chain_insert (now : Z) (c : hsk_chain_t) (hdr prev : hsk_header_t) :
    outcome (Z * hsk_chain_t * hsk_header_t) :=
  let* (hash, hdr) := hsk_header_cache hdr in
  let mtp := hsk_chain_get_mtp c (Some prev) in
  if i64 (hd_time hdr) <=? mtp then Ret (HSK_ETIMETOOOLD, c, hdr)
  else
    let* bits := hsk_chain_get_target c (i64 (hd_time hdr)) (Some prev) in
    if negb (hd_bits hdr =? bits) then Ret (HSK_EBADDIFFBITS, c, hdr)
    else
      let hdr := set_height hdr (u32 (hd_height prev + 1)) in
      let* hdr := match hsk_header_calc_work hdr (Some prev) with
                  | Fail => Fault AssertFail
                  | r => r
                  end in
      match memcmp (hd_work hdr) (hd_work (ch_tip c)) with
      | Gt =>
          let* (tip_hash, _) := hsk_header_cache (ch_tip c) in
          let* c := if negb (memeq (hd_prev_block hdr) tip_hash)
                    then hsk_chain_reorganize c hdr else Ret c in
          let '(rc, c) := hsk_chain_save now c hdr in
          Ret (rc, c, hdr)
      | _ =>
          let '(ok, c) := hashes_set c hash hdr in
          if negb ok then Ret (HSK_ENOMEM, c, hdr) else Ret (HSK_SUCCESS, c, hdr)
      end.

(** [for (;;)]: the orphans that wait for the header just added, one after the
    other. *)
Fixpoint orphan_loop (fuel : nat) (now : Z) (c : hsk_chain_t) (prev : hsk_header_t) (hash : list Z)
    (rc : Z) : outcome (Z * hsk_chain_t) :=
  match fuel with
  | O => Fault Hang
  | S fuel' =>
      let* (hdr, c) := hsk_chain_resolve_orphan c hash in
      match hdr with
      | None => Ret (rc, c)
      | Some hdr =>
          let* (hash, hdr) := hsk_header_cache hdr in
          let* (r, hdr) := hsk_chain_insert now c hdr prev in
          let '(rc, c) := r in
          if negb (rc =? HSK_SUCCESS) then Ret (rc, c)
          else orphan_loop fuel' now c hdr hash rc
      end
  end.

Definition hsk_chain_add (now : Z) (c : hsk_chain_t) (h : hsk_header_t) : outcome (Z * hsk_chain_t) :=
  let '(ok, c) := alloc c in
  match hsk_header_clone ok (Some h) with
  | None => Ret (HSK_ENOMEM, c)
  | Some hdr =>
      let* (hash, hdr) := hsk_header_cache hdr in
      if u64 (now + 2 * 60 * 60) <? hd_time hdr then Ret (HSK_ETIMETOONEW, c)
      else if hsk_chain_has c hash then Ret (HSK_EDUPLICATE, c)
      else if hsk_chain_has_orphan c hash then Ret (HSK_EDUPLICATEORPHAN, c)
      else
        let* (rc, hdr) := hsk_header_verify_pow hdr in
        if negb (rc =? HSK_SUCCESS) then Ret (rc, c)
        else
          match hsk_chain_get c (hd_prev_block hdr) with
          | None =>
              let c := if 10000 <? Z.of_nat (size (ch_orphans c))
                       then set_orphans (set_prevs c ∅) ∅ else c in
              let '(ok, c) := orphans_set c hash hdr in
              if negb ok then Ret (HSK_ENOMEM, c)
              else
                let '(ok, c) := prevs_set c (hd_prev_block hdr) hdr in
                if negb ok then Ret (HSK_ENOMEM, set_orphans c (delete hash (ch_orphans c)))
                else Ret (HSK_EORPHAN, c)
          | Some prev =>
              let* (r, hdr) := hsk_chain_insert now c hdr prev in
              let '(rc, c) := r in
              if negb (rc =? HSK_SUCCESS) then Ret (rc, c)
              else orphan_loop (S (size (ch_prevs c))) now c hdr hash rc
          end
  end.

(** ** Start *)

(** [hsk_chain_init] and [hsk_chain_init_genesis]: the code and the chain, which is
    [None] when it has no genesis block yet. *)
Definition hsk_chain_init (now : Z) (prefix : bool) (memory : list bool) :
    outcome (Z * option hsk_chain_t) :=
  let take_ok l := match l with [] => (true, []) | ok :: l => (ok, l) end in
  let '(ok, memory) := take_ok memory in
  if negb ok then Ret (HSK_ENOMEM, None)
  else
    let* tip := match hsk_header_decode (HSK_GENESIS net) hsk_header_init with
                | Fail => Fault AssertFail | r => r end in
    let* tip := match hsk_header_calc_work tip None with
                | Fail => Fault AssertFail | r => r end in
    let* (hash, tip) := hsk_header_cache tip in
    let '(ok, memory) := take_ok memory in
    if negb ok then Ret (HSK_ENOMEM, None)
    else
      let '(ok, memory) := take_ok memory in
      if negb ok then Ret (HSK_ENOMEM, None)
      else
        let c := mk_chain (hd_height tip) (hd_height tip) tip tip false
                   {[hash := tip]} {[hd_height tip := tip]} ∅ ∅ prefix [] memory in
        Ret (HSK_SUCCESS, Some (hsk_chain_maybe_sync now c)).

End Network.
