(* ===== verification/ChainInv.v ===== *)
(** The invariant of the header chain, and what the operations of [Chain] do on
    states that satisfy it.

    A header of the chain is reached from the genesis block by a path of parents;
    [up] walks the path. The invariant says that the map of heights is exactly the
    path of the tip, that the tip has the most work, and that the two orphan maps
    fit together. *)

From S2P Require Import Prelude Bio Blake2b Sha3 Hash Bn Header Chain.

(** * Stored headers *)

Definition stored (h : hsk_header_t) : Prop :=
  hdr_wf h /\ hd_cache h = true /\ bytes_n 32 (hd_hash h) /\ bytes_n 32 (hd_work h).
Definition pow_ok (h : hsk_header_t) : Prop := is_Some (hsk_pow_to_target (hd_bits h)).

Lemma stored_cache h : stored h -> hsk_header_cache h = Ret (hd_hash h, h).
Proof.
  intros (_ & Hc & _). unfold hsk_header_cache, hsk_header_cache_al. by rewrite Hc.
Qed.
Lemma stored_hash h : stored h -> hsk_header_hash h = Ret (hd_hash h, h).
Proof.
  intros H. unfold hsk_header_hash. rewrite stored_cache by done. cbn [obind].
  rewrite take_digest by apply H. done.
Qed.
Lemma stored_equal a b : stored a -> stored b ->
  header_equal a b = Ret (bool_decide (hd_hash a = hd_hash b)).
Proof.
  intros Ha Hb. unfold header_equal, hsk_header_equal. rewrite !stored_cache by done.
  cbn [obind fst]. rewrite !take_digest by (apply Ha || apply Hb). f_equal.
  destruct (memeq (hd_hash a) (hd_hash b)) eqn:E; symmetry.
  - apply bool_decide_eq_true. apply memeq_spec in E; [done|].
    destruct Ha as (_ & _ & [Hl _] & _), Hb as (_ & _ & [Hl' _] & _). congruence.
  - apply bool_decide_eq_false. intros He. by rewrite He, memeq_refl in E.
Qed.
Lemma stored_set_height h n : stored h -> stored (set_height h n).
Proof. done. Qed.
Lemma stored_set_work h w : stored h -> bytes_n 32 w -> stored (set_work h w).
Proof. intros (H1 & H2 & H3 & _) Hw. by split_and!. Qed.

(** * Paths *)

Section Path.
Variable m : hash_map.

(** The [k]-th parent. *)
Fixpoint up (k : nat) (h : hsk_header_t) : option hsk_header_t :=
  match k with
  | O => Some h
  | S k' =>
      match m !! hd_prev_block h with
      | None => None
      | Some p => up k' p
      end
  end.

Lemma up_add i j h g : up i h = Some g -> up (i + j) h = up j g.
Proof.
  revert h; induction i as [|i IH]; intros h; cbn [up Nat.add]; [by intros [= ->]|].
  destruct (m !! hd_prev_block h); [apply IH|done].
Qed.
Lemma up_S_inv i h g : up (S i) h = Some g ->
  exists q, up i h = Some q /\ m !! hd_prev_block q = Some g.
Proof.
  revert h; induction i as [|i IH]; intros h; cbn [up].
  - destruct (m !! hd_prev_block h) as [p|] eqn:E; [|done]. intros [= <-]. by exists h.
  - destruct (m !! hd_prev_block h) as [p|] eqn:E; [|done]. intros H. by apply IH.
Qed.

(** A header whose parent is known unless it is the root. *)
Definition linked (root h : hsk_header_t) : Prop :=
  hd_height h = 0 /\ h = root \/
  0 < hd_height h /\ exists p, m !! hd_prev_block h = Some p /\ hd_height h = hd_height p + 1.

(** Every header of the map is stored under its hash and linked. *)
Definition closed (root : hsk_header_t) : Prop :=
  forall k h, m !! k = Some h -> hd_hash h = k /\ stored h /\ linked root h.

Lemma closed_same root a b : closed root -> m !! hd_hash a = Some a -> m !! hd_hash b = Some b ->
  hd_hash a = hd_hash b -> a = b.
Proof. intros _ Ha Hb He. rewrite He, Hb in Ha. by injection Ha. Qed.

Lemma linked_nonneg root h : closed root -> linked root h -> 0 <= hd_height h.
Proof. intros _ [[-> _]|[H _]]; lia. Qed.

Lemma up_total root k h : closed root -> linked root h -> Z.of_nat k <= hd_height h ->
  exists g, up k h = Some g /\ hd_height g = hd_height h - Z.of_nat k /\ linked root g /\
    ((0 < k)%nat -> m !! hd_hash g = Some g).
Proof.
  intros Hc. revert h; induction k as [|k IH]; intros h Hl Hk.
  { exists h. split; [done|]. split; [lia|]. split; [done|lia]. }
  destruct Hl as [[H0 _]|(H0 & p & Hp & Hh)]; [lia|].
  destruct (Hc _ _ Hp) as (Hpk & _ & Hpl).
  destruct (IH p Hpl) as (g & Hg & Hgh & Hgl & Hgm); [lia|].
  exists g. cbn [up]. rewrite Hp. split; [done|]. split; [lia|]. split; [done|].
  intros _. destruct k as [|k]; [|apply Hgm; lia]. injection Hg as <-. by rewrite Hpk.
Qed.
Lemma up_height root k h g : closed root -> linked root h -> Z.of_nat k <= hd_height h ->
  up k h = Some g -> hd_height g = hd_height h - Z.of_nat k.
Proof.
  intros Hc Hl Hk Hg. destruct (up_total root k h Hc Hl Hk) as (g' & Hg' & Hh & _). congruence.
Qed.
Lemma up_in_map root k h g : closed root -> m !! hd_hash h = Some h -> up k h = Some g ->
  m !! hd_hash g = Some g.
Proof.
  intros Hc Hh Hg. destruct k as [|k]; [by injection Hg as <-|].
  apply up_S_inv in Hg as (q & _ & Hq). by destruct (Hc _ _ Hq) as (-> & _).
Qed.
End Path.

(** More headers do not change the paths that are there. *)
Lemma up_mono m m' k h g : m ⊆ m' -> up m k h = Some g -> up m' k h = Some g.
Proof.
  intros Hm. revert h; induction k as [|k IH]; intros h; cbn [up]; [done|].
  destruct (m !! hd_prev_block h) as [p|] eqn:E; [|done].
  rewrite (lookup_weaken _ _ _ _ E Hm). apply IH.
Qed.
Lemma linked_mono m m' root h : m ⊆ m' -> linked m root h -> linked m' root h.
Proof.
  intros Hm [H|(H0 & p & Hp & Hh)]; [by left|right]. split; [done|]. exists p.
  split; [by eapply lookup_weaken|done].
Qed.

(** * The invariant *)

(** The work of a header is that of its parent and its own. *)
Definition work_ok (m : hash_map) (h : hsk_header_t) : Prop :=
  0 < hd_height h -> exists p t, m !! hd_prev_block h = Some p /\
    hsk_pow_to_target (hd_bits h) = Some t /\
    hd_work h = be_split 32 (be_combine (hd_work p) + target_proof t).

Record chain_ok (c : hsk_chain_t) : Prop := {
  ok_closed : closed (ch_hashes c) (ch_genesis c);
  ok_genesis : ch_hashes c !! hd_hash (ch_genesis c) = Some (ch_genesis c) /\
               hd_height (ch_genesis c) = 0;
  ok_work : forall k h, ch_hashes c !! k = Some h -> work_ok (ch_hashes c) h;
  ok_tip : ch_hashes c !! hd_hash (ch_tip c) = Some (ch_tip c) /\
           ch_height c = hd_height (ch_tip c);
  ok_best : forall k h, ch_hashes c !! k = Some h ->
            be_combine (hd_work h) <= be_combine (hd_work (ch_tip c));
  ok_main : forall n, ch_heights c !! n =
            if bool_decide (0 <= n <= hd_height (ch_tip c))
            then up (ch_hashes c) (Z.to_nat (hd_height (ch_tip c) - n)) (ch_tip c) else None;
  ok_orphans : forall k o, ch_orphans c !! k = Some o ->
               hd_hash o = k /\ stored o /\ pow_ok o /\ ch_hashes c !! k = None;
  ok_prevs : forall k o, ch_prevs c !! k = Some o ->
             hd_prev_block o = k /\ ch_orphans c !! hd_hash o = Some o;
}.

(** Bounds that keep heights within 32 bits. *)
Definition heights_below (c : hsk_chain_t) (N : Z) : Prop :=
  forall k h, ch_hashes c !! k = Some h -> hd_height h < N.

(** What the constants of a network must satisfy. *)
Definition net_ok (net : network) : Prop :=
  0 < HSK_MIN_ACTUAL net /\ HSK_MIN_ACTUAL net <= HSK_MAX_ACTUAL net < 2 ^ 63 /\
  0 <= HSK_TARGET_SPACING net < 2 ^ 64 /\ bytes_n 32 (HSK_LIMIT net).
#[export] Instance net_ok_dec net : Decision (net_ok net).
Proof. unfold net_ok. solve_decision. Defined.

Lemma chain_ok_linked c k h : chain_ok c -> ch_hashes c !! k = Some h ->
  linked (ch_hashes c) (ch_genesis c) h /\ stored h /\ hd_hash h = k.
Proof. intros Hok Hh. by destruct (ok_closed c Hok _ _ Hh) as (? & ? & ?). Qed.

(** * Forks *)

Section Fork.
Variables (c : hsk_chain_t).
Hypothesis (Hclosed : closed (ch_hashes c) (ch_genesis c)).

(** A header that is in the chain, or is new to it. *)
Definition known_or_new (l : hsk_header_t) : Prop :=
  ch_hashes c !! hd_hash l = Some l \/ ch_hashes c !! hd_hash l = None.

Lemma descend_spec fuel l n : linked (ch_hashes c) (ch_genesis c) l -> known_or_new l ->
  0 <= n -> (Z.to_nat (hd_height l) < fuel)%nat ->
  exists j l', descend fuel c l n = Ret (Some l') /\ up (ch_hashes c) j l = Some l' /\
    linked (ch_hashes c) (ch_genesis c) l' /\ known_or_new l' /\ Z.of_nat j <= hd_height l /\
    hd_height l' <= n.
Proof.
  revert l; induction fuel as [|fuel IH]; intros l Hl Hk Hn Hf; [lia|].
  cbn [descend]. destruct (Z.ltb_spec n (hd_height l)) as [Hlt|Hge].
  - destruct Hl as [[H0 _]|(H0 & p & Hp & Hh)]; [lia|]. rewrite Hp.
    destruct (Hclosed _ _ Hp) as (Hpk & Hps & Hpl).
    destruct (IH p Hpl) as (j & l' & E & Hu & Hl' & Hk' & Hj & Hle); [left; by rewrite Hpk|done|lia|].
    exists (S j), l'. split; [done|]. split; [cbn [up]; by rewrite Hp|].
    split_and!; [done|done|lia|done].
  - exists 0%nat, l. split_and!; [done|done|done|done| |done].
    destruct Hl as [[H0 _]|[H0 _]]; lia.
Qed.

Lemma find_fork_loop_spec fuel f l : ch_hashes c !! hd_hash f = Some f ->
  linked (ch_hashes c) (ch_genesis c) l -> known_or_new l -> stored l ->
  (Z.to_nat (hd_height f) < fuel)%nat ->
  exists i j g, find_fork_loop fuel c f l = Ret (Some g) /\
    up (ch_hashes c) i f = Some g /\ up (ch_hashes c) j l = Some g /\
    Z.of_nat i <= hd_height f /\ Z.of_nat j <= hd_height l.
Proof.
  revert f l; induction fuel as [|fuel IH]; intros f l Hf Hl Hk Hs Hfu; [lia|].
  destruct (Hclosed _ _ Hf) as (_ & Hfs & Hfl).
  assert (Hf0 := linked_nonneg _ _ _ Hclosed Hfl). assert (Hl0 := linked_nonneg _ _ _ Hclosed Hl).
  assert (Hsame : forall l', known_or_new l' -> hd_hash f = hd_hash l' -> f = l').
  { intros l' [Hm|Hm] He; rewrite <-He, Hf in Hm; [by injection Hm|done]. }
  cbn [find_fork_loop]. rewrite stored_equal by done. cbn [obind].
  destruct (bool_decide_reflect (hd_hash f = hd_hash l)) as [He|Hne].
  { apply Hsame in He as <-; [|done]. exists 0%nat, 0%nat, f. split_and!; try done; lia. }
  destruct (descend_spec (S (Z.to_nat (hd_height l))) l (hd_height f)) as
    (j & l' & -> & Hu & Hl' & Hk' & Hj & Hle); [done|done|lia|lia|]. cbn [obind].
  assert (Hs' : stored l').
  { destruct j as [|j]; [by injection Hu as <-|].
    apply up_S_inv in Hu as (q & _ & Hq). by destruct (Hclosed _ _ Hq) as (_ & ? & _). }
  assert (Hl'0 := linked_nonneg _ _ _ Hclosed Hl').
  rewrite stored_equal by done. cbn [obind].
  destruct (bool_decide_reflect (hd_hash f = hd_hash l')) as [He|Hne'].
  { apply Hsame in He as <-; [|done]. exists 0%nat, j, f. split_and!; try done; lia. }
  destruct Hfl as [[Hf00 Hfg]|(Hfp & p & Hp & Hh)].
  { (* both at the root *)
    destruct Hl' as [[_ Hlg]|[Hlp _]]; [|lia]. by rewrite Hfg, Hlg in Hne'. }
  rewrite Hp. destruct (Hclosed _ _ Hp) as (Hpk & _).
  destruct (IH p l') as (i' & j' & g & E & Hi & Hj' & Hib & Hjb); [by rewrite Hpk|done|done|done|lia|].
  exists (S i'), (j + j')%nat, g. split; [done|]. split; [cbn [up]; by rewrite Hp|].
  split; [by rewrite (up_add _ _ _ _ _ Hu)|]. split; [lia|].
  assert (Hlh := up_height _ _ _ _ _ Hclosed Hl Hj Hu). lia.
Qed.

(** The headers from [h] down to, and without, the [i]-th parent. *)
Fixpoint path (i : nat) (h : hsk_header_t) : list hsk_header_t :=
  match i with
  | O => []
  | S i' =>
      h :: match ch_hashes c !! hd_prev_block h with
           | None => []
           | Some p => path i' p
           end
  end.

Lemma collect_spec fuel i h g : linked (ch_hashes c) (ch_genesis c) h -> known_or_new h -> stored h ->
  up (ch_hashes c) i h = Some g -> Z.of_nat i <= hd_height h -> ch_hashes c !! hd_hash g = Some g ->
  (i < fuel)%nat -> collect fuel c h g = Ret (path i h).
Proof.
  revert i h; induction fuel as [|fuel IH]; intros i h Hl Hk Hs Hu Hi Hg Hf; [lia|].
  destruct (Hclosed _ _ Hg) as (_ & Hgs & _). cbn [collect].
  rewrite stored_equal by done. cbn [obind].
  assert (Hgh := up_height _ _ _ _ _ Hclosed Hl Hi Hu).
  destruct (bool_decide_reflect (hd_hash h = hd_hash g)) as [He|Hne].
  - assert (h = g) as ->.
    { destruct Hk as [Hm|Hm]; rewrite He, Hg in Hm; [by injection Hm|done]. }
    assert (i = 0%nat) as -> by lia. done.
  - destruct i as [|i]; [by injection Hu as ->|].
    destruct Hl as [[H0 _]|(H0 & p & Hp & Hh)]; [lia|].
    rewrite Hp. cbn [of_option obind]. destruct (Hclosed _ _ Hp) as (Hpk & Hps & Hpl).
    cbn [up] in Hu. rewrite Hp in Hu. rewrite (IH i p); try done.
    + cbn [obind path]. by rewrite Hp.
    + left. by rewrite Hpk.
    + lia.
    + lia.
Qed.

(** The [k]-th entry of a path. *)
Lemma path_lookup i h k x : linked (ch_hashes c) (ch_genesis c) h -> Z.of_nat i <= hd_height h ->
  path i h !! k = Some x <-> (k < i)%nat /\ up (ch_hashes c) k h = Some x.
Proof.
  revert h k; induction i as [|i IH]; intros h k Hl Hi; [cbn; naive_solver lia|].
  destruct Hl as [[H0 _]|(H0 & p & Hp & Hh)]; [lia|].
  destruct (Hclosed _ _ Hp) as (_ & _ & Hpl). cbn [path]. rewrite Hp.
  destruct k as [|k]; cbn [up lookup list_lookup].
  - cbn. naive_solver lia.
  - rewrite Hp. cbn. rewrite IH by (done || lia). naive_solver lia.
Qed.
Lemma path_length i h : linked (ch_hashes c) (ch_genesis c) h -> Z.of_nat i <= hd_height h ->
  length (path i h) = i.
Proof.
  revert h; induction i as [|i IH]; intros h Hl Hi; [done|].
  destruct Hl as [[H0 _]|(H0 & p & Hp & Hh)]; [lia|].
  destruct (Hclosed _ _ Hp) as (_ & _ & Hpl). cbn [path length]. rewrite Hp, IH by (done || lia). done.
Qed.
End Fork.
