(* ===== verification/ChainSpec.v ===== *)
(** What the operations of [Chain] do on states that satisfy the invariant of
    [ChainInv]: reorganisation, insertion, the orphan loop and
    [hsk_chain_add]. *)

From S2P Require Import Prelude Bio Blake2b Sha3 Hash Bn Header Chain ChainInv.

(** * Reorganisation *)

Lemma delete_all_lookup (l : list hsk_header_t) (m : int_map) n :
  fold_left (fun m h => delete (hd_height h) m) l m !! n =
  if existsb (fun h => hd_height h =? n) l then None else m !! n.
Proof.
  revert m; induction l as [|h l IH]; intros m; [done|]. cbn [fold_left existsb]. rewrite IH.
  destruct (Z.eqb_spec (hd_height h) n) as [->|Hne]; cbn [orb].
  - rewrite lookup_delete_eq. by destruct existsb.
  - by rewrite lookup_delete_ne.
Qed.

Definition insert_all (l : list hsk_header_t) (m : int_map) : int_map :=
  fold_left (fun m h => <[hd_height h := h]> m) l m.
Lemma insert_all_other l m n : (forall h, h ∈ l -> hd_height h <> n) ->
  insert_all l m !! n = m !! n.
Proof.
  revert m; induction l as [|h l IH]; intros m Hl; [done|]. cbn [insert_all fold_left].
  etransitivity; [apply IH; set_solver|]. apply lookup_insert_ne. set_solver.
Qed.
Lemma insert_all_in l m x : x ∈ l -> (forall h, h ∈ l -> hd_height h = hd_height x -> h = x) ->
  insert_all l m !! hd_height x = Some x.
Proof.
  revert m; induction l as [|h l IH]; intros m Hx Hu; [by apply elem_of_nil in Hx|].
  cbn [insert_all fold_left].
  destruct (decide (Exists (fun y => hd_height y = hd_height x) l)) as [He|Hn].
  - apply Exists_exists in He as (y & Hy & Hyx).
    assert (y = x) as -> by (apply Hu; set_solver). apply IH; set_solver.
  - etransitivity; [apply insert_all_other|].
    + intros y Hy He. apply Hn, Exists_exists. by exists y.
    + apply elem_of_cons in Hx as [->|Hx]; [by rewrite lookup_insert_eq|].
      exfalso. apply Hn, Exists_exists. by exists x.
Qed.

Lemma set_heights_set c m m' : set_heights (set_heights c m) m' = set_heights c m'.
Proof. done. Qed.
Lemma connect_loop_cons c h l : ch_memory c = [] -> l <> [] ->
  connect_loop c (h :: l) = connect_loop (set_heights c (<[hd_height h := h]> (ch_heights c))) l.
Proof. intros Hm Hl. destruct l; [done|]. cbn. unfold heights_set, alloc. by rewrite Hm. Qed.
Lemma connect_loop_spec c l x : ch_memory c = [] ->
  connect_loop c (l ++ [x]) = Ret (set_heights c (insert_all l (ch_heights c))).
Proof.
  revert c; induction l as [|h l IH]; intros c Hm.
  - cbn. by destruct c.
  - cbn [app]. rewrite connect_loop_cons by (done || by destruct l). by rewrite IH.
Qed.

Section Reorganize.
Variables (c : hsk_chain_t) (l : hsk_header_t).
Hypothesis (Hok : chain_ok c).
Hypothesis (Hmem : ch_memory c = []).
Hypothesis (Hl : linked (ch_hashes c) (ch_genesis c) l).
Hypothesis (Hs : stored l).
Hypothesis (Hnew : ch_hashes c !! hd_hash l = None).

Lemma hsk_chain_reorganize_spec : exists m,
  hsk_chain_reorganize c l = Ret (set_heights c m) /\
  forall n, m !! n = if bool_decide (0 <= n < hd_height l)
                     then up (ch_hashes c) (Z.to_nat (hd_height l - n)) l else None.
Proof using All.
  assert (Hc := ok_closed c Hok). destruct (ok_tip c Hok) as [Ht _].
  destruct (Hc _ _ Ht) as (_ & Hts & Htl).
  destruct (find_fork_loop_spec c Hc (S (Z.to_nat (hd_height (ch_tip c)))) (ch_tip c) l)
    as (i & j & g & Hff & Hi & Hj & Hib & Hjb); [done|done|by right|done|lia|].
  assert (Hg : ch_hashes c !! hd_hash g = Some g) by (eapply up_in_map; eauto).
  assert (Hgi := up_height _ _ _ _ _ Hc Htl Hib Hi). assert (Hgj := up_height _ _ _ _ _ Hc Hl Hjb Hj).
  unfold hsk_chain_reorganize, hsk_chain_find_fork. rewrite Hff. cbn [obind of_option].
  rewrite (collect_spec c Hc _ i) by (try (left; assumption); try assumption; lia).
  rewrite (collect_spec c Hc _ j) by (try (right; assumption); try assumption; lia). cbn [obind].
  destruct j as [|j]; [injection Hj as <-; congruence|].
  assert (Hpl := path_length c Hc (S j) l Hl Hjb).
  assert (Hpk := fun k x => path_lookup c Hc (S j) l k x Hl Hjb).
  destruct (path c (S j) l) as [|h0 tl] eqn:Ep; [done|].
  rewrite reverse_cons, connect_loop_spec by done.
  eexists. split; [reflexivity|]. intros n. cbn [ch_heights set_heights].
  set (m0 := fold_left _ _ _).
  assert (Hin : forall x, x ∈ reverse tl -> exists k, (0 < k < S j)%nat /\
    up (ch_hashes c) k l = Some x /\ hd_height x = hd_height l - Z.of_nat k).
  { intros x Hx. rewrite elem_of_reverse in Hx. apply list_elem_of_lookup in Hx as [k Hk].
    destruct (proj1 (Hpk (S k) x) Hk) as [Hlt Hu]. exists (S k). split; [lia|]. split; [done|].
    eapply up_height; eauto; lia. }
  assert (Hdel : m0 !! n = if bool_decide (hd_height g < n <= hd_height (ch_tip c)) then None
                           else ch_heights c !! n).
  { subst m0. rewrite delete_all_lookup.
    destruct (existsb (fun h => hd_height h =? n) (path c i (ch_tip c))) eqn:Ee;
      destruct (bool_decide_reflect (hd_height g < n <= hd_height (ch_tip c))) as [Hb|Hb]; try done; exfalso.
    - apply existsb_exists in Ee as (x & Hx & He). apply Z.eqb_eq in He.
      apply list_elem_of_In, list_elem_of_lookup in Hx as [k Hk].
      apply path_lookup in Hk as [Hlt Hu]; [|done..]. apply up_height with (root := ch_genesis c) in Hu; [|done|done|lia]. lia.
    - assert (Hk : Z.of_nat (Z.to_nat (hd_height (ch_tip c) - n)) <= hd_height (ch_tip c)) by lia.
      destruct (up_total _ _ _ (ch_tip c) Hc Htl Hk) as (x & Hu & Hxh & _).
      enough (existsb (fun h => hd_height h =? n) (path c i (ch_tip c)) = true) by congruence.
      apply existsb_exists. exists x. split; [|apply Z.eqb_eq; lia].
      apply list_elem_of_In, list_elem_of_lookup. eexists. apply path_lookup; [done..|]. split; [|exact Hu]. lia. }
  rewrite ok_main in Hdel by done.
  assert (Hg0 : 0 <= hd_height g) by lia.
  destruct (bool_decide_reflect (0 <= n < hd_height l)) as [Hn|Hn].
  - destruct (Z.le_gt_cases n (hd_height g)) as [Hle|Hgt].
    + rewrite insert_all_other by (intros h Hh; apply Hin in Hh as (k & Hk & _ & ->); lia).
      rewrite Hdel, bool_decide_eq_false_2, bool_decide_eq_true_2 by lia.
      replace (Z.to_nat (hd_height (ch_tip c) - n)) with (i + Z.to_nat (hd_height g - n))%nat by lia.
      replace (Z.to_nat (hd_height l - n)) with (S j + Z.to_nat (hd_height g - n))%nat by lia.
      by rewrite (up_add _ _ _ _ _ Hi), (up_add _ _ _ _ _ Hj).
    + destruct (up_total _ _ (Z.to_nat (hd_height l - n)) l Hc Hl) as (x & Hu & Hxh & _); [lia|].
      rewrite Hu. replace n with (hd_height x) by lia. apply insert_all_in.
      * rewrite elem_of_reverse. apply list_elem_of_lookup. exists (Nat.pred (Z.to_nat (hd_height l - n))).
        apply (proj2 (Hpk (S (Nat.pred (Z.to_nat (hd_height l - n)))) x)).
        rewrite Nat.succ_pred by lia. split; [lia|done].
      * intros h Hh He. apply Hin in Hh as (k & Hk & Hu' & Hh).
        replace k with (Z.to_nat (hd_height l - n)) in Hu' by lia. congruence.
  - rewrite insert_all_other by (intros h Hh; apply Hin in Hh as (k & Hk & _ & ->); lia).
    rewrite Hdel. case_bool_decide; [done|]. rewrite bool_decide_eq_false_2; [done|]. lia.
Qed.
End Reorganize.

(** * Difficulty *)

(** The arithmetic of a retarget: clamp the time, divide the work done, take the
    target that stands for that much work. *)
Definition clamp_actual (net : network) (dt : Z) : Z :=
  Z.min (HSK_MAX_ACTUAL net) (Z.max (HSK_MIN_ACTUAL net) dt).
Definition retarget_value (net : network) (first last : hsk_header_t) : Z :=
  let work := (be_combine (hd_work last) - be_combine (hd_work first)) mod 2 ^ 512 in
  let proof := (work * HSK_TARGET_SPACING net) mod 2 ^ 512 /
               clamp_actual net (i64 (u64 (hd_time last - hd_time first))) in
  if proof =? 0 then 2 ^ 256 else (2 ^ 256 / proof - 1) mod 2 ^ 512.

Lemma be_combine_32 l : bytes_n 32 l -> 0 <= be_combine l < 2 ^ 256.
Proof. intros [Hl Hb]. assert (R := be_combine_range l Hb). rewrite Hl in R. exact R. Qed.
Lemma bn_of_digest l : bytes_n 32 l ->
  bn_wf (hsk_bn_from_array l) /\ bn_val (hsk_bn_from_array l) = be_combine l.
Proof. intros [Hl Hb]. apply (hsk_bn_from_array_spec l 8); [done|cbv; lia|done]. Qed.

Lemma to_array_32 n : bn_wf n -> hsk_bn_to_array n 32 = be_split 32 (bn_val n).
Proof. intros Hn. apply (hsk_bn_to_array_spec n 8 Hn). unfold HSK_BN_SIZE. lia. Qed.
Lemma cmp_sign_ltb {A} v w (x y : A) :
  (if 0 <? match v ?= w with Eq => 0 | Lt => -1 | Gt => 1 end then x else y) =
  if w <? v then x else y.
Proof. unfold Z.ltb at 2. rewrite (Z.compare_antisym v). by destruct (v ?= w). Qed.

Lemma clamp_actual_code net x : net_ok net ->
  (let x := if x <? HSK_MIN_ACTUAL net then HSK_MIN_ACTUAL net else x in
   if HSK_MAX_ACTUAL net <? x then HSK_MAX_ACTUAL net else x) = clamp_actual net x.
Proof.
  intros (H1 & H2 & _). unfold clamp_actual. cbv zeta.
  destruct (Z.ltb_spec x (HSK_MIN_ACTUAL net)) as [Hx|Hx].
  - rewrite (proj2 (Z.ltb_ge (HSK_MAX_ACTUAL net) (HSK_MIN_ACTUAL net))) by lia. lia.
  - destruct (Z.ltb_spec (HSK_MAX_ACTUAL net) x); lia.
Qed.

(** [hsk_chain_retarget] returns, and computes [retarget_value]. *)
Lemma hsk_chain_retarget_spec net first last : net_ok net ->
  bytes_n 32 (hd_work first) -> bytes_n 32 (hd_work last) -> hd_height first <= hd_height last ->
  hsk_chain_retarget net first last =
  Ret (let v := retarget_value net first last in
       if be_combine (HSK_LIMIT net) <? v then HSK_BITS net else hsk_pow_to_bits (be_split 32 v)).
Proof.
  intros Hnet Hf Hla Hh. unfold hsk_chain_retarget. rewrite (proj2 (Z.leb_le _ _) Hh).
  cbn [oassert obind]. cbv zeta. rewrite clamp_actual_code by done.
  destruct Hnet as (N1 & N2 & N3 & N4). set (dt := i64 _).
  assert (Hact : 0 < clamp_actual net dt < 2 ^ 63) by (unfold clamp_actual; lia).
  destruct (bn_of_digest _ Hf) as [Wf Vf]. destruct (bn_of_digest _ Hla) as [Wl Vl].
  destruct (bn_of_digest _ N4) as [Wlim Vlim].
  destruct (hsk_bn_from_int_spec (HSK_TARGET_SPACING net)) as [Ws Vs]; [done|].
  rewrite (u64_small (clamp_actual net dt)) by lia.
  destruct (hsk_bn_from_int_spec (clamp_actual net dt)) as [Wa Va]; [lia|].
  assert (Wd := hsk_bn_sub_wf _ _ Wl Wf). assert (Vd := hsk_bn_sub_val _ _ Wl Wf).
  destruct (hsk_bn_mul_spec _ _ Wd Ws) as [Wm Vm].
  destruct (hsk_bn_div_spec _ _ Wm Wa) as (p & -> & Wp & Vp); [lia|]. cbn [obind].
  rewrite Vm, Va, Vd, Vs, Vf, Vl in Vp. rewrite hsk_bn_is_zero_spec by apply Wp.
  unfold retarget_value. fold dt. set (proof := _ / clamp_actual net dt) in *. rewrite Vp.
  assert (Hp0 : 0 <= proof) by (apply Z.div_pos; [apply Z.mod_pos_bound|]; lia).
  assert (Hlim := be_combine_32 _ N4).
  destruct (Z.eqb_spec proof 0) as [H0|H0].
  { by rewrite (proj2 (Z.ltb_lt (be_combine (HSK_LIMIT net)) (2 ^ 256))) by lia. }
  destruct (hsk_bn_from_int_spec 1) as [W1 V1]; [lia|].
  destruct (hsk_bn_lshift_spec _ 256 W1) as [W2 V2]; [lia|]. rewrite V1 in V2.
  destruct (hsk_bn_div_spec _ _ W2 Wp) as (q & -> & Wq & Vq); [lia|]. cbn [obind].
  assert (We := hsk_bn_sub_wf _ _ Wq W1). assert (Ve := hsk_bn_sub_val _ _ Wq W1).
  rewrite hsk_bn_cmp_spec by done. rewrite to_array_32 by done.
  assert (V : bn_val (hsk_bn_sub q (hsk_bn_from_int 1)) = (2 ^ 256 / proof - 1) mod 2 ^ 512).
  { rewrite Ve, Vq, V1, V2, Vp. reflexivity. }
  rewrite V, Vlim. generalize ((2 ^ 256 / proof - 1) mod 2 ^ 512). intros v.
  rewrite cmp_sign_ltb. by destruct (_ <? v).
Qed.

(** ** Choosing the ends of the retarget window *)

(** [r] is the middle by time of [z], its parent and its grandparent. *)
Definition middle (m : hash_map) (z r : hsk_header_t) : Prop :=
  exists y x a b, m !! hd_prev_block z = Some y /\ m !! hd_prev_block y = Some x /\
    Permutation [a; r; b] [x; y; z] /\ hd_time a <= hd_time r <= hd_time b.

Lemma suitable_block_median c z y x :
  ch_hashes c !! hd_prev_block z = Some y -> ch_hashes c !! hd_prev_block y = Some x ->
  exists a r b, hsk_chain_suitable_block c z = Ret r /\ Permutation [a; r; b] [x; y; z] /\
    hd_time a <= hd_time r <= hd_time b.
Proof.
  intros Hy Hx. unfold hsk_chain_suitable_block. rewrite Hy. cbn [of_option obind].
  rewrite Hx. cbn [of_option obind].
  destruct (Z.ltb_spec (hd_time z) (hd_time x)); cbv beta match zeta;
  match goal with |- context [hd_time y <? hd_time ?h] => destruct (Z.ltb_spec (hd_time y) (hd_time h)) end;
  cbv beta match zeta;
  match goal with |- context [hd_time ?g <? hd_time ?h] => destruct (Z.ltb_spec (hd_time g) (hd_time h)) end;
  cbv beta match zeta;
  match goal with
  | |- exists a r b, Ret ?m = Ret r /\ Permutation _ [?x; ?y; ?z] /\ _ =>
    let go a b := (exists a, m, b; split; [reflexivity|split; [solve_Permutation|lia]]) in
    first [go x y|go y x|go x z|go z x|go y z|go z y]
  end.
Qed.

Section Target.
Variables (net : network) (c : hsk_chain_t).
Hypothesis (Hnet : net_ok net).
Hypothesis (Hclosed : closed (ch_hashes c) (ch_genesis c)).

Lemma suitable_block_up h : linked (ch_hashes c) (ch_genesis c) h -> 2 <= hd_height h ->
  exists k r, hsk_chain_suitable_block c h = Ret r /\ middle (ch_hashes c) h r /\
    (k <= 2)%nat /\ up (ch_hashes c) k h = Some r.
Proof.
  intros [[H0 _]|(_ & y & Hy & Hhy)] Hh; [lia|].
  destruct (Hclosed _ _ Hy) as (_ & _ & [[H0 _]|(_ & x & Hx & _)]); [lia|].
  destruct (suitable_block_median c h y x Hy Hx) as (a & r & b & E & Hp & Hab).
  assert (Hm : middle (ch_hashes c) h r) by (by exists y, x, a, b).
  assert (Hr : r ∈ [x; y; h]) by (rewrite <-Hp; set_solver).
  assert (r = h \/ r = y \/ r = x) as [->|[->| ->]] by set_solver.
  - exists 0%nat, h. split_and!; [done|done|lia|done].
  - exists 1%nat, y. split_and!; [done|done|lia|]. cbn [up]. by rewrite Hy.
  - exists 2%nat, x. split_and!; [done|done|lia|]. cbn [up]. by rewrite Hy, Hx.
Qed.

Lemma ancestor_loop_spec fuel h n : linked (ch_hashes c) (ch_genesis c) h -> 0 <= n <= hd_height h ->
  (Z.to_nat (hd_height h - n) < fuel)%nat -> exists g, ancestor_loop fuel c h n = Ret g /\
    up (ch_hashes c) (Z.to_nat (hd_height h - n)) h = Some g.
Proof.
  revert h; induction fuel as [|fuel IH]; intros h Hl Hn Hf; [lia|]. cbn [ancestor_loop].
  destruct (Z.eqb_spec (hd_height h) n) as [He|Hne].
  { exists h. rewrite He, Z.sub_diag. done. }
  destruct Hl as [[H0 _]|(_ & p & Hp & Hh)]; [lia|]. rewrite Hp. cbn [of_option obind].
  destruct (Hclosed _ _ Hp) as (_ & _ & Hpl). destruct (IH p Hpl) as (g & E & Hu); [lia|lia|].
  exists g. split; [done|]. replace (Z.to_nat (hd_height h - n)) with (S (Z.to_nat (hd_height p - n))) by lia.
  cbn [up]. by rewrite Hp.
Qed.
Lemma hsk_chain_get_ancestor_spec h n : linked (ch_hashes c) (ch_genesis c) h ->
  0 <= n <= hd_height h -> exists g, hsk_chain_get_ancestor c h n = Ret g /\
    up (ch_hashes c) (Z.to_nat (hd_height h - n)) h = Some g.
Proof.
  intros Hl Hn. unfold hsk_chain_get_ancestor. rewrite (proj2 (Z.leb_le _ _)) by lia.
  cbn [oassert obind]. apply ancestor_loop_spec; [done|lia|lia].
Qed.

Lemma up_stored h k g : stored h -> up (ch_hashes c) k h = Some g -> stored g.
Proof using Hclosed.
  intros Hs Hu. destruct k as [|k]; [by injection Hu as <-|].
  apply up_S_inv in Hu as (q & _ & Hq). by destruct (Hclosed _ _ Hq) as (_ & ? & _).
Qed.

(** The initial difficulty is kept: the network does not retarget, or resets after a
    pause, or the chain is shorter than the window. *)
Definition keeps_bits (time : Z) (prev : hsk_header_t) : bool :=
  HSK_NO_RETARGETTING net ||
  (HSK_TARGET_RESET net && (i64 (hd_time prev) + HSK_TARGET_SPACING net * 2 <? time)) ||
  (hd_height prev <? 146).

(** Otherwise the ends of the window are the middle of the last three headers and
    of the three headers 144 blocks before. *)
Lemma hsk_chain_get_target_window time prev :
  linked (ch_hashes c) (ch_genesis c) prev -> stored prev ->
  if keeps_bits time prev then hsk_chain_get_target net c time (Some prev) = Ret (HSK_BITS net)
  else exists last ancestor first, middle (ch_hashes c) prev last /\
    up (ch_hashes c) 144 prev = Some ancestor /\ middle (ch_hashes c) ancestor first /\
    hsk_chain_get_target net c time (Some prev) =
      Ret (let v := retarget_value net first last in
           if be_combine (HSK_LIMIT net) <? v then HSK_BITS net
           else hsk_pow_to_bits (be_split 32 v)).
Proof using All.
  intros Hl Hs. unfold keeps_bits, hsk_chain_get_target.
  destruct (HSK_NO_RETARGETTING net); [done|]. destruct (_ && _); [done|]. cbn [orb].
  change (144 + 2) with 146. destruct (Z.ltb_spec (hd_height prev) 146) as [|Hh]; [done|].
  destruct (suitable_block_up prev) as (i & last & -> & Hml & Hi & Hu); [done|lia|]. cbn [obind].
  destruct (hsk_chain_get_ancestor_spec prev (hd_height prev - 144)) as (a & -> & Ha); [done|lia|].
  cbn [obind]. replace (Z.to_nat (hd_height prev - (hd_height prev - 144))) with 144%nat in Ha by lia.
  destruct (up_total _ _ 144 prev Hclosed Hl) as (a' & Ha' & Hah & Hal & _); [lia|].
  rewrite Ha in Ha'. injection Ha' as <-.
  destruct (suitable_block_up a) as (j & first & -> & Hmf & Hj & Hu'); [done|lia|]. cbn [obind].
  assert (Hf : up (ch_hashes c) (144 + j) prev = Some first) by (by rewrite (up_add _ _ _ _ _ Ha)).
  exists last, a, first. split; [done|]. split; [exact Ha|]. split; [done|].
  assert (Hlh := up_height _ _ i _ _ Hclosed Hl ltac:(lia) Hu).
  assert (Hfh := up_height _ _ (144 + j) _ _ Hclosed Hl ltac:(lia) Hf).
  apply hsk_chain_retarget_spec; [done| | |lia].
  - eapply up_stored in Hf; [|done]. apply Hf.
  - eapply up_stored in Hu; [|done]. apply Hu.
Qed.
Lemma hsk_chain_get_target_total time prev :
  linked (ch_hashes c) (ch_genesis c) prev -> stored prev ->
  exists bits, hsk_chain_get_target net c time (Some prev) = Ret bits.
Proof using All.
  intros Hl Hs. assert (H := hsk_chain_get_target_window time prev Hl Hs).
  destruct (keeps_bits time prev); [by eexists|]. destruct H as (? & ? & ? & _ & _ & _ & H). by eexists.
Qed.
End Target.

(** * Insertion *)

Lemma chain_ok_core c c' : ch_height c' = ch_height c -> ch_tip c' = ch_tip c ->
  ch_genesis c' = ch_genesis c -> ch_hashes c' = ch_hashes c -> ch_heights c' = ch_heights c ->
  ch_orphans c' = ch_orphans c -> ch_prevs c' = ch_prevs c -> chain_ok c -> chain_ok c'.
Proof.
  intros E1 E2 E3 E4 E5 E6 E7 [? ? ? ? ? ? ? ?].
  constructor; rewrite ?E1, ?E2, ?E3, ?E4, ?E5, ?E6, ?E7; assumption.
Qed.

Lemma up_extend m h' k h g : m !! hd_hash h' = None -> up m k h = Some g ->
  up (<[hd_hash h' := h']> m) k h = Some g.
Proof. intros Hn. apply up_mono. by apply insert_subseteq. Qed.

Section Extend.
Variables (c : hsk_chain_t) (h : hsk_header_t).
Hypothesis (Hok : chain_ok c).
Hypothesis (Hnew : ch_hashes c !! hd_hash h = None).
Hypothesis (Hno : ch_orphans c !! hd_hash h = None).
Hypothesis (Hs : stored h).
Hypothesis (Hl : linked (ch_hashes c) (ch_genesis c) h).
Hypothesis (Hh : 0 < hd_height h).
Hypothesis (Hw : work_ok (ch_hashes c) h).

Local Notation hashes' := (<[hd_hash h := h]> (ch_hashes c)).
Lemma extend_subseteq : ch_hashes c ⊆ hashes'.
Proof using Hnew. by apply insert_subseteq. Qed.
Hint Resolve extend_subseteq : core.

Lemma extend_closed : closed hashes' (ch_genesis c).
Proof using All.
  intros k x [(<- & <-)|(Hne & Hx)]%lookup_insert_Some.
  - split; [done|]. split; [done|]. eapply linked_mono; eauto.
  - destruct (ok_closed c Hok _ _ Hx) as (? & ? & ?). split; [done|]. split; [done|].
    eapply linked_mono; eauto.
Qed.
Lemma extend_work k x : hashes' !! k = Some x -> work_ok hashes' x.
Proof using All.
  assert (Hmono : forall y, work_ok (ch_hashes c) y -> work_ok hashes' y).
  { intros y Hy H0. destruct (Hy H0) as (p & t & Hp & Ht). exists p, t. split; [|done].
    by eapply lookup_weaken. }
  intros [(_ & <-)|(_ & Hx)]%lookup_insert_Some; apply Hmono; [done|]. by eapply ok_work.
Qed.
Lemma extend_orphans k o : ch_orphans c !! k = Some o ->
  hd_hash o = k /\ stored o /\ pow_ok o /\ hashes' !! k = None.
Proof using All.
  intros Ho. destruct (ok_orphans c Hok _ _ Ho) as (? & ? & ? & ?). split_and!; try done.
  apply lookup_insert_None. split; [done|]. intros He. congruence.
Qed.

(** A header that does not have more work than the tip. *)
Lemma chain_ok_side : be_combine (hd_work h) <= be_combine (hd_work (ch_tip c)) ->
  chain_ok (set_hashes c hashes').
Proof using All.
  intros Hle. destruct (ok_tip c Hok) as [Ht Hth]. destruct (ok_genesis c Hok) as [Hg Hg0].
  constructor; cbn [ch_hashes ch_heights ch_tip ch_genesis ch_height ch_orphans ch_prevs set_hashes].
  - apply extend_closed.
  - split; [by eapply lookup_weaken|done].
  - apply extend_work.
  - split; [by eapply lookup_weaken|done].
  - intros k x [(_ & <-)|(_ & Hx)]%lookup_insert_Some; [done|]. by eapply ok_best.
  - intros n. rewrite ok_main by done. case_bool_decide as Hn; [|done].
    destruct (chain_ok_linked c _ _ Hok Ht) as (Htl & _).
    destruct (up_total _ _ (Z.to_nat (hd_height (ch_tip c) - n)) _ (ok_closed c Hok) Htl)
      as (g & Hu & _); [lia|].
    rewrite Hu. symmetry. by apply up_extend.
  - apply extend_orphans.
  - apply ok_prevs, Hok.
Qed.

(** A header with more work: the new tip, with the heights of its path. *)
Lemma chain_ok_tip m : be_combine (hd_work (ch_tip c)) < be_combine (hd_work h) ->
  (forall n, m !! n = if bool_decide (0 <= n < hd_height h)
                      then up (ch_hashes c) (Z.to_nat (hd_height h - n)) h else None) ->
  chain_ok (set_tip (set_heights (set_hashes c hashes') (<[hd_height h := h]> m)) (hd_height h) h).
Proof using All.
  intros Hlt Hm. destruct (ok_genesis c Hok) as [Hg Hg0].
  constructor; cbn [ch_hashes ch_heights ch_tip ch_genesis ch_height ch_orphans ch_prevs
                    set_hashes set_heights set_tip].
  - apply extend_closed.
  - split; [by eapply lookup_weaken|done].
  - apply extend_work.
  - split; [apply lookup_insert_eq|done].
  - intros k x [(_ & <-)|(_ & Hx)]%lookup_insert_Some; [lia|]. assert (R := ok_best c Hok _ _ Hx). lia.
  - intros n. destruct (decide (n = hd_height h)) as [->|Hne].
    + rewrite lookup_insert_eq, bool_decide_eq_true_2, Z.sub_diag by lia. done.
    + rewrite lookup_insert_ne, Hm by done.
      destruct (bool_decide_reflect (0 <= n < hd_height h)) as [Hn|Hn].
      * rewrite bool_decide_eq_true_2 by lia.
        destruct (up_total _ _ (Z.to_nat (hd_height h - n)) _ (ok_closed c Hok) Hl) as (g & Hu & _); [lia|].
        rewrite Hu. symmetry. by apply up_extend.
      * by rewrite bool_decide_eq_false_2 by lia.
  - apply extend_orphans.
  - apply ok_prevs, Hok.
Qed.
End Extend.

(** States that differ in the flags only. *)
Definition same_core (c c' : hsk_chain_t) : Prop :=
  ch_height c' = ch_height c /\ ch_tip c' = ch_tip c /\ ch_genesis c' = ch_genesis c /\
  ch_hashes c' = ch_hashes c /\ ch_heights c' = ch_heights c /\ ch_orphans c' = ch_orphans c /\
  ch_prevs c' = ch_prevs c /\ ch_memory c' = ch_memory c.
Lemma same_core_ok c c' : same_core c c' -> chain_ok c -> chain_ok c'.
Proof. intros (? & ? & ? & ? & ? & ? & ? & _). by apply chain_ok_core. Qed.
Lemma maybe_sync_core net now c : same_core c (hsk_chain_maybe_sync net now c).
Proof. unfold hsk_chain_maybe_sync. repeat case_match; by split_and!. Qed.
Lemma checkpoint_flush_core net c : same_core c (hsk_chain_checkpoint_flush net c).
Proof. unfold hsk_chain_checkpoint_flush. repeat case_match; by split_and!. Qed.
#[export] Instance same_core_trans : Transitive same_core.
Proof. unfold same_core. intros a b c (? & ? & ? & ? & ? & ? & ? & ?) (? & ? & ? & ? & ? & ? & ? & ?). split_and!; congruence. Qed.

Lemma hsk_chain_save_spec net now c h : ch_memory c = [] ->
  exists c', hsk_chain_save net now c h = (HSK_SUCCESS, c') /\
    same_core (set_tip (set_heights (set_hashes c (<[hd_hash h := h]> (ch_hashes c)))
                 (<[hd_height h := h]> (ch_heights c))) (hd_height h) h) c'.
Proof.
  intros Hm. unfold hsk_chain_save, hashes_set, heights_set, alloc. rewrite Hm.
  cbv beta match zeta. cbn [negb ch_memory set_hashes ch_heights]. rewrite Hm. cbv beta match zeta. cbn [negb].
  eexists. split; [reflexivity|].
  etransitivity; [apply (maybe_sync_core net now)|]. case_match; [apply checkpoint_flush_core|].
  by split_and!.
Qed.

(** The header with the height and the work that the chain gives it. *)
Definition new_entry (prev hdr : hsk_header_t) (t : list Z) : hsk_header_t :=
  set_work (set_height hdr (hd_height prev + 1))
    (be_split 32 (be_combine (hd_work prev) + target_proof t)).

Section Insert.
Variables (net : network) (now : Z) (c : hsk_chain_t) (hdr prev : hsk_header_t) (t : list Z).
Hypothesis (Hnet : net_ok net).
Hypothesis (Hok : chain_ok c).
Hypothesis (Hmem : ch_memory c = []).
Hypothesis (Hs : stored hdr).
Hypothesis (Ht : hsk_pow_to_target (hd_bits hdr) = Some t).
Hypothesis (Hnew : ch_hashes c !! hd_hash hdr = None).
Hypothesis (Hno : ch_orphans c !! hd_hash hdr = None).
Hypothesis (Hprev : ch_hashes c !! hd_prev_block hdr = Some prev).

Lemma prev_facts : linked (ch_hashes c) (ch_genesis c) prev /\ stored prev /\
  hd_hash prev = hd_prev_block hdr /\ 0 <= hd_height prev.
Proof using Hok Hprev.
  destruct (chain_ok_linked c _ _ Hok Hprev) as (Hl & Hps & Hk). split_and!; try done.
  eapply linked_nonneg; eauto using ok_closed.
Qed.

Lemma new_entry_facts : let h := new_entry prev hdr t in
  stored h /\ linked (ch_hashes c) (ch_genesis c) h /\ 0 < hd_height h /\ work_ok (ch_hashes c) h.
Proof using All.
  cbv zeta. destruct prev_facts as (Hl & Hps & Hk & H0).
  assert (R := bytes_be_split 32 (be_combine (hd_work prev) + target_proof t)).
  split_and!; cbn [new_entry set_work set_height hd_height hd_prev_block]; [|right|lia|].
  - apply stored_set_work; [by apply stored_set_height|]. split; [apply length_be_split|done].
  - cbn. split; [lia|]. by exists prev.
  - intros _. exists prev, t. done.
Qed.

(** Making the new header the tip. *)
Lemma insert_tip : be_combine (hd_work (ch_tip c)) < be_combine (hd_work (new_entry prev hdr t)) ->
  exists c1 c', (if negb (memeq (hd_prev_block hdr) (hd_hash (ch_tip c)))
                 then hsk_chain_reorganize c (new_entry prev hdr t) else Ret c) = Ret c1 /\
    hsk_chain_save net now c1 (new_entry prev hdr t) = (HSK_SUCCESS, c') /\ chain_ok c' /\
    ch_hashes c' = <[hd_hash hdr := new_entry prev hdr t]> (ch_hashes c) /\
    ch_tip c' = new_entry prev hdr t /\ ch_genesis c' = ch_genesis c /\
    ch_orphans c' = ch_orphans c /\ ch_prevs c' = ch_prevs c /\ ch_memory c' = [].
Proof using All.
  intros Hlt. destruct new_entry_facts as (Hes & Hel & He0 & Hew).
  destruct (ok_tip c Hok) as [Htip Hth]. destruct (chain_ok_linked c _ _ Hok Htip) as (Htl & Hts & _).
  destruct prev_facts as (Hl & Hps & Hk & H0).
  assert (Hc1 : exists m, (if negb (memeq (hd_prev_block hdr) (hd_hash (ch_tip c)))
      then hsk_chain_reorganize c (new_entry prev hdr t) else Ret c) = Ret (set_heights c m) /\
    forall n, m !! n = if bool_decide (0 <= n < hd_height (new_entry prev hdr t))
      then up (ch_hashes c) (Z.to_nat (hd_height (new_entry prev hdr t) - n)) (new_entry prev hdr t)
      else None).
  { destruct (memeq (hd_prev_block hdr) (hd_hash (ch_tip c))) eqn:Em; cbn [negb].
    - assert (hd_prev_block hdr = hd_hash (ch_tip c)) as Heq.
      { apply memeq_spec; [|done]. rewrite <-Hk. destruct Hps as (_ & _ & [-> _] & _), Hts as (_ & _ & [-> _] & _). done. }
      exists (ch_heights c). split; [by destruct c|]. intros n. rewrite (ok_main c Hok n).
      assert (prev = ch_tip c) as -> by congruence.
      cbn [new_entry set_work set_height hd_height].
      destruct (bool_decide_reflect (0 <= n <= hd_height (ch_tip c))).
      + rewrite bool_decide_eq_true_2 by lia.
        replace (Z.to_nat (hd_height (ch_tip c) + 1 - n)) with (S (Z.to_nat (hd_height (ch_tip c) - n))) by lia.
        cbn [up hd_prev_block new_entry set_work set_height]. by rewrite Hprev.
      + by rewrite bool_decide_eq_false_2 by lia.
    - apply hsk_chain_reorganize_spec; done. }
  destruct Hc1 as (m & -> & Hm).
  destruct (hsk_chain_save_spec net now (set_heights c m) (new_entry prev hdr t)) as (c' & E & Hcore); [done|].
  exists (set_heights c m), c'. split; [done|]. split; [done|].
  split; [|destruct Hcore as (? & ? & ? & ? & ? & ? & ? & ?); split_and!; try done; (etransitivity; [eassumption|done])].
  eapply same_core_ok; [exact Hcore|]. by apply (chain_ok_tip c (new_entry prev hdr t)).
Qed.

Hypothesis (Hh : hd_height prev + 1 < 2 ^ 32).

(** What a successful insertion does. *)
Definition inserted (c' : hsk_chain_t) : Prop :=
  let h := new_entry prev hdr t in
  chain_ok c' /\ ch_hashes c' = <[hd_hash hdr := h]> (ch_hashes c) /\
  ch_tip c' = (if be_combine (hd_work (ch_tip c)) <? be_combine (hd_work h) then h else ch_tip c) /\
  ch_genesis c' = ch_genesis c /\
  ch_orphans c' = ch_orphans c /\ ch_prevs c' = ch_prevs c /\ ch_memory c' = [].

Lemma hsk_chain_insert_spec : exists bits,
  hsk_chain_get_target net c (i64 (hd_time hdr)) (Some prev) = Ret bits /\
  if i64 (hd_time hdr) <=? hsk_chain_get_mtp c (Some prev)
  then hsk_chain_insert net now c hdr prev = Ret (HSK_ETIMETOOOLD, c, hdr)
  else if negb (hd_bits hdr =? bits)
  then hsk_chain_insert net now c hdr prev = Ret (HSK_EBADDIFFBITS, c, hdr)
  else exists c', hsk_chain_insert net now c hdr prev = Ret (HSK_SUCCESS, c', new_entry prev hdr t) /\
    inserted c'.
Proof using All.
  destruct new_entry_facts as (Hes & Hel & He0 & Hew). destruct prev_facts as (Hl & Hps & Hk & H0).
  destruct (hsk_chain_get_target_total net c Hnet (ok_closed c Hok) (i64 (hd_time hdr)) prev Hl Hps)
    as (bits & Hbits).
  exists bits. split; [done|]. unfold hsk_chain_insert. rewrite stored_cache by done. cbn [obind].
  destruct (_ <=? hsk_chain_get_mtp c (Some prev)); [done|]. rewrite Hbits. cbn [obind].
  destruct (negb (hd_bits hdr =? bits)); [done|]. rewrite u32_small by lia.
  rewrite hsk_header_calc_work_spec by (apply Hps || (cbn; apply Hs)).
  cbn [hd_bits set_height]. rewrite Ht. cbn [obind].
  change (set_work _ _) with (new_entry prev hdr t).
  destruct (ok_tip c Hok) as [Htip _]. destruct (chain_ok_linked c _ _ Hok Htip) as (_ & Hts & _).
  assert (Hwb : bytes_n 32 (hd_work (new_entry prev hdr t))) by apply Hes.
  assert (Htb : bytes_n 32 (hd_work (ch_tip c))) by apply Hts.
  rewrite memcmp_be by (apply Hwb || apply Htb || (destruct Hwb as [-> _], Htb as [-> _]; done)).
  destruct (Z.compare_spec (be_combine (hd_work (new_entry prev hdr t))) (be_combine (hd_work (ch_tip c))))
    as [Hc|Hc|Hc].
  1,2: unfold hashes_set, alloc; rewrite Hmem; cbn [negb]; eexists; split; [reflexivity|];
    unfold inserted; cbv zeta; rewrite (proj2 (Z.ltb_ge _ _)) by lia;
    (split; [|split_and!; done]); apply (chain_ok_side c (new_entry prev hdr t)); try done; lia.
  rewrite stored_cache by done. cbn [obind].
  destruct insert_tip as (c1 & c' & E1 & E2 & Hr); [done|].
  change (hd_prev_block (new_entry prev hdr t)) with (hd_prev_block hdr).
  rewrite E1. cbn [obind]. rewrite E2. exists c'. split; [done|].
  unfold inserted. cbv zeta. rewrite (proj2 (Z.ltb_lt _ _)) by done. exact Hr.
Qed.
End Insert.
