(* ===== verification/ChainQuery.v ===== *)
(** The questions that other components put to the chain: the median time past,
    the block locator and the name root that is safe to resolve with. *)

From Stdlib Require Import Sorted.
From stdpp Require Import sorting.
From S2P Require Import Prelude Bio Blake2b Sha3 Hash Bn Header Chain ChainInv ChainSpec.

(** * Sorting *)

Lemma insert_sorted_perm x l : Permutation (insert_sorted x l) (x :: l).
Proof.
  induction l as [|y l IH]; [done|]. cbn [insert_sorted]. destruct (x <=? y); [done|].
  rewrite IH. solve_Permutation.
Qed.
Lemma qsort_perm l : Permutation (qsort l) l.
Proof.
  induction l as [|x l IH]; [done|]. unfold qsort in *. cbn [fold_right].
  by rewrite insert_sorted_perm, IH.
Qed.
Lemma insert_sorted_sorted x l : StronglySorted Z.le l -> StronglySorted Z.le (insert_sorted x l).
Proof.
  induction 1 as [|y l Hl IH Hy]; [by repeat constructor|]. cbn [insert_sorted].
  destruct (Z.leb_spec x y) as [Hxy|Hxy].
  - constructor; [by constructor|]. constructor; [done|]. eapply Forall_impl; [exact Hy|]. intros; lia.
  - constructor; [done|]. rewrite insert_sorted_perm. constructor; [lia|done].
Qed.
Lemma qsort_sorted l : StronglySorted Z.le (qsort l).
Proof. induction l as [|x l IH]; [constructor|]. by apply insert_sorted_sorted. Qed.

(** The entry of a sorted list at [k] splits it. *)
Lemma sorted_split l k : StronglySorted Z.le l -> (k < length l)%nat ->
  exists lo hi, l = lo ++ nth k l 0 :: hi /\ length lo = k /\
    Forall (fun t => t <= nth k l 0) lo /\ Forall (fun t => nth k l 0 <= t) hi.
Proof.
  intros Hs. revert k; induction Hs as [|x l Hl IH Hx]; intros k Hk; [cbn in Hk; lia|].
  destruct k as [|k]; [by exists [], l|]. cbn [length] in Hk.
  destruct (IH k) as (lo & hi & E & Hlen & Hlo & Hhi); [lia|]. cbn [nth].
  exists (x :: lo), hi. split; [by rewrite E at 1|]. split; [cbn; lia|]. split; [|done].
  constructor; [|done]. rewrite E in Hx. apply Forall_app in Hx as [_ Hx]. by inversion Hx.
Qed.

(** * Median time *)

Section Mtp.
Variable c : hsk_chain_t.
Hypothesis (Hclosed : closed (ch_hashes c) (ch_genesis c)).

Lemma mtp_times_spec n h : linked (ch_hashes c) (ch_genesis c) h ->
  (ch_hashes c !! hd_prev_block (ch_genesis c) = None) ->
  length (mtp_times n c (Some h)) = Nat.min n (S (Z.to_nat (hd_height h))) /\
  forall k t, mtp_times n c (Some h) !! k = Some t ->
    exists g, up (ch_hashes c) k h = Some g /\ t = i64 (hd_time g).
Proof.
  revert h; induction n as [|n IH]; intros h Hl Hg; [by split|]. cbn [mtp_times].
  destruct Hl as [[H0 ->]|(H0 & p & Hp & Hh)].
  - rewrite Hg, H0. assert (E : mtp_times n c None = []) by by destruct n. rewrite E. split; [cbn; lia|].
    intros [|k] t; [|done]. intros [= <-]. by exists (ch_genesis c).
  - destruct (Hclosed _ _ Hp) as (_ & _ & Hpl). destruct (IH p Hpl Hg) as [Hlen Hk]. rewrite Hp.
    assert (Hp0 := linked_nonneg _ _ _ Hclosed Hpl). split; [cbn [length]; lia|].
    intros [|k] t; [intros [= <-]; by exists h|]. intros Ht. destruct (Hk _ _ Ht) as (g & Hu & ->).
    exists g. split; [|done]. cbn [up]. by rewrite Hp.
Qed.
End Mtp.

(** * The safe root *)

Lemma main_chain_total c n : chain_ok c -> 0 <= n <= hd_height (ch_tip c) ->
  exists h, ch_heights c !! n = Some h /\ hd_height h = n /\ stored h.
Proof.
  intros Hok Hn. destruct (ok_tip c Hok) as [Ht _].
  destruct (chain_ok_linked c _ _ Hok Ht) as (Htl & Hts & _).
  destruct (up_total _ _ (Z.to_nat (hd_height (ch_tip c) - n)) _ (ok_closed c Hok) Htl)
    as (g & Hu & Hh & _); [lia|].
  exists g. rewrite ok_main, bool_decide_eq_true_2 by done. split_and!; [done|lia|].
  eapply up_stored; eauto using ok_closed.
Qed.

(** The last multiple of the tree interval when fewer than 12 blocks came after it,
    and the tip itself otherwise. *)
Definition root_height (net : network) (height : Z) : Z :=
  let rest := height mod HSK_TREE_INTERVAL net in
  if rest <? 12 then height - rest else height.

Lemma safe_height_spec net c : 0 < HSK_TREE_INTERVAL net -> 0 <= ch_height c < 2 ^ 32 ->
  safe_height net c = root_height net (ch_height c) /\
  0 <= root_height net (ch_height c) <= ch_height c.
Proof.
  intros Hi Hh. unfold safe_height, root_height. rewrite (u32_small (ch_height c)) by done. cbv zeta.
  assert (R := Z.mod_pos_bound (ch_height c) (HSK_TREE_INTERVAL net) Hi).
  assert (Rle := Z.mod_le (ch_height c) (HSK_TREE_INTERVAL net) ltac:(lia) Hi).
  destruct (Z.leb_spec 12 (ch_height c mod HSK_TREE_INTERVAL net)); rewrite u32_small by lia.
  - rewrite (proj2 (Z.ltb_ge _ 12)) by lia. lia.
  - rewrite (proj2 (Z.ltb_lt _ 12)) by lia. lia.
Qed.

(** * The locator *)

Section Locator.
Variable c : hsk_chain_t.
Hypothesis (Hok : chain_ok c).
Hypothesis (Hh32 : hd_height (ch_tip c) < 2 ^ 32).

Definition at_height (n : Z) (hash : list Z) : Prop :=
  exists h, ch_heights c !! n = Some h /\ hd_hash h = hash.

(** The step for the [i]-th hash. *)
Definition locator_step (i : Z) : Z := if i <=? 11 then 1 else 2 ^ (i - 11).
Lemma locator_step_next i : 1 <= i ->
  (if 10 <? i then locator_step i * 2 else locator_step i) = locator_step (i + 1).
Proof.
  intros Hi. unfold locator_step.
  destruct (Z.ltb_spec 10 i), (Z.leb_spec i 11), (Z.leb_spec (i + 1) 11); try lia.
  - replace i with 11 by lia. done.
  - replace (i + 1 - 11) with (Z.succ (i - 11)) by lia. rewrite Z.pow_succ_r by lia. lia.
Qed.
Lemma locator_step_bound i : 1 <= i -> 1 <= locator_step i /\ (locator_step i < 2 ^ 32 -> i <= 42).
Proof.
  intros Hi. unfold locator_step. destruct (Z.leb_spec i 11); [lia|].
  assert (0 < 2 ^ (i - 11)) by (apply Z.pow_pos_nonneg; lia). split; [lia|].
  intros Hlt. apply Z.pow_lt_mono_r_iff in Hlt; lia.
Qed.

Lemma locator_loop_spec fuel height ns hashes :
  (Z.to_nat height < fuel)%nat -> 0 <= height ->
  height + locator_step (Z.of_nat (length hashes)) <= hd_height (ch_tip c) + 1 ->
  (1 <= length hashes)%nat -> last ns = Some height -> StronglySorted Z.gt ns ->
  Forall2 at_height ns hashes ->
  exists ns' hashes', locator_loop fuel c height (locator_step (Z.of_nat (length hashes))) hashes =
      Ret (hashes ++ hashes') /\
    (length (hashes ++ hashes') <= Nat.max 43 (length hashes))%nat /\ last (ns ++ ns') = Some 0 /\
    StronglySorted Z.gt (ns ++ ns') /\ Forall2 at_height (ns ++ ns') (hashes ++ hashes').
Proof using All.
  revert height ns hashes; induction fuel as [|fuel IH]; intros height ns hashes Hf H0 Hst Hi Hlast Hs Hat; [lia|].
  cbn [locator_loop]. destruct (Z.ltb_spec 0 height) as [Hpos|Hz].
  2:{ exists [], []. rewrite !app_nil_r. assert (height = 0) as -> by lia. split_and!; try done. lia. }
  set (i := Z.of_nat (length hashes)) in *. destruct (locator_step_bound i) as [Hs1 Hs42]; [lia|].
  assert (Hi42 : i <= 42) by (apply Hs42; lia).
  rewrite locator_step_next by lia.
  rewrite (proj2 (Z.eqb_neq i (64 * 32 - 1))) by lia.
  set (h' := if height - locator_step i <? 0 then 0 else height - locator_step i).
  assert (Hh' : 0 <= h' < height /\ (h' = 0 \/ h' = height - locator_step i)).
  { unfold h'. destruct (Z.ltb_spec (height - locator_step i) 0); lia. }
  destruct (main_chain_total c h' Hok) as (g & Hg & Hgh & Hgs); [lia|].
  unfold hsk_chain_get_by_height. rewrite u32_small, Hg, stored_hash by (done || lia). cbn [obind].
  assert (Elen : i + 1 = Z.of_nat (length (hashes ++ [hd_hash g]))) by (rewrite length_app; cbn; lia).
  rewrite Elen.
  assert (Hs' : StronglySorted Z.gt (ns ++ [h'])).
  { apply last_Some in Hlast as [ns0 ->]. apply StronglySorted_app_2; [|done|by repeat constructor].
    intros a b Ha Hb. assert (b = h') as -> by set_solver.
    apply elem_of_app in Ha as [Ha|Ha]; [|assert (a = height) as -> by set_solver; lia].
    assert (a > height); [|lia]. apply (StronglySorted_app_1_elem_of Z.gt ns0 [height]); [done|done|set_solver]. }
  assert (Hat' : Forall2 at_height (ns ++ [h']) (hashes ++ [hd_hash g])).
  { apply Forall2_app; [done|]. constructor; [by exists g|constructor]. }
  destruct (decide (h' = 0)) as [Hz|Hnz].
  - exists [h'], [hd_hash g]. destruct fuel as [|fuel]; [lia|]. cbn [locator_loop].
    rewrite (proj2 (Z.ltb_ge 0 h')) by lia. split_and!; try done; [lia|]. by rewrite last_snoc, Hz.
  - destruct (IH h' (ns ++ [h']) (hashes ++ [hd_hash g])) as (ns' & hs' & E & Hlen & Hl0 & Hs'' & Hat'');
      [lia|lia| |lia|by rewrite last_snoc|done|done|].
    { rewrite <-Elen, <-locator_step_next by lia. destruct (10 <? i); lia. }
    exists (h' :: ns'), (hd_hash g :: hs'). rewrite <-!app_assoc in E, Hlen, Hl0, Hs''. rewrite <-!app_assoc in Hat''.
    split; [exact E|]. split_and!; try done. cbn [app] in Hlen. lia.
Qed.
End Locator.

(** The locator. *)
Lemma locator_spec c : chain_ok c -> hd_height (ch_tip c) < 2 ^ 32 ->
  exists ns hashes, hsk_chain_get_locator c = Ret hashes /\ (length hashes <= 43)%nat /\
    head ns = Some (ch_height c) /\ last ns = Some 0 /\ StronglySorted Z.gt ns /\
    Forall2 (fun n hash => exists h, ch_heights c !! n = Some h /\ hd_hash h = hash) ns hashes.
Proof.
  intros Hok Hh. destruct (ok_tip c Hok) as [Ht Hth].
  destruct (chain_ok_linked c _ _ Hok Ht) as (Htl & Hts & _).
  assert (H0 := linked_nonneg _ _ _ (ok_closed c Hok) Htl).
  unfold hsk_chain_get_locator. rewrite stored_hash by done. cbn [obind]. rewrite Hth.
  destruct (locator_loop_spec c Hok Hh (S (Z.to_nat (hd_height (ch_tip c)))) (hd_height (ch_tip c))
    [hd_height (ch_tip c)] [hd_hash (ch_tip c)]) as (ns & hs & E & Hlen & Hl & Hs & Ha); try done; try lia.
  - by repeat constructor.
  - constructor; [|constructor]. exists (ch_tip c). split; [|done].
    by rewrite ok_main, bool_decide_eq_true_2, Z.sub_diag by (done || lia).
  - exists (hd_height (ch_tip c) :: ns), (hd_hash (ch_tip c) :: hs).
    split; [exact E|]. split; [exact Hlen|]. by split_and!.
Qed.

(** The root for names. *)
Lemma safe_root_spec net c : chain_ok c -> hd_height (ch_tip c) < 2 ^ 32 ->
  0 < HSK_TREE_INTERVAL net ->
  exists h, hsk_chain_safe_root net c = Ret (hd_name_root h) /\
    ch_heights c !! root_height net (ch_height c) = Some h.
Proof.
  intros Hok Hh Hi. destruct (ok_tip c Hok) as [Ht Hth].
  destruct (chain_ok_linked c _ _ Hok Ht) as (Htl & _).
  assert (H0 := linked_nonneg _ _ _ (ok_closed c Hok) Htl).
  destruct (safe_height_spec net c Hi) as (H1 & H2); [lia|].
  destruct (main_chain_total c (root_height net (ch_height c)) Hok) as (h & Hn & _); [lia|].
  exists h. unfold hsk_chain_safe_root, hsk_chain_get_by_height. by rewrite H1, Hn.
Qed.
