(* ===== verification/ChainAdd.v ===== *)
(** [hsk_chain_add] on the states of the chain: the orphans that a new header
    releases, the invariant over any run, and what the run can rely on. *)

From S2P Require Import Prelude Bio Blake2b Sha3 Hash Bn Header Chain ChainInv ChainSpec.

(** No orphan waits for a header that is there. *)
Definition waiting_ok (c : hsk_chain_t) : Prop :=
  forall k o, ch_prevs c !! k = Some o -> ch_hashes c !! k = None.

(** The heights of the chain and the number of waiting orphans leave room below [B]:
    every call of [hsk_chain_add] needs at most one more. *)
Definition bounded (c : hsk_chain_t) (B : Z) : Prop :=
  exists N, heights_below c N /\ N + Z.of_nat (size (ch_prevs c)) <= B.

(** Where the chain can go from [c]: headers are kept, the work of the tip does not
    decrease. *)
Definition grows (c c' : hsk_chain_t) : Prop :=
  ch_hashes c ⊆ ch_hashes c' /\ ch_genesis c' = ch_genesis c /\
  be_combine (hd_work (ch_tip c)) <= be_combine (hd_work (ch_tip c')).
#[export] Instance grows_preorder : PreOrder grows.
Proof.
  split.
  - intros c. split_and!; done || lia.
  - intros a b c (H1 & H2 & H3) (H4 & H5 & H6). split_and!; [by etransitivity|congruence|lia].
Qed.

(** * Resolving an orphan *)

Lemma resolve_none c hash : ch_prevs c !! hash = None -> hsk_chain_resolve_orphan c hash = Ret (None, c).
Proof. intros H. unfold hsk_chain_resolve_orphan. by rewrite H. Qed.

Section Resolve.
Variables (c : hsk_chain_t) (hash : list Z) (o : hsk_header_t).
Hypothesis (Hok : chain_ok c).
Hypothesis (Ho : ch_prevs c !! hash = Some o).

Definition resolved : hsk_chain_t :=
  set_orphans (set_prevs c (delete hash (ch_prevs c))) (delete (hd_hash o) (ch_orphans c)).

Lemma resolve_some : hsk_chain_resolve_orphan c hash = Ret (Some o, resolved).
Proof using All.
  destruct (ok_prevs c Hok _ _ Ho) as [Hp Hoo]. destruct (ok_orphans c Hok _ _ Hoo) as (_ & Hs & _).
  unfold hsk_chain_resolve_orphan. rewrite Ho. rewrite stored_cache by done. cbn [obind]. by rewrite Hp.
Qed.

Lemma resolved_ok : chain_ok resolved.
Proof using All.
  destruct (ok_prevs c Hok _ _ Ho) as [Hp Hoo].
  destruct Hok as [H1 H2 H3 H4 H5 H6 H7 H8].
  constructor; cbn [resolved ch_hashes ch_heights ch_tip ch_genesis ch_height ch_orphans ch_prevs
                    set_orphans set_prevs]; try assumption.
  - intros k x [_ Hx]%lookup_delete_Some. by apply H7.
  - intros k x [Hne Hx]%lookup_delete_Some. destruct (H8 _ _ Hx) as [Hk Hxo]. split; [done|].
    apply lookup_delete_Some. split; [|done]. intros He. congruence.
Qed.
Lemma resolved_gone : ch_orphans resolved !! hd_hash o = None /\ ch_prevs resolved !! hash = None.
Proof. split; apply lookup_delete_eq. Qed.
Lemma resolved_size : size (ch_prevs c) = S (size (ch_prevs resolved)).
Proof using Ho.
  cbn [resolved ch_prevs set_orphans set_prevs]. rewrite map_size_delete_Some by done.
  assert (Hne : size (ch_prevs c) <> 0%nat); [|lia].
  intros He. apply map_size_empty_iff in He. by rewrite He, lookup_empty in Ho.
Qed.
Lemma resolved_waiting :
  (forall k x, ch_prevs c !! k = Some x -> k <> hash -> ch_hashes c !! k = None) ->
  waiting_ok resolved.
Proof.
  unfold resolved. intros Hw k x. cbn [ch_prevs ch_hashes set_orphans set_prevs].
  intros [Hne Hx]%lookup_delete_Some. by apply (Hw k x).
Qed.
End Resolve.

(** * The orphan loop *)

Section Loop.
Variables (net : network) (now : Z).
Hypothesis (Hnet : net_ok net).

(** What follows the connection of [prev]: the orphan that waits for it leaves both
    orphan maps, and either is dropped, for its time or its bits, with that code,
    or is connected in turn; the code is a success when no orphan waits. *)
Inductive settled : hsk_chain_t -> hsk_header_t -> Z -> hsk_chain_t -> Prop :=
  | settled_none c prev : ch_prevs c !! hd_hash prev = None -> settled c prev HSK_SUCCESS c
  | settled_old c prev o : ch_prevs c !! hd_hash prev = Some o ->
      i64 (hd_time o) <= hsk_chain_get_mtp (resolved c (hd_hash prev) o) (Some prev) ->
      settled c prev HSK_ETIMETOOOLD (resolved c (hd_hash prev) o)
  | settled_bits c prev o bits : ch_prevs c !! hd_hash prev = Some o ->
      hsk_chain_get_mtp (resolved c (hd_hash prev) o) (Some prev) < i64 (hd_time o) ->
      hsk_chain_get_target net (resolved c (hd_hash prev) o) (i64 (hd_time o)) (Some prev) = Ret bits ->
      hd_bits o <> bits -> settled c prev HSK_EBADDIFFBITS (resolved c (hd_hash prev) o)
  | settled_next c prev o t c1 rc c' : ch_prevs c !! hd_hash prev = Some o ->
      hsk_chain_get_mtp (resolved c (hd_hash prev) o) (Some prev) < i64 (hd_time o) ->
      hsk_chain_get_target net (resolved c (hd_hash prev) o) (i64 (hd_time o)) (Some prev) =
        Ret (hd_bits o) ->
      hsk_pow_to_target (hd_bits o) = Some t ->
      inserted (resolved c (hd_hash prev) o) o prev t c1 ->
      settled c1 (new_entry prev o t) rc c' -> settled c prev rc c'.

Lemma settled_code c prev rc c' : settled c prev rc c' ->
  rc = HSK_SUCCESS \/ rc = HSK_ETIMETOOOLD \/ rc = HSK_EBADDIFFBITS.
Proof. induction 1; auto. Qed.

Lemma insert_heights c hdr prev t c' N : inserted c hdr prev t c' -> heights_below c N ->
  ch_hashes c !! hd_prev_block hdr = Some prev -> heights_below c' (N + 1).
Proof.
  intros (_ & Hh & _) HN Hp k h. rewrite Hh.
  assert (R := HN _ _ Hp). intros [(_ & <-)|(_ & Hx)]%lookup_insert_Some; [cbn; lia|].
  assert (R' := HN _ _ Hx). lia.
Qed.
Lemma insert_grows c hdr prev t c' : inserted c hdr prev t c' -> ch_hashes c !! hd_hash hdr = None ->
  grows c c'.
Proof.
  intros (_ & Hh & Ht & Hg & _) Hn. split_and!; [|done|].
  - rewrite Hh. by apply insert_subseteq.
  - rewrite Ht. destruct (Z.ltb_spec (be_combine (hd_work (ch_tip c)))
      (be_combine (hd_work (new_entry prev hdr t)))); lia.
Qed.

Lemma orphan_loop_spec fuel c prev hash : chain_ok c -> ch_memory c = [] ->
  ch_hashes c !! hash = Some prev -> (size (ch_prevs c) < fuel)%nat ->
  forall B, bounded c B -> B < 2 ^ 32 ->
  (forall k o, ch_prevs c !! k = Some o -> k <> hash -> ch_hashes c !! k = None) ->
  exists rc c', orphan_loop net fuel now c prev hash HSK_SUCCESS = Ret (rc, c') /\
    settled c prev rc c' /\
    chain_ok c' /\ ch_memory c' = [] /\ waiting_ok c' /\ bounded c' B /\ grows c c'.
Proof using Hnet.
  revert c prev hash; induction fuel as [|fuel IH]; intros c prev hash Hok Hm Hp Hf B HB HB32 Hw; [lia|].
  assert (Hph : hd_hash prev = hash) by (by destruct (chain_ok_linked c _ _ Hok Hp) as (_ & _ & ?)).
  cbn [orphan_loop]. destruct (ch_prevs c !! hash) as [o|] eqn:Ho.
  2:{ rewrite resolve_none by done. cbn [obind]. exists HSK_SUCCESS, c.
      split_and!; [done|apply settled_none; by rewrite Hph|done|done| |done|reflexivity].
      intros k x Hx. apply (Hw k x Hx). congruence. }
  rewrite (resolve_some c hash o) by done. cbn [obind].
  destruct (ok_prevs c Hok _ _ Ho) as [Hpo Hoo].
  destruct (ok_orphans c Hok _ _ Hoo) as (_ & Hos & [t Ht] & Hon).
  rewrite stored_cache by done. cbn [obind].
  assert (Hrok := resolved_ok c hash o Hok Ho). destruct (resolved_gone c hash o) as [Hro Hrp].
  assert (Hsz := resolved_size c hash o Ho).
  assert (Hrw := resolved_waiting c hash o Hw). set (r := resolved c hash o) in *.
  destruct HB as (N & HN & HNB).
  assert (Hrb : bounded r (B - 1)) by (exists N; split; [exact HN|lia]).
  assert (HprevN := HN _ _ Hp).
  destruct (hsk_chain_insert_spec net now r o prev t) as (bits & Hbits & Hins); try done.
  { cbn. by rewrite Hpo. }
  { lia. }
  assert (Hfail : forall rc, settled c prev rc r -> settled c prev rc r /\ chain_ok r /\
    ch_memory r = [] /\ waiting_ok r /\ bounded r B /\ grows c r).
  { intros rc Hrc. split_and!; try done. exists N. split; [exact HN|lia]. }
  assert (Hr' : r = resolved c (hd_hash prev) o) by (by rewrite Hph). rewrite <-Hph in Ho. rewrite Hr' in Hbits.
  destruct (Z.leb_spec (i64 (hd_time o)) (hsk_chain_get_mtp r (Some prev))) as [Hmtp|Hmtp].
  { rewrite Hins. cbn [obind]. exists HSK_ETIMETOOOLD, r. split; [done|]. apply Hfail. rewrite Hr'.
    apply settled_old; [done|by rewrite <-Hr']. }
  destruct (Z.eqb_spec (hd_bits o) bits) as [Hb|Hb]; cbn [negb] in Hins.
  2:{ rewrite Hins. cbn [obind]. exists HSK_EBADDIFFBITS, r. split; [done|]. apply Hfail. rewrite Hr'.
      apply (settled_bits _ _ _ bits); [done|by rewrite <-Hr'|done|done]. }
  destruct Hins as (c1 & -> & Hi). cbn [obind negb Z.eqb HSK_SUCCESS]. assert (Hi' := Hi).
  assert (Hg1 : grows r c1) by (by apply (insert_grows _ _ _ _ _ Hi)).
  assert (Hh1 := insert_heights _ _ _ _ _ N Hi HN ltac:(by cbn; rewrite Hpo)).
  destruct Hi as (Hok1 & Hh & Ht1 & Hge1 & Ho1 & Hp1 & Hm1).
  destruct (IH c1 (new_entry prev o t) (hd_hash o)) with (B := B) as (rc & c' & E & Hrc & Hr);
    [done|done|by rewrite Hh, lookup_insert_eq|rewrite Hp1; lia| |done| |].
  { exists (N + 1). split; [done|]. rewrite Hp1. lia. }
  { intros k x Hx Hne. rewrite Hp1 in Hx. rewrite Hh, lookup_insert_ne by done. by apply (Hrw k x). }
  exists rc, c'. split; [exact E|]. destruct Hr as (? & ? & ? & ? & ?).
  split; [|split_and!; try done; etransitivity; [exact Hg1|done]].
  rewrite Hr' in Hmtp, Hi'. subst bits. by apply (settled_next _ _ o t c1).
Qed.
End Loop.

(** * [hsk_chain_add] *)

(** A header as it comes from the decoder: no cached hash yet. *)
Definition fresh (h : hsk_header_t) : Prop :=
  hdr_wf h /\ hd_cache h = false /\ bytes_n 32 (hd_work h).
#[export] Instance fresh_dec h : Decision (fresh h).
Proof. unfold fresh. solve_decision. Defined.

Lemma fresh_cache h : fresh h -> exists hash, hsk_header_cache h = Ret (hash, set_hash h hash) /\
  hsk_header_hash h = Ret (hash, set_hash h hash) /\ stored (set_hash h hash).
Proof.
  intros (Hw & Hc & Hwk). destruct (hsk_header_cache_total (true, true) h Hc) as (hash & E & Hb).
  { apply Hw. }
  exists hash. change (hsk_header_cache h = Ret (hash, set_hash h hash)) in E. split; [done|].
  split; [|by split_and!]. unfold hsk_header_hash. rewrite E. cbn [obind]. by rewrite take_digest.
Qed.

Lemma stored_verify_pow h : stored h -> hsk_header_verify_pow h =
  Ret (match hsk_pow_to_target (hd_bits h) with
       | None => HSK_ENEGTARGET
       | Some t => if be_combine t <? be_combine (hd_hash h) then HSK_EHIGHHASH else HSK_SUCCESS
       end, h).
Proof.
  intros Hs. unfold hsk_header_verify_pow.
  destruct (hsk_pow_to_target (hd_bits h)) as [t|] eqn:Ht; [|done].
  rewrite stored_hash by done. cbn [obind].
  assert (Htb : bytes_n 32 t) by (eapply hsk_pow_to_target_bytes; [|done]; apply Hs).
  assert (Hhb : bytes_n 32 (hd_hash h)) by apply Hs.
  rewrite memcmp_be by (apply Hhb || apply Htb || (destruct Hhb as [-> _], Htb as [-> _]; done)).
  destruct (Z.compare_spec (be_combine (hd_hash h)) (be_combine t)) as [Hc|Hc|Hc].
  - by rewrite (proj2 (Z.ltb_ge _ _)) by lia.
  - by rewrite (proj2 (Z.ltb_ge _ _)) by lia.
  - by rewrite (proj2 (Z.ltb_lt _ _)) by lia.
Qed.

(** Room for an orphan: all are dropped when there are more than 10000. *)
Definition flushed (c : hsk_chain_t) : hsk_chain_t :=
  if 10000 <? Z.of_nat (size (ch_orphans c)) then set_orphans (set_prevs c ∅) ∅ else c.
Definition keep_orphan (c : hsk_chain_t) (hash : list Z) (hdr : hsk_header_t) : hsk_chain_t :=
  set_prevs (set_orphans c (<[hash := hdr]> (ch_orphans c)))
    (<[hd_prev_block hdr := hdr]> (ch_prevs c)).

(** The outcome of adding [hdr], whose hash is cached, in the order of the checks. An
    accepted header is [inserted], which fixes the headers, the tip and, through the
    invariant, the height of the tip and the map of heights; then the orphans that
    it releases are [settled]. *)
Definition add_result (net : network) (now : Z) (c : hsk_chain_t) (hdr : hsk_header_t)
    (rc : Z) (c' : hsk_chain_t) : Prop :=
  let hash := hd_hash hdr in
  if u64 (now + 2 * 60 * 60) <? hd_time hdr then rc = HSK_ETIMETOONEW /\ c' = c
  else if bool_decide (is_Some (ch_hashes c !! hash)) then rc = HSK_EDUPLICATE /\ c' = c
  else if bool_decide (is_Some (ch_orphans c !! hash)) then rc = HSK_EDUPLICATEORPHAN /\ c' = c
  else
    match hsk_pow_to_target (hd_bits hdr) with
    | None => rc = HSK_ENEGTARGET /\ c' = c
    | Some t =>
        if be_combine t <? be_combine hash then rc = HSK_EHIGHHASH /\ c' = c
        else
          match ch_hashes c !! hd_prev_block hdr with
          | None =>
              rc = HSK_EORPHAN /\ c' = keep_orphan (flushed c) hash hdr
          | Some prev =>
              exists bits, hsk_chain_get_target net c (i64 (hd_time hdr)) (Some prev) = Ret bits /\
              if i64 (hd_time hdr) <=? hsk_chain_get_mtp c (Some prev)
              then rc = HSK_ETIMETOOOLD /\ c' = c
              else if negb (hd_bits hdr =? bits) then rc = HSK_EBADDIFFBITS /\ c' = c
              else exists c1, inserted c hdr prev t c1 /\ settled net c1 (new_entry prev hdr t) rc c'
          end
    end.

Section Add.
Variables (net : network) (now : Z) (c : hsk_chain_t) (hdr : hsk_header_t) (B : Z).
Hypothesis (Hnet : net_ok net).
Hypothesis (Hok : chain_ok c).
Hypothesis (Hwait : waiting_ok c).
Hypothesis (Hmem : ch_memory c = []).
Hypothesis (HB : bounded c B).
Hypothesis (HB32 : B + 1 < 2 ^ 32).
Hypothesis (Hs : stored hdr).

(** Everything that is promised of the next state. *)
Definition next_ok (c' : hsk_chain_t) : Prop :=
  chain_ok c' /\ waiting_ok c' /\ ch_memory c' = [] /\ bounded c' (B + 1) /\ grows c c'.
Lemma next_ok_same : next_ok c.
Proof using HB Hok Hwait Hmem.
  split_and!; try done. destruct HB as (N & H1 & H2). exists N. split; [done|lia].
Qed.

(** Dropping all orphans. *)
Lemma chain_ok_flush : chain_ok (set_orphans (set_prevs c ∅) ∅).
Proof using Hok.
  destruct Hok. constructor; try assumption;
    intros k o Ho; cbn in Ho; by rewrite lookup_empty in Ho.
Qed.

(** Keeping a header whose parent is not known. *)
Lemma chain_ok_orphan c0 : chain_ok c0 -> pow_ok hdr -> ch_hashes c0 !! hd_hash hdr = None ->
  ch_orphans c0 !! hd_hash hdr = None ->
  chain_ok (set_prevs (set_orphans c0 (<[hd_hash hdr := hdr]> (ch_orphans c0)))
             (<[hd_prev_block hdr := hdr]> (ch_prevs c0))).
Proof using Hs.
  intros [? ? ? ? ? ? H7 H8] Hp Hn Hno.
  constructor; cbn [ch_hashes ch_heights ch_tip ch_genesis ch_height ch_orphans ch_prevs
                    set_orphans set_prevs]; try assumption.
  - intros k o [(<- & <-)|(_ & Ho)]%lookup_insert_Some; [by split_and!|by apply H7].
  - intros k o [(<- & <-)|(_ & Ho)]%lookup_insert_Some.
    + split; [done|apply lookup_insert_eq].
    + destruct (H8 _ _ Ho) as [Hk Hoo]. split; [done|]. rewrite lookup_insert_ne; [done|]. congruence.
Qed.

Lemma orphan_next c0 c' : chain_ok c0 -> waiting_ok c0 -> bounded c0 B -> grows c c0 -> ch_memory c0 = [] ->
  pow_ok hdr -> ch_hashes c0 !! hd_hash hdr = None -> ch_orphans c0 !! hd_hash hdr = None ->
  ch_hashes c0 !! hd_prev_block hdr = None ->
  c' = set_prevs (set_orphans c0 (<[hd_hash hdr := hdr]> (ch_orphans c0)))
         (<[hd_prev_block hdr := hdr]> (ch_prevs c0)) -> next_ok c'.
Proof using Hs.
  intros Hok0 Hw0 (N & HN & HNB) Hg Hm Hp Hn Hno Hpn ->. split_and!; [by apply chain_ok_orphan| |done| |done].
  - intros k o. cbn [ch_prevs ch_hashes set_prevs set_orphans].
    intros [(<- & _)|(_ & Ho)]%lookup_insert_Some; [done|by eapply Hw0].
  - exists N. split; [exact HN|]. cbn [ch_prevs set_prevs]. rewrite map_size_insert.
    destruct (ch_prevs c0 !! hd_prev_block hdr); cbn; lia.
Qed.

(** A header that was connected, with the orphans it releases. *)
Lemma insert_next prev t c1 : ch_hashes c !! hd_hash hdr = None ->
  ch_hashes c !! hd_prev_block hdr = Some prev -> inserted c hdr prev t c1 ->
  exists rc c', orphan_loop net (S (size (ch_prevs c1))) now c1 (new_entry prev hdr t) (hd_hash hdr)
                  HSK_SUCCESS = Ret (rc, c') /\
    settled net c1 (new_entry prev hdr t) rc c' /\ next_ok c'.
Proof using All.
  intros Hn Hp Hi. assert (Hg1 := insert_grows _ _ _ _ _ Hi Hn). destruct HB as (N & HN & HNB).
  assert (Hh1 := insert_heights _ _ _ _ _ N Hi HN Hp).
  destruct Hi as (Hok1 & Hh & _ & _ & _ & Hp1 & Hm1).
  assert (Hin : ch_hashes c1 !! hd_hash hdr = Some (new_entry prev hdr t)) by (by rewrite Hh, lookup_insert_eq).
  destruct (orphan_loop_spec net now Hnet (S (size (ch_prevs c1))) c1 (new_entry prev hdr t) (hd_hash hdr)
    Hok1 Hm1 Hin ltac:(lia) (B + 1)) as (rc & c' & E & Hrc & Hok' & Hm' & Hw' & HB' & Hg'); [| done | |].
  { exists (N + 1). split; [done|]. rewrite Hp1. lia. }
  { intros k o Ho Hne. rewrite Hp1 in Ho. rewrite Hh, lookup_insert_ne by done. by eapply Hwait. }
  exists rc, c'. split; [exact E|]. split; [done|]. split_and!; try done. by transitivity c1.
Qed.
End Add.

Lemma hsk_chain_add_spec net now c h B :
  net_ok net -> chain_ok c -> waiting_ok c -> ch_memory c = [] -> bounded c B -> B + 1 < 2 ^ 32 ->
  fresh h ->
  exists hash rc c', hsk_header_hash h = Ret (hash, set_hash h hash) /\
    hsk_chain_add net now c h = Ret (rc, c') /\ next_ok c B c' /\
    add_result net now c (set_hash h hash) rc c'.
Proof.
  intros Hnet Hok Hw Hm HB HB32 Hf. destruct (fresh_cache h Hf) as (hash & Ec & Eh & Hs).
  exists hash. unfold hsk_chain_add, alloc. rewrite Hm. cbn [hsk_header_clone negb]. rewrite Ec. cbn [obind].
  unfold add_result. cbv zeta.
  set (hdr := set_hash h hash) in *. assert (Hhash : hash = hd_hash hdr) by done. clearbody hdr. subst hash.
  assert (Hsame := next_ok_same c B Hok Hw Hm HB).
  destruct (u64 (now + 2 * 60 * 60) <? hd_time hdr); [eexists _, _; by split_and!|].
  unfold hsk_chain_has, hsk_chain_has_orphan.
  case_bool_decide as Hh; [eexists _, _; by split_and!|]. case_bool_decide as Ho; [eexists _, _; by split_and!|].
  rewrite <-eq_None_not_Some in Hh, Ho. rewrite stored_verify_pow by done. cbn [obind].
  destruct (hsk_pow_to_target (hd_bits hdr)) as [t|] eqn:Ht; [|eexists _, _; by split_and!].
  destruct (be_combine t <? be_combine (hd_hash hdr)); [eexists _, _; by split_and!|].
  cbn [negb Z.eqb HSK_SUCCESS]. unfold hsk_chain_get.
  destruct (ch_hashes c !! hd_prev_block hdr) as [prev|] eqn:Hp.
  - assert (Hhp : hd_height prev + 1 < 2 ^ 32).
    { destruct HB as (N & HN & HNB). assert (R := HN _ _ Hp). lia. }
    destruct (hsk_chain_insert_spec net now c hdr prev t) as (bits & Hbits & Hins); try done.
    destruct (_ <=? hsk_chain_get_mtp c (Some prev)).
    { rewrite Hins. eexists _, _. split; [done|]. split; [done|]. split; [done|]. by exists bits. }
    destruct (negb (hd_bits hdr =? bits)) eqn:Eb.
    { rewrite Hins. eexists _, _. split; [done|]. split; [done|]. split; [done|].
      exists bits. by rewrite Eb. }
    destruct Hins as (c1 & -> & Hi). cbn [obind negb Z.eqb HSK_SUCCESS].
    destruct (insert_next net now c hdr B Hnet Hok Hw Hm HB HB32 Hs prev t c1 Hh Hp Hi)
      as (rc & c' & E & Hst & Hnx).
    exists rc, c'. split; [done|]. split; [exact E|]. split; [done|]. exists bits. rewrite Eb.
    split; [done|]. by exists c1.
  - change (if 10000 <? _ then _ else c) with (flushed c). set (c0 := flushed c).
    assert (Hc0 : chain_ok c0 /\ waiting_ok c0 /\ bounded c0 B /\ grows c c0 /\ ch_memory c0 = [] /\
      ch_hashes c0 = ch_hashes c /\ ch_orphans c0 !! hd_hash hdr = None).
    { unfold c0, flushed. destruct (_ <? _); [|by split_and!]. split_and!; try done; [by apply chain_ok_flush|].
      destruct HB as (N & HN & HNB). exists N. split; [exact HN|]. cbn [ch_prevs set_orphans set_prevs]. rewrite map_size_empty. lia. }
    destruct Hc0 as (Hok0 & Hw0 & HB0 & Hg0 & Hm0 & Hh0 & Ho0).
    unfold orphans_set, prevs_set, alloc. rewrite Hm0. cbv beta match zeta. cbn [negb ch_memory set_orphans].
    rewrite Hm0. cbv beta match zeta. cbn [negb].
    eexists _, _. split; [done|]. split; [reflexivity|]. split; [|done].
    eapply (orphan_next c hdr B Hs c0); try done; by (rewrite Hh0 || exists t).
Qed.

(** ** Without memory *)

(** The checks that come before a header is kept as an orphan. *)
Lemma add_result_orphan net now c hdr c' : add_result net now c hdr HSK_EORPHAN c' ->
  (u64 (now + 2 * 60 * 60) <? hd_time hdr) = false /\
  bool_decide (is_Some (ch_hashes c !! hd_hash hdr)) = false /\
  bool_decide (is_Some (ch_orphans c !! hd_hash hdr)) = false /\
  (exists t, hsk_pow_to_target (hd_bits hdr) = Some t /\
     (be_combine t <? be_combine (hd_hash hdr)) = false) /\
  ch_hashes c !! hd_prev_block hdr = None.
Proof.
  unfold add_result. cbv zeta.
  destruct (_ <? hd_time hdr); [by intros [? _]|]. do 2 (case_bool_decide; [by intros [? _]|]).
  destruct (hsk_pow_to_target (hd_bits hdr)) as [t|]; [|by intros [? _]].
  destruct (be_combine t <? _) eqn:Et; [by intros [? _]|].
  destruct (ch_hashes c !! hd_prev_block hdr) as [prev|]; [|intros _; split_and!; try done; by exists t].
  intros (bits & _ & Hr). exfalso. destruct (_ <=? _); [by destruct Hr|]. destruct (negb _); [by destruct Hr|].
  destruct Hr as (c1 & _ & Hr). apply settled_code in Hr as [?|[?|?]]; discriminate.
Qed.

(** Without memory: for the copy of the header nothing happens; for the place in the
    first or the second of the orphan maps, a header that would become an orphan is
    dropped, with the others when there are too many. *)
Lemma add_no_copy net now c h : ch_memory c = [] ->
  hsk_chain_add net now (set_memory c [false]) h = Ret (HSK_ENOMEM, c).
Proof. intros H. destruct c. cbn in H. by subst. Qed.
Lemma add_no_room net now c h hash c' m : ch_memory c = [] -> fresh h ->
  hsk_header_hash h = Ret (hash, set_hash h hash) ->
  add_result net now c (set_hash h hash) HSK_EORPHAN c' ->
  m = [true; false] \/ m = [true; true; false] ->
  hsk_chain_add net now (set_memory c m) h = Ret (HSK_ENOMEM, flushed c).
Proof.
  intros Hm Hf Eh Hr Hd. destruct (fresh_cache h Hf) as (hash' & Ec & Eh' & Hs).
  rewrite Eh in Eh'. injection Eh' as <- _.
  apply add_result_orphan in Hr as (H1 & H2 & H3 & (t & Ht & H4) & H5).
  assert (Hfo : ch_orphans (flushed c) !! hash = None).
  { unfold flushed. destruct (10000 <? _); [apply lookup_empty|]. apply bool_decide_eq_false in H3.
    by apply eq_None_not_Some. }
  assert (Hfm : ch_memory (flushed c) = []) by (unfold flushed; by destruct (10000 <? _)).
  change (hd_hash (set_hash h hash)) with hash in H2, H3.
  unfold hsk_chain_add, alloc. unfold flushed in *.
  destruct Hd as [-> | ->]; cbn [ch_memory set_memory]; cbv beta match zeta;
    cbn [hsk_header_clone negb]; rewrite Ec; cbn [obind]; rewrite H1;
    unfold hsk_chain_has, hsk_chain_has_orphan, hsk_chain_get;
    cbn [ch_hashes ch_orphans set_memory];
    rewrite H2, H3, stored_verify_pow, Ht by done; rewrite H4;
    cbn [obind negb Z.eqb HSK_SUCCESS]; rewrite H5;
    destruct (10000 <? _); destruct c; cbn in *; subst; try done;
    by rewrite delete_insert_id.
Qed.

(** * Runs of the chain *)

(** The genesis block of the network decodes to a header with a target. *)
Definition genesis_ok (net : network) : bool :=
  match hsk_header_decode (HSK_GENESIS net) hsk_header_init with
  | Ret tip => bool_decide (fresh tip) && (hd_height tip =? 0) &&
               bool_decide (is_Some (hsk_pow_to_target (hd_bits tip)))
  | _ => false
  end.

Lemma genesis_chain_ok tip prefix : stored tip -> hd_height tip = 0 ->
  let c := mk_chain (hd_height tip) (hd_height tip) tip tip false
             {[hd_hash tip := tip]} {[hd_height tip := tip]} ∅ ∅ prefix [] [] in
  chain_ok c /\ waiting_ok c /\ bounded c 1.
Proof.
  intros Hs H0 c. split_and!.
  - constructor; cbn [c ch_hashes ch_heights ch_tip ch_genesis ch_height ch_orphans ch_prevs].
    + intros k h (<- & <-)%lookup_singleton_Some. split_and!; [done|done|by left].
    + split; [apply lookup_singleton_eq|done].
    + intros k h (_ & <-)%lookup_singleton_Some Hlt. lia.
    + split; [apply lookup_singleton_eq|done].
    + intros k h (_ & <-)%lookup_singleton_Some. lia.
    + intros n. rewrite H0. destruct (decide (n = 0)) as [->|Hne].
      * rewrite lookup_singleton_eq, bool_decide_eq_true_2; [done|lia].
      * rewrite lookup_singleton_ne, bool_decide_eq_false_2; [done|lia|lia].
    + intros k o Ho. by rewrite lookup_empty in Ho.
    + intros k o Ho. by rewrite lookup_empty in Ho.
  - intros k o Ho. cbn in Ho. by rewrite lookup_empty in Ho.
  - exists 1. split; [|cbn [c ch_prevs]; rewrite map_size_empty; lia].
    intros k h. cbn [c ch_hashes]. intros (_ & <-)%lookup_singleton_Some. lia.
Qed.

Lemma hsk_chain_init_spec net now prefix : genesis_ok net = true ->
  exists c, hsk_chain_init net now prefix [] = Ret (HSK_SUCCESS, Some c) /\
    chain_ok c /\ waiting_ok c /\ ch_memory c = [] /\ bounded c 1.
Proof.
  unfold genesis_ok, hsk_chain_init. cbv beta match zeta. cbn [negb].
  destruct (hsk_header_decode (HSK_GENESIS net) hsk_header_init) as [tip| |f]; try done.
  intros [[Hf H0]%andb_prop Ht]%andb_prop. apply bool_decide_eq_true in Hf, Ht. apply Z.eqb_eq in H0.
  destruct Ht as [t Ht]. cbn [obind]. unfold hsk_header_calc_work.
  rewrite hsk_header_get_proof_spec, Ht by apply Hf. cbn [obind].
  destruct (fresh_cache (set_work tip (be_split 32 (target_proof t)))) as (hash & E & _ & Hs).
  { destruct Hf as (Hw & Hc & _). split_and!; [done|done|]. split; [apply length_be_split|apply bytes_be_split]. }
  rewrite E. cbn [obind]. eexists. split; [reflexivity|].
  set (tip' := set_hash _ hash) in *. change hash with (hd_hash tip').
  change (hd_height (set_work tip _)) with (hd_height tip').
  destruct (genesis_chain_ok tip' prefix Hs H0) as (Hok & Hw & N & HN & HNB). set (c := mk_chain _ _ _ _ _ _ _ _ _ _ _ _) in *.
  assert (Hcore := maybe_sync_core net now c). split; [by eapply same_core_ok|].
  destruct Hcore as (_ & _ & _ & Eh & _ & _ & Ep & Em).
  split_and!; [|done|].
  - intros k o. rewrite Ep, Eh. apply Hw.
  - exists N. split; [|by rewrite Ep]. intros k h. rewrite Eh. apply HN.
Qed.

(** The states after some calls of [hsk_chain_add], at whatever times. *)
Inductive run (net : network) : nat -> hsk_chain_t -> Prop :=
  | run_init now prefix c : hsk_chain_init net now prefix [] = Ret (HSK_SUCCESS, Some c) -> run net 0 c
  | run_add n c now h rc c' : run net n c -> fresh h ->
      hsk_chain_add net now c h = Ret (rc, c') -> run net (S n) c'.

Lemma run_ok net n c : net_ok net -> genesis_ok net = true -> run net n c -> Z.of_nat n + 1 < 2 ^ 32 ->
  chain_ok c /\ waiting_ok c /\ ch_memory c = [] /\ bounded c (Z.of_nat n + 1).
Proof.
  intros Hnet Hg. induction 1 as [now prefix c E|n c now h rc c' _ IH Hf E]; intros Hn.
  - destruct (hsk_chain_init_spec net now prefix Hg) as (c0 & E0 & Hc).
    rewrite E in E0. injection E0 as ->. exact Hc.
  - destruct IH as (Hok & Hw & Hm & HB); [lia|].
    destruct (hsk_chain_add_spec net now c h _ Hnet Hok Hw Hm HB) as (_ & rc' & c1 & _ & E' & Hnx & _);
      [lia|done|].
    rewrite E in E'. injection E' as _ <-. destruct Hnx as (H1 & H2 & H3 & H4 & _).
    replace (Z.of_nat (S n) + 1) with (Z.of_nat n + 1 + 1) by lia. done.
Qed.
