(* ===== verification/ChainProps.v ===== *)
(** The properties of the header chain, and a chain of the regression-test network
    on which they are exercised. *)

From Stdlib Require Import Sorted.
From S2P Require Import Prelude Bio Blake2b Sha3 Hash Bn Header Chain ChainInv ChainSpec ChainQuery ChainAdd.

(** * A sample chain *)

(** Adding headers one after the other, with the codes. *)
Fixpoint adds (net : network) (now : Z) (c : hsk_chain_t) (hs : list hsk_header_t) :
    outcome (list Z * hsk_chain_t) :=
  match hs with
  | [] => Ret ([], c)
  | h :: hs =>
      let* (rc, c) := hsk_chain_add net now c h in
      let* (rcs, c) := adds net now c hs in
      Ret (rc :: rcs, c)
  end.
Definition start (net : network) (now : Z) (hs : list hsk_header_t) : outcome (list Z * hsk_chain_t) :=
  let* (_, c) := hsk_chain_init net now false [] in
  let* c := of_option AssertFail c in
  adds net now c hs.

Definition sample_time : Z := 1580745080.
Definition sample_header (nonce time prev : Z) : hsk_header_t :=
  mk_header nonce time (be_split 32 prev) zero32 (replicate 24 0) zero32 zero32 zero32 0 0x207fffff zero32
    false zero32 0 zero32.

(** Two headers on the genesis block, and two on the second of them. *)
Definition sample_genesis : Z := 78802413039455610150600997891357717024019906103466798875564422211263770822597.
Definition sample_b1_hash : Z := 50892378763796367737309480790552934783313189079824418472283262028739823483846.
Definition sample_a1 : hsk_header_t := sample_header 0 (sample_time + 1) sample_genesis.
Definition sample_b1 : hsk_header_t := sample_header 0 (sample_time + 2) sample_genesis.
Definition sample_b2 : hsk_header_t := sample_header 2 (sample_time + 3) sample_b1_hash.
Definition sample_b3 : hsk_header_t := sample_header 1 (sample_time + 4) sample_b1_hash.

Lemma adds_run net now c n hs : net_ok net -> genesis_ok net = true -> run net n c ->
  Z.of_nat (n + length hs) + 1 < 2 ^ 32 -> Forall fresh hs ->
  exists rcs c', adds net now c hs = Ret (rcs, c') /\ run net (n + length hs) c'.
Proof.
  intros Hnet Hg Hr Hn Hf. revert n c Hr Hn; induction Hf as [|h hs Hh _ IH]; intros n c Hr Hn.
  - exists [], c. by rewrite Nat.add_0_r.
  - cbn [length] in Hn. destruct (run_ok net n c Hnet Hg Hr) as (Hok & Hw & Hm & HB); [lia|].
    destruct (hsk_chain_add_spec net now c h _ Hnet Hok Hw Hm HB) as (_ & rc & c1 & _ & E & _);
      [lia|done|].
    destruct (IH (S n) c1) as (rcs & c2 & E2 & Hr2); [by eapply run_add|lia|].
    exists (rc :: rcs), c2. cbn [adds]. rewrite E. cbn [obind]. rewrite E2. split; [done|].
    by replace (n + length (h :: hs))%nat with (S n + length hs)%nat by (cbn; lia).
Qed.
Lemma start_run net now hs : net_ok net -> genesis_ok net = true ->
  Z.of_nat (length hs) + 1 < 2 ^ 32 -> Forall fresh hs ->
  exists rcs c, start net now hs = Ret (rcs, c) /\ run net (length hs) c.
Proof.
  intros Hnet Hg Hn Hf. destruct (hsk_chain_init_spec net now false Hg) as (c & E & _).
  unfold start. rewrite E. cbn [obind of_option].
  apply (adds_run net now c 0); try done. by eapply run_init.
Qed.

Definition sample_headers : list hsk_header_t := [sample_a1; sample_b2; sample_b3; sample_b1].
Lemma sample_facts : net_ok HSK_REGTEST /\ genesis_ok HSK_REGTEST = true /\ Forall fresh sample_headers.
Proof.
  split; [|split].
  - apply (bool_decide_eq_true _). vm_compute. reflexivity.
  - vm_compute. reflexivity.
  - apply (bool_decide_eq_true _). vm_compute. reflexivity.
Qed.
Lemma sample_chain : exists rcs c, start HSK_REGTEST sample_time sample_headers = Ret (rcs, c) /\
  chain_ok c /\ waiting_ok c /\ ch_memory c = [] /\ bounded c 5.
Proof.
  destruct sample_facts as (H1 & H2 & H3).
  destruct (start_run HSK_REGTEST sample_time sample_headers H1 H2) as (rcs & c & E & Hr); [cbn; lia|done|].
  exists rcs, c. split; [done|]. by apply (run_ok HSK_REGTEST 4 c H1 H2 Hr).
Qed.

Definition sample_view : outcome (list Z * list Z * bool * Z * Z) :=
  let* (rcs, c) := start HSK_REGTEST sample_time (sample_headers ++ [sample_b2]) in
  Ret (rcs, hd_nonce <$> omap (fun n => ch_heights c !! n) [0; 1; 2; 3],
       bool_decide (ch_prevs c = ∅), Z.of_nat (size (ch_orphans c)), hd_time (ch_tip c) - sample_time).

(** * Work along a path *)

(** The work that a header adds, and the sum of it down to the [k]-th parent, on
    top of the work of that parent. *)
Definition proof_of (h : hsk_header_t) : Z :=
  match hsk_pow_to_target (hd_bits h) with Some t => target_proof t | None => 0 end.
Fixpoint path_work (m : hash_map) (k : nat) (h : hsk_header_t) : Z :=
  match k with
  | O => be_combine (hd_work h)
  | S k' => proof_of h + match m !! hd_prev_block h with Some p => path_work m k' p | None => 0 end
  end.
Lemma path_work_spec c k h : chain_ok c -> ch_hashes c !! hd_hash h = Some h ->
  Z.of_nat k <= hd_height h -> be_combine (hd_work h) = path_work (ch_hashes c) k h mod 2 ^ 256.
Proof.
  intros Hok. revert h; induction k as [|k IH]; intros h Hh Hk.
  - destruct (chain_ok_linked c _ _ Hok Hh) as (_ & (_ & _ & _ & Hw) & _).
    cbn [path_work]. by rewrite Z.mod_small by by apply be_combine_32.
  - destruct (ok_work c Hok _ _ Hh) as (p & t & Hp & Ht & Hw); [lia|].
    destruct (chain_ok_linked c _ _ Hok Hh) as ([[H0 _]|(_ & p' & Hp' & Hhp)] & _ & _); [lia|].
    rewrite Hp in Hp'. injection Hp' as <-.
    assert (Hpp : ch_hashes c !! hd_hash p = Some p).
    { by destruct (chain_ok_linked c _ _ Hok Hp) as (_ & _ & ->). }
    cbn [path_work]. unfold proof_of. rewrite Hp, Ht, Hw, be_combine_split.
    change (256 ^ Z.of_nat 32) with (2 ^ 256).
    rewrite (IH p Hpp) by lia. rewrite Zplus_mod_idemp_l. f_equal. lia.
Qed.

(** * Properties *)

(** C1: [hsk_chain_add] always returns: no assertion fails and every loop ends, for
    any decoded header, and the invariant of the chain holds afterwards. In
    particular the map of heights is the path of the tip, the tip has the most
    work, no orphan waits for a header that is there, known headers are kept and
    the work of the tip does not decrease. *)
Theorem chain_add_invariant net now c h B :
  net_ok net -> chain_ok c -> waiting_ok c -> ch_memory c = [] -> bounded c B -> B + 1 < 2 ^ 32 ->
  fresh h ->
  exists rc c', hsk_chain_add net now c h = Ret (rc, c') /\
    chain_ok c' /\ waiting_ok c' /\ ch_memory c' = [] /\ bounded c' (B + 1) /\
    ch_hashes c ⊆ ch_hashes c' /\ ch_genesis c' = ch_genesis c /\
    be_combine (hd_work (ch_tip c)) <= be_combine (hd_work (ch_tip c')).
Proof.
  intros Hnet Hok Hw Hm HB HB32 Hf.
  destruct (hsk_chain_add_spec net now c h B Hnet Hok Hw Hm HB HB32 Hf) as (_ & rc & c' & _ & E & Hn & _).
  exists rc, c'. split; [done|]. destruct Hn as (? & ? & ? & ? & ? & ? & ?). by split_and!.
Qed.
Lemma chain_add_invariant_witness : exists rcs c rc c',
  start HSK_REGTEST sample_time sample_headers = Ret (rcs, c) /\
  hsk_chain_add HSK_REGTEST sample_time c sample_b2 = Ret (rc, c') /\ chain_ok c'.
Proof.
  destruct sample_chain as (rcs & c & E & H1 & H2 & H3 & H4). destruct sample_facts as (Hn & _ & Hf).
  destruct (chain_add_invariant HSK_REGTEST sample_time c sample_b2 5 Hn H1 H2 H3 H4) as (rc & c' & E' & Hc & _).
  - lia.
  - exact (Forall_inv (Forall_inv_tail Hf)).
  - exists rcs, c, rc, c'. split; [exact E|]. split; [exact E'|exact Hc].
Defined.

(** C7: the code that [hsk_chain_add] returns and the chain afterwards, for every branch
    in the order of the checks: a header from the future, a known header, a known
    orphan, a bad target and a hash above the target change nothing; with an unknown
    parent the header is kept in both orphan maps, emptied first when they hold more
    than 10000; a time not above the median and wrong difficulty bits change
    nothing. Otherwise the header is connected ([inserted]: the map of hashes, the tip
    by work, with it the height and the map of heights) and the orphans that wait
    for it follow one by one ([settled]), up to the first that is refused, whose code
    is returned. The flag [synced] and the writes of checkpoints are left aside. Without
    memory for the copy of the header nothing changes; without memory for a place in
    an orphan map the header is dropped, and the others with it when there were more
    than 10000. *)
Theorem chain_add_outcome net now c h B :
  net_ok net -> chain_ok c -> waiting_ok c -> ch_memory c = [] -> bounded c B -> B + 1 < 2 ^ 32 ->
  fresh h ->
  exists hash rc c', hsk_header_hash h = Ret (hash, set_hash h hash) /\
    hsk_chain_add net now c h = Ret (rc, c') /\ add_result net now c (set_hash h hash) rc c' /\
    hsk_chain_add net now (set_memory c [false]) h = Ret (HSK_ENOMEM, c) /\
    (rc = HSK_EORPHAN ->
       hsk_chain_add net now (set_memory c [true; false]) h = Ret (HSK_ENOMEM, flushed c) /\
       hsk_chain_add net now (set_memory c [true; true; false]) h = Ret (HSK_ENOMEM, flushed c)).
Proof.
  intros Hnet Hok Hw Hm HB HB32 Hf.
  destruct (hsk_chain_add_spec net now c h B Hnet Hok Hw Hm HB HB32 Hf) as (hash & rc & c' & E1 & E2 & _ & H).
  exists hash, rc, c'. split_and!; try done; [by apply add_no_copy|].
  intros ->. split; eapply add_no_room; eauto.
Qed.
Lemma chain_add_outcome_witness : exists rcs c hash rc c',
  start HSK_REGTEST sample_time [sample_a1; sample_b2; sample_b3] = Ret (rcs, c) /\
  hsk_chain_add HSK_REGTEST sample_time c sample_b1 = Ret (rc, c') /\ rc = HSK_SUCCESS /\
  add_result HSK_REGTEST sample_time c (set_hash sample_b1 hash) rc c'.
Proof.
  destruct sample_facts as (Hn & Hg & Hf).
  destruct (start_run HSK_REGTEST sample_time [sample_a1; sample_b2; sample_b3] Hn Hg)
    as (rcs & c & E & Hr); [cbn; lia|apply (bool_decide_eq_true _); vm_compute; reflexivity|].
  destruct (run_ok HSK_REGTEST 3 c Hn Hg Hr) as (H1 & H2 & H3 & H4); [lia|].
  destruct (chain_add_outcome HSK_REGTEST sample_time c sample_b1 4 Hn H1 H2 H3 H4)
    as (hash & rc & c' & _ & E' & Hres & _).
  - lia.
  - apply (bool_decide_eq_true _). vm_compute. reflexivity.
  - assert (V : (let* (_, c) := start HSK_REGTEST sample_time [sample_a1; sample_b2; sample_b3] in
                 let* (rc, _) := hsk_chain_add HSK_REGTEST sample_time c sample_b1 in Ret rc) =
                Ret HSK_SUCCESS) by (vm_compute; reflexivity).
    rewrite E in V. cbn [obind] in V. rewrite E' in V. injection V as V.
    exists rcs, c, hash, rc, c'. split; [exact E|]. split; [exact E'|]. split; [exact V|exact Hres].
Defined.

(** C8: the best chain rule. After any run of fewer than [2 ^ 32 - 1] calls, the work
    of every header is the sum of the proofs of work on its path to the genesis
    block (modulo [2 ^ 256]); the tip has the most work of all headers; and the map
    of heights holds exactly the path of the tip, so that the chain is one path of
    parents from the genesis block to the tip. *)
Theorem chain_best_chain net n c : net_ok net -> genesis_ok net = true -> run net n c ->
  Z.of_nat n + 1 < 2 ^ 32 ->
  (forall k h, ch_hashes c !! k = Some h ->
     up (ch_hashes c) (Z.to_nat (hd_height h)) h = Some (ch_genesis c) /\
     be_combine (hd_work h) = path_work (ch_hashes c) (Z.to_nat (hd_height h)) h mod 2 ^ 256 /\
     be_combine (hd_work h) <= be_combine (hd_work (ch_tip c))) /\
  ch_heights c !! 0 = Some (ch_genesis c) /\ ch_heights c !! ch_height c = Some (ch_tip c) /\
  (forall i h, ch_heights c !! i = Some h -> 0 <= i <= ch_height c /\ hd_height h = i) /\
  (forall i, 0 < i <= ch_height c -> exists h p, ch_heights c !! i = Some h /\
     ch_heights c !! (i - 1) = Some p /\ hd_prev_block h = hd_hash p).
Proof.
  intros Hnet Hg Hr Hn. destruct (run_ok net n c Hnet Hg Hr Hn) as (Hok & _).
  assert (Hcl := ok_closed c Hok). destruct (ok_tip c Hok) as [Ht Hth].
  destruct (chain_ok_linked c _ _ Hok Ht) as (Htl & _).
  assert (Hroot : forall h, linked (ch_hashes c) (ch_genesis c) h ->
    up (ch_hashes c) (Z.to_nat (hd_height h)) h = Some (ch_genesis c)).
  { intros h Hl. assert (H0 := linked_nonneg _ _ _ Hcl Hl).
    destruct (up_total _ _ (Z.to_nat (hd_height h)) h Hcl Hl) as (g & Hu & Hgh & Hgl & _); [lia|].
    destruct Hgl as [[_ ->]|[? _]]; [done|lia]. }
  assert (H0 := linked_nonneg _ _ _ Hcl Htl). rewrite Hth. split_and!.
  - intros k h Hh. destruct (chain_ok_linked c _ _ Hok Hh) as (Hl & _ & Hk). split; [by apply Hroot|].
    assert (Hh0 := linked_nonneg _ _ _ Hcl Hl).
    split; [apply path_work_spec; [done|by rewrite Hk|lia]|by eapply ok_best].
  - rewrite ok_main, bool_decide_eq_true_2, Z.sub_0_r by (done || lia). by apply Hroot.
  - by rewrite ok_main, bool_decide_eq_true_2, Z.sub_diag by (done || lia).
  - intros i h. rewrite ok_main by done. case_bool_decide as Hi; [|done]. intros Hu. split; [done|].
    apply up_height with (root := ch_genesis c) in Hu; [lia|done|done|lia].
  - intros i Hi. destruct (up_total _ _ (Z.to_nat (hd_height (ch_tip c) - (i - 1))) _ Hcl Htl)
      as (p & Hp & _); [lia|].
    replace (Z.to_nat (hd_height (ch_tip c) - (i - 1))) with (S (Z.to_nat (hd_height (ch_tip c) - i))) in Hp by lia.
    assert (Hp' := Hp). apply up_S_inv in Hp' as (h & Hu & Hhp). exists h, p.
    rewrite !ok_main, !bool_decide_eq_true_2 by (done || lia). split; [done|]. split.
    + by replace (Z.to_nat (hd_height (ch_tip c) - (i - 1))) with (S (Z.to_nat (hd_height (ch_tip c) - i))) by lia.
    + by destruct (chain_ok_linked c _ _ Hok Hhp) as (_ & _ & ->).
Qed.
Lemma chain_best_chain_witness : exists rcs c,
  start HSK_REGTEST sample_time sample_headers = Ret (rcs, c) /\ ch_heights c !! 0 = Some (ch_genesis c).
Proof.
  destruct sample_facts as (H1 & H2 & H3).
  destruct (start_run HSK_REGTEST sample_time sample_headers H1 H2) as (rcs & c & E & Hr); [cbn; lia|done|].
  destruct (chain_best_chain HSK_REGTEST 4 c H1 H2 Hr) as (_ & H0 & _); [lia|].
  exists rcs, c. split; [exact E|exact H0].
Defined.

(** C9: a reorganisation makes the path of the competitor the main chain: afterwards
    the map of heights holds exactly the ancestors of the competitor, each at its
    height (the caller then adds the competitor itself), whatever the fork point and
    whichever branch is longer; nothing else changes, and the search for the fork
    always succeeds. *)
Theorem reorganize_correct c l : chain_ok c -> ch_memory c = [] ->
  linked (ch_hashes c) (ch_genesis c) l -> stored l -> ch_hashes c !! hd_hash l = None ->
  exists m, hsk_chain_reorganize c l = Ret (set_heights c m) /\
    forall n, m !! n = if bool_decide (0 <= n < hd_height l)
                       then up (ch_hashes c) (Z.to_nat (hd_height l - n)) l else None.
Proof. apply hsk_chain_reorganize_spec. Qed.

Definition small_genesis : hsk_header_t := set_hash hsk_header_init (be_split 32 7).
Definition small_chain : hsk_chain_t :=
  mk_chain 0 0 small_genesis small_genesis false {[be_split 32 7 := small_genesis]} {[0 := small_genesis]}
    ∅ ∅ false [] [].
Definition small_child : hsk_header_t :=
  mk_header 0 9 (be_split 32 7) zero32 (replicate 24 0) zero32 zero32 zero32 0 0 zero32 true
    (be_split 32 1) 1 zero32.
Lemma small_chain_ok : chain_ok small_chain.
Proof.
  apply (genesis_chain_ok small_genesis false); [|done].
  split_and!; [|done|..]; apply (bool_decide_eq_true _); vm_compute; reflexivity.
Qed.
Lemma small_child_linked : linked (ch_hashes small_chain) small_genesis small_child.
Proof. right. split; [done|]. exists small_genesis. split; vm_compute; reflexivity. Qed.
Lemma reorganize_correct_witness : exists m,
  hsk_chain_reorganize small_chain small_child = Ret (set_heights small_chain m) /\
  m !! 0 = Some small_genesis /\ m !! 1 = None.
Proof.
  destruct (reorganize_correct small_chain small_child small_chain_ok) as (m & E & Hm).
  - reflexivity.
  - exact small_child_linked.
  - split_and!; [|done|..]; apply (bool_decide_eq_true _); vm_compute; reflexivity.
  - vm_compute. reflexivity.
  - exists m. split; [exact E|]. rewrite !Hm. split; vm_compute; reflexivity.
Defined.

(** C12: retargeting returns for any two headers in order, and computes the target
    that corresponds to the work done per clamped time, in 512-bit arithmetic; a
    result above the limit is replaced by the initial bits, and any other positive
    result is a compact number whose target is the result with its low bytes cleared,
    so never above the limit. *)
Theorem retarget_correct net first last : net_ok net ->
  bytes_n 32 (hd_work first) -> bytes_n 32 (hd_work last) -> hd_height first <= hd_height last ->
  let v := retarget_value net first last in
  exists bits, hsk_chain_retarget net first last = Ret bits /\
    (be_combine (HSK_LIMIT net) < v -> bits = HSK_BITS net) /\
    (0 < v <= be_combine (HSK_LIMIT net) -> exists k t, 0 <= k /\
       hsk_pow_to_target bits = Some t /\ be_combine t = round_down v k /\
       be_combine t <= be_combine (HSK_LIMIT net)).
Proof.
  intros Hnet Hf Hl Hh v. eexists. split; [by apply hsk_chain_retarget_spec|]. cbv zeta. fold v.
  split; intros Hv; [by rewrite (proj2 (Z.ltb_lt _ _))|].
  rewrite (proj2 (Z.ltb_ge _ _)) by lia. destruct Hnet as (_ & _ & _ & Hlim).
  assert (R := be_combine_32 _ Hlim).
  assert (Hvb : be_combine (be_split 32 v) = v).
  { rewrite be_combine_split. change (256 ^ Z.of_nat 32) with (2 ^ 256). apply Z.mod_small. lia. }
  destruct (hsk_pow_to_bits_roundtrip (be_split 32 v)) as (_ & _ & E & _).
  { split; [apply length_be_split|apply bytes_be_split]. } { lia. }
  rewrite Hvb in E. set (k := Z.max 0 _) in E. exists k, (be_split 32 (round_down v k)).
  assert (Hrd : 0 <= round_down v k <= v).
  { unfold round_down. assert (0 < 256 ^ k) by (apply Z.pow_pos_nonneg; lia).
    assert (Hm := Z.mod_le v (256 ^ k)). assert (Hb := Z.mod_pos_bound v (256 ^ k)). lia. }
  rewrite be_combine_split. change (256 ^ Z.of_nat 32) with (2 ^ 256).
  rewrite Z.mod_small by lia. split_and!; [lia|exact E|done|lia].
Qed.
Definition work_header (height time work : Z) : hsk_header_t :=
  mk_header 0 time zero32 zero32 (replicate 24 0) zero32 zero32 zero32 0 0 zero32 true zero32 height
    (be_split 32 work).
Lemma retarget_correct_witness : exists bits k t,
  hsk_chain_retarget HSK_MAIN (work_header 10 1000 0) (work_header 154 87400 (144 * 2 ^ 50)) = Ret bits /\
  hsk_pow_to_target bits = Some t /\
  be_combine t = round_down (2 ^ 206 - 1) k.
Proof.
  destruct (retarget_correct HSK_MAIN (work_header 10 1000 0) (work_header 154 87400 (144 * 2 ^ 50)))
    as (bits & E & _ & H).
  - apply (bool_decide_eq_true _). vm_compute. reflexivity.
  - apply (bool_decide_eq_true _). vm_compute. reflexivity.
  - apply (bool_decide_eq_true _). vm_compute. reflexivity.
  - cbn. lia.
  - destruct H as (k & t & _ & Ht & Hv & _).
    + split; [|apply Z.leb_le]; vm_compute; reflexivity.
    + exists bits, k, t. split; [exact E|]. split; [exact Ht|].
      rewrite Hv. apply (f_equal (fun v => round_down v k)). vm_compute. reflexivity.
Defined.

(** C22: the difficulty of the next block on any header of the chain. It is the initial
    one exactly when the network does not retarget, when it resets and the new time
    is more than two spacings after the parent, or below height 146. Otherwise it is
    the retarget from [first] to [last], where [last] is the middle by time of the
    parent and the two headers before it and [first] the middle of the three headers
    144 blocks earlier. No assertion fails. *)
Theorem get_target_window net c time prev : net_ok net ->
  closed (ch_hashes c) (ch_genesis c) -> linked (ch_hashes c) (ch_genesis c) prev -> stored prev ->
  if HSK_NO_RETARGETTING net ||
     (HSK_TARGET_RESET net && (i64 (hd_time prev) + HSK_TARGET_SPACING net * 2 <? time)) ||
     (hd_height prev <? 146)
  then hsk_chain_get_target net c time (Some prev) = Ret (HSK_BITS net)
  else exists last ancestor first, middle (ch_hashes c) prev last /\
    up (ch_hashes c) 144 prev = Some ancestor /\ middle (ch_hashes c) ancestor first /\
    hsk_chain_get_target net c time (Some prev) =
      Ret (let v := retarget_value net first last in
           if be_combine (HSK_LIMIT net) <? v then HSK_BITS net
           else hsk_pow_to_bits (be_split 32 v)).
Proof. intros Hnet Hc Hl Hs. exact (hsk_chain_get_target_window net c Hnet Hc time prev Hl Hs). Qed.

(** A window of 149 headers, one each nine minutes. *)
Definition window_header (n : Z) : hsk_header_t :=
  mk_header 0 (540 * n) (be_split 32 n) zero32 (replicate 24 0) zero32 zero32 zero32 0 0 zero32 true
    (be_split 32 (n + 1)) n (be_split 32 (n * 2 ^ 50)).
Definition window_hashes : hash_map :=
  list_to_map ((fun n => (be_split 32 (n + 1), window_header n)) <$> seqZ 0 149).
Definition window_chain : hsk_chain_t :=
  mk_chain 148 0 (window_header 148) (window_header 0) false window_hashes ∅ ∅ ∅ false [] [].

Lemma window_lookup n : 0 <= n < 149 -> window_hashes !! be_split 32 (n + 1) = Some (window_header n).
Proof.
  intros Hn. apply elem_of_list_to_map_1.
  - apply (bool_decide_eq_true _). vm_compute. reflexivity.
  - apply list_elem_of_fmap. exists n. split; [done|]. by apply elem_of_seqZ.
Qed.
Lemma window_stored n : 0 <= n < 149 -> stored (window_header n).
Proof.
  intros Hn. assert (R := fun v => conj (length_be_split 32 v) (bytes_be_split 32 v)).
  split_and!; try apply R; [|done]. unfold hdr_wf. cbn -[be_split Z.mul zero32].
  split_and!; try apply R; try lia; apply (bool_decide_eq_true _); vm_compute; reflexivity.
Qed.
Lemma window_linked n : 0 <= n < 149 -> linked window_hashes (window_header 0) (window_header n).
Proof.
  intros Hn. destruct (decide (n = 0)) as [->|Hne]; [by left|right]. split; [cbn; lia|].
  exists (window_header (n - 1)). split; [|cbn; lia].
  change (hd_prev_block (window_header n)) with (be_split 32 n).
  replace n with (n - 1 + 1) at 1 by lia. apply window_lookup. lia.
Qed.
Lemma window_closed : closed window_hashes (window_header 0).
Proof.
  intros k h Hk. apply elem_of_list_to_map_2, list_elem_of_fmap in Hk as (n & [= -> ->] & Hn).
  apply elem_of_seqZ in Hn. split; [done|]. split; [by apply window_stored|by apply window_linked].
Qed.
Lemma get_target_window_witness : exists last ancestor first,
  middle window_hashes (window_header 148) last /\
  up window_hashes 144 (window_header 148) = Some ancestor /\ middle window_hashes ancestor first /\
  hsk_chain_get_target HSK_MAIN window_chain 90000 (Some (window_header 148)) =
    Ret (let v := retarget_value HSK_MAIN first last in
         if be_combine (HSK_LIMIT HSK_MAIN) <? v then HSK_BITS HSK_MAIN
         else hsk_pow_to_bits (be_split 32 v)) /\
  hsk_chain_get_target HSK_MAIN window_chain 90000 (Some (window_header 148)) = Ret 0x1a399999.
Proof.
  assert (Hn : net_ok HSK_MAIN) by (apply (bool_decide_eq_true _); vm_compute; reflexivity).
  destruct (get_target_window HSK_MAIN window_chain 90000 (window_header 148) Hn window_closed)
    as (last & a & first & H1 & H2 & H3 & H4).
  - apply window_linked. lia.
  - apply window_stored. lia.
  - exists last, a, first. split; [exact H1|]. split; [exact H2|]. split; [exact H3|].
    split; [exact H4|]. vm_compute. reflexivity.
Defined.

(** [hsk_chain_suitable_block] returns the median by time of a header, its parent
    and its grandparent. *)
Theorem suitable_block_correct c z y x :
  ch_hashes c !! hd_prev_block z = Some y -> ch_hashes c !! hd_prev_block y = Some x ->
  exists a r b, hsk_chain_suitable_block c z = Ret r /\ Permutation [a; r; b] [x; y; z] /\
    hd_time a <= hd_time r <= hd_time b.
Proof. apply suitable_block_median. Qed.
Definition timed_header (hash prev time : Z) : hsk_header_t :=
  mk_header 0 time (be_split 32 prev) zero32 (replicate 24 0) zero32 zero32 zero32 0 0 zero32 true
    (be_split 32 hash) 0 zero32.
Definition timed_chain : hsk_chain_t :=
  set_hashes small_chain (<[be_split 32 1 := timed_header 1 0 7]>
    (<[be_split 32 2 := timed_header 2 1 9]> {[be_split 32 3 := timed_header 3 2 8]})).
Lemma suitable_block_correct_witness : exists a r b,
  hsk_chain_suitable_block timed_chain (timed_header 3 2 8) = Ret r /\
  hd_time a <= hd_time r <= hd_time b /\ hd_time r = 8.
Proof.
  destruct (suitable_block_correct timed_chain (timed_header 3 2 8) (timed_header 2 1 9) (timed_header 1 0 7))
    as (a & r & b & E & _ & H); [vm_compute; reflexivity|vm_compute; reflexivity|].
  exists a, r, b. split; [exact E|]. split; [exact H|].
  assert (E' : hsk_chain_suitable_block timed_chain (timed_header 3 2 8) = Ret (timed_header 3 2 8))
    by (vm_compute; reflexivity).
  rewrite E' in E. injection E as <-. reflexivity.
Defined.

(** C24: the median time past of a header is an entry of the times of the header and
    its up to ten ancestors with half of them (rounded down) before it and not above
    it, and the others not below it. *)
Theorem mtp_correct c h : chain_ok c -> ch_hashes c !! hd_hash h = Some h ->
  ch_hashes c !! hd_prev_block (ch_genesis c) = None ->
  let times := mtp_times 11 c (Some h) in
  length times = Nat.min 11 (S (Z.to_nat (hd_height h))) /\
  (forall k t, times !! k = Some t ->
     exists g, up (ch_hashes c) k h = Some g /\ t = i64 (hd_time g)) /\
  exists lo hi, Permutation times (lo ++ hsk_chain_get_mtp c (Some h) :: hi) /\
    length lo = Nat.div2 (length times) /\
    Forall (fun t => t <= hsk_chain_get_mtp c (Some h)) lo /\
    Forall (fun t => hsk_chain_get_mtp c (Some h) <= t) hi.
Proof.
  intros Hok Hh Hg times. destruct (chain_ok_linked c _ _ Hok Hh) as (Hl & _).
  destruct (mtp_times_spec c (ok_closed c Hok) 11 h Hl Hg) as [Hlen Hk]. fold times in Hlen, Hk.
  split; [done|]. split; [exact Hk|].
  destruct (sorted_split (qsort times) (Nat.div2 (length times)) (qsort_sorted times))
    as (lo & hi & E & Hlo & Hle & Hge).
  { rewrite qsort_perm, Hlen. apply Nat.lt_div2. lia. }
  change (nth _ (qsort times) 0) with (hsk_chain_get_mtp c (Some h)) in E, Hle, Hge.
  exists lo, hi. split; [by rewrite <-E, qsort_perm|]. by split_and!.
Qed.
Lemma mtp_correct_witness :
  length (mtp_times 11 small_chain (Some small_genesis)) = 1%nat /\
  hsk_chain_get_mtp small_chain (Some small_genesis) = 0.
Proof.
  split; [|vm_compute; reflexivity].
  refine (proj1 (mtp_correct small_chain small_genesis small_chain_ok _ _)); vm_compute; reflexivity.
Defined.

(** C23: the block locator is built for every chain below [2 ^ 32] blocks: the loop ends,
    and it holds at most 43 hashes, so that the 64 entries of the message suffice. The
    hashes are those of the main chain at strictly decreasing heights, from the tip
    to the genesis block. *)
Theorem locator_correct c : chain_ok c -> hd_height (ch_tip c) < 2 ^ 32 ->
  exists ns hashes, hsk_chain_get_locator c = Ret hashes /\ (length hashes <= 43)%nat /\
    head ns = Some (ch_height c) /\ last ns = Some 0 /\ StronglySorted Z.gt ns /\
    Forall2 (fun n hash => exists h, ch_heights c !! n = Some h /\ hd_hash h = hash) ns hashes.
Proof. exact (locator_spec c). Qed.
Lemma locator_correct_witness : exists ns hashes, hsk_chain_get_locator small_chain = Ret hashes /\
  (length hashes <= 43)%nat /\ last ns = Some 0.
Proof.
  destruct (locator_correct small_chain small_chain_ok) as (ns & hashes & E & Hl & _ & H0 & _).
  - cbn. lia.
  - exists ns, hashes. split; [exact E|]. split; [exact Hl|exact H0].
Defined.

(** C25: the root for name resolution. On every chain the assertion of
    [hsk_chain_safe_root] holds, and the root is that of the block of the main chain
    at the last multiple of the tree interval, when fewer than 12 blocks came after
    it, and of the tip otherwise. *)
Theorem safe_root_correct net c : chain_ok c -> hd_height (ch_tip c) < 2 ^ 32 ->
  0 < HSK_TREE_INTERVAL net ->
  exists h, hsk_chain_safe_root net c = Ret (hd_name_root h) /\
    let rest := ch_height c mod HSK_TREE_INTERVAL net in
    ch_heights c !! (if rest <? 12 then ch_height c - rest else ch_height c) = Some h.
Proof. exact (safe_root_spec net c). Qed.
Lemma safe_root_correct_witness : exists rcs c h,
  start HSK_REGTEST sample_time sample_headers = Ret (rcs, c) /\
  hsk_chain_safe_root HSK_REGTEST c = Ret (hd_name_root h) /\ ch_height c = 2 /\
  ch_heights c !! 0 = Some h.
Proof.
  destruct sample_chain as (rcs & c & E & Hok & _).
  assert (V : (let* (_, c) := start HSK_REGTEST sample_time sample_headers in
               Ret (ch_height c, hd_height (ch_tip c))) = Ret (2, 2)) by (vm_compute; reflexivity).
  rewrite E in V. cbn [obind] in V. injection V as Vh Vt.
  destruct (safe_root_correct HSK_REGTEST c Hok) as (h & R & Hh).
  - rewrite Vt. lia.
  - cbn. lia.
  - rewrite Vh in Hh. exists rcs, c, h. split; [exact E|]. split; [exact R|]. split; [exact Vh|exact Hh].
Defined.

(** A run on the regression-test network. The first header becomes the tip (code
    0); two headers with the same unknown parent are kept as orphans (26 twice); their
    parent arrives, does not have more work than the tip, and releases only the later
    of the two orphans, which makes its branch the main chain by a reorganisation
    (the nonces at heights 0, 1 and 2, nothing at 3). The map of awaited parents has
    one place per parent: the earlier orphan stays among the orphans for good, and
    sending it again is refused as a duplicate (23). *)
Theorem sibling_orphan_lost : sample_view = Ret ([0; 26; 26; 0; 23], [0; 0; 1], true, 1, 4).
Proof. vm_compute. reflexivity. Qed.
