(* ===== verification/Proof.v ===== *)
(** Proofs of the name tree: [proof-radix.c], [proof-radix.h], [constants.h] (the file
    that [proof.c] includes).

    The nodes are a list, in the order of the message, from the root down. Reads
    of the C arrays are checked: past the end they are [Overread]. A null pointer
    is [None]. *)

From S2P Require Import Prelude Bio Blake2b Sha3 Hash.

Definition HSK_MAX_DATA_SIZE : Z := 668.

Definition HSK_PROOF_DEADEND : Z := 0.
Definition HSK_PROOF_SHORT : Z := 1.
Definition HSK_PROOF_COLLISION : Z := 2.
Definition HSK_PROOF_EXISTS : Z := 3.

Record hsk_proof_node_t := mk_proof_node {
  pn_prefix : list Z;
  pn_prefix_size : Z;
  pn_node : list Z;
}.

Record hsk_proof_t := mk_proof {
  pf_type : Z;
  pf_depth : Z;
  pf_nodes : list hsk_proof_node_t;
  pf_node_count : Z;
  pf_prefix : option (list Z);
  pf_prefix_size : Z;
  pf_left : option (list Z);
  pf_right : option (list Z);
  pf_nx_key : option (list Z);
  pf_nx_hash : option (list Z);
  pf_value : option (list Z);
  pf_value_size : Z;
}.

Definition hsk_proof_init : hsk_proof_t :=
  mk_proof HSK_PROOF_DEADEND 0 [] 0 None 0 None None None None None 0.

(** [n] bytes of a buffer. *)
Definition mem_read (n : Z) (m : list Z) : outcome (list Z) :=
  if Z.of_nat (length m) <? n then Fault Overread else Ret (take (Z.to_nat n) m).

(** The macro [HSK_HAS_BIT]. *)
Definition HSK_HAS_BIT (m : list Z) (i : Z) : outcome bool :=
  let* b := of_option Overread (m !! Z.to_nat (Z.shiftr i 3)) in
  Ret (negb (Z.land (Z.shiftr b (7 - Z.land i 7)) 1 =? 0)).

(** * Reading *)

(** The number of bits, and of bytes that hold them. *)
Definition read_bitlen : rd (Z * Z) :=
  byte <- read_u8 ;;
  size <- (if negb (Z.land byte 0x80 =? 0)
           then
             let size := u16 (Z.shiftl (Z.land byte 0x7f) 8) in
             byte <- read_u8 ;;
             rret (Z.lor size byte)
           else rret byte) ;;
  rguard (negb ((size =? 0) || (256 <? size))) ;;;
  rret (size, (size + 7) / 8).

(** [bytes] bytes at the start of a zeroed array of [n]. *)
Definition fill (n : nat) (bytes : list Z) : list Z := bytes ++ replicate (n - length bytes) 0.

(** One turn of the loop over the nodes. *)
Definition read_node (map : list Z) (i : Z) : rd hsk_proof_node_t :=
  has <- (fun d => match HSK_HAS_BIT map i with Ret b => Ret (b, d) | Fail => Fail | Fault f => Fault f end) ;;
  p <- (if has : bool
        then
          sb <- read_bitlen ;;
          prefix <- read_bytes (snd sb) ;;
          rret (fill 32 prefix, fst sb)
        else rret (replicate 32 0, 0)) ;;
  node <- read_bytes 32 ;;
  rret (mk_proof_node (fst p) (snd p) node).
Fixpoint read_nodes (n : nat) (map : list Z) (i : Z) : rd (list hsk_proof_node_t) :=
  match n with
  | O => rret []
  | S n' =>
      item <- read_node map i ;;
      items <- read_nodes n' map (i + 1) ;;
      rret (item :: items)
  end.

(** The part that depends on the type. [al] answers the allocations, in order. *)
Definition read_rest (al : nat -> bool) (type depth count : Z) (nodes : list hsk_proof_node_t) :
    rd hsk_proof_t :=
  if type =? HSK_PROOF_DEADEND then
    rret (mk_proof type depth nodes count None 0 None None None None None 0)
  else if type =? HSK_PROOF_SHORT then
    sb <- read_bitlen ;;
    prefix <- alloc_bytes (al 1%nat) (snd sb) ;;
    left_ <- alloc_bytes (al 2%nat) 32 ;;
    right_ <- alloc_bytes (al 3%nat) 32 ;;
    rret (mk_proof type depth nodes count (Some prefix) (fst sb) (Some left_) (Some right_) None None None 0)
  else if type =? HSK_PROOF_COLLISION then
    nx_key <- alloc_bytes (al 1%nat) 32 ;;
    nx_hash <- alloc_bytes (al 2%nat) 32 ;;
    rret (mk_proof type depth nodes count None 0 None None (Some nx_key) (Some nx_hash) None 0)
  else if type =? HSK_PROOF_EXISTS then
    value_size <- read_u16 ;;
    rguard (negb (HSK_MAX_DATA_SIZE <? value_size)) ;;;
    value <- alloc_bytes (al 1%nat) value_size ;;
    rret (mk_proof type depth nodes count None 0 None None None None (Some value) value_size)
  else rfault AssertFail.

Definition hsk_proof_read (al : nat -> bool) : rd hsk_proof_t :=
  field <- read_u16 ;;
  let type := Z.shiftr field 14 in
  let depth := Z.land field (65535 - 3 * 2 ^ 14) in
  rguard (negb (256 <? depth)) ;;;
  count <- read_u16 ;;
  rguard (negb (256 <? count)) ;;;
  map <- slice_bytes ((count + 7) / 8) ;;
  rguard (negb ((0 <? count) && negb (al 0%nat))) ;;;
  nodes <- read_nodes (Z.to_nat count) map 0 ;;
  read_rest al type depth count nodes.

Definition hsk_proof_decode (al : nat -> bool) (data : list Z) : outcome hsk_proof_t :=
  match hsk_proof_read al data with
  | Ret (p, _) => Ret p
  | Fail => Fail
  | Fault f => Fault f
  end.

(** * Hashing *)

Definition hsk_proof_skip : list Z := [0x02].
Definition hsk_proof_internal : list Z := [0x01].
Definition hsk_proof_leaf : list Z := [0x00].

Definition hsk_proof_hash_internal (prefix : list Z) (prefix_size : Z) (left_ right_ : list Z) :
    outcome (list Z) :=
  let* left_ := mem_read 32 left_ in
  let* right_ := mem_read 32 right_ in
  if prefix_size =? 0 then blake2b_assert 32 [hsk_proof_internal; left_; right_]
  else
    let size := from_option id [] (snd (write_u16 prefix_size (Some []))) in
    let* prefix := mem_read ((prefix_size + 7) / 8) prefix in
    blake2b_assert 32 [hsk_proof_skip; size; prefix; left_; right_].

Definition hsk_proof_hash_leaf (key hash : list Z) : outcome (list Z) :=
  let* key := mem_read 32 key in
  let* hash := mem_read 32 hash in
  blake2b_assert 32 [hsk_proof_leaf; key; hash].

Definition hsk_proof_hash_value (key value : list Z) (value_size : Z) : outcome (list Z) :=
  let* value := mem_read value_size value in
  let* out := blake2b_assert 32 [value] in
  hsk_proof_hash_leaf key out.

(** * Verification *)

(** [for (i = 0; i < len; i++)]: the number of equal bits. *)
Fixpoint has_loop (len : nat) (prefix key : list Z) (x y c : Z) : outcome Z :=
  match len with
  | O => Ret c
  | S len' =>
      let* a := HSK_HAS_BIT prefix x in
      let* b := HSK_HAS_BIT key y in
      if negb (Bool.eqb a b) then Ret c
      else has_loop len' prefix key (x + 1) (y + 1) (c + 1)
  end.
Definition hsk_proof_has (prefix : list Z) (prefix_size : Z) (key : list Z) (depth : Z) : outcome bool :=
  let xs := prefix_size in
  let ys := 256 - depth in
  let len := if xs <? ys then xs else ys in
  let* _ := oassert ((0 <=? len) && (len <=? 256)) in
  let* c := has_loop (Z.to_nat len) prefix key 0 depth 0 in
  Ret (c =? prefix_size).

Definition hsk_parse_namestate (malloc_ok : bool) (data : list Z) : outcome (list Z) :=
  if HSK_MAX_DATA_SIZE <? Z.of_nat (length data) then Fail
  else
    match (name_size <- read_u8 ;;
           slice_bytes name_size ;;;
           res_size <- read_u16 ;;
           alloc_bytes malloc_ok res_size) data with
    | Ret (res, _) => Ret res
    | Fail => Fail
    | Fault f => Fault f
    end.

(** The leaf of the proof, or the code to return. *)
Definition proof_leaf (key : list Z) (proof : hsk_proof_t) : outcome (Z + list Z) :=
  if pf_type proof =? HSK_PROOF_DEADEND then Ret (inr (replicate 32 0))
  else if pf_type proof =? HSK_PROOF_SHORT then
    let* prefix := of_option AssertFail (pf_prefix proof) in
    let* _ := oassert (negb (pf_prefix_size proof =? 0)) in
    let* left_ := of_option AssertFail (pf_left proof) in
    let* right_ := of_option AssertFail (pf_right proof) in
    let* has := hsk_proof_has prefix (pf_prefix_size proof) key (pf_depth proof) in
    if has : bool then Ret (inl HSK_ESAMEPATH)
    else
      let* leaf := hsk_proof_hash_internal prefix (pf_prefix_size proof) left_ right_ in
      Ret (inr leaf)
  else if pf_type proof =? HSK_PROOF_COLLISION then
    let* nx_key := of_option AssertFail (pf_nx_key proof) in
    let* nx_hash := of_option AssertFail (pf_nx_hash proof) in
    let* a := mem_read 32 nx_key in
    let* b := mem_read 32 key in
    if memeq a b then Ret (inl HSK_ESAMEKEY)
    else let* leaf := hsk_proof_hash_leaf nx_key nx_hash in Ret (inr leaf)
  else if pf_type proof =? HSK_PROOF_EXISTS then
    match pf_value proof with
    | None => let* _ := oassert (pf_value_size proof =? 0) in
              let* leaf := hsk_proof_hash_value key [] 0 in Ret (inr leaf)
    | Some value => let* leaf := hsk_proof_hash_value key value (pf_value_size proof) in Ret (inr leaf)
    end
  else Fault AssertFail.

(** The loop over the nodes, last first: the code to return, or the hash and the
    depth that are reached. *)
Fixpoint traverse (items : list hsk_proof_node_t) (key next : list Z) (depth : Z) :
    outcome (Z + list Z * Z) :=
  match items with
  | [] => Ret (inr (next, depth))
  | item :: items' =>
      let prefix := pn_prefix item in
      let prefix_size := pn_prefix_size item in
      let node := pn_node item in
      if depth <? prefix_size + 1 then Ret (inl HSK_ENEGDEPTH)
      else
        let depth := depth - 1 in
        let* bit := HSK_HAS_BIT key depth in
        let* next := if bit : bool then hsk_proof_hash_internal prefix prefix_size node next
                     else hsk_proof_hash_internal prefix prefix_size next node in
        let depth := depth - prefix_size in
        let* has := hsk_proof_has prefix prefix_size key depth in
        if negb has then Ret (inl HSK_EPATHMISMATCH)
        else traverse items' key next depth
  end.

(** The code, and what is stored in [exists] and [data] when it is success. *)
Definition hsk_proof_verify (malloc_ok : bool) (root key : option (list Z)) (proof : option hsk_proof_t) :
    outcome (Z * option (bool * list Z)) :=
  match root, key, proof with
  | Some root, Some key, Some proof =>
      let* _ := oassert (pf_depth proof <=? 256) in
      let* _ := oassert (pf_node_count proof <=? 256) in
      let* _ := oassert (pf_value_size proof <=? HSK_MAX_DATA_SIZE) in
      let* leaf := proof_leaf key proof in
      match leaf with
      | inl code => Ret (code, None)
      | inr leaf =>
          let* r := traverse (reverse (take (Z.to_nat (pf_node_count proof)) (pf_nodes proof)))
                      key leaf (pf_depth proof) in
          match r with
          | inl code => Ret (code, None)
          | inr (next, depth) =>
              if negb (depth =? 0) then Ret (HSK_ETOODEEP, None)
              else
                let* root := mem_read 32 root in
                if negb (memeq next root) then Ret (HSK_EHASHMISMATCH, None)
                else if pf_type proof =? HSK_PROOF_EXISTS then
                  match hsk_parse_namestate malloc_ok
                          (take (Z.to_nat (pf_value_size proof)) (from_option id [] (pf_value proof))) with
                  | Ret data => Ret (HSK_EPROOFOK, Some (true, data))
                  | Fail => Ret (HSK_EENCODING, None)
                  | Fault f => Fault f
                  end
                else Ret (HSK_EPROOFOK, Some (false, []))
          end
      end
  | _, _, _ => Ret (HSK_EBADARGS, None)
  end.
