(* ===== verification/ProofSpec.v ===== *)
(** The name tree that proofs are about, as an abstract data type, and what
    [hsk_proof_verify] establishes of it.

    A tree maps keys of 256 bits to values. Its hash is the one that block headers
    commit to. A proof is sound up to collisions of the hash function among the
    messages of the tree and those that the verification itself hashes. *)

From S2P Require Import Prelude Bio Blake2b Sha3 Hash Proof.

(** * Bits of byte strings *)

Definition byte_bits (b : Z) : list bool := (fun i => Z.testbit b i) <$> [7; 6; 5; 4; 3; 2; 1; 0].
Definition bits (m : list Z) : list bool := concat (map byte_bits m).

Lemma bits_cons b m : bits (b :: m) = byte_bits b ++ bits m.
Proof. done. Qed.
Lemma bits_app a b : bits (a ++ b) = bits a ++ bits b.
Proof. unfold bits. by rewrite map_app, concat_app. Qed.
Lemma length_bits m : length (bits m) = (8 * length m)%nat.
Proof. induction m as [|b m IH]; [done|]. rewrite bits_cons, length_app, IH. cbn. lia. Qed.
Lemma take_bits n m : take (8 * n) (bits m) = bits (take n m).
Proof.
  revert m; induction n as [|n IH]; intros [|b m]; [done|done|done|].
  rewrite bits_cons. replace (8 * S n)%nat with (8 + 8 * n)%nat by lia.
  cbn [take]. rewrite bits_cons, <-IH. apply (take_app_add (byte_bits b) _ (8 * n)).
Qed.
Lemma bits_lookup m i :
  bits m !! i = (m !! (i / 8)%nat) ≫= fun b => Some (Z.testbit b (7 - Z.of_nat (i mod 8))).
Proof.
  revert i; induction m as [|b m IH]; intros i; [done|]. rewrite bits_cons.
  destruct (Nat.lt_ge_cases i 8) as [Hi|Hi].
  - rewrite Nat.div_small, Nat.mod_small by done. cbn [lookup list_lookup mbind option_bind].
    rewrite lookup_app_l by done.
    do 8 (destruct i as [|i]; [done|]). lia.
  - rewrite lookup_app_r by done. change (length (byte_bits b)) with 8%nat. rewrite IH.
    destruct (Nat.le_exists_sub 8 i Hi) as (j & -> & _). rewrite Nat.add_sub.
    replace (j + 8)%nat with (j + 1 * 8)%nat by lia. rewrite Nat.div_add, Nat.Div0.mod_add by lia.
    by rewrite Nat.add_1_r.
Qed.

Lemma land_1_testbit z : negb (Z.land z 1 =? 0) = Z.testbit z 0.
Proof.
  change 1 with (Z.ones 1). rewrite Z.land_ones by lia. change (2 ^ 1) with 2.
  rewrite <-Z.bit0_mod. by destruct (Z.testbit z 0).
Qed.
Lemma has_bit_spec m i : 0 <= i -> HSK_HAS_BIT m i = of_option Overread (bits m !! Z.to_nat i).
Proof.
  intros Hi. unfold HSK_HAS_BIT. rewrite bits_lookup.
  rewrite Z.shiftr_div_pow2, Z2Nat.inj_div by lia. change (Z.to_nat (2 ^ 3)) with 8%nat.
  destruct (m !! (Z.to_nat i / 8)%nat) as [b|]; [|done]. cbn [of_option obind mbind option_bind].
  rewrite land_1_testbit. assert (E : Z.land i 7 = i mod 8) by (by apply (land_ones_mod i 3)).
  assert (R := Z.mod_pos_bound i 8 ltac:(lia)). rewrite E.
  rewrite Z.shiftr_spec by lia. by rewrite Nat2Z.inj_mod, Z2Nat.id, Z.add_0_l by lia.
Qed.

(** ** Comparing bits *)

Lemma take_S_lookup {A} n (l : list A) a : l !! 0%nat = Some a -> take (S n) l = a :: take n (drop 1 l).
Proof. destruct l as [|b l]; [done|]. intros [= ->]. done. Qed.

Lemma has_loop_spec len prefix key x y c : 0 <= x -> 0 <= y ->
  x + Z.of_nat len <= Z.of_nat (length (bits prefix)) -> y + Z.of_nat len <= Z.of_nat (length (bits key)) ->
  exists n, has_loop len prefix key x y c = Ret (c + n) /\ 0 <= n <= Z.of_nat len /\
    (n = Z.of_nat len <->
     take len (drop (Z.to_nat y) (bits key)) = take len (drop (Z.to_nat x) (bits prefix))).
Proof.
  revert x y c; induction len as [|len IH]; intros x y c Hx Hy Hlx Hly.
  { exists 0. cbn. split; [by rewrite Z.add_0_r|]. split; [lia|done]. }
  cbn [has_loop]. rewrite !has_bit_spec by done.
  destruct (lookup_lt_is_Some_2 (bits prefix) (Z.to_nat x)) as [a Ha]; [lia|].
  destruct (lookup_lt_is_Some_2 (bits key) (Z.to_nat y)) as [b Hb]; [lia|].
  rewrite Ha, Hb. cbn [of_option obind].
  rewrite (take_S_lookup len (drop (Z.to_nat y) (bits key)) b) by (by rewrite lookup_drop, Nat.add_0_r).
  rewrite (take_S_lookup len (drop (Z.to_nat x) (bits prefix)) a) by (by rewrite lookup_drop, Nat.add_0_r).
  rewrite !drop_drop. destruct (Bool.eqb a b) eqn:E; cbn [negb].
  - apply Bool.eqb_prop in E as <-. destruct (IH (x + 1) (y + 1) (c + 1)) as (n & -> & Hn & Heq); [lia..|].
    exists (1 + n). split; [f_equal; lia|]. split; [lia|].
    replace (Z.to_nat (x + 1)) with (Z.to_nat x + 1)%nat in Heq by lia.
    replace (Z.to_nat (y + 1)) with (Z.to_nat y + 1)%nat in Heq by lia.
    split; intros H; [f_equal; apply Heq; lia|]. injection H as H. apply Heq in H. lia.
  - exists 0. split; [by rewrite Z.add_0_r|]. split; [lia|]. split; [lia|].
    intros [= -> _]. by rewrite Bool.eqb_reflx in E.
Qed.

(** The key continues with the bits [p] at depth [d]. *)
Definition continues (key : list Z) (d : Z) (p : list bool) : Prop :=
  take (length p) (drop (Z.to_nat d) (bits key)) = p.
#[export] Instance continues_dec key d p : Decision (continues key d p).
Proof. unfold continues. solve_decision. Defined.

Lemma hsk_proof_has_spec prefix size key d : length key = 32%nat -> 0 <= d <= 256 -> 0 <= size <= 256 ->
  size <= 8 * Z.of_nat (length prefix) ->
  hsk_proof_has prefix size key d =
  Ret (bool_decide (continues key d (take (Z.to_nat size) (bits prefix)))).
Proof.
  intros Hk Hd Hs Hp. unfold hsk_proof_has. cbv zeta.
  set (len := if size <? 256 - d then size else 256 - d).
  assert (Hlen : len = Z.min size (256 - d)) by (unfold len; destruct (Z.ltb_spec size (256 - d)); lia).
  assert (Lk : length (bits key) = 256%nat) by (rewrite length_bits, Hk; done).
  assert (Lp := length_bits prefix).
  replace ((0 <=? len) && (len <=? 256)) with true
    by (symmetry; apply andb_true_intro; rewrite !Z.leb_le; lia).
  cbn [oassert obind].
  destruct (has_loop_spec (Z.to_nat len) prefix key 0 d 0) as (n & -> & Hn & Heq); [lia..|].
  cbn [obind]. apply (f_equal Ret). rewrite Z2Nat.id in Heq by lia. change (Z.to_nat 0) with 0%nat in Heq.
  rewrite drop_0 in Heq.
  assert (Hl : length (take (Z.to_nat size) (bits prefix)) = Z.to_nat size) by (rewrite length_take; lia).
  destruct (Z.eqb_spec (0 + n) size) as [He|He]; symmetry;
    [apply bool_decide_eq_true|apply bool_decide_eq_false].
  - unfold continues. rewrite Hl. assert (len = size) as Hls by lia. rewrite Hls in Heq. apply Heq. lia.
  - unfold continues. rewrite Hl. intros H. assert (Hl' := Hl).
    rewrite <-H, length_take, length_drop, Lk in Hl'. assert (len = size) as Hls by lia.
    rewrite Hls in Heq, Hn. apply Heq in H. lia.
Qed.

(** ** Packing bits into bytes *)

Fixpoint byte_of (n : nat) (p : list bool) : Z :=
  match n with
  | O => 0
  | S n' => match p with
            | [] => 0
            | b :: p' => (if b then 2 ^ Z.of_nat n' else 0) + byte_of n' p'
            end
  end.
Fixpoint pack_n (n : nat) (p : list bool) : list Z :=
  match n with O => [] | S n' => byte_of 8 (take 8 p) :: pack_n n' (drop 8 p) end.
Definition pack (p : list bool) : list Z := pack_n (Nat.div (length p + 7) 8) p.

Lemma length_pack_n n p : length (pack_n n p) = n.
Proof. revert p; induction n as [|n IH]; intros p; [done|]. cbn. by rewrite IH. Qed.
Lemma byte_of_range n p : 0 <= byte_of n p < 2 ^ Z.of_nat n.
Proof.
  revert p; induction n as [|n IH]; intros p; [done|]. cbn [byte_of].
  assert (0 < 2 ^ Z.of_nat n) by (apply Z.pow_pos_nonneg; lia).
  rewrite Nat2Z.inj_succ, Z.pow_succ_r by lia.
  destruct p as [|b p]; [lia|]. destruct (IH p). destruct b; lia.
Qed.
Lemma bytes_pack_n n p : bytes (pack_n n p).
Proof.
  revert p; induction n as [|n IH]; intros p; [constructor|]. cbn [pack_n].
  apply bytes_cons; [apply (byte_of_range 8)|apply IH].
Qed.

(** All bytes of at most eight bits. *)
Fixpoint all_bits (n : nat) : list (list bool) :=
  match n with
  | O => [[]]
  | S n' => [] :: map (cons true) (all_bits n') ++ map (cons false) (all_bits n')
  end.
Lemma all_bits_complete n p : (length p <= n)%nat -> p ∈ all_bits n.
Proof.
  revert p; induction n as [|n IH]; intros p Hp.
  { destruct p; [set_solver|cbn in Hp; lia]. }
  destruct p as [|b p]; [left|]. cbn in Hp. right. apply elem_of_app.
  assert (Hin : p ∈ all_bits n) by (apply IH; lia).
  destruct b; [left|right]; apply list_elem_of_fmap; by exists p.
Qed.
Lemma byte_bits_of p : (length p <= 8)%nat ->
  byte_bits (byte_of 8 p) = p ++ replicate (8 - length p) false.
Proof.
  intros Hp. apply all_bits_complete in Hp. revert p Hp. apply Forall_forall.
  apply (bool_decide_eq_true (Forall (fun p =>
    byte_bits (byte_of 8 p) = p ++ replicate (8 - length p) false) (all_bits 8))).
  vm_compute. reflexivity.
Qed.
Lemma bits_pack_n n p : (length p <= 8 * n)%nat ->
  bits (pack_n n p) = p ++ replicate (8 * n - length p) false.
Proof.
  revert p; induction n as [|n IH]; intros p Hp.
  { destruct p; [done|cbn in Hp; lia]. }
  cbn [pack_n]. rewrite bits_cons, byte_bits_of, IH by (rewrite ?length_take, ?length_drop; lia).
  rewrite length_take, length_drop.
  destruct (Nat.le_ge_cases 8 (length p)) as [H|H].
  - rewrite Nat.min_l, Nat.sub_diag by done. cbn [replicate]. rewrite app_nil_r, app_assoc, take_drop.
    f_equal. f_equal. lia.
  - rewrite take_ge, drop_ge by done. rewrite Nat.min_r, <-app_assoc by done. cbn [app].
    rewrite <-replicate_add. f_equal. f_equal. lia.
Qed.
Lemma pack_spec p : take (length p) (bits (pack p)) = p /\ bytes (pack p) /\
  Z.of_nat (length (pack p)) = (Z.of_nat (length p) + 7) / 8.
Proof.
  unfold pack. split; [|split].
  - rewrite bits_pack_n; [by rewrite take_app_length|].
    assert (H := Nat.div_mod (length p + 7) 8). assert (H' := Nat.mod_upper_bound (length p + 7) 8). lia.
  - apply bytes_pack_n.
  - rewrite length_pack_n, Nat2Z.inj_div, Nat2Z.inj_add. done.
Qed.

(** * Hashes of messages *)

Definition null_hash : list Z := replicate 32 0.
Definition digest (m : list Z) : list Z := from_option id null_hash (blake2b_parts 32 [m]).

Lemma blake2b_assert_digest parts : blake2b_assert 32 parts = Ret (digest (concat parts)).
Proof.
  unfold digest. rewrite (blake2b_assert_concat 32 parts [concat parts]) by (cbn; by rewrite app_nil_r).
  unfold blake2b_assert. by destruct (blake2b_parts_total 32 [concat parts]) as (h & -> & _).
Qed.
Lemma digest_bytes m : bytes_n 32 (digest m).
Proof. unfold digest. by destruct (blake2b_parts_total 32 [m]) as (h & -> & Hb). Qed.
Lemma length_digest m : length (digest m) = 32%nat.
Proof. apply digest_bytes. Qed.

Definition internal_msg (prefix : list Z) (size : Z) (l r : list Z) : list Z :=
  if size =? 0 then 1 :: l ++ r
  else 2 :: le_split 2 size ++ take (Z.to_nat ((size + 7) / 8)) prefix ++ l ++ r.
Definition leaf_msg (key hash : list Z) : list Z := 0 :: key ++ hash.

Lemma mem_read_all n m : Z.of_nat (length m) = n -> mem_read n m = Ret m.
Proof.
  intros <-. unfold mem_read. rewrite Z.ltb_irrefl. by rewrite take_ge by lia.
Qed.
Lemma hash_internal_spec prefix size l r : length l = 32%nat -> length r = 32%nat ->
  0 <= size <= 256 -> (size + 7) / 8 <= Z.of_nat (length prefix) ->
  hsk_proof_hash_internal prefix size l r = Ret (digest (internal_msg prefix size l r)).
Proof.
  intros Hl Hr Hs Hp. unfold hsk_proof_hash_internal, internal_msg.
  rewrite !mem_read_all by lia. cbn [obind]. destruct (size =? 0).
  - rewrite blake2b_assert_digest. cbn [concat hsk_proof_internal app]. by rewrite app_nil_r.
  - unfold mem_read. rewrite (proj2 (Z.ltb_ge _ _)) by lia. cbn [obind].
    rewrite blake2b_assert_digest. cbn [concat hsk_proof_skip app]. by rewrite app_nil_r.
Qed.
Lemma hash_leaf_spec key hash : length key = 32%nat -> length hash = 32%nat ->
  hsk_proof_hash_leaf key hash = Ret (digest (leaf_msg key hash)).
Proof.
  intros Hk Hh. unfold hsk_proof_hash_leaf. rewrite !mem_read_all by lia. cbn [obind].
  rewrite blake2b_assert_digest. cbn [concat hsk_proof_leaf app]. by rewrite app_nil_r.
Qed.

(** The messages determine what they are made of. *)
Lemma internal_msg_inj p1 s1 l1 r1 p2 s2 l2 r2 :
  length l1 = 32%nat -> length r1 = 32%nat -> length l2 = 32%nat -> length r2 = 32%nat ->
  0 <= s1 <= 256 -> 0 <= s2 <= 256 ->
  (s1 + 7) / 8 <= Z.of_nat (length p1) -> (s2 + 7) / 8 <= Z.of_nat (length p2) ->
  internal_msg p1 s1 l1 r1 = internal_msg p2 s2 l2 r2 ->
  s1 = s2 /\ l1 = l2 /\ r1 = r2 /\
  take (Z.to_nat s1) (bits p1) = take (Z.to_nat s2) (bits p2).
Proof.
  intros Hl1 Hr1 Hl2 Hr2 Hs1 Hs2 Hp1 Hp2. unfold internal_msg.
  destruct (Z.eqb_spec s1 0) as [->|H1], (Z.eqb_spec s2 0) as [->|H2]; try discriminate;
    intros H; apply (f_equal (drop 1)) in H; cbn [drop] in H; rewrite ?drop_0 in H.
  - apply app_inj_1 in H as [-> ->]; [done|congruence].
  - apply app_inj_1 in H as [Hs H]; [|by rewrite !length_le_split].
    assert (s1 = s2) as ->.
    { apply (f_equal le_combine) in Hs. rewrite !le_combine_split in Hs.
      rewrite !Z.mod_small in Hs by (cbn; lia). done. }
    apply app_inj_1 in H as [Hp H]; [|rewrite !length_take; lia].
    apply app_inj_1 in H as [-> ->]; [|congruence]. split_and!; try done.
    assert (Ht : forall p : list Z, (s2 + 7) / 8 <= Z.of_nat (length p) ->
      take (Z.to_nat s2) (bits p) = take (Z.to_nat s2) (bits (take (Z.to_nat ((s2 + 7) / 8)) p))).
    { intros p _. rewrite <-take_bits, take_take. f_equal.
      assert (Z.to_nat s2 <= 8 * Z.to_nat ((s2 + 7) / 8))%nat by dlia. lia. }
    by rewrite (Ht p1), (Ht p2), Hp by done.
Qed.
Lemma leaf_msg_inj k1 h1 k2 h2 : length k1 = 32%nat -> length k2 = 32%nat ->
  leaf_msg k1 h1 = leaf_msg k2 h2 -> k1 = k2 /\ h1 = h2.
Proof. intros H1 H2 [= H]. apply app_inj_1 in H as [-> ->]; [done|congruence]. Qed.
Lemma internal_not_leaf p s l r k h : internal_msg p s l r <> leaf_msg k h.
Proof. unfold internal_msg, leaf_msg. by destruct (s =? 0). Qed.

(** * The tree *)

Inductive utree :=
  | UNull
  | ULeaf (key value : list Z)
  | UInternal (prefix : list bool) (left_ right_ : utree).

Fixpoint tree_hash (t : utree) : list Z :=
  match t with
  | UNull => null_hash
  | ULeaf key value => digest (leaf_msg key (digest value))
  | UInternal p l r => digest (internal_msg (pack p) (Z.of_nat (length p)) (tree_hash l) (tree_hash r))
  end.

(** The value of a key, from bit [d] on. *)
Fixpoint tree_get (t : utree) (key : list Z) (d : Z) : option (list Z) :=
  match t with
  | UNull => None
  | ULeaf k v => if bool_decide (k = key) then Some v else None
  | UInternal p l r =>
      if bool_decide (continues key d p)
      then
        let d := d + Z.of_nat (length p) in
        if nth (Z.to_nat d) (bits key) false then tree_get r key (d + 1) else tree_get l key (d + 1)
      else None
  end.

(** A tree at depth [d]: keys of 32 bytes, values of bytes, and no path longer than a
    key. *)
Fixpoint tree_wf (d : Z) (t : utree) : Prop :=
  match t with
  | UNull => True
  | ULeaf key value => bytes_n 32 key /\ bytes value
  | UInternal p l r =>
      let d' := d + Z.of_nat (length p) + 1 in
      d' <= 256 /\ tree_wf d' l /\ tree_wf d' r
  end.

(** The messages that are hashed to compute the hash of a tree. *)
Fixpoint tree_msgs (t : utree) : list (list Z) :=
  match t with
  | UNull => []
  | ULeaf key value => [value; leaf_msg key (digest value)]
  | UInternal p l r =>
      internal_msg (pack p) (Z.of_nat (length p)) (tree_hash l) (tree_hash r) ::
      tree_msgs l ++ tree_msgs r
  end.

(** No two of the messages collide, and none has the hash of the empty tree. *)
Definition collision_free (ms : list (list Z)) : Prop :=
  (forall x y, x ∈ ms -> y ∈ ms -> digest x = digest y -> x = y) /\
  (forall x, x ∈ ms -> digest x <> null_hash).

Lemma length_tree_hash t : length (tree_hash t) = 32%nat.
Proof. destruct t; [done|apply length_digest..]. Qed.

(** * The climb from the leaf to the root *)

Definition node_ok (n : hsk_proof_node_t) : Prop :=
  0 <= pn_prefix_size n <= 256 /\ length (pn_prefix n) = 32%nat /\ length (pn_node n) = 32%nat.
Definition node_bits (n : hsk_proof_node_t) : list bool :=
  take (Z.to_nat (pn_prefix_size n)) (bits (pn_prefix n)).
(** The message that is hashed for a node, where [next] is the child at [depth]. *)
Definition node_msg (n : hsk_proof_node_t) (key next : list Z) (depth : Z) : list Z :=
  if nth (Z.to_nat (depth - 1)) (bits key) false
  then internal_msg (pn_prefix n) (pn_prefix_size n) (pn_node n) next
  else internal_msg (pn_prefix n) (pn_prefix_size n) next (pn_node n).

Fixpoint climb (items : list hsk_proof_node_t) (key next : list Z) (depth : Z) : Z + list Z * Z :=
  match items with
  | [] => inr (next, depth)
  | n :: items' =>
      let d := depth - 1 - pn_prefix_size n in
      if depth <? pn_prefix_size n + 1 then inl HSK_ENEGDEPTH
      else if bool_decide (continues key d (node_bits n))
      then climb items' key (digest (node_msg n key next depth)) d
      else inl HSK_EPATHMISMATCH
  end.
Fixpoint climb_msgs (items : list hsk_proof_node_t) (key next : list Z) (depth : Z) : list (list Z) :=
  match items with
  | [] => []
  | n :: items' =>
      let m := node_msg n key next depth in
      m :: climb_msgs items' key (digest m) (depth - 1 - pn_prefix_size n)
  end.

Lemma traverse_spec items key next depth : length key = 32%nat -> length next = 32%nat ->
  Forall node_ok items -> 0 <= depth <= 256 ->
  traverse items key next depth = Ret (climb items key next depth).
Proof.
  intros Hk Hn Hi. revert next Hn depth. induction Hi as [|n items (Hs & Hp & Hnode) _ IH];
    intros next Hn depth Hd; [done|]. cbn [traverse climb].
  destruct (Z.ltb_spec depth (pn_prefix_size n + 1)); [done|].
  assert (Hb : 0 <= depth - 1 < 256) by lia.
  rewrite has_bit_spec by lia.
  destruct (lookup_lt_is_Some_2 (bits key) (Z.to_nat (depth - 1))) as [b Eb].
  { rewrite length_bits, Hk. lia. }
  rewrite Eb. cbn [of_option obind]. assert (Hsz : (pn_prefix_size n + 7) / 8 <= 32) by dlia.
  assert (Em : (if b then hsk_proof_hash_internal (pn_prefix n) (pn_prefix_size n) (pn_node n) next
                else hsk_proof_hash_internal (pn_prefix n) (pn_prefix_size n) next (pn_node n)) =
               Ret (digest (node_msg n key next depth))).
  { unfold node_msg. rewrite (nth_lookup_Some _ _ false _ Eb).
    destruct b; apply hash_internal_spec; done || lia. }
  rewrite Em. cbn [obind]. rewrite hsk_proof_has_spec by (done || lia). cbn [obind].
  fold (node_bits n). destruct (bool_decide (continues key (depth - 1 - pn_prefix_size n) (node_bits n)));
    cbn [negb]; [|done].
  apply IH; [apply length_digest|lia].
Qed.

Lemma climb_app l1 l2 key next depth : climb (l1 ++ l2) key next depth =
  match climb l1 key next depth with inl e => inl e | inr (n, d) => climb l2 key n d end.
Proof.
  revert next depth; induction l1 as [|n l1 IH]; intros next depth; [done|]. cbn [app climb].
  destruct (depth <? _); [done|]. destruct (bool_decide _); [apply IH|done].
Qed.
Lemma climb_msgs_app l1 l2 key next depth n d : climb l1 key next depth = inr (n, d) ->
  climb_msgs (l1 ++ l2) key next depth = climb_msgs l1 key next depth ++ climb_msgs l2 key n d.
Proof.
  revert next depth; induction l1 as [|x l1 IH]; intros next depth; cbn [app climb climb_msgs].
  - by intros [= -> ->].
  - destruct (depth <? _); [done|]. destruct (bool_decide _); [|done]. intros H. by rewrite (IH _ _ H).
Qed.
Lemma climb_length l key next depth n d : length next = 32%nat -> climb l key next depth = inr (n, d) ->
  length n = 32%nat.
Proof.
  revert next depth; induction l as [|x l IH]; intros next depth Hn; cbn [climb].
  - by intros [= -> ->].
  - destruct (depth <? _); [done|]. destruct (bool_decide _); [|done]. apply IH, length_digest.
Qed.

(** One step down: a node of the tree whose hash is that of the node's message is an
    internal node with the same prefix, and the search goes on in the child whose
    hash was climbed from. *)
Lemma descend_tree t n key next depth ms : node_ok n -> length next = 32%nat ->
  pn_prefix_size n + 1 <= depth <= 256 ->
  tree_wf (depth - 1 - pn_prefix_size n) t ->
  continues key (depth - 1 - pn_prefix_size n) (node_bits n) ->
  tree_hash t = digest (node_msg n key next depth) ->
  collision_free ms -> node_msg n key next depth ∈ ms -> tree_msgs t ⊆ ms ->
  exists t', tree_hash t' = next /\ tree_wf depth t' /\ tree_msgs t' ⊆ ms /\
    tree_get t key (depth - 1 - pn_prefix_size n) = tree_get t' key depth.
Proof.
  intros (Hs & Hp & Hnode) Hn Hd Hwf Hc Hh [Hcf Hz] Hin Hsub.
  destruct t as [|k v|p l r]; cbn [tree_hash tree_msgs tree_wf tree_get] in *.
  { by destruct (Hz _ Hin). }
  { apply Hcf in Hh; [|set_solver|done]. exfalso. revert Hh. unfold node_msg.
    destruct (nth _ _ _); intros Hh; symmetry in Hh; by apply internal_not_leaf in Hh. }
  apply Hcf in Hh; [|set_solver|done].
  destruct Hwf as (Hpl & Hwl & Hwr). destruct (pack_spec p) as (Hpk & _ & Hlen).
  assert (Hsz : (pn_prefix_size n + 7) / 8 <= 32) by dlia.
  assert (E : Z.of_nat (length p) = pn_prefix_size n /\ p = node_bits n /\
    (if nth (Z.to_nat (depth - 1)) (bits key) false then tree_hash r else tree_hash l) = next).
  { unfold node_msg in Hh. destruct (nth (Z.to_nat (depth - 1)) (bits key) false);
      apply internal_msg_inj in Hh as (H1 & H2 & H3 & H4);
      rewrite ?length_tree_hash; try done; try lia;
      (split; [done|split; [|done]]); unfold node_bits; rewrite <-H4, Nat2Z.id; done. }
  destruct E as (E1 & E2 & E3). rewrite bool_decide_eq_true_2 by by rewrite E2.
  rewrite E1. replace (depth - 1 - pn_prefix_size n + pn_prefix_size n) with (depth - 1) by lia.
  replace (depth - 1 + 1) with depth by lia. rewrite E1 in Hwl, Hwr.
  replace (depth - 1 - pn_prefix_size n + pn_prefix_size n + 1) with depth in Hwl, Hwr by lia.
  destruct (nth (Z.to_nat (depth - 1)) (bits key) false); [exists r|exists l]; split_and!; try done; set_solver.
Qed.

(** The whole way down. *)
Lemma climb_sound nodes t key leaf D h d : Forall node_ok nodes -> length leaf = 32%nat -> D <= 256 ->
  climb (reverse nodes) key leaf D = inr (h, d) -> 0 <= d -> tree_hash t = h -> tree_wf d t ->
  forall ms, collision_free ms -> climb_msgs (reverse nodes) key leaf D ⊆ ms -> tree_msgs t ⊆ ms ->
  exists t', tree_hash t' = leaf /\ tree_wf D t' /\ tree_msgs t' ⊆ ms /\
    tree_get t key d = tree_get t' key D.
Proof.
  intros Hok. revert t h d. induction Hok as [|n nodes Hn Hok IH]; intros t h d Hl HD Hc Hd Hh Hwf ms Hcf Hms Hsub.
  { cbn in Hc. injection Hc as <- <-. by exists t. }
  rewrite reverse_cons, climb_app in Hc.
  destruct (climb (reverse nodes) key leaf D) as [e|[n' d']] eqn:E; [done|].
  rewrite reverse_cons, (climb_msgs_app _ _ _ _ _ _ _ E) in Hms. cbn [climb climb_msgs] in Hc, Hms.
  destruct (Z.ltb_spec d' (pn_prefix_size n + 1)) as [|Hge]; [done|].
  case_bool_decide as Hcont; [|done]. injection Hc as <- <-.
  assert (Hd' : d' <= 256).
  { clear -E HD Hok. revert leaf D E HD. assert (Hok' : Forall node_ok (reverse nodes)) by by apply Forall_reverse.
    induction Hok' as [|x l (Hx & _) _ IH]; intros leaf D; cbn [climb]; [by intros [= -> ->]|].
    destruct (Z.ltb_spec D (pn_prefix_size x + 1)); [done|]. case_bool_decide; [|done].
    intros E HD. eapply IH; [exact E|lia]. }
  destruct (descend_tree t n key n' d' ms) as (t1 & H1 & H2 & H3 & H4); try done.
  { by eapply climb_length. } { set_solver. }
  destruct (IH t1 n' d') with (ms := ms) as (t' & H5 & H6 & H7 & H8); try done; [destruct Hn; lia|set_solver|].
  exists t'. split_and!; try done. congruence.
Qed.

(** * Proofs *)

(** What [hsk_proof_read] returns, and what [hsk_proof_verify] asserts. *)
Definition proof_ok (p : hsk_proof_t) : Prop :=
  0 <= pf_depth p <= 256 /\ pf_node_count p = Z.of_nat (length (pf_nodes p)) /\
  pf_node_count p <= 256 /\ Forall node_ok (pf_nodes p) /\
  (pf_type p = HSK_PROOF_DEADEND /\ pf_value_size p = 0 \/
   pf_type p = HSK_PROOF_SHORT /\ pf_value_size p = 0 /\ 1 <= pf_prefix_size p <= 256 /\
     (exists q l r, pf_prefix p = Some q /\ pf_left p = Some l /\ pf_right p = Some r /\
        Z.of_nat (length q) = (pf_prefix_size p + 7) / 8 /\ length l = 32%nat /\ length r = 32%nat) \/
   pf_type p = HSK_PROOF_COLLISION /\ pf_value_size p = 0 /\
     (exists k h, pf_nx_key p = Some k /\ pf_nx_hash p = Some h /\ length k = 32%nat /\ length h = 32%nat) \/
   pf_type p = HSK_PROOF_EXISTS /\ pf_value_size p <= HSK_MAX_DATA_SIZE /\
     (exists v, pf_value p = Some v /\ Z.of_nat (length v) = pf_value_size p /\ bytes v)).

(** The leaf of a proof: the code to return, or the messages that are hashed for it
    and its hash. *)
Definition leaf_of (key : list Z) (p : hsk_proof_t) : Z + list (list Z) * list Z :=
  let q := from_option id [] (pf_prefix p) in
  let l := from_option id [] (pf_left p) in
  let r := from_option id [] (pf_right p) in
  let nx := from_option id [] (pf_nx_key p) in
  let nh := from_option id [] (pf_nx_hash p) in
  let v := from_option id [] (pf_value p) in
  if pf_type p =? HSK_PROOF_DEADEND then inr ([], null_hash)
  else if pf_type p =? HSK_PROOF_SHORT then
    if bool_decide (continues key (pf_depth p) (take (Z.to_nat (pf_prefix_size p)) (bits q)))
    then inl HSK_ESAMEPATH
    else let m := internal_msg q (pf_prefix_size p) l r in inr ([m], digest m)
  else if pf_type p =? HSK_PROOF_COLLISION then
    if bool_decide (nx = key) then inl HSK_ESAMEKEY
    else let m := leaf_msg nx nh in inr ([m], digest m)
  else let m := leaf_msg key (digest v) in inr ([v; m], digest m).

Lemma proof_leaf_spec key p : proof_ok p -> length key = 32%nat ->
  proof_leaf key p = Ret (match leaf_of key p with inl e => inl e | inr (_, h) => inr h end).
Proof.
  intros (Hd & _ & _ & _ & Hp) Hk. unfold proof_leaf, leaf_of.
  destruct Hp as [(-> & _)|[(-> & _ & Hs & q & l & r & -> & -> & -> & Hq & Hl & Hr)|
    [(-> & _ & k & h & -> & -> & Hkl & Hh)|(-> & Hv & v & -> & Hvl & _)]]]; cbn [Z.eqb HSK_PROOF_DEADEND
    HSK_PROOF_SHORT HSK_PROOF_COLLISION HSK_PROOF_EXISTS Pos.eqb from_option id of_option obind].
  - done.
  - rewrite (proj2 (Z.eqb_neq (pf_prefix_size p) 0)) by lia. cbn [oassert obind negb].
    rewrite hsk_proof_has_spec by (done || lia || dlia). cbn [obind].
    destruct (bool_decide _); [done|]. by rewrite hash_internal_spec by (done || lia).
  - rewrite !mem_read_all by lia. cbn [obind].
    destruct (memeq k key) eqn:E.
    + apply memeq_spec in E as ->; [|lia]. by rewrite bool_decide_eq_true_2.
    + rewrite bool_decide_eq_false_2; [by rewrite hash_leaf_spec|].
      intros ->. by rewrite memeq_refl in E.
  - unfold hsk_proof_hash_value. rewrite mem_read_all by done. cbn [obind].
    rewrite blake2b_assert_digest. cbn [obind concat]. rewrite app_nil_r.
    by rewrite hash_leaf_spec by (done || apply length_digest).
Qed.

Lemma length_leaf_of key p ms h : leaf_of key p = inr (ms, h) -> length h = 32%nat.
Proof.
  unfold leaf_of. repeat case_match; intros E; try done; injection E as _ <-; done || apply length_digest.
Qed.

(** All messages that a verification hashes. *)
Definition proof_msgs (key : list Z) (p : hsk_proof_t) : list (list Z) :=
  match leaf_of key p with
  | inl _ => []
  | inr (ms, h) => ms ++ climb_msgs (reverse (pf_nodes p)) key h (pf_depth p)
  end.

(** What [hsk_proof_verify] computes on such a proof. *)
Definition verify_spec (malloc_ok : bool) (root key : list Z) (p : hsk_proof_t) :
    outcome (Z * option (bool * list Z)) :=
  match leaf_of key p with
  | inl code => Ret (code, None)
  | inr (_, leaf) =>
      match climb (reverse (pf_nodes p)) key leaf (pf_depth p) with
      | inl code => Ret (code, None)
      | inr (h, d) =>
          if negb (d =? 0) then Ret (HSK_ETOODEEP, None)
          else if negb (bool_decide (h = root)) then Ret (HSK_EHASHMISMATCH, None)
          else if pf_type p =? HSK_PROOF_EXISTS then
            match hsk_parse_namestate malloc_ok (from_option id [] (pf_value p)) with
            | Ret data => Ret (HSK_EPROOFOK, Some (true, data))
            | Fail => Ret (HSK_EENCODING, None)
            | Fault f => Fault f
            end
          else Ret (HSK_EPROOFOK, Some (false, []))
      end
  end.
Lemma hsk_proof_verify_spec ok root key p : proof_ok p -> length key = 32%nat -> length root = 32%nat ->
  hsk_proof_verify ok (Some root) (Some key) (Some p) = verify_spec ok root key p.
Proof.
  intros Hp Hk Hr. assert (Hp' := Hp). destruct Hp as (Hd & Hc & Hn & Hnodes & Hty).
  unfold hsk_proof_verify, verify_spec.
  assert (Hvs : pf_value_size p <= HSK_MAX_DATA_SIZE) by (unfold HSK_MAX_DATA_SIZE in *; intuition lia).
  rewrite !(proj2 (Z.leb_le _ _)) by (done || lia). cbn [oassert obind].
  rewrite proof_leaf_spec by done. cbn [obind].
  destruct (leaf_of key p) as [code|[ms leaf]] eqn:El; [done|].
  rewrite take_ge by lia.
  rewrite traverse_spec; [|done|by eapply length_leaf_of|by apply Forall_reverse|done]. cbn [obind].
  destruct (climb _ key leaf _) as [code|[h d]] eqn:Ec; [done|].
  destruct (negb (d =? 0)); [done|]. rewrite mem_read_all by lia. cbn [obind].
  assert (Hh : length h = 32%nat) by (eapply climb_length; [|exact Ec]; by eapply length_leaf_of).
  assert (Em : memeq h root = bool_decide (h = root)).
  { destruct (memeq h root) eqn:E; symmetry.
    - apply bool_decide_eq_true. apply memeq_spec in E; [done|lia].
    - apply bool_decide_eq_false. intros ->. by rewrite memeq_refl in E. }
  rewrite Em. destruct (negb _); [done|].
  destruct (pf_type p =? HSK_PROOF_EXISTS) eqn:Et; [|done]. apply Z.eqb_eq in Et.
  destruct Hty as [(E & _)|[(E & _)|[(E & _)|(_ & _ & v & Hv & Hvl & _)]]]; try (rewrite Et in E; done).
  rewrite Hv. cbn [from_option id]. by rewrite take_ge by lia.
Qed.
