(* ===== verification/ProofProps.v ===== *)
(** The properties of name proofs: the reader and the verifier never fail an
    assertion, accepted proofs tell the truth about the tree, and every tree has a
    proof for every key. *)

From S2P Require Import Prelude Bio Blake2b Sha3 Hash Proof ProofSpec.

(** * The end of a path *)

Lemma leaf_sound t key p ms h all : proof_ok p -> length key = 32%nat ->
  leaf_of key p = inr (ms, h) -> tree_hash t = h -> tree_wf (pf_depth p) t ->
  collision_free all -> ms ⊆ all -> tree_msgs t ⊆ all ->
  match tree_get t key (pf_depth p) with
  | Some v => pf_type p = HSK_PROOF_EXISTS /\ pf_value p = Some v
  | None => pf_type p <> HSK_PROOF_EXISTS
  end.
Proof.
  intros (Hd & _ & _ & _ & Hty) Hk. unfold leaf_of.
  destruct Hty as [(Et & _)|[(Et & _ & Hs & q & l & r & -> & -> & -> & Hq & Hl & Hr)|
    [(Et & _ & k & nh & -> & -> & Hkl & Hh)|(Et & Hv & v & -> & Hvl & _)]]]; rewrite Et;
    cbn [Z.eqb HSK_PROOF_DEADEND HSK_PROOF_SHORT HSK_PROOF_COLLISION HSK_PROOF_EXISTS Pos.eqb from_option id].
  - intros [= <- <-] Hh Hwf [_ Hz] _ Hsub. destruct t as [|k v|pb l r]; cbn [tree_get tree_msgs tree_hash] in *.
    + done.
    + destruct (Hz (leaf_msg k (digest v))); [set_solver|done].
    + edestruct Hz; [|exact Hh]. set_solver.
  - case_bool_decide as Hc; [done|]. intros [= <- <-] Hh Hwf [Hcf Hz] Hms Hsub.
    set (m := internal_msg _ _ _ _) in *. assert (Hm : m ∈ all) by set_solver.
    destruct t as [|k v|pb tl tr]; cbn [tree_get tree_msgs tree_hash tree_wf] in *.
    + by destruct (Hz m).
    + apply Hcf in Hh; [|set_solver|done]. symmetry in Hh. by apply internal_not_leaf in Hh.
    + apply Hcf in Hh; [|set_solver|done]. destruct (pack_spec pb) as (Hpk & _ & Hlen).
      apply internal_msg_inj in Hh as (H1 & _ & _ & H4); rewrite ?length_tree_hash; try done; try lia.
      rewrite Nat2Z.id in H4. rewrite Hpk in H4. rewrite <-H4 in Hc. by rewrite bool_decide_eq_false_2.
  - case_bool_decide as Hc; [done|]. intros [= <- <-] Hhh Hwf [Hcf Hz] Hms Hsub.
    set (m := leaf_msg _ _) in *. assert (Hm : m ∈ all) by set_solver.
    destruct t as [|k' v|pb tl tr]; cbn [tree_get tree_msgs tree_hash tree_wf] in *.
    + by destruct (Hz m).
    + apply Hcf in Hhh; [|set_solver|done].
      apply leaf_msg_inj in Hhh as [-> _]; [|apply Hwf|done]. by rewrite bool_decide_eq_false_2.
    + apply Hcf in Hhh; [|set_solver|done]. by apply internal_not_leaf in Hhh.
  - intros [= <- <-] Hhh Hwf [Hcf Hz] Hms Hsub.
    set (m := leaf_msg _ _) in *. assert (Hm : m ∈ all) by set_solver.
    destruct t as [|k' v'|pb tl tr]; cbn [tree_get tree_msgs tree_hash tree_wf] in *.
    + by destruct (Hz m).
    + apply Hcf in Hhh; [|set_solver|done].
      apply leaf_msg_inj in Hhh as [-> Hdd]; [|apply Hwf|done].
      apply Hcf in Hdd; [|set_solver|set_solver]. subst v'. by rewrite bool_decide_eq_true_2.
    + apply Hcf in Hhh; [|set_solver|done]. by apply internal_not_leaf in Hhh.
Qed.

Lemma verify_sound ok key p t code res : proof_ok p -> length key = 32%nat -> tree_wf 0 t ->
  collision_free (tree_msgs t ++ proof_msgs key p) ->
  hsk_proof_verify ok (Some (tree_hash t)) (Some key) (Some p) = Ret (code, Some res) ->
  code = HSK_EPROOFOK /\
  match tree_get t key 0 with
  | Some v => pf_value p = Some v /\ exists data, res = (true, data) /\ hsk_parse_namestate ok v = Ret data
  | None => res = (false, [])
  end.
Proof.
  intros Hp Hk Hwf Hcf. rewrite hsk_proof_verify_spec by (done || apply length_tree_hash).
  unfold verify_spec, proof_msgs in *. destruct (leaf_of key p) as [e|[ms leaf]] eqn:El; [done|].
  destruct (climb _ key leaf _) as [e|[h d]] eqn:Ec; [done|].
  destruct (Z.eqb_spec d 0) as [->|]; [|done]. cbn [negb].
  case_bool_decide as Hh; [|done]. cbn [negb]. intros Hres.
  assert (Hpok := Hp). destruct Hp as (Hd & _ & _ & Hnodes & _).
  destruct (climb_sound (pf_nodes p) t key leaf (pf_depth p) h 0 Hnodes) with
    (ms := tree_msgs t ++ ms ++ climb_msgs (reverse (pf_nodes p)) key leaf (pf_depth p))
    as (t' & H1 & H2 & H3 & H4); try done; try set_solver.
  { by eapply length_leaf_of. }
  assert (HL := leaf_sound t' key p ms leaf _ Hpok Hk El H1 H2 Hcf ltac:(set_solver) H3).
  rewrite H4. destruct (tree_get t' key (pf_depth p)) as [v|].
  - destruct HL as [Ht Hv]. rewrite Ht, Hv in Hres. cbn [Z.eqb HSK_PROOF_EXISTS Pos.eqb from_option id] in Hres.
    destruct (hsk_parse_namestate ok v) as [data| |f] eqn:En; try done. injection Hres as <- <-.
    split; [done|]. split; [done|]. by exists data.
  - rewrite (proj2 (Z.eqb_neq _ _) HL) in Hres. by injection Hres as <- <-.
Qed.

(** * The prover *)

(** The path to a key from depth [d]: the nodes, the depth at its end, and the tree
    there. *)
Fixpoint tree_path (t : utree) (key : list Z) (d : Z) : list hsk_proof_node_t * Z * utree :=
  match t with
  | UInternal p l r =>
      let d' := d + Z.of_nat (length p) + 1 in
      if bool_decide (continues key d p)
      then
        let node h := mk_proof_node (fill 32 (pack p)) (Z.of_nat (length p)) h in
        if nth (Z.to_nat (d' - 1)) (bits key) false
        then let '(ns, D, t') := tree_path r key d' in (node (tree_hash l) :: ns, D, t')
        else let '(ns, D, t') := tree_path l key d' in (node (tree_hash r) :: ns, D, t')
      else ([], d, t)
  | _ => ([], d, t)
  end.
Definition prove (t : utree) (key : list Z) : hsk_proof_t :=
  let '(ns, D, t') := tree_path t key 0 in
  let n := Z.of_nat (length ns) in
  match t' with
  | UNull => mk_proof HSK_PROOF_DEADEND D ns n None 0 None None None None None 0
  | UInternal p l r =>
      mk_proof HSK_PROOF_SHORT D ns n (Some (pack p)) (Z.of_nat (length p)) (Some (tree_hash l))
        (Some (tree_hash r)) None None None 0
  | ULeaf k v =>
      if bool_decide (k = key)
      then mk_proof HSK_PROOF_EXISTS D ns n None 0 None None None None (Some v) (Z.of_nat (length v))
      else mk_proof HSK_PROOF_COLLISION D ns n None 0 None None (Some k) (Some (digest v)) None 0
  end.

Lemma take_fill n p : (length (pack p) <= n)%nat ->
  take (length (pack p)) (fill n (pack p)) = pack p.
Proof. intros Hn. unfold fill. by rewrite take_app_length. Qed.
Lemma length_fill n m : (length m <= n)%nat -> length (fill n m) = n.
Proof. intros Hn. unfold fill. rewrite length_app, length_replicate. lia. Qed.

Section Path.
Variable key : list Z.
Hypothesis (Hkey : length key = 32%nat).

Lemma pack_len p : Z.of_nat (length p) <= 256 -> (length (pack p) <= 32)%nat.
Proof. intros Hp. destruct (pack_spec p) as (_ & _ & H). dlia. Qed.

Lemma path_node p h : Z.of_nat (length p) <= 256 -> length h = 32%nat ->
  let n := mk_proof_node (fill 32 (pack p)) (Z.of_nat (length p)) h in
  node_ok n /\ node_bits n = p /\
  forall l r, internal_msg (pn_prefix n) (pn_prefix_size n) l r =
              internal_msg (pack p) (Z.of_nat (length p)) l r.
Proof.
  intros Hp Hh n. assert (Hl := pack_len p Hp). destruct (pack_spec p) as (Hb & _ & Hlen).
  split_and!.
  - split; [cbn; lia|]. split; [by apply length_fill|done].
  - unfold node_bits, n. cbn [pn_prefix_size pn_prefix]. rewrite Nat2Z.id. unfold fill. rewrite bits_app.
    rewrite take_app_le; [done|]. rewrite length_bits. dlia.
  - intros l r. unfold internal_msg, n. cbn [pn_prefix_size pn_prefix].
    rewrite <-Hlen, Nat2Z.id, take_fill, take_ge by (done || lia). done.
Qed.

Lemma tree_path_spec t d : tree_wf d t -> 0 <= d -> let '(ns, D, t') := tree_path t key d in
  Forall node_ok ns /\ d + Z.of_nat (length ns) <= Z.max d D /\ d <= D /\ D <= Z.max d 256 /\ tree_wf D t' /\
  climb (reverse ns) key (tree_hash t') D = inr (tree_hash t, d) /\
  tree_get t key d = tree_get t' key D /\
  match t' with UInternal p _ _ => ~ continues key D p | _ => True end.
Proof using Hkey.
  revert d; induction t as [|k v|p l IHl r IHr]; intros d Hwf Hd; cbn [tree_path];
    [split_and!; done || (cbn [length]; lia)..|].
  cbn [tree_wf] in Hwf. destruct Hwf as (Hd256 & Hwl & Hwr).
  case_bool_decide as Hc; [|split_and!; try done; cbn [length]; lia].
  set (d' := d + Z.of_nat (length p) + 1) in *.
  assert (Hp : Z.of_nat (length p) <= 256) by lia.
  assert (Hstep : forall c sib bit, bit = nth (Z.to_nat (d' - 1)) (bits key) false ->
    c = (if bit : bool then r else l) -> sib = (if bit then l else r) ->
    (let '(ns, D, t') := tree_path c key d' in
     Forall node_ok ns /\ d' + Z.of_nat (length ns) <= Z.max d' D /\ d' <= D /\ D <= Z.max d' 256 /\ tree_wf D t' /\
     climb (reverse ns) key (tree_hash t') D = inr (tree_hash c, d') /\
     tree_get c key d' = tree_get t' key D /\
     match t' with UInternal p _ _ => ~ continues key D p | _ => True end) ->
    let '(ns, D, t') := (let '(ns, D, t') := tree_path c key d' in
      (mk_proof_node (fill 32 (pack p)) (Z.of_nat (length p)) (tree_hash sib) :: ns, D, t')) in
    Forall node_ok ns /\ d + Z.of_nat (length ns) <= Z.max d D /\ d <= D /\ D <= Z.max d 256 /\ tree_wf D t' /\
    climb (reverse ns) key (tree_hash t') D = inr (tree_hash (UInternal p l r), d) /\
    tree_get (UInternal p l r) key d = tree_get t' key D /\
    match t' with UInternal p _ _ => ~ continues key D p | _ => True end).
  { intros c sib bit Hbit Hcb Hsib. destruct (tree_path c key d') as [[ns D] t'].
    intros (Hns & Hlen & HD & HD2 & Hwf' & Hcl & Hget & Hend).
    destruct (path_node p (tree_hash sib) Hp (length_tree_hash _)) as (Hno & Hnb & Hmsg).
    set (n := mk_proof_node _ _ (tree_hash sib)) in *. split_and!; try done.
    - by constructor.
    - cbn [length]. lia.
    - lia.
    - lia.
    - rewrite reverse_cons, climb_app, Hcl. cbn [climb].
      change (pn_prefix_size n) with (Z.of_nat (length p)). rewrite (proj2 (Z.ltb_ge _ _)) by lia.
      replace (d' - 1 - Z.of_nat (length p)) with d by lia. rewrite Hnb, bool_decide_eq_true_2 by done.
      do 2 f_equal. cbn [tree_hash]. f_equal. unfold node_msg. rewrite <-Hbit.
      rewrite !Hmsg. change (pn_node n) with (tree_hash sib). subst c sib. by destruct bit.
    - cbn [tree_get]. rewrite bool_decide_eq_true_2 by done.
      replace (d + Z.of_nat (length p)) with (d' - 1) by lia. rewrite <-Hbit.
      replace (d' - 1 + 1) with d' by lia. rewrite <-Hget. subst c. by destruct bit. }
  destruct (nth (Z.to_nat (d' - 1)) (bits key) false) eqn:Eb.
  - apply (Hstep r l true); try done. apply IHr; [done|lia].
  - apply (Hstep l r false); try done. apply IHl; [done|lia].
Qed.
End Path.

Lemma prove_spec t key : tree_wf 0 t -> length key = 32%nat ->
  (forall v, tree_get t key 0 = Some v -> Z.of_nat (length v) <= HSK_MAX_DATA_SIZE) ->
  proof_ok (prove t key) /\ exists ms h D, leaf_of key (prove t key) = inr (ms, h) /\
    climb (reverse (pf_nodes (prove t key))) key h D = inr (tree_hash t, 0) /\ pf_depth (prove t key) = D /\
    match tree_get t key 0 with
    | Some v => pf_type (prove t key) = HSK_PROOF_EXISTS /\ pf_value (prove t key) = Some v
    | None => pf_type (prove t key) <> HSK_PROOF_EXISTS
    end.
Proof.
  intros Hwf Hk Hv. unfold prove. assert (H := tree_path_spec key Hk t 0 Hwf ltac:(lia)).
  destruct (tree_path t key 0) as [[ns D] t'].
  destruct H as (Hns & Hlen & HD & HD2 & Hwf' & Hcl & Hget & Hend). rewrite Hget in *.
  assert (Hbase : 0 <= D <= 256 /\ Z.of_nat (length ns) <= 256) by lia.
  destruct t' as [|k v|p l r]; cbn [tree_get tree_wf tree_hash] in *.
  - split; [|by exists [], null_hash, D]. unfold proof_ok; cbn [pf_depth pf_node_count pf_nodes]; do 4 (split; [done || lia|]). by left.
  - case_bool_decide as Hkey.
    + subst k. split; [|by eexists _, _, D].
      unfold proof_ok; cbn [pf_depth pf_node_count pf_nodes]; do 4 (split; [done || lia|]). do 3 right. split; [done|]. split; [by apply Hv|]. exists v. by split_and!; [| |apply Hwf'].
    + split.
      * unfold proof_ok; cbn [pf_depth pf_node_count pf_nodes]; do 4 (split; [done || lia|]). do 2 right. left. split; [done|]. split; [done|]. exists k, (digest v).
        split_and!; [done|done|apply Hwf'|apply length_digest].
      * unfold leaf_of. cbn [pf_type pf_nx_key pf_nx_hash Z.eqb HSK_PROOF_COLLISION HSK_PROOF_DEADEND
          HSK_PROOF_SHORT Pos.eqb from_option id]. rewrite bool_decide_eq_false_2 by done.
        by eexists _, _, D.
  - rewrite bool_decide_eq_false_2 by done. destruct (pack_spec p) as (Hb & _ & Hpl).
    assert (Hp1 : 1 <= Z.of_nat (length p)).
    { destruct p; [|cbn; lia]. by destruct Hend. }
    split.
    + unfold proof_ok; cbn [pf_depth pf_node_count pf_nodes]; do 4 (split; [done || lia|]). right. left. split; [done|]. split; [done|].
      cbn [pf_prefix_size pf_prefix pf_left pf_right]. split; [lia|].
      exists (pack p), (tree_hash l), (tree_hash r). split_and!; try done; apply length_tree_hash.
    + unfold leaf_of. cbn [pf_type pf_prefix pf_prefix_size pf_left pf_right pf_depth Z.eqb HSK_PROOF_COLLISION
        HSK_PROOF_DEADEND HSK_PROOF_SHORT Pos.eqb from_option id].
      rewrite Nat2Z.id, Hb, bool_decide_eq_false_2 by done. by eexists _, _, D.
Qed.

(** * The reader *)

Lemma safe_bitlen : safe read_bitlen (fun sb => 1 <= fst sb <= 256 /\ snd sb = (fst sb + 7) / 8).
Proof.
  eapply safe_bind; [apply safe_u8|]. intros b Hb. cbv beta in Hb.
  eapply (safe_bind _ _ (fun size => 0 <= size)).
  - destruct (negb _); [|apply safe_ret; lia].
    eapply safe_bind; [apply safe_u8|]. intros b' Hb'. cbv beta in Hb'. apply safe_ret.
    apply Z.lor_nonneg. split; [apply u16_range|apply Hb'].
  - intros size Hs. eapply safe_bind; [apply safe_guard|]. intros [] Hg. apply safe_ret. cbn [fst snd].
    split; [|done]. apply negb_true_iff, orb_false_iff in Hg as [H1 H2].
    apply Z.eqb_neq in H1. apply Z.ltb_ge in H2. lia.
Qed.

Lemma safe_read_node map i : 0 <= i < 8 * Z.of_nat (length map) -> safe (read_node map i) node_ok.
Proof.
  intros Hi. unfold read_node.
  eapply (safe_bind _ _ (fun _ => True)).
  { intros d Hd. rewrite has_bit_spec by lia.
    destruct (lookup_lt_is_Some_2 (bits map) (Z.to_nat i)) as [b Eb]; [rewrite length_bits; lia|].
    by rewrite Eb. }
  intros has _. eapply (safe_bind _ _ (fun p => length (fst p) = 32%nat /\ 0 <= snd p <= 256)).
  - destruct has; [|apply safe_ret; split; [done|cbn; lia]].
    eapply safe_bind; [apply safe_bitlen|]. intros [s n] [Hs Hn]. cbn [fst snd] in *. subst n.
    eapply safe_bind; [apply safe_bytes; dlia|]. intros q [_ Hq]. apply safe_ret. cbn [fst snd].
    split; [apply length_fill; dlia|lia].
  - intros [q s] [Hq Hs]. cbn [fst snd] in *. eapply safe_bind; [by apply safe_bytes|].
    intros node [_ Hn]. apply safe_ret. split; [done|]. split; [done|]. cbn. lia.
Qed.
Lemma safe_read_nodes n map i : 0 <= i -> i + Z.of_nat n <= 8 * Z.of_nat (length map) ->
  safe (read_nodes n map i) (fun ns => length ns = n /\ Forall node_ok ns).
Proof.
  revert i; induction n as [|n IH]; intros i Hi Hn; [by apply safe_ret|]. cbn [read_nodes].
  eapply safe_bind; [apply safe_read_node; lia|]. intros x Hx.
  eapply safe_bind; [apply IH; lia|]. intros ns [Hl Hns]. apply safe_ret. cbn. split; [lia|by constructor].
Qed.

Lemma safe_read_rest al type depth count nodes : 0 <= type <= 3 -> 0 <= depth <= 256 ->
  count = Z.of_nat (length nodes) -> count <= 256 -> Forall node_ok nodes ->
  safe (read_rest al type depth count nodes) proof_ok.
Proof.
  intros Ht Hd Hc Hc2 Hn. unfold read_rest, proof_ok.
  destruct (Z.eqb_spec type HSK_PROOF_DEADEND).
  { apply safe_ret. cbn [pf_depth pf_node_count pf_nodes]. do 4 (split; [done || lia|]). by left. }
  destruct (Z.eqb_spec type HSK_PROOF_SHORT).
  { eapply safe_bind; [apply safe_bitlen|]. intros [s nb] [Hs Hnb]. cbn [fst snd] in *. subst nb.
    eapply safe_bind; [apply safe_alloc; dlia|]. intros q [_ Hq].
    eapply safe_bind; [by apply safe_alloc|]. intros l [_ Hl].
    eapply safe_bind; [by apply safe_alloc|]. intros r [_ Hr].
    apply safe_ret. cbn [pf_depth pf_node_count pf_nodes]. do 4 (split; [done || lia|]). right. left. do 3 (split; [done || (cbn; lia)|]).
    exists q, l, r. split_and!; try done; lia. }
  destruct (Z.eqb_spec type HSK_PROOF_COLLISION).
  { eapply safe_bind; [by apply safe_alloc|]. intros k [_ Hk].
    eapply safe_bind; [by apply safe_alloc|]. intros h [_ Hh].
    apply safe_ret. cbn [pf_depth pf_node_count pf_nodes]. do 4 (split; [done || lia|]). do 2 right. left. split; [done|]. split; [done|].
    exists k, h. split_and!; try done; lia. }
  destruct (Z.eqb_spec type HSK_PROOF_EXISTS).
  { eapply safe_bind; [apply safe_u16|]. intros vs Hvs. cbv beta in Hvs.
    eapply safe_bind; [apply safe_guard|]. intros [] Hg%negb_true_iff%Z.ltb_ge.
    eapply safe_bind; [apply safe_alloc; lia|]. intros v [Hvb Hv].
    apply safe_ret. cbn [pf_depth pf_node_count pf_nodes]. do 4 (split; [done || lia|]). do 3 right. split; [done|]. split; [done|]. by exists v. }
  unfold HSK_PROOF_DEADEND, HSK_PROOF_SHORT, HSK_PROOF_COLLISION, HSK_PROOF_EXISTS in *. lia.
Qed.

Lemma safe_proof_read al : safe (hsk_proof_read al) proof_ok.
Proof.
  unfold hsk_proof_read. eapply safe_bind; [apply safe_u16|]. intros field Hf. cbv beta in Hf.
  assert (Ht : 0 <= Z.shiftr field 14 <= 3) by (rewrite Z.shiftr_div_pow2 by lia; dlia).
  assert (Hd : 0 <= Z.land field (65535 - 3 * 2 ^ 14)) by (apply Z.land_nonneg; lia).
  cbv zeta. set (type := Z.shiftr field 14) in *. set (depth := Z.land _ _) in *.
  eapply safe_bind; [apply safe_guard|]. intros [] Hg1%negb_true_iff%Z.ltb_ge.
  eapply safe_bind; [apply safe_u16|]. intros count Hc. cbv beta in Hc.
  eapply safe_bind; [apply safe_guard|]. intros [] Hg2%negb_true_iff%Z.ltb_ge.
  eapply safe_bind; [apply safe_slice; dlia|]. intros map [_ Hm].
  eapply safe_bind; [apply safe_guard|]. intros [] _.
  eapply safe_bind; [apply safe_read_nodes; [lia|dlia]|]. intros nodes [Hl Hn].
  apply safe_read_rest; try done; lia.
Qed.

Lemma safe_namestate ok data : bytes data ->
  match hsk_parse_namestate ok data with Fault _ => False | _ => True end.
Proof.
  intros Hb. unfold hsk_parse_namestate. destruct (_ <? _); [done|].
  assert (H : safe (name_size <- read_u8 ;; slice_bytes name_size ;;;
    res_size <- read_u16 ;; alloc_bytes ok res_size) (fun _ => True)).
  { eapply safe_bind; [apply safe_u8|]. intros n Hn. cbv beta in Hn. eapply safe_bind; [apply safe_slice; lia|].
    intros _ _. eapply safe_bind; [apply safe_u16|]. intros r Hr. cbv beta in Hr.
    eapply safe_weaken; [apply safe_alloc; lia|done]. }
  specialize (H data Hb). destruct (rbind _ _ data) as [[res rest]| |f]; done.
Qed.

(** The errors are not success. *)
Lemma leaf_of_error key p e : leaf_of key p = inl e -> e <> HSK_EPROOFOK.
Proof. unfold leaf_of. repeat case_match; intros [= <-]; discriminate. Qed.
Lemma climb_error items key : forall next depth e, climb items key next depth = inl e -> e <> HSK_EPROOFOK.
Proof.
  induction items as [|n items IH]; intros next depth e; cbn [climb]; [done|]. cbv zeta. destruct (_ <? _); [by intros [= <-]|].
  case_bool_decide; [apply IH|by intros [= <-]].
Qed.
(** The verifier returns a code, with a result where it accepts. *)
Lemma verify_ends ok root key p : proof_ok p -> length root = 32%nat -> length key = 32%nat ->
  exists code res, hsk_proof_verify ok (Some root) (Some key) (Some p) = Ret (code, res) /\ (code = HSK_EPROOFOK -> is_Some res).
Proof.
  intros Hp Hr Hk. rewrite hsk_proof_verify_spec by done. unfold verify_spec.
  destruct (leaf_of key p) as [e|[ms leaf]] eqn:El; [exists e, None; split; [done|]; intros ->; by apply leaf_of_error in El|].
  destruct (climb _ key leaf _) as [e|[h d]] eqn:Ec; [exists e, None; split; [done|]; intros ->; by apply climb_error in Ec|].
  destruct (negb (d =? 0)); [by eexists _, _|]. destruct (negb _); [by eexists _, _|].
  destruct (pf_type p =? HSK_PROOF_EXISTS) eqn:Et; [|by eexists _, _]. apply Z.eqb_eq in Et.
  destruct Hp as (_ & _ & _ & _ & [(E & _)|[(E & _)|[(E & _)|(_ & _ & v & Hv & _ & Hvb)]]]);
    try (rewrite Et in E; done).
  rewrite Hv. cbn [from_option id]. assert (Hn := safe_namestate ok v Hvb).
  destruct (hsk_parse_namestate ok v) as [d'| |f]; [by eexists _, _|by eexists _, _|done].
Qed.

(** * The wire form *)

Definition bitlen_wire (size : Z) : list Z :=
  if size <? 128 then [size] else [128 + size / 256; size mod 256].
Definition node_wire (n : hsk_proof_node_t) : list Z :=
  (if pn_prefix_size n =? 0 then []
   else bitlen_wire (pn_prefix_size n) ++ take (Z.to_nat ((pn_prefix_size n + 7) / 8)) (pn_prefix n)) ++
  pn_node n.
Definition has_prefix (n : hsk_proof_node_t) : bool := negb (pn_prefix_size n =? 0).
Definition rest_wire (p : hsk_proof_t) : list Z :=
  let some := from_option id [] in
  if pf_type p =? HSK_PROOF_DEADEND then []
  else if pf_type p =? HSK_PROOF_SHORT then
    bitlen_wire (pf_prefix_size p) ++ some (pf_prefix p) ++ some (pf_left p) ++ some (pf_right p)
  else if pf_type p =? HSK_PROOF_COLLISION then some (pf_nx_key p) ++ some (pf_nx_hash p)
  else le_split 2 (pf_value_size p) ++ some (pf_value p).
Definition proof_wire (p : hsk_proof_t) : list Z :=
  le_split 2 (pf_type p * 2 ^ 14 + pf_depth p) ++ le_split 2 (pf_node_count p) ++
  pack (map has_prefix (pf_nodes p)) ++ concat (map node_wire (pf_nodes p)) ++ rest_wire p.

(** Nothing in the places that the reader leaves empty. *)
Definition node_tidy (n : hsk_proof_node_t) : Prop :=
  pn_prefix n = fill 32 (take (Z.to_nat ((pn_prefix_size n + 7) / 8)) (pn_prefix n)).
Definition tidy (p : hsk_proof_t) : Prop :=
  Forall node_tidy (pf_nodes p) /\
  (pf_type p = HSK_PROOF_SHORT \/ pf_prefix p = None /\ pf_prefix_size p = 0 /\ pf_left p = None /\ pf_right p = None) /\
  (pf_type p = HSK_PROOF_COLLISION \/ pf_nx_key p = None /\ pf_nx_hash p = None) /\
  (pf_type p = HSK_PROOF_EXISTS \/ pf_value p = None).

Lemma parses_guard_bind {A} b (k : rd A) bs a : b = true -> parses k bs a -> parses (rguard b ;;; k) bs a.
Proof. intros Hb Hk rest. subst b. apply Hk. Qed.

Lemma parses_bitlen size : 1 <= size <= 256 -> parses read_bitlen (bitlen_wire size) (size, (size + 7) / 8).
Proof.
  intros Hs. unfold read_bitlen, bitlen_wire.
  assert (Hg : negb ((size =? 0) || (256 <? size)) = true).
  { rewrite (proj2 (Z.eqb_neq _ _)), (proj2 (Z.ltb_ge _ _)) by lia. done. }
  destruct (Z.ltb_spec size 128) as [Hlt|Hge].
  - eapply parses_bind_nil; [apply parses_u8; lia|].
    assert (E : negb (Z.land size 128 =? 0) = false).
    { assert (Hb : Z.land size 128 = 0); [|by rewrite Hb].
      apply Z.bits_inj'. intros i Hi. rewrite Z.land_spec, Z.bits_0. change 128 with (2 ^ 7).
      rewrite Z.pow2_bits_eqb by lia. destruct (Z.eqb_spec 7 i) as [<-|]; [|apply andb_false_r].
      assert (Ht : Z.testbit size 7 = false); [|by rewrite Ht].
      apply Z.testbit_false; [lia|]. by rewrite Z.div_small by (change (2 ^ 7) with 128; lia). }
    rewrite E. eapply parses_bind_nil; [apply parses_ret|].
    apply parses_guard_bind; [done|]. apply parses_ret.
  - change [128 + size / 256; size mod 256] with ([128 + size / 256] ++ [size mod 256]).
    eapply parses_bind; [apply parses_u8; dlia|].
    assert (E : size / 256 = 0 \/ size / 256 = 1 /\ size = 256) by dlia.
    eapply parses_bind_nil.
    + assert (E2 : negb (Z.land (128 + size / 256) 128 =? 0) = true) by (destruct E as [->|[-> _]]; done).
      rewrite E2. eapply parses_bind_nil; [apply parses_u8; dlia|]. apply parses_ret.
    + assert (E3 : Z.lor (u16 (Z.land (128 + size / 256) 0x7f ≪ 8)) (size mod 256) = size).
      { destruct E as [Hz|[Hz ->]]; [|done]. rewrite Hz. change (Z.land (128 + 0) 127) with 0.
        rewrite Z.mod_small by dlia. done. }
      rewrite E3. apply parses_guard_bind; [done|]. apply parses_ret.
Qed.

Lemma parses_read_node map i n : 0 <= i -> bits map !! Z.to_nat i = Some (has_prefix n) ->
  node_ok n -> node_tidy n -> parses (read_node map i) (node_wire n) n.
Proof.
  intros Hi Hb (Hs & Hp & Hn) Ht. unfold read_node.
  rewrite <-(app_nil_l (node_wire n)). eapply (parses_bind _ _ [] _ (has_prefix n)).
  { intros rest. by rewrite has_bit_spec, Hb by done. }
  unfold node_wire, has_prefix, node_tidy in *.
  eapply (parses_bind _ _ _ _ (pn_prefix n, pn_prefix_size n)).
  - destruct (Z.eqb_spec (pn_prefix_size n) 0) as [H0|H0]; cbn [negb].
    + rewrite H0 in Ht |- *. change (Z.to_nat ((0 + 7) / 8)) with 0%nat in Ht. rewrite take_0 in Ht.
      rewrite Ht. apply parses_ret.
    + eapply parses_bind; [apply parses_bitlen; lia|]. cbn [fst snd].
      eapply parses_bind_nil; [apply parses_bytes; rewrite length_take; dlia|].
      rewrite <-Ht. apply parses_ret.
  - eapply parses_bind_nil; [apply parses_bytes; lia|]. cbn [fst snd]. destruct n. apply parses_ret.
Qed.
Lemma parses_read_nodes map i ns : 0 <= i ->
  (forall k n, ns !! k = Some n -> bits map !! (Z.to_nat i + k)%nat = Some (has_prefix n)) ->
  Forall node_ok ns -> Forall node_tidy ns ->
  parses (read_nodes (length ns) map i) (concat (List.map node_wire ns)) ns.
Proof.
  intros Hi Hb Hok. revert i Hi Hb. induction Hok as [|n ns Hn Hok IH]; intros i Hi Hb Ht; [apply parses_ret|].
  inversion Ht; subst. cbn [length read_nodes List.map concat]. eapply parses_bind.
  - apply parses_read_node; try done. specialize (Hb 0%nat n eq_refl). by rewrite Nat.add_0_r in Hb.
  - eapply parses_bind_nil; [apply IH; [lia| |done]|apply parses_ret].
    intros k x Hk. specialize (Hb (S k) x Hk).
    by replace (Z.to_nat (i + 1) + k)%nat with (Z.to_nat i + S k)%nat by lia.
Qed.

Lemma parses_alloc n bs : Z.of_nat (length bs) = n -> parses (alloc_bytes true n) bs bs.
Proof.
  intros Hn rest. unfold alloc_bytes. cbn [negb]. rewrite (proj2 (Z.ltb_ge _ _)); [by apply parses_bytes|].
  rewrite length_app. lia.
Qed.

Definition always : nat -> bool := fun _ => true.
Lemma parses_read_rest p : proof_ok p -> tidy p ->
  parses (read_rest always (pf_type p) (pf_depth p) (pf_node_count p) (pf_nodes p)) (rest_wire p) p.
Proof.
  intros (_ & _ & _ & _ & Hty) (_ & T1 & T2 & T3). unfold read_rest, rest_wire.
  destruct p as [type depth nodes count prefix ps l r nk nh v vs].
  cbn [pf_type pf_depth pf_nodes pf_node_count pf_prefix pf_prefix_size pf_left pf_right pf_nx_key
       pf_nx_hash pf_value pf_value_size] in *.
  destruct Hty as [(-> & ->)|[(-> & -> & Hs & q & l' & r' & -> & -> & -> & Hq & Hl & Hr)|
    [(-> & -> & k & h & -> & -> & Hk & Hh)|(-> & Hv & v' & -> & Hvl & _)]]];
    cbn [Z.eqb HSK_PROOF_DEADEND HSK_PROOF_SHORT HSK_PROOF_COLLISION HSK_PROOF_EXISTS Pos.eqb from_option id].
  - destruct T1 as [|(-> & -> & -> & ->)]; [done|]. destruct T2 as [|(-> & ->)]; [done|].
    destruct T3 as [| ->]; [done|]. apply parses_ret.
  - destruct T2 as [|(-> & ->)]; [done|]. destruct T3 as [| ->]; [done|].
    eapply parses_bind; [by apply parses_bitlen|]. cbn [fst snd].
    eapply parses_bind; [by apply parses_alloc|]. eapply parses_bind; [apply parses_alloc; lia|].
    eapply parses_bind_nil; [apply parses_alloc; lia|]. apply parses_ret.
  - destruct T1 as [|(-> & -> & -> & ->)]; [done|]. destruct T3 as [| ->]; [done|].
    eapply parses_bind; [apply parses_alloc; lia|].
    eapply parses_bind_nil; [apply parses_alloc; lia|]. apply parses_ret.
  - destruct T1 as [|(-> & -> & -> & ->)]; [done|]. destruct T2 as [|(-> & ->)]; [done|].
    unfold HSK_MAX_DATA_SIZE in *. eapply parses_bind; [apply parses_u16; lia|].
    apply parses_guard_bind; [rewrite (proj2 (Z.ltb_ge _ _)); done || lia|].
    eapply parses_bind_nil; [by apply parses_alloc|]. apply parses_ret.
Qed.
Lemma parses_slice n bs : Z.of_nat (length bs) = n -> parses (slice_bytes n) bs bs.
Proof. apply parses_bytes. Qed.

Lemma parses_proof p : proof_ok p -> tidy p -> parses (hsk_proof_read always) (proof_wire p) p.
Proof.
  intros Hok Ht. assert (Hok' := Hok). destruct Hok as (Hd & Hc & Hc2 & Hn & Hty).
  assert (Htype : 0 <= pf_type p <= 3).
  { destruct Hty as [(-> & _)|[(-> & _)|[(-> & _)|(-> & _)]]]; done. }
  unfold hsk_proof_read, proof_wire. eapply parses_bind; [apply parses_u16; lia|].
  assert (E1 : Z.shiftr (pf_type p * 2 ^ 14 + pf_depth p) 14 = pf_type p)
    by (rewrite Z.shiftr_div_pow2 by lia; dlia).
  assert (E2 : Z.land (pf_type p * 2 ^ 14 + pf_depth p) (65535 - 3 * 2 ^ 14) = pf_depth p).
  { change (65535 - 3 * 2 ^ 14) with (2 ^ 14 - 1). rewrite land_ones_mod by lia. dlia. }
  cbv zeta. rewrite E1, E2.
  apply parses_guard_bind; [rewrite (proj2 (Z.ltb_ge _ _)); done || lia|].
  eapply parses_bind; [apply parses_u16; lia|].
  apply parses_guard_bind; [rewrite (proj2 (Z.ltb_ge _ _)); done || lia|].
  destruct (pack_spec (List.map has_prefix (pf_nodes p))) as (Hb & _ & Hl). rewrite length_map in Hb, Hl.
  eapply parses_bind; [apply parses_slice; by rewrite Hl, Hc|].
  apply parses_guard_bind; [by rewrite andb_false_r|].
  eapply parses_bind; [|by apply parses_read_rest].
  rewrite Hc, Nat2Z.id. apply parses_read_nodes; [done| |done|apply Ht].
  intros k n Hk. change (Z.to_nat 0 + k)%nat with k.
  assert (Hlt : (k < length (pf_nodes p))%nat) by (by eapply lookup_lt_Some).
  rewrite <-(lookup_take_lt _ (length (pf_nodes p))) by done. rewrite Hb.
  change (List.map has_prefix (pf_nodes p)) with (has_prefix <$> pf_nodes p).
  by rewrite list_lookup_fmap, Hk.
Qed.

(** * Properties *)

Definition sample_key : list Z := 0x80 :: replicate 31 0.
Definition sample_value : list Z := [1; 97; 2; 0; 5; 6].
Definition sample_tree : utree :=
  UInternal [] (ULeaf (replicate 32 0) [0; 0; 0]) (ULeaf sample_key sample_value).
Lemma sample_tree_wf : tree_wf 0 sample_tree /\ tree_wf 0 (ULeaf sample_key sample_value).
Proof. repeat split; try (apply (bool_decide_eq_true _); vm_compute; reflexivity); done. Qed.

(** C2: soundness of name proofs. When [hsk_proof_verify] accepts a proof against the
    root hash of a tree, it has told the truth about the key: the bytes handed out are
    the record of the value that the tree holds for the key, or the tree holds none and
    the proof is one of absence - unless two of the messages hashed in the tree and in
    the verification collide, or one of them has the null hash. *)
Theorem proof_sound ok key p t code exists_ data :
  proof_ok p -> length key = 32%nat -> tree_wf 0 t ->
  collision_free (tree_msgs t ++ proof_msgs key p) ->
  hsk_proof_verify ok (Some (tree_hash t)) (Some key) (Some p) = Ret (code, Some (exists_, data)) ->
  code = HSK_EPROOFOK /\
  match tree_get t key 0 with
  | Some v => exists_ = true /\ pf_value p = Some v /\ hsk_parse_namestate ok v = Ret data
  | None => exists_ = false /\ data = []
  end.
Proof.
  intros Hp Hk Hwf Hcf Hv. destruct (verify_sound _ _ _ _ _ _ Hp Hk Hwf Hcf Hv) as [-> H].
  split; [done|]. destruct (tree_get t key 0) as [v|].
  - destruct H as (Hpv & data' & [= -> ->] & Hpn). by split_and!.
  - by injection H as -> ->.
Qed.
Lemma collision_free_pair a b : digest a <> digest b -> digest a <> null_hash -> digest b <> null_hash ->
  collision_free [a; b; a; b].
Proof.
  intros Hab Ha Hb. assert (H : forall x, x ∈ [a; b; a; b] -> x = a \/ x = b) by set_solver.
  split; [|by intros x [->| ->]%H].
  intros x y [->| ->]%H [->| ->]%H Hxy; congruence.
Qed.
Lemma proof_sound_witness :
  let t := ULeaf sample_key sample_value in
  let p := prove t sample_key in
  hsk_proof_verify true (Some (tree_hash t)) (Some sample_key) (Some p) =
    Ret (HSK_EPROOFOK, Some (true, [5; 6])) /\
  HSK_EPROOFOK = HSK_EPROOFOK /\ pf_value p = Some sample_value.
Proof.
  intros t p.
  assert (E : hsk_proof_verify true (Some (tree_hash t)) (Some sample_key) (Some p) =
    Ret (HSK_EPROOFOK, Some (true, [5; 6]))) by (vm_compute; reflexivity).
  split; [exact E|].
  assert (Hp : proof_ok p).
  { refine (proj1 (prove_spec t sample_key (proj2 sample_tree_wf) eq_refl _)).
    intros v Ev. assert (Ev' : tree_get t sample_key 0 = Some sample_value) by (vm_compute; reflexivity).
    rewrite Ev' in Ev. injection Ev as <-. vm_compute. discriminate. }
  destruct (proof_sound true sample_key p t HSK_EPROOFOK true [5; 6] Hp eq_refl (proj2 sample_tree_wf)) as [H1 H2].
  - assert (Hd : bool_decide (digest sample_value <> digest (leaf_msg sample_key (digest sample_value)) /\
      digest sample_value <> null_hash /\
      digest (leaf_msg sample_key (digest sample_value)) <> null_hash) = true) by (vm_compute; reflexivity).
    apply bool_decide_eq_true in Hd as (Hd1 & Hd2 & Hd3). exact (collision_free_pair _ _ Hd1 Hd2 Hd3).
  - exact E.
  - split; [exact H1|]. exact (proj1 (proj2 H2)).
Defined.

(** C10: completeness: every tree has a proof for every key, of presence or of absence,
    and [hsk_proof_verify] accepts it against the hash of the tree. A present value
    is then parsed: what is handed out is its record, or the code is that of a bad
    encoding. *)
Theorem proof_complete ok t key : tree_wf 0 t -> length key = 32%nat ->
  (forall v, tree_get t key 0 = Some v -> Z.of_nat (length v) <= HSK_MAX_DATA_SIZE) ->
  hsk_proof_verify ok (Some (tree_hash t)) (Some key) (Some (prove t key)) =
  match tree_get t key 0 with
  | Some v =>
      match hsk_parse_namestate ok v with
      | Ret data => Ret (HSK_EPROOFOK, Some (true, data))
      | Fail => Ret (HSK_EENCODING, None)
      | Fault f => Fault f
      end
  | None => Ret (HSK_EPROOFOK, Some (false, []))
  end.
Proof.
  intros Hwf Hk Hv. destruct (prove_spec t key Hwf Hk Hv) as (Hok & ms & h & D & El & Ec & HD & Hg).
  rewrite hsk_proof_verify_spec by (done || apply length_tree_hash).
  unfold verify_spec. rewrite El, HD, Ec. cbn [Z.eqb negb]. rewrite bool_decide_eq_true_2 by done. cbn [negb].
  destruct (tree_get t key 0) as [v|].
  - destruct Hg as [-> ->]. reflexivity.
  - by rewrite (proj2 (Z.eqb_neq _ _) Hg).
Qed.
Lemma proof_complete_witness :
  hsk_proof_verify true (Some (tree_hash sample_tree)) (Some sample_key) (Some (prove sample_tree sample_key)) =
  Ret (HSK_EPROOFOK, Some (true, [5; 6])).
Proof.
  refine (proof_complete true sample_tree sample_key (proj1 sample_tree_wf) eq_refl _).
  intros v E. assert (E' : tree_get sample_tree sample_key 0 = Some sample_value) by (vm_compute; reflexivity).
  rewrite E' in E. injection E as <-. vm_compute. discriminate.
Defined.

(** C11: no input from a peer stops the program. On any bytes the reader of proofs stays
    within the buffer and fails no assertion, and on whatever it returns the verifier
    returns a code for any root and key: its assertions, the array bounds of the bit
    tests and the parser of the value hold. *)
Theorem proof_never_faults al ok data root key : bytes data -> length root = 32%nat -> length key = 32%nat ->
  match hsk_proof_read al data with
  | Ret (p, rest) => proof_ok p /\ bytes rest /\ exists code res,
      hsk_proof_verify ok (Some root) (Some key) (Some p) = Ret (code, res)
  | Fail => True
  | Fault _ => False
  end.
Proof.
  intros Hb Hr Hk. assert (Hs := safe_proof_read al data Hb).
  destruct (hsk_proof_read al data) as [[p rest]| |f]; try done. destruct Hs as [Hp Hrest].
  split; [done|]. split; [done|]. destruct (verify_ends ok root key p Hp Hr Hk) as (code & res & -> & _). by eexists _, _.
Qed.
Lemma proof_never_faults_witness :
  match hsk_proof_read always [0; 192; 0; 0; 0; 0] with
  | Ret (p, rest) => pf_type p = HSK_PROOF_EXISTS /\ exists code res,
      hsk_proof_verify true (Some null_hash) (Some sample_key) (Some p) = Ret (code, res)
  | _ => False
  end.
Proof.
  assert (H := proof_never_faults always true [0; 192; 0; 0; 0; 0] null_hash sample_key).
  assert (E : hsk_proof_read always [0; 192; 0; 0; 0; 0] =
    Ret (mk_proof HSK_PROOF_EXISTS 0 [] 0 None 0 None None None None (Some []) 0, [])) by (vm_compute; reflexivity).
  rewrite E in H |- *. split; [reflexivity|].
  refine (proj2 (proj2 (H _ eq_refl eq_refl))). apply (bool_decide_eq_true _). vm_compute. reflexivity.
Defined.

(** C26: the wire form: [hsk_proof_read] takes exactly the bytes that encode a proof -
    header fields, the bitmap of prefixes, the nodes with their bit lengths in one or
    two bytes, and the part for the type - and returns the proof. *)
Theorem proof_roundtrip p rest : proof_ok p -> tidy p ->
  hsk_proof_read always (proof_wire p ++ rest) = Ret (p, rest).
Proof. intros Hp Ht. by apply parses_proof. Qed.
Lemma proof_roundtrip_witness :
  hsk_proof_read always (proof_wire (mk_proof HSK_PROOF_COLLISION 5 [mk_proof_node (fill 32 [160]) 3 null_hash]
      1 None 0 None None (Some sample_key) (Some null_hash) None 0) ++ [9]) =
  Ret (mk_proof HSK_PROOF_COLLISION 5 [mk_proof_node (fill 32 [160]) 3 null_hash]
      1 None 0 None None (Some sample_key) (Some null_hash) None 0, [9]).
Proof.
  apply proof_roundtrip.
  - split_and!; try done; [by repeat constructor|].
    do 2 right. left. split; [done|]. split; [done|]. by exists sample_key, null_hash.
  - split; [constructor; [vm_compute; reflexivity|constructor]|].
    split; [right; by split_and!|]. split; [by left|by right].
Defined.
