(* ===== verification/Msg.v ===== *)
(** The messages of the peer protocol: [msg.c], [msg.h].

    A message is a tagged union; the arrays of addresses and hashes with their
    counts, and the linked list of headers, are lists. Reading a message starts from
    the one that [hsk_msg_alloc] made for the command. *)

From Stdlib Require Import String.
From S2P Require Import Prelude Bio Blake2b Sha3 Hash Bn Header Base32 Addr Proof ProofSpec ProofProps.

Definition HSK_MSG_VERSION : Z := 0.
Definition HSK_MSG_VERACK : Z := 1.
Definition HSK_MSG_PING : Z := 2.
Definition HSK_MSG_PONG : Z := 3.
Definition HSK_MSG_GETADDR : Z := 4.
Definition HSK_MSG_ADDR : Z := 5.
Definition HSK_MSG_GETHEADERS : Z := 10.
Definition HSK_MSG_HEADERS : Z := 11.
Definition HSK_MSG_SENDHEADERS : Z := 12.
Definition HSK_MSG_GETPROOF : Z := 26.
Definition HSK_MSG_PROOF : Z := 27.
Definition HSK_MSG_UNKNOWN : Z := 255.

Record hsk_version_msg_t := mk_version_msg {
  vm_version : Z;
  vm_services : Z;
  vm_time : Z;
  vm_remote : hsk_netaddr_t;
  vm_nonce : Z;
  vm_agent : list Z;
  vm_height : Z;
  vm_no_relay : bool;
}.
Record hsk_getheaders_msg_t := mk_getheaders_msg {
  gm_hashes : list (list Z);
  gm_stop : list Z;
}.
Record hsk_getproof_msg_t := mk_getproof_msg {
  gp_root : list Z;
  gp_key : list Z;
}.
Record hsk_proof_msg_t := mk_proof_msg {
  pm_root : list Z;
  pm_key : list Z;
  pm_proof : hsk_proof_t;
}.
Inductive hsk_msg_t :=
  | MVersion (m : hsk_version_msg_t)
  | MVerack
  | MPing (nonce : Z)
  | MPong (nonce : Z)
  | MGetaddr
  | MAddr (addrs : list hsk_netaddr_t)
  | MGetheaders (m : hsk_getheaders_msg_t)
  | MHeaders (headers : list hsk_header_t)
  | MSendheaders
  | MGetproof (m : hsk_getproof_msg_t)
  | MProof (m : hsk_proof_msg_t).

Definition msg_cmd (m : hsk_msg_t) : Z :=
  match m with
  | MVersion _ => HSK_MSG_VERSION
  | MVerack => HSK_MSG_VERACK
  | MPing _ => HSK_MSG_PING
  | MPong _ => HSK_MSG_PONG
  | MGetaddr => HSK_MSG_GETADDR
  | MAddr _ => HSK_MSG_ADDR
  | MGetheaders _ => HSK_MSG_GETHEADERS
  | MHeaders _ => HSK_MSG_HEADERS
  | MSendheaders => HSK_MSG_SENDHEADERS
  | MGetproof _ => HSK_MSG_GETPROOF
  | MProof _ => HSK_MSG_PROOF
  end.

(** * Names of the commands *)

Definition hsk_msg_cmd (cmd : string) : Z :=
  if String.eqb cmd "version" then HSK_MSG_VERSION
  else if String.eqb cmd "verack" then HSK_MSG_VERACK
  else if String.eqb cmd "ping" then HSK_MSG_PING
  else if String.eqb cmd "pong" then HSK_MSG_PONG
  else if String.eqb cmd "getaddr" then HSK_MSG_GETADDR
  else if String.eqb cmd "addr" then HSK_MSG_ADDR
  else if String.eqb cmd "getheaders" then HSK_MSG_GETHEADERS
  else if String.eqb cmd "headers" then HSK_MSG_HEADERS
  else if String.eqb cmd "sendheaders" then HSK_MSG_SENDHEADERS
  else if String.eqb cmd "getproof" then HSK_MSG_GETPROOF
  else if String.eqb cmd "proof" then HSK_MSG_PROOF
  else HSK_MSG_UNKNOWN.
Definition hsk_msg_str (cmd : Z) : string :=
  if cmd =? HSK_MSG_VERSION then "version"
  else if cmd =? HSK_MSG_VERACK then "verack"
  else if cmd =? HSK_MSG_PING then "ping"
  else if cmd =? HSK_MSG_PONG then "pong"
  else if cmd =? HSK_MSG_GETADDR then "getaddr"
  else if cmd =? HSK_MSG_ADDR then "addr"
  else if cmd =? HSK_MSG_GETHEADERS then "getheaders"
  else if cmd =? HSK_MSG_HEADERS then "headers"
  else if cmd =? HSK_MSG_SENDHEADERS then "sendheaders"
  else if cmd =? HSK_MSG_GETPROOF then "getproof"
  else if cmd =? HSK_MSG_PROOF then "proof"
  else "unknown".

(** [hsk_msg_alloc] with [hsk_msg_init]; [None] is the null pointer, for an unknown
    command or no memory. *)
Definition hsk_msg_alloc (malloc_ok : bool) (cmd : Z) : option hsk_msg_t :=
  if negb malloc_ok then None
  else if cmd =? HSK_MSG_VERSION then
    Some (MVersion (mk_version_msg 0 0 0 hsk_netaddr_init 0 [] 0 true))
  else if cmd =? HSK_MSG_VERACK then Some MVerack
  else if cmd =? HSK_MSG_PING then Some (MPing 0)
  else if cmd =? HSK_MSG_PONG then Some (MPong 0)
  else if cmd =? HSK_MSG_GETADDR then Some MGetaddr
  else if cmd =? HSK_MSG_ADDR then Some (MAddr [])
  else if cmd =? HSK_MSG_GETHEADERS then Some (MGetheaders (mk_getheaders_msg [] (replicate 32 0)))
  else if cmd =? HSK_MSG_HEADERS then Some (MHeaders [])
  else if cmd =? HSK_MSG_SENDHEADERS then Some MSendheaders
  else if cmd =? HSK_MSG_GETPROOF then
    Some (MGetproof (mk_getproof_msg (replicate 32 0) (replicate 32 0)))
  else if cmd =? HSK_MSG_PROOF then
    Some (MProof (mk_proof_msg (replicate 32 0) (replicate 32 0) hsk_proof_init))
  else None.

(** * Reading *)

Definition hsk_version_msg_read : rd hsk_version_msg_t :=
  version <- read_u32 ;;
  services <- read_u64 ;;
  time <- read_u64 ;;
  remote <- hsk_netaddr_read ;;
  nonce <- read_u64 ;;
  size <- read_u8 ;;
  agent <- read_ascii size ;;
  height <- read_u32 ;;
  no_relay <- read_u8 ;;
  rret (mk_version_msg version services time remote nonce agent height (no_relay =? 1)).

Definition hsk_addr_msg_read : rd (list hsk_netaddr_t) :=
  addr_count <- read_varsize ;;
  rguard (negb (1000 <? addr_count)) ;;;
  rrepeat (Z.to_nat addr_count) hsk_netaddr_read.

Definition hsk_getheaders_msg_read : rd hsk_getheaders_msg_t :=
  hash_count <- read_varsize ;;
  rguard (negb (64 <? hash_count)) ;;;
  hashes <- rrepeat (Z.to_nat hash_count) (read_bytes 32) ;;
  stop <- read_bytes 32 ;;
  rret (mk_getheaders_msg hashes stop).

(** [al i] says whether the allocation of the [i]-th header succeeds. *)
Fixpoint headers_loop (n : nat) (al : nat -> bool) (i : nat) : rd (list hsk_header_t) :=
  match n with
  | O => rret []
  | S n' =>
      rguard (al i) ;;;
      h <- hsk_header_read hsk_header_init ;;
      headers <- headers_loop n' al (S i) ;;
      rret (h :: headers)
  end.
Definition hsk_headers_msg_read (al : nat -> bool) : rd (list hsk_header_t) :=
  header_count <- read_varsize ;;
  rguard (negb (2000 <? header_count)) ;;;
  headers_loop (Z.to_nat header_count) al 0.

Definition hsk_getproof_msg_read : rd hsk_getproof_msg_t :=
  root <- read_bytes 32 ;;
  key <- read_bytes 32 ;;
  rret (mk_getproof_msg root key).
Definition hsk_proof_msg_read (al : nat -> bool) : rd hsk_proof_msg_t :=
  root <- read_bytes 32 ;;
  key <- read_bytes 32 ;;
  proof <- hsk_proof_read al ;;
  rret (mk_proof_msg root key proof).

(** The message [msg] only says which command to read. *)
Definition hsk_msg_read (al : nat -> bool) (msg : hsk_msg_t) : rd hsk_msg_t :=
  match msg with
  | MVersion _ => m <- hsk_version_msg_read ;; rret (MVersion m)
  | MVerack => rret MVerack
  | MPing _ => nonce <- read_u64 ;; rret (MPing nonce)
  | MPong _ => nonce <- read_u64 ;; rret (MPong nonce)
  | MGetaddr => rret MGetaddr
  | MAddr _ => addrs <- hsk_addr_msg_read ;; rret (MAddr addrs)
  | MGetheaders _ => m <- hsk_getheaders_msg_read ;; rret (MGetheaders m)
  | MHeaders _ => headers <- hsk_headers_msg_read al ;; rret (MHeaders headers)
  | MSendheaders => rret MSendheaders
  | MGetproof _ => m <- hsk_getproof_msg_read ;; rret (MGetproof m)
  | MProof _ => m <- hsk_proof_msg_read al ;; rret (MProof m)
  end.
Definition hsk_msg_decode (al : nat -> bool) (data : list Z) (msg : hsk_msg_t) : outcome hsk_msg_t :=
  match hsk_msg_read al msg data with
  | Ret (m, _) => Ret m
  | Fail => Fail
  | Fault f => Fault f
  end.

(** * Writing *)

Definition hsk_version_msg_write (m : hsk_version_msg_t) : wr :=
  write_u32 (vm_version m) +++
  write_u64 (vm_services m) +++
  write_u64 (vm_time m) +++
  hsk_netaddr_write (vm_remote m) +++
  write_u64 (vm_nonce m) +++
  write_u8 (u8 (Z.of_nat (List.length (vm_agent m)))) +++
  write_bytes (vm_agent m) +++
  write_u32 (vm_height m) +++
  write_u8 (if vm_no_relay m then 1 else 0).

Definition hsk_addr_msg_write (addrs : list hsk_netaddr_t) : wr :=
  write_varsize (Z.of_nat (List.length addrs)) +++ wconcat (List.map hsk_netaddr_write addrs).
Definition hsk_getheaders_msg_write (m : hsk_getheaders_msg_t) : wr :=
  write_varsize (Z.of_nat (List.length (gm_hashes m))) +++
  wconcat (List.map write_bytes (gm_hashes m)) +++ write_bytes (gm_stop m).
Definition hsk_headers_msg_write (headers : list hsk_header_t) : wr :=
  write_varsize (Z.of_nat (List.length headers)) +++ wconcat (List.map hsk_header_write headers).
Definition hsk_getproof_msg_write (m : hsk_getproof_msg_t) : wr :=
  write_bytes (gp_root m) +++ write_bytes (gp_key m).
(** The proof itself is not written. *)
Definition hsk_proof_msg_write (m : hsk_proof_msg_t) : wr :=
  write_bytes (pm_root m) +++ write_bytes (pm_key m).

Definition hsk_msg_write (msg : hsk_msg_t) : wr :=
  match msg with
  | MVersion m => hsk_version_msg_write m
  | MVerack => wret
  | MPing nonce => write_u64 nonce
  | MPong nonce => write_u64 nonce
  | MGetaddr => wret
  | MAddr addrs => hsk_addr_msg_write addrs
  | MGetheaders m => hsk_getheaders_msg_write m
  | MHeaders headers => hsk_headers_msg_write headers
  | MSendheaders => wret
  | MGetproof m => hsk_getproof_msg_write m
  | MProof m => hsk_proof_msg_write m
  end.
Definition hsk_msg_encode (msg : hsk_msg_t) : list Z := from_option id [] (snd (hsk_msg_write msg (Some []))).
Definition hsk_msg_size (msg : hsk_msg_t) : Z := fst (hsk_msg_write msg None).

(** * The wire form *)

Definition version_wire (m : hsk_version_msg_t) : list Z :=
  le_split 4 (vm_version m) ++ le_split 8 (vm_services m) ++ le_split 8 (vm_time m) ++
  netaddr_wire (vm_remote m) ++ le_split 8 (vm_nonce m) ++ [Z.of_nat (List.length (vm_agent m))] ++
  vm_agent m ++ le_split 4 (vm_height m) ++ [if vm_no_relay m then 1 else 0].
Definition list_wire {A} `{Codec A} (l : list A) : list Z :=
  varint_wire (Z.of_nat (List.length l)) ++ concat (List.map codec_wire l).

(** Digests are written as they are. *)
Definition hash_read : rd (list Z) := read_bytes 32.
#[export, refine] Instance hash_codec : Codec (list Z) := {
  codec_read := hash_read;
  codec_write := write_bytes;
  codec_wf h := List.length h = 32%nat;
  codec_wire h := h;
}.
Proof.
  - intros h Hh. apply parses_bytes. lia.
  - intros h _. apply emits_bytes.
  - intros h _. by apply sizes_bytes.
Defined.

Definition msg_wire (m : hsk_msg_t) : list Z :=
  match m with
  | MVersion m => version_wire m
  | MVerack | MGetaddr | MSendheaders => []
  | MPing nonce | MPong nonce => le_split 8 nonce
  | MAddr addrs => list_wire addrs
  | MGetheaders m => list_wire (gm_hashes m) ++ gm_stop m
  | MHeaders headers => list_wire headers
  | MGetproof m => gp_root m ++ gp_key m
  | MProof m => pm_root m ++ pm_key m ++ proof_wire (pm_proof m)
  end.

Definition list_wf {A} `{Codec A} (n : Z) (l : list A) : Prop :=
  Z.of_nat (List.length l) <= n /\ Forall codec_wf l.
Definition msg_wf (m : hsk_msg_t) : Prop :=
  match m with
  | MVersion m =>
      0 <= vm_version m < 2 ^ 32 /\ 0 <= vm_services m < 2 ^ 64 /\ 0 <= vm_time m < 2 ^ 64 /\
      codec_wf (vm_remote m) /\ 0 <= vm_nonce m < 2 ^ 64 /\ (List.length (vm_agent m) <= 255)%nat /\
      forallb ascii_ok (vm_agent m) = true /\ 0 <= vm_height m < 2 ^ 32
  | MVerack | MGetaddr | MSendheaders => True
  | MPing nonce | MPong nonce => 0 <= nonce < 2 ^ 64
  | MAddr addrs => list_wf 1000 addrs
  | MGetheaders m => list_wf 64 (gm_hashes m) /\ List.length (gm_stop m) = 32%nat
  | MHeaders headers => list_wf 2000 headers
  | MGetproof m => List.length (gp_root m) = 32%nat /\ List.length (gp_key m) = 32%nat
  | MProof m =>
      List.length (pm_root m) = 32%nat /\ List.length (pm_key m) = 32%nat /\
      proof_ok (pm_proof m) /\ tidy (pm_proof m)
  end.

(** ** Lists of values with a codec *)

Section CodecList.
Context {A : Type} `{Codec A}.

Lemma parses_codec_list (l : list A) : Forall codec_wf l ->
  parses (rrepeat (List.length l) codec_read) (concat (List.map codec_wire l)) l.
Proof. intros Hl. apply parses_repeat. eapply Forall_impl; [exact Hl|]. intros. by apply codec_parses. Qed.
Lemma emits_codec_list (l : list A) : Forall codec_wf l ->
  emits (wconcat (List.map codec_write l)) (concat (List.map codec_wire l)).
Proof. intros Hl. apply emits_concat. eapply Forall_impl; [exact Hl|]. intros. by apply codec_emits. Qed.
Lemma sizes_codec_list (l : list A) : Forall codec_wf l ->
  sizes (wconcat (List.map codec_write l)) (Z.of_nat (List.length (concat (List.map codec_wire l)))).
Proof.
  induction 1 as [|a l Ha _ IH]; [apply sizes_ret|]. cbn [List.map wconcat concat].
  rewrite length_app, Nat2Z.inj_add. apply sizes_seq; [by apply codec_sizes|exact IH].
Qed.
Lemma emits_list n (l : list A) : n <= 2000 -> list_wf n l ->
  emits (write_varsize (Z.of_nat (List.length l)) +++ wconcat (List.map codec_write l)) (list_wire l).
Proof.
  intros Hn [Hl Hc]. apply emits_seq; [apply emits_varint; lia|by apply emits_codec_list].
Qed.
(** The count, its bound and the elements are read back. *)
Lemma parses_list_ret n (l : list A) : n <= 2000 -> list_wf n l ->
  parses (count <- read_varsize ;; rguard (negb (n <? count)) ;;; rrepeat (Z.to_nat count) codec_read)
    (list_wire l) l.
Proof.
  intros Hn [Hl Hc]. eapply parses_bind; [apply parses_varsize; lia|].
  apply parses_guard_bind; [by apply negb_true_iff, Z.ltb_ge|]. rewrite Nat2Z.id. by apply parses_codec_list.
Qed.
End CodecList.

(** ** Each message *)

Lemma headers_loop_always n i : headers_loop n always i = rrepeat n (hsk_header_read hsk_header_init).
Proof. revert i; induction n as [|n IH]; intros i; [done|]. cbn [headers_loop rrepeat]. by rewrite IH. Qed.
Lemma parses_version m : msg_wf (MVersion m) -> parses hsk_version_msg_read (version_wire m) m.
Proof.
  destruct m as [version services time remote nonce agent height no_relay].
  intros (Hv & Hs & Ht & Hr & Hn & Hl & Ha & Hh).
  cbn [vm_version vm_services vm_time vm_remote vm_nonce vm_agent vm_height] in *.
  unfold hsk_version_msg_read, version_wire.
  cbn [vm_version vm_services vm_time vm_remote vm_nonce vm_agent vm_height vm_no_relay].
  eapply parses_bind; [by apply parses_u32|]. do 2 (eapply parses_bind; [by apply parses_u64|]).
  eapply parses_bind; [exact (codec_parses remote Hr)|]. eapply parses_bind; [by apply parses_u64|].
  eapply parses_bind; [apply parses_u8; lia|].
  eapply parses_bind; [by apply parses_ascii|]. eapply parses_bind; [by apply parses_u32|].
  eapply parses_bind_nil; [apply parses_u8; destruct no_relay; lia|]. destruct no_relay; apply parses_ret.
Qed.
Lemma parses_getheaders m : msg_wf (MGetheaders m) ->
  parses hsk_getheaders_msg_read (list_wire (gm_hashes m) ++ gm_stop m) m.
Proof.
  destruct m as [hashes stop]. intros [[Hn Hh] Hs]. cbn [gm_hashes gm_stop] in *.
  unfold list_wire. rewrite <-(assoc_L (++)).
  eapply parses_bind; [apply parses_varsize; lia|].
  apply parses_guard_bind; [by apply negb_true_iff, Z.ltb_ge|]. rewrite Nat2Z.id.
  eapply parses_bind; [exact (parses_codec_list hashes Hh)|].
  eapply parses_bind_nil; [by apply parses_bytes; lia|]. apply parses_ret.
Qed.
Lemma parses_headers l : list_wf 2000 l -> parses (hsk_headers_msg_read always) (list_wire l) l.
Proof.
  intros [Hl Hc]. eapply parses_bind; [apply parses_varsize; lia|].
  apply parses_guard_bind; [by apply negb_true_iff, Z.ltb_ge|].
  rewrite Nat2Z.id, headers_loop_always. exact (parses_codec_list l Hc).
Qed.
Lemma parses_pair (root key : list Z) : List.length root = 32%nat -> List.length key = 32%nat ->
  parses hsk_getproof_msg_read (root ++ key) (mk_getproof_msg root key).
Proof.
  intros Hr Hk. eapply parses_bind; [apply parses_bytes; lia|].
  eapply parses_bind_nil; [apply parses_bytes; lia|]. apply parses_ret.
Qed.
Lemma parses_proof_msg m : msg_wf (MProof m) ->
  parses (hsk_proof_msg_read always) (pm_root m ++ pm_key m ++ proof_wire (pm_proof m)) m.
Proof.
  destruct m as [root key p]. intros (Hr & Hk & Hp & Ht). cbn [pm_root pm_key pm_proof] in *.
  do 2 (eapply parses_bind; [apply parses_bytes; lia|]).
  eapply parses_bind_nil; [by apply parses_proof|]. apply parses_ret.
Qed.
Lemma parses_msg al0 m rest : msg_wf m -> msg_cmd al0 = msg_cmd m ->
  hsk_msg_read always al0 (msg_wire m ++ rest) = Ret (m, rest).
Proof.
  intros Hm Hc. revert rest. change (parses (hsk_msg_read always al0) (msg_wire m) m).
  destruct m, al0; try discriminate Hc; clear Hc; cbn [hsk_msg_read msg_wire]; cbn [msg_wf] in Hm;
    try apply parses_ret; (eapply parses_bind_nil; [|apply parses_ret]).
  - by apply parses_version.
  - by apply parses_u64.
  - by apply parses_u64.
  - exact (parses_list_ret 1000 addrs ltac:(lia) Hm).
  - by apply parses_getheaders.
  - by apply parses_headers.
  - destruct m as [root key], Hm as [Hr Hk]. exact (parses_pair root key Hr Hk).
  - by apply parses_proof_msg.
Qed.

(** The writer of a proof message leaves out the proof. *)
Definition msg_emitted (m : hsk_msg_t) : list Z :=
  match m with
  | MProof m => pm_root m ++ pm_key m
  | _ => msg_wire m
  end.
Lemma emits_version m : msg_wf (MVersion m) -> emits (hsk_version_msg_write m) (version_wire m).
Proof.
  intros (Hv & Hs & Ht & Hr & Hn & Hl & Ha & Hh). unfold hsk_version_msg_write, version_wire.
  do 3 (apply emits_seq; [auto with hsk|]). apply emits_seq; [exact (codec_emits _ Hr)|].
  apply emits_seq; [auto with hsk|]. rewrite u8_small by lia.
  apply emits_seq; [apply emits_u8; lia|]. do 2 (apply emits_seq; [auto with hsk|]).
  destruct (vm_no_relay m); by apply emits_u8.
Qed.
Lemma emits_msg m : msg_wf m -> emits (hsk_msg_write m) (msg_emitted m).
Proof.
  intros Hm. destruct m; cbn [hsk_msg_write msg_emitted msg_wire]; auto with hsk.
  - by apply emits_version.
  - exact (emits_list 1000 addrs ltac:(lia) Hm).
  - destruct m as [hashes stop], Hm as [Hh Hs]. cbn [gm_hashes gm_stop] in *.
    unfold hsk_getheaders_msg_write, list_wire. cbn [gm_hashes gm_stop]. rewrite <-(assoc_L (++)).
    destruct Hh as [Hn Hh]. apply emits_seq; [apply emits_varint; lia|].
    apply emits_seq; [exact (emits_codec_list hashes Hh)|apply emits_bytes].
  - exact (emits_list 2000 headers ltac:(lia) Hm).
  - unfold hsk_getproof_msg_write. auto with hsk.
  - unfold hsk_proof_msg_write. auto with hsk.
Qed.

(** ** What reading can return *)

(** As [msg_wf], for a message that was read: the fields a proof does not use are free. *)
Definition msg_ok (m : hsk_msg_t) : Prop :=
  match m with
  | MProof m => List.length (pm_root m) = 32%nat /\ List.length (pm_key m) = 32%nat /\ proof_ok (pm_proof m)
  | _ => msg_wf m
  end.

(** As [safe], on the inputs that are not empty. *)
Definition safe1 {A} (r : rd A) (P : A -> Prop) : Prop := forall d, bytes d -> d <> [] ->
  match r d with
  | Ret (a, rest) => P a /\ bytes rest
  | Fail => True
  | Fault _ => False
  end.
Lemma safe1_bind {A B} (m : rd A) (k : A -> rd B) (P : A -> Prop) (Q : B -> Prop) :
  safe1 m P -> (forall a, P a -> safe (k a) Q) -> safe1 (rbind m k) Q.
Proof.
  intros Hm Hk d Hd Hn. unfold rbind. specialize (Hm d Hd Hn). destruct (m d) as [[a rest]| |f]; try done.
  destruct Hm as [Ha Hr]. by apply Hk.
Qed.
Lemma safe1_varsize : safe1 read_varsize (fun v => 0 <= v).
Proof.
  intros d Hd Hn. unfold read_varsize, rbind.
  destruct (read_varint d) as [[v rest]| |f] eqn:E; [|done|].
  - apply read_varint_inv in E as [-> Hv]; [|done]. apply bytes_app in Hd as [_ Hr].
    destruct (i32 v <? 0); [done|]. split; [lia|done].
  - destruct d as [|p d]; [done|]. cbn [read_varint] in E.
    unfold rbind, read_u64_on, read_u32_on, read_u16_on, read_fixed, rfail, rret in E.
    repeat case_match; congruence.
Qed.
Lemma safe_repeat {A} (r : rd A) (P : A -> Prop) n : safe r P ->
  safe (rrepeat n r) (fun l => List.length l = n /\ Forall P l).
Proof.
  intros Hr. induction n as [|n IH]; [by apply safe_ret|]. cbn [rrepeat].
  eapply safe_bind; [exact Hr|]. intros a Ha. eapply safe_bind; [exact IH|]. intros l [Hl HP].
  apply safe_ret. split; [cbn; lia|by constructor].
Qed.
Lemma safe_netaddr : safe hsk_netaddr_read netaddr_wf.
Proof.
  unfold hsk_netaddr_read. do 2 (eapply safe_bind; [apply safe_u64|intros ? ?; cbv beta in * ]).
  eapply safe_bind; [apply safe_u8|intros type Ht; cbv beta in Ht].
  eapply safe_bind; [by apply safe_bytes|intros ip [Hb Hl]].
  cbv zeta. eapply safe_bind; [apply safe_u16|intros port Hp; cbv beta in Hp].
  eapply safe_bind; [by apply safe_bytes|intros key [Hkb Hkl]]. apply safe_ret.
  split; [done|]. split; [done|]. split; [done|]. cbn [na_addr ad_ip ad_port ad_key ad_type].
  assert (Hip : bytes_n 36 ip) by (split; [lia|done]). split; [|split; [done|split; [by split; [lia|]|]]].
  - destruct (type =? 0); [|done]. split; [rewrite length_app, length_take, length_replicate; lia|].
    apply bytes_app. split; [auto with hsk|]. apply bytes_replicate. lia.
  - intros ->. cbn [Z.eqb]. by rewrite drop_app_length' by (rewrite length_take; lia).
Qed.
Lemma safe_header : safe (hsk_header_read hsk_header_init)
  (fun hdr => hdr_wf hdr /\ overlay hsk_header_init hdr = hdr).
Proof.
  unfold hsk_header_read. eapply safe_bind; [apply safe_u32|intros ? ?; cbv beta in * ].
  eapply safe_bind; [apply safe_u64|intros ? ?; cbv beta in * ].
  do 6 (eapply safe_bind; [by apply safe_bytes|intros ? [? ?]]).
  do 2 (eapply safe_bind; [apply safe_u32|intros ? ?; cbv beta in * ]).
  eapply safe_bind; [by apply safe_bytes|intros ? [? ?]]. apply safe_ret. split; [|done].
  unfold hdr_wf, bytes_n. cbn. split_and!; done || lia.
Qed.
Lemma safe_headers_loop n al i :
  safe (headers_loop n al i) (fun l => List.length l = n /\ Forall codec_wf l).
Proof.
  revert i; induction n as [|n IH]; intros i; [by apply safe_ret|]. cbn [headers_loop].
  eapply safe_bind; [apply safe_guard|intros [] _]. eapply safe_bind; [apply safe_header|intros h Hh].
  eapply safe_bind; [apply IH|intros l [Hl Hc]]. apply safe_ret. split; [cbn; lia|by constructor].
Qed.
Lemma safe_ascii size : 0 <= size <= 255 ->
  safe (read_ascii size) (fun bs => (List.length bs <= 255)%nat /\ forallb ascii_ok bs = true).
Proof.
  intros Hs d Hd. unfold read_ascii. rewrite slice_ascii_short by done.
  assert (H := safe_slice size ltac:(lia) d Hd). destruct (slice_bytes size d) as [[bs rest]| |f]; try done.
  destruct H as [[_ Hl] Hr]. destruct (forallb ascii_ok bs) eqn:E; [|done]. split; [split; [lia|done]|done].
Qed.
Lemma safe_version : safe hsk_version_msg_read (fun m => msg_ok (MVersion m)).
Proof.
  unfold hsk_version_msg_read. eapply safe_bind; [apply safe_u32|intros ? ?; cbv beta in * ].
  do 2 (eapply safe_bind; [apply safe_u64|intros ? ?; cbv beta in * ]).
  eapply safe_bind; [apply safe_netaddr|intros ? ?].
  eapply safe_bind; [apply safe_u64|intros ? ?; cbv beta in * ].
  eapply safe_bind; [apply safe_u8|intros size Hs; cbv beta in Hs].
  eapply safe_bind; [apply safe_ascii; lia|intros ? [? ?]].
  eapply safe_bind; [apply safe_u32|intros ? ?; cbv beta in * ].
  eapply safe_bind; [apply safe_u8|intros nr Hr; cbv beta in Hr].
  apply safe_ret. cbn. split_and!; done || lia.
Qed.
(** The readers of the three messages that start with a count. *)
Lemma safe1_counted {B} (n : Z) (k : Z -> rd B) (Q : B -> Prop) :
  (forall v, 0 <= v <= n -> safe (k v) Q) ->
  safe1 (v <- read_varsize ;; rguard (negb (n <? v)) ;;; k v) Q.
Proof.
  intros Hk. eapply safe1_bind; [apply safe1_varsize|intros v Hv; cbv beta in Hv].
  eapply safe_bind; [apply safe_guard|intros [] Hg%negb_true_iff%Z.ltb_ge]. by apply Hk.
Qed.
Lemma safe_hash : safe (read_bytes 32) (codec_wf (A := list Z)).
Proof. eapply safe_weaken; [by apply safe_bytes|]. intros bs [_ Hl]. change (List.length bs = 32%nat). lia. Qed.
Lemma safe_pair : safe hsk_getproof_msg_read (fun m => msg_ok (MGetproof m)).
Proof.
  unfold hsk_getproof_msg_read. do 2 (eapply safe_bind; [apply safe_hash|intros ? ?]). by apply safe_ret.
Qed.
Lemma safe_proof_msg al : safe (hsk_proof_msg_read al) (fun m => msg_ok (MProof m)).
Proof.
  unfold hsk_proof_msg_read. do 2 (eapply safe_bind; [apply safe_hash|intros ? ?]).
  eapply safe_bind; [apply safe_proof_read|intros p Hp]. by apply safe_ret.
Qed.
Lemma safe1_addr : safe1 hsk_addr_msg_read (list_wf 1000).
Proof.
  apply safe1_counted. intros v Hv. eapply safe_weaken; [apply safe_repeat, safe_netaddr|].
  intros l [Hl Hc]. split; [lia|exact Hc].
Qed.
Lemma safe1_getheaders : safe1 hsk_getheaders_msg_read (fun m => msg_ok (MGetheaders m)).
Proof.
  apply (safe1_counted 64). intros v Hv.
  eapply safe_bind; [apply safe_repeat, safe_hash|intros l [Hl Hc]].
  eapply safe_bind; [apply safe_hash|intros stop Hs]. apply safe_ret. split; [|exact Hs].
  split; [cbn; lia|exact Hc].
Qed.
Lemma safe1_headers al : safe1 (hsk_headers_msg_read al) (list_wf 2000).
Proof.
  apply safe1_counted. intros v Hv. eapply safe_weaken; [apply safe_headers_loop|].
  intros l [Hl Hc]. split; [lia|exact Hc].
Qed.
(** The commands whose reader starts with [read_varsize]. *)
Definition counted (m : hsk_msg_t) : bool :=
  match m with MAddr _ | MGetheaders _ | MHeaders _ => true | _ => false end.
Lemma safe1_safe {A} (r : rd A) P : safe r P -> safe1 r P.
Proof. intros H d Hd _. by apply H. Qed.
Lemma safe1_map {A B} (r : rd A) (f : A -> B) (P : A -> Prop) (Q : B -> Prop) :
  safe1 r P -> (forall a, P a -> Q (f a)) -> safe1 (a <- r ;; rret (f a)) Q.
Proof. intros Hr HPQ. eapply safe1_bind; [exact Hr|]. intros a Ha. apply safe_ret, HPQ, Ha. Qed.
Lemma safe_map {A B} (r : rd A) (f : A -> B) (P : A -> Prop) (Q : B -> Prop) :
  safe r P -> (forall a, P a -> Q (f a)) -> safe (a <- r ;; rret (f a)) Q.
Proof. intros Hr HPQ. eapply safe_bind; [exact Hr|]. intros a Ha. apply safe_ret, HPQ, Ha. Qed.
Definition same_msg (msg m : hsk_msg_t) : Prop := msg_ok m /\ msg_cmd m = msg_cmd msg.
Lemma safe_msg_uncounted al msg : counted msg = false -> safe (hsk_msg_read al msg) (same_msg msg).
Proof.
  intros Hc. destruct msg; try discriminate Hc; cbn [hsk_msg_read]; try (by apply safe_ret).
  - eapply safe_map; [apply safe_version|done].
  - eapply safe_map; [apply safe_u64|done].
  - eapply safe_map; [apply safe_u64|done].
  - eapply safe_map; [apply safe_pair|done].
  - eapply safe_map; [apply safe_proof_msg|done].
Qed.
Lemma safe1_msg al msg : safe1 (hsk_msg_read al msg) (same_msg msg).
Proof.
  destruct (counted msg) eqn:Hc; [|by apply safe1_safe, safe_msg_uncounted].
  destruct msg; try discriminate Hc; cbn [hsk_msg_read].
  - eapply safe1_map; [apply safe1_addr|done].
  - eapply safe1_map; [apply safe1_getheaders|done].
  - eapply safe1_map; [apply safe1_headers|done].
Qed.

(** ** The size query *)

(** The bytes the size query of a count forgets. *)
Definition short_by {A} (l : list A) : Z := if Z.of_nat (List.length l) <? 253 then 0 else 2.
Lemma sizes_count {A} (l : list A) : Z.of_nat (List.length l) <= 2000 ->
  sizes (write_varsize (Z.of_nat (List.length l)))
    (Z.of_nat (List.length (varint_wire (Z.of_nat (List.length l)))) - short_by l).
Proof.
  intros Hn. unfold sizes, write_varsize, write_varint, size_varsize, size_varint, varint_wire, short_by.
  destruct (Z.ltb_spec (Z.of_nat (List.length l)) 253); [done|].
  by rewrite (proj2 (Z.leb_le (Z.of_nat (List.length l)) 65535)) by lia.
Qed.
Lemma sizes_list {A} `{Codec A} n (l : list A) : n <= 2000 -> list_wf n l ->
  sizes (write_varsize (Z.of_nat (List.length l)) +++ wconcat (List.map codec_write l))
    (Z.of_nat (List.length (list_wire l)) - short_by l).
Proof.
  intros Hn [Hl Hc]. unfold list_wire. rewrite length_app, Nat2Z.inj_add.
  replace (_ + _ - _) with (Z.of_nat (List.length (varint_wire (Z.of_nat (List.length l)))) - short_by l +
    Z.of_nat (List.length (concat (List.map codec_wire l)))) by lia.
  apply sizes_seq; [apply sizes_count; lia|by apply sizes_codec_list].
Qed.
Definition msg_short_by (m : hsk_msg_t) : Z :=
  match m with
  | MAddr l => short_by l
  | MHeaders l => short_by l
  | _ => 0
  end.
Lemma sizes_msg m : msg_wf m ->
  sizes (hsk_msg_write m) (Z.of_nat (List.length (msg_emitted m)) - msg_short_by m).
Proof.
  intros Hm. destruct m; cbn [hsk_msg_write msg_emitted msg_wire msg_short_by]; try done.
  - destruct Hm as (_ & _ & _ & Hr & _). unfold hsk_version_msg_write, version_wire. rewrite Z.sub_0_r, !length_app, !Nat2Z.inj_add.
    repeat (apply sizes_seq; [done || exact (codec_sizes _ Hr)|]). done.
  - exact (sizes_list 1000 addrs ltac:(lia) Hm).
  - destruct m as [hashes stop], Hm as [[Hn Hh] Hs]. cbn [gm_hashes gm_stop] in *.
    unfold hsk_getheaders_msg_write, list_wire. cbn [gm_hashes gm_stop].
    rewrite Z.sub_0_r, !length_app, !Nat2Z.inj_add, <-Z.add_assoc.
    assert (Hc := sizes_count hashes ltac:(lia)). unfold short_by in Hc.
    rewrite (proj2 (Z.ltb_lt (Z.of_nat (List.length hashes)) 253)), Z.sub_0_r in Hc by lia.
    apply sizes_seq; [exact Hc|]. apply sizes_seq; [exact (sizes_codec_list hashes Hh)|done].
  - exact (sizes_list 2000 headers ltac:(lia) Hm).
  - rewrite length_app, Z.sub_0_r, Nat2Z.inj_add. by apply sizes_seq.
  - rewrite length_app, Z.sub_0_r, Nat2Z.inj_add. by apply sizes_seq.
Qed.

(** * Properties *)

(** C40: round trip: what [hsk_msg_encode] writes for a well-formed message other than a
    proof, [hsk_msg_decode] reads back, into any message allocated for its command; a
    proof message, which a client only receives, is read back from its wire form. *)
Theorem msg_roundtrip m m0 : msg_wf m -> hsk_msg_alloc true (msg_cmd m) = Some m0 ->
  hsk_msg_decode always (msg_wire m) m0 = Ret m /\
  ((forall p, m <> MProof p) -> hsk_msg_encode m = msg_wire m).
Proof.
  intros Hm Ha. assert (Hc : msg_cmd m0 = msg_cmd m) by (destruct m; injection Ha as <-; done).
  split.
  - unfold hsk_msg_decode. by rewrite <-(app_nil_r (msg_wire m)), parses_msg.
  - intros Hp. unfold hsk_msg_encode. rewrite emits_msg by done.
    destruct m; try done. by destruct (Hp m).
Qed.
Definition sample_version : hsk_msg_t :=
  MVersion (mk_version_msg 1 1 1600000000 hsk_netaddr_init 77 [47; 104; 115; 107; 47] 2016 true).
Lemma msg_roundtrip_witness :
  hsk_msg_decode always (hsk_msg_encode sample_version) (MVersion (mk_version_msg 0 0 0 hsk_netaddr_init 0 [] 0 true))
  = Ret sample_version.
Proof.
  assert (Hw : msg_wf sample_version).
  { cbn. split_and!; try lia; try done. apply (bool_decide_eq_true _). vm_compute. reflexivity. }
  destruct (msg_roundtrip sample_version _ Hw eq_refl) as [H1 H2].
  rewrite H2 by done. exact H1.
Defined.

(** [hsk_msg_read] on any bytes from a peer, for any command and whatever
    allocations fail: what it returns is a message of that command whose counts, texts
    and fields are within their bounds; it never reads outside the payload nor trips an
    assertion, but for the one-byte overread of [read_varint] on an empty payload of the
    three commands that start with a count. *)
Theorem msg_read_type al msg data : bytes data ->
  match hsk_msg_read al msg data with
  | Ret (m, rest) => msg_ok m /\ msg_cmd m = msg_cmd msg /\ bytes rest
  | Fail => True
  | Fault f => data = [] /\ f = Overread /\ counted msg = true
  end.
Proof.
  intros Hd. destruct (decide (data = [])) as [->|Hn].
  - destruct (counted msg) eqn:Hc; [by destruct msg|].
    assert (H := safe_msg_uncounted al msg Hc [] Hd). destruct (hsk_msg_read al msg []) as [[m r]| |f]; try done.
    destruct H as [[? ?] ?]. by split_and!.
  - assert (H := safe1_msg al msg data Hd Hn). destruct (hsk_msg_read al msg data) as [[m r]| |f]; try done.
    destruct H as [[? ?] ?]. by split_and!.
Qed.
Lemma msg_read_type_witness :
  match hsk_msg_read always (MGetheaders (mk_getheaders_msg [] [])) (0 :: replicate 32 7) with
  | Ret (m, _) => msg_ok m
  | _ => False
  end.
Proof.
  assert (H := msg_read_type always (MGetheaders (mk_getheaders_msg [] [])) (0 :: replicate 32 7)).
  assert (Hb : bytes (0 :: replicate 32 7)) by (apply (bool_decide_eq_true _); vm_compute; reflexivity).
  specialize (H Hb). cbn in H |- *. exact (proj1 H).
Defined.

(** [hsk_msg_size], with which a caller allocates the buffer that [hsk_msg_write] fills,
    is the number of bytes written for every well-formed message with fewer than 253
    addresses or headers, and two too few for the others: the size of a count is taken
    from [size_varint], which returns a [bool]. The program sends only messages of the
    first kind. *)
Theorem msg_size_correct m : msg_wf m ->
  hsk_msg_size m = Z.of_nat (List.length (hsk_msg_encode m)) - msg_short_by m /\
  (msg_short_by m = 0 <->
    match m with
    | MAddr l => Z.of_nat (List.length l) < 253
    | MHeaders l => Z.of_nat (List.length l) < 253
    | _ => True
    end).
Proof.
  intros Hm. split.
  - unfold hsk_msg_size, hsk_msg_encode. rewrite emits_msg, sizes_msg by done. done.
  - destruct m; try done; cbn [msg_short_by]; unfold short_by; case_match; lia.
Qed.
Lemma msg_size_correct_witness :
  hsk_msg_size (MHeaders (replicate 253 hsk_header_init)) =
  Z.of_nat (List.length (hsk_msg_encode (MHeaders (replicate 253 hsk_header_init)))) - 2.
Proof.
  refine (proj1 (msg_size_correct (MHeaders (replicate 253 hsk_header_init)) _)).
  split; [vm_compute; discriminate|]. apply Forall_replicate. split; [|reflexivity].
  apply (bool_decide_eq_true _). vm_compute. reflexivity.
Defined.
