(* ===== verification/Map.v ===== *)
(** The hash table: [map.c], [map.h] (derived from khash).

    An open-addressing table with triangular probing. Each bucket has two flag bits,
    packed sixteen buckets to a 32-bit word, and a place in the arrays of keys and of
    values. The arrays are lists, [None] being memory that was never written; a null
    array is the empty list. A key stands for the memory its pointer leads to, which
    the callers leave unchanged while the key is in the table. An access outside an
    array, or a hash of a key never written, is [Fault Overread]. *)

From S2P Require Import Prelude.

(** The functions a table is made with. *)
Class MapFuncs (K : Type) := {
  hash_func : K -> Z;
  equal_func : K -> K -> bool;
}.

(** * Flags *)

Definition flag_shift (i : Z) : Z := Z.shiftl (Z.land i 0xf) 1.
Definition flag_word (f : list Z) (i : Z) : outcome Z := of_option Overread (f !! Z.to_nat (Z.shiftr i 4)).
Definition flag_test (f : list Z) (i m : Z) : outcome bool :=
  let* w := flag_word f i in Ret (negb (Z.land (Z.shiftr w (flag_shift i)) m =? 0)).
Definition __hsk_isempty (f : list Z) (i : Z) : outcome bool := flag_test f i 2.
Definition __hsk_isdel (f : list Z) (i : Z) : outcome bool := flag_test f i 1.
Definition __hsk_iseither (f : list Z) (i : Z) : outcome bool := flag_test f i 3.
Definition flag_update (f : list Z) (i : Z) (op : Z -> Z) : outcome (list Z) :=
  let* w := flag_word f i in Ret (<[Z.to_nat (Z.shiftr i 4) := u32 (op w)]> f).
Definition __hsk_set_isempty_false (f : list Z) (i : Z) : outcome (list Z) :=
  flag_update f i (fun w => Z.land w (Z.lnot (Z.shiftl 2 (flag_shift i)))).
Definition __hsk_set_isboth_false (f : list Z) (i : Z) : outcome (list Z) :=
  flag_update f i (fun w => Z.land w (Z.lnot (Z.shiftl 3 (flag_shift i)))).
Definition __hsk_set_isdel_true (f : list Z) (i : Z) : outcome (list Z) :=
  flag_update f i (fun w => Z.lor w (Z.shiftl 1 (flag_shift i))).
Definition __hsk_fsize (m : Z) : Z := if m <? 16 then 1 else Z.shiftr m 4.
Definition __hsk_roundup32 (x : Z) : Z :=
  let x := u32 (x - 1) in
  let x := Z.lor x (Z.shiftr x 1) in
  let x := Z.lor x (Z.shiftr x 2) in
  let x := Z.lor x (Z.shiftr x 4) in
  let x := Z.lor x (Z.shiftr x 8) in
  let x := Z.lor x (Z.shiftr x 16) in
  u32 (x + 1).
Definition resize_to (new_n_buckets : Z) : Z :=
  let new_n_buckets := __hsk_roundup32 new_n_buckets in
  if new_n_buckets <? 4 then 4 else new_n_buckets.
(** [(uint32_t)(n * __hsk_hash_upper + 0.5)]: the constant is the double nearest 0.77,
    which is 1733885856537641 / 2 ^ 51; the product is exact for a power of two, and
    the rounding of the sum does not reach the next integer. *)
Definition hash_upper (n : Z) : Z := (2 * n * 1733885856537641 + 2 ^ 51) / 2 ^ 52.
(** [memset(flags, 0xaa, ...)]: every bucket is empty. *)
Definition fresh_flags (n : Z) : list Z := replicate (Z.to_nat (__hsk_fsize n)) 0xaaaaaaaa.

(** * The table *)

Record hsk_map_t (K V : Type) := mk_map {
  n_buckets : Z;
  size : Z;
  n_occupied : Z;
  upper_bound : Z;
  flags : list Z;
  keys : list (option K);
  vals : list (option V);
  is_map : bool;
}.
Arguments mk_map {K V}.
Arguments n_buckets {K V}.
Arguments size {K V}.
Arguments n_occupied {K V}.
Arguments upper_bound {K V}.
Arguments flags {K V}.
Arguments keys {K V}.
Arguments vals {K V}.
Arguments is_map {K V}.

Section Table.
Context {K V : Type} `{MapFuncs K}.
Implicit Types map : hsk_map_t K V.

Definition hsk_map_init (is_map : bool) : hsk_map_t K V := mk_map 0 0 0 0 [] [] [] is_map.
Definition hsk_map_init_map : hsk_map_t K V := hsk_map_init true.
Definition hsk_map_init_set : hsk_map_t K V := hsk_map_init false.

Definition hsk_map_reset map : hsk_map_t K V :=
  match flags map with
  | [] => map
  | _ => mk_map (n_buckets map) 0 0 (upper_bound map) (fresh_flags (n_buckets map))
           (keys map) (vals map) (is_map map)
  end.

(** The key of a bucket, which is about to be hashed or compared. *)
Definition key_at (ks : list (option K)) (i : Z) : outcome K :=
  of_option Overread (ks !! Z.to_nat i ≫= id).
Definition store {A} (l : list A) (i : Z) (a : A) : outcome (list A) :=
  if decide (Z.to_nat i < length l)%nat then Ret (<[Z.to_nat i := a]> l) else Fault Overread.

(** The negated condition of the probing loops. *)
Definition probe_stops map (key : K) (i : Z) : outcome bool :=
  let* e := __hsk_isempty (flags map) i in
  if e then Ret true
  else
    let* d := __hsk_isdel (flags map) i in
    if d then Ret false
    else let* k := key_at (keys map) i in Ret (equal_func k key).

Fixpoint lookup_loop (fuel : nat) map (key : K) (mask last i step : Z) : outcome Z :=
  match fuel with
  | O => Fault Hang
  | S fuel' =>
      let* stop := probe_stops map key i in
      if stop then
        let* b := __hsk_iseither (flags map) i in Ret (if b then n_buckets map else i)
      else
        let step := u32 (step + 1) in
        let i := Z.land (u32 (i + step)) mask in
        if i =? last then Ret (n_buckets map) else lookup_loop fuel' map key mask last i step
  end.
Definition probe_fuel (n : Z) : nat := Z.to_nat (2 * n).
Definition hsk_map_lookup map (key : K) : outcome Z :=
  if n_buckets map =? 0 then Ret 0
  else
    let mask := u32 (n_buckets map - 1) in
    let i := Z.land (hash_func key) mask in
    lookup_loop (probe_fuel (n_buckets map)) map key mask i i 0.

(** ** Resizing *)

(** [while (!__hsk_isempty(new_flags, i)) i = (i + (++step)) & new_mask;] *)
Fixpoint free_loop (fuel : nat) (new_flags : list Z) (new_mask i step : Z) : outcome Z :=
  match fuel with
  | O => Fault Hang
  | S fuel' =>
      let* e := __hsk_isempty new_flags i in
      if e then Ret i
      else
        let step := u32 (step + 1) in
        free_loop fuel' new_flags new_mask (Z.land (u32 (i + step)) new_mask) step
  end.

(** What the rehashing changes. *)
Record rehash_t := mk_rehash {
  rh_flags : list Z;
  rh_new_flags : list Z;
  rh_keys : list (option K);
  rh_vals : list (option V);
}.

(** [for (;;) {...}]: [key] and [val] have no bucket yet. *)
Fixpoint kick_loop (fuel : nat) (is_map : bool) (n new_n : Z) (key : K) (val : option V) (s : rehash_t)
    : outcome rehash_t :=
  match fuel with
  | O => Fault Hang
  | S fuel' =>
      let new_mask := u32 (new_n - 1) in
      let* i := free_loop (probe_fuel new_n) (rh_new_flags s) new_mask (Z.land (hash_func key) new_mask) 0 in
      let* new_flags := __hsk_set_isempty_false (rh_new_flags s) i in
      let* kick := (if i <? n then let* b := __hsk_iseither (rh_flags s) i in Ret (negb b) else Ret false) in
      let* keys := store (rh_keys s) i (Some key) in
      let* vals := (if is_map then store (rh_vals s) i val else Ret (rh_vals s)) in
      if kick then
        let* key := key_at (rh_keys s) i in
        let val := if is_map then rh_vals s !! Z.to_nat i ≫= id else None in
        let* flags := __hsk_set_isdel_true (rh_flags s) i in
        kick_loop fuel' is_map n new_n key val (mk_rehash flags new_flags keys vals)
      else Ret (mk_rehash (rh_flags s) new_flags keys vals)
  end.
(** [for (j = 0; j < map->n_buckets; j++)], with [cnt] rounds left. *)
Fixpoint rehash_loop (cnt : nat) (is_map : bool) (n new_n j : Z) (s : rehash_t) : outcome rehash_t :=
  match cnt with
  | O => Ret s
  | S cnt' =>
      let* b := __hsk_iseither (rh_flags s) j in
      let* s := (if b then Ret s
        else
          let* key := key_at (rh_keys s) j in
          let val := if is_map then rh_vals s !! Z.to_nat j ≫= id else None in
          let* flags := __hsk_set_isdel_true (rh_flags s) j in
          kick_loop (S (Z.to_nat n)) is_map n new_n key val
            (mk_rehash flags (rh_new_flags s) (rh_keys s) (rh_vals s))) in
      rehash_loop cnt' is_map n new_n (j + 1) s
  end.

Definition realloc {A} (l : list (option A)) (n : Z) : list (option A) :=
  take (Z.to_nat n) l ++ replicate (Z.to_nat n - length l) None.
Definition with_arrays map (ks : list (option K)) (vs : list (option V)) : hsk_map_t K V :=
  mk_map (n_buckets map) (size map) (n_occupied map) (upper_bound map) (flags map) ks vs (is_map map).

(** [al] says which of the allocations of [flags], [keys], [vals] and of the two
    shrinking ones succeed; the code does not test the last two. *)
Definition hsk_map_resize (al : nat -> bool) map (new_n_buckets : Z) : outcome (Z * hsk_map_t K V) :=
  let new_n := resize_to new_n_buckets in
  if hash_upper new_n <=? size map then Ret (0, map)
  else if negb (al 0%nat) then Ret (-1, map)
  else
    let grow := n_buckets map <? new_n in
    if grow && negb (al 1%nat) then Ret (-1, map)
    else
      let ks := if grow then realloc (keys map) new_n else keys map in
      if grow && is_map map && negb (al 2%nat) then Ret (-1, with_arrays map ks (vals map))
      else
        let vs := if grow && is_map map then realloc (vals map) new_n else vals map in
        let* s := rehash_loop (Z.to_nat (n_buckets map)) (is_map map) (n_buckets map) new_n 0
          (mk_rehash (flags map) (fresh_flags new_n) ks vs) in
        let shrink := new_n <? n_buckets map in
        let ks := if shrink then (if al 3%nat then realloc (rh_keys s) new_n else []) else rh_keys s in
        let vs := if shrink && is_map map then (if al 4%nat then realloc (rh_vals s) new_n else []) else rh_vals s in
        Ret (0, mk_map new_n (size map) (size map) (hash_upper new_n) (rh_new_flags s) ks vs (is_map map)).

(** ** Insertion *)

Fixpoint put_loop (fuel : nat) map (key : K) (mask last i step site : Z) : outcome Z :=
  match fuel with
  | O => Fault Hang
  | S fuel' =>
      let* stop := probe_stops map key i in
      if stop then
        let* e := __hsk_isempty (flags map) i in
        Ret (if e && negb (site =? n_buckets map) then site else i)
      else
        let* d := __hsk_isdel (flags map) i in
        let site := if d then i else site in
        let step := u32 (step + 1) in
        let i := Z.land (u32 (i + step)) mask in
        if i =? last then
          (* [x = site], and when that is [n_buckets] the test after the loop sets [x = i] *)
          if site =? n_buckets map then
            let* e := __hsk_isempty (flags map) i in
            Ret (if e && negb (site =? n_buckets map) then site else i)
          else Ret site
        else put_loop fuel' map key mask last i step site
  end.
(** The bucket for [key] in a table with room. *)
Definition put_site map (key : K) : outcome Z :=
  let mask := u32 (n_buckets map - 1) in
  let i := Z.land (hash_func key) mask in
  let* e := __hsk_isempty (flags map) i in
  if e then Ret i else put_loop (probe_fuel (n_buckets map)) map key mask i i 0 (n_buckets map).
(** What [hsk_map_put] does first. *)
Definition put_room (al : nat -> bool) map : outcome (Z * hsk_map_t K V) :=
  if upper_bound map <=? n_occupied map then
    if u32 (Z.shiftl (size map) 1) <? n_buckets map then hsk_map_resize al map (u32 (n_buckets map - 1))
    else hsk_map_resize al map (u32 (n_buckets map + 1))
  else Ret (0, map).
(** What it does then: the bucket, the value stored in [*ret], and the table. *)
Definition put_bucket map (key : K) : outcome (Z * Z * hsk_map_t K V) :=
  let* x := put_site map key in
  let* e := __hsk_isempty (flags map) x in
  let* d := __hsk_isdel (flags map) x in
  let* ks := store (keys map) x (Some key) in
  let put f size occ :=
    mk_map (n_buckets map) size occ (upper_bound map) f ks (vals map) (is_map map) in
  if e then
    let* f := __hsk_set_isboth_false (flags map) x in
    Ret (x, 1, put f (u32 (size map + 1)) (u32 (n_occupied map + 1)))
  else if d then
    let* f := __hsk_set_isboth_false (flags map) x in
    Ret (x, 2, put f (u32 (size map + 1)) (n_occupied map))
  else Ret (x, 0, put (flags map) (size map) (n_occupied map)).
Definition hsk_map_put (al : nat -> bool) map (key : K) : outcome (Z * Z * hsk_map_t K V) :=
  let* (r, map) := put_room al map in
  if r <? 0 then Ret (n_buckets map, -1, map) else put_bucket map key.

Definition hsk_map_exists map (i : Z) : outcome bool :=
  let* b := __hsk_iseither (flags map) i in Ret (negb b).
Definition hsk_map_delete map (x : Z) : outcome (hsk_map_t K V) :=
  if x =? n_buckets map then Ret map
  else
    let* live := hsk_map_exists map x in
    if live then
      let* f := __hsk_set_isdel_true (flags map) x in
      Ret (mk_map (n_buckets map) (u32 (size map - 1)) (n_occupied map) (upper_bound map) f
        (keys map) (vals map) (is_map map))
    else Ret map.

(** ** The operations by key *)

Definition hsk_map_set (al : nat -> bool) map (key : K) (value : V) : outcome (bool * hsk_map_t K V) :=
  let* (k, ret, map) := hsk_map_put al map key in
  if ret =? -1 then Ret (false, map)
  else let* vs := store (vals map) k (Some value) in Ret (true, with_arrays map (keys map) vs).
Definition hsk_map_get map (key : K) : outcome (option V) :=
  let* k := hsk_map_lookup map key in
  if k =? n_buckets map then Ret None
  else
    let* live := hsk_map_exists map k in
    if live then let* v := of_option Overread (vals map !! Z.to_nat k ≫= id) in Ret (Some v) else Ret None.
Definition hsk_map_has map (key : K) : outcome bool :=
  let* k := hsk_map_lookup map key in
  if k =? n_buckets map then Ret false else hsk_map_exists map k.
Definition hsk_map_del map (key : K) : outcome (bool * hsk_map_t K V) :=
  let* k := hsk_map_lookup map key in
  if k =? n_buckets map then Ret (false, map)
  else
    let* live := hsk_map_exists map k in
    if live then let* map := hsk_map_delete map k in Ret (true, map) else Ret (false, map).

(** The values in the order of the buckets, as the loops over
    [hsk_map_begin] to [hsk_map_end] meet them. *)
Fixpoint each_loop (cnt : nat) map (k : Z) : outcome (list V) :=
  match cnt with
  | O => Ret []
  | S cnt' =>
      let* live := hsk_map_exists map k in
      if live then
        let* v := of_option Overread (vals map !! Z.to_nat k ≫= id) in
        let* vs := each_loop cnt' map (k + 1) in
        Ret (v :: vs)
      else each_loop cnt' map (k + 1)
  end.
Definition map_each map : outcome (list V) := each_loop (Z.to_nat (n_buckets map)) map 0.
(** The values that are passed to [free_func], if the table has one. *)
Definition hsk_map_clear (free_func : bool) map : outcome (list V * hsk_map_t K V) :=
  let* freed := (if is_map map && free_func then map_each map else Ret []) in
  Ret (freed, hsk_map_reset map).
End Table.
Arguments rehash_t : clear implicits.

(** * Hash functions of the keys *)

Definition h_rotl32 (w b : Z) : Z := u32 (Z.lor (Z.shiftl w b) (Z.shiftr w (32 - b))).
Definition murmur_mix (k1 : Z) : Z :=
  let k1 := u32 (k1 * 0xcc9e2d51) in
  let k1 := h_rotl32 k1 15 in
  u32 (k1 * 0x1b873593).
Fixpoint murmur_loop (data : list Z) (h1 : Z) : Z * list Z :=
  match data with
  | d0 :: d1 :: d2 :: d3 :: data' =>
      let k1 := u32 (Z.lor (Z.lor (Z.lor (Z.shiftl d3 24) (Z.shiftl d2 16)) (Z.shiftl d1 8)) d0) in
      let h1 := Z.lxor h1 (murmur_mix k1) in
      let h1 := h_rotl32 h1 13 in
      murmur_loop data' (u32 (u32 (h1 * 5) + 0xe6546b64))
  | tail => (h1, tail)
  end.
Definition hsk_map_murmur3 (data : list Z) (seed : Z) : Z :=
  let (h1, tail) := murmur_loop data seed in
  let k1 :=
    match tail with
    | [d0] => d0
    | [d0; d1] => Z.lxor (Z.shiftl d1 8) d0
    | [d0; d1; d2] => Z.lxor (Z.lxor (Z.shiftl d2 16) (Z.shiftl d1 8)) d0
    | _ => 0
    end in
  let h1 := match tail with [] => h1 | _ => Z.lxor h1 (murmur_mix k1) end in
  let h1 := Z.lxor h1 (u32 (Z.of_nat (length data))) in
  let h1 := Z.lxor h1 (Z.shiftr h1 16) in
  let h1 := u32 (h1 * 0x85ebca6b) in
  let h1 := Z.lxor h1 (Z.shiftr h1 13) in
  let h1 := u32 (h1 * 0xc2b2ae35) in
  Z.lxor h1 (Z.shiftr h1 16).
Definition hsk_map_tweak3 (data : list Z) (n tweak : Z) : Z :=
  hsk_map_murmur3 data (u32 (u32 (n * 0xfba4c795) + tweak)).

Definition hsk_map_hash_hash (key : list Z) : Z := hsk_map_murmur3 (take 32 key) 0xfba4c795.
Definition hsk_map_equal_hash (a b : list Z) : bool := memeq (take 32 a) (take 32 b).
Definition hsk_map_hash_hash160 (key : list Z) : Z := hsk_map_murmur3 (take 20 key) 0xfba4c795.
Definition hsk_map_equal_hash160 (a b : list Z) : bool := memeq (take 20 a) (take 20 b).
(** A string is the list of its characters before the terminator; [char] is signed. *)
Definition hsk_map_hash_str (key : list Z) : Z :=
  fold_left (fun hash c => u32 (u32 (u32 (Z.shiftl hash 5) + hash) + u32 (i8 c))) key 5381.
Definition hsk_map_equal_str (a b : list Z) : bool := bool_decide (a = b).
Definition hsk_map_hash_int (key : Z) : Z :=
  let hash := key in
  let hash := u32 (hash + u32 (Z.lnot (u32 (Z.shiftl hash 15)))) in
  let hash := Z.lxor hash (Z.shiftr hash 10) in
  let hash := u32 (hash + u32 (Z.shiftl hash 3)) in
  let hash := Z.lxor hash (Z.shiftr hash 6) in
  let hash := u32 (hash + u32 (Z.lnot (u32 (Z.shiftl hash 11)))) in
  Z.lxor hash (Z.shiftr hash 16).
Definition hsk_map_equal_int (a b : Z) : bool := a =? b.

(** Reference values of MurmurHash3 (x86, 32 bits). *)
Example murmur3_empty : hsk_map_murmur3 [] 1 = 0x514e28b7.
Proof. reflexivity. Qed.
Example murmur3_test : hsk_map_murmur3 [116; 101; 115; 116] 0 = 0xba6bd213.
Proof. reflexivity. Qed.
Example murmur3_hello :
  hsk_map_murmur3 [72; 101; 108; 108; 111; 44; 32; 119; 111; 114; 108; 100; 33] 0 = 0xc0363e43.
Proof. reflexivity. Qed.
Example hash_upper_spec : List.map hash_upper [4; 8; 16; 32; 1024; 2 ^ 30; 2 ^ 31] =
  [3; 6; 12; 25; 788; 826781204; 1653562409].
Proof. reflexivity. Qed.
