(* ===== verification/MapSpec.v ===== *)
(** Lemmas for the hash table of [Map]: the flag bits as an array of bucket states,
    and the triangular probe sequence. *)

From S2P Require Import Prelude Map.

(** * Bucket states *)

Inductive bucket := BEmpty | BDeleted | BLive.
#[export] Instance bucket_eq_dec : EqDecision bucket.
Proof. solve_decision. Defined.

Definition fbit (f : list Z) (i b : Z) : bool :=
  Z.testbit (default 0 (f !! Z.to_nat (i / 16))) (2 * (i mod 16) + b).
Definition state (f : list Z) (i : Z) : bucket :=
  if fbit f i 1 then BEmpty else if fbit f i 0 then BDeleted else BLive.
(** Bucket [i] has its flags. *)
Definition flagged (f : list Z) (i : Z) : Prop := 0 <= i /\ i / 16 < Z.of_nat (length f).

Lemma flagged_lt f i : flagged f i -> (Z.to_nat (i / 16) < length f)%nat.
Proof. intros [H0 Hl]. assert (Hd := Z.div_pos i 16 H0 ltac:(lia)). lia. Qed.
Lemma flag_word_spec f i : flagged f i -> flag_word f i = Ret (default 0 (f !! Z.to_nat (i / 16))).
Proof.
  intros Hf. unfold flag_word. rewrite Z.shiftr_div_pow2 by done. change (2 ^ 4) with 16.
  by destruct (lookup_lt_is_Some_2 f (Z.to_nat (i / 16)) (flagged_lt f i Hf)) as [w ->].
Qed.
Lemma flag_shift_spec i : 0 <= i -> flag_shift i = 2 * (i mod 16).
Proof.
  intros Hi. unfold flag_shift. rewrite Z.shiftl_mul_pow2 by lia. change 0xf with (2 ^ 4 - 1).
  rewrite land_ones_mod by lia. change (2 ^ 1) with 2. change (2 ^ 4) with 16. lia.
Qed.
Lemma land_bit x k : 0 <= k -> negb (Z.land x (2 ^ k) =? 0) = Z.testbit x k.
Proof.
  intros Hk. destruct (Z.testbit x k) eqn:E.
  - apply negb_true_iff, Z.eqb_neq. intros H0. assert (Hb : Z.testbit (Z.land x (2 ^ k)) k = false) by by rewrite H0, Z.bits_0.
    by rewrite Z.land_spec, E, Z.pow2_bits_true in Hb by done.
  - apply negb_false_iff, Z.eqb_eq, Z.bits_inj'. intros n Hn.
    rewrite Z.land_spec, Z.bits_0, Z.pow2_bits_eqb by done.
    destruct (Z.eqb_spec k n) as [<-|]; [by rewrite E|apply andb_false_r].
Qed.
Lemma land_3 x : negb (Z.land x 3 =? 0) = Z.testbit x 1 || Z.testbit x 0.
Proof.
  assert (H1 := land_bit x 1 ltac:(lia)). assert (H0 := land_bit x 0 ltac:(lia)).
  rewrite <-H1, <-H0. change (2 ^ 1) with 2. change (2 ^ 0) with 1. change 3 with (Z.lor 2 1).
  rewrite Z.land_lor_distr_r.
  destruct (Z.eqb_spec (Z.lor (Z.land x 2) (Z.land x 1)) 0) as [E|E].
  - apply Z.lor_eq_0_iff in E as [-> ->]. done.
  - symmetry. cbn [negb]. apply orb_true_iff. destruct (Z.eqb_spec (Z.land x 2) 0) as [E2|]; [|by left].
    destruct (Z.eqb_spec (Z.land x 1) 0) as [E1|]; [|by right]. by rewrite E1, E2 in E.
Qed.
Section Flags.
Context (f : list Z) (i : Z) (Hf : flagged f i).

Lemma fbit_shift b : 0 <= b ->
  Z.testbit (Z.shiftr (default 0 (f !! Z.to_nat (i / 16))) (flag_shift i)) b = fbit f i b.
Proof.
  intros Hb. destruct Hf. rewrite flag_shift_spec, Z.shiftr_spec by done. unfold fbit. f_equal. lia.
Qed.
Lemma isempty_spec : __hsk_isempty f i = Ret (bool_decide (state f i = BEmpty)).
Proof.
  unfold __hsk_isempty, flag_test. rewrite flag_word_spec by done. cbn [obind]. change 2 with (2 ^ 1).
  rewrite land_bit, fbit_shift by lia. unfold state. by destruct (fbit f i 1), (fbit f i 0).
Qed.
Lemma isdel_spec : state f i <> BEmpty -> __hsk_isdel f i = Ret (bool_decide (state f i = BDeleted)).
Proof.
  unfold __hsk_isdel, flag_test. rewrite flag_word_spec by done. cbn [obind]. change 1 with (2 ^ 0) at 1.
  rewrite land_bit, fbit_shift by lia. unfold state. by destruct (fbit f i 1), (fbit f i 0).
Qed.
Lemma isdel_total : exists b, __hsk_isdel f i = Ret b.
Proof. unfold __hsk_isdel, flag_test. rewrite flag_word_spec by done. by eexists. Qed.
Lemma iseither_spec : __hsk_iseither f i = Ret (negb (bool_decide (state f i = BLive))).
Proof.
  unfold __hsk_iseither, flag_test. rewrite flag_word_spec by done. cbn [obind].
  rewrite land_3, !fbit_shift by lia. unfold state. by destruct (fbit f i 1), (fbit f i 0).
Qed.
Lemma fbit_update w j b : 0 <= j -> 0 <= b <= 1 ->
  fbit (<[Z.to_nat (i / 16) := u32 w]> f) j b =
  if i / 16 =? j / 16 then Z.testbit w (2 * (j mod 16) + b) else fbit f j b.
Proof.
  intros Hj Hb. destruct Hf as [Hi Hl]. unfold fbit. destruct (Z.eqb_spec (i / 16) (j / 16)) as [<-|Hn].
  - rewrite list_lookup_insert_eq by by apply flagged_lt. cbn [default]. apply Z.mod_pow2_bits_low. dlia.
  - assert (H1 := Z.div_pos i 16 Hi ltac:(lia)). assert (H2 := Z.div_pos j 16 Hj ltac:(lia)).
    rewrite list_lookup_insert_ne by lia. done.
Qed.
(** An update that sends the two bits of bucket [i] through [op] and keeps the others. *)
Lemma flag_update_spec op (g : Z -> bool -> bool) :
  (forall w j b, 0 <= j < 16 -> 0 <= b <= 1 ->
    Z.testbit (op w) (2 * j + b) = if j =? i mod 16 then g b (Z.testbit w (2 * j + b)) else Z.testbit w (2 * j + b)) ->
  exists f', flag_update f i op = Ret f' /\ length f' = length f /\
    forall j b, 0 <= j -> 0 <= b <= 1 -> fbit f' j b = if j =? i then g b (fbit f i b) else fbit f j b.
Proof.
  intros Hop. destruct Hf as [Hi Hl]. eexists. unfold flag_update. rewrite flag_word_spec by done. cbn [obind].
  rewrite Z.shiftr_div_pow2 by lia. change (2 ^ 4) with 16. split; [done|].
  split; [apply length_insert|]. intros j b Hj Hb. rewrite fbit_update by done.
  destruct (Z.eqb_spec (i / 16) (j / 16)) as [E|E].
  - rewrite Hop by dlia. destruct (Z.eqb_spec (j mod 16) (i mod 16)), (Z.eqb_spec j i); try dlia.
    + subst. done.
    + unfold fbit. by rewrite E.
  - destruct (Z.eqb_spec j i) as [->|]; [lia|done].
Qed.
Definition clears (m : Z) (b : Z) (x : bool) : bool := x && negb (Z.testbit m b).
Lemma clear_bits m w j b : 0 <= m < 4 -> 0 <= j < 16 -> 0 <= b <= 1 ->
  Z.testbit (Z.land w (Z.lnot (Z.shiftl m (flag_shift i)))) (2 * j + b) =
  if j =? i mod 16 then clears m b (Z.testbit w (2 * j + b)) else Z.testbit w (2 * j + b).
Proof.
  intros Hm Hj Hb. destruct Hf as [Hi _]. rewrite flag_shift_spec, Z.land_spec, Z.lnot_spec, Z.shiftl_spec by lia.
  unfold clears. destruct (Z.eqb_spec j (i mod 16)) as [->|Hn]; [do 3 f_equal; lia|].
  destruct (Z.lt_ge_cases (2 * j + b) (2 * (i mod 16))); [rewrite (Z.testbit_neg_r m) by lia; apply andb_true_r|].
  rewrite <-(Z.mod_small m (2 ^ 2)) by lia. rewrite Z.mod_pow2_bits_high by lia. apply andb_true_r.
Qed.
End Flags.

(** The three updates, and the fresh array. *)
Lemma state_ext f f' i : 0 <= i -> (forall b, 0 <= b <= 1 -> fbit f' i b = fbit f i b) -> state f' i = state f i.
Proof. intros Hi H. unfold state. by rewrite !H by lia. Qed.
Lemma clear_spec m f i : flagged f i -> 0 <= m < 4 ->
  exists f', flag_update f i (fun w => Z.land w (Z.lnot (Z.shiftl m (flag_shift i)))) = Ret f' /\
    length f' = length f /\ (forall j, 0 <= j -> j <> i -> state f' j = state f j) /\
    forall b, 0 <= b <= 1 -> fbit f' i b = clears m b (fbit f i b).
Proof.
  intros Hf Hm. destruct (flag_update_spec f i Hf (fun w => Z.land w (Z.lnot (Z.shiftl m (flag_shift i)))) (clears m)) as (f' & E & Hl & Hb).
  { intros w j b Hj Hb. by apply (clear_bits f). }
  exists f'. split; [exact E|]. split; [done|]. split.
  - intros j Hj Hn. apply state_ext; [done|]. intros b Hb'. rewrite Hb by done.
    by rewrite (proj2 (Z.eqb_neq j i)) by done.
  - intros b Hb'. destruct Hf. rewrite Hb by lia. by rewrite Z.eqb_refl.
Qed.
Lemma set_isboth_false_spec f i : flagged f i ->
  exists f', __hsk_set_isboth_false f i = Ret f' /\ length f' = length f /\ state f' i = BLive /\
    forall j, 0 <= j -> j <> i -> state f' j = state f j.
Proof.
  intros Hf. destruct (clear_spec 3 f i Hf ltac:(lia)) as (f' & E & Hl & Ho & Hb).
  exists f'. split_and!; try done. unfold state. rewrite !Hb by lia. unfold clears. cbn. by rewrite !andb_false_r.
Qed.
(** No bucket of a table being filled is marked as deleted. *)
Definition no_deleted (f : list Z) : Prop := forall i, 0 <= i -> fbit f i 0 = false.
Lemma set_isempty_false_spec f i : flagged f i -> no_deleted f ->
  exists f', __hsk_set_isempty_false f i = Ret f' /\ length f' = length f /\ state f' i = BLive /\
    (forall j, 0 <= j -> j <> i -> state f' j = state f j) /\ no_deleted f'.
Proof.
  intros Hf Hn. destruct (flag_update_spec f i Hf (fun w => Z.land w (Z.lnot (Z.shiftl 2 (flag_shift i)))) (clears 2))
    as (f' & E & Hl & Hb).
  { intros w j b Hj Hb. by apply (clear_bits f). }
  assert (Hi : 0 <= i) by apply Hf. exists f'. split_and!; try done.
  - unfold state. rewrite !Hb by lia. rewrite Z.eqb_refl, (Hn i Hi). unfold clears. cbn. by rewrite andb_false_r.
  - intros j Hj Hne. apply state_ext; [done|]. intros b Hb'. rewrite Hb by done.
    by rewrite (proj2 (Z.eqb_neq j i)) by done.
  - intros j Hj. rewrite Hb by lia. rewrite !Hn by done. by destruct (j =? i).
Qed.
Lemma set_isdel_true_spec f i : flagged f i -> state f i <> BEmpty ->
  exists f', __hsk_set_isdel_true f i = Ret f' /\ length f' = length f /\ state f' i = BDeleted /\
    forall j, 0 <= j -> j <> i -> state f' j = state f j.
Proof.
  intros Hf He. destruct (flag_update_spec f i Hf (fun w => Z.lor w (Z.shiftl 1 (flag_shift i)))
    (fun b x => x || Z.testbit 1 b)) as (f' & E & Hl & Hb).
  { intros w j b Hj Hb. assert (Hi : 0 <= i) by apply Hf.
    rewrite flag_shift_spec, Z.lor_spec, Z.shiftl_spec by lia.
    destruct (Z.eqb_spec j (i mod 16)) as [->|Hn]; [do 2 f_equal; lia|].
    destruct (Z.lt_ge_cases (2 * j + b) (2 * (i mod 16))); [rewrite (Z.testbit_neg_r 1) by lia; apply orb_false_r|].
    change 1 with (2 ^ 0) at 1. rewrite Z.pow2_bits_false by lia. apply orb_false_r. }
  assert (Hi : 0 <= i) by apply Hf. exists f'. split_and!; try done.
  - unfold state in *. rewrite !Hb, Z.eqb_refl by lia. cbn.
    destruct (fbit f i 1); [done|]. cbn. by rewrite orb_true_r.
  - intros j Hj Hne. apply state_ext; [done|]. intros b Hb'. rewrite Hb by done.
    by rewrite (proj2 (Z.eqb_neq j i)) by done.
Qed.

(** ** Numbers of buckets *)

Definition pow2_size (n : Z) : Prop := exists e, 2 <= e <= 31 /\ n = 2 ^ e.
Lemma pow2_size_range n : pow2_size n -> 4 <= n <= 2 ^ 31.
Proof.
  intros (e & He & ->). split; [change 4 with (2 ^ 2)|]; apply Z.pow_le_mono_r; lia.
Qed.
Lemma pow2_size_cases n : pow2_size n -> In n (List.map (fun e => 2 ^ Z.of_nat e) (seq 2 30)).
Proof.
  intros (e & He & ->). apply in_map_iff. exists (Z.to_nat e). split; [by rewrite Z2Nat.id by lia|].
  apply in_seq. lia.
Qed.
(** A check on every size decides a property of all of them. *)
Lemma pow2_size_forallb (P : Z -> bool) n :
  forallb P (List.map (fun e => 2 ^ Z.of_nat e) (seq 2 30)) = true -> pow2_size n -> P n = true.
Proof. intros H Hn. rewrite forallb_forall in H. by apply H, pow2_size_cases. Qed.

Lemma fresh_flagged n i : pow2_size n -> 0 <= i < n -> flagged (fresh_flags n) i.
Proof.
  intros Hn Hi. split; [lia|]. unfold fresh_flags. rewrite length_replicate. unfold __hsk_fsize.
  destruct (Z.ltb_spec n 16); [dlia|]. rewrite Z.shiftr_div_pow2 by done. change (2 ^ 4) with 16.
  destruct Hn as (e & He & ->). assert (Hp : 2 ^ e = 16 * 2 ^ (e - 4)).
  { destruct (Z.lt_ge_cases e 4) as [Hlt|Hge].
    - assert (2 ^ e <= 2 ^ 3) by (apply Z.pow_le_mono_r; lia). lia.
    - change 16 with (2 ^ 4). rewrite <-Z.pow_add_r by lia. f_equal. lia. }
  rewrite Hp in *. set (q := 2 ^ (e - 4)) in *. dlia.
Qed.
Lemma fresh_bits n i b : 0 <= i -> 0 <= b <= 1 -> flagged (fresh_flags n) i -> fbit (fresh_flags n) i b = (b =? 1).
Proof.
  intros Hi Hb Hf. unfold fbit. assert (Hl := flagged_lt _ _ Hf). unfold fresh_flags in *.
  rewrite length_replicate in Hl. rewrite lookup_replicate_2 by done. cbn [default].
  assert (Hm : 0 <= i mod 16 < 16) by dlia. revert Hm. generalize (i mod 16). intros k Hk.
  assert (H : forallb (fun k => negb (Z.testbit 0xaaaaaaaa (2 * Z.of_nat k + 0)) && Z.testbit 0xaaaaaaaa (2 * Z.of_nat k + 1))
    (seq 0 16) = true) by reflexivity.
  rewrite forallb_forall in H. specialize (H (Z.to_nat k)). rewrite !Z2Nat.id in H by lia.
  assert (Hin : In (Z.to_nat k) (seq 0 16)) by (apply in_seq; lia).
  apply H, andb_true_iff in Hin as [H0 H1]. apply negb_true_iff in H0.
  destruct (Z.eqb_spec b 1) as [->|]; [done|]. by replace b with 0 by lia.
Qed.

(** * The probe sequence *)

Definition tri (s : Z) : Z := s * (s + 1) / 2.
Lemma tri_double s : 2 * tri s = s * (s + 1).
Proof.
  unfold tri. assert (H : (s * (s + 1)) mod 2 = 0).
  { rewrite Z.mul_mod, Z.add_mod by lia. assert (s mod 2 = 0 \/ s mod 2 = 1) as [-> | ->] by dlia; reflexivity. }
  assert (Hd := Z.div_mod (s * (s + 1)) 2 ltac:(lia)). lia.
Qed.
Lemma tri_S s : tri (s + 1) = tri s + (s + 1).
Proof. assert (H1 := tri_double s). assert (H2 := tri_double (s + 1)). nia. Qed.

(** Bucket number [s] on the way of a key with hash [h] through [n] buckets. *)
Definition pos (n h s : Z) : Z := (h + tri s) mod n.

Section Probe.
Context (n : Z) (Hn : pow2_size n).

Lemma pos_range h s : 0 <= pos n h s < n.
Proof. apply Z.mod_pos_bound. destruct (pow2_size_range n Hn). lia. Qed.
Lemma mask_small x : Z.land x (u32 (n - 1)) = x mod n.
Proof.
  destruct (pow2_size_range n Hn). rewrite u32_small by lia. destruct Hn as (e & He & ->).
  apply land_ones_mod. lia.
Qed.
Lemma mask_u32 x : Z.land (u32 x) (u32 (n - 1)) = x mod n.
Proof.
  rewrite mask_small. unfold u32. destruct Hn as (e & He & ->).
  replace (2 ^ 32) with (2 ^ e * 2 ^ (32 - e)) by (rewrite <-Z.pow_add_r by lia; f_equal; lia).
  rewrite Z.rem_mul_r by lia. rewrite Z.mul_comm, Z_mod_plus_full. apply Z.mod_mod. lia.
Qed.
Lemma pos_0 h : Z.land h (u32 (n - 1)) = pos n h 0.
Proof. rewrite mask_small. unfold pos. f_equal. change (tri 0) with 0. lia. Qed.
Lemma pos_S h s : 0 <= s < 2 ^ 32 - 1 -> Z.land (u32 (pos n h s + u32 (s + 1))) (u32 (n - 1)) = pos n h (s + 1).
Proof.
  intros Hs. destruct (pow2_size_range n Hn). rewrite mask_u32, (u32_small (s + 1)) by lia. unfold pos.
  rewrite tri_S, Zplus_mod_idemp_l. f_equal. lia.
Qed.
End Probe.

Lemma pow2_odd_divide (e : nat) x y : x mod 2 = 1 -> (2 ^ Z.of_nat e | x * y) -> (2 ^ Z.of_nat e | y).
Proof.
  intros Hx. revert y; induction e as [|e IH]; intros y [q Hq]; [by apply Z.divide_1_l|].
  rewrite Nat2Z.inj_succ, Z.pow_succ_r in * by lia.
  assert (Hy : y = 2 * (y / 2)).
  { assert (H : y mod 2 = 0); [|dlia]. assert (Hm : (x * y) mod 2 = 0).
    { rewrite Hq. replace (q * (2 * 2 ^ Z.of_nat e)) with (q * 2 ^ Z.of_nat e * 2) by lia. apply Z.mod_mul. lia. }
    rewrite Z.mul_mod, Hx, Z.mul_1_l, Z.mod_mod in Hm by lia. done. }
  rewrite Hy. apply Z.mul_divide_mono_l, IH. exists q. nia.
Qed.
(** The first [n] triangular numbers are different modulo [n], so the first [n]
    probes meet every bucket. *)
Lemma tri_inj n s t : pow2_size n -> 0 <= s < t -> s + t + 1 < 2 * n -> tri s mod n <> tri t mod n.
Proof.
  intros (e & He & ->) Hst Hlt E.
  assert (Hd : (2 ^ e | tri t - tri s)).
  { apply Z.mod_divide; [lia|]. rewrite Zminus_mod, E, Z.sub_diag. apply Z.mod_0_l. lia. }
  assert (H2 : (2 ^ (e + 1) | (t - s) * (t + s + 1))).
  { destruct Hd as [q Hq]. exists q. rewrite Z.pow_add_r by lia.
    assert (H1 := tri_double s). assert (H3 := tri_double t). nia. }
  replace (e + 1) with (Z.of_nat (Z.to_nat (e + 1))) in H2 by lia.
  assert (Hp : 2 ^ Z.of_nat (Z.to_nat (e + 1)) = 2 * 2 ^ e).
  { rewrite Z2Nat.id, Z.pow_add_r by lia. lia. }
  assert ((t - s) mod 2 = 1 \/ (t + s + 1) mod 2 = 1) as [Ho|Ho] by dlia.
  - apply pow2_odd_divide in H2; [|done]. apply Z.divide_pos_le in H2; lia.
  - rewrite Z.mul_comm in H2. apply pow2_odd_divide in H2; [|done]. apply Z.divide_pos_le in H2; lia.
Qed.
Lemma pos_inj n h s t : pow2_size n -> 0 <= s < n -> 0 <= t < n -> pos n h s = pos n h t -> s = t.
Proof.
  intros Hn Hs Ht. unfold pos. destruct (pow2_size_range n Hn) as [Hn4 _].
  assert (H : forall s t, 0 <= s < t -> t < n -> (h + tri s) mod n <> (h + tri t) mod n).
  { intros a b Hab Hb E. apply (tri_inj n a b Hn Hab); [lia|].
    assert (Hz : ((h + tri b) - (h + tri a)) mod n = 0) by (rewrite Zminus_mod, E, Z.sub_diag; apply Z.mod_0_l; lia).
    replace (h + tri b - (h + tri a)) with (tri b - tri a) in Hz by lia.
    apply Z.mod_divide in Hz as [q Hq]; [|lia]. replace (tri b) with (tri a + q * n) by lia. symmetry. apply Z_mod_plus_full. }
  intros E. destruct (Z.lt_total s t) as [Hlt|[?|Hlt]]; [|done|]; exfalso.
  - apply (H s t); [lia..|done].
  - apply (H t s); [lia..|done].
Qed.
Lemma pos_cover n h j : pow2_size n -> 0 <= j < n -> exists s, 0 <= s < n /\ pos n h s = j.
Proof.
  intros Hn Hj. set (L := List.map (fun s => Z.to_nat (pos n h (Z.of_nat s))) (seq 0 (Z.to_nat n))).
  assert (Hd : List.NoDup L).
  { apply NoDup_ListNoDup. unfold L. apply NoDup_fmap_2_strong; [|apply NoDup_seq].
    intros x y [_ Hx]%elem_of_seq [_ Hy]%elem_of_seq E.
    assert (Rx := pos_range n Hn h (Z.of_nat x)). assert (Ry := pos_range n Hn h (Z.of_nat y)).
    apply Nat2Z.inj, (pos_inj n h); [done|lia..]. }
  assert (Hi : incl (seq 0 (Z.to_nat n)) L).
  { apply NoDup_length_incl; [done|unfold L; by rewrite length_map|].
    intros x (s & <- & _)%in_map_iff. apply in_seq. assert (R := pos_range n Hn h (Z.of_nat s)). lia. }
  assert (Hjn : In (Z.to_nat j) L) by (apply Hi, in_seq; lia).
  apply in_map_iff in Hjn as (s & E & [_ Hs]%in_seq). exists (Z.of_nat s).
  assert (R := pos_range n Hn h (Z.of_nat s)). split; lia.
Qed.
