(* ===== verification/MapInv.v ===== *)
(** The invariant of the hash table and the finite map it stands for; lookup and
    insertion without resizing. *)

From S2P Require Import Prelude Map MapSpec.

(** * Counting buckets *)

Fixpoint cnt (p : Z -> bool) (n : nat) : Z :=
  match n with
  | O => 0
  | S n' => cnt p n' + Z.b2z (p (Z.of_nat n'))
  end.
Lemma cnt_bound p n : 0 <= cnt p n <= Z.of_nat n.
Proof. induction n as [|n IH]; [done|]. cbn [cnt]. destruct (p (Z.of_nat n)); cbn [Z.b2z]; lia. Qed.
Lemma cnt_ext p q n : (forall i, 0 <= i < Z.of_nat n -> p i = q i) -> cnt p n = cnt q n.
Proof.
  induction n as [|n IH]; intros H; [done|]. cbn [cnt]. rewrite IH, H by (intros; try apply H; lia). done.
Qed.
Lemma cnt_flip p q i n : 0 <= i < Z.of_nat n -> p i = false -> q i = true ->
  (forall j, 0 <= j < Z.of_nat n -> j <> i -> p j = q j) -> cnt q n = cnt p n + 1.
Proof.
  induction n as [|n IH]; intros Hi Hp Hq H; [lia|]. cbn [cnt].
  destruct (decide (i = Z.of_nat n)) as [->|Hne].
  - rewrite Hp, Hq, (cnt_ext p q) by (intros; apply H; lia). cbn. lia.
  - rewrite IH, (H (Z.of_nat n)) by (try done; try lia; intros; apply H; lia). lia.
Qed.
Lemma cnt_gap p n : cnt p n < Z.of_nat n -> exists i, 0 <= i < Z.of_nat n /\ p i = false.
Proof.
  induction n as [|n IH]; cbn [cnt]; intros H; [lia|]. destruct (p (Z.of_nat n)) eqn:E.
  - destruct IH as (i & Hi & Hp); [cbn in H; lia|]. exists i. split; [lia|done].
  - exists (Z.of_nat n). split; [lia|done].
Qed.
Lemma cnt_none p n : (forall i, 0 <= i < Z.of_nat n -> p i = false) -> cnt p n = 0.
Proof.
  induction n as [|n IH]; intros H; [done|]. cbn [cnt]. rewrite IH, H by (intros; try apply H; lia). done.
Qed.
Lemma cnt_some p n i : 0 <= i < Z.of_nat n -> p i = true -> 0 < cnt p n.
Proof.
  intros Hi Hp. induction n as [|n IH]; [lia|]. cbn [cnt]. assert (Hb := cnt_bound p n).
  destruct (decide (i = Z.of_nat n)) as [->|]; [rewrite Hp; cbn; lia|].
  assert (0 < cnt p n) by (apply IH; lia). destruct (p (Z.of_nat n)); cbn; lia.
Qed.

(** * The laws of the key functions

    Keys are compared by a part of them, [key_norm]; the hash depends on that part. *)
Class MapKey (K N : Type) `{MapFuncs K} := {
  key_norm : K -> N;
  key_ok : K -> Prop;
  equal_norm a b : key_ok a -> key_ok b -> equal_func a b = true <-> key_norm a = key_norm b;
  hash_norm a b : key_ok a -> key_ok b -> key_norm a = key_norm b -> hash_func a = hash_func b;
}.

Definition live (f : list Z) (n i : Z) : Prop := 0 <= i < n /\ state f i = BLive.
Definition is_live (f : list Z) (i : Z) : bool := bool_decide (state f i = BLive).
Definition in_use (f : list Z) (i : Z) : bool := negb (bool_decide (state f i = BEmpty)).
(** Bucket [i] is met from hash [h] before any empty one. *)
Definition reached (f : list Z) (n h i : Z) : Prop :=
  exists s, 0 <= s < n /\ pos n h s = i /\ forall t, 0 <= t < s -> state f (pos n h t) <> BEmpty.

Section Inv.
Context {K V N : Type} `{MapKey K N} `{Countable N}.
Implicit Types (map : hsk_map_t K V) (M : gmap N V).

(** The key in bucket [i]. *)
Definition keyed (ks : list (option K)) (i : Z) (k : K) : Prop := ks !! Z.to_nat i = Some (Some k).
Definition valued (vs : list (option V)) (i : Z) (v : V) : Prop := vs !! Z.to_nat i = Some (Some v).
Record arrays_wf (f : list Z) (ks : list (option K)) (n : Z) : Prop := {
  aw_pow2 : pow2_size n;
  aw_flags i : 0 <= i < n -> flagged f i;
  aw_keys : n <= Z.of_nat (length ks);
  aw_live i : live f n i -> exists k, keyed ks i k /\ key_ok k /\ reached f n (hash_func k) i;
  aw_unique i j k l : live f n i -> live f n j -> keyed ks i k -> keyed ks j l -> key_norm k = key_norm l -> i = j;
}.
Record table_wf map : Prop := {
  tw_arrays : arrays_wf (flags map) (keys map) (n_buckets map);
  tw_vals : n_buckets map <= Z.of_nat (length (vals map));
  tw_size : size map = cnt (is_live (flags map)) (Z.to_nat (n_buckets map));
  tw_used : n_occupied map = cnt (in_use (flags map)) (Z.to_nat (n_buckets map));
  tw_upper : upper_bound map = hash_upper (n_buckets map);
  tw_room : n_occupied map <= upper_bound map;
}.
(** A table before its first allocation that succeeds. *)
Definition table_empty map : Prop :=
  n_buckets map = 0 /\ size map = 0 /\ n_occupied map = 0 /\ upper_bound map = 0 /\ flags map = [].
Definition holds map (k : K) (v : V) : Prop :=
  exists i, live (flags map) (n_buckets map) i /\ keyed (keys map) i k /\ valued (vals map) i v.
(** The table is a table of values that stands for the finite map [M]. *)
Record repr map M : Prop := {
  rp_map : is_map map = true;
  rp_wf : table_empty map \/ table_wf map;
  rp_full i : live (flags map) (n_buckets map) i -> exists v, valued (vals map) i v;
  rp_iff a v : M !! a = Some v <-> exists k, key_norm k = a /\ holds map k v;
}.

Lemma hash_upper_lt n : pow2_size n -> hash_upper n < n.
Proof. intros Hn. apply Z.ltb_lt. by apply (pow2_size_forallb (fun n => hash_upper n <? n)). Qed.
Lemma live_used f i : is_live f i = true -> in_use f i = true.
Proof. unfold is_live, in_use. intros ->%bool_decide_eq_true. done. Qed.
Lemma cnt_live_used f n : cnt (is_live f) n <= cnt (in_use f) n.
Proof.
  induction n as [|n IH]; [done|]. cbn [cnt]. assert (Hl := live_used f (Z.of_nat n)).
  destruct (is_live f (Z.of_nat n)); [rewrite Hl by done|]; destruct (in_use f (Z.of_nat n)); cbn; lia.
Qed.

(** ** Probing *)

Lemma first_of (P : Z -> bool) (m : nat) :
  (forall t, 0 <= t < Z.of_nat m -> P t = false) \/
  exists s, 0 <= s < Z.of_nat m /\ P s = true /\ forall t, 0 <= t < s -> P t = false.
Proof.
  induction m as [|m [IH|(s & Hs & Hp & Hb)]]; [left; lia| |right; exists s; split; [lia|done]].
  destruct (P (Z.of_nat m)) eqn:E.
  - right. exists (Z.of_nat m). split; [lia|]. split; [done|]. intros t Ht. apply IH. lia.
  - left. intros t Ht. destruct (decide (t = Z.of_nat m)) as [->|]; [done|]. apply IH. lia.
Qed.
Lemma first_stop (P : Z -> bool) m s : 0 <= s < m -> P s = true ->
  exists s', 0 <= s' <= s /\ P s' = true /\ forall t, 0 <= t < s' -> P t = false.
Proof.
  intros Hs Hp. destruct (first_of P (Z.to_nat m)) as [Hn|(s' & Hs' & Hp' & Hb)].
  - rewrite Hn in Hp by lia. done.
  - exists s'. split_and!; try done; try lia. destruct (Z.le_gt_cases s' s); [done|]. by rewrite Hb in Hp by lia.
Qed.

(** Where the probing loops stop. *)
Definition stops (f : list Z) (ks : list (option K)) (key : K) (i : Z) : bool :=
  match state f i with
  | BEmpty => true
  | BDeleted => false
  | BLive => match ks !! Z.to_nat i with Some (Some k) => equal_func k key | _ => false end
  end.
Section Probing.
Context (map : hsk_map_t K V) (Hwf : arrays_wf (flags map) (keys map) (n_buckets map)).
Abbreviation n := (n_buckets map).
Abbreviation f := (flags map).

Lemma probe_stops_spec key i : 0 <= i < n -> probe_stops map key i = Ret (stops f (keys map) key i).
Proof.
  intros Hi. assert (Hf := aw_flags _ _ _ Hwf i Hi). unfold probe_stops, stops.
  rewrite isempty_spec by done. cbn [obind]. destruct (state f i) eqn:E; cbn [bool_decide]; try done.
  - rewrite isdel_spec by (done || by rewrite E). by rewrite E.
  - rewrite isdel_spec by (done || by rewrite E). rewrite E. cbn [obind].
    destruct (aw_live _ _ _ Hwf i) as (k & Hk & _); [done|]. unfold key_at. by rewrite Hk.
Qed.
(** The first bucket on the way of [key] where the loops stop: empty when no live
    bucket has the key, else the one that has it. *)
Lemma stop_exists key : cnt (in_use f) (Z.to_nat n) < n -> key_ok key ->
  exists s, 0 <= s < n /\
    (forall t, 0 <= t < s -> stops f (keys map) key (pos n (hash_func key) t) = false) /\
    ((state f (pos n (hash_func key) s) = BEmpty /\
        forall i k, live f n i -> keyed (keys map) i k -> key_norm k <> key_norm key) \/
     (live f n (pos n (hash_func key) s) /\
        exists k, keyed (keys map) (pos n (hash_func key) s) k /\ key_ok k /\ key_norm k = key_norm key)).
Proof.
  intros Hc Hok. assert (Hp2 := aw_pow2 _ _ _ Hwf). destruct (pow2_size_range n Hp2) as [Hn4 _].
  destruct (cnt_gap (in_use f) (Z.to_nat n)) as (j & Hj & He); [lia|]. rewrite Z2Nat.id in Hj by lia.
  apply negb_false_iff, bool_decide_eq_true in He.
  destruct (pos_cover n (hash_func key) j Hp2 Hj) as (s0 & Hs0 & Ep).
  destruct (first_stop (fun t => stops f (keys map) key (pos n (hash_func key) t)) n s0) as (s & Hs & Hst & Hb).
  { done. } { unfold stops. by rewrite Ep, He. }
  exists s. split; [lia|]. split; [exact Hb|]. unfold stops in Hst.
  assert (Hr := pos_range n Hp2 (hash_func key) s).
  destruct (state f (pos n (hash_func key) s)) eqn:E; [left|done|right].
  - split; [done|]. intros i k Hl Hk Ek. destruct (aw_live _ _ _ Hwf i Hl) as (k' & Hk' & Hok' & t & Ht & Et & Ho).
    unfold keyed in Hk, Hk'. rewrite Hk in Hk'. injection Hk' as <-.
    rewrite (hash_norm k key) in Et, Ho by done.
    destruct (Z.lt_total t s) as [Hlt|[->|Hgt]].
    + assert (Hs' := Hb t ltac:(lia)). unfold stops in Hs'. rewrite Et, (proj2 Hl), Hk in Hs'.
      by rewrite (proj2 (equal_norm k key Hok' Hok)) in Hs'.
    + rewrite Et, (proj2 Hl) in E. done.
    + by apply (Ho s); [lia|].
  - split; [done|]. destruct (aw_live _ _ _ Hwf (pos n (hash_func key) s)) as (k & Hk & Hok' & _); [done|].
    exists k. rewrite Hk in Hst. split_and!; try done. by apply equal_norm.
Qed.
Lemma lookup_loop_spec key s d t fuel : 0 <= t -> s = t + Z.of_nat d -> s < n -> (d < fuel)%nat ->
  (forall t, 0 <= t < s -> stops f (keys map) key (pos n (hash_func key) t) = false) ->
  stops f (keys map) key (pos n (hash_func key) s) = true ->
  lookup_loop fuel map key (u32 (n - 1)) (pos n (hash_func key) 0) (pos n (hash_func key) t) t =
  Ret (if is_live f (pos n (hash_func key) s) then pos n (hash_func key) s else n).
Proof.
  assert (Hp2 := aw_pow2 _ _ _ Hwf). destruct (pow2_size_range n Hp2) as [Hn4 Hn31].
  revert d t; induction fuel as [|fuel IH]; intros d t Ht Es Hs Hf Hb Hst; [lia|]. cbn [lookup_loop].
  assert (Hr := pos_range n Hp2 (hash_func key) t). rewrite probe_stops_spec by done. cbn [obind].
  destruct d as [|d].
  - replace t with s by lia. rewrite Hst. rewrite iseither_spec by (apply (aw_flags _ _ _ Hwf), pos_range, Hp2).
    cbn [obind]. unfold is_live. by destruct (bool_decide _).
  - rewrite Hb by lia. cbv zeta. rewrite pos_S by (done || lia). rewrite (u32_small (t + 1)) by lia.
    destruct (Z.eqb_spec (pos n (hash_func key) (t + 1)) (pos n (hash_func key) 0)) as [E|_].
    + apply pos_inj in E; [lia|done|lia|lia].
    + apply (IH d); try done; lia.
Qed.
End Probing.

Lemma lookup_spec map key : table_wf map -> key_ok key ->
  (exists i k, live (flags map) (n_buckets map) i /\ keyed (keys map) i k /\ key_ok k /\
     key_norm k = key_norm key /\ hsk_map_lookup map key = Ret i) \/
  ((forall i k, live (flags map) (n_buckets map) i -> keyed (keys map) i k -> key_norm k <> key_norm key) /\
     hsk_map_lookup map key = Ret (n_buckets map)).
Proof.
  intros [Ha Hv Hs Hu Hup Hr] Hok. assert (Hp2 := aw_pow2 _ _ _ Ha). destruct (pow2_size_range _ Hp2) as [Hn4 Hn31].
  assert (Hlt := hash_upper_lt _ Hp2).
  destruct (stop_exists map Ha key) as (s & Hsr & Hb & Hc); [lia|done|].
  assert (Hst : stops (flags map) (keys map) key (pos (n_buckets map) (hash_func key) s) = true).
  { unfold stops. destruct Hc as [[-> _]|[[_ ->] (k & Hk & Hok' & Ek)]]; [done|]. rewrite Hk. by apply equal_norm. }
  assert (El : hsk_map_lookup map key = Ret (if is_live (flags map) (pos (n_buckets map) (hash_func key) s)
    then pos (n_buckets map) (hash_func key) s else n_buckets map)).
  { unfold hsk_map_lookup. destruct (Z.eqb_spec (n_buckets map) 0); [lia|]. cbv zeta. rewrite pos_0 by done.
    unfold probe_fuel. apply (lookup_loop_spec map Ha key s (Z.to_nat s)); try done; lia. }
  unfold is_live in El. destruct Hc as [[Ee Hn]|[Hl (k & Hk & Hok' & Ek)]].
  - right. split; [done|]. by rewrite El, Ee.
  - left. exists (pos (n_buckets map) (hash_func key) s), k. destruct Hl as [Hl1 Hl2]. rewrite El, Hl2. by split_and!.
Qed.

(** ** Changing one bucket *)

Lemma flagged_length f f' i : length f' = length f -> flagged f i -> flagged f' i.
Proof. intros E [Hge Hlt]. split; [done|by rewrite E]. Qed.
Lemma reached_mono f f' n h i : pow2_size n ->
  (forall j, 0 <= j < n -> state f' j = BEmpty -> state f j = BEmpty) -> reached f n h i -> reached f' n h i.
Proof.
  intros Hn Hm (s & Hs & E & Hb). exists s. split_and!; try done; try lia. intros t Ht He.
  by apply (Hb t Ht), Hm; [apply pos_range|].
Qed.
Lemma keyed_insert ks x i (key k : K) : 0 <= x -> 0 <= i -> keyed (<[Z.to_nat x := Some key]> ks) i k ->
  (i = x /\ k = key) \/ (i <> x /\ keyed ks i k).
Proof.
  unfold keyed. intros Hx Hi. destruct (decide (i = x)) as [->|Hne].
  - intros Hl. left. split; [done|]. apply list_lookup_insert_Some in Hl as [(_ & E & _)|[? _]]; [by injection E|done].
  - rewrite list_lookup_insert_ne by lia. by right.
Qed.
Lemma keyed_insert_ne ks x i (o : option K) (k : K) : 0 <= x -> 0 <= i -> i <> x ->
  keyed (<[Z.to_nat x := o]> ks) i k <-> keyed ks i k.
Proof. intros Hx Hi Hne. unfold keyed. by rewrite list_lookup_insert_ne by lia. Qed.

Lemma arrays_put f ks n x key f' : arrays_wf f ks n -> key_ok key -> 0 <= x < n ->
  reached f n (hash_func key) x ->
  (forall i k, live f n i -> keyed ks i k -> key_norm k = key_norm key -> i = x) ->
  length f' = length f -> state f' x = BLive -> (forall j, 0 <= j -> j <> x -> state f' j = state f j) ->
  arrays_wf f' (<[Z.to_nat x := Some key]> ks) n.
Proof.
  intros [Hp Hf Hk Hl Hu] Hok Hx Hr Hd El Ex Eo.
  assert (Hlive : forall i, live f' n i -> i <> x -> live f n i).
  { intros i [Hi Es] Hne. split; [done|]. by rewrite <-(Eo i) by (lia || done). }
  assert (Hm : forall j, 0 <= j < n -> state f' j = BEmpty -> state f j = BEmpty).
  { intros j Hj Es. destruct (decide (j = x)) as [->|]; [by rewrite Ex in Es|]. by rewrite <-Eo by (lia || done). }
  assert (Hxk : keyed (<[Z.to_nat x := Some key]> ks) x key).
  { unfold keyed. apply list_lookup_insert_eq. lia. }
  split; [done|..].
  - intros i Hi. by eapply flagged_length, Hf.
  - by rewrite length_insert.
  - intros i Hi. destruct (decide (i = x)) as [->|Hne].
    + exists key. split_and!; try done. by eapply reached_mono.
    + destruct (Hl i (Hlive i Hi Hne)) as (k & Hki & Hko & Hri). exists k.
      destruct Hi. rewrite keyed_insert_ne by lia. split_and!; try done. by eapply reached_mono.
  - intros i j k l Hi Hj Hki Hkj E. assert (Hi' := proj1 Hi). assert (Hj' := proj1 Hj).
    apply keyed_insert in Hki as [[-> ->]|[Hni Hki]]; apply keyed_insert in Hkj as [[-> ->]|[Hnj Hkj]]; try lia.
    + symmetry. eapply Hd; [by apply Hlive|done|done].
    + eapply Hd; [by apply Hlive|done|done].
    + eapply Hu; [by apply Hlive|by apply Hlive|done..].
Qed.
Lemma arrays_delete f ks n x f' : arrays_wf f ks n -> 0 <= x < n -> state f x <> BEmpty ->
  length f' = length f -> state f' x = BDeleted -> (forall j, 0 <= j -> j <> x -> state f' j = state f j) ->
  arrays_wf f' ks n.
Proof.
  intros [Hp Hf Hk Hl Hu] Hx Hne El Ex Eo.
  assert (Hlive : forall i, live f' n i -> live f n i).
  { intros i [Hi Es]. split; [done|]. destruct (decide (i = x)) as [->|]; [by rewrite Ex in Es|].
    by rewrite <-Eo by (lia || done). }
  split; [done| |done| |].
  - intros i Hi. by eapply flagged_length, Hf.
  - intros i Hi. destruct (Hl i (Hlive i Hi)) as (k & Hki & Hko & Hri). exists k. split_and!; try done.
    eapply reached_mono; [done| |done]. intros j Hj Es.
    destruct (decide (j = x)) as [->|]; [by rewrite Ex in Es|]. by rewrite <-Eo by (lia || done).
  - intros i j k l Hi Hj. by apply Hu; apply Hlive.
Qed.

(** ** Insertion *)

Section Put.
Context (map : hsk_map_t K V) (Hwf : arrays_wf (flags map) (keys map) (n_buckets map)) (key : K).
Abbreviation n := (n_buckets map).
Abbreviation f := (flags map).
Abbreviation p := (pos (n_buckets map) (hash_func key)).

Lemma put_loop_spec s d t fuel site : 0 <= t -> s = t + Z.of_nat d -> s < n -> (d < fuel)%nat ->
  (forall t, 0 <= t < s -> stops f (keys map) key (p t) = false) ->
  stops f (keys map) key (p s) = true ->
  (site = n \/ exists t', 0 <= t' < t /\ site = p t' /\ state f site = BDeleted) ->
  exists x, put_loop fuel map key (u32 (n - 1)) (p 0) (p t) t site = Ret x /\
    (x = p s \/ (state f (p s) = BEmpty /\ state f x = BDeleted /\ exists t', 0 <= t' < s /\ x = p t')).
Proof.
  assert (Hp2 := aw_pow2 _ _ _ Hwf). destruct (pow2_size_range n Hp2) as [Hn4 Hn31].
  revert d t site; induction fuel as [|fuel IH]; intros d t site Ht Es Hs Hf Hb Hst Hsite; [lia|]. cbn [put_loop].
  assert (Hr := pos_range n Hp2 (hash_func key) t). rewrite probe_stops_spec by done. cbn [obind].
  assert (Hflag := aw_flags _ _ _ Hwf _ Hr).
  destruct d as [|d].
  - replace t with s in * by lia. rewrite Hst, isempty_spec by done. cbn [obind]. eexists. split; [reflexivity|].
    destruct (decide (state f (p s) = BEmpty)) as [E|E]; [|rewrite bool_decide_eq_false_2 by done; by left].
    rewrite bool_decide_eq_true_2 by done. destruct Hsite as [->|(t' & Ht' & -> & Ed)]; [rewrite Z.eqb_refl; by left|].
    destruct (Z.eqb_spec (p t') n) as [|_]; [by left|]. right. split_and!; try done. exists t'. split; [lia|done].
  - assert (Hns := Hb t ltac:(lia)). rewrite Hns. rewrite isdel_spec; [|done|].
    2: { intros E. unfold stops in Hns. by rewrite E in Hns. }
    cbn [obind]. cbv zeta. rewrite pos_S by (done || lia). rewrite (u32_small (t + 1)) by lia.
    destruct (Z.eqb_spec (p (t + 1)) (p 0)) as [E|_].
    + apply pos_inj in E; [lia|done|lia|lia].
    + apply (IH d); try done; try lia. destruct (decide (state f (p t) = BDeleted)) as [Ed|Ed].
      * rewrite bool_decide_eq_true_2 by done. right. exists t. split; [lia|done].
      * rewrite bool_decide_eq_false_2 by done. destruct Hsite as [->|(t' & Ht' & E')]; [by left|].
        right. exists t'. split; [lia|done].
Qed.
Lemma put_site_spec : cnt (in_use f) (Z.to_nat n) < n -> key_ok key ->
  exists x, put_site map key = Ret x /\ 0 <= x < n /\ reached f n (hash_func key) x /\
    ((state f x = BLive /\ exists k, keyed (keys map) x k /\ key_norm k = key_norm key) \/
     (state f x <> BLive /\ forall i k, live f n i -> keyed (keys map) i k -> key_norm k <> key_norm key)).
Proof.
  intros Hc Hok. assert (Hp2 := aw_pow2 _ _ _ Hwf). destruct (pow2_size_range n Hp2) as [Hn4 Hn31].
  destruct (stop_exists map Hwf key Hc Hok) as (s & Hs & Hb & Hcase).
  assert (Hst : stops f (keys map) key (p s) = true).
  { unfold stops. destruct Hcase as [[-> _]|[[_ ->] (k & Hk & Hok' & Ek)]]; [done|]. rewrite Hk. by apply equal_norm. }
  assert (Hreach : forall t', 0 <= t' <= s -> reached f n (hash_func key) (p t')).
  { intros t' Ht'. exists t'. split; [lia|]. split; [done|]. intros t Ht E. specialize (Hb t ltac:(lia)).
    unfold stops in Hb. by rewrite E in Hb. }
  assert (Hx : exists x, put_site map key = Ret x /\
    (x = p s \/ (state f (p s) = BEmpty /\ state f x = BDeleted /\ exists t', 0 <= t' < s /\ x = p t'))).
  { unfold put_site. cbv zeta. rewrite pos_0 by done.
    assert (Hr := pos_range n Hp2 (hash_func key) 0). rewrite isempty_spec by by apply (aw_flags _ _ _ Hwf).
    cbn [obind]. destruct (decide (state f (p 0) = BEmpty)) as [E|E].
    - rewrite bool_decide_eq_true_2 by done. exists (p 0). split; [done|]. left. f_equal.
      destruct (Z.eq_dec s 0) as [|Hn0]; [lia|]. specialize (Hb 0 ltac:(lia)). unfold stops in Hb. by rewrite E in Hb.
    - rewrite bool_decide_eq_false_2 by done. unfold probe_fuel.
      apply (put_loop_spec s (Z.to_nat s)); try done; lia. }
  destruct Hx as (x & Ex & Hx). exists x. split; [done|].
  destruct Hx as [->|(Es & Ed & t' & Ht' & ->)].
  - split; [by apply pos_range|]. split; [apply Hreach; lia|].
    destruct Hcase as [[Ee Hn]|[Hl (k & Hk & _ & Ek)]]; [right|left].
    + split; [by rewrite Ee|done].
    + split; [apply Hl|by exists k].
  - split; [by apply pos_range|]. split; [apply Hreach; lia|]. right. split; [by rewrite Ed|].
    destruct Hcase as [[_ Hn]|[[_ El] _]]; [done|by rewrite El in Es].
Qed.
End Put.

Lemma reached_key f n k key i : key_ok k -> key_ok key -> key_norm k = key_norm key ->
  reached f n (hash_func k) i -> reached f n (hash_func key) i.
Proof. intros Hk Hok E. by rewrite (hash_norm k key Hk Hok E). Qed.

(** What [put_bucket] promises: bucket [x] has the key, the others are as before, and
    no other bucket had it. *)
Record put_into map map' (key : K) (x : Z) : Prop := {
  pi_size : n_buckets map' = n_buckets map;
  pi_map : is_map map' = is_map map;
  pi_vals : vals map' = vals map;
  pi_x : live (flags map') (n_buckets map) x;
  pi_key : keyed (keys map') x key;
  pi_other i : i <> x -> live (flags map') (n_buckets map) i <-> live (flags map) (n_buckets map) i;
  pi_keys i k : 0 <= i -> i <> x -> keyed (keys map') i k <-> keyed (keys map) i k;
  pi_old i k : live (flags map) (n_buckets map) i -> keyed (keys map) i k -> key_norm k = key_norm key -> i = x;
  pi_over k : live (flags map) (n_buckets map) x -> keyed (keys map) x k -> key_norm k = key_norm key;
  pi_count : size map' <= size map + 1;
}.
Lemma live_other f f' n x i : (forall j, 0 <= j -> j <> x -> state f' j = state f j) -> i <> x ->
  live f' n i <-> live f n i.
Proof. intros Eo Hne. unfold live. split; intros [Hi E]; (split; [done|]); [rewrite <-Eo|rewrite Eo]; by try lia. Qed.
Lemma cnt_live_flip f f' x n : 0 <= x < Z.of_nat n -> state f x <> BLive -> state f' x = BLive ->
  (forall j, 0 <= j -> j <> x -> state f' j = state f j) -> cnt (is_live f') n = cnt (is_live f) n + 1.
Proof.
  intros Hx Hn Hl Eo. apply (cnt_flip _ _ x); try done.
  - by apply bool_decide_eq_false_2.
  - by apply bool_decide_eq_true_2.
  - intros j Hj Hne. unfold is_live. by rewrite Eo by (lia || done).
Qed.
Lemma cnt_used_flip f f' x n : 0 <= x < Z.of_nat n -> state f x = BEmpty -> state f' x <> BEmpty ->
  (forall j, 0 <= j -> j <> x -> state f' j = state f j) -> cnt (in_use f') n = cnt (in_use f) n + 1.
Proof.
  intros Hx Hn Hl Eo. unfold in_use. apply (cnt_flip _ _ x); try done.
  - by rewrite bool_decide_eq_true_2.
  - by rewrite bool_decide_eq_false_2.
  - intros j Hj Hne. by rewrite Eo by (lia || done).
Qed.
Lemma cnt_used_same f f' x n : state f x <> BEmpty -> state f' x <> BEmpty ->
  (forall j, 0 <= j -> j <> x -> state f' j = state f j) -> cnt (in_use f') n = cnt (in_use f) n.
Proof.
  intros Hn Hl Eo. apply cnt_ext. intros j Hj. unfold in_use. destruct (decide (j = x)) as [->|].
  - by rewrite !bool_decide_eq_false_2.
  - by rewrite Eo by (lia || done).
Qed.

Lemma put_bucket_spec map key : table_wf map -> key_ok key -> n_occupied map < upper_bound map ->
  exists x ret map', put_bucket map key = Ret (x, ret, map') /\ 0 <= ret /\
    table_wf map' /\ put_into map map' key x.
Proof.
  intros [Ha Hv Hs Hu Hup Hr] Hok Hroom. assert (Hp2 := aw_pow2 _ _ _ Ha).
  destruct (pow2_size_range _ Hp2) as [Hn4 Hn31]. assert (Hlt := hash_upper_lt _ Hp2).
  destruct (put_site_spec map Ha key) as (x & Ex & Hx & Hreach & Hcase); [lia|done|].
  assert (Hf := aw_flags _ _ _ Ha x Hx). assert (Hkl := aw_keys _ _ _ Ha).
  assert (Hold : forall i k, live (flags map) (n_buckets map) i -> keyed (keys map) i k -> key_norm k = key_norm key -> i = x).
  { intros i k Hl Hk E. destruct Hcase as [[Hlx (k' & Hk' & Ek')]|[_ Hno]]; [|by destruct (Hno i k)].
    by apply (aw_unique _ _ _ Ha i x k k'); [| |..|congruence]. }
  assert (Hover : forall k, live (flags map) (n_buckets map) x -> keyed (keys map) x k -> key_norm k = key_norm key).
  { intros k [_ Hlx] Hk. destruct Hcase as [[_ (k' & Hk' & Ek')]|[Hn _]]; [|done].
    unfold keyed in *. rewrite Hk in Hk'. by injection Hk' as <-. }
  assert (Hcl := cnt_live_used (flags map) (Z.to_nat (n_buckets map))).
  assert (Hb := cnt_bound (is_live (flags map)) (Z.to_nat (n_buckets map))).
  assert (Hxk : keyed (<[Z.to_nat x := Some key]> (keys map)) x key) by (apply list_lookup_insert_eq; lia).
  unfold put_bucket. rewrite Ex. cbn [obind]. rewrite isempty_spec by done. cbn [obind].
  destruct (isdel_total _ _ Hf) as [d Ed]. rewrite Ed. cbn [obind]. unfold store.
  rewrite decide_True by lia. cbn [obind].
  destruct (set_isboth_false_spec _ _ Hf) as (f' & Ef & El & Exl & Eo). rewrite Ef. cbn [obind].
  assert (Ha' := arrays_put _ _ _ x key f' Ha Hok Hx Hreach Hold El Exl Eo).
  destruct (state (flags map) x) eqn:Est.
  - rewrite bool_decide_eq_true_2 by done. do 3 eexists. split; [reflexivity|]. split; [lia|].
    assert (Ecl := cnt_live_flip (flags map) f' x (Z.to_nat (n_buckets map)) ltac:(lia) ltac:(by rewrite Est) Exl Eo).
    assert (Ecu := cnt_used_flip (flags map) f' x (Z.to_nat (n_buckets map)) ltac:(lia) Est ltac:(by rewrite Exl) Eo).
    split; [split; cbn; try done; rewrite ?u32_small by lia; lia|].
    split; cbn; try done; [intros i Hne; by apply (live_other (flags map) f' _ x)|intros; apply keyed_insert_ne; lia|].
    rewrite u32_small; lia.
  - rewrite bool_decide_eq_false_2 by done. rewrite isdel_spec in Ed by (done || by rewrite Est).
    rewrite Est in Ed. injection Ed as <-. do 3 eexists. split; [reflexivity|]. split; [lia|].
    assert (Ecl := cnt_live_flip (flags map) f' x (Z.to_nat (n_buckets map)) ltac:(lia) ltac:(by rewrite Est) Exl Eo).
    assert (Ecu := cnt_used_same (flags map) f' x (Z.to_nat (n_buckets map)) ltac:(by rewrite Est) ltac:(by rewrite Exl) Eo).
    split; [split; cbn; try done; rewrite ?u32_small by lia; lia|].
    split; cbn; try done; [intros i Hne; by apply (live_other (flags map) f' _ x)|intros; apply keyed_insert_ne; lia|].
    rewrite u32_small; lia.
  - rewrite bool_decide_eq_false_2 by done. rewrite isdel_spec in Ed by (done || by rewrite Est).
    rewrite Est in Ed. injection Ed as <-. do 3 eexists. split; [reflexivity|]. split; [lia|].
    split; [split; cbn; try done|].
    + by apply (arrays_put (flags map) (keys map) _ x key).
    + split; cbn; try done; [intros; apply keyed_insert_ne; lia|lia].
Qed.
End Inv.
