(* ===== verification/MapResize.v ===== *)
(** Resizing the hash table: the rehashing in place, where every entry is in an old
    bucket, in a new one or in the hands of the loop. *)

From S2P Require Import Prelude Map MapSpec MapInv.

Section Resize.
Context {K V N : Type} `{MapKey K N} `{Countable N}.
Implicit Types (map : hsk_map_t K V) (M : gmap N V).

(** ** Finding a free bucket *)

Lemma free_loop_spec G n h s d t fuel : pow2_size n -> (forall i, 0 <= i < n -> flagged G i) ->
  0 <= t -> s = t + Z.of_nat d -> s < n -> (d < fuel)%nat ->
  (forall t, 0 <= t < s -> state G (pos n h t) <> BEmpty) -> state G (pos n h s) = BEmpty ->
  free_loop fuel G (u32 (n - 1)) (pos n h t) t = Ret (pos n h s).
Proof.
  intros Hp2 Hfl. destruct (pow2_size_range n Hp2) as [Hn4 Hn31].
  revert d t; induction fuel as [|fuel IH]; intros d t Ht Es Hs Hf Hb He; [lia|]. cbn [free_loop].
  assert (Hr := pos_range n Hp2 h t). rewrite isempty_spec by by apply Hfl. cbn [obind].
  destruct d as [|d].
  - replace t with s by lia. by rewrite bool_decide_eq_true_2.
  - rewrite bool_decide_eq_false_2 by (apply Hb; lia). cbv zeta.
    rewrite pos_S, (u32_small (t + 1)) by (done || lia). apply (IH d); try done; lia.
Qed.
Lemma free_spec G n h : pow2_size n -> (forall i, 0 <= i < n -> flagged G i) ->
  cnt (in_use G) (Z.to_nat n) < n ->
  exists i, free_loop (probe_fuel n) G (u32 (n - 1)) (Z.land h (u32 (n - 1))) 0 = Ret i /\
    0 <= i < n /\ state G i = BEmpty /\ reached G n h i.
Proof.
  intros Hp2 Hfl Hc. destruct (pow2_size_range n Hp2) as [Hn4 Hn31].
  destruct (cnt_gap (in_use G) (Z.to_nat n)) as (j & Hj & He); [lia|]. rewrite Z2Nat.id in Hj by lia.
  apply negb_false_iff, bool_decide_eq_true in He.
  destruct (pos_cover n h j Hp2 Hj) as (s0 & Hs0 & Ep).
  destruct (first_stop (fun t => bool_decide (state G (pos n h t) = BEmpty)) n s0) as (s & Hs & Hst & Hb).
  { done. } { rewrite Ep. by apply bool_decide_eq_true_2. }
  apply bool_decide_eq_true in Hst.
  assert (Hb' : forall t, 0 <= t < s -> state G (pos n h t) <> BEmpty).
  { intros t Ht. by apply (bool_decide_eq_false (state G (pos n h t) = BEmpty)), Hb. }
  exists (pos n h s). split; [|split; [by apply pos_range|]; split; [done|]; exists s; split; [lia|done]].
  rewrite pos_0 by done. unfold probe_fuel. apply (free_loop_spec G n h s (Z.to_nat s)); try done; lia.
Qed.

(** ** The invariant of the rehashing

    [F] has the old flags of [n] buckets, [G] the new ones of [n']; [P] are the entries
    in the hands of the loop and [I] all entries of the table. *)
Record rehash_inv (n n' : Z) (I : K -> V -> Prop) (tot : Z) (F G : list Z) (Ks : list (option K))
    (Vs : list (option V)) (P : list (K * V)) : Prop := {
  ri_new : arrays_wf G Ks n';
  ri_nodel : no_deleted G;
  ri_flags i : 0 <= i < n -> flagged F i;
  ri_keys : n <= Z.of_nat (length Ks);
  ri_vals : n <= Z.of_nat (length Vs) /\ n' <= Z.of_nat (length Vs);
  ri_disj i : live F n i -> live G n' i -> False;
  ri_old i : live F n i -> exists k, keyed Ks i k /\ key_ok k;
  ri_full i : live F n i \/ live G n' i -> exists v, valued Vs i v;
  ri_uniq i j k l : live F n i -> live F n j \/ live G n' j -> keyed Ks i k -> keyed Ks j l ->
    key_norm k = key_norm l -> i = j;
  ri_pend k v : (k, v) ∈ P -> key_ok k /\
    forall i l, live F n i \/ live G n' i -> keyed Ks i l -> key_norm l <> key_norm k;
  ri_pend_uniq : NoDup (List.map (fun e => key_norm (fst e)) P);
  ri_items k v : I k v <-> (k, v) ∈ P \/
    exists i, (live F n i \/ live G n' i) /\ keyed Ks i k /\ valued Vs i v;
  ri_count : cnt (is_live F) (Z.to_nat n) + cnt (is_live G) (Z.to_nat n') + Z.of_nat (length P) = tot;
}.

Section Steps.
Context (n n' : Z) (I : K -> V -> Prop) (tot : Z).
Abbreviation inv := (rehash_inv n n' I tot).

(** An old bucket is emptied. *)
Lemma rehash_take F G Ks Vs P i k v F' : inv F G Ks Vs P -> live F n i -> keyed Ks i k -> valued Vs i v ->
  length F' = length F -> state F' i = BDeleted -> (forall j, 0 <= j -> j <> i -> state F' j = state F j) ->
  inv F' G Ks Vs ((k, v) :: P).
Proof.
  intros [Hn Hd Hf Hk Hv Hdj Ho Hfu Hu Hp Hpu Hi Hc] Hl Hki Hvi El Ei Eo.
  assert (Hlive : forall j, live F' n j <-> live F n j /\ j <> i).
  { intros j. destruct (decide (j = i)) as [->|Hne].
    - split; [intros [_ E]; by rewrite Ei in E|by intros [_ ?]].
    - rewrite (live_other F F' n i j Eo Hne). tauto. }
  assert (Hok : key_ok k).
  { destruct (Ho i Hl) as (k' & Hk' & Hok). unfold keyed in *. rewrite Hki in Hk'. by injection Hk' as <-. }
  split; try done.
  - intros j Hj. by eapply flagged_length, Hf.
  - intros j [Hj _]%Hlive. by apply Hdj.
  - intros j [Hj _]%Hlive. by apply Ho.
  - intros j Hj. apply Hfu. destruct Hj as [[Hj _]%Hlive|Hj]; [by left|by right].
  - intros a b x y [Ha _]%Hlive Hb. apply Hu; [done|]. destruct Hb as [[Hb _]%Hlive|Hb]; [by left|by right].
  - intros x y [E|Hin]%elem_of_cons.
    + injection E as -> ->. split; [done|]. intros j l Hj Hkj E. assert (j = i); [|subst j].
      { symmetry. eapply Hu; [done| |done..|by symmetry]. destruct Hj as [[Hj _]%Hlive|Hj]; [by left|by right]. }
      destruct Hj as [[_ Hne]%Hlive|Hj]; [done|]. by apply (Hdj i).
    + destruct (Hp x y Hin) as [Hox Hnx]. split; [done|]. intros j l Hj. apply Hnx.
      destruct Hj as [[Hj _]%Hlive|Hj]; [by left|by right].
  - cbn [List.map fst]. apply NoDup_cons. split; [|done]. intros ([x y] & E & Hin)%list_elem_of_fmap.
    destruct (Hp x y Hin) as [_ Hnx]. apply (Hnx i k); [by left|done|exact E].
  - intros x y. rewrite Hi, elem_of_cons. split.
    + intros [Hin|(j & Hj & Hkj & Hvj)]; [left; by right|]. destruct (decide (j = i)) as [->|Hne].
      * left. left. unfold keyed, valued in *. congruence.
      * right. exists j. split; [|done]. destruct Hj as [Hj|Hj]; [left; by apply Hlive|by right].
    + intros [[E|Hin]|(j & Hj & Hkj & Hvj)].
      * injection E as -> ->. right. exists i. split; [by left|done].
      * by left.
      * right. exists j. split; [|done]. destruct Hj as [[Hj _]%Hlive|Hj]; [by left|by right].
  - destruct Hl as [Hir Hil]. assert (Ec := cnt_live_flip F' F i (Z.to_nat n) ltac:(lia) ltac:(by rewrite Ei) Hil).
    rewrite Ec in Hc by (intros; symmetry; by apply Eo). cbn [length]. lia.
Qed.

(** An entry is put into a free new bucket, which is no old one in use. *)
Lemma rehash_place F G Ks Vs P i k v G' : inv F G Ks Vs ((k, v) :: P) -> 0 <= i < n' -> ~ live F n i ->
  state G i = BEmpty -> reached G n' (hash_func k) i ->
  length G' = length G -> state G' i = BLive -> (forall j, 0 <= j -> j <> i -> state G' j = state G j) ->
  no_deleted G' ->
  inv F G' (<[Z.to_nat i := Some k]> Ks) (<[Z.to_nat i := Some v]> Vs) P.
Proof.
  intros [Hn Hd Hf Hk Hv Hdj Ho Hfu Hu Hp Hpu Hi Hc] Hir Hnl Ee Hre El Ei Eo Hd'.
  destruct (Hp k v) as [Hok Hnk]; [by left|].
  assert (Hlive : forall j, live G' n' j <-> live G n' j \/ j = i).
  { intros j. destruct (decide (j = i)) as [->|Hne]; [split; [by right|by split]|].
    rewrite (live_other G G' n' i j Eo Hne). naive_solver. }
  assert (Hold : forall j, live F n j -> j <> i) by naive_solver.
  assert (Hne : forall j, live F n j \/ live G n' j -> 0 <= j /\ j <> i).
  { intros j [Hj|Hj]; (split; [apply Hj|]); [by apply Hold|]. intros ->. destruct Hj as [_ E]. by rewrite Ee in E. }
  assert (Hvne : forall j x, 0 <= j -> j <> i -> valued (<[Z.to_nat i := Some v]> Vs) j x <-> valued Vs j x).
  { intros j x Hj Hji. unfold valued. by rewrite list_lookup_insert_ne by lia. }
  assert (Hvi : valued (<[Z.to_nat i := Some v]> Vs) i v) by (apply list_lookup_insert_eq; lia).
  assert (Hkl := aw_keys _ _ _ Hn).
  assert (Hki : keyed (<[Z.to_nat i := Some k]> Ks) i k) by (apply list_lookup_insert_eq; lia).
  assert (Hkeq : forall x, keyed (<[Z.to_nat i := Some k]> Ks) i x -> x = k).
  { intros x Hx. unfold keyed in *. rewrite Hki in Hx. by injection Hx as <-. }
  assert (Hveq : forall x, valued (<[Z.to_nat i := Some v]> Vs) i x -> x = v).
  { intros x Hx. unfold valued in *. rewrite Hvi in Hx. by injection Hx as <-. }
  split; try done.
  - apply (arrays_put G Ks n' i k); try done. intros j x Hj Hx E. by destruct (Hnk j x); [right|..].
  - by rewrite length_insert.
  - by rewrite length_insert.
  - intros j Hj [Hj'| ->]%Hlive; [by apply (Hdj j)|done].
  - intros j Hj. destruct (Ho j Hj) as (x & Hx & Hox). exists x. split; [|done].
    destruct (Hne j); [by left|]. by apply keyed_insert_ne; [lia..|].
  - intros j Hj. destruct (decide (j = i)) as [->|Hji]; [by exists v|].
    assert (Hj' : live F n j \/ live G n' j) by (destruct Hj as [?|[?| ->]%Hlive]; [by left|by right|done]).
    destruct (Hfu j Hj') as [x Hx]. exists x. apply Hvne; [by apply Hne|done|done].
  - intros a b x y Ha Hb Hx Hy E. assert (Hai := Hold a Ha). destruct (Hne a) as [Ha0 _]; [by left|].
    apply keyed_insert_ne in Hx; [|lia..]. destruct (decide (b = i)) as [->|Hbi].
    + rewrite (Hkeq y Hy) in E. by destruct (Hnk a x); [left|..].
    + assert (Hb' : live F n b \/ live G n' b) by (destruct Hb as [?|[?| ->]%Hlive]; [by left|by right|done]).
      destruct (Hne b Hb') as [Hb0 _]. apply keyed_insert_ne in Hy; [|lia..]. by eapply Hu.
  - intros x y Hin. destruct (Hp x y) as [Hox Hnx]; [by right|]. split; [done|]. intros j l Hj Hkj E.
    destruct (decide (j = i)) as [->|Hji].
    + rewrite (Hkeq l Hkj) in E. cbn [List.map fst] in Hpu. apply NoDup_cons in Hpu as [Hnin _]. apply Hnin.
      apply list_elem_of_fmap. by exists (x, y).
    + assert (Hj' : live F n j \/ live G n' j) by (destruct Hj as [?|[?| ->]%Hlive]; [by left|by right|done]).
      destruct (Hne j Hj') as [Hj0 _]. apply keyed_insert_ne in Hkj; [|lia..]. by apply (Hnx j l).
  - cbn [List.map] in Hpu. by apply NoDup_cons in Hpu as [_ ?].
  - intros x y. rewrite Hi, elem_of_cons. split.
    + intros [[E|Hin]|(j & Hj & Hkj & Hvj)]; [|by left|].
      * injection E as -> ->. right. exists i. split; [right; apply Hlive; by right|done].
      * right. destruct (Hne j Hj). exists j. split; [destruct Hj; [by left|right; apply Hlive; by left]|].
        split; [by apply keyed_insert_ne; [lia..|]|by apply Hvne].
    + intros [Hin|(j & Hj & Hkj & Hvj)]; [left; by right|]. destruct (decide (j = i)) as [->|Hji].
      * left. left. by rewrite (Hkeq x Hkj), (Hveq y Hvj).
      * assert (Hj' : live F n j \/ live G n' j) by (destruct Hj as [?|[?| ->]%Hlive]; [by left|by right|done]).
        destruct (Hne j Hj') as [Hj0 _]. right. exists j. split; [done|].
        apply keyed_insert_ne in Hkj; [|lia..]. by apply Hvne in Hvj.
  - assert (Ec := cnt_live_flip G G' i (Z.to_nat n') ltac:(lia) ltac:(by rewrite Ee) Ei Eo).
    rewrite Ec. cbn [length] in Hc. lia.
Qed.

Lemma cnt_used_new F G Ks Vs P : inv F G Ks Vs P -> cnt (in_use G) (Z.to_nat n') = cnt (is_live G) (Z.to_nat n').
Proof.
  intros Hinv. apply cnt_ext. intros i Hi. unfold in_use, is_live, state.
  rewrite (ri_nodel _ _ _ _ _ _ _ _ _ Hinv) by lia. by destruct (fbit G i 1).
Qed.
Lemma kick_loop_spec fuel F G Ks Vs k v : inv F G Ks Vs [(k, v)] -> tot < n' ->
  cnt (is_live F) (Z.to_nat n) < Z.of_nat fuel ->
  exists s, kick_loop fuel true n n' k (Some v) (mk_rehash F G Ks Vs) = Ret s /\
    inv (rh_flags s) (rh_new_flags s) (rh_keys s) (rh_vals s) [] /\
    (forall j, live (rh_flags s) n j -> live F n j).
Proof.
  revert F G Ks Vs k v. induction fuel as [|fuel IH]; intros F G Ks Vs k v Hinv Ht Hf.
  { assert (Hb := cnt_bound (is_live F) (Z.to_nat n)). lia. }
  assert (Hn := ri_new _ _ _ _ _ _ _ _ _ Hinv). assert (Hp2 := aw_pow2 _ _ _ Hn). assert (Hkl := aw_keys _ _ _ Hn).
  destruct (ri_vals _ _ _ _ _ _ _ _ _ Hinv) as [_ Hvl].
  assert (Hc := ri_count _ _ _ _ _ _ _ _ _ Hinv). cbn [length] in Hc.
  assert (Hb := cnt_bound (is_live F) (Z.to_nat n)).
  destruct (free_spec G n' (hash_func k) Hp2 (aw_flags _ _ _ Hn)) as (i & Ei & Hi & Ee & Hr).
  { rewrite (cnt_used_new F G Ks Vs _ Hinv). lia. }
  destruct (set_isempty_false_spec G i (aw_flags _ _ _ Hn i Hi) (ri_nodel _ _ _ _ _ _ _ _ _ Hinv))
    as (G' & EG & ElG & EiG & EoG & HdG).
  cbn [kick_loop rh_flags rh_new_flags rh_keys rh_vals]. cbv zeta. rewrite Ei. cbn [obind]. rewrite EG. cbn [obind].
  unfold store. rewrite !decide_True by lia.
  destruct (decide (live F n i)) as [Hl|Hnl].
  - destruct Hl as [Hin Hst]. rewrite (proj2 (Z.ltb_lt i n)) by lia.
    assert (Hfl := ri_flags _ _ _ _ _ _ _ _ _ Hinv i Hin). rewrite iseither_spec by done. rewrite Hst. cbn [bool_decide obind negb].
    destruct (ri_old _ _ _ _ _ _ _ _ _ Hinv i) as (k' & Hk' & _); [done|].
    destruct (ri_full _ _ _ _ _ _ _ _ _ Hinv i) as [v' Hv']; [by left|].
    unfold key_at. rewrite Hk'. cbn [mbind option_bind id of_option obind]. rewrite Hv'. cbn [mbind option_bind id].
    destruct (set_isdel_true_spec F i Hfl ltac:(by rewrite Hst)) as (F' & EF & ElF & EiF & EoF). rewrite EF. cbn [obind].
    assert (Htake := rehash_take F G Ks Vs _ i k' v' F' Hinv (conj Hin Hst) Hk' Hv' ElF EiF EoF).
    assert (Hl' : forall j, live F' n j -> live F n j /\ j <> i).
    { intros j Hj. destruct (decide (j = i)) as [->|Hne]; [destruct Hj as [_ E]; by rewrite EiF in E|].
      split; [|done]. by apply (live_other F F' n i j EoF Hne). }
    assert (Hswap : inv F' G Ks Vs [(k, v); (k', v')]).
    { destruct Htake as [? ? ? ? ? ? ? ? ? Hp Hpu Hit ?]. split; try done.
      - intros x y Hin'. apply (Hp x y). revert Hin'. rewrite !elem_of_cons. tauto.
      - revert Hpu. cbn [List.map fst]. rewrite !NoDup_cons, !elem_of_cons. naive_solver.
      - intros x y. rewrite Hit, !elem_of_cons. tauto. }
    assert (Hplace := rehash_place F' G Ks Vs _ i k v G' Hswap Hi ltac:(by intros [_ ?]%Hl') Ee Hr ElG EiG EoG HdG).
    destruct (IH _ _ _ _ _ _ Hplace Ht) as (s & Es & Hs & Hsl).
    { assert (Ec := cnt_live_flip F' F i (Z.to_nat n) ltac:(lia) ltac:(by rewrite EiF) Hst).
      rewrite Ec in Hf by (intros; symmetry; by apply EoF). lia. }
    exists s. split; [exact Es|]. split; [exact Hs|]. intros j Hj. by apply Hl', Hsl.
  - assert (Hkick : (if i <? n then let* b := __hsk_iseither F i in Ret (negb b) else Ret false) = Ret false).
    { destruct (Z.ltb_spec i n); [|done]. assert (Hin : 0 <= i < n) by lia.
      rewrite iseither_spec by by apply (ri_flags _ _ _ _ _ _ _ _ _ Hinv). cbn [obind].
      rewrite bool_decide_eq_false_2; [done|]. intros E. by apply Hnl. }
    rewrite Hkick. cbn [obind]. eexists. split; [reflexivity|]. cbn [rh_flags rh_new_flags rh_keys rh_vals].
    split; [|done]. by apply (rehash_place F G Ks Vs [] i k v).
Qed.
Lemma rehash_loop_spec c j F G Ks Vs : inv F G Ks Vs [] -> tot < n' -> 0 <= j -> j + Z.of_nat c = n ->
  (forall i, live F n i -> j <= i) ->
  exists s, rehash_loop c true n n' j (mk_rehash F G Ks Vs) = Ret s /\
    inv (rh_flags s) (rh_new_flags s) (rh_keys s) (rh_vals s) [] /\ forall i, ~ live (rh_flags s) n i.
Proof.
  revert j F G Ks Vs. induction c as [|c IH]; intros j F G Ks Vs Hinv Ht Hj Ec Hb.
  { exists (mk_rehash F G Ks Vs). split_and!; try done. intros i Hl. assert (Hge := Hb i Hl). destruct Hl. lia. }
  cbn [rehash_loop rh_flags rh_new_flags rh_keys rh_vals]. assert (Hjn : 0 <= j < n) by lia.
  assert (Hfl := ri_flags _ _ _ _ _ _ _ _ _ Hinv j Hjn). rewrite iseither_spec by done. cbn [obind].
  destruct (decide (state F j = BLive)) as [Hst|Hst].
  - rewrite bool_decide_eq_true_2 by done. cbn [negb].
    destruct (ri_old _ _ _ _ _ _ _ _ _ Hinv j) as (k & Hk & _); [done|].
    destruct (ri_full _ _ _ _ _ _ _ _ _ Hinv j) as [v Hv]; [by left|].
    unfold key_at. rewrite Hk. cbn [mbind option_bind id of_option obind]. rewrite Hv. cbn [mbind option_bind id].
    destruct (set_isdel_true_spec F j Hfl ltac:(by rewrite Hst)) as (F' & EF & ElF & EiF & EoF). rewrite EF. cbn [obind].
    assert (Htake := rehash_take F G Ks Vs _ j k v F' Hinv (conj Hjn Hst) Hk Hv ElF EiF EoF).
    destruct (kick_loop_spec (S (Z.to_nat n)) F' G Ks Vs k v Htake Ht) as (s & Es & Hs & Hsl).
    { assert (Hb' := cnt_bound (is_live F') (Z.to_nat n)). lia. }
    rewrite Es. cbn [obind]. destruct s as [F2 G2 K2 V2]. cbn [rh_flags rh_new_flags rh_keys rh_vals] in *.
    apply IH; try done; try lia. intros i Hl%Hsl. destruct (decide (i = j)) as [->|Hne].
    { destruct Hl as [_ E]. by rewrite EiF in E. }
    apply (live_other F F' n j i EoF Hne) in Hl. specialize (Hb i Hl). lia.
  - rewrite bool_decide_eq_false_2 by done. cbn [negb obind]. apply IH; try done; try lia.
    intros i Hl. specialize (Hb i Hl). destruct (decide (i = j)) as [->|]; [by destruct Hl|lia].
Qed.
End Steps.

(** ** The whole resize *)

Lemma realloc_lookup {A} (l : list (option A)) n i : 0 <= i < n -> i < Z.of_nat (length l) ->
  realloc l n !! Z.to_nat i = l !! Z.to_nat i.
Proof.
  intros Hi Hl. unfold realloc. rewrite lookup_app_l by (rewrite length_take; lia). by apply lookup_take_lt; lia.
Qed.
Lemma realloc_length {A} (l : list (option A)) n : 0 <= n -> Z.of_nat (length (realloc l n)) = n.
Proof. intros Hn. unfold realloc. rewrite length_app, length_take, length_replicate. lia. Qed.
Lemma arrays_ext f ks ks' n : arrays_wf f ks n -> n <= Z.of_nat (length ks') ->
  (forall i (k : K), 0 <= i < n -> keyed ks' i k <-> keyed ks i k) -> arrays_wf f ks' n.
Proof.
  intros [Hp Hf Hk Hl Hu] Hn He. split; try done.
  - intros i Hi. destruct (Hl i Hi) as (k & Hki & ?). exists k. split; [by apply He; [apply Hi|]|done].
  - intros i j k l Hi Hj Hki Hkj. apply He in Hki; [|apply Hi]. apply He in Hkj; [|apply Hj]. by eapply Hu.
Qed.
Lemma fresh_state n i : pow2_size n -> 0 <= i < n -> state (fresh_flags n) i = BEmpty.
Proof. intros Hn Hi. unfold state. by rewrite fresh_bits by (try lia; by apply fresh_flagged). Qed.
Lemma fresh_arrays n (ks : list (option K)) : pow2_size n -> n <= Z.of_nat (length ks) -> arrays_wf (fresh_flags n) ks n.
Proof.
  intros Hn Hk. assert (Hno : forall i, ~ live (fresh_flags n) n i).
  { intros i [Hi E]. by rewrite fresh_state in E. }
  split; try done.
  - intros i Hi. by apply fresh_flagged.
  - intros i Hl. by destruct (Hno i).
  - intros i j k l Hl. by destruct (Hno i).
Qed.
Lemma fresh_all_no_deleted n : no_deleted (fresh_flags n).
Proof.
  intros i Hi. unfold fbit, fresh_flags. destruct (replicate _ _ !! _) eqn:E; [|apply Z.bits_0].
  apply lookup_replicate in E as [-> _]. cbn [default].
  assert (H' : forallb (fun k => negb (Z.testbit 0xaaaaaaaa (2 * Z.of_nat k + 0))) (seq 0 16) = true) by reflexivity.
  rewrite forallb_forall in H'. assert (Hin : In (Z.to_nat (i mod 16)) (seq 0 16)) by (apply in_seq; dlia).
  apply H' in Hin. rewrite Z2Nat.id in Hin by dlia. by apply negb_true_iff in Hin.
Qed.

Lemma table_range map M : repr map M -> 0 <= n_buckets map <= 2 ^ 31.
Proof.
  intros [_ [[-> _]|[Ha _ _ _ _ _]] _ _]; [lia|]. assert (Hr := pow2_size_range _ (aw_pow2 _ _ _ Ha)). lia.
Qed.
Lemma live_table map M i : repr map M -> live (flags map) (n_buckets map) i -> table_wf map.
Proof. intros [_ [[E _]|Hwf] _ _]; [|done]. rewrite E. intros [Hi _]. lia. Qed.
Lemma repr_size map M : repr map M -> size map = cnt (is_live (flags map)) (Z.to_nat (n_buckets map)).
Proof. intros [_ [(-> & -> & _)|Hwf] _ _]; [done|by apply tw_size]. Qed.

(** Growing the arrays changes nothing. *)
Lemma repr_arrays map M ks vs : repr map M ->
  n_buckets map <= Z.of_nat (length ks) -> n_buckets map <= Z.of_nat (length vs) ->
  (forall i k, 0 <= i < n_buckets map -> keyed ks i k <-> keyed (keys map) i k) ->
  (forall i v, 0 <= i < n_buckets map -> valued vs i v <-> valued (vals map) i v) ->
  repr (with_arrays map ks vs) M.
Proof.
  intros [Hm Hwf Hfu Hi] Hkl Hvl Hk Hv.
  assert (Hh : forall k v, holds (with_arrays map ks vs) k v <-> holds map k v).
  { intros k v. split; intros (i & Hl & Hki & Hvi); exists i; (split; [done|]); split;
      (apply Hk || apply Hv); done || apply Hl. }
  split; [done|..].
  - destruct Hwf as [Hwf|[Ha ? ? ? ? ?]]; [by left|right]. split; try done. by apply (arrays_ext _ (keys map)).
  - intros i Hl. destruct (Hfu i Hl) as [v Hvi]. exists v. by apply Hv; [apply Hl|].
  - intros a v. rewrite Hi. by setoid_rewrite Hh.
Qed.

(** Lengths of the arrays of a table with buckets. *)
Lemma repr_lengths map M : repr map M ->
  n_buckets map <= Z.of_nat (length (keys map)) /\
  (n_buckets map <= Z.of_nat (length (vals map))).
Proof.
  intros [_ [(-> & _)|[Ha Hv _ _ _ _]] _ _]; [lia|]. split; [by apply (aw_keys _ _ _ Ha)|done].
Qed.
Lemma rehash_start map M n' ks vs : repr map M -> pow2_size n' ->
  n_buckets map <= Z.of_nat (length ks) /\ n' <= Z.of_nat (length ks) ->
  n_buckets map <= Z.of_nat (length vs) /\ n' <= Z.of_nat (length vs) ->
  (forall i k, 0 <= i < n_buckets map -> keyed ks i k <-> keyed (keys map) i k) ->
  (forall i v, 0 <= i < n_buckets map -> valued vs i v <-> valued (vals map) i v) ->
  rehash_inv (n_buckets map) n' (holds map) (size map) (flags map) (fresh_flags n') ks vs [].
Proof.
  intros Hr Hp2 [Hk1 Hk2] Hv Hk Hvi. assert (Hno : forall i, ~ live (fresh_flags n') n' i).
  { intros i [Hi E]. by rewrite fresh_state in E. }
  assert (Hw := live_table map M). assert (Hn0 : table_empty map \/ table_wf map) by apply Hr.
  split; try done.
  - by apply fresh_arrays.
  - apply fresh_all_no_deleted.
  - intros i Hi. destruct Hn0 as [[E _]|Hwf]; [lia|]. by apply (aw_flags _ _ _ (tw_arrays _ Hwf)).
  - intros i _ Hl. by apply (Hno i).
  - intros i Hl. destruct (aw_live _ _ _ (tw_arrays _ (Hw i Hr Hl)) i Hl) as (k & Hki & Hok & _).
    exists k. split; [|done]. by apply Hk; [apply Hl|].
  - intros i [Hl|Hl]; [|by destruct (Hno i)]. destruct (rp_full _ _ Hr i Hl) as [v Hx]. exists v.
    by apply Hvi; [apply Hl|].
  - intros i j k l Hi [Hj|Hj] Hki Hkj; [|by destruct (Hno j)]. apply Hk in Hki; [|apply Hi]. apply Hk in Hkj; [|apply Hj].
    by apply (aw_unique _ _ _ (tw_arrays _ (Hw i Hr Hi))).
  - intros k v Hin. by apply not_elem_of_nil in Hin.
  - constructor.
  - intros k v. split.
    + intros (i & Hl & Hki & Hx). right. exists i. split; [by left|]. destruct Hl as [Hi _]. by rewrite Hk, Hvi.
    + intros [Hin|(i & [Hl|Hl] & Hki & Hx)]; [by apply not_elem_of_nil in Hin| |by destruct (Hno i)].
      exists i. split; [done|]. destruct Hl as [Hi _]. by rewrite Hk, Hvi in * by done.
  - rewrite (repr_size map M Hr). rewrite (cnt_none (is_live (fresh_flags n'))).
    { cbn [length]. lia. }
    intros i Hi. unfold is_live. by rewrite fresh_state by (done || lia).
Qed.
(** When nothing is left in the old buckets, the new ones hold the same entries. *)
Lemma rehash_done map M n' F G Ks Vs ks vs : repr map M ->
  rehash_inv (n_buckets map) n' (holds map) (size map) F G Ks Vs [] ->
  (forall i, ~ live F (n_buckets map) i) -> size map < hash_upper n' ->
  n' <= Z.of_nat (length ks) -> n' <= Z.of_nat (length vs) ->
  (forall i k, 0 <= i < n' -> keyed ks i k <-> keyed Ks i k) ->
  (forall i v, 0 <= i < n' -> valued vs i v <-> valued Vs i v) ->
  repr (mk_map n' (size map) (size map) (hash_upper n') G ks vs true) M.
Proof.
  intros Hr Hinv Hno Hs Hkl Hvl Hk Hv. assert (Hc := ri_count _ _ _ _ _ _ _ _ _ Hinv).
  rewrite (cnt_none (is_live F)) in Hc.
  2: { intros i Hi. apply bool_decide_eq_false_2. intros E. apply (Hno i). split; [lia|done]. }
  cbn [length] in Hc. assert (Hu := cnt_used_new _ _ _ _ _ _ _ _ _ Hinv).
  assert (Hh : forall k v, holds (mk_map n' (size map) (size map) (hash_upper n') G ks vs true) k v <-> holds map k v).
  { intros k v. rewrite (ri_items _ _ _ _ _ _ _ _ _ Hinv k v). split.
    - intros (i & Hl & Hki & Hvi). right. exists i. split; [by right|]. destruct Hl as [Hi _]. cbn in Hki, Hvi.
      by rewrite Hk, Hv in * by done.
    - intros [Hin|(i & [Hl|Hl] & Hki & Hvi)]; [by apply not_elem_of_nil in Hin|by destruct (Hno i)|].
      exists i. split; [done|]. destruct Hl as [Hi _]. cbn. by rewrite Hk, Hv. }
  split; cbn; [done| | |].
  - right. split; cbn; try done; try lia. apply (arrays_ext _ Ks); try done. apply (ri_new _ _ _ _ _ _ _ _ _ Hinv).
  - intros i Hl. destruct (ri_full _ _ _ _ _ _ _ _ _ Hinv i) as [v Hvi]; [by right|]. exists v. by apply Hv; [apply Hl|].
  - intros a v. rewrite (rp_iff _ _ Hr). by setoid_rewrite Hh.
Qed.

(** The result of a resize to a size that is a power of two. *)
Record resized (al : nat -> bool) map M (new_n r : Z) map' : Prop := {
  rz_repr : repr map' M;
  rz_size : size map' = size map;
  rz_fail : r = -1 -> n_buckets map' = n_buckets map /\ exists i, al i = false;
  rz_small : r <> -1 -> hash_upper new_n <= size map -> r = 0 /\ map' = map;
  rz_new : r <> -1 -> size map < hash_upper new_n ->
    r = 0 /\ n_buckets map' = new_n /\ n_occupied map' = size map /\ upper_bound map' = hash_upper new_n;
}.
Lemma resize_spec al map M m : repr map M -> pow2_size (resize_to m) ->
  (resize_to m < n_buckets map -> al 3%nat = true /\ al 4%nat = true) ->
  exists r map', hsk_map_resize al map m = Ret (r, map') /\ resized al map M (resize_to m) r map'.
Proof.
  intros Hr Hp2 Hal. unfold hsk_map_resize. cbv zeta. set (n' := resize_to m) in *.
  destruct (pow2_size_range n' Hp2) as [Hn4 Hn31]. destruct (table_range map M Hr) as [Hnb _].
  destruct (repr_lengths map M Hr) as [Hkl Hvl].
  destruct (Z.leb_spec (hash_upper n') (size map)) as [Hsm|Hsm].
  { do 2 eexists. split; [reflexivity|]. by split; try done; intros; lia. }
  destruct (al 0%nat) eqn:E0; cbn [negb].
  2: { do 2 eexists. split; [reflexivity|]. split; try done; [split; [done|by exists 0%nat]..]. }
  destruct (n_buckets map <? n') eqn:Eg; cbn [andb].
  - apply Z.ltb_lt in Eg. destruct (al 1%nat) eqn:E1; cbn [negb].
    2: { do 2 eexists. split; [reflexivity|]. split; try done; [split; [done|by exists 1%nat]..]. }
    rewrite (rp_map _ _ Hr). cbn [andb].
    assert (Hke : forall i (k : K), 0 <= i < n_buckets map -> keyed (realloc (keys map) n') i k <-> keyed (keys map) i k).
    { intros i k Hi. unfold keyed. by rewrite realloc_lookup by lia. }
    assert (Hve : forall i (v : V), 0 <= i < n_buckets map -> valued (realloc (vals map) n') i v <-> valued (vals map) i v).
    { intros i v Hi. unfold valued. by rewrite realloc_lookup by lia. }
    assert (Hlk := realloc_length (keys map) n' ltac:(lia)). assert (Hlv := realloc_length (vals map) n' ltac:(lia)).
    destruct (al 2%nat) eqn:E2; cbn [negb].
    2: { do 2 eexists. split; [reflexivity|]. split; try done; [|split; [done|by exists 2%nat]].
         apply repr_arrays; try done; lia. }
    destruct (rehash_loop_spec (n_buckets map) n' (holds map) (size map) (Z.to_nat (n_buckets map)) 0 (flags map)
      (fresh_flags n') (realloc (keys map) n') (realloc (vals map) n')) as (s & Es & Hs & Hno).
    { apply (rehash_start map M); try done; lia. }
    { assert (Hlt := hash_upper_lt n' Hp2). lia. } { lia. } { lia. } { intros i [Hi _]. lia. }
    rewrite Es. cbn [obind]. rewrite (proj2 (Z.ltb_ge n' (n_buckets map))) by lia. cbn [andb].
    do 2 eexists. split; [reflexivity|]. split; try done; try (intros; lia).
    apply (rehash_done map M n' (rh_flags s) _ (rh_keys s) (rh_vals s)); try done.
    + apply (aw_keys _ _ _ (ri_new _ _ _ _ _ _ _ _ _ Hs)).
    + apply (ri_vals _ _ _ _ _ _ _ _ _ Hs).
  - apply Z.ltb_ge in Eg. rewrite (rp_map _ _ Hr).
    destruct (rehash_loop_spec (n_buckets map) n' (holds map) (size map) (Z.to_nat (n_buckets map)) 0 (flags map)
      (fresh_flags n') (keys map) (vals map)) as (s & Es & Hs & Hno).
    { apply (rehash_start map M); try done; lia. }
    { assert (Hlt := hash_upper_lt n' Hp2). lia. } { lia. } { lia. } { intros i [Hi _]. lia. }
    rewrite Es. cbn [obind]. assert (Hka := aw_keys _ _ _ (ri_new _ _ _ _ _ _ _ _ _ Hs)).
    destruct (ri_vals _ _ _ _ _ _ _ _ _ Hs) as [_ Hva].
    do 2 eexists. split; [reflexivity|]. split; try done; try (intros; lia).
    destruct (Z.ltb_spec n' (n_buckets map)) as [Hlt|_]; cbn [andb].
    2: { by apply (rehash_done map M n' (rh_flags s) _ (rh_keys s) (rh_vals s)). }
    destruct (Hal Hlt) as [-> ->]. apply (rehash_done map M n' (rh_flags s) _ (rh_keys s) (rh_vals s)); try done.
    + by rewrite realloc_length by lia.
    + by rewrite realloc_length by lia.
    + intros i k Hi. unfold keyed. by rewrite realloc_lookup by lia.
    + intros i v Hi. unfold valued. by rewrite realloc_lookup by lia.
Qed.
End Resize.
