(* ===== verification/MapProps.v ===== *)
(** The properties of the hash table: every operation refines the one on finite maps,
    whatever the order of operations, the collisions and the allocations that fail. *)

From S2P Require Import Prelude Map MapSpec MapInv MapResize.

(** * Rounding up to a power of two *)

(** Bit [i] of [x] says whether [y] has one of the [d] bits from [i] on. *)
Definition smeared (y d x : Z) : Prop := 0 <= x /\
  forall i, 0 <= i -> Z.testbit x i = true <-> exists e, 0 <= e < d /\ Z.testbit y (i + e) = true.
Lemma smear_start y : 0 <= y -> smeared y 1 y.
Proof.
  intros Hy. split; [done|]. intros i Hi. split.
  - intros Hb. exists 0. split; [lia|by rewrite Z.add_0_r].
  - intros (e & He & Hb). by replace (i + e) with i in Hb by lia.
Qed.
Lemma smear_step y d x : 0 < d -> smeared y d x -> smeared y (2 * d) (Z.lor x (Z.shiftr x d)).
Proof.
  intros Hd [H0 Hx]. split; [apply Z.lor_nonneg; split; [done|by apply Z.shiftr_nonneg]|]. intros i Hi.
  rewrite Z.lor_spec, Z.shiftr_spec, orb_true_iff, (Hx i), (Hx (i + d)) by lia. split.
  - intros [(e & He & Hb)|(e & He & Hb)]; [exists e|exists (d + e)]; (split; [lia|]); [done|].
    by replace (i + (d + e)) with (i + d + e) by lia.
  - intros (e & He & Hb). destruct (Z.lt_ge_cases e d); [left; exists e; split; [lia|done]|right; exists (e - d)].
    split; [lia|]. by replace (i + d + (e - d)) with (i + e) by lia.
Qed.
Lemma smear_ones y x : 0 < y < 2 ^ 32 -> smeared y 32 x -> x = 2 ^ (Z.log2 y + 1) - 1.
Proof.
  intros Hy [Hx0 Hx]. assert (Hl : Z.log2 y < 32) by (apply Z.log2_lt_pow2; lia).
  assert (Hl0 := Z.log2_nonneg y). rewrite Z.sub_1_r, <-Z.ones_equiv. apply Z.bits_inj'. intros i Hi.
  rewrite Z.testbit_ones_nonneg by lia. destruct (Z.ltb_spec i (Z.log2 y + 1)) as [Hlt|Hge].
  - apply Hx; [done|]. exists (Z.log2 y - i). split; [lia|]. replace (i + _) with (Z.log2 y) by lia.
    apply Z.bit_log2. lia.
  - destruct (Z.testbit x i) eqn:E; [|done]. apply Hx in E as (e & He & Hb); [|done].
    by rewrite Z.bits_above_log2 in Hb by lia.
Qed.
Lemma roundup32_spec m : 1 <= m <= 2 ^ 31 -> __hsk_roundup32 m = 2 ^ Z.log2_up m.
Proof.
  intros Hm. unfold __hsk_roundup32. rewrite (u32_small (m - 1)) by lia. cbv zeta.
  destruct (decide (m = 1)) as [->|Hne]; [reflexivity|].
  assert (H := smear_start (m - 1) ltac:(lia)). do 5 (apply smear_step in H; [|lia]).
  change (2 * 1) with 2 in H. change (2 * 2) with 4 in H. change (2 * 4) with 8 in H.
  change (2 * 8) with 16 in H. change (2 * 16) with 32 in H.
  apply smear_ones in H; [|lia]. rewrite H. unfold Z.log2_up.
  rewrite (proj2 (Z.compare_lt_iff 1 m)), Z.sub_1_r by lia. replace (Z.succ (Z.log2 (Z.pred m))) with (Z.log2 (m - 1) + 1).
  2: { rewrite <-Z.sub_1_r. lia. }
  assert (Hl : Z.log2 (m - 1) < 31) by (apply Z.log2_lt_pow2; lia). assert (Hl0 := Z.log2_nonneg (m - 1)).
  rewrite u32_small; [lia|]. assert (2 ^ (Z.log2 (m - 1) + 1) <= 2 ^ 31) by (apply Z.pow_le_mono_r; lia).
  assert (0 < 2 ^ (Z.log2 (m - 1) + 1)) by (apply Z.pow_pos_nonneg; lia). lia.
Qed.
Lemma resize_to_spec m : 1 <= m <= 2 ^ 31 -> resize_to m = Z.max 4 (2 ^ Z.log2_up m) /\ pow2_size (resize_to m).
Proof.
  intros Hm. unfold resize_to. cbv zeta. rewrite roundup32_spec by done. assert (Hl0 := Z.log2_up_nonneg m).
  assert (Hl : Z.log2_up m <= 31) by (rewrite (Z.log2_up_le_mono m (2 ^ 31)) by lia; by rewrite Z.log2_up_pow2).
  destruct (Z.ltb_spec (2 ^ Z.log2_up m) 4) as [Hlt|Hge]; [split; [lia|by exists 2]|]. split; [lia|].
  exists (Z.log2_up m). split; [|done]. split; [|done]. destruct (Z.le_gt_cases 2 (Z.log2_up m)); [done|].
  assert (2 ^ Z.log2_up m <= 2 ^ 1) by (apply Z.pow_le_mono_r; lia). lia.
Qed.

Section Props.
Context {K V N : Type} `{MapKey K N} `{Countable N}.
Implicit Types (map : hsk_map_t K V) (M : gmap N V).

(** * One operation *)

Lemma repr_init : repr hsk_map_init_map (∅ : gmap N V).
Proof.
  split; [done|by left|..].
  - intros i [Hi _]. cbn in Hi. lia.
  - intros a v. split; [done|]. intros (k & _ & i & [Hi _] & _). cbn in Hi. lia.
Qed.
Lemma size_checks n : pow2_size n -> ((n =? 2 ^ 31) || ((resize_to (n - 1) =? n) && (resize_to (n + 1) =? 2 * n) &&
  (n <=? 2 * hash_upper n) && (n <=? hash_upper (2 * n)))) = true.
Proof.
  apply (pow2_size_forallb (fun n => (n =? 2 ^ 31) || ((resize_to (n - 1) =? n) && (resize_to (n + 1) =? 2 * n) &&
    (n <=? 2 * hash_upper n) && (n <=? hash_upper (2 * n))))). vm_compute. reflexivity.
Qed.
(** The size that an insertion into a full table asks for. *)
Definition room_request (n size : Z) : Z := if u32 (Z.shiftl size 1) <? n then u32 (n - 1) else u32 (n + 1).
Lemma room_request_eq n s : 0 <= s <= 2 ^ 30 -> 0 <= n <= 2 ^ 30 -> 0 < n \/ s = 0 ->
  room_request n s = if s * 2 <? n then n - 1 else n + 1.
Proof.
  intros Hs Hn Hz. unfold room_request. rewrite (u32_small (Z.shiftl s 1)) by (rewrite Z.shiftl_mul_pow2; lia).
  rewrite Z.shiftl_mul_pow2 by lia. change (2 ^ 1) with 2. destruct (Z.ltb_spec (s * 2) n); apply u32_small; lia.
Qed.
Lemma room_size map M : repr map M -> n_buckets map <= 2 ^ 30 ->
  let m := room_request (n_buckets map) (size map) in
  pow2_size (resize_to m) /\ size map < hash_upper (resize_to m) /\ n_buckets map <= resize_to m /\
  (resize_to m = n_buckets map \/ resize_to m <= Z.max 4 (4 * size map)).
Proof.
  intros Hr Hn m. destruct (rp_wf _ _ Hr) as [(En & Es & _)|Hwf].
  { assert (E : resize_to m = 4) by (subst m; rewrite En, Es; vm_compute; reflexivity).
    rewrite E, En, Es. split; [by exists 2|]. split; [vm_compute; reflexivity|lia]. }
  assert (Hp2 := aw_pow2 _ _ _ (tw_arrays _ Hwf)). destruct (pow2_size_range _ Hp2) as [Hn4 _].
  assert (Hc := cnt_live_used (flags map) (Z.to_nat (n_buckets map))). rewrite <-(tw_size _ Hwf), <-(tw_used _ Hwf) in Hc.
  assert (Hs0 : 0 <= size map) by (rewrite (tw_size _ Hwf); apply cnt_bound).
  assert (Hlt := hash_upper_lt _ Hp2). destruct Hwf as [Ha Hv Hs Hu Hup Hroom].
  assert (Em := room_request_eq (n_buckets map) (size map) ltac:(lia) ltac:(lia) ltac:(lia)). fold m in Em.
  assert (Hchk := size_checks _ Hp2). rewrite (proj2 (Z.eqb_neq (n_buckets map) (2 ^ 31))), orb_false_l in Hchk by lia.
  apply andb_true_iff in Hchk as [[[E1%Z.eqb_eq E2%Z.eqb_eq]%andb_true_iff E3%Z.leb_le]%andb_true_iff E4%Z.leb_le].
  destruct (Z.ltb_spec (size map * 2) (n_buckets map)); rewrite Em.
  - rewrite E1. split; [done|]. lia.
  - rewrite E2. split; [|lia]. destruct Hp2 as (e & He & En). exists (e + 1). rewrite Z.pow_add_r by lia.
    split; [|lia]. split; [lia|]. destruct (Z.le_gt_cases e 30); [lia|].
    assert (2 ^ 31 <= 2 ^ e) by (apply Z.pow_le_mono_r; lia). lia.
Qed.
Lemma put_room_spec al map M : repr map M -> n_buckets map <= 2 ^ 30 ->
  exists r map', put_room al map = Ret (r, map') /\ repr map' M /\ size map' = size map /\
    (n_buckets map' = n_buckets map \/ n_buckets map' <= Z.max 4 (4 * size map)) /\
    ((r = -1 /\ exists i, al i = false) \/ (r = 0 /\ table_wf map' /\ n_occupied map' < upper_bound map')).
Proof.
  intros Hr Hn. unfold put_room. destruct (Z.leb_spec (upper_bound map) (n_occupied map)) as [Hfull|Hroom].
  2: { exists 0, map. split_and!; try done; [by left|]. right. split; [done|]. split; [|done].
       destruct (rp_wf _ _ Hr) as [(_ & _ & E1 & E2 & _)|Hwf]; [lia|done]. }
  destruct (room_size map M Hr Hn) as (Hp2 & Hs & Hge & Hmax).
  set (m := room_request (n_buckets map) (size map)) in *.
  replace (if u32 (Z.shiftl (size map) 1) <? n_buckets map then hsk_map_resize al map (u32 (n_buckets map - 1))
    else hsk_map_resize al map (u32 (n_buckets map + 1))) with (hsk_map_resize al map m)
    by (subst m; unfold room_request; by destruct (_ <? _)).
  destruct (resize_spec al map M m Hr Hp2) as (r & map' & E & [Hr' Hsz Hfail Hsmall Hnew]); [lia|].
  exists r, map'. split_and!; try done.
  - destruct (decide (r = -1)) as [Hm|Hm]; [left; by apply Hfail|].
    destruct (Hnew Hm Hs) as (_ & -> & _). destruct Hmax as [->|?]; [by left|by right].
  - destruct (decide (r = -1)) as [Hm|Hm]; [left; split; [done|by apply Hfail]|]. right.
    destruct (Hnew Hm Hs) as (E0 & En & Eo & Eu). split; [done|]. split; [|lia].
    destruct (rp_wf _ _ Hr') as [(E1 & _)|Hwf]; [|done]. destruct (pow2_size_range _ Hp2). lia.
Qed.

Lemma holds_fun map M k l v w : repr map M -> holds map k v -> holds map l w -> key_norm k = key_norm l -> v = w.
Proof.
  intros Hr (i & Hi & Hki & Hvi) (j & Hj & Hkj & Hvj) E.
  assert (i = j) as <- by (eapply (aw_unique _ _ _ (tw_arrays _ (live_table map M i Hr Hi))); done).
  unfold valued in *. rewrite Hvi in Hvj. by injection Hvj.
Qed.
Lemma set_holds map M map' key x value : repr map M -> put_into map map' key x -> table_wf map' ->
  forall k v, holds (with_arrays map' (keys map') (<[Z.to_nat x := Some value]> (vals map'))) k v <->
    (k = key /\ v = value) \/ (holds map k v /\ key_norm k <> key_norm key).
Proof.
  intros Hr [En Em Ev Hx Hkx Hoth Hks Hold Hover _] Hwf k v. assert (Hv := tw_vals _ Hwf).
  assert (Hxr : 0 <= x < n_buckets map) by apply Hx.
  assert (Hvx : valued (<[Z.to_nat x := Some value]> (vals map')) x value) by (apply list_lookup_insert_eq; lia).
  assert (Hvne : forall i w, 0 <= i -> i <> x -> valued (<[Z.to_nat x := Some value]> (vals map')) i w <-> valued (vals map) i w).
  { intros i w Hi Hne. unfold valued. by rewrite list_lookup_insert_ne, Ev by lia. }
  split.
  - intros (i & Hl & Hki & Hvi). cbn in Hl, Hki, Hvi. rewrite En in Hl. assert (Hi := proj1 Hl).
    destruct (decide (i = x)) as [->|Hne].
    + left. unfold keyed, valued in *. rewrite Hkx in Hki. rewrite Hvx in Hvi. by split; congruence.
    + right. apply Hoth in Hl; [|done]. apply Hks in Hki; [|lia|done]. apply Hvne in Hvi; [|lia|done].
      split; [by exists i|]. intros E. by apply Hne, (Hold i k).
  - intros [[-> ->]|[(i & Hl & Hki & Hvi) Hne]].
    + exists x. cbn. rewrite En. split; [done|]. done.
    + assert (Hix : i <> x) by (intros ->; by apply Hne, Hover). assert (Hi := proj1 Hl).
      exists i. cbn. rewrite En. split; [by apply Hoth|]. split; [apply Hks; [lia|done|done]|apply Hvne; [lia|done|done]].
Qed.
Lemma set_repr map M map' key x value : repr map M -> put_into map map' key x -> table_wf map' ->
  repr (with_arrays map' (keys map') (<[Z.to_nat x := Some value]> (vals map'))) (<[key_norm key := value]> M).
Proof.
  intros Hr Hpi Hwf. assert (Hh := set_holds map M map' key x value Hr Hpi Hwf).
  destruct Hpi as [En Em Ev Hx Hkx Hoth Hks Hold Hover _]. assert (Hv := tw_vals _ Hwf).
  assert (Hxr : 0 <= x < n_buckets map) by apply Hx. split; cbn.
  - by rewrite Em, (rp_map _ _ Hr).
  - right. destruct Hwf. split; cbn; try done. by rewrite length_insert.
  - intros i Hl. rewrite En in Hl. unfold valued. destruct (decide (i = x)) as [->|Hne].
    + exists value. apply list_lookup_insert_eq. lia.
    + assert (Hi := proj1 Hl). rewrite list_lookup_insert_ne, Ev by lia. apply (rp_full _ _ Hr). by apply Hoth.
  - intros a v. rewrite lookup_insert_Some, (rp_iff _ _ Hr). setoid_rewrite Hh. split.
    + intros [[<- <-]|[Hne (k & E & Hk)]]; [exists key; naive_solver|]. exists k. split; [done|]. right. split; [done|congruence].
    + intros (k & <- & [[-> ->]|[Hk Hne]]); [by left|]. right. split; [congruence|by exists k].
Qed.
Lemma set_spec al map M key value : repr map M -> n_buckets map <= 2 ^ 30 -> key_ok key ->
  exists b map', hsk_map_set al map key value = Ret (b, map') /\
    repr map' (if b then <[key_norm key := value]> M else M) /\ (b = false -> exists i, al i = false) /\
    size map' <= size map + 1 /\ n_buckets map' <= Z.max (n_buckets map) (Z.max 4 (4 * size map)).
Proof.
  intros Hr Hn Hok. unfold hsk_map_set, hsk_map_put.
  destruct (put_room_spec al map M Hr Hn) as (r & m1 & -> & Hr1 & Hs1 & Hb1 & Hcase). cbn [obind].
  destruct Hcase as [[-> Hal]|(-> & Hwf1 & Hroom)].
  { cbn. do 2 eexists. split; [reflexivity|]. split_and!; try done; lia. }
  cbn [Z.ltb Z.compare]. destruct (put_bucket_spec m1 key Hwf1 Hok Hroom) as (x & ret & m2 & -> & Hret & Hwf2 & Hpi).
  cbn [obind]. rewrite (proj2 (Z.eqb_neq ret (-1))) by lia.
  assert (Hxr := proj1 (pi_x _ _ _ _ Hpi)). assert (Hv := tw_vals _ Hwf2). assert (En := pi_size _ _ _ _ Hpi).
  unfold store. rewrite decide_True by lia. cbn [obind]. do 2 eexists. split; [reflexivity|].
  split; [by apply (set_repr m1 M)|]. split; [done|]. assert (Hc := pi_count _ _ _ _ Hpi). cbn. lia.
Qed.

(** [hsk_map_lookup] followed by the tests of its callers. *)
Lemma find_spec map M key : repr map M -> key_ok key ->
  (exists i k v, hsk_map_lookup map key = Ret i /\ i <> n_buckets map /\ hsk_map_exists map i = Ret true /\
     live (flags map) (n_buckets map) i /\ keyed (keys map) i k /\ key_norm k = key_norm key /\
     valued (vals map) i v /\ M !! key_norm key = Some v) \/
  (hsk_map_lookup map key = Ret (n_buckets map) /\ M !! key_norm key = None).
Proof.
  intros Hr Hok. destruct (rp_wf _ _ Hr) as [(E & _)|Hwf].
  - right. unfold hsk_map_lookup. rewrite E. split; [done|]. destruct (M !! key_norm key) as [v|] eqn:EM; [|done].
    apply (rp_iff _ _ Hr) in EM as (k & _ & i & [Hi _] & _). lia.
  - destruct (lookup_spec map key Hwf Hok) as [(i & k & Hl & Hk & _ & Ek & El)|[Hno El]].
    + left. destruct (rp_full _ _ Hr i Hl) as [v Hv]. exists i, k, v.
      assert (Hf := aw_flags _ _ _ (tw_arrays _ Hwf) i (proj1 Hl)). split_and!; try done.
      * destruct Hl. lia.
      * unfold hsk_map_exists. rewrite iseither_spec by done. by rewrite (proj2 Hl).
      * apply (rp_iff _ _ Hr). exists k. split; [done|]. by exists i.
    + right. split; [done|]. destruct (M !! key_norm key) as [v|] eqn:EM; [|done].
      apply (rp_iff _ _ Hr) in EM as (k & Ek & i & Hl & Hk & _). by destruct (Hno i k).
Qed.
Lemma get_spec map M key : repr map M -> key_ok key -> hsk_map_get map key = Ret (M !! key_norm key).
Proof.
  intros Hr Hok. unfold hsk_map_get. destruct (find_spec map M key Hr Hok) as
    [(i & k & v & -> & Hi & He & _ & _ & _ & Hv & ->)|[-> ->]]; cbn [obind]; [|by rewrite Z.eqb_refl].
  rewrite (proj2 (Z.eqb_neq _ _) Hi), He. cbn [obind]. by rewrite Hv.
Qed.
Lemma has_spec map M key : repr map M -> key_ok key -> hsk_map_has map key = Ret (bool_decide (is_Some (M !! key_norm key))).
Proof.
  intros Hr Hok. unfold hsk_map_has. destruct (find_spec map M key Hr Hok) as
    [(i & k & v & -> & Hi & He & _ & _ & _ & Hv & ->)|[-> ->]]; cbn [obind]; [|by rewrite Z.eqb_refl].
  by rewrite (proj2 (Z.eqb_neq _ _) Hi), He.
Qed.

Lemma del_holds map M x k0 f' : repr map M -> live (flags map) (n_buckets map) x -> keyed (keys map) x k0 ->
  state f' x = BDeleted -> (forall j, 0 <= j -> j <> x -> state f' j = state (flags map) j) ->
  forall k v sz occ, holds (mk_map (n_buckets map) sz occ (upper_bound map) f' (keys map) (vals map) (is_map map)) k v <->
    holds map k v /\ key_norm k <> key_norm k0.
Proof.
  intros Hr Hx Hk0 Ex Eo k v sz occ. split.
  - intros (i & Hl & Hki & Hvi). cbn in Hl, Hki, Hvi. destruct (decide (i = x)) as [->|Hne].
    { destruct Hl as [_ E]. by rewrite Ex in E. }
    apply (live_other _ f' _ x i Eo Hne) in Hl. split; [by exists i|]. intros E. apply Hne.
    by eapply (aw_unique _ _ _ (tw_arrays _ (live_table map M i Hr Hl))).
  - intros [(i & Hl & Hki & Hvi) Hne]. assert (Hix : i <> x).
    { intros ->. unfold keyed in *. rewrite Hki in Hk0. injection Hk0 as ->. by apply Hne. }
    exists i. cbn. split; [by apply (live_other _ f' _ x i Eo Hix)|done].
Qed.
Lemma del_spec map M key : repr map M -> key_ok key ->
  exists map', hsk_map_del map key = Ret (bool_decide (is_Some (M !! key_norm key)), map') /\
    repr map' (delete (key_norm key) M) /\ size map' <= size map /\ n_buckets map' = n_buckets map.
Proof.
  intros Hr Hok. unfold hsk_map_del. destruct (find_spec map M key Hr Hok) as
    [(x & k & v & -> & Hx & He & Hl & Hk & Ek & Hv & EM)|[-> EM]]; cbn [obind].
  2: { rewrite Z.eqb_refl, EM. eexists. split; [reflexivity|]. rewrite delete_id by done. by split_and!. }
  rewrite (proj2 (Z.eqb_neq _ _) Hx), He. cbn [obind]. unfold hsk_map_delete.
  rewrite (proj2 (Z.eqb_neq _ _) Hx), He. cbn [obind]. assert (Hwf := live_table map M x Hr Hl).
  destruct (set_isdel_true_spec (flags map) x) as (f' & -> & El & Ex & Eo).
  { by apply (aw_flags _ _ _ (tw_arrays _ Hwf)), Hl. } { by rewrite (proj2 Hl). }
  cbn [obind]. rewrite EM. eexists. split; [reflexivity|]. destruct (table_range map M Hr) as [_ Hn31].
  assert (Hxr := proj1 Hl).
  assert (Hpos := cnt_some (is_live (flags map)) (Z.to_nat (n_buckets map)) x ltac:(lia) ltac:(by apply bool_decide_eq_true_2, Hl)).
  assert (Hcb := cnt_bound (is_live (flags map)) (Z.to_nat (n_buckets map))).
  assert (Hs := tw_size _ Hwf). rewrite u32_small by lia. split; [|cbn; split; [lia|done]].
  assert (Hh := del_holds map M x k f' Hr Hl Hk Ex Eo). split; cbn; [apply Hr|right|..].
  - assert (Ec := cnt_live_flip f' (flags map) x (Z.to_nat (n_buckets map)) ltac:(lia) ltac:(by rewrite Ex) (proj2 Hl)
      ltac:(intros; symmetry; by apply Eo)).
    assert (Eu := cnt_used_same (flags map) f' x (Z.to_nat (n_buckets map)) ltac:(by rewrite (proj2 Hl)) ltac:(by rewrite Ex) Eo).
    destruct Hwf. split; cbn; try done; [|lia|lia].
    apply (arrays_delete (flags map) _ _ x); try done. by rewrite (proj2 Hl).
  - intros i Hi. apply (rp_full _ _ Hr). destruct (decide (i = x)) as [->|Hne].
    { done. } by apply (live_other _ f' _ x i Eo Hne) in Hi.
  - intros a w. rewrite lookup_delete_Some, (rp_iff _ _ Hr). setoid_rewrite Hh. rewrite Ek. split.
    + intros [Hne (k' & E & Hk')]. exists k'. split; [done|]. split; [done|congruence].
    + intros (k' & <- & Hk' & Hne). split; [congruence|by exists k'].
Qed.

(** The loop over the buckets meets every entry once. *)
Lemma each_spec map M c j : repr map M -> 0 <= j -> j + Z.of_nat c = n_buckets map ->
  exists es : list (N * V), each_loop c map j = Ret es.*2 /\ NoDup es.*1 /\
    forall a v, (a, v) ∈ es <-> exists i k, j <= i /\ live (flags map) (n_buckets map) i /\
      keyed (keys map) i k /\ valued (vals map) i v /\ key_norm k = a.
Proof.
  intros Hr. revert j; induction c as [|c IH]; intros j Hj Ec.
  { exists []. split; [done|]. split; [constructor|]. intros a v. split; [by intros ?%not_elem_of_nil|].
    intros (i & k & Hi & [Hin _] & _). lia. }
  destruct (IH (j + 1) ltac:(lia) ltac:(lia)) as (es & Ees & Hnd & Hes).
  assert (Hwf : table_wf map) by (destruct (rp_wf _ _ Hr) as [[E _]|?]; [lia|done]).
  cbn [each_loop]. unfold hsk_map_exists.
  rewrite iseither_spec by (apply (aw_flags _ _ _ (tw_arrays _ Hwf)); lia). cbn [obind].
  destruct (decide (state (flags map) j = BLive)) as [Hst|Hst].
  - rewrite bool_decide_eq_true_2 by done. cbn [negb]. assert (Hl : live (flags map) (n_buckets map) j) by (split; [lia|done]).
    destruct (aw_live _ _ _ (tw_arrays _ Hwf) j Hl) as (k & Hk & _). destruct (rp_full _ _ Hr j Hl) as [v Hv].
    unfold valued in Hv. rewrite Hv. cbn [mbind option_bind id of_option obind]. rewrite Ees. cbn [obind].
    exists ((key_norm k, v) :: es). split; [done|]. split.
    + cbn. apply NoDup_cons. split; [|done]. intros ([a w] & Ea & Hin)%list_elem_of_fmap.
      apply Hes in Hin as (i & k' & Hi & Hl' & Hk' & _ & Ek'). cbn in Ea. assert (i = j); [|lia].
      eapply (aw_unique _ _ _ (tw_arrays _ Hwf)); [exact Hl'|exact Hl|exact Hk'|exact Hk|congruence].
    + intros a w. rewrite elem_of_cons, Hes. split.
      * intros [[= -> ->]|(i & k' & Hi & ?)]; [exists j, k; by split_and!|]. exists i, k'. split; [lia|done].
      * intros (i & k' & Hi & Hl' & Hk' & Hv' & Ea). destruct (decide (i = j)) as [->|Hne].
        -- left. unfold keyed, valued in *. congruence.
        -- right. exists i, k'. split; [lia|done].
  - rewrite bool_decide_eq_false_2 by done. cbn [negb]. exists es. split; [done|]. split; [done|].
    intros a v. rewrite Hes. split; intros (i & k & Hi & Hl & Hrest); exists i, k; (split; [|done]); [lia|].
    destruct (decide (i = j)) as [->|]; [by destruct Hl|lia].
Qed.
Lemma map_each_spec map M : repr map M ->
  exists vs, map_each map = Ret vs /\ Permutation vs (map_to_list M).*2.
Proof.
  intros Hr. destruct (table_range map M Hr) as [Hn _].
  destruct (each_spec map M (Z.to_nat (n_buckets map)) 0 Hr) as (es & E & Hnd & Hes); [lia|lia|].
  exists es.*2. split; [exact E|]. apply fmap_Permutation, NoDup_Permutation.
  - by eapply NoDup_fmap_1.
  - apply NoDup_map_to_list.
  - intros [a v]. rewrite Hes, elem_of_map_to_list, (rp_iff _ _ Hr). split.
    + intros (i & k & _ & Hl & Hk & Hv & Ea). exists k. split; [done|]. by exists i.
    + intros (k & Ea & i & Hl & Hk & Hv). exists i, k. destruct Hl. split_and!; try done. lia.
Qed.
(** The count that the table keeps is the number of entries. *)
Lemma each_count map M c : forall j vs, repr map M -> Z.of_nat (j + c) = n_buckets map ->
  each_loop c map (Z.of_nat j) = Ret vs ->
  cnt (is_live (flags map)) (j + c) = cnt (is_live (flags map)) j + Z.of_nat (length vs).
Proof.
  induction c as [|c IH]; intros j vs Hr Hn E; cbn [each_loop] in E.
  { injection E as <-. rewrite Nat.add_0_r. cbn. lia. }
  assert (Hwf : table_wf map) by (destruct (rp_wf _ _ Hr) as [[En _]|?]; [lia|done]).
  unfold hsk_map_exists in E. rewrite iseither_spec in E by (apply (aw_flags _ _ _ (tw_arrays _ Hwf)); lia). cbn [obind] in E.
  replace (Z.of_nat j + 1) with (Z.of_nat (S j)) in E by lia.
  assert (Es : cnt (is_live (flags map)) (S j) = cnt (is_live (flags map)) j + Z.b2z (is_live (flags map) (Z.of_nat j))) by done.
  unfold is_live at 3 in Es. rewrite <-Nat.add_succ_comm in *. destruct (bool_decide (state (flags map) (Z.of_nat j) = BLive)); cbn [negb Z.b2z] in *.
  - destruct (of_option _ _) as [v| |]; cbn [obind] in E; [|done|done].
    destruct (each_loop c map _) as [ws| |] eqn:E2; cbn [obind] in E; [|done|done]. injection E as <-.
    rewrite (IH (S j) ws Hr ltac:(lia) E2), Es. cbn [length]. lia.
  - rewrite (IH (S j) vs Hr ltac:(lia) E), Es. lia.
Qed.
Lemma repr_count map M : repr map M -> size map = Z.of_nat (base.size M).
Proof.
  intros Hr. rewrite (repr_size map M Hr). destruct (map_each_spec map M Hr) as (vs & E & Hp).
  destruct (table_range map M Hr) as [Hn _]. unfold map_each in E.
  assert (Ec := each_count map M (Z.to_nat (n_buckets map)) 0 vs Hr ltac:(lia) E). cbn [Nat.add cnt] in Ec. rewrite Ec. rewrite (Permutation_length Hp), length_fmap, length_map_to_list. done.
Qed.
Lemma reset_spec map M : repr map M -> repr (hsk_map_reset map) ∅ /\
  size (hsk_map_reset map) <= size map /\ n_buckets (hsk_map_reset map) = n_buckets map.
Proof.
  intros Hr. assert (Hs : 0 <= size map) by (rewrite (repr_size map M Hr); apply cnt_bound).
  assert (Hnone : forall m : hsk_map_t K V, is_map m = true -> table_empty m \/ table_wf m ->
    (forall i, ~ live (flags m) (n_buckets m) i) -> repr m ∅).
  { intros m Em Hwf Hno. split; try done; [by intros i Hl%Hno|]. intros a v. split; [done|].
    by intros (k & _ & i & Hl%Hno & _). }
  unfold hsk_map_reset. destruct (flags map) as [|w f] eqn:Ef.
  - split; [|done]. apply Hnone; try apply Hr. intros i Hl. assert (Hwf := live_table map M i Hr Hl).
    destruct (aw_flags _ _ _ (tw_arrays _ Hwf) i (proj1 Hl)) as [H0' Hlt]. rewrite Ef in Hlt. cbn in Hlt. dlia.
  - destruct (rp_wf _ _ Hr) as [(_ & _ & _ & _ & E)|[Ha Hv _ _ Hup _]]; [by rewrite E in Ef|].
    assert (Hp2 := aw_pow2 _ _ _ Ha). assert (Hk := aw_keys _ _ _ Ha). destruct (pow2_size_range _ Hp2) as [Hn4 _].
    split; [|by cbn]. apply Hnone; [apply Hr|right|].
    + split; cbn; try done.
      * by apply fresh_arrays.
      * rewrite cnt_none; [done|]. intros i Hi. apply bool_decide_eq_false_2. by rewrite fresh_state by (done || lia).
      * rewrite cnt_none; [done|]. intros i Hi. unfold in_use. by rewrite fresh_state by (done || lia).
      * rewrite Hup. unfold hash_upper. apply Z.div_pos; lia.
    + cbn. intros i [Hi E]. by rewrite fresh_state in E.
Qed.

(** * Runs *)

(** The operations of the interface; [al] says which allocations of a set succeed. *)
Inductive map_op :=
  | OpSet (al : nat -> bool) (key : K) (value : V)
  | OpGet (key : K)
  | OpHas (key : K)
  | OpDel (key : K)
  | OpEach
  | OpClear (free_func : bool).
Inductive map_result :=
  | RBool (b : bool)
  | RValue (v : option V)
  | RValues (vs : list V).

Definition map_step map (o : map_op) : outcome (map_result * hsk_map_t K V) :=
  match o with
  | OpSet al key value => let* (b, map) := hsk_map_set al map key value in Ret (RBool b, map)
  | OpGet key => let* v := hsk_map_get map key in Ret (RValue v, map)
  | OpHas key => let* b := hsk_map_has map key in Ret (RBool b, map)
  | OpDel key => let* (b, map) := hsk_map_del map key in Ret (RBool b, map)
  | OpEach => let* vs := map_each map in Ret (RValues vs, map)
  | OpClear free_func => let* (vs, map) := hsk_map_clear free_func map in Ret (RValues vs, map)
  end.
Fixpoint map_run map (os : list map_op) : outcome (list map_result * hsk_map_t K V) :=
  match os with
  | [] => Ret ([], map)
  | o :: os =>
      let* (r, map) := map_step map o in
      let* (rs, map) := map_run map os in
      Ret (r :: rs, map)
  end.

(** The same operations on a finite map. Only a set can fail, for want of memory, and
    then changes nothing. *)
Inductive spec_step M : map_op -> map_result -> gmap N V -> Prop :=
  | spec_set al key value : spec_step M (OpSet al key value) (RBool true) (<[key_norm key := value]> M)
  | spec_nomem al key value i : al i = false -> spec_step M (OpSet al key value) (RBool false) M
  | spec_get key : spec_step M (OpGet key) (RValue (M !! key_norm key)) M
  | spec_has key : spec_step M (OpHas key) (RBool (bool_decide (is_Some (M !! key_norm key)))) M
  | spec_del key : spec_step M (OpDel key) (RBool (bool_decide (is_Some (M !! key_norm key)))) (delete (key_norm key) M)
  | spec_each vs : Permutation vs (map_to_list M).*2 -> spec_step M OpEach (RValues vs) M
  | spec_clear vs : Permutation vs (map_to_list M).*2 -> spec_step M (OpClear true) (RValues vs) ∅
  | spec_reset : spec_step M (OpClear false) (RValues []) ∅.
Inductive spec_run : gmap N V -> list map_op -> list map_result -> gmap N V -> Prop :=
  | spec_nil M : spec_run M [] [] M
  | spec_cons M M1 M2 o os r rs : spec_step M o r M1 -> spec_run M1 os rs M2 -> spec_run M (o :: os) (r :: rs) M2.
Definition op_ok (o : map_op) : Prop :=
  match o with
  | OpSet _ key _ | OpGet key | OpHas key | OpDel key => key_ok key
  | OpEach | OpClear _ => True
  end.

(** [b] bounds the number of entries. *)
Definition bounded (b : Z) map : Prop := size map <= b /\ n_buckets map <= Z.max 4 (4 * b).
Lemma step_refines map M o b : repr map M -> bounded b map -> b < 2 ^ 28 -> op_ok o ->
  exists r map' M', map_step map o = Ret (r, map') /\ spec_step M o r M' /\ repr map' M' /\ bounded (b + 1) map'.
Proof.
  intros Hr [Hb1 Hb2] Hb Hok. assert (Hs : 0 <= size map) by (rewrite (repr_size map M Hr); apply cnt_bound).
  assert (Hbd : bounded (b + 1) map) by (split; lia).
  destruct o as [al key value|key|key|key| |free_func]; cbn [map_step]; cbn [op_ok] in Hok.
  - destruct (set_spec al map M key value Hr) as (ok & map' & -> & Hr' & Hal & Hs' & Hn'); [lia|done|]. cbn [obind].
    do 3 eexists. split; [reflexivity|]. split; [|split; [exact Hr'|split; lia]].
    destruct ok; [constructor|]. destruct (Hal eq_refl) as [i Hi]. by eapply spec_nomem.
  - rewrite (get_spec map M key Hr Hok). cbn [obind]. do 3 eexists. split; [reflexivity|]. split; [constructor|done].
  - rewrite (has_spec map M key Hr Hok). cbn [obind]. do 3 eexists. split; [reflexivity|]. split; [constructor|done].
  - destruct (del_spec map M key Hr Hok) as (map' & -> & Hr' & Hs' & Hn'). cbn [obind].
    do 3 eexists. split; [reflexivity|]. split; [constructor|]. split; [done|split; lia].
  - destruct (map_each_spec map M Hr) as (vs & -> & Hvs). cbn [obind].
    do 3 eexists. split; [reflexivity|]. split; [by constructor|done].
  - unfold hsk_map_clear. rewrite (rp_map _ _ Hr). destruct (reset_spec map M Hr) as (Hr' & Hs' & Hn').
    destruct free_func; cbn [andb].
    + destruct (map_each_spec map M Hr) as (vs & -> & Hvs). cbn [obind].
      do 3 eexists. split; [reflexivity|]. split; [by constructor|]. split; [done|split; lia].
    + do 3 eexists. split; [reflexivity|]. split; [by constructor|]. split; [done|split; lia].
Qed.
Lemma run_refines os map M b : repr map M -> bounded b map -> b + Z.of_nat (length os) <= 2 ^ 28 -> Forall op_ok os ->
  exists rs map' M', map_run map os = Ret (rs, map') /\ spec_run M os rs M' /\ repr map' M'.
Proof.
  revert map M b; induction os as [|o os IH]; intros map M b Hr Hb Hlen Hok.
  - do 3 eexists. split; [reflexivity|]. split; [constructor|exact Hr].
  - apply Forall_cons in Hok as [Ho Hos]. cbn [length] in Hlen.
    destruct (step_refines map M o b Hr Hb ltac:(lia) Ho) as (r & m1 & M1 & E & Hstep & Hr1 & Hb1).
    destruct (IH m1 M1 (b + 1) Hr1 Hb1 ltac:(lia) Hos) as (rs & m2 & M2 & E2 & Hrun & Hr2).
    exists (r :: rs), m2, M2. cbn [map_run]. rewrite E. cbn [obind]. rewrite E2. split; [done|].
    split; [by econstructor|done].
Qed.

(** * Properties *)

(** C39: the hash table implements a finite map. Any sequence of fewer than [2 ^ 28] sets,
    lookups, deletions, walks over the entries and clearings, on keys whose functions
    obey [MapKey] and whatever hashes collide and allocations fail, runs to its end -
    every probing loop stops, no access leaves an array, no key is read that was not
    written - and gives the results of the same operations on a finite map, where only
    a set whose allocation fails may do nothing. *)
Theorem map_refines (os : list map_op) : Z.of_nat (length os) <= 2 ^ 28 -> Forall op_ok os ->
  exists rs map M, map_run hsk_map_init_map os = Ret (rs, map) /\ spec_run ∅ os rs M /\ repr map M.
Proof.
  intros Hlen Hok. apply (run_refines os hsk_map_init_map ∅ 0); [apply repr_init|split; cbn; lia|lia|done].
Qed.

(** [hsk_map_resize], also to a smaller size and in place, keeps the entries: with
    memory it gives the table the least power of two that is at least the requested
    size and 4, all deleted buckets reclaimed, or leaves it as it is when its entries
    would fill more than 0.77 of that; without memory the table keeps its buckets. *)
Theorem map_resize_correct al map M m : repr map M -> 1 <= m <= 2 ^ 31 ->
  (resize_to m < n_buckets map -> al 3%nat = true /\ al 4%nat = true) ->
  resize_to m = Z.max 4 (2 ^ Z.log2_up m) /\
  exists r map', hsk_map_resize al map m = Ret (r, map') /\ repr map' M /\ size map' = size map /\
    ((r = -1 /\ n_buckets map' = n_buckets map /\ exists i, al i = false) \/
     (r = 0 /\ hash_upper (resize_to m) <= size map /\ map' = map) \/
     (r = 0 /\ size map < hash_upper (resize_to m) /\ n_buckets map' = resize_to m /\ n_occupied map' = size map)).
Proof.
  intros Hr Hm Hal. destruct (resize_to_spec m Hm) as [E Hp2]. split; [done|].
  destruct (resize_spec al map M m Hr Hp2 Hal) as (r & map' & Er & [Hr' Hs Hf Hsm Hnew]).
  exists r, map'. split_and!; try done. destruct (decide (r = -1)) as [Hn|Hn].
  - left. split; [done|]. by apply Hf.
  - destruct (Z.le_gt_cases (hash_upper (resize_to m)) (size map)) as [Hle|Hgt].
    + right. left. destruct (Hsm Hn Hle). by split_and!.
    + right. right. destruct (Hnew Hn Hgt) as (? & ? & ? & _). by split_and!.
Qed.
End Props.

(** * The keys of the program *)

#[export] Instance int_funcs : MapFuncs Z := { hash_func := hsk_map_hash_int; equal_func := hsk_map_equal_int }.
#[export, refine] Instance int_key : MapKey Z Z := { key_norm k := k; key_ok _ := True }.
Proof.
  - intros a b _ _. apply Z.eqb_eq.
  - by intros a b _ _ ->.
Defined.
(** Hashes and strings have one type here, so their functions are named. *)
Definition hash_funcs : MapFuncs (list Z) := {| hash_func := hsk_map_hash_hash; equal_func := hsk_map_equal_hash |}.
Lemma take_full (l : list Z) n : length l = n -> take n l = l.
Proof. intros <-. by apply take_ge. Qed.
Definition hash_key : @MapKey (list Z) (list Z) hash_funcs.
Proof.
  refine (@Build_MapKey (list Z) (list Z) hash_funcs id (fun k => length k = 32%nat) _ _).
  - intros a b Ha Hb. cbn. unfold hsk_map_equal_hash. rewrite (take_full a), (take_full b) by done. apply memeq_spec. congruence.
  - intros a b _ _ E. cbn in E. unfold id in E. by subst.
Defined.
Definition str_funcs : MapFuncs (list Z) := {| hash_func := hsk_map_hash_str; equal_func := hsk_map_equal_str |}.
Definition str_key : @MapKey (list Z) (list Z) str_funcs.
Proof.
  refine (@Build_MapKey (list Z) (list Z) str_funcs id (fun _ => True) _ _).
  - intros a b _ _. apply bool_decide_eq_true.
  - intros a b _ _ E. cbn in E. unfold id in E. by subst.
Defined.

(** A run with a rehash that doubles the table, deletions and a failed allocation. *)
Definition sample_ops : list (map_op (K := Z) (V := Z)) :=
  List.map (fun k => OpSet (fun _ => true) (Z.of_nat k) (10 * Z.of_nat k)) (seq 1 9) ++
  [OpDel 4; OpGet 4; OpGet 9; OpSet (fun _ => false) 4 5; OpHas 5; OpSet (fun _ => true) 5 6; OpGet 5; OpClear false; OpHas 5].
Example sample_run : (let* (rs, m) := map_run hsk_map_init_map sample_ops in Ret (drop 9 rs, n_buckets m)) =
  Ret ([RBool true; RValue None; RValue (Some 90); RBool true; RBool true; RBool true; RValue (Some 6); RValues []; RBool false], 16).
Proof. vm_compute. reflexivity. Qed.
Lemma map_refines_witness : exists rs (map : hsk_map_t Z Z) (M : gmap Z Z),
  map_run hsk_map_init_map sample_ops = Ret (rs, map) /\ spec_run ∅ sample_ops rs M /\ repr map M.
Proof.
  refine (map_refines sample_ops _ _).
  - vm_compute. discriminate.
  - unfold sample_ops. repeat constructor.
Defined.
Lemma map_resize_correct_witness : exists r (map : hsk_map_t Z Z),
  hsk_map_resize (fun _ => true) hsk_map_init_map 5 = Ret (r, map) /\ n_buckets map = 8.
Proof.
  destruct (map_resize_correct (V := Z) (fun _ => true) hsk_map_init_map ∅ 5 repr_init) as [_ (r & map & E & _ & _ & H)].
  - split; vm_compute; discriminate.
  - by split.
  - exists r, map. split; [exact E|]. destruct H as [(_ & _ & i & Hi)|[(_ & Hs & _)|(_ & _ & En & _)]].
    + discriminate Hi.
    + vm_compute in Hs. by destruct Hs.
    + rewrite En. reflexivity.
Defined.
