(* ===== verification/Hex.v ===== *)
(** Hexadecimal text: the functions on it in [utils.c]. *)

From S2P Require Import Prelude.

(** -1 is the failure. *)
Definition to_nibble (s : Z) : Z :=
  if (0x30 <=? s) && (s <=? 0x39) then s - 0x30
  else if (0x41 <=? s) && (s <=? 0x46) then s - 0x41 + 0x0a
  else if (0x61 <=? s) && (s <=? 0x66) then s - 0x61 + 0x0a
  else -1.
Definition to_char (n : Z) : Z :=
  if (0x00 <=? n) && (n <=? 0x09) then n + 0x30
  else if (0x0a <=? n) && (n <=? 0x0f) then n - 0x0a + 0x61
  else -1.

Definition hsk_hex_encode_size (data_len : Z) : Z := data_len * 2 + 1.
(** Two turns of the loop for each byte; the characters before the terminator. *)
Fixpoint hsk_hex_encode (data : list Z) : list Z :=
  match data with
  | [] => []
  | b :: data' => to_char (Z.shiftr b 4) :: to_char (Z.land b 15) :: hsk_hex_encode data'
  end.
Definition hsk_hex_decode_size (str : option (list Z)) : Z :=
  match str with Some s => Z.shiftr (Z.of_nat (length s)) 1 | None => 0 end.
(** The turn for character [i]; [w] is the byte in progress. *)
Fixpoint decode_loop (s : list Z) (i w : Z) (data : list Z) : option (list Z) :=
  match s with
  | [] => if Z.land i 1 =? 0 then Some data else None
  | ch :: s' =>
      let n := to_nibble ch in
      if n =? -1 then None
      else if Z.land i 1 =? 0 then decode_loop s' (i + 1) (u8 (Z.shiftl n 4)) data
      else
        let w := Z.lor w n in
        decode_loop s' (i + 1) w (data ++ [w])
  end.
(** [None] as a string is the null pointer: nothing is written. *)
Definition hsk_hex_decode (str : option (list Z)) : option (list Z) :=
  match str with None => Some [] | Some s => decode_loop s 0 0 [] end.

(** * Properties *)

Lemma nibble_char n : 0 <= n < 16 -> to_nibble (to_char n) = n /\ to_char n <> 0.
Proof.
  intros Hn. unfold to_char. destruct (Z.leb_spec 0 n); [|lia]. unfold to_nibble.
  destruct (Z.leb_spec n 9); cbn [andb].
  - destruct (Z.leb_spec 0x30 (n + 0x30)); [|lia]. destruct (Z.leb_spec (n + 0x30) 0x39); cbn; lia.
  - destruct (Z.leb_spec 10 n); [|lia]. destruct (Z.leb_spec n 15); [|lia]. cbn [andb].
    destruct (Z.leb_spec (n - 10 + 97) 0x39); [lia|]. destruct (Z.leb_spec (n - 10 + 97) 0x46); [lia|].
    rewrite !andb_false_r. destruct (Z.leb_spec 0x61 (n - 10 + 97)); [|lia]. destruct (Z.leb_spec (n - 10 + 97) 0x66); cbn; lia.
Qed.
Lemma nibbles b : 0 <= b < 256 -> 0 <= Z.shiftr b 4 < 16 /\ 0 <= Z.land b 15 < 16 /\
  Z.lor (u8 (Z.shiftl (Z.shiftr b 4) 4)) (Z.land b 15) = b.
Proof.
  intros Hb. change 15 with (2 ^ 4 - 1). rewrite land_ones_mod, Z.shiftr_div_pow2 by lia.
  assert (H1 : 0 <= b / 2 ^ 4 < 16) by dlia. assert (H2 : 0 <= b mod 2 ^ 4 < 16) by dlia. do 2 (split; [done|]).
  rewrite u8_small by (rewrite Z.shiftl_mul_pow2; lia). rewrite lor_shiftl_add by lia. dlia.
Qed.
Lemma decode_encode data : bytes data -> forall i acc w, Z.land i 1 = 0 ->
  decode_loop (hsk_hex_encode data) i w acc = Some (acc ++ data).
Proof.
  induction 1 as [|b data Hb _ IH]; intros i acc w Hi; cbn [hsk_hex_encode decode_loop].
  { by rewrite Hi, app_nil_r. }
  destruct (nibbles b Hb) as (H1 & H2 & E).
  destruct (nibble_char _ H1) as [-> _], (nibble_char _ H2) as [-> _].
  destruct (Z.eqb_spec (Z.shiftr b 4) (-1)); [lia|]. rewrite Hi. cbn [Z.eqb].
  destruct (Z.eqb_spec (Z.land b 15) (-1)); [lia|].
  change 1 with (2 ^ 1 - 1) in Hi. rewrite land_ones_mod in Hi by lia.
  assert (Hi1 : Z.land (i + 1) 1 = 1) by (change 1 with (2 ^ 1 - 1) at 2; rewrite land_ones_mod by lia; dlia).
  assert (Hi2 : Z.land (i + 1 + 1) 1 = 0) by (change 1 with (2 ^ 1 - 1) at 3; rewrite land_ones_mod by lia; dlia).
  rewrite Hi1. cbn [Z.eqb]. rewrite E, IH by done. by rewrite <-(assoc_L (++)).
Qed.
Lemma length_hex_encode data : length (hsk_hex_encode data) = (2 * length data)%nat.
Proof. induction data as [|b data IH]; [done|]. cbn [hsk_hex_encode length]. lia. Qed.

(** Hexadecimal text is a round trip: bytes are encoded into twice as many characters,
    which with the terminator is the size computed for the buffer; none of them is a
    terminator; and decoding gives the bytes back, as many as its size function says. *)
Theorem hex_roundtrip data : bytes data ->
  Z.of_nat (length (hsk_hex_encode data)) + 1 = hsk_hex_encode_size (Z.of_nat (length data)) /\
  hsk_hex_decode_size (Some (hsk_hex_encode data)) = Z.of_nat (length data) /\
  Forall (fun c => c <> 0) (hsk_hex_encode data) /\ hsk_hex_decode (Some (hsk_hex_encode data)) = Some data.
Proof.
  intros Hd. unfold hsk_hex_encode_size, hsk_hex_decode_size, hsk_hex_decode. rewrite length_hex_encode.
  split; [lia|]. split; [rewrite Z.shiftr_div_pow2 by lia; dlia|]. split; [|by rewrite decode_encode].
  induction Hd as [|b data Hb _ IH]; [constructor|]. destruct (nibbles b Hb) as (H1 & H2 & _).
  constructor; [by apply nibble_char|]. constructor; [by apply nibble_char|done].
Qed.
Lemma hex_roundtrip_witness : bytes [0; 171; 255] /\ hsk_hex_decode (Some (hsk_hex_encode [0; 171; 255])) = Some [0; 171; 255].
Proof. assert (H : bytes [0; 171; 255]) by (repeat (apply bytes_cons; [lia|]); constructor). split; [exact H|]. apply (hex_roundtrip [0; 171; 255] H). Defined.
