(* ===== verification/DnsName.v ===== *)
(** Domain names of DNS messages: the section on names and labels of [dns.c].

    A C string is the list of its characters before the terminator, each from 1 to
    255. A name is a string with a full stop after every label. On the wire a label
    may have the bytes 0 and 46, which a string cannot: the code stores them as 255
    and 254. *)

From S2P Require Import Prelude Bio Hex Map MapProps.

Definition HSK_DNS_MAX_NAME : Z := 255.
Definition HSK_DNS_MAX_LABEL : Z := 63.
Definition HSK_DNS_MAX_SANITIZED : Z := 1009.
Definition HSK_DNS_MAX_LABELS : Z := 128.
Definition dot : Z := 46.

(** * Parsing

    [dmp] is the message that compression pointers refer to, if there is one. *)

(** How a byte of a label is stored, and back. *)
Definition name_char (b : Z) : Z := if b =? 0x00 then 0xff else if b =? 0x2e then 0xfe else b.
Definition wire_char (ch : Z) : Z := if ch =? 0xff then 0 else if ch =? 0xfe then dot else ch.

(** [data] is the buffer that offsets count in; [res] the length of the name in the
    first one. The result is the string and [res]. *)
Fixpoint parse_loop (fuel : nat) (dmp : option (list Z)) (data : list Z) (off : Z) (name : list Z) (ptr res : Z)
    : outcome (list Z * Z) :=
  match fuel with
  | O => Fault Hang
  | S fuel' =>
      if Z.of_nat (length data) <=? off then Fail
      else
        let* c := of_option Overread (data !! Z.to_nat off) in
        let off := off + 1 in
        if c =? 0x00 then
          let res := if ptr =? 0 then off else res in
          Ret (match name with [] => [dot] | _ => name end, res)
        else if Z.land c 0xc0 =? 0x00 then
          if HSK_DNS_MAX_LABEL <? c then Fail
          else if Z.of_nat (length data) <? off + c then Fail
          else if HSK_DNS_MAX_NAME <? Z.of_nat (length name) + c + 1 then Fail
          else
            let label := take (Z.to_nat c) (drop (Z.to_nat off) data) in
            parse_loop fuel' dmp data (off + c) (name ++ List.map name_char label ++ [dot]) ptr res
        else if Z.land c 0xc0 =? 0xc0 then
          match dmp with
          | None => Fail
          | Some msg =>
              if Z.of_nat (length data) <=? off then Fail
              else
                let* c1 := of_option Overread (data !! Z.to_nat off) in
                let off := off + 1 in
                let res := if ptr =? 0 then off else res in
                let ptr := ptr + 1 in
                if 10 <? ptr then Fail
                else parse_loop fuel' dmp msg (Z.lor (Z.shiftl (Z.lxor c 0xc0) 8) c1) name ptr res
          end
        else Fail
  end.
(** At most 127 labels, ten pointers and the end. *)
Definition parse_fuel : nat := 139.
Definition hsk_dns_name_parse (dmp : option (list Z)) : rd (list Z) := fun data =>
  let* (name, res) := parse_loop parse_fuel dmp data 0 [] 0 0 in
  Ret (name, drop (Z.to_nat res) data).
Definition hsk_dns_name_read (dmp : option (list Z)) : rd (list Z) := hsk_dns_name_parse dmp.
Definition hsk_dns_name_read_size (dmp : option (list Z)) (data : list Z) : outcome Z :=
  match hsk_dns_name_parse dmp data with
  | Ret (name, _) => Ret (Z.of_nat (length name))
  | Fail => Ret (-1)
  | Fault f => Fault f
  end.
Definition hsk_dns_name_alloc (malloc_ok : bool) (dmp : option (list Z)) : rd (list Z) := fun data =>
  let* size := hsk_dns_name_read_size dmp data in
  if size =? -1 then Fail
  else if malloc_ok then
    match hsk_dns_name_read dmp data with Fail => Fault AssertFail | o => o end
  else Fail.

(** * Writing

    The table of a message maps the names written so far, and what follows each of
    their labels, to offsets. It is the [gmap] that [Map] implements; an insertion
    whose allocation fails ([mem] of the name) is ignored by the code. *)
Definition cmp_map := gmap (list Z) Z.

Section Serialize.
Context (mem : list Z -> bool).

(** What [hsk_dns_name_serialize] leaves: its result, the bytes up to [*len], the table. *)
Record serialized := mk_serialized {
  sz_ok : bool;
  sz_out : list Z;
  sz_cmp : option cmp_map;
}.

(** After the loop: [i] characters passed; [ptr] is the target of a pointer or -1. *)
Definition serialize_end (data : bool) (name : list Z) (i : Z) (out : list Z) (ptr : Z) (cmp : option cmp_map)
    : outcome serialized :=
  let off := Z.of_nat (length out) in
  if HSK_DNS_MAX_NAME <? i then Ret (mk_serialized false out cmp)
  else if (i =? 0) || negb (default 0 (name !! Z.to_nat (i - 1)) =? dot) then Ret (mk_serialized false out cmp)
  else if (i =? 1) && (default 0 (name !! 0%nat) =? dot) then Ret (mk_serialized true out cmp)
  else if negb (ptr =? -1) then
    (* [return false] with [*len] not set *)
    if data && (256 <? off + 2) then Fault Overread
    else
      let ptr := Z.lxor ptr 0xc000 in
      Ret (mk_serialized true (out ++ [Z.land (Z.shiftr ptr 8) 0xff; Z.land ptr 0xff]) cmp)
  else if data && (256 <=? off) then Ret (mk_serialized false out cmp)
  else Ret (mk_serialized true (out ++ [0]) cmp).

(** [s] is what follows character [i] of [name]; [base] the offset of the destination in
    the message. Without a destination ([data] false) [out] only gives the length. *)
Fixpoint serialize_loop (data : bool) (base : Z) (name s : list Z) (i begin : Z) (out : list Z) (cmp : option cmp_map)
    : outcome serialized :=
  match s with
  | [] => serialize_end data name i out (-1) cmp
  | ch :: s' =>
      if ch =? dot then
        if (0 <? i) && (default 0 (name !! Z.to_nat (i - 1)) =? dot) then Ret (mk_serialized false out cmp)
        else
          let size := i - begin in
          let off := Z.of_nat (length out) in
          if HSK_DNS_MAX_LABEL <? size then Ret (mk_serialized false out cmp)
          else if data && (256 <? off + 1 + size) then Ret (mk_serialized false out cmp)
          else
            let sub := drop (Z.to_nat begin) name in
            let label := take (Z.to_nat size) sub in
            let next cmp :=
              serialize_loop data base name s' (i + 1) (i + 1) (out ++ [size] ++ List.map wire_char label) cmp in
            match cmp with
            | Some m =>
                if decide (sub = [dot]) then next cmp
                else
                  let p := default 0 (m !! sub) in
                  if p =? 0 then
                    let o := base + off in
                    next (Some (if (o <? 2 * 2 ^ 13) && mem sub then <[sub := o]> m else m))
                  else serialize_end data name (i + Z.of_nat (length s)) out p cmp
            | None => next cmp
            end
      else serialize_loop data base name s' (i + 1) begin out cmp
  end.
Definition hsk_dns_name_serialize (data : bool) (base : Z) (name : list Z) (cmp : option cmp_map) : outcome serialized :=
  serialize_loop data base name name 0 0 [] cmp.
End Serialize.

Definition hsk_dns_name_pack (data : bool) (name : list Z) : outcome (Z * list Z) :=
  let* r := hsk_dns_name_serialize (fun _ => true) data 0 name None in
  Ret (if sz_ok r then Z.of_nat (length (sz_out r)) else 0, sz_out r).

(** A writer into a message: no destination, or the bytes of the message so far with
    the table of names, if names are to be compressed. *)
Definition dst := option (list Z * option cmp_map).
Definition dwr := dst -> outcome (Z * dst).
Definition dret : dwr := fun o => Ret (0, o).
Definition dseq (w1 w2 : dwr) : dwr := fun o =>
  let* (s1, o) := w1 o in
  let* (s2, o) := w2 o in
  Ret (s1 + s2, o).
(** A writer of [bio.h] in a message. *)
Definition dlift (w : wr) : dwr := fun o =>
  match o with
  | None => Ret (fst (w None), None)
  | Some (acc, c) => let (s, acc') := w (Some acc) in Ret (s, Some (default [] acc', c))
  end.
Definition hsk_dns_name_write (mem : list Z -> bool) (name : list Z) : dwr := fun o =>
  match o with
  | None =>
      let* r := hsk_dns_name_serialize mem false 0 name None in
      Ret (Z.of_nat (length (sz_out r)), None)
  | Some (acc, c) =>
      let* r := hsk_dns_name_serialize mem true (Z.of_nat (length acc)) name c in
      Ret (Z.of_nat (length (sz_out r)), Some (acc ++ sz_out r, sz_cmp r))
  end.

(** * Tests on names *)

(** The characters of "();\ @" and the double quote. *)
Definition special (c : Z) : bool :=
  (c =? 0x28) || (c =? 0x29) || (c =? 0x3b) || (c =? 0x20) || (c =? 0x40) || (c =? 0x22) || (c =? 0x5c).
Fixpoint hsk_dns_name_dirty (name : list Z) : bool :=
  match name with
  | [] => false
  | c :: name' => if special c then true else if (c <? 0x20) || (0x7e <? c) then true else hsk_dns_name_dirty name'
  end.
Fixpoint sanitize_loop (s : list Z) (out : list Z) : list Z :=
  match s with
  | [] => out
  | c :: s' =>
      if Z.of_nat (length out) <? HSK_DNS_MAX_SANITIZED then
        if c =? 0xfe then sanitize_loop s' (out ++ [0x5c; 0x2e])
        else if special c then sanitize_loop s' (out ++ [0x5c; c])
        else
          let c := if c =? 0xff then 0x00 else c in
          if (c <? 0x20) || (0x7e <? c) then
            sanitize_loop s' (out ++ [0x5c; u8 (c / 100 + 0x30); u8 (c / 10 + 0x30); u8 (c mod 10 + 0x30)])
          else sanitize_loop s' (out ++ [c])
      else out
  end.
Definition hsk_dns_name_sanitize (name : list Z) : list Z := sanitize_loop name [].

(** [None] is the null pointer. *)
Definition hsk_dns_name_verify (name : option (list Z)) : outcome bool :=
  match name with
  | None => Ret false
  | Some n =>
      let bare := match last n with Some c => negb (c =? dot) | None => true end in
      if bare && (HSK_DNS_MAX_NAME <? Z.of_nat (length n) + 1) then Ret false
      else
        let n := if bare then n ++ [dot] else n in
        if HSK_DNS_MAX_NAME <? Z.of_nat (length n) then Ret false
        else let* (len, _) := hsk_dns_name_pack false n in Ret (negb (len =? 0))
  end.
Definition hsk_dns_name_is_fqdn (name : option (list Z)) : bool :=
  match name with
  | None => false
  | Some n => match last n with Some c => c =? dot | None => false end
  end.
Definition to_lower8 (x : Z) : Z := if (0x41 <=? x) && (x <=? 0x5a) then Z.lor x 0x20 else x.
Fixpoint name_cmp_loop (a b : list Z) : Z :=
  match a, b with
  | x :: a', y :: b' =>
      let x := to_lower8 x in
      let y := to_lower8 y in
      if x <? y then -1 else if y <? x then 1 else name_cmp_loop a' b'
  | _, _ => if (length a <? length b)%nat then -1 else if (length b <? length a)%nat then 1 else 0
  end.
(** Without a final full stop. *)
Definition trim_dot (n : list Z) : list Z :=
  match last n with
  | Some c => if c =? dot then removelast n else n
  | None => n
  end.
Definition hsk_dns_name_cmp (a b : option (list Z)) : Z :=
  match a, b with
  | None, None => 0
  | None, Some _ => -1
  | Some _, None => 1
  | Some a, Some b => name_cmp_loop (trim_dot a) (trim_dot b)
  end.
Definition hsk_to_lower (name : list Z) : list Z :=
  List.map (fun c => if (0x41 <=? c) && (c <=? 0x5a) then c + 0x20 else c) name.

(** * Labels *)

(** The offsets of the labels, at most [size] of them. *)
Fixpoint split_loop (s : list Z) (i : Z) (dot_seen : bool) (labels : list Z) (size : Z) : list Z :=
  match s with
  | [] => labels
  | c :: s' =>
      if Z.of_nat (length labels) <? size then
        if c =? dot then split_loop s' (i + 1) true labels size
        else if dot_seen then split_loop s' (i + 1) false (labels ++ [u8 i]) size
        else split_loop s' (i + 1) false labels size
      else labels
  end.
Definition hsk_dns_label_split (name : list Z) (size : Z) : list Z := split_loop name 0 true [] size.
Definition hsk_dns_label_count (name : list Z) : Z :=
  Z.of_nat (length (hsk_dns_label_split name HSK_DNS_MAX_LABELS)).

(** A read of [labels[index]] outside the array is a fault; the empty string stands for
    the failure. *)
Definition label_at (labels : list Z) (index : Z) : outcome Z :=
  if index <? 0 then Fault Overread else of_option Overread (labels !! Z.to_nat index).
Definition hsk_dns_label_from2 (name labels : list Z) (index : Z) : outcome (list Z) :=
  let count := Z.of_nat (length labels) in
  let index := if index <? 0 then index + count else index in
  if count <=? index then Ret []
  else
    let* start := label_at labels index in
    let len := Z.of_nat (length name) - start in
    if (len =? 0) || (len <? 0) || (HSK_DNS_MAX_NAME <? len) then Ret []
    else Ret (drop (Z.to_nat start) name).
Definition hsk_dns_label_from (name : list Z) (index : Z) : outcome (list Z) :=
  let count := hsk_dns_label_count name in
  if count =? 0 then Ret []
  else hsk_dns_label_from2 name (hsk_dns_label_split name count) index.
(** Where a label ends: before the next one, or before the final full stop. *)
Definition label_end (name labels : list Z) (index : Z) : outcome Z :=
  if Z.of_nat (length labels) <=? index + 1 then
    let e := Z.of_nat (length name) - 1 in
    let* c := of_option Overread (if e <? 0 then None else name !! Z.to_nat e) in
    Ret (if c =? dot then e else e + 1)
  else
    let* next := label_at labels (index + 1) in
    Ret (next - 1).
Definition hsk_dns_label_get2 (name labels : list Z) (index : Z) : outcome (list Z) :=
  let count := Z.of_nat (length labels) in
  let index := if index <? 0 then index + count else index in
  if count <=? index then Ret []
  else
    let* start := label_at labels index in
    let* end_ := label_end name labels index in
    let len := end_ - start in
    if (len =? 0) || (len <? 0) || (HSK_DNS_MAX_LABEL <? len) then Ret []
    else Ret (take (Z.to_nat len) (drop (Z.to_nat start) name)).
Definition hsk_dns_label_get (name : list Z) (index : Z) : outcome (list Z) :=
  let count := hsk_dns_label_count name in
  if count =? 0 then Ret []
  else hsk_dns_label_get2 name (hsk_dns_label_split name count) index.

(** [sub] has room for 255 characters, terminator included. *)
Definition hsk_dns_is_subdomain (parent child : list Z) : outcome bool :=
  let parent_count := hsk_dns_label_count parent in
  let child_count := hsk_dns_label_count child in
  if parent_count =? 0 then Ret true
  else if child_count <? parent_count then Ret false
  else
    let child_labels := hsk_dns_label_split child child_count in
    let* sub := hsk_dns_label_from2 child child_labels (- parent_count) in
    if HSK_DNS_MAX_NAME <=? Z.of_nat (length sub) then Fault Overread
    else Ret (bool_decide (sub = parent)).

(** ** Names of services *)

(** The names that hold a hash in their first label; [tag] is the second one. *)
Definition strcasecmp_eq (a b : list Z) : bool := bool_decide (List.map to_lower8 a = List.map to_lower8 b).
Definition hsk_dns_label_decode_dane (tag name : list Z) : outcome (list Z) :=
  let count := hsk_dns_label_count name in
  if count <? 3 then Fail
  else
    let labels := hsk_dns_label_split name count in
    let* label := hsk_dns_label_get2 name labels 1 in
    if Z.of_nat (length label) <? 2 then Fail
    else if negb (strcasecmp_eq label tag) then Fail
    else
      let* label := hsk_dns_label_get2 name labels 0 in
      if negb (Z.of_nat (length label) =? 56) then Fail
      else match hsk_hex_decode (Some label) with Some hash => Ret hash | None => Fail end.
(** "_smimecert" and "_openpgpkey". *)
Definition hsk_dns_label_decode_smimea (name : list Z) : outcome (list Z) :=
  hsk_dns_label_decode_dane [95; 115; 109; 105; 109; 101; 99; 101; 114; 116] name.
Definition hsk_dns_label_decode_openpgpkey (name : list Z) : outcome (list Z) :=
  hsk_dns_label_decode_dane [95; 111; 112; 101; 110; 112; 103; 112; 107; 101; 121] name.
Definition starts_underscore (label : list Z) : outcome bool :=
  let* c := of_option Overread (label !! 0%nat) in Ret (c =? 0x5f).
(** The protocol and the service in lower case, without the underscore. *)
Definition hsk_dns_label_decode_srv (name : list Z) : outcome (list Z * list Z) :=
  let count := hsk_dns_label_count name in
  if count <? 3 then Fail
  else
    let labels := hsk_dns_label_split name count in
    let* label := hsk_dns_label_get2 name labels 1 in
    if Z.of_nat (length label) <? 2 then Fail
    else
      let* u := starts_underscore label in
      if negb u then Fail
      else
        let protocol := hsk_to_lower (drop 1 label) in
        let* label := hsk_dns_label_get2 name labels 0 in
        if Z.of_nat (length label) <? 2 then Fail
        else
          let* u := starts_underscore label in
          if negb u then Fail else Ret (protocol, hsk_to_lower (drop 1 label)).
Fixpoint tlsa_port_loop (s : list Z) (word : Z) : option Z :=
  match s with
  | [] => Some word
  | c :: s' =>
      let ch := i8 c - 0x30 in
      if (ch <? 0) || (9 <? ch) then None
      else
        let word := u32 (u32 (word * 10) + ch) in
        if 0xffff <? word then None else tlsa_port_loop s' word
  end.
Definition hsk_dns_label_decode_tlsa (name : list Z) : outcome (list Z * Z) :=
  let count := hsk_dns_label_count name in
  if count <? 3 then Fail
  else
    let labels := hsk_dns_label_split name count in
    let* label := hsk_dns_label_get2 name labels 1 in
    if Z.of_nat (length label) <? 2 then Fail
    else
      let* u := starts_underscore label in
      if negb u then Fail
      else
        let protocol := hsk_to_lower (drop 1 label) in
        let* label := hsk_dns_label_get2 name labels 0 in
        if (Z.of_nat (length label) <? 2) || (6 <? Z.of_nat (length label)) then Fail
        else
          let* u := starts_underscore label in
          if negb u then Fail
          else match tlsa_port_loop (drop 1 label) 0 with
               | Some word => Ret (protocol, u16 word)
               | None => Fail
               end.
