(* ===== verification/DnsNameProps.v ===== *)
(** Properties of domain names: what the parser returns, round trips without and with
    compression, the depth of compression pointers. *)

From S2P Require Import Prelude Bio Map MapProps DnsName.

(** * Names as lists of labels *)

Definition char_ok (c : Z) : Prop := 1 <= c <= 255 /\ c <> dot.
Definition label_ok (l : list Z) : Prop := 1 <= Z.of_nat (length l) <= 63 /\ Forall char_ok l.
#[export] Instance char_ok_dec c : Decision (char_ok c).
Proof. unfold char_ok. solve_decision. Defined.
#[export] Instance label_ok_dec l : Decision (label_ok l).
Proof. unfold label_ok. solve_decision. Defined.

(** The labels, each with its full stop; the root is a full stop alone. *)
Definition body (ls : list (list Z)) : list Z := concat (List.map (fun l => l ++ [dot]) ls).
Definition text (ls : list (list Z)) : list Z := match ls with [] => [dot] | _ => body ls end.
Definition name_ok (ls : list (list Z)) : Prop := Forall label_ok ls /\ Z.of_nat (length (body ls)) <= 255.
Definition wire_label (l : list Z) : list Z := Z.of_nat (length l) :: List.map wire_char l.
Definition wire_labels (ls : list (list Z)) : list Z := concat (List.map wire_label ls).

Lemma body_cons l ls : body (l :: ls) = l ++ dot :: body ls.
Proof. unfold body. cbn. by rewrite <-(assoc_L (++)). Qed.
Lemma body_app ls ks : body (ls ++ ks) = body ls ++ body ks.
Proof. unfold body. by rewrite List.map_app, concat_app. Qed.
Lemma wire_labels_app ls ks : wire_labels (ls ++ ks) = wire_labels ls ++ wire_labels ks.
Proof. unfold wire_labels. by rewrite List.map_app, concat_app. Qed.
Lemma wire_labels_cons l ls : wire_labels (l :: ls) = wire_label l ++ wire_labels ls.
Proof. done. Qed.
Lemma length_body_cons l ls : Z.of_nat (length (body (l :: ls))) = Z.of_nat (length l) + 1 + Z.of_nat (length (body ls)).
Proof. rewrite body_cons, length_app. cbn [length]. lia. Qed.
Lemma length_wire_labels ls : length (wire_labels ls) = length (body ls).
Proof.
  induction ls as [|l ls IH]; [done|]. rewrite wire_labels_cons, body_cons. unfold wire_label.
  rewrite !length_app. cbn [length]. rewrite length_map, IH. lia.
Qed.
Lemma body_length_pos l ls : label_ok l -> 2 <= Z.of_nat (length (body (l :: ls))).
Proof. intros [[H _] _]. rewrite length_body_cons. lia. Qed.
Lemma text_body ls : ls <> [] -> text ls = body ls.
Proof. by destruct ls. Qed.
Lemma body_nil_inv ls : Forall label_ok ls -> body ls = [] -> ls = [].
Proof. destruct ls as [|l ls]; [done|]. intros _. rewrite body_cons. by destruct l. Qed.
Lemma text_fin name ls : Forall label_ok ls -> name = body ls -> match name with [] => [dot] | _ => name end = text ls.
Proof.
  intros Hok ->. destruct ls as [|l ls]; [done|]. cbn [text]. destruct (body (l :: ls)) eqn:E; [|done].
  by apply body_nil_inv in E.
Qed.

Lemma wire_name_char c : char_ok c -> name_char (wire_char c) = c.
Proof.
  intros [Hc Hd]. unfold wire_char, name_char, dot in *. destruct (Z.eqb_spec c 0xff) as [->|]; [done|].
  destruct (Z.eqb_spec c 0xfe) as [->|]; [done|]. destruct (Z.eqb_spec c 0); [lia|].
  by destruct (Z.eqb_spec c 0x2e).
Qed.
Lemma name_char_ok b : 0 <= b < 256 -> char_ok (name_char b).
Proof.
  intros Hb. unfold name_char, char_ok, dot. destruct (Z.eqb_spec b 0); [lia|]. destruct (Z.eqb_spec b 0x2e); lia.
Qed.
Lemma wire_char_byte c : char_ok c -> 0 <= wire_char c < 256.
Proof.
  intros [Hc Hd]. unfold wire_char, dot. destruct (Z.eqb_spec c 0xff); [lia|]. destruct (Z.eqb_spec c 0xfe); lia.
Qed.
Lemma map_name_wire l : Forall char_ok l -> List.map name_char (List.map wire_char l) = l.
Proof. induction 1 as [|c l Hc _ IH]; [done|]. cbn. by rewrite wire_name_char, IH. Qed.
Lemma bytes_wire_labels ls : Forall label_ok ls -> bytes (wire_labels ls).
Proof.
  induction 1 as [|l ls [Hl Hc] _ IH]; [constructor|]. rewrite wire_labels_cons. apply bytes_app. split; [|done].
  unfold wire_label. apply bytes_cons; [lia|]. apply Forall_map. eapply Forall_impl; [exact Hc|]. intros c. apply wire_char_byte.
Qed.

(** The top two bits of a byte. *)
Lemma top_bits c : 0 <= c < 256 ->
  (Z.land c 0xc0 = 0 <-> c < 64) /\ (Z.land c 0xc0 = 0xc0 <-> 192 <= c).
Proof.
  intros Hc. assert (H : forallb (fun k => let c := Z.of_nat k in
    Bool.eqb (Z.land c 0xc0 =? 0) (c <? 64) && Bool.eqb (Z.land c 0xc0 =? 0xc0) (192 <=? c)) (seq 0 256) = true)
    by (vm_compute; reflexivity).
  rewrite forallb_forall in H. specialize (H (Z.to_nat c)). rewrite Z2Nat.id in H by lia.
  assert (Hin : In (Z.to_nat c) (seq 0 256)) by (apply in_seq; lia).
  apply H, andb_true_iff in Hin as [H1%eqb_prop H2%eqb_prop].
  rewrite <-Z.eqb_eq, H1, Z.ltb_lt. rewrite <-(Z.eqb_eq _ 0xc0), H2, Z.leb_le. done.
Qed.

(** * What the parser returns *)

Lemma lookup_in_range (d : list Z) off : 0 <= off < Z.of_nat (length d) ->
  exists c, d !! Z.to_nat off = Some c.
Proof. intros Ho. destruct (lookup_lt_is_Some_2 d (Z.to_nat off)) as [c Hc]; [lia|by exists c]. Qed.
Lemma bytes_lookup d i c : bytes d -> d !! i = Some c -> 0 <= c < 256.
Proof. intros Hd Hl. by apply (Forall_lookup_1 _ _ _ _ Hd Hl). Qed.
Lemma ptr_range c c1 : 0 <= c < 256 -> 0 <= c1 < 256 -> 192 <= c ->
  0 <= Z.lor (Z.shiftl (Z.lxor c 0xc0) 8) c1 < 16384.
Proof.
  intros Hc Hc1 H. assert (Hx : 0 <= Z.lxor c 0xc0 < 64).
  { assert (Hall : forallb (fun k => let x := Z.lxor (192 + Z.of_nat k) 0xc0 in (0 <=? x) && (x <? 64)) (seq 0 64) = true)
      by (vm_compute; reflexivity).
    rewrite forallb_forall in Hall. specialize (Hall (Z.to_nat (c - 192))). rewrite Z2Nat.id in Hall by lia.
    assert (Hin : In (Z.to_nat (c - 192)) (seq 0 64)) by (apply in_seq; lia).
    apply Hall in Hin. replace (192 + (c - 192)) with c in Hin by lia.
    by apply andb_true_iff in Hin as [?%Z.leb_le ?%Z.ltb_lt]. }
  rewrite lor_shiftl_add by lia. lia.
Qed.

Definition dmp_ok (dmp : option (list Z)) : Prop := match dmp with Some msg => bytes msg | None => True end.

(** The loop ends for any buffer, message and state in which it is met; what it adds
    keeps the name within 255 characters. *)
Lemma parse_loop_safe fuel dmp data off ls ptr res : dmp_ok dmp -> bytes data -> 0 <= off -> name_ok ls ->
  0 <= ptr <= 10 -> 0 <= res ->
  (255 - Z.of_nat (length (body ls))) + 2 * (10 - ptr) + 2 < 2 * Z.of_nat fuel ->
  match parse_loop fuel dmp data off (body ls) ptr res with
  | Ret (name, res') => (exists ks, name_ok (ls ++ ks) /\ name = text (ls ++ ks)) /\ 0 <= res' /\
      (ptr = 0 -> off < res' <= Z.of_nat (length data)) /\ (ptr <> 0 -> res' = res)
  | Fail => True
  | Fault _ => False
  end.
Proof.
  intros Hd. revert data off ls ptr res; induction fuel as [|fuel IH]; intros data off ls ptr res Hb Ho Hn Hp Hr Hf.
  { destruct Hn. lia. }
  cbn [parse_loop]. destruct (Z.leb_spec (Z.of_nat (length data)) off) as [|Hlt]; [done|].
  destruct (lookup_in_range data off ltac:(lia)) as [c Hc]. rewrite Hc. cbn [of_option obind].
  assert (Hcr := bytes_lookup _ _ _ Hb Hc). destruct (top_bits c Hcr) as [Ht0 Ht3].
  destruct (Z.eqb_spec c 0) as [->|Hc0].
  { split; [exists []; rewrite app_nil_r; split; [done|by apply text_fin; [apply Hn|]]|].
    destruct (Z.eqb_spec ptr 0); split_and!; try lia; try done. }
  destruct (Z.eqb_spec (Z.land c 192) 0) as [E0|E0].
  { apply Ht0 in E0. unfold HSK_DNS_MAX_LABEL, HSK_DNS_MAX_NAME.
    destruct (Z.ltb_spec 63 c); [done|]. destruct (Z.ltb_spec (Z.of_nat (length data)) (off + 1 + c)) as [|Hfit]; [done|].
    destruct (Z.ltb_spec 255 (Z.of_nat (length (body ls)) + c + 1)) as [|Hmax]; [done|].
    set (label := List.map name_char (take (Z.to_nat c) (drop (Z.to_nat (off + 1)) data))).
    assert (Hll : Z.of_nat (length label) = c).
    { unfold label. rewrite length_map, length_take, length_drop. lia. }
    assert (Hlok : label_ok label).
    { split; [lia|]. unfold label. apply Forall_map. eapply Forall_impl; [|intros b; apply name_char_ok].
      apply bytes_take, bytes_drop, Hb. }
    replace (body ls ++ label ++ [dot]) with (body (ls ++ [label])).
    2: { rewrite body_app, body_cons. unfold body at 2. cbn. done. }
    assert (Hlen : Z.of_nat (length (body (ls ++ [label]))) = Z.of_nat (length (body ls)) + c + 1).
    { rewrite body_app, length_app, Nat2Z.inj_add, length_body_cons. cbn [body List.map concat length]. lia. }
    assert (Hn' : name_ok (ls ++ [label])).
    { split; [|lia]. apply Forall_app. split; [apply Hn|by apply Forall_singleton]. }
    specialize (IH data (off + 1 + c) (ls ++ [label]) ptr res Hb ltac:(lia) Hn' Hp Hr ltac:(lia)).
    destruct (parse_loop _ _ _ _ _ _ _) as [[name res']| |]; try done.
    destruct IH as ((ks & Hks & ->) & Hr0 & Hr1 & Hr2). split; [exists (label :: ks); by rewrite <-(assoc_L (++)) in *|].
    split_and!; try done. intros E. specialize (Hr1 E). lia. }
  destruct (Z.eqb_spec (Z.land c 192) 192) as [E3|]; [|done]. apply Ht3 in E3.
  destruct dmp as [msg|]; [|done]. destruct (Z.leb_spec (Z.of_nat (length data)) (off + 1)) as [|Hlt1]; [done|].
  destruct (lookup_in_range data (off + 1) ltac:(lia)) as [c1 Hc1]. rewrite Hc1. cbn [of_option obind].
  assert (Hcr1 := bytes_lookup _ _ _ Hb Hc1). assert (Hpr := ptr_range c c1 Hcr Hcr1 E3).
  destruct (Z.ltb_spec 10 (ptr + 1)) as [|Hp1]; [done|].
  specialize (IH msg (Z.lor (Z.shiftl (Z.lxor c 192) 8) c1) ls (ptr + 1) (if ptr =? 0 then off + 1 + 1 else res)
    Hd ltac:(lia) Hn ltac:(lia)). 
  assert (Hres : 0 <= (if ptr =? 0 then off + 1 + 1 else res)) by (destruct (ptr =? 0); lia).
  specialize (IH Hres ltac:(lia)). destruct (parse_loop _ _ _ _ _ _ _) as [[name res']| |]; try done.
  destruct IH as (Hks & Hr0 & _ & Hr2). split_and!; try done.
  - intros ->. cbn in Hr2. lia.
  - intros Hne. rewrite (proj2 (Z.eqb_neq _ _) Hne) in Hr2. lia.
Qed.

(** * What a place of a message decodes to

    Labels follow each other up to a zero byte, or to a pointer to another place; [d]
    counts the pointers. *)
Definition ptr_to (hi lo : Z) : Z := Z.lor (Z.shiftl (Z.lxor hi 0xc0) 8) lo.

Inductive decodes (msg : list Z) : Z -> list (list Z) -> nat -> Prop :=
  | decodes_end o ks rest :
      0 <= o -> drop (Z.to_nat o) msg = wire_labels ks ++ 0 :: rest -> decodes msg o ks 0
  | decodes_ptr o ks hi lo rest ls d :
      0 <= o -> drop (Z.to_nat o) msg = wire_labels ks ++ hi :: lo :: rest -> 192 <= hi < 256 -> 0 <= lo < 256 ->
      decodes msg (ptr_to hi lo) ls d -> decodes msg o (ks ++ ls) (S d).

Lemma decodes_nonneg msg o ls d : decodes msg o ls d -> 0 <= o.
Proof. by destruct 1. Qed.
Lemma drop_app_l (l k : list Z) n x : drop n l = x -> x <> [] -> drop n (l ++ k) = x ++ k.
Proof.
  intros <- Hx. apply drop_app_le. destruct (Nat.le_gt_cases n (length l)) as [|H]; [done|].
  by rewrite drop_ge in Hx by lia.
Qed.
Lemma app_cons_nonempty (l : list Z) a k : l ++ a :: k <> [].
Proof. by destruct l. Qed.
Lemma decodes_app msg x o ls d : decodes msg o ls d -> decodes (msg ++ x) o ls d.
Proof.
  induction 1 as [o ks rest Ho Hd|o ks hi lo rest ls d Ho Hd Hh Hl _ IH].
  - eapply (decodes_end _ _ _ (rest ++ x)); [done|]. rewrite (drop_app_l _ _ _ _ Hd); [|apply app_cons_nonempty].
    by rewrite <-(assoc_L (++)).
  - eapply (decodes_ptr _ _ _ hi lo (rest ++ x)); try done.
    rewrite (drop_app_l _ _ _ _ Hd); [|apply app_cons_nonempty]. by rewrite <-(assoc_L (++)).
Qed.
(** One more label in front. *)
Lemma decodes_cons msg o l ls d rest : drop (Z.to_nat o) msg = wire_label l ++ rest -> 0 <= o ->
  decodes msg (o + Z.of_nat (length (wire_label l))) ls d -> decodes msg o (l :: ls) d.
Proof.
  intros Hd Ho H. assert (Hn : forall k, drop (Z.to_nat (o + Z.of_nat (length (wire_label l)))) msg = k ->
    drop (Z.to_nat o) msg = wire_label l ++ k).
  { intros k <-. rewrite Hd. f_equal. replace (Z.to_nat (o + _)) with (Z.to_nat o + length (wire_label l))%nat by lia.
    by rewrite <-drop_drop, Hd, drop_app_length. }
  inversion H as [? ks r _ Hk|? ks hi lo r ks' d' _ Hk Hh Hl Hk']; subst.
  - apply (decodes_end _ _ _ r); [done|]. by rewrite (Hn _ Hk), wire_labels_cons, <-(assoc_L (++)).
  - apply (decodes_ptr _ _ (l :: ks) hi lo r); try done.
    by rewrite (Hn _ Hk), wire_labels_cons, <-(assoc_L (++)).
Qed.

(** * The parser on literal labels *)

Lemma drop_lookup (data : list Z) off c rest : drop off data = c :: rest -> data !! off = Some c.
Proof. intros H. rewrite <-(Nat.add_0_r off), <-lookup_drop, H. done. Qed.
Lemma drop_length_cons (data : list Z) off c rest : drop off data = c :: rest ->
  (length data = off + 1 + length rest)%nat.
Proof.
  intros H. assert (Hl := f_equal length H). rewrite length_drop in Hl. cbn [length] in Hl. lia.
Qed.

Lemma parse_label fuel dmp data off l ls rest ptr res : 0 <= off -> label_ok l ->
  drop (Z.to_nat off) data = wire_label l ++ rest ->
  Z.of_nat (length (body ls)) + Z.of_nat (length l) + 1 <= 255 ->
  parse_loop (S fuel) dmp data off (body ls) ptr res =
  parse_loop fuel dmp data (off + Z.of_nat (length (wire_label l))) (body (ls ++ [l])) ptr res.
Proof.
  intros Ho [Hl Hc] Hd Hlen. unfold wire_label in *. cbn [app] in Hd.
  assert (Hlk := drop_lookup _ _ _ _ Hd). assert (Hlen' := drop_length_cons _ _ _ _ Hd).
  rewrite length_app, length_map in Hlen'. cbn [parse_loop].
  destruct (Z.leb_spec (Z.of_nat (length data)) off) as [H|_]; [lia|]. rewrite Hlk. cbn [of_option obind].
  destruct (Z.eqb_spec (Z.of_nat (length l)) 0) as [E|_]; [lia|].
  rewrite (proj2 (Z.eqb_eq (Z.land _ 192) 0)) by (apply top_bits; lia).
  unfold HSK_DNS_MAX_LABEL, HSK_DNS_MAX_NAME.
  destruct (Z.ltb_spec 63 (Z.of_nat (length l))) as [E|_]; [lia|].
  destruct (Z.ltb_spec (Z.of_nat (length data)) (off + 1 + Z.of_nat (length l))) as [E|_]; [lia|].
  destruct (Z.ltb_spec 255 (Z.of_nat (length (body ls)) + Z.of_nat (length l) + 1)) as [E|_]; [lia|].
  replace (Z.to_nat (off + 1)) with (Z.to_nat off + 1)%nat by lia. rewrite <-drop_drop, Hd. rewrite skipn_cons, drop_0.
  rewrite Nat2Z.id, take_app_length', map_name_wire by (by rewrite ?length_map).
  replace (body (ls ++ [l])) with (body ls ++ l ++ [dot]).
  2: { rewrite body_app, body_cons. done. }
  f_equal. cbn [length]. rewrite length_map. lia.
Qed.

Lemma parse_labels fuel dmp data off ks ls rest ptr res : 0 <= off -> Forall label_ok ks ->
  drop (Z.to_nat off) data = wire_labels ks ++ rest ->
  Z.of_nat (length (body (ls ++ ks))) <= 255 ->
  parse_loop (length ks + fuel) dmp data off (body ls) ptr res =
  parse_loop fuel dmp data (off + Z.of_nat (length (wire_labels ks))) (body (ls ++ ks)) ptr res.
Proof.
  intros Ho Hk. revert off ls Ho; induction Hk as [|l ks Hl _ IH]; intros off ls Ho Hd Hlen.
  { cbn. by rewrite app_nil_r, Z.add_0_r. }
  rewrite wire_labels_cons, <-(assoc_L (++)) in Hd. cbn [length Nat.add].
  assert (E : ls ++ l :: ks = (ls ++ [l]) ++ ks) by (by rewrite <-(assoc_L (++))). rewrite E in *.
  assert (Hl2 : Z.of_nat (length (body ls)) + Z.of_nat (length l) + 1 <= 255).
  { rewrite !body_app, !length_app, body_cons, length_app in Hlen. cbn [length] in Hlen. lia. }
  rewrite (parse_label _ _ _ _ l ls _ _ _ Ho Hl Hd Hl2).
  rewrite IH; [|lia| |done].
  - f_equal. rewrite wire_labels_cons, length_app. lia.
  - replace (Z.to_nat (off + _)) with (Z.to_nat off + length (wire_label l))%nat by lia.
    by rewrite <-drop_drop, Hd, drop_app_length.
Qed.
Lemma parse_zero fuel dmp data off ls rest ptr res : 0 <= off -> Forall label_ok ls ->
  drop (Z.to_nat off) data = 0 :: rest ->
  parse_loop (S fuel) dmp data off (body ls) ptr res = Ret (text ls, if ptr =? 0 then off + 1 else res).
Proof.
  intros Ho Hls Hd. assert (Hl := drop_length_cons _ _ _ _ Hd). cbn [parse_loop].
  destruct (Z.leb_spec (Z.of_nat (length data)) off) as [H|_]; [lia|].
  rewrite (drop_lookup _ _ _ _ Hd). cbn [of_option obind]. cbn [Z.eqb]. by rewrite <-(text_fin (body ls) ls).
Qed.
Lemma parse_ptr fuel msg data off ls hi lo rest ptr res : 0 <= off ->
  drop (Z.to_nat off) data = hi :: lo :: rest -> 192 <= hi < 256 -> 0 <= ptr < 10 ->
  parse_loop (S fuel) (Some msg) data off (body ls) ptr res =
  parse_loop fuel (Some msg) msg (ptr_to hi lo) (body ls) (ptr + 1) (if ptr =? 0 then off + 2 else res).
Proof.
  intros Ho Hd Hh Hp. assert (Hl := drop_length_cons _ _ _ _ Hd). cbn [length] in Hl.
  assert (Hlk := drop_lookup _ _ _ _ Hd).
  assert (Hlk2 : data !! Z.to_nat (off + 1) = Some lo).
  { replace (Z.to_nat (off + 1)) with (Z.to_nat off + 1)%nat by lia. by rewrite <-lookup_drop, Hd. }
  cbn [parse_loop]. destruct (top_bits hi ltac:(lia)) as [H0 H3].
  destruct (Z.leb_spec (Z.of_nat (length data)) off) as [H|_]; [lia|]. rewrite Hlk. cbn [of_option obind].
  destruct (Z.eqb_spec hi 0) as [|_]; [lia|].
  destruct (Z.eqb_spec (Z.land hi 192) 0) as [E%H0|_]; [lia|].
  rewrite (proj2 (Z.eqb_eq (Z.land hi 192) 192)) by (apply H3; lia).
  destruct (Z.leb_spec (Z.of_nat (length data)) (off + 1)) as [H|_]; [lia|]. rewrite Hlk2. cbn [of_option obind].
  destruct (Z.ltb_spec 10 (ptr + 1)) as [H|_]; [lia|]. unfold ptr_to. by replace (off + 1 + 1) with (off + 2) by lia.
Qed.
Lemma parse_decodes msg o ls d : decodes msg o ls d -> forall fuel pre ptr res,
  Forall label_ok (pre ++ ls) -> Z.of_nat (length (body (pre ++ ls))) <= 255 ->
  0 < ptr -> ptr + Z.of_nat d <= 10 -> (length ls + d < fuel)%nat ->
  parse_loop fuel (Some msg) msg o (body pre) ptr res = Ret (text (pre ++ ls), res).
Proof.
  induction 1 as [o ks rest Ho Hd|o ks hi lo rest ls d Ho Hd Hh Hl _ IH];
    intros fuel pre ptr res Hok Hlen Hp Hpd Hf; assert (Hok' := Hok); apply Forall_app in Hok' as [Hpre Hks].
  - replace fuel with (length ks + S (fuel - length ks - 1))%nat by lia.
    rewrite (parse_labels _ _ _ _ ks _ _ _ _ Ho Hks Hd Hlen), (parse_zero _ _ _ _ _ rest); [|lia|done|].
    + by destruct (Z.eqb_spec ptr 0); [lia|].
    + rewrite <-(Nat2Z.id (length (wire_labels ks))), Nat2Z.id, Z2Nat.inj_add, Nat2Z.id by lia.
      by rewrite <-drop_drop, Hd, drop_app_length.
  - apply Forall_app in Hks as [Hks Hls]. rewrite length_app in Hf.
    replace fuel with (length ks + S (fuel - length ks - 1))%nat by lia. rewrite (assoc_L (++)) in *.
    rewrite (parse_labels _ _ _ _ ks _ _ _ _ Ho Hks Hd).
    2: { rewrite body_app, length_app in Hlen. lia. }
    rewrite (parse_ptr _ _ _ _ _ hi lo rest); [|lia| |done|lia].
    + destruct (Z.eqb_spec ptr 0); [lia|]. apply IH; try done; lia.
    + rewrite Z2Nat.inj_add, Nat2Z.id by lia. by rewrite <-drop_drop, Hd, drop_app_length.
Qed.

(** The bytes of a name: literal labels and the end or a pointer into the message. *)
Inductive wire_form (msg : list Z) : list Z -> list (list Z) -> nat -> Prop :=
  | wire_form_end ks : wire_form msg (wire_labels ks ++ [0]) ks 0
  | wire_form_ptr ks hi lo ls d : 192 <= hi < 256 -> 0 <= lo < 256 -> decodes msg (ptr_to hi lo) ls d ->
      wire_form msg (wire_labels ks ++ [hi; lo]) (ks ++ ls) (S d).

Lemma wire_form_decodes msg bs ls d rest o : wire_form msg bs ls d -> 0 <= o ->
  drop (Z.to_nat o) msg = bs ++ rest -> decodes msg o ls d.
Proof.
  destruct 1 as [ks|ks hi lo ls d Hh Hl Hd]; intros Ho H; rewrite <-(assoc_L (++)) in H.
  - by apply (decodes_end _ _ _ rest).
  - by apply (decodes_ptr _ _ _ hi lo rest).
Qed.
Lemma wire_form_app msg x bs ls d : wire_form msg bs ls d -> wire_form (msg ++ x) bs ls d.
Proof. destruct 1; constructor; try done. by apply decodes_app. Qed.
Lemma wire_form_cons msg l bs ls d : wire_form msg bs ls d -> wire_form msg (wire_label l ++ bs) (l :: ls) d.
Proof.
  destruct 1 as [ks|ks hi lo ls d Hh Hl Hd]; rewrite (assoc_L (++)), <-wire_labels_cons.
  - by constructor.
  - by apply (wire_form_ptr _ (l :: ks)).
Qed.
Lemma wire_form_bytes msg bs ls d : wire_form msg bs ls d -> Forall label_ok ls -> bytes bs.
Proof.
  destruct 1 as [ks|ks hi lo ls d Hh Hl Hd]; intros Hls; apply bytes_app; split.
  - by apply bytes_wire_labels.
  - by apply bytes_cons; [lia|constructor].
  - apply Forall_app in Hls as [Hks _]. by apply bytes_wire_labels.
  - apply bytes_cons; [lia|]. by apply bytes_cons; [lia|constructor].
Qed.
Lemma name_ok_count ls : name_ok ls -> Z.of_nat (length ls) * 2 <= 255.
Proof.
  intros [Hok Hlen]. enough (Z.of_nat (length ls) * 2 <= Z.of_nat (length (body ls))) by lia. clear Hlen.
  induction Hok as [|l ls [[Hl _] _] _ IH]; [cbn; lia|]. rewrite length_body_cons. cbn [length]. lia.
Qed.
Lemma name_read_of_loop dmp bs rest ls :
  parse_loop parse_fuel dmp (bs ++ rest) 0 (body []) 0 0 = Ret (text ls, Z.of_nat (length bs)) ->
  hsk_dns_name_read dmp (bs ++ rest) = Ret (text ls, rest).
Proof.
  intros E. unfold hsk_dns_name_read, hsk_dns_name_parse. change (body []) with (@nil Z) in E. rewrite E.
  cbn [obind]. by rewrite Nat2Z.id, drop_app_length.
Qed.
Lemma read_plain dmp ls rest : name_ok ls ->
  hsk_dns_name_read dmp ((wire_labels ls ++ [0]) ++ rest) = Ret (text ls, rest).
Proof.
  intros Hn. assert (Hc := name_ok_count ls Hn). destruct Hn as [Hok Hlen].
  apply name_read_of_loop. unfold parse_fuel. rewrite <-(assoc_L (++)), length_app. cbn [app length].
  replace 139%nat with (length ls + S (138 - length ls))%nat by lia.
  rewrite (parse_labels _ _ _ _ ls [] (0 :: rest)) by done.
  rewrite (parse_zero _ _ _ _ _ rest); [|lia|done|].
  - cbn [Z.eqb app]. f_equal. f_equal. lia.
  - rewrite Z.add_0_l, Nat2Z.id. apply drop_app_length.
Qed.
(** Every such form is read back, if no more than ten pointers are met. *)
Lemma read_wire_form msg bs ls d rest : wire_form msg bs ls d -> name_ok ls -> (d <= 10)%nat ->
  hsk_dns_name_read (Some msg) (bs ++ rest) = Ret (text ls, rest).
Proof.
  intros Hw Hn Hd. assert (Hc := name_ok_count ls Hn).
  destruct Hw as [ks|ks hi lo ls d Hh Hl Hdec]; [by apply read_plain|]. destruct Hn as [Hok Hlen].
  apply name_read_of_loop. unfold parse_fuel. rewrite <-(assoc_L (++)), length_app. cbn [app length].
  rewrite length_app in Hc. apply Forall_app in Hok as [Hks Hls].
  replace 139%nat with (length ks + S (138 - length ks))%nat by lia.
  rewrite (parse_labels _ _ _ _ ks [] (hi :: lo :: rest)); try done.
  2: { cbn [app]. rewrite body_app, length_app in Hlen. lia. }
  rewrite (parse_ptr _ _ _ _ _ hi lo rest); [|lia| |done|lia].
  - cbn [Z.eqb app]. rewrite (parse_decodes _ _ ls d Hdec); [|by apply Forall_app|done|lia..].
    f_equal. f_equal. lia.
  - rewrite Z.add_0_l, Nat2Z.id. apply drop_app_length.
Qed.

(** * Writing names *)

Lemma body_inj ls ks : Forall label_ok ls -> Forall label_ok ks -> body ls = body ks -> ls = ks.
Proof.
  intros Hls. revert ks; induction Hls as [|l ls [Hl Hc] _ IH]; intros ks Hks E.
  { symmetry in E. by apply body_nil_inv in E. }
  destruct Hks as [|k ks [Hk Hkc] Hks]; [by rewrite body_cons in E; destruct l|].
  rewrite !body_cons in E. assert (H : l = k /\ body ls = body ks); [|destruct H as [-> H]; f_equal; by apply IH].
  clear Hl Hk IH. revert k Hkc E; induction Hc as [|c l Hc _ IH]; intros k Hkc E.
  - destruct Hkc as [|c k [_ Hc] _]; cbn in E; by injection E.
  - destruct Hkc as [|c' k Hc' Hk]; cbn in E; injection E as E1 E2; [by destruct Hc|].
    subst c'. destruct (IH k Hk E2) as [-> ->]. done.
Qed.

Lemma pointer_bytes o : 0 <= o < 16384 ->
  let p := Z.lxor o 0xc000 in
  192 <= Z.land (Z.shiftr p 8) 0xff < 256 /\ 0 <= Z.land p 0xff < 256 /\
  ptr_to (Z.land (Z.shiftr p 8) 0xff) (Z.land p 0xff) = o.
Proof.
  intros Ho. assert (H : forallb (fun a => forallb (fun b => let o := 256 * Z.of_nat a + Z.of_nat b in
    let p := Z.lxor o 0xc000 in let hi := Z.land (Z.shiftr p 8) 0xff in let lo := Z.land p 0xff in
    (192 <=? hi) && (hi <? 256) && (0 <=? lo) && (lo <? 256) && (ptr_to hi lo =? o)) (seq 0 256)) (seq 0 64) = true)
    by (vm_compute; reflexivity).
  rewrite forallb_forall in H. specialize (H (Z.to_nat (o / 256)) ltac:(apply in_seq; dlia)).
  rewrite forallb_forall in H. specialize (H (Z.to_nat (o mod 256)) ltac:(apply in_seq; dlia)). cbv zeta in H.
  rewrite !Z2Nat.id in H by dlia. rewrite <-Z.div_mod in H by lia. cbv zeta.
  repeat match type of H with _ && _ = true => apply andb_true_iff in H as [H ?] end. lia.
Qed.

(** An entry of the table: the labels [k] can be read at [o], with fewer pointers than labels. *)
Definition entry_ok (msg k : list Z) (o : Z) : Prop := exists ls d,
  k = body ls /\ ls <> [] /\ name_ok ls /\ o < 16384 /\ decodes msg o ls d /\ (d < length ls)%nat.
Definition cmp_ok (msg : list Z) (c : option cmp_map) : Prop :=
  match c with Some m => map_Forall (entry_ok msg) m | None => True end.

Lemma entry_ok_app msg x k o : entry_ok msg k o -> entry_ok (msg ++ x) k o.
Proof. intros (ls & d & ? & ? & ? & ? & ? & ?). exists ls, d. split_and!; try done. by apply decodes_app. Qed.
Lemma cmp_ok_app msg x c : cmp_ok msg c -> cmp_ok (msg ++ x) c.
Proof. destruct c; [|done]. intros H k o Hk. apply entry_ok_app. by apply H. Qed.

Lemma serialize_chars mem data base name l s i begin out cmp : Forall char_ok l ->
  serialize_loop mem data base name (l ++ s) i begin out cmp =
  serialize_loop mem data base name s (i + Z.of_nat (length l)) begin out cmp.
Proof.
  intros H. revert i; induction H as [|c l [_ Hc] _ IH]; intros i; [cbn; by rewrite Z.add_0_r|].
  cbn [serialize_loop app]. destruct (Z.eqb_spec c dot); [done|]. rewrite IH. f_equal. cbn [length]. lia.
Qed.
Lemma last_char_dot pre l : label_ok l -> (body (pre ++ [l])) !! Z.to_nat (Z.of_nat (length (body (pre ++ [l]))) - 1) = Some dot.
Proof.
  intros _. rewrite body_app, body_cons. change (body []) with (@nil Z). rewrite (assoc_L (++)).
  rewrite length_app. cbn [length]. rewrite lookup_app_r by lia.
  by replace (_ - _)%nat with 0%nat by lia.
Qed.
Lemma serialize_end_spec data ls out ptr cmp : ls <> [] -> name_ok ls -> Z.of_nat (length out) <= 255 ->
  (ptr <> -1 -> Z.of_nat (length out) + 2 <= 256) ->
  serialize_end data (body ls) (Z.of_nat (length (body ls))) out ptr cmp =
  Ret (mk_serialized true (out ++ (if ptr =? -1 then [0] else
    [Z.land (Z.shiftr (Z.lxor ptr 0xc000) 8) 0xff; Z.land (Z.lxor ptr 0xc000) 0xff])) cmp).
Proof.
  intros Hne [Hok Hlen] Ho Hp. unfold serialize_end, HSK_DNS_MAX_NAME.
  destruct (exists_last Hne) as (pre & l & ->). apply Forall_app in Hok as [_ [Hl _]%Forall_cons_1].
  assert (H2 := body_length_pos l [] Hl). rewrite last_char_dot by done.
  assert (2 <= Z.of_nat (length (body (pre ++ [l])))) by (rewrite body_app, length_app; lia).
  destruct (Z.ltb_spec 255 (Z.of_nat (length (body (pre ++ [l]))))) as [|_]; [lia|].
  destruct (Z.eqb_spec (Z.of_nat (length (body (pre ++ [l])))) 0) as [|_]; [lia|].
  destruct (Z.eqb_spec (Z.of_nat (length (body (pre ++ [l])))) 1) as [|_]; [lia|]. cbn [orb negb andb default id Z.eqb].
  rewrite Z.eqb_refl. cbn [negb]. destruct (Z.eqb_spec ptr (-1)) as [E|E]; cbn [negb].
  - destruct (Z.leb_spec 256 (Z.of_nat (length out))); [lia|]. by rewrite andb_false_r.
  - destruct (Z.ltb_spec 256 (Z.of_nat (length out) + 2)) as [|_]; [lia|]. by rewrite andb_false_r.
Qed.

(** The step of the loop at the end of a label. *)
Definition next_table (mem : list Z -> bool) (base off : Z) (sub : list Z) (m : cmp_map) : cmp_map :=
  if (base + off <? 2 * 2 ^ 13) && mem sub then <[sub := base + off]> m else m.
Lemma serialize_label mem data base pre l ls out cmp : name_ok (pre ++ l :: ls) ->
  length out = length (body pre) ->
  serialize_loop mem data base (body (pre ++ l :: ls)) (body (l :: ls)) (Z.of_nat (length (body pre)))
    (Z.of_nat (length (body pre))) out cmp =
  let next := serialize_loop mem data base (body (pre ++ l :: ls)) (body ls) (Z.of_nat (length (body (pre ++ [l]))))
    (Z.of_nat (length (body (pre ++ [l])))) (out ++ wire_label l) in
  match cmp with
  | Some m =>
      let p := default 0 (m !! body (l :: ls)) in
      if p =? 0 then next (Some (next_table mem base (Z.of_nat (length out)) (body (l :: ls)) m))
      else serialize_end data (body (pre ++ l :: ls)) (Z.of_nat (length (body (pre ++ l :: ls)))) out p cmp
  | None => next None
  end.
Proof.
  intros [Hok Hlen] Ho. apply Forall_app in Hok as [Hpre [[Hl Hc] Hls]%Forall_cons_1].
  assert (Hlb : Z.of_nat (length (body (pre ++ l :: ls))) =
    Z.of_nat (length (body pre)) + Z.of_nat (length l) + 1 + Z.of_nat (length (body ls))).
  { rewrite body_app, length_app, Nat2Z.inj_add, length_body_cons. lia. }
  assert (Hlp : Z.of_nat (length (body (pre ++ [l]))) = Z.of_nat (length (body pre)) + Z.of_nat (length l) + 1).
  { rewrite body_app, length_app, Nat2Z.inj_add, length_body_cons. cbn [body List.map concat length]. lia. }
  rewrite (body_cons l ls) at 1. rewrite serialize_chars by done. cbn [serialize_loop]. rewrite Z.eqb_refl.
  assert (Hprev : exists c, body (pre ++ l :: ls) !! Z.to_nat (Z.of_nat (length (body pre)) + Z.of_nat (length l) - 1) = Some c /\ c <> dot).
  { destruct (lookup_lt_is_Some_2 l (length l - 1)%nat) as [c Hcl]; [lia|]. exists c. split.
    - rewrite body_app, body_cons, lookup_app_r, lookup_app_l by lia. rewrite <-Hcl. f_equal. lia.
    - by apply (Forall_lookup_1 _ _ _ _ Hc) in Hcl as [_ ?]. }
  destruct Hprev as (c & Hcl & Hcd). rewrite Hcl. cbn [default id]. destruct (Z.eqb_spec c dot); [done|].
  rewrite andb_false_r. unfold HSK_DNS_MAX_LABEL.
  replace (Z.of_nat (length (body pre)) + Z.of_nat (length l) - Z.of_nat (length (body pre))) with (Z.of_nat (length l)) by lia.
  destruct (Z.ltb_spec 63 (Z.of_nat (length l))) as [|_]; [lia|].
  destruct (Z.ltb_spec 256 (Z.of_nat (length out) + 1 + Z.of_nat (length l))) as [|_]; [lia|]. rewrite andb_false_r.
  assert (Hsub : drop (Z.to_nat (Z.of_nat (length (body pre)))) (body (pre ++ l :: ls)) = body (l :: ls)).
  { by rewrite Nat2Z.id, body_app, drop_app_length. }
  rewrite Hsub. assert (Htk : take (Z.to_nat (Z.of_nat (length l))) (body (l :: ls)) = l).
  { by rewrite Nat2Z.id, body_cons, take_app_length. }
  rewrite Htk, Hlp. cbv zeta. change ([Z.of_nat (length l)] ++ List.map wire_char l) with (wire_label l).
  destruct cmp as [m|]; [|done]. destruct (decide (body (l :: ls) = [dot])) as [E|_].
  { apply (f_equal length) in E. assert (H2 := body_length_pos l ls (conj Hl Hc)). cbn [length] in E. lia. }
  destruct (default 0 (m !! body (l :: ls)) =? 0); [done|]. rewrite Hlb. f_equal. cbn [length]. lia.
Qed.

(** Every entry of [c'] is one of [c] or holds in [msg]. *)
Definition grows (msg : list Z) (c c' : option cmp_map) : Prop :=
  match c, c' with
  | Some m, Some m' => forall k o, m' !! k = Some o -> m !! k = Some o \/ entry_ok msg k o
  | None, None => True
  | _, _ => False
  end.
Lemma grows_refl msg c : grows msg c c.
Proof. destruct c; cbn; auto. Qed.
(** The entries for names as long as [n] hold. *)
Definition table_upto (msg : list Z) (n : nat) (c : option cmp_map) : Prop :=
  match c with Some m => forall k o, m !! k = Some o -> (length k <= n)%nat -> entry_ok msg k o | None => True end.
Lemma name_ok_app_r pre ls : name_ok (pre ++ ls) -> name_ok ls.
Proof. intros [[_ H]%Forall_app Hl]. split; [done|]. rewrite body_app, length_app in Hl. lia. Qed.

Lemma length_out_label (out : list Z) pre l : length out = length (body pre) ->
  length (out ++ wire_label l) = length (body (pre ++ [l])).
Proof.
  intros Ho. rewrite <-length_wire_labels, wire_labels_app, !length_app, length_wire_labels, Ho.
  unfold wire_labels. cbn [List.map concat]. by rewrite app_nil_r.
Qed.

Lemma serialize_none data mem base ls pre out : pre ++ ls <> [] -> name_ok (pre ++ ls) ->
  length out = length (body pre) ->
  serialize_loop mem data base (body (pre ++ ls)) (body ls) (Z.of_nat (length (body pre)))
    (Z.of_nat (length (body pre))) out None = Ret (mk_serialized true (out ++ wire_labels ls ++ [0]) None).
Proof.
  revert pre out; induction ls as [|l ls IH]; intros pre out Hne Hok Ho.
  - cbn [serialize_loop body List.map concat]. rewrite app_nil_r in *. rewrite serialize_end_spec; try done.
    destruct Hok. lia.
  - rewrite serialize_label by done. cbv zeta.
    assert (E : pre ++ l :: ls = (pre ++ [l]) ++ ls) by (by rewrite <-(assoc_L (++))). rewrite E in *.
    rewrite IH; [|done|done|].
    + rewrite wire_labels_cons. by rewrite <-!(assoc_L (++)).
    + by apply length_out_label.
Qed.

Lemma serialize_some mem acc ls : forall pre out m, pre ++ ls <> [] -> name_ok (pre ++ ls) ->
  length out = length (body pre) -> table_upto acc (length (body ls)) (Some m) ->
  exists bs d m', serialize_loop mem true (Z.of_nat (length acc)) (body (pre ++ ls)) (body ls)
      (Z.of_nat (length (body pre))) (Z.of_nat (length (body pre))) out (Some m) = Ret (mk_serialized true (out ++ bs) (Some m')) /\
    wire_form acc bs ls d /\ Z.of_nat (length bs) <= Z.of_nat (length (body ls)) + 1 /\ (d <= length ls)%nat /\
    grows (acc ++ out ++ bs) (Some m) (Some m').
Proof.
  induction ls as [|l ls IH]; intros pre out m Hne Hok Ho Hm.
  { exists [0], 0%nat, m. cbn [serialize_loop body List.map concat]. rewrite app_nil_r in *.
    rewrite serialize_end_spec; try done; [|destruct Hok; lia]. split; [done|].
    split; [by apply (wire_form_end _ [])|]. split_and!; [cbn; lia|cbn; lia|apply grows_refl]. }
  rewrite serialize_label by done. cbv zeta. assert (Hll := name_ok_app_r _ _ Hok).
  destruct (Z.eqb_spec (default 0 (m !! body (l :: ls))) 0) as [Ep|Ep].
  - assert (E : pre ++ l :: ls = (pre ++ [l]) ++ ls) by (by rewrite <-(assoc_L (++))). rewrite E in *.
    set (o := Z.of_nat (length acc) + Z.of_nat (length out)).
    destruct (IH (pre ++ [l]) (out ++ wire_label l) (next_table mem (Z.of_nat (length acc)) (Z.of_nat (length out)) (body (l :: ls)) m))
      as (bs & d & m' & -> & Hw & Hlb & Hd & Hg); try done.
    + by apply length_out_label.
    + intros k x Hk Hlk. unfold next_table in Hk. rewrite body_cons, length_app in Hm. cbn [length] in Hm.
      destruct (_ && _); [|apply (Hm _ _ Hk); lia].
      apply lookup_insert_Some in Hk as [[<- _]|[_ Hk]]; [|apply (Hm _ _ Hk); lia].
      rewrite body_cons, length_app in Hlk. cbn [length] in Hlk. lia.
    + exists (wire_label l ++ bs), d, m'. rewrite <-(assoc_L (++)) in *. split; [done|].
      split; [by apply wire_form_cons|]. split; [|split; [cbn [length]; lia|]].
      { rewrite length_body_cons, length_app. unfold wire_label. cbn [length]. rewrite length_map. lia. }
      intros k x Hk. destruct (Hg k x Hk) as [Hk'|]; [|by right]. unfold next_table in Hk'.
      destruct (Z.ltb_spec (Z.of_nat (length acc) + Z.of_nat (length out)) (2 * 2 ^ 13)) as [Hlt|]; [|by left].
      destruct (mem _); [|by left]. cbn [andb] in Hk'. apply lookup_insert_Some in Hk' as [[<- <-]|[_ ?]]; [right|by left].
      exists (l :: ls), d. split_and!; try done; [|cbn [length]; lia].
      apply (wire_form_decodes _ (wire_label l ++ bs) _ _ []); [by apply wire_form_app, wire_form_cons|lia|].
      rewrite app_nil_r, Z2Nat.inj_add, !Nat2Z.id by lia. rewrite (assoc_L (++) acc), <-length_app. apply drop_app_length.
  - destruct (m !! body (l :: ls)) as [p|] eqn:Hp; [|done]. cbn [default id] in *.
    destruct (Hm _ _ Hp ltac:(done)) as (ks & d & Ek & _ & [Hks _] & Hpr & Hdec & Hd).
    apply body_inj in Ek as <-; [|apply Hll|done].
    assert (Hp0 := decodes_nonneg _ _ _ _ Hdec). destruct (pointer_bytes p ltac:(lia)) as (Hhi & Hlo & Ept).
    assert (Hlen2 : Z.of_nat (length out) + 2 <= 255).
    { destruct Hok as [Hok Hlen]. rewrite body_app, length_app in Hlen.
      apply Forall_app in Hok as [_ [Hl _]%Forall_cons_1]. assert (H2 := body_length_pos l ls Hl). lia. }
    rewrite serialize_end_spec; [|done|done|lia|lia]. destruct (Z.eqb_spec p (-1)); [lia|].
    eexists _, (S d), m. split; [done|].
    split; [apply (wire_form_ptr _ []); [done|done|by rewrite Ept]|]. split_and!; [|lia|apply grows_refl].
    assert (H2 := body_length_pos l ls ltac:(by destruct Hll as [[? _]%Forall_cons_1 _])). cbn [length]. lia.
Qed.

(** ** The writer of a name *)

Lemma name_write_size mem ls : name_ok ls ->
  hsk_dns_name_write mem (text ls) None = Ret (Z.of_nat (length (body ls)) + 1, None).
Proof.
  intros Hok. unfold hsk_dns_name_write, hsk_dns_name_serialize. destruct ls as [|l ls]; [done|].
  rewrite text_body by done. rewrite (serialize_none _ _ _ (l :: ls) [] []) by done. cbn [obind sz_out app].
  rewrite length_app, length_wire_labels. do 2 f_equal. cbn [length]. lia.
Qed.
Lemma name_write_plain mem acc ls : name_ok ls ->
  hsk_dns_name_write mem (text ls) (Some (acc, None)) =
  Ret (Z.of_nat (length (body ls)) + 1, Some (acc ++ wire_labels ls ++ [0], None)).
Proof.
  intros Hok. unfold hsk_dns_name_write, hsk_dns_name_serialize. destruct ls as [|l ls]; [done|].
  rewrite text_body by done. rewrite (serialize_none _ _ _ (l :: ls) [] []) by done. cbn [obind sz_out sz_cmp app].
  rewrite length_app, length_wire_labels. do 2 f_equal. cbn [length]. lia.
Qed.
Lemma name_write_spec mem acc c ls : name_ok ls -> cmp_ok acc c ->
  exists bs d c', hsk_dns_name_write mem (text ls) (Some (acc, c)) = Ret (Z.of_nat (length bs), Some (acc ++ bs, c')) /\
    wire_form acc bs ls d /\ Z.of_nat (length bs) <= Z.of_nat (length (body ls)) + 1 /\ (d <= length ls)%nat /\
    (c = None -> d = 0%nat) /\ (c' = None <-> c = None) /\ cmp_ok (acc ++ bs) c'.
Proof.
  intros Hok Hc. destruct c as [m|].
  - destruct ls as [|l ls].
    { exists [0], 0%nat, (Some m). split; [by cbn; rewrite decide_True by done|]. split; [by apply (wire_form_end _ [])|].
      split; [cbn; lia|]. do 3 (split; [done|]). by apply (cmp_ok_app _ _ (Some m)). }
    destruct (serialize_some mem acc (l :: ls) [] [] m) as (bs & d & m' & E & Hw & Hlb & Hd & Hg); try done.
    { intros k o Hk _. by apply Hc. }
    exists bs, d, (Some m'). unfold hsk_dns_name_write, hsk_dns_name_serialize. rewrite text_body by done.
    change (Z.of_nat (length (body []))) with 0 in E. cbn [app] in E, Hg. rewrite E. cbn [obind sz_out sz_cmp].
    do 5 (split; [done|]). split; [done|]. intros k o Hk. destruct (Hg k o Hk) as [H|]; [|done]. apply entry_ok_app. by apply Hc.
  - exists (wire_labels ls ++ [0]), 0%nat, None. rewrite name_write_plain by done. rewrite !length_app, length_wire_labels.
    split; [cbn [length]; do 2 f_equal; lia|]. split; [by constructor|]. split_and!; try done; cbn [length]; lia.
Qed.
