(* ===== verification/DnsLabels.v ===== *)
(** The labels of a name: where they start, one label, the labels from one on, and the
    test for a subdomain. *)

From S2P Require Import Prelude Bio Map MapProps DnsName DnsNameProps.

(** * Where labels start *)

Fixpoint offsets (o : Z) (ls : list (list Z)) : list Z :=
  match ls with
  | [] => []
  | l :: ls' => o :: offsets (o + Z.of_nat (length l) + 1) ls'
  end.
Lemma length_offsets o ls : length (offsets o ls) = length ls.
Proof. revert o; induction ls; intros o; cbn; auto. Qed.
Lemma offsets_lookup o ls k : (k < length ls)%nat ->
  offsets o ls !! k = Some (o + Z.of_nat (length (body (take k ls)))).
Proof.
  revert o k; induction ls as [|l ls IH]; intros o k Hk; [cbn in Hk; lia|]. destruct k as [|k]; [cbn; f_equal; lia|].
  cbn [offsets length] in *. change ((o :: ?r) !! S k) with (r !! k). rewrite IH by lia. cbn [take]. rewrite length_body_cons. f_equal. lia.
Qed.

Lemma split_chars l s i labels size : Forall char_ok l ->
  split_loop (l ++ s) i false labels size = split_loop s (i + Z.of_nat (length l)) false labels size \/
  size <= Z.of_nat (length labels).
Proof.
  intros Hl. destruct (Z.le_gt_cases size (Z.of_nat (length labels))) as [|Hlt]; [by right|left].
  revert i; induction Hl as [|c l [_ Hc] _ IH]; intros i; [cbn; f_equal; lia|]. cbn [app split_loop length].
  destruct (Z.ltb_spec (Z.of_nat (length labels)) size); [|lia]. destruct (Z.eqb_spec c dot); [done|].
  rewrite IH. f_equal. lia.
Qed.
Lemma split_stop s i b labels size : size <= Z.of_nat (length labels) -> split_loop s i b labels size = labels.
Proof. intros H. destruct s; [done|]. cbn. by destruct (Z.ltb_spec (Z.of_nat (length labels)) size); [lia|]. Qed.
Lemma split_label l s i labels size : label_ok l -> 0 <= i < 256 -> Z.of_nat (length labels) < size ->
  split_loop (l ++ dot :: s) i true labels size =
  split_loop s (i + Z.of_nat (length l) + 1) true (labels ++ [i]) size.
Proof.
  intros [Hl Hc] Hi Hs. destruct Hc as [|c l [_ Hd] Hc]; [cbn in Hl; lia|]. cbn [app split_loop].
  destruct (Z.ltb_spec (Z.of_nat (length labels)) size); [|lia]. destruct (Z.eqb_spec c dot); [done|]. rewrite u8_small by done.
  destruct (split_chars l (dot :: s) (i + 1) (labels ++ [i]) size Hc) as [->|Hle].
  - cbn [split_loop]. destruct (Z.ltb_spec (Z.of_nat (length (labels ++ [i]))) size).
    + rewrite Z.eqb_refl. f_equal. cbn [length]. lia.
    + rewrite split_stop by lia. done.
  - by rewrite !split_stop.
Qed.
Lemma split_body ls : forall o labels size, Forall label_ok ls -> 0 <= o -> o + Z.of_nat (length (body ls)) <= 255 ->
  Z.of_nat (length labels) + Z.of_nat (length ls) <= size ->
  split_loop (body ls) o true labels size = labels ++ offsets o ls.
Proof.
  induction ls as [|l ls IH]; intros o labels size Hok Ho Hlen Hs; [cbn; by rewrite app_nil_r|].
  apply Forall_cons_1 in Hok as [Hl Hok]. cbn [length] in Hs. rewrite length_body_cons in Hlen. rewrite body_cons.
  rewrite split_label by (done || lia). cbn [offsets]. rewrite IH; [by rewrite <-(assoc_L (++))|done|lia|lia|].
  rewrite length_app. cbn [length]. lia.
Qed.
Lemma split_text ls size : name_ok ls -> Z.of_nat (length ls) <= size ->
  hsk_dns_label_split (text ls) size = offsets 0 ls.
Proof.
  intros [Hok Hlen] Hs. unfold hsk_dns_label_split. destruct ls as [|l ls].
  - cbn [text split_loop]. rewrite Z.eqb_refl. by destruct (_ <? size).
  - rewrite text_body by done. rewrite split_body; [done|done|lia|lia|cbn [length] in *; lia].
Qed.
Lemma count_text ls : name_ok ls -> hsk_dns_label_count (text ls) = Z.of_nat (length ls).
Proof.
  intros Hok. assert (H := name_ok_count ls Hok). unfold hsk_dns_label_count.
  by rewrite split_text, length_offsets by (done || unfold HSK_DNS_MAX_LABELS; lia).
Qed.

(** * One label, and the labels from one on *)

(** The position an index stands for: from the end if it is negative. *)
Definition from_end (n index : Z) : Z := if index <? 0 then index + n else index.
Lemma label_at_offsets ls k : (k < length ls)%nat ->
  label_at (offsets 0 ls) (Z.of_nat k) = Ret (Z.of_nat (length (body (take k ls)))).
Proof.
  intros Hk. unfold label_at. destruct (Z.ltb_spec (Z.of_nat k) 0); [lia|]. by rewrite Nat2Z.id, offsets_lookup by done.
Qed.
Lemma body_split ls k : body ls = body (take k ls) ++ body (drop k ls).
Proof. by rewrite <-body_app, take_drop. Qed.
Lemma drop_body ls k : drop (length (body (take k ls))) (body ls) = body (drop k ls).
Proof. rewrite (body_split ls k). apply drop_app_length. Qed.
Lemma last_body ls : ls <> [] -> body ls !! (length (body ls) - 1)%nat = Some dot.
Proof.
  intros H. destruct (exists_last H) as (pre & l & ->). rewrite body_app, body_cons. change (body []) with (@nil Z).
  rewrite (assoc_L (++)), length_app. cbn [length]. rewrite lookup_app_r by lia. by replace (_ - _)%nat with 0%nat by lia.
Qed.
Lemma name_ok_drop ls k : name_ok ls -> name_ok (drop k ls).
Proof.
  intros [Hok Hlen]. split; [by apply Forall_drop|]. rewrite (body_split ls k), length_app in Hlen. lia.
Qed.
Lemma label_ok_lookup ls k l : name_ok ls -> ls !! k = Some l -> label_ok l.
Proof. intros [Hok _] H. by apply (Forall_lookup_1 _ _ _ _ Hok H). Qed.

Lemma from2_text ls k : name_ok ls -> (k < length ls)%nat ->
  hsk_dns_label_from2 (text ls) (offsets 0 ls) (Z.of_nat k) = Ret (text (drop k ls)).
Proof.
  intros Hok Hk. unfold hsk_dns_label_from2. rewrite length_offsets.
  destruct (Z.ltb_spec (Z.of_nat k) 0); [lia|]. destruct (Z.leb_spec (Z.of_nat (length ls)) (Z.of_nat k)); [lia|].
  rewrite label_at_offsets by done. cbn [obind]. assert (Hne : ls <> []) by (by destruct ls; [cbn in Hk; lia|]).
  rewrite text_body, (body_split ls k), length_app, Nat2Z.id by done.
  assert (Hd := name_ok_drop ls k Hok). destruct (drop k ls) as [|l r] eqn:E.
  { apply (f_equal length) in E. rewrite length_drop in E. cbn in E. lia. }
  assert (H2 := body_length_pos l r ltac:(by destruct Hd as [[? _]%Forall_cons_1 _])). destruct Hd as [_ Hlen].
  unfold HSK_DNS_MAX_NAME. set (x := Z.of_nat _ - _). assert (Hx : x = Z.of_nat (length (body (l :: r)))) by (unfold x; lia).
  destruct (Z.eqb_spec x 0); [lia|]. destruct (Z.ltb_spec x 0); [lia|]. destruct (Z.ltb_spec 255 x); [lia|]. cbn [orb].
  by rewrite drop_app_length, text_body.
Qed.
Lemma get2_text ls k l : name_ok ls -> ls !! k = Some l ->
  hsk_dns_label_get2 (text ls) (offsets 0 ls) (Z.of_nat k) = Ret l.
Proof.
  intros Hok Hl. assert (Hk := lookup_lt_Some _ _ _ Hl). assert (Hlo := label_ok_lookup _ _ _ Hok Hl).
  unfold hsk_dns_label_get2. rewrite length_offsets.
  destruct (Z.ltb_spec (Z.of_nat k) 0); [lia|]. destruct (Z.leb_spec (Z.of_nat (length ls)) (Z.of_nat k)); [lia|].
  rewrite label_at_offsets by done. cbn [obind]. assert (Hne : ls <> []) by (by destruct ls). rewrite text_body by done.
  assert (Hsp : drop k ls = l :: drop (S k) ls) by (by apply drop_S).
  assert (Hend : label_end (body ls) (offsets 0 ls) (Z.of_nat k) =
    Ret (Z.of_nat (length (body (take k ls))) + Z.of_nat (length l))).
  { unfold label_end. rewrite length_offsets. destruct (Z.leb_spec (Z.of_nat (length ls)) (Z.of_nat k + 1)) as [Hle|Hgt].
    - assert (Hb : Z.of_nat (length (body ls)) = Z.of_nat (length (body (take k ls))) + Z.of_nat (length l) + 1).
      { rewrite (body_split ls k), Hsp, length_app, Nat2Z.inj_add, length_body_cons, drop_ge by lia. cbn. lia. }
      cbv zeta. destruct (Z.ltb_spec (Z.of_nat (length (body ls)) - 1) 0); [lia|].
      replace (Z.to_nat (Z.of_nat (length (body ls)) - 1)) with (length (body ls) - 1)%nat by lia.
      rewrite last_body by done. cbn [of_option obind]. rewrite Z.eqb_refl. f_equal. lia.
    - replace (Z.of_nat k + 1) with (Z.of_nat (S k)) by lia. rewrite label_at_offsets by lia. cbn [obind].
      rewrite (take_S_r _ _ _ Hl), body_app, length_app, Nat2Z.inj_add, length_body_cons. cbn. f_equal. lia. }
  rewrite Hend. cbn [obind]. destruct Hlo as [Hll _]. unfold HSK_DNS_MAX_LABEL.
  replace (Z.of_nat (length (body (take k ls))) + Z.of_nat (length l) - Z.of_nat (length (body (take k ls)))) with (Z.of_nat (length l)) by lia.
  destruct (Z.eqb_spec (Z.of_nat (length l)) 0); [lia|]. destruct (Z.ltb_spec (Z.of_nat (length l)) 0); [lia|].
  destruct (Z.ltb_spec 63 (Z.of_nat (length l))); [lia|]. cbn [orb].
  rewrite !Nat2Z.id, drop_body, Hsp, body_cons. by rewrite take_app_length.
Qed.
(** A negative index is one from the end. *)
Lemma get2_from_end ls i : - Z.of_nat (length ls) <= i -> hsk_dns_label_get2 (text ls) (offsets 0 ls) i =
  hsk_dns_label_get2 (text ls) (offsets 0 ls) (from_end (Z.of_nat (length ls)) i).
Proof.
  intros Hi. unfold hsk_dns_label_get2, from_end. rewrite length_offsets.
  destruct (Z.ltb_spec i 0); [|by rewrite (proj2 (Z.ltb_ge i 0)) by lia].
  by rewrite (proj2 (Z.ltb_ge (i + Z.of_nat (length ls)) 0)) by lia.
Qed.
Lemma from2_from_end ls i : - Z.of_nat (length ls) <= i -> hsk_dns_label_from2 (text ls) (offsets 0 ls) i =
  hsk_dns_label_from2 (text ls) (offsets 0 ls) (from_end (Z.of_nat (length ls)) i).
Proof.
  intros Hi. unfold hsk_dns_label_from2, from_end. rewrite length_offsets.
  destruct (Z.ltb_spec i 0); [|by rewrite (proj2 (Z.ltb_ge i 0)) by lia].
  by rewrite (proj2 (Z.ltb_ge (i + Z.of_nat (length ls)) 0)) by lia.
Qed.
Lemma labels_outside ls i : let n := Z.of_nat (length ls) in n <= i \/ i < - n ->
  hsk_dns_label_get2 (text ls) (offsets 0 ls) i = (if i <? 0 then Fault Overread else Ret []) /\
  hsk_dns_label_from2 (text ls) (offsets 0 ls) i = (if i <? 0 then Fault Overread else Ret []).
Proof.
  intros n Hi. unfold hsk_dns_label_get2, hsk_dns_label_from2. rewrite length_offsets. fold n.
  destruct (Z.ltb_spec i 0) as [Hneg|].
  - destruct (Z.leb_spec n (i + n)); [lia|]. unfold label_at. by destruct (Z.ltb_spec (i + n) 0); [|lia].
  - by destruct (Z.leb_spec n i); [|lia].
Qed.

(** On the text of any well-formed name the label functions see its labels: they are
    counted; an index, from the end if negative, selects the label or the labels from it
    on; an index past the end gives the empty string; and an index below minus the
    count, which the code does not exclude, is a read before the array. *)
Theorem dns_labels_correct ls index : name_ok ls ->
  let n := Z.of_nat (length ls) in
  let k := Z.to_nat (from_end n index) in
  hsk_dns_label_count (text ls) = n /\
  (- n <= index < n ->
    hsk_dns_label_get (text ls) index = Ret (default [] (ls !! k)) /\
    hsk_dns_label_from (text ls) index = Ret (text (drop k ls))) /\
  (n <= index \/ n = 0 -> 0 <= index -> hsk_dns_label_get (text ls) index = Ret [] /\ hsk_dns_label_from (text ls) index = Ret []) /\
  (0 < n -> index < - n ->
    hsk_dns_label_get (text ls) index = Fault Overread /\ hsk_dns_label_from (text ls) index = Fault Overread).
Proof.
  intros Hok n k. assert (Hc := count_text ls Hok). unfold hsk_dns_label_get, hsk_dns_label_from. rewrite Hc. fold n.
  split; [done|]. destruct (Z.eqb_spec n 0) as [E0|E0]; [split; [lia|by split; [|lia]]|].
  rewrite split_text by (done || lia). split; [|split].
  - intros Hi. rewrite get2_from_end, from2_from_end by lia. fold n.
    assert (Hk : from_end n index = Z.of_nat k /\ (k < length ls)%nat) by (unfold k, from_end; destruct (Z.ltb_spec index 0); lia).
    destruct Hk as [-> Hk]. destruct (lookup_lt_is_Some_2 ls k Hk) as [l Hl]. rewrite Hl.
    by rewrite (get2_text ls k l), (from2_text ls k).
  - intros Hi H0. destruct (labels_outside ls index ltac:(fold n; lia)) as [-> ->].
    by rewrite (proj2 (Z.ltb_ge index 0)).
  - intros Hn Hi. destruct (labels_outside ls index ltac:(fold n; lia)) as [-> ->].
    by rewrite (proj2 (Z.ltb_lt index 0)) by lia.
Qed.

(** The last label. *)
Lemma last_drop (ls : list (list Z)) l : last ls = Some l -> drop (length ls - 1) ls = [l] /\ ls !! (length ls - 1)%nat = Some l.
Proof.
  intros H. apply last_Some in H as [pre ->]. rewrite length_app. cbn [length].
  replace (length pre + 1 - 1)%nat with (length pre) by lia. rewrite drop_app_length. split; [done|].
  rewrite lookup_app_r by lia. by rewrite Nat.sub_diag.
Qed.
Lemma label_last ls l : name_ok ls -> last ls = Some l ->
  hsk_dns_label_from (text ls) (-1) = Ret (text [l]) /\ hsk_dns_label_get (text ls) (-1) = Ret l.
Proof.
  intros Hok Hl. destruct (last_drop ls l Hl) as [Hd Hk]. assert (Hp := lookup_lt_Some _ _ _ Hk).
  destruct (dns_labels_correct ls (-1) Hok) as (_ & H & _). destruct (H ltac:(lia)) as [Hg Hf]. rewrite Hg, Hf.
  unfold from_end in *. cbn [Z.ltb Z.compare] in *. replace (Z.to_nat (-1 + Z.of_nat (length ls))) with (length ls - 1)%nat by lia.
  by rewrite Hd, Hk.
Qed.
Lemma name_ok_last ls l : name_ok ls -> last ls = Some l -> name_ok [l].
Proof. intros Hok Hl. destruct (last_drop ls l Hl) as [<- _]. by apply name_ok_drop. Qed.

Lemma is_subdomain_spec ps cs : name_ok ps -> name_ok cs ->
  let k := (length cs - length ps)%nat in
  hsk_dns_is_subdomain (text ps) (text cs) =
  if decide (ps <> [] /\ (length ps <= length cs)%nat /\ length (text (drop k cs)) = 255%nat) then Fault Overread
  else Ret (bool_decide ((length ps <= length cs)%nat /\ drop k cs = ps)).
Proof.
  intros Hp Hc k. unfold hsk_dns_is_subdomain. rewrite !count_text by done.
  destruct (Z.eqb_spec (Z.of_nat (length ps)) 0) as [E0|E0].
  { assert (ps = []) as -> by (destruct ps; [done|cbn in E0; lia]). rewrite decide_False by tauto. f_equal. symmetry.
    apply bool_decide_eq_true. split; [cbn; lia|]. apply drop_ge. subst k. cbn. lia. }
  destruct (Z.ltb_spec (Z.of_nat (length cs)) (Z.of_nat (length ps))) as [Hlt|Hle].
  { rewrite decide_False by lia. f_equal. symmetry. apply bool_decide_eq_false. lia. }
  rewrite split_text by (done || lia). rewrite from2_from_end by lia.
  replace (from_end (Z.of_nat (length cs)) (- Z.of_nat (length ps))) with (Z.of_nat k).
  2: { unfold from_end. destruct (Z.ltb_spec (- Z.of_nat (length ps)) 0); lia. }
  rewrite from2_text by (done || lia). cbn [obind]. unfold HSK_DNS_MAX_NAME.
  assert (Hd := name_ok_drop cs k Hc). assert (Hne : drop k cs <> []).
  { intros E. apply (f_equal length) in E. rewrite length_drop in E. cbn in E. lia. }
  assert (Hl : Z.of_nat (length (text (drop k cs))) <= 255) by (rewrite text_body by done; apply Hd).
  destruct (Z.leb_spec 255 (Z.of_nat (length (text (drop k cs))))) as [H|H].
  - rewrite decide_True; [done|]. split; [by intros ->|]. lia.
  - rewrite decide_False by (intros (_ & _ & E); lia). f_equal. apply bool_decide_ext. split; [|by intros [_ ->]].
    intros E. split; [lia|]. assert (Hps : ps <> []) by (by intros ->).
    rewrite !text_body in E by done. by apply body_inj in E; [|apply Hd|apply Hp].
Qed.

(** The test for a subdomain: on well-formed names it tells whether the labels of the
    parent are the last labels of the child, letter case included, unless what it compares
    has 255 characters: the code then copies 256 bytes to an array of 255. *)
Theorem dns_is_subdomain_correct ps cs : name_ok ps -> name_ok cs ->
  let k := (length cs - length ps)%nat in
  hsk_dns_is_subdomain (text ps) (text cs) =
  if decide (ps <> [] /\ (length ps <= length cs)%nat /\ length (text (drop k cs)) = 255%nat) then Fault Overread
  else Ret (bool_decide ((length ps <= length cs)%nat /\ drop k cs = ps)).
Proof. apply is_subdomain_spec. Qed.

(** "www.a." below "a." *)
Lemma dns_labels_correct_witness : hsk_dns_label_get (text [[119; 119; 119]; [97]]) (-1) = Ret [97].
Proof.
  assert (H : name_ok [[119; 119; 119]; [97]]).
  { split; [|by vm_compute]. apply (bool_decide_eq_true (Forall label_ok [[119; 119; 119]; [97]])). by vm_compute. }
  exact (proj1 (proj1 (proj2 (dns_labels_correct [[119; 119; 119]; [97]] (-1) H)) ltac:(cbn; lia))).
Defined.
Lemma dns_is_subdomain_correct_witness : hsk_dns_is_subdomain (text [[97]]) (text [[119; 119; 119]; [97]]) = Ret true.
Proof.
  assert (H : name_ok [[119; 119; 119]; [97]]).
  { split; [|by vm_compute]. apply (bool_decide_eq_true (Forall label_ok [[119; 119; 119]; [97]])). by vm_compute. }
  rewrite (dns_is_subdomain_correct [[97]] [[119; 119; 119]; [97]] (name_ok_drop _ 1 H) H). by vm_compute.
Defined.
