(* ===== verification/DnsRecord.v ===== *)
(** Resource records: the parts of [dns.c] on sets of records, questions, records, their
    data and texts.

    A struct with a pointer to bytes and a length has the list of the bytes. [mem] and
    [al] answer the allocations: [mem] those of the table of names, by name, and [al] the
    others, counted within an operation. The release of memory is not modelled. *)

From S2P Require Import Prelude Bio Map MapProps DnsName.

(** * Types and classes *)

Definition HSK_DNS_UNKNOWN : Z := 0.
Definition HSK_DNS_A : Z := 1.
Definition HSK_DNS_NS : Z := 2.
Definition HSK_DNS_CNAME : Z := 5.
Definition HSK_DNS_SOA : Z := 6.
Definition HSK_DNS_PTR : Z := 12.
Definition HSK_DNS_MX : Z := 15.
Definition HSK_DNS_TXT : Z := 16.
Definition HSK_DNS_RP : Z := 17.
Definition HSK_DNS_AAAA : Z := 28.
Definition HSK_DNS_LOC : Z := 29.
Definition HSK_DNS_SRV : Z := 33.
Definition HSK_DNS_DNAME : Z := 39.
Definition HSK_DNS_OPT : Z := 41.
Definition HSK_DNS_DS : Z := 43.
Definition HSK_DNS_SSHFP : Z := 44.
Definition HSK_DNS_RRSIG : Z := 46.
Definition HSK_DNS_NSEC : Z := 47.
Definition HSK_DNS_DNSKEY : Z := 48.
Definition HSK_DNS_TLSA : Z := 52.
Definition HSK_DNS_SMIMEA : Z := 53.
Definition HSK_DNS_OPENPGPKEY : Z := 61.
Definition HSK_DNS_ANY : Z := 255.
Definition HSK_DNS_URI : Z := 256.
Definition HSK_DNS_IN : Z := 1.

(** * Arrays of items

    [hsk_dns_rrs_t] and [hsk_dns_txts_t]: a size and 255 pointers; [None] is null. *)
Section Items.
Context {A : Type}.

Record rrs_t := mk_rrs { rrs_size : Z; rrs_items : list (option A) }.

Definition hsk_dns_rrs_init : rrs_t := mk_rrs 0 (replicate 255 None).
(** A store outside the array is a fault. *)
Definition item_store (items : list (option A)) (i : Z) (x : option A) : outcome (list (option A)) :=
  if (0 <=? i) && (i <? Z.of_nat (length items)) then Ret (<[Z.to_nat i := x]> items) else Fault Overread.
Definition item_load (items : list (option A)) (i : Z) : outcome (option A) :=
  if i <? 0 then Fault Overread else of_option Overread (items !! Z.to_nat i).
Definition assert_item (o : option A) : outcome A := of_option AssertFail o.

(** [n] turns of the loop from [i]. *)
Fixpoint unshift_loop (n : nat) (i : Z) (items : list (option A)) : outcome (list (option A)) :=
  match n with
  | O => Ret items
  | S n' =>
      let* p := item_load items (i - 1) in
      let* x := assert_item p in
      let* items := item_store items i (Some x) in
      unshift_loop n' (i + 1) items
  end.
Definition hsk_dns_rrs_unshift (rrs : rrs_t) (rr : A) : outcome (Z * rrs_t) :=
  if rrs_size rrs =? 255 then Ret (0, rrs)
  else
    let* _ := oassert (rrs_size rrs <? 255) in
    let* items := unshift_loop (Z.to_nat (rrs_size rrs)) 1 (rrs_items rrs) in
    let* items := item_store items (1 + rrs_size rrs) (Some rr) in
    Ret (rrs_size rrs + 1, mk_rrs (rrs_size rrs + 1) items).
Fixpoint shift_loop (n : nat) (i : Z) (items : list (option A)) : outcome (list (option A)) :=
  match n with
  | O => Ret items
  | S n' =>
      let* p := item_load items i in
      let* _ := assert_item p in
      let* q := item_load items (i + 1) in
      let* items := item_store items i q in
      shift_loop n' (i + 1) items
  end.
Definition hsk_dns_rrs_shift (rrs : rrs_t) : outcome (option A * rrs_t) :=
  if rrs_size rrs =? 0 then Ret (None, rrs)
  else
    let* rr := item_load (rrs_items rrs) 0 in
    let* items := shift_loop (Z.to_nat (rrs_size rrs - 1)) 0 (rrs_items rrs) in
    let* items := item_store items (rrs_size rrs - 1) None in
    Ret (rr, mk_rrs (rrs_size rrs - 1) items).
Definition hsk_dns_rrs_push (rrs : rrs_t) (rr : A) : outcome (Z * rrs_t) :=
  if rrs_size rrs =? 255 then Ret (0, rrs)
  else
    let* _ := oassert (rrs_size rrs <? 255) in
    let* p := item_load (rrs_items rrs) (rrs_size rrs) in
    let* _ := oassert (match p with None => true | Some _ => false end) in
    let* items := item_store (rrs_items rrs) (rrs_size rrs) (Some rr) in
    Ret (rrs_size rrs + 1, mk_rrs (rrs_size rrs + 1) items).
Definition hsk_dns_rrs_pop (rrs : rrs_t) : outcome (option A * rrs_t) :=
  if rrs_size rrs =? 0 then Ret (None, rrs)
  else
    let* rr := item_load (rrs_items rrs) (rrs_size rrs - 1) in
    let* _ := assert_item rr in
    let* items := item_store (rrs_items rrs) (rrs_size rrs - 1) None in
    Ret (rr, mk_rrs (rrs_size rrs - 1) items).
(** A negative [index] that stays negative is a large number next to the size, which is
    unsigned. *)
Definition at_index (rrs : rrs_t) (index : Z) : option Z :=
  let index := if index <? 0 then index + rrs_size rrs else index in
  if rrs_size rrs <=? u64 index then None else Some index.
Definition hsk_dns_rrs_get (rrs : rrs_t) (index : Z) : outcome (option A) :=
  match at_index rrs index with Some i => item_load (rrs_items rrs) i | None => Ret None end.
Definition hsk_dns_rrs_set (rrs : rrs_t) (index : Z) (rr : A) : outcome (Z * rrs_t) :=
  match at_index rrs index with
  | Some i =>
      let* items := item_store (rrs_items rrs) i (Some rr) in
      Ret (rrs_size rrs, mk_rrs (rrs_size rrs) items)
  | None => Ret (0, rrs)
  end.
End Items.
Arguments rrs_t : clear implicits.

(** Below, an array is the list of its items; [push_item] is [hsk_dns_rrs_push] on it,
    which drops the item when the array is full. *)
Definition push_item {A} (l : list A) (x : A) : list A :=
  if Z.of_nat (length l) =? 255 then l else l ++ [x].

(** * Record data *)

Record hsk_dns_soa_rd_t := mk_soa {
  soa_ns : list Z; soa_mbox : list Z; soa_serial : Z; soa_refresh : Z; soa_retry : Z; soa_expire : Z; soa_minttl : Z
}.
Record hsk_dns_loc_rd_t := mk_loc {
  loc_version : Z; loc_size : Z; loc_horiz_pre : Z; loc_vert_pre : Z;
  loc_latitude : Z; loc_longitude : Z; loc_altitude : Z
}.
Record hsk_dns_mx_rd_t := mk_mx { mx_preference : Z; mx_mx : list Z }.
Record hsk_dns_srv_rd_t := mk_srv { srv_priority : Z; srv_weight : Z; srv_port : Z; srv_target : list Z }.
Record hsk_dns_ds_rd_t := mk_ds { ds_key_tag : Z; ds_algorithm : Z; ds_digest_type : Z; ds_digest : list Z }.
Record hsk_dns_tlsa_rd_t := mk_tlsa {
  tlsa_usage : Z; tlsa_selector : Z; tlsa_matching_type : Z; tlsa_certificate : list Z
}.
Record hsk_dns_sshfp_rd_t := mk_sshfp { sshfp_algorithm : Z; sshfp_digest_type : Z; sshfp_fingerprint : list Z }.
Record hsk_dns_dnskey_rd_t := mk_dnskey {
  dnskey_flags : Z; dnskey_protocol : Z; dnskey_algorithm : Z; dnskey_pubkey : list Z
}.
Record hsk_dns_rrsig_rd_t := mk_rrsig {
  rrsig_type_covered : Z; rrsig_algorithm : Z; rrsig_labels : Z; rrsig_orig_ttl : Z; rrsig_expiration : Z;
  rrsig_inception : Z; rrsig_key_tag : Z; rrsig_signer_name : list Z; rrsig_signature : list Z
}.
Record hsk_dns_uri_rd_t := mk_uri { uri_priority : Z; uri_weight : Z; uri_data : list Z }.
Record hsk_dns_rp_rd_t := mk_rp { rp_mbox : list Z; rp_txt : list Z }.
Record hsk_dns_nsec_rd_t := mk_nsec { nsec_next_domain : list Z; nsec_type_map : list Z }.

(** What a [void *rd] points to. *)
Inductive hsk_dns_rd_t :=
  | RSoa (r : hsk_dns_soa_rd_t)
  | RA (addr : list Z)
  | RAaaa (addr : list Z)
  | RLoc (r : hsk_dns_loc_rd_t)
  | RCname (target : list Z)
  | RDname (target : list Z)
  | RNs (ns : list Z)
  | RMx (r : hsk_dns_mx_rd_t)
  | RPtr (ptr : list Z)
  | RSrv (r : hsk_dns_srv_rd_t)
  | RTxt (txts : list (list Z))
  | RDs (r : hsk_dns_ds_rd_t)
  | RTlsa (r : hsk_dns_tlsa_rd_t)
  | RSshfp (r : hsk_dns_sshfp_rd_t)
  | ROpenpgpkey (pubkey : list Z)
  | ROpt (rd : list Z)
  | RDnskey (r : hsk_dns_dnskey_rd_t)
  | RRrsig (r : hsk_dns_rrsig_rd_t)
  | RUri (r : hsk_dns_uri_rd_t)
  | RRp (r : hsk_dns_rp_rd_t)
  | RNsec (r : hsk_dns_nsec_rd_t)
  | RUnknown (rd : list Z).

(** The cases of the [switch] statements. *)
Inductive rd_kind :=
  | KSoa | KA | KAaaa | KLoc | KCname | KDname | KNs | KMx | KPtr | KSrv | KTxt | KDs | KTlsa | KSshfp
  | KOpenpgpkey | KOpt | KDnskey | KRrsig | KUri | KRp | KNsec | KUnknown.
Definition kind_of_type (type : Z) : rd_kind :=
  if type =? HSK_DNS_SOA then KSoa
  else if type =? HSK_DNS_A then KA
  else if type =? HSK_DNS_AAAA then KAaaa
  else if type =? HSK_DNS_LOC then KLoc
  else if type =? HSK_DNS_CNAME then KCname
  else if type =? HSK_DNS_DNAME then KDname
  else if type =? HSK_DNS_NS then KNs
  else if type =? HSK_DNS_MX then KMx
  else if type =? HSK_DNS_PTR then KPtr
  else if type =? HSK_DNS_SRV then KSrv
  else if type =? HSK_DNS_TXT then KTxt
  else if type =? HSK_DNS_DS then KDs
  else if (type =? HSK_DNS_SMIMEA) || (type =? HSK_DNS_TLSA) then KTlsa
  else if type =? HSK_DNS_SSHFP then KSshfp
  else if type =? HSK_DNS_OPENPGPKEY then KOpenpgpkey
  else if type =? HSK_DNS_OPT then KOpt
  else if type =? HSK_DNS_DNSKEY then KDnskey
  else if type =? HSK_DNS_RRSIG then KRrsig
  else if type =? HSK_DNS_URI then KUri
  else if type =? HSK_DNS_RP then KRp
  else if type =? HSK_DNS_NSEC then KNsec
  else KUnknown.

Definition hsk_dns_rd_init (type : Z) : hsk_dns_rd_t :=
  match kind_of_type type with
  | KSoa => RSoa (mk_soa [dot] [dot] 0 0 0 0 0)
  | KA => RA (replicate 4 0)
  | KAaaa => RAaaa (replicate 16 0)
  | KLoc => RLoc (mk_loc 0 0 0 0 0 0 0)
  | KCname => RCname [dot]
  | KDname => RDname [dot]
  | KNs => RNs [dot]
  | KMx => RMx (mk_mx 0 [dot])
  | KPtr => RPtr [dot]
  | KSrv => RSrv (mk_srv 0 0 0 [dot])
  | KTxt => RTxt []
  | KDs => RDs (mk_ds 0 0 0 [])
  | KTlsa => RTlsa (mk_tlsa 0 0 0 [])
  | KSshfp => RSshfp (mk_sshfp 0 0 [])
  | KOpenpgpkey => ROpenpgpkey []
  | KOpt => ROpt []
  | KDnskey => RDnskey (mk_dnskey 0 0 0 [])
  | KRrsig => RRrsig (mk_rrsig 0 0 0 0 0 0 0 [] [])
  | KUri => RUri (mk_uri 0 0 [])
  | KRp => RRp (mk_rp [dot] [dot])
  | KNsec => RNsec (mk_nsec [dot] [])
  | KUnknown => RUnknown []
  end.
Definition hsk_dns_rd_alloc (malloc_ok : bool) (type : Z) : option hsk_dns_rd_t :=
  if malloc_ok then Some (hsk_dns_rd_init type) else None.

Notation "w1 ;+ w2" := (dseq w1 w2) (at level 60, right associativity) : hsk_scope.

(** A pointer to one struct taken for another. *)
Definition wrong_cast {A} : outcome A := Fault Overread.

Section Write.
Context (mem : list Z -> bool).
Local Abbreviation name := (hsk_dns_name_write mem).
Local Abbreviation w8 := (fun v => dlift (write_u8 v)).
Local Abbreviation w16 := (fun v => dlift (write_u16be v)).
Local Abbreviation w32 := (fun v => dlift (write_u32be v)).
Local Abbreviation wbytes := (fun v => dlift (write_bytes v)).

Definition write_txt (txt : list Z) : dwr := w8 (Z.of_nat (length txt)) ;+ wbytes txt.
Definition write_txts (txts : list (list Z)) : dwr := fold_right (fun txt w => write_txt txt ;+ w) dret txts.
Definition hsk_dns_rd_write (rd : hsk_dns_rd_t) (type : Z) : dwr :=
  match kind_of_type type, rd with
  | KSoa, RSoa r =>
      name (soa_ns r) ;+ name (soa_mbox r) ;+ w32 (soa_serial r) ;+ w32 (soa_refresh r) ;+ w32 (soa_retry r) ;+
      w32 (soa_expire r) ;+ w32 (soa_minttl r)
  | KA, RA addr => wbytes addr
  | KAaaa, RAaaa addr => wbytes addr
  | KLoc, RLoc r =>
      w8 (loc_version r) ;+ w8 (loc_size r) ;+ w8 (loc_horiz_pre r) ;+ w8 (loc_vert_pre r) ;+
      w32 (loc_latitude r) ;+ w32 (loc_longitude r) ;+ w32 (loc_altitude r)
  | KCname, RCname target => name target
  | KDname, RDname target => name target
  | KNs, RNs ns => name ns
  | KMx, RMx r => w16 (mx_preference r) ;+ name (mx_mx r)
  | KPtr, RPtr ptr => name ptr
  | KSrv, RSrv r => w16 (srv_priority r) ;+ w16 (srv_weight r) ;+ w16 (srv_port r) ;+ name (srv_target r)
  | KTxt, RTxt txts => write_txts txts
  | KDs, RDs r => w16 (ds_key_tag r) ;+ w8 (ds_algorithm r) ;+ w8 (ds_digest_type r) ;+ wbytes (ds_digest r)
  | KTlsa, RTlsa r =>
      w8 (tlsa_usage r) ;+ w8 (tlsa_selector r) ;+ w8 (tlsa_matching_type r) ;+ wbytes (tlsa_certificate r)
  | KSshfp, RSshfp r => w8 (sshfp_algorithm r) ;+ w8 (sshfp_digest_type r) ;+ wbytes (sshfp_fingerprint r)
  | KOpenpgpkey, ROpenpgpkey pubkey => wbytes pubkey
  | KOpt, ROpt rd => wbytes rd
  | KDnskey, RDnskey r =>
      w16 (dnskey_flags r) ;+ w8 (dnskey_protocol r) ;+ w8 (dnskey_algorithm r) ;+ wbytes (dnskey_pubkey r)
  | KRrsig, RRrsig r =>
      w16 (rrsig_type_covered r) ;+ w8 (rrsig_algorithm r) ;+ w8 (rrsig_labels r) ;+ w32 (rrsig_orig_ttl r) ;+
      w32 (rrsig_expiration r) ;+ w32 (rrsig_inception r) ;+ w16 (rrsig_key_tag r) ;+ name (rrsig_signer_name r) ;+
      wbytes (rrsig_signature r)
  | KUri, RUri r =>
      w16 (uri_priority r) ;+ w16 (uri_weight r) ;+ w8 (Z.of_nat (length (uri_data r))) ;+ wbytes (uri_data r)
  | KRp, RRp r => name (rp_mbox r) ;+ name (rp_txt r)
  | KNsec, RNsec r => name (nsec_next_domain r) ;+ wbytes (nsec_type_map r)
  | KUnknown, RUnknown rd => wbytes rd
  | _, _ => fun _ => wrong_cast
  end.
End Write.
(** A null destination: nothing is compressed and nothing allocated. *)
Definition dsize (w : dwr) : outcome Z := let* (s, _) := w None in Ret s.
Definition no_table : list Z -> bool := fun _ => true.
Definition hsk_dns_rd_size (rd : hsk_dns_rd_t) (type : Z) : outcome Z := dsize (hsk_dns_rd_write no_table rd type).

(** ** Reading *)

Section Read.
Context (dmp : option (list Z)).
Local Abbreviation name := (hsk_dns_name_read dmp).

(** [alloc_bytes] of all that is left. *)
Definition alloc_rest (malloc_ok : bool) : rd (list Z) := fun d => alloc_bytes malloc_ok (Z.of_nat (length d)) d.
(** The loop on the texts; each turn takes a byte at least. *)
Fixpoint txt_loop (fuel : nat) (al : nat -> bool) (txts : list (list Z)) : rd (list (list Z)) := fun d =>
  match fuel with
  | O => Fault Hang
  | S fuel' =>
      match d with
      | [] => Ret (txts, d)
      | _ =>
          if al O then
            (data_len <- read_u8 ;; data <- read_bytes data_len ;;
             txt_loop fuel' (fun i => al (S i)) (push_item txts data)) d
          else Fail
      end
  end.
(** [rd0] is what [hsk_dns_rd_alloc] made. *)
Definition hsk_dns_rd_read (al : nat -> bool) (rd0 : hsk_dns_rd_t) (type : Z) : rd hsk_dns_rd_t :=
  match kind_of_type type, rd0 with
  | KSoa, RSoa _ =>
      ns <- name ;; mbox <- name ;; serial <- read_u32be ;; refresh <- read_u32be ;; retry <- read_u32be ;;
      expire <- read_u32be ;; minttl <- read_u32be ;;
      rret (RSoa (mk_soa ns mbox serial refresh retry expire minttl))
  | KA, RA _ => addr <- read_bytes 4 ;; rret (RA addr)
  | KAaaa, RAaaa _ => addr <- read_bytes 16 ;; rret (RAaaa addr)
  | KLoc, RLoc _ =>
      version <- read_u8 ;; size <- read_u8 ;; horiz_pre <- read_u8 ;; vert_pre <- read_u8 ;;
      latitude <- read_u32be ;; longitude <- read_u32be ;; altitude <- read_u32be ;;
      rret (RLoc (mk_loc version size horiz_pre vert_pre latitude longitude altitude))
  | KCname, RCname _ => target <- name ;; rret (RCname target)
  | KDname, RDname _ => target <- name ;; rret (RDname target)
  | KNs, RNs _ => ns <- name ;; rret (RNs ns)
  | KMx, RMx _ => preference <- read_u16be ;; mx <- name ;; rret (RMx (mk_mx preference mx))
  | KPtr, RPtr _ => ptr <- name ;; rret (RPtr ptr)
  | KSrv, RSrv _ =>
      priority <- read_u16be ;; weight <- read_u16be ;; port <- read_u16be ;; target <- name ;;
      rret (RSrv (mk_srv priority weight port target))
  | KTxt, RTxt txts0 => fun d => (txts <- txt_loop (S (length d)) al txts0 ;; rret (RTxt txts)) d
  | KDs, RDs _ =>
      key_tag <- read_u16be ;; algorithm <- read_u8 ;; digest_type <- read_u8 ;; digest <- alloc_rest (al O) ;;
      rret (RDs (mk_ds key_tag algorithm digest_type digest))
  | KTlsa, RTlsa _ =>
      usage <- read_u8 ;; selector <- read_u8 ;; matching_type <- read_u8 ;; certificate <- alloc_rest (al O) ;;
      rret (RTlsa (mk_tlsa usage selector matching_type certificate))
  | KSshfp, RSshfp _ =>
      algorithm <- read_u8 ;; digest_type <- read_u8 ;; fingerprint <- alloc_rest (al O) ;;
      rret (RSshfp (mk_sshfp algorithm digest_type fingerprint))
  | KOpenpgpkey, ROpenpgpkey _ => pubkey <- alloc_rest (al O) ;; rret (ROpenpgpkey pubkey)
  | KOpt, ROpt _ => rd <- alloc_rest (al O) ;; rret (ROpt rd)
  | KDnskey, RDnskey _ =>
      flags <- read_u16be ;; protocol <- read_u8 ;; algorithm <- read_u8 ;; pubkey <- alloc_rest (al O) ;;
      rret (RDnskey (mk_dnskey flags protocol algorithm pubkey))
  | KRrsig, RRrsig _ =>
      type_covered <- read_u16be ;; algorithm <- read_u8 ;; labels <- read_u8 ;; orig_ttl <- read_u32be ;;
      expiration <- read_u32be ;; inception <- read_u32be ;; key_tag <- read_u16be ;; signer_name <- name ;;
      signature <- alloc_rest (al O) ;;
      rret (RRrsig (mk_rrsig type_covered algorithm labels orig_ttl expiration inception key_tag signer_name signature))
  | KUri, RUri _ =>
      priority <- read_u16be ;; weight <- read_u16be ;; data_len <- read_u8 ;; data <- read_bytes data_len ;;
      rret (RUri (mk_uri priority weight data))
  | KRp, RRp _ => mbox <- name ;; txt <- name ;; rret (RRp (mk_rp mbox txt))
  | KNsec, RNsec _ => next_domain <- name ;; type_map <- alloc_rest (al O) ;; rret (RNsec (mk_nsec next_domain type_map))
  | KUnknown, RUnknown _ => rd <- alloc_rest (al O) ;; rret (RUnknown rd)
  | _, _ => rfault Overread
  end.
End Read.

(** The bytes of a writer whose destination starts empty, without a table. *)
Definition dbytes (w : dwr) : outcome (list Z) :=
  let* (_, o) := w (Some ([], None)) in
  Ret (match o with Some (bs, _) => bs | None => [] end).
(** The buffer has the size that is computed first: more bytes are a fault. *)
Definition dencode (malloc_ok : bool) (w : dwr) : outcome (list Z) :=
  let* size := dsize w in
  if malloc_ok then
    let* bs := dbytes w in
    if size <? Z.of_nat (length bs) then Fault Overread else Ret bs
  else Fail.
Definition hsk_dns_rd_encode (malloc_ok : bool) (rd : option hsk_dns_rd_t) (type : Z) : outcome (list Z) :=
  match rd with
  | None => Fail
  | Some rd => dencode malloc_ok (hsk_dns_rd_write no_table rd type)
  end.
Definition hsk_dns_rd_decode (al : nat -> bool) (data : option (list Z)) (type : Z) : outcome hsk_dns_rd_t :=
  match data with
  | None => Fail
  | Some data =>
      match hsk_dns_rd_alloc (al O) type with
      | None => Fail
      | Some rd => let* (rd, _) := hsk_dns_rd_read None (fun i => al (S i)) rd type data in Ret rd
      end
  end.

(** * Records and questions

    A question is a record without data. *)
Record hsk_dns_rr_t := mk_rr {
  rr_name : list Z;
  rr_type : Z;
  rr_class : Z;
  rr_ttl : Z;
  rr_rd : option hsk_dns_rd_t;
}.
Definition hsk_dns_rr_init : hsk_dns_rr_t := mk_rr [dot] HSK_DNS_UNKNOWN HSK_DNS_IN 0 None.
Definition hsk_dns_qs_init : hsk_dns_rr_t := mk_rr [dot] HSK_DNS_UNKNOWN HSK_DNS_IN 0 None.
Definition hsk_dns_rr_create (al : nat -> bool) (type : Z) : option hsk_dns_rr_t :=
  if al 0%nat then
    match hsk_dns_rd_alloc (al 1%nat) type with
    | Some rd => Some (mk_rr [dot] type HSK_DNS_IN 0 (Some rd))
    | None => None
    end
  else None.
Definition hsk_dns_rr_set_name (rr : hsk_dns_rr_t) (name : option (list Z)) : outcome (bool * hsk_dns_rr_t) :=
  let* ok := hsk_dns_name_verify name in
  match name with
  | Some n =>
      if negb ok then Ret (false, rr)
      else if hsk_dns_name_dirty n then Ret (false, rr)
      else
        let n := if hsk_dns_name_is_fqdn name then n else n ++ [dot] in
        Ret (true, mk_rr n (rr_type rr) (rr_class rr) (rr_ttl rr) (rr_rd rr))
  | None => Ret (false, rr)
  end.
Definition hsk_dns_qs_set (qs : hsk_dns_rr_t) (name : option (list Z)) (type : Z) : outcome hsk_dns_rr_t :=
  match name with
  | None => Fault AssertFail
  | Some n =>
      let* _ := oassert (Z.of_nat (length n) <=? 255) in
      Ret (mk_rr n type (rr_class qs) (rr_ttl qs) (rr_rd qs))
  end.

Definition hsk_dns_qs_write (mem : list Z -> bool) (qs : hsk_dns_rr_t) : dwr :=
  hsk_dns_name_write mem (rr_name qs) ;+ dlift (write_u16be (rr_type qs)) ;+ dlift (write_u16be (rr_class qs)).
Definition hsk_dns_qs_read (dmp : option (list Z)) (qs : hsk_dns_rr_t) : rd hsk_dns_rr_t :=
  name <- hsk_dns_name_read dmp ;; type <- read_u16be ;; class <- read_u16be ;;
  rret (mk_rr name type class (rr_ttl qs) (rr_rd qs)).

(** [pos] keeps the place of the length, which is written last. *)
Definition with_length (w : dwr) : dwr := fun o =>
  match o with
  | None => let* (rdlen, o') := w None in Ret (2 + rdlen, o')
  | Some (acc, c) =>
      let* (rdlen, o') := w (Some (acc ++ [0; 0], c)) in
      match o' with
      | Some (acc', c') =>
          let pos := length acc in
          Ret (2 + rdlen, Some (take pos acc' ++ set_u16be_on Little (u16 rdlen) ++ drop (pos + 2) acc', c'))
      | None => Ret (2 + rdlen, None)
      end
  end.
Definition hsk_dns_rr_write (mem : list Z -> bool) (rr : hsk_dns_rr_t) : dwr :=
  hsk_dns_name_write mem (rr_name rr) ;+ dlift (write_u16be (rr_type rr)) ;+ dlift (write_u16be (rr_class rr)) ;+
  dlift (write_u32be (rr_ttl rr)) ;+
  match rr_rd rr with
  | None => dlift (write_u16be 0)
  | Some rd => with_length (hsk_dns_rd_write mem rd (rr_type rr))
  end.
Definition hsk_dns_rr_size (rr : hsk_dns_rr_t) : outcome Z := dsize (hsk_dns_rr_write no_table rr).

(** The data of a record is read from the [len] bytes that are its own. *)
Definition sub_read {A} (len : Z) (m : rd A) : rd A := fun d =>
  let* (a, _) := m (take (Z.to_nat len) d) in
  Ret (a, drop (Z.to_nat len) d).
Definition has_bytes (len : Z) : rd unit := fun d =>
  if Z.of_nat (length d) <? len then Fail else Ret (tt, d).
Definition hsk_dns_rr_read (dmp : option (list Z)) (al : nat -> bool) (rr : hsk_dns_rr_t) : rd hsk_dns_rr_t :=
  name <- hsk_dns_name_read dmp ;; type <- read_u16be ;; class <- read_u16be ;; ttl <- read_u32be ;;
  len <- read_u16be ;; _ <- has_bytes len ;;
  match hsk_dns_rd_alloc (al O) type with
  | None => rfail
  | Some rd =>
      rd <- sub_read len (hsk_dns_rd_read dmp (fun i => al (S i)) rd type) ;;
      rret (mk_rr name type class ttl (Some rd))
  end.
Definition hsk_dns_rr_encode (malloc_ok : bool) (rr : option hsk_dns_rr_t) : outcome (list Z) :=
  match rr with
  | None => Fail
  | Some rr => dencode malloc_ok (hsk_dns_rr_write no_table rr)
  end.
Definition hsk_dns_rr_decode (al : nat -> bool) (data : option (list Z)) : outcome hsk_dns_rr_t :=
  match data with
  | None => Fail
  | Some data =>
      if al O then
        let* (rr, _) := hsk_dns_rr_read None (fun i => al (S i)) hsk_dns_rr_init data in Ret rr
      else Fail
  end.
Definition hsk_dns_rr_clone (al : nat -> bool) (rr : option hsk_dns_rr_t) : outcome hsk_dns_rr_t :=
  let* raw := hsk_dns_rr_encode (al O) rr in
  hsk_dns_rr_decode (fun i => al (S i)) (Some raw).
