(* ===== verification/DnsItems.v ===== *)
(** The arrays of records and texts against lists. *)

From S2P Require Import Prelude Bio Map MapProps DnsName DnsRecord.

Section Items.
Context {A : Type}.
Implicit Types (l : list A) (rrs : rrs_t A).

(** An array holds a list: its items, then null pointers. *)
Definition array_of l : rrs_t A :=
  mk_rrs (Z.of_nat (length l)) (List.map Some l ++ replicate (255 - length l) None).

Lemma load_spec l i : 0 <= i < Z.of_nat (length l) ->
  item_load (rrs_items (array_of l)) i = Ret (l !! Z.to_nat i).
Proof.
  intros Hi. unfold item_load. destruct (Z.ltb_spec i 0); [lia|]. cbn [array_of rrs_items].
  rewrite lookup_app_l by (rewrite length_map; lia). change (List.map Some l) with (Some <$> l).
  rewrite list_lookup_fmap. destruct (lookup_lt_is_Some_2 l (Z.to_nat i)) as [x ->]; [lia|done].
Qed.
Lemma store_list l i (x : option A) t : 0 <= i < 255 -> length t = 255%nat -> item_store t i x = Ret (<[Z.to_nat i := x]> t).
Proof.
  intros Hi Ht. unfold item_store. rewrite Ht. destruct (Z.leb_spec 0 i); [|lia].
  destruct (Z.ltb_spec i (Z.of_nat 255)); [done|lia].
Qed.
Lemma length_array l : (length l <= 255)%nat -> length (rrs_items (array_of l)) = 255%nat.
Proof. intros H. cbn. rewrite length_app, length_map, length_replicate. lia. Qed.
Lemma array_grow l x : (length l < 255)%nat ->
  <[length l := Some x]> (rrs_items (array_of l)) = rrs_items (array_of (l ++ [x])).
Proof.
  intros H. cbn [array_of rrs_items]. rewrite List.map_app, length_app, <-(assoc_L (++)).
  rewrite <-(length_map Some l) at 1. rewrite <-(Nat.add_0_r (length (List.map Some l))), insert_app_r. f_equal.
  cbn [List.map length]. replace (255 - length l)%nat with (S (255 - (length l + 1))) by lia. done.
Qed.
Lemma array_shrink l x : (length (l ++ [x]) <= 255)%nat ->
  <[length l := None]> (rrs_items (array_of (l ++ [x]))) = rrs_items (array_of l).
Proof.
  rewrite length_app. intros H. cbn [array_of rrs_items length] in *. rewrite List.map_app, length_app, <-(assoc_L (++)).
  rewrite <-(length_map Some l) at 1. rewrite <-(Nat.add_0_r (length (List.map Some l))), insert_app_r. f_equal.
  cbn [List.map length]. replace (255 - length l)%nat with (S (255 - (length l + 1))) by lia. done.
Qed.

Lemma load_end l : (length l < 255)%nat -> item_load (rrs_items (array_of l)) (Z.of_nat (length l)) = Ret None.
Proof.
  intros H. unfold item_load. destruct (Z.ltb_spec (Z.of_nat (length l)) 0); [lia|]. rewrite Nat2Z.id. cbn [array_of rrs_items].
  rewrite lookup_app_r, length_map, Nat.sub_diag by (rewrite length_map; lia). by rewrite lookup_replicate_2 by lia.
Qed.
Lemma push_spec l x : (length l <= 255)%nat ->
  hsk_dns_rrs_push (array_of l) x =
  Ret (if (length l =? 255)%nat then 0 else Z.of_nat (length l) + 1, array_of (push_item l x)).
Proof.
  intros Hl. unfold hsk_dns_rrs_push, push_item. cbn [array_of rrs_size].
  destruct (Z.eqb_spec (Z.of_nat (length l)) 255) as [E|E].
  { destruct (Nat.eqb_spec (length l) 255); [done|lia]. }
  destruct (Nat.eqb_spec (length l) 255); [lia|]. destruct (Z.ltb_spec (Z.of_nat (length l)) 255); [|lia]. cbn [oassert obind].
  rewrite load_end by lia. cbn [obind oassert].
  rewrite (store_list l) by (lia || by apply (length_array l)). cbn [obind]. rewrite Nat2Z.id, array_grow by lia.
  unfold array_of. rewrite length_app. cbn [length rrs_items]. do 3 f_equal. lia.
Qed.
Lemma pop_spec l : (length l <= 255)%nat ->
  hsk_dns_rrs_pop (array_of l) = Ret (last l, array_of (removelast l)).
Proof.
  intros Hl. unfold hsk_dns_rrs_pop. cbn [array_of rrs_size]. destruct (Z.eqb_spec (Z.of_nat (length l)) 0) as [E|E].
  { by destruct l; [|cbn in E; lia]. }
  destruct (exists_last (l := l)) as (pre & x & ->); [by intros ->|]. rewrite last_snoc, removelast_last, length_app in *. cbn [length] in *.
  replace (Z.of_nat (length pre + 1) - 1) with (Z.of_nat (length pre)) by lia.
  rewrite load_spec by (rewrite length_app; cbn; lia). rewrite Nat2Z.id, list_lookup_middle by done. cbn [obind assert_item of_option].
  rewrite (store_list pre) by (lia || apply length_array; rewrite length_app; cbn; lia). cbn [obind]. rewrite Nat2Z.id.
  rewrite array_shrink by (rewrite length_app; cbn; lia). done.
Qed.

(** Shifting: [i] items are in their new place. *)
Lemma items_shift_spec n : forall i l x, (length (x :: l) <= 255)%nat -> (i + n = length l)%nat ->
  shift_loop n (Z.of_nat i) (rrs_items (array_of (take i l ++ drop i (x :: l)))) =
  Ret (rrs_items (array_of (l ++ drop (length l) (x :: l)))).
Proof.
  induction n as [|n IH]; intros i l x Hl Hi.
  { cbn [shift_loop]. replace i with (length l) by lia. by rewrite firstn_all. }
  destruct (lookup_lt_is_Some_2 l i ltac:(lia)) as [y Hy]. destruct (lookup_lt_is_Some_2 (x :: l) i ltac:(cbn; lia)) as [z Hz].
  assert (Hlen : length (take i l ++ drop i (x :: l)) = S (length l)) by (rewrite length_app, length_take, length_drop; cbn; lia).
  cbn [shift_loop]. rewrite !load_spec by lia. rewrite Nat2Z.id. replace (Z.to_nat (Z.of_nat i + 1)) with (i + 1)%nat by lia.
  assert (Ei : (take i l ++ drop i (x :: l)) !! i = Some z).
  { rewrite lookup_app_r, lookup_drop by (rewrite length_take; lia). rewrite length_take. rewrite <-Hz. f_equal. lia. }
  assert (Ei1 : (take i l ++ drop i (x :: l)) !! (i + 1)%nat = Some y).
  { rewrite lookup_app_r, lookup_drop by (rewrite length_take; lia). rewrite length_take. rewrite <-Hy.
    replace (i + (i + 1 - i `min` length l))%nat with (S i) by lia. done. }
  rewrite Ei, Ei1. cbn [obind assert_item of_option]. rewrite (store_list l) by (cbn in Hl; lia || apply length_array; lia).
  cbn [obind]. rewrite Nat2Z.id. replace (Z.of_nat i + 1) with (Z.of_nat (S i)) by lia. rewrite <-(IH (S i)) by (done || lia). f_equal.
  cbn [array_of rrs_items]. rewrite insert_app_l by (rewrite length_map; lia).
  assert (En : <[i:=y]> (take i l ++ drop i (x :: l)) = take (S i) l ++ drop (S i) (x :: l)).
  { rewrite (drop_S _ _ _ Hz), (take_S_r _ _ _ Hy), <-(assoc_L (++)). rewrite insert_app_r_alt by (rewrite length_take; lia).
    rewrite length_take. by replace (i - i `min` length l)%nat with 0%nat by lia. }
  rewrite <-En, length_insert. f_equal. change (List.map Some ?k) with (Some <$> k). by rewrite list_fmap_insert.
Qed.
Lemma shift_spec l : (length l <= 255)%nat ->
  hsk_dns_rrs_shift (array_of l) = Ret (head l, array_of (tail l)).
Proof.
  intros Hl. unfold hsk_dns_rrs_shift. cbn [array_of rrs_size]. destruct l as [|x l]; [done|]. cbn [head tail].
  destruct (Z.eqb_spec (Z.of_nat (length (x :: l))) 0) as [E|_]; [cbn in E; lia|].
  rewrite load_spec by (cbn; lia). cbn [obind]. replace (Z.to_nat (Z.of_nat (length (x :: l)) - 1)) with (length l) by (cbn [length]; lia).
  assert (Es := items_shift_spec (length l) 0 l x Hl ltac:(lia)). rewrite take_0, drop_0 in Es. cbn [app] in Es. change (Z.of_nat 0) with 0 in Es. rewrite Es. cbn [obind].
  assert (Hd : exists z, drop (length l) (x :: l) = [z]).
  { destruct (drop (length l) (x :: l)) as [|z [|]] eqn:E; apply (f_equal length) in E; rewrite length_drop in E; cbn in E; try lia. by exists z. }
  destruct Hd as [z ->]. replace (Z.of_nat (length (x :: l)) - 1) with (Z.of_nat (length l)) by (cbn [length]; lia).
  cbn [length] in Hl. rewrite (store_list l) by (lia || apply length_array; rewrite length_app; cbn; lia). cbn [obind].
  rewrite Nat2Z.id, array_shrink by (rewrite length_app; cbn; lia). done.
Qed.
Lemma at_index_spec l index : (length l <= 255)%nat -> - 2 ^ 31 <= index < 2 ^ 31 ->
  let n := Z.of_nat (length l) in
  at_index (array_of l) index =
  if (- n <=? index) && (index <? n) then Some (if index <? 0 then index + n else index) else None.
Proof.
  intros Hl Hi n. unfold at_index. cbn [array_of rrs_size]. fold n. unfold u64.
  destruct (Z.ltb_spec index 0), (Z.leb_spec (- n) index), (Z.ltb_spec index n); cbn [andb]; try lia;
    match goal with |- context [n <=? ?v mod 2 ^ 64] => destruct (Z.leb_spec n (v mod 2 ^ 64)) end; try done; dlia.
Qed.
Lemma items_get_spec l index : (length l <= 255)%nat -> - 2 ^ 31 <= index < 2 ^ 31 ->
  let n := Z.of_nat (length l) in
  hsk_dns_rrs_get (array_of l) index =
  Ret (if (- n <=? index) && (index <? n) then l !! Z.to_nat (if index <? 0 then index + n else index) else None).
Proof.
  intros Hl Hi n. unfold hsk_dns_rrs_get. rewrite at_index_spec by done. fold n.
  destruct (Z.leb_spec (- n) index), (Z.ltb_spec index n); cbn [andb]; try done.
  apply load_spec. destruct (Z.ltb_spec index 0); lia.
Qed.
Lemma items_set_spec l index x : (length l <= 255)%nat -> - 2 ^ 31 <= index < 2 ^ 31 ->
  let n := Z.of_nat (length l) in
  hsk_dns_rrs_set (array_of l) index x =
  Ret (if (- n <=? index) && (index <? n) then (n, array_of (<[Z.to_nat (if index <? 0 then index + n else index) := x]> l))
       else (0, array_of l)).
Proof.
  intros Hl Hi n. unfold hsk_dns_rrs_set. rewrite at_index_spec by done. fold n.
  destruct (Z.leb_spec (- n) index), (Z.ltb_spec index n); cbn [andb]; try done.
  set (i := if index <? 0 then index + n else index). assert (Hr : 0 <= i < n) by (unfold i; destruct (Z.ltb_spec index 0); lia).
  rewrite (store_list l) by (lia || by apply length_array). cbn [obind array_of rrs_items rrs_size]. f_equal. f_equal.
  unfold array_of. rewrite length_insert. f_equal. rewrite insert_app_l by (rewrite length_map; lia). f_equal.
  change (List.map Some ?k) with (Some <$> k). by rewrite list_fmap_insert.
Qed.

(** The arrays of records and texts are lists of at most 255 items: appending (which a
    full array refuses), taking the first or the last item, and reading or replacing an
    item by an index, which counts from the end if negative and is refused when it is out
    of range, are the operations on lists; no assertion fails and no access leaves the array. *)
Theorem dns_items_refine l x index : (length l <= 255)%nat -> - 2 ^ 31 <= index < 2 ^ 31 ->
  let n := Z.of_nat (length l) in
  let inside := (- n <=? index) && (index <? n) in
  let i := Z.to_nat (if index <? 0 then index + n else index) in
  hsk_dns_rrs_push (array_of l) x = Ret (if (length l =? 255)%nat then 0 else n + 1, array_of (push_item l x)) /\
  hsk_dns_rrs_pop (array_of l) = Ret (last l, array_of (removelast l)) /\
  hsk_dns_rrs_shift (array_of l) = Ret (head l, array_of (tail l)) /\
  hsk_dns_rrs_get (array_of l) index = Ret (if inside then l !! i else None) /\
  hsk_dns_rrs_set (array_of l) index x = Ret (if inside then (n, array_of (<[i := x]> l)) else (0, array_of l)).
Proof.
  intros Hl Hi. split_and!; [by apply push_spec|by apply pop_spec|by apply shift_spec|by apply items_get_spec|by apply items_set_spec].
Qed.

(** Prepending does not prepend. The loop copies the first item over all the others, the
    new item is stored after the end of the array, and with 254 items outside of it. *)
Lemma dns_unshift_wrong (a b c : A) :
  hsk_dns_rrs_unshift (array_of [a; b]) c =
    Ret (3, mk_rrs 3 ([Some a; Some a; Some a; Some c] ++ replicate 251 None)) /\
  hsk_dns_rrs_unshift (array_of []) c = Ret (1, mk_rrs 1 ([None; Some c] ++ replicate 253 None)) /\
  hsk_dns_rrs_unshift (array_of (replicate 254 a)) c = Fault Overread.
Proof. split_and!; vm_compute; reflexivity. Qed.
End Items.

Lemma dns_items_refine_witness : hsk_dns_rrs_get (array_of [10; 20; 30]) (-1) = Ret (Some 30).
Proof.
  exact (proj1 (proj2 (proj2 (proj2 (dns_items_refine [10; 20; 30] 40 (-1)
    ltac:(cbn; lia) ltac:(lia)))))).
Defined.
