(* ===== verification/DnsCodec.v ===== *)
(** Readers and writers of DNS records: what a writer of a message and a reader promise
    each other in the presence of name compression, and its instances up to records. *)

From S2P Require Import Prelude Bio Map MapProps DnsName DnsNameProps DnsRecord.

(** * The contract *)

(** With compression, at most ten labels: more may need more pointers than are followed. *)
Definition name_wf (cm : bool) (n : list Z) : Prop :=
  exists ls, n = text ls /\ name_ok ls /\ (cm = true -> (length ls <= 10)%nat).
(** The reader's message extends what the table speaks of. *)
Definition dmp_ext (msg : list Z) (c : option cmp_map) (dmp : option (list Z)) : Prop :=
  match c with Some _ => exists x, dmp = Some (msg ++ x) | None => True end.

(** [w] writes [a] for [r]: the size computed without a destination is enough, the bytes
    depend on the length of the message so far and on the table only, the table stays
    right, and [r] reads [a] back from any message that continues this one. If [fin],
    [a] takes all the bytes that [r] gets. *)
Definition dcodec (cm fin : bool) {A} (w : dwr) (r : option (list Z) -> rd A) (a : A) : Prop :=
  exists size, w None = Ret (size, None) /\
  forall acc0 c, (c <> None -> cm = true) -> cmp_ok acc0 c -> exists bs c',
    bytes bs /\ Z.of_nat (length bs) <= size /\ (c = None -> Z.of_nat (length bs) = size) /\ (c' = None <-> c = None) /\
    forall acc, length acc = length acc0 -> cmp_ok acc c ->
      w (Some (acc, c)) = Ret (Z.of_nat (length bs), Some (acc ++ bs, c')) /\ cmp_ok (acc ++ bs) c' /\
      forall dmp rest, dmp_ext (acc ++ bs) c' dmp -> (fin = true -> rest = []) -> r dmp (bs ++ rest) = Ret (a, rest).

Lemma dmp_ext_app msg x c c' dmp : (c = None <-> c' = None) -> dmp_ext (msg ++ x) c dmp -> dmp_ext msg c' dmp.
Proof.
  intros [H2 H1]. destruct c, c'; cbn; try done; [|by specialize (H2 eq_refl)].
  intros [y ->]. exists (x ++ y). by rewrite (assoc_L (++)).
Qed.

Lemma dcodec_ret cm fin {A} (a : A) : dcodec cm fin dret (fun _ => rret a) a.
Proof.
  exists 0. split; [done|]. intros acc0 c _ _. exists [], c. split; [constructor|]. do 3 (split; [done|]).
  intros acc _ Hc. rewrite app_nil_r. split; [done|]. by split.
Qed.
Lemma dcodec_bind cm fin {A B} w1 w2 (r : option (list Z) -> rd A) (k : option (list Z) -> A -> rd B) a b :
  dcodec cm false w1 r a -> dcodec cm fin w2 (fun dmp => k dmp a) b ->
  dcodec cm fin (w1 ;+ w2) (fun dmp => rbind (r dmp) (k dmp)) b.
Proof.
  intros (s1 & Hs1 & H1) (s2 & Hs2 & H2). exists (s1 + s2). unfold dseq. rewrite Hs1. cbn [obind]. rewrite Hs2.
  split; [done|]. intros acc0 c Hcm Hc. destruct (H1 acc0 c Hcm Hc) as (bs1 & c1 & Hb1 & Hl1 & Hn1 & Hc1 & Hw1).
  destruct (Hw1 acc0 eq_refl Hc) as (_ & Hok1 & _). assert (Hcm1 : c1 <> None -> cm = true) by tauto.
  destruct (H2 (acc0 ++ bs1) c1 Hcm1 Hok1) as (bs2 & c2 & Hb2 & Hl2 & Hn2 & Hc2 & Hw2).
  exists (bs1 ++ bs2), c2. rewrite length_app. split; [by apply bytes_app|]. split; [lia|].
  split; [intros E; rewrite Nat2Z.inj_add, (Hn1 E), (Hn2 (proj2 Hc1 E)); done|]. split; [tauto|].
  intros acc Hlen Hcacc. destruct (Hw1 acc Hlen Hcacc) as (Ew1 & Hok & Hr1).
  destruct (Hw2 (acc ++ bs1) ltac:(by rewrite !length_app, Hlen) Hok) as (Ew2 & Hok2 & Hr2).
  rewrite Ew1. cbn [obind]. rewrite Ew2. cbn [obind]. rewrite (assoc_L (++)), Nat2Z.inj_add. split; [done|]. split; [done|].
  intros dmp rest Hd Hf. unfold rbind. rewrite <-(assoc_L (++)), Hr1; [by apply Hr2| |done].
  eapply dmp_ext_app; [|done]. tauto.
Qed.
(** The last field. *)
Lemma dcodec_map cm fin {A B} w (r : option (list Z) -> rd A) (f : A -> B) a :
  dcodec cm fin w r a -> dcodec cm fin w (fun dmp => rbind (r dmp) (fun x => rret (f x))) (f a).
Proof.
  intros (s & Hs & H). exists s. split; [done|]. intros acc0 c Hcm Hc.
  destruct (H acc0 c Hcm Hc) as (bs & c' & Hb & Hl & Hn & Hc' & Hw). exists bs, c'. do 4 (split; [done|]).
  intros acc Hlen Hcacc. destruct (Hw acc Hlen Hcacc) as (Ew & Hok & Hr). do 2 (split; [done|]).
  intros dmp rest Hd Hf. unfold rbind. by rewrite Hr.
Qed.
Lemma dcodec_weaken cm {A} w (r : option (list Z) -> rd A) a : dcodec cm false w r a -> dcodec cm true w r a.
Proof.
  intros (s & Hs & H). exists s. split; [done|]. intros acc0 c Hcm Hc.
  destruct (H acc0 c Hcm Hc) as (bs & c' & Hb & Hl & Hn & Hc' & Hw). exists bs, c'. do 4 (split; [done|]).
  intros acc Hlen Hcacc. destruct (Hw acc Hlen Hcacc) as (Ew & Hok & Hr). do 2 (split; [done|]).
  intros dmp rest Hd _. by apply Hr.
Qed.
(** A reader that returns the same where the first one does. *)
Lemma dcodec_mono cm fin {A B} w (r : option (list Z) -> rd A) (r' : option (list Z) -> rd B) a b :
  (forall dmp d rest, r dmp d = Ret (a, rest) -> r' dmp d = Ret (b, rest)) ->
  dcodec cm fin w r a -> dcodec cm fin w r' b.
Proof.
  intros E (s & Hs & H). exists s. split; [done|]. intros acc0 c Hcm Hc.
  destruct (H acc0 c Hcm Hc) as (bs & c' & Hb & Hl & Hn & Hc' & Hw). exists bs, c'. do 4 (split; [done|]).
  intros acc Hlen Hcacc. destruct (Hw acc Hlen Hcacc) as (Ew & Hok & Hr). do 2 (split; [done|]).
  intros dmp rest Hd Hf. by apply E, Hr.
Qed.
Lemma dcodec_ext cm fin {A} w (r r' : option (list Z) -> rd A) a : (forall dmp d, r dmp d = r' dmp d) ->
  dcodec cm fin w r a -> dcodec cm fin w r' a.
Proof. intros E. apply dcodec_mono. intros dmp d rest. by rewrite E. Qed.
(** What readers and writers of [bio.h] give. *)
Lemma dcodec_lift cm fin {A} w (r : rd A) bs a : emits w bs -> sizes w (Z.of_nat (length bs)) -> bytes bs ->
  (forall rest, (fin = true -> rest = []) -> r (bs ++ rest) = Ret (a, rest)) -> dcodec cm fin (dlift w) (fun _ => r) a.
Proof.
  intros He Hs Hb Hp. exists (Z.of_nat (length bs)). unfold dlift. rewrite Hs. split; [done|].
  intros acc0 c _ _. exists bs, c. split; [done|]. split; [lia|]. split; [done|]. split; [done|].
  intros acc _ Hc. rewrite He. split; [done|]. split; [by apply cmp_ok_app|]. intros dmp rest _ Hf. by apply Hp.
Qed.
Lemma dcodec_u8 cm v : 0 <= v < 256 -> dcodec cm false (dlift (write_u8 v)) (fun _ => read_u8) v.
Proof.
  intros Hv. eapply (dcodec_lift _ _ _ _ [v]); [auto with hsk|apply sizes_u8|by apply bytes_cons; [|constructor]|].
  intros rest _. by apply parses_u8.
Qed.
Lemma dcodec_u16 cm v : 0 <= v < 2 ^ 16 -> dcodec cm false (dlift (write_u16be v)) (fun _ => read_u16be) v.
Proof.
  intros Hv. eapply (dcodec_lift _ _ _ _ (be_split 2 v)); [apply emits_u16be| |auto with hsk|].
  - by rewrite length_be_split.
  - intros rest _. by apply parses_u16be.
Qed.
Lemma dcodec_u32 cm v : 0 <= v < 2 ^ 32 -> dcodec cm false (dlift (write_u32be v)) (fun _ => read_u32be) v.
Proof.
  intros Hv. eapply (dcodec_lift _ _ _ _ (be_split 4 v)); [apply emits_u32be| |auto with hsk|].
  - by rewrite length_be_split.
  - intros rest _. by apply parses_u32be.
Qed.
Lemma dcodec_bytes cm n bs : Z.of_nat (length bs) = n -> bytes bs ->
  dcodec cm false (dlift (write_bytes bs)) (fun _ => read_bytes n) bs.
Proof.
  intros Hn Hb. eapply (dcodec_lift _ _ _ _ bs); [auto with hsk|by apply sizes_bytes|done|].
  intros rest _. by apply parses_bytes.
Qed.
Lemma alloc_rest_spec bs : alloc_rest true bs = Ret (bs, []).
Proof.
  unfold alloc_rest, alloc_bytes, read_bytes. rewrite Z.ltb_irrefl. cbn [negb].
  by rewrite Nat2Z.id, take_ge, drop_ge by lia.
Qed.
Lemma dcodec_rest cm bs : bytes bs -> dcodec cm true (dlift (write_bytes bs)) (fun _ => alloc_rest true) bs.
Proof.
  intros Hb. eapply (dcodec_lift _ _ _ _ bs); [auto with hsk|by apply sizes_bytes|done|].
  intros rest Hf. rewrite (Hf eq_refl), app_nil_r. apply alloc_rest_spec.
Qed.

(** ** Names *)

Lemma name_write_base mem n acc0 acc bs bs2 c c1 c2 s s2 : length acc = length acc0 ->
  hsk_dns_name_write mem n (Some (acc0, c)) = Ret (s, Some (acc0 ++ bs, c1)) ->
  hsk_dns_name_write mem n (Some (acc, c)) = Ret (s2, Some (acc ++ bs2, c2)) -> bs2 = bs /\ c2 = c1.
Proof.
  unfold hsk_dns_name_write. intros ->. destruct (hsk_dns_name_serialize _ _ _ _ _) as [r| |]; try done. cbn [obind].
  intros [= _ E1%app_inv_head E2] [= _ E3%app_inv_head E4]. by subst.
Qed.
Lemma dcodec_name cm mem n : name_wf cm n -> dcodec cm false (hsk_dns_name_write mem n) hsk_dns_name_read n.
Proof.
  intros (ls & -> & Hok & Hcm). exists (Z.of_nat (length (body ls)) + 1). split; [by apply name_write_size|].
  intros acc0 c Hc0 Hc. destruct (name_write_spec mem acc0 c ls Hok Hc) as (bs & d & c' & E & Hw & Hl & _ & _ & Hc' & _).
  exists bs, c'. split; [eapply wire_form_bytes; [done|apply Hok]|]. split; [lia|]. split; [|split; [done|]].
  { intros ->. rewrite name_write_plain in E by done. injection E as <- _ _. done. }
  intros acc Hlen Hcacc. destruct (name_write_spec mem acc c ls Hok Hcacc) as (bs2 & d2 & c2 & E2 & Hw2 & _ & Hd2 & _ & _ & Hok2).
  destruct (name_write_base _ _ _ _ _ _ _ _ _ _ _ Hlen E E2) as [-> ->]. do 2 (split; [done|]).
  intros dmp rest Hdmp _. destruct c as [m|].
  - destruct c' as [m'|]; [|by destruct Hc' as [Hc' _]; specialize (Hc' eq_refl)]. destruct Hdmp as [x ->].
    rewrite <-(assoc_L (++)). eapply read_wire_form; [by apply wire_form_app|done|].
    assert (cm = true) by (by apply Hc0). specialize (Hcm ltac:(done)). lia.
  - rewrite name_write_plain in E by done. injection E as _ E%app_inv_head _. subst bs. by apply read_plain.
Qed.

(** * Record data *)

Abbreviation in8 v := (0 <= v < 2 ^ 8).
Abbreviation in16 v := (0 <= v < 2 ^ 16).
Abbreviation in32 v := (0 <= v < 2 ^ 32).
Definition blob (n : Z) (l : list Z) : Prop := bytes l /\ Z.of_nat (length l) <= n.

Definition rd_wf (cm : bool) (rd : hsk_dns_rd_t) : Prop :=
  match rd with
  | RSoa r => name_wf cm (soa_ns r) /\ name_wf cm (soa_mbox r) /\ in32 (soa_serial r) /\ in32 (soa_refresh r) /\
      in32 (soa_retry r) /\ in32 (soa_expire r) /\ in32 (soa_minttl r)
  | RA addr => bytes_n 4 addr
  | RAaaa addr => bytes_n 16 addr
  | RLoc r => in8 (loc_version r) /\ in8 (loc_size r) /\ in8 (loc_horiz_pre r) /\ in8 (loc_vert_pre r) /\
      in32 (loc_latitude r) /\ in32 (loc_longitude r) /\ in32 (loc_altitude r)
  | RCname n | RDname n | RNs n | RPtr n => name_wf cm n
  | RMx r => in16 (mx_preference r) /\ name_wf cm (mx_mx r)
  | RSrv r => in16 (srv_priority r) /\ in16 (srv_weight r) /\ in16 (srv_port r) /\ name_wf cm (srv_target r)
  | RTxt txts => Forall (blob 255) txts /\ Z.of_nat (length txts) <= 255
  | RDs r => in16 (ds_key_tag r) /\ in8 (ds_algorithm r) /\ in8 (ds_digest_type r) /\ bytes (ds_digest r)
  | RTlsa r => in8 (tlsa_usage r) /\ in8 (tlsa_selector r) /\ in8 (tlsa_matching_type r) /\ bytes (tlsa_certificate r)
  | RSshfp r => in8 (sshfp_algorithm r) /\ in8 (sshfp_digest_type r) /\ bytes (sshfp_fingerprint r)
  | ROpenpgpkey l | ROpt l | RUnknown l => bytes l
  | RDnskey r => in16 (dnskey_flags r) /\ in8 (dnskey_protocol r) /\ in8 (dnskey_algorithm r) /\ bytes (dnskey_pubkey r)
  | RRrsig r => in16 (rrsig_type_covered r) /\ in8 (rrsig_algorithm r) /\ in8 (rrsig_labels r) /\ in32 (rrsig_orig_ttl r) /\
      in32 (rrsig_expiration r) /\ in32 (rrsig_inception r) /\ in16 (rrsig_key_tag r) /\
      name_wf cm (rrsig_signer_name r) /\ bytes (rrsig_signature r)
  | RUri r => in16 (uri_priority r) /\ in16 (uri_weight r) /\ blob 255 (uri_data r)
  | RRp r => name_wf cm (rp_mbox r) /\ name_wf cm (rp_txt r)
  | RNsec r => name_wf cm (nsec_next_domain r) /\ bytes (nsec_type_map r)
  end.
Definition kind_of_rd (rd : hsk_dns_rd_t) : rd_kind :=
  match rd with
  | RSoa _ => KSoa | RA _ => KA | RAaaa _ => KAaaa | RLoc _ => KLoc | RCname _ => KCname | RDname _ => KDname
  | RNs _ => KNs | RMx _ => KMx | RPtr _ => KPtr | RSrv _ => KSrv | RTxt _ => KTxt | RDs _ => KDs | RTlsa _ => KTlsa
  | RSshfp _ => KSshfp | ROpenpgpkey _ => KOpenpgpkey | ROpt _ => KOpt | RDnskey _ => KDnskey | RRrsig _ => KRrsig
  | RUri _ => KUri | RRp _ => KRp | RNsec _ => KNsec | RUnknown _ => KUnknown
  end.
Lemma kind_of_rd_init type : kind_of_rd (hsk_dns_rd_init type) = kind_of_type type.
Proof. unfold hsk_dns_rd_init. by destruct (kind_of_type type). Qed.

Abbreviation all_ok := (fun _ : nat => true).

Lemma push_item_small {A} (l : list A) x : Z.of_nat (length l) < 255 -> push_item l x = l ++ [x].
Proof. intros H. unfold push_item. destruct (Z.eqb_spec (Z.of_nat (length l)) 255); [lia|done]. Qed.
Lemma emits_u8_list v : 0 <= v < 256 -> set_u8 v = [v].
Proof. intros H. unfold set_u8. by rewrite u8_small. Qed.

Definition txts_wire (txts : list (list Z)) : list Z := concat (List.map (fun t => Z.of_nat (length t) :: t) txts).
Lemma write_txts_none txts : write_txts txts None = Ret (Z.of_nat (length (txts_wire txts)), None).
Proof.
  induction txts as [|t txts IH]; [done|]. change (write_txts (t :: txts)) with (write_txt t ;+ write_txts txts).
  unfold write_txt, dseq, dlift, write_u8, write_bytes, write_raw. cbn [obind fst]. rewrite IH.
  unfold txts_wire. cbn -[Z.add]. rewrite length_app. do 2 f_equal. lia.
Qed.
Lemma write_txts_some txts acc c : Forall (blob 255) txts ->
  write_txts txts (Some (acc, c)) = Ret (Z.of_nat (length (txts_wire txts)), Some (acc ++ txts_wire txts, c)).
Proof.
  intros H. revert acc; induction H as [|t txts [Hb Hl] _ IH]; intros acc; [cbn; by rewrite app_nil_r|].
  change (write_txts (t :: txts)) with (write_txt t ;+ write_txts txts).
  unfold dseq, write_txt, dseq, dlift, write_u8, write_bytes, write_raw. cbn [obind fst].
  rewrite emits_u8_list by lia. cbn [obind default id]. rewrite IH. cbn [obind]. unfold txts_wire. cbn [List.map concat app].
  rewrite <-!(assoc_L (++)). cbn [app length]. rewrite length_app. f_equal. f_equal. lia.
Qed.
Lemma txt_loop_spec txts : Forall (blob 255) txts -> forall fuel pre,
  (length (txts_wire txts) < fuel)%nat -> Z.of_nat (length pre + length txts) <= 255 ->
  txt_loop fuel all_ok pre (txts_wire txts) = Ret (pre ++ txts, []).
Proof.
  induction 1 as [|t txts [Hb Hl] _ IH]; intros fuel pre Hf Hn; (destruct fuel as [|fuel]; [lia|]).
  { cbn. by rewrite app_nil_r. }
  unfold txts_wire in *. cbn [List.map concat app txt_loop] in *. cbn [length] in Hf, Hn. rewrite length_app in Hf. unfold rbind at 1.
  change (Z.of_nat (length t) :: t ++ ?r) with ([Z.of_nat (length t)] ++ t ++ r).
  rewrite parses_u8 by lia. unfold rbind at 1. rewrite parses_bytes by done.
  rewrite push_item_small by lia. rewrite IH; [by rewrite <-(assoc_L (++))|lia|].
  rewrite length_app. cbn [length]. lia.
Qed.
Lemma bytes_txts_wire txts : Forall (blob 255) txts -> bytes (txts_wire txts).
Proof.
  induction 1 as [|t txts [Hb Hl] _ IH]; [constructor|]. unfold txts_wire. cbn [List.map concat app].
  apply bytes_cons; [lia|]. by apply bytes_app.
Qed.
Lemma dcodec_txts cm txts : Forall (blob 255) txts -> Z.of_nat (length txts) <= 255 ->
  dcodec cm true (write_txts txts) (fun _ d => (l <- txt_loop (S (length d)) all_ok [] ;; rret (RTxt l)) d) (RTxt txts).
Proof.
  intros Ht Hn. exists (Z.of_nat (length (txts_wire txts))). split; [apply write_txts_none|].
  intros acc0 c _ _. exists (txts_wire txts), c. split; [by apply bytes_txts_wire|]. split; [lia|]. split; [done|]. split; [done|].
  intros acc _ Hc. rewrite write_txts_some by done. split; [done|]. split; [by apply cmp_ok_app|].
  intros dmp rest _ Hf. rewrite (Hf eq_refl), app_nil_r. unfold rbind. by rewrite txt_loop_spec by (done || cbn; lia).
Qed.

Lemma dcodec_eq cm fin {A} w (r : option (list Z) -> rd A) a b : dcodec cm fin w r a -> a = b -> dcodec cm fin w r b.
Proof. by intros H <-. Qed.
Ltac dcodec_field :=
  first [ apply dcodec_name; done | apply dcodec_u8; lia | apply dcodec_u16; lia | apply dcodec_u32; lia
        | apply dcodec_bytes; [done || lia|done] ].
Ltac solve_dcodec :=
  repeat (eapply dcodec_bind; [dcodec_field|]);
  apply (dcodec_map _ _ _ _ (fun x => _));
  first [ apply dcodec_rest; done | apply dcodec_weaken; dcodec_field ].

Lemma dcodec_rd cm mem type rd : rd_wf cm rd -> kind_of_type type = kind_of_rd rd ->
  dcodec cm true (hsk_dns_rd_write mem rd type)
    (fun dmp => hsk_dns_rd_read dmp all_ok (hsk_dns_rd_init type) type) rd.
Proof.
  intros Hw Hk. unfold hsk_dns_rd_write, hsk_dns_rd_read, hsk_dns_rd_init. rewrite Hk.
  destruct rd as [r|a|a|r|n|n|n|r|n|r|l|r|r|r|l|l|r|r|r|r|r|l]; cbn [kind_of_rd rd_wf] in *;
    unfold bytes_n, blob in *; destruct_and?.
  11: by apply dcodec_txts.
  all: (eapply dcodec_eq; [solve_dcodec|by try destruct r]).
Qed.

(** ** The size does not depend on the allocations of the table *)

Definition null_eq (w w' : dwr) : Prop := w None = w' None /\ forall s o, w None = Ret (s, o) -> o = None.
Lemma null_eq_seq w1 w1' w2 w2' : null_eq w1 w1' -> null_eq w2 w2' -> null_eq (w1 ;+ w2) (w1' ;+ w2').
Proof.
  intros [E1 H1] [E2 H2]. unfold null_eq, dseq. rewrite <-E1. destruct (w1 None) as [[s1 o1]| |]; [|done..].
  rewrite (H1 _ _ eq_refl). cbn [obind]. rewrite <-E2. destruct (w2 None) as [[s2 o2]| |]; [|done..].
  rewrite (H2 _ _ eq_refl). split; [done|]. by intros s o [= _ <-].
Qed.
Lemma null_eq_lift w s : sizes w s -> null_eq (dlift w) (dlift w).
Proof. intros H. unfold null_eq, dlift. split; [done|]. by intros ? ? [= _ <-]. Qed.
Lemma serialize_loop_none mem data base name s : forall i begin out,
  serialize_loop mem data base name s i begin out None = serialize_loop no_table data base name s i begin out None.
Proof.
  induction s as [|c s IH]; intros i begin out; [done|]. cbn [serialize_loop].
  destruct (c =? dot); [|apply IH]. destruct (_ && _); [done|]. destruct (_ <? _); [done|]. destruct (_ && _); [done|]. apply IH.
Qed.
Lemma null_eq_name mem n : null_eq (hsk_dns_name_write mem n) (hsk_dns_name_write no_table n).
Proof.
  unfold null_eq, hsk_dns_name_write, hsk_dns_name_serialize. rewrite serialize_loop_none. split; [done|].
  destruct (serialize_loop _ _ _ _ _ _ _ _ _); [|done..]. by intros ? ? [= _ <-].
Qed.
Lemma null_eq_txts txts : null_eq (write_txts txts) (write_txts txts).
Proof. unfold null_eq. rewrite write_txts_none. split; [done|]. by intros ? ? [= _ <-]. Qed.
Lemma rd_write_none mem rd type : kind_of_type type = kind_of_rd rd ->
  null_eq (hsk_dns_rd_write mem rd type) (hsk_dns_rd_write no_table rd type).
Proof.
  intros Hk. unfold hsk_dns_rd_write. rewrite Hk. destruct rd; cbn [kind_of_rd];
    repeat apply null_eq_seq; first [apply null_eq_name | apply null_eq_txts | by eapply null_eq_lift].
Qed.

(** * Records and questions *)

Definition rr_wf (cm : bool) (rr : hsk_dns_rr_t) : Prop :=
  name_wf cm (rr_name rr) /\ in16 (rr_type rr) /\ in16 (rr_class rr) /\ in32 (rr_ttl rr) /\
  exists rd s, rr_rd rr = Some rd /\ kind_of_type (rr_type rr) = kind_of_rd rd /\ rd_wf cm rd /\
    hsk_dns_rd_size rd (rr_type rr) = Ret s /\ s < 2 ^ 16.
Definition qs_wf (cm : bool) (qs : hsk_dns_rr_t) : Prop :=
  name_wf cm (rr_name qs) /\ in16 (rr_type qs) /\ in16 (rr_class qs) /\ rr_ttl qs = 0 /\ rr_rd qs = None.

Lemma dcodec_with_length cm {A} w (r : option (list Z) -> rd A) a size : dcodec cm true w r a ->
  dsize w = Ret size -> size < 2 ^ 16 ->
  dcodec cm false (with_length w)
    (fun dmp => len <- read_u16be ;; _ <- has_bytes len ;; sub_read len (r dmp)) a.
Proof.
  intros (size' & Hs & H) E Hlt. unfold dsize in E. rewrite Hs in E. injection E as ->. exists (2 + size).
  unfold with_length. rewrite Hs. split; [done|]. intros acc0 c Hcm Hc.
  assert (Hc2 : cmp_ok (acc0 ++ [0; 0]) c) by (by apply cmp_ok_app).
  destruct (H (acc0 ++ [0; 0]) c Hcm Hc2) as (bs & c' & Hb & Hl & Hn & Hc' & Hw).
  set (hd := be_split 2 (Z.of_nat (length bs))). assert (Hhd : length hd = 2%nat) by apply length_be_split.
  exists (hd ++ bs), c'. rewrite length_app, Hhd. split; [apply bytes_app; split; [apply bytes_be_split|done]|]. split; [lia|].
  split; [intros Ec; specialize (Hn Ec); lia|]. split; [done|]. intros acc Hlen Hcacc.
  destruct (Hw (acc ++ [0; 0]) ltac:(by rewrite !length_app, Hlen) (cmp_ok_app _ _ _ Hcacc)) as (Ew & _ & _). rewrite Ew. cbn [obind].
  destruct (Hw (acc ++ hd) ltac:(by rewrite !length_app, Hlen, Hhd) (cmp_ok_app _ _ _ Hcacc)) as (_ & Hok & Hr).
  rewrite (assoc_L (++) acc hd bs). split; [|split; [done|]].
  - rewrite u16_small, set_u16be_host by lia. fold hd. rewrite <-(assoc_L (++) acc [0; 0] bs), take_app_length.
    rewrite (assoc_L (++) acc [0; 0] bs), drop_app_length' by (rewrite length_app; cbn [length]; lia).
    rewrite (assoc_L (++)). f_equal. f_equal. lia.
  - intros dmp rest Hd _. unfold rbind at 1. rewrite <-(assoc_L (++)). unfold hd. rewrite parses_u16be by lia.
    unfold rbind, has_bytes. rewrite length_app.
    destruct (Z.ltb_spec (Z.of_nat (length bs + length rest)) (Z.of_nat (length bs))); [lia|].
    unfold sub_read. rewrite Nat2Z.id, take_app_length, drop_app_length.
    specialize (Hr dmp [] Hd ltac:(done)). rewrite app_nil_r in Hr. by rewrite Hr.
Qed.

Lemma dcodec_rr cm mem rr : rr_wf cm rr ->
  dcodec cm false (hsk_dns_rr_write mem rr) (fun dmp => hsk_dns_rr_read dmp all_ok hsk_dns_rr_init) rr.
Proof.
  intros (Hn & Ht & Hc & Httl & rd & s & Hrd & Hk & Hwf & Hs & Hlt). unfold hsk_dns_rr_write, hsk_dns_rr_read. rewrite Hrd.
  eapply dcodec_bind; [by apply dcodec_name|]. do 3 (eapply dcodec_bind; [dcodec_field|]).
  set (f := fun rd => mk_rr (rr_name rr) (rr_type rr) (rr_class rr) (rr_ttl rr) (Some rd)).
  apply (dcodec_eq _ _ _ _ (f rd)); [|by destruct rr; cbn in Hrd; subst].
  eapply (dcodec_ext _ _ _ (fun dmp => rd <- (len <- read_u16be ;; _ <- has_bytes len ;; sub_read len
    (hsk_dns_rd_read dmp all_ok (hsk_dns_rd_init (rr_type rr)) (rr_type rr))) ;; rret (f rd))).
  { intros dmp d. unfold rbind. destruct (read_u16be d) as [[len d1]| |]; try done.
    destruct (has_bytes len d1) as [[u d2]| |]; done. }
  apply dcodec_map. eapply dcodec_with_length; [by apply dcodec_rd| |done].
  rewrite <-Hs. unfold hsk_dns_rd_size, dsize. by rewrite (proj1 (rd_write_none mem rd (rr_type rr) Hk)).
Qed.
Lemma dcodec_qs cm mem qs : qs_wf cm qs ->
  dcodec cm false (hsk_dns_qs_write mem qs) (fun dmp => hsk_dns_qs_read dmp hsk_dns_qs_init) qs.
Proof.
  intros (Hn & Ht & Hc & Httl & Hrd). unfold hsk_dns_qs_write, hsk_dns_qs_read.
  do 2 (eapply dcodec_bind; [dcodec_field|]).
  set (f := fun class => mk_rr (rr_name qs) (rr_type qs) class (rr_ttl hsk_dns_qs_init) (rr_rd hsk_dns_qs_init)).
  apply (dcodec_eq _ _ _ _ (f (rr_class qs))); [|by destruct qs; cbn in *; subst].
  apply (dcodec_map _ _ _ _ f). dcodec_field.
Qed.

(** Without a table, an encoding has exactly the size computed for it. *)
Lemma dencode_spec cm {A} w (r : option (list Z) -> rd A) a fin : dcodec cm fin w r a ->
  exists bs, dencode true w = Ret bs /\ dsize w = Ret (Z.of_nat (length bs)) /\ bytes bs /\ r None bs = Ret (a, []).
Proof.
  intros (s & Hs & H). destruct (H [] None) as (bs & c' & Hb & _ & Hn & Hc' & Hw); [done..|].
  destruct (Hw [] eq_refl) as (Ew & _ & Hr); [done|]. exists bs. unfold dencode, dsize, dbytes. rewrite Hs. cbn [obind].
  rewrite Ew. cbn [obind]. rewrite <-(Hn eq_refl). cbn [app]. rewrite Z.ltb_irrefl. do 3 (split; [done|]).
  rewrite <-(app_nil_r bs). apply Hr; [|done]. by rewrite (proj2 Hc' eq_refl).
Qed.

(** * Any bytes *)

Lemma safe_name_read dmp : dmp_ok dmp -> safe (hsk_dns_name_read dmp) (name_wf false).
Proof.
  intros Hd d Hb. unfold hsk_dns_name_read, hsk_dns_name_parse.
  assert (H := parse_loop_safe parse_fuel dmp d 0 [] 0 0 Hd Hb ltac:(lia) ltac:(split; [constructor|cbn; lia]) ltac:(lia) ltac:(lia)).
  cbn [body List.map concat] in H. specialize (H ltac:(unfold parse_fuel; cbn [length]; lia)).
  destruct (parse_loop _ _ _ _ _ _ _) as [[name res]| |]; cbn [obind]; [|done|done].
  destruct H as ((ks & Hok & ->) & _). split; [|by apply bytes_drop]. by exists ks.
Qed.
Lemma safe_alloc_rest ok : safe (alloc_rest ok) bytes.
Proof.
  intros d Hd. unfold alloc_rest. assert (H := safe_alloc ok (Z.of_nat (length d)) ltac:(lia) d Hd).
  destruct (alloc_bytes _ _ _) as [[l rest]| |]; try done. by destruct H as [[H _] Hr].
Qed.
Lemma txt_loop_safe fuel : forall al pre d, bytes d -> (length d < fuel)%nat -> Forall (blob 255) pre ->
  Z.of_nat (length pre) <= 255 ->
  match txt_loop fuel al pre d with
  | Ret (txts, rest) => (Forall (blob 255) txts /\ Z.of_nat (length txts) <= 255) /\ bytes rest
  | Fail => True
  | Fault _ => False
  end.
Proof.
  induction fuel as [|fuel IH]; intros al pre d Hd Hf Hp Hn; [lia|]. cbn [txt_loop].
  destruct d as [|b d]; [done|]. apply bytes_cons_inv in Hd as [Hb Hd]. cbn [length] in Hf. destruct (al O); [|done].
  unfold rbind at 1. change (b :: d) with ([b] ++ d). rewrite parses_u8 by done. unfold rbind, read_bytes.
  destruct (Z.ltb_spec (Z.of_nat (length d)) b); [done|].
  apply IH; [by apply bytes_drop|rewrite length_drop; lia| |].
  - unfold push_item. destruct (_ =? _); [done|]. apply Forall_app. split; [done|]. apply Forall_singleton.
    split; [by apply bytes_take|]. rewrite length_take. lia.
  - unfold push_item. destruct (Z.eqb_spec (Z.of_nat (length pre)) 255); [done|]. rewrite length_app. cbn [length]. lia.
Qed.

Ltac safe_field :=
  lazymatch goal with
  | |- safe (hsk_dns_name_read _) _ => apply safe_name_read; assumption
  | |- safe read_u8 _ => apply safe_u8
  | |- safe read_u16be _ => apply safe_u16be
  | |- safe read_u32be _ => apply safe_u32be
  | |- safe (alloc_rest _) _ => apply safe_alloc_rest
  | |- safe (read_bytes _) _ => apply safe_bytes; lia
  end.
Ltac safe_fields :=
  repeat (lazymatch goal with |- safe (rbind _ _) _ => eapply safe_bind; [safe_field|intros ? ?; cbv beta in *] end).
Lemma safe_rd_read dmp al type : dmp_ok dmp ->
  safe (hsk_dns_rd_read dmp al (hsk_dns_rd_init type) type)
    (fun rd => rd_wf false rd /\ kind_of_rd rd = kind_of_type type).
Proof.
  intros Hd. unfold hsk_dns_rd_read, hsk_dns_rd_init. destruct (kind_of_type type).
  11: { intros d Hb. unfold rbind. assert (H := txt_loop_safe (S (length d)) al [] d Hb ltac:(lia) ltac:(constructor) ltac:(cbn; lia)).
    destruct (txt_loop _ _ _ _) as [[txts rest]| |]; try done. by destruct H as [H ?]. }
  all: safe_fields; apply safe_ret; split; [|reflexivity]; unfold rd_wf, bytes_n, blob; destruct_and?;
    cbn [soa_ns soa_mbox soa_serial soa_refresh soa_retry soa_expire soa_minttl loc_version loc_size loc_horiz_pre
      loc_vert_pre loc_latitude loc_longitude loc_altitude mx_preference mx_mx srv_priority srv_weight srv_port srv_target
      ds_key_tag ds_algorithm ds_digest_type ds_digest tlsa_usage tlsa_selector tlsa_matching_type tlsa_certificate
      sshfp_algorithm sshfp_digest_type sshfp_fingerprint dnskey_flags dnskey_protocol dnskey_algorithm dnskey_pubkey
      rrsig_type_covered rrsig_algorithm rrsig_labels rrsig_orig_ttl rrsig_expiration rrsig_inception rrsig_key_tag
      rrsig_signer_name rrsig_signature uri_priority uri_weight uri_data rp_mbox rp_txt nsec_next_domain nsec_type_map];
    repeat first [assumption | apply conj | lia].
Qed.

(** What is read is a record with data of its type. *)
Definition rr_type_ok (rr : hsk_dns_rr_t) : Prop :=
  name_wf false (rr_name rr) /\ in16 (rr_type rr) /\ in16 (rr_class rr) /\ in32 (rr_ttl rr) /\
  exists rd, rr_rd rr = Some rd /\ kind_of_rd rd = kind_of_type (rr_type rr) /\ rd_wf false rd.
Lemma safe_has_bytes n : safe (has_bytes n) (fun _ => True).
Proof. intros d Hd. unfold has_bytes. by destruct (_ <? _). Qed.
Lemma safe_sub_read {A} len (m : rd A) P : safe m P -> safe (sub_read len m) P.
Proof.
  intros Hm d Hd. unfold sub_read. specialize (Hm (take (Z.to_nat len) d) ltac:(auto with hsk)).
  destruct (m _) as [[a r]| |]; cbn [obind]; [|done|done]. split; [by destruct Hm|auto with hsk].
Qed.
Lemma safe_rr_read dmp al rr : dmp_ok dmp -> safe (hsk_dns_rr_read dmp al rr) rr_type_ok.
Proof.
  intros Hd. unfold hsk_dns_rr_read. safe_fields. eapply safe_bind; [apply safe_has_bytes|intros _ _].
  unfold hsk_dns_rd_alloc. destruct (al O); [|apply safe_fail].
  eapply safe_bind; [apply safe_sub_read; by apply safe_rd_read|]. intros rd [Hw Hk]. apply safe_ret.
  split; [done|]. do 3 (split; [cbn; lia|]). by exists rd.
Qed.
Lemma safe_qs_read dmp qs : dmp_ok dmp -> rr_ttl qs = 0 -> rr_rd qs = None ->
  safe (hsk_dns_qs_read dmp qs) (qs_wf false).
Proof.
  intros Hd Ht Hr. unfold hsk_dns_qs_read. safe_fields. apply safe_ret. split; [done|]. split; [done|]. by split.
Qed.
