(* ===== verification/DnsMsg.v ===== *)
(** Messages of the DNS protocol: the section on messages of [dns.c].

    Allocations while reading are answered by [al], which takes the section (0 to 3), the
    record and a counter within the record. *)

From S2P Require Import Prelude Bio Map MapProps DnsName DnsRecord.

Definition HSK_DNS_QUERY : Z := 0.
Definition HSK_DNS_NOERROR : Z := 0.
Definition HSK_DNS_MAX_UDP : Z := 512.
Definition HSK_DNS_MAX_EDNS : Z := 4096.
Definition HSK_DNS_DLV : Z := 32769.
Definition HSK_DNS_NXT : Z := 30.
Definition HSK_DNS_NSEC3 : Z := 50.
Definition HSK_DNS_NSEC3PARAM : Z := 51.

Record edns_t := mk_edns {
  edns_enabled : bool;
  edns_version : Z;
  edns_flags : Z;
  edns_size : Z;
  edns_code : Z;
  edns_rd : list Z;
}.
Record hsk_dns_msg_t := mk_msg {
  msg_id : Z;
  msg_opcode : Z;
  msg_code : Z;
  msg_flags : Z;
  msg_qd : list hsk_dns_rr_t;
  msg_an : list hsk_dns_rr_t;
  msg_ns : list hsk_dns_rr_t;
  msg_ar : list hsk_dns_rr_t;
  msg_edns : edns_t;
}.
Definition hsk_dns_msg_init : hsk_dns_msg_t :=
  mk_msg 0 HSK_DNS_QUERY HSK_DNS_NOERROR 0 [] [] [] [] (mk_edns false 0 0 HSK_DNS_MAX_UDP 0 []).

(** * Writing *)

(** [flags] with the opcode and the low bits of the code. *)
Definition wire_flags (msg : hsk_dns_msg_t) : Z :=
  let flags := Z.land (msg_flags msg) (u16 (Z.lnot (Z.shiftl 0x0f 11))) in
  let flags := Z.land flags (u16 (Z.lnot 0x0f)) in
  let flags := Z.lor flags (Z.shiftl (Z.land (msg_opcode msg) 0x0f) 11) in
  Z.lor flags (Z.land (msg_code msg) 0x0f).
Definition dseqs (ws : list dwr) : dwr := fold_right dseq dret ws.
(** The record that stands for [edns]. *)
Definition opt_record (msg : hsk_dns_msg_t) (ecode : Z) : hsk_dns_rr_t :=
  let e := msg_edns msg in
  mk_rr [dot] HSK_DNS_OPT (edns_size e)
    (Z.lor (Z.lor (u32 (Z.shiftl ecode 24)) (Z.shiftl (edns_version e) 16)) (edns_flags e))
    (Some (ROpt (edns_rd e))).
(** Whether the record is written, and its code. *)
Definition opt_written (msg : hsk_dns_msg_t) : bool * Z :=
  if 0x0f <? msg_code msg then (true, Z.shiftr (msg_code msg) 4)
  else (edns_enabled (msg_edns msg), edns_code (msg_edns msg)).

Section Write.
Context (mem : list Z -> bool).
Definition write_edns (msg : hsk_dns_msg_t) : dwr :=
  let (enabled, ecode) := opt_written msg in
  if enabled then hsk_dns_rr_write mem (opt_record msg ecode) else dret.
Definition write_header (msg : hsk_dns_msg_t) : dwr :=
  dlift (write_u16be (msg_id msg)) ;+ dlift (write_u16be (wire_flags msg)) ;+
  dlift (write_u16be (u16 (Z.of_nat (length (msg_qd msg))))) ;+
  dlift (write_u16be (u16 (Z.of_nat (length (msg_an msg))))) ;+
  dlift (write_u16be (u16 (Z.of_nat (length (msg_ns msg))))) ;+
  dlift (write_u16be (u16 (Z.of_nat (length (msg_ar msg)) + Z.b2z (edns_enabled (msg_edns msg))))).
Definition hsk_dns_msg_write (msg : hsk_dns_msg_t) : dwr :=
  write_header msg ;+
  dseqs (List.map (hsk_dns_qs_write mem) (msg_qd msg)) ;+
  dseqs (List.map (hsk_dns_rr_write mem) (msg_an msg)) ;+
  dseqs (List.map (hsk_dns_rr_write mem) (msg_ns msg)) ;+
  dseqs (List.map (hsk_dns_rr_write mem) (msg_ar msg)) ;+
  write_edns msg.
End Write.
Definition hsk_dns_msg_size (msg : hsk_dns_msg_t) : outcome Z := dsize (hsk_dns_msg_write no_table msg).
(** The write starts a message, with an empty table. A write past the end of the
    allocated buffer is a fault. *)
Definition hsk_dns_msg_encode (malloc_ok : bool) (mem : list Z -> bool) (msg : hsk_dns_msg_t) : outcome (list Z) :=
  let* size := hsk_dns_msg_size msg in
  if malloc_ok then
    let* (_, o) := hsk_dns_msg_write mem msg (Some ([], Some ∅)) in
    let bs := match o with Some (bs, _) => bs | None => [] end in
    if size <? Z.of_nat (length bs) then Fault Overread else Ret bs
  else Fail.

(** * Reading *)

(** [count] turns, or until the bytes end. *)
Fixpoint items_loop {A} (step : nat -> A -> rd A) (count i : nat) (a : A) : rd A := fun d =>
  match count with
  | O => Ret (a, d)
  | S count' =>
      match d with
      | [] => Ret (a, d)
      | _ => (a' <- step i a ;; items_loop step count' (S i) a') d
      end
  end.

Definition with_qd (msg : hsk_dns_msg_t) (l : list hsk_dns_rr_t) : hsk_dns_msg_t :=
  mk_msg (msg_id msg) (msg_opcode msg) (msg_code msg) (msg_flags msg) l (msg_an msg) (msg_ns msg) (msg_ar msg) (msg_edns msg).
Definition with_an (msg : hsk_dns_msg_t) (l : list hsk_dns_rr_t) : hsk_dns_msg_t :=
  mk_msg (msg_id msg) (msg_opcode msg) (msg_code msg) (msg_flags msg) (msg_qd msg) l (msg_ns msg) (msg_ar msg) (msg_edns msg).
Definition with_ns (msg : hsk_dns_msg_t) (l : list hsk_dns_rr_t) : hsk_dns_msg_t :=
  mk_msg (msg_id msg) (msg_opcode msg) (msg_code msg) (msg_flags msg) (msg_qd msg) (msg_an msg) l (msg_ar msg) (msg_edns msg).
Definition with_ar (msg : hsk_dns_msg_t) (l : list hsk_dns_rr_t) : hsk_dns_msg_t :=
  mk_msg (msg_id msg) (msg_opcode msg) (msg_code msg) (msg_flags msg) (msg_qd msg) (msg_an msg) (msg_ns msg) l (msg_edns msg).

Section Read.
Context (dmp : option (list Z)) (al : nat -> nat -> nat -> bool).

Definition read_question (i : nat) (msg : hsk_dns_msg_t) : rd hsk_dns_msg_t :=
  if al 0%nat i O then
    qs <- hsk_dns_qs_read dmp hsk_dns_qs_init ;; rret (with_qd msg (push_item (msg_qd msg) qs))
  else rfail.
Definition read_record (s i : nat) : rd hsk_dns_rr_t :=
  if al s i O then hsk_dns_rr_read dmp (fun k => al s i (S k)) hsk_dns_rr_init else rfail.
Definition read_answer (i : nat) (msg : hsk_dns_msg_t) : rd hsk_dns_msg_t :=
  rr <- read_record 1 i ;; rret (with_an msg (push_item (msg_an msg) rr)).
Definition read_authority (i : nat) (msg : hsk_dns_msg_t) : rd hsk_dns_msg_t :=
  rr <- read_record 2 i ;; rret (with_ns msg (push_item (msg_ns msg) rr)).
(** The record of type OPT goes to [edns]. *)
Definition set_edns (msg : hsk_dns_msg_t) (rr : hsk_dns_rr_t) : outcome hsk_dns_msg_t :=
  match rr_rd rr with
  | Some (ROpt opt) =>
      let code := Z.land (Z.shiftr (rr_ttl rr) 24) 0xff in
      Ret (mk_msg (msg_id msg) (msg_opcode msg) (u16 (Z.lor (msg_code msg) (Z.shiftl code 4))) (msg_flags msg)
        (msg_qd msg) (msg_an msg) (msg_ns msg) (msg_ar msg)
        (mk_edns true (Z.land (Z.shiftr (rr_ttl rr) 16) 0xff) (Z.land (rr_ttl rr) 0xffff) (rr_class rr) code opt))
  | Some _ => wrong_cast
  | None => Fault NullDeref
  end.
Definition read_additional (i : nat) (msg : hsk_dns_msg_t) : rd hsk_dns_msg_t :=
  rr <- read_record 3 i ;;
  if rr_type rr =? HSK_DNS_OPT then fun d => let* msg' := set_edns msg rr in Ret (msg', d)
  else rret (with_ar msg (push_item (msg_ar msg) rr)).
End Read.

Definition hsk_dns_msg_read (al : nat -> nat -> nat -> bool) (msg : hsk_dns_msg_t) : rd hsk_dns_msg_t := fun data =>
  (id <- read_u16be ;; flags <- read_u16be ;; qdcount <- read_u16be ;; ancount <- read_u16be ;;
   nscount <- read_u16be ;; arcount <- read_u16be ;;
   let msg := mk_msg id (Z.land (Z.shiftr flags 11) 0x0f) (Z.land flags 0x0f) flags
     (msg_qd msg) (msg_an msg) (msg_ns msg) (msg_ar msg) (msg_edns msg) in
   msg <- items_loop (read_question (Some data) al) (Z.to_nat qdcount) 0 msg ;;
   msg <- items_loop (read_answer (Some data) al) (Z.to_nat ancount) 0 msg ;;
   msg <- items_loop (read_authority (Some data) al) (Z.to_nat nscount) 0 msg ;;
   items_loop (read_additional (Some data) al) (Z.to_nat arcount) 0 msg) data.
Definition hsk_dns_msg_decode (malloc_ok : bool) (al : nat -> nat -> nat -> bool) (data : list Z) : outcome hsk_dns_msg_t :=
  if malloc_ok then let* (msg, _) := hsk_dns_msg_read al hsk_dns_msg_init data in Ret msg else Fail.

(** * Truncation *)

(** Passes a question ([s] is 0) or a record. *)
Definition skip_bytes (n : Z) : rd unit := fun d =>
  if Z.of_nat (length d) <? n then Fail else Ret (tt, drop (Z.to_nat n) d).
Definition skip_item (dmp : option (list Z)) (s : Z) : rd unit :=
  _ <- hsk_dns_name_read dmp ;;
  if s =? 0 then skip_bytes 4
  else _ <- skip_bytes 8 ;; rdlen <- read_u16be ;; skip_bytes rdlen.
(** [d] is what follows [data], [n] the items left of the count; the result has the
    final [d], [last] and [j]. *)
Fixpoint trunc_loop (msg : list Z) (max s : Z) (n : nat) (i last j : Z) (d : list Z) : outcome (list Z * Z * Z) :=
  let data := Z.of_nat (length msg) - Z.of_nat (length d) in
  if data <=? max then
    match n with
    | O => Ret (d, data, i)
    | S n' =>
        let* (_, d') := skip_item (Some msg) s d in
        trunc_loop msg max s n' (i + 1) data i d'
    end
  else Ret (d, last, j).
Fixpoint trunc_sections (msg : list Z) (max s : Z) (counts : list Z) (last : Z) (d : list Z) : outcome (Z * list Z) :=
  match counts with
  | [] => Ret (last, [])
  | count :: counts' =>
      let* (r, j) := trunc_loop msg max s (Z.to_nat count) 0 last 0 d in
      let (d, last) := (r : list Z * Z) in
      let* (last, js) := trunc_sections msg max (s + 1) counts' last d in
      Ret (last, u16 j :: js)
  end.
(** The message with its new counts, and [*len]. *)
Definition hsk_dns_msg_truncate (msg : list Z) (max : Z) : outcome (list Z * Z) :=
  let msg_len := Z.of_nat (length msg) in
  if msg_len <? 12 then Fail
  else if max <? 12 then Fail
  else if msg_len <=? max then Ret (msg, msg_len)
  else
    let* (counts, d) := (_ <- read_u16be ;; qdcount <- read_u16be ;; ancount <- read_u16be ;; nscount <- read_u16be ;;
      arcount <- read_u16be ;; rret [qdcount; ancount; nscount; arcount]) (drop 2 msg) in
    let* (last, js) := trunc_sections msg max 0 counts (msg_len - Z.of_nat (length d)) d in
    let head := concat (List.map (fun j => [Z.land (Z.shiftr j 8) 0xff; Z.land j 0xff]) js) in
    Ret (take 4 msg ++ head ++ drop 12 msg, last).

(** * Removal of the records of DNSSEC *)

Definition dnssec_type (type : Z) : bool :=
  (type =? HSK_DNS_DS) || (type =? HSK_DNS_DLV) || (type =? HSK_DNS_DNSKEY) || (type =? HSK_DNS_RRSIG)
  || (type =? HSK_DNS_NXT) || (type =? HSK_DNS_NSEC) || (type =? HSK_DNS_NSEC3) || (type =? HSK_DNS_NSEC3PARAM).
(** [None] is a null pointer, or a failed allocation of the temporary array. *)
Definition hsk_dns_rrs_clean (malloc_ok : bool) (rrs : option (list hsk_dns_rr_t)) (type : Z) : option (list hsk_dns_rr_t) :=
  match rrs with
  | None => None
  | Some l =>
      if malloc_ok then Some (filter (fun rr => dnssec_type (rr_type rr) && negb (type =? rr_type rr) = false) l) else None
  end.
(** On failure the sections that were done stay so. *)
Definition hsk_dns_msg_clean (al : nat -> bool) (msg : option hsk_dns_msg_t) (type : Z) : bool * option hsk_dns_msg_t :=
  match msg with
  | None => (false, None)
  | Some m =>
      match hsk_dns_rrs_clean (al 0%nat) (Some (msg_an m)) type with
      | None => (false, Some m)
      | Some an =>
          let m := with_an m an in
          match hsk_dns_rrs_clean (al 1%nat) (Some (msg_ns m)) type with
          | None => (false, Some m)
          | Some ns =>
              let m := with_ns m ns in
              match hsk_dns_rrs_clean (al 2%nat) (Some (msg_ar m)) type with
              | None => (false, Some m)
              | Some ar => (true, Some (with_ar m ar))
              end
          end
      end
  end.
