(* ===== verification/DnsMsgSpec.v ===== *)
(** DNS messages as codecs: the round trip of whole messages and what any bytes are read
    into. *)

From S2P Require Import Prelude Bio Map MapProps DnsName DnsNameProps DnsRecord DnsCodec DnsMsg.

(** * Well-formed messages *)

(** What the record of type OPT can carry. *)
Definition edns_wf (msg : hsk_dns_msg_t) : Prop :=
  let e := msg_edns msg in
  if edns_enabled e then
    in8 (edns_version e) /\ in16 (edns_flags e) /\ in16 (edns_size e) /\ in8 (edns_code e) /\ blob 65535 (edns_rd e) /\
    msg_code msg = Z.lor (Z.land (msg_code msg) 0x0f) (Z.shiftl (edns_code e) 4)
  else e = msg_edns hsk_dns_msg_init /\ 0 <= msg_code msg <= 0x0f.
Definition section (P : hsk_dns_rr_t -> Prop) (l : list hsk_dns_rr_t) : Prop := Forall P l /\ Z.of_nat (length l) <= 255.
Definition msg_wf (msg : hsk_dns_msg_t) : Prop :=
  in16 (msg_id msg) /\ 0 <= msg_opcode msg < 16 /\ in16 (msg_flags msg) /\
  section (qs_wf true) (msg_qd msg) /\ section (rr_wf true) (msg_an msg) /\ section (rr_wf true) (msg_ns msg) /\
  section (fun rr => rr_wf true rr /\ rr_type rr <> HSK_DNS_OPT) (msg_ar msg) /\ edns_wf msg.
(** The flags that are written hold the opcode and the code. *)
Definition with_flags (msg : hsk_dns_msg_t) (flags : Z) : hsk_dns_msg_t :=
  mk_msg (msg_id msg) (msg_opcode msg) (msg_code msg) flags (msg_qd msg) (msg_an msg) (msg_ns msg) (msg_ar msg) (msg_edns msg).

(** ** Lists of items *)

Lemma dseq_assoc w1 w2 w3 o : ((w1 ;+ w2) ;+ w3) o = (w1 ;+ (w2 ;+ w3)) o.
Proof.
  unfold dseq. destruct (w1 o) as [[s1 o1]| |]; try done. cbn [obind]. destruct (w2 o1) as [[s2 o2]| |]; try done. cbn [obind].
  destruct (w3 o2) as [[s3 o3]| |]; try done. cbn [obind]. by rewrite Z.add_assoc.
Qed.
Lemma dcodec_wext cm fin {A} w w' (r : option (list Z) -> rd A) a : (forall o, w' o = w o) ->
  dcodec cm fin w r a -> dcodec cm fin w' r a.
Proof.
  intros E (s & Hs & H). exists s. rewrite E. split; [done|]. intros acc0 c Hcm Hc.
  destruct (H acc0 c Hcm Hc) as (bs & c' & Hb & Hl & Hn & Hc' & Hw). exists bs, c'. do 4 (split; [done|]).
  intros acc Hlen Hcacc. rewrite E. by apply Hw.
Qed.
Lemma dseq_ext_r w1 w2 w2' o : (forall o, w2 o = w2' o) -> (w1 ;+ w2) o = (w1 ;+ w2') o.
Proof. intros H. unfold dseq. destruct (w1 o) as [[s1 o1]| |]; try done. cbn [obind]. by rewrite H. Qed.
Lemma dseqs_app ws vs o : dseqs (ws ++ vs) o = (dseqs ws ;+ dseqs vs) o.
Proof.
  revert o; induction ws as [|w ws IH]; intros o.
  - unfold dseq. cbn. unfold dseqs, dret. destruct (fold_right dseq _ vs o) as [[s o']| |]; done.
  - transitivity ((w ;+ (dseqs ws ;+ dseqs vs)) o); [|symmetry; apply dseq_assoc].
    by apply (dseq_ext_r w (dseqs (ws ++ vs)) (dseqs ws ;+ dseqs vs)).
Qed.

Lemma items_loop_app {A} (step : nat -> A -> rd A) n m : forall i a d,
  items_loop step (n + m) i a d = (a' <- items_loop step n i a ;; items_loop step m (i + n) a') d.
Proof.
  induction n as [|n IH]; intros i a d; [by rewrite Nat.add_0_r|]. cbn [Nat.add items_loop]. unfold rbind.
  destruct d as [|b d]; [by destruct m|]. destruct (step i a (b :: d)) as [[a' d']| |]; try done.
  rewrite IH. unfold rbind. by rewrite Nat.add_succ_r.
Qed.

(** A section: each turn reads one item and puts it in its place. *)
Lemma dcodec_items cm {A S} (w : A -> dwr) (r : option (list Z) -> rd A) (P : A -> Prop)
    (step : option (list Z) -> nat -> S -> rd S) (upd : S -> A -> S) l :
  (forall dmp, r dmp [] = Fail) ->
  (forall dmp i s d x rest, r dmp d = Ret (x, rest) -> P x -> step dmp i s d = Ret (upd s x, rest)) ->
  Forall (fun a => P a /\ dcodec cm false (w a) r a) l ->
  forall i s, dcodec cm false (dseqs (List.map w l)) (fun dmp => items_loop (step dmp) (length l) i s) (fold_left upd l s).
Proof.
  intros Hnil Hstep Hl. induction Hl as [|a l [Ha Hw] _ IH]; intros i s.
  { apply (dcodec_ext _ _ _ (fun _ => rret s)); [done|]. apply dcodec_ret. }
  cbn [List.map length fold_left]. change (dseqs (w a :: List.map w l)) with (w a ;+ dseqs (List.map w l)).
  set (turn := fun dmp d => match d with [] => Fail | _ => step dmp i s d end).
  assert (Hs : dcodec cm false (w a) turn (upd s a)).
  { eapply dcodec_mono; [|exact Hw]. intros dmp d rest E. unfold turn. destruct d; [by rewrite Hnil in E|]. by apply Hstep. }
  eapply (dcodec_mono _ _ _ (fun dmp => s' <- turn dmp ;; items_loop (step dmp) (length l) (Datatypes.S i) s'));
    [|eapply dcodec_bind; [exact Hs|apply IH]].
  intros dmp d rest. unfold rbind, turn. by destruct d.
Qed.

Lemma fold_push_section {M} (get : M -> list hsk_dns_rr_t) (set : M -> list hsk_dns_rr_t -> M) l :
  (forall m x, get (set m x) = x) -> (forall m x y, set (set m x) y = set m y) ->
  forall m pre, get m = pre -> Z.of_nat (length pre + length l) <= 255 ->
  fold_left (fun m x => set m (push_item (get m) x)) l (set m pre) = set m (pre ++ l).
Proof.
  intros Hget Hset. induction l as [|a l IH]; intros m pre Hm Hn; [by rewrite app_nil_r|].
  cbn [fold_left length] in *. rewrite Hget, push_item_small, Hset by lia.
  specialize (IH (set m (pre ++ [a])) (pre ++ [a])). rewrite Hset in IH. rewrite IH, Hset, <-(assoc_L (++)); [done|by rewrite Hget|].
  rewrite length_app. cbn [length]. lia.
Qed.

(** ** The steps of the sections *)

Abbreviation all_ok3 := (fun _ _ _ : nat => true).
Lemma name_read_nil dmp : hsk_dns_name_read dmp [] = Fail.
Proof. done. Qed.
Lemma rr_read_nil dmp al rr : hsk_dns_rr_read dmp al rr [] = Fail.
Proof. unfold hsk_dns_rr_read, rbind. by rewrite name_read_nil. Qed.
Lemma qs_read_nil dmp qs : hsk_dns_qs_read dmp qs [] = Fail.
Proof. unfold hsk_dns_qs_read, rbind. by rewrite name_read_nil. Qed.

Lemma dcodec_questions mem msg i l : section (qs_wf true) l -> msg_qd msg = [] ->
  dcodec true false (dseqs (List.map (hsk_dns_qs_write mem) l))
    (fun dmp => items_loop (read_question dmp all_ok3) (length l) i msg) (with_qd msg l).
Proof.
  intros [Hl Hn] Hm. eapply dcodec_eq.
  - apply (dcodec_items _ _ (fun dmp => hsk_dns_qs_read dmp hsk_dns_qs_init) (fun _ => True) (fun dmp => read_question dmp all_ok3)
      (fun m x => with_qd m (push_item (msg_qd m) x))); [intros; apply qs_read_nil| |].
    + intros dmp j m d x rest E _. unfold read_question, rbind. by rewrite E.
    + eapply Forall_impl; [exact Hl|]. intros x Hx. split; [done|]. by apply dcodec_qs.
  - replace msg with (with_qd msg []) at 1 by (destruct msg; cbn in *; by subst).
    by rewrite (fold_push_section msg_qd with_qd l).
Qed.
Lemma dcodec_records mem s get set msg i l (step : option (list Z) -> nat -> hsk_dns_msg_t -> rd hsk_dns_msg_t)
    (P : hsk_dns_rr_t -> Prop) :
  (forall m x, get (set m x) = x) -> (forall m x y, set (set m x) y = set m y) -> set msg [] = msg -> get msg = [] ->
  (forall dmp i m d x rest, read_record dmp all_ok3 s i d = Ret (x, rest) -> P x ->
    step dmp i m d = Ret (set m (push_item (get m) x), rest)) ->
  section (fun rr => rr_wf true rr /\ P rr) l ->
  dcodec true false (dseqs (List.map (hsk_dns_rr_write mem) l)) (fun dmp => items_loop (step dmp) (length l) i msg) (set msg l).
Proof.
  intros Hget Hset Hmsg Hm Hstep [Hl Hn]. eapply dcodec_eq.
  - apply (dcodec_items _ _ (fun dmp => hsk_dns_rr_read dmp all_ok hsk_dns_rr_init) P step
      (fun m x => set m (push_item (get m) x))); [intros; apply rr_read_nil| |].
    + intros dmp j m d x rest E Hp. by apply Hstep.
    + eapply Forall_impl; [exact Hl|]. intros x [Hx Hp]. split; [done|]. by apply dcodec_rr.
  - rewrite <-Hmsg at 1. by rewrite (fold_push_section get set l).
Qed.

(** ** Flags and the record of type OPT *)

Lemma lor_small k a b : 0 <= k -> 0 <= a < 2 ^ k -> 0 <= b < 2 ^ k -> 0 <= Z.lor a b < 2 ^ k.
Proof.
  intros Hk Ha Hb. rewrite <-(Z.mod_small a (2 ^ k)), <-(Z.mod_small b (2 ^ k)) by done.
  rewrite <-!Z.land_ones, <-Z.land_lor_distr_l, Z.land_ones by done. apply Z.mod_pos_bound. lia.
Qed.
Lemma land_small_r k a b : 0 <= k -> 0 <= a -> 0 <= b < 2 ^ k -> 0 <= Z.land a b < 2 ^ k.
Proof.
  intros Hk Ha Hb. rewrite <-(Z.mod_small b (2 ^ k)) by done. rewrite <-Z.land_ones, Z.land_assoc, Z.land_ones by done.
  apply Z.mod_pos_bound. lia.
Qed.
Lemma bit_cases n : 0 <= n -> n = 0 \/ n = 1 \/ n = 2 \/ n = 3 \/ 4 <= n.
Proof. lia. Qed.
Lemma testbit_15 n : 0 <= n -> Z.testbit 15 n = (n <? 4).
Proof.
  intros Hn. destruct (bit_cases n Hn) as [->|[->|[->|[->|H]]]]; try done.
  rewrite Z.bits_above_log2 by (cbn; lia). symmetry. apply Z.ltb_ge. lia.
Qed.
Lemma wire_flags_range msg : 0 <= msg_flags msg -> 0 <= wire_flags msg < 2 ^ 16.
Proof.
  intros Hf. unfold wire_flags. assert (H15 : forall x, 0 <= Z.land x 15 < 16).
  { intros x. change 15 with (2 ^ 4 - 1). rewrite land_ones_mod by lia. apply Z.mod_pos_bound. lia. }
  apply lor_small; [lia| |specialize (H15 (msg_code msg)); lia]. apply lor_small; [lia| |].
  - apply land_small_r; [lia| |by vm_compute]. by apply Z.land_nonneg; left.
  - rewrite Z.shiftl_mul_pow2 by lia. specialize (H15 (msg_opcode msg)). lia.
Qed.
Lemma wire_flags_low msg : Z.land (wire_flags msg) 15 = Z.land (msg_code msg) 15.
Proof.
  apply Z.bits_inj'. intros n Hn. unfold wire_flags. rewrite !Z.land_spec, !Z.lor_spec, !Z.land_spec, testbit_15 by done.
  destruct (Z.ltb_spec n 4) as [Hlt|]; [|by rewrite !andb_false_r]. rewrite Z.shiftl_spec_low, !andb_true_r, orb_false_r by lia.
  replace (Z.testbit (u16 (Z.lnot 15)) n) with false; [by rewrite andb_false_r|].
  by destruct (bit_cases n Hn) as [->|[->|[->|[->|H]]]]; [..|lia].
Qed.
Lemma wire_flags_opcode msg : 0 <= msg_opcode msg < 16 -> Z.land (Z.shiftr (wire_flags msg) 11) 15 = msg_opcode msg.
Proof.
  intros Ho. transitivity (Z.land (msg_opcode msg) 15).
  2: { change 15 with (2 ^ 4 - 1). rewrite land_ones_mod by lia. by apply Z.mod_small. }
  apply Z.bits_inj'. intros n Hn. unfold wire_flags.
  rewrite Z.land_spec, Z.shiftr_spec, !Z.lor_spec, Z.shiftl_spec, !Z.land_spec, !testbit_15 by lia.
  replace (n + 11 - 11) with n by lia.
  destruct (Z.ltb_spec n 4) as [Hlt|]; [|by rewrite !andb_false_r]. destruct (Z.ltb_spec (n + 11) 4) as [|_]; [lia|].
  replace (Z.testbit (u16 (Z.lnot (Z.shiftl 15 11))) (n + 11)) with false.
  2: { by destruct (bit_cases n Hn) as [->|[->|[->|[->|H]]]]; [..|lia]. }
  by rewrite !andb_false_r, andb_false_l, orb_false_l, orb_false_r, !andb_true_r.
Qed.

(** The parts of the time to live of an OPT record. *)
Lemma opt_ttl code version flags : in8 code -> in8 version -> in16 flags ->
  Z.lor (Z.lor (u32 (Z.shiftl code 24)) (Z.shiftl version 16)) flags = code * 2 ^ 24 + version * 2 ^ 16 + flags.
Proof.
  intros Hc Hv Hf. rewrite !Z.shiftl_mul_pow2, u32_small by lia.
  rewrite (lor_disjoint 24 (code * 2 ^ 24)) by (rewrite ?Z.mod_mul; lia).
  by rewrite (lor_disjoint 16) by (rewrite ?Z.mod_add; dlia).
Qed.
Lemma opt_wf msg : edns_wf msg -> edns_enabled (msg_edns msg) = true -> rr_wf true (opt_record msg (edns_code (msg_edns msg))).
Proof.
  unfold edns_wf. intros H E. rewrite E in H. destruct H as (Hv & Hf & Hs & Hc & [Hb Hl] & _).
  unfold opt_record. split; [exists []; split; [done|]; split; [split; [constructor|done]|cbn; lia]|].
  cbn [rr_type rr_class rr_ttl rr_rd]. split; [done|]. split; [done|]. rewrite opt_ttl by done. split; [lia|].
  eexists _, _. split; [done|]. split; [done|]. split; [done|]. split; [done|].
  change (Z.of_nat (length (edns_rd (msg_edns msg))) < 2 ^ 16). lia.
Qed.
Lemma set_edns_spec msg m : edns_wf msg -> edns_enabled (msg_edns msg) = true ->
  set_edns m (opt_record msg (edns_code (msg_edns msg))) =
  Ret (mk_msg (msg_id m) (msg_opcode m) (u16 (Z.lor (msg_code m) (Z.shiftl (edns_code (msg_edns msg)) 4))) (msg_flags m)
    (msg_qd m) (msg_an m) (msg_ns m) (msg_ar m) (msg_edns msg)).
Proof.
  unfold edns_wf. intros H E. rewrite E in H. destruct H as (Hv & Hf & Hs & Hc & _ & _).
  unfold set_edns, opt_record. cbn [rr_rd rr_ttl rr_class]. rewrite opt_ttl by done.
  change 0xff with (2 ^ 8 - 1). change 0xffff with (2 ^ 16 - 1). rewrite !land_ones_mod, !Z.shiftr_div_pow2 by lia.
  set (e := msg_edns msg) in *. set (t := edns_code e * 2 ^ 24 + edns_version e * 2 ^ 16 + edns_flags e).
  assert (H1 : t / 2 ^ 24 mod 2 ^ 8 = edns_code e) by (unfold t; dlia).
  assert (H2 : t / 2 ^ 16 mod 2 ^ 8 = edns_version e) by (unfold t; dlia).
  assert (H3 : t mod 2 ^ 16 = edns_flags e) by (unfold t; dlia).
  rewrite H1, H2, H3. clear H1 H2 H3 t. do 2 f_equal. subst e. destruct (msg_edns msg). cbn in E. by subst.
Qed.
Lemma opt_written_wf msg : edns_wf msg -> 0 <= msg_code msg ->
  opt_written msg = (edns_enabled (msg_edns msg), edns_code (msg_edns msg)).
Proof.
  unfold edns_wf, opt_written. intros H H0. destruct (Z.ltb_spec 15 (msg_code msg)) as [Hlt|]; [|done].
  destruct (edns_enabled (msg_edns msg)) eqn:E; [|lia]. destruct H as (_ & _ & _ & Hc & _ & ->). f_equal.
  rewrite Z.shiftr_lor, Z.shiftr_land, Z.shiftr_shiftl_l by lia. cbn [Z.sub Z.opp Z.add Z.pos_sub].
  rewrite Z.land_0_r, Z.lor_0_l. by rewrite Z.shiftl_0_r.
Qed.

(** ** The whole message *)

Definition header_read : rd (Z * Z * Z * Z * Z * Z) :=
  id <- read_u16be ;; flags <- read_u16be ;; qdcount <- read_u16be ;; ancount <- read_u16be ;;
  nscount <- read_u16be ;; arcount <- read_u16be ;; rret (id, flags, qdcount, ancount, nscount, arcount).
Definition ar_count (msg : hsk_dns_msg_t) : Z := Z.of_nat (length (msg_ar msg)) + Z.b2z (edns_enabled (msg_edns msg)).
Definition header_of (msg : hsk_dns_msg_t) : Z * Z * Z * Z * Z * Z :=
  (msg_id msg, wire_flags msg, Z.of_nat (length (msg_qd msg)), Z.of_nat (length (msg_an msg)),
   Z.of_nat (length (msg_ns msg)), ar_count msg).
Lemma dcodec_header cm msg : msg_wf msg -> dcodec cm false (write_header msg) (fun _ => header_read) (header_of msg).
Proof.
  intros (Hi & Ho & Hf & [_ Hq] & [_ Ha] & [_ Hn] & [_ Hr] & He). unfold write_header, header_read.
  assert (Hw := wire_flags_range msg ltac:(lia)).
  assert (Hb : 0 <= Z.b2z (edns_enabled (msg_edns msg)) <= 1) by (by destruct (edns_enabled _)).
  rewrite !u16_small by lia. unfold header_of, ar_count.
  repeat (eapply dcodec_bind; [dcodec_field|]).
  apply (dcodec_map _ _ _ _ (fun x => (_, _, _, _, _, x))). dcodec_field.
Qed.
Section Body.
Context (dmp : option (list Z)) (al : nat -> nat -> nat -> bool).
Definition opened (h : Z * Z * Z * Z * Z * Z) (msg : hsk_dns_msg_t) : hsk_dns_msg_t :=
  let '(id, flags, _, _, _, _) := h in
  mk_msg id (Z.land (Z.shiftr flags 11) 0x0f) (Z.land flags 0x0f) flags
    (msg_qd msg) (msg_an msg) (msg_ns msg) (msg_ar msg) (msg_edns msg).
Definition sections_read (h : Z * Z * Z * Z * Z * Z) (msg : hsk_dns_msg_t) : rd hsk_dns_msg_t :=
  let '(_, _, qdcount, ancount, nscount, arcount) := h in
  msg <- items_loop (read_question dmp al) (Z.to_nat qdcount) 0 msg ;;
  msg <- items_loop (read_answer dmp al) (Z.to_nat ancount) 0 msg ;;
  msg <- items_loop (read_authority dmp al) (Z.to_nat nscount) 0 msg ;;
  items_loop (read_additional dmp al) (Z.to_nat arcount) 0 msg.
End Body.
Lemma msg_read_eq al msg data : hsk_dns_msg_read al msg data =
  (h <- header_read ;; sections_read (Some data) al h (opened h msg)) data.
Proof.
  unfold hsk_dns_msg_read, header_read, sections_read, opened, rbind, rret.
  repeat (match goal with |- context [read_u16be ?d] => destruct (read_u16be d) as [[? ?]| |]; try done end).
Qed.

Lemma dcodec_additional mem msg m : msg_wf msg -> msg_ar m = [] -> msg_edns m = msg_edns hsk_dns_msg_init ->
  msg_code m = Z.land (msg_code msg) 15 ->
  dcodec true false (dseqs (List.map (hsk_dns_rr_write mem) (msg_ar msg)) ;+ write_edns mem msg)
    (fun dmp => items_loop (read_additional dmp all_ok3) (Z.to_nat (ar_count msg)) 0 m)
    (mk_msg (msg_id m) (msg_opcode m) (msg_code msg) (msg_flags m) (msg_qd m) (msg_an m) (msg_ns m) (msg_ar msg) (msg_edns msg)).
Proof.
  intros (_ & _ & _ & _ & _ & _ & Har & He) Hm0 Hme Hmc.
  assert (Hcode : 0 <= msg_code msg < 4096).
  { unfold edns_wf in He. destruct (edns_enabled _); [|lia]. destruct He as (_ & _ & _ & Hc & _ & ->).
    apply (lor_small 12); [lia| |rewrite Z.shiftl_mul_pow2 by lia; lia]. change 15 with (2 ^ 4 - 1).
    rewrite land_ones_mod by lia. assert (H := Z.mod_pos_bound (msg_code msg) (2 ^ 4) ltac:(lia)). lia. }
  set (n := Z.to_nat (Z.b2z (edns_enabled (msg_edns msg)))).
  apply (dcodec_ext _ _ _ (fun dmp => m' <- items_loop (read_additional dmp all_ok3) (length (msg_ar msg)) 0 m ;;
    items_loop (read_additional dmp all_ok3) n (length (msg_ar msg)) m')).
  { intros dmp d. unfold ar_count. rewrite Z2Nat.inj_add, Nat2Z.id by (destruct (edns_enabled _); cbn; lia). fold n.
    by rewrite items_loop_app. }
  eapply dcodec_bind.
  - apply (dcodec_records _ 3 msg_ar with_ar m 0 (msg_ar msg) (fun dmp => read_additional dmp all_ok3)
      (fun rr => rr_type rr <> HSK_DNS_OPT)); [done|done|by destruct m; cbn in *; subst|done| |done].
    intros dmp i m' d x rest E Hx. unfold read_additional, rbind. rewrite E.
    by destruct (Z.eqb_spec (rr_type x) HSK_DNS_OPT).
  - unfold write_edns. rewrite opt_written_wf by (done || lia). unfold n. clear n.
    destruct (edns_enabled (msg_edns msg)) eqn:E; cbn [Z.b2z].
    + eapply dcodec_mono; [|apply (dcodec_rr true mem _ (opt_wf msg He E))]. intros dmp d rest Er.
      change (Z.to_nat 1) with 1%nat. cbn [items_loop]. destruct d; [by rewrite rr_read_nil in Er|].
      unfold read_additional, read_record, rbind. rewrite Er. cbn [rr_type opt_record Z.eqb Pos.eqb].
      change (HSK_DNS_OPT =? HSK_DNS_OPT) with true. cbn iota. rewrite set_edns_spec by done. cbn [obind]. do 2 f_equal.
      cbn [with_ar msg_id msg_opcode msg_code msg_flags msg_qd msg_an msg_ns msg_ar]. rewrite Hmc. f_equal.
      unfold edns_wf in He. rewrite E in He. destruct He as (_ & _ & _ & _ & _ & Hx). rewrite <-Hx. apply u16_small. lia.
    + apply (dcodec_ext _ _ _ (fun _ => rret (with_ar m (msg_ar msg)))); [done|].
      eapply dcodec_eq; [apply dcodec_ret|]. unfold edns_wf in He. rewrite E in He. destruct He as [He Hc].
      unfold with_ar. rewrite Hme, He, Hmc. f_equal. change 15 with (2 ^ 4 - 1). rewrite land_ones_mod by lia. apply Z.mod_small. lia.
Qed.

(** What follows the header. *)
Definition sections_write (mem : list Z -> bool) (msg : hsk_dns_msg_t) : dwr :=
  dseqs (List.map (hsk_dns_qs_write mem) (msg_qd msg)) ;+ dseqs (List.map (hsk_dns_rr_write mem) (msg_an msg)) ;+
  dseqs (List.map (hsk_dns_rr_write mem) (msg_ns msg)) ;+ dseqs (List.map (hsk_dns_rr_write mem) (msg_ar msg)) ;+ write_edns mem msg.
Lemma dcodec_sections mem msg : msg_wf msg ->
  dcodec true false (sections_write mem msg)
    (fun dmp => sections_read dmp all_ok3 (header_of msg) (opened (header_of msg) hsk_dns_msg_init)) (with_flags msg (wire_flags msg)).
Proof.
  intros (Hi & Ho & Hf & Hqd & Han & Hns & Har & He). unfold sections_write, header_of, sections_read, opened.
  rewrite wire_flags_opcode, wire_flags_low by done. rewrite !Nat2Z.id.
  eapply dcodec_bind; [apply (dcodec_questions mem _ 0 _ Hqd); done|].
  eapply dcodec_bind.
  { apply (dcodec_records _ 1 msg_an with_an _ 0 (msg_an msg) (fun dmp => read_answer dmp all_ok3) (fun _ => True)); try done.
    - intros dmp i m' d x rest E _. unfold read_answer, rbind. by rewrite E.
    - destruct Han as [Han ?]. split; [|done]. eapply Forall_impl; [exact Han|done]. }
  eapply dcodec_bind.
  { apply (dcodec_records _ 2 msg_ns with_ns _ 0 (msg_ns msg) (fun dmp => read_authority dmp all_ok3) (fun _ => True)); try done.
    - intros dmp i m' d x rest E _. unfold read_authority, rbind. by rewrite E.
    - destruct Hns as [Hns ?]. split; [|done]. eapply Forall_impl; [exact Hns|done]. }
  eapply dcodec_eq; [by apply dcodec_additional|]. done.
Qed.
Theorem dcodec_msg mem msg : msg_wf msg ->
  dcodec true false (hsk_dns_msg_write mem msg)
    (fun dmp => h <- header_read ;; sections_read dmp all_ok3 h (opened h hsk_dns_msg_init)) (with_flags msg (wire_flags msg)).
Proof. intros Hw. eapply dcodec_bind; [by apply dcodec_header|by apply dcodec_sections]. Qed.

(** ** The size that is computed is enough *)

Lemma null_eq_ret : null_eq dret dret.
Proof. split; [done|]. by intros ? ? [= _ <-]. Qed.
Lemma null_eq_dseqs {A} (w w' : A -> dwr) l : Forall (fun a => null_eq (w a) (w' a)) l ->
  null_eq (dseqs (List.map w l)) (dseqs (List.map w' l)).
Proof. induction 1; [apply null_eq_ret|]. by apply null_eq_seq. Qed.
Lemma null_eq_qs mem qs : null_eq (hsk_dns_qs_write mem qs) (hsk_dns_qs_write no_table qs).
Proof. apply null_eq_seq; [apply null_eq_name|]. by apply null_eq_seq; eapply null_eq_lift. Qed.
Lemma null_eq_rr cm mem rr : rr_wf cm rr -> null_eq (hsk_dns_rr_write mem rr) (hsk_dns_rr_write no_table rr).
Proof.
  intros (_ & _ & _ & _ & rd & s & Hrd & Hk & _ & _). unfold hsk_dns_rr_write. rewrite Hrd.
  apply null_eq_seq; [apply null_eq_name|]. do 3 (apply null_eq_seq; [by eapply null_eq_lift|]).
  destruct (rd_write_none mem rd (rr_type rr) Hk) as [E H]. unfold null_eq, with_length. rewrite E. split; [done|].
  intros x o. rewrite <-E. destruct (hsk_dns_rd_write mem rd (rr_type rr) None) as [[y o']| |]; [|done..].
  rewrite (H _ _ eq_refl). by intros [= _ <-].
Qed.
Lemma null_eq_msg mem msg : msg_wf msg -> null_eq (hsk_dns_msg_write mem msg) (hsk_dns_msg_write no_table msg).
Proof.
  intros Hw. assert (He := Hw). destruct Hw as (_ & _ & _ & [Hqd _] & [Han _] & [Hns _] & [Har _] & _).
  apply null_eq_seq; [unfold write_header; repeat apply null_eq_seq; by eapply null_eq_lift|].
  apply null_eq_seq; [apply null_eq_dseqs; eapply Forall_impl; [exact Hqd|]; intros x _; apply null_eq_qs|].
  apply null_eq_seq; [apply null_eq_dseqs; eapply Forall_impl; [exact Han|]; intros x; apply null_eq_rr|].
  apply null_eq_seq; [apply null_eq_dseqs; eapply Forall_impl; [exact Hns|]; intros x; apply null_eq_rr|].
  apply null_eq_seq; [apply null_eq_dseqs; eapply Forall_impl; [exact Har|]; intros x [Hx _]; by eapply null_eq_rr|].
  unfold write_edns. destruct (opt_written msg) as [[] e]; [|apply null_eq_ret].
  apply null_eq_seq; [apply null_eq_name|]. do 3 (apply null_eq_seq; [by eapply null_eq_lift|]).
  split; [done|]. by intros ? ? [= _ <-].
Qed.
Lemma msg_encode_spec mem msg : msg_wf msg -> exists size bs c,
  hsk_dns_msg_size msg = Ret size /\
  hsk_dns_msg_write mem msg (Some ([], Some ∅)) = Ret (Z.of_nat (length bs), Some (bs, c)) /\
  Z.of_nat (length bs) <= size /\ bytes bs /\
  forall rest, hsk_dns_msg_read all_ok3 hsk_dns_msg_init (bs ++ rest) = Ret (with_flags msg (wire_flags msg), rest).
Proof.
  intros Hw. destruct (dcodec_msg mem msg Hw) as (size & Hs & H).
  destruct (H [] (Some ∅)) as (bs & c & Hb & Hl & _ & Hc & Hr); [done|apply map_Forall_empty|].
  destruct (Hr [] eq_refl) as (Ew & _ & Hread); [apply map_Forall_empty|]. exists size, bs, c.
  unfold hsk_dns_msg_size, dsize. rewrite <-(proj1 (null_eq_msg mem msg Hw)), Hs. do 4 (split; [done|]).
  intros rest. rewrite msg_read_eq. apply Hread; [|done]. destruct c as [m|]; [|by destruct Hc as [Hc _]; specialize (Hc eq_refl)].
  by exists rest.
Qed.

(** * Any bytes *)

Lemma safe_items_loop {A} (step : nat -> A -> rd A) (P : A -> Prop) n : (forall i a, P a -> safe (step i a) P) ->
  forall i a, P a -> safe (items_loop step n i a) P.
Proof.
  intros Hs. induction n as [|n IH]; intros i a Ha d Hd; [done|]. cbn [items_loop]. destruct d as [|b d]; [done|].
  by apply (safe_bind _ _ P P (Hs i a Ha) (fun a' Ha' => IH (S i) a' Ha')).
Qed.
Definition msg_type (msg : hsk_dns_msg_t) : Prop :=
  in16 (msg_id msg) /\ 0 <= msg_opcode msg < 16 /\ in16 (msg_flags msg) /\ 0 <= msg_code msg < 4096 /\
  section (qs_wf false) (msg_qd msg) /\ section rr_type_ok (msg_an msg) /\ section rr_type_ok (msg_ns msg) /\
  section (fun rr => rr_type_ok rr /\ rr_type rr <> HSK_DNS_OPT) (msg_ar msg) /\
  in8 (edns_version (msg_edns msg)) /\ in16 (edns_flags (msg_edns msg)) /\ in16 (edns_size (msg_edns msg)) /\
  in8 (edns_code (msg_edns msg)) /\ bytes (edns_rd (msg_edns msg)).
Lemma section_push P l x : section P l -> P x -> section P (push_item l x).
Proof.
  intros [Hl Hn] Hx. unfold section, push_item. destruct (Z.eqb_spec (Z.of_nat (length l)) 255); [done|].
  rewrite length_app. cbn [length]. split; [|lia]. apply Forall_app. split; [done|by apply Forall_singleton].
Qed.
Lemma land_lt k x : 0 <= k -> 0 <= Z.land x (2 ^ k - 1) < 2 ^ k.
Proof. intros Hk. rewrite land_ones_mod by done. apply Z.mod_pos_bound. lia. Qed.

Section Safe.
Context (data : list Z) (al : nat -> nat -> nat -> bool) (Hdata : bytes data).
Lemma safe_record s i : safe (read_record (Some data) al s i) rr_type_ok.
Proof. unfold read_record. destruct (al s i O); [by apply safe_rr_read|apply safe_fail]. Qed.
Lemma safe_question i m : msg_type m -> safe (read_question (Some data) al i m) msg_type.
Proof.
  intros Hm. unfold read_question. destruct (al _ i O); [|apply safe_fail].
  eapply safe_bind; [by apply safe_qs_read|]. intros qs Hqs. apply safe_ret. unfold msg_type in *. cbn.
  destruct_and!. split_and?; try done; try lia. by apply section_push.
Qed.
Lemma safe_answer i m : msg_type m -> safe (read_answer (Some data) al i m) msg_type.
Proof.
  intros Hm. unfold read_answer. eapply safe_bind; [apply safe_record|]. intros rr Hrr. apply safe_ret.
  unfold msg_type in *. cbn. destruct_and!. split_and?; try done; try lia. by apply section_push.
Qed.
Lemma safe_authority i m : msg_type m -> safe (read_authority (Some data) al i m) msg_type.
Proof.
  intros Hm. unfold read_authority. eapply safe_bind; [apply safe_record|]. intros rr Hrr. apply safe_ret.
  unfold msg_type in *. cbn. destruct_and!. split_and?; try done; try lia. by apply section_push.
Qed.
Lemma safe_additional i m : msg_type m -> safe (read_additional (Some data) al i m) msg_type.
Proof.
  intros Hm. unfold read_additional. eapply safe_bind; [apply safe_record|]. intros rr Hrr. cbv beta.
  destruct (Z.eqb_spec (rr_type rr) HSK_DNS_OPT) as [E|E].
  - destruct Hrr as (_ & _ & Hc & Ht & rd & Hrd & Hk & Hw). rewrite E in Hk. intros d Hd. unfold set_edns. rewrite Hrd.
    destruct rd; try done. cbn [obind]. split; [|done]. unfold msg_type in *. cbn [msg_id msg_opcode msg_flags msg_code msg_qd
      msg_an msg_ns msg_ar msg_edns edns_version edns_flags edns_size edns_code edns_rd]. destruct_and!.
    assert (Hcd := land_lt 8 (Z.shiftr (rr_ttl rr) 24) ltac:(lia)). assert (Hvr := land_lt 8 (Z.shiftr (rr_ttl rr) 16) ltac:(lia)).
    assert (Hl := land_lt 16 (rr_ttl rr) ltac:(lia)).
    change (2 ^ 8 - 1) with 255 in *. change (2 ^ 16 - 1) with 65535 in *. set (code := Z.land (Z.shiftr (rr_ttl rr) 24) 255) in *.
    assert (Hlor : 0 <= Z.lor (msg_code m) (Z.shiftl code 4) < 2 ^ 12).
    { apply lor_small; [lia|lia|]. rewrite Z.shiftl_mul_pow2 by lia. lia. }
    rewrite u16_small by lia. split_and?; try done; lia.
  - apply safe_ret. unfold msg_type in *. cbn. destruct_and!. split_and?; try done; try lia. by apply section_push.
Qed.
End Safe.
Lemma safe_dns_header : safe header_read (fun h => let '(id, flags, _, _, _, _) := h in in16 id /\ in16 flags).
Proof. unfold header_read. safe_fields. by apply safe_ret. Qed.
Lemma msg_type_opened h : (let '(id, flags, _, _, _, _) := h in in16 id /\ in16 flags) -> msg_type (opened h hsk_dns_msg_init).
Proof.
  destruct h as [[[[[id flags] ?] ?] ?] ?]. intros [Hi Hf]. unfold msg_type, opened, section. cbn -[Z.land Z.shiftr Z.pow].
  assert (H1 := land_lt 4 (Z.shiftr flags 11) ltac:(lia)). assert (H2 := land_lt 4 flags ltac:(lia)).
  change (2 ^ 4 - 1) with 15 in *. unfold HSK_DNS_MAX_UDP. split_and!; try done; try lia; constructor.
Qed.
(** The reader of messages, on any bytes. *)
Lemma msg_decode_safe malloc_ok al data : bytes data ->
  match hsk_dns_msg_decode malloc_ok al data with
  | Ret msg => msg_type msg
  | Fail => True
  | Fault _ => False
  end.
Proof.
  intros Hd. unfold hsk_dns_msg_decode. destruct malloc_ok; [|done]. rewrite msg_read_eq.
  assert (H : safe (h <- header_read ;; sections_read (Some data) al h (opened h hsk_dns_msg_init)) msg_type).
  { eapply safe_bind; [apply safe_dns_header|]. intros h Hh. assert (Hm := msg_type_opened h Hh).
    destruct h as [[[[[id flags] qd] an] ns] ar]. unfold sections_read.
    eapply safe_bind; [apply safe_items_loop; [by apply safe_question|exact Hm]|intros m1 H1; cbv beta in H1].
    eapply safe_bind; [apply safe_items_loop; [by apply safe_answer|exact H1]|intros m2 H2; cbv beta in H2].
    eapply safe_bind; [apply safe_items_loop; [by apply safe_authority|exact H2]|intros m3 H3; cbv beta in H3].
    apply safe_items_loop; [by apply safe_additional|exact H3]. }
  specialize (H data Hd). destruct (rbind _ _ data) as [[m rest]| |]; cbn [obind]; [by destruct H|done|done].
Qed.
