(* ===== verification/DnsTruncate.v ===== *)
(** Truncation of DNS messages: what [hsk_dns_msg_truncate] leaves of an encoded message
    is the encoding of the message with its first items. *)

From S2P Require Import Prelude Bio Map MapProps DnsName DnsNameProps DnsRecord DnsCodec DnsMsg DnsMsgSpec.

(** * Passing items *)

Lemma read_fixed_skip n get d v rest : read_fixed n get d = Ret (v, rest) ->
  (n <= length d)%nat /\ rest = drop n d.
Proof. unfold read_fixed. destruct (Nat.ltb_spec (length d) n); [done|]. by intros [= _ <-]. Qed.
Lemma skip_bytes_spec n d : 0 <= n <= Z.of_nat (length d) -> skip_bytes n d = Ret (tt, drop (Z.to_nat n) d).
Proof. intros H. unfold skip_bytes. by destruct (Z.ltb_spec (Z.of_nat (length d)) n); [lia|]. Qed.
Lemma qs_read_skip dmp qs d x rest : hsk_dns_qs_read dmp qs d = Ret (x, rest) -> skip_item dmp 0 d = Ret (tt, rest).
Proof.
  unfold hsk_dns_qs_read, skip_item, rbind. destruct (hsk_dns_name_read dmp d) as [[n d1]| |]; [|done..]. cbn [Z.eqb].
  destruct (read_u16be d1) as [[v2 d2]| |] eqn:E2; [|done..]. destruct (read_u16be d2) as [[v3 d3]| |] eqn:E3; [|done..].
  intros [= _ <-]. apply read_fixed_skip in E2 as [H2 ->]. apply read_fixed_skip in E3 as [H3 ->].
  rewrite length_drop in H3. rewrite skip_bytes_spec by lia. by rewrite drop_drop.
Qed.
Lemma rr_read_skip dmp al rr s d x rest : s <> 0 -> hsk_dns_rr_read dmp al rr d = Ret (x, rest) ->
  skip_item dmp s d = Ret (tt, rest).
Proof.
  intros Hs. unfold hsk_dns_rr_read, skip_item, rbind. destruct (hsk_dns_name_read dmp d) as [[n d1]| |]; [|done..].
  destruct (Z.eqb_spec s 0) as [|_]; [done|].
  destruct (read_u16be d1) as [[v2 d2]| |] eqn:E2; [|done..]. destruct (read_u16be d2) as [[v3 d3]| |] eqn:E3; [|done..].
  destruct (read_u32be d3) as [[v4 d4]| |] eqn:E4; [|done..]. destruct (read_u16be d4) as [[len d5]| |] eqn:E5; [|done..].
  apply read_fixed_skip in E2 as [H2 ->]. apply read_fixed_skip in E3 as [H3 ->]. apply read_fixed_skip in E4 as [H4 ->].
  assert (E8 : skip_bytes 8 d1 = Ret (tt, drop 4 (drop 2 (drop 2 d1)))).
  { rewrite !length_drop in *. rewrite skip_bytes_spec by lia. by rewrite !drop_drop. }
  rewrite E8, E5. unfold has_bytes, skip_bytes. destruct (Z.of_nat (length d5) <? len); [done|].
  destruct (hsk_dns_rd_alloc _ _) as [rd|]; [|done]. unfold sub_read.
  destruct (hsk_dns_rd_read _ _ _ _ _) as [[rd' d6]| |]; [|done..]. by intros [= _ <-].
Qed.
Lemma dcodec_skip_qs mem qs : qs_wf true qs ->
  dcodec true false (hsk_dns_qs_write mem qs) (fun dmp => skip_item dmp 0) tt.
Proof. intros H. eapply dcodec_mono; [|by apply dcodec_qs]. cbv beta. intros dmp d rest E. exact (qs_read_skip _ _ _ _ _ E). Qed.
Lemma dcodec_skip_rr mem s rr : s <> 0 -> rr_wf true rr ->
  dcodec true false (hsk_dns_rr_write mem rr) (fun dmp => skip_item dmp s) tt.
Proof. intros Hs H. eapply dcodec_mono; [|by apply dcodec_rr]. cbv beta. intros dmp d rest E. exact (rr_read_skip _ _ _ _ _ _ _ Hs E). Qed.

(** * The bytes of a list of items *)

Inductive writes : list dwr -> list Z -> option cmp_map -> list (list Z) -> Prop :=
  | writes_nil acc c : writes [] acc c []
  | writes_cons w ws acc c bs c' segs :
      w (Some (acc, c)) = Ret (Z.of_nat (length bs), Some (acc ++ bs, c')) -> writes ws (acc ++ bs) c' segs ->
      writes (w :: ws) acc c (bs :: segs).

Lemma writes_take ws acc c segs : writes ws acc c segs -> forall k, writes (take k ws) acc c (take k segs).
Proof.
  induction 1 as [acc c|w ws acc c bs c' segs E _ IH]; intros k; [rewrite !take_nil; constructor|].
  destruct k as [|k]; [constructor|]. cbn [take]. econstructor; [done|apply IH].
Qed.
Lemma writes_dseqs ws acc c segs : writes ws acc c segs -> exists c',
  dseqs ws (Some (acc, c)) = Ret (Z.of_nat (length (concat segs)), Some (acc ++ concat segs, c')).
Proof.
  induction 1 as [acc c|w ws acc c bs c' segs E _ [c'' IH]]; [exists c; by rewrite app_nil_r|].
  exists c''. cbn [dseqs fold_right concat]. unfold dseq at 1. rewrite E. cbn [obind]. unfold dseqs in IH. rewrite IH. cbn [obind].
  rewrite length_app, (assoc_L (++)). do 2 f_equal. lia.
Qed.

(** Items with their sections. *)
Definition item_ok (dmp : option (list Z)) (s : Z) (seg : list Z) : Prop :=
  forall rest, skip_item dmp s (seg ++ rest) = Ret (tt, rest).
Lemma items_trace (items : list (Z * dwr)) :
  Forall (fun sw => dcodec true false sw.2 (fun dmp => skip_item dmp sw.1) tt) items ->
  forall acc0 c, c <> None -> cmp_ok acc0 c -> exists segs c', c' <> None /\
    forall acc, length acc = length acc0 -> cmp_ok acc c ->
      writes (List.map snd items) acc c segs /\
      forall dmp, dmp_ext (acc ++ concat segs) c' dmp -> Forall2 (fun sw seg => item_ok dmp sw.1 seg) items segs.
Proof.
  induction 1 as [|[s w] items Hw _ IH]; intros acc0 c Hc0 Hc; [exists [], c; split; [done|]; split; constructor|].
  destruct Hw as (size & _ & H). destruct (H acc0 c ltac:(done) Hc) as (bs & c1 & _ & _ & _ & Hc1 & Hw). clear H.
  destruct (Hw acc0 eq_refl Hc) as (_ & Hok0 & _). assert (Hn1 : c1 <> None) by tauto.
  destruct (IH (acc0 ++ bs) c1 Hn1 Hok0) as (segs & c2 & Hn2 & Ht).
  exists (bs :: segs), c2. split; [done|]. intros acc Hlen Hcacc. destruct (Hw acc Hlen Hcacc) as (Ew & Hok & Hr).
  destruct (Ht (acc ++ bs) ltac:(by rewrite !length_app, Hlen) Hok) as [Hws Hf].
  split; [by econstructor|]. intros dmp Hd. cbn [concat] in Hd. rewrite (assoc_L (++)) in Hd.
  constructor; [|by apply Hf]. intros rest. apply Hr; [|done]. eapply dmp_ext_app; [|exact Hd]. tauto.
Qed.

(** * The loop *)

(** How many segments fit in [room] bytes. *)
Fixpoint fit (room : Z) (segs : list (list Z)) : nat :=
  match segs with
  | [] => 0
  | seg :: segs' => if Z.of_nat (length seg) <=? room then S (fit (room - Z.of_nat (length seg)) segs') else 0
  end.
Lemma fit_le room segs : (fit room segs <= length segs)%nat.
Proof. revert room; induction segs as [|seg segs IH]; intros room; cbn; [lia|]. destruct (_ <=? _); [|lia]. specialize (IH (room - Z.of_nat (length seg))). lia. Qed.
Lemma fit_app room A B : fit room (A ++ B) =
  if (fit room A =? length A)%nat then (length A + fit (room - Z.of_nat (length (concat A))) B)%nat else fit room A.
Proof.
  revert room; induction A as [|seg A IH]; intros room; [cbn; f_equal; lia|]. cbn [app fit length concat].
  destruct (_ <=? _); [|done]. rewrite IH, length_app. cbn [Nat.eqb].
  destruct (_ =? _)%nat; [|done]. cbn [Nat.add]. do 3 f_equal. lia.
Qed.
Lemma fit_room room segs : 0 <= room -> Z.of_nat (length (concat (take (fit room segs) segs))) <= room.
Proof.
  revert room; induction segs as [|seg segs IH]; intros room Hr; [done|]. cbn [fit].
  destruct (Z.leb_spec (Z.of_nat (length seg)) room); [|done]. cbn [take concat]. rewrite length_app.
  specialize (IH (room - Z.of_nat (length seg)) ltac:(lia)). lia.
Qed.
Lemma fit_max room segs : (fit room segs < length segs)%nat ->
  room < Z.of_nat (length (concat (take (S (fit room segs)) segs))).
Proof.
  revert room; induction segs as [|seg segs IH]; intros room Hl; [cbn in Hl; lia|]. cbn [fit length] in *.
  destruct (Z.leb_spec (Z.of_nat (length seg)) room); [|cbn [take concat]; rewrite length_app; lia].
  specialize (IH (room - Z.of_nat (length seg)) ltac:(lia)). cbn [take concat] in *. rewrite length_app. cbn [take] in IH. lia.
Qed.

Section Loop.
Context (msg : list Z) (max : Z).
Local Abbreviation pos d := (Z.of_nat (length msg) - Z.of_nat (length d)).

Lemma trunc_loop_open s segs : Forall (item_ok (Some msg) s) segs -> forall i last j d tail,
  d = concat segs ++ tail -> pos d <= max -> let k := fit (max - pos d) segs in
  exists d', trunc_loop msg max s (length segs) i last j d =
    Ret (d', pos d + Z.of_nat (length (concat (take k segs))), i + Z.of_nat k) /\
    (k = length segs -> d' = tail) /\ (k <> length segs -> max < pos d').
Proof.
  induction 1 as [|seg segs Hs _ IH]; intros i last j d tail Hd Hp k; cbn [length trunc_loop].
  { destruct (Z.leb_spec (pos d) max); [|lia]. exists d. subst k. cbn. rewrite !Z.add_0_r. by split; [|split]. }
  destruct (Z.leb_spec (pos d) max) as [_|]; [|lia]. cbn [concat] in Hd. rewrite <-(assoc_L (++)) in Hd.
  set (d1 := concat segs ++ tail) in *. assert (Hsk : skip_item (Some msg) s d = Ret (tt, d1)) by (rewrite Hd; apply Hs).
  rewrite Hsk. cbn [obind].
  assert (Hpd : pos d1 = pos d + Z.of_nat (length seg)) by (rewrite Hd, length_app; lia).
  subst k. cbn [fit]. destruct (Z.leb_spec (Z.of_nat (length seg)) (max - pos d)) as [Hle|Hgt].
  - destruct (IH (i + 1) (pos d) i d1 tail eq_refl ltac:(lia)) as (d' & E & H1 & H2). exists d'. rewrite E.
    replace (max - pos d1) with (max - pos d - Z.of_nat (length seg)) in * by lia.
    set (k := fit (max - pos d - Z.of_nat (length seg)) segs) in *. split; [|split; [|]].
    + cbn [take concat]. rewrite length_app. do 2 f_equal; [f_equal|]; lia.
    + intros [= Hk]. by apply H1.
    + intros Hk. apply H2. lia.
  - exists d1. split; [|by split; [|intros _; lia]]. cbn [take concat length]. destruct segs as [|seg2 segs]; cbn [length trunc_loop].
    all: destruct (Z.leb_spec (pos d1) max); [lia|]. all: do 2 f_equal; [f_equal|]; lia.
Qed.
Lemma trunc_loop_closed s n i last j d : max < pos d -> trunc_loop msg max s n i last j d = Ret (d, last, j).
Proof. intros H. destruct n; cbn [trunc_loop]; destruct (Z.leb_spec (pos d) max); lia || done. Qed.
Lemma trunc_sections_closed s counts last d : max < pos d ->
  trunc_sections msg max s counts last d = Ret (last, List.map (fun _ => 0) counts).
Proof.
  intros H. revert s; induction counts as [|n counts IH]; intros s; [done|]. cbn [trunc_sections List.map].
  rewrite trunc_loop_closed by done. cbn [obind]. by rewrite IH.
Qed.

(** The items of each section among the first [k]. *)
Fixpoint section_counts (k : nat) (sections : list (list (list Z))) : list Z :=
  match sections with
  | [] => []
  | segs :: sections' => Z.of_nat (length (take k segs)) :: section_counts (k - length segs) sections'
  end.
Lemma section_counts_0 sections : section_counts 0 sections = List.map (fun _ => 0) sections.
Proof. induction sections as [|segs sections IH]; [done|]. cbn [section_counts List.map]. by rewrite Nat.sub_0_l, IH. Qed.
Lemma trunc_sections_open sections : forall s last d tail,
  (forall i segs, sections !! i = Some segs -> Forall (item_ok (Some msg) (s + Z.of_nat i)) segs /\ Z.of_nat (length segs) < 2 ^ 16) ->
  d = concat (concat sections) ++ tail -> pos d <= max -> last = pos d ->
  let k := fit (max - pos d) (concat sections) in
  trunc_sections msg max s (List.map (fun segs => Z.of_nat (length segs)) sections) last d =
  Ret (pos d + Z.of_nat (length (concat (take k (concat sections)))), section_counts k sections).
Proof.
  induction sections as [|segs sections IH]; intros s last d tail Hs Hd Hp Hlast k.
  { cbn. rewrite Hlast. do 2 f_equal. lia. }
  cbn [List.map trunc_sections]. rewrite Nat2Z.id. destruct (Hs 0%nat segs eq_refl) as [Hok Hlen]. rewrite Z.add_0_r in Hok.
  cbn [concat] in Hd. rewrite concat_app, <-(assoc_L (++)) in Hd.
  destruct (trunc_loop_open s segs Hok 0 last 0 d _ Hd Hp) as (d' & E & Hall & Hpart). rewrite E. cbn [obind].
  subst k. cbn [concat]. rewrite fit_app. set (k := fit (max - pos d) segs) in *. assert (Hk := fit_le (max - pos d) segs). fold k in Hk.
  rewrite u16_small by lia. destruct (Nat.eqb_spec k (length segs)) as [Ek|Ek].
  - specialize (Hall Ek). rewrite Ek, take_ge by lia.
    assert (Hpd : pos d' = pos d + Z.of_nat (length (concat segs))) by (rewrite Hall, Hd, (length_app (concat segs)); lia).
    assert (Hroom := fit_room (max - pos d) segs ltac:(lia)). fold k in Hroom. rewrite Ek, take_ge in Hroom by lia.
    rewrite (IH (s + 1) _ d' tail); [|intros i x Hx; specialize (Hs (S i) x Hx); by replace (s + 1 + Z.of_nat i) with (s + Z.of_nat (S i)) by lia|done|lia|done].
    cbn [obind]. rewrite Hpd. replace (max - (pos d + Z.of_nat (length (concat segs)))) with (max - pos d - Z.of_nat (length (concat segs))) by lia.
    set (k2 := fit (max - pos d - Z.of_nat (length (concat segs))) (concat sections)).
    cbn [section_counts]. rewrite take_app_ge, concat_app, length_app, (take_ge segs) by lia.
    replace (length segs + k2 - length segs)%nat with k2 by lia. do 2 f_equal. lia.
  - specialize (Hpart Ek). rewrite trunc_sections_closed by done. cbn [obind section_counts].
    rewrite take_app_le, List.map_map, length_take by lia. replace (k - length segs)%nat with 0%nat by lia.
    rewrite section_counts_0. do 3 f_equal. lia.
Qed.
End Loop.

(** * The first items of a message *)

Definition cut (msg : hsk_dns_msg_t) (k : nat) : hsk_dns_msg_t :=
  let k1 := (k - length (msg_qd msg))%nat in
  let k2 := (k1 - length (msg_an msg))%nat in
  let k3 := (k2 - length (msg_ns msg))%nat in
  let k4 := (k3 - length (msg_ar msg))%nat in
  let dropped := edns_enabled (msg_edns msg) && (k4 =? 0)%nat in
  mk_msg (msg_id msg) (msg_opcode msg) (if dropped then Z.land (msg_code msg) 0x0f else msg_code msg) (msg_flags msg)
    (take k (msg_qd msg)) (take k1 (msg_an msg)) (take k2 (msg_ns msg)) (take k3 (msg_ar msg))
    (if dropped then msg_edns hsk_dns_msg_init else msg_edns msg).
Definition item_count (msg : hsk_dns_msg_t) : nat :=
  length (msg_qd msg) + length (msg_an msg) + length (msg_ns msg) + length (msg_ar msg) +
  (if edns_enabled (msg_edns msg) then 1 else 0).

Lemma section_take P l k : section P l -> section P (take k l).
Proof. intros [H Hn]. split; [by apply Forall_take|]. rewrite length_take. lia. Qed.
Lemma cut_wf msg k : msg_wf msg -> msg_wf (cut msg k).
Proof.
  intros (Hi & Ho & Hf & Hqd & Han & Hns & Har & He). unfold cut.
  do 3 (split; [done|]). do 4 (split; [by apply section_take|]). unfold edns_wf in *. cbn [msg_edns msg_code].
  destruct (edns_enabled (msg_edns msg)) eqn:E; cbn [andb]; [|by rewrite E].
  destruct (_ =? 0)%nat; [|by rewrite E]. cbn [edns_enabled msg_edns hsk_dns_msg_init]. split; [done|].
  change 15 with (2 ^ 4 - 1). assert (H := land_lt 4 (msg_code msg) ltac:(lia)). lia.
Qed.
Lemma cut_wire_flags msg k : wire_flags (cut msg k) = wire_flags msg.
Proof.
  unfold wire_flags, cut. cbn [msg_flags msg_opcode msg_code]. destruct (_ && _); [|done].
  by rewrite <-(Z.land_assoc (msg_code msg)), Z.land_diag.
Qed.

Section Items.
Context (mem : list Z -> bool).
Definition qs_items (l : list hsk_dns_rr_t) : list (Z * dwr) := List.map (fun qs => (0, hsk_dns_qs_write mem qs)) l.
Definition rr_items (s : Z) (l : list hsk_dns_rr_t) : list (Z * dwr) := List.map (fun rr => (s, hsk_dns_rr_write mem rr)) l.
Definition opt_items (msg : hsk_dns_msg_t) : list (Z * dwr) :=
  if edns_enabled (msg_edns msg) then [(3, hsk_dns_rr_write mem (opt_record msg (edns_code (msg_edns msg))))] else [].
Definition items (msg : hsk_dns_msg_t) : list (Z * dwr) :=
  qs_items (msg_qd msg) ++ rr_items 1 (msg_an msg) ++ rr_items 2 (msg_ns msg) ++ rr_items 3 (msg_ar msg) ++ opt_items msg.

Lemma items_length msg : length (items msg) = item_count msg.
Proof.
  unfold items, item_count, qs_items, rr_items, opt_items. rewrite !length_app, !length_map.
  destruct (edns_enabled _); cbn [length]; lia.
Qed.
Lemma take_app_sub {A} k (l r : list A) : take k (l ++ r) = take k l ++ take (k - length l) r.
Proof. apply firstn_app. Qed.
Lemma cut_items msg k : items (cut msg k) = take k (items msg).
Proof.
  unfold items. rewrite !take_app_sub. unfold qs_items, rr_items. rewrite !length_map, !firstn_map. cbn [cut msg_qd msg_an msg_ns msg_ar].
  repeat f_equal. unfold opt_items, opt_record. cbn [cut msg_edns]. set (k4 := (_ - length (msg_ar msg))%nat). clearbody k4.
  destruct (edns_enabled (msg_edns msg)) eqn:E; cbn [andb]; [|by rewrite E, take_nil].
  destruct k4; [done|]. cbn [Nat.eqb]. by rewrite E, take_ge by (cbn; lia).
Qed.
Lemma items_codec msg : msg_wf msg ->
  Forall (fun sw => dcodec true false sw.2 (fun dmp => skip_item dmp sw.1) tt) (items msg).
Proof.
  intros (_ & _ & _ & [Hqd _] & [Han _] & [Hns _] & [Har _] & He). unfold items. rewrite !Forall_app. split_and!.
  - apply Forall_map. eapply Forall_impl; [exact Hqd|]. intros x. apply dcodec_skip_qs.
  - apply Forall_map. eapply Forall_impl; [exact Han|]. intros x. by apply dcodec_skip_rr.
  - apply Forall_map. eapply Forall_impl; [exact Hns|]. intros x. by apply dcodec_skip_rr.
  - apply Forall_map. eapply Forall_impl; [exact Har|]. intros x [Hx _]. by apply dcodec_skip_rr.
  - unfold opt_items. destruct (edns_enabled _) eqn:E; [|constructor]. apply Forall_singleton. apply dcodec_skip_rr; [done|].
    by apply opt_wf.
Qed.
Lemma write_flat msg o : edns_wf msg -> 0 <= msg_code msg ->
  hsk_dns_msg_write mem msg o = (write_header msg ;+ dseqs (List.map snd (items msg))) o.
Proof.
  intros He Hc. unfold hsk_dns_msg_write. apply dseq_ext_r. clear o. intros o. unfold items, qs_items, rr_items.
  rewrite !List.map_app, !List.map_map. cbn [snd].
  rewrite dseqs_app. apply dseq_ext_r. clear o. intros o. rewrite dseqs_app. apply dseq_ext_r. clear o. intros o.
  rewrite dseqs_app. apply dseq_ext_r. clear o. intros o. rewrite dseqs_app. apply dseq_ext_r. clear o. intros o.
  unfold write_edns, opt_items. rewrite opt_written_wf by done. destruct (edns_enabled _); [|done].
  cbn [List.map snd]. unfold dseqs, dseq. cbn [fold_right]. destruct (hsk_dns_rr_write _ _ _) as [[s o2]| |]; [|done..].
  cbn. do 2 f_equal. lia.
Qed.
End Items.

(** ** Bytes of a message *)

Definition header_bytes (msg : hsk_dns_msg_t) : list Z :=
  be_split 2 (msg_id msg) ++ be_split 2 (wire_flags msg) ++
  concat (List.map (be_split 2) [Z.of_nat (length (msg_qd msg)); Z.of_nat (length (msg_an msg));
    Z.of_nat (length (msg_ns msg)); ar_count msg]).
Lemma ar_count_range msg : msg_wf msg -> 0 <= ar_count msg <= 256.
Proof. intros (_ & _ & _ & _ & _ & _ & [_ Hr] & _). unfold ar_count. destruct (edns_enabled _); cbn; lia. Qed.
Lemma length_header msg : length (header_bytes msg) = 12%nat.
Proof. unfold header_bytes. cbn [List.map concat]. by rewrite !length_app, !length_be_split. Qed.
Lemma dlift_u16 v acc c : dlift (write_u16be v) (Some (acc, c)) = Ret (2, Some (acc ++ be_split 2 v, c)).
Proof. unfold dlift. by rewrite emits_u16be, length_be_split. Qed.
Lemma write_header_bytes msg c : msg_wf msg ->
  write_header msg (Some ([], c)) = Ret (12, Some (header_bytes msg, c)).
Proof.
  intros Hw. assert (Har := ar_count_range msg Hw). destruct Hw as (_ & _ & _ & [_ Hq] & [_ Ha] & [_ Hn] & _).
  unfold write_header. fold (ar_count msg). rewrite !u16_small by lia.
  unfold dseq. do 6 (rewrite dlift_u16; cbn [obind]).
  unfold header_bytes. cbn [List.map concat app]. by rewrite app_nil_r, <-!(assoc_L (++)).
Qed.
Lemma wf_code msg : msg_wf msg -> 0 <= msg_code msg.
Proof.
  intros (_ & _ & _ & _ & _ & _ & _ & He). unfold edns_wf in He. destruct (edns_enabled _); [|lia].
  destruct He as (_ & _ & _ & Hc & _ & ->). apply Z.lor_nonneg. split; [apply Z.land_nonneg; by right|].
  rewrite Z.shiftl_mul_pow2 by lia. lia.
Qed.

(** The encoding is what the writes leave. *)
Lemma encode_eq mem msg bs c : msg_wf msg ->
  hsk_dns_msg_write mem msg (Some ([], Some ∅)) = Ret (Z.of_nat (length bs), Some (bs, c)) ->
  hsk_dns_msg_encode true mem msg = Ret bs.
Proof.
  intros Hw E. destruct (msg_encode_spec mem msg Hw) as (size & bs' & c' & Es & E' & Hl & _).
  rewrite E in E'. injection E' as _ <- _. unfold hsk_dns_msg_encode. rewrite Es. cbn [obind]. rewrite E. cbn [obind].
  destruct (Z.ltb_spec size (Z.of_nat (length bs))); [lia|done].
Qed.
Lemma encode_trace mem msg : msg_wf msg -> exists segs c', c' <> None /\ length segs = item_count msg /\
  forall hdr, length hdr = 12%nat -> writes (List.map snd (items mem msg)) hdr (Some ∅) segs /\
    forall dmp, dmp_ext (hdr ++ concat segs) c' dmp -> Forall2 (fun sw seg => item_ok dmp sw.1 seg) (items mem msg) segs.
Proof.
  intros Hw. destruct (items_trace (items mem msg) (items_codec mem msg Hw) (header_bytes msg) (Some ∅) ltac:(done)) as (segs & c' & Hc' & H).
  { apply map_Forall_empty. }
  exists segs, c'. split; [done|]. split.
  - destruct (H (header_bytes msg) eq_refl ltac:(apply map_Forall_empty)) as [Hws _].
    rewrite <-(items_length mem). clear -Hws. revert Hws. generalize (Some (∅ : cmp_map)), (header_bytes msg), segs.
    induction (items mem msg) as [|sw l IH]; intros c acc segs'; inversion 1; [done|]. cbn [length]. f_equal. by eapply IH.
  - intros hdr Hl. apply H; [by rewrite length_header|apply map_Forall_empty].
Qed.
(** The first [k] items are written as the whole message writes them. *)
Lemma encode_cut mem msg segs k : msg_wf msg ->
  (forall hdr, length hdr = 12%nat -> writes (List.map snd (items mem msg)) hdr (Some ∅) segs) ->
  hsk_dns_msg_encode true mem (cut msg k) = Ret (header_bytes (cut msg k) ++ concat (take k segs)).
Proof.
  intros Hw Hs. assert (Hc := cut_wf msg k Hw).
  destruct (writes_dseqs (List.map snd (items mem (cut msg k))) (header_bytes (cut msg k)) (Some ∅) (take k segs)) as [c' E].
  { rewrite cut_items, <-firstn_map. apply writes_take, Hs, length_header. }
  apply (encode_eq _ _ _ c' Hc). rewrite write_flat; [|apply Hc|by apply wf_code].
  unfold dseq. rewrite write_header_bytes by done. cbn [obind]. rewrite E. cbn [obind].
  rewrite length_app, length_header. do 2 f_equal. lia.
Qed.
Lemma cut_all msg : cut msg (item_count msg) = msg.
Proof.
  unfold cut, item_count. rewrite !take_ge by lia.
  destruct (edns_enabled (msg_edns msg)) eqn:E; [|by destruct msg].
  replace (_ =? 0)%nat with false by (symmetry; apply Nat.eqb_neq; lia). by destruct msg.
Qed.
Lemma encode_whole mem msg segs : msg_wf msg -> length segs = item_count msg ->
  (forall hdr, length hdr = 12%nat -> writes (List.map snd (items mem msg)) hdr (Some ∅) segs) ->
  hsk_dns_msg_encode true mem msg = Ret (header_bytes msg ++ concat segs).
Proof.
  intros Hw Hl Hs. assert (E := encode_cut mem msg segs (item_count msg) Hw Hs).
  by rewrite cut_all, take_ge in E by lia.
Qed.

(** The four counts, and the segments of the four sections. *)
Lemma split_sections mem msg (P : Z -> list Z -> Prop) segs : Forall2 (fun sw seg => P sw.1 seg) (items mem msg) segs ->
  exists S0 S1 S2 S3, segs = concat [S0; S1; S2; S3] /\
    length S0 = length (msg_qd msg) /\ length S1 = length (msg_an msg) /\ length S2 = length (msg_ns msg) /\
    Z.of_nat (length S3) = ar_count msg /\ Forall (P 0) S0 /\ Forall (P 1) S1 /\ Forall (P 2) S2 /\ Forall (P 3) S3.
Proof.
  assert (Hsec : forall s (ws : list dwr) segs', Forall2 (fun sw seg => P sw.1 seg) (List.map (pair s) ws) segs' ->
    length segs' = length ws /\ Forall (P s) segs').
  { intros s ws. induction ws as [|w ws IH]; intros segs'; cbn [List.map]; inversion 1 as [|? ? ? ? Hp Hf]; [done|]. subst.
    destruct (IH _ Hf) as [Hl Hall]. cbn [length] in *. split; [by rewrite Hl|by constructor]. }
  unfold items. intros H.
  apply Forall2_app_inv_l in H as (S0 & R0 & H0 & H & ->). apply Forall2_app_inv_l in H as (S1 & R1 & H1 & H & ->).
  apply Forall2_app_inv_l in H as (S2 & S3 & H2 & H3 & ->). exists S0, S1, S2, S3. cbn [concat]. rewrite app_nil_r.
  unfold qs_items, rr_items in *.
  assert (Hmap : forall s (w : hsk_dns_rr_t -> dwr) l, List.map (fun x => (s, w x)) l = List.map (@pair Z dwr s) (List.map w l)) by (intros; by rewrite List.map_map).
  rewrite Hmap in H0, H1, H2, H3. apply Hsec in H0 as [L0 F0], H1 as [L1 F1], H2 as [L2 F2].
  assert (H3' : Forall2 (fun sw seg => P sw.1 seg) (List.map (@pair Z dwr 3) (List.map (hsk_dns_rr_write mem) (msg_ar msg) ++
    List.map snd (opt_items mem msg))) S3).
  { rewrite List.map_app. unfold opt_items in *. by destruct (edns_enabled _). }
  apply Hsec in H3' as [L3 F3]. rewrite length_map in L0, L1, L2. split_and!; try done.
  rewrite L3, length_app, !length_map. unfold ar_count, opt_items. destruct (edns_enabled _); cbn; lia.
Qed.
Lemma section_counts_cut msg k S0 S1 S2 S3 : length S0 = length (msg_qd msg) -> length S1 = length (msg_an msg) ->
  length S2 = length (msg_ns msg) -> Z.of_nat (length S3) = ar_count msg ->
  section_counts k [S0; S1; S2; S3] = [Z.of_nat (length (msg_qd (cut msg k))); Z.of_nat (length (msg_an (cut msg k)));
    Z.of_nat (length (msg_ns (cut msg k))); ar_count (cut msg k)].
Proof.
  intros L0 L1 L2 L3. unfold ar_count in *. cbn [section_counts cut msg_qd msg_an msg_ns msg_ar msg_edns].
  rewrite !length_take, L0, L1, L2. do 4 f_equal. set (k3 := (_ - length (msg_ns msg))%nat).
  destruct (edns_enabled (msg_edns msg)) eqn:E; cbn [andb Z.b2z] in *; [|rewrite E; cbn [Z.b2z]; lia].
  destruct (Nat.eqb_spec (k3 - length (msg_ar msg)) 0); [cbn [msg_edns hsk_dns_msg_init edns_enabled Z.b2z]|rewrite E; cbn [Z.b2z]]; lia.
Qed.
Lemma count_bytes j : 0 <= j < 2 ^ 16 -> [Z.land (Z.shiftr j 8) 0xff; Z.land j 0xff] = be_split 2 j.
Proof.
  intros Hj. unfold be_split. cbn [le_split reverse rev_append]. change 255 with (2 ^ 8 - 1).
  rewrite !land_ones_mod, Z.shiftr_div_pow2 by lia. done.
Qed.

(** ** Truncation of an encoding *)

Lemma header_counts msg d : msg_wf msg ->
  (_ <- read_u16be ;; qdcount <- read_u16be ;; ancount <- read_u16be ;; nscount <- read_u16be ;;
   arcount <- read_u16be ;; rret [qdcount; ancount; nscount; arcount]) (drop 2 (header_bytes msg ++ d)) =
  Ret ([Z.of_nat (length (msg_qd msg)); Z.of_nat (length (msg_an msg)); Z.of_nat (length (msg_ns msg)); ar_count msg], d).
Proof.
  intros Hw. assert (Har := ar_count_range msg Hw). destruct Hw as (_ & _ & Hf & [_ Hq] & [_ Ha] & [_ Hn] & _).
  assert (Hfl := wire_flags_range msg ltac:(lia)). unfold header_bytes. cbn [List.map concat].
  rewrite <-!(assoc_L (++)), drop_app_length' by (by rewrite length_be_split).
  unfold rbind. repeat (rewrite parses_u16be by lia). done.
Qed.
Lemma new_header msg k rest : msg_wf msg ->
  take 4 (header_bytes msg ++ rest) ++ concat (List.map (fun j => [Z.land (Z.shiftr j 8) 0xff; Z.land j 0xff])
    [Z.of_nat (length (msg_qd (cut msg k))); Z.of_nat (length (msg_an (cut msg k)));
     Z.of_nat (length (msg_ns (cut msg k))); ar_count (cut msg k)]) = header_bytes (cut msg k).
Proof.
  intros Hw. assert (Hc := cut_wf msg k Hw). assert (Har := ar_count_range _ Hc).
  destruct Hc as (_ & _ & _ & [_ Hq] & [_ Ha] & [_ Hn] & _). unfold header_bytes at 2. cbn [List.map concat].
  rewrite !count_bytes, cut_wire_flags by lia. unfold header_bytes. rewrite <-!(assoc_L (++)).
  rewrite take_app_ge, length_be_split by (rewrite length_be_split; lia).
  change (4 - 2)%nat with 2%nat. rewrite take_app_length' by (by rewrite length_be_split). by rewrite <-!(assoc_L (++)).
Qed.

Lemma truncate_encoded mem msg max bs : msg_wf msg -> hsk_dns_msg_encode true mem msg = Ret bs ->
  12 <= max -> max < Z.of_nat (length bs) ->
  exists k out len, hsk_dns_msg_truncate bs max = Ret (out, len) /\ len <= max /\
    hsk_dns_msg_encode true mem (cut msg k) = Ret (take (Z.to_nat len) out) /\ (k < item_count msg)%nat /\
    forall bs', hsk_dns_msg_encode true mem (cut msg (S k)) = Ret bs' -> max < Z.of_nat (length bs').
Proof.
  intros Hw E Hmax Hlong. destruct (encode_trace mem msg Hw) as (segs & c' & Hc' & Hcount & Ht).
  assert (Hws : forall hdr, length hdr = 12%nat -> writes (List.map snd (items mem msg)) hdr (Some ∅) segs).
  { intros hdr Hh. by destruct (Ht hdr Hh). }
  assert (Ebs : bs = header_bytes msg ++ concat segs).
  { assert (Ew := encode_whole mem msg segs Hw Hcount Hws). congruence. }
  assert (Hext : dmp_ext (header_bytes msg ++ concat segs) c' (Some bs)).
  { rewrite Ebs. destruct c'; [|done]. exists []. by rewrite app_nil_r. }
  destruct (Ht (header_bytes msg) (length_header msg)) as [_ Hf]. specialize (Hf _ Hext).
  destruct (split_sections mem msg (fun s seg => item_ok (Some bs) s seg) segs Hf) as
    (S0 & S1 & S2 & S3 & Esegs & L0 & L1 & L2 & L3 & F0 & F1 & F2 & F3).
  set (k := fit (max - 12) segs). exists k. assert (Har := ar_count_range msg Hw).
  assert (Hlen : Z.of_nat (length bs) = 12 + Z.of_nat (length (concat segs))) by (rewrite Ebs, length_app, length_header; lia).
  assert (Hfit := fit_room (max - 12) segs ltac:(lia)). fold k in Hfit.
  assert (Hk : (k < item_count msg)%nat).
  { rewrite <-Hcount. assert (Hle := fit_le (max - 12) segs). fold k in Hle. destruct (Nat.eq_dec k (length segs)) as [Ek|]; [|lia].
    rewrite Ek, take_ge in Hfit by lia. lia. }
  exists (header_bytes (cut msg k) ++ concat segs), (12 + Z.of_nat (length (concat (take k segs)))).
  split; [|split; [lia|split; [|split; [done|]]]].
  - unfold hsk_dns_msg_truncate. destruct (Z.ltb_spec (Z.of_nat (length bs)) 12); [lia|]. destruct (Z.ltb_spec max 12); [lia|].
    destruct (Z.leb_spec (Z.of_nat (length bs)) max); [lia|]. rewrite Ebs at 1. rewrite header_counts by done. cbn [obind].
    replace (Z.of_nat (length bs) - Z.of_nat (length (concat segs))) with 12 by lia.
    assert (Hq : Z.of_nat (length (msg_qd msg)) <= 255 /\ Z.of_nat (length (msg_an msg)) <= 255 /\ Z.of_nat (length (msg_ns msg)) <= 255).
    { by destruct Hw as (_ & _ & _ & [_ ?] & [_ ?] & [_ ?] & _). }
    replace [Z.of_nat (length (msg_qd msg)); Z.of_nat (length (msg_an msg)); Z.of_nat (length (msg_ns msg)); ar_count msg]
      with (List.map (fun s : list (list Z) => Z.of_nat (length s)) [S0; S1; S2; S3]) by (cbn; by rewrite L0, L1, L2, L3).
    rewrite (trunc_sections_open bs max [S0; S1; S2; S3] 0 12 (concat segs) []);
      [|intros i x Hx|by rewrite Esegs, app_nil_r|lia|lia].
    2: { destruct i as [|[|[|[|i]]]]; try (apply (inj Some) in Hx; subst x; split; [done|lia]). done. }
    cbn [obind]. replace (max - (Z.of_nat (length bs) - Z.of_nat (length (concat segs)))) with (max - 12) by lia.
    rewrite <-Esegs. fold k. rewrite (section_counts_cut msg k) by done.
    replace (Z.of_nat (length bs) - Z.of_nat (length (concat segs))) with 12 by lia.
    rewrite Ebs. rewrite (assoc_L (++) (take 4 _)), new_header by done. by rewrite drop_app_length' by (by rewrite length_header).
  - rewrite (encode_cut mem msg segs k Hw Hws). f_equal. rewrite take_app_ge by (rewrite length_header; lia).
    rewrite length_header. f_equal. replace (Z.to_nat _ - 12)%nat with (length (concat (take k segs))) by lia.
    rewrite <-(take_drop k segs) at 3. rewrite concat_app. by rewrite take_app_length.
  - intros bs'. rewrite (encode_cut mem msg segs (S k) Hw Hws). intros Eb.
    assert (Eb' : bs' = header_bytes (cut msg (S k)) ++ concat (take (S k) segs)) by congruence. rewrite Eb', length_app, length_header.
    assert (H := fit_max (max - 12) segs ltac:(fold k; lia)). fold k in H. lia.
Qed.
