(* ===== verification/DnsMsgProps.v ===== *)
(** The properties of DNS names, records and messages. *)

From S2P Require Import Prelude Bio Map MapProps DnsName DnsNameProps DnsLabels DnsRecord DnsCodec DnsMsg DnsMsgSpec DnsTruncate.

(** * Messages *)

(** C27: DNS messages are a round trip through name compression. For every well-formed
    message, whatever insertions into the table of names fail, the encoding succeeds, has
    at most the size computed for its buffer (so that it does not leave the buffer), and is
    decoded to the same message, with the opcode and the code in its flags. *)
Theorem dns_msg_roundtrip mem msg : msg_wf msg -> exists size bs,
  hsk_dns_msg_size msg = Ret size /\ hsk_dns_msg_encode true mem msg = Ret bs /\ Z.of_nat (length bs) <= size /\
  hsk_dns_msg_decode true all_ok3 bs = Ret (with_flags msg (wire_flags msg)).
Proof.
  intros Hw. destruct (msg_encode_spec mem msg Hw) as (size & bs & c & Es & Ew & Hl & _ & Hr). exists size, bs.
  split; [done|]. split; [by eapply encode_eq|]. split; [done|]. unfold hsk_dns_msg_decode.
  specialize (Hr []). rewrite app_nil_r in Hr. by rewrite Hr.
Qed.

(** C28: No bytes from the network make the reader of DNS messages leave a buffer, fail an
    assertion or loop, whichever allocations fail; what it returns is a message whose
    sections have at most 255 records, whose names are well formed, whose records have data
    of their type with every field in range, and whose OPT record went to its own field. *)
Theorem dns_msg_read_type malloc_ok al data : bytes data ->
  match hsk_dns_msg_decode malloc_ok al data with
  | Ret msg => msg_type msg
  | Fail => True
  | Fault _ => False
  end.
Proof. apply msg_decode_safe. Qed.

(** C29: Truncation of an encoded message to a size of at least the header: the result is
    the encoding of the message with its first [k] items (questions, records, and last the
    OPT record) and all the rest dropped, where [k] is the most that fits; a message that
    fits is unchanged. *)
Theorem dns_truncate_correct mem msg max bs : msg_wf msg -> hsk_dns_msg_encode true mem msg = Ret bs -> 12 <= max ->
  exists k out len, hsk_dns_msg_truncate bs max = Ret (out, len) /\ len <= max /\
    hsk_dns_msg_encode true mem (cut msg k) = Ret (take (Z.to_nat len) out) /\
    (Z.of_nat (length bs) <= max -> cut msg k = msg) /\
    (max < Z.of_nat (length bs) -> (k < item_count msg)%nat /\
      forall bs', hsk_dns_msg_encode true mem (cut msg (S k)) = Ret bs' -> max < Z.of_nat (length bs')).
Proof.
  intros Hw E Hmax. destruct (Z.le_gt_cases (Z.of_nat (length bs)) max) as [Hle|Hgt].
  - exists (item_count msg), bs, (Z.of_nat (length bs)). rewrite cut_all, Nat2Z.id, take_ge by lia.
    split_and!; try done; try lia. unfold hsk_dns_msg_truncate.
    destruct (encode_trace mem msg Hw) as (segs & c' & _ & Hc & Ht).
    assert (Eb : bs = header_bytes msg ++ concat segs).
    { assert (Ew := encode_whole mem msg segs Hw Hc ltac:(intros hdr Hh; by destruct (Ht hdr Hh))). congruence. }
    assert (12 <= Z.of_nat (length bs)) by (rewrite Eb, length_app, length_header; lia).
    destruct (Z.ltb_spec (Z.of_nat (length bs)) 12); [lia|]. destruct (Z.ltb_spec max 12); [lia|].
    by destruct (Z.leb_spec (Z.of_nat (length bs)) max); [|lia].
  - destruct (truncate_encoded mem msg max bs Hw E Hmax Hgt) as (k & out & len & Et & Hl & Ec & Hk & Hn).
    exists k, out, len. split_and!; try done. lia.
Qed.

(** * Records *)

(** [hsk_dns_rr_clone] copies: a well-formed record, written without compression into a
    buffer of the size computed for it and read back, is the same record, names of more
    than ten labels included; and record data alone is such a round trip. *)
Theorem dns_rr_clone_correct rr : rr_wf false rr ->
  hsk_dns_rr_clone all_ok (Some rr) = Ret rr /\
  exists bs rd rbs, hsk_dns_rr_encode true (Some rr) = Ret bs /\ hsk_dns_rr_size rr = Ret (Z.of_nat (length bs)) /\
    rr_rd rr = Some rd /\ hsk_dns_rd_encode true (Some rd) (rr_type rr) = Ret rbs /\
    hsk_dns_rd_decode all_ok (Some rbs) (rr_type rr) = Ret rd.
Proof.
  intros Hw. destruct (dencode_spec false _ _ _ _ (dcodec_rr false no_table rr Hw)) as (bs & E & Es & _ & Er).
  destruct Hw as (_ & _ & _ & _ & rd & s & Hrd & Hk & Hwf & _).
  destruct (dencode_spec false _ _ _ _ (dcodec_rd false no_table (rr_type rr) rd Hwf Hk)) as (rbs & E2 & _ & _ & Er2).
  unfold hsk_dns_rr_clone, hsk_dns_rr_encode, hsk_dns_rr_decode. rewrite E. cbn [obind]. rewrite Er. split; [done|].
  exists bs, rd, rbs. split_and!; try done. unfold hsk_dns_rd_decode, hsk_dns_rd_alloc. by rewrite Er2.
Qed.

(** * Names *)

(** C30: Writing a name into a message whose table is right: the bytes are at most those of
    the name in full, the table stays right, and the name is read back from any message
    that continues this one. A name that is compressed may have up to ten labels; without
    a table any name will do. *)
Theorem dns_name_compression mem acc c ls : name_ok ls -> cmp_ok acc c -> (c <> None -> (length ls <= 10)%nat) ->
  exists bs c', hsk_dns_name_write mem (text ls) (Some (acc, c)) = Ret (Z.of_nat (length bs), Some (acc ++ bs, c')) /\
    Z.of_nat (length bs) <= Z.of_nat (length (body ls)) + 1 /\ cmp_ok (acc ++ bs) c' /\ (c' = None <-> c = None) /\
    forall tail rest, hsk_dns_name_read (Some (acc ++ bs ++ tail)) (bs ++ rest) = Ret (text ls, rest).
Proof.
  intros Hok Hc Hl. destruct (name_write_spec mem acc c ls Hok Hc) as (bs & d & c' & E & Hw & Hlen & Hd & Hd0 & Hc' & Hok').
  exists bs, c'. do 4 (split; [done|]). intros tail rest. eapply read_wire_form; [by apply wire_form_app|done|].
  destruct c; [specialize (Hl ltac:(done)); lia|]. rewrite Hd0 by done. lia.
Qed.
(** Reading a name at any place of any message ends within the fuel and never leaves
    the buffers, whatever pointers the message has; what it returns is the text of labels
    of 1 to 63 characters, with at most 255 in all, and it takes at least one byte. *)
Theorem dns_name_read_type dmp data : dmp_ok dmp -> bytes data ->
  match hsk_dns_name_read dmp data with
  | Ret (name, rest) => (exists ls, name_ok ls /\ name = text ls) /\ (exists n, (0 < n)%nat /\ rest = drop n data)
  | Fail => True
  | Fault _ => False
  end.
Proof.
  intros Hd Hb. unfold hsk_dns_name_read, hsk_dns_name_parse.
  assert (H := parse_loop_safe parse_fuel dmp data 0 [] 0 0 Hd Hb ltac:(lia) ltac:(split; [constructor|cbn; lia]) ltac:(lia) ltac:(lia)).
  cbn [body List.map concat] in H. specialize (H ltac:(unfold parse_fuel; cbn [length]; lia)).
  destruct (parse_loop _ _ _ _ _ _ _) as [[name res]| |]; cbn [obind]; [|done|done].
  destruct H as ((ks & Hok & ->) & H0 & Hres & _). specialize (Hres eq_refl). split; [by exists ks|].
  exists (Z.to_nat res). split; [lia|done].
Qed.
(** Names of 1 to 12 labels, each one label longer than the one before. *)
Definition nested (n : nat) : list (list Z) := List.map (fun i => [Z.of_nat i + 97]) (rev (seq 0 n)).
Definition nested_writes (n : nat) : dwr := dseqs (List.map (fun k => hsk_dns_name_write no_table (text (nested k))) (seq 1 n)).
(** The writer compresses without counting the pointers that a reader must follow, and the
    reader follows ten: the last of these twelve names, of four bytes, cannot be read back. *)
Lemma dns_pointer_limit : name_ok (nested 12) /\
  match nested_writes 12 (Some (replicate 12 0, Some ∅)) with
  | Ret (_, Some (msg, _)) => hsk_dns_name_read (Some msg) (drop (length msg - 4) msg)
  | _ => Ret ([], [])
  end = Fail.
Proof.
  split; [|by vm_compute]. split; [|by vm_compute]. refine (bool_decide_unpack _ _). by vm_compute.
Qed.

(** * Witnesses *)

Module Sample.
(** "www.a." and "ns.a." *)
Definition www : list (list Z) := [[119; 119; 119]; [97]].
Definition ns : list (list Z) := [[110; 115]; [97]].
Definition question : hsk_dns_rr_t := mk_rr (text www) HSK_DNS_A HSK_DNS_IN 0 None.
Definition answer : hsk_dns_rr_t := mk_rr (text www) HSK_DNS_A HSK_DNS_IN 300 (Some (RA [1; 2; 3; 4])).
Definition authority : hsk_dns_rr_t := mk_rr (text [[97]]) HSK_DNS_NS HSK_DNS_IN 300 (Some (RNs (text ns))).
Definition additional : hsk_dns_rr_t := mk_rr (text ns) HSK_DNS_TXT HSK_DNS_IN 300 (Some (RTxt [[104; 105]])).
Definition msg : hsk_dns_msg_t :=
  mk_msg 7 HSK_DNS_QUERY 3 (2 ^ 15) [question] [answer] [authority] [additional] (mk_edns true 0 (2 ^ 15) HSK_DNS_MAX_EDNS 0 []).
Lemma name_wf_intro cm ls : bool_decide (Forall label_ok ls) = true -> Z.of_nat (length (body ls)) <= 255 ->
  (length ls <= 10)%nat -> name_wf cm (text ls).
Proof. intros H1 H2 H3. exists ls. split; [done|]. split; [split; [by apply bool_decide_eq_true in H1|done]|done]. Qed.
Ltac byte_list := repeat (apply bytes_cons; [lia|]); constructor.
Lemma www_wf cm : name_wf cm (text www).
Proof. apply name_wf_intro; [by vm_compute..|cbn; lia]. Qed.
Lemma ns_wf cm : name_wf cm (text ns).
Proof. apply name_wf_intro; [by vm_compute..|cbn; lia]. Qed.
Lemma a_wf cm : name_wf cm (text [[97]]).
Proof. apply name_wf_intro; [by vm_compute..|cbn; lia]. Qed.
Lemma answer_wf cm : rr_wf cm answer.
Proof.
  split; [apply www_wf|]. do 3 (split; [by vm_compute|]). eexists _, _. do 2 (split; [done|]).
  split; [split; [done|byte_list]|]. by split.
Qed.
Lemma authority_wf cm : rr_wf cm authority.
Proof.
  split; [apply a_wf|]. do 3 (split; [by vm_compute|]). eexists _, _. do 2 (split; [done|]). split; [apply ns_wf|]. by split.
Qed.
Lemma additional_wf cm : rr_wf cm additional.
Proof.
  split; [apply ns_wf|]. do 3 (split; [by vm_compute|]). eexists _, _. do 2 (split; [done|]).
  split; [split; [apply Forall_singleton; split; [byte_list|by vm_compute]|by vm_compute]|]. by split.
Qed.
Lemma msg_is_wf : msg_wf msg.
Proof.
  do 3 (split; [by vm_compute|]).
  split; [split; [apply Forall_singleton; split; [apply www_wf|by vm_compute]|by vm_compute]|].
  split; [split; [apply Forall_singleton, answer_wf|by vm_compute]|].
  split; [split; [apply Forall_singleton, authority_wf|by vm_compute]|].
  split; [split; [apply Forall_singleton; split; [apply additional_wf|done]|by vm_compute]|].
  unfold edns_wf. cbn [msg_edns msg edns_enabled]. do 4 (split; [by vm_compute|]). split; [by split; [constructor|]|by vm_compute].
Qed.
Definition encoded : list Z := match hsk_dns_msg_encode true no_table msg with Ret bs => bs | _ => [] end.
Lemma encoded_ok : hsk_dns_msg_encode true no_table msg = Ret encoded.
Proof. by vm_compute. Qed.
End Sample.

Lemma dns_msg_roundtrip_witness : exists size bs,
  hsk_dns_msg_size Sample.msg = Ret size /\ hsk_dns_msg_encode true no_table Sample.msg = Ret bs /\
  Z.of_nat (length bs) <= size /\
  hsk_dns_msg_decode true all_ok3 bs = Ret (with_flags Sample.msg (wire_flags Sample.msg)).
Proof. exact (dns_msg_roundtrip no_table Sample.msg Sample.msg_is_wf). Defined.
(** A pointer to itself. *)
Lemma dns_msg_read_type_witness :
  match hsk_dns_msg_decode true all_ok3 [0; 0; 0; 0; 0; 1; 0; 0; 0; 0; 0; 0; 192; 12] with
  | Ret msg => msg_type msg | Fail => True | Fault _ => False end.
Proof. apply (dns_msg_read_type true all_ok3). repeat (apply bytes_cons; [lia|]); constructor. Defined.
Lemma dns_truncate_correct_witness : exists k out len,
  hsk_dns_msg_truncate Sample.encoded 60 = Ret (out, len) /\ len <= 60 /\
  hsk_dns_msg_encode true no_table (cut Sample.msg k) = Ret (take (Z.to_nat len) out) /\
  (Z.of_nat (length Sample.encoded) <= 60 -> cut Sample.msg k = Sample.msg) /\
  (60 < Z.of_nat (length Sample.encoded) -> (k < item_count Sample.msg)%nat /\
    forall bs', hsk_dns_msg_encode true no_table (cut Sample.msg (S k)) = Ret bs' -> 60 < Z.of_nat (length bs')).
Proof. apply (dns_truncate_correct no_table Sample.msg 60 Sample.encoded Sample.msg_is_wf Sample.encoded_ok). lia. Defined.
Lemma dns_rr_clone_correct_witness : hsk_dns_rr_clone all_ok (Some Sample.additional) = Ret Sample.additional.
Proof. exact (proj1 (dns_rr_clone_correct Sample.additional (Sample.additional_wf false))). Defined.
Lemma dns_name_compression_witness : exists bs c',
  hsk_dns_name_write no_table (text Sample.www) (Some (replicate 12 0, Some ∅)) =
    Ret (Z.of_nat (length bs), Some (replicate 12 0 ++ bs, c')) /\
  forall tail rest, hsk_dns_name_read (Some (replicate 12 0 ++ bs ++ tail)) (bs ++ rest) = Ret (text Sample.www, rest).
Proof.
  destruct (Sample.www_wf true) as (ls & E & Hok & Hl).
  destruct (dns_name_compression no_table (replicate 12 0) (Some ∅) ls Hok) as (bs & c' & Ew & _ & _ & _ & Hr);
    [apply map_Forall_empty|by intros _; apply Hl|]. rewrite E. by exists bs, c'.
Defined.
Lemma dns_name_read_type_witness :
  match hsk_dns_name_read (Some [192; 0]) [192; 0] with
  | Ret (name, rest) => (exists ls, name_ok ls /\ name = text ls) /\ (exists n, (0 < n)%nat /\ rest = drop n [192; 0])
  | Fail => True
  | Fault _ => False
  end.
Proof.
  assert (H : bytes [192; 0]) by Sample.byte_list. exact (dns_name_read_type (Some [192; 0]) [192; 0] H H).
Defined.
