(* ===== verification/DnsSafe.v ===== *)
(** Writing and truncating messages never fails an assertion or leaves a buffer: what
    [DnsMsgSpec] shows of messages that can be read back, for all messages that the program
    makes, names of more than ten labels and any table of names included. *)

From S2P Require Import Prelude Bio Map MapProps DnsName DnsNameProps DnsRecord DnsCodec DnsMsg DnsMsgSpec.

(** * Writers *)

(** With whatever table and whatever insertions that fail, [w] appends bytes, at most as many
    as it computes without a destination. *)
Definition dsafe (w : (list Z -> bool) -> dwr) : Prop := exists size, forall mem,
  w mem None = Ret (size, None) /\
  forall acc c, exists bs c', w mem (Some (acc, c)) = Ret (Z.of_nat (length bs), Some (acc ++ bs, c')) /\
    Z.of_nat (length bs) <= size /\ bytes bs.

Lemma dsafe_ret : dsafe (fun _ => dret).
Proof.
  exists 0. intros mem. split; [done|]. intros acc c. exists [], c. rewrite app_nil_r. split; [done|]. split; [done|constructor].
Qed.
Lemma dsafe_seq w1 w2 : dsafe w1 -> dsafe w2 -> dsafe (fun mem => w1 mem ;+ w2 mem).
Proof.
  intros [s1 H1] [s2 H2]. exists (s1 + s2). intros mem. destruct (H1 mem) as [N1 S1], (H2 mem) as [N2 S2].
  unfold dseq. rewrite N1. cbn [obind]. rewrite N2. split; [done|]. intros acc c.
  destruct (S1 acc c) as (b1 & c1 & -> & L1 & B1). cbn [obind].
  destruct (S2 (acc ++ b1) c1) as (b2 & c2 & -> & L2 & B2). cbn [obind].
  exists (b1 ++ b2), c2. rewrite length_app, Nat2Z.inj_add, (assoc_L (++)). split; [done|]. split; [lia|by apply bytes_app].
Qed.
Lemma dsafe_lift w bs : emits w bs -> sizes w (Z.of_nat (length bs)) -> bytes bs -> dsafe (fun _ => dlift w).
Proof.
  intros He Hs Hb. exists (Z.of_nat (length bs)). intros mem. unfold dlift. rewrite Hs. split; [done|].
  intros acc c. rewrite He. exists bs, c. split; [done|]. split; [lia|done].
Qed.
Lemma dsafe_u8 v : 0 <= v < 256 -> dsafe (fun _ => dlift (write_u8 v)).
Proof.
  intros Hv. apply (dsafe_lift _ [v]); [auto with hsk|apply sizes_u8|]. by apply bytes_cons; [|constructor].
Qed.
Lemma dsafe_u16 v : dsafe (fun _ => dlift (write_u16be v)).
Proof. apply (dsafe_lift _ (be_split 2 v)); [apply emits_u16be|by rewrite length_be_split|apply bytes_be_split]. Qed.
Lemma dsafe_u32 v : dsafe (fun _ => dlift (write_u32be v)).
Proof. apply (dsafe_lift _ (be_split 4 v)); [apply emits_u32be|by rewrite length_be_split|apply bytes_be_split]. Qed.
Lemma dsafe_bytes bs : bytes bs -> dsafe (fun _ => dlift (write_bytes bs)).
Proof. intros Hb. apply (dsafe_lift _ bs); [auto with hsk|by apply sizes_bytes|done]. Qed.
Lemma dsafe_txts txts : Forall (blob 255) txts -> dsafe (fun _ => write_txts txts).
Proof.
  intros Ht. exists (Z.of_nat (length (txts_wire txts))). intros mem. split; [apply write_txts_none|]. intros acc c.
  exists (txts_wire txts), c. split; [by apply write_txts_some|]. split; [lia|by apply bytes_txts_wire].
Qed.

(** The size that is computed. *)
Definition wsize (w : dwr) (s : Z) : Prop := w None = Ret (s, None).
Lemma wsize_seq w1 w2 s1 s2 : wsize w1 s1 -> wsize w2 s2 -> wsize (w1 ;+ w2) (s1 + s2).
Proof. unfold wsize, dseq. intros ->. cbn [obind]. by intros ->. Qed.
Lemma wsize_lift w s : sizes w s -> wsize (dlift w) s.
Proof. unfold wsize, dlift. by intros ->. Qed.

(** A pointer may be wrong here, but it has two bytes. *)
Lemma low_byte x : 0 <= Z.land x 0xff < 256.
Proof. change 0xff with (2 ^ 8 - 1). rewrite land_ones_mod by lia. by apply Z.mod_pos_bound. Qed.
Lemma serialize_any mem data base ls : forall pre out cmp, pre ++ ls <> [] -> name_ok (pre ++ ls) ->
  length out = length (body pre) -> exists bs cmp',
    serialize_loop mem data base (body (pre ++ ls)) (body ls) (Z.of_nat (length (body pre))) (Z.of_nat (length (body pre))) out cmp =
      Ret (mk_serialized true (out ++ bs) cmp') /\ Z.of_nat (length bs) <= Z.of_nat (length (body ls)) + 1 /\ bytes bs.
Proof.
  induction ls as [|l ls IH]; intros pre out cmp Hne Hok Ho.
  { exists [0], cmp. cbn [serialize_loop body List.map concat]. rewrite app_nil_r in *.
    rewrite serialize_end_spec; try done; [|destruct Hok; lia]. split; [done|]. split; [cbn; lia|].
    by apply bytes_cons; [|constructor]. }
  rewrite serialize_label by done. cbv zeta. assert (Hll := name_ok_app_r _ _ Hok).
  assert (Hl : label_ok l) by (by destruct Hll as [[? _]%Forall_cons_1 _]).
  assert (Hnext : forall cmp0, exists bs cmp', serialize_loop mem data base (body (pre ++ l :: ls)) (body ls)
      (Z.of_nat (length (body (pre ++ [l])))) (Z.of_nat (length (body (pre ++ [l])))) (out ++ wire_label l) cmp0 =
      Ret (mk_serialized true (out ++ bs) cmp') /\ Z.of_nat (length bs) <= Z.of_nat (length (body (l :: ls))) + 1 /\ bytes bs).
  { intros cmp0. assert (E : pre ++ l :: ls = (pre ++ [l]) ++ ls) by (by rewrite <-(assoc_L (++))). rewrite E in *.
    destruct (IH (pre ++ [l]) (out ++ wire_label l) cmp0) as (bs & c' & -> & Hlen & Hb); [done|done|by apply length_out_label|].
    exists (wire_label l ++ bs), c'. rewrite (assoc_L (++)). split; [done|]. split.
    - rewrite length_app, length_body_cons. unfold wire_label. cbn [length]. rewrite List.length_map. lia.
    - apply bytes_app. split; [|done]. unfold wire_label. destruct Hl as [Hl Hc]. apply bytes_cons; [lia|].
      apply Forall_map. eapply Forall_impl; [exact Hc|]. intros x. apply wire_char_byte. }
  destruct cmp as [m|]; [|apply Hnext]. destruct (_ =? 0); [apply Hnext|]. set (p := default 0 _).
  assert (H2 := body_length_pos l ls Hl).
  assert (Ho2 : Z.of_nat (length out) + 2 <= 255).
  { destruct Hok as [_ Hlen]. rewrite body_app, length_app in Hlen. lia. }
  rewrite serialize_end_spec by (done || lia). eexists _, _. split; [done|]. destruct (p =? -1).
  - split; [cbn [length]; lia|]. by apply bytes_cons; [|constructor].
  - split; [cbn [length]; lia|]. repeat (apply bytes_cons; [apply low_byte|]). constructor.
Qed.
Lemma dsafe_name n : name_wf false n -> dsafe (fun mem => hsk_dns_name_write mem n).
Proof.
  intros (ls & -> & Hok & _). exists (Z.of_nat (length (body ls)) + 1). intros mem. split; [by apply name_write_size|].
  intros acc c. unfold hsk_dns_name_write, hsk_dns_name_serialize. destruct ls as [|l ls].
  - exists [0], c. split; [|split; [cbn; lia|by apply bytes_cons; [|constructor]]]. cbn. destruct c; [|done]. by rewrite decide_True.
  - rewrite text_body by done.
    destruct (serialize_any mem true (Z.of_nat (length acc)) (l :: ls) [] [] c) as (bs & c' & E & Hl & Hb); try done.
    cbn [app] in E. change (Z.of_nat (length (body []))) with 0 in E. rewrite E. cbn [obind sz_out sz_cmp]. by exists bs, c'.
Qed.

Lemma dsafe_with_length w : dsafe w -> dsafe (fun mem => with_length (w mem)).
Proof.
  intros [s H]. exists (2 + s). intros mem. destruct (H mem) as [N S]. unfold with_length. rewrite N. split; [done|].
  intros acc c. destruct (S (acc ++ [0; 0]) c) as (bs & c' & -> & Hl & Hb). cbn [obind].
  set (hd := set_u16be_on Little (u16 (Z.of_nat (length bs)))).
  assert (Hhd : hd = be_split 2 (u16 (Z.of_nat (length bs)))) by apply set_u16be_host.
  exists (hd ++ bs), c'. rewrite <-!(assoc_L (++) acc), take_app_length.
  replace (drop (length acc + 2) (acc ++ [0; 0] ++ bs)) with bs.
  2: { rewrite (assoc_L (++)), drop_app_length'; [done|]. rewrite length_app. cbn [length]. lia. }
  rewrite length_app. split; [|split; [|apply bytes_app; split; [rewrite Hhd; apply bytes_be_split|done]]].
  - do 2 f_equal. rewrite Hhd, length_be_split. lia.
  - rewrite Hhd, length_be_split. lia.
Qed.
Lemma dsafe_ext w w' : (forall mem o, w mem o = w' mem o) -> dsafe w -> dsafe w'.
Proof.
  intros E [s H]. exists s. intros mem. destruct (H mem) as [N S]. rewrite <-E. split; [done|]. intros acc c. by rewrite <-E.
Qed.
Lemma dsafe_rd type rd : rd_wf false rd -> kind_of_rd rd = kind_of_type type -> dsafe (fun mem => hsk_dns_rd_write mem rd type).
Proof.
  intros Hw Hk. unfold hsk_dns_rd_write. rewrite <-Hk.
  destruct rd; cbn [kind_of_rd rd_wf] in *; unfold bytes_n, blob in *; destruct_and?;
    repeat apply dsafe_seq;
    first [apply dsafe_name; done | apply dsafe_u8; lia | apply dsafe_u16 | apply dsafe_u32 | apply dsafe_bytes; done
      | apply dsafe_txts; done].
Qed.
Lemma dsafe_rr rr : rr_type_ok rr -> dsafe (fun mem => hsk_dns_rr_write mem rr).
Proof.
  intros (Hn & _ & _ & _ & rd & Hrd & Hk & Hw). unfold hsk_dns_rr_write. rewrite Hrd.
  apply dsafe_seq; [by apply dsafe_name|]. apply dsafe_seq; [apply dsafe_u16|]. apply dsafe_seq; [apply dsafe_u16|].
  apply dsafe_seq; [apply dsafe_u32|]. by apply dsafe_with_length, dsafe_rd.
Qed.
Lemma dsafe_qs qs : name_wf false (rr_name qs) -> dsafe (fun mem => hsk_dns_qs_write mem qs).
Proof. intros Hn. apply dsafe_seq; [by apply dsafe_name|]. apply dsafe_seq; apply dsafe_u16. Qed.
Lemma dsafe_dseqs {A} (w : (list Z -> bool) -> A -> dwr) l : Forall (fun a => dsafe (fun mem => w mem a)) l ->
  dsafe (fun mem => dseqs (List.map (w mem) l)).
Proof. induction 1 as [|a l Ha _ IH]; [apply dsafe_ret|]. by apply (dsafe_seq (fun mem => w mem a)). Qed.

(** * Messages *)

(** What the program writes. *)
Definition rrs_ok (l : list hsk_dns_rr_t) : Prop := Forall rr_type_ok l.
Definition msg_ok (msg : hsk_dns_msg_t) : Prop :=
  Forall (fun qs => name_wf false (rr_name qs)) (msg_qd msg) /\ rrs_ok (msg_an msg) /\ rrs_ok (msg_ns msg) /\
  rrs_ok (msg_ar msg) /\ bytes (edns_rd (msg_edns msg)) /\ (length (msg_ar msg) <= 255)%nat.

(** All but the header. *)
Lemma dsafe_rrs l : rrs_ok l -> dsafe (fun mem => dseqs (List.map (hsk_dns_rr_write mem) l)).
Proof. intros Hl. apply (dsafe_dseqs (fun mem => hsk_dns_rr_write mem)). eapply Forall_impl; [exact Hl|]. apply dsafe_rr. Qed.
Lemma dsafe_sections msg : msg_ok msg -> dsafe (fun mem => sections_write mem msg).
Proof.
  intros (Hq & Ha & Hn & Hr & He & _). unfold sections_write.
  apply dsafe_seq; [apply (dsafe_dseqs (fun mem => hsk_dns_qs_write mem)); eapply Forall_impl; [exact Hq|]; intros; by apply dsafe_qs|].
  do 3 (apply dsafe_seq; [by apply dsafe_rrs|]). unfold write_edns. destruct (opt_written msg) as [[] code]; [|apply dsafe_ret].
  unfold hsk_dns_rr_write, opt_record. cbn [rr_name rr_type rr_class rr_ttl rr_rd].
  apply dsafe_seq; [apply dsafe_name; exists []; split; [done|]; split; [by split; [constructor|]|done]|].
  do 2 (apply dsafe_seq; [apply dsafe_u16|]). apply dsafe_seq; [apply dsafe_u32|].
  apply dsafe_with_length. by apply dsafe_bytes.
Qed.
(** The bytes of the header and those after it. *)
Definition header_bytes_of (msg : hsk_dns_msg_t) : list Z :=
  be_split 2 (msg_id msg) ++ be_split 2 (wire_flags msg) ++ be_split 2 (u16 (Z.of_nat (length (msg_qd msg)))) ++
  be_split 2 (u16 (Z.of_nat (length (msg_an msg)))) ++ be_split 2 (u16 (Z.of_nat (length (msg_ns msg)))) ++
  be_split 2 (u16 (Z.of_nat (length (msg_ar msg)) + Z.b2z (edns_enabled (msg_edns msg)))).
Lemma header_write msg o : write_header msg (Some o) = Ret (12, Some (fst o ++ header_bytes_of msg, snd o)).
Proof.
  destruct o as [acc c]. unfold write_header, header_bytes_of, dseq, dlift. cbn [fst snd].
  rewrite !emits_u16be. cbn [obind default id]. rewrite !emits_u16be. cbn [obind default id].
  repeat (rewrite emits_u16be; cbn [obind default id]). rewrite <-!(assoc_L (++)). done.
Qed.
Lemma length_header_of msg : length (header_bytes_of msg) = 12%nat.
Proof. unfold header_bytes_of. rewrite !length_app, !length_be_split. done. Qed.

(** Encoding with memory. *)
Lemma bytes_header_of msg : bytes (header_bytes_of msg).
Proof. unfold header_bytes_of. rewrite !bytes_app. split_and!; apply bytes_be_split. Qed.
Lemma encode_ok mem msg : msg_ok msg -> exists body,
  hsk_dns_msg_encode true mem msg = Ret (header_bytes_of msg ++ body) /\ bytes (header_bytes_of msg ++ body).
Proof.
  intros Hm. destruct (dsafe_sections msg Hm) as [s H]. destruct (H mem) as [_ S]. destruct (H no_table) as [N _].
  destruct (S (header_bytes_of msg) (Some ∅)) as (bs & c' & E & Hl & Hb). exists bs.
  assert (Es : hsk_dns_msg_size msg = Ret (12 + s)).
  { unfold hsk_dns_msg_size, dsize, hsk_dns_msg_write. change (dseqs _ ;+ _) with (sections_write no_table msg).
    unfold dseq at 1. change (write_header msg None) with (@Ret (Z * dst) (12, None)). cbn [obind]. by rewrite N. }
  assert (Ew : hsk_dns_msg_write mem msg (Some ([], Some ∅)) = Ret (12 + Z.of_nat (length bs), Some (header_bytes_of msg ++ bs, c'))).
  { unfold hsk_dns_msg_write. change (dseqs _ ;+ _) with (sections_write mem msg). unfold dseq at 1.
    rewrite header_write. cbn [obind fst snd app]. by rewrite E. }
  unfold hsk_dns_msg_encode. rewrite Es. cbn [obind]. rewrite Ew. cbn [obind]. rewrite length_app, length_header_of.
  destruct (Z.ltb_spec (12 + s) (Z.of_nat (12 + length bs))); [lia|].
  split; [done|]. apply bytes_app. split; [apply bytes_header_of|done].
Qed.

(** * Truncation *)

(** What is left are bytes, and no more than before. *)
Definition passes {A} (r : rd A) : Prop := forall d, bytes d ->
  match r d with Ret (_, d') => bytes d' /\ (length d' <= length d)%nat | Fail => True | Fault _ => False end.
Lemma passes_bind {A B} (m : rd A) (k : A -> rd B) : passes m -> (forall a, passes (k a)) -> passes (rbind m k).
Proof.
  intros Hm Hk d Hd. unfold rbind. specialize (Hm d Hd). destruct (m d) as [[a d1]| |]; [|done|done].
  destruct Hm as [Hb Hl]. specialize (Hk a d1 Hb). destruct (k a d1) as [[b d2]| |]; [|done|done].
  destruct Hk. split; [done|lia].
Qed.
Lemma obind_drop {A} (m : outcome (A * Z)) (d : list Z) a d' :
  (let* (a, res) := m in Ret (a, drop (Z.to_nat res) d)) = Ret (a, d') -> (length d' <= length d)%nat.
Proof. destruct m as [[b r]| |]; cbn [obind]; [|done|done]. intros [= _ <-]. rewrite length_drop. lia. Qed.
Lemma name_read_shorter dmp d n d' : hsk_dns_name_read dmp d = Ret (n, d') -> (length d' <= length d)%nat.
Proof. apply (obind_drop (parse_loop parse_fuel dmp d 0 [] 0 0)). Qed.
Lemma passes_name dmp : dmp_ok dmp -> passes (hsk_dns_name_read dmp).
Proof.
  intros Hd d Hb. assert (H := safe_name_read dmp Hd d Hb). assert (Hs := name_read_shorter dmp d).
  destruct (hsk_dns_name_read dmp d) as [[n d']| |]; [|done|done]. destruct H. split; [done|]. by apply (Hs n).
Qed.
Lemma passes_drop {A} n (b : list Z -> bool) (f : list Z -> A) : passes (fun d => if b d then Fail else Ret (f d, drop n d)).
Proof. intros d Hb. destruct (b d); [done|]. split; [auto with hsk|]. rewrite length_drop. lia. Qed.
Lemma passes_skip n : passes (skip_bytes n).
Proof. apply passes_drop. Qed.
Lemma passes_u16be : passes read_u16be.
Proof. apply (passes_drop 2). Qed.
Lemma passes_item dmp s : dmp_ok dmp -> passes (skip_item dmp s).
Proof.
  intros Hd. unfold skip_item. apply passes_bind; [by apply passes_name|]. intros _. destruct (s =? 0); [apply passes_skip|].
  apply passes_bind; [apply passes_skip|]. intros _. apply passes_bind; [apply passes_u16be|]. intros n. apply passes_skip.
Qed.

Section Truncate.
Context (msg : list Z) (max : Z) (Hmsg : bytes msg).
(** Where a pass over the message may stand. *)
Definition inside (d : list Z) (last : Z) : Prop :=
  bytes d /\ 12 <= Z.of_nat (length msg) - Z.of_nat (length d) /\ 12 <= last <= max.
Lemma trunc_loop_safe s n : forall i last j d, inside d last -> 0 <= j <= i ->
  match trunc_loop msg max s n i last j d with
  | Ret (d', last', j') => inside d' last' /\ 0 <= j' <= i + Z.of_nat n
  | Fail => True | Fault _ => False end.
Proof.
  induction n as [|n IH]; intros i last j d (Hb & Hd & Hl) Hj; cbn [trunc_loop].
  - destruct (Z.leb_spec (Z.of_nat (length msg) - Z.of_nat (length d)) max); split_and!; (done || lia).
  - destruct (Z.leb_spec (Z.of_nat (length msg) - Z.of_nat (length d)) max); [|split_and!; (done || lia)].
    assert (H1 := passes_item (Some msg) s Hmsg d Hb). destruct (skip_item _ _ _) as [[u d']| |]; cbn [obind]; [|done|done].
    destruct H1. replace (i + Z.of_nat (S n)) with (i + 1 + Z.of_nat n) by lia. apply IH; [split_and!; (done || lia)|lia].
Qed.
Lemma trunc_sections_safe counts : forall s last d, inside d last -> Forall (fun c => in16 c) counts ->
  match trunc_sections msg max s counts last d with
  | Ret (last', js) => 12 <= last' <= max /\ Forall2 (fun j c => 0 <= j <= c) js counts
  | Fail => True | Fault _ => False end.
Proof.
  induction counts as [|c counts IH]; intros s last d Hd Hc; cbn [trunc_sections]; [split; [apply Hd|constructor]|].
  apply Forall_cons in Hc as [Hc Hcs].
  assert (H1 := trunc_loop_safe s (Z.to_nat c) 0 last 0 d Hd ltac:(lia)).
  destruct (trunc_loop _ _ _ _ _ _ _ _) as [[[d1 l1] j]| |]; cbn [obind]; [|done|done]. destruct H1 as [H1 Hj].
  specialize (IH (s + 1) l1 d1 H1 Hcs). destruct (trunc_sections _ _ _ _ _ _) as [[l2 js]| |]; cbn [obind]; [|done|done].
  destruct IH as [? E]. split; [done|]. constructor; [|done]. rewrite u16_small; lia.
Qed.
End Truncate.

Lemma length_heads js : length (concat (List.map (fun j => [Z.land (Z.shiftr j 8) 0xff; Z.land j 0xff]) js)) = (2 * length js)%nat.
Proof. induction js as [|j js IH]; [done|]. cbn [List.map concat app length]. rewrite IH. lia. Qed.
Lemma bytes_heads js : bytes (concat (List.map (fun j => [Z.land (Z.shiftr j 8) 0xff; Z.land j 0xff]) js)).
Proof. induction js as [|j js IH]; [constructor|]. cbn [List.map concat app]. repeat (apply bytes_cons; [apply low_byte|]). done. Qed.
Lemma combine_head j : in16 j -> be_combine [Z.land (Z.shiftr j 8) 0xff; Z.land j 0xff] = j.
Proof.
  intros Hj. rewrite !be_combine_cons. change 0xff with (2 ^ 8 - 1). rewrite !land_ones_mod, Z.shiftr_div_pow2 by lia.
  change (be_combine []) with 0. cbn [length]. dlia.
Qed.
(** The counts of the header. *)
Definition ar_count (msg : list Z) : Z := be_combine (take 2 (drop 10 msg)).
Definition read_counts : rd (list Z) :=
  _ <- read_u16be ;; qdcount <- read_u16be ;; ancount <- read_u16be ;; nscount <- read_u16be ;;
  arcount <- read_u16be ;; rret [qdcount; ancount; nscount; arcount].
Lemma read_counts_safe msg : bytes msg -> match read_counts (drop 2 msg) with
  | Ret (counts, d) => (exists a b c, counts = [a; b; c; ar_count msg]) /\ Forall (fun c => in16 c) counts /\ bytes d /\
      Z.of_nat (length d) = Z.of_nat (length msg) - 12
  | Fail => True | Fault _ => False end.
Proof.
  intros Hb. unfold read_counts.
  assert (Hu : forall d, bytes d -> (length d < 2)%nat /\ read_u16be d = Fail \/
    (2 <= length d)%nat /\ read_u16be d = Ret (be_combine (take 2 d), drop 2 d) /\ in16 (be_combine (take 2 d))).
  { intros d Hd. unfold read_u16be, read_u16be_on, read_fixed. destruct (Nat.ltb_spec (length d) 2); [by left|]. right.
    rewrite get_u16be_host by (done || lia). split; [lia|]. split; [done|].
    assert (Hr := be_combine_range (take 2 d) ltac:(auto with hsk)). rewrite length_take, Nat.min_l in Hr by lia. exact Hr. }
  do 5 (match goal with |- context [rbind read_u16be ?k ?d] => change (rbind read_u16be k d) with (let* (v, d') := read_u16be d in k v d');
    destruct (Hu d ltac:(auto with hsk)) as [[? ->]|(? & -> & ?)]; [done|] end; cbn [obind]; rewrite ?drop_drop in *; cbn [Nat.add] in *).
  unfold rret. split; [by do 3 eexists|]. split; [by repeat (apply Forall_cons; split)|]. split; [auto with hsk|].
  rewrite !length_drop in *. lia.
Qed.
(** Whatever the bytes: no more than [max] of them remain, with the same identifier and
    flags, and the records are no more than they were. *)
Lemma truncate_safe msg max : bytes msg ->
  match hsk_dns_msg_truncate msg max with
  | Ret (out, len) => let cut := take (Z.to_nat len) out in
      bytes cut /\ 12 <= Z.of_nat (length cut) <= max /\ take 4 cut = take 4 msg /\ ar_count cut <= ar_count msg
  | Fail => True
  | Fault _ => False
  end.
Proof.
  intros Hb. unfold hsk_dns_msg_truncate. destruct (Z.ltb_spec (Z.of_nat (length msg)) 12); [done|].
  destruct (Z.ltb_spec max 12); [done|]. destruct (Z.leb_spec (Z.of_nat (length msg)) max) as [Hle|Hgt].
  { rewrite Nat2Z.id, take_ge by lia. split_and!; (done || lia). }
  fold read_counts. assert (Hr := read_counts_safe msg Hb).
  destruct (read_counts (drop 2 msg)) as [[counts d]| |]; cbn [obind]; [|done|done].
  destruct Hr as ((c1 & c2 & c3 & ->) & Hc & Hbd & Hd).
  assert (H3 := trunc_sections_safe msg max Hb _ 0 (Z.of_nat (length msg) - Z.of_nat (length d)) d ltac:(split_and!; [done|lia..]) Hc).
  destruct (trunc_sections _ _ _ _ _ _) as [[last js]| |]; cbn [obind]; [|done|done]. destruct H3 as [Hl Hj]. cbv zeta.
  assert (Hjl := Forall2_length _ _ _ Hj). cbn [length] in Hjl.
  assert (Ht : length (take 4 msg) = 4%nat) by (rewrite length_take; lia).
  split; [|split; [|split]].
  - apply bytes_take. rewrite !bytes_app. split; [auto with hsk|]. split; [apply bytes_heads|auto with hsk].
  - rewrite length_take, !length_app, length_heads, length_drop. lia.
  - rewrite take_take, take_app_le by (rewrite Ht; lia). rewrite take_take. f_equal. lia.
  - destruct js as [|j1 [|j2 [|j3 [|j4 [|]]]]]; cbn in Hjl; try lia.
    apply Forall2_cons in Hj as [_ Hj]. apply Forall2_cons in Hj as [_ Hj]. apply Forall2_cons in Hj as [_ Hj]. apply Forall2_cons in Hj as [Hj _].
    unfold ar_count at 1. set (out := _ ++ _). replace (drop 10 (take (Z.to_nat last) out)) with (take (Z.to_nat last - 10) (drop 10 out)) by (by rewrite take_drop_commute; do 2 f_equal; lia).
    rewrite take_take, Nat.min_l by lia. unfold out. change 10%nat with (4 + 6)%nat. rewrite <-drop_drop, drop_app_length' by done.
    cbn [List.map concat app drop take]. rewrite ?drop_0. cbn [take].
    rewrite combine_head; [lia|]. do 3 apply Forall_cons in Hc as [_ Hc]. apply Forall_cons in Hc as [Hc _]. lia.
Qed.
