(* ===== verification/Sha256.v ===== *)
(** SHA-256: [src/reference/hnsd-reference/src/sha256.c].

    The message buffer of the context, sixteen words that the code also addresses
    as bytes, is kept as the 64 bytes of its memory; a word of it is loaded and
    stored in the byte order [h] of the host, and the macros that swap bytes are
    those of that host. Addresses of buffers are arguments, for the tests of
    alignment. [Sha256Props] compares the code with FIPS 180-4. *)

From S2P Require Import Prelude Bio Blake2b.

Definition hsk_sha256_block_size : nat := 64.
Definition hsk_sha256_hash_size : Z := 32.

Definition bswap_32 (x : Z) : Z :=
  let x := Z.lor (Z.land (u32 (Z.shiftl x 8)) 0xFF00FF00) (Z.land (Z.shiftr x 8) 0x00FF00FF) in
  Z.lor (Z.shiftr x 16) (u32 (Z.shiftl x 16)).

Definition be2me_32 (h : endian) (x : Z) : Z := match h with Little => bswap_32 x | Big => x end.
Definition le2me_32 (h : endian) (x : Z) : Z := match h with Little => x | Big => bswap_32 x end.

(** Word [i] of an array of words in memory. *)
Definition load_word (h : endian) (mem : list Z) (i : nat) : Z :=
  memcpy_to_int h (take 4 (drop (4 * i) mem)).
Definition store_word (h : endian) (i : nat) (w : Z) (mem : list Z) : list Z :=
  memcpy_at mem (4 * i) (memcpy_of_int h 4 w).

(** [IS_ALIGNED_32(p)] *)
Definition IS_ALIGNED_32 (p : Z) : bool := Z.land 3 p =? 0.

(** The copy of words to big-endian bytes; [to] and [from] are the bytes at the
    addresses [to_p] and [from_p], and the result is the memory of [to]
    afterwards. Only compiled on a little-endian host. *)
Definition swap_copy_str_to_u32 (to_p : Z) (to : list Z) (index : nat) (from_p : Z)
    (from : list Z) : list Z :=
  let length := length from in
  if Z.land (Z.lor (Z.lor (Z.lor to_p from_p) (Z.of_nat index)) (Z.of_nat length)) 3 =? 0 then
    fold_left (fun to j =>
        memcpy_at to (index + 4 * j) (memcpy_of_int Little 4 (bswap_32 (load_word Little from j))))
      (seq 0 (length / 4)) to
  else
    fold_left (fun to i => <[Z.to_nat (Z.lxor (Z.of_nat (index + i)) 3) := from.[i]]> to)
      (seq 0 length) to.

Definition be32_copy (h : endian) (to_p : Z) (to : list Z) (index : nat) (from_p : Z)
    (from : list Z) : list Z :=
  match h with
  | Little => swap_copy_str_to_u32 to_p to index from_p from
  | Big => memcpy_at to index from
  end.

(** [ROTR32(dword, n)]; the two parts are joined by an exclusive or. *)
Definition ROTR32 (x n : Z) : Z := Z.lxor (Z.shiftr x n) (u32 (Z.shiftl x (32 - n))).

(** Eight words of the table, from the highest, as one number. *)
Definition k256_row (x : Z) : list Z := map (fun i => Z.land (Z.shiftr x (224 - 32 * Z.of_nat i)) 0xffffffff) (seq 0 8).
Definition k256 : list Z := Eval vm_compute in concat (map k256_row
  [0x428a2f9871374491b5c0fbcfe9b5dba53956c25b59f111f1923f82a4ab1c5ed5;
   0xd807aa9812835b01243185be550c7dc372be5d7480deb1fe9bdc06a7c19bf174;
   0xe49b69c1efbe47860fc19dc6240ca1cc2de92c6f4a7484aa5cb0a9dc76f988da;
   0x983e5152a831c66db00327c8bf597fc7c6e00bf3d5a7914706ca635114292967;
   0x27b70a852e1b21384d2c6dfc53380d13650a7354766a0abb81c2c92e92722c85;
   0xa2bfe8a1a81a664bc24b8b70c76c51a3d192e819d6990624f40e3585106aa070;
   0x19a4c1161e376c082748774c34b0bcb5391c0cb34ed8aa4a5b9cca4f682e6ff3;
   0x748f82ee78a5636f84c878148cc7020890befffaa4506cebbef9a3f7c67178f2]).

Definition Ch (x y z : Z) : Z := Z.lxor z (Z.land x (Z.lxor y z)).
Definition Maj (x y z : Z) : Z := Z.lxor (Z.land x y) (Z.land z (Z.lxor x y)).
Definition Sigma0 (x : Z) : Z := Z.lxor (Z.lxor (ROTR32 x 2) (ROTR32 x 13)) (ROTR32 x 22).
Definition Sigma1 (x : Z) : Z := Z.lxor (Z.lxor (ROTR32 x 6) (ROTR32 x 11)) (ROTR32 x 25).
Definition sigma0 (x : Z) : Z := Z.lxor (Z.lxor (ROTR32 x 7) (ROTR32 x 18)) (Z.shiftr x 3).
Definition sigma1 (x : Z) : Z := Z.lxor (Z.lxor (ROTR32 x 17) (ROTR32 x 19)) (Z.shiftr x 10).

Record hsk_sha256_ctx := mk_sha256_ctx {
  sha_message : list Z;
  sha_length : Z;
  sha_hash : list Z;
  sha_digest_length : Z;
}.

(** [(n - k) & 15] *)
Definition win (n : nat) (k : Z) : nat := Z.to_nat (Z.land (Z.of_nat n - k) 15).

(** [RECALCULATE_W(W, n)]: the assignment; its value is the new [W[n]]. *)
Definition RECALCULATE_W (W : list Z) (n : nat) : list Z :=
  <[n := u32 (W.[n] + (sigma1 W.[win n 2] + W.[win n 7] + sigma0 W.[win n 15]))]> W.

(** [ROUND(a, ..., h, k, data)]; [a] to [h] are indices into the variables
    [A], ..., [H], which are the list [v]. *)
Definition ROUND (a b c d e f g h : nat) (k data : Z) (v : list Z) : list Z :=
  let T1 := u32 (v.[h] + Sigma1 v.[e] + Ch v.[e] v.[f] v.[g] + k + data) in
  let v := <[d := u32 (v.[d] + T1)]> v in
  <[h := u32 (T1 + Sigma0 v.[a] + Maj v.[a] v.[b] v.[c])]> v.

(** The [n]-th line of a block of rounds names the variables rotated [n] times:
    [(A, B, C, ...)], [(H, A, B, ...)], [(G, H, A, ...)] and so on. *)
Definition arg (n k : nat) : nat := (k + 7 * n) mod 8.
Definition ROUND_args (n : nat) (k data : Z) (v : list Z) : list Z :=
  ROUND (arg n 0) (arg n 1) (arg n 2) (arg n 3) (arg n 4) (arg n 5) (arg n 6) (arg n 7) k data v.

Definition ROUND_1_16 (h : endian) (block : list Z) (st : list Z * list Z) (n : nat) : list Z * list Z :=
  let '(v, W) := st in
  let W := <[n := be2me_32 h block.[n]]> W in
  (ROUND_args n k256.[n] W.[n] v, W).
(** [k] is [&k256[i]]. *)
Definition ROUND_17_64 (i : nat) (st : list Z * list Z) (n : nat) : list Z * list Z :=
  let '(v, W) := st in
  let W := RECALCULATE_W W n in
  (ROUND_args n k256.[i + n] W.[n] v, W).

(** [block] is an array of words as the host loads them. *)
Definition hsk_sha256_process_block (h : endian) (hash block : list Z) : list Z :=
  let st := (take 8 hash, replicate 16 0) in
  let st := fold_left (ROUND_1_16 h block) (seq 0 16) st in
  let st := fold_left (fun st i => fold_left (ROUND_17_64 i) (seq 0 16) st) [16; 32; 48]%nat st in
  zip_with (fun x y => u32 (x + y)) hash (fst st).

Definition words_at (h : endian) (mem : list Z) : list Z := map (load_word h mem) (seq 0 16).

Definition HSK_SHA_256_H0 : list Z :=
  [0x6a09e667; 0xbb67ae85; 0x3c6ef372; 0xa54ff53a;
   0x510e527f; 0x9b05688c; 0x1f83d9ab; 0x5be0cd19].

(** The buffer is not initialised: it keeps what the memory held. *)
Definition hsk_sha256_init (ctx : hsk_sha256_ctx) : hsk_sha256_ctx :=
  mk_sha256_ctx (sha_message ctx) 0 HSK_SHA_256_H0 hsk_sha256_hash_size.

Definition set_message (ctx : hsk_sha256_ctx) (m : list Z) : hsk_sha256_ctx :=
  mk_sha256_ctx m (sha_length ctx) (sha_hash ctx) (sha_digest_length ctx).
Definition process (h : endian) (ctx : hsk_sha256_ctx) (mem : list Z) : hsk_sha256_ctx :=
  mk_sha256_ctx (sha_message ctx) (sha_length ctx)
    (hsk_sha256_process_block h (sha_hash ctx) (words_at h mem)) (sha_digest_length ctx).

(** [while (size >= hsk_sha256_block_size)]; the fuel is the length of the input. *)
Fixpoint sha256_update_loop (fuel : nat) (h : endian) (p : Z) (ctx : hsk_sha256_ctx)
    (msg : list Z) : hsk_sha256_ctx * list Z :=
  match fuel with
  | O => (ctx, msg)
  | S fuel' =>
      if (hsk_sha256_block_size <=? length msg)%nat then
        let ctx :=
          if IS_ALIGNED_32 p then process h ctx (take hsk_sha256_block_size msg)
          else
            let ctx := set_message ctx (memcpy_at (sha_message ctx) 0 (take hsk_sha256_block_size msg)) in
            process h ctx (sha_message ctx) in
        sha256_update_loop fuel' h (p + Z.of_nat hsk_sha256_block_size) ctx
          (drop hsk_sha256_block_size msg)
      else (ctx, msg)
  end.

(** [p] is the address of [msg]. *)
Definition hsk_sha256_update (h : endian) (p : Z) (ctx : hsk_sha256_ctx) (msg : list Z) : hsk_sha256_ctx :=
  let index := Z.to_nat (Z.land (sha_length ctx) 63) in
  let ctx := mk_sha256_ctx (sha_message ctx) (u64 (sha_length ctx + Z.of_nat (length msg)))
               (sha_hash ctx) (sha_digest_length ctx) in
  let left := (hsk_sha256_block_size - index)%nat in
  let ctx' := if (index =? 0)%nat then ctx
              else set_message ctx (memcpy_at (sha_message ctx) index
                     (take (if (length msg <? left)%nat then length msg else left) msg)) in
  if negb (index =? 0)%nat && (length msg <? left)%nat then ctx' else
  let '(ctx, p, msg) :=
    if (index =? 0)%nat then (ctx', p, msg)
    else (process h ctx' (sha_message ctx'), p + Z.of_nat left, drop left msg) in
  let '(ctx, msg) := sha256_update_loop (length msg) h p ctx msg in
  if (length msg =? 0)%nat then ctx
  else set_message ctx (memcpy_at (sha_message ctx) 0 msg).

(** [while (index < n) ctx->message[index++] = 0;] *)
Definition zero_words (h : endian) (index n : nat) (mem : list Z) : list Z :=
  fold_left (fun mem i => store_word h i 0 mem) (seq index (n - index)) mem.

(** The context afterwards and the memory at [result], whose address is [to_p];
    [from_p] is the address of [ctx->hash]. *)
Definition hsk_sha256_final (h : endian) (to_p from_p : Z) (ctx : hsk_sha256_ctx) (result : list Z) :
    hsk_sha256_ctx * list Z :=
  let index := Z.to_nat (Z.shiftr (Z.land (u32 (sha_length ctx)) 63) 2) in
  let shift := Z.land (u32 (sha_length ctx)) 3 * 8 in
  let m := sha_message ctx in
  let m := store_word h index (Z.land (load_word h m index)
             (le2me_32 h (2 ^ 32 - 1 - u32 (Z.shiftl 0xFFFFFFFF shift)))) m in
  let m := store_word h index (Z.lxor (load_word h m index)
             (le2me_32 h (u32 (Z.shiftl 0x80 shift)))) m in
  let index := S index in
  let ctx := set_message ctx m in
  let '(ctx, index) :=
    if (14 <? index)%nat then
      let ctx := set_message ctx (zero_words h index 16 (sha_message ctx)) in
      (process h ctx (sha_message ctx), 0%nat)
    else (ctx, index) in
  let m := zero_words h index 14 (sha_message ctx) in
  let m := store_word h 14 (be2me_32 h (u32 (Z.shiftr (sha_length ctx) 29))) m in
  let m := store_word h 15 (be2me_32 h (u32 (Z.shiftl (sha_length ctx) 3))) m in
  let ctx := set_message ctx m in
  let ctx := process h ctx (sha_message ctx) in
  let from := take (Z.to_nat (sha_digest_length ctx)) (concat (map (memcpy_of_int h 4) (sha_hash ctx))) in
  (ctx, be32_copy h to_p result 0 from_p from).

(** Initialise, feed a sequence of buffers at their addresses, finish; [garbage] is what
    the memory of the context held, [result] what the destination held. *)
Definition sha256_parts (h : endian) (garbage : list Z) (parts : list (Z * list Z))
    (to_p from_p : Z) (result : list Z) : list Z :=
  let ctx := hsk_sha256_init (mk_sha256_ctx garbage 0 [] 0) in
  let ctx := fold_left (fun ctx part => hsk_sha256_update h (fst part) ctx (snd part)) parts ctx in
  snd (hsk_sha256_final h to_p from_p ctx result).

(** The vectors of FIPS 180-4: "abc" in one part and in two on hosts of either byte order, and the
    message of 56 bytes whose padding takes a second block. *)
Definition sha256_abc : Z := 0xba7816bf8f01cfea414140de5dae2223b00361a396177a9cb410ff61f20015ad.
Example sha256_fips_abc :
  be_combine (sha256_parts Little (replicate 64 7) [(3, [0x61; 0x62; 0x63])] 0 0 (replicate 32 9)) = sha256_abc /\
  be_combine (sha256_parts Big (replicate 64 7) [(0, [0x61]); (1, [0x62; 0x63])] 0 0 (replicate 32 9)) = sha256_abc.
Proof. vm_compute. split; reflexivity. Qed.
Example sha256_fips_two_blocks :
  be_combine (sha256_parts Little (replicate 64 7)
    [(3, concat (map (fun i => map (fun j => 0x61 + Z.of_nat (i + j)) (seq 0 4)) (seq 0 14)))] 1 0 (replicate 32 9)) =
  0x248d6a61d20638b8e5c026930c3e6039a33ce45964ff2167f6ecedd419db06c1.
Proof. vm_compute. reflexivity. Qed.
