(* ===== verification/Sha256Props.v ===== *)
(** SHA-256 against FIPS 180-4: the standard as pure functions, and the proof that
    [sha256.c] computes it for every cut of the input, alignment and byte order of
    the host. *)

From S2P Require Import Prelude Bio Blake2b Sha256.
From Stdlib Require Import ZifyNat.

(** [dlia] with the division of natural numbers. *)
Ltac nlia := zify; Z.to_euclidean_division_equations; lia.

(** * The standard *)
Definition fips_rotr (n x : Z) : Z := Z.lor (Z.shiftr x n) (u32 (Z.shiftl x (32 - n))).
Definition fips_ch (x y z : Z) : Z := Z.lxor (Z.land x y) (Z.land (Z.lnot x) z).
Definition fips_maj (x y z : Z) : Z := Z.lxor (Z.lxor (Z.land x y) (Z.land x z)) (Z.land y z).
Definition fips_Sigma0 (x : Z) : Z := Z.lxor (Z.lxor (fips_rotr 2 x) (fips_rotr 13 x)) (fips_rotr 22 x).
Definition fips_Sigma1 (x : Z) : Z := Z.lxor (Z.lxor (fips_rotr 6 x) (fips_rotr 11 x)) (fips_rotr 25 x).
Definition fips_sigma0 (x : Z) : Z := Z.lxor (Z.lxor (fips_rotr 7 x) (fips_rotr 18 x)) (Z.shiftr x 3).
Definition fips_sigma1 (x : Z) : Z := Z.lxor (Z.lxor (fips_rotr 17 x) (fips_rotr 19 x)) (Z.shiftr x 10).

(** The message schedule: sixteen words of the block, then the recurrence. *)
Definition fips_next (W : list Z) (t : nat) : Z :=
  u32 (fips_sigma1 W.[t - 2] + W.[t - 7] + fips_sigma0 W.[t - 15] + W.[t - 16]).
Definition fips_schedule (M : list Z) : list Z :=
  fold_left (fun W t => W ++ [fips_next W t]) (seq 16 48) M.

(** One round on the working variables [a, ..., h]. *)
Definition fips_round (st : list Z) (k w : Z) : list Z :=
  match st with
  | [a; b; c; d; e; f; g; h] =>
      let T1 := u32 (h + fips_Sigma1 e + fips_ch e f g + k + w) in
      let T2 := u32 (fips_Sigma0 a + fips_maj a b c) in
      [u32 (T1 + T2); a; b; c; u32 (d + T1); e; f; g]
  | _ => st
  end.
Definition fips_rounds (W H : list Z) (n : nat) : list Z :=
  fold_left (fun st t => fips_round st k256.[t] W.[t]) (seq 0 n) H.
Definition fips_block (H block : list Z) : list Z :=
  let M := map (fun i => be_combine (take 4 (drop (4 * i) block))) (seq 0 16) in
  zip_with (fun x y => u32 (x + y)) H (fips_rounds (fips_schedule M) H 64).

(** Padding and the iteration over blocks; lengths are modulo [2 ^ 64] bits. *)
Definition fips_pad (msg : list Z) : list Z :=
  let l := Z.of_nat (length msg) in
  msg ++ [0x80] ++ replicate (Z.to_nat ((55 - l) mod 64)) 0 ++ be_split 8 (8 * l).
Fixpoint fips_blocks (n : nat) (H l : list Z) : list Z :=
  match n with
  | O => H
  | S n' => fips_blocks n' (fips_block H (take 64 l)) (drop 64 l)
  end.
Definition fips_sha256 (msg : list Z) : list Z :=
  let l := fips_pad msg in
  concat (map (be_split 4) (fips_blocks (length l / 64) HSK_SHA_256_H0 l)).

(** * Words *)
Abbreviation in32 := (fun x : Z => 0 <= x < 2 ^ 32).

Lemma testbit_high x n i : 0 <= x < 2 ^ n -> n <= i -> Z.testbit x i = false.
Proof.
  intros Hx Hi. destruct (Z.lt_ge_cases n 0).
  - rewrite Z.pow_neg_r in Hx by done. lia.
  - rewrite <-(Z.mod_small x (2 ^ n)) by done. by rewrite Z.mod_pow2_bits_high by lia.
Qed.

Lemma ROTR32_fips x n : in32 x -> 0 <= n <= 32 -> ROTR32 x n = fips_rotr n x.
Proof.
  intros Hx Hn. unfold ROTR32, fips_rotr, u32. apply Z.bits_inj'; intros i Hi.
  rewrite Z.lxor_spec, Z.lor_spec, Z.shiftr_spec by done.
  destruct (Z.lt_ge_cases i 32); [|rewrite Z.mod_pow2_bits_high by lia; by destruct (Z.testbit x _)].
  rewrite Z.mod_pow2_bits_low, Z.shiftl_spec by done.
  destruct (Z.lt_ge_cases (i + n) 32).
  - rewrite (Z.testbit_neg_r x (i - (32 - n))) by lia. by destruct (Z.testbit x _).
  - rewrite (testbit_high x 32 (i + n)) by done. by destruct (Z.testbit x _).
Qed.
Lemma Ch_fips x y z : Ch x y z = fips_ch x y z.
Proof.
  apply Z.bits_inj'; intros i Hi. unfold Ch, fips_ch.
  rewrite !Z.lxor_spec, !Z.land_spec, Z.lxor_spec, Z.lnot_spec by done.
  by destruct (Z.testbit x i), (Z.testbit y i), (Z.testbit z i).
Qed.
Lemma Maj_fips x y z : Maj x y z = fips_maj x y z.
Proof.
  apply Z.bits_inj'; intros i Hi. unfold Maj, fips_maj.
  rewrite !Z.lxor_spec, !Z.land_spec, Z.lxor_spec by done.
  by destruct (Z.testbit x i), (Z.testbit y i), (Z.testbit z i).
Qed.
Lemma Sigma0_fips x : in32 x -> Sigma0 x = fips_Sigma0 x.
Proof. intros. unfold Sigma0, fips_Sigma0. by rewrite !ROTR32_fips by (done || lia). Qed.
Lemma Sigma1_fips x : in32 x -> Sigma1 x = fips_Sigma1 x.
Proof. intros. unfold Sigma1, fips_Sigma1. by rewrite !ROTR32_fips by (done || lia). Qed.
Lemma sigma0_fips x : in32 x -> sigma0 x = fips_sigma0 x.
Proof. intros. unfold sigma0, fips_sigma0. by rewrite !ROTR32_fips by (done || lia). Qed.
Lemma sigma1_fips x : in32 x -> sigma1 x = fips_sigma1 x.
Proof. intros. unfold sigma1, fips_sigma1. by rewrite !ROTR32_fips by (done || lia). Qed.

(** * The rounds *)

(** The variables in the order in which line [n] names them. *)
Definition rotated (n : nat) (v : list Z) : list Z := map (fun k => v.[arg n k]) (seq 0 8).

Lemma u32_add_l x y : u32 (u32 x + y) = u32 (x + y).
Proof. apply Zplus_mod_idemp_l. Qed.
Lemma u32_add_r x y : u32 (x + u32 y) = u32 (x + y).
Proof. apply Zplus_mod_idemp_r. Qed.

Lemma u32_sum3 x y z : u32 (x + y + z) = u32 (x + u32 (y + z)).
Proof. rewrite u32_add_r. f_equal. lia. Qed.

Lemma arg_period n k : arg (n mod 8) k = arg n k.
Proof. unfold arg. rewrite <-Nat.Div0.add_mod_idemp_r, <-(Nat.Div0.add_mod_idemp_r k (7 * n)), Nat.Div0.mul_mod_idemp_r. done. Qed.

Lemma ROUND_args_fips n k w v : length v = 8%nat -> Forall in32 v ->
  rotated (S n) (ROUND_args n k w v) = fips_round (rotated n v) k w /\
  length (ROUND_args n k w v) = 8%nat /\ Forall in32 (ROUND_args n k w v).
Proof.
  intros Hl Hv. assert (Hs : forall v, rotated (S n) v = rotated (S (n mod 8)) v).
  { intros v'. unfold rotated. apply map_ext. intros j. rewrite <-(arg_period (S n)), <-(arg_period (S (n mod 8))).
    f_equal. f_equal. rewrite <-(Nat.add_1_l n), <-(Nat.add_1_l (n mod 8)). by rewrite Nat.Div0.add_mod_idemp_r. }
  rewrite Hs. unfold rotated at 2, ROUND_args. setoid_rewrite <-(arg_period n).
  assert (Hn := Nat.mod_upper_bound n 8 ltac:(lia)). set (m := (n mod 8)%nat) in *. clearbody m. clear Hs.
  destruct v as [|v0 [|v1 [|v2 [|v3 [|v4 [|v5 [|v6 [|v7 [|]]]]]]]]]; try done.
  decompose_Forall_hyps.
  destruct m as [|[|[|[|[|[|[|[|m]]]]]]]]; [..|lia]; unfold ROUND;
    cbn -[Sigma0 Sigma1 Ch Maj u32 Z.add fips_Sigma0 fips_Sigma1 fips_ch fips_maj];
    rewrite Sigma1_fips, Sigma0_fips, Ch_fips, Maj_fips, u32_sum3 by done;
    (split; [done|split; [done|]]); repeat (apply Forall_cons_2; [first [done|apply u32_range]|]); apply Forall_nil_2.
Qed.

(** * The schedule *)
Section Block.
Context (M : list Z) (HM : length M = 16%nat) (HM32 : Forall in32 M).

Let sched (n : nat) : list Z := fold_left (fun W t => W ++ [fips_next W t]) (seq 16 n) M.

Lemma sched_S n : sched (S n) = sched n ++ [fips_next (sched n) (16 + n)].
Proof. unfold sched. by rewrite seq_S, fold_left_app. Qed.
Lemma length_sched n : length (sched n) = (16 + n)%nat.
Proof.
  induction n as [|n IH]; [done|]. rewrite sched_S, length_app, IH. cbn [length]. lia.
Qed.
Lemma sched_prefix n m : (n <= m)%nat -> exists l, sched m = sched n ++ l.
Proof.
  induction 1 as [|m Hm [l IH]]; [exists []; by rewrite app_nil_r|].
  rewrite sched_S, IH, <-(assoc_L (++)). eauto.
Qed.
Lemma sched_stable n m j : (n <= m)%nat -> (j < 16 + n)%nat -> (sched m).[j] = (sched n).[j].
Proof.
  intros Hn Hj. destruct (sched_prefix n m Hn) as [l ->]. apply app_nth1. by rewrite length_sched.
Qed.
Lemma sched_at_word j : (j < 16)%nat -> (fips_schedule M).[j] = M.[j].
Proof. intros. exact (sched_stable 0 48 j ltac:(lia) ltac:(lia)). Qed.
Lemma sched_at_next t : (16 <= t < 64)%nat -> (fips_schedule M).[t] = fips_next (fips_schedule M) t.
Proof.
  intros Ht. change (fips_schedule M) with (sched 48).
  rewrite (sched_stable (S (t - 16)) 48 t) by lia. rewrite sched_S, app_nth2, length_sched by (rewrite length_sched; lia).
  replace (t - (16 + (t - 16)))%nat with 0%nat by lia. cbn [nth].
  replace (16 + (t - 16))%nat with t by lia. unfold fips_next.
  by rewrite !(sched_stable (t - 16) 48) by lia.
Qed.
Lemma sched_in32 t : (t < 64)%nat -> in32 (fips_schedule M).[t].
Proof.
  intros Ht. destruct (decide (t < 16)%nat).
  - rewrite sched_at_word by done. apply Forall_nth; [done|lia].
  - rewrite sched_at_next by lia. apply u32_range.
Qed.

(** [W] holds the last sixteen words of the schedule, each in its place modulo 16. *)
Let S := fips_schedule M.
Definition W_ok (t : nat) (W : list Z) : Prop :=
  length W = 16%nat /\ forall j, (t - 16 <= j < t)%nat -> W.[j mod 16] = S.[j].

Lemma W_ok_insert t W : W_ok t W -> W_ok (1 + t) (<[(t mod 16)%nat := S.[t]]> W).
Proof.
  intros [Hl HW]. split; [by rewrite length_insert|]. intros j Hj.
  assert (Ht := Nat.mod_upper_bound t 16 ltac:(lia)). destruct (decide (j = t)) as [->|Hjt].
  - apply nth_insert_eq. lia.
  - rewrite nth_insert_ne; [apply HW; lia|]. intros He. apply Hjt. nlia.
Qed.

Lemma win_spec t k : (16 <= t)%nat -> 0 < k <= 16 -> win (t mod 16) k = ((t - Z.to_nat k) mod 16)%nat.
Proof.
  intros Ht Hk. unfold win. change 15 with (2 ^ 4 - 1). rewrite land_ones_mod by lia. nlia.
Qed.

Lemma RECALCULATE_W_spec t W : (16 <= t < 64)%nat -> W_ok t W ->
  RECALCULATE_W W (t mod 16) = <[(t mod 16)%nat := S.[t]]> W.
Proof.
  intros Ht [Hl HW]. unfold RECALCULATE_W. f_equal. unfold S. rewrite sched_at_next by done.
  rewrite !win_spec by lia. replace (t mod 16)%nat with ((t - 16) mod 16)%nat by nlia.
  rewrite !HW by lia. unfold fips_next.
  change (Z.to_nat 2) with 2%nat. change (Z.to_nat 7) with 7%nat. change (Z.to_nat 15) with 15%nat.
  rewrite sigma1_fips, sigma0_fips by (apply sched_in32; lia). f_equal. unfold S. lia.
Qed.

(** * The registers *)
Context (H : list Z) (HH : length H = 8%nat) (HH32 : Forall in32 H).

Definition st_ok (t : nat) (st : list Z * list Z) : Prop :=
  length st.1 = 8%nat /\ Forall in32 st.1 /\ rotated t st.1 = fips_rounds S H t /\ W_ok t st.2.

Lemma fips_rounds_S t : fips_rounds S H (1 + t) = fips_round (fips_rounds S H t) k256.[t] S.[t].
Proof. unfold fips_rounds. cbn [Nat.add]. by rewrite seq_S, fold_left_app. Qed.

Lemma st_ok_round t v W n : st_ok t (v, W) -> (n mod 8 = t mod 8)%nat ->
  st_ok (1 + t) (ROUND_args n k256.[t] S.[t] v, <[(t mod 16)%nat := S.[t]]> W).
Proof.
  intros (Hl & Hv & Hr & HW) Hn. assert (Ha : ROUND_args n = ROUND_args t).
  { unfold ROUND_args. by rewrite <-!(arg_period n), <-!(arg_period t), Hn. }
  rewrite Ha. destruct (ROUND_args_fips t k256.[t] S.[t] v Hl Hv) as (Hf & ? & ?).
  split_and!; [done..| |by apply W_ok_insert]. cbn [fst] in *. by rewrite fips_rounds_S, <-Hr.
Qed.

Lemma st_ok_first h block t st : be2me_32 h block.[t] = M.[t] -> (t < 16)%nat ->
  st_ok t st -> st_ok (1 + t) (ROUND_1_16 h block st t).
Proof.
  intros Hb Ht Hst. destruct st as [v W]. assert (Hlen : length W = 16%nat) by apply Hst.
  unfold ROUND_1_16. rewrite Hb, <-sched_at_word by lia. fold S.
  rewrite nth_insert_eq by lia. assert (Hr := st_ok_round t v W t Hst eq_refl).
  by rewrite (Nat.mod_small t 16) in Hr by lia.
Qed.
Lemma st_ok_later i n st : In i [16; 32; 48]%nat -> (n < 16)%nat ->
  st_ok (i + n) st -> st_ok (1 + (i + n)) (ROUND_17_64 i st n).
Proof.
  intros Hi Hn Hst. destruct st as [v W]. unfold ROUND_17_64.
  assert (Hm : n = ((i + n) mod 16)%nat) by (cbn in Hi; nlia).
  assert (Hb : (16 <= i + n < 64)%nat) by (cbn in Hi; lia).
  assert (Hlen : length W = 16%nat) by apply Hst.
  assert (Hw := RECALCULATE_W_spec (i + n) W Hb (proj2 (proj2 (proj2 Hst)))). rewrite <-Hm in Hw.
  rewrite Hw, nth_insert_eq by lia.
  assert (Hr := st_ok_round (i + n) v W n Hst ltac:(nlia)). by rewrite <-Hm in Hr.
Qed.

Lemma fold_left_3 {A B} (f : A -> B -> A) a x y z : fold_left f [x; y; z] a = f (f (f a x) y) z.
Proof. reflexivity. Qed.
Lemma rotated_id v : length v = 8%nat -> rotated 0 v = v /\ rotated 64 v = v.
Proof. intros Hv. by destruct v as [|v0 [|v1 [|v2 [|v3 [|v4 [|v5 [|v6 [|v7 [|]]]]]]]]]. Qed.

Lemma fips_rounds_0 : fips_rounds S H 0 = H.
Proof. unfold fips_rounds. generalize S. reflexivity. Qed.
Lemma st_ok_init : st_ok 0 (H, replicate 16 0).
Proof.
  split; [exact HH|]. split; [exact HH32|]. split.
  - cbn [fst]. rewrite fips_rounds_0. by apply rotated_id.
  - split; [done|lia].
Qed.

Lemma st_ok_phase1 h block : (forall i, (i < 16)%nat -> be2me_32 h block.[i] = M.[i]) ->
  st_ok 16 (fold_left (ROUND_1_16 h block) (seq 0 16) (H, replicate 16 0)).
Proof.
  intros Hb. refine (fold_left_seq_inv st_ok (ROUND_1_16 h block) 0 16 _ st_ok_init _).
  intros i st Hi Hst. apply st_ok_first; [apply Hb; lia|lia|done].
Qed.
Lemma st_ok_phase i st : In i [16; 32; 48]%nat -> st_ok i st ->
  st_ok (i + 16) (fold_left (ROUND_17_64 i) (seq 0 16) st).
Proof.
  intros Hi Hst. refine (fold_left_seq_inv (fun n => st_ok (i + n)) (ROUND_17_64 i) 0 16 _ _ _).
  - by rewrite Nat.add_0_r.
  - intros n st' Hn Hst'. rewrite Nat.add_succ_r. apply st_ok_later; [done|lia|done].
Qed.

Lemma process_block_spec h block :
  (forall i, (i < 16)%nat -> be2me_32 h block.[i] = M.[i]) ->
  hsk_sha256_process_block h H block = zip_with (fun x y => u32 (x + y)) H (fips_rounds S H 64).
Proof.
  intros Hb. unfold hsk_sha256_process_block. f_equal. rewrite take_ge by lia.
  assert (H1 := st_ok_phase1 h block Hb).
  set (st := fold_left (ROUND_1_16 h block) (seq 0 16) (H, replicate 16 0)) in *. clearbody st.
  rewrite fold_left_3.
  apply (st_ok_phase 16) in H1; [|cbn; tauto]. apply (st_ok_phase 32) in H1; [|cbn; tauto].
  apply (st_ok_phase 48) in H1; [|cbn; tauto]. destruct H1 as (Hl & _ & Hr & _).
  by rewrite <-(proj2 (rotated_id _ Hl)).
Qed.
End Block.

(** * Words in memory *)
Lemma testbit_byte b x i : is_byte b -> 0 <= i ->
  Z.testbit (b + 256 * x) i = if i <? 8 then Z.testbit b i else Z.testbit x (i - 8).
Proof.
  cbv beta. intros Hb Hi. replace (b + 256 * x) with (Z.lor b (Z.shiftl x 8))
    by (rewrite lor_add_shiftl by lia; lia).
  rewrite Z.lor_spec, Z.shiftl_spec by done. destruct (Z.ltb_spec i 8).
  - by rewrite (Z.testbit_neg_r x) by lia; rewrite orb_false_r.
  - by rewrite (testbit_high b 8) by lia.
Qed.

Lemma zip_with_reverse {A B C} (f : A -> B -> C) l k : length l = length k ->
  zip_with f (reverse l) (reverse k) = reverse (zip_with f l k).
Proof.
  revert k; induction l as [|x l IH]; intros [|y k] Hlen; try done. injection Hlen as Hlen.
  cbn [zip_with]. rewrite !reverse_cons, zip_with_app, IH by (rewrite ?length_reverse; done). done.
Qed.

(** A bitwise operation on numbers is that operation on their bytes. *)
Section Bytewise.
Context (op : Z -> Z -> Z) (f : bool -> bool -> bool) (op_0 : op 0 0 = 0)
  (op_spec : forall x y i, 0 <= i -> Z.testbit (op x y) i = f (Z.testbit x i) (Z.testbit y i))
  (op_byte : forall x y, is_byte x -> is_byte y -> is_byte (op x y)).

Lemma le_combine_op l k : length l = length k -> bytes l -> bytes k ->
  op (le_combine l) (le_combine k) = le_combine (zip_with op l k).
Proof.
  revert k; induction l as [|x l IH]; intros [|y k] Hlen Hl Hk; try done. injection Hlen as Hlen.
  apply bytes_cons_inv in Hl as [Hx Hl]. apply bytes_cons_inv in Hk as [Hy Hk].
  cbn [le_combine zip_with]. rewrite <-IH by done. apply Z.bits_inj'; intros i Hi.
  rewrite op_spec, !testbit_byte by (done || by apply op_byte).
  destruct (Z.ltb_spec i 8); by rewrite op_spec by lia.
Qed.
Lemma be_combine_op l k : length l = length k -> bytes l -> bytes k ->
  op (be_combine l) (be_combine k) = be_combine (zip_with op l k).
Proof.
  intros Hlen Hl Hk. unfold be_combine. rewrite le_combine_op by (rewrite ?length_reverse; auto using bytes_reverse).
  by rewrite zip_with_reverse.
Qed.
Lemma memcpy_to_int_op h l k : length l = length k -> bytes l -> bytes k ->
  op (memcpy_to_int h l) (memcpy_to_int h k) = memcpy_to_int h (zip_with op l k).
Proof. destruct h; [apply le_combine_op|apply be_combine_op]. Qed.
End Bytewise.

Lemma byte_bound x : 0 <= x -> (forall i, 8 <= i -> Z.testbit x i = false) -> is_byte x.
Proof.
  intros Hx Hb. cbv beta. replace x with (x mod 2 ^ 8); [apply Z.mod_pos_bound; lia|].
  apply Z.bits_inj'; intros i Hi. destruct (Z.lt_ge_cases i 8).
  - by rewrite Z.mod_pow2_bits_low.
  - by rewrite Z.mod_pow2_bits_high, Hb by lia.
Qed.
Ltac byte_op := cbv beta; intros ? ? ? ?; apply byte_bound;
  [first [rewrite Z.land_nonneg|rewrite Z.lor_nonneg|rewrite Z.lxor_nonneg]; lia
  |intros; rewrite ?Z.land_spec, ?Z.lor_spec, ?Z.lxor_spec, !(testbit_high _ 8) by lia; reflexivity].
Lemma land_byte : forall x y, is_byte x -> is_byte y -> is_byte (Z.land x y).
Proof. byte_op. Qed.
Lemma lor_byte : forall x y, is_byte x -> is_byte y -> is_byte (Z.lor x y).
Proof. byte_op. Qed.
Lemma lxor_byte : forall x y, is_byte x -> is_byte y -> is_byte (Z.lxor x y).
Proof. byte_op. Qed.

Definition land_bytes := memcpy_to_int_op Z.land andb eq_refl (fun x y i _ => Z.land_spec x y i) land_byte.
Definition lor_bytes := memcpy_to_int_op Z.lor orb eq_refl (fun x y i _ => Z.lor_spec x y i) lor_byte.
Definition lxor_bytes := memcpy_to_int_op Z.lxor xorb eq_refl (fun x y i _ => Z.lxor_spec x y i) lxor_byte.

Lemma bswap_32_spec l : bytes_n 4 l -> bswap_32 (le_combine l) = be_combine l.
Proof.
  intros [Hl Hb]. destruct l as [|a [|b [|c [|d [|]]]]]; try done.
  apply bytes_cons_inv in Hb as [Ha Hb]. apply bytes_cons_inv in Hb as [Hb' Hb].
  apply bytes_cons_inv in Hb as [Hc Hb]. apply bytes_cons_inv in Hb as [Hd _].
  assert (E1 : u32 (Z.shiftl (le_combine [a; b; c; d]) 8) = memcpy_to_int Little [0; a; b; c])
    by (unfold u32; rewrite Z.shiftl_mul_pow2 by lia; cbn; dlia).
  assert (E2 : Z.shiftr (le_combine [a; b; c; d]) 8 = memcpy_to_int Little [b; c; d; 0])
    by (rewrite Z.shiftr_div_pow2 by lia; cbn; dlia).
  assert (Hm : forall x, is_byte x -> Z.land x 255 = x)
    by (intros x Hx; change 255 with (2 ^ 8 - 1); rewrite land_ones_mod, Z.mod_small by (cbv beta in *; lia); done).
  assert (B : forall x y z w, is_byte x -> is_byte y -> is_byte z -> is_byte w -> bytes [x; y; z; w])
    by (intros; by repeat apply bytes_cons; try apply bytes_nil).
  unfold bswap_32. rewrite E1, E2.
  change 0xFF00FF00 with (memcpy_to_int Little [0; 255; 0; 255]).
  change 0x00FF00FF with (memcpy_to_int Little [255; 0; 255; 0]).
  rewrite !land_bytes by (done || by apply B). cbn [zip_with]. rewrite !Z.land_0_r, !Hm by done.
  rewrite lor_bytes by (done || by apply B). cbn [zip_with]. rewrite !Z.lor_0_r, !Z.lor_0_l by done.
  assert (E3 : Z.shiftr (memcpy_to_int Little [b; a; d; c]) 16 = memcpy_to_int Little [d; c; 0; 0])
    by (rewrite Z.shiftr_div_pow2 by lia; cbn; dlia).
  assert (E4 : u32 (Z.shiftl (memcpy_to_int Little [b; a; d; c]) 16) = memcpy_to_int Little [0; 0; b; a])
    by (unfold u32; rewrite Z.shiftl_mul_pow2 by lia; cbn; dlia).
  rewrite E3, E4, lor_bytes by (done || by apply B). cbn [zip_with]. by rewrite !Z.lor_0_r, !Z.lor_0_l.
Qed.

Lemma be2me_load h l : bytes_n 4 l -> be2me_32 h (memcpy_to_int h l) = be_combine l.
Proof. intros Hl. destruct h; [by apply bswap_32_spec|done]. Qed.
Lemma be2me_store h v : in32 v -> memcpy_of_int h 4 (be2me_32 h v) = be_split 4 v.
Proof.
  intros Hv. destruct h; [|done]. cbn [memcpy_of_int be2me_32]. unfold be_split.
  rewrite <-(Z.mod_small v (2 ^ 32)) at 1 by done. change (2 ^ 32) with (256 ^ Z.of_nat 4).
  rewrite <-le_combine_split, bswap_32_spec by (split; [done|apply bytes_le_split]). unfold be_combine.
  rewrite <-(le_split_combine (reverse (le_split 4 v))) at 2 by apply bytes_reverse, bytes_le_split. done.
Qed.
Lemma memcpy_of_to_int h l : bytes_n 4 l -> memcpy_of_int h 4 (memcpy_to_int h l) = l.
Proof. intros [<- Hb]. destruct h; [by apply le_split_combine|by apply be_split_combine]. Qed.

Lemma bytes_word mem i : bytes_n 64 mem -> (i < 16)%nat -> bytes_n 4 (take 4 (drop (4 * i) mem)).
Proof.
  intros [Hl Hb] Hi. split; [rewrite length_take, length_drop; lia|]. by apply bytes_take, bytes_drop.
Qed.

(** A chaining value. *)
Definition chain_ok (H : list Z) : Prop := length H = 8%nat /\ Forall in32 H.

Lemma process_block_fips h H mem : chain_ok H -> bytes_n 64 mem ->
  hsk_sha256_process_block h H (words_at h mem) = fips_block H mem.
Proof.
  intros [Hl H32] Hm. apply process_block_spec; [by rewrite length_map| |done..|].
  - apply Forall_map, Forall_forall. intros i Hi%list_elem_of_In%in_seq. cbn [compose].
    destruct (bytes_word mem i Hm ltac:(lia)) as [Hw Hb].
    assert (Hr := be_combine_range _ Hb). by rewrite Hw in Hr.
  - intros i Hi. unfold words_at. rewrite !nth_lookup, !list_lookup_fmap, lookup_seq_lt by done.
    by apply be2me_load, bytes_word.
Qed.
Lemma zip_add_in32 l k : Forall in32 (zip_with (fun x y => u32 (x + y)) l k).
Proof.
  revert k; induction l as [|x l IH]; intros [|y k]; try by apply Forall_nil_2.
  cbn [zip_with]. apply Forall_cons_2; [apply u32_range|apply IH].
Qed.
Lemma fips_block_ok H b : chain_ok H -> chain_ok (fips_block H b).
Proof.
  intros [Hl H32]. unfold fips_block. assert (Hr : forall W, length (fips_rounds W H 64) = 8%nat).
  { intros W. apply (fold_left_seq_inv (fun _ st => length st = 8%nat) _ 0 64); [done|].
    intros i st _ Hst. by destruct st as [|v0 [|v1 [|v2 [|v3 [|v4 [|v5 [|v6 [|v7 [|]]]]]]]]]. }
  split; [rewrite length_zip_with, Hl, Hr; done|].
  apply zip_add_in32.
Qed.

(** * One byte at a time *)
Definition feed (st : list Z * list Z) (b : Z) : list Z * list Z :=
  let '(H, p) := st in
  if decide (length p = 63%nat) then (fips_block H (p ++ [b]), []) else (H, p ++ [b]).

Lemma sha_feed_fits H p l : (length p + length l < 64)%nat -> fold_left feed l (H, p) = (H, p ++ l).
Proof.
  revert p; induction l as [|b l IH]; intros p Hl; [by rewrite app_nil_r|].
  cbn [fold_left feed length] in *. rewrite decide_False by lia.
  rewrite IH by (rewrite length_app; cbn; lia). by rewrite <-(assoc_L (++)).
Qed.
Lemma sha_feed_full H p l : (length p + length l = 64)%nat -> (0 < length l)%nat ->
  fold_left feed l (H, p) = (fips_block H (p ++ l), []).
Proof.
  intros Hl H0. destruct (exists_last (l := l)) as (l' & b & ->); [intros ->; cbn in H0; lia|].
  rewrite length_app in Hl. cbn [length] in Hl.
  rewrite fold_left_app, sha_feed_fits by lia. cbn [fold_left feed].
  rewrite decide_True by (rewrite length_app; lia). by rewrite <-(assoc_L (++)).
Qed.

(** The context after [n] bytes that leave the chaining value [st.1] and the rest [st.2]. *)
Definition sha_inv (n : nat) (ctx : hsk_sha256_ctx) (st : list Z * list Z) : Prop :=
  bytes_n 64 (sha_message ctx) /\ sha_hash ctx = st.1 /\ chain_ok st.1 /\
  sha_length ctx = u64 (Z.of_nat n) /\ length st.2 = (n mod 64)%nat /\
  take (length st.2) (sha_message ctx) = st.2 /\ sha_digest_length ctx = hsk_sha256_hash_size.

Lemma bytes_memcpy_at mem off l : bytes_n 64 mem -> bytes l -> (off + length l <= 64)%nat ->
  bytes_n 64 (memcpy_at mem off l).
Proof.
  intros [Hl Hb] Hs Ho. split; [rewrite length_memcpy_at; lia|]. unfold memcpy_at.
  by rewrite !bytes_app; auto using bytes_take, bytes_drop.
Qed.
Lemma memcpy_at_0 mem l : length l = length mem -> memcpy_at mem 0 l = l.
Proof. intros Hl. unfold memcpy_at. rewrite drop_ge by lia. by rewrite app_nil_r. Qed.

Lemma update_loop_spec fuel h p ctx msg ctx' rest :
  (length msg <= fuel)%nat -> bytes msg -> bytes_n 64 (sha_message ctx) -> chain_ok (sha_hash ctx) ->
  sha256_update_loop fuel h p ctx msg = (ctx', rest) ->
  fold_left feed msg (sha_hash ctx, []) = (sha_hash ctx', rest) /\
  bytes_n 64 (sha_message ctx') /\ chain_ok (sha_hash ctx') /\ bytes rest /\ (length rest < 64)%nat /\
  sha_length ctx' = sha_length ctx /\ sha_digest_length ctx' = sha_digest_length ctx.
Proof.
  revert p ctx msg; induction fuel as [|fuel IH]; intros p ctx msg Hf Hb Hm Hc.
  { intros [= <- <-]. destruct msg; [|cbn in Hf; lia]. split_and!; cbn; done || lia. }
  cbn [sha256_update_loop]. unfold hsk_sha256_block_size.
  destruct (Nat.leb_spec 64 (length msg)) as [Hle|Hlt].
  2: { intros [= <- <-]. rewrite sha_feed_fits by (cbn; lia). by split_and!. }
  assert (Ht : bytes_n 64 (take 64 msg)) by (split; [rewrite length_take; lia|by apply bytes_take]).
  assert (Hp : forall m, bytes_n 64 m ->
    sha256_update_loop fuel h (p + Z.of_nat 64) (process h (set_message ctx m) (take 64 msg)) (drop 64 msg) = (ctx', rest) -> 
    fold_left feed msg (sha_hash ctx, []) = (sha_hash ctx', rest) /\
    bytes_n 64 (sha_message ctx') /\ chain_ok (sha_hash ctx') /\ bytes rest /\ (length rest < 64)%nat /\
    sha_length ctx' = sha_length ctx /\ sha_digest_length ctx' = sha_digest_length ctx).
  { intros m Hm' Hr. apply IH in Hr; [|rewrite length_drop; lia|by apply bytes_drop|done|].
    - cbn [process set_message sha_hash sha_length sha_digest_length] in Hr.
      rewrite process_block_fips in Hr by done. destruct Hr as [Hr Hrest]. split; [|exact Hrest].
      rewrite <-(take_drop 64 msg) at 1; rewrite fold_left_app, sha_feed_full by (rewrite length_take; cbn [length]; lia). done.
    - cbn [process set_message sha_hash]. rewrite process_block_fips by done. by apply fips_block_ok. }
  destruct (IS_ALIGNED_32 p).
  - intros Hr. apply (Hp (sha_message ctx)); [done|]. by destruct ctx.
  - rewrite memcpy_at_0 by (destruct Ht, Hm; lia). intros Hr. by apply (Hp (take 64 msg)).
Qed.

Lemma feed_length l : forall H p, (length p < 64)%nat ->
  length (fold_left feed l (H, p)).2 = ((length p + length l) mod 64)%nat.
Proof.
  induction l as [|b l IH]; intros H p Hp; cbn [fold_left feed snd length].
  - rewrite Nat.add_0_r. by rewrite Nat.mod_small.
  - destruct (decide _) as [He|He].
    + rewrite IH by (cbn; lia). cbn [length]. rewrite He. nlia.
    + rewrite IH by (rewrite length_app; cbn; lia). rewrite length_app. cbn [length]. f_equal. lia.
Qed.

(** The loop and the leftovers. *)
Definition update_tail (h : endian) (p : Z) (ctx : hsk_sha256_ctx) (msg : list Z) : hsk_sha256_ctx :=
  let '(ctx, msg) := sha256_update_loop (length msg) h p ctx msg in
  if (length msg =? 0)%nat then ctx
  else set_message ctx (memcpy_at (sha_message ctx) 0 msg).

Lemma update_tail_spec n h p ctx msg :
  bytes msg -> bytes_n 64 (sha_message ctx) -> chain_ok (sha_hash ctx) ->
  sha_length ctx = u64 (Z.of_nat n) -> sha_digest_length ctx = hsk_sha256_hash_size ->
  (n mod 64 = length msg mod 64)%nat ->
  sha_inv n (update_tail h p ctx msg) (fold_left feed msg (sha_hash ctx, [])).
Proof.
  intros Hb Hm Hc Hl Hd Hn. unfold update_tail.
  destruct (sha256_update_loop _ _ _ _ _) as [ctx' rest] eqn:E.
  apply update_loop_spec in E as (Hf & Hm' & Hc' & Hr & Hlt & Hl' & Hd'); [|done..].
  assert (Hlen := feed_length msg (sha_hash ctx) [] ltac:(cbn; lia)).
  rewrite Hf in Hlen |- *. cbn [snd length Nat.add] in Hlen. rewrite <-Hn in Hlen.
  destruct (Nat.eqb_spec (length rest) 0) as [H0|H0].
  - destruct rest; [|done]. split_and!; cbn [fst snd]; try apply Hm'; try apply Hc'; (done || congruence).
  - assert (Hmc : bytes_n 64 (memcpy_at (sha_message ctx') 0 rest)) by (apply bytes_memcpy_at; [done..|lia]).
    split_and!; cbn [fst snd set_message sha_message sha_hash sha_length sha_digest_length]; try (done || congruence).
    apply (take_memcpy_at (sha_message ctx') 0 rest). destruct Hm'. lia.
Qed.

Lemma land_63 n : Z.to_nat (Z.land (u64 (Z.of_nat n)) 63) = (n mod 64)%nat.
Proof. change 63 with (2 ^ 6 - 1). rewrite land_ones_mod by lia. unfold u64. nlia. Qed.

Lemma hsk_sha256_update_spec n h p ctx st msg : bytes msg -> sha_inv n ctx st ->
  sha_inv (n + length msg) (hsk_sha256_update h p ctx msg) (fold_left feed msg st).
Proof.
  intros Hb (Hm & Hh & Hc & Hl & Hlen & Htk & Hd). destruct st as [H q]. cbn [fst snd] in *.
  unfold hsk_sha256_update. rewrite Hl, land_63, <-Hlen. unfold hsk_sha256_block_size. rewrite Hd.
  assert (Hnew : u64 (u64 (Z.of_nat n) + Z.of_nat (length msg)) = u64 (Z.of_nat (n + length msg)))
    by (rewrite Nat2Z.inj_add; apply Zplus_mod_idemp_l).
  rewrite Hnew. assert (Hq : (length q < 64)%nat) by (rewrite Hlen; apply Nat.mod_upper_bound; lia).
  destruct (Nat.eqb_spec (length q) 0) as [H0|H0]; cbn [negb andb].
  - destruct q; [|done].
    assert (Ht := update_tail_spec (n + length msg) h p
      (mk_sha256_ctx (sha_message ctx) (u64 (Z.of_nat (n + length msg))) (sha_hash ctx) hsk_sha256_hash_size) msg).
    cbn [sha_hash sha_message sha_length sha_digest_length] in Ht. rewrite Hh in Ht |- *.
    apply Ht; try done. cbn [length] in Hlen.
nlia.
  - set (left := (64 - length q)%nat). destruct (Nat.ltb_spec (length msg) left) as [Hlt|Hge].
    + rewrite (firstn_all msg), sha_feed_fits by lia.
      assert (Hmc : bytes_n 64 (memcpy_at (sha_message ctx) (length q) msg)) by (apply bytes_memcpy_at; [done..|lia]).
      split_and!; cbn [fst snd set_message sha_message sha_hash sha_length sha_digest_length]; try done.
      * rewrite length_app. nlia.
      * rewrite length_app, take_memcpy_at by (destruct Hm; lia). by rewrite Htk.
    + cbn [set_message sha_message sha_length sha_digest_length]. set (mem := memcpy_at _ _ _).
      assert (Hmem : mem = q ++ take left msg).
      { rewrite <-Htk. unfold mem, memcpy_at. rewrite (drop_ge (sha_message ctx)), app_nil_r; [by rewrite Htk|].
        rewrite length_take. destruct Hm. lia. }
      assert (Hbm : bytes_n 64 mem) by (apply bytes_memcpy_at; [done|by apply bytes_take|rewrite length_take; lia]).
      set (ctx1 := process h _ mem).
      assert (H1 : sha_hash ctx1 = fips_block H mem)
        by (unfold ctx1; cbn [process sha_hash set_message]; rewrite Hh; by apply process_block_fips).
      assert (Ht := update_tail_spec (n + length msg) h (p + Z.of_nat left) ctx1 (drop left msg)).
      assert (Hf : fold_left feed msg (H, q) = fold_left feed (drop left msg) (fips_block H mem, [])).
      { rewrite <-(take_drop left msg) at 1. rewrite fold_left_app, sha_feed_full, <-Hmem; [done|rewrite length_take; lia..]. }
      rewrite H1 in Ht. rewrite Hf. apply Ht; try done; [by apply bytes_drop|by apply fips_block_ok|rewrite length_drop; nlia].
Qed.

(** * The final block *)
Lemma read_memcpy_at mem off l : (off + length l <= length mem)%nat ->
  take (length l) (drop off (memcpy_at mem off l)) = l.
Proof.
  intros Hl. unfold memcpy_at. rewrite drop_app_length' by (rewrite length_take; lia).
  by rewrite take_app_length.
Qed.
Lemma memcpy_at_twice mem off l k : (off + length l <= length mem)%nat -> length l = length k ->
  memcpy_at (memcpy_at mem off l) off k = memcpy_at mem off k.
Proof.
  intros Hl Hk. unfold memcpy_at. f_equal; [|f_equal].
  - rewrite take_app_le, take_take by (rewrite length_take; lia). f_equal. lia.
  - rewrite (assoc_L (++)), drop_app_length' by (rewrite length_app, length_take; lia). by rewrite Hk.
Qed.

Lemma length_memcpy_of_int h n v : length (memcpy_of_int h n v) = n.
Proof. destruct h; [apply length_le_split|apply length_be_split]. Qed.
Lemma bytes_store_word h i w mem : bytes_n 64 mem -> (i < 16)%nat -> bytes_n 64 (store_word h i w mem).
Proof.
  intros Hm Hi. apply bytes_memcpy_at; [done|destruct h; [apply bytes_le_split|apply bytes_be_split]|].
  rewrite length_memcpy_of_int. lia.
Qed.
Lemma take_store_word h i w mem : bytes_n 64 mem -> (i < 16)%nat ->
  take (4 * S i) (store_word h i w mem) = take (4 * i) mem ++ memcpy_of_int h 4 w.
Proof.
  intros [Hl _] Hi. unfold store_word.
  rewrite <-(take_memcpy_at mem (4 * i) (memcpy_of_int h 4 w)) by (rewrite length_memcpy_of_int; lia).
  f_equal. rewrite length_memcpy_of_int. lia.
Qed.

Lemma zero_words_spec h i n mem : bytes_n 64 mem -> (i <= n <= 16)%nat ->
  bytes_n 64 (zero_words h i n mem) /\
  take (4 * n) (zero_words h i n mem) = take (4 * i) mem ++ replicate (4 * (n - i)) 0.
Proof.
  intros Hm Hi. unfold zero_words.
  assert (HP := fold_left_seq_inv (fun j m => bytes_n 64 m /\
    take (4 * j) m = take (4 * i) mem ++ replicate (4 * (j - i)) 0) (fun m j => store_word h j 0 m) i (n - i) mem).
  replace (i + (n - i))%nat with n in HP by lia. apply HP.
  - split; [done|]. by rewrite Nat.sub_diag, app_nil_r.
  - intros j m Hj [Hb Ht]. split; [by apply bytes_store_word; [|lia]|].
    rewrite take_store_word, Ht by (done || lia). rewrite <-(assoc_L (++)). f_equal.
    replace (memcpy_of_int h 4 0) with (replicate 4 0) by (by destruct h).
    rewrite <-replicate_add. f_equal. lia.
Qed.

(** The end mark, word by word. *)
Definition mark_mask (r : nat) : list Z := replicate r 255 ++ replicate (4 - r) 0.
Definition mark_bit (r : nat) : list Z := replicate r 0 ++ [0x80] ++ replicate (3 - r) 0.

Lemma mark_words h r : (r < 4)%nat ->
  le2me_32 h (2 ^ 32 - 1 - u32 (Z.shiftl 0xFFFFFFFF (Z.of_nat r * 8))) = memcpy_to_int h (mark_mask r) /\
  le2me_32 h (u32 (Z.shiftl 0x80 (Z.of_nat r * 8))) = memcpy_to_int h (mark_bit r) /\
  bytes_n 4 (mark_mask r) /\ bytes_n 4 (mark_bit r).
Proof.
  intros Hr. destruct r as [|[|[|[|r]]]], h; try lia;
    (split; [vm_compute; reflexivity|split; [vm_compute; reflexivity|split; apply (bool_decide_unpack _); vm_compute; exact I]]).
Qed.
Lemma mark_bytes l r : bytes_n 4 l -> (r < 4)%nat ->
  zip_with Z.lxor (zip_with Z.land l (mark_mask r)) (mark_bit r) = take r l ++ [0x80] ++ replicate (3 - r) 0.
Proof.
  intros [Hl Hb] Hr. destruct l as [|a [|b [|c [|d [|]]]]]; try done.
  apply bytes_cons_inv in Hb as [Ha Hb]. apply bytes_cons_inv in Hb as [Hb' Hb].
  apply bytes_cons_inv in Hb as [Hc Hb]. apply bytes_cons_inv in Hb as [Hd _].
  assert (Hm : forall x, 0 <= x < 256 -> Z.land x 255 = x)
    by (intros x Hx; change 255 with (2 ^ 8 - 1); rewrite land_ones_mod, Z.mod_small by lia; done).
  destruct r as [|[|[|[|r]]]]; try lia; cbn -[Z.land Z.lxor];
    rewrite ?Hm, ?Z.land_0_r, ?Z.lxor_0_r, ?Z.lxor_0_l by done; done.
Qed.

Lemma zip_with_bytes op l k : length l = length k -> (forall x y, is_byte x -> is_byte y -> is_byte (op x y)) ->
  bytes_n 4 l -> bytes_n 4 k -> bytes_n 4 (zip_with op l k).
Proof.
  intros Hlen Hop [Hl Hb] [Hk Hbk]. split; [rewrite length_zip_with; lia|]. clear Hl Hk.
  revert k Hlen Hbk; induction l as [|x l IH]; intros [|y k] Hlen Hbk; try apply bytes_nil.
  apply bytes_cons_inv in Hb as [Hx Hb]. apply bytes_cons_inv in Hbk as [Hy Hbk].
  cbn [zip_with]. apply bytes_cons; [by apply Hop|by apply IH; [|injection Hlen|]].
Qed.

Lemma mark_spec h mem q : bytes_n 64 mem -> (length q < 64)%nat -> take (length q) mem = q ->
  let i := (length q / 4)%nat in let r := (length q mod 4)%nat in
  let m1 := store_word h i (Z.land (load_word h mem i)
    (le2me_32 h (2 ^ 32 - 1 - u32 (Z.shiftl 0xFFFFFFFF (Z.of_nat r * 8))))) mem in
  let m2 := store_word h i (Z.lxor (load_word h m1 i) (le2me_32 h (u32 (Z.shiftl 0x80 (Z.of_nat r * 8))))) m1 in
  bytes_n 64 m2 /\ take (4 * S i) m2 = q ++ [0x80] ++ replicate (3 - r) 0.
Proof.
  intros Hm Hq Ht i r. assert (Hi : (i < 16)%nat) by (subst i; nlia).
  assert (Hr : (r < 4)%nat) by (subst r; nlia). destruct (mark_words h r Hr) as (-> & -> & B1 & B2).
  set (l := take 4 (drop (4 * i) mem)). assert (Hl : bytes_n 4 l) by by apply bytes_word.
  assert (Ha := zip_with_bytes Z.land l (mark_mask r) (eq_trans (proj1 Hl) (eq_sym (proj1 B1))) land_byte Hl B1).
  assert (Hx := zip_with_bytes Z.lxor _ (mark_bit r) (eq_trans (proj1 Ha) (eq_sym (proj1 B2))) lxor_byte Ha B2).
  assert (E1 : load_word h mem i = memcpy_to_int h l) by done.
  cbn zeta. rewrite E1, land_bytes by first [exact (proj2 Hl)|exact (proj2 B1)|exact (eq_trans (proj1 Hl) (eq_sym (proj1 B1)))].
  set (m1 := store_word h i _ mem). assert (Hm1 : bytes_n 64 m1) by by apply bytes_store_word.
  assert (E2 : m1 = memcpy_at mem (4 * i) (zip_with Z.land l (mark_mask r)))
    by (unfold m1, store_word; by rewrite memcpy_of_to_int).
  assert (E3 : load_word h m1 i = memcpy_to_int h (zip_with Z.land l (mark_mask r))).
  { unfold load_word. rewrite E2, <-(proj1 Ha). rewrite read_memcpy_at; [done|]. destruct Ha, Hm. lia. }
  rewrite E3, lxor_bytes by first [exact (proj2 Ha)|exact (proj2 B2)|exact (eq_trans (proj1 Ha) (eq_sym (proj1 B2)))].
  rewrite mark_bytes in Hx |- * by done. split; [by apply bytes_store_word|].
  rewrite take_store_word, memcpy_of_to_int by done.
  replace (take (4 * i) m1) with (take (4 * i) mem).
  2: { rewrite E2. unfold memcpy_at. rewrite take_app_le, take_take by (rewrite length_take; destruct Hm; lia). f_equal. lia. }
  rewrite (assoc_L (++)). f_equal. unfold l. rewrite take_take. replace (r `min` 4)%nat with r by lia.
  rewrite take_take_drop, <-Ht. f_equal. subst i r. nlia.
Qed.

(** What follows the message in the padded message. *)
Definition pad_suffix (n : nat) : list Z :=
  [0x80] ++ replicate (Z.to_nat ((55 - Z.of_nat n) mod 64)) 0 ++ be_split 8 (8 * Z.of_nat n).

Lemma length_words n : be_split 4 (u32 (Z.shiftr (u64 (Z.of_nat n)) 29)) ++
  be_split 4 (u32 (Z.shiftl (u64 (Z.of_nat n)) 3)) = be_split 8 (8 * Z.of_nat n).
Proof.
  apply be_combine_inj; [by rewrite length_app, !length_be_split|apply bytes_app; split; apply bytes_be_split|apply bytes_be_split|].
  rewrite be_combine_app, !be_combine_split, length_be_split. unfold u32, u64.
  rewrite Z.shiftr_div_pow2, Z.shiftl_mul_pow2 by lia.
  change (256 ^ Z.of_nat 4) with (2 ^ 32). change (256 ^ Z.of_nat 8) with (2 ^ 64). rewrite !Z.mod_mod by lia. dlia.
Qed.

(** Zeros and the length fill the second part of the last block. *)
Lemma last_block h i mem n : bytes_n 64 mem -> (i <= 14)%nat ->
  let m := zero_words h i 14 mem in
  let m := store_word h 14 (be2me_32 h (u32 (Z.shiftr (u64 (Z.of_nat n)) 29))) m in
  let m := store_word h 15 (be2me_32 h (u32 (Z.shiftl (u64 (Z.of_nat n)) 3))) m in
  bytes_n 64 m /\ m = take (4 * i) mem ++ replicate (4 * (14 - i)) 0 ++ be_split 8 (8 * Z.of_nat n).
Proof.
  intros Hm Hi. cbn zeta. destruct (zero_words_spec h i 14 mem Hm ltac:(lia)) as [Hz Ht].
  set (m1 := store_word h 14 _ _). assert (H1 : bytes_n 64 m1) by by apply bytes_store_word; [|lia].
  set (m2 := store_word h 15 _ _). assert (H2 : bytes_n 64 m2) by by apply bytes_store_word; [|lia].
  split; [done|]. rewrite <-(take_ge m2 (4 * 16)) by (destruct H2; lia). unfold m2.
  rewrite take_store_word by (done || lia). change (4 * 15)%nat with (4 * S 14)%nat. unfold m1.
  rewrite take_store_word, Ht by (done || lia). rewrite !be2me_store by apply u32_range.
  by rewrite <-!(assoc_L (++)), length_words.
Qed.

Lemma zeros_app a b l : replicate a 0 ++ replicate b 0 ++ l = replicate (a + b) 0 ++ l.
Proof. by rewrite (assoc_L (++)), replicate_add. Qed.

Lemma take_sha_digest h H : chain_ok H ->
  take (Z.to_nat hsk_sha256_hash_size) (concat (map (memcpy_of_int h 4) H)) = concat (map (memcpy_of_int h 4) H).
Proof.
  intros [Hl _]. apply take_ge. rewrite length_concat, map_map.
  rewrite (map_ext _ (fun _ => 4%nat)) by apply length_memcpy_of_int.
  by destruct H as [|v0 [|v1 [|v2 [|v3 [|v4 [|v5 [|v6 [|v7 [|]]]]]]]]].
Qed.
Lemma process_last n h i H mem : bytes_n 64 mem -> (i <= 14)%nat -> chain_ok H ->
  let B := take (4 * i) mem ++ replicate (4 * (14 - i)) 0 ++ be_split 8 (8 * Z.of_nat n) in
  let m := store_word h 15 (be2me_32 h (u32 (Z.shiftl (u64 (Z.of_nat n)) 3)))
    (store_word h 14 (be2me_32 h (u32 (Z.shiftr (u64 (Z.of_nat n)) 29))) (zero_words h i 14 mem)) in
  hsk_sha256_process_block h H (words_at h m) = fips_block H B /\ chain_ok (fips_block H B) /\ length B = 64%nat.
Proof.
  intros Hmem Hi Hc B m. destruct (last_block h i mem n Hmem Hi) as [Hb E]. fold B m in E, Hb.
  rewrite process_block_fips by done. rewrite E. split; [done|]. split; [by apply fips_block_ok|].
  rewrite <-E. apply Hb.
Qed.

(** The digest comes out of the chaining value after the padding. *)
Lemma final_hash n h to_p from_p ctx st result : sha_inv n ctx st ->
  exists H, fold_left feed (pad_suffix n) st = (H, []) /\ chain_ok H /\
    (hsk_sha256_final h to_p from_p ctx result).2 =
      be32_copy h to_p result 0 from_p (concat (map (memcpy_of_int h 4) H)).
Proof.
  intros (Hm & Hh & Hc & Hl & Hlen & Htk & Hd). destruct st as [H q]. cbn [fst snd] in *.
  assert (Hq : (length q < 64)%nat) by (rewrite Hlen; apply Nat.mod_upper_bound; lia).
  assert (Hidx : Z.to_nat (Z.shiftr (Z.land (u32 (u64 (Z.of_nat n))) 63) 2) = (length q / 4)%nat).
  { change 63 with (2 ^ 6 - 1). rewrite land_ones_mod, Z.shiftr_div_pow2, Hlen by lia. unfold u32, u64. nlia. }
  assert (Hsh : Z.land (u32 (u64 (Z.of_nat n))) 3 = Z.of_nat (length q mod 4)).
  { change 3 with (2 ^ 2 - 1). rewrite land_ones_mod, Hlen by lia. unfold u32, u64. nlia. }
  destruct (mark_spec h (sha_message ctx) q Hm Hq Htk) as [Hm2 Ht2].
  unfold hsk_sha256_final. rewrite Hl, Hidx, Hsh.
  set (m2 := store_word h _ _ (store_word h _ _ _)) in *. clearbody m2.
  unfold pad_suffix. destruct (Nat.ltb_spec 14 (S (length q / 4))) as [Hlt|Hge].
  - destruct (zero_words_spec h (S (length q / 4)) 16 m2 Hm2 ltac:(nlia)) as [Hz Hz'].
    rewrite take_ge in Hz' by (destruct Hz; lia).
    cbn [process set_message sha_message sha_length sha_hash sha_digest_length].
    rewrite Hh, (process_block_fips h H _ Hc Hz), Hd, Hl.
    destruct (process_last n h 0 (fips_block H (zero_words h (S (length q / 4)) 16 m2)) _ Hz ltac:(lia) (fips_block_ok _ _ Hc))
      as (-> & Hc' & HB). eexists. split; [|split; [exact Hc'|by rewrite take_sha_digest]].
    set (r := (length q mod 4)%nat) in *. set (j := S (length q / 4)) in *.
    assert (Hx : zero_words h j 16 m2 = q ++ [0x80] ++ replicate (63 - length q) 0).
    { rewrite Hz', Ht2, <-!(assoc_L (++)), <-replicate_add. do 3 f_equal. subst r j. nlia. }
    replace (Z.to_nat ((55 - Z.of_nat n) mod 64)) with (63 - length q + 56)%nat by nlia.
    rewrite replicate_add, <-(assoc_L (++)), (assoc_L (++) [0x80]), fold_left_app, sha_feed_full, <-Hx
      by (cbn [length app]; rewrite ?length_replicate; lia).
    rewrite sha_feed_full by (cbn [length]; rewrite ?length_app, ?length_replicate, ?length_be_split; lia). done.
  - destruct (process_last n h (S (length q / 4)) H m2 Hm2 Hge Hc) as (E & Hc' & HB).
    cbn [process set_message sha_message sha_length sha_hash sha_digest_length].
    rewrite Hh, Hd, Hl, E. eexists. split; [|split; [exact Hc'|by rewrite take_sha_digest]].
    rewrite Ht2 in HB |- *. rewrite <-!(assoc_L (++)), zeros_app in HB |- *.
    set (r := (length q mod 4)%nat) in *. set (j := S (length q / 4)) in *.
    replace (Z.to_nat ((55 - Z.of_nat n) mod 64)) with (3 - r + 4 * (14 - j))%nat by (subst r j; nlia).
    rewrite sha_feed_full; [done| |cbn; lia]. by rewrite <-length_app.
Qed.

(** * The digest as bytes *)
Lemma swap_word l : bytes_n 4 l -> memcpy_of_int Little 4 (bswap_32 (le_combine l)) = reverse l.
Proof.
  intros Hl. rewrite bswap_32_spec by done. destruct Hl as [Hl Hb]. cbn [memcpy_of_int]. unfold be_combine.
  assert (E := le_split_combine (reverse l) (bytes_reverse _ Hb)). by rewrite length_reverse, Hl in E.
Qed.

Lemma length_words_8 (ws : list (list Z)) : length ws = 8%nat -> Forall (bytes_n 4) ws -> length (concat ws) = 32%nat.
Proof.
  intros Hl Hw. do 8 (destruct ws as [|? ws]; [done|]). destruct ws; [|done].
  repeat (apply Forall_cons in Hw as [[? ?] Hw]). cbn [concat]. rewrite !length_app. cbn. lia.
Qed.
Lemma word_at (ws : list (list Z)) j : Forall (bytes_n 4) ws -> (j < length ws)%nat ->
  take 4 (drop (4 * j) (concat ws)) = nth j ws [] /\
  take (4 * S j) (concat (map reverse ws)) = take (4 * j) (concat (map reverse ws)) ++ reverse (nth j ws []).
Proof.
  intros Hw. revert j; induction Hw as [|w ws [Hl Hb] Hw IH]; intros j Hj; [cbn in Hj; lia|].
  destruct j as [|j]; cbn [concat map nth].
  - rewrite Nat.mul_0_r, drop_0, take_0. split; [by apply take_app_length'|].
    cbn [app]. apply take_app_length'. rewrite length_reverse. lia.
  - destruct (IH j) as [H1 H2]; [cbn [length] in Hj; lia|]. split.
    + replace (4 * S j)%nat with (length w + 4 * j)%nat by lia. by rewrite drop_app_add.
    + replace (4 * S (S j))%nat with (length (reverse w) + 4 * S j)%nat by (rewrite length_reverse; lia).
      replace (4 * S j)%nat with (length (reverse w) + 4 * j)%nat at 2 by (rewrite length_reverse; lia).
      by rewrite !take_app_add, H2, (assoc_L (++)).
Qed.

Lemma swap_copy_words to_p to from_p (ws : list (list Z)) :
  length ws = 8%nat -> Forall (bytes_n 4) ws -> length to = 32%nat ->
  swap_copy_str_to_u32 to_p to 0 from_p (concat ws) = concat (map reverse ws).
Proof.
  intros Hl Hw Ht. assert (Hc := length_words_8 ws Hl Hw). unfold swap_copy_str_to_u32. rewrite Hc.
  destruct (_ =? 0).
  - assert (HP := fold_left_seq_inv (fun j t => length t = 32%nat /\ take (4 * j) t = take (4 * j) (concat (map reverse ws)))
      (fun to j => memcpy_at to (0 + 4 * j) (memcpy_of_int Little 4 (bswap_32 (load_word Little (concat ws) j)))) 0 8 to).
    destruct HP as [H1 H2]; [done| |].
    + intros j t Hj [H1 H2]. destruct (word_at ws j Hw ltac:(lia)) as [Ew Et].
      assert (Hwj : bytes_n 4 (nth j ws [])) by (apply (Forall_nth (bytes_n 4)); [done|lia]).
      unfold load_word. cbn [memcpy_to_int Nat.add]. rewrite Ew, swap_word by done.
      assert (Hrl : length (reverse (nth j ws [])) = 4%nat) by (rewrite length_reverse; apply Hwj).
      split; [rewrite length_memcpy_at; lia|].
      rewrite Et, <-H2, <-(take_memcpy_at t (4 * j) (reverse (nth j ws []))) by lia. f_equal. lia.
    + rewrite !take_ge in H2; [exact H2| |lia].
      rewrite length_words_8; [lia|by rewrite length_map|].
      apply Forall_map. eapply Forall_impl; [exact Hw|]. intros w [Hwl Hwb].
      split; [by rewrite length_reverse|by apply bytes_reverse].
  - clear Hc. do 8 (destruct ws as [|? ws]; [done|]). destruct ws; [|done]. clear Hl.
    repeat (apply Forall_cons in Hw as [[? _] Hw]). clear Hw.
    repeat match goal with H : length ?l = 4%nat |- _ =>
      do 4 (destruct l as [|? l]; [discriminate H|]); destruct l; [clear H|discriminate H] end.
    do 32 (destruct to as [|? to]; [discriminate Ht|]). destruct to; [reflexivity|discriminate Ht].
Qed.

Lemma be32_copy_spec h to_p to from_p H : chain_ok H -> length to = 32%nat ->
  be32_copy h to_p to 0 from_p (concat (map (memcpy_of_int h 4) H)) = concat (map (be_split 4) H).
Proof.
  intros [Hl _] Ht. destruct h.
  - cbn [be32_copy memcpy_of_int]. rewrite swap_copy_words; [by rewrite map_map|by rewrite length_map| |done].
    apply Forall_map, Forall_true. intros x. split; [apply length_le_split|apply bytes_le_split].
  - apply memcpy_at_0. rewrite length_words_8; [done|by rewrite length_map|].
    apply Forall_map, Forall_true. intros x. split; [apply length_be_split|apply bytes_be_split].
Qed.

(** * Theorems *)
Lemma updates_spec h parts : forall n ctx st, Forall (fun p => bytes (snd p)) parts -> sha_inv n ctx st ->
  sha_inv (n + length (concat (map snd parts)))
    (fold_left (fun ctx part => hsk_sha256_update h (fst part) ctx (snd part)) parts ctx)
    (fold_left feed (concat (map snd parts)) st).
Proof.
  induction parts as [|[p m] parts IH]; intros n ctx st Hp Hi; cbn [map concat fold_left snd fst].
  - by rewrite Nat.add_0_r.
  - apply Forall_cons in Hp as [Hm Hp]. rewrite length_app, Nat.add_assoc, fold_left_app.
    apply IH; [done|]. by apply hsk_sha256_update_spec.
Qed.

Lemma fips_blocks_feed n : forall H l, length l = (64 * n)%nat -> fold_left feed l (H, []) = (fips_blocks n H l, []).
Proof.
  induction n as [|n IH]; intros H l Hl; [by destruct l|].
  cbn [fips_blocks]. rewrite <-(take_drop 64 l) at 1.
  rewrite fold_left_app, sha_feed_full by (cbn [length]; rewrite ?length_take; lia).
  apply IH. rewrite length_drop. lia.
Qed.

Definition sha_of (msg : list Z) (ctx : hsk_sha256_ctx) : Prop :=
  sha_inv (length msg) ctx (fold_left feed msg (HSK_SHA_256_H0, [])).

Lemma sha_of_init ctx : bytes_n 64 (sha_message ctx) -> sha_of [] (hsk_sha256_init ctx).
Proof.
  intros Hg. split_and!; try done; try apply Hg. cbn. apply (bool_decide_unpack _). vm_compute. exact I.
Qed.
Lemma sha_of_update h p ctx msg data : bytes data -> sha_of msg ctx -> sha_of (msg ++ data) (hsk_sha256_update h p ctx data).
Proof. intros Hd Hi. unfold sha_of. rewrite length_app, fold_left_app. by apply hsk_sha256_update_spec. Qed.

Lemma final_digest h to_p from_p ctx msg result : sha_of msg ctx -> length result = 32%nat ->
  (hsk_sha256_final h to_p from_p ctx result).2 = fips_sha256 msg.
Proof.
  intros Hi Hr. destruct (final_hash _ h to_p from_p _ _ result Hi) as (H & Hf & Hc & ->).
  rewrite be32_copy_spec by done. unfold fips_sha256. do 2 f_equal.
  rewrite <-fold_left_app in Hf. change (msg ++ pad_suffix (length msg)) with (fips_pad msg) in Hf.
  assert (Hlen : (length (fips_pad msg) mod 64 = 0)%nat).
  { assert (Hl := feed_length (fips_pad msg) HSK_SHA_256_H0 [] ltac:(cbn; lia)). by rewrite Hf in Hl. }
  rewrite (fips_blocks_feed (length (fips_pad msg) / 64)) in Hf by nlia. congruence.
Qed.

Lemma final_message h to_p from_p ctx result : bytes_n 64 (sha_message ctx) ->
  bytes_n 64 (sha_message (hsk_sha256_final h to_p from_p ctx result).1).
Proof.
  intros Hm. unfold hsk_sha256_final.
  assert (Hi : (Z.to_nat (Z.shiftr (Z.land (u32 (sha_length ctx)) 63) 2) < 16)%nat).
  { change 63 with (2 ^ 6 - 1). rewrite land_ones_mod, Z.shiftr_div_pow2 by lia. nlia. }
  set (m := store_word h _ _ (store_word h _ _ _)).
  assert (Hm2 : bytes_n 64 m) by (unfold m; by repeat apply bytes_store_word). clearbody m.
  match goal with |- context [(14 <? ?j)%nat] => destruct (Nat.ltb_spec 14 j) as [Hlt|Hge] end;
    cbn [fst set_message process sha_message]; repeat (apply bytes_store_word; [|lia]);
    repeat (apply zero_words_spec; [|lia]); done.
Qed.

Lemma bytes_fips_sha256 msg : bytes (fips_sha256 msg).
Proof.
  unfold fips_sha256, bytes. apply Forall_concat, Forall_map, Forall_true. intros x. apply bytes_be_split.
Qed.

Lemma sha_digest_bytes msg : bytes_n 32 (fips_sha256 msg).
Proof.
  split; [|apply bytes_fips_sha256]. unfold fips_sha256.
  assert (Hc : forall n H l, chain_ok H -> chain_ok (fips_blocks n H l)).
  { intros n. induction n as [|n IH]; intros H l HH; [done|]. cbn [fips_blocks]. by apply IH, fips_block_ok. }
  destruct (Hc (length (fips_pad msg) / 64)%nat HSK_SHA_256_H0 (fips_pad msg)) as [Hl _].
  { split; [done|]. apply (bool_decide_unpack _). vm_compute. exact I. }
  apply length_words_8; [by rewrite length_map|]. apply Forall_map, Forall_true. intros x.
  split; [apply length_be_split|apply bytes_be_split].
Qed.

(** C33: SHA-256 is FIPS 180-4. However the input is cut into calls of
    [hsk_sha256_update], whatever the alignment of the buffers and of the
    destination, the byte order of the host and the contents of the uninitialised
    buffer, [hsk_sha256_final] writes the digest of the standard, computed by padding
    the whole message (its length modulo [2 ^ 64] bits), expanding each block
    to the 64 words of its schedule and running the 64 rounds. *)
Theorem sha256_correct (h : endian) (garbage : list Z) (parts : list (Z * list Z)) (to_p from_p : Z)
    (result : list Z) :
  bytes_n 64 garbage -> Forall (fun p => bytes (snd p)) parts -> length result = 32%nat ->
  sha256_parts h garbage parts to_p from_p result = fips_sha256 (concat (map snd parts)).
Proof.
  intros Hg Hp Hr. apply final_digest; [|done].
  apply (updates_spec h parts 0); [done|]. by apply (sha_of_init (mk_sha256_ctx garbage 0 [] 0)).
Qed.

Lemma sha256_correct_witness :
  bytes_n 64 (replicate 64 7) /\ Forall (fun p => bytes (snd p)) [(0, [0x61]); (1, [0x62; 0x63])] /\
  be_combine (fips_sha256 [0x61; 0x62; 0x63]) = sha256_abc.
Proof.
  assert (Hb : bytes_n 64 (replicate 64 7)) by (apply (bool_decide_unpack _); vm_compute; exact I).
  assert (Hp : Forall (fun p : Z * list Z => bytes (snd p)) [(0, [0x61]); (1, [0x62; 0x63])])
    by (apply (bool_decide_unpack _); vm_compute; exact I).
  split; [exact Hb|split; [exact Hp|]].
  assert (E := sha256_correct Big (replicate 64 7) [(0, [0x61]); (1, [0x62; 0x63])] 0 0 (replicate 32 9) Hb Hp eq_refl).
  cbn [map snd concat app] in E. rewrite <-E. exact (proj2 sha256_fips_abc).
Defined.
