(* ===== verification/Hkdf.v ===== *)
(** The helpers of [src/reference/hnsd-reference/src/hash.c] that are built on SHA-256:
    single and double hashes, HMAC and the two-block HKDF of the encrypted transport. *)

From S2P Require Import Prelude Bio Blake2b Sha256 Sha256Props.

Section Hkdf.
(** The host, what uninitialised memory holds, and the addresses of the buffers of a call. *)
Context (h : endian) (garbage : list Z) (addr : nat -> Z).

Definition sha256_new : hsk_sha256_ctx := hsk_sha256_init (mk_sha256_ctx garbage 0 [] 0).
Definition sha256_feed (i : nat) (ctx : hsk_sha256_ctx) (data : list Z) : hsk_sha256_ctx :=
  hsk_sha256_update h (addr i) ctx data.
(** A destination is written over: [old] is what it held. *)
Definition sha256_end (ctx : hsk_sha256_ctx) (old : list Z) : hsk_sha256_ctx * list Z :=
  hsk_sha256_final h (addr 8) (addr 9) ctx old.

Definition hsk_hash_sha256 (data hash : list Z) : list Z :=
  let ctx := sha256_new in
  let ctx := sha256_feed 0 ctx data in
  snd (sha256_end ctx hash).

Definition hsk_hash_hash256 (data hash : list Z) : list Z :=
  let ctx := sha256_new in
  let ctx := sha256_feed 0 ctx data in
  let '(ctx, hash) := sha256_end ctx hash in
  let ctx := hsk_sha256_init ctx in
  let ctx := sha256_feed 1 ctx hash in
  snd (sha256_end ctx hash).

(** [pad[i] = key[i] ^ c] for the key, then [pad[i] = c]. *)
Definition hmac_pad (c : Z) (key pad : list Z) : list Z :=
  let pad := fold_left (fun pad i => <[i := Z.lxor key.[i] c]> pad) (seq 0 (length key)) pad in
  fold_left (fun pad i => <[i := c]> pad) (seq (length key) (64 - length key)) pad.

Definition hsk_hash_sha256_hmac (data key mac : list Z) : list Z :=
  let key := if (64 <? length key)%nat then hsk_hash_sha256 key (take 32 garbage) else key in
  let pad := hmac_pad 0x36 key garbage in
  let inner := sha256_feed 2 sha256_new pad in
  let pad := hmac_pad 0x5c key pad in
  let outer := sha256_feed 2 sha256_new pad in
  let inner := sha256_feed 3 inner data in
  let '(inner, mac) := sha256_end inner mac in
  let outer := sha256_feed 4 outer mac in
  snd (sha256_end outer mac).

(** The rounds after the first: [buf] becomes the last block, the info and the counter. *)
Definition hkdf_round (prk : list Z) (st : list Z * list Z * list Z) (i : nat) : list Z * list Z * list Z :=
  let '(buf, out, okm) := st in
  let buf := memcpy_at buf 0 out in
  let buf := <[(length buf - 1)%nat := u8 (buf.[length buf - 1] + 1)]> buf in
  let out := hsk_hash_sha256_hmac buf prk out in
  (buf, out, memcpy_at okm (i * 32) (take 32 out)).

(** The outputs [h1] and [h2]. *)
Definition hsk_hash_hkdf (secret salt info : list Z) : outcome (list Z * list Z) :=
  let* _ := oassert (length info <=? 512)%nat in
  let prk := hsk_hash_sha256_hmac secret salt (take 32 garbage) in
  let buf_len := (32 + length info + 1)%nat in
  let buf := take buf_len (concat (replicate buf_len garbage)) in
  let buf := memcpy_at buf 32 info in
  let buf := <[(buf_len - 1)%nat := 1]> buf in
  let out := hsk_hash_sha256_hmac (drop 32 buf) prk (take 32 garbage) in
  let okm := memcpy_at garbage 0 out in
  let '(buf, out, okm) := fold_left (hkdf_round prk) [1%nat] (buf, out, okm) in
  Ret (take 32 okm, take 32 (drop 32 okm)).
End Hkdf.

(** * The standards *)

(** RFC 2104 with SHA-256. *)
Definition rfc2104_key (key : list Z) : list Z :=
  let key := if (64 <? length key)%nat then fips_sha256 key else key in
  key ++ replicate (64 - length key) 0.
Definition rfc2104 (key data : list Z) : list Z :=
  let K := rfc2104_key key in
  let ipad := map (fun b => Z.lxor b 0x36) K in
  let opad := map (fun b => Z.lxor b 0x5c) K in
  fips_sha256 (opad ++ fips_sha256 (ipad ++ data)).

(** RFC 5869: extract, and [n] blocks of expand. *)
Definition rfc5869_extract (salt ikm : list Z) : list Z := rfc2104 salt ikm.
Fixpoint rfc5869_expand (n : nat) (i : Z) (prk prev info : list Z) : list (list Z) :=
  match n with
  | O => []
  | S n' => let t := rfc2104 prk (prev ++ info ++ [i]) in t :: rfc5869_expand n' (i + 1) prk t info
  end.

(** Test vectors: RFC 4231, case 2, and RFC 5869, case 1. *)
Example hmac_rfc4231_2 :
  be_combine (hsk_hash_sha256_hmac Little (replicate 64 7) (fun _ => 1)
    [0x77;0x68;0x61;0x74;0x20;0x64;0x6f;0x20;0x79;0x61;0x20;0x77;0x61;0x6e;0x74;0x20;0x66;0x6f;0x72;0x20;
     0x6e;0x6f;0x74;0x68;0x69;0x6e;0x67;0x3f] [0x4a; 0x65; 0x66; 0x65] (replicate 32 0)) =
  0x5bdcc146bf60754e6a042426089575c75a003f089d2739839dec58b964ec3843.
Proof. vm_compute. reflexivity. Qed.

Definition hkdf_sample_info : list Z := map (fun i => 0xf0 + Z.of_nat i) (seq 0 10).
Definition hkdf_sample_salt : list Z := map Z.of_nat (seq 0 13).
Example hkdf_rfc5869_1 :
  match hsk_hash_hkdf Big (replicate 64 7) (fun i => Z.of_nat i) (replicate 22 0x0b) hkdf_sample_salt hkdf_sample_info with
  | Ret (h1, h2) => be_combine (h1 ++ take 10 h2)
  | _ => 0
  end = 0x3cb25f25faacd57a90434f64d0362f2a2d2d0a90cf1a5a4c5db02d56ecc4c5bf34007208d5b887185865.
Proof. vm_compute. reflexivity. Qed.

(** * Correctness *)
Lemma fold_insert_map (f : nat -> Z) s n (pad : list Z) : (s + n <= length pad)%nat ->
  fold_left (fun pad i => <[i := f i]> pad) (seq s n) pad = take s pad ++ map f (seq s n) ++ drop (s + n) pad.
Proof.
  revert s pad; induction n as [|n IH]; intros s pad Hl.
  { rewrite Nat.add_0_r. cbn [seq map fold_left app]. by rewrite take_drop. }
  cbn [seq map fold_left]. rewrite IH by (rewrite length_insert; lia).
  rewrite (take_S_r _ _ (f s)) by (apply list_lookup_insert_eq; lia).
  rewrite take_insert_ge, drop_insert_lt by lia. rewrite <-(assoc_L (++)), Nat.add_succ_r. done.
Qed.
Lemma map_nth_seq (l : list Z) (g : Z -> Z) : map (fun i => g l.[i]) (seq 0 (length l)) = map g l.
Proof.
  apply list_eq. intros i. rewrite !list_lookup_fmap. destruct (decide (i < length l)%nat) as [Hi|Hi].
  - rewrite lookup_seq_lt by done. cbn. destruct (lookup_lt_is_Some_2 l i Hi) as [x Hx].
    by rewrite Hx, nth_lookup, Hx.
  - rewrite lookup_ge_None_2, (lookup_ge_None_2 l i); [done|lia|rewrite length_seq; lia].
Qed.
Lemma hmac_pad_spec c key pad : length pad = 64%nat -> (length key <= 64)%nat ->
  hmac_pad c key pad = map (fun b => Z.lxor b c) key ++ replicate (64 - length key) c.
Proof.
  intros Hp Hk. unfold hmac_pad. rewrite (fold_insert_map (fun i => Z.lxor key.[i] c)) by lia.
  rewrite (map_nth_seq key (fun x => Z.lxor x c)), take_0. cbn [app Nat.add]. rewrite (fold_insert_map (fun _ => c))
    by (rewrite length_app, length_map, length_drop; lia).
  rewrite take_app_length' by (by rewrite length_map). f_equal.
  rewrite drop_ge, app_nil_r by (rewrite length_app, length_map, length_drop; lia).
  generalize (length key). intros n. clear. generalize n at 1. generalize (64 - n)%nat. clear.
  induction n as [|n IH]; intros s; [done|]. cbn [seq map replicate]. by rewrite IH.
Qed.

Section Correct.
Context (h : endian) (garbage : list Z) (addr : nat -> Z) (Hg : bytes_n 64 garbage).

Abbreviation hash := (hsk_hash_sha256 h garbage addr).
Abbreviation hmac := (hsk_hash_sha256_hmac h garbage addr).

Lemma length_fips_sha256 msg : length (fips_sha256 msg) = 32%nat.
Proof.
  unfold fips_sha256. rewrite length_concat, map_map, (map_ext _ (fun _ => 4%nat)) by apply length_be_split.
  assert (Hc : forall n H l, length H = 8%nat -> length (fips_blocks n H l) = 8%nat).
  { intros n; induction n as [|n IH]; intros H l HH; [done|]. cbn [fips_blocks]. apply IH.
    unfold fips_block. rewrite length_zip_with, HH. clear -HH.
    match goal with |- context [fips_rounds ?W _ _] => assert (Hl : length (fips_rounds W H 64) = 8%nat) end; [|by rewrite Hl].
    apply (fold_left_seq_inv (fun _ st => length st = 8%nat) _ 0 64); [done|].
    intros i st _ Hst. by destruct st as [|v0 [|v1 [|v2 [|v3 [|v4 [|v5 [|v6 [|v7 [|]]]]]]]]]. }
  specialize (Hc (length (fips_pad msg) / 64)%nat HSK_SHA_256_H0 (fips_pad msg) eq_refl).
  by destruct (fips_blocks _ _ _) as [|v0 [|v1 [|v2 [|v3 [|v4 [|v5 [|v6 [|v7 [|]]]]]]]]].
Qed.
Lemma fips_sha256_ok msg : bytes_n 32 (fips_sha256 msg).
Proof. split; [apply length_fips_sha256|apply bytes_fips_sha256]. Qed.

Lemma sha256_new_of : sha_of [] (sha256_new garbage).
Proof. by apply sha_of_init. Qed.
Lemma sha256_feed_of i ctx msg data : bytes data -> sha_of msg ctx ->
  sha_of (msg ++ data) (sha256_feed h addr i ctx data).
Proof. apply sha_of_update. Qed.
Lemma sha256_end_of ctx msg old : sha_of msg ctx -> length old = 32%nat ->
  exists ctx', sha256_end h addr ctx old = (ctx', fips_sha256 msg) /\ bytes_n 64 (sha_message ctx').
Proof.
  intros Hs Ho. unfold sha256_end. assert (Hd := final_digest h (addr 8%nat) (addr 9%nat) ctx msg old Hs Ho).
  assert (Hm := final_message h (addr 8%nat) (addr 9%nat) ctx old (proj1 Hs)).
  destruct (hsk_sha256_final _ _ _ _ _) as [ctx' d]. cbn [fst snd] in *. subst d. eauto.
Qed.

Lemma hash_spec data old : bytes data -> length old = 32%nat -> hash data old = fips_sha256 data.
Proof.
  intros Hd Ho. unfold hsk_hash_sha256.
  destruct (sha256_end_of _ _ old (sha256_feed_of 0 _ _ data Hd sha256_new_of) Ho) as (ctx' & -> & _). done.
Qed.
Lemma hash256_spec data old : bytes data -> length old = 32%nat ->
  hsk_hash_hash256 h garbage addr data old = fips_sha256 (fips_sha256 data).
Proof.
  intros Hd Ho. unfold hsk_hash_hash256.
  destruct (sha256_end_of _ _ old (sha256_feed_of 0 _ _ data Hd sha256_new_of) Ho) as (ctx' & -> & Hm). cbn [app].
  destruct (fips_sha256_ok data) as [Hl Hb].
  destruct (sha256_end_of _ _ (fips_sha256 data) (sha256_feed_of 1 _ _ (fips_sha256 data) Hb (sha_of_init ctx' Hm)) Hl)
    as (ctx2 & -> & _). done.
Qed.

Lemma bytes_map_lxor c l : is_byte c -> bytes l -> bytes (map (fun b => Z.lxor b c) l).
Proof. intros Hc Hl. apply Forall_map. eapply Forall_impl; [exact Hl|]. intros b Hb. by apply lxor_byte. Qed.
Lemma hmac_pad_key c key pad : length pad = 64%nat -> (length key <= 64)%nat ->
  hmac_pad c key pad = map (fun b => Z.lxor b c) (key ++ replicate (64 - length key) 0).
Proof.
  intros Hp Hk. rewrite hmac_pad_spec by done. rewrite map_app. f_equal.
  generalize (64 - length key)%nat. intros n. induction n as [|n IH]; [done|]. cbn [replicate map]. by rewrite <-IH, Z.lxor_0_l.
Qed.

Lemma hmac_key_ok key : bytes key ->
  let k := if (64 <? length key)%nat then hash key (take 32 garbage) else key in
  (length k <= 64)%nat /\ bytes k /\ k ++ replicate (64 - length k) 0 = rfc2104_key key.
Proof.
  intros Hk. cbn zeta. unfold rfc2104_key. destruct (Nat.ltb_spec 64 (length key)); [|by split_and!].
  rewrite hash_spec by (done || (rewrite length_take; destruct Hg; lia)).
  destruct (fips_sha256_ok key) as [Hl Hb]. split_and!; [lia|done..].
Qed.

Lemma hmac_spec data key old : bytes data -> bytes key -> length old = 32%nat ->
  hmac data key old = rfc2104 key data.
Proof.
  intros Hd Hk Ho. unfold hsk_hash_sha256_hmac. destruct (hmac_key_ok key Hk) as (Hl & Hb & Hr).
  set (k := if (64 <? length key)%nat then _ else _) in *. clearbody k. destruct Hg as [Hg64 Hgb].
  assert (Hbr : bytes (rfc2104_key key)) by (rewrite <-Hr; apply bytes_app; split; [done|by apply bytes_replicate]).
  rewrite (hmac_pad_key 0x36 k garbage), Hr by done.
  assert (Hlen : length (map (fun b => Z.lxor b 0x36) (rfc2104_key key)) = 64%nat)
    by (rewrite length_map, <-Hr, length_app, length_replicate; lia).
  rewrite (hmac_pad_key 0x5c k), Hr by done.
  assert (Hi := sha256_feed_of 2 _ _ _ (bytes_map_lxor 0x36 _ ltac:(by cbn) Hbr) sha256_new_of).
  assert (Hu := sha256_feed_of 2 _ _ _ (bytes_map_lxor 0x5c _ ltac:(by cbn) Hbr) sha256_new_of).
  cbn [app] in Hi, Hu. apply (sha256_feed_of 3 _ _ data Hd) in Hi.
  destruct (sha256_end_of _ _ old Hi Ho) as (c1 & -> & _).
  destruct (fips_sha256_ok (map (fun b => Z.lxor b 0x36) (rfc2104_key key) ++ data)) as [Hl1 Hb1].
  apply (sha256_feed_of 4 _ _ _ Hb1) in Hu.
  by destruct (sha256_end_of _ _ _ Hu Hl1) as (c2 & -> & _).
Qed.
Lemma rfc2104_ok key data : bytes_n 32 (rfc2104 key data).
Proof. apply fips_sha256_ok. Qed.

(** The buffer of the expansion: a gap of 32 bytes, the info and the counter. *)
Lemma insert_last (l : list Z) x y : <[length l := y]> (l ++ [x]) = l ++ [y].
Proof. rewrite insert_app_r_alt by lia. by rewrite Nat.sub_diag. Qed.
Lemma expand_buffer (buf info : list Z) : length buf = (32 + length info + 1)%nat ->
  exists gap, length gap = 32%nat /\ <[(32 + length info)%nat := 1]> (memcpy_at buf 32 info) = gap ++ info ++ [1].
Proof.
  intros Hl. exists (take 32 buf). split; [rewrite length_take; lia|]. unfold memcpy_at.
  assert (Hd : length (drop (32 + length info) buf) = 1%nat) by (rewrite length_drop; lia).
  destruct (drop (32 + length info) buf) as [|x [|]]; try done. rewrite !(assoc_L (++)).
  rewrite <-(insert_last _ x 1). f_equal. rewrite length_app, length_take. lia.
Qed.
Lemma length_filler n : length (take n (concat (replicate n garbage))) = n.
Proof.
  rewrite length_take. enough (n <= length (concat (replicate n garbage)))%nat by lia.
  induction n as [|n IH]; [cbn; lia|]. cbn [replicate concat]. rewrite length_app, (proj1 Hg). lia.
Qed.

Lemma hkdf_round_spec prk gap info c out okm : bytes prk -> bytes info -> length gap = 32%nat -> bytes_n 32 out -> 0 <= c < 255 ->
  length okm = 64%nat ->
  let t := rfc2104 prk (out ++ info ++ [c + 1]) in
  hkdf_round h garbage addr prk (gap ++ info ++ [c], out, okm) 1 = (out ++ info ++ [c + 1], t, take 32 okm ++ t).
Proof.
  intros Hp Hi Hgap Ho Hc Hk t. unfold hkdf_round.
  assert (E1 : memcpy_at (gap ++ info ++ [c]) 0 out = out ++ info ++ [c]).
  { unfold memcpy_at. rewrite take_0. cbn [app Nat.add]. f_equal. apply drop_app_length'. destruct Ho; lia. }
  rewrite E1. assert (E2 : (length (out ++ info ++ [c]) - 1)%nat = length (out ++ info))
    by (rewrite !length_app; cbn [length]; lia).
  rewrite E2, (assoc_L (++)), insert_last, app_nth2, Nat.sub_diag by lia. cbn [nth]. rewrite u8_small by lia.
  rewrite <-(assoc_L (++)). rewrite hmac_spec; [|apply bytes_app; split; [apply Ho|apply bytes_app; split;
    [done|apply bytes_cons; [lia|apply bytes_nil]]]|done|apply Ho].
  fold t. assert (Ht : length t = 32%nat) by apply rfc2104_ok. f_equal. rewrite take_ge by lia.
  unfold memcpy_at. cbn [Nat.mul Nat.add]. rewrite drop_ge, app_nil_r by lia. done.
Qed.
End Correct.

(** The two blocks of the expansion. *)
Lemma hkdf_spec (h : endian) (garbage : list Z) (addr : nat -> Z) (secret salt info : list Z) :
  bytes_n 64 garbage -> bytes secret -> bytes salt -> bytes info -> (length info <= 512)%nat ->
  let prk := rfc2104 salt secret in let t1 := rfc2104 prk (info ++ [1]) in
  hsk_hash_hkdf h garbage addr secret salt info = Ret (t1, rfc2104 prk (t1 ++ info ++ [2])).
Proof.
  intros Hg Hs Hsalt Hi Hl. cbn zeta.
  assert (Hg32 : bytes_n 32 (take 32 garbage)) by (split; [rewrite length_take; destruct Hg; lia|apply bytes_take, Hg]).
  unfold hsk_hash_hkdf. rewrite (proj2 (Nat.leb_le _ _)) by done. cbn [oassert obind].
  rewrite (hmac_spec h garbage addr Hg secret salt) by (done || apply Hg32).
  set (prk := rfc2104 salt secret). assert (Hp : bytes_n 32 prk) by by eapply rfc2104_ok.
  replace (32 + length info + 1 - 1)%nat with (32 + length info)%nat by lia.
  destruct (expand_buffer _ info (length_filler garbage addr Hg (32 + length info + 1))) as (gap & Hgap & ->).
  rewrite drop_app_length' by done.
  assert (Hb1 : bytes (info ++ [1])) by (apply bytes_app; split; [done|apply bytes_cons; [lia|apply bytes_nil]]).
  rewrite (hmac_spec h garbage addr Hg (info ++ [1]) prk) by (apply Hp || apply Hg32 || done).
  set (t1 := rfc2104 prk (info ++ [1])). assert (Ht1 : bytes_n 32 t1) by apply rfc2104_ok.
  cbn [fold_left]. rewrite (hkdf_round_spec h garbage addr Hg) by (done || apply Hp || lia || (rewrite length_memcpy_at; destruct Hg, Ht1; lia)).
  fold t1. set (t2 := rfc2104 prk (t1 ++ info ++ [1 + 1])). assert (Ht2 : bytes_n 32 t2) by apply rfc2104_ok.
  assert (Ht : take 32 (memcpy_at garbage 0 t1) = t1).
  { unfold memcpy_at. rewrite take_0. cbn [app]. apply take_app_length'. symmetry. apply Ht1. }
  rewrite Ht. f_equal. f_equal; [apply take_app_length'; symmetry; apply Ht1|].
  rewrite drop_app_length' by (symmetry; apply Ht1). rewrite take_ge; [done|]. destruct Ht2. lia.
Qed.

(** C34: the key derivation is the one of the standards. HMAC is RFC 2104 with the
    digest of FIPS 180-4 for keys and messages of any length, the double hash is the digest of the digest, and
    [hsk_hash_hkdf] returns the first two blocks of the expansion of RFC 5869 under the
    extracted key, whatever the host, the addresses and the contents of
    uninitialised memory; an info of more than 512 bytes fails the assertion. *)
Theorem hkdf_correct (h : endian) (garbage : list Z) (addr : nat -> Z) (secret salt info old : list Z) :
  bytes_n 64 garbage -> bytes secret -> bytes salt -> bytes info -> length old = 32%nat ->
  hsk_hash_sha256_hmac h garbage addr secret salt old = rfc2104 salt secret /\
  hsk_hash_hash256 h garbage addr secret old = fips_sha256 (fips_sha256 secret) /\
  hsk_hash_hkdf h garbage addr secret salt info =
    if decide (length info <= 512)%nat then
      match rfc5869_expand 2 1 (rfc5869_extract salt secret) [] info with
      | [h1; h2] => Ret (h1, h2)
      | _ => Fail
      end
    else Fault AssertFail.
Proof.
  intros Hg Hs Hsalt Hi Ho. split; [by apply hmac_spec|]. split; [by apply hash256_spec|].
  destruct (decide _) as [Hl|Hl].
  - by rewrite hkdf_spec by done.
  - unfold hsk_hash_hkdf. by rewrite (proj2 (Nat.leb_gt _ _)) by lia.
Qed.

Lemma hkdf_correct_witness :
  bytes_n 64 (replicate 64 7) /\ bytes (replicate 22 0x0b) /\ bytes hkdf_sample_salt /\ bytes hkdf_sample_info /\
  match rfc5869_expand 2 1 (rfc5869_extract hkdf_sample_salt (replicate 22 0x0b)) [] hkdf_sample_info with
  | [h1; h2] => be_combine (h1 ++ take 10 h2)
  | _ => 0
  end = 0x3cb25f25faacd57a90434f64d0362f2a2d2d0a90cf1a5a4c5db02d56ecc4c5bf34007208d5b887185865.
Proof.
  assert (H1 : bytes_n 64 (replicate 64 7)) by (apply (bool_decide_unpack _); vm_compute; exact I).
  assert (H2 : bytes (replicate 22 0x0b)) by (apply (bool_decide_unpack _); vm_compute; exact I).
  assert (H3 : bytes hkdf_sample_salt) by (apply (bool_decide_unpack _); vm_compute; exact I).
  assert (H4 : bytes hkdf_sample_info) by (apply (bool_decide_unpack _); vm_compute; exact I).
  split; [exact H1|split; [exact H2|split; [exact H3|split; [exact H4|]]]].
  assert (E := proj2 (proj2 (hkdf_correct Big (replicate 64 7) (fun i => Z.of_nat i) _ _ _ (replicate 32 0) H1 H2 H3 H4 eq_refl))).
  assert (V := hkdf_rfc5869_1). rewrite E, decide_True in V by (vm_compute; lia).
  revert V. generalize (rfc5869_expand 2 1 (rfc5869_extract hkdf_sample_salt (replicate 22 0x0b)) [] hkdf_sample_info).
  intros [|h1 [|h2 [|]]] V; exact V.
Defined.
