(* ===== verification/Dnssec.v ===== *)
(** DNSSEC signing: the section on DNSSEC of [dns.c], and [dnssec.c].

    The digest is the SHA-256 of [Sha256]; [h], [garbage] and [addr] are the host as in
    [Hkdf]. The elliptic-curve functions of [ecc.c] are the parameters [ecc_make_pubkey]
    and [ecc_sign]. Allocations are answered by [al], clocks are arguments. *)

From S2P Require Import Prelude Bio Map MapProps Sha256 Hkdf DnsName DnsRecord.

Definition HSK_DNS_SIG : Z := 24.

(** The struct behind [rr->rd] taken as one of its kinds. *)
Definition cast {A} (rd : option hsk_dns_rd_t) (f : hsk_dns_rd_t -> option A) : outcome A :=
  match rd with
  | None => Fault NullDeref
  | Some rd => match f rd with Some a => Ret a | None => wrong_cast end
  end.
Definition as_dnskey (rd : hsk_dns_rd_t) : option hsk_dns_dnskey_rd_t := match rd with RDnskey r => Some r | _ => None end.
Definition as_rrsig (rd : hsk_dns_rd_t) : option hsk_dns_rrsig_rd_t := match rd with RRrsig r => Some r | _ => None end.

(** * Key tags *)

(** The loop: [i] is the place of the next byte. *)
Fixpoint keytag_loop (data : list Z) (i : nat) (tag : Z) : Z :=
  match data with
  | [] => tag
  | ch :: data' => keytag_loop data' (S i) (u32 (tag + (if Nat.odd i then ch else u32 (Z.shiftl ch 8))))
  end.
Definition hsk_dns_dnskey_keytag (malloc_ok : bool) (rd : hsk_dns_dnskey_rd_t) : outcome Z :=
  match hsk_dns_rd_encode malloc_ok (Some (RDnskey rd)) HSK_DNS_DNSKEY with
  | Ret data =>
      let tag := keytag_loop data 0 0 in
      let tag := u32 (tag + Z.land (Z.shiftr tag 16) 0xffff) in
      Ret (Z.land tag 0xffff)
  | Fail => Ret (-1)
  | Fault f => Fault f
  end.

(** * What is signed *)

(** The signature data with the name in lower case and no signature; the struct itself
    is put back as it was. *)
Definition hsk_dns_rrsig_tbs (malloc_ok : bool) (r : hsk_dns_rrsig_rd_t) : outcome (list Z) :=
  hsk_dns_rd_encode malloc_ok
    (Some (RRrsig (mk_rrsig (rrsig_type_covered r) (rrsig_algorithm r) (rrsig_labels r) (rrsig_orig_ttl r)
       (rrsig_expiration r) (rrsig_inception r) (rrsig_key_tag r) (hsk_to_lower (rrsig_signer_name r)) [])))
    HSK_DNS_RRSIG.

(** The [switch] of [hsk_dns_sighash]: the names in the data of some types become lower case.
    The data of the obsolete type SIG, for which no struct is allocated but that of unknown
    types, is taken for the struct of RRSIG. *)
Definition lower_rd (type : Z) (rd : option hsk_dns_rd_t) : outcome (option hsk_dns_rd_t) :=
  if type =? HSK_DNS_NS then
    let* n := cast rd (fun rd => match rd with RNs n => Some n | _ => None end) in Ret (Some (RNs (hsk_to_lower n)))
  else if type =? HSK_DNS_CNAME then
    let* n := cast rd (fun rd => match rd with RCname n => Some n | _ => None end) in Ret (Some (RCname (hsk_to_lower n)))
  else if type =? HSK_DNS_SOA then
    let* r := cast rd (fun rd => match rd with RSoa r => Some r | _ => None end) in
    Ret (Some (RSoa (mk_soa (hsk_to_lower (soa_ns r)) (hsk_to_lower (soa_mbox r)) (soa_serial r) (soa_refresh r)
      (soa_retry r) (soa_expire r) (soa_minttl r))))
  else if type =? HSK_DNS_PTR then
    let* n := cast rd (fun rd => match rd with RPtr n => Some n | _ => None end) in Ret (Some (RPtr (hsk_to_lower n)))
  else if type =? HSK_DNS_MX then
    let* r := cast rd (fun rd => match rd with RMx r => Some r | _ => None end) in
    Ret (Some (RMx (mk_mx (mx_preference r) (hsk_to_lower (mx_mx r)))))
  else if (type =? HSK_DNS_SIG) || (type =? HSK_DNS_RRSIG) then
    let* r := cast rd as_rrsig in
    Ret (Some (RRrsig (mk_rrsig (rrsig_type_covered r) (rrsig_algorithm r) (rrsig_labels r) (rrsig_orig_ttl r)
      (rrsig_expiration r) (rrsig_inception r) (rrsig_key_tag r) (hsk_to_lower (rrsig_signer_name r)) (rrsig_signature r))))
  else if type =? HSK_DNS_SRV then
    let* r := cast rd (fun rd => match rd with RSrv r => Some r | _ => None end) in
    Ret (Some (RSrv (mk_srv (srv_priority r) (srv_weight r) (srv_port r) (hsk_to_lower (srv_target r)))))
  else if type =? HSK_DNS_DNAME then
    let* n := cast rd (fun rd => match rd with RDname n => Some n | _ => None end) in Ret (Some (RDname (hsk_to_lower n)))
  else Ret rd.

(** The body of the first loop of [hsk_dns_sighash]. *)
Definition raw_record (al : nat -> bool) (orig_ttl : Z) (item : hsk_dns_rr_t) : outcome (list Z) :=
  let* rr := hsk_dns_rr_clone (fun i => al (S i)) (Some item) in
  let* rd := lower_rd (rr_type rr) (rr_rd rr) in
  hsk_dns_rr_encode (al 0%nat)
    (Some (mk_rr (hsk_to_lower (rr_name rr)) (rr_type rr) (rr_class rr) orig_ttl rd)).
Fixpoint raw_records (al : nat -> nat -> bool) (orig_ttl : Z) (items : list hsk_dns_rr_t) : outcome (list (list Z)) :=
  match items with
  | [] => Ret []
  | item :: items' =>
      let* raw := raw_record (al 0%nat) orig_ttl item in
      let* raws := raw_records (fun i => al (S i)) orig_ttl items' in
      Ret (raw :: raws)
  end.

(** Past the owner name, the type, the class, the time and the length. *)
Definition raw_rdata (raw : list Z) : outcome (list Z) :=
  match hsk_dns_name_parse None raw with
  | Ret (_, d) =>
      let* _ := oassert (10 <=? length d)%nat in
      Ret (drop 10 d)
  | Fail => Fault AssertFail
  | Fault f => Fault f
  end.
Definition raw_rr_cmp (a b : list Z) : outcome Z :=
  let* xd := raw_rdata a in
  let* yd := raw_rdata b in
  let s := Nat.min (length xd) (length yd) in
  match memcmp (take s xd) (take s yd) with
  | Lt => Ret (-1)
  | Gt => Ret 1
  | Eq => Ret (if (length xd <? length yd)%nat then -1 else if (length yd <? length xd)%nat then 1 else 0)
  end.
Definition raw_rr_equal (a b : list Z) : bool :=
  if negb (length a =? length b)%nat then false else memeq a b.

(** [qsort]: stable, by insertion. *)
Fixpoint insert_raw (x : list Z) (l : list (list Z)) : outcome (list (list Z)) :=
  match l with
  | [] => Ret [x]
  | y :: l' =>
      let* c := raw_rr_cmp x y in
      if c <=? 0 then Ret (x :: y :: l')
      else let* l' := insert_raw x l' in Ret (y :: l')
  end.
Fixpoint qsort_raw (l : list (list Z)) : outcome (list (list Z)) :=
  match l with
  | [] => Ret []
  | x :: l' => let* l' := qsort_raw l' in insert_raw x l'
  end.

(** The second loop: the records that are fed to the digest. *)
Fixpoint fed_records (last : option (list Z)) (records : list (list Z)) : list (list Z) :=
  match records with
  | [] => []
  | raw :: records' =>
      if match last with Some l => raw_rr_equal raw l | None => false end then fed_records last records'
      else raw :: fed_records (Some raw) records'
  end.

Section Sign.
Context (h : endian) (garbage : list Z) (addr : nat -> Z).
Context (ecc_make_pubkey : list Z -> option (list Z)) (ecc_sign : list Z -> list Z -> option (list Z)).

Abbreviation sha_new := (sha256_new garbage).
Abbreviation sha_feed := (sha256_feed h addr 0).
Abbreviation sha_end := (fun ctx => snd (sha256_end h addr ctx (take 32 garbage))).

Definition hsk_dns_sighash (al : nat -> nat -> bool) (rrset : option (list hsk_dns_rr_t)) (sig : option hsk_dns_rr_t) :
    outcome (list Z) :=
  match rrset, sig with
  | Some (item :: items), Some sig =>
      if negb (rr_type sig =? HSK_DNS_RRSIG) then Fail
      else
        let* rrsig := cast (rr_rd sig) as_rrsig in
        if al 0%nat 0%nat then
          let* records := raw_records (fun i => al (S i)) (rrsig_orig_ttl rrsig) (item :: items) in
          let* records := qsort_raw records in
          let* data := hsk_dns_rrsig_tbs (al 0%nat 1%nat) rrsig in
          let ctx := sha_feed sha_new data in
          let ctx := fold_left sha_feed (fed_records None records) ctx in
          Ret (sha_end ctx)
        else Fail
  | _, _ => Fail
  end.

(** * Keys *)
Definition hsk_dns_dnskey_create (al : nat -> bool) (zone priv : list Z) (ksk : bool) : outcome hsk_dns_rr_t :=
  match hsk_dns_rr_create al HSK_DNS_DNSKEY with
  | None => Fail
  | Some key =>
      if al 2%nat then
        match ecc_make_pubkey priv with
        | None => Fail
        | Some pubkey =>
            if HSK_DNS_MAX_NAME <? Z.of_nat (length zone) then Fault Overread
            else Ret (mk_rr (hsk_to_lower zone) HSK_DNS_DNSKEY HSK_DNS_IN 10800
              (Some (RDnskey (mk_dnskey (Z.lor (Z.shiftl 1 8) (if ksk then 1 else 0)) 3 13 pubkey))))
        end
      else Fail
  end.

Definition hsk_dns_ds_create (al : nat -> bool) (key : option hsk_dns_rr_t) : outcome hsk_dns_rr_t :=
  match key with
  | None => Fail
  | Some key =>
      if negb (rr_type key =? HSK_DNS_DNSKEY) then Fail
      else
        match hsk_dns_rr_create al HSK_DNS_DS with
        | None => Fail
        | Some ds =>
            let* dnskey := cast (rr_rd key) as_dnskey in
            let* key_tag := hsk_dns_dnskey_keytag (al 2%nat) dnskey in
            if key_tag =? -1 then Fail
            else if al 3%nat then
              let name := hsk_to_lower (rr_name key) in
              let* data := hsk_dns_rd_encode (al 4%nat) (Some (RDnskey dnskey)) HSK_DNS_DNSKEY in
              let* (owner_len, owner) := hsk_dns_name_pack true name in
              let ctx := sha_feed sha_new (take (Z.to_nat owner_len) owner) in
              let ctx := sha_feed ctx data in
              Ret (mk_rr name HSK_DNS_DS (rr_class key) (rr_ttl key)
                (Some (RDs (mk_ds key_tag (dnskey_algorithm dnskey) 2 (sha_end ctx)))))
            else Fail
        end
  end.

(** * Signatures *)

(** Fills in the data of the signature record [sig]. *)
Definition hsk_dns_sign_rrsig (al : nat -> nat -> bool) (rrset : option (list hsk_dns_rr_t)) (sig : option hsk_dns_rr_t)
    (priv : option (list Z)) : outcome hsk_dns_rr_t :=
  match rrset, sig, priv with
  | Some (item :: items), Some sig, Some priv =>
      if negb (rr_type sig =? HSK_DNS_RRSIG) then Fail
      else
        let* r := cast (rr_rd sig) as_rrsig in
        let with_signature s :=
          mk_rr (rr_name sig) (rr_type sig) (rr_class sig) (rr_ttl sig)
            (Some (RRrsig (mk_rrsig (rr_type item) (rrsig_algorithm r) (u8 (hsk_dns_label_count (rr_name item)))
              (rr_ttl item) (rrsig_expiration r) (rrsig_inception r) (rrsig_key_tag r) (rrsig_signer_name r) s))) in
        let* hash := hsk_dns_sighash al (Some (item :: items)) (Some (with_signature [])) in
        if al 0%nat 2%nat then
          match ecc_sign priv hash with
          | None => Fail
          | Some sigbuf => Ret (with_signature sigbuf)
          end
        else Fail
  | _, _, _ => Fail
  end.

(** [now1] and [now2] are the two readings of the clock. *)
Definition hsk_dns_sign_rrset (al : nat -> nat -> bool) (now1 now2 : Z) (rrset : option (list hsk_dns_rr_t))
    (key : option hsk_dns_rr_t) (priv : option (list Z)) : outcome hsk_dns_rr_t :=
  match rrset, key, priv with
  | Some (item :: items), Some key, Some priv =>
      if negb (rr_type key =? HSK_DNS_DNSKEY) then Fail
      else
        let* dnskey := match hsk_dns_rr_create (fun i => al 0%nat (3 + i)%nat) HSK_DNS_RRSIG with
                       | None => Fail | Some _ => cast (rr_rd key) as_dnskey end in
        let* key_tag := hsk_dns_dnskey_keytag (al 0%nat 5%nat) dnskey in
        if key_tag =? -1 then Fail
        else
          hsk_dns_sign_rrsig al (Some (item :: items))
            (Some (mk_rr (hsk_to_lower (rr_name item)) HSK_DNS_RRSIG (rr_class key) (rr_ttl key)
              (Some (RRrsig (mk_rrsig 0 (dnskey_algorithm dnskey) 0 0 (u32 (now2 + 14 * 24 * 60 * 60))
                (u32 (now1 - 14 * 24 * 60 * 60)) key_tag (hsk_to_lower (rr_name key)) [])))))
            (Some priv)
  | _, _, _ => Fail
  end.

(** The list with the signature of its records of one type at the end. *)
Definition hsk_dns_sign_type (al : nat -> nat -> bool) (now1 now2 : Z) (rrs : option (list hsk_dns_rr_t)) (type : Z)
    (key : option hsk_dns_rr_t) (priv : option (list Z)) : outcome (list hsk_dns_rr_t) :=
  match rrs, key, priv with
  | Some l, Some key, Some priv =>
      if (255 <=? length l)%nat then Fail
      else if al 0%nat 6%nat then
        let rrset := filter (fun rr => rr_type rr = type) l in
        let* sig := hsk_dns_sign_rrset al now1 now2 (Some rrset) (Some key) (Some priv) in
        Ret (push_item l sig)
      else Fail
  | _, _, _ => Fail
  end.

(** * [dnssec.c]

    The keys of the root and the record that delegates to them are made once and kept. *)
Definition hsk_dnssec_ksk : list Z :=
  be_split 32 0x1c74c825c5b0f08cf6be846bfc93c423f03e3e1f6202fb2d96474b1520bbafad.
Definition hsk_dnssec_zsk : list Z :=
  be_split 32 0x54276ff8604a3494c5c76d6651f14b289c7253ba636be4bfd7969308f48da47d.

Record dnssec_keys := mk_keys {
  ksk_key : option hsk_dns_rr_t;
  zsk_key : option hsk_dns_rr_t;
  ksk_ds : option hsk_dns_rr_t;
}.
(** A result that may be [false], with the keys as they are then. *)
Definition as_result {A S} (o : outcome A) (s : S) : outcome (option A * S) :=
  match o with Ret a => Ret (Some a, s) | Fail => Ret (None, s) | Fault f => Fault f end.
Definition assert_made {A} (o : outcome A) : outcome A := match o with Fail => Fault AssertFail | _ => o end.

Definition hsk_dnssec_get_ksk (al : nat -> bool) (s : dnssec_keys) : outcome (hsk_dns_rr_t * dnssec_keys) :=
  match ksk_key s with
  | Some k => Ret (k, s)
  | None =>
      let* k := assert_made (hsk_dns_dnskey_create al [dot] hsk_dnssec_ksk true) in
      Ret (k, mk_keys (Some k) (zsk_key s) (ksk_ds s))
  end.
Definition hsk_dnssec_get_zsk (al : nat -> bool) (s : dnssec_keys) : outcome (hsk_dns_rr_t * dnssec_keys) :=
  match zsk_key s with
  | Some k => Ret (k, s)
  | None =>
      let* k := assert_made (hsk_dns_dnskey_create al [dot] hsk_dnssec_zsk false) in
      Ret (k, mk_keys (ksk_key s) (Some k) (ksk_ds s))
  end.
Definition hsk_dnssec_get_ds (al : nat -> bool) (s : dnssec_keys) : outcome (hsk_dns_rr_t * dnssec_keys) :=
  match ksk_ds s with
  | Some d => Ret (d, s)
  | None =>
      let* (k, s) := hsk_dnssec_get_ksk al s in
      let* d := assert_made (hsk_dns_ds_create (fun i => al (3 + i)%nat) (Some k)) in
      Ret (d, mk_keys (ksk_key s) (zsk_key s) (Some d))
  end.
Definition hsk_dnssec_sign_ksk (al : nat -> nat -> bool) (now1 now2 : Z) (s : dnssec_keys) (rrs : option (list hsk_dns_rr_t))
    (type : Z) : outcome (option (list hsk_dns_rr_t) * dnssec_keys) :=
  let* (k, s) := hsk_dnssec_get_ksk (fun i => al 0%nat (7 + i)%nat) s in
  as_result (hsk_dns_sign_type al now1 now2 rrs type (Some k) (Some hsk_dnssec_ksk)) s.
Definition hsk_dnssec_sign_zsk (al : nat -> nat -> bool) (now1 now2 : Z) (s : dnssec_keys) (rrs : option (list hsk_dns_rr_t))
    (type : Z) : outcome (option (list hsk_dns_rr_t) * dnssec_keys) :=
  let* (k, s) := hsk_dnssec_get_zsk (fun i => al 0%nat (7 + i)%nat) s in
  as_result (hsk_dns_sign_type al now1 now2 rrs type (Some k) (Some hsk_dnssec_zsk)) s.
End Sign.
