(* ===== verification/DnssecProps.v ===== *)
(** The properties of DNSSEC signing: what is hashed is the canonical form of a set of
    records (RFC 4034), and the records that are made. *)

From S2P Require Import Prelude Bio Blake2b Map MapProps Sha256 Sha256Props Hkdf DnsName DnsNameProps DnsLabels DnsRecord DnsCodec Dnssec.
From Stdlib Require Import Sorted.

(** * Names in lower case *)
Lemma to_lower_app a b : hsk_to_lower (a ++ b) = hsk_to_lower a ++ hsk_to_lower b.
Proof. apply List.map_app. Qed.
Lemma to_lower_idemp l : hsk_to_lower (hsk_to_lower l) = hsk_to_lower l.
Proof.
  unfold hsk_to_lower. rewrite List.map_map. apply List.map_ext. intros c.
  destruct (Z.leb_spec 0x41 c), (Z.leb_spec c 0x5a); cbn [andb];
    repeat match goal with |- context [?a <=? ?b] => destruct (Z.leb_spec a b) end; cbn [andb]; lia.
Qed.
Lemma to_lower_text ls : hsk_to_lower (text ls) = text (List.map hsk_to_lower ls).
Proof.
  assert (Hb : forall ls, hsk_to_lower (body ls) = body (List.map hsk_to_lower ls)).
  { intros ks. induction ks as [|l ks IH]; [done|]. cbn [List.map]. rewrite !body_cons, to_lower_app.
    change (hsk_to_lower (dot :: body ks)) with (dot :: hsk_to_lower (body ks)). by rewrite IH. }
  destruct ls as [|l ls]; [done|]. cbn [List.map]. rewrite !text_body by done. apply (Hb (l :: ls)).
Qed.
Lemma label_ok_lower l : label_ok l -> label_ok (hsk_to_lower l).
Proof.
  intros [Hl Hc]. split; [by unfold hsk_to_lower; rewrite List.length_map|].
  apply Forall_map. eapply Forall_impl; [exact Hc|]. intros c [Hr Hd]. unfold dot in *. cbv beta.
  unfold char_ok, dot. cbn. destruct (Z.leb_spec 0x41 c), (Z.leb_spec c 0x5a); cbn [andb]; lia.
Qed.
Lemma length_body_lower ls : length (body (List.map hsk_to_lower ls)) = length (body ls).
Proof.
  induction ls as [|l ls IH]; [done|]. cbn [List.map]. rewrite !body_cons, !length_app. cbn [length].
  rewrite IH. unfold hsk_to_lower. by rewrite List.length_map.
Qed.
Lemma name_ok_lower ls : name_ok ls -> name_ok (List.map hsk_to_lower ls).
Proof.
  intros [Hl Hb]. split; [|by rewrite length_body_lower]. apply Forall_map. eapply Forall_impl; [exact Hl|]. apply label_ok_lower.
Qed.
Lemma name_wf_lower cm n : name_wf cm n -> name_wf cm (hsk_to_lower n).
Proof.
  intros (ls & -> & Hok & Hl). exists (List.map hsk_to_lower ls).
  split; [apply to_lower_text|]. split; [by apply name_ok_lower|]. by rewrite List.length_map.
Qed.
Lemma name_size_lower cm mem n : name_wf cm n ->
  hsk_dns_name_write mem (hsk_to_lower n) None = hsk_dns_name_write mem n None.
Proof.
  intros (ls & -> & Hok & _). rewrite to_lower_text, !name_write_size by auto using name_ok_lower.
  by rewrite length_body_lower.
Qed.

(** * The canonical form of a record *)
Definition lower_data (rd : hsk_dns_rd_t) : hsk_dns_rd_t :=
  match rd with
  | RNs n => RNs (hsk_to_lower n)
  | RCname n => RCname (hsk_to_lower n)
  | RSoa r => RSoa (mk_soa (hsk_to_lower (soa_ns r)) (hsk_to_lower (soa_mbox r)) (soa_serial r) (soa_refresh r)
      (soa_retry r) (soa_expire r) (soa_minttl r))
  | RPtr n => RPtr (hsk_to_lower n)
  | RMx r => RMx (mk_mx (mx_preference r) (hsk_to_lower (mx_mx r)))
  | RRrsig r => RRrsig (mk_rrsig (rrsig_type_covered r) (rrsig_algorithm r) (rrsig_labels r) (rrsig_orig_ttl r)
      (rrsig_expiration r) (rrsig_inception r) (rrsig_key_tag r) (hsk_to_lower (rrsig_signer_name r)) (rrsig_signature r))
  | RSrv r => RSrv (mk_srv (srv_priority r) (srv_weight r) (srv_port r) (hsk_to_lower (srv_target r)))
  | RDname n => RDname (hsk_to_lower n)
  | _ => rd
  end.
(** RFC 4034, 6.2: names in lower case, the time of the signature. *)
Definition canonical (ttl : Z) (rr : hsk_dns_rr_t) : hsk_dns_rr_t :=
  mk_rr (hsk_to_lower (rr_name rr)) (rr_type rr) (rr_class rr) ttl (lower_data <$> rr_rd rr).

Lemma lower_rd_spec type rd : kind_of_type type = kind_of_rd rd -> type <> HSK_DNS_SIG ->
  lower_rd type (Some rd) = Ret (Some (lower_data rd)).
Proof.
  intros Hk Hs. unfold lower_rd.
  destruct (Z.eqb_spec type HSK_DNS_NS) as [->|N1]; [by destruct rd|].
  destruct (Z.eqb_spec type HSK_DNS_CNAME) as [->|N2]; [by destruct rd|].
  destruct (Z.eqb_spec type HSK_DNS_SOA) as [->|N3]; [by destruct rd|].
  destruct (Z.eqb_spec type HSK_DNS_PTR) as [->|N4]; [by destruct rd|].
  destruct (Z.eqb_spec type HSK_DNS_MX) as [->|N5]; [by destruct rd|].
  destruct (Z.eqb_spec type HSK_DNS_SIG) as [->|_]; [done|].
  destruct (Z.eqb_spec type HSK_DNS_RRSIG) as [->|N6]; [by destruct rd|].
  destruct (Z.eqb_spec type HSK_DNS_SRV) as [->|N7]; [by destruct rd|].
  destruct (Z.eqb_spec type HSK_DNS_DNAME) as [->|N8]; [by destruct rd|].
  cbn [orb]. do 2 f_equal. revert Hk. unfold kind_of_type.
  rewrite (proj2 (Z.eqb_neq _ _) N1), (proj2 (Z.eqb_neq _ _) N2), (proj2 (Z.eqb_neq _ _) N3), (proj2 (Z.eqb_neq _ _) N4),
    (proj2 (Z.eqb_neq _ _) N5), (proj2 (Z.eqb_neq _ _) N6), (proj2 (Z.eqb_neq _ _) N7), (proj2 (Z.eqb_neq _ _) N8).
  destruct rd; try done; repeat (case_match; try done).
Qed.
Lemma kind_lower rd : kind_of_rd (lower_data rd) = kind_of_rd rd.
Proof. by destruct rd. Qed.
Lemma rd_wf_lower cm rd : rd_wf cm rd -> rd_wf cm (lower_data rd).
Proof. destruct rd; cbn; intros; destruct_and?; split_and?; auto using name_wf_lower. Qed.
Lemma null_eq_name_lower cm n : name_wf cm n ->
  null_eq (hsk_dns_name_write no_table (hsk_to_lower n)) (hsk_dns_name_write no_table n).
Proof.
  intros Hn. split; [by eapply name_size_lower|]. intros s o. rewrite (name_size_lower cm) by done.
  destruct Hn as (ls & -> & Hok & _). rewrite name_write_size by done. by intros [= _ <-].
Qed.
Lemma rd_size_lower cm type rd : rd_wf cm rd -> kind_of_type type = kind_of_rd rd ->
  hsk_dns_rd_size (lower_data rd) type = hsk_dns_rd_size rd type.
Proof.
  intros Hw Hk. unfold hsk_dns_rd_size, dsize. enough (E : null_eq (hsk_dns_rd_write no_table (lower_data rd) type)
    (hsk_dns_rd_write no_table rd type)) by (by rewrite (proj1 E)).
  unfold hsk_dns_rd_write. rewrite Hk.
  destruct rd; cbn [lower_data kind_of_rd]; cbn [rd_wf] in Hw; destruct_and?;
    repeat apply null_eq_seq; first [by eapply null_eq_name_lower | apply null_eq_name | apply null_eq_txts | by eapply null_eq_lift].
Qed.
Lemma rr_wf_canonical cm ttl rr : rr_wf cm rr -> 0 <= ttl < 2 ^ 32 -> rr_wf cm (canonical ttl rr).
Proof.
  intros (Hn & Ht & Hc & _ & rd & s & Hrd & Hk & Hw & Hs & Hlt) Httl.
  split; [by apply name_wf_lower|]. do 3 (split; [done|]). exists (lower_data rd), s. cbn. rewrite Hrd.
  split; [done|]. split; [by rewrite kind_lower|]. split; [by apply rd_wf_lower|]. split; [|done].
  by rewrite (rd_size_lower cm).
Qed.

(** * The encoding of a record and its data *)

(** All of a record but its data. *)
Definition wire_head (ls : list (list Z)) (type class ttl : Z) : list Z :=
  (wire_labels ls ++ [0]) ++ be_split 2 type ++ be_split 2 class ++ be_split 4 ttl.
Definition wire_record (head rdata : list Z) : list Z := head ++ be_split 2 (Z.of_nat (length rdata)) ++ rdata.

Lemma dlift_emits w bs acc c : emits w bs -> dlift w (Some (acc, c)) = Ret (Z.of_nat (length bs), Some (acc ++ bs, c)).
Proof. intros E. unfold dlift. by rewrite E. Qed.

Lemma rr_encode_form rr ls : rr_wf false rr -> rr_name rr = text ls -> name_ok ls -> exists rdata,
  hsk_dns_rr_encode true (Some rr) = Ret (wire_record (wire_head ls (rr_type rr) (rr_class rr) (rr_ttl rr)) rdata) /\
  bytes rdata.
Proof.
  intros Hw Hn Hok. destruct (dencode_spec false _ _ _ _ (dcodec_rr false no_table rr Hw)) as (bs & E & Es & Hb & _).
  assert (Hw' := Hw). destruct Hw' as (_ & Ht & Hc & Httl & rd & s & Hrd & Hk & Hwf & Hs & Hlt).
  set (head := wire_head ls (rr_type rr) (rr_class rr) (rr_ttl rr)).
  destruct (dcodec_rd false no_table (rr_type rr) rd Hwf Hk) as (size & Hnone & Hrw).
  destruct (Hrw (head ++ [0; 0]) None) as (rdata & c' & Hbr & Hle & _ & Hc' & Hacc); [done..|].
  destruct (Hacc (head ++ [0; 0]) eq_refl ltac:(done)) as (Ew & _ & _).
  assert (c' = None) as -> by by apply Hc'.
  exists rdata. split; [|done]. cbn [hsk_dns_rr_encode]. cbn [hsk_dns_rr_encode] in E. rewrite E. f_equal.
  unfold dencode in E. rewrite Es in E. cbn [obind] in E. unfold dbytes in E.
  assert (Hwr : hsk_dns_rr_write no_table rr (Some ([], None)) =
    Ret (Z.of_nat (length (wire_record head rdata)), Some (wire_record head rdata, None))).
  { unfold hsk_dns_rr_write, dseq. rewrite Hn, name_write_plain by done. cbn [obind app].
    rewrite (dlift_emits _ _ _ _ (emits_u16be (rr_type rr))). cbn [obind].
    rewrite (dlift_emits _ _ _ _ (emits_u16be (rr_class rr))). cbn [obind].
    rewrite (dlift_emits _ _ _ _ (emits_u32be (rr_ttl rr))). cbn [obind]. rewrite Hrd. unfold with_length.
    replace ((((wire_labels ls ++ [0]) ++ be_split 2 (rr_type rr)) ++ be_split 2 (rr_class rr)) ++ be_split 4 (rr_ttl rr))
      with head by (unfold head, wire_head; by rewrite <-!(assoc_L (++))).
    rewrite Ew. cbn [obind].
    assert (Hsz : size = s) by (unfold hsk_dns_rd_size, dsize in Hs; rewrite Hnone in Hs; by injection Hs). subst size.
    rewrite u16_small, set_u16be_host by lia. rewrite <-(assoc_L (++) head [0; 0] rdata), take_app_length.
    rewrite (assoc_L (++) head [0; 0] rdata), drop_app_length' by (rewrite length_app; cbn [length]; lia).
    f_equal. f_equal. unfold wire_record, head, wire_head. rewrite !length_app, !length_be_split, length_wire_labels.
    cbn [length]. lia. }
  rewrite Hwr in E. cbn [obind] in E. destruct (_ <? _) in E; [done|]. by injection E.
Qed.

Lemma raw_rdata_wire ls type class ttl rdata : name_ok ls ->
  raw_rdata (wire_record (wire_head ls type class ttl) rdata) = Ret rdata.
Proof.
  intros Hok. unfold raw_rdata, wire_record, wire_head. rewrite <-!(assoc_L (++)), (assoc_L (++) (wire_labels ls)).
  change (hsk_dns_name_parse None) with (hsk_dns_name_read None). rewrite read_plain by done.
  assert (Hl : length (be_split 2 type ++ be_split 2 class ++ be_split 4 ttl ++ be_split 2 (Z.of_nat (length rdata))) = 10%nat)
    by (by rewrite !length_app, !length_be_split).
  replace (be_split 2 type ++ be_split 2 class ++ be_split 4 ttl ++ be_split 2 (Z.of_nat (length rdata)) ++ rdata)
    with ((be_split 2 type ++ be_split 2 class ++ be_split 4 ttl ++ be_split 2 (Z.of_nat (length rdata))) ++ rdata)
    by (by rewrite <-!(assoc_L (++))).
  rewrite length_app, Hl. cbn [oassert obind Nat.leb Nat.add]. by rewrite drop_app_length' by done.
Qed.

(** * The canonical order (RFC 4034, 6.3): data as left-justified octets *)
Fixpoint lex (a b : list Z) : comparison :=
  match a, b with
  | [], [] => Eq
  | [], _ => Lt
  | _, [] => Gt
  | x :: a', y :: b' => match x ?= y with Eq => lex a' b' | c => c end
  end.
Definition lex_lt (a b : list Z) : Prop := lex a b = Lt.

Lemma lex_eq a b : lex a b = Eq -> a = b.
Proof.
  revert b; induction a as [|x a IH]; intros [|y b]; cbn; try done.
  destruct (Z.compare_spec x y) as [->|?|?]; try done. intros H. f_equal. by apply IH.
Qed.
Lemma lex_refl a : lex a a = Eq.
Proof. induction a as [|x a IH]; [done|]. cbn. by rewrite Z.compare_refl. Qed.
Lemma lex_antisym a b : lex b a = CompOpp (lex a b).
Proof.
  revert b; induction a as [|x a IH]; intros [|y b]; try done. cbn. rewrite (Z.compare_antisym x y).
  destruct (x ?= y); cbn; auto.
Qed.
#[export] Instance lex_lt_trans : Transitive lex_lt.
Proof.
  unfold lex_lt. intros a. induction a as [|x a IH]; intros [|y b] [|z c]; cbn; try done.
  destruct (Z.compare_spec x y) as [->|H1|H1]; try done.
  - destruct (Z.compare_spec y z) as [->|H2|H2]; try done. apply IH.
  - intros _. destruct (Z.compare_spec y z) as [->|H2|H2]; try done; intros _;
      by rewrite (proj2 (Z.compare_lt_iff _ _)) by lia.
Qed.
#[export] Instance lex_lt_irrefl : Irreflexive lex_lt.
Proof. intros a. unfold complement, lex_lt. by rewrite lex_refl. Qed.

Lemma memcmp_lex a b :
  match memcmp (take (Nat.min (length a) (length b)) a) (take (Nat.min (length a) (length b)) b) with
  | Eq => lex a b = (length a ?= length b)%nat
  | c => lex a b = c
  end.
Proof.
  revert b; induction a as [|x a IH]; intros [|y b]; try done. cbn. specialize (IH b).
  destruct (Z.compare_spec x y) as [->|?|?]; done.
Qed.
Lemma raw_rr_cmp_lex a b x y : raw_rdata a = Ret x -> raw_rdata b = Ret y ->
  raw_rr_cmp a b = Ret (match lex x y with Lt => -1 | Eq => 0 | Gt => 1 end).
Proof.
  intros Ha Hb. unfold raw_rr_cmp. rewrite Ha, Hb. cbn [obind]. assert (H := memcmp_lex x y).
  destruct (memcmp _ _); try (by rewrite H). rewrite H.
  destruct (Nat.compare_spec (length x) (length y)) as [E|E|E].
  - rewrite (proj2 (Nat.ltb_ge _ _)), (proj2 (Nat.ltb_ge _ _)) by lia. done.
  - by rewrite (proj2 (Nat.ltb_lt _ _)) by lia.
  - rewrite (proj2 (Nat.ltb_ge _ _)) by lia. by rewrite (proj2 (Nat.ltb_lt _ _)) by lia.
Qed.

(** ** The sort and the removal of duplicates, on the data *)
Fixpoint insert_lex (x : list Z) (l : list (list Z)) : list (list Z) :=
  match l with
  | [] => [x]
  | y :: l' => match lex x y with Gt => y :: insert_lex x l' | _ => x :: y :: l' end
  end.
Definition sort_lex (l : list (list Z)) : list (list Z) := fold_right insert_lex [] l.
Fixpoint dedup (last : option (list Z)) (l : list (list Z)) : list (list Z) :=
  match l with
  | [] => []
  | x :: l' => if decide (last = Some x) then dedup last l' else x :: dedup (Some x) l'
  end.

Definition lex_le (a b : list Z) : Prop := lex a b <> Gt.
Lemma lex_le_cases a b : lex_le a b <-> a = b \/ lex_lt a b.
Proof.
  unfold lex_le, lex_lt. split.
  - destruct (lex a b) eqn:E; [left; by apply lex_eq|by right|done].
  - intros [->|E]; [by rewrite lex_refl|by rewrite E].
Qed.
#[export] Instance lex_le_trans : Transitive lex_le.
Proof.
  intros a b c. rewrite !lex_le_cases. intros [->|H1] [->|H2]; [by left|by right|by right|right].
  by transitivity b.
Qed.
Lemma elem_of_insert_lex x y l : x ∈ insert_lex y l <-> x = y \/ x ∈ l.
Proof.
  induction l as [|z l IH]; cbn; [set_solver|]. destruct (lex y z); set_solver.
Qed.
Lemma elem_of_sort_lex x l : x ∈ sort_lex l <-> x ∈ l.
Proof. induction l as [|y l IH]; [done|]. cbn. rewrite elem_of_insert_lex, IH. set_solver. Qed.
Lemma sorted_insert_lex x l : StronglySorted lex_le l -> StronglySorted lex_le (insert_lex x l).
Proof.
  induction 1 as [|y l Hs IH Hy]; cbn; [by repeat constructor|].
  assert (Hle : lex x y <> Gt -> StronglySorted lex_le (x :: y :: l)).
  { intros Hxy. constructor; [by constructor|]. constructor; [done|].
    eapply Forall_impl; [exact Hy|]. intros z Hz. by transitivity y. }
  destruct (lex x y) eqn:E; try (apply Hle; by rewrite ?E).
  constructor; [done|]. apply Forall_forall. intros z [->|Hz]%elem_of_insert_lex.
  - unfold lex_le. by rewrite lex_antisym, E.
  - by eapply Forall_forall in Hy.
Qed.
Lemma sorted_sort_lex l : StronglySorted lex_le (sort_lex l).
Proof. induction l as [|x l IH]; [constructor|]. by apply sorted_insert_lex. Qed.

(** The elements of a sorted list are each kept once. *)
Lemma dedup_spec l : forall last, StronglySorted lex_le l ->
  (forall x, last = Some x -> Forall (lex_le x) l) ->
  StronglySorted lex_lt (dedup last l) /\
  (forall x, x ∈ dedup last l <-> x ∈ l /\ last <> Some x) /\
  (forall x, last = Some x -> Forall (lex_lt x) (dedup last l)).
Proof.
  induction l as [|y l IH]; intros last Hs Hl; cbn [dedup].
  { split_and!; [constructor|set_solver|by constructor]. }
  apply StronglySorted_inv in Hs as [Hs Hy]. destruct (decide (last = Some y)) as [->|Hn].
  - destruct (IH (Some y) Hs ltac:(intros x [= <-]; exact Hy)) as (H1 & H2 & H3).
    split_and!; [done| |done]. intros x. rewrite H2. set_solver.
  - destruct (IH (Some y) Hs ltac:(intros x [= <-]; exact Hy)) as (H1 & H2 & H3).
    assert (Hlt : forall x, last = Some x -> lex_lt x y).
    { intros x ->. specialize (Hl x eq_refl). apply Forall_cons in Hl as [Hxy _].
      apply lex_le_cases in Hxy as [->|]; [done|done]. }
    split_and!.
    + constructor; [done|by apply H3].
    + intros x. rewrite !elem_of_cons, H2. split.
      * intros [->|[Hx Hxy]]; [by split; [left|]|]. split; [by right|]. intros E.
        specialize (Hlt x E). specialize (Hl x E). eapply Forall_cons in Hl as [_ Hl].
        eapply Forall_forall in Hx; [|exact Hy]. apply lex_le_cases in Hx as [->|Hx]; [done|].
        eapply (irreflexivity lex_lt x). by transitivity y.
      * intros [[->|Hx] Hn']; [by left|]. destruct (decide (x = y)) as [->|]; [by left|right]. split; [done|congruence].
    + intros x E. constructor; [by apply Hlt|]. specialize (H3 y eq_refl). eapply Forall_impl; [exact H3|].
      intros z Hz. transitivity y; [by apply Hlt|done].
Qed.
Definition canonical_set (l : list (list Z)) : list (list Z) := dedup None (sort_lex l).
Lemma canonical_set_spec l : StronglySorted lex_lt (canonical_set l) /\ forall x, x ∈ canonical_set l <-> x ∈ l.
Proof.
  destruct (dedup_spec (sort_lex l) None (sorted_sort_lex l)) as (H1 & H2 & _); [done|]. split; [done|].
  intros x. unfold canonical_set. rewrite H2, elem_of_sort_lex. naive_solver.
Qed.
Lemma sorted_unique l k : StronglySorted lex_lt l -> StronglySorted lex_lt k -> (forall x, x ∈ l <-> x ∈ k) -> l = k.
Proof.
  revert k; induction l as [|x l IH]; intros [|y k] Hl Hk He; [done|specialize (He y); set_solver|specialize (He x); set_solver|].
  apply StronglySorted_inv in Hl as [Hl Hx]. apply StronglySorted_inv in Hk as [Hk Hy].
  assert (x = y) as <-.
  { destruct (decide (x = y)) as [|Hn]; [done|]. exfalso.
    assert (H1 : x ∈ k) by (specialize (He x); set_solver). assert (H2 : y ∈ l) by (specialize (He y); set_solver).
    eapply Forall_forall in H1; [|exact Hy]. eapply Forall_forall in H2; [|exact Hx].
    eapply (irreflexivity lex_lt x). by transitivity y. }
  f_equal. apply IH; [done..|]. intros z. specialize (He z). rewrite !elem_of_cons in He.
  assert (Hzl : z ∈ l -> z <> x) by (intros Hz ->; eapply Forall_forall in Hz; [|exact Hx]; by eapply irreflexivity in Hz; [|apply _]).
  assert (Hzk : z ∈ k -> z <> x) by (intros Hz ->; eapply Forall_forall in Hz; [|exact Hy]; by eapply irreflexivity in Hz; [|apply _]).
  naive_solver.
Qed.

Lemma raw_rr_equal_spec a b : raw_rr_equal a b = bool_decide (a = b).
Proof.
  unfold raw_rr_equal. destruct (Nat.eqb_spec (length a) (length b)) as [E|E]; cbn [negb].
  - destruct (memeq a b) eqn:Em.
    + symmetry. apply bool_decide_eq_true. by apply memeq_spec.
    + symmetry. apply bool_decide_eq_false. intros ->. by rewrite memeq_refl in Em.
  - symmetry. apply bool_decide_eq_false. by intros ->.
Qed.

(** Sorting and feeding records that only differ in their data. *)
Section OneSet.
Context (ls : list (list Z)) (type class ttl : Z) (Hok : name_ok ls).
Abbreviation mk := (wire_record (wire_head ls type class ttl)).

Lemma mk_inj x y : mk x = mk y -> x = y.
Proof.
  intros E. assert (Hx := raw_rdata_wire ls type class ttl x Hok). rewrite E, raw_rdata_wire in Hx by done. by injection Hx.
Qed.
Lemma qsort_raw_map l : qsort_raw (List.map mk l) = Ret (List.map mk (sort_lex l)).
Proof.
  assert (Hins : forall x l, insert_raw (mk x) (List.map mk l) = Ret (List.map mk (insert_lex x l))).
  { intros x k. induction k as [|y k IH]; [done|]. cbn [List.map insert_raw insert_lex].
    rewrite (raw_rr_cmp_lex _ _ x y) by by apply raw_rdata_wire. cbn [obind].
    destruct (lex x y); cbn [Z.leb Z.compare]; [done..|]. by rewrite IH. }
  induction l as [|x l IH]; [done|]. cbn [List.map qsort_raw]. rewrite IH. cbn [obind]. apply Hins.
Qed.
Lemma fed_records_map l : forall last, fed_records (mk <$> last) (List.map mk l) = List.map mk (dedup last l).
Proof.
  induction l as [|x l IH]; intros last; [done|]. cbn [List.map fed_records dedup].
  destruct (decide (last = Some x)) as [->|Hn].
  - cbn [fmap option_fmap option_map]. rewrite raw_rr_equal_spec, bool_decide_eq_true_2 by done. apply (IH (Some x)).
  - replace (match mk <$> last with Some l0 => raw_rr_equal (mk x) l0 | None => false end) with false.
    { cbn [List.map]. f_equal. apply (IH (Some x)). }
    destruct last as [y|]; [|done]. cbn. rewrite raw_rr_equal_spec, bool_decide_eq_false_2; [done|].
    intros E%mk_inj. congruence.
Qed.
End OneSet.

(** * The hash of a set of records *)

(** Records of one set: the same owner but for the case of letters, and one type and class. *)
Definition rrset_ok (owner : list (list Z)) (type class : Z) (l : list hsk_dns_rr_t) : Prop :=
  l <> [] /\ type <> HSK_DNS_SIG /\
  Forall (fun rr => rr_wf false rr /\ hsk_to_lower (rr_name rr) = text owner /\ rr_type rr = type /\ rr_class rr = class) l.
(** [d] is the data of [rr] in canonical form. *)
Definition canonical_data (owner : list (list Z)) (ttl : Z) (rr : hsk_dns_rr_t) (d : list Z) : Prop :=
  hsk_dns_rr_encode true (Some (canonical ttl rr)) =
    Ret (wire_record (wire_head owner (rr_type rr) (rr_class rr) ttl) d).

Lemma rr_clone_ok rr : rr_wf false rr -> hsk_dns_rr_clone all_ok (Some rr) = Ret rr.
Proof.
  intros Hw. destruct (dencode_spec false _ _ _ _ (dcodec_rr false no_table rr Hw)) as (bs & E & _ & _ & Er).
  unfold hsk_dns_rr_clone, hsk_dns_rr_encode, hsk_dns_rr_decode. rewrite E. cbn [obind]. by rewrite Er.
Qed.
Lemma raw_record_spec ttl rr : rr_wf false rr -> rr_type rr <> HSK_DNS_SIG ->
  raw_record all_ok ttl rr = hsk_dns_rr_encode true (Some (canonical ttl rr)).
Proof.
  intros Hw Hs. unfold raw_record. rewrite rr_clone_ok by done. cbn [obind].
  destruct Hw as (_ & _ & _ & _ & rd & s & Hrd & Hk & _). rewrite Hrd, lower_rd_spec by done. cbn [obind].
  unfold canonical. by rewrite Hrd.
Qed.

Lemma raw_records_spec owner type class ttl l : name_ok owner -> rrset_ok owner type class l -> 0 <= ttl < 2 ^ 32 ->
  exists ds, raw_records (fun _ => all_ok) ttl l = Ret (List.map (wire_record (wire_head owner type class ttl)) ds) /\
    Forall2 (canonical_data owner ttl) l ds /\ Forall bytes ds.
Proof.
  intros Hok (_ & Hs & Hl) Httl. induction Hl as [|rr l (Hw & Hn & Ht & Hc) Hl IH]; [exists []; by split_and!|].
  destruct IH as (ds & E & H2 & Hb).
  destruct (rr_encode_form (canonical ttl rr) owner (rr_wf_canonical _ _ _ Hw Httl) Hn Hok) as (d & Ed & Hbd).
  exists (d :: ds). cbn [raw_records]. rewrite raw_record_spec, Ed by (done || by rewrite Ht). cbn [obind canonical rr_type rr_class rr_ttl].
  rewrite E. cbn [obind List.map]. rewrite Ht, Hc. split; [done|]. split; [|by constructor]. constructor; [|done]. exact Ed.
Qed.

Section Hash.
Context (h : endian) (garbage : list Z) (addr : nat -> Z) (Hg : bytes_n 64 garbage).

Lemma feed_parts parts : forall ctx msg, Forall bytes parts -> sha_of msg ctx ->
  sha_of (msg ++ concat parts) (fold_left (sha256_feed h addr 0) parts ctx).
Proof.
  induction parts as [|p parts IH]; intros ctx msg Hp Hs; cbn [concat fold_left]; [by rewrite app_nil_r|].
  apply Forall_cons in Hp as [Hp1 Hp]. rewrite (assoc_L (++)). apply IH; [done|]. by apply sha256_feed_of.
Qed.
Lemma sha_end_of ctx msg : sha_of msg ctx -> snd (sha256_end h addr ctx (take 32 garbage)) = fips_sha256 msg.
Proof.
  intros Hs. destruct (sha256_end_of h addr ctx msg (take 32 garbage) Hs) as (c & -> & _); [|done].
  rewrite length_take. destruct Hg. lia.
Qed.

Lemma rrsig_tbs_ok r : rd_wf false (RRrsig r) -> exists tbs, hsk_dns_rrsig_tbs true r = Ret tbs /\ bytes tbs.
Proof.
  intros Hw. unfold hsk_dns_rrsig_tbs. set (r' := mk_rrsig _ _ _ _ _ _ _ _ _).
  assert (Hw' : rd_wf false (RRrsig r')).
  { cbn in Hw |- *. destruct_and?. split_and!; auto using name_wf_lower. constructor. }
  destruct (dencode_spec false _ _ _ _ (dcodec_rd false no_table HSK_DNS_RRSIG (RRrsig r') Hw' eq_refl)) as (bs & E & _ & Hb & _).
  by exists bs.
Qed.

Lemma bytes_wire_record owner type class ttl d : Forall label_ok owner -> bytes d ->
  bytes (wire_record (wire_head owner type class ttl) d).
Proof.
  intros Ho Hd. unfold wire_record, wire_head. rewrite !bytes_app. split_and!; auto using bytes_wire_labels, bytes_be_split.
  by apply bytes_cons; [|apply bytes_nil].
Qed.

(** What [hsk_dns_sighash] computes. *)
Lemma sighash_spec owner type class rrset sig r : name_ok owner -> rrset_ok owner type class rrset ->
  rr_type sig = HSK_DNS_RRSIG -> rr_rd sig = Some (RRrsig r) -> rd_wf false (RRrsig r) ->
  exists tbs ds, hsk_dns_rrsig_tbs true r = Ret tbs /\ Forall2 (canonical_data owner (rrsig_orig_ttl r)) rrset ds /\
    hsk_dns_sighash h garbage addr (fun _ => all_ok) (Some rrset) (Some sig) =
    Ret (fips_sha256 (tbs ++ concat (List.map (wire_record (wire_head owner type class (rrsig_orig_ttl r))) (canonical_set ds)))).
Proof.
  intros Hok Hset Ht Hrd Hw. assert (Httl : 0 <= rrsig_orig_ttl r < 2 ^ 32) by (cbn in Hw; destruct_and?; lia).
  destruct (rrsig_tbs_ok r Hw) as (tbs & Etbs & Hbt).
  destruct (raw_records_spec _ _ _ _ _ Hok Hset Httl) as (ds & Er & H2 & Hb). exists tbs, ds. do 2 (split; [done|]).
  destruct rrset as [|item items]; [by destruct Hset|]. unfold hsk_dns_sighash. rewrite Ht. cbn [Z.eqb Pos.eqb negb].
  change (HSK_DNS_RRSIG =? HSK_DNS_RRSIG) with true. cbn [negb]. rewrite Hrd. cbn [cast as_rrsig obind].
  rewrite Er. cbn [obind]. rewrite qsort_raw_map by done. cbn [obind]. rewrite Etbs. cbn [obind]. f_equal.
  change (fed_records None) with (fed_records (wire_record (wire_head owner type class (rrsig_orig_ttl r)) <$> None)).
  rewrite fed_records_map by done. apply sha_end_of.
  apply (feed_parts _ _ tbs).
  - apply Forall_map, Forall_forall. intros d Hd. apply bytes_wire_record; [apply Hok|].
    exact (proj1 (Forall_forall _ _) Hb d (proj1 (proj2 (canonical_set_spec ds) d) Hd)).
  - apply (sha256_feed_of h addr 0 _ [] tbs Hbt). by apply sha256_new_of.
Qed.
End Hash.

Lemma canonical_data_fun owner ttl rr d d' : name_ok owner ->
  canonical_data owner ttl rr d -> canonical_data owner ttl rr d' -> d = d'.
Proof. unfold canonical_data. intros Hok E E'. rewrite E in E'. injection E' as E'. by eapply mk_inj. Qed.
(** The data of two sets with the same canonical records. *)
Lemma canonical_set_ext owner ttl l l' ds ds' : name_ok owner ->
  Forall2 (canonical_data owner ttl) l ds -> Forall2 (canonical_data owner ttl) l' ds' ->
  (forall c, c ∈ List.map (canonical ttl) l <-> c ∈ List.map (canonical ttl) l') -> canonical_set ds = canonical_set ds'.
Proof.
  intros Hok H2 H2' He. destruct (canonical_set_spec ds) as [Hs Hin], (canonical_set_spec ds') as [Hs' Hin'].
  assert (Hsub : forall l l' ds ds', Forall2 (canonical_data owner ttl) l ds -> Forall2 (canonical_data owner ttl) l' ds' ->
    (forall c, c ∈ List.map (canonical ttl) l -> c ∈ List.map (canonical ttl) l') -> forall d, d ∈ ds -> d ∈ ds').
  { clear. intros l l' ds ds' H2 H2' He d Hd. destruct (proj1 (list_elem_of_lookup _ _) Hd) as [i Hi].
    destruct (Forall2_lookup_r _ _ _ _ _ H2 Hi) as (rr & Hr & Hc).
    assert (Hrr : canonical ttl rr ∈ List.map (canonical ttl) l) by (apply list_elem_of_fmap_2; by eapply list_elem_of_lookup_2).
    apply He in Hrr. apply list_elem_of_fmap in Hrr as (rr' & Erc & Hrr').
    destruct (proj1 (list_elem_of_lookup _ _) Hrr') as [j Hj]. destruct (Forall2_lookup_l _ _ _ _ _ H2' Hj) as (d' & Hd' & Hc').
    enough (d = d') as -> by by eapply list_elem_of_lookup_2.
    unfold canonical_data in Hc, Hc'. rewrite <-Erc in Hc'. assert (Et := f_equal rr_type Erc). assert (Ec := f_equal rr_class Erc).
    cbn in Et, Ec. rewrite <-Et, <-Ec, Hc in Hc'. injection Hc' as E. unfold wire_record in E.
    apply (app_inv_head (wire_head owner (rr_type rr) (rr_class rr) ttl)) in E.
    by apply app_inj_1 in E as [_ ->]; [|by rewrite !length_be_split]. }
  apply sorted_unique; [done..|]. intros d. rewrite Hin, Hin'. split; eapply Hsub; eauto; intros c; apply He.
Qed.

(** * Theorems *)

(** C31: What is signed is the canonical form of RFC 4034. For a set of well-formed records
    with one owner (up to the case of letters), type and class, the hash is the
    SHA-256 of the signature data without its signature and with its name in
    lower case, followed by every record once, in lower case, with the time of the
    signature, in the strict order of the data as octet strings; and the hash of
    another set is the same as soon as both have the same records in canonical form, so
    that neither order nor duplicates nor the case of names matter. *)
Theorem dnssec_sighash_canonical (h : endian) (garbage : list Z) (addr : nat -> Z) owner type class rrset sig r :
  bytes_n 64 garbage -> name_ok owner -> rrset_ok owner type class rrset ->
  rr_type sig = HSK_DNS_RRSIG -> rr_rd sig = Some (RRrsig r) -> rd_wf false (RRrsig r) ->
  exists tbs rdatas, hsk_dns_rrsig_tbs true r = Ret tbs /\ StronglySorted lex_lt rdatas /\
    (forall d, d ∈ rdatas <-> exists rr, rr ∈ rrset /\ canonical_data owner (rrsig_orig_ttl r) rr d) /\
    hsk_dns_sighash h garbage addr (fun _ => all_ok) (Some rrset) (Some sig) =
      Ret (fips_sha256 (tbs ++ concat (List.map (wire_record (wire_head owner type class (rrsig_orig_ttl r))) rdatas))) /\
    forall rrset', rrset_ok owner type class rrset' ->
      (forall c, c ∈ List.map (canonical (rrsig_orig_ttl r)) rrset <-> c ∈ List.map (canonical (rrsig_orig_ttl r)) rrset') ->
      hsk_dns_sighash h garbage addr (fun _ => all_ok) (Some rrset') (Some sig) =
      hsk_dns_sighash h garbage addr (fun _ => all_ok) (Some rrset) (Some sig).
Proof.
  intros Hg Hok Hset Ht Hrd Hw.
  destruct (sighash_spec h garbage addr Hg _ _ _ _ _ _ Hok Hset Ht Hrd Hw) as (tbs & ds & Et & H2 & E).
  destruct (canonical_set_spec ds) as [Hs Hin]. exists tbs, (canonical_set ds). do 2 (split; [done|]). split; [|split; [exact E|]].
  - intros d. rewrite Hin. split.
    + intros Hd. apply list_elem_of_lookup in Hd as [i Hi]. destruct (Forall2_lookup_r _ _ _ _ _ H2 Hi) as (rr & Hr & Hc).
      exists rr. split; [by eapply list_elem_of_lookup_2|done].
    + intros (rr & Hrr & Hc). apply list_elem_of_lookup in Hrr as [i Hi].
      destruct (Forall2_lookup_l _ _ _ _ _ H2 Hi) as (d' & Hd' & Hc').
      rewrite (canonical_data_fun _ _ _ _ _ Hok Hc Hc'). by eapply list_elem_of_lookup_2.
  - intros rrset' Hset' He.
    destruct (sighash_spec h garbage addr Hg _ _ _ _ _ _ Hok Hset' Ht Hrd Hw) as (tbs' & ds' & Et' & H2' & E').
    rewrite E, E'. rewrite Et in Et'. injection Et' as <-. by rewrite (canonical_set_ext _ _ _ _ _ _ Hok H2 H2' He).
Qed.

(** A set of records of the obsolete type SIG: their data is not the struct that the code takes it for. *)
Lemma dnssec_sig_cast :
  hsk_dns_sighash Little (replicate 64 0) (fun _ => 0) (fun _ => all_ok)
    (Some [mk_rr [dot] HSK_DNS_SIG HSK_DNS_IN 0 (Some (RUnknown []))])
    (Some (mk_rr [dot] HSK_DNS_RRSIG HSK_DNS_IN 0 (Some (RRrsig (mk_rrsig HSK_DNS_SIG 13 0 0 0 0 0 [dot] []))))) =
  Fault Overread.
Proof. vm_compute. reflexivity. Qed.

(** ** Key tags and delegations *)

(** The sum of the data as 16-bit words, an odd byte at the end being a high one. *)
Fixpoint sum16 (l : list Z) : Z :=
  match l with
  | [] => 0
  | [a] => 256 * a
  | a :: b :: l' => 256 * a + b + sum16 l'
  end.
Lemma sum16_bound l : bytes l -> 0 <= sum16 l <= 65535 * Z.of_nat (length l).
Proof.
  intros Hb. enough (H : forall n l, (length l <= n)%nat -> bytes l -> 0 <= sum16 l <= 65535 * Z.of_nat (length l)) by eauto.
  clear l Hb. intros n. induction n as [|n IH]; intros l Hl Hb; [destruct l; cbn in *; lia|].
  destruct l as [|a [|b l]]; [cbn; lia| |]; apply bytes_cons_inv in Hb as [Ha Hb]; [cbn; lia|].
  apply bytes_cons_inv in Hb as [Hb' Hb]. cbn [sum16 length] in *. specialize (IH l ltac:(lia) Hb). lia.
Qed.
Lemma keytag_loop_spec n : forall l i tag, (length l <= n)%nat -> bytes l -> Nat.even i = true ->
  0 <= tag -> tag + sum16 l < 2 ^ 32 -> keytag_loop l i tag = tag + sum16 l.
Proof.
  induction n as [|n IH]; intros l i tag Hl Hb Hi H0 Ht; [destruct l; cbn in *; lia|].
  destruct l as [|a [|b l]]; [cbn; lia| |]; apply bytes_cons_inv in Hb as [Ha Hb].
  all: cbn [keytag_loop sum16] in *; rewrite <-Nat.negb_even, Hi; cbn [negb];
    rewrite (Z.shiftl_mul_pow2 a 8) by lia; rewrite (u32_small (a * 2 ^ 8)) by lia.
  - rewrite u32_small by lia. lia.
  - apply bytes_cons_inv in Hb as [Hb' Hb]. assert (Hs := sum16_bound l Hb). rewrite (u32_small (tag + _)) by lia.
    rewrite Nat.odd_succ, Hi. rewrite u32_small by lia. cbn [length] in Hl. rewrite IH; [lia|lia|done|by cbn; rewrite Hi|lia..].
Qed.

(** A well-formed key whose data fits a record. *)
Definition dnskey_ok (k : hsk_dns_dnskey_rd_t) : Prop :=
  rd_wf false (RDnskey k) /\ Z.of_nat (length (dnskey_pubkey k)) < 2 ^ 16 - 4.
Definition dnskey_wire (k : hsk_dns_dnskey_rd_t) : list Z :=
  be_split 2 (dnskey_flags k) ++ [dnskey_protocol k; dnskey_algorithm k] ++ dnskey_pubkey k.
Definition key_tag_of (k : hsk_dns_dnskey_rd_t) : Z :=
  let s := sum16 (dnskey_wire k) in (s mod 65536 + s / 65536) mod 65536.

Lemma dnskey_encode k : dnskey_ok k ->
  hsk_dns_rd_encode true (Some (RDnskey k)) HSK_DNS_DNSKEY = Ret (dnskey_wire k) /\ bytes (dnskey_wire k) /\
  Z.of_nat (length (dnskey_wire k)) < 2 ^ 16.
Proof.
  intros [Hw Hl]. destruct (dencode_spec false _ _ _ _ (dcodec_rd false no_table HSK_DNS_DNSKEY (RDnskey k) Hw eq_refl))
    as (bs & E & Es & Hb & _). cbn [rd_wf] in Hw. destruct_and?.
  assert (Hwr : hsk_dns_rd_write no_table (RDnskey k) HSK_DNS_DNSKEY (Some ([], None)) =
    Ret (Z.of_nat (length (dnskey_wire k)), Some (dnskey_wire k, None))).
  { unfold hsk_dns_rd_write. change (kind_of_type HSK_DNS_DNSKEY) with KDnskey. unfold dseq.
    rewrite (dlift_emits _ _ _ _ (emits_u16be (dnskey_flags k))). cbn [obind].
    rewrite (dlift_emits _ _ _ _ (emits_u8 (dnskey_protocol k) ltac:(lia))). cbn [obind].
    rewrite (dlift_emits _ _ _ _ (emits_u8 (dnskey_algorithm k) ltac:(lia))). cbn [obind].
    rewrite (dlift_emits _ _ _ _ (emits_bytes (dnskey_pubkey k))). cbn [obind].
    unfold dnskey_wire. cbn [app]. rewrite <-!(assoc_L (++)). cbn [app]. f_equal. f_equal. rewrite length_app. cbn [length]. lia. }
  cbn [hsk_dns_rd_encode]. cbn [hsk_dns_rd_encode] in E. unfold dencode in *. rewrite Es in *. cbn [obind] in *.
  unfold dbytes in *. rewrite Hwr in *. cbn [obind] in *. destruct (_ <? _) in *; [done|]. injection E as <-.
  split; [done|]. split; [done|]. unfold dnskey_wire. rewrite length_app, length_be_split. cbn [length app]. lia.
Qed.
Lemma keytag_spec k : dnskey_ok k -> hsk_dns_dnskey_keytag true k = Ret (key_tag_of k) /\ 0 <= key_tag_of k < 2 ^ 16.
Proof.
  intros Hk. destruct (dnskey_encode k Hk) as (E & Hb & Hl). unfold hsk_dns_dnskey_keytag. rewrite E.
  assert (Hs := sum16_bound _ Hb). unfold key_tag_of. set (s := sum16 (dnskey_wire k)) in *.
  split; [|by apply Z.mod_pos_bound]. f_equal.
  rewrite (keytag_loop_spec (length (dnskey_wire k))) by (done || lia). fold s. rewrite Z.add_0_l.
  change 0xffff with (2 ^ 16 - 1). rewrite !land_ones_mod, Z.shiftr_div_pow2 by lia. rewrite u32_small by dlia. dlia.
Qed.

Lemma text_inj ls ks : Forall label_ok ls -> Forall label_ok ks -> text ls = text ks -> ls = ks.
Proof.
  intros Hl Hk E. assert (Hne : forall ls, Forall label_ok ls -> text ls = [dot] -> ls = []).
  { intros [|l js] H Et; [done|]. rewrite text_body in Et by done. apply Forall_cons in H as [H _].
    assert (Hp := body_length_pos l js H). rewrite Et in Hp. cbn in Hp. lia. }
  destruct ls as [|l ls]; [symmetry; apply Hne; [done|by rewrite <-E]|].
  destruct ks as [|k ks]; [apply Hne; [done|by rewrite E]|]. rewrite !text_body in E by done. by apply body_inj.
Qed.
Lemma name_pack_text ls : name_ok ls ->
  hsk_dns_name_pack true (text ls) = Ret (Z.of_nat (length (wire_labels ls ++ [0])), wire_labels ls ++ [0]).
Proof.
  intros Hok. unfold hsk_dns_name_pack, hsk_dns_name_serialize. destruct ls as [|l ls]; [done|].
  rewrite text_body by done. by rewrite (serialize_none _ _ _ (l :: ls) [] []) by done.
Qed.

(** The key and the record that delegates to it. *)
Lemma dnskey_create_spec make_pubkey zone priv pubkey ksk : name_ok zone -> make_pubkey priv = Some pubkey ->
  hsk_dns_dnskey_create make_pubkey all_ok (text zone) priv ksk =
  Ret (mk_rr (text (List.map hsk_to_lower zone)) HSK_DNS_DNSKEY HSK_DNS_IN 10800
    (Some (RDnskey (mk_dnskey (256 + Z.b2z ksk) 3 13 pubkey)))).
Proof.
  intros Hz Hp. unfold hsk_dns_dnskey_create. cbn [hsk_dns_rr_create]. rewrite Hp, to_lower_text.
  assert (Hlen : Z.of_nat (length (text zone)) <= 255) by (destruct zone; [done|apply Hz]).
  unfold HSK_DNS_MAX_NAME. destruct (Z.ltb_spec 255 (Z.of_nat (length (text zone)))); [lia|]. by destruct ksk.
Qed.
Lemma ds_create_spec (h : endian) (garbage : list Z) (addr : nat -> Z) zone k class ttl :
  bytes_n 64 garbage -> name_ok zone -> dnskey_ok k ->
  let zname := List.map hsk_to_lower zone in
  hsk_dns_ds_create h garbage addr all_ok (Some (mk_rr (text zname) HSK_DNS_DNSKEY class ttl (Some (RDnskey k)))) =
    Ret (mk_rr (text zname) HSK_DNS_DS class ttl (Some (RDs (mk_ds (key_tag_of k) (dnskey_algorithm k) 2
      (fips_sha256 ((wire_labels zname ++ [0]) ++ dnskey_wire k)))))).
Proof.
  intros Hg Hz Hk zname. assert (Hz' : name_ok zname) by by apply name_ok_lower. destruct (keytag_spec k Hk) as [Et Hr].
  unfold hsk_dns_ds_create. cbn [rr_type]. change (HSK_DNS_DNSKEY =? HSK_DNS_DNSKEY) with true. cbn [negb].
  unfold hsk_dns_rr_create, hsk_dns_rd_alloc. cbn [rr_rd rr_name rr_class rr_ttl cast as_dnskey obind]. rewrite Et. cbn [obind].
  destruct (Z.eqb_spec (key_tag_of k) (-1)); [lia|]. destruct (dnskey_encode k Hk) as (Ee & Hbw & _). rewrite Ee. cbn [obind].
  assert (Hid : hsk_to_lower (text zname) = text zname).
  { rewrite to_lower_text. f_equal. unfold zname. rewrite List.map_map. apply List.map_ext, to_lower_idemp. }
  rewrite Hid, name_pack_text by done. cbn [obind]. rewrite Nat2Z.id, take_ge by lia. do 6 f_equal.
  apply sha_end_of; [done|]. apply sha256_feed_of; [done|].
  apply (sha256_feed_of h addr 0 _ []); [|by apply sha256_new_of].
  apply bytes_app. split; [apply bytes_wire_labels, Hz'|by apply bytes_cons; [|apply bytes_nil]].
Qed.

(** Key tags and delegations. The key made for a zone has the flags of a zone key, and of a key
    signing key if asked for; the key tag is the sum of the data as 16-bit words with the carry added
    once, in 16 bits; and the DS record of a key names the key by its tag, its
    algorithm and the SHA-256 of the owner in wire form and lower case
    followed by the data of the key. The DS record of the root is made once: asking again
    gives the same record and changes nothing. *)
Theorem dnssec_ds_correct (h : endian) (garbage : list Z) (addr : nat -> Z) (make_pubkey : list Z -> option (list Z))
    zone priv pubkey ksk :
  bytes_n 64 garbage -> name_ok zone -> make_pubkey priv = Some pubkey -> bytes_n 64 pubkey ->
  let zname := List.map hsk_to_lower zone in
  let k := mk_dnskey (256 + Z.b2z ksk) 3 13 pubkey in
  let key := mk_rr (text zname) HSK_DNS_DNSKEY HSK_DNS_IN 10800 (Some (RDnskey k)) in
  hsk_dns_dnskey_create make_pubkey all_ok (text zone) priv ksk = Ret key /\
  hsk_dns_dnskey_keytag true k = Ret (key_tag_of k) /\ 0 <= key_tag_of k < 2 ^ 16 /\
  hsk_dns_ds_create h garbage addr all_ok (Some key) =
    Ret (mk_rr (text zname) HSK_DNS_DS HSK_DNS_IN 10800 (Some (RDs (mk_ds (key_tag_of k) 13 2
      (fips_sha256 ((wire_labels zname ++ [0]) ++ dnskey_wire k)))))) /\
  forall s s' ds, hsk_dnssec_get_ds h garbage addr make_pubkey all_ok s = Ret (ds, s') ->
    hsk_dnssec_get_ds h garbage addr make_pubkey all_ok s' = Ret (ds, s').
Proof.
  intros Hg Hz Hp [Hl Hb] zname k key. assert (Hz' : name_ok zname) by by apply name_ok_lower.
  assert (Hk : dnskey_ok k).
  { split; [cbn; split_and!; try done; destruct ksk; cbn; lia|cbn; lia]. }
  destruct (keytag_spec k Hk) as [Et Hr]. split; [|split; [done|split; [done|split]]].
  - by apply dnskey_create_spec.
  - by apply (ds_create_spec h garbage addr zone k).
  - intros s s' ds. unfold hsk_dnssec_get_ds. destruct (ksk_ds s) as [d|] eqn:Ed.
    + intros [= <- <-]. by rewrite Ed.
    + destruct (hsk_dnssec_get_ksk _ _ s) as [[k1 s1]| |]; cbn [obind]; [|done|done].
      destruct (assert_made _) as [d| |]; cbn [obind]; [|done|done]. by intros [= <- <-].
Qed.

(** What [hsk_dns_sign_type] does. *)
Lemma sign_type_spec (h : endian) (garbage : list Z) (addr : nat -> Z)
    (sign : list Z -> list Z -> option (list Z)) owner type class l item items key k priv now1 now2 :
  bytes_n 64 garbage -> name_ok owner -> (length l < 255)%nat ->
  filter (fun rr => rr_type rr = type) l = item :: items -> rrset_ok owner type class (item :: items) ->
  rr_type key = HSK_DNS_DNSKEY -> rr_rd key = Some (RDnskey k) -> dnskey_ok k -> name_wf false (rr_name key) ->
  let signature s := mk_rr (text owner) HSK_DNS_RRSIG (rr_class key) (rr_ttl key)
    (Some (RRrsig (mk_rrsig type (dnskey_algorithm k) (Z.of_nat (length owner)) (rr_ttl item)
      (u32 (now2 + 1209600)) (u32 (now1 - 1209600)) (key_tag_of k) (hsk_to_lower (rr_name key)) s))) in
  exists hash,
    hsk_dns_sign_type h garbage addr sign (fun _ => all_ok) now1 now2 (Some l) type (Some key) (Some priv) =
      match sign priv hash with Some s => Ret (l ++ [signature s]) | None => Fail end /\
    forall s, bytes s -> hsk_dns_sighash h garbage addr (fun _ => all_ok) (Some (item :: items)) (Some (signature s)) = Ret hash.
Proof.
  intros Hg Hok Hlen Hf Hset Hkt Hkr Hk Hkn signature.
  destruct Hset as (Hne & Hsig & Hall). assert (Hi := proj1 (proj1 (Forall_cons _ _ _) Hall)).
  destruct Hi as (Hiw & Hin & Hit & Hic). assert (Hset : rrset_ok owner type class (item :: items)) by done.
  destruct Hiw as ((ils & Hils & Hiok & _) & _ & _ & Hittl & _).
  assert (Hown : List.map hsk_to_lower ils = owner).
  { apply text_inj; [apply name_ok_lower, Hiok|apply Hok|]. by rewrite <-to_lower_text, <-Hils. }
  assert (Hcnt : length ils = length owner) by (by rewrite <-Hown, List.length_map).
  assert (Hlab : u8 (hsk_dns_label_count (rr_name item)) = Z.of_nat (length owner)).
  { rewrite Hils, count_text by done. assert (Hc := name_ok_count ils Hiok). rewrite u8_small by lia. lia. }
  destruct (keytag_spec k Hk) as [Etag Htag].
  assert (Htype : 0 <= type < 2 ^ 16).
  { apply Forall_cons in Hall as [((_ & Ht & _) & _ & <- & _) _]. exact Ht. }
  assert (Hcount := name_ok_count ils Hiok).
  set (r s := mk_rrsig type (dnskey_algorithm k) (Z.of_nat (length owner)) (rr_ttl item)
      (u32 (now2 + 1209600)) (u32 (now1 - 1209600)) (key_tag_of k) (hsk_to_lower (rr_name key)) s).
  assert (Hr : forall s, bytes s -> rd_wf false (RRrsig (r s))).
  { intros s Hs. destruct Hk as [Hkw _]. cbn in Hkw. destruct_and?.
    assert (R1 := u32_range (now2 + 1209600)). assert (R2 := u32_range (now1 - 1209600)).
    cbn. split_and!; try (done || lia). by apply name_wf_lower. }
  destruct (sighash_spec h garbage addr Hg _ _ _ _ (signature []) (r []) Hok Hset eq_refl eq_refl (Hr [] ltac:(constructor)))
    as (tbs & ds & Et & H2 & E).
  match type of E with _ = Ret ?x => exists x end. split.
  - unfold hsk_dns_sign_type. destruct (Nat.leb_spec 255 (length l)); [lia|]. cbv beta iota. rewrite Hf.
    unfold hsk_dns_sign_rrset. rewrite Hkt. change (HSK_DNS_DNSKEY =? HSK_DNS_DNSKEY) with true. cbn [negb].
    unfold hsk_dns_rr_create, hsk_dns_rd_alloc. rewrite Hkr. cbn [cast as_dnskey obind]. rewrite Etag. cbn [obind].
    destruct (Z.eqb_spec (key_tag_of k) (-1)); [lia|]. unfold hsk_dns_sign_rrsig.
    cbn [rr_type rr_name rr_class rr_ttl rr_rd cast as_rrsig obind rrsig_algorithm rrsig_expiration rrsig_inception
      rrsig_key_tag rrsig_signer_name].
    change (HSK_DNS_RRSIG =? HSK_DNS_RRSIG) with true. cbn [negb]. rewrite Hit, Hlab, Hin.
    change (14 * 24 * 60 * 60) with 1209600. fold (r []). 
    change (mk_rr (text owner) HSK_DNS_RRSIG (rr_class key) (rr_ttl key) (Some (RRrsig (r [])))) with (signature []).
    rewrite E. cbn [obind]. destruct (sign priv _) as [s|]; cbn [obind]; [|done].
    unfold push_item. destruct (Z.eqb_spec (Z.of_nat (length l)) 255); [lia|]. done.
  - intros s Hs.
    destruct (sighash_spec h garbage addr Hg _ _ _ _ (signature s) (r s) Hok Hset eq_refl eq_refl (Hr s Hs))
      as (tbs' & ds' & Et' & H2' & E'). rewrite E'. cbn [r rrsig_orig_ttl] in *.
    change (hsk_dns_rrsig_tbs true (r s)) with (hsk_dns_rrsig_tbs true (r [])) in Et'. rewrite Et in Et'. injection Et' as <-.
    by rewrite (canonical_set_ext _ _ _ _ _ _ Hok H2' H2 ltac:(done)).
Qed.

(** C32: Signatures are over what a verifier will hash. For a list of fewer than 255 records whose
    records of type [type] are a set, a well-formed key and a working allocator,
    [hsk_dns_sign_type] asks for the signature of a hash and appends one RRSIG record
    that covers the type, with the owner and the signer in lower case, the number of labels, the
    time of the set, the tag of the key and a validity of two weeks around the clock; and that hash is
    the one [hsk_dns_sighash] computes from the set and the finished record. When the
    signature fails, or a list has no records of the type, nothing is appended. *)
Theorem dnssec_sign_correct (h : endian) (garbage : list Z) (addr : nat -> Z)
    (sign : list Z -> list Z -> option (list Z)) owner type class l item items key k priv now1 now2 :
  bytes_n 64 garbage -> name_ok owner -> (length l < 255)%nat ->
  filter (fun rr => rr_type rr = type) l = item :: items -> rrset_ok owner type class (item :: items) ->
  rr_type key = HSK_DNS_DNSKEY -> rr_rd key = Some (RDnskey k) -> dnskey_ok k -> name_wf false (rr_name key) ->
  let signature s := mk_rr (text owner) HSK_DNS_RRSIG (rr_class key) (rr_ttl key)
    (Some (RRrsig (mk_rrsig type (dnskey_algorithm k) (Z.of_nat (length owner)) (rr_ttl item)
      (u32 (now2 + 1209600)) (u32 (now1 - 1209600)) (key_tag_of k) (hsk_to_lower (rr_name key)) s))) in
  exists hash,
    hsk_dns_sign_type h garbage addr sign (fun _ => all_ok) now1 now2 (Some l) type (Some key) (Some priv) =
      match sign priv hash with Some s => Ret (l ++ [signature s]) | None => Fail end /\
    (forall s, bytes s -> hsk_dns_sighash h garbage addr (fun _ => all_ok) (Some (item :: items)) (Some (signature s)) = Ret hash) /\
    forall l', filter (fun rr => rr_type rr = type) l' = [] ->
      hsk_dns_sign_type h garbage addr sign (fun _ => all_ok) now1 now2 (Some l') type (Some key) (Some priv) = Fail.
Proof.
  intros Hg Hok Hlen Hf Hset Hkt Hkr Hk Hkn signature.
  destruct (sign_type_spec h garbage addr sign owner type class l item items key k priv now1 now2 Hg Hok Hlen Hf Hset
    Hkt Hkr Hk Hkn) as (hash & E1 & E2).
  exists hash. split_and!; [exact E1|exact E2|]. intros l' Hl'. unfold hsk_dns_sign_type.
  destruct (255 <=? length l')%nat; [done|]. by rewrite Hl'.
Qed.

(** * Witnesses *)
Module Signed.
Definition a : list (list Z) := [[97]].
(** Two name servers of "a.", with names in different cases, twice. *)
Definition ns (c : Z) : hsk_dns_rr_t := mk_rr (text [[c]]) HSK_DNS_NS HSK_DNS_IN 300 (Some (RNs (text [[110; 115]; [c]]))).
Definition rrset : list hsk_dns_rr_t := [ns 97; ns 65; ns 97].
Definition r : hsk_dns_rrsig_rd_t := mk_rrsig HSK_DNS_NS 13 1 300 20 10 7 [dot] [].
Definition sig : hsk_dns_rr_t := mk_rr (text a) HSK_DNS_RRSIG HSK_DNS_IN 300 (Some (RRrsig r)).
Definition key : hsk_dns_dnskey_rd_t := mk_dnskey 257 3 13 (replicate 64 1).
Definition key_rr : hsk_dns_rr_t := mk_rr [dot] HSK_DNS_DNSKEY HSK_DNS_IN 10800 (Some (RDnskey key)).
Definition garbage : list Z := replicate 64 7.

Lemma garbage_ok : bytes_n 64 garbage.
Proof. apply (bool_decide_unpack _). vm_compute. exact I. Qed.
Lemma name_ok_intro ls : bool_decide (Forall label_ok ls) = true -> Z.of_nat (length (body ls)) <= 255 -> name_ok ls.
Proof. intros H1 H2. split; [by apply bool_decide_eq_true in H1|done]. Qed.
Lemma a_ok : name_ok a.
Proof. apply name_ok_intro; [by vm_compute|by vm_compute]. Qed.
Lemma signed_root_wf : name_wf false [dot].
Proof. exists []. split; [done|]. split; [apply name_ok_intro; [by vm_compute|by vm_compute]|done]. Qed.
Lemma ns_ok c : c = 97 \/ c = 65 -> rr_wf false (ns c) /\ hsk_to_lower (rr_name (ns c)) = text a /\
  rr_type (ns c) = HSK_DNS_NS /\ rr_class (ns c) = HSK_DNS_IN.
Proof.
  intros Hc. assert (Hn : name_wf false (text [[c]]) /\ name_wf false (text [[110; 115]; [c]])).
  { split; [exists [[c]]|exists [[110; 115]; [c]]]; (split; [done|]; split; [|done]);
      destruct Hc as [->| ->]; apply name_ok_intro; by vm_compute. }
  destruct Hn as [H1 H2]. split; [|by destruct Hc as [->| ->]]. split; [exact H1|]. do 3 (split; [by vm_compute|]).
  destruct Hc as [->| ->]; eexists _, _; (do 2 (split; [done|])); (split; [exact H2|by split]).
Qed.
Lemma rrset_is_ok : rrset_ok a HSK_DNS_NS HSK_DNS_IN rrset.
Proof. split; [done|]. split; [done|]. repeat (apply Forall_cons_2; [by apply ns_ok; auto|]). apply Forall_nil_2. Qed.
Lemma r_wf : rd_wf false (RRrsig r).
Proof. cbn. split_and!; try (done || lia); [apply signed_root_wf|constructor]. Qed.
Lemma key_ok : dnskey_ok key.
Proof.
  assert (Hb : bytes (replicate 64 1)) by (apply bytes_replicate; lia).
  split; [|by vm_compute]. by split_and!.
Qed.
End Signed.

Lemma dnssec_sighash_canonical_witness :
  hsk_dns_sighash Little Signed.garbage (fun _ => 0) (fun _ => all_ok) (Some [Signed.ns 65]) (Some Signed.sig) =
  hsk_dns_sighash Little Signed.garbage (fun _ => 0) (fun _ => all_ok) (Some Signed.rrset) (Some Signed.sig).
Proof.
  destruct (dnssec_sighash_canonical Little Signed.garbage (fun _ => 0) Signed.a HSK_DNS_NS HSK_DNS_IN Signed.rrset Signed.sig
    Signed.r Signed.garbage_ok Signed.a_ok Signed.rrset_is_ok eq_refl eq_refl Signed.r_wf) as (tbs & ds & _ & _ & _ & _ & H).
  apply H.
  - split; [done|]. split; [done|]. apply Forall_cons_2; [by apply Signed.ns_ok; auto|apply Forall_nil_2].
  - assert (E : canonical 300 (Signed.ns 65) = canonical 300 (Signed.ns 97)) by reflexivity.
    intros c. cbn [List.map Signed.rrset]. change (rrsig_orig_ttl Signed.r) with 300. rewrite E. rewrite !elem_of_cons. tauto.
Defined.
Lemma dnssec_ds_correct_witness :
  hsk_dns_dnskey_keytag true (mk_dnskey 257 3 13 (replicate 64 1)) = Ret (key_tag_of (mk_dnskey 257 3 13 (replicate 64 1))).
Proof.
  refine (proj1 (proj2 (dnssec_ds_correct Little Signed.garbage (fun _ => 0) (fun _ => Some (replicate 64 1)) [] []
    (replicate 64 1) true Signed.garbage_ok _ eq_refl _))).
  - apply Signed.name_ok_intro; [by vm_compute|by vm_compute].
  - split; [done|]. apply bytes_replicate. lia.
Defined.
Lemma dnssec_sign_correct_witness : exists hash,
  hsk_dns_sign_type Little Signed.garbage (fun _ => 0) (fun _ _ => Some (replicate 64 5)) (fun _ => all_ok) 0 0
    (Some Signed.rrset) HSK_DNS_NS (Some Signed.key_rr) (Some []) =
  Ret (Signed.rrset ++ [mk_rr (text Signed.a) HSK_DNS_RRSIG HSK_DNS_IN 10800
    (Some (RRrsig (mk_rrsig HSK_DNS_NS 13 1 300 1209600 (2 ^ 32 - 1209600) (key_tag_of Signed.key) [dot] (replicate 64 5))))]) /\
  hsk_dns_sighash Little Signed.garbage (fun _ => 0) (fun _ => all_ok) (Some Signed.rrset)
    (Some (mk_rr (text Signed.a) HSK_DNS_RRSIG HSK_DNS_IN 10800
      (Some (RRrsig (mk_rrsig HSK_DNS_NS 13 1 300 1209600 (2 ^ 32 - 1209600) (key_tag_of Signed.key) [dot] (replicate 64 5)))))) =
  Ret hash.
Proof.
  destruct (dnssec_sign_correct Little Signed.garbage (fun _ => 0) (fun _ _ => Some (replicate 64 5)) Signed.a HSK_DNS_NS HSK_DNS_IN
    Signed.rrset (Signed.ns 97) [Signed.ns 65; Signed.ns 97] Signed.key_rr Signed.key [] 0 0 Signed.garbage_ok Signed.a_ok)
    as (hash & E & Hv & _).
  - cbn. lia.
  - reflexivity.
  - exact Signed.rrset_is_ok.
  - reflexivity.
  - reflexivity.
  - exact Signed.key_ok.
  - exact Signed.signed_root_wf.
  - exists hash. split; [exact E|]. apply (Hv (replicate 64 5)). apply bytes_replicate. lia.
Defined.
