(* ===== verification/Host.v ===== *)
(** The host of the resolver: what its routines ask of the C library and of the elliptic
    curve code, and the monad of routines that ask.

    A routine is in [io]: it passes on the number of the next question to the host and the
    keys that [dnssec.c] keeps in static variables. Each call of a routine that allocates
    or reads the clock takes the next number. *)

From S2P Require Import Prelude Bio Map MapProps Sha256 Hkdf DnsName DnsRecord DnsMsg Dnssec.

(** [host_al i] answers the allocations of question [i], [host_mem i] those of the table of
    names, and [host_clock i] is the time; [host_inet_ntop] and [host_udp_send] are the
    functions of libuv. The rest is as in [Dnssec], with the functions of [ec.c] on
    secp256k1 and their context. *)
Class Host := {
  host_endian : endian;
  host_garbage : list Z;
  host_addr : nat -> Z;
  host_al : nat -> nat -> nat -> bool;
  host_mem : nat -> list Z -> bool;
  host_clock : nat -> nat -> Z;
  host_ecc_make_pubkey : list Z -> option (list Z);
  host_ecc_sign : list Z -> list Z -> option (list Z);
  host_ec_create_pubkey : list Z -> option (list Z);
  host_ec_sign_msg : list Z -> list Z -> option (list Z);
  host_ec_verify_msg : list Z -> list Z -> list Z -> bool;
  host_inet_ntop : Z -> list Z -> nat -> option (list Z);
  host_udp_send : nat -> Z;
}.

Record world := mk_world {
  w_next : nat;
  w_keys : dnssec_keys;
}.
Definition io (A : Type) : Type := world -> outcome (A * world).

#[export] Instance io_ret : MRet io := fun A a w => Ret (a, w).
#[export] Instance io_bind : MBind io := fun A B k m w => let* (a, w) := m w in k a w.
(** The next number. *)
Definition ask : io nat := fun w => Ret (w_next w, mk_world (S (w_next w)) (w_keys w)).
Definition io_fault {A} (f : fault) : io A := fun _ => Fault f.
Definition io_assert (b : bool) : io unit := if b then mret tt else io_fault AssertFail.
(** A routine that does not ask; [false] or a null pointer is [None]. *)
Definition io_try {A} (o : outcome A) : io (option A) := as_result o.
(** One that has no [Fail]. *)
Definition io_lift {A} (o : outcome A) : io A := fun w => let* a := o in Ret (a, w).

(** A routine of [dnssec.c]. *)
Definition with_keys {A} (f : dnssec_keys -> outcome (A * dnssec_keys)) : io A := fun w =>
  let* (a, keys) := f (w_keys w) in Ret (a, mk_world (w_next w) keys).

Section Calls.
Context `{Host}.

Definition malloc_ok : io bool := n ← ask; mret (host_al n 0%nat 0%nat).
Definition rr_create (type : Z) : io (option hsk_dns_rr_t) :=
  n ← ask; mret (hsk_dns_rr_create (host_al n 0%nat) type).
(** The name of a record is set; what the call returns is ignored everywhere. *)
Definition set_name (rr : hsk_dns_rr_t) (name : list Z) : io hsk_dns_rr_t :=
  r ← io_lift (hsk_dns_rr_set_name rr (Some name)); mret (snd r).
Definition rr_clone (rr : hsk_dns_rr_t) : io (option hsk_dns_rr_t) :=
  n ← ask; io_try (hsk_dns_rr_clone (host_al n 0%nat) (Some rr)).
(** [hsk_dnssec_sign_zsk(rrs, type)], whose result is ignored too: the list afterwards. *)
Definition sign_zsk (rrs : list hsk_dns_rr_t) (type : Z) : io (list hsk_dns_rr_t) :=
  n ← ask;
  r ← with_keys (fun keys => hsk_dnssec_sign_zsk host_endian host_garbage host_addr host_ecc_make_pubkey host_ecc_sign
        (host_al n) (host_clock n 0) (host_clock n 1) keys (Some rrs) type);
  mret (default rrs r).
Definition sign_ksk (rrs : list hsk_dns_rr_t) (type : Z) : io (list hsk_dns_rr_t) :=
  n ← ask;
  r ← with_keys (fun keys => hsk_dnssec_sign_ksk host_endian host_garbage host_addr host_ecc_make_pubkey host_ecc_sign
        (host_al n) (host_clock n 0) (host_clock n 1) keys (Some rrs) type);
  mret (default rrs r).
(** A key of [dnssec.c]. *)
Definition get_key (get : (nat -> bool) -> dnssec_keys -> outcome (hsk_dns_rr_t * dnssec_keys)) : io hsk_dns_rr_t :=
  n ← ask; with_keys (get (host_al n 0%nat)).
Definition hsk_now : io Z := n ← ask; _ ← io_assert (0 <=? host_clock n 0); mret (host_clock n 0).
End Calls.
