(* ===== verification/HostProps.v ===== *)
(** Runs of the routines that ask the host: rules for [io], and what the routines of [Host]
    do when there is memory. *)

From S2P Require Import Prelude Bio Map MapProps Sha256 Sha256Props Hkdf DnsName DnsNameProps DnsLabels DnsRecord DnsCodec DnsMsg DnsSafe Dnssec DnssecProps Host.

(** * The host *)

(** What is relied on: there is memory, the clock is set, the socket takes what is sent; the two keys of
    [dnssec.c] have public keys, and what is signed is signed with 64 bytes; a key of the server with a public
    key, which [hsk_ns_set_key] asks for, signs every hash. *)
Class HostOk `{Host} : Prop := {
  ok_al : host_al = fun _ _ _ => true;
  ok_garbage : bytes_n 64 host_garbage;
  ok_clock n i : 0 <= host_clock n i;
  ok_pubkey k : k = hsk_dnssec_ksk \/ k = hsk_dnssec_zsk -> exists p, host_ecc_make_pubkey k = Some p /\ bytes_n 64 p;
  ok_ecc_sign k m s : host_ecc_sign k m = Some s -> bytes_n 64 s;
  ok_ec_sign k m : is_Some (host_ec_create_pubkey k) -> bytes_n 32 m -> exists s, host_ec_sign_msg k m = Some s /\ bytes_n 64 s;
  ok_send n : host_udp_send n = 0;
}.

(** The keys that were made. *)
Definition key_ok (rr : hsk_dns_rr_t) : Prop :=
  rr_wf false rr /\ rr_name rr = [dot] /\ rr_type rr = HSK_DNS_DNSKEY /\ rr_class rr = HSK_DNS_IN /\
  exists k, rr_rd rr = Some (RDnskey k) /\ dnskey_ok k.
Definition ds_ok (rr : hsk_dns_rr_t) : Prop :=
  rr_wf false rr /\ rr_name rr = [dot] /\ rr_type rr = HSK_DNS_DS /\ rr_class rr = HSK_DNS_IN.
Definition made {A} (P : A -> Prop) (o : option A) : Prop := match o with Some a => P a | None => True end.
(** A key that the server takes. *)
Definition signer_ok `{Host} (key : option (list Z)) : Prop := made (fun k => is_Some (host_ec_create_pubkey k)) key.
Definition world_ok (w : world) : Prop :=
  made key_ok (ksk_key (w_keys w)) /\ made key_ok (zsk_key (w_keys w)) /\ made ds_ok (ksk_ds (w_keys w)).

(** * Runs *)

(** [m] returns, with a result for which [Q] holds. *)
Definition runs {A} (m : io A) (Q : A -> Prop) : Prop := forall w, world_ok w ->
  exists a w', m w = Ret (a, w') /\ world_ok w' /\ Q a.
Lemma runs_ret {A} (a : A) (Q : A -> Prop) : Q a -> runs (mret a) Q.
Proof. intros H w Hw. by exists a, w. Qed.
Lemma runs_bind {A B} (m : io A) (k : A -> io B) P Q : runs m P -> (forall a, P a -> runs (k a) Q) -> runs (a ← m; k a) Q.
Proof.
  intros Hm Hk w Hw. destruct (Hm w Hw) as (a & w1 & E & Hw1 & Ha). destruct (Hk a Ha w1 Hw1) as (b & w2 & E2 & Hw2 & Hb).
  exists b, w2. unfold mbind, io_bind. by rewrite E.
Qed.
Lemma runs_weaken {A} (m : io A) (P Q : A -> Prop) : runs m P -> (forall a, P a -> Q a) -> runs m Q.
Proof. intros Hm H w Hw. destruct (Hm w Hw) as (a & w' & E & Hw' & Ha). exists a, w'. auto. Qed.
Lemma runs_ask Q : (forall n, Q n) -> runs ask Q.
Proof. intros H w Hw. by exists (w_next w), (mk_world (S (w_next w)) (w_keys w)). Qed.
Lemma runs_lift {A} (o : outcome A) a (Q : A -> Prop) : o = Ret a -> Q a -> runs (io_lift o) Q.
Proof. intros -> H w Hw. by exists a, w. Qed.
Lemma runs_try {A} (o : outcome A) (Q : option A -> Prop) :
  match o with Ret a => Q (Some a) | Fail => Q None | Fault _ => False end -> runs (io_try o) Q.
Proof. intros H w Hw. unfold io_try, as_result. destruct o as [a| |f]; [by exists (Some a), w|by exists None, w|done]. Qed.
Lemma runs_assert (Q : unit -> Prop) b : b = true -> Q tt -> runs (io_assert b) Q.
Proof. intros -> H. by apply runs_ret. Qed.

(** * Records *)

Lemma rr_wf_intro n type class ttl rd s : name_wf false n -> in16 type -> in16 class -> in32 ttl ->
  kind_of_type type = kind_of_rd rd -> rd_wf false rd -> hsk_dns_rd_size rd type = Ret s -> s < 2 ^ 16 ->
  rr_wf false (mk_rr n type class ttl (Some rd)).
Proof. intros Hn Ht Hc Hl Hk Hw Hs Hlt. do 4 (split; [done|]). exists rd, s. by split_and!. Qed.
Lemma rr_wf_type_ok rr : rr_wf false rr -> rr_type_ok rr.
Proof.
  intros (Hn & Ht & Hc & Hl & rd & s & Hrd & Hk & Hw & _). do 4 (split; [done|]). exists rd. by split_and!.
Qed.
Lemma root_wf : name_wf false [dot].
Proof. exists []. split; [done|]. by split; [split; [constructor|]|]. Qed.
Lemma name_size mem n : name_wf false n -> exists s, hsk_dns_name_write mem n None = Ret (s, None) /\ 1 <= s <= 256.
Proof.
  intros (ls & -> & Hok & _). exists (Z.of_nat (length (body ls)) + 1). rewrite name_write_size by done. split; [done|].
  destruct Hok. lia.
Qed.

(** The name that a new record gets. *)
Definition owner_of (name : list Z) : list Z := if hsk_dns_name_dirty name then [dot] else name.
Lemma owner_wf name : name_wf false name -> name_wf false (owner_of name).
Proof. intros H. unfold owner_of. destruct (hsk_dns_name_dirty name); [apply root_wf|done]. Qed.
Lemma last_text ls : last (text ls) = Some dot.
Proof.
  destruct ls as [|l ls]; [done|]. rewrite text_body by done. rewrite last_lookup.
  replace (pred (length (body (l :: ls)))) with (length (body (l :: ls)) - 1)%nat by lia. by apply last_body.
Qed.
Lemma verify_ok name : name_wf false name -> hsk_dns_name_verify (Some name) = Ret true.
Proof.
  intros (ls & -> & Hok & _). unfold hsk_dns_name_verify. rewrite last_text, Z.eqb_refl. cbn [negb andb].
  assert (Hl : Z.of_nat (length (text ls)) <= 255) by (destruct ls; [done|apply Hok]).
  unfold HSK_DNS_MAX_NAME. destruct (Z.ltb_spec 255 (Z.of_nat (length (text ls)))); [lia|].
  unfold hsk_dns_name_pack, hsk_dns_name_serialize. destruct ls as [|l ls]; [done|]. rewrite text_body by done.
  rewrite (serialize_none _ _ _ (l :: ls) [] []) by done. cbn [obind sz_ok sz_out app]. rewrite length_app.
  by destruct (Z.eqb_spec (Z.of_nat (length (wire_labels (l :: ls)) + length [0])) 0); [cbn [length] in *; lia|].
Qed.
Lemma set_name_eq rr name : name_wf false name -> hsk_dns_rr_set_name rr (Some name) =
  Ret (negb (hsk_dns_name_dirty name),
       if hsk_dns_name_dirty name then rr else mk_rr name (rr_type rr) (rr_class rr) (rr_ttl rr) (rr_rd rr)).
Proof.
  intros Hn. unfold hsk_dns_rr_set_name. rewrite verify_ok by done. cbn [obind negb].
  destruct (hsk_dns_name_dirty name); [done|]. destruct Hn as (ls & -> & _). cbn [hsk_dns_name_is_fqdn].
  by rewrite last_text, Z.eqb_refl.
Qed.

Section Rules.
Context `{HostOk}.

Lemma al_true n i k : host_al n i k = true.
Proof. by rewrite ok_al. Qed.
Lemma runs_malloc (Q : bool -> Prop) : Q true -> runs malloc_ok Q.
Proof. intros HQ. eapply runs_bind; [by apply (runs_ask (fun _ => True))|]. intros n _. apply runs_ret. by rewrite al_true. Qed.
Lemma runs_rr_create type (Q : option hsk_dns_rr_t -> Prop) :
  Q (Some (mk_rr [dot] type HSK_DNS_IN 0 (Some (hsk_dns_rd_init type)))) -> runs (rr_create type) Q.
Proof.
  intros HQ. eapply runs_bind; [by apply (runs_ask (fun _ => True))|]. intros n _. apply runs_ret.
  unfold hsk_dns_rr_create, hsk_dns_rd_alloc. by rewrite !al_true.
Qed.
Lemma runs_set_name rr name (Q : hsk_dns_rr_t -> Prop) : name_wf false name -> rr_name rr = [dot] ->
  Q (mk_rr (owner_of name) (rr_type rr) (rr_class rr) (rr_ttl rr) (rr_rd rr)) -> runs (set_name rr name) Q.
Proof.
  intros Hn Hd HQ. eapply runs_bind; [apply (runs_lift _ _ (fun r => Ret r = hsk_dns_rr_set_name rr (Some name)) (set_name_eq rr name Hn))|].
  { by rewrite set_name_eq. }
  intros r Hr. rewrite set_name_eq in Hr by done. injection Hr as ->. apply runs_ret. cbn [snd]. unfold owner_of in HQ. destruct (hsk_dns_name_dirty name); [|done].
  destruct rr. cbn in *. by subst.
Qed.
Lemma runs_rr_clone rr (Q : option hsk_dns_rr_t -> Prop) : rr_wf false rr -> Q (Some rr) -> runs (rr_clone rr) Q.
Proof.
  intros Hw HQ. eapply runs_bind; [by apply (runs_ask (fun _ => True))|]. intros n _. apply runs_try.
  rewrite ok_al. by rewrite rr_clone_ok.
Qed.
Lemma runs_now (Q : Z -> Prop) : (forall now, 0 <= now -> Q now) -> runs hsk_now Q.
Proof.
  intros HQ. eapply runs_bind; [by apply (runs_ask (fun _ => True))|]. intros n _.
  eapply runs_bind; [apply (runs_assert (fun _ => True)); [|done]|intros _ _; apply runs_ret, HQ, ok_clock].
  apply Z.leb_le, ok_clock.
Qed.

(** ** Keys *)

Lemma runs_keys {A} (f : dnssec_keys -> outcome (A * dnssec_keys)) (Q : A -> Prop) :
  (forall w, world_ok w -> exists a k', f (w_keys w) = Ret (a, k') /\ world_ok (mk_world (w_next w) k') /\ Q a) -> runs (with_keys f) Q.
Proof.
  intros Hf w Hw. destruct (Hf w Hw) as (a & k' & E & Hk & Ha). exists a, (mk_world (w_next w) k').
  unfold with_keys. rewrite E. by split_and!.
Qed.
Lemma key_ok_new p ksk : bytes_n 64 p ->
  key_ok (mk_rr [dot] HSK_DNS_DNSKEY HSK_DNS_IN 10800 (Some (RDnskey (mk_dnskey (256 + Z.b2z ksk) 3 13 p)))).
Proof.
  intros [Hl Hb]. assert (Hk : dnskey_ok (mk_dnskey (256 + Z.b2z ksk) 3 13 p)).
  { split; [|cbn; lia]. cbn. split_and!; try done; by destruct ksk. }
  split; [|do 3 (split; [done|]); by eexists].
  eapply rr_wf_intro; [apply root_wf|done..|apply Hk|reflexivity|]. cbn -[Z.add Z.of_nat]. lia.
Qed.
Lemma made_key priv ksk : priv = hsk_dnssec_ksk \/ priv = hsk_dnssec_zsk -> exists k,
  assert_made (hsk_dns_dnskey_create host_ecc_make_pubkey all_ok [dot] priv ksk) = Ret k /\ key_ok k.
Proof.
  intros Hp. destruct (ok_pubkey priv Hp) as (p & E & Hb). eexists. split; [|by apply key_ok_new].
  change [dot] with (text []). by rewrite (dnskey_create_spec _ [] priv p ksk ltac:(by split; [constructor|])).
Qed.
Lemma get_ksk_spec w al : world_ok w -> al = all_ok -> exists k k',
  hsk_dnssec_get_ksk host_ecc_make_pubkey al (w_keys w) = Ret (k, k') /\ world_ok (mk_world (w_next w) k') /\ key_ok k /\
  ksk_ds k' = ksk_ds (w_keys w).
Proof.
  intros (Hk & Hz & Hd) ->. unfold hsk_dnssec_get_ksk. destruct (ksk_key (w_keys w)) as [k|] eqn:E.
  - exists k, (w_keys w). split; [done|]. split; [|done]. unfold world_ok. cbn. by rewrite E.
  - destruct (made_key hsk_dnssec_ksk true (or_introl eq_refl)) as (k & -> & Hko). cbn [obind].
    eexists _, _. split; [done|]. split; [|by split]. by split_and!.
Qed.
Lemma get_zsk_spec w al : world_ok w -> al = all_ok -> exists k k',
  hsk_dnssec_get_zsk host_ecc_make_pubkey al (w_keys w) = Ret (k, k') /\ world_ok (mk_world (w_next w) k') /\ key_ok k.
Proof.
  intros (Hk & Hz & Hd) ->. unfold hsk_dnssec_get_zsk. destruct (zsk_key (w_keys w)) as [k|] eqn:E.
  - exists k, (w_keys w). split; [done|]. split; [|done]. unfold world_ok. cbn. by rewrite E.
  - destruct (made_key hsk_dnssec_zsk false (or_intror eq_refl)) as (k & -> & Hko). cbn [obind].
    eexists _, _. split; [done|]. split; [|done]. by split_and!.
Qed.
Lemma runs_ksk (Q : hsk_dns_rr_t -> Prop) : (forall k, key_ok k -> Q k) -> runs (get_key (hsk_dnssec_get_ksk host_ecc_make_pubkey)) Q.
Proof.
  intros HQ. eapply runs_bind; [by apply (runs_ask (fun _ => True))|]. intros n _. apply runs_keys. intros w Hw.
  destruct (get_ksk_spec w (host_al n 0%nat) Hw) as (k & k' & E & Hw' & Hk & _); [by rewrite ok_al|]. exists k, k'. auto.
Qed.
Lemma runs_zsk (Q : hsk_dns_rr_t -> Prop) : (forall k, key_ok k -> Q k) -> runs (get_key (hsk_dnssec_get_zsk host_ecc_make_pubkey)) Q.
Proof.
  intros HQ. eapply runs_bind; [by apply (runs_ask (fun _ => True))|]. intros n _. apply runs_keys. intros w Hw.
  destruct (get_zsk_spec w (host_al n 0%nat) Hw) as (k & k' & E & Hw' & Hk); [by rewrite ok_al|]. exists k, k'. auto.
Qed.
Lemma runs_ds (Q : hsk_dns_rr_t -> Prop) : (forall d, ds_ok d -> Q d) ->
  runs (get_key (hsk_dnssec_get_ds host_endian host_garbage host_addr host_ecc_make_pubkey)) Q.
Proof.
  intros HQ. eapply runs_bind; [by apply (runs_ask (fun _ => True))|]. intros n _. apply runs_keys. intros w Hw.
  unfold hsk_dnssec_get_ds. destruct (ksk_ds (w_keys w)) as [d|] eqn:Ed.
  { assert (Hd : ds_ok d) by (destruct Hw as (_ & _ & Hd); by rewrite Ed in Hd). exists d, (w_keys w). auto. }
  destruct (get_ksk_spec w (host_al n 0%nat) Hw) as (k & k' & -> & Hw' & Hk & _); [by rewrite ok_al|]. cbn [obind].
  destruct Hk as ((_ & _ & _ & Httl & _) & Hn & Ht & Hc & kd & Hrd & Hkd). rewrite ok_al.
  assert (Ek : k = mk_rr (text []) HSK_DNS_DNSKEY HSK_DNS_IN (rr_ttl k) (Some (RDnskey kd))).
  { destruct k. cbn in *. by subst. }
  rewrite Ek. rewrite (ds_create_spec _ _ _ [] kd HSK_DNS_IN (rr_ttl k) ok_garbage ltac:(by split; [constructor|]) Hkd).
  cbn [assert_made obind].
  assert (Hdg := sha_digest_bytes ((wire_labels (List.map hsk_to_lower []) ++ [0]) ++ dnskey_wire kd)).
  revert Hdg. generalize (fips_sha256 ((wire_labels (List.map hsk_to_lower []) ++ [0]) ++ dnskey_wire kd)).
  intros dg [Hdl Hdb]. set (d := mk_rr _ _ _ _ _). assert (Hd : ds_ok d).
  { split; [|done]. destruct (keytag_spec kd Hkd) as [_ Htag]. destruct Hkd as [(_ & _ & Ha & _) _].
    eapply rr_wf_intro; [apply root_wf|done|done|done|done| |reflexivity|]; [by split_and?|]. cbn -[Z.add Z.of_nat]. lia. }
  exists d, (mk_keys (ksk_key k') (zsk_key k') (Some d)). split; [done|]. split; [|auto].
  destruct Hw' as (H1 & H2 & _). by split_and!.
Qed.

(** ** Signatures *)

(** The records of one type have one owner. *)
Definition one_set (type : Z) (l : list hsk_dns_rr_t) : Prop := exists owner, name_ok owner /\
  Forall (fun rr => rr_type rr = type -> hsk_to_lower (rr_name rr) = text owner /\ rr_class rr = HSK_DNS_IN) l.
(** [sig] is a record with the signature of the records of type [type]. *)
Definition signs (priv : list Z) (type : Z) (l : list hsk_dns_rr_t) (sig : hsk_dns_rr_t) : Prop := exists r hash,
  rr_wf false sig /\ rr_type sig = HSK_DNS_RRSIG /\ rr_rd sig = Some (RRrsig r) /\ rrsig_type_covered r = type /\
  hsk_dns_sighash host_endian host_garbage host_addr (fun _ => all_ok) (Some (filter (fun rr => rr_type rr = type) l)) (Some sig) =
    Ret hash /\ host_ecc_sign priv hash = Some (rrsig_signature r).
(** The signature is added, unless there is nothing to sign, no room, or no signature. *)
Definition signed (priv : list Z) (type : Z) (l l' : list hsk_dns_rr_t) : Prop :=
  (exists sig, l' = l ++ [sig] /\ (length l < 255)%nat /\ signs priv type l sig) \/
  (l' = l /\ (filter (fun rr => rr_type rr = type) l = [] \/ (255 <= length l)%nat \/ exists hash, host_ecc_sign priv hash = None)).

Lemma rrsig_size r : name_wf false (rrsig_signer_name r) -> exists s,
  hsk_dns_rd_size (RRrsig r) HSK_DNS_RRSIG = Ret s /\ s <= 274 + Z.of_nat (length (rrsig_signature r)).
Proof.
  intros Hn. destruct (name_size no_table _ Hn) as (n & En & Hr).
  exists (2 + (1 + (1 + (4 + (4 + (4 + (2 + (n + Z.of_nat (length (rrsig_signature r)))))))))). split; [|lia].
  unfold hsk_dns_rd_size, dsize. apply (f_equal (fun o => let* (s, _) := o in Ret s)
    (x := hsk_dns_rd_write no_table (RRrsig r) HSK_DNS_RRSIG None) (y := Ret (_, None))).
  unfold hsk_dns_rd_write. change (kind_of_type HSK_DNS_RRSIG) with KRrsig. cbv iota.
  repeat apply wsize_seq; try by apply wsize_lift. exact En.
Qed.
Lemma runs_sign_with priv (get : (nat -> bool) -> dnssec_keys -> outcome (hsk_dns_rr_t * dnssec_keys)) l type
    n (f : dnssec_keys -> outcome (option (list hsk_dns_rr_t) * dnssec_keys)) :
  (forall keys, f keys = let* (k, s) := get all_ok keys in
    as_result (hsk_dns_sign_type host_endian host_garbage host_addr host_ecc_sign (fun _ => all_ok) (host_clock n 0)
      (host_clock n 1) (Some l) type (Some k) (Some priv)) s) ->
  (forall w, world_ok w -> exists k k', get all_ok (w_keys w) = Ret (k, k') /\ world_ok (mk_world (w_next w) k') /\ key_ok k) ->
  Forall (rr_wf false) l -> one_set type l -> type <> HSK_DNS_SIG ->
  runs (with_keys f) (fun r => signed priv type l (default l r)).
Proof.
  intros Hf Hget Hl (owner & Hok & Hset) Hs. apply runs_keys. intros w Hw. rewrite Hf.
  destruct (Hget w Hw) as (k & k' & -> & Hw' & (Hkw & Hkn & Hkt & Hkc & kd & Hkr & Hkd)). cbn [obind].
  destruct (le_lt_dec 255 (length l)) as [Hlen|Hlen].
  { exists None, k'. unfold hsk_dns_sign_type. destruct (Nat.leb_spec 255 (length l)); [|lia]. split; [done|]. split; [done|].
    right. split; [done|]. auto. }
  destruct (filter (fun rr => rr_type rr = type) l) as [|item items] eqn:Ef.
  { exists None, k'. unfold hsk_dns_sign_type. destruct (Nat.leb_spec 255 (length l)); [lia|]. cbv beta iota. rewrite Ef.
    split; [done|]. split; [done|]. right. split; [done|]. auto. }
  assert (Hrs : rrset_ok owner type HSK_DNS_IN (item :: items)).
  { split; [done|]. split; [done|]. apply Forall_forall. intros rr Hrr. rewrite <-Ef in Hrr. apply list_elem_of_filter in Hrr as [Ht Hin].
    rewrite Forall_forall in Hl, Hset. destruct (Hset rr Hin Ht). by split_and!; [apply Hl|..]. }
  destruct (sign_type_spec host_endian host_garbage host_addr host_ecc_sign owner type HSK_DNS_IN l item items k kd priv
    (host_clock n 0) (host_clock n 1) ok_garbage Hok Hlen Ef Hrs Hkt Hkr Hkd) as (hash & E & Hv); [apply Hkw|].
  rewrite E. destruct (host_ecc_sign priv hash) as [s|] eqn:Es.
  2: { exists None, k'. split; [done|]. split; [done|]. right. split; [done|]. right. right. by exists hash. }
  destruct (ok_ecc_sign _ _ _ Es) as [Hsl Hsb]. eexists _, k'. split; [reflexivity|]. split; [done|]. left. cbn [default id].
  eexists. split; [reflexivity|]. split; [done|]. eexists _, hash. split; [|split; [done|split; [reflexivity|split; [done|split]]]].
  - destruct Hkw as (Hkname & _ & Hkcl & Hkttl & _). destruct (keytag_spec kd Hkd) as [_ Htag]. destruct Hkd as [Hkdw _]. cbn in Hkdw. destruct_and?.
    assert (Hitem : rr_wf false item) by (by destruct Hrs as (_ & _ & [[? _] _]%Forall_cons_1)).
    assert (Ht : rr_type item = type) by (by destruct Hrs as (_ & _ & [(_ & _ & ? & _) _]%Forall_cons_1)).
    destruct Hitem as (_ & Hit & _ & Hittl & _). rewrite Ht in Hit.
    assert (Hcnt := name_ok_count owner Hok). assert (R1 := u32_range (host_clock n 1 + 1209600)). assert (R2 := u32_range (host_clock n 0 - 1209600)).
    set (r := mk_rrsig _ _ _ _ _ _ _ _ _). destruct (rrsig_size r) as (sz & Esz & Hsz); [by apply name_wf_lower|].
    eapply rr_wf_intro; [by exists owner| |by rewrite Hkc|done|done| |exact Esz|].
    + done.
    + cbn. split_and!; try (done || lia). by apply name_wf_lower.
    + cbn [r rrsig_signature] in Hsz. lia.
  - rewrite Ef. by apply Hv.
  - exact Es.
Qed.
Lemma runs_sign_zsk l type (Q : list hsk_dns_rr_t -> Prop) : Forall (rr_wf false) l -> one_set type l -> type <> HSK_DNS_SIG ->
  (forall l', signed hsk_dnssec_zsk type l l' -> Q l') -> runs (sign_zsk l type) Q.
Proof.
  intros Hl Hs Ht HQ. eapply runs_bind; [by apply (runs_ask (fun _ => True))|]. intros n _.
  eapply runs_bind; [|intros r Hr; apply runs_ret, HQ, Hr].
  eapply (runs_sign_with hsk_dnssec_zsk (hsk_dnssec_get_zsk host_ecc_make_pubkey) l type n); [|by intros; apply get_zsk_spec|done..].
  intros keys. unfold hsk_dnssec_sign_zsk. rewrite ok_al. reflexivity.
Qed.
Lemma runs_sign_ksk l type (Q : list hsk_dns_rr_t -> Prop) : Forall (rr_wf false) l -> one_set type l -> type <> HSK_DNS_SIG ->
  (forall l', signed hsk_dnssec_ksk type l l' -> Q l') -> runs (sign_ksk l type) Q.
Proof.
  intros Hl Hs Ht HQ. eapply runs_bind; [by apply (runs_ask (fun _ => True))|]. intros n _.
  eapply runs_bind; [|intros r Hr; apply runs_ret, HQ, Hr].
  eapply (runs_sign_with hsk_dnssec_ksk (hsk_dnssec_get_ksk host_ecc_make_pubkey) l type n); [| |done..].
  - intros keys. unfold hsk_dnssec_sign_ksk. rewrite ok_al. reflexivity.
  - intros w Hw. destruct (get_ksk_spec w all_ok Hw eq_refl) as (k & k' & ? & ? & ? & _). by exists k, k'.
Qed.
End Rules.
