(* ===== verification/Resource.v ===== *)
(** The resource records of a name: [resource.c], with the calendar of [utils.c].

    The data that the chain commits to for a name is decoded to a list of records, from
    which the answers to DNS queries are made. Where the code ignores that a record was cut
    short, the record has what was written to it so far. *)

From S2P Require Import Prelude Bio Base32 Addr Map MapProps DnsName DnsRecord DnsMsg Sha256 Hkdf Dnssec Host.

(** * Records *)

Definition HSK_DS : Z := 0.
Definition HSK_NS : Z := 1.
Definition HSK_GLUE4 : Z := 2.
Definition HSK_GLUE6 : Z := 3.
Definition HSK_SYNTH4 : Z := 4.
Definition HSK_SYNTH6 : Z := 5.
Definition HSK_TEXT : Z := 6.
Definition HSK_DEFAULT_TTL : Z := 21600.

Record hsk_ds_record_t := mk_ds_record {
  dsr_key_tag : Z;
  dsr_algorithm : Z;
  dsr_digest_type : Z;
  dsr_digest : list Z;
}.
(** The struct that [type] tells. The texts are pointers: [None] is null or was freed. *)
Inductive hsk_record_t :=
  | RecDs (r : hsk_ds_record_t)
  | RecNs (name : list Z)
  | RecGlue4 (name inet4 : list Z)
  | RecGlue6 (name inet6 : list Z)
  | RecSynth4 (inet4 : list Z)
  | RecSynth6 (inet6 : list Z)
  | RecTxt (txts : list (option (list Z))).
Definition record_type (r : hsk_record_t) : Z :=
  match r with
  | RecDs _ => HSK_DS | RecNs _ => HSK_NS | RecGlue4 _ _ => HSK_GLUE4 | RecGlue6 _ _ => HSK_GLUE6
  | RecSynth4 _ => HSK_SYNTH4 | RecSynth6 _ => HSK_SYNTH6 | RecTxt _ => HSK_TEXT
  end.
Record hsk_resource_t := mk_resource {
  res_version : Z;
  res_ttl : Z;
  res_records : list hsk_record_t;
}.

(** ** Reading

    A reader gives what it returns, the record and the bytes that remain. *)

(** What a parse that fails has written to [name]: the labels that it passed. *)
Fixpoint written_loop (fuel : nat) (dmp : option (list Z)) (data : list Z) (off : Z) (name : list Z) (ptr : Z)
    : outcome (list Z) :=
  match fuel with
  | O => Fault Hang
  | S fuel' =>
      if Z.of_nat (length data) <=? off then Ret name
      else
        let* c := of_option Overread (data !! Z.to_nat off) in
        let off := off + 1 in
        if c =? 0x00 then Ret (match name with [] => [dot] | _ => name end)
        else if Z.land c 0xc0 =? 0x00 then
          if HSK_DNS_MAX_LABEL <? c then Ret name
          else if Z.of_nat (length data) <? off + c then Ret name
          else if HSK_DNS_MAX_NAME <? Z.of_nat (length name) + c + 1 then Ret name
          else
            let label := take (Z.to_nat c) (drop (Z.to_nat off) data) in
            written_loop fuel' dmp data (off + c) (name ++ List.map name_char label ++ [dot]) ptr
        else if Z.land c 0xc0 =? 0xc0 then
          match dmp with
          | None => Ret name
          | Some msg =>
              if Z.of_nat (length data) <=? off then Ret name
              else
                let* c1 := of_option Overread (data !! Z.to_nat off) in
                if 10 <? ptr + 1 then Ret name
                else written_loop fuel' dmp msg (Z.lor (Z.shiftl (Z.lxor c 0xc0) 8) c1) name (ptr + 1)
          end
        else Ret name
  end.
(** [hsk_dns_name_read] into a buffer of zeros. *)
Definition name_into (dmp : option (list Z)) (d : list Z) : outcome (bool * list Z * list Z) :=
  match hsk_dns_name_read dmp d with
  | Ret (name, d') => Ret (true, name, d')
  | Fail => let* name := written_loop parse_fuel dmp d 0 [] 0 in Ret (false, name, d)
  | Fault f => Fault f
  end.
(** [read_bytes] into a buffer of zeros. *)
Definition bytes_into (n : Z) (d : list Z) : outcome (bool * list Z * list Z) :=
  match read_bytes n d with
  | Ret (bs, d') => Ret (true, bs, d')
  | Fail => Ret (false, replicate (Z.to_nat n) 0, d)
  | Fault f => Fault f
  end.

Definition ds_head : rd (Z * Z * Z * Z) :=
  key_tag <- read_u16be ;; algorithm <- read_u8 ;; digest_type <- read_u8 ;; size <- read_u8 ;;
  rret (key_tag, algorithm, digest_type, size).
Definition hsk_ds_record_read (d : list Z) : outcome (bool * hsk_record_t * list Z) :=
  if Z.of_nat (length d) <? 5 then Ret (false, RecDs (mk_ds_record 0 0 0 []), d)
  else
    let* (h, d) := ds_head d in
    let '(key_tag, algorithm, digest_type, size) := h in
    if 64 <? size then Ret (false, RecDs (mk_ds_record key_tag algorithm digest_type []), d)
    else match read_bytes size d with
         | Ret (digest, d) => Ret (true, RecDs (mk_ds_record key_tag algorithm digest_type digest), d)
         | Fail => Ret (false, RecDs (mk_ds_record key_tag algorithm digest_type []), d)
         | Fault f => Fault f
         end.
Definition hsk_ns_record_read (dmp : option (list Z)) (d : list Z) : outcome (bool * hsk_record_t * list Z) :=
  let* (r, d) := name_into dmp d in
  Ret (fst r, RecNs (snd r), d).
Definition hsk_glue4_record_read (dmp : option (list Z)) (d : list Z) : outcome (bool * hsk_record_t * list Z) :=
  let* (r, d) := name_into dmp d in
  if negb (fst r) then Ret (false, RecGlue4 (snd r) (replicate 4 0), d)
  else let* (b, d) := bytes_into 4 d in Ret (fst b, RecGlue4 (snd r) (snd b), d).
Definition hsk_glue6_record_read (dmp : option (list Z)) (d : list Z) : outcome (bool * hsk_record_t * list Z) :=
  let* (r, d) := name_into dmp d in
  if negb (fst r) then Ret (false, RecGlue6 (snd r) (replicate 16 0), d)
  else let* (b, d) := bytes_into 16 d in Ret (fst b, RecGlue6 (snd r) (snd b), d).
Definition hsk_synth4_record_read (d : list Z) : outcome (bool * hsk_record_t * list Z) :=
  let* (b, d) := bytes_into 4 d in Ret (fst b, RecSynth4 (snd b), d).
Definition hsk_synth6_record_read (d : list Z) : outcome (bool * hsk_record_t * list Z) :=
  let* (b, d) := bytes_into 16 d in Ret (fst b, RecSynth6 (snd b), d).

(** The loop: [n] texts are missing. Those that are not read stay null, or were freed. *)
Fixpoint txts_into (n : nat) (al : nat -> bool) (txts : list (option (list Z))) (d : list Z) :
    outcome (bool * list (option (list Z)) * list Z) :=
  match n with
  | O => Ret (true, txts, d)
  | S n' =>
      if al 0%nat then
        match read_u8 d with
        | Ret (size, d) =>
            match read_bytes size d with
            | Ret (data, d) => txts_into n' (fun i => al (S i)) (txts ++ [Some data]) d
            | Fail => Ret (false, txts ++ replicate n None, d)
            | Fault f => Fault f
            end
        | Fail => Ret (false, txts ++ replicate n None, d)
        | Fault f => Fault f
        end
      else Ret (false, txts ++ replicate n None, d)
  end.
Definition hsk_txt_record_read (al : nat -> bool) (d : list Z) : outcome (bool * hsk_record_t * list Z) :=
  match read_u8 d with
  | Ret (length, d) =>
      let* (r, d) := txts_into (Z.to_nat length) al [] d in
      Ret (fst r, RecTxt (snd r), d)
  | Fail => Ret (false, RecTxt [], d)
  | Fault f => Fault f
  end.

(** [hsk_record_alloc] with [hsk_record_init]: a failed allocation is dereferenced. *)
Definition hsk_record_alloc (malloc_ok : bool) (type : Z) : outcome (option hsk_record_t) :=
  let made r := if malloc_ok : bool then Ret (Some r) else Fault NullDeref in
  if type =? HSK_DS then made (RecDs (mk_ds_record 0 0 0 []))
  else if type =? HSK_NS then made (RecNs [])
  else if type =? HSK_GLUE4 then made (RecGlue4 [] (replicate 4 0))
  else if type =? HSK_GLUE6 then made (RecGlue6 [] (replicate 16 0))
  else if type =? HSK_SYNTH4 then made (RecSynth4 (replicate 4 0))
  else if type =? HSK_SYNTH6 then made (RecSynth6 (replicate 16 0))
  else if type =? HSK_TEXT then made (RecTxt [])
  else Ret None.
(** What the readers return is ignored. *)
Definition hsk_record_read (al : nat -> bool) (type : Z) (dmp : option (list Z)) : rd hsk_record_t := fun d =>
  let* r := hsk_record_alloc (al 0%nat) type in
  match r with
  | None => Fail
  | Some r =>
      let* (x, d) := match r with
                     | RecDs _ => hsk_ds_record_read d
                     | RecNs _ => hsk_ns_record_read dmp d
                     | RecGlue4 _ _ => hsk_glue4_record_read dmp d
                     | RecGlue6 _ _ => hsk_glue6_record_read dmp d
                     | RecSynth4 _ => hsk_synth4_record_read d
                     | RecSynth6 _ => hsk_synth6_record_read d
                     | RecTxt _ => hsk_txt_record_read (fun i => al (S i)) d
                     end in
      Ret (snd x, d)
  end.

(** The loop stores at [records[i]], an array of 255; the fuel is the number of bytes. *)
Fixpoint records_loop (fuel : nat) (al : nat -> nat -> bool) (dmp : option (list Z)) (i : nat)
    (records : list hsk_record_t) (d : list Z) : outcome (list hsk_record_t) :=
  match d with
  | [] => Ret records
  | _ =>
      match fuel with
      | O => Fault Hang
      | S fuel' =>
          let* (type, d) := read_u8 d in
          let* (r, d) := hsk_record_read (al i) type dmp d in
          if (255 <=? i)%nat then Fault Overread
          else records_loop fuel' al dmp (S i) (records ++ [r]) d
      end
  end.
Definition hsk_resource_decode (malloc_ok : bool) (al : nat -> nat -> bool) (data : list Z) : outcome hsk_resource_t :=
  if malloc_ok then
    let* (version, d) := read_u8 data in
    if negb (version =? 0) then Fail
    else
      let* records := records_loop (length d) al (Some data) 0 [] d in
      Ret (mk_resource version HSK_DEFAULT_TTL records)
  else Fail.

Definition hsk_resource_get (res : hsk_resource_t) (type : Z) : option hsk_record_t :=
  List.find (fun rec => record_type rec =? type) (res_records res).
Definition hsk_resource_has (res : hsk_resource_t) (type : Z) : bool :=
  match hsk_resource_get res type with Some _ => true | None => false end.
Definition hsk_resource_has_ns (res : hsk_resource_t) : bool :=
  existsb (fun rec => (HSK_NS <=? record_type rec) && (record_type rec <=? HSK_SYNTH6)) (res_records res).

(** * Dates *)

(** [hsk_date]: year, month, day, hour, minute and second. [int] has 32 bits. *)
Definition hsk_date (now : Z) : Z * Z * Z * Z * Z * Z :=
  let s := i32 now in
  let z := Z.quot s 86400 + 719468 in
  let era := Z.quot (if 0 <=? z then z else z - 146096) 146097 in
  let doe := u32 (z - era * 146097) in
  let yoe := u32 (doe - doe / 1460 + doe / 36524 - doe / 146096) / 365 in
  let y := i32 yoe + era * 400 in
  let doy := u32 (doe - u32 (365 * yoe + yoe / 4 - yoe / 100)) in
  let mp := u32 (5 * doy + 2) / 153 in
  let d := u32 (doy - u32 (153 * mp + 2) / 5 + 1) in
  let m := u32 (mp + (if mp <? 10 then 3 else -9)) in
  let y := y + (if m <=? 2 then 1 else 0) in
  (u32 y, m, d, u32 (Z.rem (Z.quot s 3600) 24), u32 (Z.rem (Z.quot s 60) 60), u32 (Z.rem s 60)).

Section Answers.
Context `{Host}.

Definition hsk_ymdh : io (Z * Z * Z * Z) :=
  now ← hsk_now;
  let '(year, month, day, hour, _, _) := hsk_date now in mret (year, month, day, hour).

(** * Sets of records

    A routine gives what it returns, which its callers ignore, and the set. *)

Definition HSK_DNS_AA : Z := Z.shiftl 1 10.
Definition HSK_DNS_SERVFAIL : Z := 2.
Definition HSK_DNS_NXDOMAIN : Z := 3.
Definition HSK_DNS_NOTIMP : Z := 4.

(** The record with its time and data. *)
Definition fill (rr : hsk_dns_rr_t) (ttl : Z) (rd : hsk_dns_rd_t) : hsk_dns_rr_t :=
  mk_rr (rr_name rr) (rr_type rr) (rr_class rr) ttl (Some rd).
(** Creates a record of type [type], fills it in and adds it to [an]. *)
Definition push_record (type : Z) (name : list Z) (ttl : Z) (rd : hsk_dns_rd_t) (an : list hsk_dns_rr_t) :
    io (bool * list hsk_dns_rr_t) :=
  rr ← rr_create type;
  match rr with
  | None => mret (false, an)
  | Some rr => rr ← set_name rr name; mret (true, push_item an (fill rr ttl rd))
  end.

(** "_" the address in base 32 "._synth.", which fits the buffers. *)
Definition synth_suffix : list Z := [46; 95; 115; 121; 110; 116; 104; 46].
Definition synth_name (ip : list Z) : list Z := 95 :: hsk_base32_encode_hex ip false ++ synth_suffix.

(** The name of the server that a record tells, if it does. *)
Definition record_nsname (c : hsk_record_t) : outcome (option (list Z)) :=
  match c with
  | RecSynth4 ip | RecSynth6 ip => Ret (Some (synth_name ip))
  | RecNs name | RecGlue4 name _ | RecGlue6 name _ =>
      let* _ := oassert (hsk_dns_name_is_fqdn (Some name)) in Ret (Some name)
  | _ => Ret None
  end.
Fixpoint to_ns_loop (ttl : Z) (name : list Z) (records : list hsk_record_t) (an : list hsk_dns_rr_t) :
    io (bool * list hsk_dns_rr_t) :=
  match records with
  | [] => mret (true, an)
  | c :: records' =>
      nsname ← io_lift (record_nsname c);
      match nsname with
      | None => to_ns_loop ttl name records' an
      | Some nsname =>
          r ← push_record HSK_DNS_NS name ttl (RNs nsname) an;
          if fst r : bool then to_ns_loop ttl name records' (snd r) else mret r
      end
  end.
Definition hsk_resource_to_ns (res : hsk_resource_t) (name : list Z) (an : list hsk_dns_rr_t) :
    io (bool * list hsk_dns_rr_t) := to_ns_loop (res_ttl res) name (res_records res) an.

(** The loop on the texts. *)
Fixpoint copy_txts (items : list (option (list Z))) (txts : list (list Z)) : io (option (list (list Z))) :=
  match items with
  | [] => mret (Some txts)
  | item :: items' =>
      ok ← malloc_ok;
      if ok : bool then
        match item with
        | None => io_fault NullDeref
        | Some data =>
            _ ← io_assert (Z.of_nat (length data) <=? 255);
            copy_txts items' (push_item txts data)
        end
      else mret None
  end.
Fixpoint to_txt_loop (ttl : Z) (name : list Z) (records : list hsk_record_t) (an : list hsk_dns_rr_t) :
    io (bool * list hsk_dns_rr_t) :=
  match records with
  | [] => mret (true, an)
  | RecTxt items :: records' =>
      rr ← rr_create HSK_DNS_TXT;
      match rr with
      | None => mret (false, an)
      | Some rr =>
          rr ← set_name rr name;
          txts ← copy_txts items [];
          match txts with
          | None => mret (false, an)
          | Some txts => to_txt_loop ttl name records' (push_item an (fill rr ttl (RTxt txts)))
          end
      end
  | _ :: records' => to_txt_loop ttl name records' an
  end.
Definition hsk_resource_to_txt (res : hsk_resource_t) (name : list Z) (an : list hsk_dns_rr_t) :
    io (bool * list hsk_dns_rr_t) := to_txt_loop (res_ttl res) name (res_records res) an.

Fixpoint to_ds_loop (ttl : Z) (name : list Z) (records : list hsk_record_t) (an : list hsk_dns_rr_t) :
    io (bool * list hsk_dns_rr_t) :=
  match records with
  | [] => mret (true, an)
  | RecDs rec :: records' =>
      rr ← rr_create HSK_DNS_DS;
      match rr with
      | None => mret (false, an)
      | Some rr =>
          rr ← set_name rr name;
          ok ← malloc_ok;
          if ok : bool then
            to_ds_loop ttl name records' (push_item an (fill rr ttl
              (RDs (mk_ds (dsr_key_tag rec) (dsr_algorithm rec) (dsr_digest_type rec) (dsr_digest rec)))))
          else mret (false, an)
      end
  | _ :: records' => to_ds_loop ttl name records' an
  end.
Definition hsk_resource_to_ds (res : hsk_resource_t) (name : list Z) (an : list hsk_dns_rr_t) :
    io (bool * list hsk_dns_rr_t) := to_ds_loop (res_ttl res) name (res_records res) an.

(** The name of a synthesised address is printed to the record without the checks of
    [hsk_dns_rr_set_name]. *)
Definition push_synth (type : Z) (ttl : Z) (ip : list Z) (rd : hsk_dns_rd_t) (an : list hsk_dns_rr_t) :
    io (bool * list hsk_dns_rr_t) :=
  rr ← rr_create type;
  match rr with
  | None => mret (false, an)
  | Some rr => mret (true, push_item an (mk_rr (synth_name ip) (rr_type rr) (rr_class rr) ttl (Some rd)))
  end.
Definition record_glue (ttl : Z) (tld : list Z) (c : hsk_record_t) (an : list hsk_dns_rr_t) :
    io (bool * list hsk_dns_rr_t) :=
  match c with
  | RecGlue4 name ip =>
      sub ← io_lift (hsk_dns_is_subdomain tld name);
      if sub : bool then push_record HSK_DNS_A name ttl (RA ip) an else mret (true, an)
  | RecSynth4 ip => push_synth HSK_DNS_A ttl ip (RA ip) an
  | RecGlue6 name ip =>
      sub ← io_lift (hsk_dns_is_subdomain tld name);
      if sub : bool then push_record HSK_DNS_AAAA name ttl (RAaaa ip) an else mret (true, an)
  | RecSynth6 ip => push_synth HSK_DNS_AAAA ttl ip (RAaaa ip) an
  | _ => mret (true, an)
  end.
Fixpoint to_glue_loop (ttl : Z) (tld : list Z) (records : list hsk_record_t) (an : list hsk_dns_rr_t) :
    io (bool * list hsk_dns_rr_t) :=
  match records with
  | [] => mret (true, an)
  | c :: records' =>
      r ← record_glue ttl tld c an;
      if fst r : bool then to_glue_loop ttl tld records' (snd r) else mret r
  end.
Definition hsk_resource_to_glue (res : hsk_resource_t) (tld : list Z) (an : list hsk_dns_rr_t) :
    io (bool * list hsk_dns_rr_t) := to_glue_loop (res_ttl res) tld (res_records res) an.

(** ** The root zone *)

Definition root_name : list Z := [dot].
(** The numbers are doubles and exact. *)
Definition soa_serial_of (date : Z * Z * Z * Z) : Z :=
  let '(year, month, day, hour) := date in
  u32 (u32 (year * 1000000) + u32 (month * 10000) + u32 (day * 100) + hour).
Definition hsk_resource_root_to_soa (an : list hsk_dns_rr_t) : io (bool * list hsk_dns_rr_t) :=
  rr ← rr_create HSK_DNS_SOA;
  match rr with
  | None => mret (false, an)
  | Some rr =>
      rr ← set_name rr root_name;
      date ← hsk_ymdh;
      mret (true, push_item an (fill rr 86400 (RSoa (mk_soa root_name root_name (soa_serial_of date) 1800 900 604800 86400))))
  end.
Definition hsk_resource_root_to_ns (an : list hsk_dns_rr_t) : io (bool * list hsk_dns_rr_t) :=
  push_record HSK_DNS_NS root_name 518400 (RNs root_name) an.
Definition hsk_resource_root_to_a (an : list hsk_dns_rr_t) (addr : hsk_addr_t) : io (bool * list hsk_dns_rr_t) :=
  if negb (hsk_addr_is_ip4 addr) then mret (true, an)
  else push_record HSK_DNS_A root_name 518400 (RA (take 4 (hsk_addr_get_ip addr))) an.
Definition hsk_resource_root_to_aaaa (an : list hsk_dns_rr_t) (addr : hsk_addr_t) : io (bool * list hsk_dns_rr_t) :=
  if negb (hsk_addr_is_ip6 addr) then mret (true, an)
  else push_record HSK_DNS_AAAA root_name 518400 (RAaaa (take 16 (hsk_addr_get_ip addr))) an.
Definition hsk_resource_root_to_dnskey (an : list hsk_dns_rr_t) : io (bool * list hsk_dns_rr_t) :=
  ksk ← get_key (hsk_dnssec_get_ksk host_ecc_make_pubkey);
  ksk_rr ← rr_clone ksk;
  match ksk_rr with
  | None => mret (false, an)
  | Some ksk_rr =>
      let an := push_item an ksk_rr in
      zsk ← get_key (hsk_dnssec_get_zsk host_ecc_make_pubkey);
      zsk_rr ← rr_clone zsk;
      match zsk_rr with
      | None => mret (false, an)
      | Some zsk_rr => mret (true, push_item an zsk_rr)
      end
  end.
Definition hsk_resource_root_to_ds (an : list hsk_dns_rr_t) : io (bool * list hsk_dns_rr_t) :=
  ds ← get_key (hsk_dnssec_get_ds host_endian host_garbage host_addr host_ecc_make_pubkey);
  rr ← rr_clone ds;
  match rr with
  | None => mret (false, an)
  | Some rr => mret (true, push_item an rr)
  end.

(** [None] is a null [type_map]. *)
Definition hsk_resource_to_empty (name : list Z) (type_map : option (list Z)) (an : list hsk_dns_rr_t) :
    io (bool * list hsk_dns_rr_t) :=
  rr ← rr_create HSK_DNS_NSEC;
  match rr with
  | None => mret (false, an)
  | Some rr =>
      rr ← set_name rr name;
      match type_map with
      | None => mret (true, push_item an (fill rr 86400 (RNsec (mk_nsec root_name []))))
      | Some map =>
          ok ← malloc_ok;
          if ok : bool then mret (true, push_item an (fill rr 86400 (RNsec (mk_nsec root_name map))))
          else mret (false, an)
      end
  end.
(** NS SOA RRSIG NSEC DNSKEY *)
Definition hsk_type_map : list Z := [0x00; 0x07; 0x22; 0x00; 0x00; 0x00; 0x00; 0x03; 0x80].
Definition hsk_resource_root_to_nsec (an : list hsk_dns_rr_t) : io (bool * list hsk_dns_rr_t) :=
  rr ← rr_create HSK_DNS_NSEC;
  match rr with
  | None => mret (false, an)
  | Some rr =>
      ok ← malloc_ok;
      if ok : bool then
        rr ← set_name rr root_name;
        mret (true, push_item an (fill rr 86400 (RNsec (mk_nsec root_name hsk_type_map))))
      else mret (false, an)
  end.

(** * Answers *)

Definition or_flags (msg : hsk_dns_msg_t) (f : Z) : hsk_dns_msg_t :=
  mk_msg (msg_id msg) (msg_opcode msg) (msg_code msg) (Z.lor (msg_flags msg) f) (msg_qd msg) (msg_an msg) (msg_ns msg)
    (msg_ar msg) (msg_edns msg).
Definition with_code (msg : hsk_dns_msg_t) (code : Z) : hsk_dns_msg_t :=
  mk_msg (msg_id msg) (msg_opcode msg) code (msg_flags msg) (msg_qd msg) (msg_an msg) (msg_ns msg) (msg_ar msg) (msg_edns msg).
Definition hsk_dns_msg_alloc : io (option hsk_dns_msg_t) :=
  ok ← malloc_ok; mret (if ok : bool then Some hsk_dns_msg_init else None).
(** One step on a section, and the signature of its records of one type. *)
Definition and_sign (m : list hsk_dns_rr_t -> io (bool * list hsk_dns_rr_t)) (type : Z) (l : list hsk_dns_rr_t) :
    io (list hsk_dns_rr_t) :=
  r ← m l; sign_zsk (snd r) type.

(** The records that refer to the servers of a name, or prove that it has none. *)
Definition referral (rs : hsk_resource_t) (tld : list Z) (msg : hsk_dns_msg_t) : io hsk_dns_msg_t :=
  if hsk_resource_has_ns rs then
    r ← hsk_resource_to_ns rs tld (msg_ns msg);
    r ← hsk_resource_to_ds rs tld (snd r);
    g ← hsk_resource_to_glue rs tld (msg_ar msg);
    ns ← sign_zsk (snd r) (if negb (hsk_resource_has rs HSK_DS) then HSK_DNS_NS else HSK_DNS_DS);
    mret (with_ar (with_ns msg ns) (snd g))
  else
    ns ← and_sign (hsk_resource_to_empty tld None) HSK_DNS_NSEC (msg_ns msg);
    ns ← and_sign hsk_resource_root_to_soa HSK_DNS_SOA ns;
    mret (with_ns msg ns).
(** The [switch] on the types that the chain holds. *)
Definition direct_answer (rs : hsk_resource_t) (name : list Z) (type : Z) (msg : hsk_dns_msg_t) : io hsk_dns_msg_t :=
  if type =? HSK_DNS_DS then
    an ← and_sign (hsk_resource_to_ds rs name) HSK_DNS_DS (msg_an msg); mret (with_an msg an)
  else if type =? HSK_DNS_NS then
    r ← hsk_resource_to_ns rs name (msg_ns msg);
    g ← hsk_resource_to_glue rs name (msg_ar msg);
    ns ← sign_zsk (snd r) HSK_DNS_NS;
    mret (with_ar (with_ns msg ns) (snd g))
  else if type =? HSK_DNS_TXT then
    an ← and_sign (hsk_resource_to_txt rs name) HSK_DNS_TXT (msg_an msg); mret (with_an msg an)
  else mret msg.
Definition is_nil {A} (l : list A) : bool := match l with [] => true | _ => false end.
(** [tld] has room for 254 characters. *)
Definition hsk_resource_to_dns (rs : hsk_resource_t) (name : list Z) (type : Z) : io (option hsk_dns_msg_t) :=
  _ ← io_assert (hsk_dns_name_is_fqdn (Some name));
  let labels := hsk_dns_label_count name in
  if labels =? 0 then mret None
  else
    tld ← io_lift (hsk_dns_label_from name (-1));
    if HSK_DNS_MAX_NAME <=? Z.of_nat (length tld) then io_fault Overread
    else if HSK_DNS_MAX_LABEL + 1 <? Z.of_nat (length tld) then mret None
    else
      msg ← hsk_dns_msg_alloc;
      match msg with
      | None => mret None
      | Some msg =>
          if 1 <? labels then msg ← referral rs tld msg; mret (Some msg)
          else
            msg ← direct_answer rs name type msg;
            let msg := if negb (is_nil (msg_an msg)) then or_flags msg HSK_DNS_AA else msg in
            if is_nil (msg_an msg) && is_nil (msg_ns msg) then msg ← referral rs name msg; mret (Some msg)
            else mret (Some msg)
      end.

(** The addresses of the server itself. *)
Definition root_glue (addr : hsk_addr_t) (msg : hsk_dns_msg_t) : io hsk_dns_msg_t :=
  msg ← (if hsk_addr_is_ip4 addr then
           ar ← and_sign (fun l => hsk_resource_root_to_a l addr) HSK_DNS_A (msg_ar msg); mret (with_ar msg ar)
         else mret msg);
  if hsk_addr_is_ip6 addr then
    ar ← and_sign (fun l => hsk_resource_root_to_aaaa l addr) HSK_DNS_AAAA (msg_ar msg); mret (with_ar msg ar)
  else mret msg.
(** [None] is a null address, which the tests of its family refuse. *)
Definition need_addr {A} (addr : option hsk_addr_t) (k : hsk_addr_t -> io A) : io A :=
  match addr with Some a => k a | None => io_fault AssertFail end.
Definition hsk_resource_root (type : Z) (addr : option hsk_addr_t) : io (option hsk_dns_msg_t) :=
  msg ← hsk_dns_msg_alloc;
  match msg with
  | None => mret None
  | Some msg =>
      let msg := or_flags msg HSK_DNS_AA in
      if (type =? HSK_DNS_ANY) || (type =? HSK_DNS_NS) then
        an ← and_sign hsk_resource_root_to_ns HSK_DNS_NS (msg_an msg);
        msg ← need_addr addr (fun a => root_glue a (with_an msg an));
        mret (Some msg)
      else if type =? HSK_DNS_SOA then
        an ← and_sign hsk_resource_root_to_soa HSK_DNS_SOA (msg_an msg);
        ns ← and_sign hsk_resource_root_to_ns HSK_DNS_NS (msg_ns msg);
        msg ← need_addr addr (fun a => root_glue a (with_ns (with_an msg an) ns));
        mret (Some msg)
      else if type =? HSK_DNS_DNSKEY then
        r ← hsk_resource_root_to_dnskey (msg_an msg);
        an ← sign_ksk (snd r) HSK_DNS_DNSKEY;
        mret (Some (with_an msg an))
      else if type =? HSK_DNS_DS then
        an ← and_sign hsk_resource_root_to_ds HSK_DNS_DS (msg_an msg);
        mret (Some (with_an msg an))
      else
        ns ← and_sign hsk_resource_root_to_nsec HSK_DNS_NSEC (msg_ns msg);
        ns ← and_sign hsk_resource_root_to_soa HSK_DNS_SOA ns;
        mret (Some (with_ns msg ns))
  end.
Definition hsk_resource_to_nx : io (option hsk_dns_msg_t) :=
  msg ← hsk_dns_msg_alloc;
  match msg with
  | None => mret None
  | Some msg =>
      let msg := or_flags (with_code msg HSK_DNS_NXDOMAIN) HSK_DNS_AA in
      r ← hsk_resource_root_to_nsec (msg_ns msg);
      ns ← and_sign hsk_resource_root_to_nsec HSK_DNS_NSEC (snd r);
      ns ← and_sign hsk_resource_root_to_soa HSK_DNS_SOA ns;
      mret (Some (with_ns msg ns))
  end.
Definition with_code_only (code : Z) : io (option hsk_dns_msg_t) :=
  msg ← hsk_dns_msg_alloc; mret (match msg with Some msg => Some (with_code msg code) | None => None end).
Definition hsk_resource_to_servfail : io (option hsk_dns_msg_t) := with_code_only HSK_DNS_SERVFAIL.
Definition hsk_resource_to_notimp : io (option hsk_dns_msg_t) := with_code_only HSK_DNS_NOTIMP.
End Answers.

(** * Names that hold an address *)

Definition to_fqdn (name : list Z) : outcome (list Z) :=
  let* _ := oassert (Z.of_nat (length name) <=? 63) in Ret (name ++ [dot]).
(** The address and its type of record. [room] is false for null pointers; otherwise [ip] has
    16 bytes. *)
Definition pointer_to_ip (room : bool) (name : list Z) : outcome (option (list Z * Z)) :=
  let* label := hsk_dns_label_get name 0 in
  let len := Z.of_nat (length label) in
  if (len <? 2) || (29 <? len) then Ret None
  else
    let* u := starts_underscore label in
    if negb u then Ret None
    else
      match hsk_base32_decode_hex (drop 1 label) false with
      | None => Ret None
      | Some ip =>
          if room && (16 <? Z.of_nat (length ip)) then Fault Overread
          else
            let* _ := oassert (negb (Z.of_nat (length ip) =? 0)) in
            if Z.of_nat (length ip) =? 4 then Ret (Some (ip, HSK_DNS_A))
            else if Z.of_nat (length ip) =? 16 then Ret (Some (ip, HSK_DNS_AAAA))
            else Ret None
      end.
Definition hsk_resource_is_ptr (name : list Z) : outcome bool :=
  let* r := pointer_to_ip false name in
  Ret (match r with Some _ => true | None => false end).
