(* ===== verification/ResourceProps.v ===== *)
(** The properties of resource decoding: what any bytes are decoded to, and the round trip
    with an encoder of the format. *)

From S2P Require Import Prelude Bio Map MapProps DnsName DnsNameProps DnsRecord DnsCodec DnsMsg DnsSafe Sha256 Hkdf Dnssec Host Resource.

(** * Any bytes *)

(** A name that was read, or the start of one that was cut short. *)
Definition part_name (n : list Z) : Prop := n = [] \/ name_wf false n.
(** A text that was read, if it was. *)
Definition part_text (t : option (list Z)) : Prop := match t with Some t => blob 255 t | None => True end.
Definition record_wf (r : hsk_record_t) : Prop :=
  match r with
  | RecDs r => in16 (dsr_key_tag r) /\ in8 (dsr_algorithm r) /\ in8 (dsr_digest_type r) /\ blob 64 (dsr_digest r)
  | RecNs n => part_name n
  | RecGlue4 n ip => part_name n /\ bytes_n 4 ip
  | RecGlue6 n ip => part_name n /\ bytes_n 16 ip
  | RecSynth4 ip => bytes_n 4 ip
  | RecSynth6 ip => bytes_n 16 ip
  | RecTxt txts => Forall part_text txts /\ Z.of_nat (length txts) <= 255
  end.

Lemma body_part ls : name_ok ls -> part_name (body ls).
Proof.
  intros Hok. destruct ls as [|l ls]; [by left|right]. exists (l :: ls). by rewrite text_body.
Qed.
(** A parse that fails leaves whole labels, as [parse_loop_safe] of one that succeeds. *)
Lemma written_loop_safe fuel dmp : dmp_ok dmp -> forall data off ls ptr, bytes data -> 0 <= off -> name_ok ls -> 0 <= ptr <= 10 ->
  (255 - Z.of_nat (length (body ls))) + 2 * (10 - ptr) + 2 < 2 * Z.of_nat fuel ->
  exists name, written_loop fuel dmp data off (body ls) ptr = Ret name /\ part_name name.
Proof.
  intros Hd. induction fuel as [|fuel IH]; intros data off ls ptr Hb Ho Hn Hp Hf; [destruct Hn; lia|].
  assert (Hdone : exists name, Ret (body ls) = Ret name /\ part_name name) by (eexists; split; [done|by apply body_part]).
  cbn [written_loop]. destruct (Z.leb_spec (Z.of_nat (length data)) off) as [|Hlt]; [done|].
  destruct (lookup_in_range data off ltac:(lia)) as [c Hc]. rewrite Hc. cbn [of_option obind].
  assert (Hcr := bytes_lookup _ _ _ Hb Hc). destruct (top_bits c Hcr) as [Ht0 Ht3].
  destruct (Z.eqb_spec c 0) as [->|Hc0].
  { eexists. split; [done|]. right. exists ls. split; [|done]. by apply text_fin; [apply Hn|]. }
  destruct (Z.eqb_spec (Z.land c 192) 0) as [E0|E0].
  { apply Ht0 in E0. unfold HSK_DNS_MAX_LABEL, HSK_DNS_MAX_NAME.
    destruct (Z.ltb_spec 63 c); [done|]. destruct (Z.ltb_spec (Z.of_nat (length data)) (off + 1 + c)) as [|Hfit]; [done|].
    destruct (Z.ltb_spec 255 (Z.of_nat (length (body ls)) + c + 1)) as [|Hmax]; [done|].
    set (label := List.map name_char (take (Z.to_nat c) (drop (Z.to_nat (off + 1)) data))).
    assert (Hll : Z.of_nat (length label) = c) by (unfold label; rewrite length_map, length_take, length_drop; lia).
    assert (Hlok : label_ok label).
    { split; [lia|]. unfold label. apply Forall_map. eapply Forall_impl; [|intros b; apply name_char_ok].
      apply bytes_take, bytes_drop, Hb. }
    replace (body ls ++ label ++ [dot]) with (body (ls ++ [label])) by by rewrite body_app, body_cons.
    assert (Hlen : Z.of_nat (length (body (ls ++ [label]))) = Z.of_nat (length (body ls)) + c + 1).
    { rewrite body_app, length_app, Nat2Z.inj_add, length_body_cons. cbn [body List.map concat length]. lia. }
    apply IH; [done|lia| |done|lia]. split; [|lia]. apply Forall_app. split; [apply Hn|by apply Forall_singleton]. }
  destruct (Z.eqb_spec (Z.land c 192) 192) as [E3|]; [|done]. apply Ht3 in E3.
  destruct dmp as [msg|]; [|done]. destruct (Z.leb_spec (Z.of_nat (length data)) (off + 1)) as [|Hlt1]; [done|].
  destruct (lookup_in_range data (off + 1) ltac:(lia)) as [c1 Hc1]. rewrite Hc1. cbn [of_option obind].
  assert (Hcr1 := bytes_lookup _ _ _ Hb Hc1). assert (Hpr := ptr_range c c1 Hcr Hcr1 E3).
  destruct (Z.ltb_spec 10 (ptr + 1)) as [|Hp1]; [done|]. apply IH; (done || lia).
Qed.

(** [r] returns a record like [P] and bytes that were left. *)
Definition yields {A} (o : outcome (A * list Z)) (d : list Z) (P : A -> Prop) : Prop :=
  exists a d', o = Ret (a, d') /\ P a /\ bytes d' /\ (length d' <= length d)%nat.
Lemma yields_ret {A} (a : A) d (P : A -> Prop) : bytes d -> P a -> yields (Ret (a, d)) d P.
Proof. intros Hb Ha. by exists a, d. Qed.
Lemma yields_bind {A B} o (k : A -> list Z -> outcome (B * list Z)) d P Q : yields o d P ->
  (forall a d', P a -> bytes d' -> yields (k a d') d' Q) -> yields (let* (a, d') := o in k a d') d Q.
Proof.
  intros (a & d1 & -> & Ha & Hb & Hl) Hk. destruct (Hk a d1 Ha Hb) as (b & d2 & E & Hq & Hb2 & Hl2).
  cbn [obind]. exists b, d2. split_and!; (done || lia).
Qed.
Lemma name_into_yields dmp d : dmp_ok dmp -> bytes d -> yields (name_into dmp d) d (fun r => part_name (snd r)).
Proof.
  intros Hd Hb. unfold name_into. assert (H := safe_name_read dmp Hd d Hb). assert (Hs := name_read_shorter dmp d).
  destruct (hsk_dns_name_read dmp d) as [[n d']| |]; [|clear H Hs|done].
  - destruct H. exists (true, n), d'. split; [done|]. split; [by right|]. split; [done|by apply (Hs n)].
  - destruct (written_loop_safe parse_fuel dmp Hd d 0 [] 0 Hb) as (n & E & Hn);
      [lia|by split; [constructor|]|lia|unfold parse_fuel; cbn [body List.map concat length]; lia|].
    change (body []) with (@nil Z) in E. rewrite E. cbn [obind]. by exists (false, n), d.
Qed.
Lemma read_bytes_yields {A} n d (f : list Z -> A) (a : A) (P : A -> Prop) : 0 <= n -> bytes d ->
  (forall bs, bytes bs -> Z.of_nat (length bs) = n -> P (f bs)) -> P a ->
  yields (match read_bytes n d with Ret (bs, d') => Ret (f bs, d') | Fail => Ret (a, d) | Fault e => Fault e end) d P.
Proof.
  intros Hn Hb Hf Ha. unfold read_bytes. destruct (Z.ltb_spec (Z.of_nat (length d)) n); [by apply yields_ret|].
  exists (f (take (Z.to_nat n) d)), (drop (Z.to_nat n) d). split; [done|]. split; [|split; [auto with hsk|rewrite length_drop; lia]].
  apply Hf; [auto with hsk|]. rewrite length_take. lia.
Qed.
Lemma bytes_into_yields n d : 0 <= n -> bytes d -> yields (bytes_into n d) d (fun r => bytes_n (Z.to_nat n) (snd r)).
Proof.
  intros Hn Hb. apply (read_bytes_yields n d (fun bs => (true, bs))); [done..| |].
  - intros bs Hbs Hl. split; [cbn; lia|done].
  - cbn [snd]. split; [by rewrite length_replicate|]. by apply bytes_replicate.
Qed.

Lemma ds_read_yields d : bytes d -> yields (hsk_ds_record_read d) d (fun r => record_wf (snd r) /\ record_type (snd r) = HSK_DS).
Proof.
  intros Hb. unfold hsk_ds_record_read. destruct (Z.ltb_spec (Z.of_nat (length d)) 5) as [|Hl].
  { apply yields_ret; [done|]. split; [|done]. cbn. split_and!; try lia. by split; [constructor|]. }
  assert (Hh : yields (ds_head d) d (fun h => let '(t, a, g, s) := h in in16 t /\ in8 a /\ in8 g /\ 0 <= s)).
  { do 5 (destruct d as [|? d]; [cbn in Hl; lia|]). clear Hl. repeat (apply bytes_cons_inv in Hb as [? Hb]).
    assert (S : safe ds_head (fun h => let '(t, a, g, s) := h in in16 t /\ in8 a /\ in8 g /\ 0 <= s)).
    { unfold ds_head. safe_fields. apply safe_ret. split_and!; lia. }
    assert (Hd : bytes (z :: z0 :: z1 :: z2 :: z3 :: d)) by by repeat apply bytes_cons.
    specialize (S _ Hd). unfold ds_head, rbind, rret, read_u16be, read_u16be_on, read_u8, read_fixed in *. cbn [length Nat.ltb Nat.leb] in *.
    cbn [drop] in *. destruct S as [S _]. eexists _, d. split; [reflexivity|]. split; [exact S|]. split; [done|cbn; lia]. }
  eapply yields_bind; [exact Hh|]. intros [[[t a] g] s] d' (Ht & Ha & Hg & Hs) Hb'. cbv beta iota.
  assert (H0 : forall dg, blob 64 dg -> record_wf (RecDs (mk_ds_record t a g dg)) /\ record_type (RecDs (mk_ds_record t a g dg)) = HSK_DS)
    by (intros dg Hdg; by split_and!).
  destruct (Z.ltb_spec 64 s); [apply yields_ret; [done|]; apply H0; by split; [constructor|]|].
  apply (read_bytes_yields s d' (fun dg => (true, RecDs (mk_ds_record t a g dg)))); [done..| |].
  - intros bs Hbs Hlb. apply H0. split; [done|lia].
  - apply H0. by split; [constructor|].
Qed.
Lemma txts_into_yields n : forall al txts d, bytes d -> Forall part_text txts ->
  yields (txts_into n al txts d) d (fun r => Forall part_text (snd r) /\ length (snd r) = (length txts + n)%nat).
Proof.
  induction n as [|n IH]; intros al txts d Hb Ht; cbn [txts_into].
  { apply yields_ret; [done|]. split; [done|cbn; lia]. }
  assert (Hstop : forall d, bytes d -> yields (Ret (false, txts ++ replicate (S n) None, d)) d
    (fun r => Forall part_text (snd r) /\ length (snd r) = (length txts + S n)%nat)).
  { intros d0 Hd0. apply yields_ret; [done|]. cbn [snd]. rewrite length_app, length_replicate. split; [|done].
    apply Forall_app. split; [done|]. by apply Forall_replicate. }
  destruct (al 0%nat); [|by apply Hstop]. destruct d as [|b d]; [by apply Hstop|].
  apply bytes_cons_inv in Hb as [Hb Hd]. change (b :: d) with ([b] ++ d). rewrite parses_u8 by done.
  assert (Hl : (length d <= length ([b] ++ d))%nat) by (cbn; lia).
  assert (Hy : yields (match read_bytes b d with
      | Ret (data, d0) => txts_into n (fun i => al (S i)) (txts ++ [Some data]) d0
      | Fail => Ret (false, txts ++ replicate (S n) None, d) | Fault f => Fault f end) d
      (fun r => Forall part_text (snd r) /\ length (snd r) = (length txts + S n)%nat)).
  { unfold read_bytes. destruct (Z.ltb_spec (Z.of_nat (length d)) b); [by apply Hstop|].
    destruct (IH (fun i => al (S i)) (txts ++ [Some (take (Z.to_nat b) d)]) (drop (Z.to_nat b) d)) as (r & d2 & E & [H1 H2] & Hb2 & Hl2);
      [auto with hsk| |].
    - apply Forall_app. split; [done|]. apply Forall_singleton. split; [auto with hsk|]. rewrite length_take. lia.
    - rewrite length_app in H2. cbn [length] in H2. rewrite length_drop in Hl2. exists r, d2. split_and!; try (done || lia). }
  destruct Hy as (r & d2 & E & [Hr1 Hr2] & Hb2 & Hl2). exists r, d2. split_and!; (done || lia).
Qed.

Lemma record_read_spec al type dmp d : al 0%nat = true -> dmp_ok dmp -> bytes d ->
  hsk_record_read al type dmp d = Fail /\ ~ (0 <= type <= 6) \/
  0 <= type <= 6 /\ yields (hsk_record_read al type dmp d) d (fun r => record_wf r /\ record_type r = type).
Proof.
  intros Hal Hd Hb. unfold hsk_record_read, hsk_record_alloc. rewrite Hal.
  assert (Hsnd : forall o : outcome (bool * hsk_record_t * list Z), yields o d (fun r => record_wf (snd r) /\ record_type (snd r) = type) ->
    yields (let* (x, d) := o in Ret (snd x, d)) d (fun r => record_wf r /\ record_type r = type)).
  { intros o Ho. eapply yields_bind; [exact Ho|]. intros a d' Ha Hd'. by apply yields_ret. }
  assert (Hname : forall k, (forall r d', part_name (snd r) -> bytes d' -> yields (k r d') d' (fun r => record_wf (snd r) /\ record_type (snd r) = type)) ->
    yields (let* (r, d) := name_into dmp d in k r d) d (fun r : bool * hsk_record_t => record_wf (snd r) /\ record_type (snd r) = type)).
  { intros k Hk. eapply yields_bind; [by apply name_into_yields|exact Hk]. }
  assert (Hip : forall n (f : list Z -> hsk_record_t) d, 0 <= n -> bytes d ->
    (forall ip, bytes_n (Z.to_nat n) ip -> record_wf (f ip) /\ record_type (f ip) = type) ->
    yields (let* (b, d) := bytes_into n d in Ret (fst b, f (snd b), d)) d (fun r => record_wf (snd r) /\ record_type (snd r) = type)).
  { intros n f d0 Hn Hd0 Hf. eapply yields_bind; [by apply bytes_into_yields|]. intros [x ip] d' Hx Hd'.
    apply yields_ret; [done|]. by apply Hf. }
  assert (Hz4 : bytes_n 4 (replicate 4 0)) by (split; [done|by apply bytes_replicate]).
  assert (Hz16 : bytes_n 16 (replicate 16 0)) by (split; [done|by apply bytes_replicate]).
  repeat (match goal with |- context [type =? ?c] => destruct (Z.eqb_spec type c) as [->|] end;
    [right; split; [by vm_compute|]; cbn [obind]; apply Hsnd|]).
  - by apply ds_read_yields.
  - apply Hname. intros r d' Hr Hd'. by apply yields_ret.
  - apply Hname. intros r d' Hr Hd'. destruct (fst r); cbn [negb]; [|by apply yields_ret]. apply Hip; [done..|]. by intros ip Hx.
  - apply Hname. intros r d' Hr Hd'. destruct (fst r); cbn [negb]; [|by apply yields_ret]. apply Hip; [done..|]. by intros ip Hx.
  - apply Hip; [done..|]. by intros ip Hx.
  - apply Hip; [done..|]. by intros ip Hx.
  - unfold hsk_txt_record_read. destruct d as [|b d]; [apply yields_ret; [done|]; by split; [split; [constructor|]|]|].
    apply bytes_cons_inv in Hb as [Hb0 Hb]. change (b :: d) with ([b] ++ d). rewrite parses_u8 by done.
    destruct (txts_into_yields (Z.to_nat b) (fun i => al (S i)) [] d Hb ltac:(constructor)) as (r & d' & E & [Hr Hl] & Hd' & Hs).
    rewrite E. cbn [obind]. exists (fst r, RecTxt (snd r)), d'. split; [done|]. cbn [snd length app] in *.
    split; [split; [split; [done|cbn in Hl; lia]|done]|]. split; [done|lia].
  - left. split; [done|]. unfold HSK_DS, HSK_NS, HSK_GLUE4, HSK_GLUE6, HSK_SYNTH4, HSK_SYNTH6, HSK_TEXT in *. lia.
Qed.

(** ** The loop on the records *)

(** [rs] are read from [d], and [d'] is left. *)
Inductive scans (data : list Z) : list Z -> list hsk_record_t -> list Z -> Prop :=
  | scan_nil d : scans data d [] d
  | scan_cons t d r d1 rs d2 : hsk_record_read all_ok t (Some data) d = Ret (r, d1) -> scans data d1 rs d2 ->
      scans data (t :: d) (r :: rs) d2.
Lemma scan_snoc data d rs t d1 r d2 : scans data d rs (t :: d1) -> hsk_record_read all_ok t (Some data) d1 = Ret (r, d2) ->
  scans data d (rs ++ [r]) d2.
Proof.
  remember (t :: d1) as x. induction 1 as [d0|t0 d0 r0 d3 rs d4 E H IH]; intros Hr.
  - subst. by eapply scan_cons; [|apply scan_nil].
  - eapply scan_cons; [done|]. by apply IH.
Qed.
(** How the loop may end. *)
Definition loop_end (data d0 : list Z) (o : outcome (list hsk_record_t)) : Prop :=
  match o with
  | Ret rs => scans data d0 rs [] /\ Forall record_wf rs /\ (length rs <= 255)%nat
  | Fail => exists rs t d', scans data d0 rs (t :: d') /\ ~ (0 <= t <= 6)
  | Fault f => f = Overread /\ exists rs d', scans data d0 rs d' /\ length rs = 256%nat
  end.
Lemma records_loop_spec data d0 fuel : bytes data -> forall d rs, bytes d -> (length d <= fuel)%nat ->
  scans data d0 rs d -> Forall record_wf rs -> (length rs <= 255)%nat ->
  loop_end data d0 (records_loop fuel (fun _ => all_ok) (Some data) (length rs) rs d).
Proof.
  intros Hdata. induction fuel as [|fuel IH]; intros d rs Hb Hf Hs Hw Hl; (destruct d as [|t d]; [done|]); [cbn in Hf; lia|].
  cbn [records_loop]. apply bytes_cons_inv in Hb as [Ht Hb]. change (t :: d) with ([t] ++ d) at 1. rewrite parses_u8 by done.
  cbn [obind]. destruct (record_read_spec all_ok t (Some data) d eq_refl Hdata Hb) as [[E Hn]|[Hr (r & d' & E & [Hwr _] & Hb' & Hl')]].
  - rewrite E. cbn [obind]. by exists rs, t, d.
  - rewrite E. cbn [obind]. assert (Hs' := scan_snoc _ _ _ _ _ _ _ Hs E).
    destruct (Nat.leb_spec 255 (length rs)).
    + split; [done|]. exists (rs ++ [r]), d'. split; [done|]. rewrite length_app. cbn [length]. lia.
    + replace (S (length rs)) with (length (rs ++ [r])) by (rewrite length_app; cbn [length]; lia).
      apply IH; [done|cbn in Hf; lia|done| |rewrite length_app; cbn [length]; lia].
      apply Forall_app. split; [done|]. by apply Forall_singleton.
Qed.

(** * The round trip *)

(** [bs] is the wire form of a whole record in the resource [data]; names may be compressed
    with pointers to any place of it. *)
Definition name_wire (data bs n : list Z) : Prop := exists ls k, n = text ls /\ name_ok ls /\ wire_form data bs ls k /\ (k <= 10)%nat.
Inductive encodes (data : list Z) : hsk_record_t -> list Z -> Prop :=
  | enc_ds r : in16 (dsr_key_tag r) -> in8 (dsr_algorithm r) -> in8 (dsr_digest_type r) -> blob 64 (dsr_digest r) ->
      encodes data (RecDs r) (HSK_DS :: be_split 2 (dsr_key_tag r) ++
        [dsr_algorithm r; dsr_digest_type r; Z.of_nat (length (dsr_digest r))] ++ dsr_digest r)
  | enc_ns n bs : name_wire data bs n -> encodes data (RecNs n) (HSK_NS :: bs)
  | enc_glue4 n bs ip : name_wire data bs n -> bytes_n 4 ip -> encodes data (RecGlue4 n ip) (HSK_GLUE4 :: bs ++ ip)
  | enc_glue6 n bs ip : name_wire data bs n -> bytes_n 16 ip -> encodes data (RecGlue6 n ip) (HSK_GLUE6 :: bs ++ ip)
  | enc_synth4 ip : bytes_n 4 ip -> encodes data (RecSynth4 ip) (HSK_SYNTH4 :: ip)
  | enc_synth6 ip : bytes_n 16 ip -> encodes data (RecSynth6 ip) (HSK_SYNTH6 :: ip)
  | enc_txt txts : Forall (blob 255) txts -> Z.of_nat (length txts) <= 255 ->
      encodes data (RecTxt (Some <$> txts)) (HSK_TEXT :: Z.of_nat (length txts) :: txts_wire txts).

Lemma name_into_wire data bs n rest : name_wire data bs n -> name_into (Some data) (bs ++ rest) = Ret (true, n, rest).
Proof.
  intros (ls & k & -> & Hok & Hw & Hk). unfold name_into. by rewrite (read_wire_form _ _ _ _ rest Hw Hok Hk).
Qed.
Lemma bytes_into_wire n ip rest : bytes_n n ip -> bytes_into (Z.of_nat n) (ip ++ rest) = Ret (true, ip, rest).
Proof. intros [Hl _]. unfold bytes_into. assert (E : Z.of_nat (length ip) = Z.of_nat n) by by rewrite Hl. by rewrite (parses_bytes _ _ E rest). Qed.
Lemma txts_into_wire txts : Forall (blob 255) txts -> forall pre rest,
  txts_into (length txts) all_ok pre (txts_wire txts ++ rest) = Ret (true, pre ++ (Some <$> txts), rest).
Proof.
  induction 1 as [|t txts [Hb Hl] _ IH]; intros pre rest; [cbn; by rewrite app_nil_r|].
  unfold txts_wire in *. cbn [length txts_into List.map concat app fmap list_fmap].
  change (Z.of_nat (length t) :: ?x) with ([Z.of_nat (length t)] ++ x). rewrite parses_u8 by lia.
  rewrite <-(assoc_L (++)), parses_bytes by done. rewrite IH, <-(assoc_L (++)). done.
Qed.
Lemma encodes_read data r bs rest : encodes data r bs -> exists t bs', bs = t :: bs' /\ in8 t /\
  hsk_record_read all_ok t (Some data) (bs' ++ rest) = Ret (r, rest).
Proof.
  intros H. assert (Hgo : forall t bs', bs = t :: bs' -> in8 t -> hsk_record_read all_ok t (Some data) (bs' ++ rest) = Ret (r, rest) ->
    exists t bs', bs = t :: bs' /\ in8 t /\ hsk_record_read all_ok t (Some data) (bs' ++ rest) = Ret (r, rest)).
  { intros t bs' ? ? ?. by exists t, bs'. }
  destruct H as [r Ht Ha Hg [Hb Hl]|n bs Hn|n bs ip Hn Hip|n bs ip Hn Hip|ip Hip|ip Hip|txts Ht Hl];
    (eapply Hgo; [reflexivity|by vm_compute|]); unfold hsk_record_read, hsk_record_alloc; cbn [obind Z.eqb Pos.eqb].
  all: repeat match goal with |- context [?a =? ?b] => is_ground a; is_ground b; let c := eval vm_compute in (a =? b) in change (a =? b) with c end; cbv iota; cbn [obind].
  - unfold hsk_ds_record_read. rewrite <-!(assoc_L (++)).
    match goal with |- context [if ?b then _ else _] => assert (Eb : b = false) end.
    { apply Z.ltb_ge. rewrite !length_app, length_be_split. cbn [length]. lia. }
    rewrite Eb. unfold ds_head, rbind. rewrite parses_u16be by done. change ([?a; ?b; ?c] ++ ?x) with ([a] ++ [b] ++ [c] ++ x).
    rewrite !parses_u8 by lia. cbn [rret obind]. destruct (Z.ltb_spec 64 (Z.of_nat (length (dsr_digest r)))); [lia|].
    rewrite parses_bytes by done. cbn [obind snd]. by destruct r.
  - unfold hsk_ns_record_read. erewrite name_into_wire by done. done.
  - unfold hsk_glue4_record_read. rewrite <-(assoc_L (++)); erewrite name_into_wire by done. cbn [obind fst negb].
    rewrite (bytes_into_wire 4) by done. done.
  - unfold hsk_glue6_record_read. rewrite <-(assoc_L (++)); erewrite name_into_wire by done. cbn [obind fst negb].
    rewrite (bytes_into_wire 16) by done. done.
  - unfold hsk_synth4_record_read. rewrite (bytes_into_wire 4) by done. done.
  - unfold hsk_synth6_record_read. rewrite (bytes_into_wire 16) by done. done.
  - unfold hsk_txt_record_read. cbn [app]. change (?b :: ?x ++ rest) with ([b] ++ (x ++ rest)). rewrite parses_u8 by lia.
    rewrite Nat2Z.id, txts_into_wire by done. done.
Qed.
Lemma records_loop_encoded data rs wires : Forall2 (encodes data) rs wires -> forall fuel pre,
  (length (concat wires) <= fuel)%nat -> (length pre + length rs <= 255)%nat ->
  records_loop fuel (fun _ => all_ok) (Some data) (length pre) pre (concat wires) = Ret (pre ++ rs).
Proof.
  induction 1 as [|r bs rs wires Hr _ IH]; intros fuel pre Hf Hn; [destruct fuel; by rewrite app_nil_r|].
  destruct (encodes_read data r bs (concat wires) Hr) as (t & bs' & -> & Ht & E).
  cbn [concat app length] in Hf |- *. rewrite length_app in Hf. destruct fuel as [|fuel]; [lia|]. cbn [records_loop].
  change (t :: ?x) with ([t] ++ x) at 1. rewrite parses_u8 by done. cbn [obind]. rewrite E. cbn [obind length] in *.
  destruct (Nat.leb_spec 255 (length pre)); [lia|].
  specialize (IH fuel (pre ++ [r])). rewrite length_app, <-(assoc_L (++)) in IH. cbn [length] in IH.
  replace (S (length pre)) with (length pre + 1)%nat by lia. apply IH; lia.
Qed.

(** Records with all that they should have. *)
Definition record_full (r : hsk_record_t) : Prop :=
  record_wf r /\
  match r with
  | RecNs n | RecGlue4 n _ | RecGlue6 n _ => name_wf false n
  | RecTxt txts => Forall is_Some txts
  | _ => True
  end.
Lemma encodes_plain r : record_full r -> exists bs, forall data, encodes data r bs.
Proof.
  assert (Hn : forall n, name_wf false n -> exists bs, forall data, name_wire data bs n).
  { intros n (ls & -> & Hok & _). exists (wire_labels ls ++ [0]). intros data. exists ls, 0%nat. split; [done|].
    split; [done|]. split; [apply wire_form_end|lia]. }
  intros [Hw Hf]. destruct r as [r|n|n ip|n ip|ip|ip|txts]; cbn in Hw.
  - destruct Hw as (? & ? & ? & ?). eexists. intros data. by apply enc_ds.
  - destruct (Hn n Hf) as [bs Hbs]. eexists. intros data. by apply enc_ns.
  - destruct (Hn n Hf) as [bs Hbs], Hw. eexists. intros data. by apply enc_glue4.
  - destruct (Hn n Hf) as [bs Hbs], Hw. eexists. intros data. by apply enc_glue6.
  - eexists. intros data. by apply enc_synth4.
  - eexists. intros data. by apply enc_synth6.
  - destruct Hw as [Hw Hl]. assert (He : exists ts, txts = Some <$> ts /\ Forall (blob 255) ts).
    { clear Hl. induction txts as [|t txts IH]; [by exists []|]. apply Forall_cons in Hw as [Ht Hw], Hf as [[x ->] Hf].
      destruct (IH Hw Hf) as (ts & -> & Hts). exists (x :: ts). split; [done|by constructor]. }
    destruct He as (ts & -> & Hts). rewrite length_fmap in Hl. eexists. intros data. by apply enc_txt.
Qed.

(** * Properties *)

(** C17: Any bytes are decoded without a fault, but for one overflow. The result of
    [hsk_resource_decode] has at most 255 well-formed records, in their order, that take up the whole data
    after the version; names may be cut short and texts missing, as what the
    readers return is ignored. It fails exactly on an empty resource, a version other than
    0 or an unknown type of record; and a resource that holds a 256th record is written past the end
    of the array of records. *)
Theorem resource_decode_type data : bytes data ->
  match hsk_resource_decode true (fun _ => all_ok) data with
  | Ret res => res_version res = 0 /\ res_ttl res = HSK_DEFAULT_TTL /\ (length (res_records res) <= 255)%nat /\
      Forall record_wf (res_records res) /\ exists d, data = 0 :: d /\ scans data d (res_records res) []
  | Fail => data = [] \/ (exists version d, data = version :: d /\ version <> 0) \/
      exists d rs t d', data = 0 :: d /\ scans data d rs (t :: d') /\ ~ (0 <= t <= 6)
  | Fault f => f = Overread /\ exists d rs d', data = 0 :: d /\ scans data d rs d' /\ length rs = 256%nat
  end.
Proof.
  intros Hb. unfold hsk_resource_decode. destruct data as [|v d]; [by left|]. assert (Hv := bytes_cons_inv _ _ Hb).
  change (read_u8 (v :: d)) with (read_u8 ([v] ++ d)). rewrite parses_u8 by apply Hv. cbn [obind].
  destruct (Z.eqb_spec v 0) as [->|Hne]; cbn [negb]; [|right; left; by exists v, d].
  assert (H := records_loop_spec (0 :: d) d (length d) Hb d [] (proj2 Hv) (Nat.le_refl _) (scan_nil _ _) (Forall_nil_2 _) ltac:(cbn; lia)).
  cbn [length] in H. destruct (records_loop _ _ _ 0 [] d) as [rs| |f]; cbn [obind loop_end] in *.
  - destruct H as (? & ? & ?). split_and!; try done. by exists d.
  - right. right. destruct H as (rs & t & d' & ? & ?). by exists d, rs, t, d'.
  - destruct H as (-> & rs & d' & ? & ?). split; [done|]. by exists d, rs, d'.
Qed.

(** C18: Resources are a round trip. Whatever way the names of at most 255 complete records are
    compressed, [hsk_resource_decode] gives the records back; and every list of
    complete records has such an encoding. *)
Theorem resource_roundtrip rs : (length rs <= 255)%nat ->
  (forall data wires, data = 0 :: concat wires -> Forall2 (encodes data) rs wires ->
    hsk_resource_decode true (fun _ => all_ok) data = Ret (mk_resource 0 HSK_DEFAULT_TTL rs)) /\
  (Forall record_full rs -> exists wires, Forall2 (encodes (0 :: concat wires)) rs wires).
Proof.
  intros Hl. split.
  - intros data wires Ed H2. unfold hsk_resource_decode. rewrite Ed at 1. change (0 :: concat wires) with ([0] ++ concat wires).
    rewrite parses_u8 by lia. cbn [obind Z.eqb negb]. by rewrite (records_loop_encoded data rs wires H2 _ []) by (cbn; lia).
  - intros Hf. enough (He : exists wires, forall data, Forall2 (encodes data) rs wires) by (destruct He as [w Hw]; exists w; apply Hw).
    clear Hl. induction Hf as [|r rs Hr _ (wires & IH)]; [exists []; intros; constructor|].
    destruct (encodes_plain r Hr) as [bs Hbs]. exists (bs :: wires). intros data. constructor; [apply Hbs|apply IH].
Qed.

(** * Witnesses *)

(** A name server "ns.a." with its address, and a text. *)
Definition sample_records : list hsk_record_t :=
  [RecGlue4 [110; 115; 46; 97; 46] [1; 2; 3; 4]; RecNs [97; 46]; RecTxt [Some [104; 105]]].
(** The name of the second record is a pointer to the end of the first one. *)
Definition sample_resource : list Z :=
  [0; 2; 2; 110; 115; 1; 97; 0; 1; 2; 3; 4; 1; 192; 5; 6; 1; 2; 104; 105].
Lemma sample_decode : hsk_resource_decode true (fun _ => all_ok) sample_resource = Ret (mk_resource 0 HSK_DEFAULT_TTL sample_records).
Proof. vm_compute. reflexivity. Qed.
Lemma resource_decode_type_witness : Forall record_wf sample_records /\
  exists d, sample_resource = 0 :: d /\ scans sample_resource d sample_records [].
Proof.
  assert (Hb : bytes sample_resource) by (apply (bool_decide_unpack _); vm_compute; exact I).
  assert (H := resource_decode_type sample_resource Hb). rewrite sample_decode in H. by destruct H as (_ & _ & _ & ? & ?).
Defined.
Lemma resource_roundtrip_witness :
  hsk_resource_decode true (fun _ => all_ok) (0 :: concat [[4; 1; 2; 3; 4]; [1; 1; 97; 0]]) =
  Ret (mk_resource 0 HSK_DEFAULT_TTL [RecSynth4 [1; 2; 3; 4]; RecNs [97; 46]]).
Proof.
  apply (proj1 (resource_roundtrip [RecSynth4 [1; 2; 3; 4]; RecNs [97; 46]] ltac:(cbn; lia)) _ _ eq_refl).
  constructor; [|constructor; [|constructor]].
  - apply (enc_synth4 _ [1; 2; 3; 4]). apply (bool_decide_unpack _). vm_compute. exact I.
  - apply (enc_ns _ [97; 46] [1; 97; 0]). exists [[97]], 0%nat. split; [done|]. split; [|split; [|lia]].
    + split; [|vm_compute; discriminate]. apply (bool_decide_unpack _). vm_compute. exact I.
    + apply (wire_form_end _ [[97]]).
Defined.
(** A resource of which nothing but the type of its record is there: the name server has no
    name, and the assertion of [hsk_resource_to_ns] on it fails. *)
Lemma resource_empty_name :
  hsk_resource_decode true (fun _ => all_ok) [0; 1] = Ret (mk_resource 0 HSK_DEFAULT_TTL [RecNs []]) /\
  record_nsname (RecNs []) = Fault AssertFail.
Proof. split; vm_compute; reflexivity. Qed.
