(* ===== verification/AnswerProps.v ===== *)
(** The properties of the answers that are made from a resource: which records they hold, and
    that these are well formed and signed. *)

From S2P Require Import Prelude Bio Base32 Addr Map MapProps DnsName DnsNameProps DnsLabels DnsRecord DnsCodec DnsMsg DnsMsgSpec DnsSafe Sha256 Sha256Props Hkdf Dnssec DnssecProps Host HostProps Resource ResourceProps.

(** * Names of synthesised addresses *)

Lemma charset_hex_ok v : 0 <= v < 32 -> char_ok (char_at CHARSET_HEX v).
Proof.
  intros Hv. assert (H : forallb (fun n => bool_decide (char_ok (char_at CHARSET_HEX (Z.of_nat n)))) (seq 0 32) = true) by (vm_compute; reflexivity).
  rewrite forallb_forall in H. specialize (H (Z.to_nat v) ltac:(apply in_seq; lia)). rewrite Z2Nat.id in H by lia.
  by apply bool_decide_eq_true in H.
Qed.
Lemma encode_loop_chars data : bytes data -> forall m left_, 0 <= left_ < 32 ->
  Forall char_ok (encode_loop CHARSET_HEX m left_ data false).
Proof.
  induction 1 as [|ch data Hch _ IH]; intros m left_ Hl; cbn [encode_loop].
  { destruct (0 <? m)%nat; [|constructor]. cbn. apply Forall_singleton. by apply charset_hex_ok. }
  assert (Hs : forall k, 3 <= k -> 0 <= Z.shiftr ch k < 2 ^ 5).
  { intros k Hk. rewrite Z.shiftr_div_pow2 by lia. assert (2 ^ 3 <= 2 ^ k) by (apply Z.pow_le_mono_r; lia).
    split; [by apply Z.div_pos; lia|]. apply Z.div_lt_upper_bound; lia. }
  assert (Hm : forall x k, 0 <= k -> 0 <= Z.land x (2 ^ k - 1) < 2 ^ k) by (intros; by apply land_lt).
  assert (H1 := Hm ch 1 ltac:(lia)). assert (H2 := Hm ch 2 ltac:(lia)). assert (H3 := Hm ch 3 ltac:(lia)).
  assert (H4 := Hm ch 4 ltac:(lia)). assert (H5 := fun x => Hm x 5 ltac:(lia)).
  change (2 ^ 1 - 1) with 1 in *. change (2 ^ 2 - 1) with 3 in *. change (2 ^ 3 - 1) with 7 in *.
  change (2 ^ 4 - 1) with 15 in *. change (2 ^ 5 - 1) with 31 in *.
  assert (Hlor : forall k, 3 <= k -> 0 <= Z.lor left_ (Z.shiftr ch k) < 32) by (intros k Hk; by apply (lor_small 5); [lia|lia|apply Hs]).
  destruct m as [|[|[|[|m]]]]; cbn [encode_step app]; repeat (apply Forall_cons; split; [apply charset_hex_ok; auto|]);
    try (apply IH; rewrite ?Z.shiftl_mul_pow2 by lia; lia);
    first [apply (Hs 3); lia|apply Hlor; lia|apply H5].
Qed.
Lemma synth_name_wf ip : bytes_n 4 ip \/ bytes_n 16 ip -> name_wf false (synth_name ip).
Proof.
  intros Hip. set (b := hsk_base32_encode_hex ip false).
  exists [95 :: b; [95; 115; 121; 110; 116; 104]]. split; [|split; [|done]].
  { unfold synth_name, text, body. fold b. cbn [List.map concat app]. by rewrite <-(assoc_L (++)). }
  assert (Hb : bytes ip /\ (length ip <= 16)%nat) by (destruct Hip as [[-> ?]|[-> ?]]; split; (done || lia)). destruct Hb as [Hb Hl].
  assert (Hlen : Z.of_nat (length b) <= 26).
  { unfold b, hsk_base32_encode_hex, hsk_base32_encode2. rewrite length_encode_loop by lia. cbn [pending nth]. dlia. }
  assert (Hc : Forall char_ok b) by (apply encode_loop_chars; [done|lia]).
  split.
  - apply Forall_cons; split; [|apply Forall_singleton; apply (bool_decide_unpack _); vm_compute; exact I].
    split; [cbn [length]; lia|]. apply Forall_cons. split; [|done]. apply (bool_decide_unpack _). vm_compute. exact I.
  - rewrite body_cons, length_app. cbn. lia.
Qed.

(** * Sets of records *)

(** The records are added as long as there is room. *)
Definition push_all (an l : list hsk_dns_rr_t) : list hsk_dns_rr_t := fold_left push_item l an.
Lemma push_all_app an l k : push_all an (l ++ k) = push_all (push_all an l) k.
Proof. apply fold_left_app. Qed.
Lemma push_all_small an l : Z.of_nat (length an + length l) <= 255 -> push_all an l = an ++ l.
Proof.
  revert an; induction l as [|x l IH]; intros an Hl; [by rewrite app_nil_r|]. cbn [push_all fold_left length] in *.
  fold (push_all (push_item an x) l). rewrite push_item_small by lia. rewrite IH; [by rewrite <-(assoc_L (++))|].
  rewrite length_app. cbn [length]. lia.
Qed.
Lemma Forall_push_item {A} (P : A -> Prop) an x : Forall P an -> P x -> Forall P (push_item an x).
Proof. intros Ha Hx. unfold push_item. destruct (_ =? _); [done|]. apply Forall_app. split; [done|by apply Forall_singleton]. Qed.
Lemma Forall_push_all P an l : Forall P an -> Forall P l -> Forall P (push_all an l).
Proof.
  intros Ha Hl. revert an Ha; induction Hl as [|x l Hx _ IH]; intros an Ha; [done|]. apply IH. by apply Forall_push_item.
Qed.
(** A section has room for 255 records. *)
Lemma length_push_item {A} (an : list A) x : (length an <= 255)%nat -> (length (push_item an x) <= 255)%nat.
Proof. intros Hl. unfold push_item. destruct (Z.eqb_spec (Z.of_nat (length an)) 255); [done|]. rewrite length_app. cbn [length]. lia. Qed.
Lemma length_push_all an l : (length an <= 255)%nat -> (length (push_all an l) <= 255)%nat.
Proof. revert an; induction l as [|x l IH]; intros an Ha; [done|]. by apply IH, length_push_item. Qed.

(** A record of class IN for [name]. *)
Definition in_rr (name : list Z) (type ttl : Z) (rd : hsk_dns_rd_t) : hsk_dns_rr_t :=
  mk_rr (owner_of name) type HSK_DNS_IN ttl (Some rd).
(** What the records of a resource are turned into. *)
Definition server_of (r : hsk_record_t) : option (list Z) :=
  match r with
  | RecNs n | RecGlue4 n _ | RecGlue6 n _ => Some n
  | RecSynth4 ip | RecSynth6 ip => Some (synth_name ip)
  | _ => None
  end.
Definition ns_of (ttl : Z) (name : list Z) (r : hsk_record_t) : option hsk_dns_rr_t :=
  n ← server_of r; Some (in_rr name HSK_DNS_NS ttl (RNs n)).
Definition ds_of (ttl : Z) (name : list Z) (r : hsk_record_t) : option hsk_dns_rr_t :=
  match r with
  | RecDs d => Some (in_rr name HSK_DNS_DS ttl (RDs (mk_ds (dsr_key_tag d) (dsr_algorithm d) (dsr_digest_type d) (dsr_digest d))))
  | _ => None
  end.
Definition txt_of (ttl : Z) (name : list Z) (r : hsk_record_t) : option hsk_dns_rr_t :=
  match r with RecTxt txts => Some (in_rr name HSK_DNS_TXT ttl (RTxt (omap id txts))) | _ => None end.
(** The address of a server under the name itself, or of a synthesised one. *)
Definition under (tld name : list Z) : bool := match hsk_dns_is_subdomain tld name with Ret b => b | _ => false end.
Definition glue_of (ttl : Z) (tld : list Z) (r : hsk_record_t) : option hsk_dns_rr_t :=
  match r with
  | RecGlue4 n ip => if under tld n then Some (in_rr n HSK_DNS_A ttl (RA ip)) else None
  | RecGlue6 n ip => if under tld n then Some (in_rr n HSK_DNS_AAAA ttl (RAaaa ip)) else None
  | RecSynth4 ip => Some (mk_rr (synth_name ip) HSK_DNS_A HSK_DNS_IN ttl (Some (RA ip)))
  | RecSynth6 ip => Some (mk_rr (synth_name ip) HSK_DNS_AAAA HSK_DNS_IN ttl (Some (RAaaa ip)))
  | _ => None
  end.
Definition soa_rr (serial : Z) : hsk_dns_rr_t :=
  in_rr root_name HSK_DNS_SOA 86400 (RSoa (mk_soa root_name root_name serial 1800 900 604800 86400)).
Definition nsec_rr (name map : list Z) : hsk_dns_rr_t := in_rr name HSK_DNS_NSEC 86400 (RNsec (mk_nsec root_name map)).

(** ** They are well formed *)

Lemma rr_wf_small name type ttl rd s : name_wf false name -> in16 type -> in32 ttl -> kind_of_type type = kind_of_rd rd ->
  rd_wf false rd -> wsize (hsk_dns_rd_write no_table rd type) s -> s < 2 ^ 16 -> rr_wf false (mk_rr name type HSK_DNS_IN ttl (Some rd)).
Proof.
  intros. eapply rr_wf_intro; try done. unfold hsk_dns_rd_size, dsize. unfold wsize in *.
  match goal with H : _ None = _ |- _ => by rewrite H end.
Qed.
Lemma ns_rr_wf name ttl n : name_wf false name -> in32 ttl -> name_wf false n -> rr_wf false (mk_rr name HSK_DNS_NS HSK_DNS_IN ttl (Some (RNs n))).
Proof.
  intros Hn Ht Hs. destruct (name_size no_table n Hs) as (s & E & ?). apply (rr_wf_small _ _ _ _ s); try done. lia.
Qed.
Lemma ds_rr_wf name ttl t a g dg : name_wf false name -> in32 ttl -> in16 t -> in8 a -> in8 g -> blob 64 dg ->
  rr_wf false (mk_rr name HSK_DNS_DS HSK_DNS_IN ttl (Some (RDs (mk_ds t a g dg)))).
Proof.
  intros Hn Ht ? ? ? [? ?]. eapply (rr_wf_small _ _ _ _ (2 + (1 + (1 + Z.of_nat (length dg))))); try done; lia.
Qed.
Lemma txt_rr_wf name ttl class txts : name_wf false name -> in32 ttl -> in16 class -> Forall (blob 255) txts -> Z.of_nat (length txts) <= 255 ->
  rr_wf false (mk_rr name HSK_DNS_TXT class ttl (Some (RTxt txts))).
Proof.
  intros Hn Hl Hc Ht Hlen. assert (Hs : Z.of_nat (length (txts_wire txts)) <= 256 * Z.of_nat (length txts)).
  { clear Hlen. induction Ht as [|t txts [_ Hb] _ IH]; [done|]. unfold txts_wire in *. cbn [List.map concat length app].
    rewrite length_app. lia. }
  apply (rr_wf_intro _ _ _ _ _ (Z.of_nat (length (txts_wire txts)))); try done; [|lia].
  unfold hsk_dns_rd_size, dsize. change (hsk_dns_rd_write no_table (RTxt txts) HSK_DNS_TXT None) with (write_txts txts None).
  by rewrite write_txts_none.
Qed.
Lemma a_rr_wf name ttl ip : name_wf false name -> in32 ttl -> bytes_n 4 ip -> rr_wf false (mk_rr name HSK_DNS_A HSK_DNS_IN ttl (Some (RA ip))).
Proof.
  intros Hn Ht Hip. apply (rr_wf_small _ _ _ _ (Z.of_nat (length ip))); try done. destruct Hip as [-> _]. lia.
Qed.
Lemma aaaa_rr_wf name ttl ip : name_wf false name -> in32 ttl -> bytes_n 16 ip ->
  rr_wf false (mk_rr name HSK_DNS_AAAA HSK_DNS_IN ttl (Some (RAaaa ip))).
Proof.
  intros Hn Ht Hip. apply (rr_wf_small _ _ _ _ (Z.of_nat (length ip))); try done. destruct Hip as [-> _]. lia.
Qed.
Lemma soa_rr_wf serial : in32 serial -> rr_wf false (soa_rr serial).
Proof.
  intros Hs. assert (Hr := root_wf). by eapply (rr_wf_small _ _ _ _ (1 + (1 + (4 + (4 + (4 + (4 + 4))))))).
Qed.
Lemma nsec_rr_wf name map : name_wf false name -> blob 255 map -> rr_wf false (nsec_rr name map).
Proof.
  intros Hn [Hb Hl]. assert (Ho := owner_wf _ Hn). assert (Hr := root_wf).
  apply (rr_wf_small _ _ _ _ (1 + Z.of_nat (length map))); done || lia.
Qed.

(** * The routines *)

Section Routines.
Context `{HostOk}.

Definition returns {A} (m : io A) (a : A) : Prop := runs m (fun x => x = a).
Lemma returns_bind {A B} (m : io A) (k : A -> io B) a Q : returns m a -> runs (k a) Q -> runs (a ← m; k a) Q.
Proof. intros Hm Hk. eapply runs_bind; [exact Hm|]. by intros x ->. Qed.
Lemma returns_ret {A} (a : A) : returns (mret a) a.
Proof. by apply runs_ret. Qed.
Lemma returns_lift {A} (o : outcome A) a : o = Ret a -> returns (io_lift o) a.
Proof. intros E. by apply (runs_lift o a). Qed.
Lemma rr_create_returns type : returns (rr_create type) (Some (mk_rr [dot] type HSK_DNS_IN 0 (Some (hsk_dns_rd_init type)))).
Proof. by apply runs_rr_create. Qed.
Lemma malloc_returns : returns malloc_ok true.
Proof. by apply runs_malloc. Qed.
Lemma set_name_returns rr name : name_wf false name -> rr_name rr = [dot] ->
  returns (set_name rr name) (mk_rr (owner_of name) (rr_type rr) (rr_class rr) (rr_ttl rr) (rr_rd rr)).
Proof. intros Hn Hd. by apply runs_set_name. Qed.

Lemma push_record_returns type name ttl rd an : name_wf false name ->
  returns (push_record type name ttl rd an) (true, push_item an (in_rr name type ttl rd)).
Proof.
  intros Hn. unfold push_record. eapply returns_bind; [apply rr_create_returns|].
  eapply returns_bind; [by apply set_name_returns|]. apply returns_ret.
Qed.
Lemma fqdn_text n : name_wf false n -> hsk_dns_name_is_fqdn (Some n) = true.
Proof. intros (ls & -> & _). cbn [hsk_dns_name_is_fqdn]. by rewrite last_text. Qed.

Lemma record_nsname_eq r : record_full r -> record_nsname r = Ret (server_of r).
Proof. intros [_ Hf]. destruct r as [r|n|n ip|n ip|ip|ip|txts]; unfold record_nsname; try done; by rewrite fqdn_text. Qed.
Lemma server_wf r n : record_full r -> server_of r = Some n -> name_wf false n.
Proof.
  intros [Hw Hf]. destruct r as [r|m|m ip|m ip|ip|ip|txts]; cbn in *; intros [= <-]; try done; apply synth_name_wf; auto.
Qed.
Lemma to_ns_returns ttl name records an : name_wf false name -> Forall record_full records ->
  returns (to_ns_loop ttl name records an) (true, push_all an (omap (ns_of ttl name) records)).
Proof.
  intros Hn Hr. revert an; induction Hr as [|r records Hr _ IH]; intros an; [apply returns_ret|]. cbn [to_ns_loop].
  eapply returns_bind; [apply returns_lift; by apply record_nsname_eq|]. cbn [omap list_omap]. unfold ns_of at 1.
  destruct (server_of r) as [n|]; [|apply IH]. eapply returns_bind; [by apply push_record_returns|]. apply IH.
Qed.
Lemma to_ds_returns ttl name records an : name_wf false name -> returns (to_ds_loop ttl name records an)
  (true, push_all an (omap (ds_of ttl name) records)).
Proof.
  intros Hn. revert an; induction records as [|r records IH]; intros an; [apply returns_ret|].
  destruct r as [r|n|n ip|n ip|ip|ip|txts]; cbn [to_ds_loop omap list_omap ds_of]; try apply IH.
  eapply returns_bind; [apply rr_create_returns|]. eapply returns_bind; [by apply set_name_returns|].
  eapply returns_bind; [apply malloc_returns|]. apply IH.
Qed.
Lemma copy_txts_returns items txts : Forall part_text items -> Forall is_Some items ->
  Z.of_nat (length txts + length items) <= 255 -> returns (copy_txts items txts) (Some (txts ++ omap id items)).
Proof.
  intros Hp. revert txts; induction Hp as [|t items Ht _ IH]; intros txts Hs Hl; [cbn; rewrite app_nil_r; apply returns_ret|].
  apply Forall_cons in Hs as [[x ->] Hs]. cbn [copy_txts length] in *. eapply returns_bind; [apply malloc_returns|]. cbv iota.
  eapply runs_bind; [apply (runs_assert (fun _ => True)); [|done]|intros _ _]; [apply Z.leb_le, Ht|].
  rewrite push_item_small by lia. cbn [omap list_omap id]. change (x :: omap id items) with ([x] ++ omap id items).
  rewrite (assoc_L (++)). apply IH; [done|]. rewrite length_app. cbn [length]. lia.
Qed.
Lemma to_txt_returns ttl name records an : name_wf false name -> Forall record_full records ->
  returns (to_txt_loop ttl name records an) (true, push_all an (omap (txt_of ttl name) records)).
Proof.
  intros Hn Hr. revert an; induction Hr as [|r records [Hw Hf] _ IH]; intros an; [apply returns_ret|].
  destruct r as [r|n|n ip|n ip|ip|ip|txts]; cbn [to_txt_loop omap list_omap txt_of]; try apply IH.
  eapply returns_bind; [apply rr_create_returns|]. eapply returns_bind; [by apply set_name_returns|]. destruct Hw as [Hw Hl].
  eapply returns_bind; [by apply copy_txts_returns|]. apply IH.
Qed.
(** The name of the zone has one label, which is short. *)
Lemma is_subdomain_tld l n : name_ok [l] -> part_name n -> exists b, hsk_dns_is_subdomain (text [l]) n = Ret b.
Proof.
  intros Hp [->|(cs & -> & Hcs & _)].
  - unfold hsk_dns_is_subdomain. rewrite count_text by done. by exists false.
  - rewrite is_subdomain_spec by done. rewrite decide_False; [by eexists|]. intros (_ & Hl & E). cbn [length] in Hl, E.
    destruct (drop (length cs - 1) cs) as [|c [|c2 r]] eqn:Ed.
    + apply (f_equal length) in Ed. rewrite length_drop in Ed. cbn in Ed. lia.
    + assert (Hc : label_ok c) by (assert (H1 := name_ok_drop cs (length cs - 1) Hcs); rewrite Ed in H1; by destruct H1 as [[? _]%Forall_cons_1 _]).
      rewrite text_body in E by done. destruct Hc as [Hc _]. assert (H2 := length_body_cons c []). rewrite E in H2.
      cbn in H2. lia.
    + apply (f_equal length) in Ed. rewrite length_drop in Ed. cbn [length] in Ed. lia.
Qed.
Lemma to_glue_returns ttl l records an : name_ok [l] -> Forall record_full records ->
  returns (to_glue_loop ttl (text [l]) records an) (true, push_all an (omap (glue_of ttl (text [l])) records)).
Proof.
  intros Hl Hr. revert an; induction Hr as [|r records Hr _ IH]; intros an; [apply returns_ret|]. cbn [to_glue_loop].
  destruct Hr as [Hw Hf].
  destruct r as [r|n|n ip|n ip|ip|ip|txts]; cbn [record_glue omap list_omap glue_of];
    try (eapply returns_bind; [apply returns_ret|]; apply IH).
  1, 2: destruct (is_subdomain_tld l n Hl (or_intror Hf)) as [b Eb]; unfold under; rewrite Eb; destruct b;
    (eapply returns_bind; [eapply returns_bind; [by apply returns_lift|first [by apply push_record_returns|apply returns_ret]]|apply IH]).
  all: eapply returns_bind; [eapply returns_bind; [apply rr_create_returns|]; apply returns_ret|]; apply IH.
Qed.

(** ** Signing *)

(** The records of [type] in [l] are of [name] and of class IN. *)
Definition owned (type : Z) (name : list Z) (l : list hsk_dns_rr_t) : Prop :=
  Forall (fun rr => rr_type rr = type -> rr_name rr = owner_of name /\ rr_class rr = HSK_DNS_IN) l.
Lemma owned_one_set type name l : name_wf false name -> owned type name l -> one_set type l.
Proof.
  intros Hn Ho. destruct (owner_wf name Hn) as (ls & E & Hok & _). exists (List.map hsk_to_lower ls).
  split; [by apply name_ok_lower|]. eapply Forall_impl; [exact Ho|]. intros rr Hrr Ht. destruct (Hrr Ht) as [-> ?].
  by rewrite E, to_lower_text.
Qed.
Lemma signs_type priv type l sig : signs priv type l sig -> rr_wf false sig /\ rr_type sig = HSK_DNS_RRSIG.
Proof. intros (r & h & ? & ? & _). done. Qed.
Lemma signed_wf priv type l l' : Forall (rr_wf false) l -> signed priv type l l' -> Forall (rr_wf false) l'.
Proof.
  intros Hl [(sig & -> & _ & Hs)|[-> _]]; [|done]. apply Forall_app. split; [done|]. apply Forall_singleton. by destruct (signs_type _ _ _ _ Hs).
Qed.
Lemma signed_owned priv type l l' t name : owned t name l -> t <> HSK_DNS_RRSIG -> signed priv type l l' -> owned t name l'.
Proof.
  intros Ho Hne [(sig & -> & _ & Hs)|[-> _]]; [|done]. apply Forall_app. split; [done|]. apply Forall_singleton.
  apply signs_type in Hs as [_ ->]. by intros E.
Qed.
Lemma signed_nil priv type l l' : l <> [] -> signed priv type l l' -> l' <> [].
Proof. intros Hl [(sig & -> & _)|[-> _]]; [|done]. by destruct l. Qed.

(** A step that returns a set, and its signature. *)
Lemma runs_and_sign m type name l l1 (Q : list hsk_dns_rr_t -> Prop) b : returns (m l) (b, l1) -> Forall (rr_wf false) l1 ->
  name_wf false name -> owned type name l1 -> type <> HSK_DNS_SIG ->
  (forall l', signed hsk_dnssec_zsk type l1 l' -> Q l') -> runs (and_sign m type l) Q.
Proof.
  intros Hm Hl Hn Ho Ht HQ. eapply returns_bind; [exact Hm|]. apply runs_sign_zsk; [done| |done|done]. by eapply owned_one_set.
Qed.

(** ** The root *)

Lemma runs_soa an (Q : bool * list hsk_dns_rr_t -> Prop) :
  (forall serial, in32 serial -> Q (true, push_item an (soa_rr serial))) -> runs (hsk_resource_root_to_soa an) Q.
Proof.
  intros HQ. unfold hsk_resource_root_to_soa. eapply returns_bind; [apply rr_create_returns|].
  eapply returns_bind; [by apply set_name_returns; [apply root_wf|]|]. eapply runs_bind.
  - eapply runs_bind; [by apply (runs_now (fun _ => True))|]. intros now _. destruct (hsk_date now) as [[[[[y m] d] h] mi] s].
    by apply (runs_ret _ (fun _ => True)).
  - intros date _. apply runs_ret. apply HQ. destruct date as [[[y m] d] h]. apply u32_range.
Qed.
Lemma runs_sign_soa l (Q : list hsk_dns_rr_t -> Prop) : Forall (rr_wf false) l -> owned HSK_DNS_SOA root_name l ->
  (forall serial l', in32 serial -> signed hsk_dnssec_zsk HSK_DNS_SOA (push_item l (soa_rr serial)) l' -> Q l') ->
  runs (and_sign hsk_resource_root_to_soa HSK_DNS_SOA l) Q.
Proof.
  intros Hl Ho HQ. unfold and_sign. eapply runs_bind; [apply (runs_soa l (fun r => exists serial, in32 serial /\ r = (true, push_item l (soa_rr serial)))); eauto|].
  intros r (serial & Hs & ->). cbn [snd]. apply runs_sign_zsk; [|apply (owned_one_set _ root_name); [apply root_wf|]|done|intros l'; by apply HQ].
  - apply Forall_push_item; [done|by apply soa_rr_wf].
  - by apply Forall_push_item.
Qed.
Lemma to_empty_returns name map an : name_wf false name ->
  returns (hsk_resource_to_empty name map an) (true, push_item an (nsec_rr name (default [] map))).
Proof.
  intros Hn. unfold hsk_resource_to_empty. eapply returns_bind; [apply rr_create_returns|].
  eapply returns_bind; [by apply set_name_returns|]. destruct map; [|apply returns_ret].
  eapply returns_bind; [apply malloc_returns|]. apply returns_ret.
Qed.

(** * The answer for a name of the chain *)

(** The records that the resource gives for [name], of a type. *)
Definition ns_set (res : hsk_resource_t) (name : list Z) : list hsk_dns_rr_t := omap (ns_of (res_ttl res) name) (res_records res).
Definition ds_set (res : hsk_resource_t) (name : list Z) : list hsk_dns_rr_t := omap (ds_of (res_ttl res) name) (res_records res).
Definition txt_set (res : hsk_resource_t) (name : list Z) : list hsk_dns_rr_t := omap (txt_of (res_ttl res) name) (res_records res).
Definition glue_set (res : hsk_resource_t) (name : list Z) : list hsk_dns_rr_t := omap (glue_of (res_ttl res) name) (res_records res).
(** A referral: the servers of the name with their delegation and their addresses, or
    a proof that it has none. *)
Definition referral_ns (res : hsk_resource_t) (tld : list Z) (ns : list hsk_dns_rr_t) : Prop :=
  if hsk_resource_has_ns res then
    signed hsk_dnssec_zsk (if hsk_resource_has res HSK_DS then HSK_DNS_DS else HSK_DNS_NS)
      (push_all [] (ns_set res tld ++ ds_set res tld)) ns
  else exists serial l, in32 serial /\ signed hsk_dnssec_zsk HSK_DNS_NSEC [nsec_rr tld []] l /\
    signed hsk_dnssec_zsk HSK_DNS_SOA (push_item l (soa_rr serial)) ns.
Definition referral_of (res : hsk_resource_t) (tld : list Z) (msg : hsk_dns_msg_t) : Prop := exists ns,
  referral_ns res tld ns /\
  msg = with_ar (with_ns hsk_dns_msg_init ns) (if hsk_resource_has_ns res then push_all [] (glue_set res tld) else []).
(** What is answered directly. *)
Definition direct_set (res : hsk_resource_t) (name : list Z) (type : Z) : list hsk_dns_rr_t :=
  if type =? HSK_DNS_DS then ds_set res name else if type =? HSK_DNS_NS then ns_set res name
  else if type =? HSK_DNS_TXT then txt_set res name else [].
Definition direct_of (res : hsk_resource_t) (name : list Z) (type : Z) (msg : hsk_dns_msg_t) : Prop := exists l,
  signed hsk_dnssec_zsk type (push_all [] (direct_set res name type)) l /\
  msg = if type =? HSK_DNS_NS then with_ar (with_ns hsk_dns_msg_init l) (push_all [] (glue_set res name))
        else or_flags (with_an hsk_dns_msg_init l) HSK_DNS_AA.
(** The answer for the labels [ls], of which [tld] is the last. *)
Definition answer_of (res : hsk_resource_t) (ls : list (list Z)) (tld : list Z) (type : Z) (msg : hsk_dns_msg_t) : Prop :=
  if (length ls =? 1)%nat && negb (is_nil (direct_set res (text ls) type)) then direct_of res (text ls) type msg
  else referral_of res (text [tld]) msg.

Lemma Forall_omap {A B} (f : A -> option B) (P : A -> Prop) (Q : B -> Prop) l : Forall P l ->
  (forall a b, P a -> f a = Some b -> Q b) -> Forall Q (omap f l).
Proof.
  intros Hl Hf. induction Hl as [|a l Ha _ IH]; [constructor|]. cbn [omap list_omap]. destruct (f a) as [b|] eqn:E; [|done].
  constructor; [by eapply Hf|done].
Qed.
(** A set for [name]. *)
Definition set_ok (name : list Z) (type : Z) (l : list hsk_dns_rr_t) : Prop :=
  Forall (fun rr => rr_wf false rr /\ rr_type rr = type /\ rr_name rr = owner_of name /\ rr_class rr = HSK_DNS_IN) l.
Section Sets.
Context (res : hsk_resource_t) (Hfull : Forall record_full (res_records res)) (Httl : in32 (res_ttl res)).
Lemma ns_set_ok name : name_wf false name -> set_ok name HSK_DNS_NS (ns_set res name).
Proof.
  intros Hn. eapply Forall_omap; [exact Hfull|]. intros r rr Hr E. unfold ns_of in E. destruct (server_of r) as [n|] eqn:Es; [|done].
  injection E as <-. split; [|done]. apply ns_rr_wf; [by apply owner_wf|done|by eapply server_wf].
Qed.
Lemma ds_set_ok name : name_wf false name -> set_ok name HSK_DNS_DS (ds_set res name).
Proof.
  intros Hn. eapply Forall_omap; [exact Hfull|]. intros r rr [Hr _] E. destruct r as [d|n|n ip|n ip|ip|ip|txts]; try done.
  injection E as <-. split; [|done]. destruct Hr as (? & ? & ? & ?). apply ds_rr_wf; try done. by apply owner_wf.
Qed.
Lemma txt_set_ok name : name_wf false name -> set_ok name HSK_DNS_TXT (txt_set res name).
Proof.
  intros Hn. eapply Forall_omap; [exact Hfull|]. intros r rr [Hr _] E. destruct r as [d|n|n ip|n ip|ip|ip|txts]; try done.
  injection E as <-. split; [|done]. destruct Hr as [Hr Hl]. apply txt_rr_wf; [by apply owner_wf|done..| |].
  - eapply Forall_omap; [exact Hr|]. by intros t x Ht [= ->].
  - clear Hr. revert Hl. generalize 255. induction txts as [|[t|] txts IH]; intros k Hl; [done|..];
      cbn [omap list_omap id length] in *; [specialize (IH (k - 1) ltac:(lia))|specialize (IH k ltac:(lia))]; lia.
Qed.
Lemma glue_set_wf name : Forall (rr_wf false) (glue_set res name).
Proof.
  eapply Forall_omap; [exact Hfull|]. intros r rr [Hr Hf] E.
  destruct r as [d|n|n ip|n ip|ip|ip|txts]; cbn [glue_of] in E; try done; cbn in Hr.
  1, 2: destruct (under name n); [|done]; injection E as <-; destruct Hr;
    first [apply a_rr_wf|apply aaaa_rr_wf]; try done; by apply owner_wf.
  all: injection E as <-; first [apply a_rr_wf|apply aaaa_rr_wf]; try done; apply synth_name_wf; auto.
Qed.
End Sets.
Lemma set_ok_wf name type l : set_ok name type l -> Forall (rr_wf false) l.
Proof. intros H1. eapply Forall_impl; [exact H1|]. by intros rr [? _]. Qed.
Lemma set_ok_owned name type t l : set_ok name type l -> owned t name l.
Proof. intros H1. eapply Forall_impl; [exact H1|]. by intros rr (_ & _ & ? & ?) _. Qed.

Lemma runs_referral res l (Q : hsk_dns_msg_t -> Prop) : Forall record_full (res_records res) -> in32 (res_ttl res) -> name_ok [l] ->
  (forall msg, referral_of res (text [l]) msg -> msg_ok msg -> Q msg) -> runs (referral res (text [l]) hsk_dns_msg_init) Q.
Proof.
  intros Hfull Httl Hl HQ. assert (Hn : name_wf false (text [l])) by by exists [l].
  assert (Hok : forall ns ar, Forall (rr_wf false) ns -> Forall (rr_wf false) ar -> (length ar <= 255)%nat ->
    msg_ok (with_ar (with_ns hsk_dns_msg_init ns) ar)).
  { intros ns ar H1 H2 H3. split_and!; try done; try constructor; (eapply Forall_impl; [eassumption|apply rr_wf_type_ok]). }
  unfold referral, referral_of, referral_ns in *. destruct (hsk_resource_has_ns res).
  - eapply returns_bind; [by apply to_ns_returns|]. eapply returns_bind; [by apply to_ds_returns|].
    eapply returns_bind; [by apply to_glue_returns|]. cbn [snd msg_ns msg_ar hsk_dns_msg_init].
    fold (ns_set res (text [l])) (ds_set res (text [l])) (glue_set res (text [l])). rewrite <-push_all_app.
    assert (Hs : Forall (rr_wf false) (push_all [] (ns_set res (text [l]) ++ ds_set res (text [l])))).
    { apply Forall_push_all; [constructor|]. apply Forall_app.
      split; [eapply set_ok_wf, ns_set_ok|eapply set_ok_wf, ds_set_ok]; done. }
    assert (Ho : forall t, owned t (text [l]) (push_all [] (ns_set res (text [l]) ++ ds_set res (text [l])))).
    { intros t. apply Forall_push_all; [constructor|]. apply Forall_app.
      split; [eapply set_ok_owned, ns_set_ok|eapply set_ok_owned, ds_set_ok]; done. }
    eapply runs_bind.
    + apply runs_sign_zsk; [exact Hs|eapply owned_one_set; [exact Hn|apply Ho]|by destruct (hsk_resource_has res HSK_DS)|].
      intros ns Hns. exact Hns.
    + intros ns Hns. apply runs_ret. apply HQ.
      * exists ns. split; [|done]. by destruct (hsk_resource_has res HSK_DS).
      * apply Hok; [by eapply signed_wf| |by apply length_push_all, Nat.le_0_l]. apply Forall_push_all; [constructor|]. by apply glue_set_wf.
  - assert (Hw : Forall (rr_wf false) [nsec_rr (text [l]) []]) by (apply Forall_singleton, nsec_rr_wf; [done|by split; [constructor|]]).
    eapply runs_bind.
    { eapply runs_and_sign; [by apply to_empty_returns|exact Hw|exact Hn|by apply Forall_singleton|done|].
      intros ns Hns. exact (conj Hns (signed_wf _ _ _ _ Hw Hns)). }
    intros ns [Hns Hnw].
    apply (runs_bind _ _ (fun ns' => exists serial, in32 serial /\ signed hsk_dnssec_zsk HSK_DNS_SOA (push_item ns (soa_rr serial)) ns')).
    { apply runs_sign_soa; [done| |].
      - eapply signed_owned; [|done|exact Hns]. by apply Forall_singleton.
      - intros serial l' Hser Hl'. by exists serial. }
    intros ns' (serial & Hser & Hns'). apply runs_ret. apply HQ.
    + exists ns'. split; [|done]. exists serial, ns. split; [exact Hser|split; [exact Hns|exact Hns']].
    + change (with_ns hsk_dns_msg_init ns') with (with_ar (with_ns hsk_dns_msg_init ns') []). apply Hok; [|constructor|apply Nat.le_0_l].
      eapply signed_wf; [|exact Hns']. apply Forall_push_item; [done|by apply soa_rr_wf].
Qed.

Lemma is_nil_spec {A} (l : list A) : is_nil l = true <-> l = [].
Proof. by destruct l. Qed.
Lemma push_all_nil l : push_all [] l = [] -> l = [].
Proof.
  destruct l as [|x l]; [done|]. cbn [push_all fold_left]. change (push_item [] x) with [x]. intros E. exfalso.
  assert (Hp : forall l an, an <> [] -> push_all an l <> []).
  { clear. induction l as [|y l IH]; intros an Ha; [done|]. apply IH. unfold push_item. destruct (_ =? _); [done|]. by destruct an. }
  by apply (Hp l [x]) in E.
Qed.
(** The set and its signature, for the types of the [switch]. *)
Lemma runs_direct res l type (Q : hsk_dns_msg_t -> Prop) : Forall record_full (res_records res) -> in32 (res_ttl res) -> name_ok [l] ->
  (direct_set res (text [l]) type = [] -> Q hsk_dns_msg_init) ->
  (forall ls, direct_set res (text [l]) type <> [] -> Forall (rr_wf false) ls -> ls <> [] ->
    signed hsk_dnssec_zsk type (push_all [] (direct_set res (text [l]) type)) ls ->
    Q (if type =? HSK_DNS_NS then with_ar (with_ns hsk_dns_msg_init ls) (push_all [] (glue_set res (text [l])))
       else with_an hsk_dns_msg_init ls)) ->
  runs (direct_answer res (text [l]) type hsk_dns_msg_init) Q.
Proof.
  intros Hfull Httl Hl HQ0 HQ. assert (Hn : name_wf false (text [l])) by by exists [l].
  assert (Hsign : forall t set ls, set_ok (text [l]) t set -> signed hsk_dnssec_zsk t (push_all [] set) ls ->
    Forall (rr_wf false) ls /\ (set = [] -> ls = []) /\ (set <> [] -> ls <> [])).
  { intros t set ls Hs Hls. split; [|split].
    - eapply signed_wf; [|exact Hls]. apply Forall_push_all; [constructor|]. by eapply set_ok_wf.
    - intros ->. destruct Hls as [(sig & -> & _ & r & h & _ & _ & _ & _ & E & _)|[-> _]]; [|done]. done.
    - intros Hne. eapply signed_nil; [|exact Hls]. intros E. by apply push_all_nil in E. }
  assert (Ho : forall t set, set_ok (text [l]) t set -> Forall (rr_wf false) (push_all [] set) /\ one_set t (push_all [] set)).
  { intros t set Hs. split; [apply Forall_push_all; [constructor|by eapply set_ok_wf]|].
    eapply owned_one_set; [exact Hn|]. apply Forall_push_all; [constructor|by eapply set_ok_owned]. }
  unfold direct_answer, direct_set in *.
  destruct (Z.eqb_spec type HSK_DNS_DS) as [->|].
  { assert (Hs := ds_set_ok res Hfull Httl (text [l]) Hn). destruct (Ho _ _ Hs) as [Hw H1].
    eapply runs_bind; [eapply returns_bind; [by apply to_ds_returns|]; apply runs_sign_zsk; [exact Hw|exact H1|done|]; intros ls Hls; exact Hls|].
    intros ls Hls. apply runs_ret. destruct (Hsign _ _ _ Hs Hls) as (Hlw & Hnil & Hnn).
    destruct (decide (ds_set res (text [l]) = [])) as [E|E]; [by rewrite (Hnil E); apply HQ0|]. by apply HQ; auto. }
  destruct (Z.eqb_spec type HSK_DNS_NS) as [->|].
  { assert (Hs := ns_set_ok res Hfull Httl (text [l]) Hn). destruct (Ho _ _ Hs) as [Hw H1].
    eapply returns_bind; [by apply to_ns_returns|]. eapply returns_bind; [by apply to_glue_returns|].
    eapply runs_bind; [apply runs_sign_zsk; [exact Hw|exact H1|done|]; intros ls Hls; exact Hls|].
    intros ls Hls. apply runs_ret. destruct (Hsign _ _ _ Hs Hls) as (Hlw & Hnil & Hnn). cbn [snd msg_ar hsk_dns_msg_init].
    destruct (decide (ns_set res (text [l]) = [])) as [E|E]; [|by apply HQ; auto].
    rewrite (Hnil E). assert (Hg : glue_set res (text [l]) = []).
    { clear -E. unfold glue_set, ns_set in *. induction (res_records res) as [|r rs IH]; [done|]. cbn [omap list_omap] in *.
      destruct r as [d|n|n ip|n ip|ip|ip|txts]; cbn in E |- *; try done; by apply IH. }
    fold (glue_set res (text [l])). rewrite Hg. by apply HQ0. }
  destruct (Z.eqb_spec type HSK_DNS_TXT) as [->|]; [|apply runs_ret; by apply HQ0].
  assert (Hs := txt_set_ok res Hfull Httl (text [l]) Hn). destruct (Ho _ _ Hs) as [Hw H1].
  eapply runs_bind; [eapply returns_bind; [by apply to_txt_returns|]; apply runs_sign_zsk; [exact Hw|exact H1|done|]; intros ls Hls; exact Hls|].
  intros ls Hls. apply runs_ret. destruct (Hsign _ _ _ Hs Hls) as (Hlw & Hnil & Hnn).
  destruct (decide (txt_set res (text [l]) = [])) as [E|E]; [by rewrite (Hnil E); apply HQ0|]. by apply HQ; auto.
Qed.

Lemma runs_to_dns res ls l type (Q : option hsk_dns_msg_t -> Prop) : Forall record_full (res_records res) -> in32 (res_ttl res) ->
  name_ok ls -> last ls = Some l -> (forall msg, answer_of res ls l type msg -> msg_ok msg -> Q (Some msg)) ->
  runs (hsk_resource_to_dns res (text ls) type) Q.
Proof.
  intros Hfull Httl Hok Hlast HQ. assert (Hl := name_ok_last ls l Hok Hlast). assert (Hn : name_wf false (text ls)) by by exists ls.
  assert (Hwf : forall k, Forall (rr_wf false) k -> rrs_ok k) by (intros k Hk; eapply Forall_impl; [exact Hk|apply rr_wf_type_ok]).
  unfold hsk_resource_to_dns. rewrite fqdn_text by done.
  eapply runs_bind; [by apply (runs_assert (fun _ => True))|intros _ _]. rewrite count_text by done.
  assert (Hne : (0 < length ls)%nat) by (destruct ls; [done|cbn; lia]). destruct (Z.eqb_spec (Z.of_nat (length ls)) 0); [lia|].
  eapply returns_bind; [apply returns_lift; by apply (label_last ls l)|].
  assert (Hlen : Z.of_nat (length (text [l])) <= 64).
  { destruct Hl as [[[Hl _] _]%Forall_cons_1 _]. rewrite text_body by done. assert (H1 := length_body_cons l []). cbn in H1 |- *. lia. }
  unfold HSK_DNS_MAX_NAME, HSK_DNS_MAX_LABEL. destruct (Z.leb_spec 255 (Z.of_nat (length (text [l])))); [lia|].
  destruct (Z.ltb_spec (63 + 1) (Z.of_nat (length (text [l])))); [lia|].
  eapply returns_bind; [unfold hsk_dns_msg_alloc; eapply returns_bind; [apply malloc_returns|apply returns_ret]|]. cbv iota.
  unfold answer_of in HQ. destruct (Z.ltb_spec 1 (Z.of_nat (length ls))) as [Hm|Hs].
  { rewrite (proj2 (Nat.eqb_neq (length ls) 1)) in HQ by lia. eapply runs_bind; [by apply (runs_referral res l (fun m => referral_of res (text [l]) m /\ msg_ok m))|].
    intros m [Hm1 Hm2]. apply runs_ret. by apply HQ. }
  assert (Els : ls = [l]).
  { destruct ls as [|x [|y r]]; [cbn in Hne; lia| |cbn in Hs; lia]. cbn in Hlast. congruence. }
  subst ls. cbn [length Nat.eqb andb] in HQ.
  apply (runs_bind _ _ (fun m => (m = hsk_dns_msg_init /\ direct_set res (text [l]) type = []) \/
    exists k, direct_set res (text [l]) type <> [] /\ Forall (rr_wf false) k /\ k <> [] /\
      signed hsk_dnssec_zsk type (push_all [] (direct_set res (text [l]) type)) k /\
      m = if type =? HSK_DNS_NS then with_ar (with_ns hsk_dns_msg_init k) (push_all [] (glue_set res (text [l]))) else with_an hsk_dns_msg_init k)).
  { apply runs_direct; [done..|by left|]. intros k ? ? ? ?. right. exists k. by split_and!. }
  intros m [[-> Hd]|(k & Hd & Hkw & Hkn & Hks & ->)].
  - cbn [msg_an hsk_dns_msg_init is_nil negb msg_ns andb]. rewrite Hd in HQ. cbn [is_nil negb andb] in HQ.
    eapply runs_bind; [by apply (runs_referral res l (fun m => referral_of res (text [l]) m /\ msg_ok m))|].
    intros m [Hm1 Hm2]. apply runs_ret. by apply HQ.
  - assert (En : is_nil (direct_set res (text [l]) type) = false) by (by destruct (direct_set res (text [l]) type)).
    rewrite En in HQ. cbn [negb] in HQ. destruct k as [|x k]; [done|].
    destruct (type =? HSK_DNS_NS) eqn:Et.
    1: refine (runs_ret (Some (with_ar (with_ns hsk_dns_msg_init (x :: k)) (push_all [] (glue_set res (text [l]))))) Q _).
    2: refine (runs_ret (Some (or_flags (with_an hsk_dns_msg_init (x :: k)) HSK_DNS_AA)) Q _).
    1, 2: apply HQ; [exists (x :: k); by rewrite Et|].
    + split_and!; try apply Forall_nil_2; [by apply Hwf| |by apply length_push_all, Nat.le_0_l].
      apply Hwf, Forall_push_all; [constructor|by apply glue_set_wf].
    + split_and!; try apply Forall_nil_2; [by apply Hwf|apply Nat.le_0_l].
Qed.

(** * The other answers *)

(** What every answer that the server makes is. *)
Definition fresh (code : Z) (msg : hsk_dns_msg_t) : Prop :=
  msg_ok msg /\ msg_opcode msg = HSK_DNS_QUERY /\ msg_code msg = code /\ 0 <= msg_flags msg.
Lemma fresh_of code msg : msg_ok msg -> msg_opcode msg = HSK_DNS_QUERY -> msg_code msg = code -> 0 <= msg_flags msg -> fresh code msg.
Proof. intros H1 H2 H3 H4. by split; [|split; [|split]]. Qed.
(** A section that is well formed. *)
Definition rrs (l : list hsk_dns_rr_t) : Prop := Forall (rr_wf false) l /\ (length l <= 255)%nat.
Lemma rrs_wf_ok l : rrs l -> rrs_ok l.
Proof. intros [Hl _]. eapply Forall_impl; [exact Hl|apply rr_wf_type_ok]. Qed.
Lemma rrs_nil : rrs [].
Proof. split; [constructor|apply Nat.le_0_l]. Qed.
Lemma rrs_push l x : rrs l -> rr_wf false x -> rrs (push_item l x).
Proof. intros [Hl Hn] Hx. split; [by apply Forall_push_item|by apply length_push_item]. Qed.
Lemma rrs_signed priv type l l' : rrs l -> signed priv type l l' -> rrs l'.
Proof.
  intros [Hl Hn] Hs. split; [by eapply signed_wf|]. destruct Hs as [(sig & -> & Hlt & _)|[-> _]]; [|done].
  rewrite length_app. cbn [length]. lia.
Qed.

(** One record of the root, with its signature. *)
Lemma runs_root_record m type l rr (Q : list hsk_dns_rr_t -> Prop) : returns (m l) (true, push_item l rr) -> rrs l -> rr_wf false rr ->
  rr_name rr = [dot] -> rr_class rr = HSK_DNS_IN -> owned type root_name l -> type <> HSK_DNS_SIG ->
  (forall l', rrs l' -> (forall t, t <> HSK_DNS_RRSIG -> owned t root_name l -> owned t root_name l') -> Q l') ->
  runs (and_sign m type l) Q.
Proof.
  intros Hm Hl Hrr Hn Hc Ho Ht HQ. assert (Hp : rrs (push_item l rr)) by by apply rrs_push.
  assert (Hop : forall t, owned t root_name l -> owned t root_name (push_item l rr)).
  { intros t Hot. apply Forall_push_item; [done|]. by intros _; rewrite Hn. }
  eapply runs_and_sign; [exact Hm|apply Hp|apply root_wf|by apply Hop|done|]. intros l' Hl'. apply HQ.
  - by eapply rrs_signed.
  - intros t Htt Hot. eapply signed_owned; [by apply Hop|done|exact Hl'].
Qed.
Lemma root_ns_returns l : returns (hsk_resource_root_to_ns l) (true, push_item l (in_rr root_name HSK_DNS_NS 518400 (RNs root_name))).
Proof. apply push_record_returns, root_wf. Qed.
Lemma root_nsec_returns l : returns (hsk_resource_root_to_nsec l) (true, push_item l (nsec_rr root_name hsk_type_map)).
Proof.
  unfold hsk_resource_root_to_nsec. eapply returns_bind; [apply rr_create_returns|]. eapply returns_bind; [apply malloc_returns|].
  eapply returns_bind; [by apply set_name_returns; [apply root_wf|]|]. apply returns_ret.
Qed.
Lemma type_map_blob : blob 255 hsk_type_map.
Proof. split; [apply (bool_decide_unpack _); vm_compute; exact I|by vm_compute]. Qed.
Lemma root_nsec_wf : rr_wf false (nsec_rr root_name hsk_type_map).
Proof. apply nsec_rr_wf; [apply root_wf|apply type_map_blob]. Qed.
Lemma runs_root_soa l (Q : list hsk_dns_rr_t -> Prop) : rrs l -> owned HSK_DNS_SOA root_name l ->
  (forall l', rrs l' -> (forall t, t <> HSK_DNS_RRSIG -> owned t root_name l -> owned t root_name l') -> Q l') ->
  runs (and_sign hsk_resource_root_to_soa HSK_DNS_SOA l) Q.
Proof.
  intros Hl Ho HQ. apply runs_sign_soa; [apply Hl|done|]. intros serial l' Hs Hl'.
  assert (Hp : rrs (push_item l (soa_rr serial))) by (apply rrs_push; [done|by apply soa_rr_wf]).
  apply HQ; [by eapply rrs_signed|]. intros t Ht Hot. eapply signed_owned; [|done|exact Hl']. by apply Forall_push_item.
Qed.

Lemma runs_msg_alloc (k : option hsk_dns_msg_t -> io (option hsk_dns_msg_t)) (Q : option hsk_dns_msg_t -> Prop) :
  runs (k (Some hsk_dns_msg_init)) Q -> runs (m ← hsk_dns_msg_alloc; k m) Q.
Proof. intros Hk. eapply returns_bind; [|exact Hk]. eapply returns_bind; [apply malloc_returns|apply returns_ret]. Qed.
Lemma runs_nx (Q : option hsk_dns_msg_t -> Prop) : (forall msg, fresh HSK_DNS_NXDOMAIN msg -> Q (Some msg)) -> runs hsk_resource_to_nx Q.
Proof.
  intros HQ. unfold hsk_resource_to_nx. apply runs_msg_alloc. cbv zeta iota.
  eapply returns_bind; [apply root_nsec_returns|]. change (snd (true, push_item (msg_ns _) ?x)) with [x].
  assert (Hw : rrs [nsec_rr root_name hsk_type_map]) by (apply (rrs_push []); [apply rrs_nil|apply root_nsec_wf]).
  assert (Ho : forall t, owned t root_name [nsec_rr root_name hsk_type_map]) by (intros t; by apply Forall_singleton).
  apply (runs_bind _ _ (fun l => rrs l /\ owned HSK_DNS_SOA root_name l)).
  { eapply runs_root_record; [apply root_nsec_returns|exact Hw|apply root_nsec_wf|done|done|apply Ho|done|].
    intros l' Hl' Hol. split; [done|]. by apply Hol. }
  intros l [Hl Hol]. apply (runs_bind _ _ rrs); [by apply runs_root_soa|]. intros l' Hl'. apply runs_ret, HQ.
  apply fresh_of; [|done|done|done]. split_and!; try apply Forall_nil_2; [by apply rrs_wf_ok|apply Nat.le_0_l].
Qed.
Lemma runs_code code (Q : option hsk_dns_msg_t -> Prop) : Q (Some (with_code hsk_dns_msg_init code)) -> runs (with_code_only code) Q.
Proof.
  intros HQ. apply (runs_msg_alloc (fun msg => mret (match msg with Some msg => Some (with_code msg code) | None => None end))).
  by apply runs_ret.
Qed.

(** An address as [addr.c] keeps it. *)
Definition addr_ok (addr : hsk_addr_t) : Prop := bytes_n 36 (ad_ip addr).
Lemma runs_root_glue addr msg (Q : hsk_dns_msg_t -> Prop) : addr_ok addr -> msg_ar msg = [] ->
  (forall ar, rrs ar -> Q (with_ar msg ar)) -> runs (root_glue addr msg) Q.
Proof.
  intros [Hal Hab] Har HQ. unfold root_glue.
  assert (Hip : forall n, (n <= 24)%nat -> bytes_n n (take n (drop 12 (ad_ip addr)))).
  { intros n Hn. split; [rewrite length_take, length_drop; lia|auto with hsk]. }
  assert (Hnil : Q (with_ar msg [])) by apply HQ, rrs_nil. assert (Em : with_ar msg [] = msg) by (destruct msg; cbn in *; by subst).
  unfold hsk_addr_is_ip4, hsk_addr_is_ip6. destruct (hsk_addr_is_mapped addr) eqn:E4; cbn [negb andb].
  - eapply runs_bind; [|intros m Hm; apply runs_ret; exact Hm]. apply (runs_bind _ _ rrs); [|intros ar Hr; by apply runs_ret, HQ].
    rewrite Har. eapply runs_root_record; [|apply rrs_nil| |..]; [unfold hsk_resource_root_to_a; unfold hsk_addr_is_ip4; rewrite E4; apply push_record_returns, root_wf| |done|done|constructor|done|].
    + apply a_rr_wf; [apply root_wf|done|]. unfold hsk_addr_get_ip, hsk_addr_is_ip6. rewrite E4. by apply (Hip 4%nat); lia.
    + by intros l' Hl' _.
  - eapply returns_bind; [apply returns_ret|]. destruct (negb (hsk_addr_is_onion addr)) eqn:E6; [|apply runs_ret; by rewrite Em in Hnil].
    apply (runs_bind _ _ rrs); [|intros ar Hr; by apply runs_ret, HQ].
    rewrite Har. eapply runs_root_record; [|apply rrs_nil| |..]; [unfold hsk_resource_root_to_aaaa, hsk_addr_is_ip6; rewrite E4, E6; apply push_record_returns, root_wf| |done|done|constructor|done|].
    + apply aaaa_rr_wf; [apply root_wf|done|]. unfold hsk_addr_get_ip, hsk_addr_is_ip6. rewrite E4, E6.
      split; [cbn in Hal |- *; rewrite length_take, Hal; done|by apply bytes_take].
    + by intros l' Hl' _.
Qed.
Lemma runs_root type addr (Q : option hsk_dns_msg_t -> Prop) : addr_ok addr ->
  (forall msg, fresh HSK_DNS_NOERROR msg -> Q (Some msg)) -> runs (hsk_resource_root type (Some addr)) Q.
Proof.
  intros Ha HQ. unfold hsk_resource_root. apply runs_msg_alloc. cbv zeta iota. cbn [need_addr].
  set (m0 := or_flags hsk_dns_msg_init HSK_DNS_AA).
  assert (Hfin : forall an ns ar, rrs an -> rrs ns -> rrs ar -> Q (Some (with_ar (with_ns (with_an m0 an) ns) ar))).
  { intros an ns ar H1 H2 H3. apply HQ, fresh_of; [|done|done|done]. split_and!; try apply Forall_nil_2; first [by apply rrs_wf_ok|apply H3]. }
  assert (Hns : forall l (Q : list hsk_dns_rr_t -> Prop), l = [] -> (forall l', rrs l' -> Q l') ->
    runs (and_sign hsk_resource_root_to_ns HSK_DNS_NS l) Q).
  { intros l Q0 -> HQ0. eapply runs_root_record; [apply root_ns_returns|apply rrs_nil| |done|done|constructor|done|auto].
    apply ns_rr_wf; [apply root_wf|done|apply root_wf]. }
  destruct (_ || _).
  { apply (runs_bind _ _ rrs); [by apply Hns|]. intros an Han.
    apply (runs_bind _ _ (fun m => exists ar, rrs ar /\ m = with_ar (with_an m0 an) ar)).
    - apply runs_root_glue; [done|done|]. intros ar Har. by exists ar.
    - intros m (ar & Har & ->). apply runs_ret. by apply (Hfin an []); [|apply rrs_nil|]. }
  destruct (type =? HSK_DNS_SOA).
  { apply (runs_bind _ _ rrs); [apply runs_root_soa; [apply rrs_nil|constructor|auto]|]. intros an Han.
    apply (runs_bind _ _ rrs); [by apply Hns|]. intros ns Hnsw.
    apply (runs_bind _ _ (fun m => exists ar, rrs ar /\ m = with_ar (with_ns (with_an m0 an) ns) ar)).
    - apply runs_root_glue; [done|done|]. intros ar Har. by exists ar.
    - intros m (ar & Har & ->). apply runs_ret. by apply Hfin. }
  destruct (type =? HSK_DNS_DNSKEY).
  { unfold hsk_resource_root_to_dnskey.
    apply (runs_bind _ _ (fun r => rrs (snd r) /\ owned HSK_DNS_DNSKEY root_name (snd r))).
    - apply (runs_bind _ _ key_ok); [by apply runs_ksk|]. intros k Hk.
      eapply returns_bind; [apply (runs_rr_clone k); [apply Hk|done]|].
      apply (runs_bind _ _ key_ok); [by apply runs_zsk|]. intros z Hz.
      eapply returns_bind; [apply (runs_rr_clone z); [apply Hz|done]|]. apply runs_ret.
      destruct Hk as (Hkw & Hkn & _ & Hkc & _), Hz as (Hzw & Hzn & _ & Hzc & _).
      cbn [snd]. change (push_item (push_item (msg_an m0) k) z) with [k; z].
      split; [by apply (rrs_push [k]); [apply (rrs_push []); [apply rrs_nil|]|]|].
      by repeat (apply Forall_cons_2; [by intros _; rewrite ?Hkn, ?Hzn|]); apply Forall_nil_2.
    - intros r [Hr Ho]. apply (runs_bind _ _ rrs); [|intros an Han; apply runs_ret; by apply (Hfin an [] []); [|apply rrs_nil|apply rrs_nil]].
      apply runs_sign_ksk; [apply Hr|eapply owned_one_set; [apply root_wf|exact Ho]|done|]. intros l' Hl'. by eapply rrs_signed. }
  destruct (type =? HSK_DNS_DS).
  { apply (runs_bind _ _ rrs); [|intros an Han; apply runs_ret; by apply (Hfin an [] []); [|apply rrs_nil|apply rrs_nil]].
    unfold and_sign, hsk_resource_root_to_ds. apply (runs_bind _ _ (fun r => rrs (snd r) /\ owned HSK_DNS_DS root_name (snd r))).
    - apply (runs_bind _ _ ds_ok); [by apply runs_ds|]. intros d (Hdw & Hdn & _ & Hdc).
      eapply returns_bind; [by apply (runs_rr_clone d)|]. apply runs_ret. cbn [snd]. change (push_item (msg_an m0) d) with [d].
      split; [by apply (rrs_push []); [apply rrs_nil|]|]. apply Forall_singleton. by intros _; rewrite Hdn.
    - intros r [Hr Ho]. apply runs_sign_zsk; [apply Hr|eapply owned_one_set; [apply root_wf|exact Ho]|done|].
      intros l' Hl'. by eapply rrs_signed. }
  apply (runs_bind _ _ (fun l => rrs l /\ owned HSK_DNS_SOA root_name l)).
  { eapply runs_root_record; [apply root_nsec_returns|apply rrs_nil|apply root_nsec_wf|done|done|constructor|done|].
    intros l' Hl' Hol. split; [done|]. by apply Hol; [|constructor]. }
  intros l [Hl Hol]. apply (runs_bind _ _ rrs); [by apply runs_root_soa|]. intros ns Hnsw. apply runs_ret. by apply (Hfin [] ns []); [apply rrs_nil| |apply rrs_nil].
Qed.

(** * Properties *)

(** C13: What a name is answered with. For the records of a resource that are complete and a name whose
    last label is [l], with memory, [hsk_resource_to_dns] answers from the resource alone
    as [answer_of] says: a name of one label and a type that the resource holds gives exactly the records
    of the type (authoritative, but for servers), one for each record of the resource and in their
    order, with a signature of the set if one could be made; any other query
    gives the servers of the top-level name with their delegations and the addresses under it, or, if
    there are none, the signed proof that it is empty. The message is well formed. *)
Theorem resource_to_dns_correct res ls l type w : Forall record_full (res_records res) -> in32 (res_ttl res) ->
  name_ok ls -> last ls = Some l -> world_ok w -> exists msg w',
  hsk_resource_to_dns res (text ls) type w = Ret (Some msg, w') /\ world_ok w' /\ answer_of res ls l type msg /\ msg_ok msg.
Proof.
  intros Hfull Httl Hok Hl Hw.
  destruct (runs_to_dns res ls l type (fun r => exists msg, r = Some msg /\ answer_of res ls l type msg /\ msg_ok msg)
    Hfull Httl Hok Hl (fun m Ha Hm => ex_intro _ m (conj eq_refl (conj Ha Hm))) w Hw) as (r & w' & E & Hw' & msg & -> & Ha & Hm).
  by exists msg, w'.
Qed.
End Routines.

(** * Witness *)

(** A host that signs everything alike. *)
Definition sample_host : Host := {|
  host_endian := Little; host_garbage := replicate 64 7; host_addr := fun _ => 0; host_al := fun _ _ _ => true;
  host_mem := fun _ _ => true; host_clock := fun _ _ => 1700000000;
  host_ecc_make_pubkey := fun _ => Some (replicate 64 1); host_ecc_sign := fun _ _ => Some (replicate 64 5);
  host_ec_create_pubkey := fun _ => Some (replicate 33 2); host_ec_sign_msg := fun _ _ => Some (replicate 64 6);
  host_ec_verify_msg := fun _ _ s => bool_decide (s = replicate 64 6);
  host_inet_ntop := fun _ _ _ => Some [49]; host_udp_send := fun _ => 0 |}.
Lemma replicate_bytes n b : 0 <= b < 256 -> bytes_n n (replicate n b).
Proof. intros Hb. split; [by rewrite length_replicate|by apply bytes_replicate]. Qed.
#[local] Existing Instance sample_host.
Lemma sample_host_ok : HostOk.
Proof.
  split; try done.
  - by apply replicate_bytes.
  - intros k _. eexists. split; [done|by apply replicate_bytes].
  - intros k m s Es. apply (inj Some) in Es. subst s. by apply replicate_bytes.
  - intros k m _ _. eexists. split; [done|by apply replicate_bytes].
Qed.
#[local] Existing Instance sample_host_ok.
Definition sample_world : world := mk_world 0 (mk_keys None None None).
Lemma sample_full : Forall record_full sample_records.
Proof.
  assert (Hn : forall ls, bool_decide (Forall label_ok ls) = true -> Z.of_nat (length (body ls)) <= 255 -> name_wf false (text ls)).
  { intros ls H1 H2. exists ls. split; [done|]. split; [|done]. by split; [by apply bool_decide_eq_true in H1|]. }
  assert (Hb : forall l, bool_decide (bytes l) = true -> bytes l) by (intros l; apply bool_decide_eq_true).
  unfold sample_records. repeat (apply Forall_cons; split); [split|split|split|constructor].
  - split; [right; by apply (Hn [[110; 115]; [97]]); vm_compute|]. split; [done|by apply Hb; vm_compute].
  - by apply (Hn [[110; 115]; [97]]); vm_compute.
  - right. by apply (Hn [[97]]); vm_compute.
  - by apply (Hn [[97]]); vm_compute.
  - split; [|by vm_compute]. apply Forall_singleton. split; [by apply Hb; vm_compute|by vm_compute].
  - apply Forall_singleton. by eexists.
Qed.
(** The referral of "www.a." *)
Lemma resource_to_dns_correct_witness : exists msg w',
  hsk_resource_to_dns (mk_resource 0 HSK_DEFAULT_TTL sample_records) (text [[119; 119; 119]; [97]]) HSK_DNS_A sample_world = Ret (Some msg, w') /\
  answer_of (mk_resource 0 HSK_DEFAULT_TTL sample_records) [[119; 119; 119]; [97]] [97] HSK_DNS_A msg.
Proof.
  destruct (resource_to_dns_correct (mk_resource 0 HSK_DEFAULT_TTL sample_records) [[119; 119; 119]; [97]] [97] HSK_DNS_A sample_world
    sample_full) as (msg & w' & E & _ & Ha & _).
  - by vm_compute.
  - split; [|by vm_compute]. apply (bool_decide_unpack _). vm_compute. exact I.
  - reflexivity.
  - by repeat split.
  - exists msg, w'. by split.
Defined.
