(* ===== verification/Sig0.v ===== *)
(** Signatures of whole messages: [sig0.c].

    A response is signed by a record of type SIG at its end, with an algorithm of its own:
    the BLAKE2b hash of the message is signed on the curve secp256k1. *)

From S2P Require Import Prelude Bio Blake2b Hash Map MapProps Sha256 Hkdf DnsName DnsRecord DnsMsg Dnssec Host.

Definition HSK_SIG0_RR_SIZE : Z := 94.
Definition HSK_SIG0_RD_SIZE : Z := 83.
Definition HSK_SIG0_TYPE : Z := 24.
Definition HSK_SIG0_CLASS : Z := 255.
Definition HSK_SIG0_ZERO : Z := 0.
Definition HSK_SIG0_ALG : Z := 253.

(** The bytes from [&d[i]] on. *)
Definition at_ (d : list Z) (i : nat) : list Z := drop i d.
Definition sig0_rr (wire : list Z) : list Z := at_ wire (length wire - Z.to_nat HSK_SIG0_RR_SIZE).

Section Sig0.
Context `{Host}.
Local Abbreviation u16at := (fun d i => get_u16be_on host_endian (at_ d i)).
Local Abbreviation u32at := (fun d i => get_u32be_on host_endian (at_ d i)).
Local Abbreviation u8at := (fun d i => get_u8 (at_ d i)).

Definition hsk_sig0_has_sig (wire : list Z) : bool :=
  if Z.of_nat (length wire) <? HSK_SIG0_RR_SIZE + 12 then false
  else if u16at wire 10%nat <? 1 then false
  else
    let rr := sig0_rr wire in
    if negb (u8at rr 0%nat =? 0) then false
    else if negb (u16at rr 1%nat =? HSK_SIG0_TYPE) then false
    else if negb (u16at rr 3%nat =? HSK_SIG0_CLASS) then false
    else if negb (u32at rr 5%nat =? 0) then false
    else if negb (u16at rr 9%nat =? HSK_SIG0_RD_SIZE) then false
    else if negb (u16at rr 11%nat =? HSK_SIG0_ZERO) then false
    else true.

(** The signature and the key tag; [now] is the clock. *)
Definition hsk_sig0_get_sig (now : Z) (wire : list Z) : option (list Z * Z) :=
  if negb (hsk_sig0_has_sig wire) then None
  else
    let rd := at_ (sig0_rr wire) 11 in
    if negb (u16at rd 0%nat =? HSK_SIG0_ZERO) then None
    else if negb (u8at rd 2%nat =? HSK_SIG0_ALG) then None
    else if negb (u8at rd 3%nat =? 0) || negb (u32at rd 4%nat =? 0) then None
    else if negb (u8at rd 18%nat =? 0) then None
    else
      let now := u32 now in
      if now <? u32at rd 12%nat then None
      else if u32at rd 8%nat <? now then None
      else Some (take 64 (at_ rd 19), u16at rd 16%nat).

Definition hsk_sig0_sighash (wire : list Z) : outcome (list Z) :=
  if negb (hsk_sig0_has_sig wire) then Fail
  else
    let arcount := u16at wire 10%nat in
    let rd := at_ (sig0_rr wire) 11 in
    let count := set_u16be_on host_endian (u16 (arcount - 1)) in
    blake2b_assert 32
      [take 19 rd; take 10 wire; count; take (length wire - 12 - Z.to_nat HSK_SIG0_RR_SIZE) (at_ wire 12)].

(** The record with its times; the signature is still zero. *)
Definition sig0_record (now : Z) : list Z :=
  set_u8 0 ++ set_u16be_on host_endian HSK_SIG0_TYPE ++ set_u16be_on host_endian HSK_SIG0_CLASS ++
  set_u32be_on host_endian 0 ++ set_u16be_on host_endian HSK_SIG0_RD_SIZE ++
  set_u16be_on host_endian HSK_SIG0_ZERO ++ set_u8 HSK_SIG0_ALG ++ set_u8 0 ++ set_u32be_on host_endian 0 ++
  set_u32be_on host_endian (u32 (now + 6 * 60 * 60)) ++ set_u32be_on host_endian (u32 (now - 6 * 60 * 60)) ++
  set_u16be_on host_endian 0 ++ set_u8 0 ++ replicate 64 0.
Definition hsk_sig0_sign (malloc_ok : bool) (now : Z) (key wire : list Z) : outcome (list Z) :=
  if (length wire <? 12)%nat then Fail
  else
    let has := hsk_sig0_has_sig wire in
    let arcount := u16 (u16at wire 10%nat + 1) in
    let wire := if has then take (length wire - Z.to_nat HSK_SIG0_RR_SIZE) wire else wire in
    let arcount := if has then u16 (arcount - 1) else arcount in
    if malloc_ok then
      let now := u32 now in
      let o := take 10 wire ++ set_u16be_on host_endian arcount ++ at_ wire 12 ++ sig0_record now in
      let* hash := hsk_sig0_sighash o in
      match host_ec_sign_msg key hash with
      | None => Fail
      | Some sig => Ret (take (length o - 64) o ++ sig)
      end
    else Fail.

Definition hsk_sig0_verify (now : Z) (pubkey wire : list Z) : outcome bool :=
  match hsk_sig0_get_sig now wire with
  | None => Ret false
  | Some (sig, tag) =>
      let* hash := match hsk_sig0_sighash wire with Fail => Fault AssertFail | o => o end in
      Ret (host_ec_verify_msg pubkey hash sig)
  end.
End Sig0.
