(* ===== verification/Sig0Props.v ===== *)
(** The properties of signatures of messages: what is signed is verified. *)

From S2P Require Import Prelude Bio Blake2b Hash Map MapProps Sha256 Hkdf DnsName DnsNameProps DnsLabels DnsRecord DnsCodec DnsMsg DnsSafe Dnssec DnssecProps Host HostProps Resource ResourceProps AnswerProps Sig0.

(** * The record *)

(** What is signed of it: its times and its tag. *)
Definition sig0_rdata (expire inception tag : Z) : list Z :=
  [0; 0; 253; 0; 0; 0; 0; 0] ++ be_split 4 expire ++ be_split 4 inception ++ be_split 2 tag ++ [0].
Definition sig0_rec (expire inception tag : Z) (sig : list Z) : list Z :=
  [0; 0; 24; 0; 255; 0; 0; 0; 0; 0; 83] ++ sig0_rdata expire inception tag ++ sig.
(** What is hashed of a message and its record. *)
Definition sig0_data (expire inception tag : Z) (pre : list Z) : list Z :=
  sig0_rdata expire inception tag ++ take 10 pre ++ be_split 2 (ar_count pre - 1) ++ drop 12 pre.
Lemma length_rdata e i t : length (sig0_rdata e i t) = 19%nat.
Proof. unfold sig0_rdata. by rewrite !length_app, !length_be_split. Qed.
Lemma length_sig0 e i t s : length s = 64%nat -> length (sig0_rec e i t s) = 94%nat.
Proof. intros Hs. unfold sig0_rec. by rewrite !length_app, length_rdata, Hs. Qed.
Lemma bytes_rdata e i t : bytes (sig0_rdata e i t).
Proof. unfold sig0_rdata. rewrite !bytes_app. split_and!; auto using bytes_be_split; apply (bool_decide_unpack _); vm_compute; exact I. Qed.
Lemma bytes_sig0 e i t s : bytes s -> bytes (sig0_rec e i t s).
Proof.
  intros Hs. unfold sig0_rec. rewrite !bytes_app. split_and!; auto using bytes_rdata; apply (bool_decide_unpack _); vm_compute; exact I.
Qed.
Lemma signed_count_range wire : bytes wire -> 0 <= ar_count wire < 2 ^ 16.
Proof.
  intros Hb. assert (Hc := be_combine_range (take 2 (drop 10 wire)) ltac:(auto with hsk)). unfold ar_count.
  assert (Hl : (length (take 2 (drop 10 wire)) <= 2)%nat) by (rewrite length_take; lia).
  destruct (length (take 2 (drop 10 wire))) as [|[|[|]]]; [..|lia]; cbn in Hc; lia.
Qed.
(** The hashed bytes tell the message and the record, up to its signature. *)
Lemma be_split_inj n x y : 0 <= x < 256 ^ Z.of_nat n -> 0 <= y < 256 ^ Z.of_nat n -> be_split n x = be_split n y -> x = y.
Proof. intros Hx Hy E. apply (f_equal be_combine) in E. rewrite !be_combine_split, !Z.mod_small in E by done. done. Qed.
Lemma rdata_inj e i t e' i' t' : in32 e -> in32 i -> in16 t -> in32 e' -> in32 i' -> in16 t' ->
  sig0_rdata e i t = sig0_rdata e' i' t' -> e = e' /\ i = i' /\ t = t'.
Proof.
  intros He Hi Ht He' Hi' Ht' E. unfold sig0_rdata in E. apply app_inj_1 in E as [_ E]; [|done].
  apply app_inj_1 in E as [E1 E]; [|by rewrite !length_be_split]. apply app_inj_1 in E as [E2 E]; [|by rewrite !length_be_split].
  apply app_inj_1 in E as [E3 _]; [|by rewrite !length_be_split]. apply be_split_inj in E1, E2, E3; done.
Qed.
Lemma sig0_data_inj e i t pre e' i' t' pre' : in32 e -> in32 i -> in16 t -> in32 e' -> in32 i' -> in16 t' -> bytes pre -> bytes pre' ->
  (12 <= length pre)%nat -> (12 <= length pre')%nat -> 1 <= ar_count pre -> 1 <= ar_count pre' ->
  sig0_data e i t pre = sig0_data e' i' t' pre' -> e = e' /\ i = i' /\ t = t' /\ pre = pre'.
Proof.
  intros He Hi Ht He' Hi' Ht' Hb Hb' Hl Hl' Hc Hc' E. unfold sig0_data in E.
  apply app_inj_1 in E as [E1 E]; [|by rewrite !length_rdata]. apply rdata_inj in E1 as (-> & -> & ->); try done.
  apply app_inj_1 in E as [E1 E]; [|rewrite !length_take; lia]. apply app_inj_1 in E as [E2 E3]; [|by rewrite !length_be_split].
  assert (R := signed_count_range pre Hb). assert (R' := signed_count_range pre' Hb').
  apply be_split_inj in E2; [|change (256 ^ Z.of_nat 2) with (2 ^ 16); lia..].
  assert (Ec : take 2 (drop 10 pre) = take 2 (drop 10 pre')).
  { assert (L : length (take 2 (drop 10 pre)) = 2%nat) by (rewrite length_take, length_drop; lia).
    assert (L' : length (take 2 (drop 10 pre')) = 2%nat) by (rewrite length_take, length_drop; lia).
    rewrite <-(be_split_combine (take 2 (drop 10 pre))), <-(be_split_combine (take 2 (drop 10 pre'))) by auto with hsk.
    rewrite L, L'. f_equal. unfold ar_count in E2. lia. }
  do 3 (split; [done|]). rewrite <-(take_drop 10 pre), <-(take_drop 10 pre'), <-(take_drop 2 (drop 10 pre)), <-(take_drop 2 (drop 10 pre')).
  rewrite !drop_drop. change (10 + 2)%nat with 12%nat. by rewrite E1, Ec, E3.
Qed.

Section Sig0Props.
Context `{HostOk}.
Local Abbreviation u16at := (fun d i => get_u16be_on host_endian (at_ d i)).

Lemma sig0_record_eq now : sig0_record now = sig0_rec (u32 (now + 21600)) (u32 (now - 21600)) 0 (replicate 64 0).
Proof.
  unfold sig0_record, sig0_rec, sig0_rdata. rewrite !set_u16be_host, !set_u32be_host. change (6 * 60 * 60) with 21600.
  change (be_split 2 HSK_SIG0_TYPE) with [0; 24]. change (be_split 2 HSK_SIG0_CLASS) with [0; 255]. change (be_split 4 0) with [0; 0; 0; 0].
  change (be_split 2 HSK_SIG0_RD_SIZE) with [0; 83]. change (be_split 2 HSK_SIG0_ZERO) with [0; 0]. change (be_split 2 0) with [0; 0].
  change (set_u8 0) with [0]. change (set_u8 HSK_SIG0_ALG) with [253]. cbn [app]. rewrite <-!(assoc_L (++)). done.
Qed.

(** The hash of the message. *)
Lemma data_hash d : exists hash, blake2b_assert 32 [d] = Ret hash /\ bytes_n 32 hash.
Proof. destruct (blake2b_assert_total 32 [d] ltac:(lia)) as (h & E & Hb). by exists h. Qed.
(** ** A message that ends with the record *)

Section Message.
Context (pre : list Z) (e i t : Z) (s : list Z) (Hpre : bytes pre) (Hlen : (12 <= length pre)%nat) (Hs : bytes_n 64 s).
Local Abbreviation rec := (sig0_rec e i t s).
Local Abbreviation msg := (pre ++ rec).
Lemma bytes_msg : bytes msg.
Proof. apply bytes_app. split; [done|apply bytes_sig0, Hs]. Qed.
Lemma sig0_rr_msg : sig0_rr msg = rec.
Proof.
  unfold sig0_rr, at_. rewrite length_app, length_sig0 by apply Hs. change (Z.to_nat HSK_SIG0_RR_SIZE) with 94%nat.
  rewrite drop_app_length' by lia. done.
Qed.
Lemma count_msg : u16at msg 10%nat = ar_count pre.
Proof.
  unfold at_. rewrite get_u16be_host; [|apply bytes_drop, bytes_msg|rewrite length_drop, length_app; lia].
  rewrite drop_app_le by lia. rewrite take_app_le by (rewrite length_drop; lia). done.
Qed.
(** A field of the record. *)
Lemma u16_rr k a v b : rec = a ++ be_split 2 v ++ b -> k = length a -> u16at rec k = v mod 2 ^ 16.
Proof.
  intros E ->. assert (Hb : bytes rec) by apply bytes_sig0, Hs. rewrite E in *. unfold at_. rewrite drop_app_length.
  apply bytes_app in Hb as [_ Hb]. rewrite get_u16be_host; [|done|rewrite length_app, length_be_split; lia].
  rewrite take_app_length' by (by rewrite length_be_split). apply (be_combine_split 2).
Qed.
Lemma u32_rr k a v b : rec = a ++ be_split 4 v ++ b -> k = length a -> get_u32be_on host_endian (at_ rec k) = v mod 2 ^ 32.
Proof.
  intros E ->. assert (Hb : bytes rec) by apply bytes_sig0, Hs. rewrite E in *. unfold at_. rewrite drop_app_length.
  apply bytes_app in Hb as [_ Hb]. rewrite get_u32be_host; [|done|rewrite length_app, length_be_split; lia].
  rewrite take_app_length' by (by rewrite length_be_split). apply (be_combine_split 4).
Qed.
Lemma has_sig_msg : hsk_sig0_has_sig msg = (1 <=? ar_count pre).
Proof.
  unfold hsk_sig0_has_sig. rewrite length_app, length_sig0 by apply Hs. change (HSK_SIG0_RR_SIZE + 12) with 106.
  destruct (Z.ltb_spec (Z.of_nat (length pre + 94)) 106); [lia|]. rewrite count_msg, sig0_rr_msg, Z.ltb_antisym.
  rewrite (u16_rr 1 [0] 24 _ eq_refl eq_refl), (u16_rr 3 [0; 0; 24] 255 _ eq_refl eq_refl), (u32_rr 5 [0; 0; 24; 0; 255] 0 _ eq_refl eq_refl),
    (u16_rr 9 [0; 0; 24; 0; 255; 0; 0; 0; 0] 83 _ eq_refl eq_refl), (u16_rr 11 [0; 0; 24; 0; 255; 0; 0; 0; 0; 0; 83] 0 _ eq_refl eq_refl).
  by destruct (1 <=? _).
Qed.
Lemma at_at (d : list Z) j k : at_ (at_ d j) k = at_ d (j + k).
Proof. unfold at_. apply drop_drop. Qed.
Hypothesis (Hcount : 1 <= ar_count pre) (He : in32 e) (Hi : in32 i) (Ht : in16 t).
Lemma get_sig_msg now : hsk_sig0_get_sig now msg = if (u32 now <? i) || (e <? u32 now) then None else Some (s, t).
Proof.
  unfold hsk_sig0_get_sig. rewrite has_sig_msg, (proj2 (Z.leb_le _ _) Hcount). cbn [negb]. rewrite sig0_rr_msg, !at_at.
  set (hd := [0; 0; 24; 0; 255; 0; 0; 0; 0; 0; 83; 0; 0; 253; 0; 0; 0; 0; 0]).
  assert (E : rec = hd ++ be_split 4 e ++ be_split 4 i ++ be_split 2 t ++ [0] ++ s).
  { unfold sig0_rec, sig0_rdata. by rewrite <-!(assoc_L (++)). }
  assert (E2 : rec = (hd ++ be_split 4 e) ++ be_split 4 i ++ be_split 2 t ++ [0] ++ s) by by rewrite <-(assoc_L (++)).
  assert (E3 : rec = (hd ++ be_split 4 e ++ be_split 4 i) ++ be_split 2 t ++ [0] ++ s) by by rewrite <-!(assoc_L (++)).
  assert (E4 : rec = (hd ++ be_split 4 e ++ be_split 4 i ++ be_split 2 t) ++ [0] ++ s) by by rewrite <-!(assoc_L (++)).
  assert (E5 : rec = (hd ++ be_split 4 e ++ be_split 4 i ++ be_split 2 t ++ [0]) ++ s) by by rewrite <-!(assoc_L (++)).
  rewrite (u16_rr (11 + 0) [0; 0; 24; 0; 255; 0; 0; 0; 0; 0; 83] 0 _ eq_refl eq_refl).
  rewrite (u32_rr (11 + 4) [0; 0; 24; 0; 255; 0; 0; 0; 0; 0; 83; 0; 0; 253; 0] 0 _ eq_refl eq_refl).
  rewrite (u32_rr (11 + 8) _ _ _ E eq_refl), (u32_rr (11 + 12) _ _ _ E2), (u16_rr (11 + 16) _ _ _ E3), !(Z.mod_small _ _ He), !(Z.mod_small _ _ Hi), !(Z.mod_small _ _ Ht)
    by (by rewrite !length_app, !length_be_split).
  assert (F4 : get_u8 (at_ rec (11 + 18)) = 0).
  { rewrite E4. unfold at_. rewrite drop_app_length'; [done|]. rewrite !length_app, !length_be_split. done. }
  assert (F5 : take 64 (at_ rec (11 + 19)) = s).
  { rewrite E5. unfold at_. rewrite drop_app_length'; [destruct Hs; by rewrite take_ge by lia|]. rewrite !length_app, !length_be_split. done. }
  rewrite F4, F5. change (get_u8 (at_ rec (11 + 2))) with 253. change (get_u8 (at_ rec (11 + 3))) with 0.
  cbn [negb Z.eqb orb]. change (0 mod 2 ^ 16 =? HSK_SIG0_ZERO) with true. change (253 =? HSK_SIG0_ALG) with true.
  change (0 mod 2 ^ 32 =? 0) with true. cbn [negb orb]. by destruct (u32 now <? i), (e <? u32 now).
Qed.
Lemma sighash_msg : hsk_sig0_sighash msg = blake2b_assert 32 [sig0_data e i t pre].
Proof.
  unfold hsk_sig0_sighash. rewrite has_sig_msg, (proj2 (Z.leb_le _ _) Hcount). cbn [negb]. rewrite count_msg, sig0_rr_msg.
  assert (Hr := signed_count_range pre Hpre). rewrite u16_small by lia. rewrite set_u16be_host. change (Z.to_nat HSK_SIG0_RR_SIZE) with 94%nat.
  rewrite length_app, length_sig0 by apply Hs. unfold at_.
  replace (length pre + 94 - 12 - 94)%nat with (length pre - 12)%nat by lia.
  rewrite (drop_app_le pre _ 12) by lia. rewrite (take_app_le (drop 12 pre)) by (rewrite length_drop; lia).
  rewrite (take_ge (drop 12 pre)) by (rewrite length_drop; lia). rewrite (take_app_le pre _ 10) by lia.
  apply blake2b_assert_concat. unfold sig0_data. cbn [concat]. rewrite !app_nil_r.
  change (drop 11 rec) with (sig0_rdata e i t ++ s). by rewrite take_app_length' by (by rewrite length_rdata).
Qed.
Lemma verify_msg now pubkey hash : blake2b_assert 32 [sig0_data e i t pre] = Ret hash ->
  hsk_sig0_verify now pubkey msg = Ret (bool_decide (i <= u32 now <= e) && host_ec_verify_msg pubkey hash s).
Proof.
  intros Eh. unfold hsk_sig0_verify. rewrite get_sig_msg, sighash_msg, Eh.
  destruct (Z.ltb_spec (u32 now) i), (Z.ltb_spec e (u32 now)); cbn [orb];
    [by rewrite bool_decide_eq_false_2 by lia..|]. cbn [obind].
  by rewrite bool_decide_eq_true_2 by lia.
Qed.
End Message.

(** ** Signing *)

(** The message without a signature that it had, and the count of records with one. *)
Definition unsigned (wire : list Z) : list Z := if hsk_sig0_has_sig wire then take (length wire - 94) wire else wire.
Definition signed_count (wire : list Z) : Z := if hsk_sig0_has_sig wire then ar_count wire else ar_count wire + 1.
Definition signed_head (wire : list Z) : list Z := take 10 wire ++ be_split 2 (signed_count wire) ++ drop 12 (unsigned wire).
Lemma unsigned_spec wire : bytes wire -> (12 <= length wire)%nat -> u16at wire 10%nat = ar_count wire /\
  bytes (unsigned wire) /\ (12 <= length (unsigned wire))%nat /\ take 10 (unsigned wire) = take 10 wire /\ 1 <= signed_count wire.
Proof.
  intros Hb Hl. assert (R := signed_count_range wire Hb).
  assert (Ecount : u16at wire 10%nat = ar_count wire).
  { unfold at_. apply get_u16be_host; [auto with hsk|]. rewrite length_drop. lia. }
  split; [done|]. unfold unsigned, signed_count. destruct (hsk_sig0_has_sig wire) eqn:E; [|split_and!; (done || lia)].
  unfold hsk_sig0_has_sig in E. destruct (Z.ltb_spec (Z.of_nat (length wire)) (HSK_SIG0_RR_SIZE + 12)) as [|H1]; [done|].
  rewrite Ecount in E. destruct (Z.ltb_spec (ar_count wire) 1); [done|]. unfold HSK_SIG0_RR_SIZE in H1.
  split; [auto with hsk|]. rewrite length_take, take_take. split; [lia|]. split; [f_equal; lia|lia].
Qed.
Lemma signed_head_spec wire : bytes wire -> (12 <= length wire)%nat -> ar_count wire < 2 ^ 16 - 1 ->
  bytes (signed_head wire) /\ length (signed_head wire) = length (unsigned wire) /\ ar_count (signed_head wire) = signed_count wire.
Proof.
  intros Hb Hl Hc. destruct (unsigned_spec wire Hb Hl) as (_ & Hub & Hul & _ & Hsc).
  assert (Hr : signed_count wire < 2 ^ 16) by (unfold signed_count; destruct (hsk_sig0_has_sig wire); lia).
  unfold signed_head, ar_count. rewrite !bytes_app, !length_app, length_take, length_be_split, length_drop, Nat.min_l by lia.
  split_and!; auto using bytes_be_split with hsk; [lia|]. rewrite drop_app_length' by (rewrite length_take; lia).
  rewrite take_app_length' by (by rewrite length_be_split). rewrite be_combine_split. apply Z.mod_small. change (256 ^ Z.of_nat 2) with (2 ^ 16). lia.
Qed.
Lemma sign_spec now key wire : is_Some (host_ec_create_pubkey key) -> bytes wire -> (12 <= length wire)%nat ->
  ar_count wire < 2 ^ 16 - 1 -> let e := u32 (u32 now + 21600) in let i := u32 (u32 now - 21600) in exists hash s,
  hsk_sig0_sign true now key wire = Ret (signed_head wire ++ sig0_rec e i 0 s) /\
  blake2b_assert 32 [sig0_data e i 0 (signed_head wire)] = Ret hash /\ host_ec_sign_msg key hash = Some s /\ bytes_n 64 s.
Proof.
  intros Hkey Hb Hl Hc e i. destruct (unsigned_spec wire Hb Hl) as (Ecount & Hub & Hul & Hut & Hsc).
  destruct (signed_head_spec wire Hb Hl Hc) as (Hhb & Hhl & Hhc).
  assert (He : in32 e) by apply u32_range. assert (Hi : in32 i) by apply u32_range.
  assert (Hz64 : bytes_n 64 (replicate 64 0)) by (split; [done|by apply bytes_replicate]).
  assert (Eo : (take 10 (unsigned wire) ++ set_u16be_on host_endian (signed_count wire) ++ at_ (unsigned wire) 12 ++ sig0_record (u32 now)) =
    signed_head wire ++ sig0_rec e i 0 (replicate 64 0)).
  { rewrite sig0_record_eq, set_u16be_host, Hut. unfold signed_head, at_. fold e i. by rewrite <-!(assoc_L (++)). }
  match goal with |- exists hash s, ?l = _ /\ _ => assert (Es : l = let* hash := hsk_sig0_sighash (signed_head wire ++ sig0_rec e i 0 (replicate 64 0)) in
    match host_ec_sign_msg key hash with None => Fail | Some sig =>
      Ret (take (length (signed_head wire ++ sig0_rec e i 0 (replicate 64 0)) - 64) (signed_head wire ++ sig0_rec e i 0 (replicate 64 0)) ++ sig) end) end.
  { unfold hsk_sig0_sign. destruct (Nat.ltb_spec (length wire) 12); [lia|]. rewrite Ecount. rewrite <-Eo.
    assert (R := signed_count_range wire Hb). unfold unsigned, signed_count in *. change (Z.to_nat HSK_SIG0_RR_SIZE) with 94%nat.
    rewrite (u16_small (_ + 1)) by lia. destruct (hsk_sig0_has_sig wire); [|done]. rewrite Z.add_simpl_r, u16_small by lia. done. }
  rewrite Es, (sighash_msg _ e i 0 _ Hhb ltac:(lia) Hz64) by (rewrite ?Hhc; done).
  destruct (data_hash (sig0_data e i 0 (signed_head wire))) as (hash & Eh & Hhash). rewrite Eh. cbn [obind].
  destruct (ok_ec_sign key hash Hkey Hhash) as (s & Esig & Hs). rewrite Esig. exists hash, s. split; [|by split].
  f_equal. rewrite length_app, length_sig0 by done. unfold sig0_rec. rewrite !(assoc_L (++)).
  rewrite take_app_length'; [done|]. rewrite !length_app, length_rdata. cbn [length]. lia.
Qed.

(** ** What is verified *)

Lemma field_split n l : bytes l -> length l = n -> l = be_split n (be_combine l).
Proof. intros Hb <-. by rewrite be_split_combine. Qed.
(** The record, from its fields. *)
Lemma rec_of_fields rr : bytes_n 94 rr -> get_u8 (at_ rr 0) = 0 -> u16at rr 1%nat = 24 -> u16at rr 3%nat = 255 ->
  get_u32be_on host_endian (at_ rr 5) = 0 -> u16at rr 9%nat = 83 -> u16at rr 11%nat = 0 -> get_u8 (at_ rr 13) = 253 ->
  get_u8 (at_ rr 14) = 0 -> get_u32be_on host_endian (at_ rr 15) = 0 -> get_u8 (at_ rr 29) = 0 ->
  rr = sig0_rec (get_u32be_on host_endian (at_ rr 19)) (get_u32be_on host_endian (at_ rr 23)) (u16at rr 27%nat) (take 64 (at_ rr 30)).
Proof.
  intros [Hl Hb]. assert (H16 : forall k, (k + 2 <= 94)%nat -> u16at rr k = be_combine (take 2 (drop k rr))).
  { intros k Hk. unfold at_. apply get_u16be_host; [auto with hsk|rewrite length_drop; lia]. }
  assert (H32 : forall k, (k + 4 <= 94)%nat -> get_u32be_on host_endian (at_ rr k) = be_combine (take 4 (drop k rr))).
  { intros k Hk. unfold at_. apply get_u32be_host; [auto with hsk|rewrite length_drop; lia]. }
  rewrite !H16, !H32 by lia. clear H16 H32. unfold at_, get_u8. rewrite (take_ge (drop 30 rr)) by (rewrite length_drop; lia).
  do 30 (destruct rr as [|? rr]; [done|]). cbn [drop take nth]. cbn [length] in Hl.
  intros -> H1 H3 H5 H9 H11 -> -> H15 ->.
  repeat match goal with Hb : bytes (_ :: _) |- _ => apply bytes_cons_inv in Hb as [? Hb] end.
  assert (F : forall l v, bytes l -> be_combine l = v -> l = be_split (length l) v) by (intros l v Hbl <-; by rewrite be_split_combine).
  apply F in H1, H3, H5, H9, H11, H15; try (repeat (apply bytes_cons; [done|]); constructor).
  injection H1 as -> ->. injection H3 as -> ->. injection H5 as -> -> -> ->. injection H9 as -> ->. injection H11 as -> ->.
  injection H15 as -> -> -> ->. unfold sig0_rec, sig0_rdata.
  rewrite <-!field_split by (try done; repeat (apply bytes_cons; [done|]); constructor). done.
Qed.
Lemma sig0_verify_sound now pubkey wire : bytes wire -> hsk_sig0_verify now pubkey wire = Ret true -> exists pre e i t s hash,
  wire = pre ++ sig0_rec e i t s /\ bytes pre /\ (12 <= length pre)%nat /\ 1 <= ar_count pre /\ in32 e /\ in32 i /\ in16 t /\
  i <= u32 now <= e /\ blake2b_assert 32 [sig0_data e i t pre] = Ret hash /\ host_ec_verify_msg pubkey hash s = true.
Proof.
  intros Hb Hv. unfold hsk_sig0_verify, hsk_sig0_get_sig in Hv. destruct (hsk_sig0_has_sig wire) eqn:Eh; [|done].
  assert (Hw := Hb). cbn [negb] in Hv. rewrite !at_at in Hv. unfold hsk_sig0_has_sig in Eh.
  destruct (Z.ltb_spec (Z.of_nat (length wire)) (HSK_SIG0_RR_SIZE + 12)) as [|Hl]; [done|]. unfold HSK_SIG0_RR_SIZE in Hl.
  destruct (Z.ltb_spec (u16at wire 10%nat) 1) as [|Hcnt]; [done|].
  set (pre := take (length wire - 94) wire). set (rr := sig0_rr wire) in *.
  assert (Err : rr = drop (length wire - 94) wire) by done.
  assert (Hrr : bytes_n 94 rr) by (rewrite Err; split; [rewrite length_drop; lia|auto with hsk]).
  assert (Hpre : bytes pre /\ (12 <= length pre)%nat) by (split; [unfold pre; auto with hsk|unfold pre; rewrite length_take; lia]).
  assert (Ew : wire = pre ++ rr) by (rewrite Err; symmetry; apply take_drop).
  repeat match type of Eh with (if negb (?a =? ?b) then _ else _) = _ => destruct (Z.eqb_spec a b); [|done]; cbn [negb] in Eh end.
  change (11 + 0)%nat with 11%nat in Hv. change (11 + 2)%nat with 13%nat in Hv. change (11 + 3)%nat with 14%nat in Hv.
  change (11 + 4)%nat with 15%nat in Hv. change (11 + 18)%nat with 29%nat in Hv. change (11 + 12)%nat with 23%nat in Hv.
  change (11 + 8)%nat with 19%nat in Hv. change (11 + 19)%nat with 30%nat in Hv. change (11 + 16)%nat with 27%nat in Hv.
  destruct (Z.eqb_spec (u16at rr 11%nat) HSK_SIG0_ZERO); [|done]. cbn [negb] in Hv.
  destruct (Z.eqb_spec (get_u8 (at_ rr 13)) HSK_SIG0_ALG); [|done]. cbn [negb] in Hv.
  destruct (Z.eqb_spec (get_u8 (at_ rr 14)) 0); [|done]. destruct (Z.eqb_spec (get_u32be_on host_endian (at_ rr 15)) 0); [|done]. cbn [negb orb] in Hv.
  destruct (Z.eqb_spec (get_u8 (at_ rr 29)) 0); [|done]. cbn [negb] in Hv.
  assert (Erec := rec_of_fields rr Hrr ltac:(done) ltac:(done) ltac:(done) ltac:(done) ltac:(done) ltac:(done) ltac:(done) ltac:(done) ltac:(done) ltac:(done)).
  set (ex := get_u32be_on host_endian (at_ rr 19)) in *. set (inc := get_u32be_on host_endian (at_ rr 23)) in *.
  set (tg := u16at rr 27%nat) in *. set (s := take 64 (at_ rr 30)) in *.
  destruct Hpre as [Hpb Hpl].
  assert (H32 : forall k, (k + 4 <= 94)%nat -> in32 (get_u32be_on host_endian (at_ rr k))).
  { intros k Hk. destruct Hrr as [Hrl Hrb]. unfold at_. rewrite get_u32be_host by (auto with hsk; rewrite length_drop; lia).
    assert (R := be_combine_range (take 4 (drop k rr)) ltac:(auto with hsk)). rewrite length_take, length_drop, Nat.min_l in R by lia. exact R. }
  assert (He : in32 ex) by (apply H32; lia). assert (Hi : in32 inc) by (apply H32; lia).
  assert (Ht : in16 tg).
  { destruct Hrr as [Hrl Hrb]. unfold tg, at_. rewrite get_u16be_host by (auto with hsk; rewrite length_drop; lia).
    assert (R := be_combine_range (take 2 (drop 27 rr)) ltac:(auto with hsk)). rewrite length_take, length_drop, Nat.min_l in R by lia. exact R. }
  assert (Hs : bytes_n 64 s).
  { destruct Hrr as [Hrl Hrb]. unfold s, at_. split; [rewrite length_take, length_drop; lia|auto with hsk]. }
  assert (Hc : u16at wire 10%nat = ar_count pre) by (rewrite Ew, Erec; by apply count_msg).
  rewrite Hc in Hcnt.
  destruct (Z.ltb_spec (u32 now) inc); [done|]. destruct (Z.ltb_spec ex (u32 now)); [done|].
  rewrite Ew, Erec, (sighash_msg pre ex inc tg s) in Hv by (done || lia).
  destruct (data_hash (sig0_data ex inc tg pre)) as (hash & Eh2 & _). rewrite Eh2 in Hv. cbn [obind] in Hv.
  exists pre, ex, inc, tg, s, hash. rewrite Ew, Erec. injection Hv as Hv. split_and!; (done || lia).
Qed.

(** * Properties *)

(** C19: What is signed is verified, and only that. For a message with less than 65535 additional records and a key that
    has a public key, [hsk_sig0_sign] replaces the signature that the message ends with, or adds one and counts it;
    it signs the BLAKE2b hash of the record's fields and the message. [hsk_sig0_verify] of the result is true when
    the curve accepts the signature for that hash, from six hours before the time of signing to six hours after it,
    and false at other times. Any bytes that are verified are a message with such a record, whose times hold the time
    of verification and whose signature the curve accepts for the hash of its fields and message; hashed
    bytes that are those of the signed message belong to no other message, times or tag. *)
Theorem sig0_roundtrip now key pubkey wire : is_Some (host_ec_create_pubkey key) -> bytes wire -> (12 <= length wire)%nat ->
  ar_count wire < 2 ^ 16 - 1 -> 21600 <= now < 2 ^ 32 - 21600 -> let e := now + 21600 in let i := now - 21600 in
  let head := take 10 wire ++ be_split 2 (signed_count wire) ++ drop 12 (unsigned wire) in exists hash s,
  hsk_sig0_sign true now key wire = Ret (head ++ sig0_rec e i 0 s) /\
  blake2b_assert 32 [sig0_data e i 0 head] = Ret hash /\ host_ec_sign_msg key hash = Some s /\
  (forall now', in32 now' -> hsk_sig0_verify now' pubkey (head ++ sig0_rec e i 0 s) =
    Ret (bool_decide (i <= now' <= e) && host_ec_verify_msg pubkey hash s)) /\
  (forall now' other, in32 now' -> bytes other -> hsk_sig0_verify now' pubkey other = Ret true -> exists pre e' i' t s' hash',
    other = pre ++ sig0_rec e' i' t s' /\ i' <= now' <= e' /\ blake2b_assert 32 [sig0_data e' i' t pre] = Ret hash' /\
    host_ec_verify_msg pubkey hash' s' = true /\
    (sig0_data e' i' t pre = sig0_data e i 0 head -> pre = head /\ e' = e /\ i' = i /\ t = 0)).
Proof.
  intros Hkey Hb Hl Hc Hn e i head. destruct (sign_spec now key wire Hkey Hb Hl Hc) as (hash & s & E & Eh & Es & Hs).
  destruct (signed_head_spec wire Hb Hl Hc) as (Hhb & Hhl & Hhc). destruct (unsigned_spec wire Hb Hl) as (_ & _ & Hul & _ & Hsc).
  rewrite (u32_small now), !u32_small in * by lia. change (signed_head wire) with head in *. fold e i in E, Eh.
  assert (He : in32 e) by lia. assert (Hi : in32 i) by lia.
  exists hash, s. do 3 (split; [done|]). split.
  - intros now' Hn'. rewrite (verify_msg head e i 0 s Hhb ltac:(lia) Hs ltac:(lia) He Hi ltac:(done) now' pubkey hash Eh). by rewrite u32_small.
  - intros now' other Hn' Hob Hv. destruct (sig0_verify_sound now' pubkey other Hob Hv) as (pre & e' & i' & t & s' & hash' & Eo & Hpb & Hpl & Hpc & He' & Hi' & Ht & Hw & Eh' & Hv').
    exists pre, e', i', t, s', hash'. rewrite u32_small in Hw by done. do 4 (split; [done|]). intros Ed.
    apply sig0_data_inj in Ed; (done || lia || idtac). by destruct Ed as (-> & -> & -> & ->).
Qed.
End Sig0Props.

#[local] Existing Instance sample_host.
#[local] Existing Instance sample_host_ok.
(** A message that is only a header is signed, and signed again later. *)
Lemma sig0_roundtrip_witness : exists out out2,
  hsk_sig0_sign true 1700000000 (replicate 32 1) (replicate 12 0) = Ret out /\
  hsk_sig0_sign true 1700050000 (replicate 32 1) out = Ret out2 /\ length out2 = length out /\
  hsk_sig0_verify 1700050001 (replicate 33 2) out = Ret false /\ hsk_sig0_verify 1700050001 (replicate 33 2) out2 = Ret true.
Proof.
  assert (Hk : is_Some (host_ec_create_pubkey (replicate 32 1))) by by eexists.
  assert (Hv : forall hash s, host_ec_sign_msg (replicate 32 1) hash = Some s -> host_ec_verify_msg (replicate 33 2) hash s = true).
  { intros hash s Es. apply (inj Some) in Es. subst s. by vm_compute. }
  destruct (sig0_roundtrip 1700000000 (replicate 32 1) (replicate 33 2) (replicate 12 0) Hk) as (hash & s & E & _ & Es & V & _);
    [by apply bytes_replicate|by cbn; lia|by vm_compute|lia|].
  set (out := _ ++ sig0_rec _ _ _ _) in *.
  assert (Eo : exists o, hsk_sig0_sign true 1700000000 (replicate 32 1) (replicate 12 0) = Ret o /\ bytes o /\ length o = 106%nat /\ ar_count o < 2 ^ 16 - 1).
  { eexists. split; [vm_compute; reflexivity|]. split; [|by vm_compute]. apply (bool_decide_unpack _). vm_compute. exact I. }
  destruct Eo as (o & Eo & Hob & Hol & Hoc). rewrite E in Eo. injection Eo as Eo.
  destruct (sig0_roundtrip 1700050000 (replicate 32 1) (replicate 33 2) o Hk Hob ltac:(lia) Hoc ltac:(lia)) as (hash2 & s2 & E2 & _ & Es2 & V2 & _).
  set (out2 := _ ++ sig0_rec _ _ _ _) in E2, V2.
  exists o, out2. rewrite E, Eo. split; [done|]. split; [done|]. rewrite <-Eo. split; [|split].
  - assert (Ec : hsk_sig0_sign true 1700050000 (replicate 32 1) o = Ret out2) by done. rewrite <-Eo in Ec.
    rewrite Eo, Hol. assert (Hlen : (let* x := (let* o := hsk_sig0_sign true 1700000000 (replicate 32 1) (replicate 12 0) in
      hsk_sig0_sign true 1700050000 (replicate 32 1) o) in Ret (length x)) = Ret 106%nat) by (vm_compute; reflexivity).
    rewrite E in Hlen. cbn [obind] in Hlen. rewrite Ec in Hlen. cbn [obind] in Hlen. congruence.
  - rewrite V by lia. by rewrite bool_decide_eq_false_2 by lia.
  - rewrite V2 by lia. rewrite bool_decide_eq_true_2 by lia. by rewrite (Hv _ _ Es2).
Defined.
