(* ===== verification/Req.v ===== *)
(** Queries: [req.c]. A datagram is read into a request, and the answer to it is finished:
    identifier, flags and question of the request, EDNS, the records of DNSSEC, the size
    that the client can take, the signature of the message. *)

From S2P Require Import Prelude Bio Blake2b Hash Addr Map MapProps Sha256 Hkdf DnsName DnsRecord DnsMsg Dnssec Host Sig0.

Definition HSK_DNS_QR : Z := Z.shiftl 1 15.
Definition HSK_DNS_RD : Z := Z.shiftl 1 8.
Definition HSK_DNS_RA : Z := Z.shiftl 1 7.
Definition HSK_DNS_AD : Z := Z.shiftl 1 5.
Definition HSK_DNS_CD : Z := Z.shiftl 1 4.
Definition HSK_DNS_DO : Z := Z.shiftl 1 15.

Record hsk_dns_req_t := mk_req {
  req_id : Z;
  req_labels : Z;
  req_name : list Z;
  req_type : Z;
  req_class : Z;
  req_rd : bool;
  req_cd : bool;
  req_ad : bool;
  req_edns : bool;
  req_max_size : Z;
  req_dnssec : bool;
  req_tld : list Z;
  req_addr : sockaddr;
}.

(** The address of a request before the sender is copied to it. *)
Definition sa_zero : sockaddr := mk_sockaddr 0 (replicate 2 0) (replicate 16 0).

Section Req.
Context `{Host}.

Definition flag_set (flags f : Z) : bool := negb (Z.land flags f =? 0).
(** What the client can take. *)
Definition client_size (e : edns_t) : Z :=
  if edns_enabled e && (HSK_DNS_MAX_UDP <=? edns_size e) then
    if HSK_DNS_MAX_EDNS <? edns_size e then HSK_DNS_MAX_EDNS else edns_size e
  else HSK_DNS_MAX_UDP.
Definition hsk_dns_req_create (data : list Z) (addr : sockaddr) : io (option hsk_dns_req_t) :=
  n ← ask;
  if negb (host_al n 0%nat 0%nat) then mret None
  else
    msg ← io_try (hsk_dns_msg_decode (host_al n 0%nat 1%nat) (fun s i k => host_al n (1 + s + 4 * i)%nat k) data);
    match msg with
    | None => mret None
    | Some msg =>
        if negb (msg_opcode msg =? HSK_DNS_QUERY) || negb (msg_code msg =? HSK_DNS_NOERROR) then mret None
        else
          match msg_qd msg, msg_an msg, msg_ns msg with
          | [qs], [], [] =>
              tld ← io_lift (hsk_dns_label_get (rr_name qs) (-1));
              if hsk_dns_name_dirty tld then mret None
              else
                mret (Some (mk_req (msg_id msg) (hsk_dns_label_count (rr_name qs)) (rr_name qs) (rr_type qs) (rr_class qs)
                  (flag_set (msg_flags msg) HSK_DNS_RD) (flag_set (msg_flags msg) HSK_DNS_CD)
                  (flag_set (msg_flags msg) HSK_DNS_AD) (edns_enabled (msg_edns msg)) (client_size (msg_edns msg))
                  (flag_set (edns_flags (msg_edns msg)) HSK_DNS_DO) (hsk_to_lower tld) (default sa_zero (hsk_sa_copy addr))))
          | _, _, _ => mret None
          end
    end.

(** The message with the identifier and flags of the request and a fresh [edns]. *)
Definition reply_flags (flags : Z) (req : hsk_dns_req_t) : Z :=
  let flags := Z.lor flags HSK_DNS_QR in
  let flags := if req_rd req then Z.lor flags HSK_DNS_RD else flags in
  if req_cd req then Z.lor flags HSK_DNS_CD else flags.
Definition reply_edns (req : hsk_dns_req_t) : edns_t :=
  if req_edns req then mk_edns true 0 (if req_dnssec req then HSK_DNS_DO else 0) HSK_DNS_MAX_EDNS 0 []
  else mk_edns false 0 0 HSK_DNS_MAX_UDP 0 [].
Definition reply_to (req : hsk_dns_req_t) (msg : hsk_dns_msg_t) (qs : hsk_dns_rr_t) : hsk_dns_msg_t :=
  mk_msg (req_id req) (msg_opcode msg) (msg_code msg) (reply_flags (msg_flags msg) req) [qs] (msg_an msg) (msg_ns msg)
    (msg_ar msg) (reply_edns req).
(** Whether the records of DNSSEC are removed. *)
Definition cleans (req : hsk_dns_req_t) (flags : Z) : bool :=
  negb (req_dnssec req) && (negb (flag_set flags HSK_DNS_RA) || negb (req_type req =? HSK_DNS_ANY)).
(** [key] is the key of the server, if it signs its messages. The result is the wire form;
    the message is released in any case. *)
Definition hsk_dns_msg_finalize (msg : hsk_dns_msg_t) (req : hsk_dns_req_t) (key : option (list Z)) :
    io (option (list Z)) :=
  n ← ask;
  if negb (host_al n 0%nat 0%nat) then mret None
  else
    r ← io_lift (hsk_dns_rr_set_name hsk_dns_qs_init (Some (req_name req)));
    let qs := mk_rr (rr_name (snd r)) (req_type req) (req_class req) (rr_ttl (snd r)) (rr_rd (snd r)) in
    let msg := reply_to req msg qs in
    let cleaned := if cleans req (msg_flags msg) then hsk_dns_msg_clean (host_al n 1%nat) (Some msg) (req_type req)
                   else (true, Some msg) in
    match cleaned with
    | (true, Some msg) =>
        data ← io_try (hsk_dns_msg_encode (host_al n 0%nat 1%nat) (host_mem n) msg);
        match data with
        | None => mret None
        | Some data =>
            let max := match key with Some _ => req_max_size req - HSK_SIG0_RR_SIZE | None => req_max_size req end in
            r ← io_try (hsk_dns_msg_truncate data max);
            match r, key with
            | None, _ => mret None
            | Some (data, len), None => mret (Some (take (Z.to_nat len) data))
            | Some (data, len), Some key =>
                now ← hsk_now;
                io_try (hsk_sig0_sign (host_al n 0%nat 2%nat) now key (take (Z.to_nat len) data))
            end
        end
    | _ => mret None
    end.
End Req.
