(* ===== verification/ReqProps.v ===== *)
(** The properties of requests: which datagrams are queries, and what the client gets for
    one. *)

From S2P Require Import Prelude Bio Blake2b Hash Addr Map MapProps DnsName DnsNameProps DnsLabels DnsRecord DnsCodec DnsMsg DnsMsgSpec DnsTruncate DnsMsgProps DnsSafe Sha256 Hkdf Dnssec DnssecProps Host HostProps Resource ResourceProps AnswerProps Sig0 Sig0Props Req.

(** * Queries *)

(** A message that asks one question and answers none. *)
Definition asks (msg : hsk_dns_msg_t) (qs : hsk_dns_rr_t) : Prop :=
  msg_opcode msg = HSK_DNS_QUERY /\ msg_code msg = HSK_DNS_NOERROR /\ msg_qd msg = [qs] /\ msg_an msg = [] /\ msg_ns msg = [].
(** The last label of a name, or nothing. *)
Definition tld_of (ls : list (list Z)) : list Z := default [] (last ls).
(** The size that the client can take. *)
Definition size_of (e : edns_t) : Z := if edns_enabled e then Z.max 512 (Z.min 4096 (edns_size e)) else 512.
(** [req] is the question of the datagram [data]. *)
Definition query_of (data : list Z) (addr : sockaddr) (req : hsk_dns_req_t) : Prop := exists msg qs ls,
  hsk_dns_msg_decode true all_ok3 data = Ret msg /\ asks msg qs /\ rr_name qs = text ls /\ name_ok ls /\
  hsk_dns_name_dirty (tld_of ls) = false /\
  req = mk_req (msg_id msg) (Z.of_nat (length ls)) (text ls) (rr_type qs) (rr_class qs) (Z.testbit (msg_flags msg) 8)
    (Z.testbit (msg_flags msg) 4) (Z.testbit (msg_flags msg) 5) (edns_enabled (msg_edns msg)) (size_of (msg_edns msg))
    (Z.testbit (edns_flags (msg_edns msg)) 15) (hsk_to_lower (tld_of ls)) (default sa_zero (hsk_sa_copy addr)).
(** What every request is. *)
Record req_ok (req : hsk_dns_req_t) (ls : list (list Z)) : Prop := {
  ro_id : in16 (req_id req);
  ro_name : req_name req = text ls;
  ro_labels : req_labels req = Z.of_nat (length ls);
  ro_ls : name_ok ls;
  ro_tld : req_tld req = hsk_to_lower (tld_of ls);
  ro_clean : hsk_dns_name_dirty (tld_of ls) = false;
  ro_type : in16 (req_type req);
  ro_class : in16 (req_class req);
  ro_size : 512 <= req_max_size req <= 4096;
}.

Lemma flag_set_bit flags k : 0 <= k -> flag_set flags (Z.shiftl 1 k) = Z.testbit flags k.
Proof.
  intros Hk. unfold flag_set. rewrite Z.shiftl_1_l. destruct (Z.testbit flags k) eqn:E.
  - apply negb_true_iff, Z.eqb_neq. intros H. apply (f_equal (fun x => Z.testbit x k)) in H.
    by rewrite Z.land_spec, Z.pow2_bits_true, Z.bits_0, E in H.
  - apply negb_false_iff, Z.eqb_eq, Z.bits_inj'. intros n Hn. rewrite Z.land_spec, Z.bits_0, Z.pow2_bits_eqb by done.
    destruct (Z.eqb_spec k n) as [->|]; [by rewrite E|by rewrite andb_false_r].
Qed.
Lemma client_size_eq e : client_size e = size_of e.
Proof.
  unfold client_size, size_of, HSK_DNS_MAX_UDP, HSK_DNS_MAX_EDNS. destruct (edns_enabled e); [|done]. cbn [andb].
  destruct (Z.leb_spec 512 (edns_size e)), (Z.ltb_spec 4096 (edns_size e)); lia.
Qed.
Lemma tld_get ls : name_ok ls -> hsk_dns_label_get (text ls) (-1) = Ret (tld_of ls).
Proof.
  intros Hok. unfold tld_of. destruct (last ls) as [l|] eqn:E; [by apply label_last|].
  apply last_None in E as ->. reflexivity.
Qed.
Lemma query_of_ok data addr req : bytes data -> query_of data addr req -> exists ls, req_ok req ls.
Proof.
  intros Hd (msg & qs & ls & E & (_ & _ & Hq & _) & Hn & Hok & Hc & ->). exists ls.
  assert (Ht := msg_decode_safe true all_ok3 data Hd). rewrite E in Ht. destruct Ht as (Hid & _ & _ & _ & [Hqs _] & _).
  rewrite Hq in Hqs. apply Forall_cons_1 in Hqs as [(_ & Ht & Hcl & _) _].
  split; cbn [req_id req_name req_labels req_tld req_type req_class req_max_size]; try done.
  unfold size_of. destruct (edns_enabled _); lia.
Qed.

Lemma query_of_inj data addr req req' : query_of data addr req -> query_of data addr req' -> req = req'.
Proof.
  intros (msg & qs & ls & E & (_ & _ & Hq & _) & Hn & Hok & _ & ->) (msg' & qs' & ls' & E' & (_ & _ & Hq' & _) & Hn' & Hok' & _ & ->).
  rewrite E in E'. injection E' as <-. rewrite Hq in Hq'. injection Hq' as <-. rewrite Hn in Hn'.
  by apply text_inj in Hn' as <-; [|apply Hok|apply Hok'].
Qed.

Section Create.
Context `{HostOk}.
Lemma runs_req_create data addr (Q : option hsk_dns_req_t -> Prop) : bytes data ->
  (forall req, query_of data addr req -> Q (Some req)) -> ((forall req, ~ query_of data addr req) -> Q None) ->
  runs (hsk_dns_req_create data addr) Q.
Proof.
  intros Hd HQ HN. unfold hsk_dns_req_create. eapply runs_bind; [by apply (runs_ask (fun _ => True))|]. intros n _.
  rewrite ok_al. cbn [negb]. change (fun _ _ k => true) with all_ok3. change (fun s i k => true) with all_ok3.
  assert (Ht := msg_decode_safe true all_ok3 data Hd).
  apply (runs_bind _ _ (fun o => match o with Some msg => hsk_dns_msg_decode true all_ok3 data = Ret msg /\ msg_type msg
    | None => hsk_dns_msg_decode true all_ok3 data = Fail end)).
  { apply runs_try. destruct (hsk_dns_msg_decode true all_ok3 data); [done|done|done]. }
  intros [msg|] Em.
  2: { apply runs_ret, HN. intros req (m & _ & _ & E & _). by rewrite Em in E. }
  destruct Em as [Em Hm].
  assert (HN' : ~ (exists qs, asks msg qs /\ exists ls, rr_name qs = text ls /\ name_ok ls /\ hsk_dns_name_dirty (tld_of ls) = false) -> Q None).
  { intros Hno. apply HN. intros req (m & qs & ls & E & Ha & ? & ? & ? & _). rewrite Em in E. injection E as <-. apply Hno.
    exists qs. split; [done|]. by exists ls. }
  destruct (negb (msg_opcode msg =? HSK_DNS_QUERY) || negb (msg_code msg =? HSK_DNS_NOERROR)) eqn:Ec.
  { apply runs_ret, HN'. intros (qs & (H1 & H2 & _) & _). rewrite H1, H2 in Ec. done. }
  apply orb_false_iff in Ec as [E1%negb_false_iff%Z.eqb_eq E2%negb_false_iff%Z.eqb_eq].
  destruct (msg_qd msg) as [|qs [|q2 qr]] eqn:Eq; [apply runs_ret, HN'; intros (q & (_ & _ & Hq & _) & _); congruence| |
    apply runs_ret, HN'; intros (q & (_ & _ & Hq & _) & _); congruence].
  destruct (msg_an msg) eqn:Ea; [|apply runs_ret, HN'; intros (q & (_ & _ & _ & Hq & _) & _); congruence].
  destruct (msg_ns msg) eqn:En; [|apply runs_ret, HN'; intros (q & (_ & _ & _ & _ & Hq) & _); congruence].
  destruct Hm as (_ & _ & _ & _ & [Hqs _] & _). rewrite Eq in Hqs. apply Forall_cons_1 in Hqs as [((ls & Hn & Hok & _) & _) _].
  rewrite Hn. eapply returns_bind; [apply returns_lift; by apply tld_get|].
  destruct (hsk_dns_name_dirty (tld_of ls)) eqn:Ed; apply runs_ret.
  - apply HN'. intros (q & (_ & _ & Hq & _) & ls' & Hn' & Hok' & Hd'). rewrite Eq in Hq. injection Hq as <-. rewrite Hn in Hn'.
    apply text_inj in Hn' as ->; [congruence|by apply Hok|by apply Hok'].
  - apply HQ. exists msg, qs, ls. do 5 (split; [by split_and?|]). rewrite count_text, client_size_eq by done.
    unfold HSK_DNS_RD, HSK_DNS_CD, HSK_DNS_AD, HSK_DNS_DO. by rewrite !flag_set_bit by lia.
Qed.
End Create.

(** * Answers *)

(** The message that is encoded: the question of the request, fresh EDNS, and no records of
    DNSSEC for a client that did not ask for them. *)
Definition question_for (req : hsk_dns_req_t) : hsk_dns_rr_t := mk_rr (owner_of (req_name req)) (req_type req) (req_class req) 0 None.
Definition kept (type : Z) (rr : hsk_dns_rr_t) : Prop := dnssec_type (rr_type rr) && negb (type =? rr_type rr) = false.
#[export] Instance kept_dec type rr : Decision (kept type rr).
Proof. unfold kept. apply _. Defined.
Definition reply_of (req : hsk_dns_req_t) (msg : hsk_dns_msg_t) : hsk_dns_msg_t :=
  let m := reply_to req msg (question_for req) in
  if cleans req (msg_flags m) then
    with_ar (with_ns (with_an m (filter (kept (req_type req)) (msg_an m))) (filter (kept (req_type req)) (msg_ns m)))
      (filter (kept (req_type req)) (msg_ar m))
  else m.
(** The size of the message without its signature. *)
Definition room (req : hsk_dns_req_t) (key : option (list Z)) : Z :=
  match key with Some _ => req_max_size req - HSK_SIG0_RR_SIZE | None => req_max_size req end.

Lemma clean_reply m type : hsk_dns_msg_clean all_ok (Some m) type =
  (true, Some (with_ar (with_ns (with_an m (filter (kept type) (msg_an m))) (filter (kept type) (msg_ns m))) (filter (kept type) (msg_ar m)))).
Proof. reflexivity. Qed.
Lemma rrs_ok_filter l type : rrs_ok l -> rrs_ok (filter (kept type) l).
Proof.
  intros Hl. apply Forall_forall. intros rr [_ Hrr]%list_elem_of_filter. by eapply Forall_forall in Hl.
Qed.
Lemma reply_ok req ls msg : req_ok req ls -> msg_ok msg -> msg_ok (reply_of req msg).
Proof.
  intros Hr (_ & Ha & Hn & Hx & _ & Hl).
  assert (Hq : name_wf false (owner_of (req_name req))).
  { apply owner_wf. rewrite (ro_name _ _ Hr). exists ls. split_and!; [done|apply Hr|done]. }
  assert (He : bytes (edns_rd (reply_edns req))) by (unfold reply_edns; destruct (req_edns req); constructor).
  unfold reply_of. destruct (cleans _ _); split_and!; try done; try by apply Forall_singleton.
  all: try by apply rrs_ok_filter. cbn. etrans; [apply length_filter|done].
Qed.
Lemma reply_head req msg : msg_id (reply_of req msg) = req_id req /\ msg_opcode (reply_of req msg) = msg_opcode msg /\
  msg_code (reply_of req msg) = msg_code msg /\ msg_flags (reply_of req msg) = reply_flags (msg_flags msg) req /\
  msg_qd (reply_of req msg) = [question_for req].
Proof. unfold reply_of. by destruct (cleans _ _). Qed.
Lemma reply_bits req msg k : k = 15 \/ (k = 8 /\ req_rd req = true) \/ (k = 4 /\ req_cd req = true) ->
  Z.testbit (wire_flags (reply_of req msg)) k = true.
Proof.
  intros Hk. destruct (reply_head req msg) as (_ & _ & _ & Hf & _).
  assert (Hb : Z.testbit (reply_flags (msg_flags msg) req) k = true).
  { unfold reply_flags. destruct (req_rd req) eqn:E1, (req_cd req) eqn:E2; rewrite !Z.lor_spec;
      destruct Hk as [->|[[-> ?]|[-> ?]]]; try done; by rewrite ?orb_true_r. }
  unfold wire_flags. rewrite Hf, !Z.lor_spec, !Z.land_spec, Hb.
  by destruct Hk as [->|[[-> _]|[-> _]]].
Qed.

Lemma msg_ok_init : msg_ok hsk_dns_msg_init.
Proof. split_and!; try apply Forall_nil_2. apply Nat.le_0_l. Qed.

(** What becomes of a message. *)
Definition finished `{Host} (key : option (list Z)) (req : hsk_dns_req_t) (msg : hsk_dns_msg_t) (wire : list Z) : Prop :=
  exists mem bs out len, hsk_dns_msg_encode true mem (reply_of req msg) = Ret bs /\
    hsk_dns_msg_truncate bs (room req key) = Ret (out, len) /\
    match key with
    | None => wire = take (Z.to_nat len) out
    | Some key => exists hash s now, let e := u32 (u32 now + 21600) in let i := u32 (u32 now - 21600) in
        let head := signed_head (take (Z.to_nat len) out) in wire = head ++ sig0_rec e i 0 s /\
        blake2b_assert 32 [sig0_data e i 0 head] = Ret hash /\ host_ec_sign_msg key hash = Some s /\ bytes_n 64 s
    end.

Section Finalize.
Context `{HostOk}.
Lemma encode_head req ls msg mem bs : req_ok req ls -> msg_ok msg -> hsk_dns_msg_encode true mem (reply_of req msg) = Ret bs ->
  bytes bs /\ (12 <= length bs)%nat /\ take 4 bs = be_split 2 (req_id req) ++ be_split 2 (wire_flags (reply_of req msg)) /\ ar_count bs <= 256.
Proof.
  intros Hr Hm E. assert (Hro := reply_ok req ls msg Hr Hm). destruct (encode_ok mem _ Hro) as (body & E' & Hb).
  assert (Eb : bs = header_bytes_of (reply_of req msg) ++ body) by (rewrite E in E'; congruence).
  rewrite Eb. split; [done|]. split; [rewrite length_app, length_header_of; lia|].
  destruct (reply_head req msg) as (Hid & _). split; [unfold header_bytes_of; by rewrite Hid|].
  unfold ar_count, header_bytes_of. rewrite <-!(assoc_L (++)).
  do 4 rewrite (assoc_L (++)). rewrite drop_app_length' by done. rewrite take_app_length' by done. rewrite be_combine_split.
  destruct Hro as (_ & _ & _ & _ & _ & Hl). change (256 ^ Z.of_nat 2) with (2 ^ 16). rewrite u16_small; destruct (edns_enabled _); cbn [Z.b2z]; dlia.
Qed.
(** A message whose encoding fits is finished. *)
Lemma runs_finalize msg req ls key (Q : option (list Z) -> Prop) : msg_ok msg -> req_ok req ls -> signer_ok key ->
  (forall wire, finished key req msg wire -> Q (Some wire)) ->
  (forall mem bs, hsk_dns_msg_encode true mem (reply_of req msg) = Ret bs -> hsk_dns_msg_truncate bs (room req key) = Fail ->
    room req key < Z.of_nat (length bs) -> Q None) ->
  runs (hsk_dns_msg_finalize msg req key) Q.
Proof.
  intros Hm Hr Hkey HQ HN. unfold hsk_dns_msg_finalize. eapply runs_bind; [by apply (runs_ask (fun _ => True))|]. intros n _.
  rewrite ok_al. cbn [negb].
  assert (Hnw : name_wf false (req_name req)) by (rewrite (ro_name _ _ Hr); exists ls; split_and!; [done|apply Hr|done]).
  eapply returns_bind; [apply returns_lift; by apply set_name_eq|]. cbn [snd].
  assert (Eq : mk_rr (rr_name (if hsk_dns_name_dirty (req_name req) then hsk_dns_qs_init else
      mk_rr (req_name req) (rr_type hsk_dns_qs_init) (rr_class hsk_dns_qs_init) (rr_ttl hsk_dns_qs_init) (rr_rd hsk_dns_qs_init)))
      (req_type req) (req_class req)
      (rr_ttl (if hsk_dns_name_dirty (req_name req) then hsk_dns_qs_init else
        mk_rr (req_name req) (rr_type hsk_dns_qs_init) (rr_class hsk_dns_qs_init) (rr_ttl hsk_dns_qs_init) (rr_rd hsk_dns_qs_init)))
      (rr_rd (if hsk_dns_name_dirty (req_name req) then hsk_dns_qs_init else
        mk_rr (req_name req) (rr_type hsk_dns_qs_init) (rr_class hsk_dns_qs_init) (rr_ttl hsk_dns_qs_init) (rr_rd hsk_dns_qs_init))) =
      question_for req).
  { unfold question_for, owner_of. by destruct (hsk_dns_name_dirty (req_name req)). }
  rewrite Eq. change (fun _ : nat => true) with all_ok. rewrite clean_reply.
  match goal with |- runs (match ?c with _ => _ end) _ => replace c with (true, Some (reply_of req msg)) by (unfold reply_of; by destruct (cleans _ _)) end.
  cbv iota. destruct (encode_ok (host_mem n) _ (reply_ok req ls msg Hr Hm)) as (body & E & _).
  eapply (runs_bind _ _ (fun o => o = Some (header_bytes_of (reply_of req msg) ++ body))); [apply runs_try; by rewrite E|]. intros ? ->.
  set (bs := header_bytes_of (reply_of req msg) ++ body) in *.
  fold (room req key).
  destruct (encode_head req ls msg _ bs Hr Hm E) as (Hb & Hl & Ht & Hc).
  assert (Hroom : 418 <= room req key) by (unfold room; destruct (ro_size _ _ Hr), key; unfold HSK_SIG0_RR_SIZE; lia).
  assert (Hs := truncate_safe bs (room req key) Hb).
  apply (runs_bind _ _ (fun o => match o with Some (out, len) => hsk_dns_msg_truncate bs (room req key) = Ret (out, len)
    | None => hsk_dns_msg_truncate bs (room req key) = Fail /\ room req key < Z.of_nat (length bs) end)).
  { apply runs_try. destruct (hsk_dns_msg_truncate bs (room req key)) as [[out len]| |] eqn:Et; [done| |done]. split; [done|].
    unfold hsk_dns_msg_truncate in Et. destruct (Z.ltb_spec (Z.of_nat (length bs)) 12); [lia|].
    destruct (Z.ltb_spec (room req key) 12); [lia|]. by destruct (Z.leb_spec (Z.of_nat (length bs)) (room req key)). }
  intros [[out len]|] Et; [|apply runs_ret; destruct Et; by eapply HN]. rewrite Et in Hs. cbv zeta in Hs. destruct Hs as (Hob & Hol & _ & Hoc).
  destruct key as [key|]; [|apply runs_ret, HQ; by exists (host_mem n), bs, out, len].
  apply (runs_bind _ _ (fun _ => True)); [by apply runs_now|]. intros now _. apply runs_try.
  destruct (sign_spec now key (take (Z.to_nat len) out)) as (hash & s & Es & Eh & Ek & Hsb); [exact Hkey|done|lia|lia|].
  rewrite Es. apply HQ. exists (host_mem n), bs, out, len. split; [done|]. split; [done|]. by exists hash, s, now.
Qed.
Lemma finished_bounds key req ls msg wire : req_ok req ls -> msg_ok msg -> finished key req msg wire ->
  bytes wire /\ 12 <= Z.of_nat (length wire) <= req_max_size req /\
  take 4 wire = be_split 2 (req_id req) ++ be_split 2 (wire_flags (reply_of req msg)).
Proof.
  intros Hr Hm (mem & bs & out & len & E & Et & Hw). destruct (encode_head req ls msg mem bs Hr Hm E) as (Hb & Hl & Ht & Hc).
  assert (Hs := truncate_safe bs (room req key) Hb). rewrite Et in Hs. cbv zeta in Hs. destruct Hs as (Hob & Hol & H4 & Hoc).
  rewrite Ht in H4. unfold room, HSK_SIG0_RR_SIZE in Hol. destruct key as [key|]; [|subst wire; by split; [|split]].
  destruct Hw as (hash & s & now & -> & _ & _ & [Hsl Hsb]). set (plain := take (Z.to_nat len) out) in *.
  assert (Hu : bytes (unsigned plain) /\ (length (unsigned plain) <= length plain)%nat).
  { unfold unsigned. destruct (hsk_sig0_has_sig plain); [|done]. split; [by apply bytes_take|]. rewrite length_take. lia. }
  destruct Hu as [Hub Hul].
  assert (Hh : bytes (signed_head plain) /\ (12 <= length (signed_head plain) <= length plain)%nat).
  { unfold signed_head. rewrite !bytes_app, !length_app, length_take, length_be_split, length_drop.
    split; [split_and!; auto using bytes_be_split with hsk|]. lia. }
  destruct Hh as [Hhb Hhl]. split; [apply bytes_app; split; [done|by apply bytes_sig0]|].
  rewrite length_app, length_sig0 by done. split; [lia|].
  rewrite take_app_le by lia. unfold signed_head. rewrite take_app_le by (rewrite length_take; lia).
  rewrite take_take. by rewrite Nat.min_l by lia.
Qed.
End Finalize.

(** ** Messages that can be read back *)

Lemma encode_decode mem msg bs : msg_wf msg -> hsk_dns_msg_encode true mem msg = Ret bs ->
  hsk_dns_msg_decode true all_ok3 bs = Ret (with_flags msg (wire_flags msg)).
Proof.
  intros Hw E. destruct (msg_encode_spec mem msg Hw) as (size & bs' & c & Es & Ew & Hl & _ & Hr).
  assert (bs' = bs) as -> by (apply (encode_eq mem) in Ew; congruence).
  unfold hsk_dns_msg_decode. specialize (Hr []). rewrite app_nil_r in Hr. by rewrite Hr.
Qed.
Lemma encode_size mem msg bs size : msg_wf msg -> hsk_dns_msg_encode true mem msg = Ret bs -> hsk_dns_msg_size msg = Ret size ->
  Z.of_nat (length bs) <= size.
Proof.
  intros Hw E Es. destruct (msg_encode_spec mem msg Hw) as (size' & bs' & c & Es' & Ew & Hl & _).
  apply (encode_eq mem) in Ew; [|done]. assert (size' = size) by congruence. assert (bs' = bs) by congruence. by subst.
Qed.
Lemma section_filter P l type : section P l -> section P (filter (kept type) l).
Proof.
  intros [Hl Hn]. split; [|assert (Hf := length_filter (kept type) l); lia].
  apply Forall_forall. intros rr [_ Hrr]%list_elem_of_filter. by eapply Forall_forall in Hl.
Qed.
Lemma reply_wf req ls msg : req_ok req ls -> (length ls <= 10)%nat -> msg_wf msg -> 0 <= msg_code msg <= 15 -> msg_wf (reply_of req msg).
Proof.
  intros Hr Hls (_ & Ho & Hf & _ & Ha & Hn & Hx & _) Hc.
  assert (Hq : section (qs_wf true) [question_for req]).
  { split; [|cbn; lia]. apply Forall_singleton. split; [|split_and!; try done; apply Hr].
    unfold question_for, owner_of. cbn [rr_name]. destruct (hsk_dns_name_dirty _); [|rewrite (ro_name _ _ Hr)].
    - exists []. split; [done|]. split; [by split; [constructor|]|cbn; lia].
    - exists ls. split; [done|]. split; [apply Hr|done]. }
  assert (Hfl : in16 (reply_flags (msg_flags msg) req)).
  { assert (Hl : forall a, in16 a -> forall b, in16 b -> in16 (Z.lor a b)) by (intros a Ha' b Hb'; by apply (lor_small 16)).
    unfold reply_flags. destruct (req_rd req), (req_cd req); repeat apply Hl; done. }
  assert (He : edns_wf (reply_to req msg (question_for req))).
  { unfold edns_wf, reply_to, reply_edns. cbn [msg_edns msg_code]. destruct (req_edns req); cbn [edns_enabled edns_version edns_flags edns_size edns_code edns_rd].
    - split; [done|]. split; [by destruct (req_dnssec req)|]. do 2 (split; [done|]). split; [by split; [constructor|]|].
      rewrite Z.shiftl_0_l, Z.lor_0_r. change 15 with (2 ^ 4 - 1). rewrite land_ones_mod by lia. symmetry. by apply Z.mod_small; lia.
    - by split. }
  unfold reply_of. assert (Hid := ro_id _ _ Hr). destruct (cleans _ _).
  - do 4 (split; [done|]). split; [by apply section_filter|]. split; [by apply section_filter|]. split; [by apply section_filter|exact He].
  - do 6 (split; [done|]). by split.
Qed.
(** Names of at most ten labels are names. *)
Lemma name_wf_weaken n : name_wf true n -> name_wf false n.
Proof. intros (ls & ? & ? & _). by exists ls. Qed.
Lemma rr_wf_weaken rr : rr_wf true rr -> rr_wf false rr.
Proof.
  intros (Hn & Ht & Hc & Hl & rd & s & Hrd & Hk & Hw & Hs). split; [by apply name_wf_weaken|]. do 3 (split; [done|]).
  exists rd, s. split; [done|]. split; [done|]. split; [|done].
  destruct rd; cbn in *; destruct_and?; split_and?; try done; by apply name_wf_weaken.
Qed.
Lemma msg_wf_ok msg : msg_wf msg -> msg_ok msg.
Proof.
  intros (_ & _ & _ & [Hq _] & [Ha _] & [Hn _] & [Hx Hl] & He).
  assert (Hw : forall rr, rr_wf true rr -> rr_type_ok rr) by (intros rr Hrr; by apply rr_wf_type_ok, rr_wf_weaken).
  split; [eapply Forall_impl; [exact Hq|]; intros qs [? _]; by apply name_wf_weaken|].
  do 2 (split; [by eapply Forall_impl|]). split; [eapply Forall_impl; [exact Hx|]; intros rr [? _]; by apply Hw|].
  split; [|lia]. unfold edns_wf in He. destruct (edns_enabled _); [apply He|]. destruct He as [-> _]. constructor.
Qed.
Lemma truncate_short bs max : (12 <= length bs)%nat -> 12 <= max -> Z.of_nat (length bs) <= max ->
  hsk_dns_msg_truncate bs max = Ret (bs, Z.of_nat (length bs)).
Proof.
  intros H1 H2 H3. unfold hsk_dns_msg_truncate. destruct (Z.ltb_spec (Z.of_nat (length bs)) 12); [lia|].
  destruct (Z.ltb_spec max 12); [lia|]. by destruct (Z.leb_spec (Z.of_nat (length bs)) max); [|lia].
Qed.
(** The identifier and the flags, as they are read. *)
Lemma head_bits req ls msg wire : req_ok req ls -> 0 <= msg_opcode msg < 16 -> 0 <= msg_flags msg ->
  take 4 wire = be_split 2 (req_id req) ++ be_split 2 (wire_flags (reply_of req msg)) ->
  let flags := be_combine (take 2 (drop 2 wire)) in
  be_combine (take 2 wire) = req_id req /\
  Z.testbit flags 15 = true /\ Z.land (Z.shiftr flags 11) 15 = msg_opcode msg /\ Z.land flags 15 = Z.land (msg_code msg) 15 /\
  (req_rd req = true -> Z.testbit flags 8 = true) /\ (req_cd req = true -> Z.testbit flags 4 = true).
Proof.
  intros Hr Ho Hf H4 flags. destruct (reply_head req msg) as (_ & Eo & Ec & Ef & _).
  assert (E2 : take 2 wire = be_split 2 (req_id req)).
  { apply (f_equal (take 2)) in H4. by rewrite take_take, take_app_length' in H4. }
  assert (Efl : flags = wire_flags (reply_of req msg)).
  { apply (f_equal (drop 2)) in H4. rewrite drop_app_length' in H4 by done. change 4%nat with (2 + 2)%nat in H4.
    rewrite <-take_drop_commute in H4. unfold flags. rewrite H4, be_combine_split. apply Z.mod_small.
    apply wire_flags_range. rewrite Ef. unfold reply_flags. destruct (req_rd req), (req_cd req); repeat (apply Z.lor_nonneg; split); done. }
  rewrite Efl, E2, be_combine_split. split; [apply Z.mod_small, Hr|].
  split; [apply reply_bits; auto|]. split; [by rewrite wire_flags_opcode; rewrite Eo|]. split; [by rewrite wire_flags_low, Ec|].
  split; intros; apply reply_bits; auto.
Qed.

(** ** A signed message is read back *)

(** The record of a signature, as it is read. *)
Definition sig_record (e i t : Z) (s : list Z) : hsk_dns_rr_t :=
  mk_rr [dot] HSK_SIG0_TYPE HSK_SIG0_CLASS 0 (Some (RUnknown (sig0_rdata e i t ++ s))).
Lemma sig_record_read dmp e i t s rest : bytes_n 64 s ->
  hsk_dns_rr_read dmp all_ok hsk_dns_rr_init (sig0_rec e i t s ++ rest) = Ret (sig_record e i t s, rest).
Proof.
  intros [Hl Hb]. set (rd := sig0_rdata e i t ++ s). assert (Hrd : length rd = 83%nat) by (unfold rd; rewrite length_app, length_rdata; lia).
  assert (E : sig0_rec e i t s ++ rest = 0 :: be_split 2 24 ++ be_split 2 255 ++ be_split 4 0 ++ be_split 2 83 ++ rd ++ rest).
  { unfold sig0_rec. fold rd. by rewrite <-!(assoc_L (++)). }
  rewrite E. unfold hsk_dns_rr_read, rbind.
  assert (En : forall d, hsk_dns_name_read dmp (0 :: d) = Ret ([dot], d)) by done.
  rewrite En, !parses_u16be, parses_u32be by done. rewrite parses_u16be by done. unfold has_bytes. rewrite length_app, Hrd.
  destruct (Z.ltb_spec (Z.of_nat (83 + length rest)) 83); [lia|].
  change (hsk_dns_rd_alloc true 24) with (Some (RUnknown [])). unfold sub_read. change (Z.to_nat 83) with 83%nat. cbv beta iota.
  rewrite take_app_length', drop_app_length' by done. unfold hsk_dns_rd_read. change (kind_of_type 24) with KUnknown. cbv iota.
  unfold rbind. by rewrite alloc_rest_spec.
Qed.
Lemma sections_read_more dmp id fl qd an ns ar m d : 0 <= ar ->
  sections_read dmp all_ok3 (id, fl, qd, an, ns, ar + 1) m d =
  (m' <- sections_read dmp all_ok3 (id, fl, qd, an, ns, ar) m ;; items_loop (read_additional dmp all_ok3) 1 (Z.to_nat ar) m') d.
Proof.
  intros Ha. unfold sections_read, rbind.
  do 3 (match goal with |- context [items_loop ?f ?n ?i ?m ?d] => destruct (items_loop f n i m d) as [[? ?]| |]; try done end).
  rewrite Z2Nat.inj_add by done. change (Z.to_nat 1) with 1%nat. by rewrite items_loop_app.
Qed.
(** What follows the header of an encoded message can be read after another one of the same length. *)
Lemma encode_parts mem msg bs : msg_wf msg -> hsk_dns_msg_encode true mem msg = Ret bs -> exists body,
  bs = header_bytes msg ++ body /\ forall hdr rest, length hdr = 12%nat ->
  sections_read (Some (hdr ++ body ++ rest)) all_ok3 (header_of msg) (opened (header_of msg) hsk_dns_msg_init) (body ++ rest) =
    Ret (with_flags msg (wire_flags msg), rest).
Proof.
  intros Hw E. destruct (dcodec_sections mem msg Hw) as (size & Hs & Hc).
  destruct (Hc (replicate 12 0) (Some ∅)) as (body & c & Hb & Hl & _ & Hn & Hr); [done|apply map_Forall_empty|].
  exists body. split.
  - destruct (Hr (header_bytes msg)) as (Ew & _); [by rewrite length_header|apply map_Forall_empty|].
    assert (E' : hsk_dns_msg_encode true mem msg = Ret (header_bytes msg ++ body)); [|congruence].
    apply (encode_eq mem msg _ c Hw). unfold hsk_dns_msg_write. change (dseqs _ ;+ _) with (sections_write mem msg).
    unfold dseq at 1. rewrite write_header_bytes by done. cbn [obind]. rewrite Ew. cbn [obind].
    rewrite length_app, length_header. do 2 f_equal. lia.
  - intros hdr rest Hh. destruct (Hr hdr) as (_ & _ & Hread); [done|apply map_Forall_empty|]. apply Hread; [|done].
    destruct c as [c|]; [|by destruct Hn as [Hn _]; specialize (Hn eq_refl)]. exists rest. by rewrite (assoc_L (++)).
Qed.
Lemma signed_header `{Host} msg body : msg_wf msg -> hsk_sig0_has_sig (header_bytes msg ++ body) = false -> exists hdr,
  signed_head (header_bytes msg ++ body) = hdr ++ body /\ length hdr = 12%nat /\
  forall rest, header_read (hdr ++ rest) = Ret (msg_id msg, wire_flags msg, Z.of_nat (length (msg_qd msg)), Z.of_nat (length (msg_an msg)),
    Z.of_nat (length (msg_ns msg)), DnsMsgSpec.ar_count msg + 1, rest).
Proof.
  intros Hw Hno. assert (Har := DnsTruncate.ar_count_range msg Hw). assert (Hw' := Hw). destruct Hw' as (Hid & _ & Hf & [_ Hq] & [_ Ha] & [_ Hn] & _).
  assert (Hfl := wire_flags_range msg ltac:(lia)).
  set (h10 := be_split 2 (msg_id msg) ++ be_split 2 (wire_flags msg) ++ be_split 2 (Z.of_nat (length (msg_qd msg))) ++
    be_split 2 (Z.of_nat (length (msg_an msg))) ++ be_split 2 (Z.of_nat (length (msg_ns msg)))).
  assert (Eh : header_bytes msg = h10 ++ be_split 2 (DnsMsgSpec.ar_count msg)).
  { unfold header_bytes, h10. cbn [List.map concat]. by rewrite app_nil_r, <-!(assoc_L (++)). }
  assert (Hl10 : length h10 = 10%nat) by (unfold h10; rewrite !length_app, !length_be_split; done).
  exists (h10 ++ be_split 2 (DnsMsgSpec.ar_count msg + 1)). split; [|split; [by rewrite length_app, Hl10, length_be_split|]].
  - unfold signed_head, signed_count, unsigned, DnsSafe.ar_count. rewrite Hno, Eh, <-!(assoc_L (++)).
    rewrite take_app_length', drop_app_length' by done. rewrite take_app_length' by (by rewrite length_be_split).
    rewrite be_combine_split, Z.mod_small by (change (256 ^ Z.of_nat 2) with 65536; lia). do 2 f_equal.
  - intros rest. unfold h10, header_read, rbind. rewrite <-!(assoc_L (++)). repeat (rewrite parses_u16be by lia). done.
Qed.
Lemma signed_decode `{Host} mem msg bs e i s : msg_wf msg -> hsk_dns_msg_encode true mem msg = Ret bs -> hsk_sig0_has_sig bs = false ->
  Z.of_nat (length (msg_ar msg)) < 255 -> bytes_n 64 s ->
  hsk_dns_msg_decode true all_ok3 (signed_head bs ++ sig0_rec e i 0 s) =
    Ret (with_ar (with_flags msg (wire_flags msg)) (msg_ar msg ++ [sig_record e i 0 s])).
Proof.
  intros Hw E Hno Har Hs. destruct (encode_parts mem msg bs Hw E) as (body & -> & Hread).
  destruct (signed_header msg body Hw Hno) as (hdr & -> & Hl & Hhdr). rewrite <-(assoc_L (++)).
  unfold hsk_dns_msg_decode. rewrite msg_read_eq. unfold rbind at 1. rewrite Hhdr.
  change (opened (_, _, _, _, _, DnsMsgSpec.ar_count msg + 1) hsk_dns_msg_init) with (opened (header_of msg) hsk_dns_msg_init).
  rewrite sections_read_more by (by apply DnsTruncate.ar_count_range). unfold rbind. unfold header_of in Hread. rewrite Hread by done.
  assert (Hread1 : forall dmp m, items_loop (read_additional dmp all_ok3) 1 (Z.to_nat (DnsMsgSpec.ar_count msg)) m (sig0_rec e i 0 s ++ []) =
    Ret (with_ar m (push_item (msg_ar m) (sig_record e i 0 s)), [])).
  { intros dmp m. cbn [items_loop]. change (sig0_rec e i 0 s ++ []) with (0 :: tail (sig0_rec e i 0 s) ++ []). cbv iota.
    change (0 :: tail (sig0_rec e i 0 s) ++ []) with (sig0_rec e i 0 s ++ []).
    unfold read_additional, read_record, rbind. by rewrite sig_record_read. }
  rewrite app_nil_r in Hread1. rewrite Hread1. cbn [obind]. by rewrite push_item_small.
Qed.

(** * Properties *)

Section Properties.
Context `{HostOk}.

(** C15: What is a query. With memory, [hsk_dns_req_create] returns for any bytes, and accepts
    exactly the messages with the opcode and code 0, one question, no answers and no authority,
    whose last label is printable; the request is that question: the labels of its name are counted,
    the last one in lower case, the flags RD, CD, AD and DO taken
    from their bits, and the size that the client announced held between 512 and 4096. *)
Theorem req_create_correct data addr w : bytes data -> world_ok w -> exists r w',
  hsk_dns_req_create data addr w = Ret (r, w') /\ world_ok w' /\
  (forall req, r = Some req <-> query_of data addr req) /\ (forall req, r = Some req -> exists ls, req_ok req ls).
Proof.
  intros Hd Hw.
  destruct (runs_req_create data addr (fun r => (forall req, r = Some req <-> query_of data addr req)) Hd) with (w := w)
    as (r & w' & E & Hw' & Hr); [| |done|].
  - intros req Hq req'. split; [by intros [= <-]|]. intros Hq'. f_equal. by eapply query_of_inj.
  - intros Hno req'. split; [done|]. intros Hq. by apply Hno in Hq.
  - exists r, w'. split_and!; try done. intros req E'. apply Hr in E'. by eapply query_of_ok.
Qed.

(** C14: What is sent fits. For a message that the program makes and a request, [hsk_dns_msg_finalize]
    returns; the answer has at most the size that the client takes, its signature included; it is for the
    identifier of the request, has the flag QR, the opcode and the code of the message, and the flags RD and CD
    if the request had them. There is no answer only when the encoding of the message is too long for the client. *)
Theorem finalize_bounds msg req ls key w : msg_ok msg -> 0 <= msg_opcode msg < 16 -> 0 <= msg_flags msg -> req_ok req ls -> signer_ok key -> world_ok w ->
  exists r w', hsk_dns_msg_finalize msg req key w = Ret (r, w') /\ world_ok w' /\
  match r with
  | Some wire => let flags := be_combine (take 2 (drop 2 wire)) in
      bytes wire /\ 12 <= Z.of_nat (length wire) <= req_max_size req /\ be_combine (take 2 wire) = req_id req /\
      Z.testbit flags 15 = true /\ Z.land (Z.shiftr flags 11) 15 = msg_opcode msg /\ Z.land flags 15 = Z.land (msg_code msg) 15 /\
      (req_rd req = true -> Z.testbit flags 8 = true) /\ (req_cd req = true -> Z.testbit flags 4 = true)
  | None => exists mem bs, hsk_dns_msg_encode true mem (reply_of req msg) = Ret bs /\ room req key < Z.of_nat (length bs)
  end.
Proof.
  intros Hm Ho Hf Hr Hkey Hw.
  destruct (runs_finalize msg req ls key (fun r => match r with Some wire => finished key req msg wire
    | None => exists mem bs, hsk_dns_msg_encode true mem (reply_of req msg) = Ret bs /\ room req key < Z.of_nat (length bs) end) Hm Hr Hkey)
    with (w := w) as (r & w' & E & Hw' & HQ); [done|intros mem bs ? _ ?; by exists mem, bs|done|].
  exists r, w'. split; [done|]. split; [done|]. destruct r as [wire|]; [|done].
  destruct (finished_bounds key req ls msg wire Hr Hm HQ) as (Hb & Hl & H4). split; [done|]. split; [done|].
  by apply (head_bits req ls).
Qed.

(** C16: The client reads the answer. For a message whose names have at most ten labels each (the reader follows no more
    pointers) and whose code is at most 15, and a query for a name of at most ten labels, [hsk_dns_msg_finalize] gives an
    answer: the encoding of the message for the request (its identifier and question, EDNS if it was asked for,
    without the records of DNSSEC if not), cut after the most items that fit in the room without a signature, which is read
    back as that message; when the server signs, that encoding with a signature of its hash. The signed answer is
    read back as the same message with the signature as its last additional record, unless the encoding ends, by its
    data, as if it were signed already, or has no place for one more record. *)
Theorem finalize_readable msg req ls key w : msg_wf msg -> 0 <= msg_code msg <= 15 -> req_ok req ls -> (length ls <= 10)%nat ->
  signer_ok key -> world_ok w -> exists wire w' k mem bs plain, let m := cut (reply_of req msg) k in
  hsk_dns_msg_finalize msg req key w = Ret (Some wire, w') /\
  hsk_dns_msg_encode true mem (reply_of req msg) = Ret bs /\ hsk_dns_msg_encode true mem m = Ret plain /\
  (Z.of_nat (length bs) <= room req key -> k = item_count (reply_of req msg)) /\
  (room req key < Z.of_nat (length bs) -> (k < item_count (reply_of req msg))%nat /\
    forall bs', hsk_dns_msg_encode true mem (cut (reply_of req msg) (S k)) = Ret bs' -> room req key < Z.of_nat (length bs')) /\
  hsk_dns_msg_decode true all_ok3 plain = Ret (with_flags m (wire_flags m)) /\
  match key with
  | None => wire = plain
  | Some key => exists e i hash s, wire = signed_head plain ++ sig0_rec e i 0 s /\
      blake2b_assert 32 [sig0_data e i 0 (signed_head plain)] = Ret hash /\ host_ec_sign_msg key hash = Some s /\
      (hsk_sig0_has_sig plain = false -> Z.of_nat (length (msg_ar m)) < 255 ->
       hsk_dns_msg_decode true all_ok3 wire = Ret (with_ar (with_flags m (wire_flags m)) (msg_ar m ++ [sig_record e i 0 s])))
  end.
Proof.
  intros Hm Hc Hr Hls Hkey Hw. assert (Hrw := reply_wf req ls msg Hr Hls Hm Hc). assert (Hs := ro_size _ _ Hr).
  assert (Hroom : 418 <= room req key) by (unfold room; destruct key; unfold HSK_SIG0_RR_SIZE; lia).
  destruct (runs_finalize msg req ls key (fun r => exists wire, r = Some wire /\ finished key req msg wire) (msg_wf_ok _ Hm) Hr Hkey)
    with (w := w) as (r & w' & E & _ & wire & -> & mem & bs & out & len & Ee & Et & Ew); [by eauto| |done|].
  { intros mem bs Ee Et Hl. destruct (truncate_encoded mem _ (room req key) bs Hrw Ee ltac:(lia) Hl) as (k & out & len & Et' & _). congruence. }
  destruct (encode_head req ls msg mem bs Hr (msg_wf_ok _ Hm) Ee) as (_ & Hl12 & _).
  assert (Hk : exists k, hsk_dns_msg_encode true mem (cut (reply_of req msg) k) = Ret (take (Z.to_nat len) out) /\
    (Z.of_nat (length bs) <= room req key -> k = item_count (reply_of req msg)) /\
    (room req key < Z.of_nat (length bs) -> (k < item_count (reply_of req msg))%nat /\
      forall bs', hsk_dns_msg_encode true mem (cut (reply_of req msg) (S k)) = Ret bs' -> room req key < Z.of_nat (length bs'))).
  { destruct (Z.le_gt_cases (Z.of_nat (length bs)) (room req key)) as [Hle|Hgt].
    - exists (item_count (reply_of req msg)). rewrite (truncate_short bs) in Et by lia. injection Et as <- <-.
      rewrite cut_all, Nat2Z.id, take_ge by lia. split; [done|]. split; [done|lia].
    - destruct (truncate_encoded mem _ (room req key) bs Hrw Ee ltac:(lia) ltac:(lia)) as (k & out' & len' & Et' & _ & Ec & Hk & Hn).
      rewrite Et in Et'. injection Et' as <- <-. exists k. split; [done|]. split; [lia|done]. }
  destruct Hk as (k & Ec & Hk1 & Hk2). assert (Hcw := cut_wf _ k Hrw). exists wire, w', k, mem, bs, (take (Z.to_nat len) out).
  do 5 (split; [done|]). split; [by apply (encode_decode mem)|]. destruct key as [key|]; [|exact Ew].
  destruct Ew as (hash & s & now & -> & Eh & Es & Hsb). eexists _, _, hash, s. do 3 (split; [done|]).
  intros Hno Har. by apply (signed_decode mem).
Qed.
End Properties.

(** * Witnesses *)

#[local] Existing Instance sample_host.
#[local] Existing Instance sample_host_ok.
Definition sample_addr : sockaddr := mk_sockaddr AF_INET [207; 8] [10; 0; 0; 1].
(** "www.Ab.", type A, with RD, and an OPT record with DO for 1232 bytes. *)
Definition sample_query : list Z :=
  [0; 7; 1; 0; 0; 1; 0; 0; 0; 0; 0; 1; 3; 119; 119; 119; 2; 65; 98; 0; 0; 1; 0; 1; 0; 0; 41; 4; 208; 0; 0; 128; 0; 0; 0].
Definition sample_req : hsk_dns_req_t :=
  mk_req 7 2 (text [[119; 119; 119]; [65; 98]]) HSK_DNS_A HSK_DNS_IN true false false true 1232 true [97; 98] sample_addr.
Lemma sample_req_ok : req_ok sample_req [[119; 119; 119]; [65; 98]].
Proof.
  split; try done; [split; [|by vm_compute]]. apply (bool_decide_unpack _). vm_compute. exact I.
Qed.
Lemma req_create_correct_witness : exists w', hsk_dns_req_create sample_query sample_addr sample_world = Ret (Some sample_req, w') /\
  query_of sample_query sample_addr sample_req.
Proof.
  assert (Hb : bytes sample_query) by (apply (bool_decide_unpack _); vm_compute; exact I).
  destruct (req_create_correct sample_query sample_addr sample_world Hb) as (r & w' & E & _ & Hr & _); [by repeat split|].
  assert (Er : (let* (r, _) := hsk_dns_req_create sample_query sample_addr sample_world in Ret r) = Ret (Some sample_req)) by (vm_compute; reflexivity).
  rewrite E in Er. cbn [obind] in Er. injection Er as Er. exists w'. split; [by rewrite E, Er|]. by apply Hr.
Defined.
Lemma finalize_bounds_witness : exists wire w',
  hsk_dns_msg_finalize hsk_dns_msg_init sample_req (Some (replicate 32 1)) sample_world = Ret (Some wire, w') /\
  be_combine (take 2 wire) = 7 /\ length wire = 129%nat.
Proof.
  destruct (finalize_bounds hsk_dns_msg_init sample_req [[119; 119; 119]; [65; 98]] (Some (replicate 32 1)) sample_world)
    as (r & w' & E & _ & Hr); [apply msg_ok_init|by cbn|by cbn|apply sample_req_ok|by eexists|by repeat split|].
  assert (Er : (let* (r, _) := hsk_dns_msg_finalize hsk_dns_msg_init sample_req (Some (replicate 32 1)) sample_world in
    Ret (bool_decide (is_Some r /\ length (default [] r) = 129%nat))) = Ret true) by (vm_compute; reflexivity).
  rewrite E in Er. cbn [obind] in Er. assert (Er2 : bool_decide (is_Some r /\ length (default [] r) = 129%nat) = true) by congruence.
  apply bool_decide_eq_true in Er2 as [[wire ->] Hl]. exists wire, w'. split; [done|]. split; [apply Hr|exact Hl].
Defined.
Lemma finalize_readable_witness : exists wire w' k e i s, let m := cut (reply_of sample_req Sample.msg) k in
  hsk_dns_msg_finalize Sample.msg sample_req (Some (replicate 32 1)) sample_world = Ret (Some wire, w') /\
  k = item_count (reply_of sample_req Sample.msg) /\
  hsk_dns_msg_decode true all_ok3 wire = Ret (with_ar (with_flags m (wire_flags m)) (msg_ar m ++ [sig_record e i 0 s])).
Proof.
  assert (Hls : (length [[119; 119; 119]; [65; 98]] <= 10)%nat) by (cbn; lia).
  assert (Hc : 0 <= msg_code Sample.msg <= 15) by (split; done).
  destruct (finalize_readable Sample.msg sample_req [[119; 119; 119]; [65; 98]] (Some (replicate 32 1)) sample_world)
    as (wire & w' & k & mem & bs & plain & E & Eb & Ep & Hk & _ & _ & e & i & hash & s & _ & _ & _ & Hd);
    [apply Sample.msg_is_wf|done|apply sample_req_ok|done|by eexists|by repeat split|].
  assert (Ek : k = item_count (reply_of sample_req Sample.msg)).
  { apply Hk. cbn [room req_max_size sample_req].
    assert (Hs : hsk_dns_msg_size (reply_of sample_req Sample.msg) = Ret 94) by (vm_compute; reflexivity).
    assert (Hw := reply_wf sample_req _ Sample.msg sample_req_ok Hls Sample.msg_is_wf Hc).
    assert (Hle := encode_size mem _ bs 94 Hw Eb Hs). unfold HSK_SIG0_RR_SIZE. lia. }
  exists wire, w', k, e, i, s. split; [done|]. split; [done|]. apply Hd; [|rewrite Ek; by vm_compute].
  unfold hsk_sig0_has_sig. destruct (Z.ltb_spec (Z.of_nat (length plain)) (HSK_SIG0_RR_SIZE + 12)) as [|Hge]; [done|].
  exfalso. rewrite Ek, cut_all in Ep. assert (Hw := reply_wf sample_req _ Sample.msg sample_req_ok Hls Sample.msg_is_wf Hc).
  assert (Hs : hsk_dns_msg_size (reply_of sample_req Sample.msg) = Ret 94) by (vm_compute; reflexivity).
  assert (Hle := encode_size mem _ plain 94 Hw Ep Hs). unfold HSK_SIG0_RR_SIZE in Hge. lia.
Defined.
