(* ===== verification/Cache.v ===== *)
(** The cache of answers: [cache.c], over the hash table of [Map].

    A name under a top-level name that holds no records of its own is answered by a
    referral, which is the same for all names and types below: it is kept once. *)

From S2P Require Import Prelude Bio Map MapProps DnsName DnsRecord DnsMsg Dnssec Host Resource Req.

Definition HSK_CACHE_LIMIT : Z := 2000.

(** The bytes of the name up to [name_len]; those after are zero. *)
Record hsk_cache_key_t := mk_ck {
  ck_name : list Z;
  ck_type : Z;
  ck_ref : bool;
}.
Record hsk_cache_item_t := mk_ci {
  ci_key : hsk_cache_key_t;
  ci_msg : list Z;
  ci_time : Z;
}.
Definition hsk_cache_t := hsk_map_t hsk_cache_key_t hsk_cache_item_t.

Definition hsk_cache_key_init : hsk_cache_key_t := mk_ck [] 0 false.
Definition hsk_cache_key_hash (ck : hsk_cache_key_t) : Z :=
  if ck_ref ck then hsk_map_tweak3 (ck_name ck) 2 1 else hsk_map_tweak3 (ck_name ck) 1 (ck_type ck).
Definition hsk_cache_key_equal (x y : hsk_cache_key_t) : bool :=
  if negb (Bool.eqb (ck_ref x) (ck_ref y)) then false
  else if negb (ck_ref x) && negb (ck_type x =? ck_type y) then false
  else if negb (length (ck_name x) =? length (ck_name y))%nat then false
  else memeq (ck_name x) (ck_name y).
#[export] Instance cache_key_funcs : MapFuncs hsk_cache_key_t := {
  hash_func := hsk_cache_key_hash;
  equal_func := hsk_cache_key_equal;
}.

(** The [hsk_dns_label_is_...] tests: a decoding without a destination. *)
Definition label_is {A} (o : outcome A) : outcome bool :=
  match o with Ret _ => Ret true | Fail => Ret false | Fault f => Fault f end.
(** Whether the answer to the query is a referral. *)
Definition is_referral (name : list Z) (type labels : Z) : outcome bool :=
  let unless o := let* b := o in Ret (negb b) in
  if (labels =? 0) || (labels =? 1) then Ret false
  else if labels =? 2 then unless (hsk_resource_is_ptr name)
  else if labels =? 3 then
    if type =? HSK_DNS_SRV then unless (label_is (hsk_dns_label_decode_srv name))
    else if type =? HSK_DNS_TLSA then unless (label_is (hsk_dns_label_decode_tlsa name))
    else if type =? HSK_DNS_SMIMEA then unless (label_is (hsk_dns_label_decode_smimea name))
    else if type =? HSK_DNS_OPENPGPKEY then unless (label_is (hsk_dns_label_decode_openpgpkey name))
    else Ret true
  else Ret true.
Definition hsk_cache_key_set (name : list Z) (type : Z) : outcome (option hsk_cache_key_t) :=
  let* ok := hsk_dns_name_verify (Some name) in
  if negb ok then Ret None
  else if hsk_dns_name_dirty name then Ret None
  else
    let labels := hsk_dns_label_count name in
    let* ref := is_referral name type labels in
    let labels := if ref : bool then 1 else labels in
    let* n := hsk_dns_label_from name (- labels) in
    Ret (Some (mk_ck (hsk_to_lower n) type ref)).

Definition hsk_cache_init : hsk_cache_t := hsk_map_init_map.
Definition hsk_cache_prune (c : hsk_cache_t) : outcome hsk_cache_t :=
  let* (_, c) := hsk_map_clear true c in Ret c.
(** The time for which an answer is kept. *)
Definition cache_window : Z := 6 * 60 * 60.

Section Cache.
Context `{Host}.

(** The two steps of an insertion: the entry that is there, then the new one. *)
Definition cache_store (c : hsk_cache_t) (ck : hsk_cache_key_t) (wire : list Z) : io (bool * hsk_cache_t) :=
  c ← (if HSK_CACHE_LIMIT <=? Map.size c then io_lift (hsk_cache_prune c) else mret c);
  n ← ask;
  if negb (host_al n 0%nat 0%nat) then mret (false, c)
  else
    now ← hsk_now;
    io_lift (hsk_map_set (host_al n 1%nat) c ck (mk_ci ck wire now)).
Definition hsk_cache_insert_data (c : hsk_cache_t) (name : list Z) (type : Z) (wire : list Z) : io (bool * hsk_cache_t) :=
  ck ← io_lift (hsk_cache_key_set name type);
  match ck with
  | None => mret (false, c)
  | Some ck =>
      cache ← io_lift (hsk_map_get c ck);
      match cache with
      | Some cache =>
          now ← hsk_now;
          if now <? ci_time cache + cache_window then mret (true, c)
          else
            r ← io_lift (hsk_map_del c ck);
            cache_store (snd r) ck wire
      | None => cache_store c ck wire
      end
  end.
Definition hsk_cache_insert (c : hsk_cache_t) (req : hsk_dns_req_t) (msg : hsk_dns_msg_t) : io (bool * hsk_cache_t) :=
  n ← ask;
  wire ← io_try (hsk_dns_msg_encode (host_al n 0%nat 0%nat) (host_mem n) msg);
  match wire with
  | None => mret (false, c)
  | Some wire => hsk_cache_insert_data c (req_name req) (req_type req) wire
  end.

Definition hsk_cache_get_data (c : hsk_cache_t) (name : list Z) (type : Z) : io (option (list Z) * hsk_cache_t) :=
  ck ← io_lift (hsk_cache_key_set name type);
  match ck with
  | None => mret (None, c)
  | Some ck =>
      cache ← io_lift (hsk_map_get c ck);
      match cache with
      | None => mret (None, c)
      | Some cache =>
          now ← hsk_now;
          if ci_time cache + cache_window <=? now then
            r ← io_lift (hsk_map_del c ck); mret (None, snd r)
          else mret (Some (ci_msg cache), c)
      end
  end.
Definition hsk_cache_get (c : hsk_cache_t) (req : hsk_dns_req_t) : io (option hsk_dns_msg_t * hsk_cache_t) :=
  r ← hsk_cache_get_data c (req_name req) (req_type req);
  match fst r with
  | None => mret (None, snd r)
  | Some data =>
      n ← ask;
      msg ← io_try (hsk_dns_msg_decode (host_al n 0%nat 0%nat) (fun s i k => host_al n (1 + s + 4 * i)%nat k) data);
      mret (msg, snd r)
  end.
End Cache.
