(* ===== verification/CacheProps.v ===== *)
(** The properties of the cache: it is a finite map of bounded size whose entries expire. *)

From S2P Require Import Prelude Bio Base32 Hex Map MapInv MapResize MapProps DnsName DnsNameProps DnsLabels DnsRecord DnsCodec DnsMsg DnsMsgSpec DnsSafe Sha256 Hkdf Dnssec DnssecProps Host HostProps Resource ResourceProps AnswerProps Req Cache.

(** * Keys *)

(** What the functions of the table compare: a referral has no type. *)
#[export, refine] Instance cache_key : MapKey hsk_cache_key_t (bool * Z * list Z) := {
  key_norm ck := (ck_ref ck, (if ck_ref ck then 0 else ck_type ck), ck_name ck);
  key_ok _ := True;
}.
Proof.
  - intros [n1 t1 r1] [n2 t2 r2] _ _. cbn [equal_func cache_key_funcs ck_ref ck_type ck_name]. unfold hsk_cache_key_equal. cbn [ck_ref ck_type ck_name].
    destruct r1, r2; cbn [Bool.eqb negb andb]; try (split; congruence).
    + destruct (Nat.eqb_spec (length n1) (length n2)); cbn [negb]; [|split; [done|congruence]].
      rewrite memeq_spec by done. split; [by intros ->|congruence].
    + destruct (Z.eqb_spec t1 t2); cbn [negb andb]; [|split; [done|congruence]].
      destruct (Nat.eqb_spec (length n1) (length n2)); cbn [negb]; [|split; [done|congruence]].
      rewrite memeq_spec by done. split; [by intros ->; subst|congruence].
  - intros [n1 t1 r1] [n2 t2 r2] _ _ [= E1 E2 E3]. subst. cbn [hash_func cache_key_funcs]. unfold hsk_cache_key_hash. cbn [ck_ref ck_name ck_type].
    by destruct r2; [|subst].
Defined.

(** ** Names with an address *)

Lemma decode_loop_bits table mode left_ str out mode' left' rest : (mode < 8)%nat ->
  Base32.decode_loop table false mode left_ str = Some (out, mode', left', rest) ->
  8 * Z.of_nat (length out) + (5 * Z.of_nat mode') mod 8 = 5 * Z.of_nat (length str) + (5 * Z.of_nat mode) mod 8.
Proof.
  revert mode left_ out; induction str as [|c str IH]; intros mode left_ out Hm; cbn [Base32.decode_loop].
  { intros [= <- <- <- <-]. cbn [length]. lia. }
  destruct (table_at table c =? -1); [done|].
  assert (Hs : forall o l m, decode_step mode left_ (table_at table c) = (o, l, m) ->
    (m < 8)%nat /\ 8 * Z.of_nat (length o) + (5 * Z.of_nat m) mod 8 = 5 + (5 * Z.of_nat mode) mod 8).
  { intros o l m. do 8 (destruct mode as [|mode]; [intros [= <- <- <-]; split; [lia|reflexivity]|]). lia. }
  destruct (decode_step mode left_ (table_at table c)) as [[o l] m] eqn:Es. destruct (Hs o l m eq_refl) as [Hm' Eb].
  destruct (Base32.decode_loop table false m l str) as [[[[out' m'] l'] r']|] eqn:E; [|done]. intros [= <- <- <- <-].
  specialize (IH m l out' Hm' E). rewrite length_app. cbn [length]. lia.
Qed.
(** Five bits for each character, in whole bytes. *)
Lemma decode_hex_length str out : hsk_base32_decode_hex str false = Some out -> Z.of_nat (length out) = 5 * Z.of_nat (length str) / 8.
Proof.
  unfold hsk_base32_decode_hex, hsk_base32_decode2. destruct (Base32.decode_loop TABLE_HEX false 0 0 str) as [[[[o m] l] r]|] eqn:E; [|done].
  intros [= <-]. assert (Hb := decode_loop_bits _ 0 _ _ _ _ _ _ ltac:(lia) E). change ((5 * Z.of_nat 0) mod 8) with 0 in Hb.
  assert (0 <= (5 * Z.of_nat m) mod 8 < 8) by (apply Z.mod_pos_bound; lia). dlia.
Qed.

Lemma decode_hex_bytes str out : hsk_base32_decode_hex str false = Some out -> bytes out.
Proof.
  unfold hsk_base32_decode_hex, hsk_base32_decode2. destruct (Base32.decode_loop TABLE_HEX false 0 0 str) as [[[[o m] l] r]|] eqn:E; [|done].
  intros [= <-]. revert E. generalize 0%nat at 1. generalize 0. revert o m l r. induction str as [|c str IH]; intros o m l r l0 m0; cbn [Base32.decode_loop].
  { intros [= <- _ _ _]. constructor. }
  destruct (table_at TABLE_HEX c =? -1); [done|]. destruct (decode_step m0 l0 (table_at TABLE_HEX c)) as [[o1 l1] m1] eqn:Es.
  destruct (Base32.decode_loop TABLE_HEX false m1 l1 str) as [[[[o2 m2] l2] r2]|] eqn:E2; [|done]. intros [= <- _ _ _].
  apply bytes_app. split; [|by eapply IH].
  assert (Hb : forall x, bytes [u8 x]) by (intros x; apply bytes_cons; [apply u8_range|constructor]).
  do 8 (destruct m0 as [|m0]; [injection Es as <- _ _; first [apply Hb|constructor]|]). injection Es as <- _ _. apply Hb.
Qed.

(** ** No test on a name faults, but that of an empty address *)

Definition total {A} (o : outcome A) : Prop := match o with Fault _ => False | _ => True end.
Lemma total_bind {A B} (o : outcome A) (k : A -> outcome B) : total o -> (forall a, o = Ret a -> total (k a)) -> total (obind o k).
Proof. intros Ho Hk. destruct o as [a| |f]; [by apply Hk|done|done]. Qed.
Lemma get2_label ls k : name_ok ls -> (k < length ls)%nat -> exists l, ls !! k = Some l /\
  hsk_dns_label_get2 (text ls) (hsk_dns_label_split (text ls) (Z.of_nat (length ls))) (Z.of_nat k) = Ret l.
Proof.
  intros Hok Hk. destruct (lookup_lt_is_Some_2 ls k Hk) as [l Hl]. exists l. split; [done|].
  rewrite split_text by (done || lia). by apply get2_text.
Qed.
Lemma starts_total l : 2 <= Z.of_nat (length l) -> exists b, starts_underscore l = Ret b.
Proof. intros Hl. destruct l as [|c l]; [cbn in Hl; lia|]. by eexists. Qed.
Section Services.
Context (ls : list (list Z)) (Hok : name_ok ls).
Ltac label_case :=
  rewrite count_text by done; destruct (Z.ltb_spec (Z.of_nat (length ls)) 3); [done|];
  destruct (get2_label ls 0 Hok ltac:(lia)) as (l0 & _ & E0); destruct (get2_label ls 1 Hok ltac:(lia)) as (l1 & _ & E1);
  change (Z.of_nat 1) with 1 in E1; change (Z.of_nat 0) with 0 in E0; rewrite E1; cbn [obind].
Lemma dane_total tag : total (hsk_dns_label_decode_dane tag (text ls)).
Proof.
  unfold hsk_dns_label_decode_dane. label_case. destruct (_ <? 2); [done|]. destruct (negb _); [done|].
  rewrite E0. cbn [obind]. destruct (negb _); [done|]. by destruct (hsk_hex_decode _).
Qed.
Lemma srv_total : total (hsk_dns_label_decode_srv (text ls)).
Proof.
  unfold hsk_dns_label_decode_srv. label_case. destruct (Z.ltb_spec (Z.of_nat (length l1)) 2) as [|H1]; [done|].
  destruct (starts_total l1 H1) as [b ->]. cbn [obind]. destruct (negb b); [done|]. rewrite E0. cbn [obind].
  destruct (Z.ltb_spec (Z.of_nat (length l0)) 2) as [|H0]; [done|]. destruct (starts_total l0 H0) as [c ->]. cbn [obind].
  by destruct (negb c).
Qed.
Lemma tlsa_total : total (hsk_dns_label_decode_tlsa (text ls)).
Proof.
  unfold hsk_dns_label_decode_tlsa. label_case. destruct (Z.ltb_spec (Z.of_nat (length l1)) 2) as [|H1]; [done|].
  destruct (starts_total l1 H1) as [b ->]. cbn [obind]. destruct (negb b); [done|]. rewrite E0. cbn [obind].
  destruct (Z.ltb_spec (Z.of_nat (length l0)) 2) as [|H0]; [done|]. cbn [orb]. destruct (6 <? _); [done|].
  destruct (starts_total l0 H0) as [c ->]. cbn [obind]. destruct (negb c); [done|]. by destruct (tlsa_port_loop _ _).
Qed.
End Services.

(** The two texts after an underscore that end the program: one digit, which is no bytes, and 28 digits where there is
    room for an address, which are seventeen bytes. *)
Definition pointer_ok (ls : list (list Z)) : Prop := forall c, ls !! 0%nat = Some [95; c] -> hsk_base32_decode_hex [c] false = None.
Definition room_ok (ls : list (list Z)) : Prop := forall l, ls !! 0%nat = Some (95 :: l) -> length l = 28%nat ->
  hsk_base32_decode_hex l false = None.
Lemma label_first ls : name_ok ls -> hsk_dns_label_get (text ls) 0 = Ret (default [] (ls !! 0%nat)).
Proof.
  intros Hok. unfold hsk_dns_label_get. rewrite count_text by done. destruct ls as [|l ls]; [done|].
  destruct (Z.eqb_spec (Z.of_nat (length (l :: ls))) 0) as [E|_]; [cbn in E; lia|].
  destruct (get2_label (l :: ls) 0 Hok ltac:(cbn; lia)) as (x & Hx & E). change (Z.of_nat 0) with 0 in E. by rewrite E, Hx.
Qed.
Lemma pointer_total ls room : name_ok ls -> pointer_ok ls -> (room = true -> room_ok ls) -> exists r, pointer_to_ip room (text ls) = Ret r /\
    match r with Some (ip, family) => (family = HSK_DNS_A /\ bytes_n 4 ip) \/ (family = HSK_DNS_AAAA /\ bytes_n 16 ip) | None => True end.
Proof.
  intros Hok Hp Hr. unfold pointer_to_ip. rewrite label_first by done. cbn [obind]. set (l := default [] (ls !! 0%nat)) in *.
  destruct (Z.ltb_spec (Z.of_nat (length l)) 2) as [|H2]; [by exists None|]. cbn [orb].
  destruct (Z.ltb_spec 29 (Z.of_nat (length l))) as [|H29]; [by exists None|].
  assert (El : ls !! 0%nat = Some l) by (clear -H2; destruct ls; [cbn in H2; lia|done]). clearbody l.
  destruct l as [|u l]; [cbn in H2; lia|]. change (starts_underscore (u :: l)) with (@Ret bool (u =? 95)). cbn [obind drop]. rewrite drop_0.
  destruct (Z.eqb_spec u 95) as [->|]; cbn [negb]; [|by exists None].
  destruct (hsk_base32_decode_hex l false) as [ip|] eqn:Eip; [|by exists None]. assert (Hb := decode_hex_bytes _ _ Eip).
  assert (Hl := decode_hex_length _ _ Eip). cbn [length] in H2, H29.
  destruct (room && _) eqn:Er.
  { apply andb_true_iff in Er as [-> Er%Z.ltb_lt]. rewrite (Hr eq_refl l El) in Eip; [done|]. dlia. }
  destruct (Z.eqb_spec (Z.of_nat (length ip)) 0) as [E0|E0]; cbn [negb oassert obind].
  { exfalso. destruct l as [|c [|d l]]; [cbn in H2; lia|by rewrite (Hp c El) in Eip|cbn [length] in Hl; dlia]. }
  destruct (Z.eqb_spec (Z.of_nat (length ip)) 4); [eexists; split; [done|]; left; split; [done|split; [lia|done]]|].
  destruct (Z.eqb_spec (Z.of_nat (length ip)) 16); [eexists; split; [done|]; right; split; [done|split; [lia|done]]|].
  by exists None.
Qed.
(** The first of them. *)
Lemma pointer_fault c l room : name_ok [[95; c]; l] -> is_Some (hsk_base32_decode_hex [c] false) ->
  pointer_to_ip room (text [[95; c]; l]) = Fault AssertFail.
Proof.
  intros Hok [ip E]. unfold pointer_to_ip. rewrite label_first by done. cbn [obind lookup list_lookup default length]. change (id [95; c]) with [95; c].
  change (starts_underscore [95; c]) with (@Ret bool true). cbn [Z.of_nat Z.ltb Z.compare Pos.compare Pos.compare_cont orb obind negb drop length]. rewrite ?drop_0.
  rewrite E. assert (Hl := decode_hex_length _ _ E). cbn [length] in Hl. destruct ip; [|cbn [length] in Hl; dlia]. by rewrite andb_false_r.
Qed.

(** Whether a query is answered by a referral, and its key. *)
Definition refers (ls : list (list Z)) (type : Z) : bool :=
  match is_referral (text ls) type (Z.of_nat (length ls)) with Ret b => b | _ => false end.
Definition query_key (ls : list (list Z)) (type : Z) : hsk_cache_key_t :=
  mk_ck (hsk_to_lower (if refers ls type then text (drop (length ls - 1) ls) else match ls with [] => [] | _ => text ls end))
    type (refers ls type).
Lemma label_is_total {A} (o : outcome A) : total o -> exists b, label_is o = Ret b.
Proof. destruct o; [by exists true|by exists false|done]. Qed.
Lemma is_referral_total ls type : name_ok ls -> (length ls = 2%nat -> pointer_ok ls) ->
  is_referral (text ls) type (Z.of_nat (length ls)) = Ret (refers ls type) /\ (refers ls type = true -> (2 <= length ls)%nat).
Proof.
  intros Hok Hp. unfold refers. enough (H : exists b, is_referral (text ls) type (Z.of_nat (length ls)) = Ret b /\ (b = true -> (2 <= length ls)%nat)).
  { by destruct H as (b & -> & Hb). }
  unfold is_referral. destruct (Z.eqb_spec (Z.of_nat (length ls)) 0); [by exists false|].
  destruct (Z.eqb_spec (Z.of_nat (length ls)) 1); [by exists false|]. cbn [orb].
  assert (Hunless : forall o : outcome bool, (exists b, o = Ret b) -> exists b, (let* b := o in Ret (negb b)) = Ret b /\ (b = true -> (2 <= length ls)%nat)).
  { intros o [b ->]. exists (negb b). split; [done|lia]. }
  destruct (Z.eqb_spec (Z.of_nat (length ls)) 2).
  { apply Hunless. unfold hsk_resource_is_ptr. destruct (pointer_total ls false Hok (Hp ltac:(lia))) as (r & -> & _); [done|].
    cbn [obind]. by eexists. }
  destruct (Z.eqb_spec (Z.of_nat (length ls)) 3); [|exists true; split; [done|lia]].
  repeat (match goal with |- context [type =? ?c] => destruct (type =? c) end;
    [apply Hunless, label_is_total; first [by apply srv_total|by apply tlsa_total|by apply dane_total]|]).
  exists true. split; [done|lia].
Qed.
Lemma key_set_spec ls type : name_ok ls -> (length ls = 2%nat -> pointer_ok ls) ->
  hsk_cache_key_set (text ls) type = Ret (if hsk_dns_name_dirty (text ls) then None else Some (query_key ls type)).
Proof.
  intros Hok Hp. unfold hsk_cache_key_set. rewrite verify_ok by by exists ls. cbn [obind negb].
  destruct (hsk_dns_name_dirty (text ls)); [done|]. rewrite count_text by done.
  destruct (is_referral_total ls type Hok Hp) as [-> Hr]. cbn [obind]. unfold query_key. destruct (refers ls type).
  - specialize (Hr eq_refl). assert (Hlast : exists l, last ls = Some l) by (destruct ls using rev_ind; [cbn in Hr; lia|rewrite last_snoc; by eexists]).
    destruct Hlast as [l Hl]. destruct (label_last ls l Hok Hl) as [E _]. change (- (1)) with (-1). rewrite E. cbn [obind].
    by destruct (last_drop ls l Hl) as [-> _].
  - destruct (dns_labels_correct ls (- Z.of_nat (length ls)) Hok) as (_ & H1 & H2 & _). destruct ls as [|l ls].
    + destruct (H2 ltac:(cbn; lia) ltac:(cbn; lia)) as [_ ->]. done.
    + destruct (H1 ltac:(cbn; lia)) as [_ ->]. cbn [obind]. unfold from_end.
      destruct (Z.ltb_spec (- Z.of_nat (length (l :: ls))) 0); [|cbn in *; lia].
      rewrite Z.add_opp_diag_l. done.
Qed.

Lemma key_set_fault c l type : name_ok [[95; c]; l] -> is_Some (hsk_base32_decode_hex [c] false) ->
  hsk_dns_name_dirty (text [[95; c]; l]) = false -> hsk_cache_key_set (text [[95; c]; l]) type = Fault AssertFail.
Proof.
  intros Hok Hc Hd. unfold hsk_cache_key_set. rewrite verify_ok by (exists [[95; c]; l]; split_and!; done). cbn [obind negb].
  rewrite Hd, count_text by done. unfold is_referral, hsk_resource_is_ptr. cbn [length Z.of_nat Z.eqb Pos.eqb orb].
  by rewrite pointer_fault.
Qed.

(** * The cache as a map *)

Abbreviation key_of ls type := (key_norm (N := bool * Z * list Z) (query_key ls type)).
Abbreviation cache_map := (gmap (bool * Z * list Z) hsk_cache_item_t).
Definition cache_ok (c : hsk_cache_t) (M : cache_map) : Prop :=
  repr c M /\ Z.of_nat (base.size M) <= HSK_CACHE_LIMIT /\ n_buckets c <= 4 * HSK_CACHE_LIMIT /\
  map_Forall (fun _ it => bytes (ci_msg it)) M.
Definition in_window (now : Z) (it : hsk_cache_item_t) : Prop := now < ci_time it + cache_window.
#[export] Instance in_window_dec now it : Decision (in_window now it).
Proof. unfold in_window. apply _. Defined.

(** The host, when there is memory and its clock is set. *)
Class CacheHost `{Host} : Prop := {
  ch_al n i k : host_al n i k = true;
  ch_clock n : 0 <= host_clock n 0;
}.

Section Reference.
Context `{Host}.

(** ** The operations on a finite map

    Each question to the host, for memory or for the time, has a number; [n] is the number of the next
    one, before an operation and after it. [host_clock n 0] is the time that question [n] reads. *)
Definition ref_get (M : cache_map) (ls : list (list Z)) (type : Z) (n : nat) : option (list Z) * cache_map * nat :=
  if hsk_dns_name_dirty (text ls) then (None, M, n)
  else
    match M !! key_of ls type with
    | None => (None, M, n)
    | Some it =>
        if decide (in_window (host_clock n 0) it) then (Some (ci_msg it), M, S n)
        else (None, delete (key_of ls type) M, S n)
    end.
(** A full map is emptied first; the time is read after the memory for the answer is there. *)
Definition ref_store (M : cache_map) (ls : list (list Z)) (type : Z) (wire : list Z) (n : nat) : cache_map * nat :=
  (<[key_of ls type := mk_ci (query_key ls type) wire (host_clock (S n) 0)]>
     (if decide (HSK_CACHE_LIMIT <= Z.of_nat (base.size M)) then ∅ else M), S (S n)).
Definition ref_insert (M : cache_map) (ls : list (list Z)) (type : Z) (wire : list Z) (n : nat) : bool * cache_map * nat :=
  if hsk_dns_name_dirty (text ls) then (false, M, n)
  else
    match M !! key_of ls type with
    | None => let '(M, n) := ref_store M ls type wire n in (true, M, n)
    | Some it =>
        if decide (in_window (host_clock n 0) it) then (true, M, S n)
        else let '(M, n) := ref_store (delete (key_of ls type) M) ls type wire (S n) in (true, M, n)
    end.
End Reference.

Section Runs.
Context `{CacheHost}.

(** [m] returns [a] and a cache for the map [M], and asks questions up to [n']. *)
Definition gives {A} (m : io (A * hsk_cache_t)) (n : nat) (a : A) (M : cache_map) (n' : nat) : Prop := forall keys, exists c,
  m (mk_world n keys) = Ret ((a, c), mk_world n' keys) /\ cache_ok c M.
Lemma now_eq w : hsk_now w = Ret (host_clock (w_next w) 0, mk_world (S (w_next w)) (w_keys w)).
Proof. unfold hsk_now, mbind, io_bind, ask. cbn [obind]. by rewrite (proj2 (Z.leb_le _ _) (ch_clock _)). Qed.
Lemma cache_ok_delete c M k : cache_ok c M -> exists c' b, hsk_map_del c k = Ret (b, c') /\ cache_ok c' (delete (key_norm k) M).
Proof.
  intros (Hr & Hs & Hn & Hb). destruct (del_spec c M k Hr I) as (c' & Ec & Hr' & Hs' & Hn').
  eexists c', _. split; [exact Ec|]. split; [done|]. rewrite (repr_count c M Hr), (repr_count _ _ Hr') in Hs'.
  split; [lia|]. split; [lia|]. by apply map_Forall_delete.
Qed.
Lemma bind_lift {A B} (o : outcome A) (k : A -> io B) w : (a ← io_lift o; k a) w = let* a := o in k a w.
Proof. unfold mbind, io_bind, io_lift. by destruct o. Qed.
Lemma bind_ret {A B} (m : io A) (k : A -> io B) w a w' : m w = Ret (a, w') -> (a ← m; k a) w = k a w'.
Proof. intros E. unfold mbind, io_bind. by rewrite E. Qed.
Lemma bind_ask {B} (k : nat -> io B) n keys : (n ← ask; k n) (mk_world n keys) = k n (mk_world (S n) keys).
Proof. done. Qed.
Lemma bind_now {B} (k : Z -> io B) n keys : (now ← hsk_now; k now) (mk_world n keys) = k (host_clock n 0) (mk_world (S n) keys).
Proof. unfold mbind, io_bind. by rewrite now_eq. Qed.
Lemma get_data_spec c M ls type n : cache_ok c M -> name_ok ls -> (length ls = 2%nat -> pointer_ok ls) ->
  let '(r, M', n') := ref_get M ls type n in gives (hsk_cache_get_data c (text ls) type) n r M' n'.
Proof.
  intros Hc Hok Hp. assert (Hr := proj1 Hc). unfold ref_get, hsk_cache_get_data. assert (Ek := key_set_spec ls type Hok Hp).
  assert (Eg := get_spec c M (query_key ls type) Hr I).
  destruct (hsk_dns_name_dirty (text ls)); [intros keys; exists c; by rewrite bind_lift, Ek|].
  destruct (M !! key_of ls type) as [it|]; [|intros keys; exists c; rewrite bind_lift, Ek; cbn [obind]; by rewrite bind_lift, Eg].
  unfold in_window. case_decide as Hw; intros keys; rewrite bind_lift, Ek; cbn [obind]; rewrite bind_lift, Eg; cbn [obind]; rewrite bind_now.
  - destruct (Z.leb_spec (ci_time it + cache_window) (host_clock n 0)); [lia|]. by exists c.
  - destruct (Z.leb_spec (ci_time it + cache_window) (host_clock n 0)); [|lia].
    destruct (cache_ok_delete c M (query_key ls type) Hc) as (c' & b & E & Hc'). exists c'. by rewrite bind_lift, E.
Qed.
Lemma store_spec c M ls type wire n : cache_ok c M -> bytes wire ->
  let '(M', n') := ref_store M ls type wire n in gives (cache_store c (query_key ls type) wire) n true M' n'.
Proof.
  intros (Hr & Hs & Hn & Hb) Hw keys. unfold cache_store. set (M1 := if decide (HSK_CACHE_LIMIT <= Z.of_nat (base.size M)) then ∅ else M).
  assert (E1 : exists c1, (if HSK_CACHE_LIMIT <=? Map.size c then io_lift (hsk_cache_prune c) else mret c) (mk_world n keys) =
      Ret (c1, mk_world n keys) /\ repr c1 M1 /\ Z.of_nat (base.size M1) < HSK_CACHE_LIMIT /\ n_buckets c1 <= 4 * HSK_CACHE_LIMIT).
  { rewrite (repr_count c M Hr). unfold M1. destruct (Z.leb_spec HSK_CACHE_LIMIT (Z.of_nat (base.size M))) as [Hle|Hgt].
    - rewrite decide_True by done. destruct (reset_spec c M Hr) as (Hr' & _ & Hn'). destruct (map_each_spec c M Hr) as (vs & Ev & _).
      exists (hsk_map_reset c). split; [|split_and!; [done|by rewrite map_size_empty|lia]].
      unfold io_lift, hsk_cache_prune, hsk_map_clear. rewrite (rp_map _ _ Hr). cbn [andb]. by rewrite Ev.
    - rewrite decide_False by lia. exists c. split_and!; (done || lia). }
  destruct E1 as (c1 & E1 & Hr1 & Hs1 & Hn1). rewrite (bind_ret _ _ _ _ _ E1), bind_ask, ch_al. cbn [negb]. rewrite bind_now.
  destruct (set_spec (host_al n 1%nat) c1 M1 (query_key ls type) (mk_ci (query_key ls type) wire (host_clock (S n) 0)) Hr1)
    as (b & c2 & E & Hr2 & Hal & Hs2 & Hn2); [unfold HSK_CACHE_LIMIT in *; lia|done|].
  assert (b = true) as ->. { destruct b; [done|]. destruct (Hal eq_refl) as [i Hi]. by rewrite ch_al in Hi. }
  unfold io_lift. rewrite E. cbn [obind]. exists c2. split; [done|]. rewrite (repr_count c1 M1 Hr1) in *. rewrite (repr_count c2 _ Hr2) in Hs2.
  split; [done|]. split; [lia|]. split; [unfold HSK_CACHE_LIMIT in *; lia|]. apply map_Forall_insert_2; [done|].
  unfold M1. by destruct (decide _); [apply map_Forall_empty|].
Qed.
Lemma insert_data_spec c M ls type wire n : cache_ok c M -> name_ok ls -> (length ls = 2%nat -> pointer_ok ls) -> bytes wire ->
  let '(r, M', n') := ref_insert M ls type wire n in gives (hsk_cache_insert_data c (text ls) type wire) n r M' n'.
Proof.
  intros Hc Hok Hp Hw. assert (Hr := proj1 Hc). unfold ref_insert, hsk_cache_insert_data. assert (Ek := key_set_spec ls type Hok Hp).
  assert (Eg := get_spec c M (query_key ls type) Hr I).
  destruct (hsk_dns_name_dirty (text ls)); [intros keys; exists c; by rewrite bind_lift, Ek|].
  destruct (M !! key_of ls type) as [it|].
  2: { assert (Hst := store_spec c M ls type wire n Hc Hw). destruct (ref_store M ls type wire n) as [M2 n2]. intros keys.
    rewrite bind_lift, Ek. cbn [obind]. rewrite bind_lift, Eg. cbn [obind]. apply Hst. }
  unfold in_window. case_decide as Hlt; [intros keys|].
  - rewrite bind_lift, Ek. cbn [obind]. rewrite bind_lift, Eg. cbn [obind]. rewrite bind_now.
    destruct (Z.ltb_spec (host_clock n 0) (ci_time it + cache_window)); [|lia]. by exists c.
  - destruct (cache_ok_delete c M (query_key ls type) Hc) as (c' & b & E & Hc').
    assert (Hst := store_spec c' _ ls type wire (S n) Hc' Hw). change (key_norm (query_key ls type)) with (key_of ls type) in Hst.
    destruct (ref_store (delete (key_of ls type) M) ls type wire (S n)) as [M2 n2]. intros keys.
    rewrite bind_lift, Ek. cbn [obind]. rewrite bind_lift, Eg. cbn [obind]. rewrite bind_now.
    destruct (Z.ltb_spec (host_clock n 0) (ci_time it + cache_window)); [lia|]. rewrite bind_lift, E. cbn [obind snd]. apply Hst.
Qed.
End Runs.

(** What the server uses of it. *)
Section Server.
Context `{HostOk}.
#[export] Instance host_ok_cache : CacheHost.
Proof. split; [intros n i k; apply al_true|intros n; apply ok_clock]. Qed.
Lemma gives_runs {A} (m : io (A * hsk_cache_t)) (f : nat -> A * cache_map * nat) : (forall n, let '(a, M, n') := f n in gives m n a M n') ->
  runs m (fun r => exists n M n', f n = (fst r, M, n') /\ cache_ok (snd r) M).
Proof.
  intros Hm [n keys] Hw. specialize (Hm n). destruct (f n) as [[a M] n'] eqn:E. destruct (Hm keys) as (c & Em & Hc).
  exists (a, c), (mk_world n' keys). split; [done|]. split; [exact Hw|]. by exists n, M, n'.
Qed.
Lemma runs_get_data c M ls type : cache_ok c M -> name_ok ls -> (length ls = 2%nat -> pointer_ok ls) ->
  runs (hsk_cache_get_data c (text ls) type) (fun r => exists n M' n', ref_get M ls type n = (fst r, M', n') /\ cache_ok (snd r) M').
Proof. intros Hc Hok Hp. apply gives_runs. intros n. by apply get_data_spec. Qed.
Lemma runs_insert_data c M ls type wire : cache_ok c M -> name_ok ls -> (length ls = 2%nat -> pointer_ok ls) -> bytes wire ->
  runs (hsk_cache_insert_data c (text ls) type wire) (fun r => exists n M' n', ref_insert M ls type wire n = (fst r, M', n') /\ cache_ok (snd r) M').
Proof. intros Hc Hok Hp Hw. apply gives_runs. intros n. by apply insert_data_spec. Qed.
End Server.

(** * Runs *)

Inductive cache_op :=
  | OpLookup (ls : list (list Z)) (type : Z)
  | OpInsert (ls : list (list Z)) (type : Z) (wire : list Z).
Inductive cache_result := RFound (data : option (list Z)) | RStored (ok : bool).
(** The names of queries. *)
Definition cache_op_ok (o : cache_op) : Prop :=
  match o with
  | OpLookup ls _ => name_ok ls /\ (length ls = 2%nat -> pointer_ok ls)
  | OpInsert ls _ wire => name_ok ls /\ (length ls = 2%nat -> pointer_ok ls) /\ bytes wire
  end.

Section CacheRuns.
Context `{Host}.
Definition cache_step (c : hsk_cache_t) (o : cache_op) : io (cache_result * hsk_cache_t) :=
  match o with
  | OpLookup ls type => r ← hsk_cache_get_data c (text ls) type; mret (RFound (fst r), snd r)
  | OpInsert ls type wire => r ← hsk_cache_insert_data c (text ls) type wire; mret (RStored (fst r), snd r)
  end.
Fixpoint cache_run (c : hsk_cache_t) (os : list cache_op) : io (list cache_result * hsk_cache_t) :=
  match os with
  | [] => mret ([], c)
  | o :: os => r ← cache_step c o; rs ← cache_run (snd r) os; mret (fst r :: fst rs, snd rs)
  end.
(** The same on a finite map. *)
Definition ref_step (M : cache_map) (o : cache_op) (n : nat) : cache_result * cache_map * nat :=
  match o with
  | OpLookup ls type => let '(r, M, n) := ref_get M ls type n in (RFound r, M, n)
  | OpInsert ls type wire => let '(r, M, n) := ref_insert M ls type wire n in (RStored r, M, n)
  end.
Fixpoint cache_ref (M : cache_map) (os : list cache_op) (n : nat) : list cache_result * cache_map * nat :=
  match os with
  | [] => ([], M, n)
  | o :: os => let '(r, M, n) := ref_step M o n in let '(rs, M, n) := cache_ref M os n in (r :: rs, M, n)
  end.
Context `{!CacheHost}.
Lemma cache_step_spec c M o n : cache_ok c M -> cache_op_ok o -> let '(r, M', n') := ref_step M o n in gives (cache_step c o) n r M' n'.
Proof.
  intros Hc Ho. destruct o as [ls type|ls type wire]; cbn [ref_step cache_step].
  - destruct Ho as [Hok Hp]. assert (Hg := get_data_spec c M ls type n Hc Hok Hp). destruct (ref_get M ls type n) as [[r M'] n'].
    intros keys. destruct (Hg keys) as (c' & E & Hc'). exists c'. unfold mbind, io_bind. by rewrite E.
  - destruct Ho as (Hok & Hp & Hw). assert (Hg := insert_data_spec c M ls type wire n Hc Hok Hp Hw).
    destruct (ref_insert M ls type wire n) as [[r M'] n']. intros keys. destruct (Hg keys) as (c' & E & Hc'). exists c'.
    unfold mbind, io_bind. by rewrite E.
Qed.
Lemma cache_run_spec os : forall c M n, cache_ok c M -> Forall cache_op_ok os ->
  let '(rs, M', n') := cache_ref M os n in gives (cache_run c os) n rs M' n'.
Proof.
  induction os as [|o os IH]; intros c M n Hc Ho; [intros keys; by exists c|].
  apply Forall_cons in Ho as [Ho Hos]. cbn [cache_run cache_ref]. assert (Hs := cache_step_spec c M o n Hc Ho).
  destruct (ref_step M o n) as [[r M1] n1]. destruct (cache_ref M1 os n1) as [[rs M2] n2] eqn:E2. intros keys.
  destruct (Hs keys) as (c1 & E1 & Hc1). specialize (IH c1 M1 n1 Hc1 Hos). rewrite E2 in IH. destruct (IH keys) as (c2 & E3 & Hc2).
  exists c2. unfold mbind, io_bind. rewrite E1. cbn [obind snd]. unfold mbind, io_bind in E3. by rewrite E3.
Qed.
Lemma cache_ok_init : cache_ok hsk_cache_init ∅.
Proof.
  split; [apply repr_init|]. split; [by rewrite map_size_empty|]. split; [done|apply map_Forall_empty].
Qed.

(** * Properties *)

(** C4: The cache is a map whose entries expire. With memory and a clock that is set, any run of lookups and insertions, for
    the names of queries other than those excepted below, ends without a fault, asks the host as many questions and has
    the results of the run on a finite map from keys (the name in lower case with its type, or the top-level name
    of a referral) to answers: a lookup gives the answer that was stored under an equal key
    less than six hours before the time that this lookup reads, and takes away an older one; an
    insertion keeps an answer that is not so old, and stores the new one with the time that it reads itself; and the map, which is
    emptied when it has 2000 entries, never has more. The names excepted have two labels of which the first is an
    underscore and one digit of base 32: for these, unless they hold characters that have no place in a key, an
    assertion fails. *)
Theorem cache_refines os n keys : Forall cache_op_ok os ->
  (let '(rs, M, n') := cache_ref ∅ os n in exists c, cache_run hsk_cache_init os (mk_world n keys) = Ret ((rs, c), mk_world n' keys) /\
    repr c M /\ Z.of_nat (base.size M) <= HSK_CACHE_LIMIT) /\
  (forall c ls type w, name_ok ls -> length ls = 2%nat -> hsk_dns_name_dirty (text ls) = false ->
    (exists d, ls !! 0%nat = Some [95; d] /\ is_Some (hsk_base32_decode_hex [d] false)) ->
    cache_step c (OpLookup ls type) w = Fault AssertFail).
Proof.
  intros Ho. split.
  - assert (Hr := cache_run_spec os hsk_cache_init ∅ n cache_ok_init Ho). destruct (cache_ref ∅ os n) as [[rs M] n'].
    destruct (Hr keys) as (c & E & Hrep & Hs & _). by exists c.
  - intros c ls type w Hok Hl Hd (d & E0 & Hx). destruct ls as [|a [|b [|]]]; [done|done| |done]. apply (inj Some) in E0. subst a.
    cbn [cache_step]. unfold mbind, io_bind, hsk_cache_get_data, mbind, io_bind, io_lift. by rewrite key_set_fault.
Qed.
End CacheRuns.

(** A host on which 10000 seconds pass between two questions. *)
Definition aging_host : Host := {|
  host_endian := Little; host_garbage := replicate 64 7; host_addr := fun _ => 0; host_al := fun _ _ _ => true;
  host_mem := fun _ _ => true; host_clock := fun n _ => 1700000000 + 10000 * Z.of_nat n;
  host_ecc_make_pubkey := fun _ => None; host_ecc_sign := fun _ _ => None;
  host_ec_create_pubkey := fun _ => None; host_ec_sign_msg := fun _ _ => None; host_ec_verify_msg := fun _ _ _ => false;
  host_inet_ntop := fun _ _ _ => None; host_udp_send := fun _ => 0 |}.
#[local] Existing Instance aging_host.
#[local] Instance aging_host_ok : CacheHost.
Proof. split; [done|]. intros n. cbn. lia. Qed.
(** All names under "a." have one referral, which expires at the third lookup; a query for "A." itself has its own entry. *)
Definition sample_cache_ops : list cache_op :=
  [OpInsert [[120]; [97]] HSK_DNS_A [1]; OpLookup [[121]; [122]; [65]] HSK_DNS_TXT; OpLookup [[97]] HSK_DNS_A;
   OpLookup [[121]; [97]] HSK_DNS_A; OpInsert [[97]] HSK_DNS_A [2]; OpLookup [[65]] HSK_DNS_A; OpLookup [[121]; [97]] HSK_DNS_A;
   OpLookup [[121]; [97]] HSK_DNS_A].
Definition sample_cache_results : list cache_result :=
  [RStored true; RFound (Some [1]); RFound None; RFound (Some [1]); RStored true; RFound (Some [2]); RFound None; RFound None].
Lemma sample_cache_ops_ok : Forall cache_op_ok sample_cache_ops.
Proof.
  assert (Hn : forall ls, bool_decide (Forall label_ok ls) = true -> Z.of_nat (length (body ls)) <= 255 -> name_ok ls).
  { intros ls H1 H2. by split; [by apply bool_decide_eq_true in H1|]. }
  repeat (apply Forall_cons; split); [..|constructor]; cbn [cache_op_ok]; repeat split;
    try (by apply Hn; vm_compute); try (by apply Forall_singleton); try done.
  all: intros; intros c; done.
Qed.
Lemma cache_refines_witness : exists c w' M,
  cache_run hsk_cache_init sample_cache_ops (mk_world 0 (mk_keys None None None)) = Ret ((sample_cache_results, c), w') /\ repr c M /\
  Z.of_nat (base.size M) <= HSK_CACHE_LIMIT /\
  cache_step c (OpLookup [[95; 48]; [97]] HSK_DNS_A) w' = Fault AssertFail.
Proof.
  destruct (cache_refines sample_cache_ops 0 (mk_keys None None None) sample_cache_ops_ok) as [Hr Hf].
  destruct (cache_ref ∅ sample_cache_ops 0) as [[rs M] n'] eqn:E. destruct Hr as (c & Er & Hrep & Hs).
  assert (Ers : rs = sample_cache_results).
  { assert (Ex : (let* (r, _) := cache_run hsk_cache_init sample_cache_ops (mk_world 0 (mk_keys None None None)) in Ret (fst r)) =
      Ret sample_cache_results) by (vm_compute; reflexivity).
    rewrite Er in Ex. cbn [obind fst] in Ex. congruence. }
  subst rs. exists c, (mk_world n' (mk_keys None None None)), M. split; [done|]. split; [done|]. split; [done|].
  apply Hf; [split; [apply (bool_decide_unpack _); vm_compute; exact I|by vm_compute]|done|by vm_compute|].
  exists 48. split; [done|]. eexists. vm_compute. reflexivity.
Defined.
