(* ===== verification/Hesiod.v ===== *)
(** The state of the program as DNS texts: [hesiod.c]. Queries of class HS for names under
    "hnsd." are answered with what the chain and the pool hold.

    What the answers read of the pool is a record; the text of the progress, a float, is
    part of it. *)

From Stdlib Require Import Ascii String.
From S2P Require Import Prelude Bio Hex Addr Header Map MapProps Chain DnsName DnsRecord DnsMsg Dnssec Host Resource Req.

Definition HSK_DNS_HS : Z := 4.

(** The characters of a literal. *)
Definition str (s : string) : list Z := List.map (fun c => Z.of_N (N_of_ascii c)) (list_ascii_of_string s).

(** What is told of a peer: [pool.h]. *)
Definition HSK_STATE_DISCONNECTED : Z := 0.
Definition HSK_STATE_CONNECTING : Z := 2.
Definition HSK_STATE_CONNECTED : Z := 3.
Definition HSK_STATE_READING : Z := 4.
Definition HSK_STATE_HANDSHAKE : Z := 5.
Definition HSK_STATE_DISCONNECTING : Z := 6.
Record peer_info := mk_peer_info {
  pi_host : list Z;
  pi_agent : list Z;
  pi_headers : Z;
  pi_proofs : Z;
  pi_state : Z;
}.
Record pool_info := mk_pool_info {
  in_tip : hsk_header_t;
  in_synced : bool;
  in_progress : list Z;
  in_size : Z;
  in_peers : list peer_info;
}.

(** "%llu" and "%d". *)
Definition show_u64 (n : Z) : list Z := decimal_loop 20 (u64 n) [].
Definition show_int (n : Z) : list Z := if n <? 0 then 45 :: decimal_loop 10 (- n) [] else decimal_loop 10 n [].
(** "%02x" of every byte. *)
Definition show_hash (data : list Z) : list Z :=
  concat (List.map (fun b => [to_char (Z.shiftr b 4); to_char (Z.land b 15)]) (take 32 data)).
Definition show_state (state : Z) : option (list Z) :=
  if state =? HSK_STATE_DISCONNECTED then Some (str "HSK_STATE_DISCONNECTED")
  else if state =? HSK_STATE_CONNECTING then Some (str "HSK_STATE_CONNECTING")
  else if state =? HSK_STATE_CONNECTED then Some (str "HSK_STATE_CONNECTED")
  else if state =? HSK_STATE_READING then Some (str "HSK_STATE_READING")
  else if state =? HSK_STATE_HANDSHAKE then Some (str "HSK_STATE_HANDSHAKE")
  else if state =? HSK_STATE_DISCONNECTING then Some (str "HSK_STATE_DISCONNECTING")
  else None.

Section Hesiod.
Context `{Host}.

(** [None] is [false]. The record is written to before it is compared with null; a text of
    more than 255 characters leaves its buffer. *)
Definition hsk_hesiod_txt_push (name text : list Z) (an : list hsk_dns_rr_t) : io (option (list hsk_dns_rr_t)) :=
  rr ← rr_create HSK_DNS_TXT;
  match rr with
  | None => io_fault NullDeref
  | Some rr =>
      rr ← set_name (mk_rr (rr_name rr) (rr_type rr) HSK_DNS_HS 0 (rr_rd rr)) name;
      ok ← malloc_ok;
      if ok : bool then
        if 255 <? Z.of_nat (length text) then io_fault Overread
        else mret (Some (push_item an (fill rr 0 (RTxt [text]))))
      else mret None
  end.
Definition hsk_hesiod_txt_push_u64 (name : list Z) (n : Z) (an : list hsk_dns_rr_t) : io (option (list hsk_dns_rr_t)) :=
  hsk_hesiod_txt_push name (show_u64 n) an.
Definition hsk_hesiod_txt_push_hash (name data : list Z) (an : list hsk_dns_rr_t) : io (option (list hsk_dns_rr_t)) :=
  hsk_hesiod_txt_push name (show_hash data) an.

(** Steps that may fail, one after the other. *)
Fixpoint pushes (ms : list (list hsk_dns_rr_t -> io (option (list hsk_dns_rr_t)))) (an : list hsk_dns_rr_t) :
    io (option (list hsk_dns_rr_t)) :=
  match ms with
  | [] => mret (Some an)
  | m :: ms' => r ← m an; match r with None => mret None | Some an => pushes ms' an end
  end.
Definition hsk_hesiod_txt_push_peer (peer : peer_info) (count : Z) (an : list hsk_dns_rr_t) :
    io (option (list hsk_dns_rr_t)) :=
  let sublabel := show_int count ++ str ".peers.pool.hnsd." in
  pushes ([hsk_hesiod_txt_push (str "host." ++ sublabel) (pi_host peer);
           hsk_hesiod_txt_push (str "agent." ++ sublabel) (pi_agent peer);
           hsk_hesiod_txt_push_u64 (str "headers." ++ sublabel) (pi_headers peer);
           hsk_hesiod_txt_push_u64 (str "proofs." ++ sublabel) (pi_proofs peer)] ++
          match show_state (pi_state peer) with
          | None => []
          | Some state => [hsk_hesiod_txt_push (str "state." ++ sublabel) state]
          end) an.
(** The walk along the list of peers; the counter has 16 bits. *)
Fixpoint peers_loop (peers : list peer_info) (count : Z) (an : list hsk_dns_rr_t) : io (option (list hsk_dns_rr_t)) :=
  match peers with
  | [] => mret (Some an)
  | peer :: peers' =>
      r ← hsk_hesiod_txt_push_peer peer count an;
      match r with None => mret None | Some an => peers_loop peers' (u16 (count + 1)) an end
  end.
(** A text is given when its name is the one of the request or under it. *)
Definition asked (name entry : list Z) (m : list hsk_dns_rr_t -> io (option (list hsk_dns_rr_t)))
    (an : list hsk_dns_rr_t) : io (option (list hsk_dns_rr_t)) :=
  b ← io_lift (hsk_dns_is_subdomain name entry);
  if b : bool then m an else mret (Some an).
Definition hsk_hesiod_resolve (req : hsk_dns_req_t) (pool : pool_info) : io (option hsk_dns_msg_t) :=
  msg ← hsk_dns_msg_alloc;
  match msg with
  | None => mret None
  | Some msg =>
      let msg := or_flags msg HSK_DNS_AA in
      let name := req_name req in
      let entry e m := asked name (str e) (m (str e)) in
      r ← pushes
        [entry "hash.tip.chain.hnsd."%string (fun n => hsk_hesiod_txt_push_hash n (hd_hash (in_tip pool)));
         entry "height.tip.chain.hnsd."%string (fun n => hsk_hesiod_txt_push_u64 n (hd_height (in_tip pool)));
         entry "name_root.tip.chain.hnsd."%string (fun n => hsk_hesiod_txt_push_hash n (hd_name_root (in_tip pool)));
         entry "time.tip.chain.hnsd."%string (fun n => hsk_hesiod_txt_push_u64 n (hd_time (in_tip pool)));
         entry "synced.chain.hnsd."%string
           (fun n => hsk_hesiod_txt_push n (str (if in_synced pool then "true" else "false")));
         entry "progress.chain.hnsd."%string (fun n => hsk_hesiod_txt_push n (in_progress pool));
         entry "size.pool.hnsd."%string (fun n => hsk_hesiod_txt_push n (show_int (in_size pool)));
         entry "peers.pool.hnsd."%string (fun _ => peers_loop (in_peers pool) 0)] (msg_an msg);
      mret (match r with Some an => Some (with_an msg an) | None => None end)
  end.
End Hesiod.
