(* ===== verification/HesiodProps.v ===== *)
(** The properties of the Hesiod answers: which texts a query is answered with. *)

From Stdlib Require Import String.
From S2P Require Import Prelude Bio Hex Addr Header Map MapProps Chain DnsName DnsNameProps DnsLabels DnsRecord DnsCodec DnsMsg DnsMsgSpec DnsSafe Sha256 Hkdf Dnssec DnssecProps Host HostProps Resource ResourceProps AnswerProps Req ReqProps Hesiod.

(** * The texts *)

(** The labels of a name, and its text. *)
Definition hesiod_entry : Type := list (list Z) * list Z.
Definition under_hnsd (ls : list string) : list (list Z) := List.map str ls ++ [str "hnsd"].
Definition peer_entries (count : Z) (p : peer_info) : list hesiod_entry :=
  let sub s := str s :: show_int count :: under_hnsd ["peers"%string; "pool"%string] in
  [(sub "host"%string, pi_host p); (sub "agent"%string, pi_agent p);
   (sub "headers"%string, show_u64 (pi_headers p)); (sub "proofs"%string, show_u64 (pi_proofs p))] ++
  match show_state (pi_state p) with Some state => [(sub "state"%string, state)] | None => [] end.
Fixpoint peers_entries (count : Z) (ps : list peer_info) : list hesiod_entry :=
  match ps with [] => [] | p :: ps' => peer_entries count p ++ peers_entries (u16 (count + 1)) ps' end.
Definition node_entries (info : pool_info) : list hesiod_entry :=
  [(under_hnsd ["hash"; "tip"; "chain"]%string, show_hash (hd_hash (in_tip info)));
   (under_hnsd ["height"; "tip"; "chain"]%string, show_u64 (hd_height (in_tip info)));
   (under_hnsd ["name_root"; "tip"; "chain"]%string, show_hash (hd_name_root (in_tip info)));
   (under_hnsd ["time"; "tip"; "chain"]%string, show_u64 (hd_time (in_tip info)));
   (under_hnsd ["synced"; "chain"]%string, str (if in_synced info then "true" else "false"));
   (under_hnsd ["progress"; "chain"]%string, in_progress info);
   (under_hnsd ["size"; "pool"]%string, show_int (in_size info))].
(** Those at the name that is asked for or under it. The peers are one group: they are all given, for
    a name at "peers.pool.hnsd." or above, or none. *)
Definition hesiod_entries (ls : list (list Z)) (info : pool_info) : list hesiod_entry :=
  filter (fun e => ls `suffix_of` e.1) (node_entries info) ++
  (if decide (ls `suffix_of` under_hnsd ["peers"; "pool"]%string) then peers_entries 0 (in_peers info) else []).
Definition entry_rr (e : hesiod_entry) : hsk_dns_rr_t := mk_rr (text e.1) HSK_DNS_TXT HSK_DNS_HS 0 (Some (RTxt [e.2])).
Definition hesiod_answer (ls : list (list Z)) (info : pool_info) : hsk_dns_msg_t :=
  with_an (or_flags hsk_dns_msg_init HSK_DNS_AA) (push_all [] (List.map entry_rr (hesiod_entries ls info))).

(** What the pool tells. *)
Definition peer_ok (p : peer_info) : Prop := blob 255 (pi_host p) /\ blob 255 (pi_agent p).
Definition info_ok (info : pool_info) : Prop :=
  blob 255 (in_progress info) /\ bytes (hd_hash (in_tip info)) /\ bytes (hd_name_root (in_tip info)) /\
  - 2 ^ 31 < in_size info < 2 ^ 31 /\ Forall peer_ok (in_peers info).

(** ** Numbers *)

Lemma decimal_loop_text fuel n acc : 0 <= n < 10 ^ Z.of_nat (S fuel) -> exists c ds, decimal_loop (S fuel) n acc = (c :: ds) ++ acc /\
  Forall is_digit (c :: ds) /\ (length (c :: ds) <= S fuel)%nat.
Proof.
  intros Hn. destruct (decimal_loop_spec (S fuel) n acc Hn ltac:(lia)) as (ds & E & Hd & _ & Hl).
  assert (Hlen : forall f n acc, (length acc < length (decimal_loop (S f) n acc))%nat).
  { clear. induction f as [|f IH]; intros n acc; cbn [decimal_loop].
    - destruct (_ =? 0); cbn; lia.
    - destruct (_ =? 0); [cbn; lia|]. specialize (IH (n / 10) (48 + n mod 10 :: acc)). cbn [decimal_loop length] in *. lia. }
  specialize (Hlen fuel n acc). rewrite E, length_app in Hlen. destruct ds as [|c ds]; [cbn in Hlen; lia|].
  exists c, ds. split; [done|]. split; [done|]. apply Hl; [lia|apply Hn].
Qed.
Lemma digit_char c : is_digit c -> char_ok c /\ hsk_dns_name_dirty [c] = false.
Proof.
  intros Hc. cbv beta in Hc. split; [unfold char_ok, dot; lia|].
  assert (H : forallb (fun c => negb (hsk_dns_name_dirty [c])) (List.map (fun n => 48 + Z.of_nat n) (seq 0 10)) = true) by (vm_compute; reflexivity).
  rewrite forallb_forall in H. specialize (H c). apply negb_true_iff, H. apply in_map_iff. exists (Z.to_nat (c - 48)).
  split; [lia|]. apply in_seq. lia.
Qed.
Lemma digits_blob ds (n : nat) : Forall is_digit ds -> (length ds <= n)%nat -> (n <= 255)%nat -> blob 255 ds.
Proof.
  intros Hd Hl Hn. split; [|lia]. eapply Forall_impl; [exact Hd|]. intros c Hc. cbv beta in *. lia.
Qed.
Lemma show_u64_blob n : blob 255 (show_u64 n).
Proof.
  unfold show_u64. assert (Hr := u64_range n). destruct (decimal_loop_text 19 (u64 n) []) as (c & ds & -> & Hd & Hl); [cbn; lia|].
  rewrite app_nil_r. eapply digits_blob; [done|exact Hl|lia].
Qed.
Lemma show_int_digits n : 0 <= n < 2 ^ 31 -> Forall is_digit (show_int n) /\ (1 <= length (show_int n) <= 10)%nat.
Proof.
  intros Hn. unfold show_int. destruct (Z.ltb_spec n 0); [lia|].
  destruct (decimal_loop_text 9 n []) as (c & ds & -> & Hd & Hl); [cbn; lia|]. rewrite app_nil_r. split; [done|]. cbn [length] in *. lia.
Qed.
Lemma show_int_blob n : - 2 ^ 31 < n < 2 ^ 31 -> blob 255 (show_int n).
Proof.
  intros Hn. destruct (Z.lt_ge_cases n 0) as [Hneg|Hpos].
  - destruct (show_int_digits (- n) ltac:(lia)) as [Hd Hl]. unfold show_int in *. destruct (Z.ltb_spec n 0); [|lia].
    destruct (Z.ltb_spec (- n) 0); [lia|]. destruct (digits_blob _ _ Hd (proj2 Hl) ltac:(lia)) as [Hb _].
    split; [by apply bytes_cons; [|done]|]. cbn [length]. lia.
  - destruct (show_int_digits n ltac:(lia)) as [Hd Hl]. by eapply digits_blob; [|apply Hl|lia].
Qed.
Lemma to_char_byte n : 0 <= n < 16 -> 0 <= to_char n < 256.
Proof.
  intros Hn. unfold to_char. destruct (Z.leb_spec 0 n); [|lia]. destruct (Z.leb_spec n 9); cbn [andb]; [lia|].
  destruct (Z.leb_spec 10 n); [|lia]. destruct (Z.leb_spec n 15); cbn [andb]; lia.
Qed.
Lemma hex_chars data : bytes data -> let out := concat (List.map (fun b => [to_char (Z.shiftr b 4); to_char (Z.land b 15)]) data) in
  bytes out /\ length out = (2 * length data)%nat.
Proof.
  induction 1 as [|b data Hb _ IH]; [by split; [constructor|]|]. cbn [List.map concat app length]. destruct IH as [IHb IHl].
  destruct (nibbles b Hb) as (H1 & H2 & _). split; [|cbn in *; lia].
  by apply bytes_cons; [apply to_char_byte|apply bytes_cons; [apply to_char_byte|]].
Qed.
Lemma show_hash_blob data : bytes data -> blob 255 (show_hash data).
Proof.
  intros Hb. destruct (hex_chars (take 32 data)) as [Hc Hl]; [auto with hsk|]. split; [done|]. unfold show_hash.
  rewrite Hl, length_take. lia.
Qed.

(** ** Names *)

Lemma dirty_app a b : hsk_dns_name_dirty (a ++ b) = hsk_dns_name_dirty a || hsk_dns_name_dirty b.
Proof.
  induction a as [|c a IH]; [done|]. cbn [app hsk_dns_name_dirty]. destruct (special c); [done|]. by destruct ((c <? 0x20) || (0x7e <? c)).
Qed.
Lemma digits_clean ds : Forall is_digit ds -> hsk_dns_name_dirty ds = false.
Proof.
  induction 1 as [|c ds Hc _ IH]; [done|]. change (c :: ds) with ([c] ++ ds). rewrite dirty_app, IH. by rewrite (proj2 (digit_char c Hc)).
Qed.
(** A name that is given to a record as it is. *)
Definition clean_name (ls : list (list Z)) : Prop := name_ok ls /\ hsk_dns_name_dirty (text ls) = false.
Lemma peer_name s count : label_ok (str s) -> hsk_dns_name_dirty (str s) = false -> 0 <= count < 2 ^ 16 ->
  clean_name (str s :: show_int count :: under_hnsd ["peers"; "pool"]%string).
Proof.
  intros Hl Hd Hc. destruct (show_int_digits count ltac:(lia)) as [Hdig Hlen].
  assert (Hi : label_ok (show_int count)).
  { split; [lia|]. eapply Forall_impl; [exact Hdig|]. intros c. apply digit_char. }
  split.
  - split; [apply Forall_cons; split; [done|]; apply Forall_cons; split; [done|]; apply (bool_decide_unpack _); vm_compute; exact I|].
    rewrite !body_cons. rewrite !length_app. cbn [length]. rewrite length_app. destruct Hl as [Hl _].
    change (length (dot :: body (under_hnsd ["peers"; "pool"]%string))) with 17%nat. lia.
  - unfold text. rewrite !body_cons, dirty_app, Hd. cbn [orb].
    change (hsk_dns_name_dirty (dot :: ?x)) with (hsk_dns_name_dirty x). rewrite dirty_app, digits_clean by done. by vm_compute.
Qed.
Lemma literal_name ls : bool_decide (Forall label_ok ls) = true -> Z.of_nat (length (body ls)) <= 255 ->
  hsk_dns_name_dirty (text ls) = false -> clean_name ls.
Proof. intros H1 H2 H3. split; [|done]. by split; [by apply bool_decide_eq_true in H1|]. Qed.
(** The test is that for suffixes: the names here are short. *)
Lemma suffix_spec ls (e : list (list Z)) : ls `suffix_of` e <-> (length ls <= length e)%nat /\ drop (length e - length ls) e = ls.
Proof.
  split.
  - intros [k ->]. rewrite length_app. split; [lia|]. by rewrite drop_app_length' by lia.
  - intros [_ E]. exists (take (length e - length ls) e). rewrite <-E at 2. by rewrite take_drop.
Qed.
Lemma subdomain_suffix ls e : name_ok ls -> name_ok e -> Z.of_nat (length (body e)) < 255 ->
  hsk_dns_is_subdomain (text ls) (text e) = Ret (bool_decide (ls `suffix_of` e)).
Proof.
  intros Hls He Hlen. rewrite is_subdomain_spec by done. rewrite decide_False.
  - f_equal. apply bool_decide_ext. symmetry. apply suffix_spec.
  - intros (Hne & Hle & E). rewrite (body_split e (length e - length ls)), length_app in Hlen.
    rewrite text_body in E; [lia|]. intros E0. rewrite E0 in E. cbn in E. lia.
Qed.

(** * The routines *)

Definition entry_ok (e : hesiod_entry) : Prop := clean_name e.1 /\ blob 255 e.2.

Section Routines.
Context `{Host}.

(** The texts are added in order. For each, question [n] to the host is the memory for its record, which is written
    to before it is compared with null, and the next one that for the text. *)
Fixpoint texts (es : list hesiod_entry) (an : list hsk_dns_rr_t) (n : nat) : outcome (option (list hsk_dns_rr_t) * nat) :=
  match es with
  | [] => Ret (Some an, n)
  | e :: es =>
      if negb (host_al n 0%nat 0%nat && host_al n 0%nat 1%nat) then Fault NullDeref
      else if negb (host_al (S n) 0%nat 0%nat) then Ret (None, S (S n))
      else texts es (push_item an (entry_rr e)) (S (S n))
  end.
Lemma texts_app es es' : forall an n, texts (es ++ es') an n =
  let* (r, n) := texts es an n in match r with None => Ret (None, n) | Some an => texts es' an n end.
Proof.
  induction es as [|e es IH]; intros an n; [done|]. cbn [app texts]. destruct (negb (_ && _)); [done|]. destruct (negb _); [done|]. apply IH.
Qed.
(** With memory all are added. *)
Lemma texts_all es : (forall n i k, host_al n i k = true) -> forall an n,
  texts es an n = Ret (Some (push_all an (List.map entry_rr es)), (n + 2 * length es)%nat).
Proof.
  intros Hal. induction es as [|e es IH]; intros an n; cbn [texts]; [by rewrite Nat.add_0_r|]. rewrite !Hal. cbn [andb negb]. rewrite IH.
  cbn [length]. do 2 f_equal. lia.
Qed.

(** Steps that each add their texts. *)
Definition adds (m : list hsk_dns_rr_t -> io (option (list hsk_dns_rr_t))) (es : list hesiod_entry) : Prop := forall an n keys,
  m an (mk_world n keys) = let* (r, n) := texts es an n in Ret (r, mk_world n keys).
Lemma adds_ret : adds (fun an => mret (Some an)) [].
Proof. done. Qed.
Lemma adds_bind m1 m2 es1 es2 : adds m1 es1 -> adds m2 es2 ->
  adds (fun an => r ← m1 an; match r with None => mret None | Some an => m2 an end) (es1 ++ es2).
Proof.
  intros H1 H2 an n keys. unfold mbind, io_bind. rewrite H1, texts_app. destruct (texts es1 an n) as [[[an1|] n1]| |]; [|done..].
  cbn [obind]. apply H2.
Qed.
Lemma adds_push e : entry_ok e -> adds (hsk_hesiod_txt_push (text e.1) e.2) [e].
Proof.
  intros [[Hok Hd] [_ Hl]] an n keys. unfold hsk_hesiod_txt_push, rr_create, hsk_dns_rr_create, hsk_dns_rd_alloc. cbn [texts].
  unfold mbind, io_bind, ask. cbn [obind w_next w_keys]. unfold mret, io_ret. cbn [obind].
  destruct (host_al n 0%nat 0%nat); [|done]. cbn [andb negb]. destruct (host_al n 0%nat 1%nat); [|done]. cbn [negb].
  unfold set_name, mbind, io_bind, io_lift. rewrite set_name_eq by by exists e.1. rewrite Hd. cbn [obind]. unfold mret, io_ret. cbn [obind].
  unfold malloc_ok, mbind, io_bind, ask. cbn [obind w_next w_keys]. unfold mret, io_ret. cbn [obind]. cbn [obind].
  destruct (host_al (S n) 0%nat 0%nat); [|done]. cbn [negb]. by destruct (Z.ltb_spec 255 (Z.of_nat (length e.2))); [lia|].
Qed.
Lemma adds_pushes ms ess : Forall2 adds ms ess -> adds (pushes ms) (concat ess).
Proof.
  induction 1 as [|m es ms ess Hm _ IH]; [apply adds_ret|]. exact (adds_bind m (pushes ms) es (concat ess) Hm IH).
Qed.
Lemma peer_entries_ok count p : 0 <= count < 2 ^ 16 -> peer_ok p -> Forall entry_ok (peer_entries count p).
Proof.
  intros Hc [Hh Ha]. unfold peer_entries. apply Forall_app. split.
  - repeat (apply Forall_cons; split); [split|split|split|split|constructor]; cbn [fst snd]; auto using show_u64_blob;
      apply peer_name; try done; apply (bool_decide_unpack _); vm_compute; exact I.
  - unfold show_state.
    repeat (destruct (pi_state p =? _); [apply Forall_singleton; split; [apply peer_name; try done; apply (bool_decide_unpack _); vm_compute; exact I|
      split; [apply (bool_decide_unpack _); vm_compute; exact I|by vm_compute]]|]). constructor.
Qed.
Definition pushed (e : hesiod_entry) : list hsk_dns_rr_t -> io (option (list hsk_dns_rr_t)) := hsk_hesiod_txt_push (text e.1) e.2.
Lemma adds_all es : Forall entry_ok es -> adds (pushes (List.map pushed es)) es.
Proof.
  intros Hes. assert (Hcat : concat (List.map (fun e => [e]) es) = es) by (induction es as [|e r IH]; [done|]; inversion Hes; cbn; by rewrite IH).
  rewrite <-Hcat at 2. apply adds_pushes. induction Hes as [|e r He _ IH]; constructor; [by apply adds_push|].
  apply IH. by injection Hcat.
Qed.
Lemma adds_peer count p : 0 <= count < 2 ^ 16 -> peer_ok p ->
  adds (hsk_hesiod_txt_push_peer p count) (peer_entries count p).
Proof.
  intros Hc Hp an n keys. assert (He := adds_all _ (peer_entries_ok count p Hc Hp) an n keys).
  assert (E : hsk_hesiod_txt_push_peer p count an = pushes (List.map pushed (peer_entries count p)) an); [|by rewrite E].
  unfold hsk_hesiod_txt_push_peer, peer_entries. cbv zeta. rewrite List.map_app. unfold pushed, text.
  destruct (show_state (pi_state p)) as [state|]; cbn [List.map fst snd app]; rewrite !body_cons; reflexivity.
Qed.
Lemma adds_peers ps : Forall peer_ok ps -> forall count, 0 <= count < 2 ^ 16 -> adds (peers_loop ps count) (peers_entries count ps).
Proof.
  induction 1 as [|p ps Hp _ IH]; intros count Hc; [apply adds_ret|].
  apply (adds_bind (hsk_hesiod_txt_push_peer p count) (peers_loop ps (u16 (count + 1)))); [by apply adds_peer|]. apply IH, u16_range.
Qed.
(** A group of texts with one test. *)
Lemma adds_asked ls e m es : name_ok ls -> clean_name e -> Z.of_nat (length (body e)) < 255 -> adds m es ->
  adds (asked (text ls) (text e) m) (if decide (ls `suffix_of` e) then es else []).
Proof.
  intros Hls He Hlen Hm an n keys. unfold asked, mbind, io_bind, io_lift. rewrite subdomain_suffix by (done || apply He). cbn [obind].
  destruct (decide (ls `suffix_of` e)) as [Hs|Hs].
  - rewrite bool_decide_eq_true_2 by done. apply Hm.
  - by rewrite bool_decide_eq_false_2 by done.
Qed.
Lemma node_entries_ok info : info_ok info -> Forall entry_ok (node_entries info).
Proof.
  intros (Hp & Hh & Hr & Hs & _). unfold node_entries.
  repeat (apply Forall_cons; split); [split|split|split|split|split|split|split|constructor]; cbn [fst snd];
    auto using show_u64_blob, show_hash_blob, show_int_blob; try by apply literal_name; vm_compute.
  destruct (in_synced info); (split; [apply (bool_decide_unpack _); vm_compute; exact I|by vm_compute]).
Qed.
Lemma adds_node ls e : name_ok ls -> entry_ok e -> Z.of_nat (length (body e.1)) < 255 ->
  adds (asked (text ls) (text e.1) (pushed e)) (if decide (ls `suffix_of` e.1) then [e] else []).
Proof. intros Hls He Hl. apply adds_asked; [done|apply He|done|by apply adds_push]. Qed.
Lemma concat_filter (P : hesiod_entry -> Prop) `{forall e, Decision (P e)} es :
  concat (List.map (fun e => if decide (P e) then [e] else []) es) = filter P es.
Proof.
  induction es as [|e es IH]; [done|]. cbn [List.map concat]. rewrite filter_cons, IH. by destruct (decide (P e)).
Qed.
(** The texts as the routine adds them. *)
Definition node_steps (ls : list (list Z)) (info : pool_info) : list (list hsk_dns_rr_t -> io (option (list hsk_dns_rr_t))) :=
  List.map (fun e => asked (text ls) (text e.1) (pushed e)) (node_entries info) ++
  [asked (text ls) (str "peers.pool.hnsd.") (peers_loop (in_peers info) 0)].
Lemma node_short info : Forall (fun e : hesiod_entry => Z.of_nat (length (body e.1)) < 255) (node_entries info).
Proof. unfold node_entries. repeat (apply Forall_cons; split); [by vm_compute..|constructor]. Qed.
Lemma adds_nodes ls es : name_ok ls -> Forall entry_ok es -> Forall (fun e : hesiod_entry => Z.of_nat (length (body e.1)) < 255) es ->
  Forall2 adds (List.map (fun e => asked (text ls) (text e.1) (pushed e)) es)
    (List.map (fun e : hesiod_entry => if decide (ls `suffix_of` e.1) then [e] else []) es).
Proof.
  intros Hls He. induction He as [|e es He _ IH]; intros Hs; [constructor|]. apply Forall_cons in Hs as [Hs Hss].
  constructor; [by apply adds_node|by apply IH].
Qed.
Lemma adds_steps ls info : name_ok ls -> info_ok info -> adds (pushes (node_steps ls info)) (hesiod_entries ls info).
Proof.
  intros Hls Hi. unfold hesiod_entries. rewrite <-(concat_filter (fun e => ls `suffix_of` e.1)).
  match goal with |- adds _ (concat ?a ++ ?b) => set (es := a); set (ps := b) end.
  assert (E : concat es ++ ps = concat (es ++ [ps])) by (rewrite concat_app; cbn [concat]; by rewrite app_nil_r). rewrite E.
  apply adds_pushes. unfold node_steps. apply Forall2_app; [|apply Forall2_cons; split; [|constructor]].
  - by apply adds_nodes; [|apply node_entries_ok|apply node_short].
  - change (str "peers.pool.hnsd.") with (text (under_hnsd ["peers"; "pool"]%string)). apply adds_asked; [done| |by vm_compute|].
    + by apply literal_name; vm_compute.
    + apply adds_peers; [apply Hi|lia].
Qed.
Lemma resolve_spec req ls info n keys : req_ok req ls -> info_ok info ->
  hsk_hesiod_resolve req info (mk_world n keys) =
  if negb (host_al n 0%nat 0%nat) then Ret (None, mk_world (S n) keys)
  else let* (r, n') := texts (hesiod_entries ls info) [] (S n) in Ret (with_an (or_flags hsk_dns_msg_init HSK_DNS_AA) <$> r, mk_world n' keys).
Proof.
  intros Hr Hi. assert (Hs := adds_steps ls info (ro_ls _ _ Hr) Hi [] (S n) keys).
  unfold hsk_hesiod_resolve, hsk_dns_msg_alloc, malloc_ok, mbind, io_bind, ask. cbn [obind w_next w_keys]. unfold mret, io_ret. cbn [obind]. cbn [obind].
  destruct (host_al n 0%nat 0%nat); [|done]. cbn [negb obind]. cbv zeta.
  match goal with |- context [pushes ?ms _ _] => change ms with
    (List.map (fun e => asked (req_name req) (text e.1) (pushed e)) (node_entries info) ++
     [asked (req_name req) (str "peers.pool.hnsd.") (peers_loop (in_peers info) 0)]) end.
  unfold node_steps in Hs. rewrite (ro_name _ _ Hr). change (msg_an (or_flags hsk_dns_msg_init HSK_DNS_AA)) with (@nil hsk_dns_rr_t). rewrite Hs.
  by destruct (texts _ _ _) as [[[an|] n']| |].
Qed.

(** The answer is a message with at most 255 texts. *)
Lemma peers_entries_ok ps : forall count, 0 <= count < 2 ^ 16 -> Forall peer_ok ps -> Forall entry_ok (peers_entries count ps).
Proof.
  induction ps as [|p ps IH]; intros count Hc Hp; [constructor|]. apply Forall_cons in Hp as [Hp Hps]. cbn [peers_entries].
  apply Forall_app. split; [by apply peer_entries_ok|]. apply IH; [apply u16_range|done].
Qed.
Lemma hesiod_entries_ok ls info : info_ok info -> Forall entry_ok (hesiod_entries ls info).
Proof.
  intros Hi. apply Forall_app. split.
  - apply Forall_forall. intros e [_ He]%list_elem_of_filter. assert (H1 := node_entries_ok info Hi). by eapply Forall_forall in H1.
  - destruct (decide _); [|constructor]. apply peers_entries_ok; [lia|apply Hi].
Qed.
Lemma entry_rr_wf e : entry_ok e -> rr_wf false (entry_rr e).
Proof.
  intros [[Hok _] Hb]. apply txt_rr_wf; [by exists e.1|done|done|by apply Forall_singleton|cbn; lia].
Qed.
Lemma hesiod_answer_fresh ls info : info_ok info -> fresh HSK_DNS_NOERROR (hesiod_answer ls info).
Proof.
  intros Hi. apply fresh_of; [|done|done|done]. split_and!; try apply Forall_nil_2; [|apply Nat.le_0_l].
  apply Forall_push_all; [constructor|]. apply Forall_map. eapply Forall_impl; [by apply hesiod_entries_ok|].
  intros e He. by apply rr_wf_type_ok, entry_rr_wf.
Qed.

(** * Properties *)

End Routines.

(** What the server uses of it. *)
Lemma runs_hesiod `{HostOk} req ls info (Q : option hsk_dns_msg_t -> Prop) : req_ok req ls -> info_ok info ->
  Q (Some (hesiod_answer ls info)) -> runs (hsk_hesiod_resolve req info) Q.
Proof.
  intros Hr Hi HQ [n keys] Hw. rewrite (resolve_spec req ls) by done. rewrite al_true. cbn [negb]. rewrite texts_all by apply al_true.
  eexists _, _. split; [reflexivity|]. by split.
Qed.

(** * Witness *)

#[local] Existing Instance sample_host.
#[local] Existing Instance sample_host_ok.
(** One peer that is connected. *)
Definition sample_info : pool_info :=
  mk_pool_info hsk_header_init true (str "1.000000") 1 [mk_peer_info (str "10.0.0.2:12038") (str "/hsd:3.0.1/") 7 3 HSK_STATE_CONNECTED].
Lemma sample_info_ok : info_ok sample_info.
Proof.
  assert (Hb : forall l, bool_decide (bytes l /\ Z.of_nat (length l) <= 255) = true -> blob 255 l) by (intros l Hl; by apply bool_decide_eq_true in Hl).
  split; [apply Hb; vm_compute; reflexivity|]. split; [by apply bytes_replicate|]. split; [by apply bytes_replicate|].
  split; [cbn; lia|]. apply Forall_singleton. split; apply Hb; vm_compute; reflexivity.
Qed.
(** The peers, of "pool.hnsd.": the size and the five texts of the peer. *)
Definition sample_hesiod : hsk_dns_req_t :=
  mk_req 9 2 (text (under_hnsd ["pool"%string])) HSK_DNS_TXT HSK_DNS_HS false false false false 512 false (str "hnsd") sample_addr.
(** A host without memory from the fourth question on: the second text has a record but no memory for itself. *)
Definition poor_host (k : nat) : Host := {|
  host_endian := Little; host_garbage := replicate 64 7; host_addr := fun _ => 0; host_al := fun n _ _ => (n <? k)%nat;
  host_mem := fun _ _ => true; host_clock := fun _ _ => 0; host_ecc_make_pubkey := fun _ => None; host_ecc_sign := fun _ _ => None;
  host_ec_create_pubkey := fun _ => None; host_ec_sign_msg := fun _ _ => None; host_ec_verify_msg := fun _ _ _ => false;
  host_inet_ntop := fun _ _ _ => None; host_udp_send := fun _ => 0 |}.
