(* ===== verification/Ns.v ===== *)
(** The authoritative name server for the root zone: [ns.c].

    A datagram is answered from the cache, from the state of the program, from the name
    itself, or handed to the pool, which calls back with a proved resource. The pool is an
    interface. What is sent is a list of datagrams in the state, the last one first. *)

From Stdlib Require Import String.
From S2P Require Import Prelude Bio Addr Map MapProps DnsName DnsRecord DnsMsg Dnssec Host Resource Sig0 Req Cache Hesiod.

Definition HSK_UDP_BUFFER : Z := 4096.
(** On the main network. *)
Definition HSK_NS_PORT : Z := 5349.

(** What the server uses of the pool: a request for the proof of a name, with what is called
    when it is there (here the request), and what Hesiod answers tell. *)
Class Pool (P : Type) := {
  pool_resolve : P -> list Z -> hsk_dns_req_t -> io (Z * P);
  pool_status : P -> pool_info;
}.

Record hsk_ns_t (P : Type) := mk_ns {
  ns_pool : P;
  ns_ip : option hsk_addr_t;
  ns_cache : hsk_cache_t;
  ns_key : option (list Z);
  ns_socket : bool;
  ns_receiving : bool;
  ns_sent : list (list Z * sockaddr);
}.
Arguments mk_ns {P}.
Arguments ns_pool {P}.
Arguments ns_ip {P}.
Arguments ns_cache {P}.
Arguments ns_key {P}.
Arguments ns_socket {P}.
Arguments ns_receiving {P}.
Arguments ns_sent {P}.

(** A RRSIG NSEC, and AAAA RRSIG NSEC *)
Definition hsk_type_map_a : list Z := [0x00; 0x06; 0x40; 0x00; 0x00; 0x00; 0x00; 0x03].
Definition hsk_type_map_aaaa : list Z := [0x00; 0x06; 0x00; 0x00; 0x00; 0x80; 0x00; 0x03].

(** * Top-level names of ICANN

    [tlds] is the table of [tld.h]: the names, and for each the length of its resource in
    two bytes and the resource. *)

(** The sign of [strcasecmp]. *)
Fixpoint strcasecmp (a b : list Z) : Z :=
  match a, b with
  | [], [] => 0
  | [], _ :: _ => -1
  | _ :: _, [] => 1
  | x :: a', y :: b' =>
      if to_lower8 x <? to_lower8 y then -1 else if to_lower8 y <? to_lower8 x then 1 else strcasecmp a' b'
  end.
Section Tlds.
Context (tlds : list (list Z * list Z)).
Fixpoint index_loop (fuel : nat) (name : list Z) (start end_ : Z) : outcome Z :=
  match fuel with
  | O => Fault Hang
  | S fuel' =>
      if start <=? end_ then
        let pos := Z.shiftr (start + end_) 1 in
        let* item := of_option Overread (if pos <? 0 then None else tlds !! Z.to_nat pos) in
        let cmp := strcasecmp (fst item) name in
        if cmp =? 0 then Ret pos
        else if cmp <? 0 then index_loop fuel' name (pos + 1) end_
        else index_loop fuel' name start (pos - 1)
      else Ret (-1)
  end.
Definition hsk_tld_index (name : list Z) : outcome Z :=
  index_loop (S (length tlds)) name 0 (Z.of_nat (length tlds) - 1).
Definition hsk_icann_lookup (name : list Z) : outcome (option (list Z)) :=
  let* index := hsk_tld_index name in
  if index =? -1 then Ret None
  else let* item := of_option Overread (tlds !! Z.to_nat index) in Ret (Some (snd item)).
(** The resource that an item holds. *)
Definition item_resource (item : list Z) : outcome (list Z) :=
  let raw_len := Z.lor (Z.shiftl item.[1] 8) item.[0] in
  if Z.of_nat (length item) <? 2 + raw_len then Fault Overread else Ret (take (Z.to_nat raw_len) (drop 2 item)).
End Tlds.

Section Ns.
Context `{Host} {P : Type} `{Pool P} (tlds : list (list Z * list Z)).
Implicit Types ns : hsk_ns_t P.

Definition with_pool ns (p : P) : hsk_ns_t P := mk_ns p (ns_ip ns) (ns_cache ns) (ns_key ns) (ns_socket ns) (ns_receiving ns) (ns_sent ns).
Definition with_cache ns (c : hsk_cache_t) : hsk_ns_t P :=
  mk_ns (ns_pool ns) (ns_ip ns) c (ns_key ns) (ns_socket ns) (ns_receiving ns) (ns_sent ns).
Definition with_ip ns (ip : option hsk_addr_t) : hsk_ns_t P :=
  mk_ns (ns_pool ns) ip (ns_cache ns) (ns_key ns) (ns_socket ns) (ns_receiving ns) (ns_sent ns).
Definition with_key ns (key : option (list Z)) : hsk_ns_t P :=
  mk_ns (ns_pool ns) (ns_ip ns) (ns_cache ns) key (ns_socket ns) (ns_receiving ns) (ns_sent ns).

(** * Set-up *)

Definition hsk_ns_init (pool : P) : hsk_ns_t P := mk_ns pool None hsk_cache_init None false false [].
(** [ns->ip] points into the struct, which is cleared first. *)
Definition hsk_ns_set_ip ns (addr : option sockaddr) : bool * hsk_ns_t P :=
  match addr with
  | None => (true, with_ip ns None)
  | Some addr =>
      match hsk_addr_from_sa addr with
      | None => (false, with_ip ns (match ns_ip ns with Some _ => Some hsk_addr_init | None => None end))
      | Some ip => match hsk_addr_localize ip with
                   | None => (false, ns)
                   | Some ip => (true, with_ip ns (Some ip))
                   end
      end
  end.
Definition hsk_ns_set_key ns (key : option (list Z)) : bool * hsk_ns_t P :=
  match key with
  | None => (true, with_key ns None)
  | Some key =>
      match host_ec_create_pubkey key with
      | None => (false, ns)
      | Some _ => (true, with_key ns (Some (take 32 key)))
      end
  end.

Definition with_socket ns (socket receiving : bool) : hsk_ns_t P :=
  mk_ns (ns_pool ns) (ns_ip ns) (ns_cache ns) (ns_key ns) socket receiving (ns_sent ns).
(** [status i] is what the [i]-th of the five calls of libuv returns. *)
Definition hsk_ns_open ns (addr : option sockaddr) (malloc_ok : bool) (status : nat -> Z) : outcome (Z * hsk_ns_t P) :=
  match addr with
  | None => Ret (HSK_EBADARGS, ns)
  | Some addr =>
      if negb malloc_ok then Ret (HSK_ENOMEM, with_socket ns false (ns_receiving ns))
      else
        let ns := with_socket ns true (ns_receiving ns) in
        if negb (forallb (fun i => status i =? 0) (seq 0 5)) then Ret (HSK_EFAILURE, ns)
        else
          let ns := with_socket ns true true in
          let ns := match ns_ip ns with None => snd (hsk_ns_set_ip ns (Some addr)) | Some _ => ns end in
          match hsk_sa_to_string host_inet_ntop addr HSK_MAX_HOST HSK_NS_PORT with
          | Ret _ => Ret (HSK_SUCCESS, ns)
          | Fail => Fault AssertFail
          | Fault f => Fault f
          end
  end.
Definition hsk_ns_close ns (stop_status : Z) : Z * hsk_ns_t P :=
  if ns_receiving ns && negb (stop_status =? 0) then (HSK_EFAILURE, ns)
  else (HSK_SUCCESS, with_socket ns false false).

(** * Sending *)

Definition hsk_ns_send ns (data : list Z) (addr : sockaddr) : io (Z * hsk_ns_t P) :=
  if negb (ns_socket ns) then mret (HSK_EFAILURE, ns)
  else
    n ← ask;
    if negb (host_al n 0%nat 0%nat) then mret (HSK_ENOMEM, ns)
    else if negb (host_al n 0%nat 1%nat) then mret (HSK_ENOMEM, ns)
    else if negb (host_udp_send n =? 0) then mret (HSK_EFAILURE, ns)
    else mret (HSK_SUCCESS, mk_ns (ns_pool ns) (ns_ip ns) (ns_cache ns) (ns_key ns) (ns_socket ns) (ns_receiving ns)
           ((data, addr) :: ns_sent ns)).
(** The answer is finished and sent; [None] when it cannot be finished. *)
Definition finish ns (req : hsk_dns_req_t) (msg : hsk_dns_msg_t) (addr : sockaddr) : io (option (hsk_ns_t P)) :=
  wire ← hsk_dns_msg_finalize msg req (ns_key ns);
  match wire with
  | None => mret None
  | Some wire => r ← hsk_ns_send ns wire addr; mret (Some (snd r))
  end.
(** The label [fail]: [msg] is whether [msg] still points to a message. *)
Definition ns_fail ns (req : hsk_dns_req_t) (addr : sockaddr) (msg : bool) : io (hsk_ns_t P) :=
  _ ← io_assert (negb msg);
  msg ← hsk_resource_to_servfail;
  match msg with
  | None => mret ns
  | Some msg => r ← finish ns req msg addr; mret (default ns r)
  end.
Definition finish_or_fail ns (req : hsk_dns_req_t) (msg : hsk_dns_msg_t) (addr : sockaddr) : io (hsk_ns_t P) :=
  r ← finish ns req msg addr;
  match r with None => ns_fail ns req addr false | Some ns => mret ns end.

(** * Queries *)

(** What proves that a name has only the types of [type_map]. *)
Definition empty_proof (name : list Z) (type_map : option (list Z)) (rrns : list hsk_dns_rr_t) : io (list hsk_dns_rr_t) :=
  rrns ← and_sign (hsk_resource_to_empty name type_map) HSK_DNS_NSEC rrns;
  and_sign hsk_resource_root_to_soa HSK_DNS_SOA rrns.
Definition family_match (type family : Z) : bool :=
  if type =? HSK_DNS_ANY then true
  else if type =? HSK_DNS_A then family =? HSK_DNS_A
  else if type =? HSK_DNS_AAAA then family =? HSK_DNS_AAAA
  else false.
(** The answer for a name with two labels under "_synth."; [None] when memory ran out, with
    the message released but not forgotten. [synth] has room for 63 characters. *)
Definition synth_answer (req : hsk_dns_req_t) (msg : hsk_dns_msg_t) : io (option hsk_dns_msg_t) :=
  synth ← io_lift (hsk_dns_label_from (req_name req) (-2));
  if HSK_DNS_MAX_LABEL <? Z.of_nat (length synth) then io_fault Overread
  else
    r ← io_lift (pointer_to_ip true synth);
    match r with
    | None => mret (Some msg)
    | Some (ip, family) =>
        if negb (family_match (req_type req) family) then
          rrns ← empty_proof (req_name req)
            (Some (if family =? HSK_DNS_A then hsk_type_map_a else hsk_type_map_aaaa)) (msg_ns msg);
          mret (Some (with_ns msg rrns))
        else
          let msg := or_flags msg HSK_DNS_AA in
          rr ← rr_create family;
          match rr with
          | None => mret None
          | Some rr =>
              rr ← set_name rr (req_name req);
              let an := push_item (msg_an msg) (fill rr HSK_DEFAULT_TTL (if family =? HSK_DNS_A then RA ip else RAaaa ip)) in
              ar ← sign_zsk (msg_ar msg) family;
              mret (Some (with_ar (with_an msg an) ar))
          end
    end.
Definition ns_synth ns (req : hsk_dns_req_t) (addr : sockaddr) : io (hsk_ns_t P) :=
  msg ← hsk_dns_msg_alloc;
  match msg with
  | None => ns_fail ns req addr false
  | Some msg =>
      if req_labels req =? 1 then
        rrns ← empty_proof (req_tld req) None (msg_ns msg);
        finish_or_fail ns req (with_ns msg rrns) addr
      else
        msg ← synth_answer req msg;
        match msg with
        | None => ns_fail ns req addr true
        | Some msg => finish_or_fail ns req msg addr
        end
  end.
Definition blacklist : list (list Z) :=
  List.map str ["bit"; "eth"; "exit"; "gnu"; "i2p"; "onion"; "tor"; "zkey"]%string.
(** The answers that are kept in the cache. *)
Definition ns_reply ns (req : hsk_dns_req_t) (addr : sockaddr) (msg : option hsk_dns_msg_t) : io (hsk_ns_t P) :=
  match msg with
  | None => ns_fail ns req addr false
  | Some msg =>
      r ← hsk_cache_insert (ns_cache ns) req msg;
      finish_or_fail (with_cache ns (snd r)) req msg addr
  end.
Definition ns_lookup ns (req : hsk_dns_req_t) (addr : sockaddr) : io (hsk_ns_t P) :=
  if 0 <? req_labels req then
    if bool_decide (req_tld req ∈ blacklist) then
      msg ← hsk_resource_to_nx; ns_reply ns req addr msg
    else
      r ← pool_resolve (ns_pool ns) (req_tld req) req;
      let ns := with_pool ns (snd r) in
      if negb (fst r =? HSK_SUCCESS) then ns_fail ns req addr false else mret ns
  else
    msg ← hsk_resource_root (req_type req) (ns_ip ns); ns_reply ns req addr msg.
Definition ns_hesiod ns (req : hsk_dns_req_t) (addr : sockaddr) : io (hsk_ns_t P) :=
  let address := default hsk_addr_init (hsk_addr_from_sa (req_addr req)) in
  if negb (hsk_addr_is_local address) then mret ns
  else
    msg ← hsk_hesiod_resolve req (pool_status (ns_pool ns));
    match msg with
    | None => ns_fail ns req addr false
    | Some msg => finish_or_fail ns req msg addr
    end.
(** [hsk_dns_req_print] needs an address that can be printed. *)
Definition req_print (req : hsk_dns_req_t) : io unit :=
  match hsk_sa_to_string host_inet_ntop (req_addr req) HSK_MAX_HOST 1 with
  | Ret _ => mret tt
  | Fail => io_fault AssertFail
  | Fault f => io_fault f
  end.
Definition hsk_ns_onrecv ns (data : list Z) (addr : sockaddr) : io (hsk_ns_t P) :=
  req ← hsk_dns_req_create data addr;
  match req with
  | None => mret ns
  | Some req =>
      _ ← req_print req;
      r ← hsk_cache_get (ns_cache ns) req;
      let ns := with_cache ns (snd r) in
      match fst r with
      | Some msg => finish_or_fail ns req msg addr
      | None =>
          if (req_class req =? HSK_DNS_HS) && (req_type req =? HSK_DNS_TXT) then ns_hesiod ns req addr
          else if bool_decide (req_tld req = str "_synth") && (req_labels req <=? 2) then ns_synth ns req addr
          else ns_lookup ns req addr
      end
  end.

(** [after_recv], with the buffer of the socket. [None] is a null address. *)
Definition after_recv ns (nread : Z) (buf : list Z) (addr : option sockaddr) : io (hsk_ns_t P) :=
  if nread <? 0 then mret ns
  else
    match addr with
    | None => mret ns
    | Some addr => hsk_ns_onrecv ns (take (Z.to_nat nread) buf) addr
    end.

(** * The call back *)

Definition hsk_ns_respond ns (req : hsk_dns_req_t) (status : Z) (res : option hsk_resource_t) : io (hsk_ns_t P) :=
  msg ← (if negb (status =? HSK_SUCCESS) then mret None
         else match res with
              | None => hsk_resource_to_nx
              | Some res => hsk_resource_to_dns res (req_name req) (req_type req)
              end);
  r ← match msg with
      | None => mret (ns, None)
      | Some msg =>
          r ← hsk_cache_insert (ns_cache ns) req msg;
          let ns := with_cache ns (snd r) in
          wire ← hsk_dns_msg_finalize msg req (ns_key ns);
          mret (ns, wire)
      end;
  let '(ns, wire) := (r : hsk_ns_t P * option (list Z)) in
  match wire with
  | Some wire => r ← hsk_ns_send ns wire (req_addr req); mret (snd r)
  | None =>
      msg ← hsk_resource_to_servfail;
      match msg with
      | None => mret ns
      | Some msg => r ← finish ns req msg (req_addr req); mret (default ns r)
      end
  end.
(** The resource that is decoded, or a failure. *)
Definition resolve_data (data : list Z) : io (Z * option hsk_resource_t) :=
  n ← ask;
  res ← io_try (hsk_resource_decode (host_al n 0%nat 0%nat) (fun i => host_al n (S i)) data);
  match res with
  | None => mret (HSK_EFAILURE, None)
  | Some res => mret (HSK_SUCCESS, Some res)
  end.
Definition after_resolve ns (name : list Z) (status : Z) (exists_ : bool) (data : list Z) (req : hsk_dns_req_t) :
    io (hsk_ns_t P) :=
  r ← (if negb (status =? HSK_SUCCESS) then mret (status, None)
       else if negb exists_ || (length data =? 0)%nat then
         item ← io_lift (hsk_icann_lookup tlds name);
         match item with
         | None => mret (status, None)
         | Some item => raw ← io_lift (item_resource item); resolve_data raw
         end
       else resolve_data data);
  hsk_ns_respond ns req (fst r) (snd r).
End Ns.
