(* ===== verification/TldProps.v ===== *)
(** The properties of the table of top-level names: the binary search finds the names that are
    there. *)

From S2P Require Import Prelude Bio Addr Map MapProps DnsName DnsRecord DnsMsg Dnssec Host Resource Sig0 Req Cache Hesiod Ns.

(** * The order of names *)

Lemma strcasecmp_sign a b : strcasecmp a b = -1 \/ strcasecmp a b = 0 \/ strcasecmp a b = 1.
Proof.
  revert b; induction a as [|x a IH]; intros [|y b]; cbn; auto. destruct (_ <? _); [auto|]. destruct (_ <? _); auto.
Qed.
Lemma strcasecmp_flip a b : strcasecmp b a = - strcasecmp a b.
Proof.
  revert b; induction a as [|x a IH]; intros [|y b]; cbn; try done.
  destruct (Z.ltb_spec (to_lower8 y) (to_lower8 x)), (Z.ltb_spec (to_lower8 x) (to_lower8 y)); try done; lia.
Qed.
Lemma strcasecmp_eq0 a b : strcasecmp a b = 0 <-> List.map to_lower8 a = List.map to_lower8 b.
Proof.
  revert b; induction a as [|x a IH]; intros [|y b]; cbn; try done.
  destruct (Z.ltb_spec (to_lower8 x) (to_lower8 y)); [split; [done|intros [= E _]; lia]|].
  destruct (Z.ltb_spec (to_lower8 y) (to_lower8 x)); [split; [done|intros [= E _]; lia]|].
  rewrite IH. split; [intros ->; f_equal; lia|by intros [= _ E]].
Qed.
(** A name equal to [b] is on the side of [a] where [b] is. *)
Lemma strcasecmp_congr a b c : strcasecmp b c = 0 -> strcasecmp a b = strcasecmp a c.
Proof.
  rewrite strcasecmp_eq0. revert b c; induction a as [|x a IH]; intros [|y b] [|z c]; cbn; try done.
  intros [= -> E]. by rewrite (IH b c E).
Qed.
Lemma strcasecmp_trans a b c : strcasecmp a b < 0 -> strcasecmp b c < 0 -> strcasecmp a c < 0.
Proof.
  revert b c; induction a as [|x a IH]; intros [|y b] [|z c]; cbn; try done; try lia.
  repeat (match goal with |- context [?p <? ?q] => destruct (Z.ltb_spec p q) end; try lia). apply IH.
Qed.

(** * The search *)

Section Tlds.
Context (tlds : list (list Z * list Z)).
(** The table is in strict order. *)
Definition tlds_sorted : Prop := forall i j a b, (i < j)%nat -> tlds !! i = Some a -> tlds !! j = Some b -> strcasecmp (fst a) (fst b) < 0.
Definition is_name (name : list Z) (i : nat) : Prop := exists it, tlds !! i = Some it /\ strcasecmp (fst it) name = 0.
Lemma index_loop_spec name fuel start end_ : tlds_sorted -> 0 <= start <= end_ + 1 -> end_ < Z.of_nat (length tlds) -> end_ - start + 1 < Z.of_nat fuel ->
  (forall i, is_name name i -> start <= Z.of_nat i <= end_) ->
  (index_loop tlds fuel name start end_ = Ret (-1) /\ forall i, ~ is_name name i) \/
  exists i, index_loop tlds fuel name start end_ = Ret (Z.of_nat i) /\ is_name name i.
Proof.
  intros Hs. revert start end_; induction fuel as [|fuel IH]; intros start end_ Hst Hend Hf Hin; [lia|]. cbn [index_loop].
  destruct (Z.leb_spec start end_) as [Hle|Hgt]; [|left; split; [done|]; intros i Hi; specialize (Hin i Hi); lia].
  rewrite Z.shiftr_div_pow2 by lia. change (2 ^ 1) with 2. set (pos := (start + end_) / 2). assert (Hpos : start <= pos <= end_) by (unfold pos; dlia).
  destruct (Z.ltb_spec pos 0); [lia|]. destruct (lookup_lt_is_Some_2 tlds (Z.to_nat pos) ltac:(lia)) as [it Hit]. rewrite Hit.
  cbn [of_option obind]. destruct (Z.eqb_spec (strcasecmp (fst it) name) 0) as [E0|E0].
  { right. exists (Z.to_nat pos). split; [f_equal; lia|]. by exists it. }
  destruct (Z.ltb_spec (strcasecmp (fst it) name) 0) as [Hlt|Hge].
  - apply IH; try lia. intros i (it' & Hi & E). specialize (Hin i ltac:(by exists it')).
    enough (~ (i <= Z.to_nat pos)%nat) by lia. intros Hle'. destruct (decide (i = Z.to_nat pos)) as [->|Hne]; [congruence|].
    assert (Hlt' := Hs i (Z.to_nat pos) it' it ltac:(lia) Hi Hit). assert (Ht := strcasecmp_trans _ _ _ Hlt' Hlt). lia.
  - assert (Hgt' : strcasecmp name (fst it) < 0) by (rewrite strcasecmp_flip; lia).
    apply IH; try lia. intros i (it' & Hi & E). specialize (Hin i ltac:(by exists it')).
    enough (~ (Z.to_nat pos <= i)%nat) by lia. intros Hle'. destruct (decide (i = Z.to_nat pos)) as [->|Hne]; [congruence|].
    assert (Hlt' := Hs (Z.to_nat pos) i it it' ltac:(lia) Hit Hi). assert (Ht := strcasecmp_trans _ _ _ Hgt' Hlt').
    rewrite strcasecmp_flip in Ht. lia.
Qed.
Lemma tld_index_spec name : tlds_sorted -> (hsk_tld_index tlds name = Ret (-1) /\ forall i, ~ is_name name i) \/
  exists i, hsk_tld_index tlds name = Ret (Z.of_nat i) /\ is_name name i.
Proof.
  intros Hs. apply index_loop_spec; [done|lia..|]. intros i (it & Hi & _). apply lookup_lt_Some in Hi. lia.
Qed.
Lemma icann_lookup_spec name : tlds_sorted ->
  (hsk_icann_lookup tlds name = Ret None /\ forall i, ~ is_name name i) \/
  exists i it, hsk_icann_lookup tlds name = Ret (Some (snd it)) /\ tlds !! i = Some it /\ strcasecmp (fst it) name = 0.
Proof.
  intros Hs. unfold hsk_icann_lookup. destruct (tld_index_spec name Hs) as [[-> Hno]|(i & -> & it & Hi & E)]; [by left|]. right.
  exists i, it. cbn [obind]. destruct (Z.eqb_spec (Z.of_nat i) (-1)); [lia|]. by rewrite Nat2Z.id, Hi.
Qed.

(** * Properties *)

(** C21: The search ends and is right. In a table in strict order, [hsk_icann_lookup] returns, without a
    read outside the table, the resource of an item exactly if the name is that of
    the item up to the case of letters, and nothing exactly if no item has the name. *)
Theorem icann_lookup_correct name : tlds_sorted -> exists r, hsk_icann_lookup tlds name = Ret r /\
  (r = None <-> forall it, it ∈ tlds -> List.map to_lower8 (fst it) <> List.map to_lower8 name) /\
  (forall item, r = Some item <-> exists tld, (tld, item) ∈ tlds /\ List.map to_lower8 tld = List.map to_lower8 name).
Proof.
  intros Hs. destruct (icann_lookup_spec name Hs) as [[-> Hno]|(i & [tld item] & -> & Hi & E)].
  - exists None. split; [done|].
    assert (Hn : forall it, it ∈ tlds -> List.map to_lower8 (fst it) <> List.map to_lower8 name).
    { intros it [i Hi]%list_elem_of_lookup E%strcasecmp_eq0. apply (Hno i). by exists it. }
    split; [done|]. intros item. split; [done|]. intros (tld & Hin & E). by apply Hn in Hin.
  - exists (Some item). split; [done|]. cbn [fst snd] in *. assert (Hin : (tld, item) ∈ tlds) by (by eapply list_elem_of_lookup_2).
    split.
    + split; [done|]. intros Hn. exfalso. by apply (Hn _ Hin), strcasecmp_eq0.
    + intros item'. split; [intros [= <-]; exists tld; split; [done|by apply strcasecmp_eq0]|].
      intros (tld' & [j Hj]%list_elem_of_lookup & E'%strcasecmp_eq0). f_equal.
      destruct (Nat.lt_trichotomy i j) as [Hlt|[->|Hlt]]; [|congruence|].
      * assert (Hc := Hs i j _ _ Hlt Hi Hj). cbn [fst] in Hc. rewrite (strcasecmp_congr tld tld' name E') in Hc. lia.
      * assert (Hc := Hs j i _ _ Hlt Hj Hi). cbn [fst] in Hc. rewrite (strcasecmp_congr tld' tld name E) in Hc. lia.
Qed.
End Tlds.

(** * Witness *)

Definition sample_tlds : list (list Z * list Z) :=
  [([97], [1; 0; 0]); ([98; 99], [6; 0; 0; 4; 1; 2; 3; 4]); ([120], [0; 0])].
Lemma sample_tlds_sorted : tlds_sorted sample_tlds.
Proof.
  intros i j a b Hij Hi Hj. destruct i as [|[|[|i]]], j as [|[|[|j]]]; try lia; cbn in Hi, Hj; simplify_eq; by vm_compute.
Qed.
Lemma icann_lookup_correct_witness : hsk_icann_lookup sample_tlds [88] = Ret (Some [0; 0]) /\ hsk_icann_lookup sample_tlds [98] = Ret None.
Proof.
  split.
  - destruct (icann_lookup_correct sample_tlds [88] sample_tlds_sorted) as (r & -> & _ & H). f_equal. apply H. exists [120].
    split; [do 2 apply list_elem_of_further; apply list_elem_of_here|done].
  - destruct (icann_lookup_correct sample_tlds [98] sample_tlds_sorted) as (r & -> & H & _). f_equal. apply H.
    assert (Hf : Forall (fun it => List.map to_lower8 (fst it) <> List.map to_lower8 [98]) sample_tlds) by (repeat constructor; done).
    by rewrite Forall_forall in Hf.
Defined.
