(* ===== verification/NsProps.v ===== *)
(** The properties of the name server: every query that it takes is answered once, by itself
    or after the call back of the pool. *)

From Stdlib Require Import String.
From S2P Require Import Prelude Bio Addr Map MapInv MapProps DnsName DnsNameProps DnsLabels DnsRecord DnsCodec DnsMsg DnsMsgSpec DnsSafe Sha256 Hkdf Dnssec DnssecProps Host HostProps Resource ResourceProps AnswerProps Sig0 Req ReqProps Cache CacheProps Hesiod HesiodProps Ns TldProps.

(** * The pool *)

(** What the server relies on: a request that the pool takes is kept until the call back
    for it, which ends it. *)
Class PoolOk `{Host} (P : Type) `{Pool P} := {
  pool_pending : P -> list hsk_dns_req_t;
  pool_done : P -> nat -> P;
  pool_done_ok p k : pool_pending (pool_done p k) = delete k (pool_pending p);
  pool_resolve_ok p tld req : runs (pool_resolve p tld req) (fun r =>
    (fst r = HSK_SUCCESS /\ pool_pending (snd r) = pool_pending p ++ [req]) \/
    (fst r <> HSK_SUCCESS /\ pool_pending (snd r) = pool_pending p));
  pool_status_ok p : info_ok (pool_status p);
}.

(** * Queries that are served *)

(** The sender has an address that can be printed. *)
Definition sender_ok `{Host} (addr : sockaddr) : Prop := exists t, hsk_sa_to_string host_inet_ntop addr HSK_MAX_HOST 1 = Ret t.
(** The names for which the program goes on: a first label of two does not stand for an empty address, and under "_synth."
    it has at most 55 characters and stands for no more bytes than an address has. *)
Definition synth_query (ls : list (list Z)) : Prop := (length ls <= 2)%nat /\ hsk_to_lower (tld_of ls) = str "_synth".
Definition served (req : hsk_dns_req_t) (ls : list (list Z)) : Prop :=
  req_ok req ls /\ (length ls = 2%nat -> pointer_ok ls /\
    (synth_query ls -> Z.of_nat (length (default [] (ls !! 0%nat))) <= 55 /\ room_ok ls)).
(** A query about the program itself that comes from elsewhere: it is not answered, unless the cache has an answer for its name. *)
Definition refused (req : hsk_dns_req_t) : Prop :=
  req_class req = HSK_DNS_HS /\ req_type req = HSK_DNS_TXT /\
  hsk_addr_is_local (default hsk_addr_init (hsk_addr_from_sa (req_addr req))) = false.
(** An answer to [req]. *)
Definition answers (req : hsk_dns_req_t) (d : list Z * sockaddr) : Prop :=
  snd d = req_addr req /\ bytes (fst d) /\ 12 <= Z.of_nat (length (fst d)) <= req_max_size req /\
  be_combine (take 2 (fst d)) = req_id req /\ Z.testbit (be_combine (take 2 (drop 2 (fst d)))) 15 = true.

(** A table of top-level names whose items are resources. *)
Definition resource_good (data : list Z) : Prop := bytes data /\
  match hsk_resource_decode true (fun _ => all_ok) data with
  | Ret res => Forall record_full (res_records res)
  | Fail => True
  | Fault _ => False
  end.
Definition tlds_ok (tlds : list (list Z * list Z)) : Prop := tlds_sorted tlds /\
  Forall (fun it => exists raw, item_resource (snd it) = Ret raw /\ resource_good raw) tlds.

Section Ns.
Context `{HostOk} {P : Type} `{Pool P} `{!PoolOk P} (tlds : list (list Z * list Z)) (Htlds : tlds_ok tlds).
Implicit Types ns : hsk_ns_t P.

(** ** The state *)

Definition pending ns : list hsk_dns_req_t := pool_pending (ns_pool ns).
Definition waiting (req : hsk_dns_req_t) : Prop := exists ls, served req ls /\ ls <> [].
Record ns_ok ns : Prop := {
  no_socket : ns_socket ns = true;
  no_ip : exists ip, ns_ip ns = Some ip /\ addr_ok ip;
  no_cache : exists M, cache_ok (ns_cache ns) M;
  no_pending : Forall waiting (pending ns);
  no_key : signer_ok (ns_key ns);
}.
Definition done_with (ns ns' : hsk_ns_t P) (req : hsk_dns_req_t) : Prop := ns_ok ns' /\
  ((exists d, answers req d /\ ns_sent ns' = d :: ns_sent ns /\ pending ns' = pending ns) \/
   (ns_sent ns' = ns_sent ns /\ pending ns' = pending ns ++ [req]) \/
   (refused req /\ ns_sent ns' = ns_sent ns /\ pending ns' = pending ns)).
Definition answered (ns ns' : hsk_ns_t P) (req : hsk_dns_req_t) : Prop := ns_ok ns' /\
  exists d, answers req d /\ ns_sent ns' = d :: ns_sent ns /\ pending ns' = pending ns.
Lemma answered_done ns ns' req : answered ns ns' req -> done_with ns ns' req.
Proof. intros (? & d & ?). split; [done|]. left. by exists d. Qed.

(** ** Sending *)

Lemma runs_send ns data addr (Q : Z * hsk_ns_t P -> Prop) : ns_socket ns = true ->
  Q (HSK_SUCCESS, mk_ns (ns_pool ns) (ns_ip ns) (ns_cache ns) (ns_key ns) (ns_socket ns) (ns_receiving ns) ((data, addr) :: ns_sent ns)) ->
  runs (hsk_ns_send ns data addr) Q.
Proof.
  intros Hs HQ. unfold hsk_ns_send. rewrite Hs. cbn [negb]. eapply runs_bind; [by apply (runs_ask (fun _ => True))|].
  intros n _. rewrite !al_true, ok_send. cbn [negb]. apply runs_ret. by rewrite <-Hs.
Qed.
Lemma answered_sent ns key req ls msg wire : ns_ok ns -> req_ok req ls -> msg_ok msg -> 0 <= msg_opcode msg < 16 -> 0 <= msg_flags msg ->
  finished key req msg wire ->
  answered ns (mk_ns (ns_pool ns) (ns_ip ns) (ns_cache ns) (ns_key ns) (ns_socket ns) (ns_receiving ns) ((wire, req_addr req) :: ns_sent ns)) req.
Proof.
  intros [Hs Hi Hc Hp Hk] Hr Hm Ho Hf Hw. destruct (finished_bounds key req ls msg wire Hr Hm Hw) as (Hb & Hl & H4).
  destruct (head_bits req ls msg wire Hr Ho Hf H4) as (Hid & Hqr & _).
  split; [by split|]. exists (wire, req_addr req). by split_and!.
Qed.
(** What can be answered with. *)
Definition msg_good (msg : hsk_dns_msg_t) : Prop := msg_ok msg /\ 0 <= msg_opcode msg < 16 /\ 0 <= msg_flags msg.
Lemma runs_finish ns req ls msg (Q : option (hsk_ns_t P) -> Prop) : ns_ok ns -> req_ok req ls -> msg_good msg ->
  (forall ns', answered ns ns' req -> Q (Some ns')) ->
  (forall mem bs, hsk_dns_msg_encode true mem (reply_of req msg) = Ret bs -> room req (ns_key ns) < Z.of_nat (length bs) -> Q None) ->
  runs (finish ns req msg (req_addr req)) Q.
Proof.
  intros Hn Hr (Hm & Ho & Hf) HQ HN. unfold finish.
  apply (runs_bind _ _ (fun o => match o with Some wire => finished (ns_key ns) req msg wire | None => Q None end)).
  { apply (runs_finalize msg req ls); [done|done|apply Hn|done|]. intros mem bs E _ Hl. by eapply HN. }
  intros [wire|] Hw; [|by apply runs_ret]. eapply runs_bind; [|intros r Hr'; apply runs_ret; exact Hr'].
  apply runs_send; [apply Hn|]. cbn [snd]. apply HQ. by eapply answered_sent.
Qed.
(** A message without records fits. *)
Lemma wsize_with_length w s : wsize w s -> wsize (with_length w) (2 + s).
Proof. unfold wsize, with_length. by intros ->. Qed.
Lemma small_size req ls msg : req_ok req ls -> msg_an msg = [] -> msg_ns msg = [] -> msg_ar msg = [] -> exists s,
  hsk_dns_msg_size (reply_of req msg) = Ret s /\ s <= 283.
Proof.
  intros Hr Ha Hn Hx. destruct (reply_head req msg) as (_ & _ & _ & _ & Hq).
  assert (Hnil : msg_an (reply_of req msg) = [] /\ msg_ns (reply_of req msg) = [] /\ msg_ar (reply_of req msg) = []).
  { unfold reply_of. destruct (cleans _ _); cbn; by rewrite Ha, Hn, Hx. }
  destruct Hnil as (Ea & En & Ex).
  assert (He : edns_rd (msg_edns (reply_of req msg)) = []).
  { unfold reply_of, reply_to, reply_edns. by destruct (cleans _ _), (req_edns req). }
  assert (Hqw : name_wf false (owner_of (req_name req))).
  { apply owner_wf. rewrite (ro_name _ _ Hr). exists ls. split_and!; [done|apply Hr|done]. }
  destruct (name_size no_table _ Hqw) as (nq & Enq & Hnq).
  assert (Hedns : exists e, wsize (write_edns no_table (reply_of req msg)) e /\ e <= 11).
  { unfold write_edns. destruct (opt_written (reply_of req msg)) as [[] code]; [|exists 0; split; [reflexivity|lia]].
    exists (1 + (2 + (2 + (4 + (2 + 0))))). split; [|lia]. unfold hsk_dns_rr_write, opt_record. cbn [rr_name rr_type rr_class rr_ttl rr_rd].
    repeat apply wsize_seq; try by apply wsize_lift.
    - done.
    - apply wsize_with_length. rewrite He. by apply wsize_lift. }
  destruct Hedns as (e & Ee & Hle). exists (12 + ((nq + (2 + 2) + 0) + (0 + (0 + (0 + e))))). split; [|lia].
  unfold hsk_dns_msg_size, dsize.
  assert (Ew : wsize (hsk_dns_msg_write no_table (reply_of req msg)) (12 + ((nq + (2 + 2) + 0) + (0 + (0 + (0 + e)))))); [|by rewrite Ew].
  unfold hsk_dns_msg_write. rewrite Hq, Ea, En, Ex. repeat apply wsize_seq; try done; by apply wsize_lift.
Qed.
Lemma runs_finish_small ns req ls msg (Q : option (hsk_ns_t P) -> Prop) : ns_ok ns -> req_ok req ls -> msg_good msg ->
  msg_an msg = [] -> msg_ns msg = [] -> msg_ar msg = [] -> (forall ns', answered ns ns' req -> Q (Some ns')) ->
  runs (finish ns req msg (req_addr req)) Q.
Proof.
  intros Hn Hr Hm Ha Hs Hx HQ. apply (runs_finish ns req ls); [done..|]. intros mem bs E Hl. exfalso.
  destruct (small_size req ls msg Hr Ha Hs Hx) as (s & Es & Hle). unfold hsk_dns_msg_encode in E. rewrite Es in E. cbn [obind] in E.
  destruct (hsk_dns_msg_write mem (reply_of req msg) _) as [[k o]| |]; cbn [obind] in E; [|done|done].
  match type of E with context [s <? ?n] => destruct (Z.ltb_spec s n) end; [done|]. injection E as <-.
  assert (Hmax := ro_size _ _ Hr). unfold room, HSK_SIG0_RR_SIZE in Hl. destruct (ns_key ns); lia.
Qed.
Lemma runs_fail ns req ls (Q : hsk_ns_t P -> Prop) : ns_ok ns -> req_ok req ls -> (forall ns', answered ns ns' req -> Q ns') ->
  runs (ns_fail ns req (req_addr req) false) Q.
Proof.
  intros Hn Hr HQ. unfold ns_fail. eapply runs_bind; [by apply (runs_assert (fun _ => True))|intros _ _].
  apply (runs_bind _ _ (fun o => o = Some (with_code hsk_dns_msg_init HSK_DNS_SERVFAIL))); [by apply runs_code|]. intros ? ->.
  eapply runs_bind; [|intros r Hr'; apply runs_ret; exact Hr'].
  apply (runs_finish_small ns req ls); try done. split; [|done]. apply msg_ok_init.
Qed.
Lemma runs_finish_or_fail ns req ls msg (Q : hsk_ns_t P -> Prop) : ns_ok ns -> req_ok req ls -> msg_good msg ->
  (forall ns', answered ns ns' req -> Q ns') -> runs (finish_or_fail ns req msg (req_addr req)) Q.
Proof.
  intros Hn Hr Hm HQ. unfold finish_or_fail.
  apply (runs_bind _ _ (fun o => match o with Some ns' => answered ns ns' req | None => True end)).
  { by apply (runs_finish ns req ls). }
  intros [ns'|] Hr'; [by apply runs_ret, HQ|]. by apply (runs_fail ns req ls).
Qed.
Lemma fresh_good code msg : fresh code msg -> msg_good msg.
Proof. intros (Hm & Ho & _ & Hf). split; [done|]. split; [rewrite Ho; unfold HSK_DNS_QUERY; lia|done]. Qed.
Lemma read_good msg : msg_type msg -> msg_good msg.
Proof.
  intros (_ & Ho & Hf & _ & [Hq _] & [Ha _] & [Hn _] & [Hx Hl] & _ & _ & _ & _ & He). split; [|split; [done|lia]].
  split; [eapply Forall_impl; [exact Hq|]; by intros qs [? _]|]. do 2 (split; [done|]).
  split; [eapply Forall_impl; [exact Hx|]; by intros rr [? _]|]. split; [done|lia].
Qed.
Lemma answer_good res ls tld type msg : answer_of res ls tld type msg -> msg_ok msg -> msg_good msg.
Proof.
  intros Ha Hm. split; [done|]. unfold answer_of in Ha. destruct (_ && _).
  - destruct Ha as (l & _ & ->). by destruct (type =? HSK_DNS_NS).
  - by destruct Ha as (ns & _ & ->).
Qed.

(** ** The cache *)

Lemma with_cache_ok ns c M : ns_ok ns -> cache_ok c M -> ns_ok (with_cache ns c).
Proof. intros [Hs Hi Hc Hp Hk] Hok. split; try done. by exists M. Qed.
Lemma runs_insert ns req ls msg (Q : bool * hsk_cache_t -> Prop) : ns_ok ns -> served req ls -> msg_ok msg ->
  (forall b c, ns_ok (with_cache ns c) -> Q (b, c)) -> runs (hsk_cache_insert (ns_cache ns) req msg) Q.
Proof.
  intros Hn (Hr & Hp) Hm HQ. unfold hsk_cache_insert. eapply runs_bind; [by apply (runs_ask (fun _ => True))|]. intros n _.
  destruct (encode_ok (host_mem n) msg Hm) as (body & E & Hb). rewrite al_true.
  apply (runs_bind _ _ (fun o => o = Some (header_bytes_of msg ++ body))); [apply runs_try; by rewrite E|]. intros ? ->.
  destruct (no_cache ns Hn) as [M HM]. rewrite (ro_name _ _ Hr).
  eapply runs_weaken; [apply (runs_insert_data (ns_cache ns) M); [done|apply Hr|intros E2; by apply Hp|done]|].
  intros [b c] (n' & M' & n'' & _ & HM'). apply HQ. by eapply with_cache_ok.
Qed.
Lemma runs_get ns req ls (Q : option hsk_dns_msg_t * hsk_cache_t -> Prop) : ns_ok ns -> served req ls ->
  (forall o c, ns_ok (with_cache ns c) -> made msg_good o -> Q (o, c)) -> runs (hsk_cache_get (ns_cache ns) req) Q.
Proof.
  intros Hn (Hr & Hp) HQ. unfold hsk_cache_get. destruct (no_cache ns Hn) as [M HM]. rewrite (ro_name _ _ Hr).
  eapply runs_bind; [apply (runs_get_data (ns_cache ns) M); [done|apply Hr|intros E2; by apply Hp]|].
  intros [o c] (n0 & M' & n1 & Hg & HM'). cbn [fst snd] in *. assert (Hok := with_cache_ok ns c M' Hn HM').
  destruct o as [data|]; [|by apply runs_ret, HQ]. eapply runs_bind; [by apply (runs_ask (fun _ => True))|]. intros n _.
  assert (Hb : bytes data).
  { destruct HM as (_ & _ & _ & Hall). unfold ref_get in Hg. destruct (hsk_dns_name_dirty (text ls)); [done|].
    destruct (M !! key_of ls (req_type req)) as [it|] eqn:E; [|done]. case_decide; [|done]. injection Hg as <- _ _. by apply (Hall _ it E). }
  apply (runs_bind _ _ (made msg_good)); [|intros o Ho; by apply runs_ret, HQ].
  apply runs_try. assert (Ht := msg_decode_safe (host_al n 0%nat 0%nat) (fun s i k => host_al n (1 + s + 4 * i)%nat k) data Hb).
  destruct (hsk_dns_msg_decode _ _ data); [by apply read_good|done|done].
Qed.
Lemma answered_cache ns c ns' req : answered (with_cache ns c) ns' req -> answered ns ns' req.
Proof. done. Qed.
Lemma runs_reply ns req ls o (Q : hsk_ns_t P -> Prop) : ns_ok ns -> served req ls -> made msg_good o ->
  (forall ns', answered ns ns' req -> Q ns') -> runs (ns_reply ns req (req_addr req) o) Q.
Proof.
  intros Hn Hs Hm HQ. unfold ns_reply. destruct o as [msg|]; [|apply (runs_fail ns req ls); [done|apply Hs|done]].
  apply (runs_bind _ _ (fun r => ns_ok (with_cache ns (snd r)))); [by apply (runs_insert ns req ls); [..|apply Hm|]|].
  intros [b c] Hc. cbn [snd] in *. apply (runs_finish_or_fail (with_cache ns c) req ls); [done|apply Hs|done|].
  intros ns' Ha. by apply HQ.
Qed.

(** ** The handlers *)

Lemma runs_hesiod_query ns req ls (Q : hsk_ns_t P -> Prop) : ns_ok ns -> served req ls ->
  req_class req = HSK_DNS_HS -> req_type req = HSK_DNS_TXT -> (forall ns', done_with ns ns' req -> Q ns') ->
  runs (ns_hesiod ns req (req_addr req)) Q.
Proof.
  intros Hn (Hr & _) Hc Ht HQ. unfold ns_hesiod. destruct (hsk_addr_is_local _) eqn:Hloc; cbn [negb].
  2: { apply runs_ret, HQ. split; [done|]. right. right. by split; [split_and!|]. }
  assert (Hi := pool_status_ok (ns_pool ns)).
  apply (runs_bind _ _ (fun o => o = Some (hesiod_answer ls (pool_status (ns_pool ns))))); [by apply (runs_hesiod req ls)|]. intros ? ->.
  apply (runs_finish_or_fail ns req ls); [done|done| |intros ns' Ha; by apply HQ, answered_done].
  eapply fresh_good. by apply hesiod_answer_fresh.
Qed.
Lemma runs_lookup ns req ls (Q : hsk_ns_t P -> Prop) : ns_ok ns -> served req ls -> (forall ns', done_with ns ns' req -> Q ns') ->
  runs (ns_lookup ns req (req_addr req)) Q.
Proof.
  intros Hn Hs HQ. assert (Hr := proj1 Hs). unfold ns_lookup. rewrite (ro_labels _ _ Hr).
  destruct (Z.ltb_spec 0 (Z.of_nat (length ls))) as [Hpos|Hz].
  - destruct (bool_decide _).
    { apply (runs_bind _ _ (made msg_good)); [apply runs_nx; intros msg Hm; by eapply fresh_good|]. intros o Ho.
      apply (runs_reply ns req ls); [done..|]. intros ns' Ha. by apply HQ, answered_done. }
    eapply runs_bind; [apply pool_resolve_ok|]. intros [status p] Hp. cbn [fst snd] in *.
    destruct Hn as [Hsk Hip Hca Hpe Hky].
    destruct Hp as [[-> Hp]|[Hne Hp]].
    + cbn [negb Z.eqb]. change (HSK_SUCCESS =? HSK_SUCCESS) with true. cbn [negb]. apply runs_ret, HQ. split; [|right; left; by split].
      split; try done. unfold pending. cbn [ns_pool with_pool]. rewrite Hp. apply Forall_app. split; [done|]. apply Forall_singleton.
      exists ls. split; [done|]. by destruct ls.
    + destruct (Z.eqb_spec status HSK_SUCCESS); [done|]. cbn [negb].
      assert (Hn' : ns_ok (with_pool ns p)) by (split; try done; unfold pending; cbn [ns_pool with_pool]; by rewrite Hp).
      apply (runs_fail (with_pool ns p) req ls); [done..|]. intros ns' (Hok & d & Hd & Hsent & Hpend). apply HQ. split; [done|]. left.
      exists d. split; [done|]. split; [done|]. rewrite Hpend. unfold pending. cbn [ns_pool with_pool]. by rewrite Hp.
  - destruct (no_ip ns Hn) as (ip & Eip & Hip). rewrite Eip. apply (runs_bind _ _ (made msg_good)).
    + apply runs_root; [done|]. intros msg Hm. by eapply fresh_good.
    + intros o Ho. apply (runs_reply ns req ls); [done..|]. intros ns' Ha. by apply HQ, answered_done.
Qed.

(** ** Synthesised names *)

(** What proves the types of a name. *)
Lemma runs_empty_proof name owner map (Q : list hsk_dns_rr_t -> Prop) : name_wf false owner -> blob 255 (default [] map) ->
  returns (hsk_resource_to_empty name map []) (true, [nsec_rr owner (default [] map)]) -> (forall l, rrs l -> Q l) ->
  runs (empty_proof name map []) Q.
Proof.
  intros Hn Hm He HQ. unfold empty_proof. assert (Hw : rrs [nsec_rr owner (default [] map)]).
  { apply (rrs_push []); [apply rrs_nil|by apply nsec_rr_wf]. }
  apply (runs_bind _ _ (fun l => rrs l /\ owned HSK_DNS_SOA root_name l)).
  - eapply runs_and_sign; [exact He|apply Hw|exact Hn|by apply Forall_singleton|done|]. intros l Hl.
    split; [by eapply rrs_signed|]. eapply signed_owned; [|done|exact Hl]. by apply Forall_singleton.
  - intros l [Hl Ho]. apply runs_root_soa; [done|done|]. intros l' Hl' _. by apply HQ.
Qed.
(** The name "_synth" without its full stop, which the record gets. *)
Lemma synth_empty_returns : returns (hsk_resource_to_empty (str "_synth") None []) (true, [nsec_rr (text [str "_synth"]) []]).
Proof.
  unfold hsk_resource_to_empty. eapply returns_bind; [apply rr_create_returns|].
  apply (returns_bind _ _ (mk_rr (text [str "_synth"]) HSK_DNS_NSEC HSK_DNS_IN 0 (Some (hsk_dns_rd_init HSK_DNS_NSEC)))); [|apply returns_ret].
  eapply returns_bind; [apply returns_lift; reflexivity|]. apply returns_ret.
Qed.
Lemma fresh_ns rrns : rrs rrns -> msg_good (with_ns hsk_dns_msg_init rrns).
Proof.
  intros Hl. eapply fresh_good, fresh_of; [|done|done|done]. split_and!; try apply Forall_nil_2; [by apply rrs_wf_ok|apply Nat.le_0_l].
Qed.
Lemma type_map_ok family : blob 255 (if family =? HSK_DNS_A then hsk_type_map_a else hsk_type_map_aaaa).
Proof. destruct (family =? HSK_DNS_A); (split; [apply (bool_decide_unpack _); vm_compute; exact I|by vm_compute]). Qed.
Lemma length_lower s : length (hsk_to_lower s) = length s.
Proof. apply List.length_map. Qed.
Lemma runs_synth_answer req l t (Q : option hsk_dns_msg_t -> Prop) : req_ok req [l; t] -> hsk_to_lower t = str "_synth" ->
  pointer_ok [l; t] -> Z.of_nat (length l) <= 55 -> room_ok [l; t] -> (forall msg, msg_good msg -> Q (Some msg)) ->
  runs (synth_answer req hsk_dns_msg_init) Q.
Proof.
  intros Hr Ht Hp Hl Hroom HQ. assert (Hok := ro_ls _ _ Hr). assert (Hn : name_wf false (text [l; t])) by by exists [l; t].
  unfold synth_answer. rewrite (ro_name _ _ Hr).
  destruct (dns_labels_correct [l; t] (-2) Hok) as (_ & Hget & _). destruct (Hget ltac:(cbn; lia)) as [_ Ef].
  eapply returns_bind; [by apply returns_lift|]. cbn [drop from_end length]. change (drop _ [l; t]) with [l; t].
  assert (Hlen : Z.of_nat (length (text [l; t])) <= 63).
  { unfold text. rewrite !body_cons, length_app. cbn [length]. rewrite length_app. apply (f_equal length) in Ht. rewrite length_lower in Ht.
    cbn in Ht |- *. lia. }
  unfold HSK_DNS_MAX_LABEL. destruct (Z.ltb_spec 63 (Z.of_nat (length (text [l; t])))); [lia|].
  destruct (pointer_total [l; t] true Hok Hp) as (r & Er & Hip); [done|]. eapply returns_bind; [by apply returns_lift|].
  destruct r as [[ip family]|]; [|apply runs_ret, HQ; apply (fresh_ns []), rrs_nil].
  assert (Hfam : (family = HSK_DNS_A /\ bytes_n 4 ip) \/ (family = HSK_DNS_AAAA /\ bytes_n 16 ip)) by exact Hip.
  destruct (negb (family_match (req_type req) family)).
  { eapply runs_bind; [eapply (runs_empty_proof _ (text [l; t]) _ rrs); [done|apply type_map_ok| |done]|].
    - by apply to_empty_returns.
    - intros rrns Hrr. apply runs_ret, HQ. by apply fresh_ns. }
  eapply returns_bind; [apply rr_create_returns|]. cbv iota. eapply returns_bind; [by apply set_name_returns|].
  cbv zeta. set (an := push_item _ _). set (msg := or_flags _ _).
  assert (Han : rrs an).
  { subst an. apply (rrs_push []); [apply rrs_nil|]. unfold fill. cbn [rr_name rr_type rr_class].
    destruct Hfam as [[-> Hb]|[-> Hb]]; cbn [Z.eqb]; [apply a_rr_wf|apply aaaa_rr_wf]; try done; by apply owner_wf. }
  apply (runs_bind _ _ rrs).
  - apply runs_sign_zsk; [constructor|exists []; split; [by split; [constructor|]|constructor]|by destruct Hfam as [[-> _]|[-> _]]|].
    intros l' Hl'. eapply rrs_signed; [apply rrs_nil|exact Hl'].
  - intros ar Har. apply runs_ret, HQ. eapply fresh_good, fresh_of; [|done|done|done].
    split_and!; try apply Forall_nil_2; [by apply rrs_wf_ok|by apply rrs_wf_ok|apply Har].
Qed.
Lemma runs_synth ns req ls (Q : hsk_ns_t P -> Prop) : ns_ok ns -> served req ls -> synth_query ls -> ls <> [] ->
  (forall ns', answered ns ns' req -> Q ns') -> runs (ns_synth ns req (req_addr req)) Q.
Proof.
  intros Hn (Hr & Hp) [Hlen Ht] Hne HQ. unfold ns_synth.
  eapply returns_bind; [eapply returns_bind; [apply malloc_returns|apply returns_ret]|]. cbv iota.
  rewrite (ro_labels _ _ Hr). destruct (Z.eqb_spec (Z.of_nat (length ls)) 1) as [E1|E1].
  - assert (Etld : req_tld req = str "_synth") by (by rewrite (ro_tld _ _ Hr)). rewrite Etld.
    eapply runs_bind; [eapply (runs_empty_proof _ (text [str "_synth"]) None rrs); [| |apply synth_empty_returns|done]|].
    + exists [str "_synth"]. split; [done|]. split; [|done]. split; [|by vm_compute]. apply (bool_decide_unpack _). vm_compute. exact I.
    + by split; [constructor|].
    + intros rrns Hrr. apply (runs_finish_or_fail ns req ls); [done|done|by apply fresh_ns|done].
  - destruct ls as [|l [|t [|u r]]]; [done|cbn in E1; lia| |cbn in Hlen; lia].
    apply (runs_bind _ _ (fun o => exists msg, o = Some msg /\ msg_good msg)).
    + apply (runs_synth_answer req l t); [done|exact Ht|by apply Hp|by apply Hp|by apply Hp|]. intros msg Hm. by exists msg.
    + intros o (msg & -> & Hm). by apply (runs_finish_or_fail ns req [l; t]).
Qed.

(** ** A datagram *)

(** The default of the port does not matter. *)
Lemma sender_print addr fb : sender_ok addr -> fb <> 0 -> exists t, hsk_sa_to_string host_inet_ntop addr HSK_MAX_HOST fb = Ret t.
Proof.
  intros [t E] Hfb. unfold hsk_sa_to_string in *. destruct (hsk_addr_from_sa addr) as [a|]; [|done]. unfold hsk_addr_to_string in *.
  destruct (host_inet_ntop _ _ _) as [dst|]; [|done]. cbn [Z.eqb] in E. destruct (Z.eqb_spec fb 0); [done|].
  destruct (_ <? _)%nat; [done|]. destruct (_ =? AF_INET6); [|by eexists]. destruct (oassert _); [|done..]. by eexists.
Qed.
(** The queries in it are served. *)
Definition queries_served (data : list Z) (addr : sockaddr) : Prop := forall req, query_of data addr req -> exists ls, served req ls.
Lemma sender_addr addr : sender_ok addr -> default sa_zero (hsk_sa_copy addr) = addr.
Proof.
  intros [t E]. unfold hsk_sa_to_string in E. destruct (hsk_addr_from_sa addr) as [a|] eqn:Ea; [|done].
  unfold hsk_addr_from_sa in Ea. unfold hsk_sa_copy. destruct (sa_family addr =? AF_INET); [done|]. cbn [negb andb].
  by destruct (sa_family addr =? AF_INET6).
Qed.
Lemma runs_onrecv ns data addr (Q : hsk_ns_t P -> Prop) : ns_ok ns -> bytes data -> sender_ok addr -> queries_served data addr ->
  (forall req ns', query_of data addr req -> done_with ns ns' req -> Q ns') -> ((forall req, ~ query_of data addr req) -> Q ns) ->
  runs (hsk_ns_onrecv ns data addr) Q.
Proof.
  intros Hn Hd Ha Hq HQ HN. unfold hsk_ns_onrecv.
  apply (runs_bind _ _ (fun o => match o with Some req => query_of data addr req | None => forall req, ~ query_of data addr req end)).
  { by apply runs_req_create. }
  intros [req|] Hreq; [|by apply runs_ret, HN]. destruct (Hq req Hreq) as [ls Hs]. assert (Hr := proj1 Hs).
  assert (Eaddr : req_addr req = addr).
  { destruct Hreq as (m & qs & k & _ & _ & _ & _ & _ & ->). by apply sender_addr. }
  rewrite <-Eaddr in *. assert (Hdone : forall ns', done_with ns ns' req -> Q ns') by (intros ns'; by apply HQ).
  eapply runs_bind; [|intros _ _].
  { unfold req_print. destruct Ha as [t ->]. by apply (runs_ret tt (fun _ => True)). }
  apply (runs_bind _ _ (fun r => ns_ok (with_cache ns (snd r)) /\ made msg_good (fst r))).
  { apply (runs_get ns req ls); [done|done|]. intros o c Hc Ho. by split. }
  intros [o c] [Hc Ho]. cbn [fst snd] in *.
  assert (Hans : forall ns', answered (with_cache ns c) ns' req -> Q ns') by (intros ns' Hx; by apply Hdone, answered_done).
  assert (Hdn : forall ns', done_with (with_cache ns c) ns' req -> Q ns') by (intros ns' Hx; by apply Hdone).
  destruct o as [msg|]; [by apply (runs_finish_or_fail (with_cache ns c) req ls)|].
  destruct (_ && _) eqn:Ehs.
  { apply andb_true_iff in Ehs as [Ec%Z.eqb_eq Et%Z.eqb_eq]. by apply (runs_hesiod_query (with_cache ns c) req ls). }
  destruct (bool_decide (req_tld req = str "_synth") && (req_labels req <=? 2)) eqn:Esy; [|by apply (runs_lookup (with_cache ns c) req ls)].
  apply andb_true_iff in Esy as [Et%bool_decide_eq_true El%Z.leb_le]. rewrite (ro_tld _ _ Hr) in Et. rewrite (ro_labels _ _ Hr) in El.
  apply (runs_synth (with_cache ns c) req ls); try done.
  - split; [lia|done].
  - by intros ->.
Qed.

(** ** The call back *)

Lemma resource_ttl data res : hsk_resource_decode true (fun _ => all_ok) data = Ret res -> res_ttl res = HSK_DEFAULT_TTL.
Proof.
  unfold hsk_resource_decode. destruct (read_u8 data) as [[v d]| |]; cbn [obind]; [|done|done].
  destruct (negb (v =? 0)); [done|]. destruct (records_loop _ _ _ _ _ _); cbn [obind]; [|done|done]. by intros [= <-].
Qed.
(** What the call back gets for a name that is there. *)
Definition resolved (r : Z * option hsk_resource_t) : Prop :=
  match snd r with Some res => in32 (res_ttl res) /\ Forall record_full (res_records res) | None => True end.
Lemma runs_resolve_data data : resource_good data -> runs (resolve_data data) resolved.
Proof.
  intros [Hb Hg]. unfold resolve_data. eapply runs_bind; [by apply (runs_ask (fun _ => True))|]. intros n _.
  apply (runs_bind _ _ (fun o => match o with Some res => in32 (res_ttl res) /\ Forall record_full (res_records res) | None => True end)).
  - apply runs_try. rewrite ok_al. change (fun i k => true) with (fun _ : nat => all_ok).
    destruct (hsk_resource_decode true (fun _ => all_ok) data) as [res| |] eqn:E; [|done|done].
    split; [by rewrite (resource_ttl data res E)|done].
  - intros [res|] Hres; by apply runs_ret.
Qed.
Lemma runs_respond ns req status res (Q : hsk_ns_t P -> Prop) : ns_ok ns -> waiting req -> resolved (status, res) ->
  (forall ns', answered ns ns' req -> Q ns') -> runs (hsk_ns_respond ns req status res) Q.
Proof.
  intros Hn (ls & Hs & Hne) Hres HQ. assert (Hr := proj1 Hs). unfold hsk_ns_respond.
  apply (runs_bind _ _ (made msg_good)).
  { destruct (negb (status =? HSK_SUCCESS)); [by apply runs_ret|]. destruct res as [res|].
    - destruct Hres as [Httl Hfull]. rewrite (ro_name _ _ Hr). destruct (last ls) as [l|] eqn:El; [|by apply last_None in El].
      apply (runs_to_dns res ls l); [done|done|apply Hr|done|]. intros msg Ha Hm. by eapply answer_good.
    - apply runs_nx. intros msg Hm. by eapply fresh_good. }
  intros o Ho. apply (runs_bind _ _ (fun r => ns_ok (fst r) /\ ns_sent (fst r) = ns_sent ns /\ pending (fst r) = pending ns /\
    match snd r with Some wire => exists key msg, msg_good msg /\ finished key req msg wire | None => True end)).
  { destruct o as [msg|]; [|by apply runs_ret]. destruct Ho as (Hm & Ho & Hf).
    apply (runs_bind _ _ (fun r => ns_ok (with_cache ns (snd r)))); [by apply (runs_insert ns req ls)|]. intros [b c] Hc. cbn [snd] in *.
    apply (runs_bind _ _ (fun o => match o with Some wire => finished (ns_key ns) req msg wire | None => True end)).
    { by apply (runs_finalize msg req ls); [..|apply Hc| |]. }
    intros o Hfin. apply runs_ret. do 3 (split; [done|]). destruct o as [wire|]; [|done]. by exists (ns_key ns), msg. }
  intros [ns1 [wire|]] (Hn1 & Hsent & Hpend & Hw); cbn [fst snd] in *.
  - destruct Hw as (key & msg & (Hm & Ho' & Hf) & Hfin). eapply runs_bind; [|intros r Hr'; apply runs_ret; exact Hr'].
    apply runs_send; [apply Hn1|]. cbn [snd]. apply HQ.
    destruct (answered_sent ns1 key req ls msg wire Hn1 Hr Hm Ho' Hf Hfin) as (Hok & d & Hd & Es & Ep).
    split; [done|]. exists d. split; [done|]. by rewrite <-Hsent, <-Hpend.
  - apply (runs_bind _ _ (fun o => o = Some (with_code hsk_dns_msg_init HSK_DNS_SERVFAIL))); [by apply runs_code|]. intros ? ->.
    eapply runs_bind; [|intros r Hr'; apply runs_ret; exact Hr'].
    apply (runs_finish_small ns1 req ls); try done; [split; [|done]; apply msg_ok_init|].
    intros ns' (Hok & d & Hd & Es & Ep). cbn [default id]. apply HQ. split; [done|]. exists d. split; [done|]. by rewrite <-Hsent, <-Hpend.
Qed.
(** What the pool calls back with: a status, and for a name that is there its data. *)
Definition reply_good (status : Z) (exists_ : bool) (data : list Z) : Prop :=
  status = HSK_SUCCESS -> exists_ = true -> data <> [] -> resource_good data.
Lemma runs_after_resolve ns name status exists_ data req (Q : hsk_ns_t P -> Prop) : ns_ok ns -> waiting req ->
  reply_good status exists_ data -> (forall ns', answered ns ns' req -> Q ns') ->
  runs (after_resolve tlds ns name status exists_ data req) Q.
Proof.
  intros Hn Hw Hg HQ. unfold after_resolve. apply (runs_bind _ _ resolved).
  - destruct (Z.eqb_spec status HSK_SUCCESS) as [Es|]; cbn [negb]; [|by apply runs_ret].
    destruct exists_; cbn [negb orb]; [destruct (Nat.eqb_spec (length data) 0) as [E0|E0]|].
    2: { apply runs_resolve_data, Hg; [done|done|]. by intros ->. }
    all: destruct Htlds as [Hsort Hitems]; destruct (icann_lookup_spec tlds name Hsort) as [[E _]|(i & it & E & Hi & _)];
      (eapply returns_bind; [by apply returns_lift|]); [by apply runs_ret|];
      destruct (Forall_lookup_1 _ _ _ _ Hitems Hi) as (raw & Eraw & Hraw); cbv iota;
      (eapply returns_bind; [by apply returns_lift|]); by apply runs_resolve_data.
  - intros [status' res] Hres. cbn [fst snd]. by apply runs_respond.
Qed.

(** ** Set-up *)

(** The address that the server listens on. *)
Definition listen_ok (addr : sockaddr) : Prop := sender_ok addr /\ bytes (sa_addr addr) /\
  length (sa_addr addr) = (if (sa_family addr =? AF_INET)%Z then 4 else 16)%nat.
Lemma localized_ok a : ad_type a = 0 -> addr_ok a -> exists a', hsk_addr_localize a = Some a' /\ addr_ok a'.
Proof.
  intros Ht [Hl Hb]. unfold hsk_addr_localize. rewrite Ht. cbn [negb Z.eqb]. eexists. split; [done|].
  assert (Hins : forall ip i x, bytes_n 36 ip -> 0 <= x < 256 -> bytes_n 36 (<[i:=x]> ip)).
  { intros ip i x [Hl' Hb'] Hx. split; [by rewrite length_insert|by apply Forall_insert]. }
  destruct (hsk_addr_is_null a); [|by split]. destruct (hsk_addr_is_ip4 a); unfold addr_ok; cbn [ad_ip]; repeat (apply Hins; [|lia]); by split.
Qed.
Lemma set_ip_ok ns addr : listen_ok addr -> exists ip, hsk_ns_set_ip ns (Some addr) = (true, with_ip ns (Some ip)) /\ addr_ok ip.
Proof.
  intros ([t E] & Hb & Hl). unfold hsk_ns_set_ip. unfold hsk_sa_to_string in E.
  destruct (hsk_addr_from_sa addr) as [a|] eqn:Ea; [|done].
  assert (Ha : ad_type a = 0 /\ addr_ok a).
  { unfold hsk_addr_from_sa, hsk_addr_set_ip in Ea. destruct (sa_family addr =? AF_INET).
    - injection Ea as <-. split; [done|]. unfold addr_ok. cbn [ad_ip hsk_addr_set_port]. rewrite take_ge by lia. split; [cbn; by rewrite length_app, Hl|].
      change (bytes (replicate 10 0 ++ replicate 2 255 ++ sa_addr addr ++ replicate 20 0)). rewrite !bytes_app.
      split_and!; try done; by apply bytes_replicate.
    - destruct (sa_family addr =? AF_INET6); [|done]. injection Ea as <-. split; [done|]. unfold addr_ok. cbn [ad_ip hsk_addr_set_port].
      rewrite take_ge by lia. split; [by rewrite length_app, Hl|]. rewrite bytes_app. split; [done|by apply (bytes_replicate 20)]. }
  destruct Ha as [Ht Ha]. destruct (localized_ok a Ht Ha) as (a' & -> & Ha'). by exists a'.
Qed.
Lemma open_ok p key addr : pool_pending p = [] -> listen_ok addr -> made (bytes_n 32) key -> exists ns,
  hsk_ns_open (snd (hsk_ns_set_key (hsk_ns_init p) key)) (Some addr) true (fun _ => 0) = Ret (HSK_SUCCESS, ns) /\
  ns_ok ns /\ pending ns = [] /\ ns_sent ns = [].
Proof.
  intros Hp Ha Hkey. set (ns := snd _).
  assert (Hns : ns_pool ns = p /\ ns_ip ns = None /\ ns_cache ns = hsk_cache_init /\ ns_sent ns = [] /\ signer_ok (ns_key ns)).
  { subst ns. unfold hsk_ns_set_key. destruct key as [k|]; [|done]. destruct (host_ec_create_pubkey k) as [pub|] eqn:E; [|done].
    do 4 (split; [done|]). destruct Hkey as [Hl _]. cbn. rewrite take_ge, E by lia. by eexists. }
  destruct Hns as (Ep & Ei & Ec & Es & Ek). unfold hsk_ns_open. cbn [negb forallb seq andb Z.eqb]. cbv zeta. cbn [ns_ip with_socket]. rewrite Ei.
  destruct (set_ip_ok (with_socket (with_socket ns true (ns_receiving ns)) true true) addr Ha) as (ip & -> & Hip).
  destruct (sender_print addr HSK_NS_PORT (proj1 Ha) ltac:(done)) as [t ->]. eexists. split; [reflexivity|]. cbn [snd]. split; [|by unfold pending; cbn; rewrite Ep].
  split; [done|by exists ip|exists ∅; cbn; rewrite Ec; apply cache_ok_init| |exact Ek]. unfold pending. cbn. rewrite Ep, Hp. constructor.
Qed.

(** * Runs *)

(** A datagram, or a call back of the pool for the [k]-th request that waits. *)
Inductive ns_event :=
  | EvRecv (nread : Z) (buf : list Z) (addr : option sockaddr)
  | EvResolved (k : nat) (status : Z) (exists_ : bool) (data : list Z).
Definition ns_step ns (e : ns_event) : io (hsk_ns_t P) :=
  match e with
  | EvRecv nread buf addr => after_recv ns nread buf addr
  | EvResolved k status exists_ data =>
      match pending ns !! k with
      | None => mret ns
      | Some req => after_resolve tlds (with_pool ns (pool_done (ns_pool ns) k)) (req_tld req) status exists_ data req
      end
  end.
Fixpoint ns_run ns (es : list ns_event) : io (hsk_ns_t P) :=
  match es with [] => mret ns | e :: es => ns ← ns_step ns e; ns_run ns es end.
Definition event_ok (e : ns_event) : Prop :=
  match e with
  | EvRecv nread buf (Some addr) => 0 <= nread ->
      bytes (take (Z.to_nat nread) buf) /\ sender_ok addr /\ queries_served (take (Z.to_nat nread) buf) addr
  | EvRecv _ _ None => True
  | EvResolved _ status exists_ data => reply_good status exists_ data
  end.
(** The query that an event brings, and those of a run. *)
Definition event_query (e : ns_event) (o : option hsk_dns_req_t) : Prop :=
  match e with
  | EvRecv nread buf (Some addr) =>
      if nread <? 0 then o = None
      else match o with
           | Some req => query_of (take (Z.to_nat nread) buf) addr req
           | None => forall req, ~ query_of (take (Z.to_nat nread) buf) addr req
           end
  | _ => o = None
  end.
Definition accepted (es : list ns_event) (reqs : list hsk_dns_req_t) : Prop := exists os, Forall2 event_query es os /\ reqs = omap id os.
(** Every query has its answer, is refused, or waits. *)
Definition accounted (reqs : list hsk_dns_req_t) ns : Prop := ns_ok ns /\
  exists rs ds, reqs ≡ₚ rs ++ ds ++ pending ns /\ Forall2 answers rs (ns_sent ns) /\ Forall refused ds.
(** The pool calls back for each of [n] requests. *)
Fixpoint drains (n : nat) (es : list ns_event) : Prop :=
  match n, es with
  | O, [] => True
  | S n', EvResolved k _ _ _ :: es' => (k < n)%nat /\ drains n' es'
  | _, _ => False
  end.

Lemma accounted_answered reqs ns ns' req : accounted reqs ns -> answered ns ns' req -> accounted (reqs ++ [req]) ns'.
Proof.
  intros (_ & rs & ds & Hp & Hf & Hx) (Hok & d & Hd & Es & Ep). split; [done|]. exists (req :: rs), ds. rewrite Es, Ep. split; [|by split; [constructor|]].
  rewrite Hp. cbn [app]. by rewrite Permutation_app_comm.
Qed.
Lemma accounted_done reqs ns ns' req : accounted reqs ns -> done_with ns ns' req -> accounted (reqs ++ [req]) ns'.
Proof.
  intros Ha (Hok & [(d & Hd)|[[Es Ep]|(Hr & Es & Ep)]]); [apply (accounted_answered reqs ns); [done|split; [done|by exists d]]| |].
  all: destruct Ha as (_ & rs & ds & Hp & Hf & Hx); split; [done|].
  - exists rs, ds. rewrite Es, Ep. split; [|done]. by rewrite Hp, <-!(assoc_L (++)).
  - exists rs, (req :: ds). rewrite Es, Ep. split; [|by split; [|constructor]]. rewrite Hp.
    rewrite Permutation_app_comm. cbn [app]. by rewrite Permutation_middle.
Qed.
Lemma done_state ns k req : ns_ok ns -> pending ns !! k = Some req -> let ns' := with_pool ns (pool_done (ns_pool ns) k) in
  ns_ok ns' /\ pending ns' = delete k (pending ns) /\ waiting req.
Proof.
  intros [Hsk Hip Hca Hpe Hky] Hk. cbv zeta.
  assert (Ep : pending (with_pool ns (pool_done (ns_pool ns) k)) = delete k (pending ns)) by (unfold pending; cbn; apply pool_done_ok).
  split; [|split; [exact Ep|by eapply Forall_lookup_1]]. split; try done. rewrite Ep. by apply Forall_delete.
Qed.
Lemma run_resolved reqs ns k status exists_ data req (Q : hsk_ns_t P -> Prop) : accounted reqs ns -> pending ns !! k = Some req ->
  reply_good status exists_ data ->
  (forall ns', accounted reqs ns' -> pending ns' = delete k (pending ns) -> Q ns') -> runs (ns_step ns (EvResolved k status exists_ data)) Q.
Proof.
  intros (Hn & rs & ds & Hp & Hf & Hx) Hk Hg HQ. cbn [ns_step]. rewrite Hk. destruct (done_state ns k req Hn Hk) as (Hn' & Ep & Hw).
  apply runs_after_resolve; [done..|]. intros ns' (Hok & d & Hd & Es' & Ep'). rewrite Ep in Ep'. apply HQ; [|done]. split; [done|].
  exists (req :: rs), ds. rewrite Es', Ep'. split; [|by split; [constructor|]]. rewrite Hp. cbn [app].
  rewrite (delete_Permutation (pending ns) k req Hk) at 1. by rewrite !(assoc_L (++)), <-Permutation_middle.
Qed.
Lemma step_accounted reqs ns e : accounted reqs ns -> event_ok e ->
  runs (ns_step ns e) (fun ns' => exists o, event_query e o /\ accounted (reqs ++ option_list o) ns').
Proof.
  intros Ha He. assert (Hn := proj1 Ha). destruct e as [nread buf [addr|]|k status exists_ data].
  - cbn [ns_step event_query event_ok] in *. unfold after_recv. destruct (Z.ltb_spec nread 0) as [|Hr].
    { apply runs_ret. exists None. split; [done|]. by rewrite app_nil_r. }
    destruct (He Hr) as (Hb & Hs & Hq). apply runs_onrecv; [done..| |].
    + intros req ns' Hreq Hd. exists (Some req). split; [done|]. by apply (accounted_done reqs ns).
    + intros Hno. exists None. split; [done|]. by rewrite app_nil_r.
  - cbn [ns_step event_query] in *. unfold after_recv. destruct (nread <? 0); apply runs_ret; exists None; (split; [done|]); by rewrite app_nil_r.
  - destruct (pending ns !! k) as [req|] eqn:Ek.
    + eapply (run_resolved reqs ns k); [done|done|done|]. intros ns' Ha' _. exists None. split; [done|]. by rewrite app_nil_r.
    + cbn [ns_step]. rewrite Ek. apply runs_ret. exists None. split; [done|]. by rewrite app_nil_r.
Qed.
Lemma run_accounted es : forall reqs0 ns, accounted reqs0 ns -> Forall event_ok es ->
  runs (ns_run ns es) (fun ns' => exists reqs, accepted es reqs /\ accounted (reqs0 ++ reqs) ns').
Proof.
  induction es as [|e es IH]; intros reqs0 ns Ha He.
  { apply runs_ret. exists []. split; [exists []; split; [constructor|done]|]. by rewrite app_nil_r. }
  apply Forall_cons in He as [He Hes]. cbn [ns_run]. eapply runs_bind; [by apply (step_accounted reqs0)|].
  intros ns' (o & Ho & Ha'). eapply runs_weaken; [by apply (IH (reqs0 ++ option_list o))|].
  intros ns2 (reqs & (os & Hos & ->) & Ha2). exists (option_list o ++ omap id os). split.
  - exists (o :: os). split; [by constructor|]. by destruct o.
  - by rewrite (assoc_L (++)).
Qed.
Lemma run_drains es : forall reqs ns, accounted reqs ns -> Forall event_ok es -> drains (length (pending ns)) es ->
  runs (ns_run ns es) (fun ns' => accounted reqs ns' /\ pending ns' = []).
Proof.
  induction es as [|e es IH]; intros reqs ns Ha He Hd.
  { apply runs_ret. split; [done|]. by destruct (pending ns). }
  apply Forall_cons in He as [He Hes]. destruct (length (pending ns)) as [|n] eqn:El; [done|]. destruct e as [|k status exists_ data]; [done|].
  destruct Hd as [Hk Hd]. destruct (lookup_lt_is_Some_2 (pending ns) k ltac:(lia)) as [req Ereq]. cbn [ns_run].
  apply (runs_bind _ _ (fun ns' => accounted reqs ns' /\ length (pending ns') = n)).
  - apply (run_resolved reqs ns k status exists_ data req); [done..|]. intros ns' Ha' Ep. split; [done|]. rewrite Ep.
    assert (Hl := length_delete (pending ns) k ltac:(by exists req)). lia.
  - intros ns' [Ha' En]. apply IH; [done..|]. by rewrite En.
Qed.

(** * Properties *)

End Ns.

(** * Witness *)

#[local] Existing Instance sample_host.
#[local] Existing Instance sample_host_ok.
(** A pool that takes every request. *)
#[local] Instance sample_pool : Pool (list hsk_dns_req_t) := {
  pool_resolve p _ req := mret (HSK_SUCCESS, p ++ [req]);
  pool_status _ := sample_info;
}.
#[local, refine] Instance sample_pool_ok : PoolOk (list hsk_dns_req_t) := {
  pool_pending p := p;
  pool_done p k := delete k p;
}.
Proof.
  - done.
  - intros p tld req. apply runs_ret. by left.
  - intros p. apply sample_info_ok.
Defined.
Lemma sample_tlds_ok : tlds_ok sample_tlds.
Proof.
  split; [apply sample_tlds_sorted|]. repeat (apply Forall_cons; split); [..|constructor]; (eexists; split; [vm_compute; reflexivity|]);
    (split; [apply (bool_decide_unpack _); vm_compute; exact I|]); [vm_compute; constructor| |done].
  change (hsk_resource_decode true (fun _ => all_ok) [0; 4; 1; 2; 3; 4]) with (Ret (mk_resource 0 HSK_DEFAULT_TTL [RecSynth4 [1; 2; 3; 4]])).
  apply Forall_singleton. split; [|done]. split; [done|]. apply (bool_decide_unpack _). vm_compute. exact I.
Qed.
Lemma sample_sender : sender_ok sample_addr.
Proof. eexists. vm_compute. reflexivity. Qed.
Lemma sample_query_of : query_of sample_query sample_addr sample_req.
Proof.
  eexists _, _, [[119; 119; 119]; [65; 98]]. split; [vm_compute; reflexivity|]. split; [by split_and!|]. split; [reflexivity|].
  split; [apply sample_req_ok|]. split; [by vm_compute|reflexivity].
Qed.
