(* ===== verification/Chacha20.v ===== *)
(** The stream cipher of the encrypted transport: [chacha20/chacha20.c].

    The schedule is the list of its sixteen words. The key stream is written byte by byte
    and read byte by byte, so it is the list of its 64 bytes, on any host. A
    buffer that is encrypted in place is read before it is written at each byte. *)

From Stdlib Require Import String.
From S2P Require Import Prelude Bio Blake2b Sha256.

Record hsk_chacha20_ctx := mk_chacha {
  cc_schedule : list Z;
  cc_keystream : list Z;
  cc_available : nat;
  cc_nonce_size : Z;
}.

Definition ROTL32 (v n : Z) : Z := Z.lor (u32 (Z.shiftl v n)) (Z.shiftr v (32 - n)).
Definition READLE (p : list Z) : Z :=
  Z.lor (Z.lor (Z.lor p.[0] (u32 (Z.shiftl p.[1] 8))) (u32 (Z.shiftl p.[2] 16))) (u32 (Z.shiftl p.[3] 24)).
Definition WRITELE (i : Z) : list Z :=
  [Z.land i 0xFF; Z.land (Z.shiftr i 8) 0xFF; Z.land (Z.shiftr i 16) 0xFF; Z.land (Z.shiftr i 24) 0xFF].

Definition QUARTERROUND (x : list Z) (a b c d : nat) : list Z :=
  let x := <[a := u32 (x.[a] + x.[b])]> x in let x := <[d := ROTL32 (Z.lxor x.[d] x.[a]) 16]> x in
  let x := <[c := u32 (x.[c] + x.[d])]> x in let x := <[b := ROTL32 (Z.lxor x.[b] x.[c]) 12]> x in
  let x := <[a := u32 (x.[a] + x.[b])]> x in let x := <[d := ROTL32 (Z.lxor x.[d] x.[a]) 8]> x in
  let x := <[c := u32 (x.[c] + x.[d])]> x in <[b := ROTL32 (Z.lxor x.[b] x.[c]) 7]> x.

(** [READLE(key + off)] *)
Definition key_word (key : list Z) (off : nat) : Z := READLE (drop off key).
(** The ASCII codes of a text. *)
Definition text_of (s : string) : list Z := List.map (fun c => Z.of_nat (Ascii.nat_of_ascii c)) (list_ascii_of_string s).

Definition hsk_chacha20_keysetup (ctx : hsk_chacha20_ctx) (key : list Z) (len : nat) : hsk_chacha20_ctx :=
  let constants := text_of (if (len =? 32)%nat then "expand 32-byte k" else "expand 16-byte k") in
  mk_chacha (List.map (key_word constants) [0; 4; 8; 12]%nat ++ List.map (key_word key) [0; 4; 8; 12]%nat ++
      List.map (fun off => key_word key (off mod len)) [16; 20; 24; 28]%nat ++ [0] ++ drop 13 (cc_schedule ctx))
    (cc_keystream ctx) 0 8.
Definition hsk_chacha20_ivsetup (ctx : hsk_chacha20_ctx) (nonce : list Z) (nonce_size : Z) : hsk_chacha20_ctx :=
  mk_chacha (take 12 (cc_schedule ctx) ++ [0] ++
      (if nonce_size =? 8 then [0; key_word nonce 0; key_word nonce 4] else [key_word nonce 0; key_word nonce 4; key_word nonce 8]))
    (cc_keystream ctx) (cc_available ctx) nonce_size.
Definition hsk_chacha20_setup (ctx : hsk_chacha20_ctx) (key : list Z) (len : nat) (nonce : list Z) (nonce_size : Z) : hsk_chacha20_ctx :=
  hsk_chacha20_ivsetup (hsk_chacha20_keysetup ctx key len) nonce nonce_size.

Definition hsk_chacha20_counter_set (ctx : hsk_chacha20_ctx) (counter : Z) : hsk_chacha20_ctx :=
  let s := cc_schedule ctx in
  let s := if cc_nonce_size ctx =? 8 then <[13%nat := u32 (Z.shiftr counter 32)]> (<[12%nat := Z.land counter 0xFFFFFFFF]> s)
           else <[12%nat := u32 counter]> s in
  mk_chacha s (cc_keystream ctx) 0 (cc_nonce_size ctx).
Definition hsk_chacha20_counter_get (ctx : hsk_chacha20_ctx) : Z :=
  let s := cc_schedule ctx in
  if cc_nonce_size ctx =? 8 then Z.lor (u64 (Z.shiftl s.[13] 32)) s.[12] else s.[12].

(** The body of the loop on the words. *)
Definition double_round (x : list Z) : list Z :=
  let x := QUARTERROUND x 0 4 8 12 in let x := QUARTERROUND x 1 5 9 13 in
  let x := QUARTERROUND x 2 6 10 14 in let x := QUARTERROUND x 3 7 11 15 in
  let x := QUARTERROUND x 0 5 10 15 in let x := QUARTERROUND x 1 6 11 12 in
  let x := QUARTERROUND x 2 7 8 13 in QUARTERROUND x 3 4 9 14.
(** The block, and the context with the next counter. *)
Definition hsk_chacha20_block (ctx : hsk_chacha20_ctx) : hsk_chacha20_ctx * list Z :=
  let s := cc_schedule ctx in
  let output := Nat.iter 10 double_round s in
  let output := concat (List.map (fun i => WRITELE (u32 (output.[i] + s.[i]))) (seq 0 16)) in
  let s := <[12%nat := u32 (s.[12] + 1)]> s in
  let s := if (s.[12] =? 0) && (cc_nonce_size ctx =? 8) then <[13%nat := u32 (s.[13] + 1)]> s else s in
  (mk_chacha s (cc_keystream ctx) (cc_available ctx) (cc_nonce_size ctx), output).

Definition hsk_chacha20_xor (keystream inp : list Z) (len : nat) : list Z :=
  zip_with Z.lxor (take len inp) (take len keystream).

(** [while (length)]; the fuel is the length. *)
Fixpoint chacha20_loop (fuel : nat) (ctx : hsk_chacha20_ctx) (inp : list Z) : hsk_chacha20_ctx * list Z :=
  match fuel with
  | O => (ctx, [])
  | S fuel' =>
      if (length inp =? 0)%nat then (ctx, [])
      else
        let amount := Nat.min (length inp) 64 in
        let '(ctx, k) := hsk_chacha20_block ctx in
        let out := hsk_chacha20_xor k inp amount in
        let ctx := mk_chacha (cc_schedule ctx) k (64 - amount) (cc_nonce_size ctx) in
        let '(ctx, rest) := chacha20_loop fuel' ctx (drop amount inp) in
        (ctx, out ++ rest)
  end.
Definition hsk_chacha20_encrypt (ctx : hsk_chacha20_ctx) (inp : list Z) : hsk_chacha20_ctx * list Z :=
  if (length inp =? 0)%nat then (ctx, [])
  else
    let amount := if (cc_available ctx =? 0)%nat then 0%nat else Nat.min (length inp) (cc_available ctx) in
    let size := (64 - cc_available ctx)%nat in
    let out := hsk_chacha20_xor (drop size (cc_keystream ctx)) inp amount in
    let ctx := mk_chacha (cc_schedule ctx) (cc_keystream ctx) (cc_available ctx - amount) (cc_nonce_size ctx) in
    let '(ctx, rest) := chacha20_loop (length inp) ctx (drop amount inp) in
    (ctx, out ++ rest).
Definition hsk_chacha20_decrypt (ctx : hsk_chacha20_ctx) (inp : list Z) : hsk_chacha20_ctx * list Z :=
  hsk_chacha20_encrypt ctx inp.

(** Encrypts a sequence of buffers. *)
Fixpoint chacha20_parts (ctx : hsk_chacha20_ctx) (parts : list (list Z)) : hsk_chacha20_ctx * list Z :=
  match parts with
  | [] => (ctx, [])
  | p :: parts' =>
      let '(ctx, out) := hsk_chacha20_encrypt ctx p in
      let '(ctx, rest) := chacha20_parts ctx parts' in (ctx, out ++ rest)
  end.

(** * RFC 8439

    The state is a matrix of four rows of four words. A round works on whole columns; between
    the two rounds of a pair the rows are rotated so that the diagonals stand in columns. *)

Definition rotl (v n : Z) : Z := u32 (v * 2 ^ n) + v / 2 ^ (32 - n).
Definition add_row (a b : list Z) : list Z := zip_with (fun x y => (x + y) mod 2 ^ 32) a b.
Definition xor_rotl (n : Z) (a b : list Z) : list Z := zip_with (fun x y => rotl (Z.lxor x y) n) a b.
Definition rotate_row (n : nat) (r : list Z) : list Z := drop n r ++ take n r.
Record matrix := mk_matrix { row_a : list Z; row_b : list Z; row_c : list Z; row_d : list Z }.
Definition rfc_round (m : matrix) : matrix :=
  let '(mk_matrix a b c d) := m in
  let a := add_row a b in let d := xor_rotl 16 d a in
  let c := add_row c d in let b := xor_rotl 12 b c in
  let a := add_row a b in let d := xor_rotl 8 d a in
  let c := add_row c d in let b := xor_rotl 7 b c in mk_matrix a b c d.
Definition diagonals (m : matrix) : matrix :=
  mk_matrix (row_a m) (rotate_row 1 (row_b m)) (rotate_row 2 (row_c m)) (rotate_row 3 (row_d m)).
Definition columns (m : matrix) : matrix :=
  mk_matrix (row_a m) (rotate_row 3 (row_b m)) (rotate_row 2 (row_c m)) (rotate_row 1 (row_d m)).
Definition rfc_double_round (m : matrix) : matrix := columns (rfc_round (diagonals (rfc_round m))).
Definition words (n : nat) (bs : list Z) : list Z := List.map (fun i => le_combine (take 4 (drop (4 * i) bs))) (seq 0 n).
(** The first column of words, in hexadecimal, of the RFC. *)
Definition rfc_matrix (key : list Z) (counter : Z) (nonce : list Z) : matrix :=
  mk_matrix [0x61707865; 0x3320646e; 0x79622d32; 0x6b206574] (words 4 key) (words 4 (drop 16 key))
    (counter mod 2 ^ 32 :: words 3 nonce).
Definition rfc8439_block (key : list Z) (counter : Z) (nonce : list Z) : list Z :=
  let m := rfc_matrix key counter nonce in
  let m' := Nat.iter 10 rfc_double_round m in
  concat (List.map (le_split 4) (add_row (row_a m') (row_a m) ++ add_row (row_b m') (row_b m) ++
    add_row (row_c m') (row_c m) ++ add_row (row_d m') (row_d m))).
(** Byte [i] of the key stream, whose first block has the counter [counter]. *)
Definition rfc8439_stream (key : list Z) (counter : Z) (nonce : list Z) (i : nat) : Z :=
  (rfc8439_block key (counter + Z.of_nat (i / 64)) nonce).[i mod 64].
Definition rfc8439_chacha20 (key : list Z) (counter : Z) (nonce data : list Z) : list Z :=
  imap (fun i b => Z.lxor b (rfc8439_stream key counter nonce i)) data.

(** The test vectors of sections 2.3.2 and 2.4.2. *)
Definition sample_key : list Z := List.map Z.of_nat (seq 0 32).
Definition sample_nonce : list Z := [0; 0; 0; 0; 0; 0; 0; 0x4a; 0; 0; 0; 0].
Definition sunscreen : list Z := text_of "Ladies and Gentlemen of the class of '99: If I could offer you only one tip for the future, sunscreen would be it.".
Definition zero_ctx : hsk_chacha20_ctx := mk_chacha (replicate 16 0) (replicate 64 0) 0 8.
Example rfc8439_block_vector : be_combine (rfc8439_block sample_key 1 [0; 0; 0; 9; 0; 0; 0; 0x4a; 0; 0; 0; 0]) =
  0x10f1e7e4d13b5915500fdd1fa32071c4c7d1f4c733c068030422aa9ac3d46c4ed2826446079faa0914c2d705d98b02a2b5129cd1de164eb9cbd083e8a2503c4e.
Proof. vm_compute. reflexivity. Qed.
Example chacha20_vector :
  let ctx := hsk_chacha20_counter_set (hsk_chacha20_setup zero_ctx sample_key 32 sample_nonce 12) 1 in
  be_combine (take 32 (snd (chacha20_parts ctx [take 3 sunscreen; drop 3 sunscreen]))) =
  0x6e2e359a2568f98041ba0728dd0d6981e97e7aec1d4360c20a27afccfd9fae0b.
Proof. vm_compute. reflexivity. Qed.
