(* ===== verification/Chacha20Props.v ===== *)
(** The stream cipher of [Chacha20] against RFC 8439. *)

From S2P Require Import Prelude Bio Blake2b Sha256 Sha256Props Chacha20.

(** * Words *)

Lemma ROTL32_rotl v n : in32 v -> 0 < n < 32 -> ROTL32 v n = rotl v n /\ in32 (rotl v n).
Proof.
  intros Hv Hn. cbn beta in *. unfold ROTL32, rotl, u32. rewrite Z.shiftr_div_pow2, <-Z.shiftl_mul_pow2 by lia.
  assert (E : 2 ^ 32 = 2 ^ (32 - n) * 2 ^ n) by (rewrite <-Z.pow_add_r by lia; f_equal; lia).
  assert (H1 : 0 < 2 ^ n) by (apply Z.pow_pos_nonneg; lia). assert (H2 : 0 < 2 ^ (32 - n)) by (apply Z.pow_pos_nonneg; lia).
  assert (Hq : 0 <= v / 2 ^ (32 - n) < 2 ^ n).
  { split; [apply Z.div_pos; lia|]. apply Z.div_lt_upper_bound; [lia|]. rewrite <-E. lia. }
  assert (Em : Z.shiftl v n mod 2 ^ 32 = Z.shiftl (v mod 2 ^ (32 - n)) n) by (by rewrite !Z.shiftl_mul_pow2, E, Z.mul_mod_distr_r by lia).
  rewrite Em, lor_shiftl_add, Z.shiftl_mul_pow2 by lia. split; [done|]. assert (Hm := Z.mod_pos_bound v _ H2). nia.
Qed.
Lemma lxor_in32 x y : in32 x -> in32 y -> in32 (Z.lxor x y).
Proof.
  intros Hx Hy. cbn beta in *. replace (Z.lxor x y) with ((Z.lxor x y) mod 2 ^ 32); [apply Z.mod_pos_bound; lia|].
  rewrite <-(Z.mod_small x (2 ^ 32)) at 2 by done. rewrite <-(Z.mod_small y (2 ^ 32)) at 2 by done.
  apply Z.bits_inj'. intros i Hi. rewrite Z.lxor_spec. destruct (Z.ltb_spec i 32).
  - rewrite !Z.mod_pow2_bits_low by lia. by rewrite Z.lxor_spec.
  - by rewrite !Z.mod_pow2_bits_high by lia.
Qed.
Lemma READLE_le p : bytes p -> (4 <= length p)%nat -> READLE p = le_combine (take 4 p).
Proof.
  intros Hp Hl. destruct p as [|b0 [|b1 [|b2 [|b3 p]]]]; cbn [length] in Hl; try lia. do 4 apply bytes_cons_inv in Hp as [? Hp].
  unfold READLE. cbn [nth take le_combine]. rewrite !(u32_small (Z.shiftl _ _)) by (rewrite Z.shiftl_mul_pow2 by lia; lia).
  rewrite (lor_add_shiftl b1 b0), (lor_add_shiftl b2 (b0 + _)), (lor_add_shiftl b3 (_ + _)), take_0 by lia. cbn [le_combine]. lia.
Qed.
Lemma WRITELE_le x : in32 x -> WRITELE x = le_split 4 x.
Proof.
  intros Hx. unfold WRITELE. rewrite !Z.shiftr_div_pow2 by lia. change 0xFF with (Z.ones 8). rewrite !Z.land_ones by lia.
  cbn [le_split]. rewrite !Z.div_div by lia. done.
Qed.

(** * Rounds *)

(** A quarter round of four words. *)
Definition quarter (v : Z * Z * Z * Z) : Z * Z * Z * Z :=
  let '(a, b, c, d) := v in
  let a := u32 (a + b) in let d := ROTL32 (Z.lxor d a) 16 in
  let c := u32 (c + d) in let b := ROTL32 (Z.lxor b c) 12 in
  let a := u32 (a + b) in let d := ROTL32 (Z.lxor d a) 8 in
  let c := u32 (c + d) in let b := ROTL32 (Z.lxor b c) 7 in (a, b, c, d).
Definition in32_4 (v : Z * Z * Z * Z) : Prop := let '(a, b, c, d) := v in in32 a /\ in32 b /\ in32 c /\ in32 d.
Lemma quarter_in32 v : in32_4 v -> in32_4 (quarter v).
Proof.
  destruct v as [[[a b] c] d]. intros (Ha & Hb & Hc & Hd). cbn [quarter].
  assert (Hr : forall x y n, in32 x -> in32 y -> 0 < n < 32 -> in32 (ROTL32 (Z.lxor x y) n)).
  { intros x y n Hx Hy Hn. destruct (ROTL32_rotl (Z.lxor x y) n) as [-> ?]; [by apply lxor_in32|done|done]. }
  repeat split; repeat first [apply Hr|apply u32_range|lia]; try done.
Qed.
Lemma quarter_row v : in32_4 v -> let '(a, b, c, d) := v in
  rfc_round (mk_matrix [a] [b] [c] [d]) = let '(a', b', c', d') := quarter v in mk_matrix [a'] [b'] [c'] [d'].
Proof.
  destruct v as [[[a b] c] d]. intros (Ha & Hb & Hc & Hd). cbn [quarter]. unfold rfc_round, add_row, xor_rotl. cbn [zip_with].
  repeat match goal with
  | |- context [rotl (Z.lxor ?x ?y) ?n] =>
      let E := fresh in let Hi := fresh in
      destruct (ROTL32_rotl (Z.lxor x y) n) as [E Hi]; [apply lxor_in32; first [done|apply u32_range|by apply Z.mod_pos_bound]|lia|];
      rewrite <-E in *
  end. done.
Qed.
Lemma rfc_round_cons a b c d la lb lc ld : rfc_round (mk_matrix (a :: la) (b :: lb) (c :: lc) (d :: ld)) =
  let r := rfc_round (mk_matrix [a] [b] [c] [d]) in let r' := rfc_round (mk_matrix la lb lc ld) in
  mk_matrix (row_a r ++ row_a r') (row_b r ++ row_b r') (row_c r ++ row_c r') (row_d r ++ row_d r').
Proof. done. Qed.

(** The state as a list of words. *)
Definition words_of (m : matrix) : list Z := row_a m ++ row_b m ++ row_c m ++ row_d m.
Definition matrix_ok (m : matrix) : Prop :=
  Forall (fun r => length r = 4%nat /\ Forall in32 r) [row_a m; row_b m; row_c m; row_d m].
Lemma row4 (r : list Z) : length r = 4%nat /\ Forall in32 r -> exists x0 x1 x2 x3, r = [x0; x1; x2; x3] /\
  in32 x0 /\ in32 x1 /\ in32 x2 /\ in32 x3.
Proof.
  intros [Hl Hf]. destruct r as [|x0 [|x1 [|x2 [|x3 [|]]]]]; try done. exists x0, x1, x2, x3. split; [done|].
  rewrite !Forall_cons in Hf. tauto.
Qed.
Lemma row4_ok x0 x1 x2 x3 : in32 x0 -> in32 x1 -> in32 x2 -> in32 x3 ->
  length [x0; x1; x2; x3] = 4%nat /\ Forall in32 [x0; x1; x2; x3].
Proof. intros. split; [done|]. by repeat apply Forall_cons_2. Qed.
Lemma rfc_round_columns x0 x1 x2 x3 x4 x5 x6 x7 x8 x9 x10 x11 x12 x13 x14 x15 :
  in32_4 (x0, x4, x8, x12) -> in32_4 (x1, x5, x9, x13) -> in32_4 (x2, x6, x10, x14) -> in32_4 (x3, x7, x11, x15) ->
  rfc_round (mk_matrix [x0; x1; x2; x3] [x4; x5; x6; x7] [x8; x9; x10; x11] [x12; x13; x14; x15]) =
  let '(a0, b0, c0, d0) := quarter (x0, x4, x8, x12) in let '(a1, b1, c1, d1) := quarter (x1, x5, x9, x13) in
  let '(a2, b2, c2, d2) := quarter (x2, x6, x10, x14) in let '(a3, b3, c3, d3) := quarter (x3, x7, x11, x15) in
  mk_matrix [a0; a1; a2; a3] [b0; b1; b2; b3] [c0; c1; c2; c3] [d0; d1; d2; d3].
Proof.
  intros H0 H1 H2 H3. apply quarter_row in H0, H1, H2, H3.
  rewrite (rfc_round_cons x0 x4 x8 x12), H0, (rfc_round_cons x1 x5 x9 x13), H1, (rfc_round_cons x2 x6 x10 x14), H2, H3.
  destruct (quarter (x0, x4, x8, x12)) as [[[? ?] ?] ?], (quarter (x1, x5, x9, x13)) as [[[? ?] ?] ?],
    (quarter (x2, x6, x10, x14)) as [[[? ?] ?] ?], (quarter (x3, x7, x11, x15)) as [[[? ?] ?] ?]. done.
Qed.
Lemma code_columns x0 x1 x2 x3 x4 x5 x6 x7 x8 x9 x10 x11 x12 x13 x14 x15 :
  QUARTERROUND (QUARTERROUND (QUARTERROUND (QUARTERROUND [x0; x1; x2; x3; x4; x5; x6; x7; x8; x9; x10; x11; x12; x13; x14; x15]
    0 4 8 12) 1 5 9 13) 2 6 10 14) 3 7 11 15 =
  let '(a0, b0, c0, d0) := quarter (x0, x4, x8, x12) in let '(a1, b1, c1, d1) := quarter (x1, x5, x9, x13) in
  let '(a2, b2, c2, d2) := quarter (x2, x6, x10, x14) in let '(a3, b3, c3, d3) := quarter (x3, x7, x11, x15) in
  [a0; a1; a2; a3; b0; b1; b2; b3; c0; c1; c2; c3; d0; d1; d2; d3].
Proof. reflexivity. Qed.
Lemma code_diagonals x0 x1 x2 x3 x4 x5 x6 x7 x8 x9 x10 x11 x12 x13 x14 x15 :
  QUARTERROUND (QUARTERROUND (QUARTERROUND (QUARTERROUND [x0; x1; x2; x3; x4; x5; x6; x7; x8; x9; x10; x11; x12; x13; x14; x15]
    0 5 10 15) 1 6 11 12) 2 7 8 13) 3 4 9 14 =
  let '(a0, b0, c0, d0) := quarter (x0, x5, x10, x15) in let '(a1, b1, c1, d1) := quarter (x1, x6, x11, x12) in
  let '(a2, b2, c2, d2) := quarter (x2, x7, x8, x13) in let '(a3, b3, c3, d3) := quarter (x3, x4, x9, x14) in
  [a0; a1; a2; a3; b3; b0; b1; b2; c2; c3; c0; c1; d1; d2; d3; d0].
Proof. reflexivity. Qed.

Lemma double_round_spec m : matrix_ok m -> double_round (words_of m) = words_of (rfc_double_round m) /\ matrix_ok (rfc_double_round m).
Proof.
  destruct m as [ra rb rc rd]. unfold matrix_ok. cbn [row_a row_b row_c row_d]. rewrite !Forall_cons. intros (Ha & Hb & Hc & Hd & _).
  apply row4 in Ha as (x0 & x1 & x2 & x3 & -> & ? & ? & ? & ?), Hb as (x4 & x5 & x6 & x7 & -> & ? & ? & ? & ?).
  apply row4 in Hc as (x8 & x9 & x10 & x11 & -> & ? & ? & ? & ?), Hd as (x12 & x13 & x14 & x15 & -> & ? & ? & ? & ?).
  unfold double_round, rfc_double_round, words_of. cbn [row_a row_b row_c row_d app].
  rewrite code_columns, rfc_round_columns by done.
  assert (Q0 := quarter_in32 (x0, x4, x8, x12) ltac:(done)). assert (Q1 := quarter_in32 (x1, x5, x9, x13) ltac:(done)).
  assert (Q2 := quarter_in32 (x2, x6, x10, x14) ltac:(done)). assert (Q3 := quarter_in32 (x3, x7, x11, x15) ltac:(done)).
  destruct (quarter (x0, x4, x8, x12)) as [[[a0 b0] c0] d0], (quarter (x1, x5, x9, x13)) as [[[a1 b1] c1] d1],
    (quarter (x2, x6, x10, x14)) as [[[a2 b2] c2] d2], (quarter (x3, x7, x11, x15)) as [[[a3 b3] c3] d3].
  destruct Q0 as (? & ? & ? & ?), Q1 as (? & ? & ? & ?), Q2 as (? & ? & ? & ?), Q3 as (? & ? & ? & ?).
  unfold diagonals, rotate_row. cbn [row_a row_b row_c row_d drop take app]. rewrite code_diagonals, rfc_round_columns by done.
  assert (Q0 := quarter_in32 (a0, b1, c2, d3) ltac:(done)). assert (Q1 := quarter_in32 (a1, b2, c3, d0) ltac:(done)).
  assert (Q2 := quarter_in32 (a2, b3, c0, d1) ltac:(done)). assert (Q3 := quarter_in32 (a3, b0, c1, d2) ltac:(done)).
  destruct (quarter (a0, b1, c2, d3)) as [[[? ?] ?] ?], (quarter (a1, b2, c3, d0)) as [[[? ?] ?] ?],
    (quarter (a2, b3, c0, d1)) as [[[? ?] ?] ?], (quarter (a3, b0, c1, d2)) as [[[? ?] ?] ?].
  destruct Q0 as (? & ? & ? & ?), Q1 as (? & ? & ? & ?), Q2 as (? & ? & ? & ?), Q3 as (? & ? & ? & ?).
  unfold columns, rotate_row. cbn [row_a row_b row_c row_d drop take app]. split; [done|].
  do 4 (split; [by apply row4_ok|]). constructor.
Qed.
Lemma rounds_spec n m : matrix_ok m ->
  Nat.iter n double_round (words_of m) = words_of (Nat.iter n rfc_double_round m) /\ matrix_ok (Nat.iter n rfc_double_round m).
Proof.
  intros Hm. induction n as [|n [IH IHm]]; [done|]. rewrite !Nat.iter_succ, IH. by apply double_round_spec.
Qed.

(** * Blocks *)

Definition key_ok (key nonce : list Z) : Prop := bytes_n 32 key /\ bytes_n 12 nonce.
Lemma le4_in32 (p : list Z) : bytes p -> in32 (le_combine (take 4 p)).
Proof.
  intros Hp. assert (Hr := le_combine_range (take 4 p) (bytes_take _ _ Hp)). split; [lia|].
  eapply Z.lt_le_trans; [apply Hr|]. change (2 ^ 32) with (256 ^ 4). apply Z.pow_le_mono_r; [lia|]. rewrite length_take. lia.
Qed.
Lemma words_ok n bs : bytes bs -> length (words n bs) = n /\ Forall in32 (words n bs).
Proof.
  intros Hb. unfold words. split; [by rewrite length_map, length_seq|]. apply Forall_map, Forall_true.
  intros i. apply le4_in32. by apply bytes_drop.
Qed.
Lemma rfc_matrix_ok key c nonce : key_ok key nonce -> matrix_ok (rfc_matrix key c nonce).
Proof.
  intros [[_ Hk] [_ Hn]]. unfold matrix_ok, rfc_matrix. cbn [row_a row_b row_c row_d].
  destruct (words_ok 3 nonce Hn) as [Hl Hf].
  repeat (apply Forall_cons; split); [| | | |constructor].
  - split; [done|]. repeat constructor; lia.
  - by apply words_ok.
  - by apply words_ok, bytes_drop.
  - split; [cbn [length]; by rewrite Hl|]. constructor; [apply Z.mod_pos_bound; lia|done].
Qed.
Definition schedule_at (key : list Z) (c : Z) (nonce : list Z) : list Z := words_of (rfc_matrix key c nonce).
Lemma length_words_of m : matrix_ok m -> length (words_of m) = 16%nat.
Proof.
  unfold matrix_ok. rewrite !Forall_cons. intros ([Ha _] & [Hb _] & [Hc _] & [Hd _] & _). unfold words_of.
  by rewrite !length_app, Ha, Hb, Hc, Hd.
Qed.
Lemma block_output m m' : matrix_ok m -> matrix_ok m' ->
  concat (List.map (fun i => WRITELE (u32 ((words_of m').[i] + (words_of m).[i]))) (seq 0 16)) =
  concat (List.map (le_split 4) (add_row (row_a m') (row_a m) ++ add_row (row_b m') (row_b m) ++
    add_row (row_c m') (row_c m) ++ add_row (row_d m') (row_d m))).
Proof.
  destruct m as [ra rb rc rd], m' as [ra' rb' rc' rd']. unfold matrix_ok. cbn [row_a row_b row_c row_d]. rewrite !Forall_cons.
  intros (Ha & Hb & Hc & Hd & _) (Ha' & Hb' & Hc' & Hd' & _).
  apply row4 in Ha as (? & ? & ? & ? & -> & _), Hb as (? & ? & ? & ? & -> & _), Hc as (? & ? & ? & ? & -> & _), Hd as (? & ? & ? & ? & -> & _).
  apply row4 in Ha' as (? & ? & ? & ? & -> & _), Hb' as (? & ? & ? & ? & -> & _), Hc' as (? & ? & ? & ? & -> & _), Hd' as (? & ? & ? & ? & -> & _).
  f_equal. unfold add_row, words_of. cbn [row_a row_b row_c row_d zip_with app seq List.map nth].
  rewrite !WRITELE_le by apply u32_range. done.
Qed.
Lemma block_spec key c nonce ks av : key_ok key nonce ->
  hsk_chacha20_block (mk_chacha (schedule_at key c nonce) ks av 12) =
    (mk_chacha (schedule_at key (c + 1) nonce) ks av 12, rfc8439_block key c nonce).
Proof.
  intros Hk. assert (Hm := rfc_matrix_ok key c nonce Hk). unfold hsk_chacha20_block. cbn [cc_schedule cc_keystream cc_available cc_nonce_size].
  f_equal.
  - change (12 =? 8) with false. rewrite andb_false_r. f_equal. unfold schedule_at, words_of, rfc_matrix. cbn [row_a row_b row_c row_d].
    destruct Hk as [[_ Hkey] _]. destruct (words_ok 4 key Hkey) as [Hl1 _]. destruct (words_ok 4 (drop 16 key) (bytes_drop _ _ Hkey)) as [Hl2 _].
    destruct (words 4 key) as [|? [|? [|? [|? [|]]]]]; try done. destruct (words 4 (drop 16 key)) as [|? [|? [|? [|? [|]]]]]; try done.
    cbn [app insert list_insert nth]. do 12 f_equal. f_equal. unfold u32. by rewrite Zplus_mod_idemp_l.
  - unfold rfc8439_block, schedule_at. destruct (rounds_spec 10 _ Hm) as [E Hm']. rewrite E. by apply block_output.
Qed.
Lemma length_concat_le4 l : length (concat (List.map (le_split 4) l)) = (4 * length l)%nat.
Proof. induction l as [|x l IH]; [done|]. cbn [List.map concat]. rewrite length_app, IH, length_le_split. cbn [length]. lia. Qed.
Lemma length_block key c nonce : key_ok key nonce -> length (rfc8439_block key c nonce) = 64%nat.
Proof.
  intros Hk. assert (Hm := rfc_matrix_ok key c nonce Hk). destruct (rounds_spec 10 _ Hm) as [_ Hm']. unfold rfc8439_block.
  rewrite length_concat_le4. destruct (Nat.iter 10 rfc_double_round (rfc_matrix key c nonce)) as [ra' rb' rc' rd'], (rfc_matrix key c nonce) as [ra rb rc rd].
  unfold matrix_ok in Hm, Hm'. cbn [row_a row_b row_c row_d] in *. rewrite !Forall_cons in Hm, Hm'.
  destruct Hm as ([? _] & [? _] & [? _] & [? _] & _), Hm' as ([? _] & [? _] & [? _] & [? _] & _).
  unfold add_row. rewrite !length_app, !length_zip_with. lia.
Qed.

(** * The stream *)

Lemma bytes_block key c nonce : bytes (rfc8439_block key c nonce).
Proof.
  unfold rfc8439_block. generalize (add_row (row_a (Nat.iter 10 rfc_double_round (rfc_matrix key c nonce))) (row_a (rfc_matrix key c nonce)) ++
    add_row (row_b (Nat.iter 10 rfc_double_round (rfc_matrix key c nonce))) (row_b (rfc_matrix key c nonce)) ++
    add_row (row_c (Nat.iter 10 rfc_double_round (rfc_matrix key c nonce))) (row_c (rfc_matrix key c nonce)) ++
    add_row (row_d (Nat.iter 10 rfc_double_round (rfc_matrix key c nonce))) (row_d (rfc_matrix key c nonce))).
  intros l. induction l as [|x l IH]; [constructor|]. cbn [List.map concat]. apply bytes_app. split; [apply bytes_le_split|done].
Qed.
Lemma div64 x q m : x = (64 * q + m)%nat -> (m < 64)%nat -> (x / 64 = q /\ x mod 64 = m)%nat.
Proof. intros -> Hm. split; [symmetry; by apply (Nat.div_unique _ _ _ m)|symmetry; by apply (Nat.mod_unique _ _ q)]. Qed.
Lemma split64 x : exists q m, x = (64 * q + m)%nat /\ (m < 64)%nat.
Proof. exists (x / 64)%nat, (x mod 64)%nat. split; [apply Nat.div_mod_eq|by apply Nat.mod_upper_bound]. Qed.
(** Computes [x / 64] and [x mod 64] for [x = 64 * q + m]. *)
Ltac div64 x q m := destruct (div64 x q m) as [-> ->]; [lia|lia|].

#[local] Opaque rfc8439_block.
Section Stream.
Context (key nonce : list Z) (c : Z) (Hk : key_ok key nonce).

(** [pos] bytes of the stream were used. *)
Definition stream_at (pos : nat) (ctx : hsk_chacha20_ctx) : Prop := exists q m, (pos = 64 * q + m)%nat /\ (m < 64)%nat /\
  cc_nonce_size ctx = 12 /\
  if (m =? 0)%nat then cc_schedule ctx = schedule_at key (c + Z.of_nat q) nonce /\ cc_available ctx = 0%nat
  else cc_schedule ctx = schedule_at key (c + Z.of_nat (S q)) nonce /\ cc_available ctx = (64 - m)%nat /\
    cc_keystream ctx = rfc8439_block key (c + Z.of_nat q) nonce.
Definition stream_xor (pos : nat) (inp : list Z) : list Z :=
  imap (fun i b => Z.lxor b (rfc8439_stream key c nonce (pos + i))) inp.

Lemma stream_xor_app pos a b : stream_xor pos (a ++ b) = stream_xor pos a ++ stream_xor (pos + length a) b.
Proof.
  unfold stream_xor. rewrite imap_app. f_equal. apply imap_ext. intros i x _. unfold compose. f_equal. f_equal. lia.
Qed.
Lemma length_stream_xor pos a : length (stream_xor pos a) = length a.
Proof. apply length_imap. Qed.
(** Bytes that come from one block. *)
Lemma xor_block q m inp : (m + length inp <= 64)%nat ->
  zip_with Z.lxor inp (take (length inp) (drop m (rfc8439_block key (c + Z.of_nat q) nonce))) = stream_xor (64 * q + m) inp.
Proof.
  intros Hl. assert (Hb := length_block key (c + Z.of_nat q) nonce Hk).
  unfold stream_xor. apply list_eq. intros i. rewrite lookup_zip_with, list_lookup_imap. destruct (inp !! i) as [x|] eqn:Ex; [|done].
  assert (Hi := lookup_lt_Some _ _ _ Ex). rewrite lookup_take_lt, lookup_drop by done. unfold rfc8439_stream.
  destruct (div64 (64 * q + m + i) q (m + i)) as [-> ->]; [lia|lia|].
  revert Hb. generalize (rfc8439_block key (c + Z.of_nat q) nonce). intros K Hb.
  destruct (lookup_lt_is_Some_2 K (m + i) ltac:(lia)) as [y Hy]. by rewrite Hy, nth_lookup, Hy.
Qed.
(** At the end of [inp], which was taken from block [q] at [m]. *)
Lemma stream_at_end q m n ks : (0 < n)%nat -> (m + n <= 64)%nat -> ks = rfc8439_block key (c + Z.of_nat q) nonce ->
  stream_at (64 * q + m + n) (mk_chacha (schedule_at key (c + Z.of_nat (S q)) nonce) ks (64 - (m + n)) 12).
Proof.
  intros H0 Hl ->. destruct (Nat.eq_dec (m + n) 64) as [E|E].
  - exists (S q), 0%nat. cbn [Nat.eqb cc_nonce_size cc_schedule cc_available]. repeat split; lia || done.
  - exists q, (m + n)%nat. destruct (Nat.eqb_spec (m + n) 0); [lia|]. cbn [cc_nonce_size cc_schedule cc_available cc_keystream]. repeat split; lia || done.
Qed.
Lemma stream_byte i : 0 <= rfc8439_stream key c nonce i < 256.
Proof.
  unfold rfc8439_stream. assert (Hb := bytes_block key (c + Z.of_nat (i / 64)) nonce). assert (Hl := length_block key (c + Z.of_nat (i / 64)) nonce Hk).
  revert Hb Hl. generalize (rfc8439_block key (c + Z.of_nat (i / 64)) nonce). intros K Hb Hl.
  destruct (lookup_lt_is_Some_2 K (i mod 64)) as [y Hy]; [rewrite Hl; by apply Nat.mod_upper_bound|].
  rewrite nth_lookup, Hy. exact (Forall_lookup_1 _ _ _ _ Hb Hy).
Qed.
Lemma bytes_stream_xor pos inp : bytes inp -> bytes (stream_xor pos inp).
Proof.
  intros Hb. apply Forall_lookup_2. intros i y. unfold stream_xor. rewrite list_lookup_imap. destruct (inp !! i) as [x|] eqn:Ex; [|done].
  cbn [fmap option_fmap option_map]. intros E. apply (inj Some) in E. subst y. apply lxor_byte; [exact (Forall_lookup_1 _ _ _ _ Hb Ex)|apply stream_byte].
Qed.
(** Twice is nothing. *)
Lemma stream_xor_twice pos inp : stream_xor pos (stream_xor pos inp) = inp.
Proof.
  unfold stream_xor. apply list_eq. intros i. rewrite !list_lookup_imap. destruct (inp !! i) as [x|]; [|done]. cbn [fmap option_fmap option_map].
  by rewrite Z.lxor_assoc, Z.lxor_nilpotent, Z.lxor_0_r.
Qed.
Lemma chacha20_loop_spec fuel : forall q ks av inp, (length inp <= fuel)%nat -> exists ctx',
  chacha20_loop fuel (mk_chacha (schedule_at key (c + Z.of_nat q) nonce) ks av 12) inp = (ctx', stream_xor (64 * q) inp) /\
  (inp <> [] -> stream_at (64 * q + length inp) ctx').
Proof.
  induction fuel as [|fuel IH]; intros q ks av inp Hl.
  { destruct inp; [|cbn in Hl; lia]. by eexists. }
  cbn [chacha20_loop]. destruct (Nat.eqb_spec (length inp) 0) as [E|E].
  { destruct inp; [|done]. by eexists. }
  rewrite block_spec by done. cbn [cc_schedule cc_nonce_size]. replace (c + Z.of_nat q + 1) with (c + Z.of_nat (S q)) by lia.
  set (amount := Nat.min (length inp) 64). assert (Ham : (0 < amount /\ amount <= length inp /\ amount <= 64)%nat) by (unfold amount; lia).
  assert (Hlt : length (take amount inp) = amount) by (rewrite length_take; lia).
  destruct (IH (S q) (rfc8439_block key (c + Z.of_nat q) nonce) (64 - amount)%nat (drop amount inp)) as (ctx' & Er & Hat'); [rewrite length_drop; unfold amount; lia|].
  assert (Eo : stream_xor (64 * q) inp = zip_with Z.lxor (take amount inp) (take amount (rfc8439_block key (c + Z.of_nat q) nonce)) ++ stream_xor (64 * S q) (drop amount inp)).
  { rewrite <-(take_drop amount inp) at 1. rewrite stream_xor_app. f_equal.
    - replace (64 * q)%nat with (64 * q + 0)%nat by lia. rewrite <-(xor_block q 0) by (rewrite Hlt; unfold amount; lia). by rewrite Hlt, drop_0.
    - rewrite Hlt. unfold amount. destruct (Nat.le_gt_cases (length inp) 64); [by rewrite drop_ge by lia|f_equal; lia]. }
  rewrite Er. eexists. split; [by rewrite Eo|]. intros _.
  destruct (decide (drop amount inp = [])) as [E0|E0].
  - assert (Hd := f_equal length E0). rewrite length_drop in Hd. cbn [length] in Hd.
    rewrite E0 in Er. replace (length inp) with amount by lia. destruct fuel; cbn [chacha20_loop length Nat.eqb] in Er; injection Er as <-;
      replace (64 * q + amount)%nat with (64 * q + 0 + amount)%nat by lia; (apply (stream_at_end q 0); [lia|lia|done]).
  - assert (Hgt : (64 < length inp)%nat).
    { destruct (Nat.le_gt_cases (length inp) 64); [|done]. exfalso. apply E0, drop_ge. unfold amount. lia. }
    specialize (Hat' E0). rewrite length_drop in Hat'. unfold amount in Hat'.
    by replace (64 * S q + (length inp - Nat.min (length inp) 64))%nat with (64 * q + length inp)%nat in Hat' by lia.
Qed.
Lemma encrypt_spec pos ctx inp : stream_at pos ctx -> exists ctx',
  hsk_chacha20_encrypt ctx inp = (ctx', stream_xor pos inp) /\ stream_at (pos + length inp) ctx'.
Proof.
  intros Hat. unfold hsk_chacha20_encrypt. destruct (Nat.eqb_spec (length inp) 0) as [E|E].
  { destruct inp; [|done]. exists ctx. by rewrite Nat.add_0_r. }
  destruct Hat as (q & m & -> & Hm & Hn & Hat). destruct ctx as [s ks av n]. cbn [cc_schedule cc_keystream cc_available cc_nonce_size] in *. subst n.
  destruct (Nat.eqb_spec m 0) as [->|Hm0].
  - destruct Hat as [-> ->]. cbn [Nat.eqb Nat.sub]. rewrite !drop_0. destruct (chacha20_loop_spec (length inp) q ks 0 inp (Nat.le_refl _)) as (ctx' & -> & Hat').
    exists ctx'. rewrite Nat.add_0_r. split; [done|]. apply Hat'. by intros ->.
  - destruct Hat as (-> & -> & ->). destruct (Nat.eqb_spec (64 - m) 0); [lia|]. replace (64 - (64 - m))%nat with m by lia.
    set (amount := Nat.min (length inp) (64 - m)). assert (Ham : (0 < amount /\ amount <= length inp /\ m + amount <= 64)%nat) by (unfold amount; lia).
    assert (Hlt : length (take amount inp) = amount) by (rewrite length_take; lia).
    destruct (chacha20_loop_spec (length inp) (S q) (rfc8439_block key (c + Z.of_nat q) nonce) (64 - m - amount) (drop amount inp)) as (ctx' & Er & Hat'); [rewrite length_drop; lia|].
    rewrite Er. exists ctx'. split.
    + f_equal. rewrite <-(take_drop amount inp) at 3. rewrite stream_xor_app. f_equal.
      * unfold hsk_chacha20_xor. rewrite <-(xor_block q m) by (rewrite Hlt; unfold amount; lia). by rewrite Hlt.
      * rewrite Hlt. unfold amount. destruct (Nat.le_gt_cases (length inp) (64 - m)); [by rewrite drop_ge by lia|f_equal; lia].
    + destruct (decide (drop amount inp = [])) as [E0|E0].
      * assert (Hd := f_equal length E0). rewrite length_drop in Hd. cbn [length] in Hd.
        rewrite E0 in Er. replace (length inp) with amount by lia.
        destruct (length inp); [done|]. cbn [chacha20_loop length Nat.eqb] in Er. injection Er as <-. replace (64 - m - amount)%nat with (64 - (m + amount))%nat by lia.
        by apply stream_at_end; [lia..|].
      * specialize (Hat' E0). rewrite length_drop in Hat'.
        assert (Hgt : (64 - m < length inp)%nat).
        { destruct (Nat.le_gt_cases (length inp) (64 - m)); [|done]. exfalso. apply E0, drop_ge. unfold amount. lia. }
        unfold amount in Hat'. by replace (64 * S q + (length inp - Nat.min (length inp) (64 - m)))%nat with (64 * q + m + length inp)%nat in Hat' by lia.
Qed.
Lemma parts_spec parts : forall pos ctx, stream_at pos ctx -> exists ctx',
  chacha20_parts ctx parts = (ctx', stream_xor pos (concat parts)) /\ stream_at (pos + length (concat parts)) ctx'.
Proof.
  induction parts as [|p parts IH]; intros pos ctx Hat; cbn [chacha20_parts concat].
  { exists ctx. by rewrite Nat.add_0_r. }
  destruct (encrypt_spec pos ctx p Hat) as (ctx1 & -> & Hat1). destruct (IH _ ctx1 Hat1) as (ctx2 & -> & Hat2).
  exists ctx2. rewrite stream_xor_app, length_app, Nat.add_assoc. by split.
Qed.
Lemma stream_at_new ks : stream_at 0 (mk_chacha (schedule_at key c nonce) ks 0 12).
Proof. exists 0%nat, 0%nat. cbn [Nat.eqb cc_nonce_size cc_schedule cc_available]. replace (c + Z.of_nat 0) with c by lia. split; [lia|]. split; [lia|]. done. Qed.
End Stream.

(** * Set-up *)

Lemma key_word_le key off : bytes key -> (off + 4 <= length key)%nat -> key_word key off = le_combine (take 4 (drop off key)).
Proof. intros Hk Hl. unfold key_word. apply READLE_le; [by apply bytes_drop|rewrite length_drop; lia]. Qed.
Lemma setup_spec ctx key nonce c : key_ok key nonce -> length (cc_schedule ctx) = 16%nat ->
  hsk_chacha20_counter_set (hsk_chacha20_setup ctx key 32 nonce 12) c = mk_chacha (schedule_at key c nonce) (cc_keystream ctx) 0 12.
Proof.
  intros [[Hkl Hk] [Hnl Hn]] Hl. unfold hsk_chacha20_counter_set, hsk_chacha20_setup, hsk_chacha20_ivsetup, hsk_chacha20_keysetup.
  cbn [cc_schedule cc_keystream cc_available cc_nonce_size]. change (12 =? 8) with false. change (32 =? 32)%nat with true. cbv iota.
  f_equal. cbn [List.map]. rewrite !(key_word_le key), !(key_word_le nonce) by (done || (cbn; lia)).
  unfold schedule_at, words_of, rfc_matrix, words. cbn [row_a row_b row_c row_d seq List.map app take insert list_insert]. rewrite !drop_drop. reflexivity.
Qed.
(** C36: The stream cipher is ChaCha20. Set up with a key of 32 bytes, a nonce of 12 and a counter,
    whatever the context held, encryption of any buffers one after another gives the bytes of RFC 8439
    for their concatenation; and decryption of what was encrypted, cut in any other way, gives it back. *)
Theorem chacha20_correct ctx key nonce c parts cuts : length (cc_schedule ctx) = 16%nat -> bytes_n 32 key -> bytes_n 12 nonce ->
  let new := hsk_chacha20_counter_set (hsk_chacha20_setup ctx key 32 nonce 12) c in
  snd (chacha20_parts new parts) = rfc8439_chacha20 key c nonce (concat parts) /\
  (concat cuts = snd (chacha20_parts new parts) -> snd (chacha20_parts new cuts) = concat parts).
Proof.
  intros Hl Hk Hn. cbn zeta. rewrite setup_spec by done.
  destruct (parts_spec key nonce c (conj Hk Hn) parts 0 _ (stream_at_new key nonce c (cc_keystream ctx))) as (? & -> & _).
  destruct (parts_spec key nonce c (conj Hk Hn) cuts 0 _ (stream_at_new key nonce c (cc_keystream ctx))) as (? & -> & _).
  cbn [snd]. split; [done|]. intros ->. apply stream_xor_twice.
Qed.
(** The message of the RFC, in two parts. *)
Lemma chacha20_correct_witness :
  let new := hsk_chacha20_counter_set (hsk_chacha20_setup zero_ctx sample_key 32 sample_nonce 12) 1 in
  snd (chacha20_parts new [take 3 sunscreen; drop 3 sunscreen]) = rfc8439_chacha20 sample_key 1 sample_nonce sunscreen /\
  snd (chacha20_parts new [snd (chacha20_parts new [take 3 sunscreen; drop 3 sunscreen])]) = sunscreen.
Proof.
  assert (Hk : bytes_n 32 sample_key) by (apply (bool_decide_unpack _); vm_compute; exact I).
  assert (Hn : bytes_n 12 sample_nonce) by (apply (bool_decide_unpack _); vm_compute; exact I).
  assert (H := fun cuts => chacha20_correct zero_ctx sample_key sample_nonce 1 [take 3 sunscreen; drop 3 sunscreen] cuts eq_refl Hk Hn). cbn zeta in *.
  cbn [concat] in H. rewrite !app_nil_r, take_drop in H. split; [apply (proj1 (H []))|].
  destruct (H [snd (chacha20_parts (hsk_chacha20_counter_set (hsk_chacha20_setup zero_ctx sample_key 32 sample_nonce 12) 1) [take 3 sunscreen; drop 3 sunscreen])]) as [_ H2].
  apply H2. cbn [concat]. apply app_nil_r.
Defined.
