(* ===== verification/Poly1305.v ===== *)
(** The one-time authenticator of the encrypted transport: [poly1305/poly1305.c] with
    [poly1305-64.h], which is included where the compiler has integers of 128 bits.

    The number 2^130 - 5 is worked with in three limbs of 44, 44 and 42 bits. The buffer
    keeps what it held before: only its first [leftover] bytes are used. *)

From Stdlib Require Import String.
From S2P Require Import Prelude Bio Blake2b Chacha20.

Definition hsk_poly1305_block_size : nat := 16.

Record hsk_poly1305_state_internal_t := mk_poly {
  po_r : Z * Z * Z;
  po_h : Z * Z * Z;
  po_pad : Z * Z;
  po_leftover : nat;
  po_buffer : list Z;
  po_final : Z;
}.

Definition u128 (x : Z) : Z := x mod 2 ^ 128.
Definition U8TO64 (p : list Z) : Z :=
  Z.lor (Z.lor (Z.lor (Z.lor (Z.lor (Z.lor (Z.lor
    (Z.land p.[0] 0xff) (u64 (Z.shiftl (Z.land p.[1] 0xff) 8))) (u64 (Z.shiftl (Z.land p.[2] 0xff) 16)))
    (u64 (Z.shiftl (Z.land p.[3] 0xff) 24))) (u64 (Z.shiftl (Z.land p.[4] 0xff) 32))) (u64 (Z.shiftl (Z.land p.[5] 0xff) 40)))
    (u64 (Z.shiftl (Z.land p.[6] 0xff) 48))) (u64 (Z.shiftl (Z.land p.[7] 0xff) 56)).
Definition U64TO8 (v : Z) : list Z := List.map (fun n => Z.land (Z.shiftr v n) 0xff) [0; 8; 16; 24; 32; 40; 48; 56].

Definition mask44 : Z := 0xfffffffffff.
Definition mask42 : Z := 0x3ffffffffff.
(** [((t0 >> 44) | (t1 << 20))] *)
Definition middle (t0 t1 : Z) : Z := Z.lor (Z.shiftr t0 44) (u64 (Z.shiftl t1 20)).

Definition hsk_poly1305_init (st : hsk_poly1305_state_internal_t) (key : list Z) : hsk_poly1305_state_internal_t :=
  let t0 := U8TO64 key in
  let t1 := U8TO64 (drop 8 key) in
  mk_poly (Z.land t0 0xffc0fffffff, Z.land (middle t0 t1) 0xfffffc0ffff, Z.land (Z.shiftr t1 24) 0x00ffffffc0f) (0, 0, 0)
    (U8TO64 (drop 16 key), U8TO64 (drop 24 key)) 0 (po_buffer st) 0.

(** [MUL] of two words, and three products added. *)
Definition MUL (x y : Z) : Z := u128 (x * y).
Definition ADD3 (d d' d'' : Z) : Z := u128 (u128 (d + d') + d'').
(** The body of the loop of [hsk_poly1305_blocks]. *)
Definition poly_block (hibit : Z) (r h : Z * Z * Z) (m : list Z) : Z * Z * Z :=
  let '(r0, r1, r2) := r in
  let '(h0, h1, h2) := h in
  let s1 := u64 (r1 * 20) in
  let s2 := u64 (r2 * 20) in
  let t0 := U8TO64 m in
  let t1 := U8TO64 (drop 8 m) in
  let h0 := u64 (h0 + Z.land t0 mask44) in
  let h1 := u64 (h1 + Z.land (middle t0 t1) mask44) in
  let h2 := u64 (h2 + Z.lor (Z.land (Z.shiftr t1 24) mask42) hibit) in
  let d0 := ADD3 (MUL h0 r0) (MUL h1 s2) (MUL h2 s1) in
  let d1 := ADD3 (MUL h0 r1) (MUL h1 r0) (MUL h2 s2) in
  let d2 := ADD3 (MUL h0 r2) (MUL h1 r1) (MUL h2 r0) in
  let c := u64 (Z.shiftr d0 44) in
  let h0 := Z.land (u64 d0) mask44 in
  let d1 := u128 (d1 + c) in
  let c := u64 (Z.shiftr d1 44) in
  let h1 := Z.land (u64 d1) mask44 in
  let d2 := u128 (d2 + c) in
  let c := u64 (Z.shiftr d2 42) in
  let h2 := Z.land (u64 d2) mask42 in
  let h0 := u64 (h0 + u64 (c * 5)) in
  let c := Z.shiftr h0 44 in
  let h0 := Z.land h0 mask44 in
  let h1 := u64 (h1 + c) in
  (h0, h1, h2).
(** [while (bytes >= hsk_poly1305_block_size)]; the fuel is the number of bytes. *)
Fixpoint blocks_loop (fuel : nat) (hibit : Z) (r h : Z * Z * Z) (m : list Z) : Z * Z * Z :=
  match fuel with
  | O => h
  | S fuel' =>
      if (hsk_poly1305_block_size <=? length m)%nat then
        blocks_loop fuel' hibit r (poly_block hibit r h (take 16 m)) (drop hsk_poly1305_block_size m)
      else h
  end.
Definition hsk_poly1305_blocks (st : hsk_poly1305_state_internal_t) (m : list Z) : hsk_poly1305_state_internal_t :=
  let hibit := if po_final st =? 0 then u64 (Z.shiftl 1 40) else 0 in
  mk_poly (po_r st) (blocks_loop (length m) hibit (po_r st) (po_h st) m) (po_pad st) (po_leftover st) (po_buffer st) (po_final st).

Definition set_leftover (st : hsk_poly1305_state_internal_t) (n : nat) (buffer : list Z) : hsk_poly1305_state_internal_t :=
  mk_poly (po_r st) (po_h st) (po_pad st) n buffer (po_final st).
Definition hsk_poly1305_update (st : hsk_poly1305_state_internal_t) (m : list Z) : hsk_poly1305_state_internal_t :=
  let want := if (po_leftover st =? 0)%nat then 0%nat else Nat.min (hsk_poly1305_block_size - po_leftover st) (length m) in
  let st := set_leftover st (po_leftover st + want) (memcpy_at (po_buffer st) (po_leftover st) (take want m)) in
  let m := drop want m in
  if negb (po_leftover st =? 0)%nat && (po_leftover st <? hsk_poly1305_block_size)%nat then st
  else
    let st := if (po_leftover st =? 0)%nat then st
              else set_leftover (hsk_poly1305_blocks st (po_buffer st)) 0 (po_buffer st) in
    let want := (length m / hsk_poly1305_block_size * hsk_poly1305_block_size)%nat in
    let st := if (hsk_poly1305_block_size <=? length m)%nat then hsk_poly1305_blocks st (take want m) else st in
    let m := if (hsk_poly1305_block_size <=? length m)%nat then drop want m else m in
    set_leftover st (po_leftover st + length m) (memcpy_at (po_buffer st) (po_leftover st) m).

(** The words of the tag. *)
Definition poly_finish (h : Z * Z * Z) (pad : Z * Z) : Z * Z :=
  let '(h0, h1, h2) := h in
  let c := Z.shiftr h1 44 in let h1 := Z.land h1 mask44 in
  let h2 := u64 (h2 + c) in
  let c := Z.shiftr h2 42 in let h2 := Z.land h2 mask42 in
  let h0 := u64 (h0 + u64 (c * 5)) in
  let c := Z.shiftr h0 44 in let h0 := Z.land h0 mask44 in
  let h1 := u64 (h1 + c) in
  let c := Z.shiftr h1 44 in let h1 := Z.land h1 mask44 in
  let h2 := u64 (h2 + c) in
  let c := Z.shiftr h2 42 in let h2 := Z.land h2 mask42 in
  let h0 := u64 (h0 + u64 (c * 5)) in
  let c := Z.shiftr h0 44 in let h0 := Z.land h0 mask44 in
  let h1 := u64 (h1 + c) in
  let g0 := u64 (h0 + 5) in
  let c := Z.shiftr g0 44 in let g0 := Z.land g0 mask44 in
  let g1 := u64 (h1 + c) in
  let c := Z.shiftr g1 44 in let g1 := Z.land g1 mask44 in
  let g2 := u64 (h2 + c - Z.shiftl 1 42) in
  let c := u64 (Z.shiftr g2 63 - 1) in
  let g0 := Z.land g0 c in let g1 := Z.land g1 c in let g2 := Z.land g2 c in
  let c := u64 (Z.lnot c) in
  let h0 := Z.lor (Z.land h0 c) g0 in let h1 := Z.lor (Z.land h1 c) g1 in let h2 := Z.lor (Z.land h2 c) g2 in
  let '(t0, t1) := pad in
  let h0 := u64 (h0 + Z.land t0 mask44) in
  let c := Z.shiftr h0 44 in let h0 := Z.land h0 mask44 in
  let h1 := u64 (h1 + u64 (Z.land (middle t0 t1) mask44 + c)) in
  let c := Z.shiftr h1 44 in let h1 := Z.land h1 mask44 in
  let h2 := u64 (h2 + u64 (Z.land (Z.shiftr t1 24) mask42 + c)) in
  let h2 := Z.land h2 mask42 in
  (Z.lor h0 (u64 (Z.shiftl h1 44)), Z.lor (Z.shiftr h1 20) (u64 (Z.shiftl h2 24))).
Definition hsk_poly1305_finish (st : hsk_poly1305_state_internal_t) : hsk_poly1305_state_internal_t * list Z :=
  let st :=
    if (po_leftover st =? 0)%nat then st
    else
      let buffer := memcpy_at (po_buffer st) (po_leftover st) (1 :: replicate (15 - po_leftover st) 0) in
      hsk_poly1305_blocks (mk_poly (po_r st) (po_h st) (po_pad st) (po_leftover st) buffer 1) buffer in
  let '(h0, h1) := poly_finish (po_h st) (po_pad st) in
  (mk_poly (0, 0, 0) (0, 0, 0) (0, 0) (po_leftover st) (po_buffer st) (po_final st), U64TO8 h0 ++ U64TO8 h1).

(** The context is new memory. *)
Definition hsk_poly1305_auth (garbage : hsk_poly1305_state_internal_t) (m key : list Z) : list Z :=
  snd (hsk_poly1305_finish (hsk_poly1305_update (hsk_poly1305_init garbage key) m)).
Definition hsk_poly1305_verify (mac1 mac2 : list Z) : Z :=
  let dif := fold_left (fun dif i => Z.lor dif (Z.lxor mac1.[i] mac2.[i])) (seq 0 16) 0 in
  Z.land (Z.shiftr (u32 (dif - 1)) 31) 1.

(** * RFC 8439 *)

Definition P1305 : Z := 2 ^ 130 - 5.
Definition clamp (r : Z) : Z := Z.land r 0x0ffffffc0ffffffc0ffffffc0fffffff.
(** Blocks of 16 bytes, the last one shorter, each with a byte 1 after it. *)
Fixpoint rfc_blocks (fuel : nat) (r acc : Z) (m : list Z) : Z :=
  match fuel, m with
  | S fuel', _ :: _ => rfc_blocks fuel' r ((acc + le_combine (take 16 m ++ [1])) * r mod P1305) (drop 16 m)
  | _, _ => acc
  end.
Definition rfc8439_poly1305 (key m : list Z) : list Z :=
  let r := clamp (le_combine (take 16 key)) in
  let s := le_combine (take 16 (drop 16 key)) in
  le_split 16 (rfc_blocks (length m) r 0 m + s).

(** Section 2.5.2. *)
Definition poly_sample_key : list Z :=
  [0x85; 0xd6; 0xbe; 0x78; 0x57; 0x55; 0x6d; 0x33; 0x7f; 0x44; 0x52; 0xfe; 0x42; 0xd5; 0x06; 0xa8;
   0x01; 0x03; 0x80; 0x8a; 0xfb; 0x0d; 0xb2; 0xfd; 0x4a; 0xbf; 0xf6; 0xaf; 0x41; 0x49; 0xf5; 0x1b].
Definition poly_sample : list Z := text_of "Cryptographic Forum Research Group".
Definition poly_garbage : hsk_poly1305_state_internal_t := mk_poly (7, 7, 7) (7, 7, 7) (7, 7) 7 (replicate 16 7) 7.
Example poly1305_vector : be_combine (hsk_poly1305_auth poly_garbage poly_sample poly_sample_key) = 0xa8061dc1305136c6c22b8baf0c0127a9.
Proof. vm_compute. reflexivity. Qed.
Example rfc8439_vector : be_combine (rfc8439_poly1305 poly_sample_key poly_sample) = 0xa8061dc1305136c6c22b8baf0c0127a9.
Proof. vm_compute. reflexivity. Qed.
(** The number 2^130 - 2, which is 3, of the self-test of the program. *)
Example poly1305_wrap : hsk_poly1305_auth poly_garbage (replicate 16 0xff) (2 :: replicate 31 0) = 3 :: replicate 15 0.
Proof. vm_compute. reflexivity. Qed.
