(* ===== verification/Poly1305Props.v ===== *)
(** The authenticator of [Poly1305] against RFC 8439. *)

From S2P Require Import Prelude Bio Blake2b Poly1305.

(** * Limbs *)

Lemma land_mask44 x : Z.land x mask44 = x mod 2 ^ 44.
Proof. apply (land_ones_mod x 44). lia. Qed.
Lemma land_mask42 x : Z.land x mask42 = x mod 2 ^ 42.
Proof. apply (land_ones_mod x 42). lia. Qed.
Lemma u128_small x : 0 <= x < 2 ^ 128 -> u128 x = x.
Proof. apply Z.mod_small. Qed.
Lemma U8TO64_le p : bytes p -> (8 <= length p)%nat -> U8TO64 p = le_combine (take 8 p).
Proof.
  intros Hb Hl. expose_bytes 8 p. cbn [le_combine]. unfold U8TO64. cbn [nth]. change 0xff with (Z.ones 8).
  rewrite !Z.land_ones, !(Z.mod_small _ (2 ^ 8)) by lia.
  rewrite !u64_small by (rewrite Z.shiftl_mul_pow2 by lia; lia).
  rewrite (lor_add_shiftl z0 _ 8), (lor_add_shiftl z1 _ 16), (lor_add_shiftl z2 _ 24), (lor_add_shiftl z3 _ 32),
    (lor_add_shiftl z4 _ 40), (lor_add_shiftl z5 _ 48), (lor_add_shiftl z6 _ 56) by lia. lia.
Qed.
Lemma U64TO8_le v : U64TO8 v = le_split 8 v.
Proof.
  unfold U64TO8. cbn [List.map le_split]. change 0xff with (Z.ones 8). rewrite !Z.land_ones, !Z.shiftr_div_pow2 by lia.
  by rewrite !Z.div_div, Z.div_1_r by lia.
Qed.
Lemma middle_val t0 t1 : 0 <= t0 < 2 ^ 64 -> 0 <= t1 < 2 ^ 64 -> middle t0 t1 = t0 / 2 ^ 44 + (t1 mod 2 ^ 44) * 2 ^ 20.
Proof.
  intros H0 H1. unfold middle, u64. rewrite Z.shiftr_div_pow2 by lia.
  replace (Z.shiftl t1 20 mod 2 ^ 64) with (Z.shiftl (t1 mod 2 ^ 44) 20) by (rewrite !Z.shiftl_mul_pow2 by lia; dlia).
  apply lor_add_shiftl; [lia|dlia].
Qed.
(** The three limbs of two words. *)
Lemma limbs t0 t1 : 0 <= t0 < 2 ^ 64 -> 0 <= t1 < 2 ^ 64 -> exists l0 l1 l2,
  Z.land t0 mask44 = l0 /\ Z.land (middle t0 t1) mask44 = l1 /\ Z.land (Z.shiftr t1 24) mask42 = l2 /\ Z.shiftr t1 24 = l2 /\
  0 <= l0 < 2 ^ 44 /\ 0 <= l1 < 2 ^ 44 /\ 0 <= l2 < 2 ^ 40 /\ l0 + 2 ^ 44 * l1 + 2 ^ 88 * l2 = t0 + 2 ^ 64 * t1.
Proof.
  intros H0 H1. rewrite !land_mask44, land_mask42, middle_val, Z.shiftr_div_pow2 by lia.
  exists (t0 mod 2 ^ 44), (t0 / 2 ^ 44 + (t1 mod 2 ^ 24) * 2 ^ 20), (t1 / 2 ^ 24).
  split; [done|]. split; [dlia|]. split; [dlia|]. split; [done|]. dlia.
Qed.
Lemma le16 p : bytes p -> (16 <= length p)%nat ->
  let t0 := U8TO64 p in let t1 := U8TO64 (drop 8 p) in
  0 <= t0 < 2 ^ 64 /\ 0 <= t1 < 2 ^ 64 /\ t0 + 2 ^ 64 * t1 = le_combine (take 16 p).
Proof.
  intros Hb Hl. cbn zeta. rewrite !U8TO64_le by (first [done|by apply bytes_drop|rewrite length_drop; lia|lia]).
  assert (H1 := le_combine_range (take 8 p) (bytes_take _ _ Hb)). assert (H2 := le_combine_range (take 8 (drop 8 p)) (bytes_take _ _ (bytes_drop _ _ Hb))).
  rewrite length_take_le in H1 by lia. rewrite length_take_le in H2 by (rewrite length_drop; lia).
  split; [apply H1|]. split; [apply H2|]. rewrite <-(take_drop 8 (take 16 p)), le_combine_app, take_take, skipn_firstn_comm.
  change (16 - 8)%nat with 8%nat. change (8 `min` 16)%nat with 8%nat. rewrite length_take_le by lia. done.
Qed.

(** Bits of two parts. *)
Lemma land_split n a b c d : 0 <= n -> 0 <= a < 2 ^ n -> 0 <= c < 2 ^ n ->
  Z.land (a + 2 ^ n * b) (c + 2 ^ n * d) = Z.land a c + 2 ^ n * Z.land b d.
Proof.
  intros Hn Ha Hc. rewrite !(Z.mul_comm (2 ^ n)). rewrite <-!lor_add_shiftl by done.
  assert (Hac : 0 <= Z.land a c < 2 ^ n).
  { replace (Z.land a c) with (Z.land a c mod 2 ^ n); [apply Z.mod_pos_bound; lia|]. apply Z.bits_inj'. intros i Hi.
    destruct (Z.ltb_spec i n); [by rewrite Z.mod_pow2_bits_low by lia|]. rewrite Z.mod_pow2_bits_high, Z.land_spec by lia.
    by rewrite <-(Z.mod_small a (2 ^ n)), Z.mod_pow2_bits_high by lia. }
  rewrite <-lor_add_shiftl by done. apply Z.bits_inj'. intros i Hi.
  rewrite !Z.land_spec, !Z.lor_spec, !Z.land_spec, !Z.shiftl_spec, Z.land_spec by done.
  destruct (Z.ltb_spec i n).
  - rewrite !(Z.testbit_neg_r _ (i - n)) by lia. by rewrite !orb_false_r.
  - rewrite <-(Z.mod_small a (2 ^ n)), <-(Z.mod_small c (2 ^ n)), !Z.mod_pow2_bits_high by lia. done.
Qed.
Definition value (h : Z * Z * Z) : Z := let '(h0, h1, h2) := h in h0 + 2 ^ 44 * h1 + 2 ^ 88 * h2.
Definition r_ok (r : Z * Z * Z) : Prop := let '(r0, r1, r2) := r in 0 <= r0 < 2 ^ 44 /\ 0 <= r1 < 2 ^ 44 /\ 0 <= r2 < 2 ^ 40.
Definition h_ok (h : Z * Z * Z) : Prop := let '(h0, h1, h2) := h in 0 <= h0 < 2 ^ 44 /\ 0 <= h1 < 2 ^ 44 + 2 ^ 10 /\ 0 <= h2 < 2 ^ 42.

(** * One block *)

Lemma mul_bound x y a b : 0 <= x < 2 ^ a -> 0 <= y < 2 ^ b -> 0 <= a -> 0 <= b -> 0 <= x * y < 2 ^ (a + b).
Proof. intros Hx Hy Ha Hb. rewrite Z.pow_add_r by done. nia. Qed.
(** The carries of three sums of products. *)
Lemma carry_spec d0 d1 d2 : 0 <= d0 < 2 ^ 94 -> 0 <= d1 < 2 ^ 94 -> 0 <= d2 < 2 ^ 92 ->
  let c := u64 (Z.shiftr d0 44) in let h0 := Z.land (u64 d0) mask44 in
  let d1' := u128 (d1 + c) in let c := u64 (Z.shiftr d1' 44) in let h1 := Z.land (u64 d1') mask44 in
  let d2' := u128 (d2 + c) in let c := u64 (Z.shiftr d2' 42) in let h2 := Z.land (u64 d2') mask42 in
  let h0 := u64 (h0 + u64 (c * 5)) in let c := Z.shiftr h0 44 in let h0 := Z.land h0 mask44 in
  let h1 := u64 (h1 + c) in
  h_ok (h0, h1, h2) /\ exists k, value (h0, h1, h2) = d0 + 2 ^ 44 * d1 + 2 ^ 88 * d2 - P1305 * k.
Proof.
  intros H0 H1 H2. cbv zeta. rewrite !land_mask44, land_mask42, !Z.shiftr_div_pow2 by lia.
  assert (E : forall x k, 0 <= k <= 64 -> u64 x mod 2 ^ k = x mod 2 ^ k).
  { intros x k Hk. unfold u64. replace 64 with (k + (64 - k)) by lia. rewrite Z.pow_add_r by lia.
    assert (0 < 2 ^ k) by (apply Z.pow_pos_nonneg; lia). assert (0 < 2 ^ (64 - k)) by (apply Z.pow_pos_nonneg; lia).
    rewrite Z.rem_mul_r by lia. rewrite (Z.mul_comm (2 ^ k)), Z.mod_add by lia. apply Z.mod_mod. lia. }
  rewrite (E d0), (E (u128 _) 44), (E (u128 _) 42) by lia.
  rewrite (u64_small (d0 / _)) by dlia. set (c0 := d0 / 2 ^ 44). assert (Hc0 : 0 <= c0 < 2 ^ 50) by (unfold c0; dlia).
  rewrite (u128_small (d1 + _)) by lia. rewrite (u64_small ((d1 + c0) / _)) by dlia.
  set (c1 := (d1 + c0) / 2 ^ 44). assert (Hc1 : 0 <= c1 < 2 ^ 51) by (unfold c1; dlia).
  rewrite (u128_small (d2 + _)) by lia. rewrite (u64_small ((d2 + c1) / _)) by dlia.
  set (c2 := (d2 + c1) / 2 ^ 42). assert (Hc2 : 0 <= c2 < 2 ^ 51) by (unfold c2; dlia).
  rewrite (u64_small (c2 * 5)) by lia. set (l0 := d0 mod 2 ^ 44). assert (Hl0 : 0 <= l0 < 2 ^ 44) by (unfold l0; dlia).
  rewrite (u64_small (l0 + _)) by lia. set (c3 := (l0 + c2 * 5) / 2 ^ 44). assert (Hc3 : 0 <= c3 < 2 ^ 10) by (unfold c3; dlia).
  rewrite (u64_small ((d1 + c0) mod _ + c3)) by dlia. split; [unfold h_ok; dlia|]. exists c2. unfold value, P1305.
  assert (E0 := Z.div_mod d0 (2 ^ 44) ltac:(lia)). assert (E1 := Z.div_mod (d1 + c0) (2 ^ 44) ltac:(lia)).
  assert (E2 := Z.div_mod (d2 + c1) (2 ^ 42) ltac:(lia)). assert (E3 := Z.div_mod (l0 + c2 * 5) (2 ^ 44) ltac:(lia)).
  fold c0 c1 c2 c3 l0 in E0, E1, E2, E3. lia.
Qed.

Lemma poly_block_spec hibit r h m : r_ok r -> h_ok h -> bytes m -> (16 <= length m)%nat -> hibit = 0 \/ hibit = 2 ^ 40 ->
  h_ok (poly_block hibit r h m) /\
  exists k, value (poly_block hibit r h m) = (value h + (le_combine (take 16 m) + 2 ^ 88 * hibit)) * value r - P1305 * k.
Proof.
  destruct r as [[r0 r1] r2], h as [[h0 h1] h2]. intros (Hr0 & Hr1 & Hr2) (Hh0 & Hh1 & Hh2) Hb Hl Hhi.
  destruct (le16 m Hb Hl) as (Ht0 & Ht1 & Em). destruct (limbs _ _ Ht0 Ht1) as (l0 & l1 & l2 & E0 & E1 & E2 & _ & Hl0 & Hl1 & Hl2 & El).
  unfold poly_block. rewrite E0, E1, E2.
  assert (Eh : Z.lor l2 hibit = l2 + hibit).
  { destruct Hhi as [-> | ->]; [rewrite Z.lor_0_r; lia|]. change (2 ^ 40) with (Z.shiftl 1 40) at 1. rewrite lor_add_shiftl by lia. lia. }
  rewrite Eh, (u64_small (r1 * 20)), (u64_small (r2 * 20)), (u64_small (h0 + _)), (u64_small (h1 + _)), (u64_small (h2 + _)) by (destruct Hhi; lia).
  set (a0 := h0 + l0). set (a1 := h1 + l1). set (a2 := h2 + (l2 + hibit)).
  assert (Ha0 : 0 <= a0 < 2 ^ 45) by lia. assert (Ha1 : 0 <= a1 < 2 ^ 46) by lia. assert (Ha2 : 0 <= a2 < 2 ^ 43) by (destruct Hhi; lia).
  unfold MUL, ADD3.
  assert (P00 := mul_bound a0 r0 45 44 Ha0 Hr0 ltac:(lia) ltac:(lia)). assert (P01 := mul_bound a0 r1 45 44 Ha0 Hr1 ltac:(lia) ltac:(lia)).
  assert (P02 := mul_bound a0 r2 45 40 Ha0 Hr2 ltac:(lia) ltac:(lia)). assert (P10 := mul_bound a1 r0 46 44 Ha1 Hr0 ltac:(lia) ltac:(lia)).
  assert (P11 := mul_bound a1 r1 46 44 Ha1 Hr1 ltac:(lia) ltac:(lia)). assert (P12 := mul_bound a1 r2 46 40 Ha1 Hr2 ltac:(lia) ltac:(lia)).
  assert (P20 := mul_bound a2 r0 43 44 Ha2 Hr0 ltac:(lia) ltac:(lia)). assert (P21 := mul_bound a2 r1 43 44 Ha2 Hr1 ltac:(lia) ltac:(lia)).
  assert (P22 := mul_bound a2 r2 43 40 Ha2 Hr2 ltac:(lia) ltac:(lia)). 
  set (p00 := a0 * r0) in *. set (p01 := a0 * r1) in *. set (p02 := a0 * r2) in *. set (p10 := a1 * r0) in *. set (p11 := a1 * r1) in *.
  set (p20 := a2 * r0) in *.
  replace (a1 * (r2 * 20)) with (20 * (a1 * r2)) by lia. replace (a2 * (r1 * 20)) with (20 * (a2 * r1)) by lia.
  replace (a2 * (r2 * 20)) with (20 * (a2 * r2)) by lia.
  set (p12 := a1 * r2) in *. set (p21 := a2 * r1) in *. set (p22 := a2 * r2) in *. cbn [Z.add Pos.add Pos.succ] in P00, P01, P02, P10, P11, P12, P20, P21, P22.
  rewrite (u128_small p00), (u128_small p01), (u128_small p02), (u128_small p10), (u128_small p11), (u128_small p20),
    (u128_small (20 * p12)), (u128_small (20 * p21)), (u128_small (20 * p22)) by lia.
  rewrite (u128_small (p00 + _)), (u128_small (p00 + _ + _)), (u128_small (p01 + _)), (u128_small (p01 + _ + _)),
    (u128_small (p02 + _)), (u128_small (p02 + _ + _)) by lia.
  assert (Hc := carry_spec (p00 + 20 * p12 + 20 * p21) (p01 + p10 + 20 * p22) (p02 + p11 + p20)
    ltac:(lia) ltac:(lia) ltac:(lia)). cbv zeta in Hc |- *. destruct Hc as [Hok [k Hk]]. split; [exact Hok|].
  exists (k + 4 * (p12 + p21 + 2 ^ 44 * p22)). rewrite Hk. unfold value, P1305.
  replace (h0 + 2 ^ 44 * h1 + 2 ^ 88 * h2 + (le_combine (take 16 m) + 2 ^ 88 * hibit)) with (a0 + 2 ^ 44 * a1 + 2 ^ 88 * a2) by (unfold a0, a1, a2; lia).
  unfold p00, p01, p02, p10, p11, p12, p20, p21, p22. ring.
Qed.
(** Whole blocks. *)
Lemma rfc_blocks_fuel r f1 : forall f2 acc m, (length m <= f1)%nat -> (length m <= f2)%nat -> rfc_blocks f1 r acc m = rfc_blocks f2 r acc m.
Proof.
  induction f1 as [|f1 IH]; intros f2 acc m H1 H2.
  - destruct m; [by destruct f2|cbn in H1; lia].
  - destruct m as [|b m]; [by destruct f2|]. destruct f2 as [|f2]; [cbn in H2; lia|]. cbn [rfc_blocks].
    apply IH; rewrite length_drop; cbn [length] in *; lia.
Qed.
Lemma rfc_blocks_step r acc a b : length a = 16%nat ->
  rfc_blocks (length (a ++ b)) r acc (a ++ b) = rfc_blocks (length b) r ((acc + le_combine (a ++ [1])) * r mod P1305) b.
Proof.
  intros Ha. destruct a as [|x a]; [done|]. cbn [app length rfc_blocks].
  change (x :: a ++ b) with ((x :: a) ++ b). rewrite take_app_length', drop_app_length' by done.
  apply rfc_blocks_fuel; rewrite ?length_app; lia.
Qed.
Lemma rfc_blocks_app r n : forall a acc b, length a = (16 * n)%nat ->
  rfc_blocks (length (a ++ b)) r acc (a ++ b) = rfc_blocks (length b) r (rfc_blocks (length a) r acc a) b.
Proof.
  induction n as [|n IH]; intros a acc b Ha; [by destruct a|].
  rewrite <-(take_drop 16 a). assert (H16 : length (take 16 a) = 16%nat) by (rewrite length_take; lia).
  rewrite <-(assoc_L (++)), !(rfc_blocks_step r acc (take 16 a)) by done. apply IH. rewrite length_drop. lia.
Qed.
Lemma cong_step v acc x r k : v mod P1305 = acc mod P1305 ->
  ((v + x) * r - P1305 * k) mod P1305 = ((acc + x) * r mod P1305) mod P1305.
Proof.
  intros E. rewrite Z.mod_mod by done. replace ((v + x) * r - P1305 * k) with ((v + x) * r + (- k) * P1305) by lia. rewrite Z.mod_add by done.
  rewrite Z.mul_mod, (Z.mul_mod (acc + x)) by done. do 2 f_equal. rewrite Z.add_mod, E, <-Z.add_mod by done. done.
Qed.
Lemma blocks_spec r fuel : r_ok r -> forall h acc n m, h_ok h -> bytes m -> length m = (16 * n)%nat -> (length m <= fuel)%nat ->
  value h mod P1305 = acc mod P1305 -> let h' := blocks_loop fuel (2 ^ 40) r h m in
  h_ok h' /\ value h' mod P1305 = rfc_blocks (length m) (value r) acc m mod P1305.
Proof.
  intros Hr. induction fuel as [|fuel IH]; intros h acc n m Hh Hb Hn Hf E; cbn zeta.
  { destruct m; [by split|cbn in Hf; lia]. }
  cbn [blocks_loop]. unfold hsk_poly1305_block_size. destruct (Nat.leb_spec 16 (length m)) as [H16|H16].
  - destruct (poly_block_spec (2 ^ 40) r h (take 16 m)) as [Hh' [k Hk]]; [done|done|by apply bytes_take|rewrite length_take; lia|by right|].
    assert (Ht : length (take 16 m) = 16%nat) by (rewrite length_take; lia). rewrite (take_ge (take 16 m)) in Hk by lia.
    assert (E1 : le_combine (take 16 m) + 2 ^ 88 * 2 ^ 40 = le_combine (take 16 m ++ [1])) by (rewrite le_combine_app, Ht; cbn [le_combine]; lia).
    rewrite E1 in Hk.
    assert (Es := rfc_blocks_step (value r) acc (take 16 m) (drop 16 m) Ht). rewrite take_drop in Es. rewrite Es.
    apply (IH _ _ (n - 1)%nat); [exact Hh'|by apply bytes_drop|rewrite length_drop; lia..|]. rewrite Hk. apply cong_step. exact E.
  - destruct m; [by split|cbn [length] in *; lia].
Qed.

(** * The context *)

(** The context after [data], with the limbs [r] of the multiplier and the words [s]. *)
Definition poly_at (r : Z * Z * Z) (s : Z * Z) (data : list Z) (st : hsk_poly1305_state_internal_t) : Prop :=
  exists full rest n, data = full ++ rest /\ length full = (16 * n)%nat /\ (length rest < 16)%nat /\ bytes data /\
  po_r st = r /\ po_pad st = s /\ h_ok (po_h st) /\ value (po_h st) mod P1305 = rfc_blocks (length full) (value r) 0 full mod P1305 /\
  po_leftover st = length rest /\ bytes_n 16 (po_buffer st) /\ take (length rest) (po_buffer st) = rest /\ po_final st = 0.
Lemma memcpy_buffer buf off src : bytes_n 16 buf -> bytes src -> (off + length src <= 16)%nat -> bytes_n 16 (memcpy_at buf off src) /\
  take (off + length src) (memcpy_at buf off src) = take off buf ++ src.
Proof.
  intros [Hl Hb] Hs Hle. unfold memcpy_at. split.
  - split; [rewrite !length_app, length_take, length_drop; lia|]. rewrite !bytes_app. split; [by apply bytes_take|]. split; [done|by apply bytes_drop].
  - rewrite (assoc_L (++)). apply take_app_length'. rewrite length_app, length_take. lia.
Qed.
Lemma blocks_at r s full n st m k : r_ok r -> po_r st = r -> po_pad st = s -> h_ok (po_h st) -> po_final st = 0 ->
  length full = (16 * n)%nat -> bytes m -> length m = (16 * k)%nat ->
  value (po_h st) mod P1305 = rfc_blocks (length full) (value r) 0 full mod P1305 ->
  let st' := hsk_poly1305_blocks st m in h_ok (po_h st') /\ value (po_h st') mod P1305 = rfc_blocks (length (full ++ m)) (value r) 0 (full ++ m) mod P1305.
Proof.
  intros Hr Er Es Hh Ef Hn Hb Hk E. unfold hsk_poly1305_blocks. cbn [po_h]. rewrite Ef, Er. cbn [Z.eqb].
  change (u64 (Z.shiftl 1 40)) with (2 ^ 40). rewrite (rfc_blocks_app _ n) by done.
  by apply (blocks_spec r (length m) Hr (po_h st) _ k).
Qed.
Lemma update_at r s data st m : r_ok r -> poly_at r s data st -> bytes m -> poly_at r s (data ++ m) (hsk_poly1305_update st m).
Proof.
  intros Hr (full & rest & n & -> & Hn & Hrest & Hbd & Er & Es & Hh & Ev & El & Hbuf & Et & Ef) Hm.
  unfold hsk_poly1305_update. rewrite El.
  set (want := if (length rest =? 0)%nat then 0%nat else Nat.min (hsk_poly1305_block_size - length rest) (length m)).
  assert (Hw : (want <= length m /\ length rest + want <= 16)%nat).
  { unfold want, hsk_poly1305_block_size. destruct (length rest =? 0)%nat; lia. }
  assert (Hwb : bytes (take want m)) by by apply bytes_take. assert (Hwl : length (take want m) = want) by (rewrite length_take; lia).
  destruct (memcpy_buffer (po_buffer st) (length rest) (take want m) Hbuf Hwb ltac:(lia)) as [Hb1 Ht1]. rewrite Hwl, Et in Ht1.
  cbn [po_leftover set_leftover]. set (buf := memcpy_at (po_buffer st) (length rest) (take want m)) in *.
  assert (Hfr : bytes full /\ bytes rest) by by apply bytes_app.
  (* what is left after the first block *)
  assert (Hgo : forall full2 n2 st2 m2, po_r st2 = r -> po_pad st2 = s -> h_ok (po_h st2) -> po_final st2 = 0 -> po_leftover st2 = 0%nat ->
    bytes_n 16 (po_buffer st2) -> length full2 = (16 * n2)%nat -> bytes (full2 ++ m2) ->
    value (po_h st2) mod P1305 = rfc_blocks (length full2) (value r) 0 full2 mod P1305 ->
    let want := (length m2 / hsk_poly1305_block_size * hsk_poly1305_block_size)%nat in
    let st3 := if (hsk_poly1305_block_size <=? length m2)%nat then hsk_poly1305_blocks st2 (take want m2) else st2 in
    let m3 := if (hsk_poly1305_block_size <=? length m2)%nat then drop want m2 else m2 in
    poly_at r s (full2 ++ m2) (set_leftover st3 (po_leftover st3 + length m3) (memcpy_at (po_buffer st3) (po_leftover st3) m3))).
  { clear -Hr. intros full2 n2 st2 m2 Er Es Hh Ef El Hbuf Hn Hb Ev. cbn zeta. unfold hsk_poly1305_block_size.
    apply bytes_app in Hb as Hb2. destruct Hb2 as [Hbf Hbm]. destruct (Nat.leb_spec 16 (length m2)) as [H16|H16].
    - set (w := (length m2 / 16)%nat). assert (Hdiv := Nat.div_mod_eq (length m2) 16). assert (Hmod := Nat.mod_upper_bound (length m2) 16 ltac:(lia)). fold w in Hdiv.
      destruct (blocks_at r s full2 n2 st2 (take (w * 16) m2) w Hr Er Es Hh Ef Hn) as [Hh' Ev']; [by apply bytes_take|rewrite length_take; lia|done|].
      destruct (memcpy_buffer (po_buffer st2) 0 (drop (w * 16) m2) Hbuf) as [Hb' Ht']; [by apply bytes_drop|rewrite length_drop; lia|].
      exists (full2 ++ take (w * 16) m2), (drop (w * 16) m2), (n2 + w)%nat. cbn [set_leftover po_r po_pad po_h po_leftover po_buffer po_final hsk_poly1305_blocks] in *.
      rewrite El. cbn [Nat.add] in *. rewrite <-(assoc_L (++)), take_drop. split; [done|]. split; [rewrite length_app, length_take; lia|].
      split; [rewrite length_drop; lia|]. by split_and!.
    - destruct (memcpy_buffer (po_buffer st2) 0 m2 Hbuf Hbm ltac:(lia)) as [Hb' Ht'].
      exists full2, m2, n2. cbn [set_leftover po_r po_pad po_h po_leftover po_buffer po_final] in *. rewrite El. cbn [Nat.add] in *. by split_and!. }
  destruct (Nat.eqb_spec (length rest + want) 0) as [E0|E0]; cbn [negb andb].
  - assert (rest = []) as -> by (destruct rest; [done|cbn in E0; lia]). cbn [length] in *.
    assert (want = 0%nat) as Ew by done. rewrite Ew, drop_0, app_nil_r in *. 
    apply (Hgo full n (set_leftover st (0 + 0) buf) m); try done. by apply bytes_app.
  - destruct (Nat.ltb_spec (length rest + want) hsk_poly1305_block_size) as [Hlt|Hge]; unfold hsk_poly1305_block_size in *.
    + assert (Ed : drop want m = []).
      { apply drop_ge. unfold want in *. destruct (Nat.eqb_spec (length rest) 0); lia. }
      assert (Em : take want m = m) by (rewrite <-(take_drop want m) at 2; by rewrite Ed, app_nil_r).
      exists full, (rest ++ m), n. cbn [set_leftover po_r po_pad po_h po_leftover po_buffer po_final]. rewrite Em in Hwl, Ht1.
      rewrite (assoc_L (++)), !length_app, Hwl. split; [done|]. split; [done|]. split; [lia|]. split; [by apply bytes_app|]. by split_and!.
    + assert (Hfull : length (rest ++ take want m) = 16%nat) by (rewrite length_app; lia).
      assert (Ebuf : buf = rest ++ take want m) by (rewrite <-Ht1; symmetry; apply take_ge; destruct Hb1; lia).
      destruct (blocks_at r s full n (set_leftover st (length rest + want) buf) buf 1 Hr Er Es Hh Ef Hn (proj2 Hb1) (proj1 Hb1) Ev) as [Hh' Ev'].
      replace ((full ++ rest) ++ m) with ((full ++ rest ++ take want m) ++ drop want m) by (rewrite <-!(assoc_L (++)), take_drop; done).
      apply (Hgo (full ++ rest ++ take want m) (n + 1)%nat (set_leftover (hsk_poly1305_blocks (set_leftover st (length rest + want) buf) buf) 0 buf));
        try done; [rewrite !length_app in *; lia| |].
      * rewrite <-!(assoc_L (++)), take_drop, !bytes_app. tauto.
      * rewrite <-Ebuf. exact Ev'.
Qed.

(** * The tag *)

(** Splits a number that is shifted and masked. *)
Lemma split_at x n : 0 < n -> x = 2 ^ n * (x / 2 ^ n) + x mod 2 ^ n /\ 0 <= x mod 2 ^ n < 2 ^ n.
Proof. intros Hn. assert (0 < 2 ^ n) by (apply Z.pow_pos_nonneg; lia). split; [by apply Z.div_mod; lia|by apply Z.mod_pos_bound]. Qed.
Ltac split_at x n q m := destruct (split_at x n) as [? ?]; [lia|]; set (q := x / 2 ^ n) in *; set (m := x mod 2 ^ n) in *; clearbody q m.
(** The second carry leaves the limbs of a number below 2^130. *)
Definition carried (x : Z * Z * Z) : Z * Z * Z :=
  let '(h0, h1, h2) := x in
  let c := Z.shiftr h1 44 in let h1 := Z.land h1 mask44 in let h2 := u64 (h2 + c) in
  let c := Z.shiftr h2 42 in let h2 := Z.land h2 mask42 in let h0 := u64 (h0 + u64 (c * 5)) in
  let c := Z.shiftr h0 44 in let h0 := Z.land h0 mask44 in let h1 := u64 (h1 + c) in
  let c := Z.shiftr h1 44 in let h1 := Z.land h1 mask44 in let h2 := u64 (h2 + c) in
  let c := Z.shiftr h2 42 in let h2 := Z.land h2 mask42 in let h0 := u64 (h0 + u64 (c * 5)) in
  let c := Z.shiftr h0 44 in let h0 := Z.land h0 mask44 in let h1 := u64 (h1 + c) in (h0, h1, h2).
Definition canonical (h : Z * Z * Z) : Prop := let '(h0, h1, h2) := h in 0 <= h0 < 2 ^ 44 /\ 0 <= h1 < 2 ^ 44 /\ 0 <= h2 < 2 ^ 42.
Lemma carried_spec x : h_ok x -> canonical (carried x) /\ exists k, value (carried x) = value x - P1305 * k.
Proof.
  destruct x as [[x0 x1] x2]. intros (H0 & H1 & H2). unfold carried. rewrite !land_mask44, !land_mask42, !Z.shiftr_div_pow2 by lia.
  split_at x1 44 c1 y1. rewrite (u64_small (x2 + c1)) by lia.
  split_at (x2 + c1) 42 c2 y2. rewrite (u64_small (c2 * 5)), (u64_small (x0 + _)) by lia.
  split_at (x0 + c2 * 5) 44 c3 y0. rewrite (u64_small (y1 + c3)) by lia.
  split_at (y1 + c3) 44 c4 z1. rewrite (u64_small (y2 + c4)) by lia.
  split_at (y2 + c4) 42 c5 z2. rewrite (u64_small (c5 * 5)), (u64_small (y0 + _)) by lia.
  split_at (y0 + c5 * 5) 44 c6 z0. rewrite (u64_small (z1 + c6)) by lia.
  split; [unfold canonical; lia|]. exists (c2 + c5). unfold value, P1305. lia.
Qed.
(** The difference with the modulus, if it is not negative. *)
Definition reduced (x : Z * Z * Z) : Z * Z * Z :=
  let '(h0, h1, h2) := x in
  let g0 := u64 (h0 + 5) in
  let c := Z.shiftr g0 44 in let g0 := Z.land g0 mask44 in
  let g1 := u64 (h1 + c) in
  let c := Z.shiftr g1 44 in let g1 := Z.land g1 mask44 in
  let g2 := u64 (h2 + c - Z.shiftl 1 42) in
  let c := u64 (Z.shiftr g2 63 - 1) in
  let g0 := Z.land g0 c in let g1 := Z.land g1 c in let g2 := Z.land g2 c in
  let c := u64 (Z.lnot c) in
  (Z.lor (Z.land h0 c) g0, Z.lor (Z.land h1 c) g1, Z.lor (Z.land h2 c) g2).
Lemma land_all x : 0 <= x < 2 ^ 64 -> Z.land x (2 ^ 64 - 1) = x.
Proof. intros Hx. rewrite land_ones_mod by lia. by apply Z.mod_small. Qed.
Lemma reduced_spec x : canonical x -> canonical (reduced x) /\ value (reduced x) = value x mod P1305.
Proof.
  destruct x as [[h0 h1] h2]. intros (H0 & H1 & H2). unfold reduced. rewrite !land_mask44, !Z.shiftr_div_pow2 by lia.
  change (Z.shiftl 1 42) with (2 ^ 42). rewrite (u64_small (h0 + 5)) by lia. split_at (h0 + 5) 44 c0 g0.
  rewrite (u64_small (h1 + c0)) by lia. split_at (h1 + c0) 44 c1 g1.
  destruct (Z.lt_ge_cases (h2 + c1) (2 ^ 42)) as [Hlt|Hge].
  - assert (E : u64 (h2 + c1 - 2 ^ 42) = h2 + c1 - 2 ^ 42 + 2 ^ 64) by (unfold u64; dlia). rewrite E.
    replace ((h2 + c1 - 2 ^ 42 + 2 ^ 64) / 2 ^ 63) with 1 by dlia. change (u64 (1 - 1)) with 0. change (u64 (Z.lnot 0)) with (2 ^ 64 - 1).
    rewrite !Z.land_0_r, !Z.lor_0_r, !land_all by lia. split; [by unfold canonical|]. symmetry. apply Z.mod_small. unfold value, P1305. lia.
  - rewrite (u64_small (h2 + c1 - _)) by lia. replace ((h2 + c1 - 2 ^ 42) / 2 ^ 63) with 0 by dlia.
    change (u64 (0 - 1)) with (2 ^ 64 - 1). change (u64 (Z.lnot (2 ^ 64 - 1))) with 0. rewrite !Z.land_0_r, !Z.lor_0_l, !land_all by lia.
    split; [unfold canonical; lia|]. apply (Z.mod_unique _ _ 1); unfold value, P1305; lia.
Qed.
(** The pad is added; the words are those of the sum. *)
Definition padded (x : Z * Z * Z) (pad : Z * Z) : Z * Z :=
  let '(h0, h1, h2) := x in
  let '(t0, t1) := pad in
  let h0 := u64 (h0 + Z.land t0 mask44) in
  let c := Z.shiftr h0 44 in let h0 := Z.land h0 mask44 in
  let h1 := u64 (h1 + u64 (Z.land (middle t0 t1) mask44 + c)) in
  let c := Z.shiftr h1 44 in let h1 := Z.land h1 mask44 in
  let h2 := u64 (h2 + u64 (Z.land (Z.shiftr t1 24) mask42 + c)) in
  let h2 := Z.land h2 mask42 in
  (Z.lor h0 (u64 (Z.shiftl h1 44)), Z.lor (Z.shiftr h1 20) (u64 (Z.shiftl h2 24))).
Lemma poly_finish_parts h pad : poly_finish h pad = padded (reduced (carried h)) pad.
Proof. destruct h as [[? ?] ?], pad. reflexivity. Qed.
Lemma padded_spec x t0 t1 : canonical x -> 0 <= t0 < 2 ^ 64 -> 0 <= t1 < 2 ^ 64 -> let '(w0, w1) := padded x (t0, t1) in
  le_split 8 w0 ++ le_split 8 w1 = le_split 16 (value x + (t0 + 2 ^ 64 * t1)).
Proof.
  destruct x as [[h0 h1] h2]. intros (H0 & H1 & H2) Ht0 Ht1. unfold padded.
  destruct (limbs _ _ Ht0 Ht1) as (l0 & l1 & l2 & -> & -> & -> & _ & Hl0 & Hl1 & Hl2 & El). rewrite <-El. unfold value.
  rewrite !land_mask44, !land_mask42, !Z.shiftr_div_pow2 by lia. rewrite (u64_small (h0 + l0)) by lia. split_at (h0 + l0) 44 c0 y0.
  rewrite (u64_small (l1 + c0)), (u64_small (h1 + _)) by lia. split_at (h1 + (l1 + c0)) 44 c1 y1.
  rewrite (u64_small (l2 + c1)), (u64_small (h2 + _)) by lia. split_at (h2 + (l2 + c1)) 42 c2 y2.
  assert (E0 : u64 (Z.shiftl y1 44) = Z.shiftl (y1 mod 2 ^ 20) 44) by (unfold u64; rewrite !Z.shiftl_mul_pow2 by lia; dlia).
  assert (E1 : u64 (Z.shiftl y2 24) = Z.shiftl (y2 mod 2 ^ 40) 24) by (unfold u64; rewrite !Z.shiftl_mul_pow2 by lia; dlia).
  rewrite E0, E1, !lor_add_shiftl by (lia || dlia). split_at y1 20 q1 m1. split_at y2 40 q2 m2.
  set (w0 := y0 + m1 * 2 ^ 44). set (w1 := q1 + m2 * 2 ^ 24).
  assert (Hw0 : 0 <= w0 < 2 ^ 64) by (unfold w0; lia). assert (Hw1 : 0 <= w1 < 2 ^ 64) by (unfold w1; lia).
  assert (Ev : exists k, h0 + 2 ^ 44 * h1 + 2 ^ 88 * h2 + (l0 + 2 ^ 44 * l1 + 2 ^ 88 * l2) = w0 + 2 ^ 64 * w1 + 2 ^ 128 * k).
  { exists (q2 + 4 * c2). unfold w0, w1. lia. }
  destruct Ev as [k ->]. clearbody w0 w1. clear -Hw0 Hw1.
  assert (Hs : forall n m z, le_split (n + m) z = le_split n z ++ le_split m (z / 256 ^ Z.of_nat n)).
  { intros n. induction n as [|n IH]; intros m z; [by cbn; rewrite Z.div_1_r|]. cbn [Nat.add le_split app]. rewrite IH, Z.div_div by lia.
    do 3 f_equal. rewrite Nat2Z.inj_succ, Z.pow_succ_r by lia. done. }
  change 16%nat with (8 + 8)%nat. rewrite Hs. change (256 ^ Z.of_nat 8) with (2 ^ 64).
  assert (Hm : forall n z z', z mod 256 ^ Z.of_nat n = z' mod 256 ^ Z.of_nat n -> le_split n z = le_split n z').
  { intros n z z' E. rewrite <-(le_split_combine (le_split n z)), <-(le_split_combine (le_split n z')) by apply bytes_le_split.
    by rewrite !length_le_split, !le_combine_split, E. }
  f_equal; apply Hm; change (256 ^ Z.of_nat 8) with (2 ^ 64).
  - replace (w0 + 2 ^ 64 * w1 + 2 ^ 128 * k) with (w0 + (w1 + 2 ^ 64 * k) * 2 ^ 64) by lia. by rewrite Z.mod_add by lia.
  - replace ((w0 + 2 ^ 64 * w1 + 2 ^ 128 * k) / 2 ^ 64) with (w1 + k * 2 ^ 64) by dlia. by rewrite Z.mod_add by lia.
Qed.

(** * Properties *)

Definition multiplier (key : list Z) : Z * Z * Z :=
  let t0 := U8TO64 key in let t1 := U8TO64 (drop 8 key) in
  (Z.land t0 0xffc0fffffff, Z.land (middle t0 t1) 0xfffffc0ffff, Z.land (Z.shiftr t1 24) 0x00ffffffc0f).
Lemma land_bound a c n : 0 <= n -> 0 <= c < 2 ^ n -> 0 <= Z.land a c < 2 ^ n.
Proof.
  intros Hn Hc. replace (Z.land a c) with (Z.land a c mod 2 ^ n); [apply Z.mod_pos_bound; lia|]. apply Z.bits_inj'. intros i Hi.
  destruct (Z.ltb_spec i n); [by rewrite Z.mod_pow2_bits_low by lia|]. rewrite Z.mod_pow2_bits_high, Z.land_spec by lia.
  by rewrite <-(Z.mod_small c (2 ^ n)), Z.mod_pow2_bits_high, andb_false_r by lia.
Qed.
Lemma multiplier_spec key : bytes key -> (16 <= length key)%nat -> r_ok (multiplier key) /\ value (multiplier key) = clamp (le_combine (take 16 key)).
Proof.
  intros Hb Hl. destruct (le16 key Hb Hl) as (Ht0 & Ht1 & Em). unfold multiplier. set (t0 := U8TO64 key) in *. set (t1 := U8TO64 (drop 8 key)) in *.
  split; [unfold r_ok; split; [apply (land_bound _ _ 44); lia|split; [apply (land_bound _ _ 44); lia|apply (land_bound _ _ 40); lia]]|].
  destruct (limbs _ _ Ht0 Ht1) as (l0 & l1 & l2 & E0 & E1 & _ & E2 & Hl0 & Hl1 & Hl2 & El). rewrite <-Em, <-El, E2. unfold clamp, value.
  assert (Hm : forall x m, 0 <= m -> m = Z.land mask44 m -> Z.land x m = Z.land (Z.land x mask44) m) by (intros x m _ ->; by rewrite <-!Z.land_assoc, (Z.land_assoc mask44), Z.land_diag).
  rewrite (Hm t0 0xffc0fffffff), (Hm (middle t0 t1) 0xfffffc0ffff), E0, E1 by (lia || done).
  replace (l0 + 2 ^ 44 * l1 + 2 ^ 88 * l2) with (l0 + 2 ^ 44 * (l1 + 2 ^ 44 * l2)) by lia.
  change 0x0ffffffc0ffffffc0ffffffc0fffffff with (0xffc0fffffff + 2 ^ 44 * (0xfffffc0ffff + 2 ^ 44 * 0x00ffffffc0f)).
  rewrite !land_split by lia. lia.
Qed.
(** The words of the pad of a key. *)
Definition pad_words (key : list Z) : Z * Z := (U8TO64 (drop 16 key), U8TO64 (drop 24 key)).
Lemma init_at garbage key : bytes_n 16 (po_buffer garbage) -> bytes_n 32 key ->
  poly_at (multiplier key) (pad_words key) [] (hsk_poly1305_init garbage key).
Proof.
  intros Hg [Hl Hb]. exists [], [], 0%nat. cbn [length app po_r po_pad po_h po_leftover po_buffer po_final hsk_poly1305_init].
  split_and!; try done; [lia|apply bytes_nil].
Qed.
Definition poly_parts (st : hsk_poly1305_state_internal_t) (parts : list (list Z)) : hsk_poly1305_state_internal_t :=
  fold_left hsk_poly1305_update parts st.
Lemma poly_parts_at r s parts : r_ok r -> forall data st, poly_at r s data st -> Forall bytes parts -> poly_at r s (data ++ concat parts) (poly_parts st parts).
Proof.
  intros Hr. induction parts as [|p parts IH]; intros data st Hat Hp; cbn [concat poly_parts fold_left]; [by rewrite app_nil_r|].
  apply Forall_cons in Hp as [Hp Hps]. rewrite (assoc_L (++)). apply IH; [|done]. by apply update_at.
Qed.
Lemma rfc_blocks_last r acc rest : rest <> [] -> (length rest < 16)%nat ->
  rfc_blocks (length rest) r acc rest = (acc + le_combine (rest ++ [1])) * r mod P1305.
Proof.
  intros Hne Hl. destruct rest as [|x rest]; [done|]. cbn [length rfc_blocks]. cbn [length] in Hl. rewrite take_ge, drop_ge by (cbn [length]; lia).
  by destruct (length rest).
Qed.
Lemma le_combine_zeros l n : le_combine (l ++ replicate n 0) = le_combine l.
Proof.
  rewrite le_combine_app. assert (E : le_combine (replicate n 0) = 0) by (induction n as [|n IH]; [done|cbn [replicate le_combine]; lia]). lia.
Qed.
Lemma rfc_blocks_range r fuel : forall acc m, 0 <= acc < P1305 -> 0 <= rfc_blocks fuel r acc m < P1305.
Proof.
  induction fuel as [|fuel IH]; intros acc m Ha; [done|]. destruct m; [done|]. cbn [rfc_blocks]. apply IH, Z.mod_pos_bound. done.
Qed.
Lemma finish_at r t0 t1 data st : r_ok r -> 0 <= t0 < 2 ^ 64 -> 0 <= t1 < 2 ^ 64 -> poly_at r (t0, t1) data st ->
  snd (hsk_poly1305_finish st) = le_split 16 (rfc_blocks (length data) (value r) 0 data + (t0 + 2 ^ 64 * t1)).
Proof.
  intros Hr Ht0 Ht1 (full & rest & n & -> & Hn & Hrest & Hbd & Er & Es & Hh & Ev & El & Hbuf & Et & Ef).
  unfold hsk_poly1305_finish. rewrite El.
  set (st2 := if (length rest =? 0)%nat then st else _).
  assert (H2 : po_pad st2 = (t0, t1) /\ h_ok (po_h st2) /\ value (po_h st2) mod P1305 = rfc_blocks (length (full ++ rest)) (value r) 0 (full ++ rest) mod P1305).
  { unfold st2. destruct (Nat.eqb_spec (length rest) 0) as [E0|E0].
    - destruct rest; [|done]. rewrite app_nil_r. by split_and!.
    - cbn [hsk_poly1305_blocks po_pad po_h po_final po_r Z.eqb]. rewrite Er. split; [done|].
      set (tail := 1 :: replicate (15 - length rest) 0).
      assert (Htl : length tail = (16 - length rest)%nat) by (unfold tail; cbn [length]; rewrite length_replicate; lia).
      destruct (memcpy_buffer (po_buffer st) (length rest) tail Hbuf) as [Hb' Ht']; [unfold tail; apply bytes_cons; [lia|by apply bytes_replicate]|lia|].
      set (buffer := memcpy_at (po_buffer st) (length rest) tail) in *. rewrite Htl, Et, take_ge in Ht' by (destruct Hb'; lia).
      destruct Hb' as [Hbl Hbb]. rewrite Hbl. cbn [blocks_loop]. unfold hsk_poly1305_block_size. rewrite Hbl, Nat.leb_refl, (take_ge buffer), (drop_ge buffer) by lia.
      destruct (poly_block_spec 0 r (po_h st) buffer Hr Hh Hbb ltac:(lia) ltac:(by left)) as [Hh' [k Hk]]. rewrite (take_ge buffer) in Hk by lia.
      cbn [blocks_loop length Nat.leb]. split; [done|]. rewrite (rfc_blocks_app _ n), rfc_blocks_last by (done || by intros ->). rewrite Hk, Z.mul_0_r, Z.add_0_r, Ht'.
      unfold tail. replace (rest ++ 1 :: replicate (15 - length rest) 0) with ((rest ++ [1]) ++ replicate (15 - length rest) 0) by (by rewrite <-(assoc_L (++))).
      rewrite le_combine_zeros. by apply cong_step. }
  clearbody st2. destruct H2 as (Ep & Hh2 & E2). rewrite Ep, poly_finish_parts.
  destruct (carried_spec _ Hh2) as [Hca [k Hk]]. destruct (reduced_spec _ Hca) as [Hre Ere].
  assert (Hp := padded_spec _ t0 t1 Hre Ht0 Ht1). destruct (padded (reduced (carried (po_h st2))) (t0, t1)) as [w0 w1]. cbn [snd].
  rewrite !U64TO8_le, Hp. do 2 f_equal. rewrite Ere, Hk. replace (value (po_h st2) - P1305 * k) with (value (po_h st2) + (- k) * P1305) by lia.
  rewrite Z.mod_add, E2 by done. apply Z.mod_small, rfc_blocks_range. done.
Qed.
Lemma finish_tag key data st : bytes_n 32 key -> poly_at (multiplier key) (pad_words key) data st ->
  snd (hsk_poly1305_finish st) = rfc8439_poly1305 key data.
Proof.
  intros [Hl Hb] Hat. destruct (multiplier_spec key Hb ltac:(lia)) as [Hr Er].
  destruct (le16 (drop 16 key) (bytes_drop _ _ Hb)) as (Ht0 & Ht1 & Es); [rewrite length_drop; lia|].
  rewrite drop_drop in Ht1, Es. cbn [Nat.add] in Ht1, Es. apply finish_at in Hat; [|done..]. rewrite Es, Er in Hat. exact Hat.
Qed.
Lemma finish_buffer r s data st : poly_at r s data st -> bytes_n 16 (po_buffer (fst (hsk_poly1305_finish st))).
Proof.
  intros (full & rest & n & _ & _ & Hrest & _ & _ & _ & _ & _ & El & Hbuf & _). unfold hsk_poly1305_finish. rewrite El.
  destruct (Nat.eqb_spec (length rest) 0) as [E0|E0].
  - destruct (poly_finish _ _). exact Hbuf.
  - cbn [hsk_poly1305_blocks po_h po_pad po_buffer]. destruct (poly_finish _ _). cbn [fst po_buffer].
    apply memcpy_buffer; [done|apply bytes_cons; [lia|by apply bytes_replicate]|cbn [length]; rewrite length_replicate; lia].
Qed.
(** Bytes that differ, collected. *)
Lemma dif_byte dif x y : 0 <= dif < 2 ^ 8 -> 0 <= x < 2 ^ 8 -> 0 <= y < 2 ^ 8 -> 0 <= Z.lor dif (Z.lxor x y) < 2 ^ 8.
Proof.
  intros Hd Hx Hy. replace (Z.lor dif (Z.lxor x y)) with (Z.lor dif (Z.lxor x y) mod 2 ^ 8); [apply Z.mod_pos_bound; lia|].
  apply Z.bits_inj'. intros i Hi. destruct (Z.ltb_spec i 8); [by rewrite Z.mod_pow2_bits_low by lia|].
  rewrite Z.mod_pow2_bits_high, Z.lor_spec, Z.lxor_spec by lia.
  by rewrite <-(Z.mod_small dif (2 ^ 8)), <-(Z.mod_small x (2 ^ 8)), <-(Z.mod_small y (2 ^ 8)), !Z.mod_pow2_bits_high by lia.
Qed.
Lemma mac_verify m1 m2 : bytes_n 16 m1 -> bytes_n 16 m2 -> hsk_poly1305_verify m1 m2 = if bool_decide (m1 = m2) then 1 else 0.
Proof.
  intros [H1 B1] [H2 B2]. unfold hsk_poly1305_verify.
  assert (Hinv : (fun i dif => 0 <= dif < 2 ^ 8 /\ (dif = 0 <-> take i m1 = take i m2)) (0 + 16)%nat
    (fold_left (fun dif i => Z.lor dif (Z.lxor m1.[i] m2.[i])) (seq 0 16) 0)).
  { apply (fold_left_seq_inv (fun i dif => 0 <= dif < 2 ^ 8 /\ (dif = 0 <-> take i m1 = take i m2))); [by rewrite !take_0|].
    intros i dif Hi [Hd Heq]. destruct (lookup_lt_is_Some_2 m1 i ltac:(lia)) as [x Hx]. destruct (lookup_lt_is_Some_2 m2 i ltac:(lia)) as [y Hy].
    rewrite !nth_lookup, Hx, Hy, (take_S_r _ _ _ Hx), (take_S_r _ _ _ Hy). cbn [default from_option id].
    assert (Bx := Forall_lookup_1 _ _ _ _ B1 Hx). assert (By := Forall_lookup_1 _ _ _ _ B2 Hy). cbn beta in Bx, By.
    split; [by apply dif_byte|].
    rewrite Z.lor_eq_0_iff, Z.lxor_eq_0_iff, Heq. split; [intros [-> ->]; done|]. intros E. apply app_inj_2 in E as [-> [= ->]]; done. }
  cbn [Nat.add] in Hinv. set (dif := fold_left _ _ _) in *. clearbody dif. rewrite !take_ge in Hinv by lia. destruct Hinv as [Hd Heq].
  destruct (decide (m1 = m2)) as [E|E].
  - rewrite bool_decide_eq_true_2 by done. apply Heq in E. by subst dif.
  - rewrite bool_decide_eq_false_2 by done. assert (dif <> 0) by tauto. rewrite u32_small, Z.shiftr_div_pow2, Z.div_small by lia. done.
Qed.
(** C37: The authenticator is Poly1305. From any context and however the message is cut, it gives the tag of RFC 8439,
    computed with one remainder modulo [2 ^ 130 - 5] for each block; the comparison of tags is 1
    for equal tags and 0 for others. *)
Theorem poly1305_correct garbage key parts : bytes_n 16 (po_buffer garbage) -> bytes_n 32 key -> Forall bytes parts ->
  let tag := snd (hsk_poly1305_finish (fold_left hsk_poly1305_update parts (hsk_poly1305_init garbage key))) in
  tag = rfc8439_poly1305 key (concat parts) /\
  (forall mac, bytes_n 16 mac -> hsk_poly1305_verify tag mac = if bool_decide (mac = rfc8439_poly1305 key (concat parts)) then 1 else 0).
Proof.
  intros Hg Hk Hp. cbn zeta. destruct (multiplier_spec key (proj2 Hk) ltac:(destruct Hk; lia)) as [Hr _].
  assert (Hat := poly_parts_at _ _ parts Hr [] _ (init_at garbage key Hg Hk) Hp). apply (finish_tag key) in Hat; [|exact Hk].
  cbn [app] in Hat. unfold poly_parts in Hat. split; [exact Hat|]. intros mac Hmac. rewrite Hat.
  rewrite mac_verify; [|split; [apply length_le_split|apply bytes_le_split]|done].
  by destruct (decide (mac = rfc8439_poly1305 key (concat parts))) as [->|]; [rewrite !bool_decide_eq_true_2|rewrite !bool_decide_eq_false_2 by congruence].
Qed.
(** The text of the RFC, in three parts, the last one empty. *)
Lemma poly1305_correct_witness :
  let tag := snd (hsk_poly1305_finish (fold_left hsk_poly1305_update [take 20 poly_sample; drop 20 poly_sample; []] (hsk_poly1305_init poly_garbage poly_sample_key))) in
  tag = rfc8439_poly1305 poly_sample_key poly_sample /\ hsk_poly1305_verify tag (replicate 16 0) = 0.
Proof.
  assert (Hk : bytes_n 32 poly_sample_key) by (apply (bool_decide_unpack _); vm_compute; exact I).
  assert (Hp : Forall bytes [take 20 poly_sample; drop 20 poly_sample; []]) by (apply (bool_decide_unpack _); vm_compute; exact I).
  assert (Hz : bytes_n 16 (replicate 16 0)) by (split; [reflexivity|by apply bytes_replicate]).
  destruct (poly1305_correct poly_garbage poly_sample_key _ ltac:(split; [done|by apply bytes_replicate]) Hk Hp) as [E V].
  assert (Ec : concat [take 20 poly_sample; drop 20 poly_sample; []] = poly_sample) by (vm_compute; reflexivity). rewrite Ec in E, V.
  cbv zeta. assert (V' := V (replicate 16 0) Hz).
  refine (conj E (eq_trans V' _)). vm_compute. reflexivity.
Defined.
