(* ===== verification/Aead.v ===== *)
(** Authenticated encryption for the encrypted transport: [aead.c], over ChaCha20 and
    Poly1305.

    A call on a buffer that is encrypted in place gives the new content of the buffer. *)

From Stdlib Require Import String.
From S2P Require Import Prelude Bio Blake2b Chacha20 Chacha20Props Poly1305 Poly1305Props.

Record hsk_aead_t := mk_aead {
  ae_chacha : hsk_chacha20_ctx;
  ae_poly : hsk_poly1305_state_internal_t;
  ae_aad_len : Z;
  ae_cipher_len : Z;
  ae_has_cipher : bool;
  ae_poly_key : list Z;
}.

Definition hsk_aead_init : hsk_aead_t :=
  mk_aead (mk_chacha (replicate 16 0) (replicate 64 0) 0 8) (mk_poly (0, 0, 0) (0, 0, 0) (0, 0) 0 (replicate 16 0) 0) 0 0 false (replicate 32 0).

Definition hsk_aead_setup (aead : hsk_aead_t) (key iv : list Z) : outcome hsk_aead_t :=
  let chacha := hsk_chacha20_keysetup (ae_chacha aead) key 32 in
  let chacha := hsk_chacha20_ivsetup chacha iv 12 in
  let chacha := hsk_chacha20_counter_set chacha 0 in
  let '(chacha, poly_key) := hsk_chacha20_encrypt chacha (replicate 32 0) in
  let poly := hsk_poly1305_init (ae_poly aead) poly_key in
  let '(chacha, half_block) := hsk_chacha20_encrypt chacha (replicate 32 0) in
  let* _ := oassert (hsk_chacha20_counter_get chacha =? 1) in
  Ret (mk_aead chacha poly 0 0 false poly_key).

Definition feed (aead : hsk_aead_t) (data : list Z) : hsk_aead_t :=
  mk_aead (ae_chacha aead) (hsk_poly1305_update (ae_poly aead) data) (ae_aad_len aead) (ae_cipher_len aead)
    (ae_has_cipher aead) (ae_poly_key aead).
Definition hsk_aead_pad16 (aead : hsk_aead_t) (size : Z) : hsk_aead_t :=
  let size := size mod 16 in
  if size =? 0 then aead else feed aead (replicate (Z.to_nat (16 - size)) 0).
Definition hsk_aead_aad (aead : hsk_aead_t) (aad : list Z) : outcome hsk_aead_t :=
  let* _ := oassert (negb (ae_has_cipher aead)) in
  let aead := feed aead aad in
  Ret (mk_aead (ae_chacha aead) (ae_poly aead) (u64 (ae_aad_len aead + Z.of_nat (length aad))) (ae_cipher_len aead)
    (ae_has_cipher aead) (ae_poly_key aead)).
(** [if (!aead->has_cipher) hsk_aead_pad16(aead, aead->aad_len);] *)
Definition pad_aad (aead : hsk_aead_t) : hsk_aead_t :=
  if negb (ae_has_cipher aead) then hsk_aead_pad16 aead (ae_aad_len aead) else aead.
(** [cipher_len] counts [len] more bytes. *)
Definition count_cipher (aead : hsk_aead_t) (len : nat) : hsk_aead_t :=
  mk_aead (ae_chacha aead) (ae_poly aead) (ae_aad_len aead) (u64 (ae_cipher_len aead + Z.of_nat len)) true (ae_poly_key aead).
Definition set_chacha (aead : hsk_aead_t) (chacha : hsk_chacha20_ctx) : hsk_aead_t :=
  mk_aead chacha (ae_poly aead) (ae_aad_len aead) (ae_cipher_len aead) (ae_has_cipher aead) (ae_poly_key aead).
Definition hsk_aead_encrypt (aead : hsk_aead_t) (inp : list Z) : hsk_aead_t * list Z :=
  let aead := pad_aad aead in
  let '(chacha, out) := hsk_chacha20_encrypt (ae_chacha aead) inp in
  (count_cipher (feed (set_chacha aead chacha) out) (length inp), out).
Definition hsk_aead_decrypt (aead : hsk_aead_t) (inp : list Z) : hsk_aead_t * list Z :=
  let aead := count_cipher (pad_aad aead) (length inp) in
  let aead := feed aead inp in
  let '(chacha, out) := hsk_chacha20_encrypt (ae_chacha aead) inp in
  (set_chacha aead chacha, out).
Definition hsk_aead_auth (aead : hsk_aead_t) (inp : list Z) : hsk_aead_t :=
  feed (count_cipher (pad_aad aead) (length inp)) inp.
Definition hsk_aead_final (h : endian) (aead : hsk_aead_t) : hsk_aead_t * list Z :=
  let len := set_u64_on h (ae_aad_len aead) ++ set_u64_on h (ae_cipher_len aead) in
  let aead := pad_aad aead in
  let aead := hsk_aead_pad16 aead (ae_cipher_len aead) in
  let aead := feed aead len in
  let '(poly, tag) := hsk_poly1305_finish (ae_poly aead) in
  (mk_aead (ae_chacha aead) poly (ae_aad_len aead) (ae_cipher_len aead) (ae_has_cipher aead) (ae_poly_key aead), tag).
Definition hsk_aead_verify (mac1 mac2 : list Z) : bool := negb (hsk_poly1305_verify mac1 mac2 =? 0).

(** Encrypts or decrypts one buffer with a nonce and additional data, or none, as the
    callers do: the buffer and the tag. *)
Definition aead_run (h : endian) (step : hsk_aead_t -> list Z -> hsk_aead_t * list Z) (aead : hsk_aead_t) (key iv : list Z)
    (ad : option (list Z)) (data : list Z) : outcome (hsk_aead_t * list Z * list Z) :=
  let* aead := hsk_aead_setup aead key iv in
  let* aead := match ad with Some ad => hsk_aead_aad aead ad | None => Ret aead end in
  let '(aead, out) := step aead data in
  let '(aead, tag) := hsk_aead_final h aead in
  Ret (aead, out, tag).

(** * RFC 8439, section 2.8 *)

Definition rfc_pad16 (x : list Z) : list Z := replicate ((16 - length x mod 16) mod 16) 0.
Definition rfc_tag (key nonce aad ciphertext : list Z) : list Z :=
  rfc8439_poly1305 (rfc8439_chacha20 key 0 nonce (replicate 32 0))
    (aad ++ rfc_pad16 aad ++ ciphertext ++ rfc_pad16 ciphertext ++
     le_split 8 (Z.of_nat (length aad)) ++ le_split 8 (Z.of_nat (length ciphertext))).
Definition rfc8439_seal (key nonce aad plaintext : list Z) : list Z * list Z :=
  let ciphertext := rfc8439_chacha20 key 1 nonce plaintext in (ciphertext, rfc_tag key nonce aad ciphertext).

(** Section 2.8.2. *)
Definition aead_sample_key : list Z := List.map (fun i => 0x80 + Z.of_nat i) (seq 0 32).
Definition aead_sample_nonce : list Z := [7; 0; 0; 0; 0x40; 0x41; 0x42; 0x43; 0x44; 0x45; 0x46; 0x47].
Definition aead_sample_aad : list Z := [0x50; 0x51; 0x52; 0x53; 0xc0; 0xc1; 0xc2; 0xc3; 0xc4; 0xc5; 0xc6; 0xc7].
Example aead_vector :
  match aead_run Little hsk_aead_encrypt hsk_aead_init aead_sample_key aead_sample_nonce (Some aead_sample_aad) sunscreen with
  | Ret (_, out, tag) => (be_combine (take 16 out), be_combine tag)
  | _ => (0, 0)
  end = (0xd31a8d34648e60db7b86afbc53ef7ec2, 0x1ae10b594f09e26a7e902ecbd0600691).
Proof. vm_compute. reflexivity. Qed.

(** * Correctness *)

(** A context whose arrays have their sizes. *)
Definition aead_ok (aead : hsk_aead_t) : Prop :=
  length (cc_schedule (ae_chacha aead)) = 16%nat /\ bytes_n 16 (po_buffer (ae_poly aead)).
Lemma length_chacha20 key c nonce data : length (rfc8439_chacha20 key c nonce data) = length data.
Proof. apply length_imap. Qed.
Lemma chacha20_xor key c nonce data : stream_xor key nonce c 0 data = rfc8439_chacha20 key c nonce data.
Proof. reflexivity. Qed.

Lemma rfc_tag_ok key iv ad ct : bytes_n 16 (rfc_tag key iv ad ct).
Proof. split; [apply length_le_split|apply bytes_le_split]. Qed.
#[local] Opaque hsk_chacha20_encrypt hsk_poly1305_update rfc8439_chacha20 rfc8439_poly1305 rfc8439_block.

Lemma le_split8_u64 x : le_split 8 (u64 x) = le_split 8 x.
Proof.
  rewrite <-(le_split_combine (le_split 8 x) (bytes_le_split 8 x)), length_le_split, le_combine_split. reflexivity.
Qed.
Lemma u64_mod16 x : u64 x mod 16 = x mod 16.
Proof. unfold u64. change (2 ^ 64) with (2 ^ 60 * 16). rewrite Z.mul_comm, Z.rem_mul_r by done. lia. Qed.
Lemma u64_add_u64 x y : u64 (u64 x + y) = u64 (x + y).
Proof. unfold u64. by rewrite Zplus_mod_idemp_l. Qed.

Section Context.
Context (key iv : list Z) (Hk : key_ok key iv).

(** The key of the authenticator. *)
Definition poly_key_of : list Z := rfc8439_chacha20 key 0 iv (replicate 32 0).
Lemma poly_key_ok : bytes_n 32 poly_key_of.
Proof. split; [unfold poly_key_of; by rewrite length_chacha20, length_replicate|]. unfold poly_key_of. rewrite <-chacha20_xor. apply (bytes_stream_xor key iv 0 Hk 0). by apply bytes_replicate. Qed.
(** The context after [auth] was authenticated and [pos] bytes were encrypted or decrypted. *)
Definition aead_at (auth : list Z) (pos : nat) (la lc : Z) (cipher : bool) (aead : hsk_aead_t) : Prop :=
  poly_at (multiplier poly_key_of) (pad_words poly_key_of) auth (ae_poly aead) /\ stream_at key iv 1 pos (ae_chacha aead) /\
  ae_aad_len aead = u64 la /\ ae_cipher_len aead = u64 lc /\ ae_has_cipher aead = cipher.

Lemma setup_at aead : aead_ok aead -> exists aead', hsk_aead_setup aead key iv = Ret aead' /\ aead_at [] 0 0 0 false aead'.
Proof.
  intros [Hs Hp]. unfold hsk_aead_setup. assert (Hset := setup_spec (ae_chacha aead) key iv 0 Hk Hs). unfold hsk_chacha20_setup in Hset. rewrite Hset.
  assert (H0 := stream_at_new key iv 0 (cc_keystream (ae_chacha aead))).
  destruct (encrypt_spec key iv 0 Hk 0 _ (replicate 32 0) H0) as (c1 & -> & H1).
  rewrite length_replicate in H1. destruct (encrypt_spec key iv 0 Hk _ c1 (replicate 32 0) H1) as (c2 & -> & H2). rewrite length_replicate in H2.
  assert (Hn : stream_at key iv 1 0 c2).
  { destruct H2 as (q & m & Eq & Hm & Hns & H2). assert (q = 1%nat /\ m = 0%nat) as [-> ->] by lia. exists 0%nat, 0%nat. done. }
  assert (Ec : hsk_chacha20_counter_get c2 = 1).
  { destruct Hn as (q & m & Eq & Hm & Hns & Hn). assert (q = 0%nat /\ m = 0%nat) as [-> ->] by lia. cbn [Nat.eqb] in Hn. destruct Hn as [Es _].
    unfold hsk_chacha20_counter_get. rewrite Hns, Es. reflexivity. }
  rewrite Ec. cbn [oassert Z.eqb obind]. eexists. split; [reflexivity|]. split; [|done].
  cbn [ae_poly]. apply init_at; [done|apply poly_key_ok].
Qed.
Lemma feed_at auth pos la lc cipher aead x : bytes x -> aead_at auth pos la lc cipher aead -> aead_at (auth ++ x) pos la lc cipher (feed aead x).
Proof.
  intros Hx (Hp & Hc & Ea & El & Eh). split; [|done]. cbn [feed ae_poly]. apply update_at; [|done..].
  apply multiplier_spec; [apply poly_key_ok|]. rewrite (proj1 poly_key_ok). lia.
Qed.
Lemma pad16_at auth pos la lc cipher aead x size : size mod 16 = Z.of_nat (length x) mod 16 ->
  aead_at auth pos la lc cipher aead -> aead_at (auth ++ rfc_pad16 x) pos la lc cipher (hsk_aead_pad16 aead size).
Proof.
  intros E Hat. unfold hsk_aead_pad16, rfc_pad16. assert (Em : Z.of_nat (length x mod 16) = size mod 16) by lia.
  assert (Hm := Nat.mod_upper_bound (length x) 16 ltac:(lia)). destruct (Z.eqb_spec (size mod 16) 0) as [E0|E0].
  - replace (length x mod 16)%nat with 0%nat by lia. by rewrite app_nil_r.
  - rewrite (Nat.mod_small (16 - _)) by lia. replace (Z.to_nat (16 - size mod 16)) with (16 - length x mod 16)%nat by lia.
    apply feed_at; [by apply bytes_replicate|done].
Qed.
Lemma pad_aad_at auth pos ad lc aead : aead_at auth pos (Z.of_nat (length ad)) lc false aead ->
  aead_at (auth ++ rfc_pad16 ad) pos (Z.of_nat (length ad)) lc false (pad_aad aead).
Proof.
  intros Hat. assert (Hat' := Hat). destruct Hat' as (_ & _ & Ea & _ & Eh). unfold pad_aad. rewrite Eh, Ea. apply pad16_at; [apply u64_mod16|done].
Qed.
Lemma count_at auth pos la lc cipher aead n : aead_at auth pos la lc cipher aead -> aead_at auth pos la (lc + Z.of_nat n) true (count_cipher aead n).
Proof. intros (Hp & Hc & Ea & El & Eh). split_and!; try done. cbn [count_cipher ae_cipher_len]. by rewrite El, u64_add_u64. Qed.
Lemma set_chacha_at auth pos pos' la lc cipher aead c : stream_at key iv 1 pos' c -> aead_at auth pos la lc cipher aead ->
  aead_at auth pos' la lc cipher (set_chacha aead c).
Proof. intros Hc (Hp & _ & Ea & El & Eh). split_and!; done. Qed.

(** What was authenticated, before the lengths. *)
Definition auth_text (ad ct : list Z) : list Z := ad ++ rfc_pad16 ad ++ ct.
Lemma aead_encrypt_at ad aead inp : bytes inp -> aead_at ad 0 (Z.of_nat (length ad)) 0 false aead ->
  let ct := rfc8439_chacha20 key 1 iv inp in exists aead', hsk_aead_encrypt aead inp = (aead', ct) /\
  aead_at (auth_text ad ct) (length inp) (Z.of_nat (length ad)) (Z.of_nat (length ct)) true aead'.
Proof.
  intros Hi Hat ct. apply pad_aad_at in Hat. unfold hsk_aead_encrypt. assert (Hc := proj1 (proj2 Hat)).
  destruct (encrypt_spec key iv 1 Hk 0 _ inp Hc) as (c & -> & Hc'). rewrite chacha20_xor. fold ct.
  assert (Hct : bytes ct) by (unfold ct; rewrite <-chacha20_xor; by apply (bytes_stream_xor key iv 1 Hk 0)). assert (El : length ct = length inp) by apply length_chacha20.
  eexists. split; [reflexivity|]. rewrite El. unfold auth_text. rewrite (assoc_L (++)). apply (count_at _ _ _ 0 false), feed_at; [done|]. by eapply set_chacha_at.
Qed.
Lemma aead_decrypt_at ad aead inp : bytes inp -> aead_at ad 0 (Z.of_nat (length ad)) 0 false aead -> exists aead',
  hsk_aead_decrypt aead inp = (aead', rfc8439_chacha20 key 1 iv inp) /\
  aead_at (auth_text ad inp) (length inp) (Z.of_nat (length ad)) (Z.of_nat (length inp)) true aead'.
Proof.
  intros Hi Hat. apply pad_aad_at in Hat. unfold hsk_aead_decrypt. apply (count_at _ _ _ _ _ _ (length inp)), (feed_at _ _ _ _ _ _ inp Hi) in Hat.
  assert (Hc := proj1 (proj2 Hat)). destruct (encrypt_spec key iv 1 Hk 0 _ inp Hc) as (c & -> & Hc').
  rewrite chacha20_xor. eexists. split; [reflexivity|]. unfold auth_text. rewrite (assoc_L (++)). by eapply set_chacha_at.
Qed.
Lemma aead_auth_at ad aead inp : bytes inp -> aead_at ad 0 (Z.of_nat (length ad)) 0 false aead ->
  aead_at (auth_text ad inp) 0 (Z.of_nat (length ad)) (Z.of_nat (length inp)) true (hsk_aead_auth aead inp).
Proof.
  intros Hi Hat. apply pad_aad_at in Hat. unfold hsk_aead_auth, auth_text. rewrite (assoc_L (++)). apply feed_at; [done|]. exact (count_at _ _ _ 0 _ _ (length inp) Hat).
Qed.
Lemma aead_final_at h ad ct pos aead : aead_at (auth_text ad ct) pos (Z.of_nat (length ad)) (Z.of_nat (length ct)) true aead ->
  exists aead', hsk_aead_final h aead = (aead', rfc_tag key iv ad ct) /\ aead_ok aead'.
Proof.
  intros Hat. unfold hsk_aead_final. destruct (id Hat) as (_ & _ & Ea & El & Eh). unfold pad_aad. rewrite Eh. cbn [negb]. rewrite !set_u64_host, Ea, El, !le_split8_u64.
  apply (pad16_at _ _ _ _ _ _ ct _ (u64_mod16 _)) in Hat.
  apply (feed_at _ _ _ _ _ _ (le_split 8 (Z.of_nat (length ad)) ++ le_split 8 (Z.of_nat (length ct)))) in Hat; [|apply bytes_app; split; apply bytes_le_split].
  destruct Hat as (Hp & Hc & _). assert (Ht := finish_tag _ _ _ poly_key_ok Hp). assert (Hb := finish_buffer _ _ _ _ Hp).
  destruct (hsk_poly1305_finish _) as [poly tag]. cbn [fst snd] in *. eexists. split.
  - rewrite Ht. unfold rfc_tag, auth_text. rewrite <-!app_assoc. reflexivity.
  - split; [|done]. destruct Hc as (q & m & _ & _ & _ & Hc). cbn [ae_chacha].
    destruct (Nat.eqb m 0); rewrite (proj1 Hc); by apply length_words_of, rfc_matrix_ok.
Qed.
Lemma aad_at ad aead : from_option bytes True ad -> aead_at [] 0 0 0 false aead -> exists aead',
  match ad with Some ad => hsk_aead_aad aead ad | None => Ret aead end = Ret aead' /\
  aead_at (default [] ad) 0 (Z.of_nat (length (default [] ad))) 0 false aead'.
Proof.
  intros Had Hat. destruct ad as [ad|]; [|by exists aead]. cbn [from_option default id] in *. unfold hsk_aead_aad. destruct (id Hat) as (_ & _ & Ea & _ & Eh).
  rewrite Eh. cbn [negb oassert obind]. eexists. split; [reflexivity|]. destruct (feed_at _ _ _ _ _ _ ad Had Hat) as (Hp & Hc & Ea' & El' & Eh').
  split_and!; try done. cbn [ae_aad_len feed]. by rewrite Ea, u64_add_u64.
Qed.
End Context.

Section Run.
Context (h : endian) (key iv : list Z) (Hk : key_ok key iv) (ad : option (list Z)) (Had : from_option bytes True ad).

Lemma run_encrypt aead data : aead_ok aead -> bytes data -> exists aead', aead_ok aead' /\
  aead_run h hsk_aead_encrypt aead key iv ad data =
    Ret (aead', rfc8439_chacha20 key 1 iv data, rfc_tag key iv (default [] ad) (rfc8439_chacha20 key 1 iv data)).
Proof.
  intros Hok Hd. unfold aead_run. destruct (setup_at key iv Hk aead Hok) as (a1 & -> & H1). cbn [obind].
  destruct (aad_at key iv Hk ad a1 Had H1) as (a2 & -> & H2). cbn [obind].
  destruct (aead_encrypt_at key iv Hk _ a2 data Hd H2) as (a3 & -> & H3).
  destruct (aead_final_at key iv Hk h _ _ _ a3 H3) as (a4 & -> & H4). by exists a4.
Qed.
Lemma run_decrypt aead data : aead_ok aead -> bytes data -> exists aead', aead_ok aead' /\
  aead_run h hsk_aead_decrypt aead key iv ad data =
    Ret (aead', rfc8439_chacha20 key 1 iv data, rfc_tag key iv (default [] ad) data).
Proof.
  intros Hok Hd. unfold aead_run. destruct (setup_at key iv Hk aead Hok) as (a1 & -> & H1). cbn [obind].
  destruct (aad_at key iv Hk ad a1 Had H1) as (a2 & -> & H2). cbn [obind].
  destruct (aead_decrypt_at key iv Hk _ a2 data Hd H2) as (a3 & -> & H3).
  destruct (aead_final_at key iv Hk h _ _ _ a3 H3) as (a4 & -> & H4). by exists a4.
Qed.
Lemma run_auth aead data : aead_ok aead -> bytes data -> exists aead', aead_ok aead' /\
  aead_run h (fun aead inp => (hsk_aead_auth aead inp, inp)) aead key iv ad data = Ret (aead', data, rfc_tag key iv (default [] ad) data).
Proof.
  intros Hok Hd. unfold aead_run. destruct (setup_at key iv Hk aead Hok) as (a1 & -> & H1). cbn [obind].
  destruct (aad_at key iv Hk ad a1 Had H1) as (a2 & -> & H2). cbn [obind]. assert (H3 := aead_auth_at key iv Hk _ a2 data Hd H2).
  destruct (aead_final_at key iv Hk h _ _ _ _ H3) as (a4 & -> & H4). by exists a4.
Qed.
End Run.
Lemma chacha20_twice key c nonce data : rfc8439_chacha20 key c nonce (rfc8439_chacha20 key c nonce data) = data.
Proof. rewrite <-!chacha20_xor. apply stream_xor_twice. Qed.
Lemma bytes_chacha20 key c nonce data : key_ok key nonce -> bytes data -> bytes (rfc8439_chacha20 key c nonce data).
Proof. rewrite <-chacha20_xor. intros Hk Hd. by apply bytes_stream_xor. Qed.
Lemma aead_verify m1 m2 : bytes_n 16 m1 -> bytes_n 16 m2 -> hsk_aead_verify m1 m2 = bool_decide (m1 = m2).
Proof. intros H1 H2. unfold hsk_aead_verify. rewrite mac_verify by done. by destruct (bool_decide _). Qed.
Lemma aead_init_ok : aead_ok hsk_aead_init.
Proof. split; [done|]. split; [done|by apply bytes_replicate]. Qed.

(** C38: The authenticated encryption is the one of RFC 8439, on hosts of either byte order. For a key of
    32 bytes, a nonce of 12 and additional data or none, encryption with any context that was initialized
    or used before gives the ciphertext and the tag of the RFC and never stops at the assertion on the
    counter; decryption of the ciphertext gives the plaintext and the same tag; decryption of any other text
    gives the tag of that text; and the comparison accepts a tag exactly when it is equal. *)
Theorem aead_correct h aead key iv ad data : aead_ok aead -> bytes_n 32 key -> bytes_n 12 iv -> from_option bytes True ad -> bytes data ->
  let '(ct, tag) := rfc8439_seal key iv (default [] ad) data in
  (exists aead', aead_ok aead' /\ aead_run h hsk_aead_encrypt aead key iv ad data = Ret (aead', ct, tag)) /\
  (exists aead', aead_ok aead' /\ aead_run h hsk_aead_decrypt aead key iv ad ct = Ret (aead', data, tag)) /\
  (forall text, bytes text -> exists aead' out, aead_run h hsk_aead_decrypt aead key iv ad text = Ret (aead', out, rfc_tag key iv (default [] ad) text) /\
    length out = length text) /\
  (forall mac, bytes_n 16 mac -> hsk_aead_verify tag mac = bool_decide (tag = mac)).
Proof.
  intros Hok Hk Hi Had Hd. unfold rfc8439_seal. assert (Hki : key_ok key iv) by (by split). split_and!.
  - destruct (run_encrypt h key iv Hki ad Had aead data Hok Hd) as (a & ? & ?). by exists a.
  - destruct (run_decrypt h key iv Hki ad Had aead (rfc8439_chacha20 key 1 iv data) Hok) as (a & Ha & E); [by apply bytes_chacha20|].
    rewrite chacha20_twice in E. by exists a.
  - intros text Ht. destruct (run_decrypt h key iv Hki ad Had aead text Hok Ht) as (a & _ & E). exists a. eexists. split; [exact E|apply length_chacha20].
  - intros mac Hm. apply aead_verify; [apply rfc_tag_ok|done].
Qed.
(** The message of the RFC, decrypted. *)
Lemma aead_correct_witness : exists aead', aead_ok aead' /\
  aead_run Big hsk_aead_decrypt hsk_aead_init aead_sample_key aead_sample_nonce (Some aead_sample_aad)
    (fst (rfc8439_seal aead_sample_key aead_sample_nonce aead_sample_aad sunscreen)) =
  Ret (aead', sunscreen, snd (rfc8439_seal aead_sample_key aead_sample_nonce aead_sample_aad sunscreen)).
Proof.
  assert (Hk : bytes_n 32 aead_sample_key) by (apply (bool_decide_unpack _); vm_compute; exact I).
  assert (Hi : bytes_n 12 aead_sample_nonce) by (apply (bool_decide_unpack _); vm_compute; exact I).
  assert (Ha : bytes aead_sample_aad) by (apply (bool_decide_unpack _); vm_compute; exact I).
  assert (Hs : bytes sunscreen) by (apply (bool_decide_unpack _); vm_compute; exact I).
  destruct (aead_correct Big hsk_aead_init aead_sample_key aead_sample_nonce (Some aead_sample_aad) sunscreen aead_init_ok Hk Hi Ha Hs) as (_ & H & _).
  exact H.
Defined.
