(* ===== verification/Ec.v ===== *)
(** The elliptic-curve wrappers of [ec.c] that the encrypted transport uses.

    The curve is the vendored secp256k1 library: a class of operations, with what its header
    files promise as a second class. A call that fails leaves its result buffer alone, so a
    wrapper that writes a buffer takes what it held. *)

From S2P Require Import Prelude Bio.

(** Calls of the library, on public keys of type [P]. *)
Class Secp256k1 (P : Type) := {
  ec_seckey_verify : list Z -> bool;
  ec_pubkey_parse : list Z -> option P;
  ec_pubkey_create : list Z -> option P;
  ec_pubkey_serialize : P -> list Z;
  secp256k1_ecdh : P -> list Z -> option (list Z);
  ec_pubkey_to_hash : P -> list Z -> option (list Z);
  ec_pubkey_from_hash : list Z -> option P;
}.

(** The promises of [secp256k1.h], [secp256k1_ecdh.h] and [elligator.h]: a compressed key has 33 bytes
    and is parsed back; a verified secret key has a public key and a shared secret with every
    public key; both ends of a key exchange get the same secret; a hashed key is found again. *)
Class Secp256k1Laws (P : Type) `{Secp256k1 P} := {
  serialize_bytes p : bytes_n 33 (ec_pubkey_serialize p);
  parse_serialize p : ec_pubkey_parse (ec_pubkey_serialize p) = Some p;
  create_verified k : ec_seckey_verify k = true -> is_Some (ec_pubkey_create k);
  ecdh_verified p k : ec_seckey_verify k = true -> exists s, secp256k1_ecdh p k = Some s /\ bytes_n 32 s;
  ecdh_commutes k k' p p' : ec_pubkey_create k = Some p -> ec_pubkey_create k' = Some p' ->
    secp256k1_ecdh p k' = secp256k1_ecdh p' k;
  to_hash_found p entropy : exists u, ec_pubkey_to_hash p entropy = Some u /\ bytes_n 64 u /\ ec_pubkey_from_hash u = Some p;
}.

Section Ec.
Context {P : Type} `{Secp256k1 P}.
(** The [n]-th 32 random bytes, or a failure of [hsk_randombytes]. *)
Context (random : nat -> option (list Z)).

Definition hsk_ec_verify_privkey (key : list Z) : bool := ec_seckey_verify key.
Definition hsk_ec_verify_pubkey (key : list Z) : bool :=
  match ec_pubkey_parse (take 33 key) with Some _ => true | None => false end.
(** [while (!hsk_ec_verify_privkey(ec, key))], which ends after at most 1001 tries: the result, the key and
    the number of the next random bytes. *)
Fixpoint privkey_loop (fuel : nat) (i : Z) (key : list Z) (n : nat) : outcome (bool * list Z * nat) :=
  match fuel with
  | O => Fault Hang
  | S fuel' =>
      if hsk_ec_verify_privkey key then Ret (true, key, n)
      else if 1000 <? i then Ret (false, key, n)
      else
        match random n with
        | None => Ret (false, key, S n)
        | Some key => privkey_loop fuel' (i + 1) key (S n)
        end
  end.
Definition hsk_ec_create_privkey (n : nat) : outcome (bool * list Z * nat) := privkey_loop 1002 0 (replicate 32 0) n.
Definition hsk_ec_create_pubkey (key pubkey : list Z) : bool * list Z :=
  match ec_pubkey_create key with
  | None => (false, pubkey)
  | Some pub => (true, ec_pubkey_serialize pub)
  end.
Definition hsk_ec_ecdh (pubkey key result : list Z) : bool * list Z :=
  match ec_pubkey_parse (take 33 pubkey) with
  | None => (false, result)
  | Some pub => match secp256k1_ecdh pub key with None => (false, result) | Some s => (true, s) end
  end.
Definition hsk_ec_pubkey_to_hash (n : nat) (pubkey result : list Z) : bool * list Z * nat :=
  match ec_pubkey_parse (take 33 pubkey) with
  | None => (false, result, n)
  | Some pub =>
      match random n with
      | None => (false, result, S n)
      | Some entropy => match ec_pubkey_to_hash pub entropy with None => (false, result, S n) | Some u => (true, u, S n) end
      end
  end.
Definition hsk_ec_pubkey_from_hash (hash result : list Z) : bool * list Z :=
  match ec_pubkey_from_hash (take 64 hash) with
  | None => (false, result)
  | Some pub => (true, ec_pubkey_serialize pub)
  end.
End Ec.

Section Laws.
Context {P : Type} `{Secp256k1Laws P} (random : nat -> option (list Z)).

(** The loop ends, and a key it returns is verified. *)
Lemma privkey_loop_ends fuel : forall i key n, 0 <= i <= 1001 -> 1001 - i < Z.of_nat fuel -> exists ok key' n',
  privkey_loop random fuel i key n = Ret (ok, key', n') /\ (ok = true -> ec_seckey_verify key' = true).
Proof.
  induction fuel as [|fuel IH]; intros i key n Hi Hf; cbn [privkey_loop]; unfold hsk_ec_verify_privkey.
  - lia.
  - destruct (ec_seckey_verify key) eqn:Ev; [by exists true, key, n|].
    destruct (Z.ltb_spec 1000 i); [by exists false, key, n|]. destruct (random n) as [key'|]; [|by exists false, key, (S n)].
    apply IH; lia.
Qed.
Lemma create_privkey_ends n : exists ok key n', hsk_ec_create_privkey random n = Ret (ok, key, n') /\ (ok = true -> ec_seckey_verify key = true).
Proof. apply privkey_loop_ends; lia. Qed.
Lemma create_pubkey_ok key old : ec_seckey_verify key = true -> exists p, ec_pubkey_create key = Some p /\
  hsk_ec_create_pubkey key old = (true, ec_pubkey_serialize p).
Proof. intros Hv. destruct (create_verified key Hv) as [p Hp]. exists p. unfold hsk_ec_create_pubkey. by rewrite Hp. Qed.
Lemma parse_take p rest : ec_pubkey_parse (take 33 (ec_pubkey_serialize p ++ rest)) = Some p.
Proof. destruct (serialize_bytes p) as [Hl _]. rewrite take_app_length' by done. apply parse_serialize. Qed.
Lemma parse_serialized p : ec_pubkey_parse (take 33 (ec_pubkey_serialize p)) = Some p.
Proof. rewrite <-(app_nil_r (ec_pubkey_serialize p)). apply parse_take. Qed.
Lemma ecdh_parsed pubkey p key old : ec_pubkey_parse (take 33 pubkey) = Some p -> ec_seckey_verify key = true -> exists s,
  secp256k1_ecdh p key = Some s /\ bytes_n 32 s /\ hsk_ec_ecdh pubkey key old = (true, s).
Proof. intros Hp Hv. unfold hsk_ec_ecdh. rewrite Hp. destruct (ecdh_verified p key Hv) as (s & -> & Hs). by exists s. Qed.
Lemma to_hash_ok n p entropy old : random n = Some entropy -> exists u,
  hsk_ec_pubkey_to_hash random n (ec_pubkey_serialize p) old = (true, u, S n) /\ bytes_n 64 u /\ ec_pubkey_from_hash u = Some p.
Proof.
  intros Hr. unfold hsk_ec_pubkey_to_hash. rewrite parse_serialized, Hr. destruct (to_hash_found p entropy) as (u & -> & Hu & Hf). by exists u.
Qed.
End Laws.

(** A curve with two points, on which the laws hold: the public key of a secret key is the parity of its
    first byte, and the shared secret tells if both are odd. *)
Definition toy_point (b : bool) : list Z := (if b then 3 else 2) :: replicate 32 1.
Definition toy_secret (k : list Z) : bool := Z.odd k.[0].
#[export] Instance toy_curve : Secp256k1 bool := {
  ec_seckey_verify k := bool_decide (bytes_n 32 k /\ k <> replicate 32 0);
  ec_pubkey_parse l := if bool_decide (l = toy_point true) then Some true else if bool_decide (l = toy_point false) then Some false else None;
  ec_pubkey_create k := Some (toy_secret k);
  ec_pubkey_serialize := toy_point;
  secp256k1_ecdh p k := Some (replicate 32 (Z.b2z (p && toy_secret k)));
  ec_pubkey_to_hash p _ := Some (replicate 64 (Z.b2z p));
  ec_pubkey_from_hash u := Some (Z.odd u.[0]);
}.
#[export] Instance toy_curve_laws : Secp256k1Laws bool.
Proof.
  split.
  - intros []; (split; [reflexivity|]); apply (bool_decide_unpack _); vm_compute; exact I.
  - intros []; vm_compute; reflexivity.
  - intros k _. by eexists.
  - intros p k _. eexists. split; [reflexivity|]. split; [reflexivity|]. apply bytes_replicate. destruct (p && toy_secret k); cbn; lia.
  - intros k k' p p' [= <-] [= <-]. cbn [secp256k1_ecdh toy_curve]. by rewrite andb_comm.
  - intros p e. eexists. split; [reflexivity|]. split.
    + split; [reflexivity|]. apply bytes_replicate. destruct p; cbn; lia.
    + destruct p; reflexivity.
Qed.
