(* ===== verification/Brontide.v ===== *)
(** The encrypted transport: [brontide.c] and [brontide.h].

    The struct is cut as its comments cut it. The callbacks of the owner are programs that may
    call the transport again, as [pool.c] does. An endpoint is the struct with its owner, what it wrote
    to the wire, and how many random numbers, allocations and writes it has used; what these
    give are functions from their numbers. The callbacks are set before use, as in
    [hsk_peer_init]. The events of an endpoint are kept for its theorems. *)

From Stdlib Require Import String.
From S2P Require Import Prelude Bio Blake2b Sha256 Hkdf Chacha20 Poly1305 Aead Ec.

Definition brontide_protocol_name : list Z := text_of "Noise_XK_secp256k1_ChaChaPoly_SHA256+SVDW_Squared".
Definition brontide_prologue : list Z := text_of "hns".
Definition BRONTIDE_ROTATION_INTERVAL : Z := 1000.
Definition BRONTIDE_HEADER_SIZE : nat := 20.
Definition BRONTIDE_ACT_ONE_SIZE : nat := 80.
Definition BRONTIDE_ACT_TWO_SIZE : nat := 80.
Definition BRONTIDE_ACT_THREE_SIZE : nat := 65.
Definition BRONTIDE_ACT_NONE : Z := 0.
Definition BRONTIDE_ACT_ONE : Z := 1.
Definition BRONTIDE_ACT_TWO : Z := 2.
Definition BRONTIDE_ACT_THREE : Z := 3.
Definition BRONTIDE_ACT_DONE : Z := 4.
Definition HSK_MAX_MESSAGE : Z := 8 * 1000 * 1000.
Definition BRONTIDE_MAX_MESSAGE : Z := HSK_MAX_MESSAGE + 9.
Definition HSK_EACTONE : Z := 27.
Definition HSK_EACTTWO : Z := 28.
Definition HSK_EACTTHREE : Z := 29.
Definition HSK_EBADSIZE : Z := 30.
Definition HSK_EBADTAG : Z := 31.

Record hsk_cs_t := mk_cs {
  cs_nonce : Z;
  cs_iv : list Z;
  cs_secret_key : list Z;
  cs_salt : list Z;
  cs_tag : list Z;
  cs_cipher : hsk_aead_t;
}.
(** [cs], [chaining_key], [temp_key] and [handshake_digest]. *)
Record symmetric := mk_symmetric {
  sy_cs : hsk_cs_t;
  sy_chaining_key : list Z;
  sy_temp_key : list Z;
  sy_handshake_digest : list Z;
}.
Record handshake := mk_handshake {
  hs_initiator : bool;
  hs_local_static : list Z;
  hs_local_ephemeral : list Z;
  hs_remote_static : list Z;
  hs_remote_ephemeral : list Z;
}.
(** [state], [has_size], [msg], [msg_pos] and [msg_len]. *)
Record net := mk_net {
  nt_state : Z;
  nt_has_size : bool;
  nt_msg : option (list Z);
  nt_msg_pos : nat;
  nt_msg_len : nat;
}.
Record hsk_brontide_t := mk_brontide {
  b_sym : symmetric;
  b_hs : handshake;
  b_send_cipher : hsk_cs_t;
  b_recv_cipher : hsk_cs_t;
  b_net : net;
}.

(** What a callback does: it calls [hsk_brontide_write] or [hsk_brontide_destroy], and ends with the new
    state of the owner. *)
Inductive prog (A : Type) :=
  | Stop (a : A)
  | Send (data : list Z) (k : Z -> prog A)
  | Destroy (k : prog A).
Arguments Stop {A}.
Arguments Send {A}.
Arguments Destroy {A}.
Class Owner (A : Type) := {
  owner_connect : A -> prog A;
  owner_read : A -> list Z -> prog A;
}.
(** A call of [hsk_brontide_write] with the state it found, and calls of [connect_cb] and [read_cb]. *)
Inductive event := Sent (state : Z) (data : list Z) | Connected | Received (payload : list Z).
Record endpoint (A : Type) := mk_endpoint {
  e_b : hsk_brontide_t;
  e_owner : A;
  e_out : list Z;
  e_log : list event;
  e_random : nat;
  e_allocs : nat;
  e_writes : nat;
}.
Arguments mk_endpoint {A}.
Arguments e_b {A}.
Arguments e_owner {A}.
Arguments e_out {A}.
Arguments e_log {A}.
Arguments e_random {A}.
Arguments e_allocs {A}.
Arguments e_writes {A}.

Section Brontide.
(** The host, what uninitialised memory holds and the addresses of buffers. *)
Context (h : endian) (garbage : list Z) (addr : nat -> Z).

(** * Cipher state *)

Definition hsk_cs_init : hsk_cs_t := mk_cs 0 (replicate 12 0) (replicate 32 0) (replicate 32 0) (replicate 16 0) hsk_aead_init.
Definition hsk_cs_update (cs : hsk_cs_t) : hsk_cs_t :=
  mk_cs (cs_nonce cs) (memcpy_at (cs_iv cs) 4 (set_u32_on h (cs_nonce cs))) (cs_secret_key cs) (cs_salt cs) (cs_tag cs) (cs_cipher cs).
Definition hsk_cs_init_key (cs : hsk_cs_t) (key : list Z) : hsk_cs_t :=
  hsk_cs_update (mk_cs 0 (cs_iv cs) (take 32 key) (cs_salt cs) (cs_tag cs) (cs_cipher cs)).
Definition hsk_cs_init_saltkey (cs : hsk_cs_t) (salt key : list Z) : hsk_cs_t :=
  hsk_cs_init_key (mk_cs (cs_nonce cs) (cs_iv cs) (cs_secret_key cs) (take 32 salt) (cs_tag cs) (cs_cipher cs)) key.
Definition hsk_cs_rotate_key (cs : hsk_cs_t) : outcome hsk_cs_t :=
  let* (h1, h2) := hsk_hash_hkdf h garbage addr (cs_secret_key cs) (cs_salt cs) [] in
  Ret (hsk_cs_init_key (mk_cs (cs_nonce cs) (cs_iv cs) (cs_secret_key cs) (take 32 h1) (cs_tag cs) (cs_cipher cs)) h2).
(** The common body of [hsk_cs_encrypt] and [hsk_cs_decrypt]. *)
Definition cs_crypt (step : hsk_aead_t -> list Z -> hsk_aead_t * list Z) (cs : hsk_cs_t) (ad : option (list Z)) (inp : list Z) :
    outcome (hsk_cs_t * list Z) :=
  let* (cipher, out, tag) := aead_run h step (cs_cipher cs) (cs_secret_key cs) (cs_iv cs) ad inp in
  let cs := hsk_cs_update (mk_cs (u32 (cs_nonce cs + 1)) (cs_iv cs) (cs_secret_key cs) (cs_salt cs) tag cipher) in
  if cs_nonce cs =? BRONTIDE_ROTATION_INTERVAL then let* cs := hsk_cs_rotate_key cs in Ret (cs, out) else Ret (cs, out).
Definition hsk_cs_encrypt : hsk_cs_t -> option (list Z) -> list Z -> outcome (hsk_cs_t * list Z) := cs_crypt hsk_aead_encrypt.
Definition hsk_cs_decrypt : hsk_cs_t -> option (list Z) -> list Z -> outcome (hsk_cs_t * list Z) := cs_crypt hsk_aead_decrypt.
Definition hsk_cs_verify (cs : hsk_cs_t) (tag : list Z) : bool := hsk_aead_verify (cs_tag cs) tag.

(** * Symmetric state *)

Definition hsk_brontide_init_sym (sy : symmetric) (proto_name : list Z) : symmetric :=
  let digest := hsk_hash_sha256 h garbage addr proto_name (sy_handshake_digest sy) in
  mk_symmetric (hsk_cs_init_key (sy_cs sy) (replicate 32 0)) (take 32 digest) (sy_temp_key sy) digest.
Definition hsk_brontide_mix_key (sy : symmetric) (secret : list Z) : outcome symmetric :=
  let* (chaining_key, temp_key) := hsk_hash_hkdf h garbage addr (take 32 secret) (sy_chaining_key sy) [] in
  Ret (mk_symmetric (hsk_cs_init_key (sy_cs sy) temp_key) chaining_key temp_key (sy_handshake_digest sy)).
(** The digest of what was mixed, the data and the tag, written over [hash]. *)
Definition hsk_brontide__mix_hash (sy : symmetric) (data : list Z) (tag : option (list Z)) (hash : list Z) : list Z :=
  let ctx := sha256_new garbage in
  let ctx := sha256_feed h addr 5 ctx (sy_handshake_digest sy) in
  let ctx := sha256_feed h addr 6 ctx data in
  let ctx := match tag with Some tag => sha256_feed h addr 7 ctx (take 16 tag) | None => ctx end in
  snd (sha256_end h addr ctx hash).
Definition hsk_brontide_mix_hash (sy : symmetric) (data : list Z) : symmetric :=
  mk_symmetric (sy_cs sy) (sy_chaining_key sy) (sy_temp_key sy) (hsk_brontide__mix_hash sy data None (sy_handshake_digest sy)).
Definition hsk_brontide_encrypt (sy : symmetric) (inp : list Z) : outcome (symmetric * list Z) :=
  let* (cs, out) := hsk_cs_encrypt (sy_cs sy) (Some (sy_handshake_digest sy)) inp in
  Ret (mk_symmetric cs (sy_chaining_key sy) (sy_temp_key sy)
    (hsk_brontide__mix_hash sy out (Some (cs_tag cs)) (sy_handshake_digest sy)), out).
Definition hsk_brontide_decrypt (sy : symmetric) (inp tag : list Z) : outcome (symmetric * list Z) :=
  let hash := hsk_brontide__mix_hash sy inp (Some tag) (take 32 garbage) in
  let* (cs, out) := hsk_cs_decrypt (sy_cs sy) (Some (sy_handshake_digest sy)) inp in
  Ret (mk_symmetric cs (sy_chaining_key sy) (sy_temp_key sy) (take 32 hash), out).

(** * The handshake *)

Section Curve.
Context {P : Type} `{Secp256k1 P} (random : nat -> option (list Z)).

Definition with_sym (b : hsk_brontide_t) (sy : symmetric) : hsk_brontide_t :=
  mk_brontide sy (b_hs b) (b_send_cipher b) (b_recv_cipher b) (b_net b).
Definition with_hs (b : hsk_brontide_t) (hs : handshake) : hsk_brontide_t :=
  mk_brontide (b_sym b) hs (b_send_cipher b) (b_recv_cipher b) (b_net b).
Definition with_net (b : hsk_brontide_t) (nt : net) : hsk_brontide_t :=
  mk_brontide (b_sym b) (b_hs b) (b_send_cipher b) (b_recv_cipher b) nt.
Definition set_local_ephemeral (hs : handshake) (key : list Z) : handshake :=
  mk_handshake (hs_initiator hs) (hs_local_static hs) key (hs_remote_static hs) (hs_remote_ephemeral hs).
Definition set_remote_static (hs : handshake) (key : list Z) : handshake :=
  mk_handshake (hs_initiator hs) (hs_local_static hs) (hs_local_ephemeral hs) key (hs_remote_ephemeral hs).
Definition set_remote_ephemeral (hs : handshake) (key : list Z) : handshake :=
  mk_handshake (hs_initiator hs) (hs_local_static hs) (hs_local_ephemeral hs) (hs_remote_static hs) key.

Definition hsk_brontide_init : hsk_brontide_t :=
  mk_brontide (mk_symmetric hsk_cs_init (replicate 32 0) (replicate 32 0) (replicate 32 0))
    (mk_handshake false (replicate 32 0) (replicate 32 0) (replicate 33 0) (replicate 33 0))
    hsk_cs_init hsk_cs_init (mk_net BRONTIDE_ACT_NONE false None 0 0).
Definition hsk_brontide_init_state (b : hsk_brontide_t) (initiator : bool) (prologue local_pub : list Z) (remote_pub : option (list Z)) :
    outcome hsk_brontide_t :=
  let hs := mk_handshake initiator (take 32 local_pub) (hs_local_ephemeral (b_hs b))
    (match remote_pub with Some remote_pub => take 33 remote_pub | None => replicate 33 0 end) (hs_remote_ephemeral (b_hs b)) in
  let sy := hsk_brontide_init_sym (b_sym b) brontide_protocol_name in
  let sy := hsk_brontide_mix_hash sy prologue in
  let* sy :=
    if initiator then let* remote_pub := of_option AssertFail remote_pub in Ret (hsk_brontide_mix_hash sy (take 33 remote_pub))
    else
      let '(ok, pub) := hsk_ec_create_pubkey local_pub (take 33 garbage) in
      let* _ := oassert ok in
      Ret (hsk_brontide_mix_hash sy pub) in
  Ret (with_hs (with_sym b sy) hs).
Definition hsk_brontide_init_brontide (b : hsk_brontide_t) (initiator : bool) (local_pub : list Z) (remote_pub : option (list Z)) :
    outcome hsk_brontide_t :=
  hsk_brontide_init_state b initiator brontide_prologue local_pub remote_pub.
Definition hsk_brontide_destroy (b : hsk_brontide_t) : hsk_brontide_t :=
  let nt := b_net b in with_net b (mk_net BRONTIDE_ACT_NONE (nt_has_size nt) (nt_msg nt) (nt_msg_pos nt) (nt_msg_len nt)).
Definition hsk_brontide_uninit (b : hsk_brontide_t) : hsk_brontide_t :=
  let b := hsk_brontide_destroy b in
  let nt := b_net b in with_net b (mk_net (nt_state nt) (nt_has_size nt) None (nt_msg_pos nt) (nt_msg_len nt)).

(** The part that the first two acts share: a new key is hashed, its secret with [remote] is mixed in, and
    nothing is encrypted. *)
Definition gen_act (b : hsk_brontide_t) (n : nat) (remote : handshake -> list Z) : outcome (hsk_brontide_t * nat * list Z) :=
  let* (ok, key, n) := hsk_ec_create_privkey random n in
  let* _ := oassert ok in
  let hs := set_local_ephemeral (b_hs b) key in
  let '(ok, ephemeral) := hsk_ec_create_pubkey key (take 33 garbage) in
  let* _ := oassert ok in
  let '(_, uniform, n) := hsk_ec_pubkey_to_hash random n ephemeral (take 64 garbage) in
  let sy := hsk_brontide_mix_hash (b_sym b) ephemeral in
  let '(ok, s) := hsk_ec_ecdh (remote hs) key (take 32 garbage) in
  let* _ := oassert ok in
  let* sy := hsk_brontide_mix_key sy s in
  let* (sy, _) := hsk_brontide_encrypt sy [] in
  Ret (with_hs (with_sym b sy) hs, n, take 64 uniform ++ take 16 (cs_tag (sy_cs sy))).
Definition hsk_brontide_gen_act_one (b : hsk_brontide_t) (n : nat) : outcome (hsk_brontide_t * nat * list Z) := gen_act b n hs_remote_static.
Definition hsk_brontide_gen_act_two (b : hsk_brontide_t) (n : nat) : outcome (hsk_brontide_t * nat * list Z) := gen_act b n hs_remote_ephemeral.
(** The part that their readers share, for the key [e]. *)
Definition recv_act (b : hsk_brontide_t) (e p : list Z) (local : handshake -> list Z) : outcome (hsk_brontide_t * bool) :=
  let hs := set_remote_ephemeral (b_hs b) (take 33 e) in
  let sy := hsk_brontide_mix_hash (b_sym b) (hs_remote_ephemeral hs) in
  let '(ok, s) := hsk_ec_ecdh (hs_remote_ephemeral hs) (local hs) (take 32 garbage) in
  let* _ := oassert ok in
  let* sy := hsk_brontide_mix_key sy s in
  let* (sy, _) := hsk_brontide_decrypt sy [] p in
  Ret (with_hs (with_sym b sy) hs, hsk_cs_verify (sy_cs sy) p).
Definition hsk_brontide_recv_act_one (b : hsk_brontide_t) (act1 : list Z) : outcome (hsk_brontide_t * bool) :=
  let '(_, e) := hsk_ec_pubkey_from_hash act1 (take 33 garbage) in
  recv_act b e (take 16 (drop 64 act1)) hs_local_static.
Definition hsk_brontide_recv_act_two (b : hsk_brontide_t) (act2 : list Z) : outcome (hsk_brontide_t * bool) :=
  let '(_, e) := hsk_ec_pubkey_from_hash act2 (take 33 garbage) in
  if negb (hsk_ec_verify_pubkey e) then Ret (b, false) else recv_act b e (take 16 (drop 64 act2)) hs_local_ephemeral.

Definition hsk_brontide_split (b : hsk_brontide_t) : outcome hsk_brontide_t :=
  let chaining_key := sy_chaining_key (b_sym b) in
  let* (h1, h2) := hsk_hash_hkdf h garbage addr [] chaining_key [] in
  let '(send_key, recv_key) := if hs_initiator (b_hs b) then (h1, h2) else (h2, h1) in
  Ret (mk_brontide (b_sym b) (b_hs b) (hsk_cs_init_saltkey (b_send_cipher b) chaining_key send_key)
    (hsk_cs_init_saltkey (b_recv_cipher b) chaining_key recv_key) (b_net b)).
Definition hsk_brontide_gen_act_three (b : hsk_brontide_t) : outcome (hsk_brontide_t * list Z) :=
  let '(ok, our_pubkey) := hsk_ec_create_pubkey (hs_local_static (b_hs b)) (take 33 garbage) in
  let* _ := oassert ok in
  let* (sy, our_pubkey) := hsk_brontide_encrypt (b_sym b) our_pubkey in
  let tag1 := take 16 (cs_tag (sy_cs sy)) in
  let '(ok, s) := hsk_ec_ecdh (hs_remote_ephemeral (b_hs b)) (hs_local_static (b_hs b)) (take 32 garbage) in
  let* _ := oassert ok in
  let* sy := hsk_brontide_mix_key sy s in
  let* (sy, _) := hsk_brontide_encrypt sy [] in
  let tag2 := take 16 (cs_tag (sy_cs sy)) in
  let* b := hsk_brontide_split (with_sym b sy) in
  Ret (b, take 33 our_pubkey ++ tag1 ++ tag2).
Definition hsk_brontide_recv_act_three (b : hsk_brontide_t) (act3 : list Z) : outcome (hsk_brontide_t * bool) :=
  let s1 := take 33 act3 in
  let p1 := take 16 (drop 33 act3) in
  let p2 := take 16 (drop 49 act3) in
  let* (sy, remote_pub) := hsk_brontide_decrypt (b_sym b) s1 p1 in
  let b := with_sym b sy in
  if negb (hsk_cs_verify (sy_cs sy) p1) then Ret (b, false)
  else
    let b := with_hs b (set_remote_static (b_hs b) (take 33 remote_pub)) in
    let '(ok, se) := hsk_ec_ecdh (hs_remote_static (b_hs b)) (hs_local_ephemeral (b_hs b)) (take 32 garbage) in
    let* _ := oassert ok in
    let* sy := hsk_brontide_mix_key sy se in
    let* (sy, _) := hsk_brontide_decrypt sy [] p2 in
    let b := with_sym b sy in
    if negb (hsk_cs_verify (sy_cs sy) p2) then Ret (b, false)
    else let* b := hsk_brontide_split b in Ret (b, true).

(** * Endpoints *)

(** What a block of memory holds that was allocated as the [n]-th one, or no memory; and the result of the
    [n]-th [write_cb]. *)
Context {A : Type} `{Owner A} (alloc : nat -> option (nat -> Z)) (write_result : nat -> Z).
Implicit Types (e : endpoint A) (b : hsk_brontide_t).

Definition with_b e b : endpoint A := mk_endpoint b (e_owner e) (e_out e) (e_log e) (e_random e) (e_allocs e) (e_writes e).
Definition with_owner e (a : A) : endpoint A := mk_endpoint (e_b e) a (e_out e) (e_log e) (e_random e) (e_allocs e) (e_writes e).
Definition with_random e (n : nat) : endpoint A := mk_endpoint (e_b e) (e_owner e) (e_out e) (e_log e) n (e_allocs e) (e_writes e).
Definition note e (ev : event) : endpoint A :=
  mk_endpoint (e_b e) (e_owner e) (e_out e) (e_log e ++ [ev]) (e_random e) (e_allocs e) (e_writes e).
Definition with_state b (state : Z) : hsk_brontide_t :=
  let nt := b_net b in with_net b (mk_net state (nt_has_size nt) (nt_msg nt) (nt_msg_pos nt) (nt_msg_len nt)).
Definition with_has_size b (has_size : bool) : hsk_brontide_t :=
  let nt := b_net b in with_net b (mk_net (nt_state nt) has_size (nt_msg nt) (nt_msg_pos nt) (nt_msg_len nt)).
Definition with_msg b (msg : list Z) : hsk_brontide_t :=
  let nt := b_net b in with_net b (mk_net (nt_state nt) (nt_has_size nt) (Some msg) (nt_msg_pos nt) (nt_msg_len nt)).
Definition with_send_cipher b (cs : hsk_cs_t) : hsk_brontide_t := mk_brontide (b_sym b) (b_hs b) cs (b_recv_cipher b) (b_net b).
Definition with_recv_cipher b (cs : hsk_cs_t) : hsk_brontide_t := mk_brontide (b_sym b) (b_hs b) (b_send_cipher b) cs (b_net b).

(** [b->write_cb(b->write_arg, data, len, is_heap)]: the bytes go to the wire in order, if it succeeds. *)
Definition write_cb e (data : list Z) : endpoint A * Z :=
  let r := write_result (e_writes e) in
  (mk_endpoint (e_b e) (e_owner e) (if r =? HSK_SUCCESS then e_out e ++ data else e_out e) (e_log e) (e_random e) (e_allocs e)
    (S (e_writes e)), r).
(** [realloc(b->msg, size)], which keeps what the block holds; then position 0 and the new length. *)
Definition realloc_msg e (size : nat) : endpoint A * bool :=
  let e' := mk_endpoint (e_b e) (e_owner e) (e_out e) (e_log e) (e_random e) (S (e_allocs e)) (e_writes e) in
  match alloc (e_allocs e) with
  | None => (e', false)
  | Some fresh =>
      let old := default [] (nt_msg (b_net (e_b e))) in
      let msg := take size old ++ List.map fresh (seq (length old) (size - length old)) in
      let nt := b_net (e_b e) in
      (with_b e' (with_net (e_b e) (mk_net (nt_state nt) (nt_has_size nt) (Some msg) 0 size)), true)
  end.
Definition destroy e : endpoint A := with_b e (hsk_brontide_destroy (e_b e)).

(** A part of a frame that is encrypted and written, and then what follows: the goto of [hsk_brontide_write] leaves
    with the first result that is not 0. *)
Definition write_part e (data : list Z) (k : endpoint A -> outcome (endpoint A * Z)) : outcome (endpoint A * Z) :=
  let* (cs, out) := hsk_cs_encrypt (b_send_cipher (e_b e)) None data in
  let e := with_b e (with_send_cipher (e_b e) cs) in
  let '(e, r) := write_cb e out in
  if negb (r =? 0) then Ret (e, r)
  else
    let '(e, r) := write_cb e (take 16 (cs_tag (b_send_cipher (e_b e)))) in
    if negb (r =? 0) then Ret (e, r) else k e.
Definition hsk_brontide_write e (data : list Z) : outcome (endpoint A * Z) :=
  let* (e, r) :=
    if negb (nt_state (b_net (e_b e)) =? BRONTIDE_ACT_DONE) then Ret (e, HSK_SUCCESS)
    else
      write_part e (set_u32_on h (u32 (Z.of_nat (length data)))) (fun e =>
      write_part e data (fun e => Ret (e, HSK_SUCCESS))) in
  Ret (if negb (r =? HSK_SUCCESS) then destroy e else e, r).

(** What a callback does, on the endpoint. *)
Fixpoint run_prog (p : prog A) e : outcome (endpoint A) :=
  match p with
  | Stop a => Ret (with_owner e a)
  | Send data k =>
      let e := note e (Sent (nt_state (b_net (e_b e))) data) in
      let* (e, r) := hsk_brontide_write e data in
      run_prog (k r) e
  | Destroy k => run_prog k (destroy e)
  end.
Definition connect_cb e : outcome (endpoint A) := run_prog (owner_connect (e_owner e)) (note e Connected).
Definition read_cb e (payload : list Z) : outcome (endpoint A) := run_prog (owner_read (e_owner e) payload) (note e (Received payload)).

(** An error, or success with the next length. *)
Definition parse_result : Type := Z + nat.
Definition hsk_brontide_parse e (data : list Z) : outcome (endpoint A * parse_result) :=
  let b := e_b e in
  let state := nt_state (b_net b) in
  if hs_initiator (b_hs b) && (state =? BRONTIDE_ACT_TWO) then
    let* _ := oassert (length data =? BRONTIDE_ACT_TWO_SIZE)%nat in
    let* (b, ok) := hsk_brontide_recv_act_two b data in
    if negb ok then Ret (with_b e b, inl HSK_EACTTWO)
    else
      let* (b, act3) := hsk_brontide_gen_act_three b in
      let '(e, r) := write_cb (with_b e b) act3 in
      if negb (r =? 0) then Ret (e, inl r)
      else
        let* e := connect_cb (with_b e (with_state (e_b e) BRONTIDE_ACT_DONE)) in
        Ret (e, inr BRONTIDE_HEADER_SIZE)
  else if negb (hs_initiator (b_hs b)) && (state =? BRONTIDE_ACT_ONE) then
    let* _ := oassert (length data =? BRONTIDE_ACT_ONE_SIZE)%nat in
    let* (b, ok) := hsk_brontide_recv_act_one b data in
    if negb ok then Ret (with_b e b, inl HSK_EACTONE)
    else
      let* (b, n, act2) := hsk_brontide_gen_act_two b (e_random e) in
      let '(e, r) := write_cb (with_random (with_b e b) n) act2 in
      if negb (r =? 0) then Ret (e, inl r)
      else Ret (with_b e (with_state (e_b e) BRONTIDE_ACT_THREE), inr BRONTIDE_ACT_THREE_SIZE)
  else if negb (hs_initiator (b_hs b)) && (state =? BRONTIDE_ACT_THREE) then
    let* _ := oassert (length data =? BRONTIDE_ACT_THREE_SIZE)%nat in
    let* (b, ok) := hsk_brontide_recv_act_three b data in
    if negb ok then Ret (with_b e b, inl HSK_EACTTHREE)
    else
      let* e := connect_cb (with_b e (with_state b BRONTIDE_ACT_DONE)) in
      Ret (e, inr BRONTIDE_HEADER_SIZE)
  else
    let* _ := oassert (state =? BRONTIDE_ACT_DONE) in
    if negb (nt_has_size (b_net b)) then
      let* _ := oassert (nt_msg_len (b_net b) =? BRONTIDE_HEADER_SIZE)%nat in
      let* _ := oassert (length data =? BRONTIDE_HEADER_SIZE)%nat in
      let* (cs, len) := hsk_cs_decrypt (b_recv_cipher b) None (take 4 data) in
      let e := with_b e (with_msg (with_recv_cipher b cs) (memcpy_at data 0 len)) in
      if negb (hsk_cs_verify cs (take 16 (drop 4 data))) then Ret (e, inl HSK_EBADTAG)
      else
        let size := get_i32_on h len in
        if (size <? 0) || (BRONTIDE_MAX_MESSAGE <? size) then Ret (e, inl HSK_EBADSIZE)
        else Ret (with_b e (with_has_size (e_b e) true), inr (Z.to_nat size + 16)%nat)
    else
      let payload_len := (length data - 16)%nat in
      let* (cs, payload) := hsk_cs_decrypt (b_recv_cipher b) None (take payload_len data) in
      let e := with_b e (with_msg (with_recv_cipher b cs) (memcpy_at data 0 payload)) in
      if negb (hsk_cs_verify cs (take 16 (drop payload_len data))) then Ret (e, inl HSK_EBADTAG)
      else
        let* e := read_cb (with_b e (with_has_size (e_b e) false)) payload in
        Ret (e, inr BRONTIDE_HEADER_SIZE).

(** [memcpy(&b->msg[b->msg_pos], data, len)] *)
Definition fill_msg b (data : list Z) : outcome hsk_brontide_t :=
  let* msg := of_option NullDeref (nt_msg (b_net b)) in
  if (length msg <? nt_msg_pos (b_net b) + length data)%nat then Fault Overread
  else Ret (with_msg b (memcpy_at msg (nt_msg_pos (b_net b)) data)).
(** [while (b->msg_pos + data_len >= b->msg_len)]: each round takes a byte at least. *)
Fixpoint read_loop (fuel : nat) e (data : list Z) : outcome (endpoint A * Z) :=
  let nt := b_net (e_b e) in
  match fuel with
  | O => Fault Hang
  | S fuel' =>
      if (nt_msg_len nt <=? nt_msg_pos nt + length data)%nat then
        let* _ := oassert (nt_msg_pos nt <? nt_msg_len nt)%nat in
        let need := (nt_msg_len nt - nt_msg_pos nt)%nat in
        let* b := fill_msg (e_b e) (take need data) in
        let data := drop need data in
        let* (e, r) := hsk_brontide_parse (with_b e b) (take (nt_msg_len nt) (default [] (nt_msg (b_net b)))) in
        match r with
        | inl r => if negb (r =? HSK_SUCCESS) then Ret (destroy e, r) else Fault Overread
        | inr msg_len =>
            if nt_state (b_net (e_b e)) =? BRONTIDE_ACT_NONE then Ret (e, HSK_SUCCESS)
            else
              let* _ := oassert (negb (msg_len =? 0)%nat) in
              let '(e, ok) := realloc_msg e msg_len in
              if negb ok then Ret (destroy e, HSK_ENOMEM) else read_loop fuel' e data
        end
      else
        let* b := fill_msg (e_b e) data in
        let nt := b_net b in
        Ret (with_b e (with_net b (mk_net (nt_state nt) (nt_has_size nt) (nt_msg nt) (nt_msg_pos nt + length data) (nt_msg_len nt))),
          HSK_SUCCESS)
  end.
Definition hsk_brontide_on_read e (data : list Z) : outcome (endpoint A * Z) :=
  if nt_state (b_net (e_b e)) =? BRONTIDE_ACT_NONE then Ret (e, HSK_SUCCESS)
  else
    let* _ := oassert (match nt_msg (b_net (e_b e)) with Some _ => true | None => false end) in
    read_loop (S (length data)) e data.

Definition hsk_brontide_on_connect e : outcome (endpoint A * Z) :=
  let* (e, r, size) :=
    if hs_initiator (b_hs (e_b e)) then
      let b := with_state (e_b e) BRONTIDE_ACT_TWO in
      let* (b, n, act1) := hsk_brontide_gen_act_one b (e_random e) in
      let '(e, r) := write_cb (with_random (with_b e b) n) act1 in
      if negb (r =? HSK_SUCCESS) then Ret (destroy e, r, 0%nat) else Ret (e, r, BRONTIDE_ACT_TWO_SIZE)
    else Ret (with_b e (with_state (e_b e) BRONTIDE_ACT_ONE), HSK_SUCCESS, BRONTIDE_ACT_ONE_SIZE) in
  if negb (r =? HSK_SUCCESS) then Ret (e, r)
  else
    let '(e, ok) := realloc_msg e size in
    Ret (e, if ok then HSK_SUCCESS else HSK_ENOMEM).
Definition hsk_brontide_accept e (our_key : list Z) : outcome (endpoint A * Z) :=
  let* b := hsk_brontide_init_brontide (e_b e) false our_key None in
  hsk_brontide_on_connect (with_b e b).
Definition hsk_brontide_connect e (our_key their_key : list Z) : outcome (endpoint A * Z) :=
  let* b := hsk_brontide_init_brontide (e_b e) true our_key (Some their_key) in
  Ret (with_b e b, HSK_SUCCESS).
End Curve.
End Brontide.
