(* ===== verification/BrontideSpec.v ===== *)
(** The pure account of the encrypted transport: keys with their rotation, the symmetric state
    of the handshake as a record of values, and what each operation of [brontide.c] does to them. *)

From Stdlib Require Import String.
From S2P Require Import Prelude Bio Blake2b Sha256 Sha256Props Hkdf Chacha20 Chacha20Props Poly1305 Poly1305Props Aead Ec Brontide.

(** * Keys *)

#[global] Opaque rfc8439_chacha20 rfc_tag rfc2104 fips_sha256.

(** A key, its salt and the number of texts it has encrypted. *)
Record transport := mk_t { t_key : list Z; t_salt : list Z; t_nonce : Z }.
Definition nonce_iv (n : Z) : list Z := replicate 4 0 ++ le_split 4 n ++ replicate 4 0.
(** HKDF of RFC 5869 with two blocks and no info. *)
Definition hkdf2 (salt ikm : list Z) : list Z * list Z :=
  let prk := rfc2104 salt ikm in let t1 := rfc2104 prk [1] in (t1, rfc2104 prk (t1 ++ [2])).
(** After a text; after the thousandth, with new keys. *)
Definition t_next (t : transport) : transport :=
  if t_nonce t + 1 =? BRONTIDE_ROTATION_INTERVAL then let '(salt, key) := hkdf2 (t_salt t) (t_key t) in mk_t key salt 0
  else mk_t (t_key t) (t_salt t) (t_nonce t + 1).
(** The stream cipher, in both directions, and the tag of a ciphertext. *)
Definition t_crypt (t : transport) (text : list Z) : list Z := rfc8439_chacha20 (t_key t) 1 (nonce_iv (t_nonce t)) text.
Definition t_tag (t : transport) (ad ct : list Z) : list Z := rfc_tag (t_key t) (nonce_iv (t_nonce t)) ad ct.
Definition t_ok (t : transport) : Prop := bytes_n 32 (t_key t) /\ bytes_n 32 (t_salt t) /\ 0 <= t_nonce t < BRONTIDE_ROTATION_INTERVAL.

Lemma hkdf2_ok salt ikm : bytes_n 32 (fst (hkdf2 salt ikm)) /\ bytes_n 32 (snd (hkdf2 salt ikm)).
Proof. split; apply rfc2104_ok. Qed.
Lemma t_next_ok t : t_ok t -> t_ok (t_next t).
Proof.
  intros (Hk & Hs & Hn). unfold t_next. destruct (hkdf2_ok (t_salt t) (t_key t)) as [H1 H2]. destruct (hkdf2 _ _) as [salt key].
  destruct (Z.eqb_spec (t_nonce t + 1) BRONTIDE_ROTATION_INTERVAL) as [E|E]; (split; [|split]); cbn [fst snd t_key t_salt t_nonce] in *; try done.
  unfold BRONTIDE_ROTATION_INTERVAL in *. lia.
Qed.
Lemma nonce_iv_ok n : bytes_n 12 (nonce_iv n).
Proof.
  unfold nonce_iv. split; [by rewrite !length_app, length_le_split, !length_replicate|].
  apply bytes_app; split; [by apply bytes_replicate|]. apply bytes_app; split; [apply bytes_le_split|by apply bytes_replicate].
Qed.
Lemma t_key_ok t : t_ok t -> key_ok (t_key t) (nonce_iv (t_nonce t)).
Proof. intros (Hk & _). split; [done|apply nonce_iv_ok]. Qed.
Lemma length_t_crypt t text : length (t_crypt t text) = length text.
Proof. apply length_chacha20. Qed.
Lemma bytes_t_crypt t text : t_ok t -> bytes text -> bytes (t_crypt t text).
Proof. intros Ht. apply bytes_chacha20. by apply t_key_ok. Qed.
Lemma t_crypt_twice t text : t_crypt t (t_crypt t text) = text.
Proof. apply chacha20_twice. Qed.
Lemma t_crypt_nil t : t_crypt t [] = [].
Proof. apply nil_length_inv. by rewrite length_t_crypt. Qed.
Lemma t_tag_ok t ad ct : bytes_n 16 (t_tag t ad ct).
Proof. apply rfc_tag_ok. Qed.

(** A cipher state that holds them. *)
Definition cs_at (t : transport) (cs : hsk_cs_t) : Prop :=
  cs_nonce cs = t_nonce t /\ cs_iv cs = nonce_iv (t_nonce t) /\ cs_secret_key cs = t_key t /\ cs_salt cs = t_salt t /\
  bytes_n 16 (cs_tag cs) /\ aead_ok (cs_cipher cs).

(** * The symmetric state of the handshake *)

Record sym := mk_sym { ss_t : transport; ss_ck : list Z; ss_h : list Z }.
Definition sym_ok (S : sym) : Prop := t_ok (ss_t S) /\ bytes_n 32 (ss_ck S) /\ bytes_n 32 (ss_h S).
Definition s_mix_hash (S : sym) (data : list Z) : sym := mk_sym (ss_t S) (ss_ck S) (fips_sha256 (ss_h S ++ data)).
Definition s_mix_key (S : sym) (secret : list Z) : sym :=
  let '(ck, key) := hkdf2 (ss_ck S) secret in mk_sym (mk_t key (t_salt (ss_t S)) 0) ck (ss_h S).
(** The tag of a ciphertext, and the state after a ciphertext and a tag. *)
Definition s_tag (S : sym) (ct : list Z) : list Z := t_tag (ss_t S) (ss_h S) ct.
Definition s_next (S : sym) (ct tag : list Z) : sym := mk_sym (t_next (ss_t S)) (ss_ck S) (fips_sha256 (ss_h S ++ ct ++ tag)).
Definition sym_at (S : sym) (sy : symmetric) : Prop :=
  sym_ok S /\ cs_at (ss_t S) (sy_cs sy) /\ sy_chaining_key sy = ss_ck S /\ sy_handshake_digest sy = ss_h S.

Section Host.
Context (h : endian) (garbage : list Z) (addr : nat -> Z) (Hg : bytes_n 64 garbage).

Lemma garbage_take n : (n <= 64)%nat -> bytes_n n (take n garbage).
Proof. destruct Hg as [Hl Hb]. intros Hn. split; [rewrite length_take; lia|by apply bytes_take]. Qed.
Lemma hkdf_at secret salt : bytes secret -> bytes salt -> hsk_hash_hkdf h garbage addr secret salt [] = Ret (hkdf2 salt secret).
Proof. intros Hs Hsalt. rewrite hkdf_spec; [reflexivity|done..|apply bytes_nil|cbn [length]; lia]. Qed.
Lemma update_at_iv n m : memcpy_at (nonce_iv n) 4 (set_u32_on h m) = nonce_iv m.
Proof.
  rewrite set_u32_host. unfold memcpy_at, nonce_iv. rewrite length_le_split. rewrite take_app_length' by done.
  f_equal.
Qed.
Lemma cs_init_at : cs_at (mk_t (replicate 32 0) (replicate 32 0) 0) hsk_cs_init.
Proof. split_and!; try done; [split; [done|by apply bytes_replicate]|apply aead_init_ok]. Qed.
Lemma init_key_at t cs key : cs_at t cs -> bytes_n 32 key -> cs_at (mk_t key (t_salt t) 0) (hsk_cs_init_key h cs key).
Proof.
  intros (Hn & Hi & Hk & Hs & Ht & Ha) [Hl Hb]. unfold hsk_cs_init_key, hsk_cs_update. cbn [cs_nonce cs_iv cs_secret_key cs_salt cs_tag cs_cipher].
  rewrite Hi, update_at_iv, take_ge by lia. split_and!; done || apply Ht || apply Ha.
Qed.
Lemma init_saltkey_at t cs salt key : cs_at t cs -> bytes_n 32 salt -> bytes_n 32 key -> cs_at (mk_t key salt 0) (hsk_cs_init_saltkey h cs salt key).
Proof.
  intros (Hn & Hi & Hk & Hs & Ht & Ha) [Hl Hb] Hkey. unfold hsk_cs_init_saltkey. rewrite (take_ge salt) by lia.
  apply (init_key_at (mk_t (t_key t) salt (t_nonce t))); [|done]. by split_and!.
Qed.
(** A call that encrypts or decrypts, from what the cipher gives. *)
Lemma crypt_at step t cs ad inp cipher out tag : t_ok t -> cs_at t cs ->
  aead_run h step (cs_cipher cs) (t_key t) (nonce_iv (t_nonce t)) ad inp = Ret (cipher, out, tag) -> aead_ok cipher -> bytes_n 16 tag ->
  exists cs', cs_crypt h garbage addr step cs ad inp = Ret (cs', out) /\ cs_at (t_next t) cs' /\ cs_tag cs' = tag.
Proof.
  intros (Hkey & Hsalt & Hr) (Hn & Hi & Hk & Hs & Ht & Ha) E Hc Htag. unfold cs_crypt. rewrite Hk, Hi, E. cbn [obind].
  unfold BRONTIDE_ROTATION_INTERVAL in Hr. rewrite Hn, u32_small by lia. cbn [hsk_cs_update cs_nonce]. unfold t_next.
  destruct (Z.eqb_spec (t_nonce t + 1) BRONTIDE_ROTATION_INTERVAL) as [Er|Er].
  - unfold hsk_cs_rotate_key. cbn [hsk_cs_update cs_secret_key cs_salt cs_iv cs_nonce cs_tag cs_cipher]. rewrite Hs, hkdf_at by (apply Hkey || apply Hsalt).
    destruct (hkdf2_ok (t_salt t) (t_key t)) as [H1 H2]. destruct (hkdf2 _ _) as [salt key]. cbn [obind fst snd] in *. eexists. split; [reflexivity|].
    rewrite update_at_iv, (take_ge salt) by (destruct H1; lia). split; [|done].
    apply (init_key_at (mk_t (t_key t) salt (t_nonce t + 1))); [|done]. split_and!; done || apply Htag || apply Hc.
  - eexists. split; [reflexivity|]. split; [|done]. unfold hsk_cs_update. cbn [cs_nonce cs_iv cs_secret_key cs_salt cs_tag cs_cipher].
    rewrite update_at_iv. split_and!; done || apply Htag || apply Hc.
Qed.
Lemma encrypt_at t cs ad inp : t_ok t -> cs_at t cs -> from_option bytes True ad -> bytes inp -> exists cs',
  hsk_cs_encrypt h garbage addr cs ad inp = Ret (cs', t_crypt t inp) /\ cs_at (t_next t) cs' /\ cs_tag cs' = t_tag t (default [] ad) (t_crypt t inp).
Proof.
  intros Ht Hcs Had Hi. destruct (run_encrypt h _ _ (t_key_ok t Ht) ad Had (cs_cipher cs) inp) as (a & Ha & E); [apply Hcs|done|].
  by apply (crypt_at _ t cs ad inp a _ _ Ht Hcs E Ha), rfc_tag_ok.
Qed.
Lemma decrypt_at t cs ad inp : t_ok t -> cs_at t cs -> from_option bytes True ad -> bytes inp -> exists cs',
  hsk_cs_decrypt h garbage addr cs ad inp = Ret (cs', t_crypt t inp) /\ cs_at (t_next t) cs' /\ cs_tag cs' = t_tag t (default [] ad) inp.
Proof.
  intros Ht Hcs Had Hi. destruct (run_decrypt h _ _ (t_key_ok t Ht) ad Had (cs_cipher cs) inp) as (a & Ha & E); [apply Hcs|done|].
  by apply (crypt_at _ t cs ad inp a _ _ Ht Hcs E Ha), rfc_tag_ok.
Qed.
Lemma verify_at cs tag : bytes_n 16 (cs_tag cs) -> bytes_n 16 tag -> hsk_cs_verify cs tag = bool_decide (cs_tag cs = tag).
Proof. apply aead_verify. Qed.

(** * Operations of the symmetric state *)

Lemma mix_hash_value sy data tag old : bytes (sy_handshake_digest sy) -> bytes data -> from_option bytes True tag -> length old = 32%nat ->
  hsk_brontide__mix_hash h garbage addr sy data tag old = fips_sha256 (sy_handshake_digest sy ++ data ++ from_option (take 16) [] tag).
Proof.
  intros Hd Hdata Ht Ho. unfold hsk_brontide__mix_hash. assert (H1 := sha256_feed_of h addr 5 _ _ _ Hd (sha256_new_of garbage Hg)).
  apply (sha256_feed_of h addr 6 _ _ data Hdata) in H1. cbn [app] in H1. destruct tag as [tag|]; cbn [from_option].
  - apply (sha256_feed_of h addr 7 _ _ (take 16 tag) (bytes_take _ _ Ht)) in H1.
    destruct (sha256_end_of h addr _ _ old H1 Ho) as (c & -> & _). by rewrite <-(assoc_L (++)).
  - destruct (sha256_end_of h addr _ _ old H1 Ho) as (c & -> & _). by rewrite app_nil_r.
Qed.
Lemma s_mix_hash_ok S data : sym_ok S -> sym_ok (s_mix_hash S data).
Proof. intros (Ht & Hc & Hh). split_and!; [done..|apply fips_sha256_ok]. Qed.
Lemma mix_hash_at S sy data : sym_at S sy -> bytes data -> sym_at (s_mix_hash S data) (hsk_brontide_mix_hash h garbage addr sy data).
Proof.
  intros (Hok & Hcs & Hck & Hh) Hd. split; [by apply s_mix_hash_ok|]. split; [done|]. split; [done|].
  destruct Hok as (_ & _ & [Hl Hb]). unfold hsk_brontide_mix_hash. cbn [sy_handshake_digest s_mix_hash ss_h]. rewrite mix_hash_value; rewrite ?Hh; try done.
  by rewrite app_nil_r.
Qed.
Lemma s_mix_key_ok S secret : sym_ok S -> sym_ok (s_mix_key S secret).
Proof.
  intros ((Hk & Hs & Hn) & Hc & Hh). unfold s_mix_key. destruct (hkdf2_ok (ss_ck S) secret) as [H1 H2]. destruct (hkdf2 _ _) as [ck key].
  split_and!; cbn [ss_t ss_ck ss_h t_key t_salt t_nonce]; (apply H1 || apply H2 || apply Hs || apply Hh || done).
Qed.
Lemma mix_key_at S sy secret : sym_at S sy -> bytes_n 32 secret -> exists sy',
  hsk_brontide_mix_key h garbage addr sy secret = Ret sy' /\ sym_at (s_mix_key S secret) sy'.
Proof.
  intros (Hok & Hcs & Hck & Hh) [Hl Hb]. assert (Hok' := s_mix_key_ok S secret Hok). unfold hsk_brontide_mix_key. rewrite (take_ge secret), Hck, hkdf_at by (done || lia || apply Hok).
  revert Hok'. unfold s_mix_key, sym_at. destruct (hkdf2_ok (ss_ck S) secret) as [H1 H2]. destruct (hkdf2 _ _) as [ck key]. cbn [obind fst snd] in *.
  intros Hok'. eexists. split; [reflexivity|]. cbn [sy_cs sy_chaining_key sy_handshake_digest ss_t ss_ck ss_h]. split; [done|]. split; [|done]. by apply init_key_at.
Qed.
Lemma s_next_ok S ct tag : sym_ok S -> sym_ok (s_next S ct tag).
Proof. intros (Ht & Hc & Hh). split_and!; [by apply t_next_ok|done|apply fips_sha256_ok]. Qed.
Lemma s_encrypt_at S sy inp : sym_at S sy -> bytes inp -> let ct := t_crypt (ss_t S) inp in exists sy',
  hsk_brontide_encrypt h garbage addr sy inp = Ret (sy', ct) /\ sym_at (s_next S ct (s_tag S ct)) sy' /\ cs_tag (sy_cs sy') = s_tag S ct.
Proof.
  intros (Hok & Hcs & Hck & Hh) Hi ct. assert (Hok' := Hok). destruct Hok' as (Ht & Hc & [Hhl Hhb]).
  unfold hsk_brontide_encrypt. destruct (encrypt_at (ss_t S) (sy_cs sy) (Some (sy_handshake_digest sy)) inp) as (cs & E & Hcs' & Htag); [done..|by rewrite Hh|done|].
  rewrite E. cbn [obind]. fold ct in Htag. fold ct. cbn [default from_option id] in Htag. rewrite Hh in Htag. eexists. split; [reflexivity|]. split; [|done].
  split; [by apply s_next_ok|]. split; [done|]. split; [done|]. cbn [sy_handshake_digest s_next ss_h].
  assert (Hb : bytes_n 16 (cs_tag cs)) by (rewrite Htag; apply t_tag_ok).
  rewrite mix_hash_value; rewrite ?Hh; [|done|by apply bytes_t_crypt|apply Hb|done]. cbn [from_option]. rewrite take_ge by (destruct Hb; lia). by rewrite Htag.
Qed.
Lemma s_decrypt_at S sy ct tag : sym_at S sy -> bytes ct -> bytes_n 16 tag -> exists sy',
  hsk_brontide_decrypt h garbage addr sy ct tag = Ret (sy', t_crypt (ss_t S) ct) /\ sym_at (s_next S ct tag) sy' /\ cs_tag (sy_cs sy') = s_tag S ct.
Proof.
  intros (Hok & Hcs & Hck & Hh) Hi [Htl Htb]. assert (Hok' := Hok). destruct Hok' as (Ht & Hc & [Hhl Hhb]).
  unfold hsk_brontide_decrypt. rewrite mix_hash_value; rewrite ?Hh; [|done..|apply garbage_take; lia].
  destruct (decrypt_at (ss_t S) (sy_cs sy) (Some (ss_h S)) ct) as (cs & E & Hcs' & Htag); [done..|].
  rewrite E. cbn [obind]. eexists. split; [reflexivity|]. split; [|done].
  split; [by apply s_next_ok|]. split; [done|]. split; [done|]. cbn [sy_handshake_digest s_next ss_h from_option].
  rewrite (take_ge tag), take_ge by (lia || (rewrite (proj1 (fips_sha256_ok _)); lia)). done.
Qed.
Lemma s_verify_at S sy ct tag : cs_tag (sy_cs sy) = s_tag S ct -> bytes_n 16 tag -> hsk_cs_verify (sy_cs sy) tag = bool_decide (s_tag S ct = tag).
Proof. intros E Ht. rewrite verify_at; rewrite ?E; [done|apply t_tag_ok|done]. Qed.
End Host.

(** * Acts *)

(** After the key [e] and the shared secret [s] of an act. *)
Definition act_state (S : sym) (e s : list Z) : sym := s_mix_key (s_mix_hash S e) s.
Definition act_tag (S : sym) (e s : list Z) : list Z := s_tag (act_state S e s) [].
Definition act_next (S : sym) (e s tag : list Z) : sym := s_next (act_state S e s) [] tag.
(** The third act: the encrypted key, the states after it, and the two tags. *)
Definition third_ct (S : sym) (pub : list Z) : list Z := t_crypt (ss_t S) pub.
Definition third_state (S : sym) (pub s : list Z) : sym :=
  let ct := third_ct S pub in s_mix_key (s_next S ct (s_tag S ct)) s.
Definition third_act (S : sym) (pub s : list Z) : list Z :=
  third_ct S pub ++ s_tag S (third_ct S pub) ++ s_tag (third_state S pub s) [].
Definition third_next (S : sym) (pub s : list Z) : sym :=
  s_next (third_state S pub s) [] (s_tag (third_state S pub s) []).
(** The keys from the initiator to the responder, and back. *)
Definition split_keys (S : sym) : transport * transport :=
  let '(k1, k2) := hkdf2 (ss_ck S) [] in (mk_t k1 (ss_ck S) 0, mk_t k2 (ss_ck S) 0).

Lemma take_all {X} n (l : list X) : length l = n -> take n l = l.
Proof. intros <-. apply firstn_all. Qed.

Section Acts.
Context (h : endian) (garbage : list Z) (addr : nat -> Z) (Hg : bytes_n 64 garbage).
Context {P : Type} `{Secp256k1Laws P} (random : nat -> option (list Z)).

(** The secret is mixed in and nothing is encrypted. *)
Lemma gen_act_at b n remote S key n1 n2 p ok u rp s : sym_at S (b_sym b) ->
  hsk_ec_create_privkey random n = Ret (true, key, n1) -> ec_pubkey_create key = Some p ->
  hsk_ec_pubkey_to_hash random n1 (ec_pubkey_serialize p) (take 64 garbage) = (ok, u, n2) -> bytes_n 64 u ->
  ec_pubkey_parse (take 33 (remote (set_local_ephemeral (b_hs b) key))) = Some rp -> secp256k1_ecdh rp key = Some s -> bytes_n 32 s ->
  let e := ec_pubkey_serialize p in exists sy',
  gen_act h garbage addr random b n remote = Ret (with_hs (with_sym b sy') (set_local_ephemeral (b_hs b) key), n2, u ++ act_tag S e s) /\
  sym_at (act_next S e s (act_tag S e s)) sy'.
Proof.
  intros Hsym Hkey Hp Hu [Hul Hub] Hrp Hs Hsb e. unfold gen_act. rewrite Hkey. cbn [obind oassert].
  unfold hsk_ec_create_pubkey. rewrite Hp. fold e. cbn [oassert obind].
  fold e in Hu. rewrite Hu. unfold hsk_ec_ecdh. rewrite Hrp, Hs. cbn [oassert obind].
  assert (He := mix_hash_at h garbage addr Hg _ _ e Hsym (proj2 (serialize_bytes p))).
  destruct (mix_key_at h garbage addr Hg _ _ s He Hsb) as (sy1 & -> & H1). cbn [obind].
  destruct (s_encrypt_at h garbage addr Hg _ _ [] H1 bytes_nil) as (sy2 & -> & H2 & Htag). cbn [obind]. rewrite t_crypt_nil in *.
  exists sy2. rewrite Htag, !take_all by (done || apply t_tag_ok). by split.
Qed.
Lemma recv_act_at b e tag local S p s : sym_at S (b_sym b) -> ec_pubkey_parse e = Some p -> bytes_n 33 e -> bytes_n 16 tag ->
  secp256k1_ecdh p (local (set_remote_ephemeral (b_hs b) e)) = Some s -> bytes_n 32 s -> exists sy',
  recv_act h garbage addr b e tag local = Ret (with_hs (with_sym b sy') (set_remote_ephemeral (b_hs b) e), bool_decide (act_tag S e s = tag)) /\
  sym_at (act_next S e s tag) sy'.
Proof.
  intros Hsym Hp [Hel Heb] Ht Hs Hsb. unfold recv_act. rewrite (take_all 33 e) by done. cbn [set_remote_ephemeral hs_remote_ephemeral].
  unfold hsk_ec_ecdh. rewrite (take_all 33 e) by done. rewrite Hp. cbn [set_remote_ephemeral] in Hs. rewrite Hs. cbn [oassert obind].
  assert (He := mix_hash_at h garbage addr Hg _ _ e Hsym Heb).
  destruct (mix_key_at h garbage addr Hg _ _ s He Hsb) as (sy1 & -> & H1). cbn [obind].
  destruct (s_decrypt_at h garbage addr Hg _ _ [] tag H1 bytes_nil Ht) as (sy2 & -> & H2 & Htag). cbn [obind].
  exists sy2. by rewrite (s_verify_at _ sy2 [] tag Htag Ht).
Qed.
(** The keys of both directions. *)
Lemma split_spec b S ts tr : sym_at S (b_sym b) -> cs_at ts (b_send_cipher b) -> cs_at tr (b_recv_cipher b) -> exists cs cr,
  hsk_brontide_split h garbage addr b = Ret (mk_brontide (b_sym b) (b_hs b) cs cr (b_net b)) /\
  let '(k1, k2) := split_keys S in let '(t1, t2) := if hs_initiator (b_hs b) then (k1, k2) else (k2, k1) in
  cs_at t1 cs /\ cs_at t2 cr /\ t_ok k1 /\ t_ok k2.
Proof.
  intros (Hok & Hcs & Hck & Hh) Hs Hr. destruct Hok as (_ & Hc & _). unfold hsk_brontide_split, split_keys. rewrite Hck, hkdf_at by (apply bytes_nil || apply Hc || done).
  destruct (hkdf2_ok (ss_ck S) []) as [H1 H2]. destruct (hkdf2 _ _) as [k1 k2]. cbn [fst snd obind] in *.
  assert (Hk : forall k, bytes_n 32 k -> t_ok (mk_t k (ss_ck S) 0)) by (intros k Hkb; split; [done|split; [done|unfold BRONTIDE_ROTATION_INTERVAL; cbn; lia]]).
  destruct (hs_initiator (b_hs b)); eexists _, _; (split; [reflexivity|]);
    (split; [by apply (init_saltkey_at h ts)|]); (split; [by apply (init_saltkey_at h tr)|]); split; by apply Hk.
Qed.
Lemma t_pub_ok S p : sym_ok S -> bytes (third_ct S (ec_pubkey_serialize p)) /\ length (third_ct S (ec_pubkey_serialize p)) = 33%nat.
Proof.
  intros Hok. destruct (serialize_bytes p) as [Hl Hb]. split; [by apply bytes_t_crypt; [apply Hok|]|]. unfold third_ct. by rewrite length_t_crypt.
Qed.
Lemma gen_act_three_at b S p rp s ts tr : sym_at S (b_sym b) -> cs_at ts (b_send_cipher b) -> cs_at tr (b_recv_cipher b) ->
  hs_initiator (b_hs b) = true -> ec_pubkey_create (hs_local_static (b_hs b)) = Some p ->
  ec_pubkey_parse (take 33 (hs_remote_ephemeral (b_hs b))) = Some rp -> secp256k1_ecdh rp (hs_local_static (b_hs b)) = Some s -> bytes_n 32 s ->
  let e := ec_pubkey_serialize p in exists sy cs cr,
  hsk_brontide_gen_act_three h garbage addr b = Ret (mk_brontide sy (b_hs b) cs cr (b_net b), third_act S e s) /\
  let '(k1, k2) := split_keys (third_next S e s) in cs_at k1 cs /\ cs_at k2 cr /\ t_ok k1 /\ t_ok k2.
Proof.
  intros Hsym Hts Htr Hi Hp Hrp Hs Hsb e. unfold hsk_brontide_gen_act_three, hsk_ec_create_pubkey. rewrite Hp. fold e. cbn [oassert obind].
  assert (Hpub := t_pub_ok S p (proj1 Hsym)). fold e in Hpub.
  destruct (s_encrypt_at h garbage addr Hg _ _ e Hsym (proj2 (serialize_bytes p))) as (sy1 & -> & H1 & Htag1). cbn [obind].
  unfold hsk_ec_ecdh. rewrite Hrp, Hs. cbn [oassert obind]. fold (third_ct S e) in *.
  destruct (mix_key_at h garbage addr Hg _ _ s H1 Hsb) as (sy2 & -> & H2). cbn [obind]. fold (third_state S e s) in H2.
  destruct (s_encrypt_at h garbage addr Hg _ _ [] H2 bytes_nil) as (sy3 & -> & H3 & Htag3). cbn [obind]. rewrite t_crypt_nil in *. fold (third_next S e s) in H3.
  destruct (split_spec (with_sym b sy3) _ ts tr H3 Hts Htr) as (cs & cr & -> & Hk). cbn [obind].
  exists sy3, cs, cr. rewrite Htag1, Htag3, !take_all by (done || apply t_tag_ok || apply Hpub). split; [reflexivity|].
  cbn [with_sym b_hs] in Hk. rewrite Hi in Hk. by destruct (split_keys _).
Qed.
Lemma recv_act_three_at b S p s ts tr : sym_at S (b_sym b) -> cs_at ts (b_send_cipher b) -> cs_at tr (b_recv_cipher b) ->
  hs_initiator (b_hs b) = false -> secp256k1_ecdh p (hs_local_ephemeral (b_hs b)) = Some s -> bytes_n 32 s ->
  let e := ec_pubkey_serialize p in exists sy hs cs cr,
  hsk_brontide_recv_act_three h garbage addr b (third_act S e s) = Ret (mk_brontide sy hs cs cr (b_net b), true) /\ hs_initiator hs = false /\
  let '(k1, k2) := split_keys (third_next S e s) in cs_at k2 cs /\ cs_at k1 cr /\ t_ok k1 /\ t_ok k2.
Proof.
  intros Hsym Hts Htr Hi Hs Hsb e. assert (Hpub := t_pub_ok S p (proj1 Hsym)). fold e in Hpub. destruct Hpub as [Hcb Hcl].
  assert (Ht1 : bytes_n 16 (s_tag S (third_ct S e))) by apply t_tag_ok. assert (Ht2 : bytes_n 16 (s_tag (third_state S e s) [])) by apply t_tag_ok.
  unfold hsk_brontide_recv_act_three, third_act. rewrite (take_app_length' _ _ 33), (drop_app_length' _ _ 33), (take_app_length' _ _ 16) by (done || apply Ht1).
  rewrite (assoc_L (++)), (drop_app_length' _ _ 49), (take_all 16) by (apply Ht2 || (rewrite length_app, Hcl, (proj1 Ht1); done)).
  destruct (s_decrypt_at h garbage addr Hg _ _ _ _ Hsym Hcb Ht1) as (sy1 & -> & H1 & Htag1). cbn [obind].
  rewrite (s_verify_at _ sy1 _ _ Htag1 Ht1), bool_decide_eq_true_2 by done. cbn [negb]. unfold third_ct at 1. rewrite t_crypt_twice.
  cbn [with_hs with_sym b_hs set_remote_static hs_remote_static hs_local_ephemeral]. unfold hsk_ec_ecdh.
  rewrite !(take_all 33 e) by apply serialize_bytes. unfold e at 1. rewrite parse_serialize, Hs. cbn [oassert obind b_sym with_hs with_sym].
  destruct (mix_key_at h garbage addr Hg _ _ s H1 Hsb) as (sy2 & -> & H2). cbn [obind]. fold (third_state S e s) in H2.
  destruct (s_decrypt_at h garbage addr Hg _ _ [] _ H2 bytes_nil Ht2) as (sy3 & -> & H3 & Htag3). cbn [obind].
  rewrite (s_verify_at _ sy3 _ _ Htag3 Ht2), bool_decide_eq_true_2 by done. cbn [negb]. fold (third_next S e s) in H3.
  match goal with |- context [hsk_brontide_split _ _ _ ?b'] => destruct (split_spec b' _ ts tr H3 Hts Htr) as (cs & cr & -> & Hk) end. cbn [obind].
  exists sy3. eexists. exists cs, cr. split; [reflexivity|]. split; [done|]. cbn [b_hs with_hs with_sym hs_initiator set_remote_static] in Hk. rewrite Hi in Hk.
  by destruct (split_keys _).
Qed.
End Acts.

(** The start of both ends. *)
Definition t_zero : transport := mk_t (replicate 32 0) (replicate 32 0) 0.
Lemma t_zero_ok : t_ok t_zero.
Proof.
  assert (Hz : bytes_n 32 (replicate 32 0)) by (split; [done|by apply bytes_replicate]). by split_and!.
Qed.
Definition first_sym (pub : list Z) : sym :=
  let digest := fips_sha256 brontide_protocol_name in
  s_mix_hash (s_mix_hash (mk_sym t_zero digest digest) brontide_prologue) pub.
Lemma bytes_text s : bytes (text_of s).
Proof.
  unfold text_of. apply Forall_map, Forall_forall. intros c _. assert (Hc := Ascii.nat_ascii_bounded c). lia.
Qed.
Section Start.
Context (h : endian) (garbage : list Z) (addr : nat -> Z) (Hg : bytes_n 64 garbage).

Lemma init_sym_at : sym_at (mk_sym t_zero (fips_sha256 brontide_protocol_name) (fips_sha256 brontide_protocol_name))
  (hsk_brontide_init_sym h garbage addr (b_sym hsk_brontide_init) brontide_protocol_name).
Proof.
  assert (Hz : bytes_n 32 (replicate 32 0)) by (split; [done|by apply bytes_replicate]).
  assert (Hd := fips_sha256_ok brontide_protocol_name). unfold hsk_brontide_init_sym. cbn [b_sym hsk_brontide_init sy_handshake_digest sy_cs sy_temp_key].
  rewrite (hash_spec h garbage addr Hg) by (apply bytes_text || done). rewrite take_all by apply Hd.
  split; [|split; [|done]].
  - split; [apply t_zero_ok|by split].
  - cbn [ss_t sy_cs]. apply (init_key_at h t_zero); [apply cs_init_at|done].
Qed.
Context {P : Type} `{Secp256k1Laws P}.
Definition start_hs (initiator : bool) (key : list Z) (remote : list Z) : handshake :=
  mk_handshake initiator key (replicate 32 0) remote (replicate 33 0).
Lemma init_initiator_at key pub : bytes_n 32 key -> bytes_n 33 pub -> exists sy,
  hsk_brontide_init_brontide h garbage addr hsk_brontide_init true key (Some pub) =
    Ret (with_hs (with_sym hsk_brontide_init sy) (start_hs true key pub)) /\ sym_at (first_sym pub) sy.
Proof.
  intros [Hkl Hkb] [Hpl Hpb]. unfold hsk_brontide_init_brontide, hsk_brontide_init_state. cbn [of_option obind].
  rewrite (take_all 32), (take_all 33) by done. eexists. split; [reflexivity|]. apply mix_hash_at; [done| |done].
  apply mix_hash_at; [done|apply init_sym_at|apply bytes_text].
Qed.
Lemma init_responder_at key p : bytes_n 32 key -> ec_pubkey_create key = Some p -> exists sy,
  hsk_brontide_init_brontide h garbage addr hsk_brontide_init false key None =
    Ret (with_hs (with_sym hsk_brontide_init sy) (start_hs false key (replicate 33 0))) /\ sym_at (first_sym (ec_pubkey_serialize p)) sy.
Proof.
  intros [Hkl Hkb] Hp. unfold hsk_brontide_init_brontide, hsk_brontide_init_state, hsk_ec_create_pubkey. rewrite Hp. cbn [oassert obind].
  rewrite (take_all 32) by done. eexists. split; [reflexivity|]. apply mix_hash_at; [done| |apply serialize_bytes].
  apply mix_hash_at; [done|apply init_sym_at|apply bytes_text].
Qed.
End Start.
