(* ===== verification/BrontideLoop.v ===== *)
(** The reader of the encrypted transport as a loop over an abstract parser: what is consumed
    is the whole messages, and the rest is in the buffer. *)

From S2P Require Import Prelude Bio Blake2b Aead Ec Brontide.

Section Loop.
Context (h : endian) (garbage : list Z) (addr : nat -> Z) {P : Type} `{Secp256k1 P} (random : nat -> option (list Z)).
Context {A : Type} `{Owner A} (alloc : nat -> option (nat -> Z)) (write_result : nat -> Z).
Implicit Types (e : endpoint A) (c buf data : list Z) (n : nat).

(** The buffer has [n] bytes, the first of them [buf]. *)
Definition buffer_at e buf n : Prop := exists m, nt_msg (b_net (e_b e)) = Some m /\ length m = n /\ nt_msg_len (b_net (e_b e)) = n /\
  nt_msg_pos (b_net (e_b e)) = length buf /\ take (length buf) m = buf /\ (length buf < n)%nat.
(** The endpoint with another buffer. *)
Definition with_buffer e (msg : option (list Z)) (pos len allocs : nat) : endpoint A :=
  let b := e_b e in let nt := b_net b in
  mk_endpoint (with_net b (mk_net (nt_state nt) (nt_has_size nt) msg pos len)) (e_owner e) (e_out e) (e_log e) (e_random e) allocs (e_writes e).

(** [Inv e c n]: [c] was consumed and a message of [n] bytes is awaited; [Err e r] and [Quit e]: the parser
    failed with [r], and a callback closed the transport; [Good total]: what is ever read. *)
Context (Inv : endpoint A -> list Z -> nat -> Prop) (Err : endpoint A -> Z -> Prop) (Quit : endpoint A -> Prop) (Good : list Z -> Prop).
Context (inv_buffer : forall e c n msg pos len allocs, Inv e c n -> Inv (with_buffer e msg pos len allocs) c n).
Context (good_prefix : forall l k, Good (l ++ k) -> Good l).
Context (inv_state : forall e c n, Inv e c n -> nt_state (b_net (e_b e)) <> BRONTIDE_ACT_NONE).
Context (parse_step : forall e c n data, Inv e c n -> nt_msg_len (b_net (e_b e)) = n -> length data = n -> Good (c ++ data) ->
  exists e' res, hsk_brontide_parse h garbage addr random write_result e data = Ret (e', res) /\
  match res with
  | inl r => r <> HSK_SUCCESS /\ Err e' r
  | inr n' => if nt_state (b_net (e_b e')) =? BRONTIDE_ACT_NONE then Quit e' else Inv e' (c ++ data) n' /\ n' <> 0%nat
  end).
Context (no_memory : forall e c n, Inv e c n -> alloc (e_allocs e) = None ->
  Err (mk_endpoint (e_b e) (e_owner e) (e_out e) (e_log e) (e_random e) (S (e_allocs e)) (e_writes e)) HSK_ENOMEM).

Definition waiting e (total : list Z) : Prop := exists c n buf, Inv e c n /\ buffer_at e buf n /\ total = c ++ buf.
Definition read_post e (r : Z) (total : list Z) : Prop :=
  (r = HSK_SUCCESS /\ waiting e total) \/ (r = HSK_SUCCESS /\ Quit e) \/ (r <> HSK_SUCCESS /\ exists e', e = destroy e' /\ Err e' r).

Lemma fill_msg_at e buf n data : buffer_at e buf n -> (length buf + length data <= n)%nat -> exists m',
  fill_msg (e_b e) data = Ret (with_msg (e_b e) m') /\ length m' = n /\ take (length buf + length data) m' = buf ++ data.
Proof.
  intros (m & Hm & Hl & Hlen & Hpos & Ht & Hlt) Hle. unfold fill_msg. rewrite Hm, Hpos. cbn [of_option obind].
  destruct (Nat.ltb_spec (length m) (length buf + length data)); [lia|]. eexists. split; [reflexivity|]. unfold memcpy_at.
  split; [rewrite !length_app, length_take, length_drop; lia|]. rewrite Ht, (assoc_L (++)). apply take_app_length'. rewrite length_app. done.
Qed.
Lemma buffer_again e c n : Inv e c n -> n <> 0%nat -> exists e' ok, realloc_msg alloc e n = (e', ok) /\
  if ok : bool then (Inv e' c n /\ buffer_at e' [] n) else Err e' HSK_ENOMEM.
Proof.
  intros Hi Hn. unfold realloc_msg. destruct (alloc (e_allocs e)) as [fresh|] eqn:Ea; eexists _, _; (split; [reflexivity|]).
  - set (msg := take n _ ++ _). assert (Hmsg : length msg = n) by (unfold msg; rewrite length_app, length_take, length_map, length_seq; lia).
    split; [exact (inv_buffer e c n (Some msg) 0 n (S (e_allocs e)) Hi)|]. exists msg. split_and!; try done. cbn [length]. lia.
  - by eapply no_memory.
Qed.
Lemma read_loop_correct fuel : forall e c n buf data, Inv e c n -> buffer_at e buf n -> Good (c ++ buf ++ data) -> (length data < fuel)%nat ->
  exists e' r, read_loop h garbage addr random alloc write_result fuel e data = Ret (e', r) /\ read_post e' r (c ++ buf ++ data).
Proof.
  induction fuel as [|fuel IH]; intros e c n buf data Hi Hb Hg Hf; [lia|]. cbn [read_loop].
  destruct (id Hb) as (m & Hm & Hl & Hlen & Hpos & Ht & Hlt). rewrite Hlen, Hpos. destruct (Nat.leb_spec n (length buf + length data)) as [Hle|Hgt].
  - rewrite (proj2 (Nat.ltb_lt _ _)) by done. cbn [oassert obind].
    assert (Hneed : length (take (n - length buf) data) = (n - length buf)%nat) by (rewrite length_take; lia).
    destruct (fill_msg_at e buf n (take (n - length buf) data) Hb) as (m' & -> & Hl' & Ht'); [lia|]. cbn [obind b_net with_msg with_net nt_msg default from_option id].
    rewrite Hneed in Ht'. replace (length buf + (n - length buf))%nat with n in Ht' by lia. rewrite Ht'.
    assert (Hi' : Inv (with_b e (with_msg (e_b e) m')) c n) by exact (inv_buffer e c n (Some m') (nt_msg_pos (b_net (e_b e))) (nt_msg_len (b_net (e_b e))) (e_allocs e) Hi).
    assert (Hsplit : c ++ buf ++ data = (c ++ buf ++ take (n - length buf) data) ++ [] ++ drop (n - length buf) data).
    { cbn [app]. by rewrite <-!(assoc_L (++)), take_drop. }
    assert (Hdl : length (buf ++ take (n - length buf) data) = n) by (rewrite length_app; lia).
    rewrite Hsplit in Hg |- *. destruct (parse_step _ c n (buf ++ take (n - length buf) data) Hi' Hlen Hdl) as (e1 & res & -> & Hres).
    { eapply good_prefix. exact Hg. }
    cbn [obind]. destruct res as [r|n'].
    + destruct Hres as [Hr He]. destruct (Z.eqb_spec r HSK_SUCCESS); [done|]. cbn [negb]. exists (destroy e1), r. split; [done|]. right. right. split; [done|]. by exists e1.
    + destruct (nt_state (b_net (e_b e1)) =? BRONTIDE_ACT_NONE) eqn:Es; [exists e1, HSK_SUCCESS; split; [done|]; right; by left|].
      destruct Hres as [Hi1 Hn']. destruct (Nat.eqb_spec n' 0); [done|]. cbn [negb oassert obind].
      destruct (buffer_again e1 _ n' Hi1 Hn') as (e2 & ok & -> & Hok). destruct ok; cbn [negb].
      * destruct Hok as [Hi2 Hb2]. eapply IH; [exact Hi2|exact Hb2|exact Hg|rewrite length_drop; lia].
      * exists (destroy e2), HSK_ENOMEM. split; [done|]. right. right. split; [done|]. by exists e2.
  - destruct (fill_msg_at e buf n data Hb) as (m' & -> & Hl' & Ht'); [lia|]. cbn [obind b_net with_msg with_net nt_msg nt_state nt_has_size nt_msg_pos nt_msg_len].
    eexists _, _. split; [reflexivity|]. left. split; [done|]. exists c, n, (buf ++ data). split.
    + exact (inv_buffer e c n (Some m') (nt_msg_pos (b_net (e_b e)) + length data) (nt_msg_len (b_net (e_b e))) (e_allocs e) Hi).
    + split; [|done]. exists m'. rewrite length_app. split_and!; try done; cbn [with_b e_b with_net b_net nt_msg_pos]; lia.
Qed.
Lemma on_read_correct e total data : waiting e total -> Good (total ++ data) -> exists e' r,
  hsk_brontide_on_read h garbage addr random alloc write_result e data = Ret (e', r) /\ read_post e' r (total ++ data).
Proof.
  intros (c & n & buf & Hi & Hb & ->) Hg. unfold hsk_brontide_on_read. destruct (Z.eqb_spec (nt_state (b_net (e_b e))) BRONTIDE_ACT_NONE) as [E|E]; [by apply inv_state in Hi|].
  destruct (id Hb) as (m & Hm & _). rewrite Hm. cbn [oassert obind]. rewrite <-(assoc_L (++)) in *. by eapply read_loop_correct; [..|lia].
Qed.
End Loop.
