(* ===== verification/BrontideFrame.v ===== *)
(** Frames of the encrypted transport: what a write appends to the wire, what the parser does with a
    header and with a body, and programs of callbacks under an invariant. *)

From S2P Require Import Prelude Bio Blake2b Hkdf Chacha20 Aead Ec Brontide BrontideSpec BrontideLoop.

(** * Frames and streams *)

Definition sealed (t : transport) (data : list Z) : list Z := t_crypt t data ++ t_tag t [] (t_crypt t data).
Definition header (t : transport) (len : nat) : list Z := sealed t (le_split 4 (Z.of_nat len)).
Definition frame (t : transport) (data : list Z) : list Z := header t (length data) ++ sealed (t_next t) data.
Fixpoint stream (t : transport) (msgs : list (list Z)) : list Z :=
  match msgs with
  | [] => []
  | m :: msgs => frame t m ++ stream (t_next (t_next t)) msgs
  end.
(** The key after some messages. *)
Definition t_after (t : transport) (n : nat) : transport := Nat.iter n (fun t => t_next (t_next t)) t.
Definition message_ok (m : list Z) : Prop := bytes m /\ Z.of_nat (length m) <= BRONTIDE_MAX_MESSAGE.

Lemma t_after_S t n : t_after t (S n) = t_next (t_next (t_after t n)).
Proof. reflexivity. Qed.
Lemma t_after_next t n : t_after (t_next (t_next t)) n = t_next (t_next (t_after t n)).
Proof. induction n as [|n IH]; [done|]. by rewrite !t_after_S, IH. Qed.
Lemma t_after_ok t n : t_ok t -> t_ok (t_after t n).
Proof. intros Ht. induction n; [done|]. rewrite t_after_S. by do 2 apply t_next_ok. Qed.
Lemma stream_app t a b : stream t (a ++ b) = stream t a ++ stream (t_after t (length a)) b.
Proof.
  revert t. induction a as [|m a IH]; intros t; [done|]. cbn [stream app length]. by rewrite IH, <-(assoc_L (++)), t_after_next, <-t_after_S.
Qed.
Lemma stream_snoc t a m : stream t (a ++ [m]) = stream t a ++ frame (t_after t (length a)) m.
Proof. rewrite stream_app. cbn [stream]. by rewrite app_nil_r. Qed.
Lemma length_sealed t data : length (sealed t data) = (length data + 16)%nat.
Proof. unfold sealed. rewrite length_app, length_t_crypt. by rewrite (proj1 (t_tag_ok t [] _)). Qed.
Lemma bytes_sealed t data : t_ok t -> bytes data -> bytes (sealed t data).
Proof. intros Ht Hd. apply bytes_app. split; [by apply bytes_t_crypt|apply t_tag_ok]. Qed.
Lemma length_frame_header t len : length (header t len) = 20%nat.
Proof. unfold header. by rewrite length_sealed, length_le_split. Qed.
Lemma bytes_stream t msgs : t_ok t -> Forall message_ok msgs -> bytes (stream t msgs).
Proof.
  intros Ht Hm. revert t Ht. induction Hm as [|m msgs [Hm _] _ IH]; intros t Ht; [apply bytes_nil|]. cbn [stream frame]. unfold frame, header.
  assert (Ht' := t_next_ok t Ht). apply bytes_app; split; [|by apply IH, t_next_ok].
  apply bytes_app; split; apply bytes_sealed; try done. apply bytes_le_split.
Qed.

(** * Programs of callbacks *)

(** The texts that a program may send, whether it may close the transport, and what holds of the owner in the end. *)
Fixpoint prog_ok {A} (ok : list Z -> Prop) (closes : Prop) (post : A -> Prop) (p : prog A) : Prop :=
  match p with
  | Stop a => post a
  | Send data k => ok data /\ forall r, prog_ok ok closes post (k r)
  | Destroy k => closes /\ prog_ok ok closes post k
  end.
(** The callbacks keep [J k], where [k] more bytes may still be given to the owner. *)
Definition owner_keeps (A : Type) `{Owner A} (ok : list Z -> Prop) (closes : Prop) (J : Z -> A -> Prop) : Prop :=
  forall k a, J k a -> prog_ok ok closes (J k) (owner_connect a) /\
    forall m, message_ok m -> Z.of_nat (length m) <= k -> prog_ok ok closes (J (k - Z.of_nat (length m))) (owner_read a m).
Definition owner_ok (A : Type) `{Owner A} (ok : list Z -> Prop) (closes : Prop) : Prop := owner_keeps A ok closes (fun _ _ => True).
Lemma owner_read_ok {A : Type} `{Owner A} ok closes a m : owner_ok A ok closes -> message_ok m -> prog_ok ok closes (fun _ => True) (owner_read a m).
Proof. intros Ho Hm. by apply (Ho (Z.of_nat (length m)) a I). Qed.

Section Frame.
Context (h : endian) (garbage : list Z) (addr : nat -> Z) (Hg : bytes_n 64 garbage).
Context {P : Type} `{Secp256k1 P} (random : nat -> option (list Z)).
Context {A : Type} `{Owner A} (write_result : nat -> Z).
Implicit Types (e : endpoint A) (b : hsk_brontide_t).
Abbreviation write := (hsk_brontide_write h garbage addr write_result).

(** The endpoint after parts were encrypted and written. *)
Definition written e (cs : hsk_cs_t) (out : list Z) (writes : nat) : endpoint A :=
  mk_endpoint (with_send_cipher (e_b e) cs) (e_owner e) out (e_log e) (e_random e) (e_allocs e) writes.
Lemma write_part_at t e data k : t_ok t -> cs_at t (b_send_cipher (e_b e)) -> bytes data -> exists cs, cs_at (t_next t) cs /\
  ((exists out w i, write_result i <> 0 /\ write_part h garbage addr write_result e data k = Ret (written e cs out w, write_result i)) \/
   (exists w, write_part h garbage addr write_result e data k = k (written e cs (e_out e ++ sealed t data) w))).
Proof.
  intros Ht Hcs Hd. unfold write_part. destruct (encrypt_at h garbage addr Hg t _ None data Ht Hcs I Hd) as (cs & -> & Hcs' & Htag). cbn [obind default] in *.
  exists cs. split; [done|]. unfold write_cb. cbn [e_writes e_b e_owner e_out e_log e_random e_allocs with_b b_send_cipher with_send_cipher].
  destruct (Z.eqb_spec (write_result (e_writes e)) 0) as [E0|E0]; cbn [negb]; [|left; by eexists _, _, _].
  rewrite E0, Htag, take_all by apply t_tag_ok. change (0 =? HSK_SUCCESS) with true. cbn match.
  destruct (Z.eqb_spec (write_result (S (e_writes e))) 0) as [E1|E1]; cbn [negb]; [|left; by eexists _, _, _].
  rewrite E1. right. eexists. unfold written, sealed. rewrite (assoc_L (++)). reflexivity.
Qed.
Lemma set_len n : set_u32_on h (u32 n) = le_split 4 n.
Proof. rewrite set_u32_host. rewrite <-(le_split_combine (le_split 4 n) (bytes_le_split 4 n)), length_le_split, le_combine_split. reflexivity. Qed.
(** A write while the transport is open: a frame on the wire, or the first failure of [write_cb] and the transport is closed. *)
Lemma write_at t e data : nt_state (b_net (e_b e)) = BRONTIDE_ACT_DONE -> t_ok t -> cs_at t (b_send_cipher (e_b e)) -> bytes data ->
  exists cs out w t', t_ok t' /\ cs_at t' cs /\
  ((exists i, write_result i <> 0 /\ write e data = Ret (destroy (written e cs out w), write_result i)) \/
   (t' = t_next (t_next t) /\ out = e_out e ++ frame t data /\ write e data = Ret (written e cs out w, HSK_SUCCESS))).
Proof.
  intros Hst Ht Hcs Hd. unfold hsk_brontide_write. rewrite Hst. cbn [negb Z.eqb Pos.eqb BRONTIDE_ACT_DONE]. rewrite set_len.
  match goal with |- context [write_part _ _ _ _ e ?d ?k] => destruct (write_part_at t e d k Ht Hcs (bytes_le_split 4 _)) as (cs1 & H1 & [(out & w & i & Hi & E)|(w & E)]) end; rewrite E; clear E.
  - cbn [obind]. exists cs1, out, w, (t_next t). split; [by apply t_next_ok|]. split; [done|]. left. exists i. split; [done|].
    destruct (Z.eqb_spec (write_result i) HSK_SUCCESS); done.
  - set (e1 := written e cs1 _ w).
    match goal with |- context [write_part _ _ _ _ e1 ?d ?k] => destruct (write_part_at (t_next t) e1 d k (t_next_ok t Ht) H1 Hd) as (cs2 & H2 & [(out & w2 & i & Hi & E)|(w2 & E)]) end; rewrite E; clear E; cbn [obind].
    + exists cs2, out, w2, (t_next (t_next t)). split; [by do 2 apply t_next_ok|]. split; [done|]. left. exists i. split; [done|].
      destruct (Z.eqb_spec (write_result i) HSK_SUCCESS); done.
    + eexists cs2, _, w2, _. split; [by do 2 apply t_next_ok|]. split; [done|]. right. split; [done|]. split; [reflexivity|].
      unfold e1, written, frame. cbn [e_out]. by rewrite (assoc_L (++)).
Qed.
Lemma write_closed e data : nt_state (b_net (e_b e)) <> BRONTIDE_ACT_DONE -> write e data = Ret (e, HSK_SUCCESS).
Proof. intros Hst. unfold hsk_brontide_write. by destruct (Z.eqb_spec (nt_state (b_net (e_b e))) BRONTIDE_ACT_DONE). Qed.

(** Callbacks keep what sending, closing and a new owner keep. *)
Lemma run_prog_keeps (Q : endpoint A -> Prop) ok closes post p :
  (forall e data, Q e -> ok data -> exists e' r, write (note e (Sent (nt_state (b_net (e_b e))) data)) data = Ret (e', r) /\ Q e') ->
  (forall e, closes -> Q e -> Q (destroy e)) -> (forall e a, Q e -> Q (with_owner e a)) ->
  forall e, prog_ok ok closes post p -> Q e -> exists e', run_prog h garbage addr write_result p e = Ret e' /\ Q e' /\ post (e_owner e').
Proof.
  intros Hsend Hclose Hown. induction p as [a|data k IH|p IH]; intros e Hp HQ; cbn [run_prog].
  - exists (with_owner e a). split; [done|]. split; [by apply Hown|exact Hp].
  - destruct Hp as [Hd Hk]. destruct (Hsend e data HQ Hd) as (e' & r & E & HQ'). cbn [note e_b] in *. rewrite E. cbn [obind]. by apply IH.
  - destruct Hp as [Hc Hp]. apply IH; [done|by apply Hclose].
Qed.

(** * The parser on an open transport *)

Abbreviation parse := (hsk_brontide_parse h garbage addr random write_result).
Lemma get_len (l : list Z) : bytes l -> length l = 4%nat -> get_i32_on h l = i32 (le_combine l).
Proof. intros Hb Hl. unfold get_i32_on. rewrite get_u32_host by (done || lia). by rewrite take_ge by lia. Qed.
Lemma parse_open e data : nt_state (b_net (e_b e)) = BRONTIDE_ACT_DONE -> parse e data =
    if negb (nt_has_size (b_net (e_b e))) then
      let* _ := oassert (nt_msg_len (b_net (e_b e)) =? BRONTIDE_HEADER_SIZE)%nat in
      let* _ := oassert (length data =? BRONTIDE_HEADER_SIZE)%nat in
      let* (cs, len) := hsk_cs_decrypt h garbage addr (b_recv_cipher (e_b e)) None (take 4 data) in
      let e := with_b e (with_msg (with_recv_cipher (e_b e) cs) (memcpy_at data 0 len)) in
      if negb (hsk_cs_verify cs (take 16 (drop 4 data))) then Ret (e, inl HSK_EBADTAG)
      else
        let size := get_i32_on h len in
        if (size <? 0) || (BRONTIDE_MAX_MESSAGE <? size) then Ret (e, inl HSK_EBADSIZE)
        else Ret (with_b e (with_has_size (e_b e) true), inr (Z.to_nat size + 16)%nat)
    else
      let payload_len := (length data - 16)%nat in
      let* (cs, payload) := hsk_cs_decrypt h garbage addr (b_recv_cipher (e_b e)) None (take payload_len data) in
      let e := with_b e (with_msg (with_recv_cipher (e_b e) cs) (memcpy_at data 0 payload)) in
      if negb (hsk_cs_verify cs (take 16 (drop payload_len data))) then Ret (e, inl HSK_EBADTAG)
      else
        let* e := read_cb h garbage addr write_result (with_b e (with_has_size (e_b e) false)) payload in
        Ret (e, inr BRONTIDE_HEADER_SIZE).
Proof. intros Hst. unfold hsk_brontide_parse. rewrite Hst. change (BRONTIDE_ACT_DONE =? BRONTIDE_ACT_TWO) with false.
  change (BRONTIDE_ACT_DONE =? BRONTIDE_ACT_ONE) with false. change (BRONTIDE_ACT_DONE =? BRONTIDE_ACT_THREE) with false. rewrite !andb_false_r. reflexivity. Qed.
(** The endpoint after a text of [data] was decrypted in place. *)
Definition decrypted e (cs : hsk_cs_t) (data text : list Z) : endpoint A := with_b e (with_msg (with_recv_cipher (e_b e) cs) (memcpy_at data 0 text)).
Lemma parse_header t e data : nt_state (b_net (e_b e)) = BRONTIDE_ACT_DONE -> nt_has_size (b_net (e_b e)) = false ->
  nt_msg_len (b_net (e_b e)) = 20%nat -> length data = 20%nat -> bytes data -> t_ok t -> cs_at t (b_recv_cipher (e_b e)) ->
  let len := t_crypt t (take 4 data) in let size := i32 (le_combine len) in exists cs, cs_at (t_next t) cs /\
  let e' := decrypted e cs data len in
  parse e data = Ret (if negb (bool_decide (t_tag t [] (take 4 data) = drop 4 data)) then (e', inl HSK_EBADTAG)
    else if (size <? 0) || (BRONTIDE_MAX_MESSAGE <? size) then (e', inl HSK_EBADSIZE)
    else (with_b e' (with_has_size (e_b e') true), inr (Z.to_nat size + 16)%nat)).
Proof.
  intros Hst Hs Hlen Hl Hb Ht Hcs len size. rewrite parse_open, Hs, Hlen, Hl by done. cbn [negb Nat.eqb BRONTIDE_HEADER_SIZE oassert obind].
  destruct (decrypt_at h garbage addr Hg t _ None (take 4 data) Ht Hcs I) as (cs & E & Hcs' & Htag); [by apply bytes_take|]. rewrite E. cbn [obind default] in *. fold len.
  exists cs. split; [done|]. rewrite (take_all 16) by (rewrite length_drop; lia).
  rewrite verify_at by (apply Hcs' || (split; [rewrite length_drop; lia|by apply bytes_drop])). rewrite Htag.
  rewrite get_len by ((by apply bytes_t_crypt; [|apply bytes_take]) || (unfold len; rewrite length_t_crypt, length_take; lia)). fold size.
  destruct (bool_decide _); [|done]. cbn [negb]. by destruct (_ || _).
Qed.
Lemma parse_body t e data n : nt_state (b_net (e_b e)) = BRONTIDE_ACT_DONE -> nt_has_size (b_net (e_b e)) = true ->
  length data = (n + 16)%nat -> bytes data -> t_ok t -> cs_at t (b_recv_cipher (e_b e)) ->
  let payload := t_crypt t (take n data) in exists cs, cs_at (t_next t) cs /\
  let e' := decrypted e cs data payload in
  parse e data = if negb (bool_decide (t_tag t [] (take n data) = drop n data)) then Ret (e', inl HSK_EBADTAG)
    else let* e' := read_cb h garbage addr write_result (with_b e' (with_has_size (e_b e') false)) payload in Ret (e', inr 20%nat).
Proof.
  intros Hst Hs Hl Hb Ht Hcs payload. rewrite parse_open, Hs, Hl by done. cbn [negb]. replace (n + 16 - 16)%nat with n by lia.
  destruct (decrypt_at h garbage addr Hg t _ None (take n data) Ht Hcs I) as (cs & E & Hcs' & Htag); [by apply bytes_take|]. cbv zeta. rewrite E. cbn [obind default] in *. fold payload.
  exists cs. split; [done|]. rewrite (take_all 16) by (rewrite length_drop; lia).
  rewrite verify_at by (apply Hcs' || (split; [rewrite length_drop; lia|by apply bytes_drop])). rewrite Htag. reflexivity.
Qed.
End Frame.
