(* ===== verification/BrontideSafe.v ===== *)
(** The connecting end of the encrypted transport against any peer: whatever bytes come in, the
    process does not stop, and what the owner gets is bounded. *)

From S2P Require Import Prelude Bio Blake2b Hkdf Chacha20 Aead Ec Brontide BrontideSpec BrontideLoop BrontideFrame.

(** What the owner of an endpoint, and its peer, make it do: bytes come in, the owner writes or closes. *)
Inductive action := Read (data : list Z) | Write (data : list Z) | Close.
Definition action_bytes (a : action) : Prop := match a with Read d | Write d => bytes d | Close => True end.
#[global] Instance action_bytes_dec a : Decision (action_bytes a).
Proof. destruct a; apply _. Defined.

Section Client.
Context (h : endian) (garbage : list Z) (addr : nat -> Z) {P : Type} `{Secp256k1 P} (random : nat -> option (list Z)).
Context {A : Type} `{Owner A} (alloc : nat -> option (nat -> Z)) (write_result : nat -> Z).

Definition endpoint_act (e : endpoint A) (a : action) : outcome (endpoint A * Z) :=
  match a with
  | Read data => hsk_brontide_on_read h garbage addr random alloc write_result e data
  | Write data => hsk_brontide_write h garbage addr write_result (note e (Sent (nt_state (b_net (e_b e))) data)) data
  | Close => Ret (destroy e, HSK_SUCCESS)
  end.
(** The results, each with the state of the endpoint after it. *)
Fixpoint client_run (acts : list action) (e : endpoint A) : outcome (endpoint A * list (Z * Z)) :=
  match acts with
  | [] => Ret (e, [])
  | a :: acts =>
      let* (e, r) := endpoint_act e a in
      let state := nt_state (b_net (e_b e)) in
      let* (e, rs) := client_run acts e in
      Ret (e, (r, state) :: rs)
  end.
(** Connected to the key [their_key]. *)
Definition client_start (a : A) (our_key their_key : list Z) : outcome (endpoint A * Z) :=
  let* (e, _) := hsk_brontide_connect h garbage addr (mk_endpoint hsk_brontide_init a [] [] 0 0 0) our_key their_key in
  hsk_brontide_on_connect h garbage addr random alloc write_result e.
End Client.

(** Results of a call on the connecting end. *)
Definition client_code (write_result : nat -> Z) (r : Z) : Prop :=
  In r [HSK_SUCCESS; HSK_EACTTWO; HSK_EBADTAG; HSK_EBADSIZE; HSK_ENOMEM] \/ exists i, r = write_result i.
Definition event_ok (ev : event) : Prop := match ev with Received p => message_ok p | _ => True end.

Section Safe.
Context (h : endian) (garbage : list Z) (addr : nat -> Z) (Hg : bytes_n 64 garbage).
Context {P : Type} `{Secp256k1Laws P} (random : nat -> option (list Z)).
Context {A : Type} `{Owner A} (alloc : nat -> option (nat -> Z)) (write_result : nat -> Z).
Context (J : Z -> A -> Prop) (Jless : forall k k' a, J k a -> 0 <= k' <= k -> J k' a) (Hown : owner_keeps A bytes True J).
Implicit Types (e : endpoint A).
Abbreviation write := (hsk_brontide_write h garbage addr write_result).
Abbreviation parse := (hsk_brontide_parse h garbage addr random write_result).
Abbreviation state_of e := (nt_state (b_net (e_b e))).

Definition keyed (cs : hsk_cs_t) : Prop := exists t, t_ok t /\ cs_at t cs.
Lemma keyed_at t cs : t_ok t -> cs_at t cs -> keyed cs.
Proof. by exists t. Qed.
Definition open e (has : bool) : Prop := state_of e = BRONTIDE_ACT_DONE /\ nt_has_size (b_net (e_b e)) = has /\
  keyed (b_send_cipher (e_b e)) /\ keyed (b_recv_cipher (e_b e)) /\ Forall event_ok (e_log e).
Definition closed e : Prop := state_of e = BRONTIDE_ACT_NONE /\ Forall event_ok (e_log e).
Definition second e : Prop := state_of e = BRONTIDE_ACT_TWO /\ nt_has_size (b_net (e_b e)) = false /\
  keyed (b_send_cipher (e_b e)) /\ keyed (b_recv_cipher (e_b e)) /\ Forall event_ok (e_log e) /\
  hs_initiator (b_hs (e_b e)) = true /\ (exists S, sym_at S (b_sym (e_b e))) /\
  ec_seckey_verify (hs_local_static (b_hs (e_b e))) = true /\ ec_seckey_verify (hs_local_ephemeral (b_hs (e_b e))) = true.
Definition client_inv e (c : list Z) (n : nat) : Prop :=
  (second e /\ n = 80%nat) \/ (open e false /\ n = 20%nat) \/ (open e true /\ exists k, n = (k + 16)%nat /\ Z.of_nat k <= BRONTIDE_MAX_MESSAGE).
(** [c] was consumed of [K] bytes that come. *)
Definition client_at (K : Z) e (c : list Z) (n : nat) : Prop := (client_inv e c n /\ Z.of_nat (length c) <= K) /\ J (K - Z.of_nat (length c)) (e_owner e).
Definition client_closed e : Prop := closed e /\ J 0 (e_owner e).
Definition client_err e (r : Z) : Prop := client_code write_result r /\ Forall event_ok (e_log e) /\ J 0 (e_owner e).

Lemma open_or_closed_send e has data : open e has \/ closed e -> bytes data ->
  exists e' r, write (note e (Sent (state_of e) data)) data = Ret (e', r) /\ (open e' has \/ closed e') /\
  client_code write_result r /\ (r <> HSK_SUCCESS -> state_of e' = BRONTIDE_ACT_NONE) /\ (forall buf n, buffer_at e buf n -> buffer_at e' buf n).
Proof.
  intros Hq Hd. set (e0 := note e _). assert (Hbuf : forall buf n, buffer_at e buf n -> buffer_at e0 buf n) by done. assert (Hq0 : open e0 has \/ closed e0).
  { destruct Hq as [(Hs & Hh & Hse & Hre & Hl)|[Hs Hl]]; [left|right]; split_and!; try done; (apply Forall_app; split; [done|by repeat constructor]). }
  clearbody e0. destruct Hq0 as [(Hs & Hh & (ts & Hts & Hcs) & Hre & Hl)|[Hs Hl]].
  - destruct (write_at h garbage addr Hg write_result ts e0 data Hs Hts Hcs Hd) as (cs & out & w & t' & Ht' & Hcs' & [(i & Hi & ->)|(-> & -> & ->)]); eexists _, _; (split; [reflexivity|]).
    + split; [by right|]. split; [right; by exists i|]. by split.
    + split; [left; split_and!; try done; by eapply keyed_at|]. split; [left; by left|]. by split.
  - rewrite write_closed by (rewrite Hs; done). eexists _, _. split; [reflexivity|]. split; [right; by split|]. split; [left; by left|]. by split.
Qed.
Lemma callback_keeps e has post p : prog_ok bytes True post p -> open e has ->
  exists e', run_prog h garbage addr write_result p e = Ret e' /\ (open e' has \/ closed e') /\ post (e_owner e').
Proof.
  intros Hp Ho. apply (run_prog_keeps h garbage addr write_result (fun e => open e has \/ closed e) bytes True); [| | |done|by left].
  - intros e0 data Hq Hd. destruct (open_or_closed_send e0 has data Hq Hd) as (e' & r & E & Hq' & _). eauto.
  - intros e0 _ [(Hs & Hh & Hse & Hre & Hl)|[Hs Hl]]; by right.
  - intros e0 a [Hq|Hq]; [by left|by right].
Qed.
(** The end of a step, whatever the callback did. *)
Lemma open_step K e n c : open e false \/ closed e -> J (K - Z.of_nat (length c)) (e_owner e) -> Z.of_nat (length c) <= K -> n = 20%nat ->
  if state_of e =? BRONTIDE_ACT_NONE then client_closed e else client_at K e c n /\ n <> 0%nat.
Proof.
  intros [Ho|Hc] HJ HK ->.
  - destruct Ho as (Hs & Ho). rewrite Hs. cbn [BRONTIDE_ACT_DONE BRONTIDE_ACT_NONE Z.eqb Pos.eqb]. split; [|done]. split; [|done]. split; [|done]. right. left. split; [by split|done].
  - destruct Hc as (Hs & Hc). rewrite Hs. split; [by split|]. eapply Jless; [exact HJ|lia].
Qed.

(** The answer to the first act. *)
Lemma parse_second K e c data : second e -> J (K - Z.of_nat (length c)) (e_owner e) -> Z.of_nat (length (c ++ data)) <= K ->
  length data = 80%nat -> bytes data -> exists e' res, parse e data = Ret (e', res) /\
  match res with
  | inl r => r <> HSK_SUCCESS /\ client_err e' r
  | inr n' => if state_of e' =? BRONTIDE_ACT_NONE then client_closed e' else client_at K e' (c ++ data) n' /\ n' <> 0%nat
  end.
Proof.
  intros (Hs & Hh & (ts & Hts & Hcs) & (tr & Htr & Hcr) & Hl & Hi & (S & Hsym) & Hks & Hke) HJ HK Hdl Hdb.
  assert (HJ0 : J 0 (e_owner e)) by (eapply Jless; [exact HJ|rewrite length_app in HK; lia]).
  assert (HJ' : forall k' a, J (K - Z.of_nat (length c)) a -> k' = K - Z.of_nat (length (c ++ data)) -> J k' a).
  { intros k' a Hk ->. eapply Jless; [exact Hk|rewrite length_app in *; lia]. }
  unfold hsk_brontide_parse. rewrite Hs, Hi, Hdl. cbn [andb BRONTIDE_ACT_TWO Z.eqb Pos.eqb BRONTIDE_ACT_TWO_SIZE Nat.eqb oassert obind].
  unfold hsk_brontide_recv_act_two. destruct (hsk_ec_pubkey_from_hash data (take 33 garbage)) as [ok e33] eqn:Ee.
  assert (Heb : bytes_n 33 e33).
  { unfold hsk_ec_pubkey_from_hash in Ee. destruct (ec_pubkey_from_hash _); injection Ee as <- <-; [apply serialize_bytes|(apply garbage_take; done || lia)]. }
  assert (Herr : client_err (with_b e (e_b e)) HSK_EACTTWO) by (split; [left; cbn; tauto|by split]).
  unfold hsk_ec_verify_pubkey. rewrite (take_all 33) by apply Heb. destruct (ec_pubkey_parse e33) as [p|] eqn:Ep.
  2: { cbn [negb obind]. eexists _, _. split; [reflexivity|]. by split. }
  cbn [negb]. destruct (ecdh_verified p _ Hke) as (s & Es & Hsb). set (tag := take 16 (drop 64 data)).
  assert (Htag : bytes_n 16 tag) by (split; [unfold tag; rewrite length_take, length_drop; lia|by apply bytes_take, bytes_drop]).
  destruct (recv_act_at h garbage addr Hg (e_b e) e33 tag hs_local_ephemeral S p s Hsym Ep Heb Htag Es Hsb) as (sy1 & -> & Hsym1). cbn [obind].
  destruct (bool_decide (act_tag S e33 s = tag)).
  2: { cbn [negb]. eexists _, _. split; [reflexivity|]. by split. }
  cbn [negb]. set (b1 := with_hs (with_sym (e_b e) sy1) _). destruct (create_verified _ Hks) as (p' & Hp'). destruct (ecdh_verified p _ Hks) as (s' & Es' & Hsb').
  assert (Hp33 : ec_pubkey_parse (take 33 (hs_remote_ephemeral (b_hs b1))) = Some p) by (cbn; by rewrite (take_all 33) by apply Heb).
  destruct (gen_act_three_at h garbage addr Hg b1 _ p' p s' ts tr Hsym1 Hcs Hcr Hi Hp' Hp33 Es' Hsb') as (sy2 & cs & cr & -> & Hk).
  destruct (split_keys _) as [k1 k2]. destruct Hk as (Hk1 & Hk2 & Ht1 & Ht2). cbn [obind]. unfold write_cb. cbn [e_writes with_b].
  destruct (Z.eqb_spec (write_result (e_writes e)) 0) as [E0|E0]; cbn [negb].
  2: { eexists _, _. split; [reflexivity|]. split; [done|]. split; [right; by eexists|by split]. }
  unfold connect_cb. match goal with |- context [run_prog _ _ _ _ ?p ?e0] => destruct (callback_keeps e0 false (J (K - Z.of_nat (length c))) p) as (e1 & -> & Hq & HJ1) end.
  - by apply Hown.
  - split; [done|]. split; [done|]. split; [by exists k1|]. split; [by exists k2|]. cbn. apply Forall_app. split; [done|by repeat constructor].
  - cbn [obind]. eexists _, _. split; [reflexivity|]. apply open_step; [done|by eapply HJ'|done|done].
Qed.
Lemma client_parse K e c n data : client_at K e c n -> nt_msg_len (b_net (e_b e)) = n -> length data = n ->
  bytes (c ++ data) /\ Z.of_nat (length (c ++ data)) <= K ->
  exists e' res, parse e data = Ret (e', res) /\
  match res with
  | inl r => r <> HSK_SUCCESS /\ client_err e' r
  | inr n' => if state_of e' =? BRONTIDE_ACT_NONE then client_closed e' else client_at K e' (c ++ data) n' /\ n' <> 0%nat
  end.
Proof.
  intros [[Hi _] HJ] Hn Hl [[_ Hb]%bytes_app HK]. assert (HJ0 : J 0 (e_owner e)) by (eapply Jless; [exact HJ|rewrite length_app in HK; lia]).
  destruct Hi as [[Hs ->]|[[Ho ->]|[Ho (k & -> & Hk)]]]; [by apply parse_second| |].
  - destruct Ho as (Hs & Hh & Hse & (tr & Htr & Hcr) & Hlog).
    destruct (parse_header h garbage addr Hg random write_result tr e data Hs Hh Hn Hl Hb Htr Hcr) as (cs & Hcs & E). rewrite E. clear E.
    destruct (bool_decide (t_tag _ _ _ = _)); cbn [negb].
    2: { eexists _, _. split; [reflexivity|]. split; [done|]. split; [left; cbn; tauto|by split]. }
    destruct (Z.ltb_spec (i32 (le_combine (t_crypt tr (take 4 data)))) 0) as [Hneg|Hneg]; cbn [orb].
    { eexists _, _. split; [reflexivity|]. split; [done|]. split; [left; cbn; tauto|by split]. }
    destruct (Z.ltb_spec BRONTIDE_MAX_MESSAGE (i32 (le_combine (t_crypt tr (take 4 data))))) as [Hbig|Hbig].
    { eexists _, _. split; [reflexivity|]. split; [done|]. split; [left; cbn; tauto|by split]. }
    eexists _, _. split; [reflexivity|]. cbn. rewrite Hs. cbn [BRONTIDE_ACT_DONE BRONTIDE_ACT_NONE Z.eqb Pos.eqb]. split; [|lia].
    split; [split; [right; right; split|done]|eapply Jless; [exact HJ|rewrite length_app in *; lia]].
    + split_and!; try done. exists (t_next tr). split; [by apply t_next_ok|done].
    + eexists. split; [reflexivity|lia].
  - destruct Ho as (Hs & Hh & Hse & (tr & Htr & Hcr) & Hlog).
    destruct (parse_body h garbage addr Hg random write_result tr e data k Hs Hh Hl Hb Htr Hcr) as (cs & Hcs & E). rewrite E. clear E.
    destruct (bool_decide (t_tag _ _ _ = _)); cbn [negb].
    2: { eexists _, _. split; [reflexivity|]. split; [done|]. split; [left; cbn; tauto|by split]. }
    unfold read_cb. match goal with |- context [run_prog _ _ _ _ ?p ?e0] => destruct (callback_keeps e0 false (J (K - Z.of_nat (length c) - Z.of_nat k)) p) as (e1 & -> & Hq & HJ1) end.
    + assert (Hlen : length (t_crypt tr (take k data)) = k) by (rewrite length_t_crypt, length_take; lia).
      replace (Z.of_nat k) with (Z.of_nat (length (t_crypt tr (take k data)))) by (by rewrite Hlen). apply Hown; [done| |].
      * split; [by apply bytes_t_crypt; [|apply bytes_take]|]. rewrite Hlen. lia.
      * rewrite Hlen. rewrite length_app in HK. lia.
    + split; [done|]. split; [done|]. split; [done|]. split; [exists (t_next tr); split; [by apply t_next_ok|done]|].
      cbn. apply Forall_app. split; [done|]. constructor; [|constructor]. split; [by apply bytes_t_crypt; [|apply bytes_take]|]. rewrite length_t_crypt, length_take. lia.
    + cbn [obind]. eexists _, _. split; [reflexivity|]. apply open_step; [done| |done|done]. eapply Jless; [exact HJ1|rewrite length_app in *; lia].
Qed.
(** The bytes that wait in the buffer of the transport. *)
Definition pending e : Z := if state_of e =? BRONTIDE_ACT_NONE then 0 else Z.of_nat (nt_msg_pos (b_net (e_b e))).
Definition client_ok e : Prop := (exists total, bytes total /\ waiting client_inv e total) \/ closed e.
Lemma client_read e data : client_ok e -> bytes data -> J (pending e + Z.of_nat (length data)) (e_owner e) -> exists e' r,
  hsk_brontide_on_read h garbage addr random alloc write_result e data = Ret (e', r) /\ client_code write_result r /\
  (r <> HSK_SUCCESS -> state_of e' = BRONTIDE_ACT_NONE) /\ client_ok e' /\ J (pending e') (e_owner e').
Proof.
  intros [(total & Ht & c & n & buf & Hi & Hbuf & ->)|[Hs Hl]] Hd HJ.
  2: { exists e, HSK_SUCCESS. unfold hsk_brontide_on_read. unfold pending in *. rewrite Hs in *. cbn [BRONTIDE_ACT_NONE Z.eqb] in *. split; [done|]. split; [left; by left|]. split; [done|].
       split; [by right|]. eapply Jless; [exact HJ|lia]. }
  assert (Hne : state_of e <> BRONTIDE_ACT_NONE) by (destruct Hi as [[(-> & _) _]|[[(-> & _) _]|[(-> & _) _]]]; done).
  assert (Hpos : pending e = Z.of_nat (length buf)).
  { unfold pending. destruct (Z.eqb_spec (state_of e) BRONTIDE_ACT_NONE); [done|]. destruct Hbuf as (m & _ & _ & _ & -> & _). done. }
  rewrite Hpos in HJ. set (K := Z.of_nat (length ((c ++ buf) ++ data))).
  destruct (on_read_correct h garbage addr random alloc write_result (client_at K) client_err client_closed (fun l => bytes l /\ Z.of_nat (length l) <= K))
    with (e := e) (total := c ++ buf) (data := data) as (e' & r & E & Hpost).
  - intros e0 c0 n0 msg pos len allocs Hi0. exact Hi0.
  - intros l k [[? _]%bytes_app Hk]. rewrite length_app in Hk. split; [done|lia].
  - intros e0 c0 n0 [[[[(-> & _) _]|[[(-> & _) _]|[(-> & _) _]]] _] _]; done.
  - apply client_parse.
  - intros e0 c0 n0 [[Hi0 HK0] HJ0] Ha. split; [left; cbn; tauto|]. split; [destruct Hi0 as [[(_ & _ & _ & _ & Hl & _) _]|[[(_ & _ & _ & _ & Hl) _]|[(_ & _ & _ & _ & Hl) _]]]; exact Hl|].
    eapply Jless; [exact HJ0|lia].
  - exists c, n, buf. split; [|by split]. split; [split; [done|unfold K; rewrite !length_app; lia]|]. replace (K - Z.of_nat (length c)) with (Z.of_nat (length buf) + Z.of_nat (length data)) by (unfold K; rewrite !length_app; lia). done.
  - split; [by apply bytes_app|lia].
  - exists e', r. split; [exact E|]. destruct Hpost as [[-> Hw']|[[-> [Hq HJ']]|[Hr (e0 & -> & Hc & Hl & HJ')]]].
    + split; [left; by left|]. split; [done|]. destruct Hw' as (c' & n' & buf' & [[Hi' _] HJ'] & Hb' & Etot). split.
      * left. exists ((c ++ buf) ++ data). split; [by apply bytes_app|]. exists c', n', buf'. by split_and!.
      * replace (K - Z.of_nat (length c')) with (Z.of_nat (length buf')) in HJ' by (unfold K; rewrite Etot, length_app; lia).
        unfold pending. destruct Hb' as (m & _ & _ & _ & -> & _). destruct (_ =? _); [|done]. eapply Jless; [exact HJ'|lia].
    + split; [left; by left|]. split; [done|]. split; [by right|]. unfold pending. rewrite (proj1 Hq). exact HJ'.
    + split; [done|]. split; [done|]. split; [by right|]. exact HJ'.
Qed.
(** The first act is sent. *)
Lemma to_hash_bytes n p old : bytes_n 64 old -> exists ok u n', hsk_ec_pubkey_to_hash random n (ec_pubkey_serialize p) old = (ok, u, n') /\ bytes_n 64 u.
Proof.
  intros Ho. unfold hsk_ec_pubkey_to_hash. rewrite parse_serialized. destruct (random n) as [entropy|]; [|by eexists _, _, _].
  destruct (to_hash_found p entropy) as (u & -> & Hu & _). by eexists _, _, _.
Qed.
(** An endpoint that was connected to a key, but not to the socket yet. *)
Definition ready e : Prop := state_of e = BRONTIDE_ACT_NONE /\ nt_has_size (b_net (e_b e)) = false /\ nt_msg_pos (b_net (e_b e)) = 0%nat /\
  keyed (b_send_cipher (e_b e)) /\ keyed (b_recv_cipher (e_b e)) /\ Forall event_ok (e_log e) /\
  hs_initiator (b_hs (e_b e)) = true /\ (exists S, sym_at S (b_sym (e_b e))) /\ ec_seckey_verify (hs_local_static (b_hs (e_b e))) = true /\
  bytes_n 33 (hs_remote_static (b_hs (e_b e))) /\ is_Some (ec_pubkey_parse (hs_remote_static (b_hs (e_b e)))) /\ e_random e = 0%nat.
(** One that is not used any more. *)
Definition dead e : Prop := state_of e <> BRONTIDE_ACT_DONE /\ Forall event_ok (e_log e).
Lemma connect_ready e key pub : e_b e = hsk_brontide_init -> e_log e = [] -> e_random e = 0%nat -> bytes_n 32 key -> ec_seckey_verify key = true ->
  bytes_n 33 pub -> is_Some (ec_pubkey_parse pub) -> exists e', hsk_brontide_connect h garbage addr e key pub = Ret (e', HSK_SUCCESS) /\
  ready e' /\ e_owner e' = e_owner e /\ nt_msg (b_net (e_b e')) = None.
Proof.
  intros Eb El Er Hkey Hks Hpub Hrp. unfold hsk_brontide_connect. rewrite Eb.
  destruct (init_initiator_at h garbage addr Hg key pub Hkey Hpub) as (sy & -> & Hsym). cbn [obind]. eexists. split; [reflexivity|]. split; [|by split].
  assert (Hz : keyed hsk_cs_init) by (exists t_zero; split; [apply t_zero_ok|apply cs_init_at]).
  split; [done|]. split; [done|]. split; [done|]. split; [exact Hz|]. split; [exact Hz|]. split; [cbn; by rewrite El|]. split; [done|]. split; [by eexists|].
  split; [exact Hks|]. split; [exact Hpub|]. by split.
Qed.
Lemma ready_starts e eph n1 : ready e -> hsk_ec_create_privkey random 0 = Ret (true, eph, n1) -> exists e' r,
  hsk_brontide_on_connect h garbage addr random alloc write_result e = Ret (e', r) /\ client_code write_result r /\ e_owner e' = e_owner e /\ pending e' = 0 /\
  (if r =? HSK_SUCCESS then client_ok e' else dead e') /\
  (r <> HSK_SUCCESS -> state_of e' = BRONTIDE_ACT_NONE \/
    r = HSK_ENOMEM /\ state_of e' = BRONTIDE_ACT_TWO /\ nt_msg (b_net (e_b e')) = nt_msg (b_net (e_b e))).
Proof.
  intros (Hs & Hh & Hpos & Hse & Hre & Hl & Hi & (S & Hsym) & Hks & Hpub & (rp & Hrp) & Hr) Heph.
  assert (Hke : ec_seckey_verify eph = true).
  { destruct (create_privkey_ends random 0) as (ok & k & n' & E & Hv). rewrite Heph in E. injection E as <- <- <-. by apply Hv. }
  unfold hsk_brontide_on_connect. rewrite Hi, Hr. set (b0 := with_state _ _).
  destruct (create_verified eph Hke) as (p & Hp). destruct (to_hash_bytes n1 p (take 64 garbage)) as (ok & u & n2 & Hu & Hub); [by apply garbage_take|].
  destruct (ecdh_verified rp eph Hke) as (s & Es & Hsb).
  destruct (gen_act_at h garbage addr Hg random b0 0 hs_remote_static S eph n1 n2 p ok u rp s Hsym Heph Hp Hu Hub) as (sy1 & E & Hsym1); [|done|done|].
  { cbn. by rewrite take_all by apply Hpub. }
  unfold hsk_brontide_gen_act_one. rewrite E. clear E. cbn [obind]. unfold write_cb. cbn [e_writes with_b with_random].
  destruct (Z.eqb_spec (write_result (e_writes e)) HSK_SUCCESS) as [E0|E0]; cbn [negb].
  2: { cbn [obind]. rewrite (proj2 (Z.eqb_neq (write_result (e_writes e)) HSK_SUCCESS) E0). cbn [negb]. eexists _, _. split; [reflexivity|].
       split; [right; by eexists|]. split; [done|]. split; [done|]. split; [rewrite (proj2 (Z.eqb_neq _ _) E0); by split|]. intros _. by left. }
  rewrite E0. cbn [obind negb Z.eqb HSK_SUCCESS]. unfold realloc_msg. cbn [with_b with_random e_allocs]. destruct (alloc (e_allocs e)) as [fresh|].
  2: { eexists _, _. split; [reflexivity|]. split; [left; cbn; tauto|]. split; [done|]. split; [unfold pending; cbn; by rewrite Hpos|]. split; [by split|]. intros _. by right. }
  eexists _, _. split; [reflexivity|]. split; [left; by left|]. split; [done|]. split; [done|]. split; [|done]. left. exists []. split; [apply bytes_nil|]. exists [], 80%nat, []. split.
  - left. split; [|done]. split; [done|]. split; [done|]. split; [exact Hse|]. split; [exact Hre|]. split; [exact Hl|]. split; [exact Hi|]. split; [by eexists|]. by split.
  - split; [|done]. eexists. split; [reflexivity|]. cbn [with_b e_b with_net b_net nt_msg_len nt_msg_pos length].
    split_and!; try done; (lia || (unfold BRONTIDE_ACT_TWO_SIZE; rewrite length_app, length_take, length_map, length_seq; lia)).
Qed.
Lemma client_ok_send e data : client_ok e -> bytes data -> exists e' r,
  write (note e (Sent (state_of e) data)) data = Ret (e', r) /\ client_code write_result r /\ (r <> HSK_SUCCESS -> state_of e' = BRONTIDE_ACT_NONE) /\
  client_ok e' /\ pending e' <= pending e.
Proof.
  intros [(total & Ht & c & n & buf & Hi & Hb & ->)|Hc] Hd.
  2: { exists (note e (Sent (state_of e) data)), HSK_SUCCESS. rewrite write_closed by (cbn; by rewrite (proj1 Hc)). split; [done|]. split; [left; by left|]. split; [done|].
       split; [|done]. right. split; [exact (proj1 Hc)|]. cbn. apply Forall_app. split; [exact (proj2 Hc)|by repeat constructor]. }
  destruct Hi as [[Hs ->]|Ho].
  - destruct Hs as (Hs & Hh & Hse & Hre & Hl & Hrest). rewrite write_closed by (cbn; by rewrite Hs). eexists _, _. split; [reflexivity|]. split; [left; by left|]. split; [done|].
    split; [|done]. left. exists (c ++ buf). split; [done|]. exists c, 80%nat, buf. split; [|by split]. left. split; [|done]. split_and!; try done; try apply Hrest.
    cbn. apply Forall_app. split; [done|by repeat constructor].
  - assert (exists has, open e has) as [has Hopen] by (destruct Ho as [[Ho _]|[Ho _]]; eauto).
    destruct (open_or_closed_send e has data (or_introl Hopen) Hd) as (e' & r & E & Hq & Hr & Hn & Hbuf). exists e', r. split; [exact E|]. split; [done|]. split; [done|].
    assert (Hbuf' := Hbuf buf n Hb). split.
    + destruct Hq as [Ho'|Hc]; [|by right]. left. exists (c ++ buf). split; [done|]. exists c, n, buf. split; [|by split]. right.
      assert (Hhas := proj1 (proj2 Hopen)). destruct Ho as [[(_ & Hh & _) ->]|[(_ & Hh & _) Hk]]; rewrite Hh in Hhas; subst has; [by left|by right].
    + unfold pending. rewrite (proj1 Hopen). destruct Hb as (m & _ & _ & _ & -> & _), Hbuf' as (m' & _ & _ & _ & -> & _).
      cbn [BRONTIDE_ACT_DONE BRONTIDE_ACT_NONE Z.eqb]. destruct (_ =? _); lia.
Qed.
Lemma client_ok_log e : client_ok e -> Forall event_ok (e_log e).
Proof.
  intros [(total & _ & c & n & buf & Hi & _)|[_ Hl]]; [|done].
  destruct Hi as [[(_ & _ & _ & _ & Hl & _) _]|[[(_ & _ & _ & _ & Hl) _]|[(_ & _ & _ & _ & Hl) _]]]; exact Hl.
Qed.
Lemma client_ok_destroy e : client_ok e -> client_ok (destroy e).
Proof. intros Hok. right. split; [done|exact (client_ok_log e Hok)]. Qed.
(** A program on an endpoint in any of its states. *)
Definition calm e : Prop := ready e \/ client_ok e \/ dead e.
Lemma calm_prog e post p : prog_ok bytes True post p -> calm e -> exists e', run_prog h garbage addr write_result p e = Ret e' /\
  post (e_owner e') /\ pending e' <= pending e /\ (ready e -> ready e') /\ (client_ok e -> client_ok e') /\ (dead e -> dead e').
Proof.
  intros Hp Hc. pose (Q := fun e' => calm e' /\ pending e' <= pending e /\ (ready e -> ready e') /\ (client_ok e -> client_ok e') /\ (dead e -> dead e')).
  destruct (run_prog_keeps h garbage addr write_result Q bytes True post p) with (e := e) as (e' & E & HQ & Hpost); [| | |exact Hp| |].
  - intros e0 data (Hc0 & Hle & Hr & Ho & Hd) Hdata.
    destruct (decide (state_of e0 = BRONTIDE_ACT_DONE)) as [Hs|Hs].
    + assert (Hok : client_ok e0) by (destruct Hc0 as [(Hn & _)|[Hok|[Hn _]]]; [rewrite Hs in Hn; done|done|done]).
      destruct (client_ok_send e0 data Hok Hdata) as (e1 & r & E1 & _ & _ & Hok1 & Hle1). exists e1, r. split; [exact E1|].
      split; [by right; left|]. split; [lia|]. split; [intros Hre; destruct (Hr Hre) as [Hn _]; rewrite Hs in Hn; done|]. split; [done|].
      intros Hde. by destruct (Hd Hde).
    + eexists _, _. split; [by apply write_closed|]. assert (Hlog : forall P, Forall event_ok (e_log e0) -> P -> Forall event_ok (e_log e0 ++ [Sent (state_of e0) data]) /\ P).
      { intros P0 Hl HP. split; [|done]. apply Forall_app. split; [done|by repeat constructor]. }
      set (e1 := note e0 _).
      assert (Hr1 : ready e0 -> ready e1) by (intros (X1 & X2 & X3 & X4 & X5 & Hl & Hx); split_and!; try apply Hx; try done; by eapply Hlog).
      assert (Hd1 : dead e0 -> dead e1) by (intros [X1 Hl]; split; [done|by eapply Hlog]).
      assert (Ho1 : client_ok e0 -> client_ok e1).
      { intros Hok. destruct (client_ok_send e0 data Hok Hdata) as (e2 & r & E2 & _ & _ & Hok2 & _). rewrite write_closed in E2 by done. by injection E2 as <- _. }
      split; [destruct Hc0 as [?|[?|?]]; [left|right; left|right; right]; auto|]. split; [exact Hle|]. by split_and!; auto.
  - intros e0 _ (Hc0 & Hle & Hr & Ho & Hd). assert (Hr' : ready e0 -> ready (destroy e0)) by (intros (Hn & Hx); by split).
    assert (Hd' : dead e0 -> dead (destroy e0)) by (intros [_ Hl]; by split). assert (Ho' := client_ok_destroy e0).
    split; [destruct Hc0 as [?|[?|?]]; [left|right; left|right; right]; auto|]. split; [|by split_and!; auto].
    unfold pending in *. cbn. destruct (_ =? _) in Hle; lia.
  - intros e0 a HQ0. exact HQ0.
  - split; [done|]. split; [lia|]. by split_and!.
  - exists e'. split; [done|]. split; [done|]. apply HQ.
Qed.
End Safe.

Section Run.
Context (h : endian) (garbage : list Z) (addr : nat -> Z) (Hg : bytes_n 64 garbage).
Context {P : Type} `{Secp256k1Laws P} (random : nat -> option (list Z)).
Context {A : Type} `{Owner A} (alloc : nat -> option (nat -> Z)) (write_result : nat -> Z) (Hown : owner_ok A bytes True).
Implicit Types (e : endpoint A).
Abbreviation state_of e := (nt_state (b_net (e_b e))).
Lemma endpoint_act_safe e a : client_ok e -> action_bytes a -> exists e' r,
  endpoint_act h garbage addr random alloc write_result e a = Ret (e', r) /\ client_code write_result r /\
  (r <> HSK_SUCCESS -> state_of e' = BRONTIDE_ACT_NONE) /\ client_ok e'.
Proof.
  intros Hok Ha. destruct a as [data|data|]; cbn [endpoint_act action_bytes] in *.
  - destruct (client_read h garbage addr Hg random alloc write_result (fun _ _ => True) (fun _ _ _ _ _ => I) Hown e data Hok Ha I) as (e' & r & E & Hr & Hn & Hok' & _). exists e', r. by split_and!.
  - destruct (client_ok_send h garbage addr Hg random alloc write_result e data Hok Ha) as (e' & r & E & Hr & Hn & Hok' & _). exists e', r. by split_and!.
  - exists (destroy e), HSK_SUCCESS. split; [done|]. split; [left; by left|]. split; [done|]. by apply client_ok_destroy.
Qed.
Lemma client_run_safe acts : forall e, client_ok e -> Forall action_bytes acts -> exists e' rs,
  client_run h garbage addr random alloc write_result acts e = Ret (e', rs) /\ client_ok e' /\ length rs = length acts /\
  Forall (fun '(r, state) => client_code write_result r /\ (r <> HSK_SUCCESS -> state = BRONTIDE_ACT_NONE)) rs.
Proof.
  induction acts as [|a acts IH]; intros e Hok Hacts; cbn [client_run]; [exists e, []; by split_and!|].
  apply Forall_cons in Hacts as [Ha Hacts]. destruct (endpoint_act_safe e a Hok Ha) as (e1 & r & -> & Hr & Hn & Hok1). cbn [obind].
  destruct (IH e1 Hok1 Hacts) as (e2 & rs & -> & Hok2 & Hl & Hrs). cbn [obind]. eexists _, _. split; [reflexivity|]. split; [done|].
  split; [cbn; by rewrite Hl|]. by constructor.
Qed.
(** What the calls of a run give. *)
Definition safe_run acts e : Prop := exists e' rs, client_run h garbage addr random alloc write_result acts e = Ret (e', rs) /\
  length rs = length acts /\ Forall event_ok (e_log e') /\
  Forall (fun '(r, state) => client_code write_result r /\ (r <> HSK_SUCCESS -> state = BRONTIDE_ACT_NONE)) rs.
Lemma client_ok_safe acts e : client_ok e -> Forall action_bytes acts -> safe_run acts e.
Proof.
  intros Hok Hacts. destruct (client_run_safe acts e Hok Hacts) as (e' & rs & E & Hok' & Hl & Hrs). exists e', rs.
  split; [done|]. split; [done|]. split; [by apply client_ok_log|done].
Qed.
Lemma dead_closes acts e : dead e -> Forall action_bytes acts -> safe_run (Close :: acts) e.
Proof.
  intros [_ Hl] Hacts. assert (Hok : client_ok (destroy e)) by (right; by split).
  destruct (client_run_safe acts _ Hok Hacts) as (e' & rs & E & Hok' & Hn & Hrs). eexists e', (_ :: rs).
  unfold safe_run. cbn [client_run endpoint_act obind]. rewrite E. cbn [obind]. split; [reflexivity|]. split; [cbn; by rewrite Hn|].
  split; [by apply client_ok_log|]. constructor; [|done]. split; [left; by left|done].
Qed.
End Run.

(** C6: No peer can stop the process of the connecting end. [hsk_brontide_connect] and [hsk_brontide_on_connect], with a
    private and a public key that are valid, return when a key for the session is made; without random bytes for one an assertion
    fails. Then, whatever bytes the socket gives, cut in any way, whatever allocations and writes fail, and
    whatever the owner writes or closes, in callbacks or between reads, every call returns: no assertion fails, no buffer is
    overrun and every loop ends. A call returns success, a failed second act, a bad tag, a bad size, no memory, or what
    [write_cb] returned; after an error the transport is closed; and each payload that the owner was given has at most
    [BRONTIDE_MAX_MESSAGE] bytes. There is one exception: when there is no memory for the first buffer, [hsk_brontide_on_connect] says so
    but leaves the transport open, and a read fails an assertion, unless the owner closes the transport first. *)
Theorem brontide_client_safe (h : endian) (garbage : list Z) (addr : nat -> Z) {P : Type} `{Secp256k1Laws P} {A : Type} `{Owner A}
    (random : nat -> option (list Z)) (alloc : nat -> option (nat -> Z)) (write_result : nat -> Z) (a : A) (key pub : list Z) (acts : list action) :
  bytes_n 64 garbage -> owner_ok A bytes True -> bytes_n 32 key -> ec_seckey_verify key = true ->
  bytes_n 33 pub -> hsk_ec_verify_pubkey pub = true -> Forall action_bytes acts ->
  exists ok eph n, hsk_ec_create_privkey random 0 = Ret (ok, eph, n) /\
  if ok : bool then exists e r, client_start h garbage addr random alloc write_result a key pub = Ret (e, r) /\ client_code write_result r /\
    (if decide (r = HSK_SUCCESS \/ nt_state (b_net (e_b e)) = BRONTIDE_ACT_NONE) then safe_run h garbage addr random alloc write_result acts e
     else r = HSK_ENOMEM /\ (forall data, hsk_brontide_on_read h garbage addr random alloc write_result e data = Fault AssertFail) /\
       safe_run h garbage addr random alloc write_result (Close :: acts) e)
  else client_start h garbage addr random alloc write_result a key pub = Fault AssertFail.
Proof.
  intros Hg Hown Hkey Hks Hpub Hvp Hacts. unfold hsk_ec_verify_pubkey in Hvp. rewrite take_all in Hvp by apply Hpub.
  destruct (ec_pubkey_parse pub) as [rp|] eqn:Hrp; [|done].
  set (e0 := mk_endpoint hsk_brontide_init a [] [] 0 0 0). unfold client_start. fold e0.
  destruct (connect_ready h garbage addr Hg e0 key pub) as (e1 & -> & Hready & _ & Hmsg); [done|done|done|done|done|done|by rewrite Hrp|]. cbn [obind].
  destruct (create_privkey_ends random 0) as (ok & eph & n & Heph & _). exists ok, eph, n. split; [done|]. destruct ok.
  2: { destruct Hready as (_ & _ & _ & _ & _ & _ & Hi & _ & _ & _ & _ & Hr). unfold hsk_brontide_on_connect, hsk_brontide_gen_act_one, gen_act.
       by rewrite Hi, Hr, Heph. }
  destruct (ready_starts h garbage addr Hg random alloc write_result e1 eph n Hready Heph) as (e & r & E & Hr & _ & _ & Hw & Hf).
  exists e, r. split; [exact E|]. split; [done|]. destruct (Z.eqb_spec r HSK_SUCCESS) as [Er|Er]; case_decide as Hd.
  - by apply client_ok_safe.
  - destruct Hd. by left.
  - apply client_ok_safe; [done|done|done| |done]. right. destruct Hd as [|Hd]; [done|]. split; [exact Hd|apply Hw].
  - destruct (Hf Er) as [Hn|(-> & Hs & Hm)]; [destruct Hd; by right|]. split; [done|]. split; [|by apply dead_closes].
    intros data. unfold hsk_brontide_on_read. rewrite Hs, Hm, Hmsg. done.
Qed.

(** An owner that greets and keeps what it gets. *)
#[export] Instance sample_owner : Owner (list (list Z)) := {
  owner_connect a := Send [1; 2; 3] (fun _ => Stop a);
  owner_read a m := Stop (m :: a);
}.
Lemma sample_owner_ok closes : owner_ok (list (list Z)) message_ok closes.
Proof.
  intros k a _. split; [|done]. split; [|done]. apply (bool_decide_unpack _). vm_compute. exact I.
Qed.
(** The eleventh answer of the socket is an error, and the peer sends junk. Without memory the first call says so. *)
Lemma brontide_client_safe_witness :
  let random := fun n => Some (replicate 32 (1 + Z.of_nat (Nat.min n 100))) in
  let write_result := fun n => if (n =? 10)%nat then HSK_EFAILURE else HSK_SUCCESS in
  let start := fun random alloc => client_start Big (replicate 64 7) (fun i => 64 * Z.of_nat i) random alloc write_result [] (replicate 32 5) (toy_point true) in
  let acts := [Read (replicate 50 3); Write [1]; Read (replicate 50 3); Close; Read []] in
  (exists e, start random (fun _ => Some (fun _ => 9)) = Ret (e, HSK_SUCCESS) /\
    safe_run Big (replicate 64 7) (fun i => 64 * Z.of_nat i) random (fun _ => Some (fun _ => 9)) write_result acts e) /\
  (exists e, start random (fun _ => None) = Ret (e, HSK_ENOMEM) /\
    hsk_brontide_on_read Big (replicate 64 7) (fun i => 64 * Z.of_nat i) random (fun _ => None) write_result e [1] = Fault AssertFail) /\
  start (fun _ => None) (fun _ => None) = Fault AssertFail.
Proof.
  intros random write_result start acts.
  assert (Hg : bytes_n 64 (replicate 64 7)) by (split; [reflexivity|by apply bytes_replicate]).
  assert (Hown : owner_ok (list (list Z)) bytes True).
  { intros k x _. destruct (sample_owner_ok True k x I) as [Hc _]. split; [|done]. split; [apply Hc|done]. }
  assert (Hkey : bytes_n 32 (replicate 32 5)) by (split; [reflexivity|by apply bytes_replicate]).
  assert (Hpub : bytes_n 33 (toy_point true)) by (split; [reflexivity|]; apply (bool_decide_unpack _); vm_compute; exact I).
  assert (Hacts : Forall action_bytes acts) by (apply (bool_decide_unpack _); vm_compute; exact I).
  assert (Hk : hsk_ec_create_privkey random 0 = Ret (true, replicate 32 1, 1%nat)) by (vm_compute; reflexivity).
  assert (Hn : hsk_ec_create_privkey (P := bool) (fun _ => None) 0 = Ret (false, replicate 32 0, 1%nat)) by (vm_compute; reflexivity).
  pose (T := fun random alloc => brontide_client_safe Big (replicate 64 7) (fun i => 64 * Z.of_nat i) random alloc write_result [] (replicate 32 5)
    (toy_point true) acts Hg Hown Hkey eq_refl Hpub eq_refl Hacts).
  split; [|split].
  - destruct (T random (fun _ => Some (fun _ => 9))) as (ok & eph & n & E & Hr). rewrite Hk in E. injection E as <- <- <-.
    destruct Hr as (e & r & Es & _ & Hrun). fold (start random (fun _ => Some (fun _ : nat => 9))) in Es.
    assert (Er : (let* (_, r) := start random (fun _ => Some (fun _ => 9)) in Ret r) = Ret HSK_SUCCESS) by (vm_compute; reflexivity).
    rewrite Es in Er. injection Er as ->. exists e. split; [exact Es|]. case_decide as Hd; [exact Hrun|]. destruct Hd. by left.
  - destruct (T random (fun _ => None)) as (ok & eph & n & E & Hr). rewrite Hk in E. injection E as <- <- <-.
    destruct Hr as (e & r & Es & _ & Hrun). fold (start random (fun _ => None)) in Es.
    assert (Er : (let* (e, r) := start random (fun _ => None) in Ret (r, nt_state (b_net (e_b e)))) = Ret (HSK_ENOMEM, BRONTIDE_ACT_TWO)) by (vm_compute; reflexivity).
    rewrite Es in Er. cbn [obind] in Er. remember (nt_state (b_net (e_b e))) as st eqn:Est. injection Er as -> ->. exists e. split; [exact Es|].
    case_decide as Hd; [by destruct Hd|]. apply Hrun.
  - destruct (T (fun _ => None) (fun _ => None)) as (ok & eph & n & E & Hr). rewrite Hn in E. injection E as <- <- <-. exact Hr.
Defined.
