(* ===== verification/BrontideSession.v ===== *)
(** One end of an encrypted session after the handshake: the wire as a stream of frames, in both
    directions, and the invariant of the reader against the stream of the peer. *)

From S2P Require Import Prelude Bio Blake2b Hkdf Chacha20 Aead Ec Brontide BrontideSpec BrontideLoop BrontideFrame.

(** What was written while the transport was open, and the payloads given to the owner. *)
Definition accepted_of (ev : event) : list (list Z) :=
  match ev with Sent state data => if state =? BRONTIDE_ACT_DONE then [data] else [] | _ => [] end.
Definition received_of (ev : event) : list (list Z) := match ev with Received p => [p] | _ => [] end.
Definition accepted (log : list event) : list (list Z) := concat (List.map accepted_of log).
Definition received (log : list event) : list (list Z) := concat (List.map received_of log).
Lemma accepted_app a b : accepted (a ++ b) = accepted a ++ accepted b.
Proof. unfold accepted. by rewrite map_app, concat_app. Qed.
Lemma received_app a b : received (a ++ b) = received a ++ received b.
Proof. unfold received. by rewrite map_app, concat_app. Qed.

Lemma prefix_same (d f : list Z) k : d `prefix_of` f ++ k -> length d = length f -> d = f.
Proof. intros [k' E] Hl. by apply app_inj_1 in E as [-> _]. Qed.
Lemma prefix_whole (d f : list Z) k : d `prefix_of` f ++ k -> (length f <= length d)%nat -> exists d', d = f ++ d' /\ d' `prefix_of` k.
Proof.
  intros [k' E] Hl. exists (drop (length f) d). assert (Ef : take (length f) d = f).
  { rewrite <-(take_app_le d k') by done. rewrite <-E. by apply take_app_length'. }
  split; [by rewrite <-Ef at 1; rewrite take_drop|]. exists k'. apply (app_inv_head f). rewrite (assoc_L (++)). rewrite <-Ef at 2. by rewrite take_drop.
Qed.
Lemma length_of_size m : message_ok m -> i32 (le_combine (le_split 4 (Z.of_nat (length m)))) = Z.of_nat (length m).
Proof.
  intros [_ Hm]. unfold BRONTIDE_MAX_MESSAGE, HSK_MAX_MESSAGE in Hm. rewrite le_combine_split, Z.mod_small by lia.
  unfold i32, swrap. rewrite Z.mod_small by lia. lia.
Qed.

Section Side.
Context (h : endian) (garbage : list Z) (addr : nat -> Z) (Hg : bytes_n 64 garbage).
Context {P : Type} `{Secp256k1 P} (random : nat -> option (list Z)).
Context {A : Type} `{Owner A} (Hown : owner_ok A message_ok False).
Implicit Types (e : endpoint A).
Abbreviation write := (hsk_brontide_write h garbage addr (fun _ => HSK_SUCCESS)).
Abbreviation parse := (hsk_brontide_parse h garbage addr random (fun _ => HSK_SUCCESS)).
Abbreviation state_of e := (nt_state (b_net (e_b e))).
Abbreviation got e := (received (e_log e)).
Abbreviation acc e := (accepted (e_log e)).

(** [e] goes on from [e0]. *)
Definition extends (e0 e : endpoint A) : Prop := acc e0 `prefix_of` acc e /\ e_out e0 `prefix_of` e_out e.
Lemma extends_refl e : extends e e.
Proof. by split. Qed.

(** The keys of the directions, and what was read and written before the first frame. *)
Context (tin tout : transport) (pre_in pre_out : list Z) (Hin : t_ok tin) (Hout : t_ok tout).
Definition open_at (e0 : endpoint A) (has : bool) (t : transport) (payloads : list (list Z)) e : Prop :=
  state_of e = BRONTIDE_ACT_DONE /\ nt_has_size (b_net (e_b e)) = has /\ cs_at t (b_recv_cipher (e_b e)) /\ got e = payloads /\
  e_out e = pre_out ++ stream tout (acc e) /\ cs_at (t_after tout (length (acc e))) (b_send_cipher (e_b e)) /\ Forall message_ok (acc e) /\ extends e0 e.

Lemma open_send e0 has t payloads e data : open_at e0 has t payloads e -> message_ok data -> exists e' r,
  write (note e (Sent (state_of e) data)) data = Ret (e', r) /\ open_at e0 has t payloads e' /\
  r = HSK_SUCCESS /\ (forall buf n, buffer_at e buf n -> buffer_at e' buf n).
Proof.
  intros (Hs & Hh & Hr & Hp & Ho & Hcs & Hm & Hx1 & Hx2) Hd. rewrite Hs. set (e1 := note e (Sent BRONTIDE_ACT_DONE data)).
  destruct (write_at h garbage addr Hg (fun _ => HSK_SUCCESS) _ e1 data Hs (t_after_ok tout (length (acc e)) Hout) Hcs (proj1 Hd))
    as (cs & out & w & t' & Ht' & Hcs' & [(i & Hi & _)|(-> & -> & E)]); [done|]. eexists _, _. split; [exact E|].
  assert (Ea : acc (written e1 cs (e_out e1 ++ frame (t_after tout (length (acc e))) data) w) = acc e ++ [data]).
  { cbn [written e_log e1 note]. by rewrite accepted_app. }
  split; [|by split]. unfold open_at, extends. rewrite Ea. split_and!; try done.
  - cbn [written e_log e1 note]. rewrite received_app. cbn. by rewrite app_nil_r.
  - cbn [written e_out e1 note]. by rewrite Ho, stream_snoc, <-(assoc_L (++)).
  - cbn [written e_b with_send_cipher b_send_cipher]. rewrite length_app, Nat.add_1_r. exact Hcs'.
  - apply Forall_app. split; [done|by constructor].
  - by apply prefix_app_r.
  - by apply prefix_app_r.
Qed.
Lemma open_callback e0 has t payloads p e : prog_ok message_ok False (fun _ => True) p -> open_at e0 has t payloads e -> exists e',
  run_prog h garbage addr (fun _ => HSK_SUCCESS) p e = Ret e' /\ open_at e0 has t payloads e'.
Proof.
  intros Hp Ho. destruct (run_prog_keeps h garbage addr (fun _ => HSK_SUCCESS) (open_at e0 has t payloads) message_ok False (fun _ => True) p) with (e := e) as (e' & E & Ho' & _); [| | |done|done|by exists e'].
  - intros e1 data Ho1 Hd. destruct (open_send _ _ _ _ _ _ Ho1 Hd) as (e' & r & E & Ho' & _). eauto.
  - done.
  - intros e1 a Ho1. exact Ho1.
Qed.

(** * The reader *)

(** [msgs] is all that the peer has sent. *)
Context (msgs : list (list Z)) (Hmsgs : Forall message_ok msgs).
Definition between e0 e (c : list Z) (n : nat) : Prop := exists payloads rest, msgs = payloads ++ rest /\
  open_at e0 false (t_after tin (length payloads)) payloads e /\ n = 20%nat /\ c = pre_in ++ stream tin payloads.
Definition inside e0 e (c : list Z) (n : nat) : Prop := exists payloads m rest, msgs = payloads ++ m :: rest /\
  open_at e0 true (t_next (t_after tin (length payloads))) payloads e /\ n = (length m + 16)%nat /\
  c = pre_in ++ stream tin payloads ++ header (t_after tin (length payloads)) (length m).

Lemma rest_prefix payloads rest x data : msgs = payloads ++ rest -> (pre_in ++ stream tin payloads ++ x) ++ data `prefix_of` pre_in ++ stream tin msgs ->
  x ++ data `prefix_of` stream (t_after tin (length payloads)) rest.
Proof.
  intros ->. rewrite stream_app, <-!(assoc_L (++)). intros Hp. do 2 apply prefix_app_inv in Hp. exact Hp.
Qed.
Lemma between_parse e0 e c n data : between e0 e c n -> nt_msg_len (b_net (e_b e)) = n -> length data = n ->
  c ++ data `prefix_of` pre_in ++ stream tin msgs -> exists e' n', parse e data = Ret (e', inr n') /\ state_of e' = BRONTIDE_ACT_DONE /\
  inside e0 e' (c ++ data) n' /\ n' <> 0%nat.
Proof.
  intros (payloads & rest & Em & (Hs & Hh & Hr & Hrest) & -> & ->) Hn Hl Hp. set (t := t_after tin (length payloads)) in *.
  assert (Ht : t_ok t) by (by apply t_after_ok).
  assert (Hp' : [] ++ data `prefix_of` stream t rest) by (apply (rest_prefix payloads rest [] data Em); by rewrite app_nil_r).
  cbn [app] in Hp'. destruct rest as [|m rest]; [by apply prefix_nil_inv in Hp'; subst data|]. cbn [stream] in Hp'. unfold frame in Hp'. rewrite <-(assoc_L (++)) in Hp'.
  apply prefix_same in Hp'; [|by rewrite length_frame_header]. subst data. assert (Hm : message_ok m).
  { rewrite Em in Hmsgs. apply Forall_app in Hmsgs as [_ Hmsgs]. by apply Forall_cons in Hmsgs as [? _]. }
  assert (Hct : length (t_crypt t (le_split 4 (Z.of_nat (length m)))) = 4%nat) by by rewrite length_t_crypt, length_le_split.
  destruct (parse_header h garbage addr Hg random (fun _ => HSK_SUCCESS) t e (header t (length m)) Hs Hh Hn Hl) as (cs & Hcs & E); [by apply bytes_sealed; [|apply bytes_le_split]|done|done|].
  assert (Et4 : take 4 (header t (length m)) = t_crypt t (le_split 4 (Z.of_nat (length m)))) by (by apply take_app_length').
  assert (Ed4 : drop 4 (header t (length m)) = t_tag t [] (t_crypt t (le_split 4 (Z.of_nat (length m))))) by (by apply drop_app_length').
  rewrite E, Et4, Ed4. clear E. rewrite bool_decide_eq_true_2, t_crypt_twice, length_of_size by done. cbn [negb].
  destruct (Z.ltb_spec (Z.of_nat (length m)) 0); [lia|]. destruct (Z.ltb_spec BRONTIDE_MAX_MESSAGE (Z.of_nat (length m))); [destruct Hm; lia|]. cbn [orb].
  eexists _, _. split; [reflexivity|]. split; [done|]. rewrite Nat2Z.id. split; [|lia]. exists payloads, m, rest. fold t. split; [done|]. split; [by split|].
  split; [done|]. by rewrite <-(assoc_L (++)).
Qed.
Lemma inside_parse e0 e c n data : inside e0 e c n -> nt_msg_len (b_net (e_b e)) = n -> length data = n ->
  c ++ data `prefix_of` pre_in ++ stream tin msgs -> exists e' n', parse e data = Ret (e', inr n') /\ state_of e' = BRONTIDE_ACT_DONE /\
  between e0 e' (c ++ data) n' /\ n' <> 0%nat.
Proof.
  intros (payloads & m & rest & Em & (Hs & Hh & Hr & Hgot & Hrest) & -> & ->) Hn Hl Hp. set (t := t_after tin (length payloads)) in *.
  assert (Ht : t_ok t) by (by apply t_after_ok). assert (Ht' := t_next_ok t Ht).
  apply (rest_prefix _ _ _ _ Em) in Hp. cbn [stream] in Hp. fold t in Hp. unfold frame in Hp. rewrite <-!(assoc_L (++)) in Hp. apply prefix_app_inv in Hp.
  apply prefix_same in Hp; [|by rewrite length_sealed]. subst data. assert (Hm : message_ok m).
  { rewrite Em in Hmsgs. apply Forall_app in Hmsgs as [_ Hmsgs]. by apply Forall_cons in Hmsgs as [? _]. }
  destruct (parse_body h garbage addr Hg random (fun _ => HSK_SUCCESS) (t_next t) e (sealed (t_next t) m) (length m) Hs Hh Hl) as (cs & Hcs & E); [apply bytes_sealed; [done|apply Hm]|done|done|].
  assert (Etm : take (length m) (sealed (t_next t) m) = t_crypt (t_next t) m) by (by apply take_app_length'; rewrite length_t_crypt).
  assert (Edm : drop (length m) (sealed (t_next t) m) = t_tag (t_next t) [] (t_crypt (t_next t) m)) by (by apply drop_app_length'; rewrite length_t_crypt).
  rewrite E, Etm, Edm. clear E. rewrite bool_decide_eq_true_2, t_crypt_twice by done. cbn [negb]. unfold read_cb.
  match goal with |- context [run_prog _ _ _ _ ?p ?e1] => destruct (open_callback e0 false (t_after tin (length (payloads ++ [m]))) (payloads ++ [m]) p e1) as (e' & -> & Ho) end.
  - by apply owner_read_ok.
  - split; [done|]. split; [done|]. split; [by rewrite length_app, Nat.add_1_r|]. cbn [note e_log with_b with_has_size decrypted e_out e_b].
    unfold extends in *. cbn [note e_log with_b with_has_size decrypted e_out e_b]. rewrite received_app, accepted_app, Hgot. cbn [accepted received List.map accepted_of received_of concat app].
    rewrite !app_nil_r. split; [done|]. exact Hrest.
  - cbn [obind]. eexists _, _. split; [reflexivity|]. split; [apply Ho|]. split; [|done]. exists (payloads ++ [m]), rest. split; [by rewrite Em, <-(assoc_L (++))|]. split; [done|].
    split; [done|]. rewrite stream_snoc. unfold frame. fold t. by rewrite <-!(assoc_L (++)).
Qed.
End Side.
