(* ===== verification/BrontideProps.v ===== *)
(** Two ends of the encrypted transport joined by a network that keeps the order of bytes. *)

From S2P Require Import Prelude Bio Blake2b Hkdf Chacha20 Aead Ec Brontide BrontideSpec BrontideLoop BrontideFrame BrontideSafe BrontideSession.

(** * Sessions *)

(** A machine: its byte order, what its uninitialised memory holds, its addresses, its random numbers and
    what fresh blocks of memory hold. *)
Record machine := mk_machine {
  ma_endian : endian;
  ma_garbage : list Z;
  ma_addr : nat -> Z;
  ma_random : nat -> option (list Z);
  ma_fresh : nat -> nat -> Z;
}.
(** The two ends and how many bytes of the output of the other were delivered to each. *)
Record session (A B : Type) := mk_session { se_i : endpoint A; se_r : endpoint B; se_to_i : nat; se_to_r : nat }.
Arguments mk_session {A B}.
Arguments se_i {A B}.
Arguments se_r {A B}.
Arguments se_to_i {A B}.
Arguments se_to_r {A B}.
(** The network delivers up to [n] bytes, or an owner writes. *)
Inductive step := ToInitiator (n : nat) | ToResponder (n : nat) | InitiatorWrites (data : list Z) | ResponderWrites (data : list Z).
Definition step_ok (st : step) : Prop := match st with InitiatorWrites d | ResponderWrites d => message_ok d | _ => True end.

Section Run.
Context {P : Type} `{Secp256k1 P} (mi mr : machine) {A B : Type} `{Owner A} `{Owner B}.

(** An action on an end whose writes and allocations succeed. *)
Definition machine_act {C} `{Owner C} (m : machine) (e : endpoint C) (a : action) : outcome (endpoint C * Z) :=
  endpoint_act (ma_endian m) (ma_garbage m) (ma_addr m) (ma_random m) (fun n => Some (ma_fresh m n)) (fun _ => HSK_SUCCESS) e a.
Definition session_step (s : session A B) (st : step) : outcome (session A B * Z) :=
  match st with
  | ToInitiator n =>
      let data := take n (drop (se_to_i s) (e_out (se_r s))) in
      let* (e, r) := machine_act mi (se_i s) (Read data) in
      Ret (mk_session e (se_r s) (se_to_i s + length data) (se_to_r s), r)
  | ToResponder n =>
      let data := take n (drop (se_to_r s) (e_out (se_i s))) in
      let* (e, r) := machine_act mr (se_r s) (Read data) in
      Ret (mk_session (se_i s) e (se_to_i s) (se_to_r s + length data), r)
  | InitiatorWrites data =>
      let* (e, r) := machine_act mi (se_i s) (Write data) in
      Ret (mk_session e (se_r s) (se_to_i s) (se_to_r s), r)
  | ResponderWrites data =>
      let* (e, r) := machine_act mr (se_r s) (Write data) in
      Ret (mk_session (se_i s) e (se_to_i s) (se_to_r s), r)
  end.
Fixpoint session_run (steps : list step) (s : session A B) : outcome (session A B * list Z) :=
  match steps with
  | [] => Ret (s, [])
  | st :: steps =>
      let* (s, r) := session_step s st in
      let* (s, rs) := session_run steps s in
      Ret (s, r :: rs)
  end.
(** The responder accepts, and the initiator connects to its key. *)
Definition session_start (a : A) (b : B) (kI kR pub : list Z) : outcome (session A B * list Z) :=
  let* (i, ri) := client_start (ma_endian mi) (ma_garbage mi) (ma_addr mi) (ma_random mi) (fun n => Some (ma_fresh mi n)) (fun _ => HSK_SUCCESS) a kI pub in
  let* (r, rr) := hsk_brontide_accept (ma_endian mr) (ma_garbage mr) (ma_addr mr) (ma_random mr) (fun n => Some (ma_fresh mr n)) (fun _ => HSK_SUCCESS)
    (mk_endpoint hsk_brontide_init b [] [] 0 0 0) kR in
  Ret (mk_session i r 0 0, [ri; rr]).
End Run.

(** * The handshake between two ends *)

Lemma first_sym_ok pub : sym_ok (first_sym pub).
Proof.
  assert (Hd := fips_sha256_ok brontide_protocol_name). do 2 apply s_mix_hash_ok. split; [apply t_zero_ok|by split].
Qed.
Lemma act_next_ok S e s tag : sym_ok S -> sym_ok (act_next S e s tag).
Proof. intros HS. by apply s_next_ok, s_mix_key_ok, s_mix_hash_ok. Qed.
Lemma split_keys_ok S pub s : sym_ok S -> t_ok (fst (split_keys (third_next S pub s))) /\ t_ok (snd (split_keys (third_next S pub s))).
Proof.
  intros HS. assert (H3 : sym_ok (third_next S pub s)) by (by apply s_next_ok, s_mix_key_ok, s_next_ok).
  destruct H3 as (_ & Hc & _). unfold split_keys. destruct (hkdf2_ok (ss_ck (third_next S pub s)) []) as [H1 H2]. destruct (hkdf2 _ _) as [k1 k2].
  cbn [fst snd] in *. split; (split; [done|split; [done|unfold BRONTIDE_ROTATION_INTERVAL; cbn; lia]]).
Qed.

Lemma act_tag_ok S e s : bytes_n 16 (act_tag S e s).
Proof. apply t_tag_ok. Qed.
Lemma length_third_act {P : Type} `{Secp256k1Laws P} S p s : sym_ok S -> length (third_act S (ec_pubkey_serialize p) s) = 65%nat.
Proof.
  intros HS. assert (Ht : forall S ct, length (s_tag S ct) = 16%nat) by (intros; apply t_tag_ok).
  unfold third_act. by rewrite !length_app, (proj2 (t_pub_ok _ _ HS)), !Ht.
Qed.
#[global] Opaque act_next act_tag third_next third_act split_keys first_sym.

(** The keys of both ends, their public keys, the hashed public keys of the acts and the shared secrets. *)
Record secrets (P : Type) := mk_secrets {
  k_i : list Z; k_r : list Z; e_i : list Z; e_r : list Z;
  p_i : P; p_r : P; q_i : P; q_r : P;
  u_i : list Z; u_r : list Z;
  s_1 : list Z; s_2 : list Z; s_3 : list Z;
}.
Arguments k_i {P}.
Arguments k_r {P}.
Arguments e_i {P}.
Arguments e_r {P}.
Arguments p_i {P}.
Arguments p_r {P}.
Arguments q_i {P}.
Arguments q_r {P}.
Arguments u_i {P}.
Arguments u_r {P}.
Arguments s_1 {P}.
Arguments s_2 {P}.
Arguments s_3 {P}.
(** The acts of a session with these secrets, and the keys that come out. *)
Section Acts.
Context {P : Type} `{Secp256k1 P} (k : secrets P).
Definition sym_0 : sym := first_sym (ec_pubkey_serialize (p_r k)).
Definition tag_1 : list Z := act_tag sym_0 (ec_pubkey_serialize (q_i k)) (s_1 k).
Definition sym_1 : sym := act_next sym_0 (ec_pubkey_serialize (q_i k)) (s_1 k) tag_1.
Definition tag_2 : list Z := act_tag sym_1 (ec_pubkey_serialize (q_r k)) (s_2 k).
Definition sym_2 : sym := act_next sym_1 (ec_pubkey_serialize (q_r k)) (s_2 k) tag_2.
Definition act_1 : list Z := u_i k ++ tag_1.
Definition act_2 : list Z := u_r k ++ tag_2.
Definition act_3 : list Z := third_act sym_2 (ec_pubkey_serialize (p_i k)) (s_3 k).
Definition t_ir : transport := fst (split_keys (third_next sym_2 (ec_pubkey_serialize (p_i k)) (s_3 k))).
Definition t_ri : transport := snd (split_keys (third_next sym_2 (ec_pubkey_serialize (p_i k)) (s_3 k))).
End Acts.

(** Secrets that two machines draw for their static keys. *)
Record drawn {P : Type} `{Secp256k1 P} (mi mr : machine) (k : secrets P) : Prop := {
  k_i_bytes : bytes_n 32 (k_i k);
  k_r_bytes : bytes_n 32 (k_r k);
  u_i_bytes : bytes_n 64 (u_i k);
  u_r_bytes : bytes_n 64 (u_r k);
  s_bytes : bytes_n 32 (s_1 k) /\ bytes_n 32 (s_2 k) /\ bytes_n 32 (s_3 k);
  pub_k_i : ec_pubkey_create (k_i k) = Some (p_i k);
  pub_k_r : ec_pubkey_create (k_r k) = Some (p_r k);
  pub_e_i : ec_pubkey_create (e_i k) = Some (q_i k);
  pub_e_r : ec_pubkey_create (e_r k) = Some (q_r k);
  hash_u_i : ec_pubkey_from_hash (u_i k) = Some (q_i k);
  hash_u_r : ec_pubkey_from_hash (u_r k) = Some (q_r k);
  draw_i : exists n n' ok, hsk_ec_create_privkey (ma_random mi) 0 = Ret (true, e_i k, n) /\
    hsk_ec_pubkey_to_hash (ma_random mi) n (ec_pubkey_serialize (q_i k)) (take 64 (ma_garbage mi)) = (ok, u_i k, n');
  draw_r : exists n n' ok, hsk_ec_create_privkey (ma_random mr) 0 = Ret (true, e_r k, n) /\
    hsk_ec_pubkey_to_hash (ma_random mr) n (ec_pubkey_serialize (q_r k)) (take 64 (ma_garbage mr)) = (ok, u_r k, n');
  ecdh_1 : secp256k1_ecdh (p_r k) (e_i k) = Some (s_1 k) /\ secp256k1_ecdh (q_i k) (k_r k) = Some (s_1 k);
  ecdh_2 : secp256k1_ecdh (q_r k) (e_i k) = Some (s_2 k) /\ secp256k1_ecdh (q_i k) (e_r k) = Some (s_2 k);
  ecdh_3 : secp256k1_ecdh (q_r k) (k_i k) = Some (s_3 k) /\ secp256k1_ecdh (p_i k) (e_r k) = Some (s_3 k);
}.
(** Any two machines with random numbers draw some. *)
Lemma drawn_exists {P : Type} `{Secp256k1Laws P} mi mr ki kr p : bytes_n 32 ki -> bytes_n 32 kr -> ec_seckey_verify ki = true -> ec_seckey_verify kr = true ->
  ec_pubkey_create kr = Some p ->
  (exists e n x, hsk_ec_create_privkey (ma_random mi) 0 = Ret (true, e, n) /\ ma_random mi n = Some x) ->
  (exists e n x, hsk_ec_create_privkey (ma_random mr) 0 = Ret (true, e, n) /\ ma_random mr n = Some x) ->
  exists k : secrets P, drawn mi mr k /\ k_i k = ki /\ k_r k = kr /\ p_r k = p.
Proof.
  intros Hki Hkr Hvi Hvr Hp (ei & ni & xi & Hei & Hxi) (er & nr & xr & Her & Hxr).
  assert (Hv : forall random n k m, hsk_ec_create_privkey random n = Ret (true, k, m) -> ec_seckey_verify k = true).
  { intros random n k m E. destruct (create_privkey_ends random n) as (ok & k' & m' & E' & Hv). rewrite E in E'. injection E' as <- <- <-. by apply Hv. }
  assert (Hvei := Hv _ _ _ _ Hei). assert (Hver := Hv _ _ _ _ Her).
  destruct (create_verified _ Hvi) as [pi Hpi]. destruct (create_verified _ Hvei) as [qi Hqi]. destruct (create_verified _ Hver) as [qr Hqr].
  destruct (to_hash_ok (ma_random mi) ni qi xi (take 64 (ma_garbage mi)) Hxi) as (ui & Hui & Hubi & Hfi).
  destruct (to_hash_ok (ma_random mr) nr qr xr (take 64 (ma_garbage mr)) Hxr) as (ur & Hur & Hubr & Hfr).
  destruct (ecdh_verified p ei Hvei) as (s1 & Es1 & Hs1). destruct (ecdh_verified qr ei Hvei) as (s2 & Es2 & Hs2). destruct (ecdh_verified qr ki Hvi) as (s3 & Es3 & Hs3).
  exists (mk_secrets P ki kr ei er pi p qi qr ui ur s1 s2 s3). split; [|done]. split; cbn [k_i k_r e_i e_r p_i p_r q_i q_r u_i u_r s_1 s_2 s_3]; try done.
  - by exists ni, (S ni), true.
  - by exists nr, (S nr), true.
  - split; [done|]. by rewrite (ecdh_commutes ei kr qi p).
  - split; [done|]. by rewrite (ecdh_commutes ei er qi qr).
  - split; [done|]. by rewrite (ecdh_commutes ki er pi qr).
Qed.

(** * The ends, with the acts *)

Section Ends.
Context {P : Type} `{Secp256k1Laws P} (mi mr : machine) (Hgi : bytes_n 64 (ma_garbage mi)) (Hgr : bytes_n 64 (ma_garbage mr)).
Context {A B : Type} `{Owner A} `{Owner B} (Hoi : owner_ok A message_ok False) (Hor : owner_ok B message_ok False).
Context (k : secrets P) (Hk : drawn mi mr k).
Abbreviation state_of e := (nt_state (b_net (e_b e))).
Abbreviation got e := (received (e_log e)).
Abbreviation acc e := (accepted (e_log e)).
Abbreviation pre_i := (act_1 k ++ act_3 k).

Lemma sym_0_ok : sym_ok (sym_0 k).
Proof. unfold sym_0. apply first_sym_ok. Qed.
Lemma sym_2_ok : sym_ok (sym_2 k).
Proof. unfold sym_2. apply act_next_ok. unfold sym_1. apply act_next_ok, sym_0_ok. Qed.
Lemma t_ir_ok : t_ok (t_ir k).
Proof. unfold t_ir. apply split_keys_ok, sym_2_ok. Qed.
Lemma t_ri_ok : t_ok (t_ri k).
Proof. unfold t_ri. apply split_keys_ok, sym_2_ok. Qed.
Lemma tag_1_ok : bytes_n 16 (tag_1 k).
Proof. apply act_tag_ok. Qed.
Lemma tag_2_ok : bytes_n 16 (tag_2 k).
Proof. apply act_tag_ok. Qed.
Lemma length_act_1 : length (act_1 k) = 80%nat.
Proof. unfold act_1. by rewrite length_app, (proj1 (u_i_bytes _ _ _ Hk)), (proj1 tag_1_ok). Qed.
Lemma length_act_2 : length (act_2 k) = 80%nat.
Proof. unfold act_2. by rewrite length_app, (proj1 (u_r_bytes _ _ _ Hk)), (proj1 tag_2_ok). Qed.
Lemma length_act_3 : length (act_3 k) = 65%nat.
Proof. unfold act_3. apply length_third_act, sym_2_ok. Qed.

(** The initiator, once it has sent the first act. *)
Definition second_i (e0 e : endpoint A) : Prop := state_of e = BRONTIDE_ACT_TWO /\ nt_has_size (b_net (e_b e)) = false /\
  hs_initiator (b_hs (e_b e)) = true /\ hs_local_static (b_hs (e_b e)) = k_i k /\ hs_local_ephemeral (b_hs (e_b e)) = e_i k /\
  sym_at (sym_1 k) (b_sym (e_b e)) /\ cs_at t_zero (b_send_cipher (e_b e)) /\ cs_at t_zero (b_recv_cipher (e_b e)) /\
  acc e = [] /\ got e = [] /\ e_out e = act_1 k /\ extends e0 e.
Definition inv_i (msgs : list (list Z)) (e0 e : endpoint A) (c : list Z) (n : nat) : Prop :=
  (second_i e0 e /\ c = [] /\ n = 80%nat) \/ between (t_ri k) (t_ir k) (act_2 k) pre_i msgs e0 e c n \/
  inside (t_ri k) (t_ir k) (act_2 k) pre_i msgs e0 e c n.

Abbreviation parse m := (hsk_brontide_parse (ma_endian m) (ma_garbage m) (ma_addr m) (ma_random m) (fun _ => HSK_SUCCESS)).
Lemma second_parse msgs e0 e : second_i e0 e -> exists e' n', parse mi e (act_2 k) = Ret (e', inr n') /\
  state_of e' = BRONTIDE_ACT_DONE /\ between (t_ri k) (t_ir k) (act_2 k) pre_i msgs e0 e' (act_2 k) n' /\ n' <> 0%nat.
Proof.
  intros (Hs & Hh & Hi & Hls & Hle & Hsym & Hcs & Hcr & Ha & Hgot & Ho & Hx).
  unfold hsk_brontide_parse. rewrite Hs, Hi, length_act_2. cbn [andb BRONTIDE_ACT_TWO Z.eqb Pos.eqb BRONTIDE_ACT_TWO_SIZE Nat.eqb oassert obind].
  destruct (u_r_bytes _ _ _ Hk) as [Hul Hub]. destruct (s_bytes _ _ _ Hk) as (_ & Hs2 & Hs3).
  unfold hsk_brontide_recv_act_two, hsk_ec_pubkey_from_hash. unfold act_2 at 1. rewrite (take_app_length' _ _ 64), (hash_u_r _ _ _ Hk) by done.
  assert (Hq := serialize_bytes (q_r k)). unfold hsk_ec_verify_pubkey. rewrite parse_serialized. cbn [negb].
  assert (Htag := tag_2_ok).
  replace (take 16 (drop 64 (act_2 k))) with (tag_2 k) by (unfold act_2; rewrite drop_app_length' by done; by rewrite take_all by apply Htag).
  assert (Es2 : secp256k1_ecdh (q_r k) (hs_local_ephemeral (set_remote_ephemeral (b_hs (e_b e)) (ec_pubkey_serialize (q_r k)))) = Some (s_2 k))
    by (cbn; rewrite Hle; apply (ecdh_2 _ _ _ Hk)).
  destruct (recv_act_at (ma_endian mi) (ma_garbage mi) (ma_addr mi) Hgi (e_b e) _ (tag_2 k) hs_local_ephemeral _ (q_r k) (s_2 k) Hsym (parse_serialize _) Hq Htag Es2 Hs2) as (sy1 & -> & Hsym1).
  fold (tag_2 k) in Hsym1 |- *. fold (sym_2 k) in Hsym1. rewrite bool_decide_eq_true_2 by done. cbn [obind negb].
  set (b1 := with_hs (with_sym (e_b e) sy1) _).
  destruct (gen_act_three_at (ma_endian mi) (ma_garbage mi) (ma_addr mi) Hgi b1 _ (p_i k) (q_r k) (s_3 k) _ _ Hsym1 Hcs Hcr Hi) as (sy2 & cs & cr & -> & Hsp).
  { cbn. rewrite Hls. apply (pub_k_i _ _ _ Hk). }
  { cbn. apply parse_serialized. }
  { cbn. rewrite Hls. apply (ecdh_3 _ _ _ Hk). }
  { done. }
  fold (act_3 k). cbn [obind]. assert (Hsp' : cs_at (t_ir k) cs /\ cs_at (t_ri k) cr) by (unfold t_ir, t_ri; destruct (split_keys _); tauto). clear Hsp.
  unfold write_cb. cbn [negb Z.eqb HSK_SUCCESS e_writes with_b]. unfold connect_cb.
  match goal with |- context [run_prog _ _ _ _ ?p ?e1] =>
    destruct (open_callback (ma_endian mi) (ma_garbage mi) (ma_addr mi) Hgi (t_ir k) pre_i t_ir_ok e0 false (t_ri k) [] p e1) as (e' & -> & Ho') end.
  - exact (proj1 (Hoi 0 _ I)).
  - unfold open_at, extends. cbn [note with_b with_state e_b e_log e_out with_net b_net b_recv_cipher b_send_cipher nt_state nt_has_size].
    rewrite received_app, accepted_app, Hgot, Ha. cbn [received accepted received_of accepted_of List.map concat app]. split_and!; try done; try apply Hsp'.
    + by rewrite Ho, app_nil_r.
    + rewrite <-Ha. apply Hx.
    + apply prefix_app_r, Hx.
  - cbn [obind]. eexists _, _. split; [reflexivity|]. split; [apply Ho'|]. split; [|done]. exists [], msgs. split; [done|]. split; [done|]. split; [done|]. by rewrite app_nil_r.
Qed.

(** The responder, before the first act and before the third. *)
Definition first_r (e0 e : endpoint B) : Prop := state_of e = BRONTIDE_ACT_ONE /\ nt_has_size (b_net (e_b e)) = false /\
  hs_initiator (b_hs (e_b e)) = false /\ hs_local_static (b_hs (e_b e)) = k_r k /\
  sym_at (sym_0 k) (b_sym (e_b e)) /\ cs_at t_zero (b_send_cipher (e_b e)) /\ cs_at t_zero (b_recv_cipher (e_b e)) /\
  acc e = [] /\ got e = [] /\ e_out e = [] /\ extends e0 e /\ e_random e = 0%nat.
Definition third_r (e0 e : endpoint B) : Prop := state_of e = BRONTIDE_ACT_THREE /\ nt_has_size (b_net (e_b e)) = false /\
  hs_initiator (b_hs (e_b e)) = false /\ hs_local_ephemeral (b_hs (e_b e)) = e_r k /\
  sym_at (sym_2 k) (b_sym (e_b e)) /\ cs_at t_zero (b_send_cipher (e_b e)) /\ cs_at t_zero (b_recv_cipher (e_b e)) /\
  acc e = [] /\ got e = [] /\ e_out e = act_2 k /\ extends e0 e.
Definition inv_r (msgs : list (list Z)) (e0 e : endpoint B) (c : list Z) (n : nat) : Prop :=
  (first_r e0 e /\ c = [] /\ n = 80%nat) \/ (third_r e0 e /\ c = act_1 k /\ n = 65%nat) \/
  between (t_ir k) (t_ri k) pre_i (act_2 k) msgs e0 e c n \/ inside (t_ir k) (t_ri k) pre_i (act_2 k) msgs e0 e c n.

Lemma first_parse e0 e : first_r e0 e -> exists e', parse mr e (act_1 k) = Ret (e', inr 65%nat) /\ third_r e0 e'.
Proof.
  intros (Hs & Hh & Hi & Hls & Hsym & Hcs & Hcr & Ha & Hgot & Ho & Hx & Hn0).
  unfold hsk_brontide_parse. rewrite Hs, Hi, length_act_1. cbn [andb negb BRONTIDE_ACT_ONE BRONTIDE_ACT_TWO Z.eqb Pos.eqb BRONTIDE_ACT_ONE_SIZE Nat.eqb oassert obind].
  destruct (u_i_bytes _ _ _ Hk) as [Hul Hub]. destruct (u_r_bytes _ _ _ Hk) as [Hurl Hurb]. destruct (s_bytes _ _ _ Hk) as (Hs1 & Hs2 & Hs3).
  unfold hsk_brontide_recv_act_one, hsk_ec_pubkey_from_hash. unfold act_1 at 1. rewrite (take_app_length' _ _ 64), (hash_u_i _ _ _ Hk) by done.
  assert (Hq := serialize_bytes (q_i k)). assert (Htag := tag_1_ok).
  replace (take 16 (drop 64 (act_1 k))) with (tag_1 k) by (unfold act_1; rewrite drop_app_length' by done; by rewrite take_all by apply Htag).
  assert (Es1 : secp256k1_ecdh (q_i k) (hs_local_static (set_remote_ephemeral (b_hs (e_b e)) (ec_pubkey_serialize (q_i k)))) = Some (s_1 k))
    by (cbn; rewrite Hls; apply (ecdh_1 _ _ _ Hk)).
  destruct (recv_act_at (ma_endian mr) (ma_garbage mr) (ma_addr mr) Hgr (e_b e) _ (tag_1 k) hs_local_static _ (q_i k) (s_1 k) Hsym (parse_serialize _) Hq Htag Es1 Hs1) as (sy1 & -> & Hsym1).
  fold (tag_1 k) in Hsym1 |- *. fold (sym_1 k) in Hsym1. rewrite bool_decide_eq_true_2 by done. cbn [obind negb].
  set (b1 := with_hs (with_sym (e_b e) sy1) _). destruct (draw_r _ _ _ Hk) as (n & n' & ok & Hkey & Hu).
  destruct (gen_act_at (ma_endian mr) (ma_garbage mr) (ma_addr mr) Hgr (ma_random mr) b1 0 hs_remote_ephemeral _ (e_r k) n n' (q_r k) ok (u_r k) (q_i k) (s_2 k) Hsym1 Hkey)
    as (sy2 & E & Hsym2); try done.
  { apply (pub_e_r _ _ _ Hk). }
  { cbn. apply parse_serialized. }
  { apply (ecdh_2 _ _ _ Hk). }
  unfold hsk_brontide_gen_act_two. rewrite Hn0, E. cbn [obind]. fold (tag_2 k) in Hsym2 |- *. fold (sym_2 k) in Hsym2. fold (act_2 k).
  unfold write_cb. cbn [negb Z.eqb HSK_SUCCESS]. eexists. split; [reflexivity|].
  unfold third_r, extends. cbn [with_b with_random with_state e_b e_log e_out with_net b_net b_recv_cipher b_send_cipher b_hs b_sym nt_state nt_has_size].
  destruct Hx as [Hx1 Hx2]. rewrite Ho in *. split_and!; try done. by apply prefix_app_r.
Qed.
Lemma third_parse msgs e0 e : third_r e0 e -> exists e' n', parse mr e (act_3 k) = Ret (e', inr n') /\
  state_of e' = BRONTIDE_ACT_DONE /\ between (t_ir k) (t_ri k) pre_i (act_2 k) msgs e0 e' pre_i n' /\ n' <> 0%nat.
Proof.
  intros (Hs & Hh & Hi & Hle & Hsym & Hcs & Hcr & Ha & Hgot & Ho & Hx).
  unfold hsk_brontide_parse. rewrite Hs, Hi, length_act_3. cbn [andb negb BRONTIDE_ACT_ONE BRONTIDE_ACT_TWO BRONTIDE_ACT_THREE Z.eqb Pos.eqb BRONTIDE_ACT_THREE_SIZE Nat.eqb oassert obind].
  destruct (s_bytes _ _ _ Hk) as (_ & _ & Hs3). unfold act_3 at 1.
  destruct (recv_act_three_at (ma_endian mr) (ma_garbage mr) (ma_addr mr) Hgr (e_b e) _ (p_i k) (s_3 k) _ _ Hsym Hcs Hcr Hi) as (sy & hs & cs & cr & -> & Hi' & Hsp).
  { rewrite Hle. apply (ecdh_3 _ _ _ Hk). }
  { done. }
  cbn [obind negb]. assert (Hsp' : cs_at (t_ri k) cs /\ cs_at (t_ir k) cr) by (unfold t_ir, t_ri; destruct (split_keys _); tauto). clear Hsp.
  unfold connect_cb. match goal with |- context [run_prog _ _ _ _ ?p ?e1] =>
    destruct (open_callback (ma_endian mr) (ma_garbage mr) (ma_addr mr) Hgr (t_ri k) (act_2 k) t_ri_ok e0 false (t_ir k) [] p e1) as (e' & -> & Ho') end.
  - exact (proj1 (Hor 0 _ I)).
  - unfold open_at, extends. cbn [note with_b with_state e_b e_log e_out with_net b_net b_recv_cipher b_send_cipher nt_state nt_has_size].
    rewrite received_app, accepted_app, Hgot, Ha. cbn [received accepted received_of accepted_of List.map concat app]. split_and!; try done; try apply Hsp'.
    + by rewrite Ho, app_nil_r.
    + rewrite <-Ha. apply Hx.
    + apply Hx.
  - cbn [obind]. eexists _, _. split; [reflexivity|]. split; [apply Ho'|]. split; [|done]. exists [], msgs. split; [done|]. split; [done|]. split; [done|]. by rewrite app_nil_r.
Qed.
(** What an invariant says of the output, whoever the end is. *)
Lemma open_weaken {C} `{Owner C} tout pre (e0 e1 e : endpoint C) has t l : open_at tout pre e0 has t l e -> extends e1 e -> open_at tout pre e1 has t l e.
Proof. intros (Hs & Hh & Hr & Hp & Ho & Hcs & Hm & _) Hx. by split_and!. Qed.
Lemma open_out {C} `{Owner C} tin tout pin pout msgs (e0 e : endpoint C) c n : between tin tout pin pout msgs e0 e c n \/ inside tin tout pin pout msgs e0 e c n ->
  e_out e = pout ++ stream tout (acc e) /\ Forall message_ok (acc e) /\ extends e0 e.
Proof. intros [(l & rest & _ & Ho & _)|(l & m & rest & _ & Ho & _)]; destruct Ho as (_ & _ & _ & _ & Ho & _ & Hm & Hx); by split_and!. Qed.
Lemma open_change {C} `{Owner C} tin tout pin pout msgs msgs' (e0 e1 e : endpoint C) c n : msgs `prefix_of` msgs' -> extends e1 e ->
  between tin tout pin pout msgs e0 e c n \/ inside tin tout pin pout msgs e0 e c n ->
  between tin tout pin pout msgs' e1 e c n \/ inside tin tout pin pout msgs' e1 e c n.
Proof.
  intros [more ->] Hx [(l & rest & -> & Ho & Hr)|(l & m & rest & -> & Ho & Hr)]; [left|right].
  - exists l, (rest ++ more). rewrite <-(assoc_L (++)). split; [done|]. split; [by eapply open_weaken|done].
  - exists l, m, (rest ++ more). rewrite <-(assoc_L (++)). split; [done|]. split; [by eapply open_weaken|done].
Qed.
Lemma inv_i_out msgs e0 e c n : inv_i msgs e0 e c n -> e_out e `prefix_of` pre_i ++ stream (t_ir k) (acc e) /\ Forall message_ok (acc e) /\ extends e0 e.
Proof.
  intros [[Hs _]|Ho]; [|by apply open_out in Ho as (-> & ? & ?)].
  destruct Hs as (_ & _ & _ & _ & _ & _ & _ & _ & -> & _ & -> & Hx). rewrite <-(assoc_L (++)). split_and!; [by apply prefix_app_r|done|done].
Qed.
Lemma inv_r_out msgs e0 e c n : inv_r msgs e0 e c n -> e_out e `prefix_of` act_2 k ++ stream (t_ri k) (acc e) /\ Forall message_ok (acc e) /\ extends e0 e.
Proof.
  intros [[Hs _]|[[Hs _]|Ho]]; [| |by apply open_out in Ho as (-> & ? & ?)].
  - destruct Hs as (_ & _ & _ & _ & _ & _ & _ & -> & _ & -> & Hx & _). split_and!; [apply prefix_nil|done|done].
  - destruct Hs as (_ & _ & _ & _ & _ & _ & _ & -> & _ & -> & Hx). split_and!; [by apply prefix_app_r|done|done].
Qed.
(** The peer has sent more, and another base. *)
Lemma inv_i_change msgs msgs' e0 e1 e c n : inv_i msgs e0 e c n -> msgs `prefix_of` msgs' -> extends e1 e -> inv_i msgs' e1 e c n.
Proof.
  intros [[Hs Hc]|Ho] Hm Hx; [left|right; by eapply open_change]. split; [|done]. destruct Hs as (? & ? & ? & ? & ? & ? & ? & ? & ? & ? & ? & _). by split_and!.
Qed.
Lemma inv_r_change msgs msgs' e0 e1 e c n : inv_r msgs e0 e c n -> msgs `prefix_of` msgs' -> extends e1 e -> inv_r msgs' e1 e c n.
Proof.
  intros [[Hs Hc]|[[Hs Hc]|Ho]] Hm Hx; [left|right; left|right; right; by eapply open_change]; (split; [|done]).
  - destruct Hs as (? & ? & ? & ? & ? & ? & ? & ? & ? & ? & _ & ?). by split_and!.
  - destruct Hs as (? & ? & ? & ? & ? & ? & ? & ? & ? & ? & _). by split_and!.
Qed.

(** * Reading and writing *)

(** The step of the loop on an open transport. *)
Lemma open_parse {C} `{Owner C} m tin tout pin pout msgs (Hgm : bytes_n 64 (ma_garbage m)) (Hoc : owner_ok C message_ok False) (Hin : t_ok tin) (Hout : t_ok tout)
    (Hmsgs : Forall message_ok msgs) (e0 e : endpoint C) c n data :
  between tin tout pin pout msgs e0 e c n \/ inside tin tout pin pout msgs e0 e c n -> nt_msg_len (b_net (e_b e)) = n -> length data = n ->
  c ++ data `prefix_of` pin ++ stream tin msgs -> exists e' n', parse m e data = Ret (e', inr n') /\ state_of e' = BRONTIDE_ACT_DONE /\
  (between tin tout pin pout msgs e0 e' (c ++ data) n' \/ inside tin tout pin pout msgs e0 e' (c ++ data) n') /\ n' <> 0%nat.
Proof.
  intros [Hb|Hb] Hn Hl Hp.
  - destruct (between_parse (ma_endian m) (ma_garbage m) (ma_addr m) Hgm (ma_random m) tin tout pin pout Hin msgs Hmsgs e0 e c n data Hb Hn Hl Hp) as (e' & n' & E & Hs & Hi & Hn').
    exists e', n'. split_and!; try done. by right.
  - destruct (inside_parse (ma_endian m) (ma_garbage m) (ma_addr m) Hgm (ma_random m) Hoc tin tout pin pout Hin Hout msgs Hmsgs e0 e c n data Hb Hn Hl Hp) as (e' & n' & E & Hs & Hi & Hn').
    exists e', n'. split_and!; try done. by left.
Qed.
Lemma inv_i_parse msgs e0 e c n data : Forall message_ok msgs -> inv_i msgs e0 e c n -> nt_msg_len (b_net (e_b e)) = n -> length data = n ->
  c ++ data `prefix_of` act_2 k ++ stream (t_ri k) msgs -> exists e' n', parse mi e data = Ret (e', inr n') /\
  state_of e' = BRONTIDE_ACT_DONE /\ inv_i msgs e0 e' (c ++ data) n' /\ n' <> 0%nat.
Proof.
  intros Hm [(Hs & -> & ->)|Ho] Hn Hl Hp.
  - cbn [app] in Hp. apply prefix_same in Hp; [|by rewrite length_act_2]. subst data.
    destruct (second_parse msgs e0 e Hs) as (e' & n' & E & Hd & Hb & Hn'). exists e', n'. split_and!; try done. right. by left.
  - destruct (open_parse mi _ _ _ _ msgs Hgi Hoi t_ri_ok t_ir_ok Hm e0 e c n data Ho Hn Hl Hp) as (e' & n' & E & Hd & Hb & Hn').
    exists e', n'. split_and!; try done. by right.
Qed.
Lemma inv_r_parse msgs e0 e c n data : Forall message_ok msgs -> inv_r msgs e0 e c n -> nt_msg_len (b_net (e_b e)) = n -> length data = n ->
  c ++ data `prefix_of` pre_i ++ stream (t_ir k) msgs -> exists e' n', parse mr e data = Ret (e', inr n') /\
  state_of e' <> BRONTIDE_ACT_NONE /\ inv_r msgs e0 e' (c ++ data) n' /\ n' <> 0%nat.
Proof.
  intros Hm [(Hs & -> & ->)|[(Hs & -> & ->)|Ho]] Hn Hl Hp.
  - cbn [app] in Hp. rewrite <-(assoc_L (++)) in Hp. apply prefix_same in Hp; [|by rewrite length_act_1]. subst data.
    destruct (first_parse e0 e Hs) as (e' & E & Ht). exists e', 65%nat. split_and!; try done; [by rewrite (proj1 Ht)|]. right. by left.
  - rewrite <-(assoc_L (++)) in Hp. apply prefix_app_inv in Hp. apply prefix_same in Hp; [|by rewrite length_act_3]. subst data.
    destruct (third_parse msgs e0 e Hs) as (e' & n' & E & Hd & Hb & Hn'). exists e', n'. rewrite Hd. split_and!; try done. right. right. by left.
  - destruct (open_parse mr _ _ _ _ msgs Hgr Hor t_ir_ok t_ri_ok Hm e0 e c n data Ho Hn Hl Hp) as (e' & n' & E & Hd & Hb & Hn').
    exists e', n'. rewrite Hd. split_and!; try done. right. by right.
Qed.
Lemma read_i msgs e total data : Forall message_ok msgs -> waiting (inv_i msgs e) e total -> total ++ data `prefix_of` act_2 k ++ stream (t_ri k) msgs ->
  exists e', machine_act mi e (Read data) = Ret (e', HSK_SUCCESS) /\ waiting (inv_i msgs e) e' (total ++ data).
Proof.
  intros Hm Hw Hp.
  destruct (on_read_correct (ma_endian mi) (ma_garbage mi) (ma_addr mi) (ma_random mi) (fun n => Some (ma_fresh mi n)) (fun _ => HSK_SUCCESS)
    (inv_i msgs e) (fun _ _ => False) (fun _ => False) (fun total => total `prefix_of` act_2 k ++ stream (t_ri k) msgs)) with (e := e) (total := total) (data := data)
    as (e' & r & E & [[-> Hw']|[[_ []]|[_ (? & _ & [])]]]); try done.
  - intros l1 l2. apply prefix_app_l.
  - intros e1 c n [[(-> & _) _]|[(l & rest & _ & (-> & _) & _)|(l & m & rest & _ & (-> & _) & _)]]; done.
  - intros e1 c n d Hi Hn Hl Hg. destruct (inv_i_parse msgs e e1 c n d Hm Hi Hn Hl Hg) as (e' & n' & E & Hs & Hi' & Hn'). exists e', (inr n'). split; [done|]. rewrite Hs. by split.
  - by exists e'.
Qed.
Lemma read_r msgs e total data : Forall message_ok msgs -> waiting (inv_r msgs e) e total -> total ++ data `prefix_of` pre_i ++ stream (t_ir k) msgs ->
  exists e', machine_act mr e (Read data) = Ret (e', HSK_SUCCESS) /\ waiting (inv_r msgs e) e' (total ++ data).
Proof.
  intros Hm Hw Hp.
  destruct (on_read_correct (ma_endian mr) (ma_garbage mr) (ma_addr mr) (ma_random mr) (fun n => Some (ma_fresh mr n)) (fun _ => HSK_SUCCESS)
    (inv_r msgs e) (fun _ _ => False) (fun _ => False) (fun total => total `prefix_of` pre_i ++ stream (t_ir k) msgs)) with (e := e) (total := total) (data := data)
    as (e' & r & E & [[-> Hw']|[[_ []]|[_ (? & _ & [])]]]); try done.
  - intros l1 l2. apply prefix_app_l.
  - intros e1 c n [[(-> & _) _]|[[(-> & _) _]|[(l & rest & _ & (-> & _) & _)|(l & m & rest & _ & (-> & _) & _)]]]; done.
  - intros e1 c n d Hi Hn Hl Hg. destruct (inv_r_parse msgs e e1 c n d Hm Hi Hn Hl Hg) as (e' & n' & E & Hs & Hi' & Hn'). exists e', (inr n'). split; [done|].
    destruct (Z.eqb_spec (state_of e') BRONTIDE_ACT_NONE); [done|]. by split.
  - by exists e'.
Qed.
Lemma open_write {C} `{Owner C} m tin tout pin pout msgs (Hgm : bytes_n 64 (ma_garbage m)) (Hout : t_ok tout) (e0 e : endpoint C) c n buf data :
  between tin tout pin pout msgs e0 e c n \/ inside tin tout pin pout msgs e0 e c n -> buffer_at e buf n -> message_ok data ->
  exists e', machine_act m e (Write data) = Ret (e', HSK_SUCCESS) /\ buffer_at e' buf n /\
  (between tin tout pin pout msgs e0 e' c n \/ inside tin tout pin pout msgs e0 e' c n).
Proof.
  intros Ho Hb Hd. unfold machine_act, endpoint_act. destruct Ho as [(l & rest & El & Ho & Hr)|(l & x & rest & El & Ho & Hr)];
    destruct (open_send (ma_endian m) (ma_garbage m) (ma_addr m) Hgm tout pout Hout e0 _ _ _ e data Ho Hd) as (e' & r & E & Ho' & -> & Hbuf); exists e'; (split; [exact E|]); (split; [by apply Hbuf|]).
  - left. by exists l, rest.
  - right. by exists l, x, rest.
Qed.
Lemma closed_write {C} `{Owner C} m (e : endpoint C) data : state_of e <> BRONTIDE_ACT_DONE ->
  machine_act m e (Write data) = Ret (note e (Sent (state_of e) data), HSK_SUCCESS) /\ acc (note e (Sent (state_of e) data)) = acc e /\ got (note e (Sent (state_of e) data)) = got e.
Proof.
  intros Hs. unfold machine_act, endpoint_act. rewrite write_closed by done. cbn [note e_log]. rewrite accepted_app, received_app. cbn [accepted received accepted_of received_of List.map concat].
  destruct (Z.eqb_spec (state_of e) BRONTIDE_ACT_DONE); [done|]. cbn [app]. by rewrite !app_nil_r.
Qed.
Lemma write_i msgs e total data : waiting (inv_i msgs e) e total -> message_ok data -> exists e', machine_act mi e (Write data) = Ret (e', HSK_SUCCESS) /\
  waiting (inv_i msgs e) e' total.
Proof.
  intros (c & n & buf & [(Hs & Hc)|Ho] & Hb & ->) Hd.
  - assert (Hst : state_of e <> BRONTIDE_ACT_DONE) by (by rewrite (proj1 Hs)). destruct (closed_write mi e data Hst) as (E & Ea & Eg). eexists. split; [exact E|].
    exists c, n, buf. split; [|by split]. left. split; [|done]. unfold second_i, extends in *. rewrite Ea, Eg. exact Hs.
  - destruct (open_write mi _ _ _ _ msgs Hgi t_ir_ok e e c n buf data Ho Hb Hd) as (e' & E & Hb' & Ho'). exists e'. split; [done|]. exists c, n, buf. split; [by right|by split].
Qed.
Lemma write_r msgs e total data : waiting (inv_r msgs e) e total -> message_ok data -> exists e', machine_act mr e (Write data) = Ret (e', HSK_SUCCESS) /\
  waiting (inv_r msgs e) e' total.
Proof.
  intros (c & n & buf & [(Hs & Hc)|[(Hs & Hc)|Ho]] & Hb & ->) Hd.
  - assert (Hst : state_of e <> BRONTIDE_ACT_DONE) by (by rewrite (proj1 Hs)). destruct (closed_write mr e data Hst) as (E & Ea & Eg). eexists. split; [exact E|].
    exists c, n, buf. split; [|by split]. left. split; [|done]. unfold first_r, extends in *. rewrite Ea, Eg. exact Hs.
  - assert (Hst : state_of e <> BRONTIDE_ACT_DONE) by (by rewrite (proj1 Hs)). destruct (closed_write mr e data Hst) as (E & Ea & Eg). eexists. split; [exact E|].
    exists c, n, buf. split; [|by split]. right. left. split; [|done]. unfold third_r, extends in *. rewrite Ea, Eg. exact Hs.
  - destruct (open_write mr _ _ _ _ msgs Hgr t_ri_ok e e c n buf data Ho Hb Hd) as (e' & E & Hb' & Ho'). exists e'. split; [done|]. exists c, n, buf. split; [right; by right|by split].
Qed.

(** * The session *)

Definition joint (s : session A B) : Prop :=
  waiting (inv_i (acc (se_r s)) (se_i s)) (se_i s) (take (se_to_i s) (e_out (se_r s))) /\
  waiting (inv_r (acc (se_i s)) (se_r s)) (se_r s) (take (se_to_r s) (e_out (se_i s))) /\
  (se_to_i s <= length (e_out (se_r s)))%nat /\ (se_to_r s <= length (e_out (se_i s)))%nat.
Lemma deliver (l : list Z) a n : take a l ++ take n (drop a l) = take (a + length (take n (drop a l))) l /\
  ((a <= length l)%nat -> (a + length (take n (drop a l)) <= length l)%nat).
Proof.
  rewrite length_take, length_drop. split; [|lia]. rewrite take_take_drop. destruct (Nat.le_gt_cases n (length l - a)); [f_equal; lia|]. rewrite !take_ge; [done|lia..].
Qed.
Lemma waiting_i msgs e0 e total : waiting (inv_i msgs e0) e total -> e_out e `prefix_of` pre_i ++ stream (t_ir k) (acc e) /\ Forall message_ok (acc e) /\ extends e0 e.
Proof. intros (c & n & buf & Hi & _). by eapply inv_i_out. Qed.
Lemma waiting_r msgs e0 e total : waiting (inv_r msgs e0) e total -> e_out e `prefix_of` act_2 k ++ stream (t_ri k) (acc e) /\ Forall message_ok (acc e) /\ extends e0 e.
Proof. intros (c & n & buf & Hi & _). by eapply inv_r_out. Qed.
Lemma waiting_i_change msgs msgs' e0 e1 e total : waiting (inv_i msgs e0) e total -> msgs `prefix_of` msgs' -> extends e1 e -> waiting (inv_i msgs' e1) e total.
Proof. intros (c & n & buf & Hi & Hb) Hm Hx. exists c, n, buf. split; [by eapply inv_i_change|done]. Qed.
Lemma waiting_r_change msgs msgs' e0 e1 e total : waiting (inv_r msgs e0) e total -> msgs `prefix_of` msgs' -> extends e1 e -> waiting (inv_r msgs' e1) e total.
Proof. intros (c & n & buf & Hi & Hb) Hm Hx. exists c, n, buf. split; [by eapply inv_r_change|done]. Qed.
Lemma take_prefix_same (l l' : list Z) n : l `prefix_of` l' -> (n <= length l)%nat -> take n l' = take n l.
Proof. intros [x ->] Hn. by rewrite take_app_le. Qed.
(** One end has moved on; the other has not changed. *)
Lemma joint_i s e n : joint s -> waiting (inv_i (acc (se_r s)) (se_i s)) e (take n (e_out (se_r s))) -> (n <= length (e_out (se_r s)))%nat ->
  joint (mk_session e (se_r s) n (se_to_r s)).
Proof.
  intros (Hi & Hr & Hli & Hlr) Hw Hn. destruct (waiting_i _ _ _ _ Hw) as (_ & _ & [Hx1 Hx2]). split; cbn [se_i se_r se_to_i se_to_r].
  - by eapply waiting_i_change; [exact Hw|done|apply extends_refl].
  - split; [|split; [done|]].
    + rewrite (take_prefix_same (e_out (se_i s))) by done. by eapply waiting_r_change; [exact Hr|done|apply extends_refl].
    + apply prefix_length in Hx2. lia.
Qed.
Lemma joint_r s e n : joint s -> waiting (inv_r (acc (se_i s)) (se_r s)) e (take n (e_out (se_i s))) -> (n <= length (e_out (se_i s)))%nat ->
  joint (mk_session (se_i s) e (se_to_i s) n).
Proof.
  intros (Hi & Hr & Hli & Hlr) Hw Hn. destruct (waiting_r _ _ _ _ Hw) as (_ & _ & [Hx1 Hx2]). split; cbn [se_i se_r se_to_i se_to_r].
  - rewrite (take_prefix_same (e_out (se_r s))) by done. by eapply waiting_i_change; [exact Hi|done|apply extends_refl].
  - split; [by eapply waiting_r_change; [exact Hw|done|apply extends_refl]|]. split; [|done]. apply prefix_length in Hx2. lia.
Qed.
Lemma session_step_joint s st : joint s -> step_ok st -> exists s', session_step mi mr s st = Ret (s', HSK_SUCCESS) /\ joint s'.
Proof.
  intros Hj Hst. destruct (id Hj) as (Hi & Hr & Hli & Hlr). destruct (waiting_i _ _ _ _ Hi) as (Hoi' & Hmi & _). destruct (waiting_r _ _ _ _ Hr) as (Hor' & Hmr & _).
  destruct st as [n|n|data|data]; cbn [session_step step_ok] in *.
  - destruct (deliver (e_out (se_r s)) (se_to_i s) n) as [Ed Hd]. destruct (read_i (acc (se_r s)) (se_i s) _ (take n (drop (se_to_i s) (e_out (se_r s)))) Hmr Hi) as (e & -> & Hw).
    { rewrite Ed. etrans; [apply prefix_take|exact Hor']. }
    cbn [obind]. eexists. split; [reflexivity|]. rewrite Ed in Hw. apply joint_i; [done|exact Hw|by apply Hd].
  - destruct (deliver (e_out (se_i s)) (se_to_r s) n) as [Ed Hd]. destruct (read_r (acc (se_i s)) (se_r s) _ (take n (drop (se_to_r s) (e_out (se_i s)))) Hmi Hr) as (e & -> & Hw).
    { rewrite Ed. etrans; [apply prefix_take|exact Hoi']. }
    cbn [obind]. eexists. split; [reflexivity|]. rewrite Ed in Hw. apply joint_r; [done|exact Hw|by apply Hd].
  - destruct (write_i (acc (se_r s)) (se_i s) _ data Hi Hst) as (e & -> & Hw). cbn [obind]. eexists. split; [reflexivity|]. by apply joint_i.
  - destruct (write_r (acc (se_i s)) (se_r s) _ data Hr Hst) as (e & -> & Hw). cbn [obind]. eexists. split; [reflexivity|]. by apply joint_r.
Qed.
Lemma session_run_joint steps : forall s, joint s -> Forall step_ok steps -> exists s' rs, session_run mi mr steps s = Ret (s', rs) /\
  rs = replicate (length steps) HSK_SUCCESS /\ joint s'.
Proof.
  induction steps as [|st steps IH]; intros s Hj Hst; cbn [session_run]; [by exists s, []|]. apply Forall_cons in Hst as [Hst Hsts].
  destruct (session_step_joint s st Hj Hst) as (s1 & -> & Hj1). cbn [obind]. destruct (IH s1 Hj1 Hsts) as (s2 & rs & -> & -> & Hj2). cbn [obind]. by eexists _, _.
Qed.
(** What was delivered to the owners is a prefix of what was sent; all of it, when nothing is left on the wires. *)
Lemma open_got {C} `{Owner C} tin tout pin pout msgs (e0 e : endpoint C) c n : between tin tout pin pout msgs e0 e c n \/ inside tin tout pin pout msgs e0 e c n ->
  got e `prefix_of` msgs.
Proof. intros [(l & rest & -> & Ho & _)|(l & m & rest & -> & Ho & _)]; destruct Ho as (_ & _ & _ & -> & _); by apply prefix_app_r. Qed.
Lemma got_i msgs e0 e total : waiting (inv_i msgs e0) e total -> got e `prefix_of` msgs.
Proof.
  intros (c & n & buf & [(Hs & _)|Ho] & _); [|by eapply open_got]. destruct Hs as (_ & _ & _ & _ & _ & _ & _ & _ & _ & -> & _). apply prefix_nil.
Qed.
Lemma got_r msgs e0 e total : waiting (inv_r msgs e0) e total -> got e `prefix_of` msgs.
Proof.
  intros (c & n & buf & [(Hs & _)|[(Hs & _)|Ho]] & _); [| |by eapply open_got].
  - destruct Hs as (_ & _ & _ & _ & _ & _ & _ & _ & -> & _). apply prefix_nil.
  - destruct Hs as (_ & _ & _ & _ & _ & _ & _ & _ & -> & _). apply prefix_nil.
Qed.
(** An open end that has read the whole stream has given all of it to its owner. *)
Lemma open_all {C} `{Owner C} tin tout pin pout msgs (e0 e : endpoint C) c n buf : between tin tout pin pout msgs e0 e c n \/ inside tin tout pin pout msgs e0 e c n ->
  (length buf < n)%nat -> c ++ buf = pin ++ stream tin msgs -> got e = msgs.
Proof.
  intros [(l & rest & -> & Ho & -> & ->)|(l & m & rest & -> & Ho & -> & ->)] Hl E; rewrite stream_app, <-!(assoc_L (++)) in E; do 2 apply app_inv_head in E;
    destruct Ho as (_ & _ & _ & -> & _).
  - destruct rest as [|m rest]; [by rewrite app_nil_r|]. cbn [stream] in E. apply (f_equal length) in E. unfold frame in E. rewrite !length_app, length_frame_header in E. lia.
  - cbn [stream] in E. apply (f_equal length) in E. unfold frame in E. rewrite !length_app, !length_frame_header, length_sealed in E. lia.
Qed.
Lemma open_length {C} `{Owner C} tin tout pin pout msgs (e0 e : endpoint C) c n buf : between tin tout pin pout msgs e0 e c n \/ inside tin tout pin pout msgs e0 e c n ->
  (length pin <= length (c ++ buf))%nat.
Proof. intros [(l & rest & _ & _ & _ & ->)|(l & m & rest & _ & _ & _ & ->)]; rewrite !length_app; lia. Qed.
Lemma open_done {C} `{Owner C} tin tout pin pout msgs (e0 e : endpoint C) c n : between tin tout pin pout msgs e0 e c n \/ inside tin tout pin pout msgs e0 e c n ->
  state_of e = BRONTIDE_ACT_DONE.
Proof. by intros [(l & rest & _ & (Hs & _) & _)|(l & m & rest & _ & (Hs & _) & _)]. Qed.
Lemma joint_drained s : joint s -> se_to_i s = length (e_out (se_r s)) -> se_to_r s = length (e_out (se_i s)) ->
  state_of (se_i s) = BRONTIDE_ACT_DONE /\ state_of (se_r s) = BRONTIDE_ACT_DONE /\ got (se_r s) = acc (se_i s) /\ got (se_i s) = acc (se_r s).
Proof.
  intros (Hi & Hr & _) Ei Er. rewrite Ei, take_ge in Hi by lia. rewrite Er, take_ge in Hr by lia.
  destruct Hi as (ci & ni & bi & Hi & (_ & _ & _ & _ & _ & _ & Hbi) & Eo). destruct Hr as (cr & nr & br & Hr & (_ & _ & _ & _ & _ & _ & Hbr) & Eo').
  assert (L1 := length_act_1). assert (L2 := length_act_2). assert (L3 := length_act_3).
  destruct Hi as [(Hs & -> & ->)|Hi]; destruct Hr as [(Hs' & -> & ->)|[(Hs' & -> & ->)|Hr]].
  - destruct Hs as (_ & _ & _ & _ & _ & _ & _ & _ & _ & _ & Ho & _). rewrite Ho in Eo'. apply (f_equal length) in Eo'. cbn [app] in Eo'. lia.
  - destruct Hs' as (_ & _ & _ & _ & _ & _ & _ & _ & _ & Ho & _). rewrite Ho in Eo. apply (f_equal length) in Eo. cbn [app] in Eo. lia.
  - apply open_out in Hr as (Ho & _ & _). rewrite Ho in Eo. apply (f_equal length) in Eo. rewrite length_app in Eo. cbn [app] in Eo. lia.
  - assert (Hl := open_length _ _ _ _ _ _ _ _ _ bi Hi). destruct Hs' as (_ & _ & _ & _ & _ & _ & _ & _ & _ & Ho & _). rewrite <-Eo, Ho in Hl. cbn [length] in Hl. lia.
  - apply open_out in Hi as (Ho & _ & _). rewrite Ho in Eo'. apply (f_equal length) in Eo'. rewrite !length_app in Eo'. lia.
  - split; [exact (open_done _ _ _ _ _ _ _ _ _ Hi)|]. split; [exact (open_done _ _ _ _ _ _ _ _ _ Hr)|].
    destruct (open_out _ _ _ _ _ _ _ _ _ Hi) as (Ho & _ & _). destruct (open_out _ _ _ _ _ _ _ _ _ Hr) as (Ho' & _ & _). split.
    + eapply open_all; [exact Hr|exact Hbr|]. by rewrite <-Eo'.
    + eapply open_all; [exact Hi|exact Hbi|]. by rewrite <-Eo.
Qed.
(** The start. *)
Lemma buffer_new {C} `{Owner C} m (e : endpoint C) n : n <> 0%nat -> exists e', realloc_msg (fun n => Some (ma_fresh m n)) e n = (e', true) /\ buffer_at e' [] n /\
  forall Q : endpoint C -> Prop, (forall msg pos len allocs, Q (with_buffer e msg pos len allocs)) -> Q e'.
Proof.
  intros Hn. unfold realloc_msg. eexists. split; [reflexivity|]. split.
  - eexists. split; [reflexivity|]. cbn [with_b e_b with_net b_net nt_msg_len nt_msg_pos length]. split_and!; try done; [|lia].
    rewrite length_app, length_take, length_map, length_seq. lia.
  - intros Q HQ. apply HQ.
Qed.
Lemma session_start_joint (a : A) (b : B) : exists s, session_start mi mr a b (k_i k) (k_r k) (ec_pubkey_serialize (p_r k)) = Ret (s, [HSK_SUCCESS; HSK_SUCCESS]) /\
  joint s /\ acc (se_i s) = [] /\ acc (se_r s) = [].
Proof.
  unfold session_start, client_start, hsk_brontide_connect. cbn [e_b].
  destruct (init_initiator_at (ma_endian mi) (ma_garbage mi) (ma_addr mi) Hgi (k_i k) _ (k_i_bytes _ _ _ Hk) (serialize_bytes (p_r k))) as (sy & -> & Hsym). cbn [obind].
  unfold hsk_brontide_on_connect at 1. cbn [with_b e_b with_hs b_hs start_hs hs_initiator e_random]. set (b0 := with_state _ _).
  destruct (draw_i _ _ _ Hk) as (n & n' & ok & Hkey & Hu). destruct (s_bytes _ _ _ Hk) as (Hs1 & _ & _).
  destruct (gen_act_at (ma_endian mi) (ma_garbage mi) (ma_addr mi) Hgi (ma_random mi) b0 0 hs_remote_static _ (e_i k) n n' (q_i k) ok (u_i k) (p_r k) (s_1 k) Hsym Hkey)
    as (sy1 & E & Hsym1); try done.
  { apply (pub_e_i _ _ _ Hk). }
  { apply (u_i_bytes _ _ _ Hk). }
  { cbn. apply parse_serialized. }
  { apply (ecdh_1 _ _ _ Hk). }
  unfold hsk_brontide_gen_act_one. rewrite E. clear E. cbn [obind]. fold (sym_0 k) in *. fold (tag_1 k) in *. fold (sym_1 k) in *. fold (act_1 k).
  unfold write_cb. cbn [negb Z.eqb HSK_SUCCESS obind e_writes e_out e_b e_owner e_log e_random e_allocs with_b with_random app].
  match goal with |- context [realloc_msg _ ?e ?n] => destruct (buffer_new mi e n) as (i & -> & Hbi & Hqi); [done|] end. cbn [obind].
  unfold hsk_brontide_accept. cbn [e_b].
  destruct (init_responder_at (ma_endian mr) (ma_garbage mr) (ma_addr mr) Hgr (k_r k) (p_r k) (k_r_bytes _ _ _ Hk) (pub_k_r _ _ _ Hk)) as (sy2 & -> & Hsym2). cbn [obind].
  unfold hsk_brontide_on_connect. cbn [with_b e_b with_hs b_hs start_hs hs_initiator obind negb Z.eqb HSK_SUCCESS].
  match goal with |- context [realloc_msg _ ?e ?n] => destruct (buffer_new mr e n) as (r & -> & Hbr & Hqr); [done|] end. cbn [obind].
  eexists. split; [reflexivity|]. assert (Hi : acc i = [] /\ second_i i i) by (apply Hqi; intros; split; [done|]; split_and!; done || apply cs_init_at || apply extends_refl).
  assert (Hr : acc r = [] /\ first_r r r) by (apply Hqr; intros; split; [done|]; split_and!; done || apply cs_init_at || apply extends_refl).
  destruct Hi as [Hai Hi]. destruct Hr as [Har Hr]. split; [|by split]. split; [|split; [|split; cbn [se_to_i se_to_r]; lia]]; cbn [se_to_i se_to_r se_i se_r].
  - exists [], 80%nat, []. split; [left; by split|]. by split; [exact Hbi|].
  - exists [], 80%nat, []. split; [left; by split|]. by split; [exact Hbr|].
Qed.
End Ends.

(** C5: Two ends of the encrypted transport understand each other. For machines of either byte order with random numbers, static
    keys that are valid and owners that write messages of legal size, in callbacks or at any other time: however
    the network cuts and delays the bytes, as long as it keeps their order, no step fails, stops the process or returns an
    error; each owner gets a prefix of the messages that the other wrote while its transport was open, in order and unchanged, across all
    rotations of the keys; and when the wires are empty both handshakes are done and each owner has got all of them. *)
Theorem brontide_session {P : Type} `{Secp256k1Laws P} {A B : Type} `{Owner A} `{Owner B} (mi mr : machine) (a : A) (b : B) (kI kR : list Z) (p : P) (steps : list step) :
  bytes_n 64 (ma_garbage mi) -> bytes_n 64 (ma_garbage mr) -> owner_ok A message_ok False -> owner_ok B message_ok False ->
  bytes_n 32 kI -> bytes_n 32 kR -> ec_seckey_verify kI = true -> ec_seckey_verify kR = true -> ec_pubkey_create kR = Some p ->
  (exists e n x, hsk_ec_create_privkey (ma_random mi) 0 = Ret (true, e, n) /\ ma_random mi n = Some x) ->
  (exists e n x, hsk_ec_create_privkey (ma_random mr) 0 = Ret (true, e, n) /\ ma_random mr n = Some x) ->
  Forall step_ok steps ->
  exists s0 s, session_start mi mr a b kI kR (ec_pubkey_serialize p) = Ret (s0, [HSK_SUCCESS; HSK_SUCCESS]) /\
  session_run mi mr steps s0 = Ret (s, replicate (length steps) HSK_SUCCESS) /\
  let (li, lr) := (e_log (se_i s), e_log (se_r s)) in
  received lr `prefix_of` accepted li /\ received li `prefix_of` accepted lr /\
  (se_to_i s = length (e_out (se_r s)) -> se_to_r s = length (e_out (se_i s)) ->
    nt_state (b_net (e_b (se_i s))) = BRONTIDE_ACT_DONE /\ nt_state (b_net (e_b (se_r s))) = BRONTIDE_ACT_DONE /\
    received lr = accepted li /\ received li = accepted lr).
Proof.
  intros Hgi Hgr Hoi Hor Hki Hkr Hvi Hvr Hp Hri Hrr Hsteps.
  destruct (drawn_exists mi mr kI kR p Hki Hkr Hvi Hvr Hp Hri Hrr) as (k & Hk & <- & <- & <-).
  destruct (session_start_joint mi mr Hgi Hgr k Hk a b) as (s0 & E0 & Hj0 & _).
  destruct (session_run_joint mi mr Hgi Hgr Hoi Hor k Hk steps s0 Hj0 Hsteps) as (s & rs & E & -> & Hj).
  exists s0, s. split; [exact E0|]. split; [exact E|]. assert (Hd := joint_drained mi mr k Hk s Hj). destruct Hj as (Hi & Hr & _).
  split; [exact (got_r k _ _ _ _ Hr)|]. split; [exact (got_i k _ _ _ _ Hi)|]. exact Hd.
Qed.

(** Two machines and a short session. *)
Definition sample_machine (h : endian) (seed : Z) : machine :=
  mk_machine h (replicate 64 7) (fun i => 64 * Z.of_nat i) (fun n => Some (replicate 32 (seed + Z.of_nat (Nat.min n 100)))) (fun _ _ => 9).
Definition sample_steps : list step :=
  [ToResponder 33; InitiatorWrites [0; 1]; ToResponder 60; ToInitiator 80; ToResponder 1; InitiatorWrites [104; 105]; ToResponder 1000; ToInitiator 1000].
Lemma brontide_session_witness : exists s0 s, session_start (sample_machine Little 1) (sample_machine Big 101) [] [] (replicate 32 5) (replicate 32 3) (toy_point true) = Ret (s0, [0; 0]) /\
  session_run (sample_machine Little 1) (sample_machine Big 101) sample_steps s0 = Ret (s, replicate 8 0) /\
  received (e_log (se_r s)) `prefix_of` accepted (e_log (se_i s)).
Proof.
  assert (Hg : forall h seed, bytes_n 64 (ma_garbage (sample_machine h seed))) by (intros; split; [reflexivity|by apply bytes_replicate]).
  assert (Hr : forall h seed, hsk_ec_create_privkey (ma_random (sample_machine h seed)) 0 = hsk_ec_create_privkey (fun n => Some (replicate 32 (seed + Z.of_nat (Nat.min n 100)))) 0) by done.
  assert (Hi : hsk_ec_create_privkey (fun n => Some (replicate 32 (1 + Z.of_nat (Nat.min n 100)))) 0 = Ret (true, replicate 32 1, 1%nat)) by (vm_compute; reflexivity).
  assert (Hs : hsk_ec_create_privkey (fun n => Some (replicate 32 (101 + Z.of_nat (Nat.min n 100)))) 0 = Ret (true, replicate 32 101, 1%nat)) by (vm_compute; reflexivity).
  assert (Hst : Forall step_ok sample_steps).
  { unfold sample_steps. repeat constructor; cbn; try lia; (apply (bool_decide_unpack _); vm_compute; exact I). }
  destruct (brontide_session (sample_machine Little 1) (sample_machine Big 101) [] [] (replicate 32 5) (replicate 32 3) true sample_steps)
    as (s0 & s & E0 & E & Hpre & _).
  - apply Hg.
  - apply Hg.
  - apply sample_owner_ok.
  - apply sample_owner_ok.
  - split; [reflexivity|by apply bytes_replicate].
  - split; [reflexivity|by apply bytes_replicate].
  - vm_compute. reflexivity.
  - vm_compute. reflexivity.
  - vm_compute. reflexivity.
  - eexists _, _, _. rewrite Hr. split; [exact Hi|reflexivity].
  - eexists _, _, _. rewrite Hr. split; [exact Hs|reflexivity].
  - exact Hst.
  - exists s0, s. split; [exact E0|]. split; [exact E|exact Hpre].
Defined.
