(* ===== verification/MapTable.v ===== *)
(** A table whose number of entries is bounded, as its users keep it, and the change of a value
    through the pointer in the table. *)

From S2P Require Import Prelude Map MapSpec MapInv MapResize MapProps.

(** What a pointer in a table leads to is changed in place. *)
Definition map_update {K V} `{MapFuncs K} (map : hsk_map_t K V) (key : K) (value : V) : outcome (hsk_map_t K V) :=
  let* k := hsk_map_lookup map key in
  let* vs := store (vals map) k (Some value) in
  Ret (with_arrays map (keys map) vs).

Section Table.
Context {K V N : Type} `{MapKey K N} `{Countable N}.
Implicit Types (map : hsk_map_t K V) (M : gmap N V) (b : Z).

(** [map] stands for [M], which never has more than [b] entries. *)
Record tabled b map M : Prop := {
  tb_repr : repr map M;
  tb_size : Z.of_nat (base.size M) <= b;
  tb_buckets : n_buckets map <= Z.max 4 (4 * b);
}.
Lemma tabled_init b : 0 <= b -> tabled b hsk_map_init_map ∅.
Proof. intros Hb. split; [apply repr_init|rewrite map_size_empty; lia|cbn; lia]. Qed.
Lemma tabled_mono b c map M : tabled b map M -> b <= c -> tabled c map M.
Proof. intros [Hr Hs Hn] Hbc. split; [done|lia|lia]. Qed.
Lemma tabled_get b map M key : tabled b map M -> key_ok key -> hsk_map_get map key = Ret (M !! key_norm key).
Proof. intros Ht. apply get_spec. apply Ht. Qed.
Lemma tabled_has b map M key : tabled b map M -> key_ok key -> hsk_map_has map key = Ret (bool_decide (is_Some (M !! key_norm key))).
Proof. intros Ht. apply has_spec. apply Ht. Qed.
Lemma tabled_del b map M key : tabled b map M -> key_ok key -> exists map',
  hsk_map_del map key = Ret (bool_decide (is_Some (M !! key_norm key)), map') /\ tabled b map' (delete (key_norm key) M).
Proof.
  intros [Hr Hs Hn] Hk. destruct (del_spec map M key Hr Hk) as (map' & E & Hr' & _ & Hn'). exists map'. split; [done|]. split; [done| |lia].
  destruct (M !! key_norm key) as [v|] eqn:Ev; [rewrite map_size_delete_Some by done; lia|by rewrite delete_id].
Qed.
Lemma tabled_set b map M key value : tabled b map M -> key_ok key -> b <= 2 ^ 28 -> Z.of_nat (base.size (<[key_norm key := value]> M)) <= b ->
  exists map', hsk_map_set (fun _ => true) map key value = Ret (true, map') /\ tabled b map' (<[key_norm key := value]> M).
Proof.
  intros [Hr Hs Hn] Hk Hb Hsz. destruct (set_spec (fun _ => true) map M key value Hr) as (ok & map' & E & Hr' & Hal & _ & Hn'); [lia|done|].
  destruct ok; [|by destruct Hal]. exists map'. split; [done|]. split; [done|done|]. rewrite (repr_count map M Hr) in Hn'. lia.
Qed.
Lemma tabled_each b map M : tabled b map M -> exists vs, map_each map = Ret vs /\ vs ≡ₚ (map_to_list M).*2.
Proof. intros Ht. apply map_each_spec, Ht. Qed.
Lemma tabled_reset b map M : tabled b map M -> tabled b (hsk_map_reset map) ∅.
Proof.
  intros [Hr Hs Hn]. destruct (reset_spec map M Hr) as (Hr' & _ & Hn'). split; [done|rewrite map_size_empty; lia|lia].
Qed.
Lemma tabled_clear b map M free_func : tabled b map M -> exists vs map', hsk_map_clear free_func map = Ret (vs, map') /\ tabled b map' ∅.
Proof.
  intros Ht. unfold hsk_map_clear. destruct (is_map map && free_func).
  - destruct (tabled_each b map M Ht) as (vs & -> & _). cbn [obind]. eexists _, _. split; [done|]. by eapply tabled_reset.
  - eexists _, _. split; [reflexivity|]. by eapply tabled_reset.
Qed.
Lemma update_repr map M key value v0 : repr map M -> key_ok key -> M !! key_norm key = Some v0 ->
  exists map', map_update map key value = Ret map' /\ repr map' (<[key_norm key := value]> M) /\ n_buckets map' = n_buckets map.
Proof.
  intros Hr Hk Hv. destruct (find_spec map M key Hr Hk) as [(x & k & v & El & Hx & _ & Hl & Hkx & Ek & Hvx & _)|[_ E]]; [|congruence].
  unfold map_update. rewrite El. cbn [obind]. assert (Hwf := live_table map M x Hr Hl). assert (Hlen := tw_vals _ Hwf).
  assert (Hxr := proj1 Hl). unfold store. rewrite decide_True by lia. cbn [obind]. eexists. split; [reflexivity|]. split; [|done].
  assert (Hvne : forall i w, 0 <= i -> i <> x -> valued (<[Z.to_nat x := Some value]> (vals map)) i w <-> valued (vals map) i w).
  { intros i w Hi Hne. unfold valued. by rewrite list_lookup_insert_ne by lia. }
  assert (Hvat : valued (<[Z.to_nat x := Some value]> (vals map)) x value) by (apply list_lookup_insert_eq; lia).
  split; cbn; [apply Hr|right; destruct Hwf; split; cbn; try done; by rewrite length_insert| |].
  - intros i Hi. destruct (decide (i = x)) as [->|Hne]; [by exists value|]. destruct (rp_full _ _ Hr i Hi) as [w Hw].
    exists w. apply Hvne; [apply Hi|done|done].
  - intros a w. rewrite lookup_insert_Some, (rp_iff _ _ Hr). split.
    + intros [[<- <-]|[Hne (k' & <- & i & Hi & Hki & Hvi)]].
      * exists k. split; [done|]. by exists x.
      * exists k'. split; [done|]. exists i. cbn. split; [done|]. split; [done|]. apply Hvne; [apply Hi| |done].
        intros ->. apply Hne. unfold keyed in *. rewrite Hkx in Hki. injection Hki as ->. done.
    + intros (k' & <- & i & Hi & Hki & Hvi). cbn in Hi, Hki, Hvi. destruct (decide (i = x)) as [->|Hne].
      * left. unfold keyed, valued in *. rewrite Hkx in Hki. injection Hki as ->. rewrite Hvat in Hvi. by injection Hvi.
      * right. split; [|exists k'; split; [done|]; exists i; split; [done|]; split; [done|]; apply Hvne; [apply Hi|done|done]].
        intros E. apply Hne. eapply (aw_unique _ _ _ (tw_arrays _ Hwf)); [exact Hi|exact Hl|exact Hki|exact Hkx|congruence].
Qed.
Lemma tabled_update b map M key value v0 : tabled b map M -> key_ok key -> M !! key_norm key = Some v0 ->
  exists map', map_update map key value = Ret map' /\ tabled b map' (<[key_norm key := value]> M).
Proof.
  intros [Hr Hs Hn] Hk Hv. destruct (update_repr map M key value v0 Hr Hk Hv) as (map' & E & Hr' & Hn'). exists map'. split; [done|].
  split; [done| |lia]. by rewrite map_size_insert_Some by done.
Qed.
End Table.
