(* ===== verification/Addrman.v ===== *)
(** The addresses of peers: [addrmgr.c] and [seeds.h].

    The array of entries is the list of those in use, and a pointer to an entry is its place. What is
    asked of the clock, of the random numbers and of the allocator is numbered, as in [Host]. The
    arithmetic on [double] is that of IEEE 754 with 53 bits, rounded to nearest. *)

From Stdlib Require Import String.
From Stdlib Require Import Floats.SpecFloat.
From S2P Require Import Prelude Bio Addr Timedata Map MapProps MapTable Chacha20.

(** * What the pool asks *)

(** [ph_al n i] answers the [i]-th allocation of question [n]; [ph_uv n] is what the call of libuv in question [n] returns,
    and [ph_socket n] whether it could make a socket.
    [ph_pton] and [ph_ntop] are the functions of libuv that parse and print addresses. *)
Class PoolHost := {
  ph_clock : nat -> Z;
  ph_random : nat -> Z;
  ph_al : nat -> nat -> bool;
  ph_uv : nat -> Z;
  ph_socket : nat -> bool;
  ph_pton : Z -> list Z -> option (list Z);
  ph_ntop : Z -> list Z -> nat -> option (list Z);
}.
Definition hio (A : Type) : Type := nat -> outcome (A * nat).
#[export] Instance hio_ret : MRet hio := fun A a n => Ret (a, n).
#[export] Instance hio_bind : MBind hio := fun A B k m n => let* (a, n) := m n in k a n.
Definition hask : hio nat := fun n => Ret (n, S n).
Definition hlift {A} (o : outcome A) : hio A := fun n => let* a := o in Ret (a, n).
Definition hassert (b : bool) : hio unit := hlift (oassert b).

Section Ask.
Context `{PoolHost}.
(** [hsk_now] of [utils.c]. *)
Definition now_of : hio Z := n ← hask; _ ← hassert (0 <=? ph_clock n); mret (ph_clock n).
Definition hsk_random : hio Z := n ← hask; mret (u32 (ph_random n)).
Definition hsk_nonce : hio Z := a ← hsk_random; b ← hsk_random; mret (u64 (u64 (Z.shiftl a 32) + b)).
Definition timedata_now (td : hsk_timedata_t) : hio Z := now ← now_of; mret (hsk_timedata_now now td).
End Ask.

(** * Keys of the tables *)

Definition hsk_addr_hash (addr : hsk_addr_t) : Z := hsk_map_tweak3 (take 36 (ad_ip addr)) (ad_type addr + 1) (ad_port addr).
#[export] Instance addr_funcs : MapFuncs hsk_addr_t := { hash_func := hsk_addr_hash; equal_func := hsk_addr_equal }.

(** * Entries *)

Definition HSK_ADDR_MAX : nat := 2000.
Definition HSK_HORIZON_DAYS : Z := 30.
Definition HSK_RETRIES : Z := 3.
Definition HSK_MIN_FAIL_DAYS : Z := 7.
Definition HSK_MAX_FAILURES : Z := 10.
Definition HSK_MAX_REFS : Z := 8.
Definition HSK_BAN_TIME : Z := 24 * 60 * 60.

Record hsk_addrentry_t := mk_entry {
  en_addr : hsk_addr_t;
  en_time : Z;
  en_services : Z;
  en_attempts : Z;
  en_last_success : Z;
  en_last_attempt : Z;
  en_ref_count : Z;
  en_used : bool;
  en_removed : bool;
}.
(** Entries by address, and the times of bans. *)
Record hsk_addrman_t := mk_addrman {
  am_addrs : list hsk_addrentry_t;
  am_map : hsk_map_t hsk_addr_t nat;
  am_banned : hsk_map_t hsk_addr_t Z;
}.
Definition am_size (am : hsk_addrman_t) : Z := Z.of_nat (length (am_addrs am)).
Definition blank_entry : hsk_addrentry_t := mk_entry hsk_addr_init 0 0 0 0 0 0 false false.
Definition entry_at (am : hsk_addrman_t) (i : nat) : outcome hsk_addrentry_t := of_option Overread (am_addrs am !! i).
Definition with_entry (am : hsk_addrman_t) (i : nat) (e : hsk_addrentry_t) : hsk_addrman_t :=
  mk_addrman (<[i := e]> (am_addrs am)) (am_map am) (am_banned am).
Definition with_am_map (am : hsk_addrman_t) (m : hsk_map_t hsk_addr_t nat) : hsk_addrman_t := mk_addrman (am_addrs am) m (am_banned am).
Definition with_banned (am : hsk_addrman_t) (m : hsk_map_t hsk_addr_t Z) : hsk_addrman_t := mk_addrman (am_addrs am) (am_map am) m.

(** [entry->time] is unsigned and [now] is not; the differences with [entry->time] are unsigned. *)
Definition is_stale (now : Z) (e : hsk_addrentry_t) : bool :=
  if negb (en_last_attempt e =? 0) && (i64 (now - 60) <=? en_last_attempt e) then false
  else if u64 (now + 10 * 60) <? en_time e then true
  else if en_time e =? 0 then true
  else if HSK_HORIZON_DAYS * 24 * 60 * 60 <? u64 (now - en_time e) then true
  else if (en_last_success e =? 0) && (HSK_RETRIES <=? en_attempts e) then true
  else if HSK_MIN_FAIL_DAYS * 24 * 60 * 60 <? i64 (now - en_last_success e) then HSK_MAX_FAILURES <=? en_attempts e
  else false.

(** ** The chance of an entry *)

Definition dmul : spec_float -> spec_float -> spec_float := SFmul 53 1024.
(** The conversion of an integer from 0 to [2 ^ 53], which is exact. *)
Definition dint (n : Z) : spec_float :=
  if n <=? 0 then S754_zero false else S754_finite false (Z.to_pos (Z.shiftl n (52 - Z.log2 n))) (Z.log2 n - 52).
Example dint_spec : List.map dint [0; 1; 3; 2 ^ 30 - 1; 2 ^ 30] =
  List.map (fun n => binary_normalize 53 1024 n 0 false) [0; 1; 3; 2 ^ 30 - 1; 2 ^ 30].
Proof. vm_compute. reflexivity. Qed.
(** The doubles nearest to 0.01, 0.66 and 1.2. *)
Definition d0_01 : spec_float := S754_finite false 5764607523034235 (-59).
Definition d0_66 : spec_float := S754_finite false 5944751508129055 (-53).
Definition d1_2 : spec_float := S754_finite false 5404319552844595 (-52).
Definition hsk_addrentry_chance (e : hsk_addrentry_t) (now : Z) : spec_float :=
  let c := dint 1 in
  let c := if i64 (now - en_last_attempt e) <? 60 * 10 then dmul c d0_01 else c in
  let r := Nat.iter (Z.to_nat (Z.min (en_attempts e) 8)) (fun r => dmul r d0_66) (dint 1) in
  dmul c r.

Section Addrman.
Context `{PoolHost}.
Implicit Types (am : hsk_addrman_t) (td : hsk_timedata_t) (addr : hsk_addr_t).

Definition hsk_addrman_is_stale td (e : hsk_addrentry_t) : hio bool := now ← timedata_now td; mret (is_stale now e).

(** The place of the entry, and whether it is new. *)
Fixpoint stale_loop (fuel : nat) td am : hio (option nat * hsk_addrman_t) :=
  match fuel with
  | O => mret (None, am)
  | S fuel' =>
      r ← hsk_random;
      let index := Z.to_nat (r mod am_size am) in
      e ← hlift (entry_at am index);
      stale ← hsk_addrman_is_stale td e;
      if stale : bool then
        m ← hlift (hsk_map_del (am_map am) (en_addr e)); mret (Some index, with_am_map am (snd m))
      else stale_loop fuel' td am
  end.
Definition hsk_addrman_alloc_entry td am : hio (option nat * bool * hsk_addrman_t) :=
  if (length (am_addrs am) =? HSK_ADDR_MAX)%nat then
    r ← stale_loop (Nat.min (length (am_addrs am)) 10) td am; mret (fst r, false, snd r)
  else
    _ ← hassert (length (am_addrs am) <? HSK_ADDR_MAX)%nat;
    mret (Some (length (am_addrs am)), true, mk_addrman (am_addrs am ++ [blank_entry]) (am_map am) (am_banned am)).

Definition hsk_addrman_get am addr : outcome (option hsk_addrentry_t) :=
  let* i := hsk_map_get (am_map am) addr in
  match i with None => Ret None | Some i => let* e := entry_at am i in Ret (Some e) end.
(** An entry that is there is changed in place: the new entry and the result. *)
Definition on_entry {A} am addr (none : A) (f : hsk_addrentry_t -> hio (A * hsk_addrentry_t)) : hio (A * hsk_addrman_t) :=
  i ← hlift (hsk_map_get (am_map am) addr);
  match i with
  | None => mret (none, am)
  | Some i => e ← hlift (entry_at am i); r ← f e; mret (fst r, with_entry am i (snd r))
  end.

(** An address that is known is told again. *)
Definition seen_again td (na : hsk_netaddr_t) (src : bool) (e : hsk_addrentry_t) : hio (bool * hsk_addrentry_t) :=
  now ← timedata_now td;
  let penalty := if src then 2 * 60 * 60 else 0 in
  let services := Z.lor (en_services e) (na_services na) in
  let interval := if u64 (now - na_time na) <? 24 * 60 * 60 then 60 * 60 else 24 * 60 * 60 in
  let time := if en_time e <? u64 (na_time na - interval - penalty) then na_time na else en_time e in
  let refs n := mk_entry (en_addr e) time services (en_attempts e) (en_last_success e) (en_last_attempt e) n (en_used e) (en_removed e) in
  let e := refs (en_ref_count e) in
  if negb (time =? 0) && (na_time na <=? time) then mret (false, e)
  else if en_used e then mret (false, e)
  else
    _ ← hassert (0 <? en_ref_count e);
    if en_ref_count e =? HSK_MAX_REFS then mret (false, e)
    else
      _ ← hassert (en_ref_count e <? HSK_MAX_REFS);
      let factor := Nat.iter (Z.to_nat (en_ref_count e)) (fun factor => u32 (factor * 2)) 1 in
      if factor =? 0 then mret (false, e)
      else
        r ← hsk_random;
        if negb (r mod factor =? 0) then mret (false, e) else mret (true, refs (i32 (en_ref_count e + 1))).
Definition hsk_addrman_add_entry td am (na : hsk_netaddr_t) (src : bool) : hio (bool * hsk_addrman_t) :=
  i ← hlift (hsk_map_get (am_map am) (na_addr na));
  match i with
  | Some i => on_entry am (na_addr na) false (seen_again td na src)
  | None =>
      r ← hsk_addrman_alloc_entry td am;
      let '(i, alloc, am) := (r : option nat * bool * hsk_addrman_t) in
      match i with
      | None => mret (false, am)
      | Some i =>
          let am := with_entry am i (mk_entry (na_addr na) (na_time na) (na_services na) 0 0 0 1 false false) in
          n ← hask;
          m ← hlift (hsk_map_set (ph_al n) (am_map am) (na_addr na) i);
          let am := with_am_map am (snd m) in
          if fst m : bool then mret (true, am)
          else mret (false, if alloc then mk_addrman (take i (am_addrs am)) (am_map am) (am_banned am) else am)
      end
  end.

Definition add_now td am addr : hio (bool * hsk_addrman_t) :=
  now ← timedata_now td; hsk_addrman_add_entry td am (mk_netaddr (u64 now) 1 addr) false.
Definition hsk_addrman_add_addr td am addr : hio (bool * hsk_addrman_t) := add_now td am addr.
Definition hsk_addrman_add_na td am (na : hsk_netaddr_t) : hio (bool * hsk_addrman_t) := hsk_addrman_add_entry td am na true.
Definition hsk_addrman_add_sa td am (sa : sockaddr) : hio (bool * hsk_addrman_t) :=
  match hsk_addr_from_sa sa with None => mret (false, am) | Some addr => add_now td am addr end.
Definition hsk_addrman_add_ip td am (af : Z) (ip : list Z) (port : Z) : hio (bool * hsk_addrman_t) :=
  let '(ok, addr) := hsk_addr_from_ip af ip port in
  if negb ok then mret (false, am) else add_now td am addr.
Definition hsk_addrman_remove_addr am addr : hio (bool * hsk_addrman_t) :=
  on_entry am addr false (fun e => mret (true, mk_entry (en_addr e) (en_time e) (en_services e) (en_attempts e) (en_last_success e)
    (en_last_attempt e) (en_ref_count e) (en_used e) true)).
Definition hsk_addrman_mark_attempt td am addr : hio (bool * hsk_addrman_t) :=
  on_entry am addr false (fun e => now ← timedata_now td; mret (true, mk_entry (en_addr e) (en_time e) (en_services e)
    (i32 (en_attempts e + 1)) (en_last_success e) now (en_ref_count e) (en_used e) (en_removed e))).
Definition hsk_addrman_mark_success td am addr : hio (bool * hsk_addrman_t) :=
  on_entry am addr false (fun e =>
    now ← timedata_now td;
    if 20 * 60 <? u64 (now - en_time e) then mret (true, mk_entry (en_addr e) (u64 now) (en_services e) (en_attempts e)
      (en_last_success e) (en_last_attempt e) (en_ref_count e) (en_used e) (en_removed e))
    else mret (false, e)).
Definition hsk_addrman_mark_ack td am addr (services : Z) : hio (bool * hsk_addrman_t) :=
  on_entry am addr false (fun e => now ← timedata_now td; mret (true, mk_entry (en_addr e) (en_time e)
    (Z.lor (en_services e) services) 0 now now (en_ref_count e) true (en_removed e))).

(** ** Bans *)

Definition hsk_addrman_clear_banned am : outcome hsk_addrman_t :=
  let* (_, m) := hsk_map_clear true (am_banned am) in Ret (with_banned am m).
Definition hsk_addrman_add_ban am addr : hio (bool * hsk_addrman_t) :=
  entry ← hlift (hsk_map_get (am_banned am) addr);
  now ← now_of;
  match entry with
  | Some _ => m ← hlift (map_update (am_banned am) addr now); mret (true, with_banned am m)
  | None =>
      n ← hask;
      if negb (ph_al n 0%nat) then mret (false, am)
      else m ← hlift (hsk_map_set (fun i => ph_al n (S i)) (am_banned am) addr now); mret (fst m, with_banned am (snd m))
  end.
Definition hsk_addrman_is_banned am addr : hio (bool * hsk_addrman_t) :=
  entry ← hlift (hsk_map_get (am_banned am) addr);
  match entry with
  | None => mret (false, am)
  | Some time =>
      now ← now_of;
      if i64 (time + HSK_BAN_TIME) <? now then m ← hlift (hsk_map_del (am_banned am) addr); mret (false, with_banned am (snd m))
      else mret (true, am)
  end.

(** ** Choosing *)

(** [for (;;)]: the chances grow by a fifth in each round. *)
Fixpoint search_loop (fuel : nat) am (now : Z) (num factor : spec_float) : hio nat :=
  match fuel with
  | O => hlift (Fault Hang)
  | S fuel' =>
      r ← hsk_random;
      let i := Z.to_nat (r mod am_size am) in
      e ← hlift (entry_at am i);
      if SFltb num (dmul (dmul factor (hsk_addrentry_chance e now)) (dint (2 ^ 30))) then mret i
      else search_loop fuel' am now num (dmul factor d1_2)
  end.
Definition search_fuel : nat := 45.
Definition hsk_addrman_search td am : hio (option nat) :=
  if am_size am =? 0 then mret None
  else
    now ← timedata_now td;
    r ← hsk_random;
    i ← search_loop search_fuel am now (dint (r mod 2 ^ 30)) (dint 1);
    mret (Some i).
(** The tests that do not depend on the round. *)
Definition usable {V} (map : hsk_map_t hsk_addr_t V) (e : hsk_addrentry_t) : outcome bool :=
  if en_removed e then Ret false
  else
    let* has := hsk_map_has map (en_addr e) in
    Ret (negb has && hsk_addr_is_valid (en_addr e) && Z.testbit (en_services e) 0 && negb (hsk_addr_is_onion (en_addr e))).
Fixpoint pick_loop (fuel i : nat) td (now : Z) {V} (map : hsk_map_t hsk_addr_t V) am : hio (option hsk_addrentry_t * hsk_addrman_t) :=
  match fuel with
  | O => mret (None, am)
  | S fuel' =>
      entry ← hsk_addrman_search td am;
      match entry with
      | None => mret (None, am)
      | Some place =>
          e ← hlift (entry_at am place);
          ok ← hlift (usable map e);
          if negb ok then pick_loop fuel' (S i) td now map am
          else if (i <? 30)%nat && (i64 (now - en_last_attempt e) <? 600) then pick_loop fuel' (S i) td now map am
          else if (i <? 50)%nat && negb (ad_port (en_addr e) =? HSK_BRONTIDE_PORT) then pick_loop fuel' (S i) td now map am
          else if (i <? 95)%nat then
            r ← hsk_addrman_is_banned am (en_addr e);
            if fst r : bool then pick_loop fuel' (S i) td now map (snd r) else mret (Some e, snd r)
          else mret (Some e, am)
      end
  end.
Definition hsk_addrman_pick td {V} am (map : hsk_map_t hsk_addr_t V) : hio (option hsk_addrentry_t * hsk_addrman_t) :=
  now ← timedata_now td; pick_loop 100 0 td now map am.
Definition hsk_addrman_pick_addr td {V} am (map : hsk_map_t hsk_addr_t V) : hio (option hsk_addr_t * hsk_addrman_t) :=
  r ← hsk_addrman_pick td am map; mret (en_addr <$> fst r, snd r).
Definition hsk_addrman_pick_sa td {V} am (map : hsk_map_t hsk_addr_t V) : hio (option sockaddr * hsk_addrman_t) :=
  r ← hsk_addrman_pick td am map; mret (fst r ≫= fun e => hsk_addr_to_sa (en_addr e), snd r).

(** * Start *)

Fixpoint seed_loop td am (seeds : list (list Z)) : hio hsk_addrman_t :=
  match seeds with
  | [] => mret am
  | seed :: seeds =>
      addr ← hlift (of_option AssertFail (hsk_addr_from_string ph_pton seed 0));
      r ← hsk_addrman_add_addr td am addr;
      _ ← hassert (fst r);
      seed_loop td (snd r) seeds
  end.
Definition hsk_addrman_init td (seeds : list (list Z)) : hio (Z * option hsk_addrman_t) :=
  n ← hask;
  if negb (ph_al n 0%nat) then mret (HSK_ENOMEM, None)
  else am ← seed_loop td (mk_addrman [] hsk_map_init_map hsk_map_init_map) seeds; mret (HSK_SUCCESS, Some am).
End Addrman.

(** The seeds of the main network. *)
Definition hsk_seeds : list (list Z) := List.map text_of [
  "aonetsezqp4m52w4jpfq2gv3dggy2wqfwqtkfjyttgdidbvhgp5as@165.22.151.242";
  "ajpbuxkwtf7hkwbpw27siwg6dylsly4743rbhy2jssb3rxmircbrs@50.116.35.178";
  "aksygghkgmciomeldjf5sc6rs2sgn2m34zfdz4xr7z5vguqvjis4e@129.153.177.220";
  "ai2wxnj4magzrhtlfvqnzuzg3vko25vryle5vd2bzi23jvcykbj5q@107.152.33.71";
  "apt4rf2dfyelbivg63u47wykvdjtsl4kxzfdylkaae5s5ydldlnwu@159.69.46.23";
  "ajdzrpoxsusaw4ixq4ttibxxsuh5fkkduc5qszyboidif2z25i362@173.255.209.126";
  "akimcha5bck7s344dmge6k3agtxd2txi6x4qzg3mo26spvf5bjol2@74.207.247.120";
  "aoihqqagbhzz6wxg43itefqvmgda4uwtky362p22kbimcyg5fdp54@172.104.214.189";
  "ajk57wutnhfdzvqwqrgab3wwh4wxoqgnkz4avbln54pgj5jwefcts@172.104.177.177";
  "am2lsmbzzxncaptqjo22jay3mztfwl33bxhkp7icfx7kmi5rvjaic@139.162.183.168";
  "ap5vuwabzwyz6akhesanada4skhetd2jsvpkwuqxzuaoovn5ez4xg@45.79.134.225";
  "104.254.246.153";
  "66.94.118.127";
  "165.227.93.117";
  "98.47.90.111";
  "85.214.33.200";
  "178.18.254.92";
  "152.69.186.119";
  "89.58.17.86";
  "76.217.158.15";
  "149.102.152.193";
  "139.59.211.187";
  "147.124.228.198";
  "108.175.4.26";
  "66.29.151.42";
  "205.250.112.133";
  "44.229.138.206";
  "81.6.58.121";
  "154.26.133.109";
  "140.238.164.155";
  "81.169.159.30";
  "50.112.123.184";
  "185.232.71.108";
  "207.244.233.76";
  "140.238.196.136";
  "193.41.237.153";
  "82.223.165.215";
  "212.227.68.123";
  "202.61.201.15";
  "168.138.31.136";
  "107.152.32.250";
  "108.61.206.38";
  "204.99.129.8";
  "73.185.40.66";
  "129.153.166.244";
  "137.184.156.222";
  "5.161.64.49";
  "176.96.136.143";
  "150.136.231.120";
  "54.184.104.94";
  "47.108.194.84";
  "45.79.95.228";
  "89.163.154.217";
  "139.178.67.226";
  "47.242.86.29";
  "99.92.204.3"]%string.
