(* ===== verification/AddrmanProps.v ===== *)
(** The properties of the addresses of peers: the table of addresses is an index of the entries, and
    the choice ends with an entry that can be connected to. *)

From Stdlib Require Import Floats.SpecFloat.
From S2P Require Import Prelude Bio Addr Timedata Map MapInv MapProps MapTable Addrman.

(** * Runs *)

(** Four decimal numbers below 256, without leading zeros, with dots between them. *)
Fixpoint quad_loop (s : list Z) (n : option Z) (acc : list Z) : option (list Z) :=
  match s with
  | [] => match n with Some n => Some (acc ++ [n]) | None => None end
  | c :: s =>
      if c =? 46 then match n with Some n => quad_loop s None (acc ++ [n]) | None => None end
      else if (c <? 48) || (57 <? c) then None
      else if bool_decide (n = Some 0) then None
      else let n := default 0 n * 10 + (c - 48) in if 255 <? n then None else quad_loop s (Some n) acc
  end.
Definition quad (s : list Z) : option (list Z) :=
  match quad_loop s None [] with Some ip => if (length ip =? 4)%nat then Some ip else None | None => None end.
(** What is relied on: memory and sockets, a clock that is set, and that [uv_inet_pton] reads such an address, and addresses are
    printed in at most 45 characters, [INET6_ADDRSTRLEN] less one. *)
Class PoolHostOk `{PoolHost} : Prop := {
  pho_al : ph_al = fun _ _ => true;
  pho_clock n : 0 <= ph_clock n;
  pho_socket n : ph_socket n = true;
  pho_pton s ip : quad s = Some ip -> ph_pton AF_INET s = Some ip;
  pho_ntop af ip n s : ph_ntop af ip n = Some s -> (length s <= 45)%nat;
}.
(** [m] returns, with a result for which [Q] holds. *)
Definition hruns {A} (m : hio A) (Q : A -> Prop) : Prop := forall n, exists a n', m n = Ret (a, n') /\ Q a.
Lemma hruns_ret {A} (a : A) (Q : A -> Prop) : Q a -> hruns (mret a) Q.
Proof. intros H n. by exists a, n. Qed.
Lemma hruns_bind {A B} (m : hio A) (k : A -> hio B) P Q : hruns m P -> (forall a, P a -> hruns (k a) Q) -> hruns (a ← m; k a) Q.
Proof.
  intros Hm Hk n. destruct (Hm n) as (a & n1 & E & Ha). destruct (Hk a Ha n1) as (b & n2 & E2 & Hb).
  exists b, n2. unfold mbind, hio_bind. by rewrite E.
Qed.
Lemma hruns_weaken {A} (m : hio A) (P Q : A -> Prop) : hruns m P -> (forall a, P a -> Q a) -> hruns m Q.
Proof. intros Hm H n. destruct (Hm n) as (a & n' & E & Ha). exists a, n'. auto. Qed.
Lemma hruns_ask (Q : nat -> Prop) : (forall n, Q n) -> hruns hask Q.
Proof. intros H n. by exists n, (S n). Qed.
Lemma hruns_lift {A} (o : outcome A) a (Q : A -> Prop) : o = Ret a -> Q a -> hruns (hlift o) Q.
Proof. intros -> H n. by exists a, n. Qed.
Lemma hruns_assert b (Q : unit -> Prop) : b = true -> Q tt -> hruns (hassert b) Q.
Proof. intros -> H. by eapply hruns_lift. Qed.

(** Steps of a run: a step with its own rule, and those whose result does not matter. *)
Ltac hstep := eapply hruns_bind.
Section Ask.
Context `{PoolHostOk}.
Lemma hruns_now (Q : Z -> Prop) : (forall now, 0 <= now -> Q now) -> hruns now_of Q.
Proof.
  intros HQ. hstep; [by apply (hruns_ask (fun _ => True))|intros n _].
  hstep; [by apply (hruns_assert _ (fun _ => True)); [apply Z.leb_le, pho_clock|]|intros _ _]. apply hruns_ret, HQ, pho_clock.
Qed.
Lemma hruns_td td (Q : Z -> Prop) : (forall now, Q now) -> hruns (timedata_now td) Q.
Proof. intros HQ. hstep; [by apply (hruns_now (fun _ => True))|intros now _]. by apply hruns_ret. Qed.
Lemma hruns_random (Q : Z -> Prop) : (forall r, 0 <= r < 2 ^ 32 -> Q r) -> hruns hsk_random Q.
Proof. intros HQ. hstep; [by apply (hruns_ask (fun _ => True))|intros n _]. apply hruns_ret, HQ, u32_range. Qed.
Lemma hruns_nonce (Q : Z -> Prop) : (forall r, 0 <= r < 2 ^ 64 -> Q r) -> hruns hsk_nonce Q.
Proof.
  intros HQ. do 2 (hstep; [by apply (hruns_random (fun _ => True))|intros ? _]).
  apply hruns_ret, HQ, u64_range.
Qed.
End Ask.

(** * Addresses as keys *)

#[export, refine] Instance addr_key : MapKey hsk_addr_t (Z * list Z * Z) := {
  key_norm a := (ad_type a, ad_ip a, ad_port a);
  key_ok := addr_wf;
}.
Proof.
  - intros a b Ha Hb. cbn [equal_func addr_funcs]. rewrite hsk_addr_equal_spec by done. split; [by intros (-> & -> & ->)|by intros [= -> -> ->]].
  - intros a b _ _ [= E1 E2 E3]. cbn. unfold hsk_addr_hash. by rewrite E1, E2, E3.
Defined.
Abbreviation norm a := (@key_norm hsk_addr_t (Z * list Z * Z) _ _ a).
Abbreviation addr_index := (gmap (Z * list Z * Z) nat).

(** * The invariant *)

Definition entry_ok (e : hsk_addrentry_t) : Prop := addr_wf (en_addr e) /\ 1 <= en_ref_count e <= HSK_MAX_REFS.
(** [M] leads from the address of each entry, but that at [hole], to its place. *)
Definition index_but (hole : option nat) (M : addr_index) (l : list hsk_addrentry_t) : Prop :=
  forall a i, M !! a = Some i <-> Some i <> hole /\ exists e, l !! i = Some e /\ norm (en_addr e) = a.
Definition bans_ok (b : Z) (am : hsk_addrman_t) : Prop := exists B : gmap (Z * list Z * Z) Z, tabled b (am_banned am) B.
(** At most 2000 entries with different addresses, all in the table, and at most [b] bans. *)
Record am_ok (b : Z) (am : hsk_addrman_t) : Prop := {
  ao_length : (length (am_addrs am) <= HSK_ADDR_MAX)%nat;
  ao_entries : Forall entry_ok (am_addrs am);
  ao_index : exists M, tabled 2000 (am_map am) M /\ index_but None M (am_addrs am);
  ao_bans : bans_ok b am;
}.

Lemma index_size hole M l : index_but hole M l -> Z.of_nat (base.size M) <= Z.of_nat (length l).
Proof.
  intros Hi. assert (Hl : (length ((map_to_list M).*2) <= length (seq 0 (length l)))%nat).
  - apply submseteq_length, NoDup_submseteq.
    + apply NoDup_fmap_2_strong; [|apply NoDup_map_to_list]. intros [a i] [b j] Ha Hb. cbn. intros <-.
      apply elem_of_map_to_list, Hi in Ha as (_ & e & He & <-). apply elem_of_map_to_list, Hi in Hb as (_ & e' & He' & <-). congruence.
    + intros i Hin. apply list_elem_of_fmap in Hin as ([a j] & -> & Ha). apply elem_of_map_to_list, Hi in Ha as (_ & e & He & _).
      apply lookup_lt_Some in He. cbn. apply elem_of_seq. lia.
  - rewrite length_fmap, length_map_to_list, length_seq in Hl. lia.
Qed.
(** The entry at [i] is replaced, and told to the table. *)
Lemma index_fill M l i e : (i < length l)%nat -> index_but (Some i) M l -> M !! norm (en_addr e) = None ->
  index_but None (<[norm (en_addr e) := i]> M) (<[i := e]> l).
Proof.
  intros Hi HM Hn a j. rewrite lookup_insert_Some, (HM a j). split.
  - intros [[<- <-]|[Hne (Hj & e' & He & <-)]]; (split; [done|]).
    + exists e. split; [by apply list_lookup_insert_eq|done].
    + exists e'. split; [|done]. rewrite list_lookup_insert_ne by congruence. done.
  - intros [_ (e' & He & <-)]. destruct (decide (j = i)) as [->|Hne].
    + rewrite list_lookup_insert_eq in He by done. injection He as ->. by left.
    + rewrite list_lookup_insert_ne in He by done. right. split; [|split; [congruence|by exists e']].
      intros E. assert (M !! norm (en_addr e) = Some j); [|congruence]. rewrite E. apply HM. split; [congruence|by exists e'].
Qed.
(** An entry is changed, but not its address. *)
Lemma index_same M l i e e' : l !! i = Some e -> en_addr e' = en_addr e -> index_but None M l -> index_but None M (<[i := e']> l).
Proof.
  intros Hi Ea HM a j. rewrite (HM a j). destruct (decide (j = i)) as [->|Hne]; [|by rewrite list_lookup_insert_ne].
  rewrite list_lookup_insert_eq by (by eapply lookup_lt_Some). rewrite Hi. split.
  - intros [_ (x & [= <-] & <-)]. split; [done|]. exists e'. by rewrite Ea.
  - intros [_ (x & [= <-] & <-)]. split; [done|]. exists e. by rewrite Ea.
Qed.
Lemma index_append M l e : index_but None M l -> index_but (Some (length l)) M (l ++ [e]).
Proof.
  intros HM a j. rewrite (HM a j). split.
  - intros [_ (x & Hx & <-)]. assert (Hlt := lookup_lt_Some _ _ _ Hx). split; [intros [= ->]; lia|]. exists x. by rewrite lookup_app_l.
  - intros [Hj (x & Hx & <-)]. split; [done|]. exists x. split; [|done]. apply lookup_app_Some in Hx as [Hx|[Hge Hx]]; [done|].
    apply list_lookup_singleton_Some in Hx as [E _]. exfalso. apply Hj. f_equal. lia.
Qed.
Lemma index_free M l i e : l !! i = Some e -> index_but None M l -> index_but (Some i) (delete (norm (en_addr e)) M) l.
Proof.
  intros Hi HM a j. rewrite lookup_delete_Some, (HM a j). split.
  - intros [Hne [_ (x & Hx & <-)]]. split; [|by exists x]. intros [= ->]. congruence.
  - intros [Hj (x & Hx & <-)]. split; [|split; [done|by exists x]]. intros E. apply Hj. f_equal.
    assert (M !! norm (en_addr e) = Some j) by (rewrite E; apply HM; split; [done|by exists x]).
    assert (M !! norm (en_addr e) = Some i) by (apply HM; split; [done|by exists e]). congruence.
Qed.

(** * Operations *)

Section Ops.
Context `{PoolHostOk}.
Implicit Types (am : hsk_addrman_t) (td : hsk_timedata_t) (addr : hsk_addr_t) (b : Z).

Lemma am_get b am addr M : tabled 2000 (am_map am) M -> index_but None M (am_addrs am) -> addr_wf addr ->
  hsk_map_get (am_map am) addr = Ret (M !! norm addr) /\
  forall i, M !! norm addr = Some i -> exists e, am_addrs am !! i = Some e /\ norm (en_addr e) = norm addr.
Proof. intros Ht Hi Ha. split; [by eapply tabled_get|]. intros i Hm. by apply Hi in Hm as [_ ?]. Qed.
Lemma am_ok_entry b am i e e' : am_ok b am -> am_addrs am !! i = Some e -> en_addr e' = en_addr e -> entry_ok e' -> am_ok b (with_entry am i e').
Proof.
  intros [Hl He (M & Ht & Hi) Hb] Hx Ea Hok. split; cbn; [by rewrite length_insert|by apply Forall_insert| |exact Hb].
  exists M. split; [done|]. by eapply index_same.
Qed.
(** An entry is changed in place. *)
Lemma on_entry_ok {A} b am addr (none : A) f : am_ok b am -> addr_wf addr ->
  (forall e, entry_ok e -> hruns (f e) (fun r => en_addr (snd r) = en_addr e /\ entry_ok (snd r))) ->
  hruns (on_entry am addr none f) (fun r => am_ok b (snd r) /\ length (am_addrs (snd r)) = length (am_addrs am)).
Proof.
  intros Hok Ha Hf. destruct (ao_index _ _ Hok) as (M & Ht & Hi). destruct (am_get b am addr M Ht Hi Ha) as [E Hg].
  unfold on_entry. eapply hruns_bind; [by apply (hruns_lift _ _ (fun o => o = M !! norm addr) E)|]. intros o ->.
  destruct (M !! norm addr) as [i|]; [|by apply hruns_ret]. destruct (Hg i eq_refl) as (e & He & _).
  eapply hruns_bind; [apply (hruns_lift _ e (fun x => x = e)); [unfold entry_at; by rewrite He|done]|]. intros x ->.
  eapply hruns_bind; [apply Hf; by eapply Forall_lookup_1; [apply Hok|]|]. intros r [Ea Hr]. apply hruns_ret. cbn [fst snd]. split.
  - by eapply am_ok_entry.
  - apply length_insert.
Qed.
Lemma i32_small x : - 2 ^ 31 <= x < 2 ^ 31 -> i32 x = x.
Proof. intros Hx. unfold i32, swrap. change (32 - 1) with 31. rewrite Z.mod_small; lia. Qed.
Lemma seen_again_ok td na src e : entry_ok e -> hruns (seen_again td na src e) (fun r => en_addr (snd r) = en_addr e /\ entry_ok (snd r)).
Proof.
  intros [Ha Hr]. unfold seen_again. hstep; [by apply (hruns_td _ (fun _ => True))|intros now _]. cbv zeta. cbn [en_ref_count en_used].
  destruct (_ && _); [by apply hruns_ret|]. destruct (en_used e); [by apply hruns_ret|].
  hstep; [apply (hruns_assert _ (fun _ => True)); [apply Z.ltb_lt; lia|done]|intros _ _].
  destruct (Z.eqb_spec (en_ref_count e) HSK_MAX_REFS) as [|Hne]; [by apply hruns_ret|].
  hstep; [apply (hruns_assert _ (fun _ => True)); [apply Z.ltb_lt; lia|done]|intros _ _].
  destruct (_ =? 0); [by apply hruns_ret|]. hstep; [by apply (hruns_random (fun _ => True))|intros r _].
  destruct (negb _); [by apply hruns_ret|]. apply hruns_ret. split; [done|]. split; [done|]. cbn [snd en_ref_count].
  unfold HSK_MAX_REFS in *. rewrite i32_small; lia.
Qed.

(** A place for a new entry: the last one, or that of a stale entry, which leaves the table. *)
Definition hole_ok b am (i : nat) (a : Z * list Z * Z) : Prop :=
  (length (am_addrs am) <= HSK_ADDR_MAX)%nat /\ (i < length (am_addrs am))%nat /\ bans_ok b am /\
  (forall j e, j <> i -> am_addrs am !! j = Some e -> entry_ok e) /\
  exists M, tabled 2000 (am_map am) M /\ index_but (Some i) M (am_addrs am) /\ M !! a = None.
Lemma random_place am r : (0 < length (am_addrs am))%nat -> 0 <= r -> exists e,
  am_addrs am !! Z.to_nat (r mod am_size am) = Some e /\ entry_at am (Z.to_nat (r mod am_size am)) = Ret e.
Proof.
  intros Hl Hr. destruct (lookup_lt_is_Some_2 (am_addrs am) (Z.to_nat (r mod am_size am))) as [e He].
  - unfold am_size. assert (0 <= r mod Z.of_nat (length (am_addrs am)) < Z.of_nat (length (am_addrs am))) by (apply Z.mod_pos_bound; lia). lia.
  - exists e. split; [done|]. unfold entry_at. by rewrite He.
Qed.
Lemma stale_loop_ok fuel td b am M a : am_ok b am -> tabled 2000 (am_map am) M -> index_but None M (am_addrs am) -> M !! a = None ->
  (0 < length (am_addrs am))%nat ->
  hruns (stale_loop fuel td am) (fun r => match fst r with
    | Some i => hole_ok b (snd r) i a /\ length (am_addrs (snd r)) = length (am_addrs am) | None => snd r = am end).
Proof.
  intros Hok Ht Hi Ha Hl. induction fuel as [|fuel IH]; cbn [stale_loop]; [by apply hruns_ret|].
  hstep; [apply (hruns_random (fun r => 0 <= r)); lia|intros r Hr]. destruct (random_place am r Hl Hr) as (e & He & Ee).
  hstep; [by apply (hruns_lift _ _ (fun x => x = e) Ee)|intros x ->].
  hstep; [unfold hsk_addrman_is_stale; hstep; [by apply (hruns_td _ (fun _ => True))|intros now _; by apply (hruns_ret _ (fun _ => True))]|intros stale _].
  destruct stale; [|exact IH]. assert (Heok : entry_ok e) by (eapply Forall_lookup_1; [apply Hok|done]).
  destruct (tabled_del 2000 _ M (en_addr e) Ht (proj1 Heok)) as (m & E & Ht').
  hstep; [by apply (hruns_lift _ _ (fun x => snd x = m) E)|intros y <-]. apply hruns_ret. cbn [fst snd]. split; [|done].
  split; [apply Hok|]. split; [by eapply lookup_lt_Some|]. split; [apply Hok|]. split.
  - intros j e' _ Hj. eapply Forall_lookup_1; [apply Hok|exact Hj].
  - exists (delete (norm (en_addr e)) M). split; [exact Ht'|]. split; [by apply index_free|]. rewrite lookup_delete_None. by right.
Qed.
Lemma alloc_entry_ok td b am M a : am_ok b am -> tabled 2000 (am_map am) M -> index_but None M (am_addrs am) -> M !! a = None ->
  hruns (hsk_addrman_alloc_entry td am) (fun '(i, alloc, am') => match i with
    | Some i => hole_ok b am' i a /\ if alloc then i = length (am_addrs am) /\ am_addrs am' = am_addrs am ++ [blank_entry]
                                     else (length (am_addrs am) = HSK_ADDR_MAX)%nat
    | None => am' = am /\ (length (am_addrs am) = HSK_ADDR_MAX)%nat
    end).
Proof.
  intros Hok Ht Hi Ha. unfold hsk_addrman_alloc_entry. assert (Hlen := ao_length _ _ Hok).
  destruct (Nat.eqb_spec (length (am_addrs am)) HSK_ADDR_MAX) as [E|E].
  - hstep; [eapply stale_loop_ok; try done; rewrite E; unfold HSK_ADDR_MAX; lia|intros [[i|] am'] Hr; cbn [fst snd] in Hr]; apply hruns_ret; cbn [fst snd].
    + by destruct Hr.
    + by split.
  - hstep; [apply (hruns_assert _ (fun _ => True)); [apply Nat.ltb_lt; lia|done]|intros _ _]. apply hruns_ret. split; [|done].
    split; [cbn; rewrite length_app; cbn; lia|]. split; [cbn; rewrite length_app; cbn; lia|]. split; [apply Hok|]. split.
    + intros j e Hj He. cbn in He. apply lookup_app_Some in He as [He|[Hge He]]; [eapply Forall_lookup_1; [apply Hok|exact He]|].
      apply list_lookup_singleton_Some in He as [He _]. lia.
    + exists M. split; [done|]. split; [by apply index_append|done].
Qed.
Lemma fill_ok b am i na : hole_ok b am i (norm (na_addr na)) -> addr_wf (na_addr na) ->
  let e := mk_entry (na_addr na) (na_time na) (na_services na) 0 0 0 1 false false in
  exists m, hsk_map_set (fun _ => true) (am_map (with_entry am i e)) (na_addr na) i = Ret (true, m) /\
  am_ok b (with_am_map (with_entry am i e) m).
Proof.
  intros (Hlen & Hlt & Hb & Hent & M & Ht & Hi & Ha) Hw e. assert (Hi' := index_fill M (am_addrs am) i e Hlt Hi Ha). cbn [e en_addr] in Hi'.
  assert (Hsz := index_size _ _ _ Hi'). rewrite length_insert in Hsz. unfold HSK_ADDR_MAX in *.
  destruct (tabled_set 2000 (am_map am) M (na_addr na) i Ht Hw) as (m & E & Ht'); [lia|lia|]. exists m. split; [exact E|].
  split; cbn; [by rewrite length_insert| | |exact Hb].
  - apply Forall_lookup_2. intros j x Hx. apply list_lookup_insert_Some in Hx as [(-> & <- & _)|[Hj Hx]]; [|by eapply Hent].
    split; [done|]. cbn. unfold HSK_MAX_REFS. lia.
  - exists (<[norm (na_addr na) := i]> M). by split.
Qed.
Lemma add_entry_ok td b am na src : am_ok b am -> addr_wf (na_addr na) ->
  hruns (hsk_addrman_add_entry td am na src) (fun r => am_ok b (snd r) /\
    ((forall e, e ∈ am_addrs am -> norm (en_addr e) <> norm (na_addr na)) -> (length (am_addrs am) < HSK_ADDR_MAX)%nat ->
      fst r = true /\ exists e, en_addr e = na_addr na /\ am_addrs (snd r) = am_addrs am ++ [e])).
Proof.
  intros Hok Hw. destruct (ao_index _ _ Hok) as (M & Ht & Hi). destruct (am_get b am _ M Ht Hi Hw) as [E Hg].
  unfold hsk_addrman_add_entry. hstep; [by apply (hruns_lift _ _ (fun o => o = M !! norm (na_addr na)) E)|intros o ->].
  destruct (M !! norm (na_addr na)) as [i|] eqn:Em.
  - eapply hruns_weaken; [apply (on_entry_ok b); [done|done|]; intros e He; by apply seen_again_ok|]. intros r [Hr _]. split; [done|].
    intros Hnew. destruct (Hg i eq_refl) as (e & He & En). exfalso. apply (Hnew e); [by eapply list_elem_of_lookup_2|done].
  - hstep; [by eapply alloc_entry_ok|]. intros [[[i|] alloc] am'] Hr.
    2: { destruct Hr as [-> Hfull]. apply hruns_ret. split; [done|]. cbn [snd]. lia. }
    destruct Hr as [Hh Hal]. destruct (fill_ok b am' i na Hh Hw) as (m & Es & Hok'). hstep; [by apply (hruns_ask (fun _ => True))|intros n _].
    rewrite pho_al. hstep; [by apply (hruns_lift _ _ (fun x => x = (true, m)) Es)|intros x ->]. cbn [fst snd]. apply hruns_ret. split; [exact Hok'|].
    intros _ Hroom. split; [done|]. cbn [snd]. destruct alloc; [|lia]. destruct Hal as [-> Hal]. cbn. rewrite Hal.
    eexists. split; [|by rewrite insert_app_r_alt, Nat.sub_diag by lia]. done.
Qed.
Lemma add_now_ok td b am addr : am_ok b am -> addr_wf addr ->
  hruns (add_now td am addr) (fun r => am_ok b (snd r) /\
    ((forall e, e ∈ am_addrs am -> norm (en_addr e) <> norm addr) -> (length (am_addrs am) < HSK_ADDR_MAX)%nat ->
      fst r = true /\ exists e, en_addr e = addr /\ am_addrs (snd r) = am_addrs am ++ [e])).
Proof. intros Hok Hw. hstep; [by apply (hruns_td _ (fun _ => True))|intros now _]. exact (add_entry_ok td b am (mk_netaddr (u64 now) 1 addr) false Hok Hw). Qed.
Lemma change_ok {A} b am addr (none : A) f : am_ok b am -> addr_wf addr ->
  (forall e, entry_ok e -> hruns (f e) (fun r => en_addr (snd r) = en_addr e /\ en_ref_count (snd r) = en_ref_count e)) ->
  hruns (on_entry am addr none f) (fun r => am_ok b (snd r)).
Proof.
  intros Hok Ha Hf. eapply hruns_weaken; [apply (on_entry_ok b); [done|done|]|by intros r [Hr _]]. intros e [He Hr].
  eapply hruns_weaken; [apply Hf; by split|]. intros r [Ea Er]. split; [done|]. split; [by rewrite Ea|by rewrite Er].
Qed.
Lemma remove_addr_ok b am addr : am_ok b am -> addr_wf addr -> hruns (hsk_addrman_remove_addr am addr) (fun r => am_ok b (snd r)).
Proof. intros Hok Ha. apply change_ok; [done|done|]. intros e _. by apply hruns_ret. Qed.
Lemma mark_attempt_ok td b am addr : am_ok b am -> addr_wf addr -> hruns (hsk_addrman_mark_attempt td am addr) (fun r => am_ok b (snd r)).
Proof. intros Hok Ha. apply change_ok; [done|done|]. intros e _. hstep; [by apply (hruns_td _ (fun _ => True))|intros now _]. by apply hruns_ret. Qed.
Lemma mark_success_ok td b am addr : am_ok b am -> addr_wf addr -> hruns (hsk_addrman_mark_success td am addr) (fun r => am_ok b (snd r)).
Proof.
  intros Hok Ha. apply change_ok; [done|done|]. intros e _. hstep; [by apply (hruns_td _ (fun _ => True))|intros now _].
  destruct (_ <? _); by apply hruns_ret.
Qed.
Lemma mark_ack_ok td b am addr services : am_ok b am -> addr_wf addr -> hruns (hsk_addrman_mark_ack td am addr services) (fun r => am_ok b (snd r)).
Proof. intros Hok Ha. apply change_ok; [done|done|]. intros e _. hstep; [by apply (hruns_td _ (fun _ => True))|intros now _]. by apply hruns_ret. Qed.
Lemma addrman_get_ok b am addr : am_ok b am -> addr_wf addr -> exists o, hsk_addrman_get am addr = Ret o.
Proof.
  intros Hok Ha. destruct (ao_index _ _ Hok) as (M & Ht & Hi). destruct (am_get b am addr M Ht Hi Ha) as [E Hg].
  unfold hsk_addrman_get. rewrite E. cbn [obind]. destruct (M !! norm addr) as [i|]; [|by eexists].
  destruct (Hg i eq_refl) as (e & He & _). unfold entry_at. rewrite He. by eexists.
Qed.

(** ** Bans *)

Lemma bans_same b am B m : am_ok b am -> tabled b m (B : gmap (Z * list Z * Z) Z) -> am_ok b (with_banned am m).
Proof. intros [Hl He Hi _] Hm. split; [done|done|exact Hi|by exists B]. Qed.
Lemma am_ok_mono b c am : am_ok b am -> b <= c -> am_ok c am.
Proof. intros [Hl He Hi (B & HB)] Hbc. split; [done|done|exact Hi|exists B; by eapply tabled_mono]. Qed.
Lemma add_ban_ok b am addr : am_ok b am -> addr_wf addr -> b < 2 ^ 28 -> hruns (hsk_addrman_add_ban am addr) (fun r => fst r = true /\ am_ok (b + 1) (snd r)).
Proof.
  intros Hok Ha Hb. destruct (ao_bans _ _ Hok) as (B & HB). unfold hsk_addrman_add_ban.
  hstep; [by apply (hruns_lift _ _ (fun o => o = B !! norm addr) (tabled_get _ _ _ _ HB Ha))|intros o ->].
  hstep; [by apply (hruns_now (fun _ => True))|intros now _]. destruct (B !! norm addr) as [time|] eqn:Em.
  - destruct (tabled_update b _ B addr now time HB Ha Em) as (m & E & Hm).
    hstep; [by apply (hruns_lift _ _ (fun x => x = m) E)|intros x ->]. apply hruns_ret. split; [done|]. cbn [snd].
    eapply am_ok_mono; [by eapply bans_same|lia].
  - hstep; [by apply (hruns_ask (fun _ => True))|intros n _]. rewrite pho_al. cbn [negb].
    assert (Hsz := tb_size _ _ _ HB).
    destruct (tabled_set (b + 1) (am_banned am) B addr now) as (m & E & Hm); [eapply tabled_mono; [done|lia]|done|lia| |].
    { rewrite map_size_insert_None by done. lia. }
    hstep; [by apply (hruns_lift _ _ (fun x => x = (true, m)) E)|intros x ->]. apply hruns_ret. split; [done|]. cbn [snd].
    eapply bans_same; [apply (am_ok_mono b); [done|lia]|done].
Qed.
Lemma is_banned_ok b am addr : am_ok b am -> addr_wf addr -> hruns (hsk_addrman_is_banned am addr) (fun r => am_ok b (snd r) /\ am_addrs (snd r) = am_addrs am).
Proof.
  intros Hok Ha. destruct (ao_bans _ _ Hok) as (B & HB). unfold hsk_addrman_is_banned.
  hstep; [by apply (hruns_lift _ _ (fun o => o = B !! norm addr) (tabled_get _ _ _ _ HB Ha))|intros o ->].
  destruct (B !! norm addr) as [time|]; [|by apply hruns_ret]. hstep; [by apply (hruns_now (fun _ => True))|intros now _].
  destruct (_ <? _); [|by apply hruns_ret]. destruct (tabled_del b _ B addr HB Ha) as (m & E & Hm).
  hstep; [by apply (hruns_lift _ _ (fun x => snd x = m) E)|intros x <-]. apply hruns_ret. split; [by eapply bans_same|done].
Qed.
Lemma clear_banned_ok b am : am_ok b am -> exists am', hsk_addrman_clear_banned am = Ret am' /\ am_ok b am'.
Proof.
  intros Hok. destruct (ao_bans _ _ Hok) as (B & HB). unfold hsk_addrman_clear_banned.
  destruct (tabled_clear b _ B true HB) as (vs & m & -> & Hm). cbn [obind]. eexists. split; [done|by eapply bans_same].
Qed.

(** ** Choosing *)

Lemma digits_num n : 0 < n < 2 ^ 30 -> exists m e, dint n = S754_finite false m e /\ e <= -23.
Proof.
  intros Hn. unfold dint. destruct (Z.leb_spec n 0); [lia|]. eexists _, _. split; [reflexivity|].
  assert (Z.log2 n < 30) by (apply Z.log2_lt_pow2; lia). lia.
Qed.
(** [x] is above every number below [2 ^ 30]. *)
Definition large (x : spec_float) : bool := match x with S754_finite false _ e => -22 <=? e | _ => false end.
Lemma large_above x n : large x = true -> 0 <= n < 2 ^ 30 -> SFltb (dint n) x = true.
Proof.
  intros Hx Hn. destruct x as [| | |[|] m e]; cbn [large] in Hx; try done. apply Z.leb_le in Hx.
  destruct (Z.eq_dec n 0) as [->|Hne]; [done|]. destruct (digits_num n) as (m' & e' & -> & He'); [lia|].
  unfold SFltb, SFcompare. by rewrite (proj2 (Z.compare_lt_iff e' e)) by lia.
Qed.
Definition factor_at (k : nat) : spec_float := Nat.iter k (fun f => dmul f d1_2) (dint 1).
(** Every chance there is. *)
Definition chances : list spec_float :=
  List.concat (List.map (fun k : nat => List.map (fun c => dmul c (Nat.iter k (fun r => dmul r d0_66) (dint 1))) [dint 1; dmul (dint 1) d0_01]) (seq 0 9)).
Lemma chance_in e now : hsk_addrentry_chance e now ∈ chances.
Proof.
  assert (Hk : (Z.to_nat (Z.min (en_attempts e) 8) <= 8)%nat) by lia. unfold hsk_addrentry_chance. revert Hk. generalize (Z.to_nat (Z.min (en_attempts e) 8)).
  intros k Hk. unfold chances. apply list_elem_of_In, in_concat. eexists. split; [apply in_map, (proj2 (in_seq 9 0 k)); lia|].
  apply in_map_iff. eexists. split; [reflexivity|]. destruct (_ <? _); cbn; tauto.
Qed.
Lemma chances_reach : forallb (fun c => large (dmul (dmul (factor_at 44) c) (dint (2 ^ 30)))) chances = true.
Proof. vm_compute. reflexivity. Qed.
Lemma chance_reaches e now n : 0 <= n < 2 ^ 30 ->
  SFltb (dint n) (dmul (dmul (factor_at 44) (hsk_addrentry_chance e now)) (dint (2 ^ 30))) = true.
Proof.
  intros Hn. apply large_above; [|done]. assert (Hc := chances_reach). rewrite forallb_forall in Hc. apply (Hc (hsk_addrentry_chance e now)), list_elem_of_In, chance_in.
Qed.
(** The chances have grown enough after 45 rounds. *)
Lemma search_loop_ok am now n fuel : (0 < length (am_addrs am))%nat -> 0 <= n < 2 ^ 30 -> (0 < fuel <= search_fuel)%nat ->
  hruns (search_loop fuel am now (dint n) (factor_at (search_fuel - fuel))) (fun i => (i < length (am_addrs am))%nat).
Proof.
  intros Hl Hn. induction fuel as [|fuel IH]; intros Hf; [lia|]. cbn [search_loop].
  hstep; [apply (hruns_random (fun r => 0 <= r)); lia|intros r Hr]. destruct (random_place am r Hl Hr) as (e & He & Ee).
  hstep; [by apply (hruns_lift _ _ (fun x => x = e) Ee)|intros x ->]. destruct (SFltb _ _) eqn:E.
  - apply hruns_ret. by eapply lookup_lt_Some.
  - destruct (Nat.eq_dec fuel 0) as [->|Hne]; [by rewrite chance_reaches in E|].
    replace (dmul (factor_at (search_fuel - S fuel)) d1_2) with (factor_at (search_fuel - fuel)); [apply IH; lia|].
    unfold search_fuel in *. replace (45 - fuel)%nat with (S (45 - S fuel)) by lia. done.
Qed.
Lemma search_ok td am : hruns (hsk_addrman_search td am) (fun o => match o with Some i => is_Some (am_addrs am !! i) | None => am_addrs am = [] end).
Proof.
  unfold hsk_addrman_search, am_size. destruct (Z.eqb_spec (Z.of_nat (length (am_addrs am))) 0) as [E|E].
  { apply hruns_ret. by apply nil_length_inv; lia. }
  hstep; [by apply (hruns_td _ (fun _ => True))|intros now _]. hstep; [by apply (hruns_random (fun _ => True))|intros r _].
  hstep; [apply (search_loop_ok am now (r mod 2 ^ 30) search_fuel); [lia|apply Z.mod_pos_bound; lia|unfold search_fuel; lia]|].
  intros i Hi. apply hruns_ret. by apply lookup_lt_is_Some_2.
Qed.
(** An entry that can be connected to: the tests of [usable]. *)
Definition pickable {V} (C : gmap (Z * list Z * Z) V) (e : hsk_addrentry_t) : Prop :=
  en_removed e = false /\ C !! norm (en_addr e) = None /\ hsk_addr_is_valid (en_addr e) = true /\
  Z.testbit (en_services e) 0 = true /\ hsk_addr_is_onion (en_addr e) = false.
Lemma usable_ok {V} (c : Z) (map : hsk_map_t hsk_addr_t V) (C : gmap (Z * list Z * Z) V) (e : hsk_addrentry_t) : tabled c map C -> addr_wf (en_addr e) -> exists ok : bool, usable map e = Ret ok /\ (ok = true -> pickable C e).
Proof.
  intros Ht Ha. unfold usable. destruct (en_removed e) eqn:Er; [by exists false|]. rewrite (tabled_has c map C _ Ht Ha). cbn [obind].
  eexists. split; [reflexivity|]. intros Hb. repeat apply andb_true_iff in Hb as [Hb ?]. apply negb_true_iff, bool_decide_eq_false, eq_None_not_Some in Hb.
  split_and!; try done. by apply negb_true_iff.
Qed.
Lemma pick_loop_ok (fuel i : nat) td (now : Z) {V} (c : Z) (map : hsk_map_t hsk_addr_t V) (C : gmap (Z * list Z * Z) V) b am : am_ok b am -> tabled c map C ->
  hruns (pick_loop fuel i td now map am) (fun r => am_ok b (snd r) /\ match fst r with Some e => pickable C e /\ addr_wf (en_addr e) | None => True end).
Proof.
  intros Hok Ht. revert i am Hok. induction fuel as [|fuel IH]; intros i am Hok; cbn [pick_loop]; [by apply hruns_ret|].
  hstep; [apply search_ok|intros [place|] Hp]; [|by apply hruns_ret]. destruct Hp as [e He]. assert (Hent : entry_ok e) by (eapply Forall_lookup_1; [apply Hok|done]).
  hstep; [apply (hruns_lift _ e (fun x => x = e)); [unfold entry_at; by rewrite He|done]|intros x ->].
  destruct (usable_ok c map C e Ht (proj1 Hent)) as (ok & Eu & Hu). hstep; [by apply (hruns_lift _ _ (fun x => x = ok) Eu)|intros x ->].
  destruct ok; cbn [negb]; [|by apply IH]. destruct (_ && _); [by apply IH|]. destruct (_ && _); [by apply IH|]. destruct (i <? 95)%nat.
  - hstep; [apply (is_banned_ok b); [done|apply Hent]|]. intros [ban am'] [Hok' _]. cbn [fst snd] in *. destruct ban; [by apply IH|].
    apply hruns_ret. split; [done|]. split; [by apply Hu|apply Hent].
  - apply hruns_ret. split; [done|]. split; [by apply Hu|apply Hent].
Qed.
Lemma pick_addr_ok td {V} (c : Z) (map : hsk_map_t hsk_addr_t V) (C : gmap (Z * list Z * Z) V) b am : am_ok b am -> tabled c map C ->
  hruns (hsk_addrman_pick_addr td am map) (fun r => am_ok b (snd r) /\ match fst r with Some a => addr_wf a /\ hsk_addr_is_valid a = true /\ C !! norm a = None | None => True end).
Proof.
  intros Hok Ht. unfold hsk_addrman_pick_addr, hsk_addrman_pick. hstep.
  - hstep; [by apply (hruns_td _ (fun _ => True))|intros now _]. by eapply pick_loop_ok.
  - intros [o am'] [Hok' Ho]. cbn [fst snd] in *. apply hruns_ret. split; [done|]. cbn [fst]. destruct o as [e|]; cbn; [|done].
    destruct Ho as [(_ & Hc & Hv & _) Hw]. by split_and!.
Qed.

(** * Start *)

Definition quad_pton (af : Z) (s : list Z) : option (list Z) := if af =? AF_INET then quad s else None.
Lemma from_string_quad src port a : hsk_addr_from_string quad_pton src port = Some a -> hsk_addr_from_string ph_pton src port = Some a.
Proof.
  unfold hsk_addr_from_string. destruct (match strchr src 64 with Some _ => _ | None => _ end) as [[key rest]|]; [|done].
  destruct (split_host rest) as [[host port_s]|]; [|done]. destruct (_ <? _)%nat; [done|]. destruct (match port_s with Some _ => _ | None => _ end) as [p|]; [|done].
  cbn [quad_pton AF_INET AF_INET6 Z.eqb Pos.eqb]. destruct (quad host) as [ip|] eqn:E; [|done]. by rewrite (pho_pton _ _ E).
Qed.
Lemma seed_loop_ok td b seeds addrs : forall am, am_ok b am -> List.map (fun s => hsk_addr_from_string quad_pton s 0) seeds = List.map Some addrs ->
  Forall addr_wf addrs -> NoDup (List.map (fun e => norm (en_addr e)) (am_addrs am) ++ List.map (fun a => norm a) addrs) ->
  (length (am_addrs am) + length addrs <= HSK_ADDR_MAX)%nat -> hruns (seed_loop td am seeds) (am_ok b).
Proof.
  revert addrs. induction seeds as [|seed seeds IH]; intros [|addr addrs] am Hok E Hw Hnd Hl; try discriminate E; cbn [seed_loop]; [by apply hruns_ret|].
  injection E as E1 E2. apply Forall_cons in Hw as [Hw1 Hw2]. cbn [List.map length] in Hnd, Hl.
  hstep; [by apply (hruns_lift _ addr (fun x => x = addr)); [rewrite (from_string_quad _ _ _ E1)|]|intros x ->].
  hstep; [by apply (add_now_ok td b am addr Hok Hw1)|]. intros [ok am'] [Hok' Hnew]. cbn [fst snd] in *. apply NoDup_app in Hnd as (Hnd1 & Hnd2 & Hnd3).
  destruct Hnew as (-> & e & Ee & Eam); [|lia|].
  { intros e He En. apply (Hnd2 (norm (en_addr e))); [|rewrite En; by left]. apply list_elem_of_In, (in_map (fun e => norm (en_addr e))). by apply list_elem_of_In. }
  hstep; [by apply (hruns_assert _ (fun _ => True))|intros _ _]. apply (IH addrs); [done|done|done| |].
  - rewrite Eam, map_app, <-(assoc_L (++)). cbn [List.map app]. rewrite Ee. apply NoDup_app. by split_and!.
  - rewrite Eam, length_app. cbn [length]. lia.
Qed.
Definition seed_addrs : list hsk_addr_t := omap (fun s => hsk_addr_from_string quad_pton s 0) hsk_seeds.
Lemma seeds_parse : List.map (fun s => hsk_addr_from_string quad_pton s 0) hsk_seeds = List.map Some seed_addrs /\
  Forall addr_wf seed_addrs /\ NoDup (List.map (fun a => norm a) seed_addrs) /\ length seed_addrs = 56%nat.
Proof.
  split; [vm_compute; reflexivity|]. split; [apply (bool_decide_unpack _); vm_compute; exact I|]. split; [|vm_compute; reflexivity].
  apply (bool_decide_unpack _). vm_compute. exact I.
Qed.
Lemma addrman_init_ok td : hruns (hsk_addrman_init td hsk_seeds) (fun r => exists am, r = (HSK_SUCCESS, Some am) /\ am_ok 0 am).
Proof.
  destruct seeds_parse as (E & Hw & Hnd & Hl). revert E Hw Hnd Hl. generalize hsk_seeds, seed_addrs. intros seeds addrs E Hw Hnd Hl.
  unfold hsk_addrman_init. hstep; [by apply (hruns_ask (fun _ => True))|intros n _]. rewrite pho_al. cbn [negb].
  hstep; [apply (seed_loop_ok td 0 seeds addrs)|intros am Ham; apply hruns_ret; by eexists].
  - split; cbn; [unfold HSK_ADDR_MAX; lia|constructor| |exists ∅; by apply tabled_init].
    exists ∅. split; [by apply tabled_init|]. intros a i. rewrite lookup_empty. split; [done|]. by intros [_ (e & He & _)].
  - exact E.
  - exact Hw.
  - exact Hnd.
  - rewrite Hl. cbn. unfold HSK_ADDR_MAX. lia.
Qed.
End Ops.

(** * Runs of operations *)

Inductive am_op :=
  | AddAddr (addr : hsk_addr_t)
  | AddNa (na : hsk_netaddr_t)
  | Remove (addr : hsk_addr_t)
  | Attempt (addr : hsk_addr_t)
  | Success (addr : hsk_addr_t)
  | Ack (addr : hsk_addr_t) (services : Z)
  | Ban (addr : hsk_addr_t)
  | IsBanned (addr : hsk_addr_t)
  | ClearBans
  | Pick (connected : hsk_map_t hsk_addr_t Z).
(** Operations tell whether they did something; [Pick] tells the address. *)
Inductive am_result := Did (b : bool) | Picked (addr : option hsk_addr_t).
Definition did {S} (r : bool * S) : am_result * S := (Did (fst r), snd r).

Section Runs.
Context `{PoolHost}.
Implicit Types (am : hsk_addrman_t) (td : hsk_timedata_t).
Definition am_step td am (op : am_op) : hio (am_result * hsk_addrman_t) :=
  match op with
  | AddAddr addr => r ← hsk_addrman_add_addr td am addr; mret (did r)
  | AddNa na => r ← hsk_addrman_add_na td am na; mret (did r)
  | Remove addr => r ← hsk_addrman_remove_addr am addr; mret (did r)
  | Attempt addr => r ← hsk_addrman_mark_attempt td am addr; mret (did r)
  | Success addr => r ← hsk_addrman_mark_success td am addr; mret (did r)
  | Ack addr services => r ← hsk_addrman_mark_ack td am addr services; mret (did r)
  | Ban addr => r ← hsk_addrman_add_ban am addr; mret (did r)
  | IsBanned addr => r ← hsk_addrman_is_banned am addr; mret (did r)
  | ClearBans => am ← hlift (hsk_addrman_clear_banned am); mret (Did true, am)
  | Pick connected => r ← hsk_addrman_pick_addr td am connected; mret (Picked (fst r), snd r)
  end.
Fixpoint am_steps td am (ops : list am_op) : hio (list am_result * hsk_addrman_t) :=
  match ops with
  | [] => mret ([], am)
  | op :: ops => r ← am_step td am op; rs ← am_steps td (snd r) ops; mret (fst r :: fst rs, snd rs)
  end.
Definition am_run td (ops : list am_op) : hio (option (list am_result * hsk_addrman_t)) :=
  r ← hsk_addrman_init td hsk_seeds;
  match snd r with None => mret None | Some am => rs ← am_steps td am ops; mret (Some rs) end.
End Runs.

Definition am_op_ok (op : am_op) : Prop :=
  match op with
  | AddAddr a | Remove a | Attempt a | Success a | Ack a _ | Ban a | IsBanned a => addr_wf a
  | AddNa na => addr_wf (na_addr na)
  | ClearBans => True
  | Pick connected => exists c (C : gmap (Z * list Z * Z) Z), tabled c connected C
  end.
(** A picked address is valid and not in the table of those that are connected. *)
Definition am_result_ok (op : am_op) (r : am_result) : Prop :=
  match op, r with
  | Pick connected, Picked (Some a) => hsk_addr_is_valid a = true /\ hsk_map_has connected a = Ret false
  | Pick _, Picked None => True
  | Pick _, Did _ | _, Picked _ => False
  | Ban _, Did b => b = true
  | _, Did _ => True
  end.

Section RunProps.
Context `{PoolHostOk}.
Lemma did_ok {Q : am_result -> Prop} b m : hruns m (fun r => am_ok b (snd r)) -> (forall x, Q (Did x)) ->
  hruns (r ← m; mret (did r)) (fun r => Q (fst r) /\ am_ok b (snd r)).
Proof. intros Hm HQ. hstep; [exact Hm|]. intros r Hr. apply hruns_ret. split; [apply HQ|exact Hr]. Qed.
Lemma am_step_ok td b am op : am_ok b am -> am_op_ok op -> b < 2 ^ 28 ->
  hruns (am_step td am op) (fun r => am_result_ok op (fst r) /\ am_ok (b + 1) (snd r)).
Proof.
  intros Hok Hop Hb. assert (Hmore : forall m, hruns m (fun r : bool * _ => am_ok b (snd r)) -> hruns m (fun r => am_ok (b + 1) (snd r))).
  { intros m Hm. eapply hruns_weaken; [exact Hm|]. intros r Hr. apply (am_ok_mono b); [exact Hr|lia]. }
  destruct op as [a|na|a|a|a|a services|a|a| |connected]; cbn [am_step am_op_ok] in *;
    try (apply (did_ok (Q := am_result_ok _)); [apply Hmore|done]).
  - eapply hruns_weaken; [by apply (add_now_ok td b)|by intros r [Hr _]].
  - eapply hruns_weaken; [by apply (add_entry_ok td b)|by intros r [Hr _]].
  - by apply remove_addr_ok.
  - by apply mark_attempt_ok.
  - by apply mark_success_ok.
  - by apply mark_ack_ok.
  - hstep; [by apply (add_ban_ok b)|]. intros r [Ht Hr]. apply hruns_ret. by split.
  - eapply hruns_weaken; [by apply (is_banned_ok b)|by intros r [Hr _]].
  - destruct (clear_banned_ok b am Hok) as (am' & E & Hok'). hstep; [by apply (hruns_lift _ _ (fun x => x = am') E)|]. intros x ->.
    apply hruns_ret. split; [done|]. apply (am_ok_mono b); [done|lia].
  - destruct Hop as (c & C & HC). hstep; [by eapply pick_addr_ok|]. intros [[a|] am'] [Hok' Ha]; cbn [fst snd] in *; apply hruns_ret; cbn [fst snd].
    + destruct Ha as (Hw & Hv & Hn). split; [|apply (am_ok_mono b); [done|lia]]. split; [done|]. rewrite (tabled_has c connected C a HC Hw).
      by rewrite bool_decide_eq_false_2 by (rewrite Hn; apply is_Some_None).
    + split; [done|]. apply (am_ok_mono b); [done|lia].
Qed.
Lemma am_steps_ok td ops : forall b am, am_ok b am -> Forall am_op_ok ops -> b + Z.of_nat (length ops) <= 2 ^ 28 ->
  hruns (am_steps td am ops) (fun r => Forall2 am_result_ok ops (fst r) /\ am_ok (b + Z.of_nat (length ops)) (snd r)).
Proof.
  induction ops as [|op ops IH]; intros b am Hok Hops Hb; cbn [am_steps length] in *.
  - apply hruns_ret. split; [constructor|]. by rewrite Z.add_0_r.
  - apply Forall_cons in Hops as [Hop Hops]. hstep; [apply (am_step_ok td b); [done|done|lia]|]. intros r [Hr Hok'].
    hstep; [apply (IH (b + 1)); [done|done|lia]|]. intros rs [Hrs Hok'']. apply hruns_ret. split; [by constructor|].
    eapply am_ok_mono; [exact Hok''|lia].
Qed.
End RunProps.

(** C35: the address manager. It starts with the seeds, and whatever sequence of fewer than [2 ^ 28] operations follows, with
    whatever clock and random numbers, every operation returns: the search with its growing chances ends within 45 rounds, no assertion
    fails and no place outside the array is used. There are never more than 2000 entries, with different addresses; each is what the table of addresses gives
    for its address, and its reference count is from 1 to 8. A picked address is valid and is not one of those connected, and a
    ban is always taken. *)
Theorem addrman_correct `{PoolHostOk} (td : hsk_timedata_t) (ops : list am_op) (n : nat) : Forall am_op_ok ops -> Z.of_nat (length ops) <= 2 ^ 28 ->
  exists rs am n', am_run td ops n = Ret (Some (rs, am), n') /\ Forall2 am_result_ok ops rs /\ (length (am_addrs am) <= HSK_ADDR_MAX)%nat /\
  forall i e, am_addrs am !! i = Some e -> 1 <= en_ref_count e <= HSK_MAX_REFS /\ hsk_addrman_get am (en_addr e) = Ret (Some e) /\
    forall j e', am_addrs am !! j = Some e' -> hsk_addr_equal (en_addr e') (en_addr e) = true -> j = i.
Proof.
  intros Hops Hlen. destruct (addrman_init_ok td n) as ([rc o] & n1 & E1 & am0 & [= -> ->] & Hok).
  destruct (am_steps_ok td ops 0 am0 Hok Hops Hlen n1) as ([rs am] & n2 & E2 & Hrs & Hok').
  exists rs, am, n2. split; [unfold am_run, mbind, hio_bind; rewrite E1; cbn; by rewrite E2|]. split; [done|]. split; [apply Hok'|].
  intros i e He. assert (Hent := Forall_lookup_1 _ _ _ _ (ao_entries _ _ Hok') He). destruct Hent as [Hw Href]. split; [done|].
  destruct (ao_index _ _ Hok') as (M & HM & Hi). assert (HMi : M !! norm (en_addr e) = Some i) by (apply Hi; split; [done|by exists e]). cbn [snd] in *. split.
  - unfold hsk_addrman_get. rewrite (tabled_get _ _ _ _ HM Hw), HMi. cbn [obind]. unfold entry_at. by rewrite He.
  - intros j e' He' Heq. assert (Hw' := proj1 (Forall_lookup_1 _ _ _ _ (ao_entries _ _ Hok') He')). apply (@equal_norm hsk_addr_t _ _ addr_key _ _ Hw' Hw) in Heq.
    assert (M !! norm (en_addr e') = Some j) by (apply Hi; split; [done|by exists e']). congruence.
Qed.
(** A host with a clock that stands still. *)
Definition plain_host : PoolHost := {| ph_clock _ := 1700000000; ph_random n := Z.of_nat n * 7919; ph_al _ _ := true; ph_uv _ := 0; ph_socket _ := true;
  ph_pton := quad_pton; ph_ntop _ _ _ := None |}.
Lemma plain_host_ok : @PoolHostOk plain_host.
Proof. split; [done|done|done|intros s ip E; exact E|done]. Qed.
Definition some_addr : hsk_addr_t := mk_addr 0 (replicate 10 0 ++ [255; 255; 8; 8; 8; 8] ++ replicate 20 0) 44806 (replicate 33 0).
Lemma addrman_correct_witness : exists rs am n',
  @am_run plain_host hsk_timedata_init [AddAddr some_addr; Ban some_addr; Pick hsk_map_init_map; Attempt some_addr; Remove some_addr; ClearBans] 0%nat = Ret (Some (rs, am), n') /\
  (length (am_addrs am) <= HSK_ADDR_MAX)%nat /\ length rs = 6%nat.
Proof.
  destruct (@addrman_correct plain_host plain_host_ok hsk_timedata_init
    [AddAddr some_addr; Ban some_addr; Pick hsk_map_init_map; Attempt some_addr; Remove some_addr; ClearBans] 0%nat) as (rs & am & n' & E & Hrs & Hl & _).
  - assert (addr_wf some_addr) by (apply (bool_decide_unpack _); vm_compute; exact I). repeat constructor; try done.
    exists 0, ∅. by apply tabled_init.
  - apply Z.leb_le. reflexivity.
  - exists rs, am, n'. split; [exact E|]. split; [exact Hl|]. by apply Forall2_length in Hrs.
Defined.
